(* ===== verification/_CoqProject ===== *)
-Q . S2P
Prelude.v
Mem.v
Ber.v
BerSpec.v
BerRound.v
BerSafe.v
BerTheorems.v
CStr.v
Oid.v
OidTheorems.v
Util.v
UtilTheorems.v
Job.v
JobTheorems.v
Digest.v
MD5.v
SHA.v
Obj.v
ObjTheorems.v
Snmp.v
Usm.v
UsmTheorems.v
SnmpEnc.v
SnmpSpec.v
SnmpDec.v
SnmpRound.v
SnmpTheorems.v
SnmpTrap.v
SnmpSafe.v
Inst.v
InstTheorems.v
Queue.v
QueueInv.v
QueueTheorems.v
Callback.v
Mib.v
Agent.v
AgentTree.v
AgentInv.v
AgentRequest.v
AgentSet.v
AgentTheorems.v
Hint.v
HintTheorems.v
HintValues.v
MibTree.v
MibTreeInv.v
MibTreeFind.v
MibTreeAdd.v
MibNames.v
OidObj.v
MibNamesTheorems.v
MibIndex.v
MibIndexTheorems.v
NetMapBase.v
NetMapItem.v
NetMapInv.v
NetMapDelete.v
NetMapEvent.v
NetMap.v
NetMapCmd.v
NetMapConfig.v
NetMapCreate.v
NetMapWorld.v
NetMapTheorems.v
NetMapFind.v
MibLexer.v
MibParser.v
MibMacro.v
MibCmd.v
MibWalk.v
MibLex.v
MibLayout.v
MibRead.v
MibModule.v
MibModuleRead.v
MibModuleFile.v
MibModuleLoad.v
MibParseEnds.v
