(* ===== verification/Prelude.v ===== *)
(** * Tnm: the network management engine of Scotty and Tkined

    The repository holds Tnm, a Tcl extension for network management written in
    C ([src/tnm]), and Tkined, a graphical editor on top of it ([src/tkined]).
    The core of Tnm is an SNMP engine with its MIB, a scheduler of jobs and the
    network maps of the editor.  This library models that core.

    ** The parts and how they interact

    - [tnmAsn1.c] is a stream over a packet with a procedure to write and one to
      read each ASN.1 type.  Everything that goes over the network passes
      through it.  [tnmAsn1.c] and [tnmOidObj.c] hold the representations of
      object identifiers: dotted strings, vectors of subidentifiers, Tcl objects.
    - [tnmSnmpSend.c] turns a session and a PDU into a packet, [tnmSnmpRecv.c]
      a packet into a message and a PDU; [tnmSnmpUsm.c], [tnmMD5.c] and
      [tnmSHA.c] hold the keys and digests of the user based security model.
    - [tnmSnmpUtil.c] and [tnmSnmpNet.c] queue the requests that wait for a
      response, within the window of each session, and send them again.
    - [tnmSnmpInst.c] and [tnmSnmpAgent.c] are the agent: a tree of instances,
      bound to Tcl variables and scripts, that get, getnext, getbulk and set
      requests work on.
    - [tnmMibParser.c] reads a MIB file into a list of definitions and types,
      [tnmMibTree.c] builds the tree of MIB nodes from them, [tnmMibUtil.c] finds
      nodes in it, converts values under display hints and instance identifiers of
      table rows; [tnmOidObj.c] is the Tcl object type of object identifiers that
      print as names; [tnmMibTcl.c] is the command [mib], which loads files and
      answers questions about the tree.
    - [tnmMap.c], [tnmMapUtil.c], [tnmMapEvent.c] and the item types
      [tnmMapNode.c], [tnmMapPort.c], [tnmMapNet.c], [tnmMapLink.c],
      [tnmMapGroup.c] keep network maps: items that refer to each other, with
      events, bindings and messages.
    - [tnmJob.c] executes scripts regularly; [tnmObj.c] holds Tcl object types and
      [tnmUtil.c] the tables, option parsing, vectors, address and string
      conversions the other parts use.

    ** Files

    - [Prelude.v]: C integers of 8, 16 and 32 bits ([u8], [s16], [u32], [s32]) in
      [Z] with their wrap-around, bytes, tactics, hint databases, list lemmas.
      [Mem.v]: memory under [Tcl_Preserve] and [Tcl_EventuallyFree].
      [CStr.v]: C strings, character classes and the [sprintf] formats in use.
    - [Ber.v]: the stream [TnmBer] and all procedures [TnmBer...] of
      [tnmAsn1.c], in the monad [BerM].  [BerSpec.v]: the octets of each type as
      pure functions ([tlv], [int_octets], [oid_octets], [len_octets], ...) and
      the proof that the encoders write them; [BerRound.v]: the decoders read
      them; [BerSafe.v]: memory safety; [BerTheorems.v]: the results.
    - [Oid.v], [OidTheorems.v]: [TnmOidToStr], [TnmStrToOid], and the structure
      [TnmOid] of [tnmOidObj.c] with its static and dynamic storage.
    - [Util.v], [UtilTheorems.v]: the procedures of [tnmUtil.c].
    - [Obj.v], [ObjTheorems.v]: the object types of [tnmObj.c].
    - [Job.v], [JobTheorems.v]: the scheduler [tnmJob.c].
    - [Digest.v], [MD5.v], [SHA.v]: the digests [tnmMD5.c], [tnmSHA.c] next to
      their standards; [Usm.v], [UsmTheorems.v]: [tnmSnmpUsm.c].
    - [Snmp.v]: constants, tables, statistics, sessions, PDUs and messages of
      [tnmSnmp.h] and [tnmSnmpRecv.c]; the class [SnmpEnv] is the interface to
      what encoding and decoding call in Tcl, in the system and in the MIB.
    - [SnmpEnc.v]: [tnmSnmpSend.c] from [TnmSnmpEncode] down to the varbinds, in
      the monad [EncM]; [SnmpDec.v]: [DecodeMessage] of [tnmSnmpRecv.c] and all it
      calls, in [DecM], and [Authentic].
    - [SnmpSpec.v]: the message format as octets of abstract messages, and the
      proof that the encoder writes it; [SnmpRound.v]: the decoder reads it;
      [SnmpTheorems.v]: round trips, authentication; [SnmpTrap.v]: traps, from
      the identifier of a notification to the numbers of SNMPv1 and back;
      [SnmpSafe.v]: safety of decoding any packet.
    - [Queue.v], [QueueInv.v], [QueueTheorems.v]: the request queue of
      [tnmSnmpUtil.c], the timeouts of [tnmSnmpNet.c] and the dispatch of
      responses in [tnmSnmpRecv.c].  [Callback.v]: the substitution of scripts.
    - [Inst.v], [InstTheorems.v]: the tree of instances of the SNMP agent,
      [tnmSnmpInst.c].  A node is its fields and the list of its children; a
      pointer to a node is the path to it.
    - [Agent.v]: [tnmSnmpAgent.c]; [AgentTree.v], [AgentInv.v]: what its
      operations keep, get requests and an example; [AgentSet.v]: set requests;
      [AgentRequest.v], [AgentTheorems.v]: from packet to packet, the cache.
    - [Mib.v]: the data of [tnmMib.h]; [Hint.v]: display hints, with
      [HintTheorems.v] and [HintValues.v] (scanned back, bounds).
    - [MibTree.v]: [tnmMibTree.c] and the searches of [tnmMibUtil.c]; its shape
      in memory in [MibTreeInv.v], [BuildSubTree] and searching in
      [MibTreeFind.v], [TnmMibAddNode] and an example in [MibTreeAdd.v].
    - [MibNames.v]: names and identifiers of nodes, [OidObj.v]: the object type of
      [tnmOidObj.c], both with [MibNamesTheorems.v]; [MibIndex.v],
      [MibIndexTheorems.v]: instance identifiers.
    - [MibLexer.v]: [ReadKeyword] and its table of keywords; [MibParser.v]: the state
      of the parser and the monad [parse], enumerations, ranges, types, values of
      object identifiers; [MibMacro.v]: the macros, the header of a module, the loop
      [ParseFile] and [TnmMibParse].  [MibCmd.v]: every subcommand of
      [Tnm_MibObjCmd] and loading files; Tcl and the files are the class [MibTcl].
      [MibWalk.v]: the commands that walk, list children, pack and unpack.
    - [MibLex.v], [MibLayout.v]: texts as layouts of tokens (white space and
      comments) and what [ReadKeyword] makes of them; [MibModule.v]: a module as
      data, the tokens it is written with and the nodes it stands for;
      [MibRead.v], [MibModuleRead.v] (clauses), [MibModuleFile.v] (definitions and
      the file): the parser reads it; [MibModuleLoad.v]: loading it into the tree;
      [MibParseEnds.v]: on which files the parser returns.
    - [NetMapBase.v]: the data of [tnmMap.h]; [NetMapItem.v]: items and their
      options ([tnmMapUtil.c] and the item types); [NetMapEvent.v]:
      [tnmMapEvent.c]; [NetMap.v]: [tnmMap.c]; [NetMapCmd.v]: the Tcl commands.
      [NetMapInv.v]: the structure of the items; [NetMapDelete.v],
      [NetMapConfig.v], [NetMapCreate.v], [NetMapWorld.v]: what each operation
      makes of it; [NetMapTheorems.v], [NetMapFind.v]: sequences of operations
      and the results.

    ** How the C code is rendered

    An array is a list and a pointer into it an offset.  Every read and every
    write is checked against the length of the list; an access outside is the
    value [Fault OutOfBounds] (or [None] where a definition has no other way to
    fail), never a default.  [return NULL] and error codes are values of the
    monads.  [BerM] has [Null] for a [NULL] stream; decoding stops there, while
    the encoder of messages goes on with a [NULL] stream as the C code does, so
    [EncM] keeps the stream as an option.  A [Tcl_Interp] appears as its result
    string.  [unsigned] and [int] arithmetic wraps; a shift by the width of the
    type is [Fault ShiftRange].

    Structures that point to each other (jobs, requests, MIB nodes, maps and
    items) live in a store under their addresses; a read from an address that
    was released is the outcome [UseAfterFree] of [Mem.v].

    Loops that are bounded by the data are structural.  The others have fuel,
    and theorems state that it is enough:
    - [dec_oid_loop] and [dec_oid_subid] get the size of the packet plus two, and
      [decode_varbinds] the size of the packet plus one: every round reads an
      octet ([BerTheorems.ber_decoders_safe], [SnmpSafe.snmp_decode_safe]);
    - a key is the digest of a megabyte, 16384 blocks ([key_fuel]); a digest
      takes one round for each block;
    - the scheduler takes one round for each job of its list and one more;
      [activate] one round for each request of the queue and one more, and
      [TnmSnmpTimeoutProc] calls itself at most once;
    - loops over a display hint take a round for each octet or group, walks over
      lists of the MIB tree a round for each node, [BuildSubTree] at most
      [(n + 1)^2 + 1] rounds for [n] nodes;
    - deletion of an item nests three deep, because links have no links and
      ports no ports; the chain of parents is no longer than the number of items;
      a map is cleared in one round for each item;
    - every loop of the MIB parser reads a keyword in each round, so it gets a
      round for each keyword that is left in the file and three more; the loop
      behind a [{] outside of a module does not end in C either
      ([MibParseEnds.mib_parse_ends]).

    What is not in the repository is a parameter: [Tcl_GetInt], [Tcl_GetLong],
    [Tcl_GetDouble], [Tcl_StringMatch], regular expressions, lists,
    [Tcl_GlobalEval], [inet_addr], [gethostbyname], [rand], [qsort], the order of
    a hash table, the octets of memory that was not initialised, the receiver of a
    response ([request_proc]), [Tcl_DStringAppendElement], the content of the files
    that are opened.  A Tcl script that is evaluated is a function on
    the whole state, because it can call every command.  The MIB is a parameter of
    the message layer too, so its theorems hold whatever MIB is loaded.

    ** What the theorems show

    - Round trips: each BER type, object identifiers in both notations, and
      complete SNMPv1, SNMPv2c and SNMPv3 messages come back unchanged, and
      SNMPv1 traps as notifications; values under their display hints, names of
      MIB nodes and instance identifiers are read back, and the scanner of MIB
      files reads back the tokens a text is written from.  Where a value does not
      come back, the exact range is stated.
    - Safety: no decoder leaves the packet, decoding a message returns on every
      packet; formatting octets stays in its buffer; the request queue and the
      maps use no memory they released.  The inputs where the code does leave an
      array or uses released memory are proved as well
      ([NetMapTheorems.failed_create_dangles] and the lemmas the findings name).
    - Invariants: what is reachable by any sequence of operations is well formed:
      the jobs, the queue and its windows, the MIB tree, the items of the maps.
    - Refinement and equivalence: [TnmOid] implements lists of subidentifiers,
      the tree of instances an ordered map, the digests MD5 and SHA; loading the
      text of a MIB module adds the nodes the module stands for.
    - Functional behaviour: the agent answers from its map of instances and a set
      request takes effect as a whole or not at all; a getnext request gets the
      lexicographic successor; responses reach the request they answer; deletion
      of an item takes what depends on it; the health of items; searching; a walk
      over the MIB tree is in lexicographic order.
    - Termination: the MIB parser, walks over instances, and the loops above.
    - Liveness: a scheduler pass executes each job that is due once; every request
      ends with a response or a timeout.

    ** Not modelled

    Sockets and processes, and the commands that are mostly input and output
    ([tnmSnmpNet.c] beyond timeouts, [tnmUdp.c], [tnmDns.c], [tnmSunRpc.c],
    [tnmNetdb.c], [tnmNtp.c], [tnmIcmp.c], [nmicmpd.c], [nmtrapd.c], [tnmSmx.c],
    [tnmSyslog.c], [tnmIned.c]); the Tcl commands around the sessions
    ([tnmSnmpTcl.c]); the frozen MIB files ([tnmMibFrozen.c]), which
    [TnmMibLoadFile] never asks for, the messages of the MIB parser on [stderr] with
    their line numbers, and libsmi ([tnmSmiTcl.c]), which is not built in; the command
    that waits for jobs; the files in which messages of maps are kept; the Tkined
    editor; the code under [#ifdef TNM_SNMPv2U], which is not compiled. *)

From stdpp Require Export prelude strings.
From Stdlib Require Export ZArith Lia ZifyNat.

#[global] Set Default Proof Using "Type".
Global Set Warnings "-notation-overridden".

(** Reduce closed arithmetic during [lia] pre-processing: [/] and [mod] by
    constants become linear equations. *)
Ltac Zify.zify_post_hook ::= Z.div_mod_to_equations.

(** Closed decidable goals by evaluation. *)
Ltac by_eval := apply (bool_decide_unpack _); vm_compute; exact I.

(** ** Rewrite and hint databases *)

Create HintDb cint.
Create HintDb ber.
Create Rewrite HintDb cint.
Create Rewrite HintDb ber.

Open Scope Z_scope.

(** ** Machine integers

    A C integer of width [w] is a [Z]; every operation of the source that can
    leave the range is followed by one of these conversions.  [u8], [u32] and
    [u64] are the unsigned conversions (reduction modulo [2^w]) and [s32] is
    the two's complement reading of the low 32 bits. *)

Declare Scope cint_scope.
Delimit Scope cint_scope with cint.

Definition u8 (z : Z) : Z := z mod 256.
Definition u16 (z : Z) : Z := z mod 65536.
Definition u32 (z : Z) : Z := z mod 4294967296.
Definition u64 (z : Z) : Z := z mod 18446744073709551616.
Definition s32 (z : Z) : Z :=
  let m := z mod 4294967296 in
  if bool_decide (m < 2147483648) then m else m - 4294967296.

Notation "x .& y" := (Z.land x y) (at level 45, left associativity) : cint_scope.
Notation "x .| y" := (Z.lor x y) (at level 47, left associativity) : cint_scope.
Notation "x .^ y" := (Z.lxor x y) (at level 46, left associativity) : cint_scope.
Notation "x << n" := (Z.shiftl x n) (at level 42, left associativity) : cint_scope.
Notation "x >> n" := (Z.shiftr x n) (at level 42, left associativity) : cint_scope.

Definition s16 (z : Z) : Z :=
  let m := z mod 65536 in if bool_decide (m < 32768) then m else m - 65536.

(** The result codes of Tcl commands and of the procedures that follow their
    convention. *)
Inductive tcl_code := TCL_OK | TCL_ERROR.

(** Ranges of the C types. *)
Definition is_byte (z : Z) : Prop := 0 <= z < 256.
Definition is_s32 (z : Z) : Prop := -2147483648 <= z < 2147483648.
Definition is_u32 (z : Z) : Prop := 0 <= z < 4294967296.

#[global] Instance is_byte_dec z : Decision (is_byte z).
Proof. unfold is_byte. apply _. Defined.
#[global] Instance is_s32_dec z : Decision (is_s32 z).
Proof. unfold is_s32. apply _. Defined.
#[global] Instance is_u32_dec z : Decision (is_u32 z).
Proof. unfold is_u32. apply _. Defined.

Lemma u8_byte z : is_byte (u8 z).
Proof. unfold is_byte, u8. lia. Qed.

Lemma u8_id z : is_byte z -> u8 z = z.
Proof. unfold is_byte, u8. lia. Qed.

Lemma u8_idemp z : u8 (u8 z) = u8 z.
Proof. apply u8_id, u8_byte. Qed.

Lemma u32_range z : is_u32 (u32 z).
Proof. unfold is_u32, u32. lia. Qed.

Lemma u32_id z : is_u32 z -> u32 z = z.
Proof. unfold is_u32, u32. lia. Qed.

Lemma s32_range z : is_s32 (s32 z).
Proof. unfold is_s32, s32. case_bool_decide; lia. Qed.

Lemma s32_id z : is_s32 z -> s32 z = z.
Proof. unfold is_s32, s32. intros. case_bool_decide; lia. Qed.

Lemma s16_id z : -32768 <= z < 32768 -> s16 z = z.
Proof. unfold s16. intros. case_bool_decide; lia. Qed.

Lemma s32_mod z : s32 z mod 4294967296 = z mod 4294967296.
Proof. unfold s32. case_bool_decide; lia. Qed.

Lemma s32_unique z v : is_s32 v -> v mod 4294967296 = z mod 4294967296 -> s32 z = v.
Proof. unfold is_s32, s32. intros. case_bool_decide; lia. Qed.

(** Signed reading of a value that is unsigned: the conversion [(int) x]. *)
Lemma u32_s32 z : u32 (s32 z) = u32 z.
Proof. apply s32_mod. Qed.

Lemma s32_u32 z : s32 (u32 z) = s32 z.
Proof. unfold s32, u32. rewrite Z.mod_mod by lia. done. Qed.

(** Testing a single bit with a mask. *)
Lemma land_pow2_zero z n : 0 <= n -> Z.land z (2 ^ n) = 0 <-> Z.testbit z n = false.
Proof.
  intros Hn. split; intros E.
  - assert (Hb : Z.testbit (Z.land z (2 ^ n)) n = false) by (by rewrite E, Z.bits_0).
    rewrite Z.land_spec, Z.pow2_bits_true in Hb by done. by rewrite andb_true_r in Hb.
  - apply Z.bits_inj_0. intros i. rewrite Z.land_spec. destruct (decide (i = n)) as [->|Hi].
    + by rewrite E.
    + rewrite Z.pow2_bits_false by done. apply andb_false_r.
Qed.

#[export] Hint Resolve u8_byte u32_range s32_range : cint.
#[export] Hint Rewrite u8_idemp u32_s32 s32_u32 : cint.

(** ** Shifts and masks as arithmetic *)

Lemma land_255 z : Z.land z 255 = z mod 256.
Proof. change 255 with (Z.ones 8). by rewrite Z.land_ones. Qed.

Lemma land_127 z : Z.land z 127 = z mod 128.
Proof. change 127 with (Z.ones 7). by rewrite Z.land_ones. Qed.

Lemma shiftl_8 z : Z.shiftl z 8 = z * 256.
Proof. by rewrite Z.shiftl_mul_pow2. Qed.

Lemma shiftl_7 z : Z.shiftl z 7 = z * 128.
Proof. by rewrite Z.shiftl_mul_pow2. Qed.

Lemma shiftr_pow2 z n : 0 <= n -> Z.shiftr z n = z / 2 ^ n.
Proof. intros. by rewrite Z.shiftr_div_pow2. Qed.

(** A shifted value and a small one do not overlap. *)
Lemma lor_shiftl_add a b n :
  0 <= n -> 0 <= b < 2 ^ n -> Z.lor (Z.shiftl a n) b = a * 2 ^ n + b.
Proof.
  intros Hn Hb.
  rewrite <- Z.shiftl_mul_pow2 by done.
  symmetry. rewrite <- Z.lxor_lor; [apply Z.add_nocarry_lxor|];
    apply Z.bits_inj'; intros i Hi; rewrite Z.land_spec, Z.bits_0;
    (destruct (Z.lt_ge_cases i n) as [?|?];
      [by rewrite Z.shiftl_spec_low by lia
      |rewrite <- (Z.mod_small b (2 ^ n)), Z.mod_pow2_bits_high by lia;
       apply andb_false_r]).
Qed.

Lemma lor_shiftl8 a b : is_byte b -> Z.lor (Z.shiftl a 8) b = a * 256 + b.
Proof. intros. by rewrite lor_shiftl_add. Qed.

(** [0x80 + n] and the like: adding a flag above a small value is [lor]. *)
Lemma lor_128 b : 0 <= b < 128 -> Z.lor b 128 = b + 128.
Proof.
  intros. rewrite Z.lor_comm.
  replace (Z.lor 128 b) with (Z.lor (Z.shiftl 1 7) b) by done.
  rewrite lor_shiftl_add by (simpl; lia). lia.
Qed.

(** ** Lists used as arrays *)

Section lists.
Context {A : Type}.
Implicit Types l k : list A.

(** [take] of an update below and above the cut. *)
Lemma take_S_insert l i x :
  (i < length l)%nat -> take (S i) (<[i:=x]> l) = take i l ++ [x].
Proof.
  intros. erewrite take_S_r by (by apply list_lookup_insert_eq).
  by rewrite take_insert_ge.
Qed.

Lemma drop_nil_ge l i : (length l <= i)%nat -> drop i l = [].
Proof. apply drop_ge. Qed.

Lemma lookup_app_mid l x k : (l ++ x :: k) !! length l = Some x.
Proof. by rewrite lookup_app_r, Nat.sub_diag by lia. Qed.

Lemma insert_app_mid l x y k : <[length l:=y]> (l ++ x :: k) = l ++ y :: k.
Proof. by rewrite insert_app_r_alt, Nat.sub_diag by lia. Qed.
End lists.

(** Right-nest appends, looking under the conses they leave in the way. *)
Ltac app_norm :=
  repeat (progress (rewrite <- ?app_assoc; cbn [app])).

(** All elements of a buffer are bytes. *)
Definition bytes (l : list Z) : Prop := Forall is_byte l.

#[global] Instance bytes_dec l : Decision (bytes l).
Proof. unfold bytes. apply _. Defined.

Lemma bytes_lookup l i x : bytes l -> l !! i = Some x -> is_byte x.
Proof. intros Hl. by eapply Forall_lookup_1. Qed.

Lemma bytes_app l k : bytes (l ++ k) <-> bytes l /\ bytes k.
Proof. apply Forall_app. Qed.

Lemma bytes_cons x l : bytes (x :: l) <-> is_byte x /\ bytes l.
Proof. apply Forall_cons. Qed.

Lemma bytes_insert l i x : bytes l -> is_byte x -> bytes (<[i:=x]> l).
Proof. intros. by apply Forall_insert. Qed.

#[export] Hint Resolve bytes_lookup bytes_insert : cint.
