(* ===== verification/Mem.v ===== *)
(** Memory managed with [Tcl_Preserve], [Tcl_Release] and [Tcl_EventuallyFree].

    Structures live under addresses.  A structure that is freed while it is
    preserved stays in memory until it is released last.  A read from an address
    that is not in memory any more is the outcome [UseAfterFree]. *)

From stdpp Require Import gmap.
From S2P Require Import Prelude.
Local Open Scope nat_scope.

(** A result, an access to memory that was released, or a loop that has not
    ended. *)
Inductive run_result (A : Type) := Ok (a : A) | UseAfterFree | NoFuel.
Arguments Ok {A} a.
Arguments UseAfterFree {A}.
Arguments NoFuel {A}.

#[global] Instance run_ret : MRet run_result := fun A => Ok.
#[global] Instance run_bind : MBind run_result := fun A B k m =>
  match m with Ok a => k a | UseAfterFree => UseAfterFree | NoFuel => NoFuel end.

Lemma run_bind_ok {A B} (a : A) (k : A -> run_result B) : Ok a ≫= k = k a.
Proof. done. Qed.

Lemma run_ok_inj {A} (a b : A) : Ok a = Ok b -> a = b.
Proof. by intros [= ->]. Qed.

Lemma run_bind_inv {A B} (m : run_result A) (k : A -> run_result B) b : m ≫= k = Ok b -> exists a, m = Ok a /\ k a = Ok b.
Proof. destruct m as [a| |]; [|done|done]. intros H. by exists a. Qed.

Record Mem (A : Type) := mkMem { mem_heap : gmap nat A; mem_preserved : gmap nat nat; mem_doomed : gset nat }.
Arguments mkMem {A}.
Arguments mem_heap {A}.
Arguments mem_preserved {A}.
Arguments mem_doomed {A}.

Section mem.
Context {A : Type}.
Implicit Types (m : Mem A) (a b : nat).

Definition mem_empty : Mem A := mkMem ∅ ∅ ∅.

Definition mem_read m a : run_result A :=
  match mem_heap m !! a with Some x => Ok x | None => UseAfterFree end.

Definition mem_update (f : A -> A) a m : Mem A := mkMem (alter f a (mem_heap m)) (mem_preserved m) (mem_doomed m).

(** [ckalloc]: an address that is not in use. *)
Definition mem_fresh m : nat := fresh (dom (mem_heap m)).
Definition mem_alloc a (x : A) m : Mem A := mkMem (<[a := x]> (mem_heap m)) (mem_preserved m) (mem_doomed m).

Definition mem_preserve a m : Mem A :=
  mkMem (mem_heap m) (<[a := S (default 0 (mem_preserved m !! a))]> (mem_preserved m)) (mem_doomed m).

Definition mem_free a m : Mem A :=
  match mem_preserved m !! a with
  | Some (S _) => mkMem (mem_heap m) (mem_preserved m) ({[a]} ∪ mem_doomed m)
  | _ => mkMem (delete a (mem_heap m)) (mem_preserved m) (mem_doomed m)
  end.

Definition mem_release a m : Mem A :=
  match mem_preserved m !! a with
  | Some (S (S n)) => mkMem (mem_heap m) (<[a := S n]> (mem_preserved m)) (mem_doomed m)
  | Some (S O) =>
      if bool_decide (a ∈ mem_doomed m)
      then mkMem (delete a (mem_heap m)) (delete a (mem_preserved m)) (mem_doomed m ∖ {[a]})
      else mkMem (mem_heap m) (delete a (mem_preserved m)) (mem_doomed m)
  | _ => m
  end.

(** What is preserved is in memory, what waits for its release is preserved. *)
Record mem_ok m : Prop := {
  ok_preserved : map_Forall (fun a n => 1 <= n /\ is_Some (mem_heap m !! a)) (mem_preserved m);
  ok_doomed : forall a, a ∈ mem_doomed m -> is_Some (mem_preserved m !! a)
}.

(** In memory and not about to be released. *)
Definition mem_alive m a : Prop := is_Some (mem_heap m !! a) /\ a ∉ mem_doomed m.

Lemma mem_empty_ok : mem_ok mem_empty.
Proof. split; [apply map_Forall_empty|]. intros a Ha. set_solver. Qed.

Lemma mem_read_Some m a x : mem_heap m !! a = Some x -> mem_read m a = Ok x.
Proof. unfold mem_read. by intros ->. Qed.

Lemma mem_read_None m a : mem_heap m !! a = None -> mem_read m a = UseAfterFree.
Proof. unfold mem_read. by intros ->. Qed.

Lemma lookup_update_is_Some f a b m : is_Some (mem_heap (mem_update f a m) !! b) <-> is_Some (mem_heap m !! b).
Proof.
  cbn. destruct (decide (a = b)) as [->|Hne]; [|by rewrite lookup_alter_ne].
  rewrite lookup_alter_eq. by rewrite fmap_is_Some.
Qed.

Lemma mem_update_ok f a m : mem_ok m -> mem_ok (mem_update f a m).
Proof.
  intros [H1 H2]. split; [|done]. intros b n Hb. destruct (H1 b n Hb) as [? ?]. split; [done|]. by apply lookup_update_is_Some.
Qed.

Lemma mem_update_alive f a b m : mem_alive (mem_update f a m) b <-> mem_alive m b.
Proof. unfold mem_alive. by rewrite lookup_update_is_Some. Qed.

Lemma mem_fresh_None m : mem_heap m !! mem_fresh m = None.
Proof. apply not_elem_of_dom. unfold mem_fresh. apply is_fresh. Qed.

Lemma mem_alloc_ok a x m : mem_ok m -> mem_ok (mem_alloc a x m).
Proof.
  intros [H1 H2]. split; [|done]. intros b n Hb. destruct (H1 b n Hb) as [? ?]. split; [done|]. cbn.
  rewrite lookup_insert_is_Some. destruct (decide (a = b)); [by left|by right].
Qed.

Lemma mem_fresh_alive x m : mem_ok m -> mem_alive (mem_alloc (mem_fresh m) x m) (mem_fresh m).
Proof.
  intros [H1 H2]. split; [cbn; by rewrite lookup_insert_eq|]. cbn. intros [n Hn]%H2.
  destruct (H1 _ n Hn) as [_ [y Hy]]. by rewrite mem_fresh_None in Hy.
Qed.

Lemma mem_preserve_ok a m : mem_ok m -> is_Some (mem_heap m !! a) -> mem_ok (mem_preserve a m).
Proof.
  intros [H1 H2] Ha. split; cbn.
  - intros b n. rewrite lookup_insert_Some. intros [[<- <-]|[_ Hb]]; [split; [lia|done]|by apply H1].
  - intros b Hb. rewrite lookup_insert_is_Some. destruct (decide (a = b)); [by left|right]. split; [done|by apply H2].
Qed.

Lemma mem_free_ok a m : mem_ok m -> mem_ok (mem_free a m).
Proof.
  intros [H1 H2]. unfold mem_free. destruct (mem_preserved m !! a) as [[|n]|] eqn:E.
  - destruct (H1 a 0 E). lia.
  - split; [done|]. cbn. intros b. rewrite elem_of_union, elem_of_singleton. intros [->|?]; [by rewrite E|by apply H2].
  - split; [|done]. cbn. intros b k Hb. destruct (H1 b k Hb) as [? ?]. split; [done|].
    rewrite lookup_delete_ne by (intros ->; congruence). done.
Qed.

Lemma mem_free_preserved a m : mem_preserved (mem_free a m) = mem_preserved m.
Proof. unfold mem_free. by repeat case_match. Qed.

Lemma mem_free_other a b m : a <> b -> mem_heap (mem_free a m) !! b = mem_heap m !! b /\ (mem_alive m b -> mem_alive (mem_free a m) b).
Proof.
  intros Hne. unfold mem_free, mem_alive. repeat case_match; cbn; rewrite ?lookup_delete_ne by done; split; try done;
    intros [? ?]; split; try done; set_solver.
Qed.

Lemma mem_free_sub a b m x : mem_heap (mem_free a m) !! b = Some x -> mem_heap m !! b = Some x.
Proof. unfold mem_free. repeat case_match; cbn; try done; by intros [_ ?]%lookup_delete_Some. Qed.

Lemma mem_release_sub a b m x : mem_heap (mem_release a m) !! b = Some x -> mem_heap m !! b = Some x.
Proof.
  unfold mem_release. repeat case_match; try done. case_bool_decide; cbn; [|done]. by intros [_ ?]%lookup_delete_Some.
Qed.

(** What is preserved survives. *)
Lemma mem_free_keeps a m : mem_ok m -> is_Some (mem_preserved m !! a) -> mem_heap (mem_free a m) !! a = mem_heap m !! a.
Proof.
  intros [H1 _] [n Hn]. unfold mem_free. rewrite Hn. destruct n; [|done]. destruct (H1 a 0 Hn). lia.
Qed.

Lemma mem_release_ok a m : mem_ok m -> mem_ok (mem_release a m).
Proof.
  intros [H1 H2]. unfold mem_release. destruct (mem_preserved m !! a) as [[|[|n]]|] eqn:E; try done.
  - case_bool_decide as Hd; split; cbn.
    + intros b k. rewrite lookup_delete_Some. intros [Hne Hb]. destruct (H1 b k Hb). by rewrite lookup_delete_ne.
    + intros b Hb. rewrite lookup_delete_is_Some. split; [set_solver|]. apply H2. set_solver.
    + intros b k. rewrite lookup_delete_Some. intros [Hne Hb]. by apply H1.
    + intros b Hb. rewrite lookup_delete_is_Some. split; [by intros ->|]. by apply H2.
  - split; cbn.
    + intros b k. rewrite lookup_insert_Some. intros [[<- <-]|[_ Hb]]; [split; [lia|by apply (H1 a _ E)]|by apply H1].
    + intros b Hb. rewrite lookup_insert_is_Some. destruct (decide (a = b)); [by left|right]. split; [done|by apply H2].
Qed.

(** Only what waits for its release disappears with the last release. *)
Lemma mem_release_alive a b m : mem_alive m b -> mem_alive (mem_release a m) b /\ mem_heap (mem_release a m) !! b = mem_heap m !! b.
Proof.
  intros [Hb Hd]. unfold mem_release, mem_alive. repeat case_match; try done. case_bool_decide as Ha; cbn; [|done].
  rewrite lookup_delete_ne by (intros ->; done). split; [|done]. split; [done|]. set_solver.
Qed.

Lemma mem_release_preserve a m m' : mem_ok m -> mem_preserved m' = mem_preserved (mem_preserve a m) ->
  mem_preserved (mem_release a m') = mem_preserved m.
Proof.
  intros [H1 _] E. unfold mem_release. rewrite E. cbn. rewrite lookup_insert_eq.
  destruct (mem_preserved m !! a) as [[|n]|] eqn:Ea; cbn.
  - destruct (H1 a 0 Ea). lia.
  - rewrite insert_insert_eq. by apply insert_id.
  - case_bool_decide; cbn; rewrite delete_insert_eq; by apply delete_id.
Qed.
End mem.
