(* ===== verification/Ber.v ===== *)
(** The ASN.1/BER stream of [src/tnm/snmp/tnmAsn1.c].

    [TnmBer] is the C structure of the same name: the memory between [start]
    and [end] is the list [ber_buf], and the pointer [current] is an offset
    from [start].  Every procedure of the file that takes a [TnmBer *] and
    returns one is a computation of the monad [BerM]: [Ret] is the returned
    stream together with the out parameters, [Null] is a [NULL] result (the
    stream, with its error text, stays observable by the caller), and [Fault]
    is undefined behaviour: an access outside an array, a shift by the width of
    the type.  A [NULL] stream passed to a procedure returns [NULL] at once,
    which is what [mbind] does. *)

From Stdlib Require Import QArith Qround.
From S2P Require Import Prelude.
Local Open Scope Z_scope.
Local Open Scope cint_scope.

(** ** Tags (tnmAsn1.h) *)

Definition ASN1_OTHER : Z := 0x00.
Definition ASN1_INTEGER : Z := 0x02.
Definition ASN1_OCTET_STRING : Z := 0x04.
Definition ASN1_NULL : Z := 0x05.
Definition ASN1_OBJECT_IDENTIFIER : Z := 0x06.
Definition ASN1_SEQUENCE : Z := 0x30.
Definition ASN1_SEQUENCE_OF : Z := 0x31.
Definition ASN1_IPADDRESS : Z := 0x40.
Definition ASN1_COUNTER32 : Z := 0x41.
Definition ASN1_GAUGE32 : Z := 0x42.
Definition ASN1_TIMETICKS : Z := 0x43.
Definition ASN1_OPAQUE : Z := 0x44.
Definition ASN1_COUNTER64 : Z := 0x46.
Definition ASN1_NO_SUCH_OBJECT : Z := 0x80.
Definition ASN1_NO_SUCH_INSTANCE : Z := 0x81.
Definition ASN1_END_OF_MIB_VIEW : Z := 0x82.
Definition ASN1_SNMP_GET : Z := 0xa0.
Definition ASN1_SNMP_GETNEXT : Z := 0xa1.
Definition ASN1_SNMP_RESPONSE : Z := 0xa2.
Definition ASN1_SNMP_SET : Z := 0xa3.
Definition ASN1_SNMP_TRAP1 : Z := 0xa4.
Definition ASN1_SNMP_GETBULK : Z := 0xa5.
Definition ASN1_SNMP_INFORM : Z := 0xa6.
Definition ASN1_SNMP_TRAP2 : Z := 0xa7.
Definition ASN1_SNMP_REPORT : Z := 0xa8.
Definition ASN1_SNMP_GETRANGE : Z := 0xaf.

(** ** The stream *)

(** The error text: a fixed message, or the [sprintf] format with its
    arguments (the byte position is [current - start]). *)
Inductive BerError :=
  | NoError
  | Msg (msg : string)
  | WrongValue (tag : Z) (pos : nat)
  | WrongLength (length tag : Z) (pos : nat)
  | WrongTag (tag : Z) (pos : nat) (expected : Z)
  | SeqUnderflow (pos : nat) (missing : Z)
  | SeqOverflow (pos : nat) (missing : Z).

Record TnmBer := mkBer {
  ber_buf : list Z;
  ber_current : nat;
  ber_error : BerError
}.

Inductive fault := OutOfBounds | ShiftRange | OutOfFuel.

Inductive outcome (A : Type) :=
  | Ret (a : A) (b : TnmBer)
  | Null (b : TnmBer)
  | Fault (f : fault).
Arguments Ret {A} a b.
Arguments Null {A} b.
Arguments Fault {A} f.

Definition BerM (A : Type) : Type := TnmBer -> outcome A.

#[global] Instance BerM_ret : MRet BerM := fun A a b => Ret a b.
#[global] Instance BerM_bind : MBind BerM := fun A B k m b =>
  match m b with
  | Ret a b' => k a b'
  | Null b' => Null b'
  | Fault f => Fault f
  end.

Definition ber_end (b : TnmBer) : nat := length (ber_buf b).

(** [ber->current] *)
Definition ber_pos : BerM nat := fun b => Ret (ber_current b) b.

Definition set_current (b : TnmBer) (n : nat) : TnmBer :=
  mkBer (ber_buf b) n (ber_error b).

Definition set_error (b : TnmBer) (e : BerError) : TnmBer :=
  mkBer (ber_buf b) (ber_current b) e.

(** [return NULL], with and without an error text. *)
Definition ber_null {A} : BerM A := fun b => Null b.
Definition ber_fail {A} (e : BerError) : BerM A := fun b => Null (set_error b e).
Definition ber_fault {A} (f : fault) : BerM A := fun _ => Fault f.

(** [*(start + p)] as an rvalue and as an lvalue of type [u_char]. *)
Definition ber_read (p : nat) : BerM Z := fun b =>
  match ber_buf b !! p with
  | Some x => Ret x b
  | None => Fault OutOfBounds
  end.

Definition ber_write (p : nat) (x : Z) : BerM unit := fun b =>
  if decide (p < ber_end b)%nat
  then Ret tt (mkBer (<[p := u8 x]> (ber_buf b)) (ber_current b) (ber_error b))
  else Fault OutOfBounds.

(** [ber->current += n;] *)
Definition ber_advance (n : nat) : BerM unit := fun b =>
  Ret tt (set_current b (ber_current b + n)).

(** [if (ber->current + len > ber->end)] after [len > 65535] *)
Definition ber_too_long (b : TnmBer) (len : Z) : bool :=
  bool_decide (65535 < len)
  || bool_decide (Z.of_nat (ber_end b) < Z.of_nat (ber_current b) + len).

Definition TnmBerCreate (packet : list Z) (packetlen : Z) : TnmBer :=
  if bool_decide (0 < packetlen)
  then mkBer (take (Z.to_nat packetlen) packet) 0 NoError
  else mkBer [] 0 NoError.

Definition TnmBerGetError (b : TnmBer) : BerError := ber_error b.
Definition TnmBerSetError (b : TnmBer) (msg : string) : TnmBer := set_error b (Msg msg).
Definition TnmBerWrongValue (b : TnmBer) (tag : Z) : TnmBer :=
  set_error b (WrongValue tag (ber_current b)).
Definition TnmBerWrongLength (b : TnmBer) (tag length : Z) : TnmBer :=
  set_error b (WrongLength length tag (ber_current b)).
Definition TnmBerWrongTag (b : TnmBer) (tag expected : Z) : TnmBer :=
  set_error b (WrongTag tag (ber_current b) expected).

(** [TnmBerWrong...(ber, ...); return NULL;] *)
Definition ber_wrong_value {A} (tag : Z) : BerM A :=
  fun b => Null (TnmBerWrongValue b tag).
Definition ber_wrong_length {A} (tag len : Z) : BerM A :=
  fun b => Null (TnmBerWrongLength b tag len).
Definition ber_wrong_tag {A} (tag expected : Z) : BerM A :=
  fun b => Null (TnmBerWrongTag b tag expected).

Definition TnmBerDecDone (b : TnmBer) : bool := bool_decide (ber_end b <= ber_current b)%nat.
Definition TnmBerSize (b : TnmBer) : nat := ber_current b.

(** ** Single bytes *)

Definition TnmBerDecPeek : BerM Z := fun b =>
  if bool_decide (ber_end b <= ber_current b)%nat
  then Null (TnmBerSetError b "incomplete BER encoding")
  else ber_read (ber_current b) b.

Definition TnmBerEncByte (byte : Z) : BerM unit := fun b =>
  if bool_decide (ber_end b <= ber_current b)%nat
  then Null (TnmBerSetError b "BER buffer size exceeded")
  else match ber_write (ber_current b) byte b with
       | Ret _ b' => Ret tt (set_current b' (S (ber_current b)))
       | o => o
       end.

Definition TnmBerDecByte : BerM Z := fun b =>
  if bool_decide (ber_end b <= ber_current b)%nat
  then Null (TnmBerSetError b "BER buffer overflow")
  else match ber_read (ber_current b) b with
       | Ret x b' => Ret x (set_current b' (S (ber_current b)))
       | o => o
       end.

(** ** Lengths *)

(** [for (d = 0; (length >> (d * 8)); d++) ;] *)
Fixpoint enc_length_size (fuel : nat) (len : Z) (d : nat) : option nat :=
  match fuel with
  | O => None
  | S fuel =>
      if bool_decide (32 <= Z.of_nat d * 8) then None
      else if bool_decide (len >> (Z.of_nat d * 8) = 0) then Some d
      else enc_length_size fuel len (S d)
  end.

(** [for (i = ...; i > 0; i--) position[i + d] = position[i];] *)
Fixpoint enc_length_shift (i position d : nat) : BerM unit :=
  match i with
  | O => mret tt
  | S i' =>
      x ← ber_read (position + i);
      _ ← ber_write (position + i + d) x;
      enc_length_shift i' position d
  end.

(** [for (; d > 0; d--) *position++ = d > 2 ? 0 : ...;] *)
Fixpoint enc_length_digits (d position : nat) (len : Z) : BerM unit :=
  match d with
  | O => mret tt
  | S d' =>
      _ ← ber_write position
            (if bool_decide (2 < d)%nat then 0
             else (len >> (8 * Z.of_nat d')) .& 0xff);
      enc_length_digits d' (S position) len
  end.

Definition TnmBerEncLength (position : nat) (len : Z) : BerM unit := fun b =>
  if bool_decide (len < 0x80) then ber_write position len b
  else if bool_decide (u32 len <= 0x80000000) then
    match enc_length_size 5 len 0 with
    | None => Fault ShiftRange
    | Some d =>
        if bool_decide (ber_end b <= ber_current b + d)%nat
        then Null (TnmBerSetError b "BER buffer overflow")
        else
          (_ ← enc_length_shift (ber_current b - position - 1) position d;
           _ ← ber_advance d;
           _ ← ber_write position (0x80 + Z.of_nat d);
           enc_length_digits d (S position) len) b
    end
  else Null (TnmBerSetError b "ASN.1 length too long").

(** The loop over the [n = len - i] remaining length bytes. *)
Fixpoint dec_length_loop (n : nat) (acc : Z) : BerM Z :=
  match n with
  | O => mret acc
  | S n' =>
      byte ← TnmBerDecByte;
      if bool_decide (4 < n)%nat && bool_decide (byte <> 0) then ber_null
      else dec_length_loop n' (s32 (acc << 8 .| (byte .& 0xff)))
  end.

Definition TnmBerDecLength : BerM Z :=
  byte ← TnmBerDecByte;
  if bool_decide (byte .& 0x80 <> 0) then
    len ← dec_length_loop (Z.to_nat (byte .& 0x7f)) 0;
    if bool_decide (len < 0) then ber_null else mret len
  else mret byte.

(** ** Sequences *)

Definition TnmBerEncSequenceStart (tag : Z) : BerM nat :=
  _ ← TnmBerEncByte tag;
  token ← ber_pos;
  _ ← TnmBerEncByte 0;
  mret token.

Definition TnmBerEncSequenceEnd (token : nat) : BerM unit :=
  cur ← ber_pos;
  TnmBerEncLength token (Z.of_nat cur - (Z.of_nat token + 1)).

(** The common opening of the decoders: the tag must be the expected one. *)
Definition dec_tag (tag : Z) : BerM unit :=
  byte ← TnmBerDecByte;
  if bool_decide (byte <> tag) then ber_wrong_tag byte tag else mret tt.

Definition TnmBerDecSequenceStart (tag : Z) : BerM (nat * Z) :=
  _ ← dec_tag tag;
  len ← TnmBerDecLength;
  token ← ber_pos;
  mret (token, len).

Definition TnmBerDecSequenceEnd (token : nat) (len : Z) : BerM unit := fun b =>
  let n := Z.of_nat (ber_current b) - Z.of_nat token in
  if bool_decide (len <> n) then
    Null (set_error b (if bool_decide (n < len)
                       then SeqUnderflow (ber_current b) (len - n)
                       else SeqOverflow (ber_current b) (n - len)))
  else Ret tt b.

(** ** INTEGER and the 32 bit application types *)

Definition int_mask9 : Z := s32 (0x1ff << (8 * (4 - 1) - 1)).
Definition int_mask8 : Z := s32 (0xff << (8 * (4 - 1))).

(** [while (((value & mask) == 0 || (value & mask) == mask) && intsize > 1)] *)
Fixpoint enc_int_strip (intsize : nat) (value : Z) : nat * Z :=
  match intsize with
  | S (S _ as i) =>
      if bool_decide (value .& int_mask9 = 0)
         || bool_decide (value .& int_mask9 = int_mask9)
      then enc_int_strip i (s32 (value << 8))
      else (intsize, value)
  | _ => (intsize, value)
  end.

(** [while (ber && intsize--)] *)
Fixpoint enc_int_bytes (intsize : nat) (value asnlen : Z) : BerM Z :=
  match intsize with
  | O => mret asnlen
  | S i =>
      _ ← TnmBerEncByte (u8 ((value .& int_mask8) >> (8 * (4 - 1))));
      enc_int_bytes i (s32 (value << 8)) (asnlen + 1)
  end.

Definition TnmBerEncInt (tag value : Z) : BerM unit :=
  _ ← TnmBerEncByte tag;
  len ← ber_pos;
  _ ← TnmBerEncByte 0;
  let '(intsize, value) := enc_int_strip 4 value in
  asnlen ← enc_int_bytes intsize value 0;
  TnmBerEncLength len asnlen.

(** [while (len-- > 0)] *)
Fixpoint dec_int_loop (len : nat) (value : Z) : BerM Z :=
  match len with
  | O => mret value
  | S n =>
      byte ← TnmBerDecByte;
      dec_int_loop n (s32 (value << 8 .| (byte .& 0xff)))
  end.

Definition TnmBerDecInt (tag : Z) : BerM Z :=
  _ ← dec_tag tag;
  len ← TnmBerDecLength;
  if bool_decide (len = 0) then mret 0 else
  byte ← TnmBerDecPeek;
  if (bool_decide (byte <> 0) && bool_decide (4 < len))
     || (bool_decide (byte = 0) && bool_decide (4 < len - 1))
  then ber_wrong_length tag len
  else
    let negative := bool_decide (tag = ASN1_INTEGER) && bool_decide (byte .& 0x80 <> 0) in
    value ← dec_int_loop (Z.to_nat len) (if negative then -1 else 0);
    if negative && bool_decide (tag <> ASN1_INTEGER)
    then ber_wrong_value tag
    else mret value.

(** ** Counter64

    [TnmBerEncUnsigned64] computes with a [double].  The operations it uses are
    exact on finite doubles as long as nothing underflows: dividing by 256 only
    changes the exponent, [floor] and the product of a floor with 256 are
    integers of the same mantissa, and the difference keeps a suffix of the
    mantissa.  They are therefore the rational operations, and the argument is
    a [Q]. *)

(** [for (d = value; d >= 1; len++) d /= 256.0;] *)
Fixpoint enc64_size (fuel : nat) (d : Q) (len : nat) : option nat :=
  match fuel with
  | O => None
  | S fuel => if Qle_bool 1 d then enc64_size fuel (d / 256)%Q (S len) else Some len
  end.

(** [for (i = len - 1; i >= 0; i--)], writing below the offset [base + len]. *)
Fixpoint enc64_digits (len base : nat) (value : Q) : BerM unit :=
  match len with
  | O => mret tt
  | S i =>
      let d := (value / 256)%Q in
      _ ← ber_write (base + i) (Qfloor (value - inject_Z (Qfloor d) * 256)%Q);
      enc64_digits i base d
  end.

(** The largest finite double is below [256 ^ 128]. *)
Definition enc64_fuel : nat := 129.

Definition enc64_body (len length : nat) (value : Q) : BerM unit := fun b =>
  if ber_too_long b (Z.of_nat len)
  then Null (TnmBerSetError b "BER buffer size exceeded")
  else (_ ← enc64_digits len (ber_current b) value;
        _ ← ber_advance len;
        TnmBerEncLength length (Z.of_nat len)) b.

Definition TnmBerEncUnsigned64 (value : Q) : BerM unit :=
  _ ← TnmBerEncByte ASN1_COUNTER64;
  length ← ber_pos;
  _ ← TnmBerEncByte 0;
  match enc64_size enc64_fuel value 0 with
  | None => ber_fault OutOfFuel
  | Some len => enc64_body len length value
  end.

Fixpoint dec64_loop (len : nat) (u : Z) : BerM Z :=
  match len with
  | O => mret u
  | S n => byte ← TnmBerDecByte; dec64_loop n (u64 (u * 256 + byte))
  end.

Definition TnmBerDecUnsigned64 : BerM Z :=
  _ ← dec_tag ASN1_COUNTER64;
  len ← TnmBerDecLength;
  if bool_decide (8 < len - 1) then ber_wrong_length ASN1_COUNTER64 len
  else dec64_loop (Z.to_nat len) 0.

(** ** OBJECT IDENTIFIER *)

Definition TNM_OID_MAX_SIZE : nat := 128.

(** [for (bits = n; bits > 0; bits--, mask >>= 1) if ( *op & mask) break;]
    with [mask] a signed int, so that its sign bit is copied by the shift. *)
Fixpoint enc_oid_bits (bits : nat) (mask op : Z) : nat :=
  match bits with
  | O => O
  | S b =>
      if bool_decide (op .& u32 mask <> 0) then bits
      else enc_oid_bits b (mask >> 1) op
  end.

(** [for (; ber && bits > 7; mask >>= 7)]; the results are the final mask and
    the number of bytes written. *)
Fixpoint enc_oid_loop (fuel bits : nat) (mask op len : Z) : BerM (Z * Z) :=
  match fuel with
  | O => ber_fault OutOfFuel
  | S fuel =>
      if bool_decide (7 < bits)%nat then
        let bits := (bits - 7)%nat in
        _ ← TnmBerEncByte (u8 (((op .& mask) >> Z.of_nat bits) .| 0x80));
        enc_oid_loop fuel bits (mask >> 7) op (len + 1)
      else mret (mask, len)
  end.

(** The groups of seven bits below [bits], the last without the top bit. *)
Definition enc_oid_tail (bits : nat) (op len : Z) : BerM Z :=
  let mask := s32 (1 << Z.of_nat bits) - 1 in
  '(mask, len) ← enc_oid_loop 6 bits mask op len;
  _ ← TnmBerEncByte (u8 (op .& mask));
  mret (len + 1).

(** One component: the number of bytes it took is added to [len]. *)
Definition enc_oid_subid (op len : Z) : BerM Z :=
  if bool_decide (op <= 0x7f) then
    _ ← TnmBerEncByte op; mret (len + 1)
  else
    let n := 32%nat in
    let bits := enc_oid_bits n (s32 (1 << 31)) op in
    let bits := ((bits + 6) / 7 * 7)%nat in
    if bool_decide (n < bits)%nat then
      let bits := (bits - 7)%nat in
      _ ← TnmBerEncByte (u8 (((op >> Z.of_nat bits) .& 0x7f) .| 0x80));
      enc_oid_tail bits op (len + 1)
    else enc_oid_tail bits op len.

Fixpoint enc_oid_subids (ops : list Z) (len : Z) : BerM Z :=
  match ops with
  | [] => mret len
  | op :: ops => len ← enc_oid_subid op len; enc_oid_subids ops len
  end.

(** [oid[1]] is overwritten with the packed first two components and restored
    before the procedure returns. *)
Definition TnmBerEncOID (oid : list Z) : BerM unit :=
  match oid with
  | o0 :: o1 :: rest =>
      if bool_decide (2 < o0) then ber_fail (Msg "illegal OBJECT IDENTIFIER value")
      else
        _ ← TnmBerEncByte ASN1_OBJECT_IDENTIFIER;
        length ← ber_pos;
        _ ← TnmBerEncByte 0;
        len ← enc_oid_subids (u32 (o1 + u32 (o0 * 40)) :: rest) 0;
        TnmBerEncLength length len
  | _ => ber_fail (Msg "illegal OBJECT IDENTIFIER value")
  end.

(** A store to the caller's array of components. *)
Definition oid_store (oid : list Z) (i : nat) (v : Z) : BerM (list Z) := fun b =>
  if decide (i < length oid)%nat then Ret (<[i := u32 v]> oid) b else Fault OutOfBounds.

(** [while (byte > 0x7f)]: the component read so far, the last byte, and the
    number of length bytes left (which may become negative here). *)
Fixpoint dec_oid_subid (fuel : nat) (acc byte len : Z) : BerM (Z * Z * Z) :=
  match fuel with
  | O => ber_fault OutOfFuel
  | S fuel =>
      if bool_decide (0x7f < byte) then
        let acc := u32 (u32 (acc << 7) + (byte .& 0x7f)) in
        byte ← TnmBerDecByte;
        dec_oid_subid fuel acc byte (len - 1)
      else mret (acc, byte, len)
  end.

(** The next component, stored in [oid[oidLen]]: the array, the component and
    the number of length bytes left. *)
Definition dec_oid_component (fuel : nat) (len : Z) (oid : list Z) (oidLen : nat)
    : BerM (list Z * Z * Z) :=
  oid ← oid_store oid oidLen 0;
  byte ← TnmBerDecByte;
  '(acc, byte, len) ← dec_oid_subid fuel 0 byte (len - 1);
  let v := u32 (u32 (acc << 7) + byte) in
  oid ← oid_store oid oidLen v;
  mret (oid, v, len).

(** [oid[0] = oid[1] / 40; if (oid[0] > 2) oid[0] = 2; oid[1] -= oid[0] * 40;] *)
Definition dec_oid_unpack (oid : list Z) (v : Z) : BerM (list Z) :=
  let o0 := if bool_decide (2 < v / 40) then 2 else v / 40 in
  oid ← oid_store oid 0 o0;
  oid_store oid 1 (v - o0 * 40).

(** [while (len > 0)] *)
Fixpoint dec_oid_loop (fuel : nat) (len : Z) (oid : list Z) (oidLen : nat)
    : BerM (list Z * nat) :=
  match fuel with
  | O => ber_fault OutOfFuel
  | S fuel' =>
      if bool_decide (0 < len) then
        '(oid, v, len) ← dec_oid_component fuel len oid oidLen;
        oid ← (if bool_decide (oidLen = 1)%nat then dec_oid_unpack oid v else mret oid);
        let oidLen := S oidLen in
        if bool_decide (TNM_OID_MAX_SIZE < oidLen)%nat
        then ber_wrong_value ASN1_OBJECT_IDENTIFIER
        else dec_oid_loop fuel' len oid oidLen
      else mret (oid, oidLen)
  end.

(** [oid] is the array the caller provides.  Every iteration of both loops
    consumes a byte, so the size of the stream bounds their number. *)
Definition dec_oid_body (len : Z) (oid : list Z) : BerM (list Z * nat) := fun b =>
  dec_oid_loop (ber_end b + 2) len oid 1 b.

Definition TnmBerDecOID (oid : list Z) : BerM (list Z * nat) :=
  _ ← dec_tag ASN1_OBJECT_IDENTIFIER;
  len ← TnmBerDecLength;
  if bool_decide (len = 0) then ber_wrong_value ASN1_OBJECT_IDENTIFIER
  else dec_oid_body len oid.

(** ** OCTET STRING, NULL and unknown values *)

Fixpoint enc_bytes (octets : list Z) : BerM unit :=
  match octets with
  | [] => mret tt
  | x :: octets => _ ← TnmBerEncByte (u8 x); enc_bytes octets
  end.

Definition TnmBerEncOctetString (tag : Z) (octets : list Z) : BerM unit :=
  _ ← TnmBerEncByte tag;
  len ← ber_pos;
  _ ← TnmBerEncByte 0;
  _ ← enc_bytes octets;
  TnmBerEncLength len (Z.of_nat (length octets)).

(** The octets between two offsets of the stream: what the pointer and the
    length handed to the caller denote. *)
Definition ber_slice (b : TnmBer) (off len : nat) : list Z := take len (drop off (ber_buf b)).

Definition dec_octets (len : Z) : BerM (nat * list Z) := fun b =>
  if ber_too_long b len then Null (TnmBerSetError b "BER buffer size exceeded")
  else Ret (ber_current b, ber_slice b (ber_current b) (Z.to_nat len))
           (set_current b (ber_current b + Z.to_nat len)).

Definition TnmBerDecOctetString (tag : Z) : BerM (nat * list Z) :=
  _ ← dec_tag tag;
  len ← TnmBerDecLength;
  dec_octets len.

Definition TnmBerEncNull (tag : Z) : BerM unit :=
  _ ← TnmBerEncByte tag;
  TnmBerEncByte 0.

Definition TnmBerDecNull (tag : Z) : BerM unit :=
  _ ← dec_tag tag;
  _ ← TnmBerDecLength;
  mret tt.

Definition dec_any (start : nat) (len : Z) : BerM (nat * list Z) := fun b =>
  if ber_too_long b len then Null b
  else Ret (start, ber_slice b start (Z.to_nat len + (ber_current b - start)))
           (set_current b (ber_current b + Z.to_nat len)).

Definition TnmBerDecAny : BerM (nat * list Z) :=
  start ← ber_pos;
  _ ← TnmBerDecByte;
  len ← TnmBerDecLength;
  dec_any start len.
