(* ===== verification/BerSpec.v ===== *)
(** Specification of the BER encodings and the proof that the encoders of
    [Ber.v] produce them.

    The octets of an encoding are given by functions on lists that do not
    mention the stream ([len_octets], [int_octets], [subid_octets],
    [oid_octets], [tlv]).  A well-formed stream is written [st pre rest e]: the
    octets [pre] below [current], the free octets [rest] up to [end], and the
    error text.  The lemmas named [..._app] say that an encoder turns
    [st pre rest e] into [st (pre ++ octets) (drop (length octets) rest) e]
    when [rest] has room, whatever octets it contained. *)

From Stdlib Require Import QArith Qround.
From S2P Require Import Prelude Ber.
Local Open Scope Z_scope.

Definition st (pre rest : list Z) (e : BerError) : TnmBer :=
  mkBer (pre ++ rest) (length pre) e.

(** Every stream whose [current] is within the packet has this form. *)
Lemma st_intro b :
  (ber_current b <= ber_end b)%nat ->
  b = st (take (ber_current b) (ber_buf b)) (drop (ber_current b) (ber_buf b)) (ber_error b).
Proof.
  unfold ber_end, st. intros. rewrite take_drop, length_take_le by done.
  by destruct b.
Qed.

(** ** Octets of a length *)

Definition len_octets (n : Z) : list Z :=
  if bool_decide (n < 128) then [n]
  else if bool_decide (n < 256) then [129; n]
  else [130; n / 256; n mod 256].

(** Extra octets a length field needs after its first. *)
Definition len_extra (n : Z) : nat := pred (length (len_octets n)).

Definition tlv (tag : Z) (body : list Z) : list Z :=
  tag :: len_octets (Z.of_nat (length body)) ++ body.

(** Room an encoder asks for when it closes a value of [n] octets: the octets
    moved, plus one spare octet whenever the length field grows. *)
Definition len_room (n : Z) : nat :=
  if bool_decide (n < 128) then 0 else S (len_extra n).

(** ** Binding *)

Section bind.
Context {A B : Type} (m : BerM A) (k : A -> BerM B) (b : TnmBer).

Lemma bind_ret a b' : m b = Ret a b' -> (m ≫= k) b = k a b'.
Proof. unfold mbind, BerM_bind. by intros ->. Qed.

Lemma bind_null b' : m b = Null b' -> (m ≫= k) b = Null b'.
Proof. unfold mbind, BerM_bind. by intros ->. Qed.

Lemma bind_fault f : m b = Fault f -> (m ≫= k) b = Fault f.
Proof. unfold mbind, BerM_bind. by intros ->. Qed.
End bind.

(** [ber_step lem]: run the first computation of a [mbind] with [lem]. *)
Tactic Notation "ber_step" uconstr(lem) :=
  erewrite bind_ret by (apply lem; try done; try lia); cbn beta iota.

(** ** Memory accesses on [st] *)

Lemma ber_read_mid pre x rest cur e :
  ber_read (length pre) (mkBer (pre ++ x :: rest) cur e)
  = Ret x (mkBer (pre ++ x :: rest) cur e).
Proof. unfold ber_read. simpl. by rewrite lookup_app_mid. Qed.

Lemma ber_write_mid pre x y rest cur e :
  ber_write (length pre) y (mkBer (pre ++ x :: rest) cur e)
  = Ret tt (mkBer (pre ++ u8 y :: rest) cur e).
Proof.
  unfold ber_write, ber_end. simpl. rewrite length_app. simpl.
  case_decide; [|lia]. by rewrite insert_app_mid.
Qed.

Lemma ber_write_next pre w x y rest cur e :
  ber_write (S (length pre)) y (mkBer (pre ++ w :: x :: rest) cur e)
  = Ret tt (mkBer (pre ++ w :: u8 y :: rest) cur e).
Proof.
  pose proof (ber_write_mid (pre ++ [w]) x y rest cur e) as H.
  rewrite length_app, Nat.add_1_r, <- !app_assoc in H. exact H.
Qed.

Lemma ber_pos_st pre rest e : ber_pos (st pre rest e) = Ret (length pre) (st pre rest e).
Proof. done. Qed.

Lemma st_app pre x rest e :
  mkBer (pre ++ x :: rest) (S (length pre)) e = st (pre ++ [x]) rest e.
Proof. unfold st. rewrite <- app_assoc, length_app. f_equal. simpl; lia. Qed.

Lemma enc_byte_app pre y rest x e :
  TnmBerEncByte x (st pre (y :: rest) e) = Ret tt (st (pre ++ [u8 x]) rest e).
Proof.
  unfold TnmBerEncByte, ber_end, st. simpl. rewrite length_app. simpl.
  case_bool_decide; [lia|]. rewrite ber_write_mid. unfold set_current. simpl.
  apply f_equal, st_app.
Qed.

Lemma enc_byte_full pre x e :
  TnmBerEncByte x (st pre [] e) = Null (st pre [] (Msg "BER buffer size exceeded")).
Proof.
  unfold TnmBerEncByte, ber_end, st. simpl. rewrite length_app. simpl.
  case_bool_decide; [done|lia].
Qed.

Lemma dec_byte_app pre x rest e :
  TnmBerDecByte (st pre (x :: rest) e) = Ret x (st (pre ++ [x]) rest e).
Proof.
  unfold TnmBerDecByte, ber_end, st. simpl. rewrite length_app. simpl.
  case_bool_decide; [lia|]. rewrite ber_read_mid. unfold set_current. simpl.
  apply f_equal, st_app.
Qed.

Lemma dec_byte_end pre e :
  TnmBerDecByte (st pre [] e) = Null (st pre [] (Msg "BER buffer overflow")).
Proof.
  unfold TnmBerDecByte, ber_end, st. simpl. rewrite length_app. simpl.
  case_bool_decide; [done|lia].
Qed.

Lemma dec_peek_app pre x rest e :
  TnmBerDecPeek (st pre (x :: rest) e) = Ret x (st pre (x :: rest) e).
Proof.
  unfold TnmBerDecPeek, ber_end, st. simpl. rewrite length_app. simpl.
  case_bool_decide; [lia|]. apply ber_read_mid.
Qed.

Lemma ber_too_long_st pre rest e n :
  ber_too_long (st pre rest e) n
  = bool_decide (65535 < n \/ Z.of_nat (length rest) < n).
Proof.
  unfold ber_too_long, ber_end, st. cbn [ber_buf ber_current]. rewrite length_app.
  apply eq_true_iff_eq. rewrite orb_true_iff, !bool_decide_eq_true. lia.
Qed.

Lemma ber_too_long_false pre rest e n :
  n <= 65535 -> n <= Z.of_nat (length rest) -> ber_too_long (st pre rest e) n = false.
Proof. intros. rewrite ber_too_long_st. apply bool_decide_eq_false. lia. Qed.

(** ** The length field *)

Lemma enc_length_size_spec n :
  128 <= n < 65536 -> enc_length_size 5 n 0 = Some (len_extra n).
Proof.
  intros. unfold len_extra, len_octets, enc_length_size.
  rewrite !Z.shiftr_div_pow2 by lia. simpl.
  repeat (case_bool_decide; try lia); done.
Qed.

(** Moving [k] octets [d] places up: the block [body] between [pre] and [rest]
    reappears after [d] more octets. *)
Lemma enc_length_shift_spec p d pre body rest cur e :
  length pre = S p -> (d <= length rest)%nat -> bytes body ->
  enc_length_shift (length body) p d (mkBer (pre ++ body ++ rest) cur e)
  = Ret tt (mkBer (take (S p + d) (pre ++ body ++ rest) ++ body ++ drop d rest) cur e).
Proof.
  intros Hp. revert rest. induction body as [|x body IH] using rev_ind; intros rest Hd Hb.
  { simpl. f_equal. f_equal. rewrite take_app_ge by lia. rewrite Hp.
    replace (S (p + d) - S p)%nat with d by lia. by rewrite <- app_assoc, take_drop. }
  apply bytes_app in Hb as [Hb [Hx _]%bytes_cons].
  rewrite length_app, Nat.add_1_r. cbn [enc_length_shift].
  rewrite <- (app_assoc body). simpl.
  replace (p + S (length body))%nat with (length (pre ++ body))
    by (rewrite length_app; lia).
  erewrite bind_ret by (rewrite (app_assoc pre); apply ber_read_mid).
  assert (Hw : ber_write (length (pre ++ body) + d) x (mkBer ((pre ++ body) ++ x :: rest) cur e)
    = Ret tt (mkBer (pre ++ body ++ <[d := x]> (x :: rest)) cur e)).
  { unfold ber_write, ber_end. cbn [ber_buf]. rewrite !length_app, !length_cons.
    case_decide; [|lia]. rewrite u8_id by done. do 2 f_equal.
    rewrite <- (app_assoc pre), !insert_app_r_alt by lia. do 3 f_equal. lia. }
  rewrite (bind_ret _ _ _ _ _ Hw), IH by (rewrite ?length_insert, ?length_cons; done || lia).
  do 2 f_equal. rewrite <- !app_assoc. f_equal.
  - rewrite !(app_assoc pre), !take_app, length_app. f_equal.
    rewrite Hp, take_insert_ge by lia. done.
  - f_equal. rewrite drop_insert_ge, Nat.sub_diag by lia.
    destruct (lookup_lt_is_Some_2 (x :: rest) d) as [y Hy]; [simpl; lia|].
    by rewrite (drop_S _ _ _ Hy).
Qed.

(** The digits written after the first octet of a long length field. *)
Definition len_digits (d : nat) (n : Z) : list Z :=
  match d with
  | 1%nat => [n mod 256]
  | 2%nat => [n / 256 mod 256; n mod 256]
  | 3%nat => [0; n / 256 mod 256; n mod 256]
  | _ => []
  end.

Lemma enc_length_digits_spec d pre old rest n cur e :
  (d <= 3)%nat -> length old = d ->
  enc_length_digits d (length pre) n (mkBer (pre ++ old ++ rest) cur e)
  = Ret tt (mkBer (pre ++ len_digits d n ++ rest) cur e).
Proof.
  intros Hd <-. revert pre.
  assert (H1 : forall pre x rest, enc_length_digits 1 (length pre) n (mkBer (pre ++ x :: rest) cur e)
    = Ret tt (mkBer (pre ++ n mod 256 :: rest) cur e)).
  { intros. cbn [enc_length_digits]. ber_step ber_write_mid. unfold mret, BerM_ret.
    rewrite bool_decide_false, land_255, Z.shiftr_0_r, u8_id by (unfold is_byte; lia). done. }
  assert (H2 : forall pre x y rest,
    enc_length_digits 2 (length pre) n (mkBer (pre ++ x :: y :: rest) cur e)
    = Ret tt (mkBer (pre ++ n / 256 mod 256 :: n mod 256 :: rest) cur e)).
  { intros pre x y rest'. change (enc_length_digits 2) with (fun p l =>
      _ ← ber_write p (Z.land (Z.shiftr l (8 * Z.of_nat 1)) 0xff); enc_length_digits 1 (S p) l).
    cbn beta. ber_step ber_write_mid.
    rewrite (cons_middle _ pre), app_assoc.
    replace (S (length pre)) with (length (pre ++ [u8 (Z.land (Z.shiftr n (8 * Z.of_nat 1)) 255)]))
      by (rewrite length_app; simpl; lia).
    rewrite H1. app_norm. rewrite land_255, Z.shiftr_div_pow2, u8_id by (unfold is_byte; lia).
    done. }
  intros pre. destruct old as [|x [|y [|z [|]]]]; simpl in Hd; [done|apply H1|apply H2| |lia].
  change (length [x; y; z]) with 3%nat.
  change (enc_length_digits 3) with (fun p l =>
      _ ← ber_write p 0; enc_length_digits 2 (S p) l).
  cbn beta. cbn [app]. ber_step ber_write_mid.
  rewrite (cons_middle _ pre), app_assoc.
  replace (S (length pre)) with (length (pre ++ [u8 0])) by (rewrite length_app; simpl; lia).
  rewrite H2. by app_norm.
Qed.

Lemma len_octets_long n :
  128 <= n < 65536 ->
  len_octets n = (0x80 + Z.of_nat (len_extra n)) :: len_digits (len_extra n) n
  /\ (len_extra n <= 2)%nat /\ length (len_digits (len_extra n) n) = len_extra n.
Proof.
  intros. unfold len_extra, len_octets. repeat case_bool_decide; try lia; simpl;
    repeat split; try lia; rewrite ?(Z.mod_small n), ?(Z.mod_small (n / 256)) by lia; done.
Qed.

(** Closing a value in the long form: [position] is the octet after [pre],
    [body] the octets of the value, [d] the number of length digits. *)
Lemma enc_length_long_app d pre z body rest n e :
  128 <= n < 2 ^ 24 -> enc_length_size 5 n 0 = Some d -> (d <= 3)%nat ->
  bytes body -> (d < length rest)%nat ->
  TnmBerEncLength (length pre) n (st (pre ++ z :: body) rest e)
  = Ret tt (st (pre ++ (0x80 + Z.of_nat d :: len_digits d n) ++ body) (drop d rest) e).
Proof.
  intros Hn Hs Hd Hb Hr. unfold TnmBerEncLength.
  rewrite bool_decide_false, bool_decide_true, Hs by (unfold u32; lia).
  rewrite bool_decide_false
    by (unfold ber_end, st; cbn [ber_buf ber_current]; rewrite !length_app; lia).
  unfold st. cbn [ber_current].
  replace (length (pre ++ z :: body) - length pre - 1)%nat with (length body)
    by (rewrite length_app; simpl; lia).
  rewrite (cons_middle z pre), !app_assoc, <- (app_assoc _ body).
  erewrite bind_ret by (apply enc_length_shift_spec; [rewrite length_app; simpl; lia|lia|done]).
  erewrite bind_ret by done. unfold set_current. cbn [ber_buf ber_current ber_error].
  replace (take (S (length pre) + d) ((pre ++ [z]) ++ body ++ rest))
    with (pre ++ z :: take d (body ++ rest)).
  2:{ rewrite (take_app_add' (pre ++ [z])) by (rewrite length_app; simpl; lia).
      by rewrite <- app_assoc. }
  rewrite <- app_assoc. cbn [app]. ber_step ber_write_mid.
  rewrite (cons_middle _ pre), app_assoc.
  replace (S (length pre)) with (length (pre ++ [u8 (0x80 + Z.of_nat d)]))
    by (rewrite length_app; simpl; lia).
  rewrite enc_length_digits_spec; [|done|rewrite length_take, length_app; lia].
  rewrite u8_id by (unfold is_byte; lia).
  f_equal. f_equal; [by app_norm|]. rewrite !length_app. simpl.
  assert (length (len_digits d n) = d) by (destruct d as [|[|[|[|]]]]; simpl; lia).
  lia.
Qed.

Lemma enc_length_app pre z body rest n e :
  0 <= n < 65536 -> bytes body -> (len_room n <= length rest)%nat ->
  TnmBerEncLength (length pre) n (st (pre ++ z :: body) rest e)
  = Ret tt (st (pre ++ len_octets n ++ body) (drop (len_extra n) rest) e).
Proof.
  intros Hn Hb Hr. unfold len_room in *. case_bool_decide.
  - unfold TnmBerEncLength. rewrite bool_decide_true by done. unfold st at 1. app_norm.
    rewrite ber_write_mid, u8_id by (unfold is_byte; lia).
    unfold len_extra, len_octets. rewrite bool_decide_true by done. simpl.
    unfold st. rewrite !length_app. by app_norm.
  - destruct (len_octets_long n) as (Ho & Hd & Hl); [lia|].
    rewrite Ho. apply enc_length_long_app; try done; try lia. apply enc_length_size_spec. lia.
Qed.

(** No room: the field cannot grow. *)
Lemma enc_length_full pre z body rest n e :
  128 <= n < 65536 -> (length rest <= len_extra n)%nat ->
  TnmBerEncLength (length pre) n (st (pre ++ z :: body) rest e)
  = Null (st (pre ++ z :: body) rest (Msg "BER buffer overflow")).
Proof.
  intros Hn Hr. unfold TnmBerEncLength.
  rewrite bool_decide_false, bool_decide_true, enc_length_size_spec by (unfold u32; lia).
  rewrite bool_decide_true; [done|].
  unfold ber_end, st; cbn [ber_buf ber_current]; rewrite !length_app; lia.
Qed.

(** ** Values *)

(** Room for a complete value: tag, length octet, contents, and the room to
    grow the length field. *)
Definition tlv_room (body : list Z) : nat :=
  2 + length body + len_room (Z.of_nat (length body)).

Lemma length_len_octets n : length (len_octets n) = S (len_extra n).
Proof. unfold len_extra, len_octets. by repeat case_bool_decide. Qed.

Lemma len_octets_bytes n : 0 <= n < 65536 -> bytes (len_octets n).
Proof.
  intros. unfold len_octets, bytes, is_byte.
  repeat case_bool_decide; repeat constructor; lia.
Qed.

Lemma length_tlv tag body :
  length (tlv tag body) = (2 + length body + len_extra (Z.of_nat (length body)))%nat.
Proof. unfold tlv. simpl. rewrite length_app, length_len_octets. lia. Qed.

Lemma len_extra_room n : (len_extra n <= len_room n)%nat.
Proof. unfold len_room, len_extra, len_octets. repeat case_bool_decide; simpl; lia. Qed.

(** The opening shared by all value encoders. *)
Lemma enc_header_app {A} (k : nat -> BerM A) tag pre y z rest e :
  (_ ← TnmBerEncByte tag; len ← ber_pos; _ ← TnmBerEncByte 0; k len)
    (st pre (y :: z :: rest) e)
  = k (S (length pre)) (st ((pre ++ [u8 tag]) ++ [0]) rest e).
Proof.
  ber_step enc_byte_app. ber_step ber_pos_st. ber_step enc_byte_app.
  rewrite length_app, Nat.add_1_r. done.
Qed.

(** The closing shared by all value encoders. *)
Lemma enc_close_app n pre tag body rest e :
  n = Z.of_nat (length body) ->
  is_byte tag -> Z.of_nat (length body) < 65536 -> bytes body ->
  (len_room (Z.of_nat (length body)) <= length rest)%nat ->
  TnmBerEncLength (S (length pre)) n
    (st (((pre ++ [u8 tag]) ++ [0]) ++ body) rest e)
  = Ret tt (st (pre ++ tlv tag body)
               (drop (len_extra (Z.of_nat (length body))) rest) e).
Proof.
  intros -> Ht Hl Hb Hr.
  replace (S (length pre)) with (length (pre ++ [u8 tag])) by (rewrite length_app; simpl; lia).
  rewrite <- (app_assoc _ [0]). simpl. rewrite enc_length_app by (done || lia).
  rewrite u8_id by done. unfold tlv. by rewrite <- app_assoc.
Qed.

Lemma enc_bytes_app os pre rest e :
  (length os <= length rest)%nat ->
  enc_bytes os (st pre rest e) = Ret tt (st (pre ++ map u8 os) (drop (length os) rest) e).
Proof.
  revert pre rest. induction os as [|x os IH]; intros pre rest Hr.
  { simpl. by rewrite app_nil_r. }
  destruct rest as [|y rest]; [simpl in Hr; lia|]. cbn [enc_bytes].
  ber_step enc_byte_app. rewrite IH by (simpl in Hr; lia). simpl.
  by rewrite u8_idemp, <- app_assoc.
Qed.

Lemma map_u8_bytes l : bytes (map u8 l).
Proof. apply Forall_fmap, Forall_true. intros. apply u8_byte. Qed.

Lemma map_u8_id l : bytes l -> map u8 l = l.
Proof. induction 1; simpl; [done|]. rewrite u8_id by done. by f_equal. Qed.

(** [TnmBerEncOctetString] appends the octet string. *)
Lemma enc_octets_app tag os pre rest e :
  is_byte tag -> bytes os -> Z.of_nat (length os) < 65536 -> (tlv_room os <= length rest)%nat ->
  TnmBerEncOctetString tag os (st pre rest e)
  = Ret tt (st (pre ++ tlv tag os) (drop (length (tlv tag os)) rest) e).
Proof.
  intros Ht Ho Hl Hr. unfold tlv_room in Hr.
  destruct rest as [|y [|z rest]]; [simpl in Hr; lia..|]. simpl in Hr.
  unfold TnmBerEncOctetString. rewrite enc_header_app.
  ber_step enc_bytes_app. rewrite map_u8_id by done.
  rewrite enc_close_app by (rewrite ?length_drop; done || lia).
  rewrite length_tlv, drop_drop. simpl. done.
Qed.

Lemma enc_null_app tag pre rest e :
  is_byte tag -> (2 <= length rest)%nat ->
  TnmBerEncNull tag (st pre rest e)
  = Ret tt (st (pre ++ tlv tag []) (drop (length (tlv tag [])) rest) e).
Proof.
  intros Ht Hr. destruct rest as [|y [|z rest]]; [simpl in Hr; lia..|].
  unfold TnmBerEncNull. ber_step enc_byte_app. rewrite enc_byte_app.
  rewrite (u8_id tag) by done. by rewrite <- app_assoc.
Qed.

(** ** Integers *)

(** The [n] low octets of a value, most significant first. *)
Fixpoint be_octets (n : nat) (v : Z) : list Z :=
  match n with
  | O => []
  | S n => (v / 256 ^ Z.of_nat n) mod 256 :: be_octets n v
  end.

(** The value of octets, most significant first. *)
Definition be_value (os : list Z) : Z := foldl (fun a x => a * 256 + x) 0 os.

(** The number of octets of the shortest two's complement representation. *)
Definition int_size (v : Z) : nat :=
  if bool_decide (-2 ^ 7 <= v < 2 ^ 7) then 1
  else if bool_decide (-2 ^ 15 <= v < 2 ^ 15) then 2
  else if bool_decide (-2 ^ 23 <= v < 2 ^ 23) then 3
  else 4.

Definition int_octets (v : Z) : list Z := be_octets (int_size v) v.

Lemma length_be_octets n v : length (be_octets n v) = n.
Proof. induction n; simpl; congruence. Qed.

Lemma be_octets_bytes n v : bytes (be_octets n v).
Proof. induction n; constructor; [unfold is_byte; lia|done]. Qed.

(** Clearing the low [n] bits. *)
Lemma land_neg_pow2 v n : 0 <= n -> Z.land v (- 2 ^ n) = v / 2 ^ n * 2 ^ n.
Proof.
  intros Hn. replace (- 2 ^ n) with (Z.lnot (Z.ones n)).
  2:{ rewrite Z.ones_equiv. unfold Z.lnot. lia. }
  rewrite <- Z.ldiff_land, Z.ldiff_ones_r by done.
  by rewrite Z.shiftr_div_pow2, Z.shiftl_mul_pow2.
Qed.

Lemma int_strip_test v :
  (bool_decide (Z.land v int_mask9 = 0) || bool_decide (Z.land v int_mask9 = int_mask9))
  = bool_decide (-2 ^ 23 <= v < 2 ^ 23).
Proof.
  replace int_mask9 with (- 2 ^ 23) by reflexivity. rewrite land_neg_pow2 by lia.
  apply eq_true_iff_eq. rewrite orb_true_iff, !bool_decide_eq_true. lia.
Qed.

Lemma s32_shift v : s32 (Z.shiftl (s32 v) 8) = s32 (v * 256).
Proof.
  rewrite shiftl_8. apply s32_unique; [apply s32_range|]. rewrite s32_mod.
  rewrite (Z.mul_mod (s32 v)), s32_mod, <- Z.mul_mod by lia. done.
Qed.

Lemma enc_int_strip_spec v :
  is_s32 v ->
  enc_int_strip 4 v = (int_size v, s32 (v * 256 ^ Z.of_nat (4 - int_size v))).
Proof.
  intros Hv. unfold is_s32 in Hv. cbn [enc_int_strip].
  assert (Hs : forall w, -2 ^ 23 <= w < 2 ^ 23 -> s32 (Z.shiftl w 8) = w * 256).
  { intros. rewrite shiftl_8. apply s32_id. unfold is_s32. lia. }
  rewrite !int_strip_test. unfold int_size.
  assert (Hi : forall k, is_s32 (v * k) -> v * k = s32 (v * k)).
  { intros. by rewrite s32_id. }
  destruct (bool_decide_reflect (-2 ^ 23 <= v < 2 ^ 23)).
  2:{ rewrite !bool_decide_false by lia. simpl. f_equal.
      rewrite <- (Z.mul_1_r v) at 1. apply Hi. unfold is_s32; lia. }
  rewrite (Hs v) by done.
  destruct (bool_decide_reflect (-2 ^ 23 <= v * 256 < 2 ^ 23)).
  2:{ rewrite !bool_decide_false by lia. simpl. f_equal. apply Hi. unfold is_s32; lia. }
  rewrite (Hs (v * 256)) by done.
  rewrite (bool_decide_true (-2 ^ 15 <= v < 2 ^ 15)) by lia.
  destruct (bool_decide_reflect (-2 ^ 23 <= v * 256 * 256 < 2 ^ 23)).
  - rewrite bool_decide_true by lia. simpl. f_equal.
    rewrite Hs, <- Hi by (unfold is_s32; lia). lia.
  - rewrite bool_decide_false by lia. simpl. f_equal.
    rewrite <- Hi by (unfold is_s32; lia). lia.
Qed.

(** The octet [enc_int_bytes] emits when [i] octets remain after it. *)
Lemma int_top_octet v i :
  (i <= 3)%nat ->
  u8 (Z.shiftr (Z.land (s32 (v * 256 ^ Z.of_nat (3 - i))) int_mask8) (8 * (4 - 1)))
  = (v / 256 ^ Z.of_nat i) mod 256.
Proof.
  intros. replace int_mask8 with (- 2 ^ 24) by reflexivity.
  rewrite land_neg_pow2, Z.shiftr_div_pow2 by lia. simpl (8 * (4 - 1)).
  rewrite Z.div_mul by lia. unfold u8.
  assert (Ht : forall z, (s32 z / 2 ^ 24) mod 256 = z mod 4294967296 / 2 ^ 24).
  { intros. unfold s32. case_bool_decide; lia. }
  rewrite Ht. destruct i as [|[|[|[|]]]]; simpl; lia.
Qed.

Lemma enc_int_bytes_app i v n pre rest e :
  (i <= 4)%nat -> (i <= length rest)%nat ->
  enc_int_bytes i (s32 (v * 256 ^ Z.of_nat (4 - i))) n (st pre rest e)
  = Ret (n + Z.of_nat i) (st (pre ++ be_octets i v) (drop i rest) e).
Proof.
  revert n pre rest. induction i as [|i IH]; intros n pre rest Hi Hr.
  { simpl. rewrite app_nil_r, Z.add_0_r. done. }
  destruct rest as [|y rest]; [simpl in Hr; lia|]. cbn [enc_int_bytes be_octets].
  ber_step enc_byte_app. rewrite u8_idemp. simpl (4 - S i)%nat.
  rewrite int_top_octet, s32_shift by lia.
  replace (v * 256 ^ Z.of_nat (3 - i) * 256) with (v * 256 ^ Z.of_nat (4 - i)).
  2:{ rewrite <- Z.mul_assoc. f_equal. replace (4 - i)%nat with (S (3 - i)) by lia.
      rewrite Nat2Z.inj_succ, Z.pow_succ_r by lia. lia. }
  rewrite IH by (simpl in Hr; lia). rewrite <- app_assoc. simpl.
  f_equal. lia.
Qed.

(** [TnmBerEncInt] appends the shortest two's complement form. *)
Lemma enc_int_app tag v pre rest e :
  is_byte tag -> is_s32 v -> (tlv_room (int_octets v) <= length rest)%nat ->
  TnmBerEncInt tag v (st pre rest e)
  = Ret tt (st (pre ++ tlv tag (int_octets v)) (drop (length (tlv tag (int_octets v))) rest) e).
Proof.
  intros Ht Hv Hr. unfold tlv_room, int_octets in Hr. rewrite length_be_octets in Hr.
  destruct rest as [|y [|z rest]]; [simpl in Hr; lia..|]. rewrite !length_cons in Hr.
  assert (Hk : (1 <= int_size v <= 4)%nat)
    by (unfold int_size; repeat case_bool_decide; lia).
  assert (Hn : len_extra (Z.of_nat (int_size v)) = 0%nat
               /\ len_room (Z.of_nat (int_size v)) = 0%nat)
    by (unfold len_extra, len_room, len_octets; rewrite !bool_decide_true by lia; done).
  unfold TnmBerEncInt. rewrite enc_header_app, enc_int_strip_spec by done.
  ber_step enc_int_bytes_app.
  rewrite enc_close_app;
    rewrite ?length_be_octets, ?length_drop; try lia; auto using be_octets_bytes.
  rewrite length_tlv, drop_drop. unfold int_octets. by rewrite length_be_octets.
Qed.

(** ** Object identifiers *)

(** The [n] low groups of seven bits, most significant first, the top bit set
    in all but the last octet. *)
Fixpoint b128_octets (n : nat) (v : Z) : list Z :=
  match n with
  | O => []
  | S n => ((v / 128 ^ Z.of_nat n) mod 128 + (if bool_decide (n = 0)%nat then 0 else 128))
             :: b128_octets n v
  end.

Definition subid_size (v : Z) : nat :=
  if bool_decide (v < 2 ^ 7) then 1
  else if bool_decide (v < 2 ^ 14) then 2
  else if bool_decide (v < 2 ^ 21) then 3
  else if bool_decide (v < 2 ^ 28) then 4
  else 5.

Definition subid_octets (v : Z) : list Z := b128_octets (subid_size v) v.

(** X.690, 8.19: the first two components are packed into one. *)
Definition oid_packed (oid : list Z) : list Z :=
  match oid with
  | o0 :: o1 :: rest => (o0 * 40 + o1) :: rest
  | _ => []
  end.

Definition oid_octets (oid : list Z) : list Z := concat (map subid_octets (oid_packed oid)).

(** Object identifier values the encoding can represent with 32 bit
    components. *)
Definition valid_oid (oid : list Z) : Prop :=
  match oid with
  | o0 :: o1 :: rest =>
      0 <= o0 <= 2 /\ 0 <= o1 /\ o0 * 40 + o1 < 4294967296 /\ (o0 < 2 -> o1 < 40)
      /\ Forall is_u32 rest /\ (length oid <= TNM_OID_MAX_SIZE)%nat
  | _ => False
  end.

#[global] Instance valid_oid_dec oid : Decision (valid_oid oid).
Proof. destruct oid as [|o0 [|o1 rest]]; simpl; apply _. Defined.

Lemma length_b128_octets n v : length (b128_octets n v) = n.
Proof. induction n; simpl; congruence. Qed.

Lemma b128_octets_bytes n v : bytes (b128_octets n v).
Proof.
  induction n; constructor; [|done]. unfold is_byte. case_bool_decide; lia.
Qed.

Lemma subid_size_bounds v : (1 <= subid_size v <= 5)%nat.
Proof. unfold subid_size. repeat case_bool_decide; lia. Qed.

(** A 32 bit value masked with the top [32 - m] bits. *)
Lemma land_u32_mask op m :
  is_u32 op -> 0 <= m < 32 -> Z.land op (u32 (- 2 ^ m)) = op / 2 ^ m * 2 ^ m.
Proof.
  intros Hop Hm. unfold is_u32 in Hop. rewrite <- land_neg_pow2 by lia.
  unfold u32. change 4294967296 with (2 ^ 32). rewrite <- Z.land_ones by lia.
  rewrite (Z.land_comm (- _)), Z.land_assoc, Z.land_ones by lia.
  by rewrite Z.mod_small by lia.
Qed.

(** The scan finds the number of significant bits. *)
Lemma enc_oid_bits_spec n k op :
  (n <= 32)%nat -> (1 <= k <= n)%nat -> 2 ^ (Z.of_nat k - 1) <= op < 2 ^ Z.of_nat k ->
  enc_oid_bits n (- 2 ^ (Z.of_nat n - 1)) op = k.
Proof.
  intros Hn Hk Hop.
  assert (is_u32 op).
  { unfold is_u32. pose proof (Z.pow_le_mono_r 2 (Z.of_nat k) 32 ltac:(lia) ltac:(lia)). lia. }
  revert Hk Hn. induction n as [|n IH]; intros Hk Hn; [lia|]. cbn [enc_oid_bits].
  replace (Z.of_nat (S n) - 1) with (Z.of_nat n) by lia.
  rewrite land_u32_mask by (done || lia).
  destruct (decide (k = S n)) as [->|Hne].
  - rewrite bool_decide_true; [done|].
    replace (Z.of_nat (S n) - 1) with (Z.of_nat n) in Hop by lia.
    assert (1 <= op / 2 ^ Z.of_nat n) by (apply Z.div_le_lower_bound; lia). lia.
  - assert (op < 2 ^ Z.of_nat n).
    { pose proof (Z.pow_le_mono_r 2 (Z.of_nat k) (Z.of_nat n) ltac:(lia) ltac:(lia)). lia. }
    rewrite Z.div_small by (unfold is_u32 in *; lia).
    rewrite bool_decide_false by lia.
    rewrite Z.shiftr_div_pow2 by lia. replace (2 ^ 1) with 2 by done.
    replace (- 2 ^ Z.of_nat n / 2) with (- 2 ^ (Z.of_nat n - 1)); [apply IH; lia|].
    replace (Z.of_nat n) with (Z.succ (Z.of_nat n - 1)) at 2 by lia.
    rewrite Z.pow_succ_r by lia. lia.
Qed.

(** Bits rounded up to groups of seven. *)
Lemma enc_oid_groups op :
  is_u32 op -> 128 <= op ->
  ((enc_oid_bits 32 (s32 (Z.shiftl 1 31)) op + 6) / 7 * 7 = subid_size op * 7)%nat.
Proof.
  intros Hop Hge. unfold is_u32 in Hop.
  set (k := Z.to_nat (Z.log2 op + 1)).
  pose proof (Z.log2_spec op ltac:(lia)) as Hlog.
  pose proof (Z.log2_nonneg op).
  assert (Z.log2 op < 32) by (apply Z.log2_lt_pow2; lia).
  replace (s32 (Z.shiftl 1 31)) with (- 2 ^ (Z.of_nat 32 - 1)) by reflexivity.
  rewrite (enc_oid_bits_spec 32 k) by
    (unfold k; rewrite ?Z2Nat.id by lia;
     replace (Z.log2 op + 1 - 1) with (Z.log2 op) by lia; lia).
  f_equal.
  assert (Hc : forall a, 0 <= a -> (a <= Z.log2 op <-> 2 ^ a <= op)).
  { intros. symmetry. apply Z.log2_le_pow2; lia. }
  pose proof (Hc 7 ltac:(lia)). pose proof (Hc 14 ltac:(lia)).
  pose proof (Hc 21 ltac:(lia)). pose proof (Hc 28 ltac:(lia)).
  assert (Z.of_nat k = Z.log2 op + 1) by lia.
  clear Hlog Hc. clearbody k. unfold subid_size. repeat case_bool_decide; lia.
Qed.

Lemma mask_group op g :
  0 <= op ->
  Z.lor (Z.shiftr (Z.land op (2 ^ (7 * Z.of_nat (S g)) - 1)) (7 * Z.of_nat g)) 0x80
  = (op / 128 ^ Z.of_nat g) mod 128 + 128.
Proof.
  intros. replace (2 ^ (7 * Z.of_nat (S g)) - 1) with (Z.ones (7 * Z.of_nat (S g)))
    by (rewrite Z.ones_equiv; lia).
  rewrite Z.land_ones, Z.shiftr_div_pow2 by lia.
  replace (7 * Z.of_nat (S g)) with (7 * Z.of_nat g + 7) by lia.
  rewrite Z.pow_add_r, Z.rem_mul_r by lia.
  replace (128 ^ Z.of_nat g) with (2 ^ (7 * Z.of_nat g)) by (by rewrite Z.pow_mul_r by lia).
  assert (0 < 2 ^ (7 * Z.of_nat g)) by (apply Z.pow_pos_nonneg; lia).
  rewrite (Z.mul_comm (2 ^ _)), Z.div_add by lia.
  rewrite (Z.div_small (_ mod _)) by (apply Z.mod_pos_bound; lia).
  rewrite Z.add_0_l, lor_128; [done|]. apply Z.mod_pos_bound. lia.
Qed.

Lemma enc_oid_loop_app g fuel op n pre rest e :
  0 <= op -> (g < fuel)%nat -> (g <= length rest)%nat ->
  enc_oid_loop fuel (S g * 7) (2 ^ (7 * Z.of_nat (S g)) - 1) op n (st pre rest e)
  = Ret (2 ^ 7 - 1, n + Z.of_nat g)
      (st (pre ++ take g (b128_octets (S g) op)) (drop g rest) e).
Proof.
  intros Hop. revert fuel n pre rest.
  induction g as [|g IH]; intros fuel n pre rest Hf Hr.
  { destruct fuel; [lia|]. simpl. rewrite app_nil_r, Z.add_0_r. done. }
  destruct fuel as [|fuel]; [lia|]. destruct rest as [|y rest]; [simpl in Hr; lia|].
  cbn [enc_oid_loop]. rewrite bool_decide_true by lia.
  replace (S (S g) * 7 - 7)%nat with (S g * 7)%nat by lia.
  ber_step enc_byte_app. rewrite u8_idemp.
  replace (Z.of_nat (S g * 7)) with (7 * Z.of_nat (S g)) by lia.
  rewrite mask_group by done.
  replace (Z.shiftr (2 ^ (7 * Z.of_nat (S (S g))) - 1) 7) with (2 ^ (7 * Z.of_nat (S g)) - 1).
  2:{ rewrite Z.shiftr_div_pow2 by lia.
      replace (7 * Z.of_nat (S (S g))) with (7 * Z.of_nat (S g) + 7) by lia.
      rewrite Z.pow_add_r by lia. lia. }
  rewrite IH by (simpl in Hr; lia). rewrite <- app_assoc, u8_id by (unfold is_byte; lia).
  simpl. do 2 f_equal. lia.
Qed.

Lemma b128_octets_snoc n v :
  b128_octets (S n) v = take n (b128_octets (S n) v) ++ [v mod 128].
Proof.
  induction n as [|n IH]; [simpl; by rewrite Z.div_1_r, Z.add_0_r|].
  change (b128_octets (S (S n)) v) with
    (((v / 128 ^ Z.of_nat (S n)) mod 128 + 128) :: b128_octets (S n) v).
  cbn [take app]. by rewrite IH at 1.
Qed.

Lemma enc_oid_tail_app g op n pre rest e :
  0 <= op -> (g <= 3)%nat -> (S g <= length rest)%nat ->
  enc_oid_tail (S g * 7) op n (st pre rest e)
  = Ret (n + Z.of_nat (S g)) (st (pre ++ b128_octets (S g) op) (drop (S g) rest) e).
Proof.
  intros Hop Hg Hr. unfold enc_oid_tail.
  replace (s32 (Z.shiftl 1 (Z.of_nat (S g * 7))) - 1) with (2 ^ (7 * Z.of_nat (S g)) - 1)
    by (destruct g as [|[|[|[|]]]]; [done..|lia]).
  erewrite bind_ret by (apply enc_oid_loop_app; lia).
  destruct (drop g rest) as [|y rest'] eqn:Hd.
  { apply (f_equal length) in Hd. rewrite length_drop in Hd. simpl in Hd. lia. }
  ber_step enc_byte_app. unfold mret, BerM_ret. rewrite u8_idemp.
  replace (2 ^ 7 - 1) with 127 by done.
  rewrite land_127, (u8_id (_ mod _)), <- app_assoc, <- b128_octets_snoc by (unfold is_byte; lia).
  replace (drop (S g) rest) with rest'
    by (by rewrite <- Nat.add_1_r, <- drop_drop, Hd).
  f_equal. lia.
Qed.

(** The octets of one component follow those already written. *)
Lemma enc_oid_subid_app op n pre rest e :
  is_u32 op -> (subid_size op <= length rest)%nat ->
  enc_oid_subid op n (st pre rest e)
  = Ret (n + Z.of_nat (subid_size op))
      (st (pre ++ subid_octets op) (drop (subid_size op) rest) e).
Proof.
  intros Hop Hr. pose proof Hop as Hop'. unfold is_u32 in Hop'.
  unfold enc_oid_subid, subid_octets. case_bool_decide as Hs.
  { assert (Hz : subid_size op = 1%nat)
      by (unfold subid_size; by rewrite bool_decide_true by lia).
    rewrite Hz in *. destruct rest as [|y rest]; [simpl in Hr; lia|].
    ber_step enc_byte_app. simpl. unfold mret, BerM_ret.
    rewrite Z.div_1_r, Z.add_0_r, u8_id, Z.mod_small by (unfold is_byte; lia). done. }
  rewrite enc_oid_groups by (done || lia).
  pose proof (subid_size_bounds op).
  destruct (subid_size op) as [|g] eqn:Hg; [lia|].
  destruct (decide (g = 4)%nat) as [->|H5].
  - rewrite bool_decide_true by lia. destruct rest as [|y rest]; [simpl in Hr; lia|].
    ber_step enc_byte_app. rewrite u8_idemp.
    replace (5 * 7 - 7)%nat with (4 * 7)%nat by lia.
    rewrite enc_oid_tail_app by (simpl in Hr; lia).
    replace (Z.of_nat (4 * 7)) with 28 by lia.
    rewrite land_127, Z.shiftr_div_pow2, lor_128 by lia.
    rewrite u8_id, <- app_assoc by (unfold is_byte; lia).
    f_equal. lia.
  - rewrite bool_decide_false by lia. rewrite enc_oid_tail_app by lia. done.
Qed.

Lemma length_subid_octets v : length (subid_octets v) = subid_size v.
Proof. apply length_b128_octets. Qed.

Lemma enc_oid_subids_app ops n pre rest e :
  Forall is_u32 ops -> (length (concat (map subid_octets ops)) <= length rest)%nat ->
  enc_oid_subids ops n (st pre rest e)
  = Ret (n + Z.of_nat (length (concat (map subid_octets ops))))
      (st (pre ++ concat (map subid_octets ops))
          (drop (length (concat (map subid_octets ops))) rest) e).
Proof.
  intros Hops. revert n pre rest.
  induction Hops as [|op ops Hop Hops IH]; intros n pre rest Hr; simpl in *.
  { by rewrite app_nil_r, Z.add_0_r. }
  rewrite length_app, length_subid_octets in *.
  ber_step enc_oid_subid_app. rewrite IH by (rewrite length_drop; lia).
  rewrite drop_drop, <- app_assoc. f_equal. lia.
Qed.

Lemma subid_octets_bytes ops : bytes (concat (map subid_octets ops)).
Proof.
  induction ops; simpl; [constructor|]. apply bytes_app. split; [|done].
  apply b128_octets_bytes.
Qed.

Lemma oid_octets_length oid :
  valid_oid oid -> (length (oid_octets oid) <= 635)%nat.
Proof.
  unfold oid_octets. destruct oid as [|o0 [|o1 rest]]; simpl; [lia..|].
  intros (_ & _ & _ & _ & _ & Hl). unfold TNM_OID_MAX_SIZE in Hl.
  rewrite length_app, length_subid_octets. pose proof (subid_size_bounds (o0 * 40 + o1)).
  assert (length (concat (map subid_octets rest)) <= 5 * length rest)%nat; [|lia].
  induction rest as [|x rest IH]; simpl; [lia|].
  rewrite length_app, length_subid_octets. pose proof (subid_size_bounds x).
  simpl in Hl. specialize (IH ltac:(lia)). lia.
Qed.

(** [TnmBerEncOID] appends the X.690 encoding of a valid object identifier. *)
Lemma enc_oid_app oid pre rest e :
  valid_oid oid -> (tlv_room (oid_octets oid) <= length rest)%nat ->
  TnmBerEncOID oid (st pre rest e)
  = Ret tt (st (pre ++ tlv ASN1_OBJECT_IDENTIFIER (oid_octets oid))
               (drop (length (tlv ASN1_OBJECT_IDENTIFIER (oid_octets oid))) rest) e).
Proof.
  intros Hv Hr. pose proof (oid_octets_length oid Hv) as Hl. unfold tlv_room in Hr.
  destruct oid as [|o0 [|o1 oid]]; [done..|].
  destruct Hv as (H0 & H1 & H01 & _ & Hu & _). unfold TnmBerEncOID.
  rewrite bool_decide_false by lia.
  destruct rest as [|y [|z rest]]; [simpl in Hr; lia..|]. rewrite !length_cons in Hr.
  rewrite enc_header_app, (u32_id (o0 * 40)), u32_id, Z.add_comm by (unfold is_u32; lia).
  assert (Forall is_u32 (o0 * 40 + o1 :: oid))
    by (constructor; [unfold is_u32; lia|done]).
  pose proof (enc_oid_subids_app (o0 * 40 + o1 :: oid)) as Hs.
  change (concat (map subid_octets (o0 * 40 + o1 :: oid)))
    with (oid_octets (o0 :: o1 :: oid)) in Hs.
  ber_step Hs.
  rewrite enc_close_app; rewrite ?length_drop; try done; try lia;
    [|apply subid_octets_bytes].
  rewrite length_tlv, drop_drop. done.
Qed.

(** ** Counter64 *)

(** Number of base 256 digits; zero has none. *)
Fixpoint u64_size (fuel : nat) (v : Z) : nat :=
  match fuel with
  | O => O
  | S fuel => if bool_decide (1 <= v) then S (u64_size fuel (v / 256)) else 0
  end.

Definition u64_octets (v : Z) : list Z := be_octets (u64_size 8 v) v.

(** A non-negative integer [v] divided [k] times by 256, as a rational. *)
Definition q256 (v : Z) (k : nat) : Q := (inject_Z v / inject_Z (256 ^ Z.of_nat k))%Q.

Lemma pow256_pos k : 0 < 256 ^ Z.of_nat k.
Proof. apply Z.pow_pos_nonneg; lia. Qed.

Lemma q256_floor v k x : (x == q256 v k)%Q -> Qfloor x = v / 256 ^ Z.of_nat k.
Proof.
  intros ->. unfold q256. rewrite Zdiv_Qdiv. done.
Qed.

Lemma q256_S v k x : (x == q256 v k)%Q -> (x / 256 == q256 v (S k))%Q.
Proof.
  intros ->. unfold q256. pose proof (pow256_pos k).
  replace (256 ^ Z.of_nat (S k)) with (256 ^ Z.of_nat k * 256)
    by (rewrite Nat2Z.inj_succ, Z.pow_succ_r; lia).
  rewrite inject_Z_mult. field. intros Hq. 
  apply (inject_Z_injective (256 ^ Z.of_nat k) 0) in Hq. lia.
Qed.

Lemma Qfloor_add_Z x z : Qfloor (x + inject_Z z) = Qfloor x + z.
Proof.
  destruct x as [n d]. unfold Qfloor, Qplus, inject_Z. simpl.
  rewrite Z.mul_1_r, Pos.mul_1_r. apply Z.div_add. done.
Qed.

Lemma q256_ge1 v k x : (x == q256 v k)%Q -> Qle_bool 1 x = bool_decide (1 <= v / 256 ^ Z.of_nat k).
Proof.
  intros Hx. apply eq_true_iff_eq. rewrite Qle_bool_iff, bool_decide_eq_true.
  rewrite <- (q256_floor _ _ _ Hx). split; intros H.
  - change 1 with (Qfloor 1). by apply Qfloor_resp_le.
  - eapply Qle_trans; [|apply Qfloor_le]. change 1%Q with (inject_Z 1). by rewrite <- Zle_Qle.
Qed.

Lemma enc64_size_spec n fuel v k x len :
  (x == q256 v k)%Q -> 0 <= v -> v / 256 ^ Z.of_nat k < 256 ^ Z.of_nat n -> (n < fuel)%nat ->
  enc64_size fuel x len = Some (len + u64_size n (v / 256 ^ Z.of_nat k))%nat.
Proof.
  revert fuel k x len. induction n as [|n IH]; intros fuel k x len Hx Hv Hlt Hf;
    (destruct fuel as [|fuel]; [lia|]); cbn [enc64_size u64_size];
    rewrite (q256_ge1 _ _ _ Hx).
  - rewrite bool_decide_false by (simpl in Hlt; lia). by rewrite Nat.add_0_r.
  - case_bool_decide; [|by rewrite Nat.add_0_r].
    pose proof (pow256_pos k).
    assert (Hd : v / 256 ^ Z.of_nat k / 256 = v / 256 ^ Z.of_nat (S k)).
    { rewrite Z.div_div by lia. f_equal. rewrite Nat2Z.inj_succ, Z.pow_succ_r; lia. }
    rewrite (IH fuel (S k)); [|by apply q256_S|done| |lia].
    + rewrite Hd. f_equal. lia.
    + rewrite <- Hd. apply Z.div_lt_upper_bound; [lia|].
      rewrite <- Z.pow_succ_r, <- Nat2Z.inj_succ by lia. done.
Qed.

Lemma enc64_digit v k x :
  (x == q256 v k)%Q ->
  u8 (Qfloor (x - inject_Z (Qfloor (x / 256)) * 256)%Q) = (v / 256 ^ Z.of_nat k) mod 256.
Proof.
  intros Hx. rewrite (q256_floor v (S k) (x / 256)) by (by apply q256_S).
  pose proof (pow256_pos k).
  replace (v / 256 ^ Z.of_nat (S k)) with (v / 256 ^ Z.of_nat k / 256).
  2:{ rewrite Z.div_div by lia. f_equal. rewrite Nat2Z.inj_succ, Z.pow_succ_r; lia. }
  change 256%Q with (inject_Z 256). rewrite <- inject_Z_mult.
  unfold Qminus. rewrite <- inject_Z_opp, Qfloor_add_Z, (q256_floor v k x Hx).
  unfold u8. lia.
Qed.

Lemma be_octets_snoc n v : be_octets (S n) v = be_octets n (v / 256) ++ [v mod 256].
Proof.
  induction n as [|n IH]; [simpl; by rewrite Z.div_1_r|].
  cbn [be_octets] in *. rewrite IH. simpl. f_equal.
  rewrite Z.div_div by lia. rewrite <- Z.pow_succ_r, <- Nat2Z.inj_succ by lia. done.
Qed.

(** The digits are written from the least significant one. *)
Lemma enc64_digits_app n v k x pre old rest cur e :
  (x == q256 v k)%Q -> length old = n ->
  enc64_digits n (length pre) x (mkBer (pre ++ old ++ rest) cur e)
  = Ret tt (mkBer (pre ++ be_octets n (v / 256 ^ Z.of_nat k) ++ rest) cur e).
Proof.
  revert k x old rest. induction n as [|n IH]; intros k x old rest Hx Hl.
  { destruct old; [done|simpl in Hl; lia]. }
  cbn [enc64_digits].
  destruct old as [|z old _] using rev_ind; [simpl in Hl; lia|].
  rewrite length_app in Hl. simpl in Hl.
  replace (length pre + n)%nat with (length (pre ++ old)) by (rewrite length_app; lia).
  rewrite <- (app_assoc old), app_assoc. cbn [app]. ber_step ber_write_mid.
  rewrite (enc64_digit v k), <- app_assoc by done.
  rewrite (IH (S k)), be_octets_snoc by (by apply q256_S || lia).
  pose proof (pow256_pos k).
  replace (v / 256 ^ Z.of_nat (S k)) with (v / 256 ^ Z.of_nat k / 256).
  2:{ rewrite Z.div_div by lia. f_equal. rewrite Nat2Z.inj_succ, Z.pow_succ_r; lia. }
  by rewrite <- app_assoc.
Qed.

Lemma u64_size_le n v : (u64_size n v <= n)%nat.
Proof. revert v. induction n as [|n IH]; intros v; simpl; [lia|]. case_bool_decide; [|lia]. specialize (IH (v / 256)). lia. Qed.

(** [TnmBerEncUnsigned64] of an integral double below [2^64] appends its base
    256 digits, without a leading zero octet. *)
Lemma enc_u64_app v pre rest e :
  0 <= v < 2 ^ 64 -> (tlv_room (u64_octets v) <= length rest)%nat ->
  TnmBerEncUnsigned64 (inject_Z v) (st pre rest e)
  = Ret tt (st (pre ++ tlv ASN1_COUNTER64 (u64_octets v))
               (drop (length (tlv ASN1_COUNTER64 (u64_octets v))) rest) e).
Proof.
  intros Hv Hr. unfold tlv_room, u64_octets in Hr. rewrite length_be_octets in Hr.
  destruct rest as [|y [|z rest]]; [simpl in Hr; lia..|]. rewrite !length_cons in Hr.
  assert (Hq : (inject_Z v == q256 v 0)%Q) 
    by (unfold q256; change (inject_Z (256 ^ Z.of_nat 0)) with 1%Q; field).
  unfold TnmBerEncUnsigned64. rewrite enc_header_app.
  rewrite (enc64_size_spec 8 _ v 0) by (done || simpl; rewrite ?Z.div_1_r; lia || unfold enc64_fuel; lia).
  rewrite Nat.add_0_l. change (256 ^ Z.of_nat 0) with 1. rewrite Z.div_1_r.
  pose proof (u64_size_le 8 v). set (n := u64_size 8 v) in *.
  unfold enc64_body. set (p := (pre ++ [u8 ASN1_COUNTER64]) ++ [0]).
  rewrite ber_too_long_false by lia.
  assert (Hd : rest = take n rest ++ drop n rest) by (by rewrite take_drop).
  unfold st at 1 2. cbn [ber_current]. rewrite Hd.
  erewrite bind_ret by (apply (enc64_digits_app n v 0); [done|rewrite length_take; lia]).
  change (256 ^ Z.of_nat 0) with 1. rewrite Z.div_1_r.
  erewrite bind_ret by done. unfold set_current. cbn [ber_buf ber_current ber_error].
  replace (mkBer (p ++ be_octets n v ++ drop n rest) (length p + n) e)
    with (st (p ++ be_octets n v) (drop n rest) e)
    by (unfold st; rewrite length_app, length_be_octets, <- app_assoc; done).
  unfold p. rewrite enc_close_app;
    rewrite ?length_be_octets, ?length_drop; try done; try lia; auto using be_octets_bytes.
  rewrite length_tlv, <- Hd. unfold u64_octets. rewrite length_be_octets. fold n.
  simpl. rewrite drop_drop. done.
Qed.

(** ** Composition

    [appends m o]: with room for [o] and one spare octet (which
    [TnmBerEncLength] asks for when a length field grows), [m] writes exactly
    [o].  The predicate is closed under sequencing and under wrapping in a
    SEQUENCE, so the octets of a whole message follow from those of its
    parts. *)
Definition appends (m : BerM unit) (o : list Z) : Prop :=
  bytes o /\
  forall pre rest e, (length o + 1 <= length rest)%nat ->
    m (st pre rest e) = Ret tt (st (pre ++ o) (drop (length o) rest) e).

Lemma tlv_bytes tag body :
  is_byte tag -> bytes body -> Z.of_nat (length body) < 65536 -> bytes (tlv tag body).
Proof.
  intros. apply bytes_cons. split; [done|]. apply bytes_app. split; [|done].
  apply len_octets_bytes. lia.
Qed.

Lemma tlv_room_slack tag body : (tlv_room body <= length (tlv tag body) + 1)%nat.
Proof.
  rewrite length_tlv. unfold tlv_room, len_room. case_bool_decide; lia.
Qed.

Lemma appends_ret : appends (mret tt) [].
Proof. split; [constructor|]. intros. simpl. by rewrite app_nil_r. Qed.

Lemma appends_bind m1 m2 o1 o2 :
  appends m1 o1 -> appends m2 o2 -> appends (_ ← m1; m2) (o1 ++ o2).
Proof.
  intros [Hb1 H1] [Hb2 H2]. split; [by apply bytes_app|].
  intros pre rest e Hr. rewrite length_app in *.
  rewrite (bind_ret _ _ _ _ _ (H1 pre rest e ltac:(lia))), H2 by (rewrite length_drop; lia).
  by rewrite <- app_assoc, drop_drop.
Qed.

Lemma appends_seq tag m body :
  is_byte tag -> Z.of_nat (length body) < 65536 -> appends m body ->
  appends (t ← TnmBerEncSequenceStart tag; _ ← m; TnmBerEncSequenceEnd t) (tlv tag body).
Proof.
  intros Ht Hl [Hb Hm]. split; [by apply tlv_bytes|]. intros pre rest e Hr.
  rewrite length_tlv in Hr. destruct rest as [|y [|z rest]]; [simpl in Hr; lia..|].
  rewrite !length_cons in Hr.
  unfold TnmBerEncSequenceStart.
  pose proof (enc_header_app mret tag pre y z rest e) as Hh.
  rewrite (bind_ret _ _ _ _ _ Hh). ber_step Hm.
  unfold TnmBerEncSequenceEnd. ber_step ber_pos_st.
  rewrite enc_close_app; try done.
  - rewrite length_tlv, drop_drop. done.
  - rewrite !length_app. simpl. lia.
  - rewrite length_drop. unfold len_room. case_bool_decide; lia.
Qed.

Lemma appends_int tag v :
  is_byte tag -> is_s32 v -> appends (TnmBerEncInt tag v) (tlv tag (int_octets v)).
Proof.
  intros Ht Hv. split.
  - apply tlv_bytes; [done|apply be_octets_bytes|].
    unfold int_octets. rewrite length_be_octets. unfold int_size. repeat case_bool_decide; lia.
  - intros. apply enc_int_app; [done..|].
    pose proof (tlv_room_slack tag (int_octets v)). lia.
Qed.

Lemma appends_octets tag os :
  is_byte tag -> bytes os -> Z.of_nat (length os) < 65536 ->
  appends (TnmBerEncOctetString tag os) (tlv tag os).
Proof.
  intros Ht Hb Hl. split; [by apply tlv_bytes|]. intros. apply enc_octets_app; [done..|].
  pose proof (tlv_room_slack tag os). lia.
Qed.

Lemma appends_null tag : is_byte tag -> appends (TnmBerEncNull tag) (tlv tag []).
Proof.
  intros Ht. split; [apply tlv_bytes; [done|constructor|done]|].
  intros. apply enc_null_app; [done|]. rewrite length_tlv in *. simpl in *. lia.
Qed.

Lemma appends_oid oid :
  valid_oid oid -> appends (TnmBerEncOID oid) (tlv ASN1_OBJECT_IDENTIFIER (oid_octets oid)).
Proof.
  intros Hv. pose proof (oid_octets_length oid Hv). split.
  - apply tlv_bytes; [done|apply subid_octets_bytes|lia].
  - intros. apply enc_oid_app; [done|].
    pose proof (tlv_room_slack ASN1_OBJECT_IDENTIFIER (oid_octets oid)). lia.
Qed.

Lemma appends_u64 v :
  0 <= v < 2 ^ 64 ->
  appends (TnmBerEncUnsigned64 (inject_Z v)) (tlv ASN1_COUNTER64 (u64_octets v)).
Proof.
  intros Hv. pose proof (u64_size_le 8 v). split.
  - apply tlv_bytes; [done|apply be_octets_bytes|]. unfold u64_octets.
    rewrite length_be_octets. lia.
  - intros. apply enc_u64_app; [done|].
    pose proof (tlv_room_slack ASN1_COUNTER64 (u64_octets v)). lia.
Qed.

#[export] Hint Resolve appends_ret appends_bind appends_seq appends_int appends_octets
  appends_null appends_oid appends_u64 : ber.
