(* ===== verification/BerRound.v ===== *)
(** The decoders of [Ber.v] invert the encodings of [BerSpec.v].

    [consumes m f o]: on any stream whose unread octets start with [o], [m]
    returns [f pre], where [pre] are the octets already read, and leaves the
    stream just behind [o].  Together with [appends] of [BerSpec.v] this gives
    the round trips. *)

From Stdlib Require Import QArith Qround.
From S2P Require Import Prelude Ber BerSpec.
Local Open Scope Z_scope.

Definition consumes {A} (m : BerM A) (f : list Z -> A) (o : list Z) : Prop :=
  forall pre rest e, m (st pre (o ++ rest) e) = Ret (f pre) (st (pre ++ o) rest e).

Lemma consumes_ret {A} (a : A) : consumes (mret a) (fun _ => a) [].
Proof. intros pre rest e. simpl. by rewrite app_nil_r. Qed.

Lemma consumes_bind {A B} (m : BerM A) (k : A -> BerM B) f g o1 o2 :
  consumes m f o1 -> (forall pre rest e,
    k (f pre) (st (pre ++ o1) (o2 ++ rest) e) = Ret (g pre) (st ((pre ++ o1) ++ o2) rest e)) ->
  consumes (m ≫= k) g (o1 ++ o2).
Proof.
  intros H1 H2 pre rest e. rewrite <- app_assoc.
  rewrite (bind_ret _ _ _ _ _ (H1 pre (o2 ++ rest) e)), H2. by rewrite <- app_assoc.
Qed.

(** A computation whose result does not depend on the position. *)
Lemma consumes_bind_const {A B} (m : BerM A) (k : A -> BerM B) a g o1 o2 :
  consumes m (fun _ => a) o1 -> consumes (k a) g o2 ->
  consumes (m ≫= k) (fun pre => g (pre ++ o1)) (o1 ++ o2).
Proof. intros H1 H2. eapply consumes_bind; [done|]. intros. apply H2. Qed.

(** ** Tags and lengths *)

Lemma dec_tag_consumes tag : consumes (dec_tag tag) (fun _ => tt) [tag].
Proof.
  intros pre rest e. unfold dec_tag. ber_step dec_byte_app.
  by rewrite bool_decide_false by auto.
Qed.

Lemma dec_tag_wrong tag x pre rest e :
  x <> tag ->
  dec_tag tag (st pre (x :: rest) e)
  = Null (st (pre ++ [x]) rest (WrongTag x (S (length pre)) tag)).
Proof.
  intros. unfold dec_tag. ber_step dec_byte_app. rewrite bool_decide_true by done.
  unfold ber_wrong_tag, TnmBerWrongTag, set_error, st. simpl.
  rewrite length_app, Nat.add_1_r. done.
Qed.

Lemma land_high_bit x : is_byte x -> bool_decide (Z.land x 0x80 <> 0) = bool_decide (128 <= x).
Proof.
  intros Hx. unfold is_byte in Hx.
  replace (Z.land x 0x80) with (Z.land x (- 2 ^ 7)).
  - rewrite land_neg_pow2 by lia. apply bool_decide_ext. lia.
  - apply Z.bits_inj'. intros i Hi. rewrite !Z.land_spec.
    destruct (Z.eq_dec i 7) as [->|]; [done|].
    destruct (Z.lt_ge_cases i 8).
    + assert (i = 0 \/ i = 1 \/ i = 2 \/ i = 3 \/ i = 4 \/ i = 5 \/ i = 6)
        as [->|[->|[->|[->|[->|[->| ->]]]]]] by lia; by rewrite !andb_false_r.
    + rewrite <- (Z.mod_small x (2 ^ 8)), Z.mod_pow2_bits_high by lia. done.
Qed.

Lemma be_value_cons x os :
  be_value (x :: os) = x * 256 ^ Z.of_nat (length os) + be_value os.
Proof.
  unfold be_value. cbn [foldl].
  assert (H : forall a, foldl (fun a x => a * 256 + x) a os
    = a * 256 ^ Z.of_nat (length os) + foldl (fun a x => a * 256 + x) 0 os).
  { induction os as [|y os IH]; intros a; cbn [foldl length]; [simpl; lia|].
    rewrite (IH (a * 256 + y)), (IH (0 * 256 + y)), Nat2Z.inj_succ, Z.pow_succ_r by lia.
    lia. }
  by rewrite H.
Qed.

Lemma be_value_bound os : bytes os -> 0 <= be_value os < 256 ^ Z.of_nat (length os).
Proof.
  induction 1 as [|x os Hx Hos IH]; [done|]. unfold is_byte in Hx.
  rewrite be_value_cons. cbn [length]. rewrite Nat2Z.inj_succ, Z.pow_succ_r by lia. nia.
Qed.

Lemma be_value_octets n v : be_value (be_octets n v) = v mod 256 ^ Z.of_nat n.
Proof.
  induction n as [|n IH]; [simpl; by rewrite Z.mod_1_r|].
  cbn [be_octets]. rewrite be_value_cons, length_be_octets, IH.
  rewrite Nat2Z.inj_succ, Z.pow_succ_r, (Z.mul_comm 256), Z.rem_mul_r by lia. lia.
Qed.

(** One step of the loops that shift octets into an [int]. *)
Lemma s32_shift_in acc x :
  is_byte x -> s32 (Z.lor (Z.shiftl (s32 acc) 8) (Z.land x 0xff)) = s32 (acc * 256 + x).
Proof.
  intros Hx. unfold is_byte in Hx. rewrite land_255, Z.mod_small, lor_shiftl8 by (done || lia).
  apply s32_unique; [apply s32_range|]. rewrite s32_mod.
  rewrite (Z.add_mod (s32 acc * 256)), (Z.mul_mod (s32 acc)), s32_mod by lia.
  rewrite <- Z.mul_mod, <- Z.add_mod by lia. done.
Qed.

Lemma dec_int_loop_app os acc pre rest e :
  bytes os ->
  dec_int_loop (length os) (s32 acc) (st pre (os ++ rest) e)
  = Ret (s32 (acc * 256 ^ Z.of_nat (length os) + be_value os)) (st (pre ++ os) rest e).
Proof.
  intros Hos. revert acc pre. induction Hos as [|x os Hx Hos IH]; intros acc pre.
  { simpl. rewrite app_nil_r. do 2 f_equal. unfold be_value. simpl. lia. }
  cbn [length dec_int_loop app]. ber_step dec_byte_app.
  rewrite s32_shift_in, IH, <- app_assoc by done. simpl (_ ++ _). do 2 f_equal.
  rewrite be_value_cons, Nat2Z.inj_succ, Z.pow_succ_r by lia. lia.
Qed.

Lemma dec_length_loop_app os acc pre rest e :
  bytes os -> (length os <= 4)%nat ->
  dec_length_loop (length os) (s32 acc) (st pre (os ++ rest) e)
  = Ret (s32 (acc * 256 ^ Z.of_nat (length os) + be_value os)) (st (pre ++ os) rest e).
Proof.
  intros Hos. revert acc pre. induction Hos as [|x os Hx Hos IH]; intros acc pre Hl.
  { simpl. rewrite app_nil_r. do 2 f_equal. unfold be_value. simpl. lia. }
  cbn [length dec_length_loop app] in *. ber_step dec_byte_app.
  rewrite bool_decide_false, andb_false_l by lia.
  rewrite s32_shift_in, IH, <- app_assoc by (done || lia). simpl (_ ++ _). do 2 f_equal.
  rewrite be_value_cons, Nat2Z.inj_succ, Z.pow_succ_r by lia. lia.
Qed.

(** A long length field of at most four digits. *)
Lemma dec_length_digits os n :
  bytes os -> (length os <= 4)%nat -> be_value os = n -> n < 2 ^ 31 ->
  consumes TnmBerDecLength (fun _ => n) (0x80 + Z.of_nat (length os) :: os).
Proof.
  intros Hos Hlen Hv Hn pre rest e. unfold TnmBerDecLength. cbn [app].
  pose proof (be_value_bound os Hos).
  ber_step dec_byte_app.
  rewrite land_high_bit, bool_decide_true by (unfold is_byte; lia).
  rewrite land_127. replace (Z.to_nat _) with (length os) by lia.
  ber_step (dec_length_loop_app os 0).
  rewrite Z.mul_0_l, Z.add_0_l, Hv, s32_id by (unfold is_s32; lia).
  rewrite bool_decide_false by lia. by rewrite <- app_assoc.
Qed.

Lemma dec_length_consumes n :
  0 <= n < 65536 -> consumes TnmBerDecLength (fun _ => n) (len_octets n).
Proof.
  intros Hn. unfold len_octets. repeat case_bool_decide.
  - intros pre rest e. unfold TnmBerDecLength. cbn [app]. ber_step dec_byte_app.
    rewrite land_high_bit by (unfold is_byte; lia). rewrite bool_decide_false by lia. done.
  - apply (dec_length_digits [n]);
      [repeat constructor; lia|simpl; lia|unfold be_value; simpl; lia|lia].
  - apply (dec_length_digits [n / 256; n mod 256]);
      [repeat constructor; lia|simpl; lia|unfold be_value; simpl; lia|lia].
Qed.

(** Opening of a value: the tag and the length. *)
Lemma dec_header_consumes {A} tag n (k : Z -> BerM A) pre rest e :
  0 <= n < 65536 ->
  (_ ← dec_tag tag; len ← TnmBerDecLength; k len) (st pre (tag :: len_octets n ++ rest) e)
  = k n (st (pre ++ tag :: len_octets n) rest e).
Proof.
  intros Hn. erewrite bind_ret by (apply (dec_tag_consumes tag pre)).
  erewrite bind_ret by (apply dec_length_consumes; done).
  by rewrite <- app_assoc.
Qed.

(** ** OCTET STRING and NULL *)

Lemma dec_octets_consumes tag os :
  Z.of_nat (length os) < 65536 ->
  consumes (TnmBerDecOctetString tag)
    (fun pre => (length (pre ++ tag :: len_octets (Z.of_nat (length os))), os)) (tlv tag os).
Proof.
  intros Hl pre rest e. unfold TnmBerDecOctetString, tlv. cbn [app].
  rewrite <- app_assoc, dec_header_consumes by lia. unfold dec_octets.
  rewrite ber_too_long_false by (rewrite ?length_app; lia).
  unfold ber_slice, set_current, st. cbn [ber_buf ber_current ber_error].
  rewrite Nat2Z.id, drop_app_length, take_app_length. f_equal. f_equal.
  - by app_norm.
  - rewrite <- length_app. by app_norm.
Qed.

Lemma dec_null_consumes tag : consumes (TnmBerDecNull tag) (fun _ => tt) (tlv tag []).
Proof.
  intros pre rest e. unfold TnmBerDecNull, tlv. cbn [app].
  rewrite <- app_assoc, dec_header_consumes by (simpl; lia). done.
Qed.

Lemma dec_any_consumes tag os :
  Z.of_nat (length os) < 65536 ->
  consumes TnmBerDecAny (fun pre => (length pre, tlv tag os)) (tlv tag os).
Proof.
  intros Hl pre rest e. unfold TnmBerDecAny, tlv. ber_step ber_pos_st. cbn [app].
  ber_step dec_byte_app. rewrite <- app_assoc.
  erewrite bind_ret by (apply dec_length_consumes; lia). unfold dec_any.
  rewrite ber_too_long_false by (rewrite ?length_app; lia).
  unfold ber_slice, set_current, st. cbn [ber_buf ber_current ber_error].
  rewrite <- !app_assoc. cbn [app].
  rewrite drop_app_length, Nat2Z.id, !length_app. cbn [length].
  f_equal; [f_equal|f_equal].
  - set (l := len_octets _). replace (_ + _)%nat with (length (tag :: l ++ os))
      by (simpl; rewrite length_app; lia).
    change (tag :: l ++ os ++ rest) with ((tag :: l) ++ os ++ rest).
    rewrite app_assoc. apply take_app_length.
  - by app_norm.
  - rewrite length_app. lia.
Qed.

(** ** INTEGER *)

Lemma int_size_bounds v : (1 <= int_size v <= 4)%nat.
Proof. unfold int_size. repeat case_bool_decide; lia. Qed.

(** The first octet tells the sign. *)
Lemma int_octets_head v :
  is_s32 v -> exists x os, int_octets v = x :: os /\ is_byte x /\ (128 <= x <-> v < 0)
    /\ length os = pred (int_size v).
Proof.
  intros Hv. unfold is_s32 in Hv. unfold int_octets.
  pose proof (int_size_bounds v). destruct (int_size v) as [|n] eqn:Hn; [lia|].
  eexists _, _. split; [done|]. split; [unfold is_byte; lia|].
  split; [|by rewrite length_be_octets].
  unfold int_size in Hn. repeat case_bool_decide; injection Hn as <-; simpl; lia.
Qed.

(** What [TnmBerDecInt] makes of the octets of [v]: the value itself under the
    tag INTEGER, the octets read without a sign under any other tag. *)
Definition dec_int_value (tag v : Z) : Z :=
  if bool_decide (tag = ASN1_INTEGER) then v
  else s32 (v mod 256 ^ Z.of_nat (int_size v)).

Lemma dec_int_consumes tag v :
  is_s32 v ->
  consumes (TnmBerDecInt tag) (fun _ => dec_int_value tag v) (tlv tag (int_octets v)).
Proof.
  intros Hv pre rest e. pose proof (int_size_bounds v) as Hb.
  assert (Hlen : length (int_octets v) = int_size v) by apply length_be_octets.
  unfold TnmBerDecInt, tlv. cbn [app]. rewrite <- app_assoc, dec_header_consumes by lia.
  rewrite bool_decide_false by lia.
  destruct (int_octets_head v Hv) as (x & os & Hos & Hx & Hs & Hl).
  rewrite Hos at 2. cbn [app]. ber_step dec_peek_app.
  rewrite Hlen. rewrite (bool_decide_false (4 < _)), (bool_decide_false (4 < _ - 1)) by lia.
  rewrite !andb_false_r. cbn [orb]. rewrite land_high_bit by done.
  set (neg := bool_decide (tag = ASN1_INTEGER) && bool_decide (128 <= x)).
  replace (if neg then -1 else 0) with (s32 (if neg then -1 else 0)) by (by destruct neg).
  rewrite Nat2Z.id, <- Hlen.
  change (x :: os ++ rest) with ((x :: os) ++ rest). rewrite <- Hos.
  erewrite bind_ret by (apply dec_int_loop_app, be_octets_bytes).
  replace (neg && bool_decide (tag <> ASN1_INTEGER)) with false.
  2:{ unfold neg. destruct (decide (tag = ASN1_INTEGER));
        [rewrite (bool_decide_false (tag <> _)) by auto
        |rewrite (bool_decide_false (tag = _)) by done];
        by rewrite ?andb_false_r. }
  unfold mret, BerM_ret. rewrite Hlen. unfold int_octets. rewrite be_value_octets.
  f_equal; [|by app_norm].
  unfold dec_int_value, neg. destruct (decide (tag = ASN1_INTEGER)) as [->|Hne].
  - rewrite !(bool_decide_true (ASN1_INTEGER = _)) by done. cbn [andb].
    unfold is_s32 in Hv.
    apply s32_unique; [done|]. f_equal. clear -Hs Hv.
    unfold int_size. repeat case_bool_decide; simpl; lia.
  - by rewrite !(bool_decide_false (tag = _)), andb_false_l by done.
Qed.

(** ** Counter64 *)

Lemma dec64_loop_app os u pre rest e :
  bytes os ->
  dec64_loop (length os) (u64 u) (st pre (os ++ rest) e)
  = Ret (u64 (u * 256 ^ Z.of_nat (length os) + be_value os)) (st (pre ++ os) rest e).
Proof.
  intros Hos. revert u pre. induction Hos as [|x os Hx Hos IH]; intros u pre.
  { simpl. rewrite app_nil_r. do 2 f_equal. unfold be_value. simpl. lia. }
  cbn [length dec64_loop app]. ber_step dec_byte_app.
  replace (u64 (u64 u * 256 + x)) with (u64 (u * 256 + x)) by (unfold u64; lia).
  rewrite IH, <- app_assoc by done. simpl (_ ++ _). do 2 f_equal.
  rewrite be_value_cons, Nat2Z.inj_succ, Z.pow_succ_r by lia. lia.
Qed.

Lemma u64_size_bound n v :
  0 <= v < 256 ^ Z.of_nat n -> v < 256 ^ Z.of_nat (u64_size n v).
Proof.
  revert v. induction n as [|n IH]; intros v Hv; cbn [u64_size]; [lia|].
  case_bool_decide; [|simpl; lia].
  rewrite Nat2Z.inj_succ, Z.pow_succ_r in * by lia.
  specialize (IH (v / 256)). nia.
Qed.

Lemma dec_u64_consumes v :
  0 <= v < 2 ^ 64 ->
  consumes TnmBerDecUnsigned64 (fun _ => v) (tlv ASN1_COUNTER64 (u64_octets v)).
Proof.
  intros Hv pre rest e. pose proof (u64_size_le 8 v).
  assert (Hlen : length (u64_octets v) = u64_size 8 v) by apply length_be_octets.
  unfold TnmBerDecUnsigned64, tlv. cbn [app]. rewrite <- app_assoc, dec_header_consumes by lia.
  rewrite bool_decide_false by lia. rewrite Nat2Z.id.
  pose proof (dec64_loop_app (u64_octets v) 0) as Hd. change (u64 0) with 0 in Hd.
  rewrite Hd by apply be_octets_bytes. f_equal; [|by app_norm].
  rewrite Hlen. unfold u64_octets. rewrite be_value_octets.
  rewrite (Z.mod_small v); [unfold u64; lia|].
  split; [lia|]. apply (u64_size_bound 8). simpl. lia.
Qed.

(** ** OBJECT IDENTIFIER *)

Lemma u32_shift7 a b : u32 (u32 (Z.shiftl (u32 a) 7) + b) = u32 (a * 128 + b).
Proof. rewrite shiftl_7. unfold u32. lia. Qed.

(** Reading one component whose first octet has been read already. *)
Lemma dec_oid_subid_app n fuel v acc len x os pre rest e :
  b128_octets (S n) v = x :: os -> (n < fuel)%nat ->
  exists acc' y,
    dec_oid_subid fuel (u32 acc) x len (st pre (os ++ rest) e)
    = Ret (u32 acc', y, len - Z.of_nat n) (st (pre ++ os) rest e)
    /\ u32 (u32 (Z.shiftl (u32 acc') 7) + y)
       = u32 (acc * 128 ^ Z.of_nat (S n) + v mod 128 ^ Z.of_nat (S n)).
Proof.
  revert fuel acc len x os pre.
  induction n as [|n IH]; intros fuel acc len x os pre Ho Hf;
    (destruct fuel as [|fuel]; [lia|]); cbn [dec_oid_subid];
    injection Ho as <- <-.
  - rewrite bool_decide_false by lia.
    eexists _, _. split; [rewrite app_nil_r; unfold mret, BerM_ret; repeat f_equal; lia|].
    rewrite u32_shift7. simpl. rewrite Z.div_1_r. f_equal. lia.
  - rewrite bool_decide_true by lia.
    assert (Hd : ((v / 128 ^ Z.of_nat (S n)) mod 128 + 128) mod 128
                 = (v / 128 ^ Z.of_nat (S n)) mod 128) by lia.
    rewrite land_127, Hd, u32_shift7. cbn [app].
    ber_step dec_byte_app.
    edestruct (IH fuel (acc * 128 + (v / 128 ^ Z.of_nat (S n)) mod 128) (len - 1))
      as (acc' & y & -> & Hv); [done|lia|].
    eexists _, _. split; [f_equal; [f_equal; lia|by app_norm]|].
    rewrite Hv. f_equal. rewrite !(Nat2Z.inj_succ (S n)), !(Z.pow_succ_r _ (Z.of_nat (S n))) by lia.
    rewrite (Z.mul_comm 128), Z.rem_mul_r by lia. lia.
Qed.

Lemma subid_size_pow v : is_u32 v -> v < 128 ^ Z.of_nat (subid_size v).
Proof.
  unfold is_u32, subid_size. intros. repeat case_bool_decide; simpl; lia.
Qed.

(** [oid_store] at the end of the components already written. *)
Lemma oid_store_mid done_ x tail v b :
  oid_store (done_ ++ x :: tail) (length done_) v b = Ret (done_ ++ u32 v :: tail) b.
Proof.
  unfold oid_store. rewrite length_app. simpl. case_decide; [|lia].
  by rewrite insert_app_mid.
Qed.

Lemma dec_oid_component_app fuel len v done_ x tail pre rest e :
  is_u32 v -> (subid_size v <= fuel)%nat ->
  dec_oid_component fuel len (done_ ++ x :: tail) (length done_)
    (st pre (subid_octets v ++ rest) e)
  = Ret (done_ ++ v :: tail, v, len - Z.of_nat (subid_size v))
      (st (pre ++ subid_octets v) rest e).
Proof.
  intros Hv Hf. pose proof (subid_size_bounds v). unfold subid_octets, dec_oid_component.
  destruct (subid_size v) as [|n] eqn:Hn; [lia|].
  destruct (b128_octets (S n) v) as [|y os] eqn:Ho; [done|].
  erewrite bind_ret by apply oid_store_mid. cbn [app].
  ber_step dec_byte_app.
  edestruct (dec_oid_subid_app n fuel v 0 (len - 1)) as (acc & z & Hr & Hval); [done|lia|].
  change (u32 0) with 0 in Hr. rewrite (bind_ret _ _ _ _ _ Hr).
  erewrite bind_ret by apply oid_store_mid. rewrite Hval.
  rewrite Z.mul_0_l, Z.add_0_l, Z.mod_small, !u32_id by
    (done || (unfold is_u32 in Hv; split; [lia|]; rewrite <- Hn; by apply subid_size_pow)
     || apply u32_range).
  unfold mret, BerM_ret. f_equal; [f_equal; lia|]. by app_norm.
Qed.

(** The components after the first two. *)
Lemma dec_oid_loop_app ops fuel done_ tail pre rest e :
  let os := concat (map subid_octets ops) in
  Forall is_u32 ops -> (length os < fuel)%nat -> (2 <= length done_)%nat ->
  (length ops <= length tail)%nat -> (length done_ + length ops <= TNM_OID_MAX_SIZE)%nat ->
  dec_oid_loop fuel (Z.of_nat (length os)) (done_ ++ tail) (length done_)
    (st pre (os ++ rest) e)
  = Ret (done_ ++ ops ++ drop (length ops) tail, (length done_ + length ops)%nat)
      (st (pre ++ os) rest e).
Proof.
  intros os Hops. subst os. revert fuel done_ tail pre.
  induction Hops as [|v ops Hv Hops IH]; intros fuel done_ tail pre Hf Hd Ht Hm;
    (destruct fuel as [|fuel]; [lia|]); cbn [dec_oid_loop].
  { simpl. rewrite app_nil_r, Nat.add_0_r. done. }
  cbn [map concat] in *. rewrite length_app, length_subid_octets in *.
  pose proof (subid_size_bounds v).
  rewrite bool_decide_true by lia.
  destruct tail as [|x tail]; [simpl in Ht; lia|]. cbn [length] in *.
  rewrite <- app_assoc. ber_step dec_oid_component_app.
  rewrite (bool_decide_false (length done_ = 1)%nat) by lia. erewrite bind_ret by done.
  rewrite bool_decide_false by (unfold TNM_OID_MAX_SIZE in *; lia).
  rewrite (cons_middle v), app_assoc.
  replace (S (length done_)) with (length (done_ ++ [v])) by (rewrite length_app; simpl; lia).
  replace (_ - _) with (Z.of_nat (length (concat (map subid_octets ops)))) by lia.
  rewrite IH by (rewrite ?length_app; simpl; lia).
  rewrite length_app. simpl. app_norm. do 2 f_equal. lia.
Qed.

(** [TnmBerDecOID] fills the first components of the caller's array. *)
Lemma dec_oid_consumes oid arr :
  valid_oid oid -> (TNM_OID_MAX_SIZE <= length arr)%nat ->
  consumes (TnmBerDecOID arr) (fun _ => (oid ++ drop (length oid) arr, length oid))
    (tlv ASN1_OBJECT_IDENTIFIER (oid_octets oid)).
Proof.
  intros Hv Ha pre rest e. pose proof (oid_octets_length oid Hv) as Hl.
  unfold TnmBerDecOID, tlv. cbn [app]. rewrite <- app_assoc, dec_header_consumes by lia.
  destruct oid as [|o0 [|o1 ops]]; [done..|].
  destruct Hv as (H0 & H1 & H01 & H40 & Hu & Hm).
  unfold oid_octets in *. cbn [oid_packed map concat length] in *.
  unfold TNM_OID_MAX_SIZE in *.
  set (v := o0 * 40 + o1) in *. pose proof (subid_size_bounds v).
  rewrite length_app, length_subid_octets in *. rewrite bool_decide_false by lia.
  unfold dec_oid_body, ber_end. unfold st at 1. cbn [ber_buf].
  set (fuel := (_ + 2)%nat).
  assert (Hf : (subid_size v + length (concat (map subid_octets ops)) < fuel)%nat)
    by (unfold fuel; rewrite !length_app, length_subid_octets; lia).
  clearbody fuel. destruct fuel as [|fuel]; [lia|]. cbn [dec_oid_loop].
  rewrite bool_decide_true by lia.
  destruct arr as [|a0 [|a1 arr]]; [simpl in Ha; lia..|].
  change (a0 :: a1 :: arr) with ([a0] ++ a1 :: arr).
  change 1%nat with (length [a0]). rewrite <- (app_assoc (subid_octets v)).
  assert (is_u32 v) by (unfold is_u32; lia). ber_step dec_oid_component_app.
  rewrite (bool_decide_true (length [a0] = length [a0])) by done. cbn [length app].
  assert (Hun : forall b, dec_oid_unpack (a0 :: v :: arr) v b = Ret (o0 :: o1 :: arr) b).
  { intros b. unfold dec_oid_unpack.
    replace (if bool_decide (2 < v / 40) then 2 else v / 40) with o0
      by (case_bool_decide; lia).
    erewrite bind_ret by apply (oid_store_mid []). cbn [app].
    etransitivity; [apply (oid_store_mid [u32 o0])|].
    rewrite !u32_id by (unfold is_u32; lia). unfold v. cbn [app]. do 3 f_equal. lia. }
  erewrite bind_ret by apply Hun. rewrite bool_decide_false by (unfold TNM_OID_MAX_SIZE; lia).
  pose proof (dec_oid_loop_app ops fuel [o0; o1] arr) as Hloop. cbv zeta in Hloop.
  replace (_ - _) with (Z.of_nat (length (concat (map subid_octets ops)))) by lia.
  rewrite Hloop by (simpl in *; unfold TNM_OID_MAX_SIZE; done || lia).
  cbn [length app drop]. by app_norm.
Qed.
