(* ===== verification/BerSafe.v ===== *)
(** Memory safety of the BER procedures on arbitrary input.

    The decoders never touch an octet outside the packet, never modify it, and
    always return, whatever the packet holds ([dec_safe]); the encoders never
    write outside the packet and never change an octet that was already
    written ([enc_safe]).  Object identifiers are the exception: the decoder
    can store one component past an array of [TNM_OID_MAX_SIZE] components,
    so its safety needs an array with one more. *)

From Stdlib Require Import QArith Qround.
From S2P Require Import Prelude Ber BerSpec BerRound.
Local Open Scope Z_scope.

Definition wf (b : TnmBer) : Prop := (ber_current b <= ber_end b)%nat.

#[global] Instance wf_dec b : Decision (wf b).
Proof. unfold wf. apply _. Defined.

(** ** Decoders *)

(** What a decoder may do to the stream. *)
Definition dec_frame (b b' : TnmBer) : Prop :=
  ber_buf b' = ber_buf b /\ (ber_current b <= ber_current b')%nat /\ wf b'.

Definition dec_ok {A} (b : TnmBer) (o : outcome A) : Prop :=
  match o with
  | Ret _ b' | Null b' => dec_frame b b'
  | Fault _ => False
  end.

Definition dec_safe {A} (m : BerM A) : Prop := forall b, wf b -> dec_ok b (m b).

Lemma dec_frame_refl b : wf b -> dec_frame b b.
Proof. intros. unfold dec_frame. auto. Qed.

Lemma dec_frame_trans b1 b2 b3 : dec_frame b1 b2 -> dec_frame b2 b3 -> dec_frame b1 b3.
Proof. unfold dec_frame. intros (-> & ? & ?) (-> & ? & ?). split_and!; [done|lia|done]. Qed.

Lemma dec_ok_bind {A B} (m : BerM A) (k : A -> BerM B) b :
  dec_ok b (m b) -> (forall a b', m b = Ret a b' -> dec_ok b' (k a b')) ->
  dec_ok b ((m ≫= k) b).
Proof.
  unfold mbind, BerM_bind. intros Hm Hk. destruct (m b) as [a b'|b'|f] eqn:E; simpl in *.
  - specialize (Hk a b' eq_refl). destruct (k a b'); simpl in *;
      eauto using dec_frame_trans.
  - done.
  - done.
Qed.

Lemma dec_safe_bind {A B} (m : BerM A) (k : A -> BerM B) :
  dec_safe m -> (forall a, dec_safe (k a)) -> dec_safe (m ≫= k).
Proof.
  intros Hm Hk b Hb. apply dec_ok_bind; [by apply Hm|]. intros a b' Hr. apply Hk.
  specialize (Hm b Hb). rewrite Hr in Hm. apply Hm.
Qed.

Lemma dec_safe_ret {A} (a : A) : dec_safe (mret a).
Proof. intros b Hb. by apply dec_frame_refl. Qed.

Lemma dec_safe_if {A} (c : bool) (m1 m2 : BerM A) :
  dec_safe m1 -> dec_safe m2 -> dec_safe (if c then m1 else m2).
Proof. by destruct c. Qed.

Lemma dec_safe_error {A} (f : TnmBer -> TnmBer) :
  (forall b, ber_buf (f b) = ber_buf b /\ ber_current (f b) = ber_current b) ->
  dec_safe (A := A) (fun b => Null (f b)).
Proof.
  intros Hf b Hb. destruct (Hf b) as [H1 H2]. unfold dec_ok, dec_frame, wf, ber_end in *.
  rewrite H1, H2. auto.
Qed.

Lemma dec_safe_pos : dec_safe ber_pos.
Proof. intros b Hb. by apply dec_frame_refl. Qed.

Lemma dec_byte_safe : dec_safe TnmBerDecByte.
Proof.
  intros b Hb. rewrite (st_intro b Hb).
  destruct (drop (ber_current b) (ber_buf b)) as [|x rest].
  - rewrite dec_byte_end. unfold dec_ok, dec_frame, wf, ber_end, st. simpl.
    rewrite length_app. split_and!; [done|lia|lia].
  - rewrite dec_byte_app. unfold dec_ok, dec_frame, wf, ber_end, st. simpl.
    rewrite <- app_assoc, !length_app. simpl. split_and!; [done|lia|lia].
Qed.

Lemma dec_peek_safe : dec_safe TnmBerDecPeek.
Proof.
  intros b Hb. unfold TnmBerDecPeek. case_bool_decide.
  - by apply (dec_safe_error (A := Z) (fun b => TnmBerSetError b _)).
  - unfold ber_read, ber_end in *. destruct (lookup_lt_is_Some_2 (ber_buf b) (ber_current b))
      as [x ->]; [lia|]. by apply dec_frame_refl.
Qed.

Create HintDb dec_safe.
#[export] Hint Resolve dec_safe_ret dec_safe_pos dec_byte_safe dec_peek_safe : dec_safe.

(** [dec_safe_tac]: follow the structure of a decoder. *)
Ltac dec_safe_tac :=
  repeat match goal with
  | |- dec_safe (mbind _ _) => apply dec_safe_bind; [|intros ?]
  | |- dec_safe (if _ then _ else _) => apply dec_safe_if
  | |- dec_safe (let '(_, _) := ?p in _) => destruct p
  | |- dec_safe (fun b => Null _) => apply dec_safe_error; done
  | |- dec_safe (ber_wrong_value _) => apply dec_safe_error; done
  | |- dec_safe (ber_wrong_length _ _) => apply dec_safe_error; done
  | |- dec_safe (ber_wrong_tag _ _) => apply dec_safe_error; done
  | |- dec_safe ber_null => apply dec_safe_error; done
  | |- dec_safe (ber_fail _) => apply dec_safe_error; done
  | |- _ => solve [auto with dec_safe]
  end.

Lemma dec_tag_safe tag : dec_safe (dec_tag tag).
Proof. unfold dec_tag. dec_safe_tac. Qed.

Lemma dec_length_safe : dec_safe TnmBerDecLength.
Proof.
  assert (forall n acc, dec_safe (dec_length_loop n acc)).
  { induction n; intros; cbn [dec_length_loop]; dec_safe_tac. }
  unfold TnmBerDecLength. dec_safe_tac.
Qed.

#[export] Hint Resolve dec_tag_safe dec_length_safe : dec_safe.

Lemma dec_seq_start_safe tag : dec_safe (TnmBerDecSequenceStart tag).
Proof. unfold TnmBerDecSequenceStart. dec_safe_tac. Qed.

Lemma dec_seq_end_safe token len : dec_safe (TnmBerDecSequenceEnd token len).
Proof.
  intros b Hb. unfold TnmBerDecSequenceEnd. case_bool_decide; [|by apply dec_frame_refl].
  by apply (dec_safe_error (A := unit) (fun b => set_error b _)).
Qed.

Lemma dec_int_safe tag : dec_safe (TnmBerDecInt tag).
Proof.
  assert (forall n v, dec_safe (dec_int_loop n v)).
  { induction n; intros; cbn [dec_int_loop]; dec_safe_tac. }
  unfold TnmBerDecInt. dec_safe_tac.
Qed.

Lemma dec_u64_safe : dec_safe TnmBerDecUnsigned64.
Proof.
  assert (forall n v, dec_safe (dec64_loop n v)).
  { induction n; intros; cbn [dec64_loop]; dec_safe_tac. }
  unfold TnmBerDecUnsigned64. dec_safe_tac.
Qed.

(** Moving over a value that fits. *)
Lemma ber_too_long_frame b len :
  wf b -> ber_too_long b len = false ->
  dec_frame b (set_current b (ber_current b + Z.to_nat len)).
Proof.
  unfold ber_too_long, dec_frame, wf, ber_end. intros Hb [H1 H2]%orb_false_iff. simpl.
  apply bool_decide_eq_false in H1, H2. split_and!; [done|lia|lia].
Qed.

Lemma dec_octets_safe tag : dec_safe (TnmBerDecOctetString tag).
Proof.
  assert (forall len, dec_safe (dec_octets len)).
  { intros len b Hb. unfold dec_octets. destruct (ber_too_long b len) eqn:E.
    - by apply (dec_safe_error (A := nat * list Z) (fun b => TnmBerSetError b _)).
    - by apply ber_too_long_frame. }
  unfold TnmBerDecOctetString. dec_safe_tac.
Qed.

Lemma dec_null_safe tag : dec_safe (TnmBerDecNull tag).
Proof. unfold TnmBerDecNull. dec_safe_tac. Qed.

Lemma dec_any_safe : dec_safe TnmBerDecAny.
Proof.
  assert (forall start len, dec_safe (dec_any start len)).
  { intros start len b Hb. unfold dec_any. destruct (ber_too_long b len) eqn:E.
    - by apply dec_frame_refl.
    - by apply ber_too_long_frame. }
  unfold TnmBerDecAny. dec_safe_tac.
Qed.

#[export] Hint Resolve dec_seq_start_safe dec_seq_end_safe dec_int_safe dec_u64_safe
  dec_octets_safe dec_null_safe dec_any_safe : dec_safe.

(** ** Object identifiers *)

Lemma bind_inv {A B} (m : BerM A) (k : A -> BerM B) b r b2 :
  (m ≫= k) b = Ret r b2 -> exists a b1, m b = Ret a b1 /\ k a b1 = Ret r b2.
Proof. unfold mbind, BerM_bind. destruct (m b); [eauto|done|done]. Qed.

Lemma dec_byte_inv b x b' :
  TnmBerDecByte b = Ret x b' ->
  ber_buf b' = ber_buf b /\ ber_current b' = S (ber_current b) /\ (ber_current b < ber_end b)%nat.
Proof.
  unfold TnmBerDecByte, ber_read. case_bool_decide; [done|].
  destruct (ber_buf b !! ber_current b); [|done]. injection 1 as <- <-. simpl.
  split_and!; [done|done|lia].
Qed.

(** Octets left to read. *)
Definition ber_left (b : TnmBer) : nat := (ber_end b - ber_current b)%nat.

Lemma dec_frame_left b b' : dec_frame b b' -> (ber_left b' <= ber_left b)%nat.
Proof. unfold dec_frame, ber_left, ber_end. intros (-> & ? & _). lia. Qed.

Lemma dec_oid_subid_ok fuel acc byte len b :
  wf b -> (ber_left b < fuel)%nat -> dec_ok b (dec_oid_subid fuel acc byte len b).
Proof.
  revert acc byte len b. induction fuel as [|fuel IH]; intros acc byte len b Hb Hf; [lia|].
  cbn [dec_oid_subid]. case_bool_decide; [|by apply dec_safe_ret].
  pose proof (dec_byte_safe b Hb) as Hs. apply dec_ok_bind; [done|].
  intros x b' Hx. rewrite Hx in Hs. destruct Hs as (_ & _ & Hw). apply IH; [done|].
  apply dec_byte_inv in Hx as (H1 & H2 & H3). unfold ber_left, ber_end in *.
  rewrite H1, H2. lia.
Qed.

Lemma oid_store_ok oid i v b :
  wf b -> (i < length oid)%nat ->
  oid_store oid i v b = Ret (<[i := u32 v]> oid) b.
Proof. intros. unfold oid_store. by case_decide. Qed.

Lemma dec_oid_component_ok fuel len oid i b :
  wf b -> (i < length oid)%nat -> (ber_left b < fuel)%nat ->
  dec_ok b (dec_oid_component fuel len oid i b)
  /\ forall oid' v len' b', dec_oid_component fuel len oid i b = Ret (oid', v, len') b' ->
       length oid' = length oid /\ (ber_left b' < ber_left b)%nat.
Proof.
  intros Hb Hi Hf. unfold dec_oid_component.
  erewrite bind_ret by (by apply oid_store_ok).
  set (oid1 := <[i := u32 0]> oid).
  assert (Hl : length oid1 = length oid) by (by unfold oid1; rewrite length_insert).
  clearbody oid1.
  pose proof (dec_byte_safe b Hb) as Hs. unfold mbind, BerM_bind.
  destruct (TnmBerDecByte b) as [x b1|b1|] eqn:Hx; [|done|done].
  apply dec_byte_inv in Hx as (H1 & H2 & H3).
  assert (Hw : wf b1) by apply Hs.
  assert (Hlt : (ber_left b1 < ber_left b)%nat)
    by (unfold ber_left, ber_end in *; rewrite H1, H2; lia).
  pose proof (dec_oid_subid_ok fuel 0 x (len - 1) b1 Hw ltac:(lia)) as Hd.
  destruct (dec_oid_subid fuel 0 x (len - 1) b1) as [[[acc y] len1] b2|b2|];
    [|split; [by eapply dec_frame_trans|done]|done].
  rewrite oid_store_ok by (apply Hd || lia). split; [by eapply dec_frame_trans|].
  intros oid' v len' b' Hr. injection Hr as <- <- <- <-. rewrite length_insert.
  split; [done|]. apply dec_frame_left in Hd. lia.
Qed.

Lemma dec_oid_unpack_ok oid v b :
  wf b -> (2 <= length oid)%nat ->
  exists oid', dec_oid_unpack oid v b = Ret oid' b /\ length oid' = length oid.
Proof.
  intros Hb Hl. unfold dec_oid_unpack. erewrite bind_ret by (apply oid_store_ok; [done|lia]).
  rewrite oid_store_ok by (rewrite ?length_insert; done || lia).
  eexists. split; [done|]. by rewrite !length_insert.
Qed.

Lemma dec_oid_loop_ok fuel len oid i b :
  wf b -> (TNM_OID_MAX_SIZE < length oid)%nat -> (i <= TNM_OID_MAX_SIZE)%nat ->
  (ber_left b < fuel)%nat -> dec_ok b (dec_oid_loop fuel len oid i b).
Proof.
  unfold TNM_OID_MAX_SIZE. revert len oid i b.
  induction fuel as [|fuel IH]; intros len oid i b Hb Hl Hi Hf; [lia|].
  cbn [dec_oid_loop]. case_bool_decide; [|by apply dec_safe_ret].
  destruct (dec_oid_component_ok (S fuel) len oid i b Hb ltac:(lia) Hf) as [Hok Hret].
  apply dec_ok_bind; [done|]. intros [[oid1 v] len1] b1 Hr.
  destruct (Hret _ _ _ _ Hr) as [Hl1 Hlt]. rewrite Hr in Hok. destruct Hok as (_ & _ & Hw).
  assert (Hif : exists oid2, (if bool_decide (i = 1)%nat then dec_oid_unpack oid1 v
                              else mret oid1) b1 = Ret oid2 b1 /\ length oid2 = length oid1).
  { case_bool_decide; [apply dec_oid_unpack_ok; [done|lia]|by eexists]. }
  destruct Hif as (oid2 & Hr2 & Hl2). rewrite (bind_ret _ _ _ _ _ Hr2).
  clear Hr2. case_bool_decide.
  { by apply (dec_safe_error (fun b => TnmBerWrongValue b _)). }
  apply IH; unfold TNM_OID_MAX_SIZE in *; try done; lia.
Qed.

(** [TnmBerDecOID] is safe with an array of [TNM_OID_MAX_SIZE + 1] components,
    one more than its callers provide. *)
Lemma dec_oid_safe oid :
  (TNM_OID_MAX_SIZE < length oid)%nat -> dec_safe (TnmBerDecOID oid).
Proof.
  intros Hl. unfold TnmBerDecOID.
  assert (forall len, dec_safe (dec_oid_body len oid)).
  { intros len b Hb. unfold dec_oid_body. apply dec_oid_loop_ok; try done;
      unfold TNM_OID_MAX_SIZE, ber_left in *; lia. }
  dec_safe_tac.
Qed.

(** ** Encoders *)

(** The stream after an encoder: same packet size, and the first [p] octets
    untouched. *)
Definition enc_frame (p : nat) (b b' : TnmBer) : Prop :=
  ber_end b' = ber_end b /\ take p (ber_buf b') = take p (ber_buf b)
  /\ (ber_current b <= ber_current b')%nat /\ wf b'.

Definition enc_ok {A} (p : nat) (b : TnmBer) (o : outcome A) : Prop :=
  match o with
  | Ret _ b' | Null b' => enc_frame p b b'
  | Fault _ => False
  end.

(** Packets are far below [2^24] octets ([TNM_SNMP_MAXSIZE] is 65535): beyond,
    [TnmBerEncLength] would shift an [int] by its width. *)
Definition enc_safe {A} (m : BerM A) : Prop :=
  forall b p, wf b -> Z.of_nat (ber_end b) < 2 ^ 24 -> (p <= ber_current b)%nat ->
    enc_ok p b (m b).

Lemma enc_frame_refl p b : wf b -> enc_frame p b b.
Proof. intros. unfold enc_frame. auto. Qed.

Lemma enc_frame_trans p b1 b2 b3 : enc_frame p b1 b2 -> enc_frame p b2 b3 -> enc_frame p b1 b3.
Proof.
  unfold enc_frame. intros (H1 & H2 & ? & ?) (H3 & H4 & ? & ?).
  split_and!; [congruence|congruence|lia|done].
Qed.

Lemma enc_ok_bind {A B} p (m : BerM A) (k : A -> BerM B) b :
  enc_ok p b (m b) ->
  (forall a b', m b = Ret a b' -> enc_frame p b b' -> enc_ok p b' (k a b')) ->
  enc_ok p b ((m ≫= k) b).
Proof.
  unfold mbind, BerM_bind. intros Hm Hk. destruct (m b) as [a b'|b'|f] eqn:E; simpl in *.
  - specialize (Hk a b' eq_refl Hm). destruct (k a b'); simpl in *;
      eauto using enc_frame_trans.
  - done.
  - done.
Qed.

Lemma enc_safe_bind {A B} (m : BerM A) (k : A -> BerM B) :
  enc_safe m -> (forall a, enc_safe (k a)) -> enc_safe (m ≫= k).
Proof.
  intros Hm Hk b p Hb He Hp. apply enc_ok_bind; [by apply Hm|].
  intros a b' _ (H1 & _ & H3 & Hw). apply Hk; [done|by rewrite H1|lia].
Qed.

Lemma enc_frame_error p b e : wf b -> enc_frame p b (set_error b e).
Proof. intros. unfold enc_frame, wf, ber_end in *. auto. Qed.

Lemma enc_safe_ret {A} (a : A) : enc_safe (mret a).
Proof. intros b p Hb He Hp. by apply enc_frame_refl. Qed.

Lemma enc_safe_fail {A} e : enc_safe (A := A) (ber_fail e).
Proof. intros b p Hb He Hp. by apply enc_frame_error. Qed.

Lemma enc_safe_pos : enc_safe ber_pos.
Proof. intros b p Hb He Hp. by apply enc_frame_refl. Qed.

(** A store within the packet at or above [p]. *)
Lemma ber_write_ok p q x b :
  wf b -> (q < ber_end b)%nat -> (p <= q)%nat ->
  exists b', ber_write q x b = Ret tt b' /\ enc_frame p b b' /\ ber_current b' = ber_current b.
Proof.
  intros Hb Hq Hp. unfold ber_write. case_decide; [|done].
  eexists. split; [done|]. unfold enc_frame, wf, ber_end in *. simpl.
  rewrite length_insert, take_insert_ge by lia. auto.
Qed.

Lemma enc_byte_safe x : enc_safe (TnmBerEncByte x).
Proof.
  intros b p Hb He Hp. unfold TnmBerEncByte. case_bool_decide.
  { by apply enc_frame_error. }
  destruct (ber_write_ok p (ber_current b) x b) as (b' & -> & (H1 & H2 & H3 & H4) & Hc);
    [done|lia|lia|].
  unfold enc_ok, enc_frame, wf, ber_end, set_current in *. simpl.
  rewrite H1, H2. split_and!; [done|done|lia|lia].
Qed.

Lemma enc_length_shift_ok p i pos d b :
  wf b -> (p <= pos)%nat -> (pos + i + d < ber_end b)%nat ->
  exists b', enc_length_shift i pos d b = Ret tt b' /\ enc_frame p b b'
             /\ ber_current b' = ber_current b.
Proof.
  revert b. induction i as [|i IH]; intros b Hb Hp Hi; cbn [enc_length_shift].
  { eexists. split; [done|]. split; [by apply enc_frame_refl|done]. }
  assert (Hr : exists x, ber_read (pos + S i) b = Ret x b).
  { unfold ber_read, ber_end in *.
    destruct (lookup_lt_is_Some_2 (ber_buf b) (pos + S i)) as [x ->]; [lia|]. by eexists. }
  destruct Hr as [x Hr]. rewrite (bind_ret _ _ _ _ _ Hr).
  destruct (ber_write_ok p (pos + S i + d) x b) as (b1 & Hw & Hf & Hc); [done|lia|lia|].
  rewrite (bind_ret _ _ _ _ _ Hw).
  destruct (IH b1) as (b2 & Hs & Hf2 & Hc2);
    [apply Hf|done|destruct Hf as (-> & _); lia|].
  eexists. split; [done|]. split; [by eapply enc_frame_trans|congruence].
Qed.

Lemma enc_length_digits_ok p d pos n b :
  wf b -> (p <= pos)%nat -> (pos + d <= ber_end b)%nat ->
  enc_ok p b (enc_length_digits d pos n b).
Proof.
  revert pos b. induction d as [|d IH]; intros pos b Hb Hp Hd; cbn [enc_length_digits].
  { by apply enc_frame_refl. }
  edestruct (ber_write_ok p pos) as (b1 & Hw & Hf & Hc); [done| |done|].
  2: rewrite (bind_ret _ _ _ _ _ Hw).
  - lia.
  - assert (Hk : enc_ok p b1 (enc_length_digits d (S pos) n b1))
      by (apply IH; [apply Hf|lia|destruct Hf as (-> & _); lia]).
    destruct (enc_length_digits d (S pos) n b1); simpl in *; eauto using enc_frame_trans.
Qed.

Lemma enc_length_size_ok n :
  n < 2 ^ 24 -> 0 <= n -> exists d, enc_length_size 5 n 0 = Some d /\ (d <= 3)%nat.
Proof.
  intros Hn H0. unfold enc_length_size. rewrite !Z.shiftr_div_pow2 by lia. simpl.
  repeat case_bool_decide; try lia; eexists; (split; [done|lia]).
Qed.

(** Closing a length field that lies between [p] and [current]. *)
Lemma enc_length_ok p pos n b :
  wf b -> (p <= pos)%nat -> (pos < ber_current b)%nat -> n < 2 ^ 24 ->
  enc_ok p b (TnmBerEncLength pos n b).
Proof.
  intros Hb Hp Hc Hn. unfold TnmBerEncLength. unfold wf in Hb. case_bool_decide.
  { destruct (ber_write_ok p pos n b) as (b' & -> & Hf & _); [done|lia|done|done]. }
  case_bool_decide; [|by apply enc_frame_error].
  destruct (enc_length_size_ok n) as (d & -> & Hd); [lia..|].
  case_bool_decide; [by apply enc_frame_error|].
  destruct (enc_length_shift_ok p (ber_current b - pos - 1) pos d b)
    as (b1 & Hs & (Hf1 & Hf1' & Hf1'' & Hf1w) & Hc1); [done|done|lia|].
  rewrite (bind_ret _ _ _ _ _ Hs). erewrite bind_ret by done.
  set (b2 := set_current b1 (ber_current b1 + d)).
  assert (Hf2 : enc_frame p b b2).
  { unfold b2, enc_frame, wf, ber_end in *. simpl. rewrite Hf1, Hf1'. split_and!; try done; lia. }
  destruct (ber_write_ok p pos (128 + Z.of_nat d) b2) as (b3 & Hw & Hf3 & _);
    [apply Hf2|destruct Hf2 as (-> & _); lia|done|].
  rewrite (bind_ret _ _ _ _ _ Hw).
  assert (Hk : enc_ok p b3 (enc_length_digits d (S pos) n b3)).
  { apply enc_length_digits_ok; [apply Hf3|lia|].
    destruct Hf3 as (-> & _), Hf2 as (-> & _). lia. }
  destruct (enc_length_digits d (S pos) n b3); simpl in *; eauto using enc_frame_trans.
Qed.

Lemma enc_byte_inv x b b' :
  TnmBerEncByte x b = Ret tt b' ->
  ber_current b' = S (ber_current b) /\ ber_end b' = ber_end b /\ (ber_current b < ber_end b)%nat.
Proof.
  unfold TnmBerEncByte, ber_write, ber_end. case_bool_decide; [done|]. case_decide; [|done].
  injection 1 as <-. simpl. rewrite length_insert. lia.
Qed.

(** Value encoders: the header, then the contents and the length at [pos]. *)
Lemma enc_header_ok tag (k : nat -> BerM unit) :
  (forall b pos p, wf b -> Z.of_nat (ber_end b) < 2 ^ 24 -> (p <= pos)%nat ->
     (pos < ber_current b)%nat -> enc_ok p b (k pos b)) ->
  enc_safe (_ ← TnmBerEncByte tag; len ← ber_pos; _ ← TnmBerEncByte 0; k len).
Proof.
  intros Hk b p Hb He Hp. apply enc_ok_bind; [by apply enc_byte_safe|].
  intros [] b1 Hr1 (H1 & H2 & H3 & H4). apply enc_byte_inv in Hr1 as (Hc1 & _ & _).
  erewrite bind_ret by done.
  apply enc_ok_bind; [apply enc_byte_safe; [done|lia|lia]|].
  intros [] b2 Hr2 (G1 & G2 & G3 & G4). apply enc_byte_inv in Hr2 as (Hc2 & _ & _).
  apply Hk; [done|lia|lia|lia].
Qed.

(** The number of octets a contents encoder reports is bounded by what it
    wrote. *)
Definition counted (m : BerM Z) (n0 : Z) : Prop :=
  forall b n b', m b = Ret n b' ->
    n - n0 <= Z.of_nat (ber_current b') - Z.of_nat (ber_current b).

Lemma counted_ret n : counted (mret n) n.
Proof. intros b n' b' Hr. injection Hr as <- <-. lia. Qed.

Lemma counted_byte x m n : counted m (n + 1) -> counted (_ ← TnmBerEncByte x; m) n.
Proof.
  intros Hm b n' b' Hr. apply bind_inv in Hr as ([] & b1 & Hb & Hr).
  apply enc_byte_inv in Hb as (Hc & _). apply Hm in Hr. lia.
Qed.

Lemma counted_bind m (k : Z -> BerM Z) n :
  counted m n -> (forall a, counted (k a) a) -> counted (m ≫= k) n.
Proof.
  intros Hm Hk b n' b' Hr. apply bind_inv in Hr as (a & b1 & Hb & Hr).
  apply Hm in Hb. apply Hk in Hr. lia.
Qed.

(** A counted contents encoder followed by the length. *)
Lemma enc_counted_ok (m : BerM Z) pos p b :
  enc_safe m -> counted m 0 ->
  wf b -> Z.of_nat (ber_end b) < 2 ^ 24 -> (p <= pos)%nat -> (pos < ber_current b)%nat ->
  enc_ok p b ((n ← m; TnmBerEncLength pos n) b).
Proof.
  intros Hs Hc Hb He Hp Hpos. apply enc_ok_bind; [apply Hs; [done|done|lia]|].
  intros n b' Hr (H1 & H2 & H3 & H4). apply Hc in Hr. unfold wf in *.
  apply enc_length_ok; [done|done|lia|lia].
Qed.

Create HintDb enc_safe.
#[export] Hint Resolve enc_safe_ret enc_safe_pos enc_byte_safe enc_safe_fail : enc_safe.

Ltac enc_safe_tac :=
  repeat match goal with
  | |- enc_safe (mbind _ _) => apply enc_safe_bind; [|intros ?]
  | |- enc_safe (let '(_, _) := ?p in _) => destruct p
  | |- enc_safe (if ?c then _ else _) => destruct c
  | |- _ => solve [auto with enc_safe]
  end.

Lemma enc_int_safe tag v : enc_safe (TnmBerEncInt tag v).
Proof.
  assert (Hs : forall i v n, enc_safe (enc_int_bytes i v n)).
  { induction i; intros; cbn [enc_int_bytes]; enc_safe_tac. }
  assert (Hc : forall i v n, counted (enc_int_bytes i v n) n).
  { induction i; intros; cbn [enc_int_bytes]; auto using counted_ret, counted_byte. }
  unfold TnmBerEncInt. apply enc_header_ok. intros. destruct (enc_int_strip 4 v) as [i w].
  by apply enc_counted_ok.
Qed.

Lemma enc_octets_safe tag os : enc_safe (TnmBerEncOctetString tag os).
Proof.
  assert (Hs : forall os, enc_safe (enc_bytes os)).
  { induction os0; cbn [enc_bytes]; enc_safe_tac. }
  assert (Hc : forall os b b', enc_bytes os b = Ret tt b' ->
    ber_current b' = (ber_current b + length os)%nat).
  { induction os0 as [|x os0 IH]; intros b b' Hr; cbn [enc_bytes] in Hr.
    - injection Hr as <-. simpl. lia.
    - apply bind_inv in Hr as ([] & b1 & Hb & Hr). apply enc_byte_inv in Hb as (Hc & _).
      apply IH in Hr. simpl. lia. }
  unfold TnmBerEncOctetString. apply enc_header_ok. intros b pos p Hb He Hp Hpos.
  apply enc_ok_bind; [apply Hs; [done|done|lia]|].
  intros [] b' Hr (H1 & H2 & H3 & H4). apply Hc in Hr. unfold wf in *.
  apply enc_length_ok; [done|done|lia|lia].
Qed.

Lemma enc_null_safe tag : enc_safe (TnmBerEncNull tag).
Proof. unfold TnmBerEncNull. enc_safe_tac. Qed.

Lemma enc_seq_start_safe tag : enc_safe (TnmBerEncSequenceStart tag).
Proof. unfold TnmBerEncSequenceStart. enc_safe_tac. Qed.

Lemma enc_oid_bits_le n mask op : (enc_oid_bits n mask op <= n)%nat.
Proof.
  revert mask. induction n as [|n IH]; intros mask; cbn [enc_oid_bits]; [lia|].
  case_bool_decide; [lia|]. specialize (IH (Z.shiftr mask 1)). lia.
Qed.

Lemma enc_oid_loop_safe fuel bits mask op n :
  (bits < 7 * fuel)%nat -> enc_safe (enc_oid_loop fuel bits mask op n).
Proof.
  revert bits mask n. induction fuel as [|fuel IH]; intros bits mask n Hf; [lia|].
  cbn [enc_oid_loop]. case_bool_decide; [|apply enc_safe_ret].
  apply enc_safe_bind; [apply enc_byte_safe|]. intros _. apply IH. lia.
Qed.

Lemma enc_oid_loop_counted fuel bits mask op n b mask' n' b' :
  enc_oid_loop fuel bits mask op n b = Ret (mask', n') b' ->
  n' - n <= Z.of_nat (ber_current b') - Z.of_nat (ber_current b).
Proof.
  revert bits mask n b. induction fuel as [|fuel IH]; intros bits mask n b Hr; [done|].
  cbn [enc_oid_loop] in Hr. case_bool_decide.
  - apply bind_inv in Hr as ([] & b1 & Hb & Hr). apply enc_byte_inv in Hb as (Hc & _).
    apply IH in Hr. lia.
  - injection Hr as <- <- <-. lia.
Qed.

Lemma enc_oid_subid_safe op n :
  enc_safe (enc_oid_subid op n) /\ counted (enc_oid_subid op n) n.
Proof.
  assert (Ht : forall bits n, (bits <= 35)%nat ->
    enc_safe (enc_oid_tail bits op n) /\ counted (enc_oid_tail bits op n) n).
  { intros bits m Hb. unfold enc_oid_tail. split.
    - apply enc_safe_bind; [apply enc_oid_loop_safe; lia|]. intros [? ?]. enc_safe_tac.
    - intros b n' b' Hr. apply bind_inv in Hr as ([mask len] & b1 & Hl & Hr).
      apply enc_oid_loop_counted in Hl.
      apply (counted_byte _ _ len) in Hr; [lia|apply counted_ret]. }
  unfold enc_oid_subid.
  pose proof (enc_oid_bits_le 32 (s32 (Z.shiftl 1 31)) op).
  set (bits := enc_oid_bits _ _ _) in *.
  case_bool_decide; [split; [enc_safe_tac|apply counted_byte, counted_ret]|].
  case_bool_decide.
  - destruct (Ht ((bits + 6) / 7 * 7 - 7)%nat (n + 1)) as [Hs1 Hc1]; [lia|].
    split; [enc_safe_tac|by apply counted_byte].
  - apply Ht. lia.
Qed.

Lemma enc_oid_subids_safe ops n :
  enc_safe (enc_oid_subids ops n) /\ counted (enc_oid_subids ops n) n.
Proof.
  revert n. induction ops as [|op ops IH]; intros n; cbn [enc_oid_subids].
  - split; [apply enc_safe_ret|apply counted_ret].
  - split; [apply enc_safe_bind|apply counted_bind]; (apply enc_oid_subid_safe || intros; apply IH).
Qed.

Lemma enc_oid_safe oid : enc_safe (TnmBerEncOID oid).
Proof.
  unfold TnmBerEncOID. destruct oid as [|o0 [|o1 oid]]; [enc_safe_tac..|].
  case_bool_decide; [enc_safe_tac|]. apply enc_header_ok. intros.
  apply enc_counted_ok; try done; apply enc_oid_subids_safe.
Qed.

(** ** Counter64 *)

(** A finite double is below [2^1024]; the size loop ends within its fuel. *)
Lemma enc64_size_total n fuel x len :
  (x < inject_Z (256 ^ Z.of_nat n))%Q -> (n < fuel)%nat ->
  exists k, enc64_size fuel x len = Some k.
Proof.
  revert fuel x len. induction n as [|n IH]; intros fuel x len Hx Hf;
    (destruct fuel as [|fuel]; [lia|]); cbn [enc64_size];
    destruct (Qle_bool 1 x) eqn:E; eauto.
  - apply Qle_bool_iff in E. exfalso. apply (Qlt_irrefl x).
    eapply Qlt_le_trans; [apply Hx|done].
  - apply IH; [|lia]. apply Qlt_shift_div_r; [done|].
    change 256%Q with (inject_Z 256). rewrite <- inject_Z_mult.
    replace (256 ^ Z.of_nat n * 256) with (256 ^ Z.of_nat (S n)); [done|].
    rewrite Nat2Z.inj_succ, Z.pow_succ_r by lia. lia.
Qed.

Lemma enc64_digits_ok p len base x b :
  wf b -> (p <= base)%nat -> (base + len <= ber_end b)%nat ->
  exists b', enc64_digits len base x b = Ret tt b' /\ enc_frame p b b'
             /\ ber_current b' = ber_current b.
Proof.
  revert x b. induction len as [|len IH]; intros x b Hb Hp Hl; cbn [enc64_digits].
  { eexists. split; [done|]. split; [by apply enc_frame_refl|done]. }
  edestruct (ber_write_ok p (base + len)) as (b1 & Hw & Hf & Hc); [done|lia|lia|].
  rewrite (bind_ret _ _ _ _ _ Hw).
  destruct (IH (x / 256)%Q b1) as (b2 & Hs & Hf2 & Hc2);
    [apply Hf|done|destruct Hf as (-> & _); lia|].
  eexists. split; [done|]. split; [by eapply enc_frame_trans|congruence].
Qed.

Lemma enc_u64_safe x :
  (x < inject_Z (2 ^ 1024))%Q -> enc_safe (TnmBerEncUnsigned64 x).
Proof.
  intros Hx. unfold TnmBerEncUnsigned64. apply enc_header_ok. intros b pos p Hb He Hp Hpos.
  destruct (enc64_size_total 128 enc64_fuel x 0) as [n ->]; [done|unfold enc64_fuel; lia|].
  unfold enc64_body. destruct (ber_too_long b (Z.of_nat n)) eqn:E; [by apply enc_frame_error|].
  unfold ber_too_long in E. apply orb_false_iff in E as [E1%bool_decide_eq_false E2%bool_decide_eq_false].
  destruct (enc64_digits_ok p n (ber_current b) x b) as (b1 & Hd & Hf & Hc); [done|lia|lia|].
  rewrite (bind_ret _ _ _ _ _ Hd). erewrite bind_ret by done.
  set (b2 := set_current b1 (ber_current b1 + n)).
  assert (Hf2 : enc_frame p b b2).
  { destruct Hf as (H1 & H2 & H3 & H4). unfold b2, enc_frame, wf, ber_end in *. simpl.
    rewrite H1, H2. split_and!; try done; lia. }
  assert (Hk : enc_ok p b2 (TnmBerEncLength pos (Z.of_nat n) b2))
    by (apply enc_length_ok; [apply Hf2|done|destruct Hf2; lia|lia]).
  destruct (TnmBerEncLength pos (Z.of_nat n) b2); simpl in *; eauto using enc_frame_trans.
Qed.

#[export] Hint Resolve enc_int_safe enc_octets_safe enc_null_safe enc_seq_start_safe
  enc_oid_safe : enc_safe.
