(* ===== verification/BerTheorems.v ===== *)
(** The properties of the BER component ([src/tnm/snmp/tnmAsn1.c]): round
    trips, the exact range of the 32 bit unsigned types, the length field, and
    memory safety. *)

From Stdlib Require Import QArith Qround.
From S2P Require Import Prelude Ber BerSpec BerRound BerSafe.
Local Open Scope Z_scope.

(** An encoder and a decoder agree: the encoder appends some octets (given room
    for them and one spare octet), and the decoder reads exactly these octets
    back, wherever they are and whatever follows. *)
Definition roundtrip {A} (enc : BerM unit) (dec : BerM A) (f : list Z -> A) : Prop :=
  exists o, appends enc o /\ consumes dec f o.

(** Every value of an [int] survives [TnmBerEncInt] followed by
    [TnmBerDecInt] under the tag INTEGER. *)
Theorem ber_int_roundtrip v :
  is_s32 v ->
  roundtrip (TnmBerEncInt ASN1_INTEGER v) (TnmBerDecInt ASN1_INTEGER) (fun _ => v).
Proof.
  intros Hv. exists (tlv ASN1_INTEGER (int_octets v)). 
  split; [by apply appends_int|by apply (dec_int_consumes ASN1_INTEGER)].
Qed.

Lemma ber_int_roundtrip_witness :
  is_s32 (-129) /\
  roundtrip (TnmBerEncInt ASN1_INTEGER (-129)) (TnmBerDecInt ASN1_INTEGER) (fun _ => -129).
Proof. split; [by vm_compute|]. apply (ber_int_roundtrip (-129)). by vm_compute. Defined.

(** C35: a valid object identifier (at least two components, at most
    [TNM_OID_MAX_SIZE], the first at most 2, the second below 40 unless the
    first is 2) survives [TnmBerEncOID] followed by [TnmBerDecOID]: the
    components are stored at the front of the caller's array and their number is
    returned. *)
Theorem ber_oid_roundtrip oid arr :
  valid_oid oid -> length arr = TNM_OID_MAX_SIZE ->
  roundtrip (TnmBerEncOID oid) (TnmBerDecOID arr)
    (fun _ => (oid ++ drop (length oid) arr, length oid)).
Proof.
  intros Hv Ha. exists (tlv ASN1_OBJECT_IDENTIFIER (oid_octets oid)).
  split; [by apply appends_oid|apply dec_oid_consumes; [done|lia]].
Qed.

Lemma ber_oid_roundtrip_witness :
  valid_oid [1; 3; 6; 1; 4; 1; 4294967295] /\
  roundtrip (TnmBerEncOID [1; 3; 6; 1; 4; 1; 4294967295]) (TnmBerDecOID (replicate 128 0))
    (fun _ => ([1; 3; 6; 1; 4; 1; 4294967295] ++ drop 7 (replicate 128 0), 7%nat)).
Proof.
  split; [by_eval|].
  apply (ber_oid_roundtrip [1; 3; 6; 1; 4; 1; 4294967295] (replicate 128 0)); by_eval.
Defined.

(** An octet string of at most 65535 octets survives
    [TnmBerEncOctetString] followed by [TnmBerDecOctetString]; the returned
    pointer is the offset of its first octet in the packet. *)
Theorem ber_octets_roundtrip tag os :
  is_byte tag -> bytes os -> Z.of_nat (length os) < 65536 ->
  roundtrip (TnmBerEncOctetString tag os) (TnmBerDecOctetString tag)
    (fun pre => (length (pre ++ tag :: len_octets (Z.of_nat (length os))), os)).
Proof.
  intros. exists (tlv tag os). split; [by apply appends_octets|by apply dec_octets_consumes].
Qed.

Lemma ber_octets_roundtrip_witness :
  roundtrip (TnmBerEncOctetString ASN1_OCTET_STRING (replicate 200 7))
    (TnmBerDecOctetString ASN1_OCTET_STRING)
    (fun pre => (length (pre ++ [4; 0x81; 200]), replicate 200 7)).
Proof.
  apply (ber_octets_roundtrip ASN1_OCTET_STRING (replicate 200 7)); by_eval.
Defined.

(** Every 64 bit counter survives [TnmBerEncUnsigned64] (given as the
    integral value of its [double] argument) followed by
    [TnmBerDecUnsigned64]. *)
Theorem ber_counter64_roundtrip v :
  0 <= v < 2 ^ 64 ->
  roundtrip (TnmBerEncUnsigned64 (inject_Z v)) TnmBerDecUnsigned64 (fun _ => v).
Proof.
  intros Hv. exists (tlv ASN1_COUNTER64 (u64_octets v)).
  split; [by apply appends_u64|by apply dec_u64_consumes].
Qed.

Lemma ber_counter64_roundtrip_witness :
  roundtrip (TnmBerEncUnsigned64 (inject_Z 18446744073709549568)) TnmBerDecUnsigned64
    (fun _ => 18446744073709549568).
Proof. apply (ber_counter64_roundtrip 18446744073709549568). lia. Defined.

(** Counter32, Gauge32 and TimeTicks values are handed to [TnmBerEncInt] as
    an [int] and printed with [%u] after [TnmBerDecInt]; the value survives
    exactly when it is below [0xff800000].  Above, the encoder strips leading
    [0xff] octets as if the value were negative, and the decoder, which does not
    sign-extend these types, returns a small number. *)
Theorem ber_unsigned32_exact tag u :
  is_byte tag -> tag <> ASN1_INTEGER -> is_u32 u ->
  exists o v,
    appends (TnmBerEncInt tag (s32 u)) o /\ consumes (TnmBerDecInt tag) (fun _ => v) o
    /\ (u32 v = u <-> u < 0xff800000).
Proof.
  intros Ht Hne Hu. pose proof (s32_range u) as Hs.
  eexists _, _. split; [by apply appends_int|]. split; [by apply dec_int_consumes|].
  unfold dec_int_value. rewrite bool_decide_false by done.
  rewrite u32_s32. unfold is_u32 in Hu.
  assert (Hcase : s32 u = u /\ u < 2 ^ 31 \/ s32 u = u - 2 ^ 32 /\ 2 ^ 31 <= u).
  { unfold s32. case_bool_decide; lia. }
  unfold int_size, u32. repeat case_bool_decide; simpl; lia.
Qed.

Lemma ber_unsigned32_exact_witness :
  exists o v,
    appends (TnmBerEncInt ASN1_COUNTER32 (s32 4294967295)) o
    /\ consumes (TnmBerDecInt ASN1_COUNTER32) (fun _ => v) o
    /\ (u32 v = 4294967295 <-> 4294967295 < 0xff800000).
Proof. apply (ber_unsigned32_exact ASN1_COUNTER32 4294967295); by_eval. Defined.

(** [TnmBerEncLength], called for a value of [n < 65536] octets whose length
    octet lies between [pre] and [body], moves the octets of the value up to make
    room and writes a length field that [TnmBerDecLength] reads back as [n]; when
    the field cannot grow it changes nothing and reports an overflow. *)
Theorem ber_length_field pre z body rest n e :
  0 <= n < 65536 -> bytes body ->
  TnmBerEncLength (length pre) n (st (pre ++ z :: body) rest e)
  = (if bool_decide (len_room n <= length rest)%nat
     then Ret tt (st (pre ++ len_octets n ++ body) (drop (len_extra n) rest) e)
     else Null (st (pre ++ z :: body) rest (Msg "BER buffer overflow")))
  /\ consumes TnmBerDecLength (fun _ => n) (len_octets n).
Proof.
  intros Hn Hb. split; [|by apply dec_length_consumes].
  case_bool_decide as Hr; [by apply enc_length_app|].
  unfold len_room in Hr. case_bool_decide; [lia|]. apply enc_length_full; lia.
Qed.

Lemma ber_length_field_witness :
  TnmBerEncLength (length [4]) 200 (st ([4] ++ 0 :: replicate 200 7) [0; 0] NoError)
  = Ret tt (st ([4] ++ [0x81; 200] ++ replicate 200 7) [0] NoError).
Proof.
  destruct (ber_length_field [4] 0 (replicate 200 7) [0; 0] 200 NoError) as [H _];
    [lia|by_eval|exact H].
Defined.

(** For a value of [65536 <= n < 2^24] octets the length field that
    [TnmBerEncLength] writes has three digits of which the first is always zero,
    so a decoder reads it as [n mod 65536]: lengths beyond 65535 are not
    represented. *)
Theorem ber_length_truncated pre z body rest n e :
  65536 <= n < 2 ^ 24 -> bytes body -> (3 < length rest)%nat ->
  exists field,
    TnmBerEncLength (length pre) n (st (pre ++ z :: body) rest e)
    = Ret tt (st (pre ++ field ++ body) (drop 3 rest) e)
    /\ consumes TnmBerDecLength (fun _ => n mod 65536) field.
Proof.
  intros Hn Hb Hr. exists (0x80 + 3 :: len_digits 3 n).
  split; [apply (enc_length_long_app 3); try done; try lia|].
  - unfold enc_length_size. rewrite !Z.shiftr_div_pow2 by lia. simpl.
    repeat case_bool_decide; try lia; done.
  - apply (dec_length_digits [0; n / 256 mod 256; n mod 256]).
    + repeat constructor; lia.
    + simpl; lia.
    + unfold be_value. simpl. lia.
    + lia.
Qed.

Lemma ber_length_truncated_witness :
  exists field,
    TnmBerEncLength (length [4]) 65536 (st ([4] ++ 0 :: []) [0; 0; 0; 0] NoError)
    = Ret tt (st ([4] ++ field ++ []) (drop 3 [0; 0; 0; 0]) NoError)
    /\ consumes TnmBerDecLength (fun _ => 65536 mod 65536) field.
Proof. apply (ber_length_truncated [4] 0 [] [0; 0; 0; 0] 65536 NoError); by_eval. Defined.

(** C34: on any packet whatsoever the decoders stay inside it, leave its octets
    unchanged, only move forward and return ([TnmBerDecOID]: with room for one
    component more than [TNM_OID_MAX_SIZE]). *)
Theorem ber_decoders_safe tag token len oid :
  (TNM_OID_MAX_SIZE < length oid)%nat ->
  dec_safe TnmBerDecByte /\ dec_safe TnmBerDecPeek /\ dec_safe TnmBerDecLength
  /\ dec_safe (TnmBerDecInt tag) /\ dec_safe TnmBerDecUnsigned64
  /\ dec_safe (TnmBerDecOctetString tag) /\ dec_safe (TnmBerDecNull tag)
  /\ dec_safe TnmBerDecAny /\ dec_safe (TnmBerDecSequenceStart tag)
  /\ dec_safe (TnmBerDecSequenceEnd token len) /\ dec_safe (TnmBerDecOID oid).
Proof. intros. split_and!; auto using dec_oid_safe with dec_safe. Qed.

Lemma ber_decoders_safe_witness : dec_safe (TnmBerDecOID (replicate 129 0)).
Proof.
  destruct (ber_decoders_safe 4 0 0 (replicate 129 0))
    as (_ & _ & _ & _ & _ & _ & _ & _ & _ & _ & H); [by_eval|exact H].
Defined.

(** On any packet of less than [2^24] octets and for any argument the
    encoders write only inside the packet, leave the octets below the position
    they started from unchanged, and return. *)
Theorem ber_encoders_safe tag v x os oid :
  (x < inject_Z (2 ^ 1024))%Q ->
  enc_safe (TnmBerEncInt tag v) /\ enc_safe (TnmBerEncUnsigned64 x)
  /\ enc_safe (TnmBerEncOctetString tag os) /\ enc_safe (TnmBerEncNull tag)
  /\ enc_safe (TnmBerEncOID oid) /\ enc_safe (TnmBerEncSequenceStart tag).
Proof. intros. split_and!; auto using enc_u64_safe with enc_safe. Qed.

Lemma ber_encoders_safe_witness : enc_safe (TnmBerEncUnsigned64 (inject_Z 12345)).
Proof.
  destruct (ber_encoders_safe 4 0 (inject_Z 12345) [] []) as (_ & H & _); [done|exact H].
Defined.

(** An OBJECT IDENTIFIER of 129 components (128 octets of contents) makes
    [TnmBerDecOID] store past the end of an array of [TNM_OID_MAX_SIZE]
    components: the limit is checked after the component is stored, and the loop
    goes on when the array is exactly full. *)
Theorem ber_oid_overrun :
  TnmBerDecOID (replicate TNM_OID_MAX_SIZE 0)
    (TnmBerCreate ([6; 0x81; 0x80] ++ replicate 128 1) 131) = Fault OutOfBounds.
Proof. vm_compute. reflexivity. Qed.
