(* ===== verification/CStr.v ===== *)
(** C strings and the decimal and hexadecimal numerals the sources print and
    parse.

    A C string is the list of its characters (as values of [u_char]) up to the
    terminating NUL, which the list does not contain.  [digits_msd] is the
    reference for printed numerals: the decimal digits of a number, most
    significant first.  [sprintf_u] and [sprintf_d] are the conversions [%u] and
    [%d] of [sprintf]. *)

From S2P Require Import Prelude.
From Stdlib Require Import Ascii.
Local Open Scope Z_scope.

Definition cstring : Type := list Z.

(** String literals of the sources. *)
Definition cstr (s : string) : cstring :=
  map (fun c => Z.of_N (N_of_ascii c)) (String.list_ascii_of_string s).

Definition chr_0 : Z := 48.
Definition chr_dot : Z := 46.
Definition chr_colon : Z := 58.

Definition isupper (c : Z) : bool := bool_decide (65 <= c <= 90).
Definition isdigit (c : Z) : bool := bool_decide (48 <= c <= 57).
Definition isxdigit (c : Z) : bool :=
  bool_decide (48 <= c <= 57) || bool_decide (65 <= c <= 70) || bool_decide (97 <= c <= 102).
Definition isalpha (c : Z) : bool :=
  bool_decide (65 <= c <= 90) || bool_decide (97 <= c <= 122).
Definition isalnum (c : Z) : bool := isalpha c || isdigit c.
Definition isspace (c : Z) : bool := bool_decide (c = 32) || bool_decide (9 <= c <= 13).
Fixpoint skip_space (s : cstring) : cstring :=
  match s with c :: s' => if isspace c then skip_space s' else s | [] => [] end.

(** ** Decimal digits, most significant first *)

Fixpoint digits_msd (k : nat) (u : Z) : list Z :=
  match k with
  | O => []
  | S k' => (u / 10 ^ Z.of_nat k') mod 10 :: digits_msd k' u
  end.

(** The number of decimal digits of [u] (at least one), for [u < 10 ^ fuel]. *)
Fixpoint dec_width (fuel : nat) (u : Z) : nat :=
  match fuel with
  | O => 1
  | S fuel => if bool_decide (u < 10) then 1 else S (dec_width fuel (u / 10))
  end.

(** [sprintf(s, "%u", u)] and [sprintf(s, "%d", d)] on 32 bit arguments. *)
Definition sprintf_u (u : Z) : cstring :=
  let u := u32 u in map (Z.add chr_0) (digits_msd (dec_width 10 u) u).

Definition sprintf_d (d : Z) : cstring :=
  let d := s32 d in
  if bool_decide (d < 0) then 45 :: sprintf_u (- d) else sprintf_u d.

Lemma digits_msd_length k u : length (digits_msd k u) = k.
Proof. induction k; simpl; by rewrite ?IHk. Qed.

Lemma digits_msd_range k u : 0 <= u -> Forall (fun d => 0 <= d < 10) (digits_msd k u).
Proof.
  intros Hu. induction k; simpl; constructor; [|done].
  apply Z.mod_pos_bound. lia.
Qed.

Lemma pow10_S k : 10 ^ Z.of_nat (S k) = 10 * 10 ^ Z.of_nat k.
Proof. rewrite Nat2Z.inj_succ, Z.pow_succ_r by lia. done. Qed.

Lemma pow10_pos k : 0 < 10 ^ Z.of_nat k.
Proof. apply Z.pow_pos_nonneg; lia. Qed.

Lemma mod_mul_split u m : 0 <= u -> 0 < m ->
  u mod (10 * m) = (u / m) mod 10 * m + u mod m.
Proof.
  intros Hu Hm. rewrite (Z.mul_comm 10 m), Z.rem_mul_r by lia. lia.
Qed.

(** Reading the digits back, from any accumulator. *)
Lemma digits_msd_fold k u a : 0 <= u ->
  fold_left (fun acc d => 10 * acc + d) (digits_msd k u) a
  = a * 10 ^ Z.of_nat k + u mod 10 ^ Z.of_nat k.
Proof.
  intros Hu. revert a. induction k as [|k IH]; intros a; simpl fold_left.
  - rewrite Z.pow_0_r, Z.mod_1_r. lia.
  - rewrite IH, pow10_S, (mod_mul_split u) by (auto using pow10_pos). lia.
Qed.

(** The digits of a quotient by ten, followed by the last one. *)
Lemma digits_msd_snoc k u : 0 <= u ->
  digits_msd (S k) u = digits_msd k (u / 10) ++ [u mod 10].
Proof.
  intros Hu. induction k as [|k IH]; [simpl; by rewrite Z.div_1_r|].
  change (digits_msd (S (S k)) u)
    with ((u / 10 ^ Z.of_nat (S k)) mod 10 :: digits_msd (S k) u).
  rewrite IH. simpl. f_equal.
  change (Z.pos (Pos.of_succ_nat k)) with (Z.of_nat (S k)).
  rewrite pow10_S, Z.div_div by (pose proof (pow10_pos k); lia). done.
Qed.

Lemma dec_width_bound fuel u : (1 <= dec_width fuel u <= S fuel)%nat.
Proof.
  revert u. induction fuel as [|fuel IH]; intros u; simpl; [lia|].
  case_bool_decide; [lia|]. specialize (IH (u / 10)). lia.
Qed.

Lemma dec_width_upper fuel u :
  0 <= u < 10 ^ Z.of_nat (S fuel) -> u < 10 ^ Z.of_nat (dec_width fuel u).
Proof.
  revert u. induction fuel as [|fuel IH]; intros u Hu; simpl dec_width; [exact (proj2 Hu)|].
  case_bool_decide; [by rewrite pow10_S, Z.pow_0_r|].
  rewrite pow10_S in Hu. rewrite pow10_S.
  assert (u / 10 < 10 ^ Z.of_nat (dec_width fuel (u / 10))) by (apply IH; lia). lia.
Qed.

Lemma dec_width_le w fuel u :
  (1 <= w)%nat -> 0 <= u < 10 ^ Z.of_nat w -> (dec_width fuel u <= w)%nat.
Proof.
  revert w u. induction fuel as [|fuel IH]; intros w u Hw Hu; simpl; [done|].
  case_bool_decide; [done|].
  destruct w as [|w]; [lia|]. rewrite pow10_S in Hu.
  destruct w as [|w]; [rewrite Z.pow_0_r in Hu; lia|].
  pose proof (IH (S w) (u / 10)). lia.
Qed.

Lemma dec_width_lower fuel u :
  1 <= u < 10 ^ Z.of_nat (S fuel) -> 10 ^ Z.of_nat (dec_width fuel u - 1) <= u.
Proof.
  revert u. induction fuel as [|fuel IH]; intros u Hu; simpl dec_width; [simpl; lia|].
  case_bool_decide; [simpl; lia|].
  rewrite pow10_S in Hu. specialize (IH (u / 10)).
  pose proof (dec_width_bound fuel (u / 10)).
  replace (S (dec_width fuel (u / 10)) - 1)%nat with (S (dec_width fuel (u / 10) - 1)) by lia.
  rewrite pow10_S. lia.
Qed.

(** The numeral of a number of two digits and more: its quotient by ten and
    the last digit. *)
Lemma sprintf_u_snoc v : is_u32 v -> 10 <= v ->
  sprintf_u v = map (Z.add chr_0) (digits_msd (dec_width 9 (v / 10)) (v / 10))
                ++ [chr_0 + v mod 10].
Proof.
  intros Hv ?. unfold sprintf_u. rewrite u32_id by done. simpl dec_width.
  rewrite bool_decide_eq_false_2, digits_msd_snoc by (destruct Hv; lia).
  by rewrite map_app.
Qed.

Lemma sprintf_u_small v : 0 <= v < 10 -> sprintf_u v = [chr_0 + v].
Proof.
  intros. unfold sprintf_u. rewrite u32_id by (unfold is_u32; lia). simpl dec_width.
  rewrite bool_decide_eq_true_2 by lia. cbn [digits_msd map].
  change (10 ^ Z.of_nat 0) with 1. by rewrite Z.div_1_r, Z.mod_small by lia.
Qed.

(** A 32 bit numeral has at most ten digits. *)
Lemma dec_width_u32 u : is_u32 u -> (dec_width 10 u <= 10)%nat.
Proof.
  intros [? ?]. apply dec_width_le; [lia|].
  change (10 ^ Z.of_nat 10) with 10000000000. lia.
Qed.

Lemma sprintf_u_length u : (1 <= length (sprintf_u u) <= 10)%nat.
Proof.
  unfold sprintf_u. rewrite length_map, digits_msd_length.
  pose proof (dec_width_u32 (u32 u) (u32_range u)).
  pose proof (dec_width_bound 10 (u32 u)). lia.
Qed.

Lemma sprintf_u_digits u : Forall (fun c => isdigit c = true) (sprintf_u u).
Proof.
  unfold sprintf_u, isdigit. apply Forall_map.
  eapply Forall_impl; [apply digits_msd_range, (u32_range u)|].
  intros d Hd. unfold compose, chr_0. cbv beta in *. apply bool_decide_eq_true_2. lia.
Qed.

(** Reading a printed numeral character by character. *)
Lemma sprintf_u_fold u : is_u32 u ->
  fold_left (fun acc c => 10 * acc + c - chr_0) (sprintf_u u) 0 = u.
Proof.
  intros Hu. unfold sprintf_u. rewrite u32_id by done.
  assert (Hfold : forall l a, fold_left (fun acc c => 10 * acc + c - chr_0) (map (Z.add chr_0) l) a
    = fold_left (fun acc d => 10 * acc + d) l a).
  { induction l as [|d l IH]; intros a; simpl; [done|]. rewrite IH. f_equal. lia. }
  rewrite Hfold, digits_msd_fold by apply Hu.
  rewrite Z.mod_small; [lia|]. split; [apply Hu|].
  apply dec_width_upper. destruct Hu.
  change (10 ^ Z.of_nat 11) with 100000000000. lia.
Qed.

(** ** Dotted decimal *)

Fixpoint dotted (l : list Z) : cstring :=
  match l with
  | [] => []
  | [v] => sprintf_u v
  | v :: l => sprintf_u v ++ chr_dot :: dotted l
  end.

Lemma dotted_cons v l : l <> [] -> dotted (v :: l) = sprintf_u v ++ chr_dot :: dotted l.
Proof. by destruct l. Qed.

Lemma dotted_concat l :
  l <> [] -> concat (map (fun v => sprintf_u v ++ [chr_dot]) l) = dotted l ++ [chr_dot].
Proof.
  induction l as [|v l IH]; [done|]. intros _. destruct l as [|w l].
  - simpl. by rewrite app_nil_r.
  - rewrite dotted_cons by done. cbn [map concat] in *. rewrite IH by done. by app_norm.
Qed.

Lemma sprintf_u_bytes u : bytes (sprintf_u u).
Proof.
  eapply Forall_impl; [apply sprintf_u_digits|]. intros c Hc. simpl in Hc.
  unfold isdigit in Hc. apply bool_decide_eq_true_1 in Hc. unfold is_byte. lia.
Qed.

Lemma dotted_length l : (length (dotted l) <= 11 * length l)%nat.
Proof.
  induction l as [|v l IH]; [simpl; lia|]. pose proof (sprintf_u_length v).
  destruct l; [simpl; lia|]. rewrite dotted_cons, length_app by done.
  cbn [length] in *. lia.
Qed.

(** A numeral is read modulo the width of the accumulator. *)
Lemma sprintf_u_fold32 u : is_u32 u ->
  fold_left (fun acc c => u32 (10 * acc + c - chr_0)) (sprintf_u u) 0 = u.
Proof.
  intros Hu.
  assert (H : forall s a, u32 (fold_left (fun acc c => 10 * acc + c - chr_0) s a)
    = fold_left (fun acc c => u32 (10 * acc + c - chr_0)) s (u32 a)).
  { induction s as [|c s IH]; intros a; cbn [fold_left]; [done|]. rewrite IH. f_equal.
    unfold u32. lia. }
  specialize (H (sprintf_u u) 0). rewrite sprintf_u_fold, u32_id in H by done. exact (eq_sym H).
Qed.

(** [sprintf(s, "%llu", u)] of a 64 bit value. *)
Definition sprintf_llu (u : Z) : cstring :=
  let u := u64 u in map (Z.add chr_0) (digits_msd (dec_width 20 u) u).

(** [sprintf(s, "%.2x", x)]: lower case hexadecimal, at least two digits. *)
Definition hex_lower (d : Z) : Z := if bool_decide (d < 10) then 48 + d else 87 + d.

Fixpoint hex_digits (n : nat) (u : Z) : cstring :=
  match n with
  | O => []
  | S n => hex_digits n (u / 16) ++ [hex_lower (u mod 16)]
  end.

Fixpoint hex_width (fuel : nat) (u : Z) : nat :=
  match fuel with
  | O => O
  | S fuel => if bool_decide (u = 0) then O else S (hex_width fuel (u / 16))
  end.

Definition sprintf_x2 (x : Z) : cstring :=
  let u := u32 x in hex_digits (2 `max` hex_width 8 u) u.
