(* ===== verification/Oid.v ===== *)
(** Object identifiers: the conversions of [tnmAsn1.c] between vectors of
    subidentifiers and dotted strings, and the growable [TnmOid] of
    [tnmOidObj.c].

    A result [None] of a definition in the option monad is an access outside an
    array; failures the code reports are values.  The static result buffers of
    [TnmOidToStr] and [TnmOidToString] hold [TNM_OID_MAX_SIZE * 8] characters,
    and every character stored is checked against that size.  Theorems are in
    [OidTheorems]. *)

From S2P Require Import Prelude Ber CStr.
Local Open Scope Z_scope.
Local Open Scope cint_scope.

(** ** Dotted strings (tnmAsn1.c) *)

Definition OID_STR_SIZE : nat := (TNM_OID_MAX_SIZE * 8)%nat.

(** [*cp++ = c] with [cp] at the end of what was written. *)
Definition oid_putc (c : Z) (buf : cstring) : option cstring :=
  if decide (length buf < OID_STR_SIZE)%nat then Some (buf ++ [u8 c]) else None.

(** [while (u / t) t *= 10;] *)
Fixpoint oid_str_scale (fuel : nat) (u t : Z) : option Z :=
  match fuel with
  | O => None
  | S fuel =>
      if bool_decide (u / t = 0) then Some t else oid_str_scale fuel u (u32 (t * 10))
  end.

(** [while (t /= 10) *cp++ = '0' + (u / t) % 10;] *)
Fixpoint oid_str_digits (fuel : nat) (u t : Z) (buf : cstring) : option cstring :=
  match fuel with
  | O => None
  | S fuel =>
      let t := t / 10 in
      if bool_decide (t = 0) then Some buf
      else buf ← oid_putc (chr_0 + (u / t) mod 10) buf; oid_str_digits fuel u t buf
  end.

Definition oid_str_component (v : Z) (buf : cstring) : option cstring :=
  if bool_decide (v < 10) then oid_putc (chr_0 + v) buf
  else
    let u := v / 10 in
    t ← oid_str_scale 11 u 10;
    buf ← oid_str_digits 12 u t buf;
    oid_putc (chr_0 + v mod 10) buf.

Fixpoint oid_str_loop (oid : list Z) (buf : cstring) : option cstring :=
  match oid with
  | [] => Some buf
  | v :: oid =>
      buf ← oid_str_component v buf;
      buf ← oid_putc chr_dot buf;
      oid_str_loop oid buf
  end.

(** The last dot is overwritten by the terminating NUL. *)
Definition TnmOidToStr (oid : list Z) (oidLen : nat) : option cstring :=
  if decide (oidLen <= length oid)%nat then
    buf ← oid_str_loop (take oidLen oid) [];
    Some (removelast buf)
  else None.

(** The loop of [TnmStrToOid] over the characters; [None] is [return NULL]. *)
Fixpoint str_to_oid_loop (str : cstring) (oid : list Z) (len : nat) : option (list Z * nat) :=
  match str with
  | [] => Some (oid, len)
  | c :: str =>
      if isdigit c
      then str_to_oid_loop str (<[len := u32 (10 * (oid !!! len) + c - chr_0)]> oid) len
      else if bool_decide (c = chr_dot) && bool_decide (len < TNM_OID_MAX_SIZE - 1)%nat
      then str_to_oid_loop str oid (S len)
      else None
  end.

(** The result is the static vector and the number of subidentifiers. *)
Definition TnmStrToOid (str : cstring) : option (list Z * nat) :=
  let str := match str with
             | c :: rest => if bool_decide (c = chr_dot) then rest else str
             | [] => str
             end in
  let oid := replicate TNM_OID_MAX_SIZE 0 in
  match str with
  | [] => Some (oid, O)
  | _ =>
      match str_to_oid_loop str oid 0 with
      | None => None
      | Some (oid, len) =>
          let len := S len in
          if bool_decide (len < 2)%nat || bool_decide (2 < oid !!! 0%nat) then None
          else Some (oid, len)
      end
  end.

(** ** TnmOid (tnmMib.h, tnmOidObj.c) *)

Definition TNM_OID_STATIC_SIZE : nat := 16.

(** [oid_heap] is the block [elements] points to when it is not
    [staticSpace]. *)
Record TnmOid := mkOid {
  oid_heap : option (list Z);
  oid_length : Z;
  oid_spaceAvl : Z;
  oid_static : list Z
}.

Definition oid_elements (o : TnmOid) : list Z := default (oid_static o) (oid_heap o).

Definition set_oid_elements (o : TnmOid) (l : list Z) : TnmOid :=
  match oid_heap o with
  | Some _ => mkOid (Some l) (oid_length o) (oid_spaceAvl o) (oid_static o)
  | None => mkOid None (oid_length o) (oid_spaceAvl o) l
  end.

Definition TnmOidGet (o : TnmOid) (i : nat) : option Z := oid_elements o !! i.

Definition TnmOidSet (o : TnmOid) (i : nat) (v : Z) : option TnmOid :=
  if decide (i < length (oid_elements o))%nat
  then Some (set_oid_elements o (<[i := u32 v]> (oid_elements o))) else None.

Definition TnmOidGetLength (o : TnmOid) : Z := oid_length o.

Definition TnmOidInit : TnmOid :=
  mkOid None 0 (Z.of_nat TNM_OID_STATIC_SIZE) (replicate TNM_OID_STATIC_SIZE 0).

Definition TnmOidFree (o : TnmOid) : TnmOid :=
  mkOid None 0 (Z.of_nat TNM_OID_STATIC_SIZE) (replicate TNM_OID_STATIC_SIZE 0).

(** [for (i = 0; i < n; i++) dst[i] = src[i];] from index [i]. *)
Fixpoint oid_copy_loop (n i : nat) (src dst : list Z) : option (list Z) :=
  match n with
  | O => Some dst
  | S n =>
      x ← src !! i;
      if decide (i < length dst)%nat then oid_copy_loop n (S i) src (<[i := x]> dst) else None
  end.

Definition TnmOidSetLength (o : TnmOid) (len : Z) : option TnmOid :=
  let newlen := s16 (if bool_decide (len < 0) then 0 else len) in
  if bool_decide (oid_spaceAvl o < len) then
    let spaceAvl := s16 ((len / Z.of_nat TNM_OID_STATIC_SIZE + 1) * Z.of_nat TNM_OID_STATIC_SIZE) in
    dyn ← oid_copy_loop (Z.to_nat (len `min` oid_length o)) 0 (oid_elements o)
            (replicate (Z.to_nat (spaceAvl + 1)) 0);
    Some (mkOid (Some dyn) newlen spaceAvl (oid_static o))
  else Some (mkOid (oid_heap o) newlen (oid_spaceAvl o) (oid_static o)).

Definition TnmOidAppend (o : TnmOid) (value : Z) : option (tcl_code * TnmOid) :=
  let len := TnmOidGetLength o in
  if bool_decide (len = Z.of_nat TNM_OID_MAX_SIZE) then Some (TCL_ERROR, o)
  else
    o ← TnmOidSetLength o (len + 1);
    o ← TnmOidSet o (Z.to_nat len) value;
    Some (TCL_OK, o).

(** [for (i = 0; i < n; i++) TnmOidSet(dst, i, TnmOidGet(src, i));] *)
Fixpoint oid_copy_elements (n i : nat) (dst src : TnmOid) : option TnmOid :=
  match n with
  | O => Some dst
  | S n => v ← TnmOidGet src i; dst ← TnmOidSet dst i v; oid_copy_elements n (S i) dst src
  end.

Definition TnmOidCopy (dst src : TnmOid) : option TnmOid :=
  dst ← TnmOidSetLength (TnmOidFree dst) (TnmOidGetLength src);
  oid_copy_elements (Z.to_nat (TnmOidGetLength src)) 0 dst src.

(** *** Parsing with hexadecimal subidentifiers *)

(** [c[1] == '0' && c[2] == 'x'], with what follows. *)
Definition hex_prefix (rest : cstring) : option cstring :=
  match rest with
  | c1 :: c2 :: rest' => if bool_decide (c1 = 48) && bool_decide (c2 = 120) then Some rest' else None
  | _ => None
  end.

(** [fuel] is the number of characters. *)
Fixpoint is_oid_loop (fuel : nat) (str : cstring) (isHex : bool) : bool :=
  match fuel, str with
  | S fuel, c :: rest =>
      if bool_decide (c = chr_dot) then
        match hex_prefix rest with
        | Some rest' => is_oid_loop fuel rest' true
        | None => is_oid_loop fuel rest false
        end
      else if bool_decide (c = chr_colon) then is_oid_loop fuel rest true
      else if isHex && negb (isxdigit c) then false
      else if negb isHex && negb (isdigit c) then false
      else is_oid_loop fuel rest isHex
  | _, _ => true
  end.

Definition TnmIsOid (str : cstring) : bool := is_oid_loop (length str) str false.

(** The first loop of [TnmOidFromString]: the number of subidentifiers, or
    [None] for [return TCL_ERROR].  [isHex] is not reset by a dot here. *)
Fixpoint oid_scan_length (fuel : nat) (str : cstring) (len : Z) (isHex : bool) : option Z :=
  match fuel, str with
  | S fuel, c :: rest =>
      if bool_decide (c = chr_dot) then
        match hex_prefix rest with
        | Some rest' => oid_scan_length fuel rest' (len + 1) true
        | None => oid_scan_length fuel rest (len + 1) isHex
        end
      else if bool_decide (c = chr_colon) then oid_scan_length fuel rest (len + 1) true
      else if isHex && negb (isxdigit c) then None
      else if negb isHex && negb (isdigit c) then None
      else oid_scan_length fuel rest len isHex
  | _, _ => Some len
  end.

Definition hex_char_value (x : Z) : Z :=
  if bool_decide (97 <= x) then x - 97 + 10
  else if bool_decide (65 <= x) then x - 65 + 10 else x - 48.

(** [oidPtr->elements[i]] updated by a digit. *)
Definition oid_push (o : TnmOid) (i : nat) (f : Z -> Z) : option TnmOid :=
  v ← TnmOidGet o i; TnmOidSet o i (f v).

(** The second loop of [TnmOidFromString]. *)
Fixpoint oid_scan_values (fuel : nat) (str : cstring) (o : TnmOid) (i : nat) (isHex : bool)
    : option TnmOid :=
  match fuel, str with
  | S fuel, c :: rest =>
      if bool_decide (c = chr_dot) then
        o ← TnmOidSet o (S i) 0;
        match hex_prefix rest with
        | Some rest' => oid_scan_values fuel rest' o (S i) true
        | None => oid_scan_values fuel rest o (S i) false
        end
      else if bool_decide (c = chr_colon) then
        o ← TnmOidSet o (S i) 0;
        oid_scan_values fuel rest o (S i) true
      else if negb isHex then
        o ← oid_push o i (fun v => 10 * v + c - chr_0);
        oid_scan_values fuel rest o i isHex
      else
        o ← oid_push o i (fun v => u32 (v << 4) + hex_char_value c);
        oid_scan_values fuel rest o i isHex
  | _, _ => Some o
  end.

Definition set_oid_length (o : TnmOid) (len : Z) : TnmOid :=
  mkOid (oid_heap o) (s16 len) (oid_spaceAvl o) (oid_static o).

Definition TnmOidFromString (o : TnmOid) (str : cstring) : option (tcl_code * TnmOid) :=
  let o := TnmOidFree o in
  if bool_decide (str = []) then Some (TCL_OK, o) else
  match oid_scan_length (length str) str 1 false with
  | None => Some (TCL_ERROR, o)
  | Some len =>
      if bool_decide (Z.of_nat TNM_OID_MAX_SIZE < len) then Some (TCL_ERROR, o) else
      o ← (if bool_decide (oid_spaceAvl o < len) then TnmOidSetLength o len else Some o);
      o ← oid_scan_values (length str) str o 0 false;
      let o := set_oid_length o len in
      e0 ← TnmOidGet o 0;
      if bool_decide (oid_length o < 2) || bool_decide (2 < e0)
      then Some (TCL_ERROR, TnmOidFree o)
      else Some (TCL_OK, o)
  end.

(** [TnmOidToString] has the body of [TnmOidToStr] with the length and the
    elements of the structure. *)
Definition TnmOidToString (o : TnmOid) : option cstring :=
  TnmOidToStr (oid_elements o) (Z.to_nat (oid_length o)).

(** *** Comparison *)

(** [for (i = 0; i < n; i++)] of [TnmOidCompare]; 0 when the loop ends. *)
Fixpoint oid_compare_loop (n i : nat) (o1 o2 : TnmOid) : option Z :=
  match n with
  | O => Some 0
  | S n =>
      x ← TnmOidGet o1 i;
      y ← TnmOidGet o2 i;
      if bool_decide (x < y) then Some (-1)
      else if bool_decide (y < x) then Some 1
      else oid_compare_loop n (S i) o1 o2
  end.

Definition TnmOidCompare (o1 o2 : TnmOid) : option Z :=
  r ← oid_compare_loop (Z.to_nat (oid_length o1 `min` oid_length o2)) 0 o1 o2;
  if bool_decide (r = 0) then
    if bool_decide (oid_length o1 = oid_length o2) then Some 0
    else Some (if bool_decide (oid_length o1 < oid_length o2) then -1 else 1)
  else Some r.

(** [for (i = 0; i < treePtr->length; i++)] of [TnmOidInTree]. *)
Fixpoint oid_in_tree_loop (n i : nat) (tree o : TnmOid) : option bool :=
  match n with
  | O => Some true
  | S n =>
      x ← TnmOidGet o i;
      y ← TnmOidGet tree i;
      if bool_decide (x <> y) then Some false else oid_in_tree_loop n (S i) tree o
  end.

Definition TnmOidInTree (tree o : TnmOid) : option bool :=
  if bool_decide (oid_length o < oid_length tree) then Some false
  else oid_in_tree_loop (Z.to_nat (oid_length tree)) 0 tree o.
