(* ===== verification/OidTheorems.v ===== *)
(** Object identifiers: the conversions print and parse the dotted decimal
    notation, [TnmOid] refines the list of its subidentifiers, and the
    comparisons are the lexicographic order and the prefix relation. *)

From S2P Require Import Prelude Ber BerSpec CStr Oid.
Local Open Scope Z_scope.

(** ** Printing *)

(** Storing a whole string in the static buffer. *)
Definition oid_puts (s buf : cstring) : option cstring :=
  if decide (length buf + length s <= OID_STR_SIZE)%nat then Some (buf ++ s) else None.

Lemma oid_putc_puts c s buf : is_byte c ->
  oid_putc c buf ≫= oid_puts s = oid_puts (c :: s) buf.
Proof.
  intros. unfold oid_putc, oid_puts. rewrite u8_id by done. cbn [length].
  repeat case_decide; simpl; rewrite ?length_app in *; cbn [length] in *;
    repeat case_decide; try done; try lia.
  by rewrite <- app_assoc.
Qed.

Lemma oid_putc_puts_one c buf : is_byte c -> oid_putc c buf = oid_puts [c] buf.
Proof.
  intros. rewrite <- oid_putc_puts by done.
  unfold oid_putc, oid_puts. case_decide; [|done]. simpl.
  rewrite length_app. cbn [length]. rewrite decide_True by lia. by rewrite app_nil_r.
Qed.

Lemma oid_puts_app s1 s2 buf :
  oid_puts s1 buf ≫= oid_puts s2 = oid_puts (s1 ++ s2) buf.
Proof.
  unfold oid_puts. rewrite length_app.
  repeat case_decide; simpl; rewrite ?length_app in *;
    repeat case_decide; try done; try lia.
  by rewrite <- app_assoc.
Qed.

Lemma oid_str_scale_spec n : forall k u fuel,
  (1 <= k)%nat -> (k + n <= 9)%nat -> (n < fuel)%nat ->
  10 ^ Z.of_nat (k + n - 1) <= u < 10 ^ Z.of_nat (k + n) \/ (k = 1 /\ n = 0)%nat /\ 0 <= u < 10 ->
  oid_str_scale fuel u (10 ^ Z.of_nat k) = Some (10 ^ Z.of_nat (k + n)).
Proof.
  induction n as [|n IH]; intros k u fuel Hk Hkn Hf Hu; (destruct fuel as [|fuel]; [lia|]);
    cbn [oid_str_scale].
  - rewrite Nat.add_0_r in *. rewrite bool_decide_eq_true_2; [done|].
    apply Z.div_small. destruct Hu as [Hu|[[-> _] Hu]]; [|done].
    pose proof (pow10_pos (k - 1)). lia.
  - destruct Hu as [Hu|[[? ?] ?]]; [|lia].
    assert (10 ^ Z.of_nat k <= 10 ^ Z.of_nat (k + S n - 1)) by (apply Z.pow_le_mono_r; lia).
    pose proof (pow10_pos k).
    rewrite bool_decide_eq_false_2
      by (pose proof (Z.div_le_mono (10 ^ Z.of_nat k) u (10 ^ Z.of_nat k));
          rewrite Z.div_same in * by lia; lia).
    replace (u32 (10 ^ Z.of_nat k * 10)) with (10 ^ Z.of_nat (S k)).
    + replace (k + S n)%nat with (S k + n)%nat in * by lia. apply IH; [lia..|]. left.
      by replace (S k + n - 1)%nat with (k + n)%nat in * by lia.
    + rewrite pow10_S, Z.mul_comm. symmetry. apply u32_id.
      assert (10 ^ Z.of_nat k <= 10 ^ 8) by (apply Z.pow_le_mono_r; lia).
      unfold is_u32. lia.
Qed.

Lemma byte_digit d : 0 <= d < 10 -> is_byte (chr_0 + d).
Proof. unfold is_byte, chr_0. lia. Qed.

Lemma oid_str_digits_spec k : forall u fuel buf,
  0 <= u -> (k < fuel)%nat ->
  oid_str_digits fuel u (10 ^ Z.of_nat k) buf
  = oid_puts (map (Z.add chr_0) (digits_msd k u)) buf \/ (OID_STR_SIZE < length buf)%nat.
Proof.
  induction k as [|k IH]; intros u fuel buf Hu Hf; (destruct fuel as [|fuel]; [lia|]);
    cbn [oid_str_digits].
  - rewrite bool_decide_eq_true_2 by done. unfold oid_puts. cbn [digits_msd map length].
    case_decide; [left|right; lia]. by rewrite app_nil_r.
  - rewrite pow10_S, Z.mul_comm, Z.div_mul by lia.
    rewrite bool_decide_eq_false_2 by (pose proof (pow10_pos k); lia).
    cbn [digits_msd map].
    pose proof (Z.mod_pos_bound (u / 10 ^ Z.of_nat k) 10 ltac:(lia)) as Hd.
    rewrite <- oid_putc_puts by (by apply byte_digit).
    unfold oid_putc. case_decide; simpl; [|by left]. left.
    destruct (IH u fuel (buf ++ [u8 (chr_0 + (u / 10 ^ Z.of_nat k) mod 10)])) as [->|Hlen];
      [done|lia|done|].
    rewrite length_app in Hlen. cbn [length] in Hlen. lia.
Qed.

(** The buffer never holds more than its size. *)
Lemma oid_str_component_spec v buf :
  is_u32 v -> (length buf <= OID_STR_SIZE)%nat ->
  oid_str_component v buf = oid_puts (sprintf_u v) buf.
Proof.
  intros Hv Hbuf. unfold oid_str_component. case_bool_decide.
  - destruct Hv. rewrite sprintf_u_small, oid_putc_puts_one by (try apply byte_digit; lia). done.
  - set (w := dec_width 9 (v / 10)).
    assert (Hw : (1 <= w <= 9)%nat).
    { split; [apply dec_width_bound|]. apply dec_width_le; [lia|].
      destruct Hv. change (10 ^ Z.of_nat 9) with 1000000000. lia. }
    assert (Hu : 1 <= v / 10 < 10 ^ Z.of_nat 10).
    { destruct Hv. change (10 ^ Z.of_nat 10) with 10000000000. lia. }
    pose proof (dec_width_upper 9 (v / 10) ltac:(lia)).
    pose proof (dec_width_lower 9 (v / 10) Hu). fold w in H0, H1.
    replace (oid_str_scale 11 (v / 10) 10) with (Some (10 ^ Z.of_nat w)).
    + cbn [mbind option_bind].
      destruct (oid_str_digits_spec w (v / 10) 12 buf) as [->|]; [lia|lia| |lia].
      rewrite sprintf_u_snoc, <- oid_puts_app by (done || lia). fold w.
      destruct (oid_puts _ buf); [|done]. simpl. apply oid_putc_puts_one, byte_digit. lia.
    + symmetry.
      pose proof (oid_str_scale_spec (w - 1) 1 (v / 10) 11) as Hs.
      replace (1 + (w - 1))%nat with w in Hs by lia. apply Hs; lia.
Qed.

Lemma oid_puts_length s buf buf' :
  oid_puts s buf = Some buf' -> (length buf' <= OID_STR_SIZE)%nat.
Proof. unfold oid_puts. case_decide; [|done]. intros [= <-]. by rewrite length_app. Qed.

Lemma oid_str_loop_spec l : forall buf,
  Forall is_u32 l -> (length buf <= OID_STR_SIZE)%nat ->
  oid_str_loop l buf = oid_puts (concat (map (fun v => sprintf_u v ++ [chr_dot]) l)) buf.
Proof.
  induction l as [|v l IH]; intros buf Hl Hbuf.
  - unfold oid_puts. simpl. rewrite decide_True, app_nil_r by lia. done.
  - inversion_clear Hl. cbn [oid_str_loop map concat].
    rewrite oid_str_component_spec by done.
    rewrite <- (oid_puts_app (sprintf_u v ++ [chr_dot])), <- (oid_puts_app (sprintf_u v)).
    destruct (oid_puts (sprintf_u v) buf) as [buf1|]; [|done]. simpl.
    rewrite oid_putc_puts_one by done.
    destruct (oid_puts [chr_dot] buf1) as [buf2|] eqn:E2; [|done]. simpl.
    apply IH; [done|]. by eapply oid_puts_length.
Qed.

(** [TnmOidToStr] prints the dotted decimal notation, or overruns its buffer,
    exactly when the notation and a final dot do not fit. *)
Lemma oid_to_str_spec l n : Forall is_u32 l -> (n <= length l)%nat ->
  TnmOidToStr l n =
    if decide (length (dotted (take n l)) < OID_STR_SIZE)%nat
    then Some (dotted (take n l)) else None.
Proof.
  intros Hl Hn. unfold TnmOidToStr. rewrite decide_True by done.
  rewrite oid_str_loop_spec by (try apply Forall_take; try done; simpl; lia).
  unfold oid_puts. cbn [length app]. destruct (take n l) as [|v l'] eqn:E.
  - simpl. done.
  - rewrite dotted_concat, length_app by done. cbn [length].
    destruct (decide (length (dotted (v :: l')) < OID_STR_SIZE)%nat);
      [rewrite decide_True by lia|rewrite decide_False by lia; done].
    simpl. by rewrite removelast_last.
Qed.

(** ** Parsing *)

Definition fold_dec (s : cstring) (a : Z) : Z :=
  fold_left (fun acc c => u32 (10 * acc + c - chr_0)) s a.

Lemma str_to_oid_digits s : forall rest oid len,
  Forall (fun c => isdigit c = true) s -> (len < length oid)%nat ->
  str_to_oid_loop (s ++ rest) oid len
  = str_to_oid_loop rest (<[len := fold_dec s (oid !!! len)]> oid) len.
Proof.
  induction s as [|c s IH]; intros rest oid len Hs Hlen; cbn [app].
  - unfold fold_dec. cbn [fold_left]. f_equal.
    destruct (lookup_lt_is_Some_2 oid len Hlen) as [x Hx].
    rewrite (list_lookup_total_correct _ _ _ Hx). by rewrite list_insert_id.
  - inversion_clear Hs as [|? ? Hc Hs']. cbn [str_to_oid_loop]. rewrite Hc.
    rewrite IH by (rewrite ?length_insert; done).
    rewrite list_insert_insert_eq, list_lookup_total_insert_eq by done. done.
Qed.

Lemma str_to_oid_dotted l : forall pre z,
  l <> [] -> Forall is_u32 l -> (length pre + length l <= TNM_OID_MAX_SIZE)%nat ->
  (length l <= z)%nat ->
  str_to_oid_loop (dotted l) (pre ++ replicate z 0) (length pre)
  = Some (pre ++ l ++ replicate (z - length l) 0, (length pre + length l - 1)%nat).
Proof.
  induction l as [|v l IH]; intros pre z Hne Hl Hmax Hz; [done|].
  inversion_clear Hl as [|? ? Hv Hl'].
  destruct z as [|z]; [cbn [length] in Hz; lia|].
  assert (Hstep : forall rest,
    str_to_oid_loop (sprintf_u v ++ rest) (pre ++ replicate (S z) 0) (length pre)
    = str_to_oid_loop rest (pre ++ v :: replicate z 0) (length pre)).
  { intros rest. rewrite str_to_oid_digits
      by (first [apply sprintf_u_digits | rewrite length_app, length_replicate; lia]).
    replace ((pre ++ replicate (S z) 0) !!! length pre) with 0
      by (symmetry; apply list_lookup_total_correct, lookup_app_mid).
    unfold fold_dec. rewrite sprintf_u_fold32 by done.
    cbn [replicate]. by rewrite insert_app_mid. }
  destruct l as [|w l].
  - cbn [dotted]. rewrite <- (app_nil_r (sprintf_u v)), Hstep. cbn [str_to_oid_loop length].
    repeat f_equal; lia.
  - rewrite dotted_cons, Hstep by done. cbn [str_to_oid_loop].
    cbn [length] in Hmax, Hz.
    rewrite bool_decide_eq_true_2, bool_decide_eq_true_2 by (done || lia). simpl andb.
    change (isdigit chr_dot) with false. cbn match.
    replace (pre ++ v :: replicate z 0) with ((pre ++ [v]) ++ replicate z 0) by (by app_norm).
    replace (S (length pre)) with (length (pre ++ [v])) by (rewrite length_app; simpl; lia).
    rewrite IH; [|done|done|rewrite length_app; cbn [length]; lia|cbn [length]; lia].
    rewrite length_app. cbn [length]. do 2 f_equal; [by app_norm|lia].
Qed.

(** An object identifier value as the conversions accept it. *)
Definition oid_value (l : list Z) : Prop :=
  (2 <= length l <= TNM_OID_MAX_SIZE)%nat /\ Forall is_u32 l /\ l !!! 0%nat <= 2.

#[global] Instance oid_value_dec l : Decision (oid_value l).
Proof. unfold oid_value. apply _. Defined.

Lemma dotted_head l : l <> [] -> exists c s, dotted l = c :: s /\ isdigit c = true.
Proof.
  intros Hne. destruct l as [|v l]; [done|].
  pose proof (sprintf_u_length v). pose proof (sprintf_u_digits v) as Hd.
  destruct (sprintf_u v) as [|c s] eqn:E; [simpl in *; lia|]. inversion_clear Hd.
  destruct l as [|w l]; [exists c, s|rewrite dotted_cons, E by done; eexists c, _]; done.
Qed.

Lemma isdigit_not_dot c : isdigit c = true -> c <> chr_dot.
Proof. intros H ->. done. Qed.

Lemma str_to_oid_spec l : oid_value l ->
  TnmStrToOid (dotted l) = Some (l ++ replicate (TNM_OID_MAX_SIZE - length l) 0, length l).
Proof.
  intros (Hlen & Hl & H0). unfold TnmStrToOid.
  assert (l <> []) as Hne by (intros ->; simpl in Hlen; lia).
  destruct (dotted_head l Hne) as (c & s & E & Hc).
  rewrite E, bool_decide_eq_false_2 by (by apply isdigit_not_dot). rewrite <- E.
  pose proof (str_to_oid_dotted l [] TNM_OID_MAX_SIZE Hne Hl ltac:(simpl; lia) ltac:(lia)) as Hp.
  cbn [app length] in Hp. rewrite Hp.
  replace (S (0 + length l - 1)) with (length l) by lia.
  rewrite lookup_total_app_l by lia.
  rewrite bool_decide_eq_false_2, bool_decide_eq_false_2 by lia. done.
Qed.

(** Printing an object identifier with [TnmOidToStr] and reading the string
    with [TnmStrToOid] gives the subidentifiers back, for every vector of 2 to
    128 components with a first one of at most 2 whose dotted notation fits the
    static buffer, which holds for every vector of at most 93 components. *)
Theorem oid_str_roundtrip l :
  oid_value l -> (length l <= 93)%nat \/ (length (dotted l) < OID_STR_SIZE)%nat ->
  exists s, TnmOidToStr l (length l) = Some s /\
            TnmStrToOid s = Some (l ++ replicate (TNM_OID_MAX_SIZE - length l) 0, length l).
Proof.
  intros Hl Hfit. exists (dotted l). split; [|by apply str_to_oid_spec].
  destruct Hl as (? & Hu & _). rewrite oid_to_str_spec by (done || lia).
  rewrite take_ge by done. rewrite decide_True; [done|].
  pose proof (dotted_length l). destruct Hfit; [|done].
  apply (Nat.le_lt_trans _ 1023); [lia|]. vm_compute. lia.
Qed.

Lemma oid_str_roundtrip_witness :
  exists s, TnmOidToStr [1; 3; 6; 1; 4; 1; 4294967295] 7 = Some s /\
            TnmStrToOid s = Some ([1; 3; 6; 1; 4; 1; 4294967295] ++ replicate 121 0, 7%nat).
Proof. apply (oid_str_roundtrip [1; 3; 6; 1; 4; 1; 4294967295]); [by_eval|left; simpl; lia]. Defined.

(** The static buffer of [TnmOidToStr] is too small for the longest object
    identifiers: the procedure stores past its end exactly when the dotted
    notation has 1024 characters or more, and a vector of 128 components reaches
    that. *)
Theorem oid_str_overrun :
  (forall l n, Forall is_u32 l -> (n <= length l)%nat ->
     TnmOidToStr l n = None <-> (OID_STR_SIZE <= length (dotted (take n l)))%nat) /\
  TnmOidToStr (1 :: 3 :: replicate 126 4294967295) TNM_OID_MAX_SIZE = None.
Proof.
  split; [|by vm_compute].
  intros l n Hl Hn. rewrite oid_to_str_spec by done. case_decide; split; try done; lia.
Qed.

(** ** TnmOid as a list *)

Definition oid_list (o : TnmOid) : list Z := take (Z.to_nat (oid_length o)) (oid_elements o).

Definition oid_wf (o : TnmOid) : Prop :=
  0 <= oid_length o <= oid_spaceAvl o /\ oid_spaceAvl o < 32768 /\
  (Z.to_nat (oid_spaceAvl o) <= length (oid_elements o))%nat /\
  Forall is_u32 (oid_elements o).

#[global] Instance oid_wf_dec o : Decision (oid_wf o).
Proof. unfold oid_wf. apply _. Defined.

Lemma oid_list_length o : oid_wf o -> length (oid_list o) = Z.to_nat (oid_length o).
Proof. intros (? & ? & ? & ?). unfold oid_list. rewrite length_take. lia. Qed.

Lemma oid_list_lookup o i : (i < Z.to_nat (oid_length o))%nat ->
  TnmOidGet o i = oid_list o !! i.
Proof. intros. unfold TnmOidGet, oid_list. by rewrite lookup_take_lt. Qed.

Lemma oid_list_u32 o : oid_wf o -> Forall is_u32 (oid_list o).
Proof. intros (? & ? & ? & ?). by apply Forall_take. Qed.

Lemma oid_elements_set o l : oid_elements (set_oid_elements o l) = l.
Proof. unfold oid_elements, set_oid_elements. by destruct (oid_heap o). Qed.

Lemma set_oid_elements_set o l k :
  set_oid_elements (set_oid_elements o l) k = set_oid_elements o k.
Proof. unfold set_oid_elements. by destruct o as [[?|] ? ? ?]. Qed.

Lemma set_oid_elements_id o : set_oid_elements o (oid_elements o) = o.
Proof. unfold set_oid_elements, oid_elements. by destruct o as [[?|] ? ? ?]. Qed.

Lemma oid_length_set o l : oid_length (set_oid_elements o l) = oid_length o.
Proof. unfold set_oid_elements. by destruct (oid_heap o). Qed.

Lemma oid_spaceAvl_set o l : oid_spaceAvl (set_oid_elements o l) = oid_spaceAvl o.
Proof. unfold set_oid_elements. by destruct (oid_heap o). Qed.

Lemma oid_wf_set o l :
  oid_wf o -> length l = length (oid_elements o) -> Forall is_u32 l ->
  oid_wf (set_oid_elements o l).
Proof.
  intros (? & ? & ? & ?) Hl ?. unfold oid_wf.
  rewrite oid_length_set, oid_spaceAvl_set, oid_elements_set, Hl. done.
Qed.

Lemma TnmOidSet_spec o i v : (i < length (oid_elements o))%nat ->
  TnmOidSet o i v = Some (set_oid_elements o (<[i := u32 v]> (oid_elements o))).
Proof. intros. unfold TnmOidSet. by rewrite decide_True. Qed.

Lemma oid_copy_loop_spec n : forall i src dst,
  (i + n <= length src)%nat -> (i + n <= length dst)%nat ->
  oid_copy_loop n i src dst = Some (take i dst ++ take n (drop i src) ++ drop (i + n) dst).
Proof.
  induction n as [|n IH]; intros i src dst Hs Hd; cbn [oid_copy_loop].
  - rewrite Nat.add_0_r. simpl. by rewrite take_drop.
  - destruct (lookup_lt_is_Some_2 src i ltac:(lia)) as [x Hx]. rewrite Hx. simpl.
    rewrite decide_True by lia.
    rewrite IH by (rewrite ?length_insert; lia). f_equal.
    rewrite take_S_insert by lia. rewrite drop_insert_lt by lia.
    rewrite (drop_S src x i) by done. cbn [take app]. rewrite <- app_assoc. cbn [app].
    by rewrite (Nat.add_succ_r i n).
Qed.

Definition oid_max : Z := 32000.

(** Growing keeps the subidentifiers, new ones are zero or what a shorter
    length had hidden. *)
Lemma TnmOidSetLength_spec o len : oid_wf o -> 0 <= len <= oid_max ->
  exists o', TnmOidSetLength o len = Some o' /\ oid_wf o' /\ oid_length o' = len /\
    take (Z.to_nat (oid_length o)) (oid_list o') = take (Z.to_nat len) (oid_list o).
Proof.
  unfold oid_max. intros Hwf Hlen. pose proof Hwf as (Hl & Hs & He & Hu).
  unfold TnmOidSetLength. rewrite (bool_decide_eq_false_2 (len < 0)) by lia.
  rewrite (s16_id len) by lia. case_bool_decide as Hcmp.
  - change (Z.of_nat TNM_OID_STATIC_SIZE) with 16. rewrite s16_id by lia.
    rewrite Z.min_r by lia.
    rewrite oid_copy_loop_spec by (rewrite ?length_replicate; lia).
    rewrite take_0, drop_0, Nat.add_0_l, app_nil_l.
    cbn [mbind option_bind]. eexists. split; [done|].
    unfold oid_list, oid_wf. cbn [oid_length oid_spaceAvl].
    match goal with |- context [oid_elements (mkOid (Some ?l) ?a ?b ?c)] =>
      change (oid_elements (mkOid (Some l) a b c)) with l end.
    rewrite length_app, length_drop, length_replicate, length_take_le by lia.
    split; [|split; [done|]].
    + split; [lia|]. split; [lia|]. split; [lia|].
      apply Forall_app; split; [by apply Forall_take|].
      apply Forall_drop, Forall_replicate. unfold is_u32. lia.
    + rewrite !take_take. rewrite Nat.min_l by lia. rewrite take_app_le by (rewrite length_take; lia).
      rewrite take_take. f_equal. lia.
  - eexists. split; [done|]. unfold oid_list, oid_wf, oid_elements. cbn. fold (oid_elements o).
    split; [|split; [done|]]; [split; [lia|done]|].
    rewrite !take_take. f_equal. lia.
Qed.

Lemma TnmOidAppend_spec o v :
  oid_wf o -> oid_length o < oid_max -> oid_length o <> Z.of_nat TNM_OID_MAX_SIZE ->
  exists o', TnmOidAppend o v = Some (TCL_OK, o') /\ oid_wf o' /\
             oid_list o' = oid_list o ++ [u32 v].
Proof.
  intros Hwf Hmax Hne. pose proof Hwf as (Hl & _). unfold TnmOidAppend, TnmOidGetLength.
  rewrite bool_decide_eq_false_2 by done.
  destruct (TnmOidSetLength_spec o (oid_length o + 1)) as (o1 & -> & Hwf1 & Hl1 & Hp);
    [done|lia|]. pose proof Hwf1 as (? & ? & ? & ?).
  cbn [mbind option_bind]. rewrite TnmOidSet_spec by lia.
  eexists. split; [done|]. split.
  { apply oid_wf_set; [done|by rewrite length_insert|]. by apply Forall_insert, u32_range. }
  pose proof (oid_list_length o Hwf). pose proof (oid_list_length o1 Hwf1).
  unfold oid_list at 1. rewrite oid_length_set, oid_elements_set, Hl1.
  replace (Z.to_nat (oid_length o + 1)) with (S (Z.to_nat (oid_length o))) by lia.
  rewrite take_S_insert by lia. f_equal.
  rewrite (take_ge (oid_list o)) in Hp by lia. rewrite <- Hp.
  unfold oid_list. rewrite take_take. f_equal. lia.
Qed.

Lemma oid_copy_elements_spec n : forall i dst src,
  (i + n <= length (oid_elements src))%nat -> (i + n <= length (oid_elements dst))%nat ->
  Forall is_u32 (oid_elements src) ->
  oid_copy_elements n i dst src
  = Some (set_oid_elements dst (take i (oid_elements dst) ++ take n (drop i (oid_elements src))
                                ++ drop (i + n) (oid_elements dst))).
Proof.
  induction n as [|n IH]; intros i dst src Hs Hd Hu; cbn [oid_copy_elements].
  - rewrite Nat.add_0_r. simpl. by rewrite take_drop, set_oid_elements_id.
  - unfold TnmOidGet. destruct (lookup_lt_is_Some_2 (oid_elements src) i ltac:(lia)) as [x Hx].
    rewrite Hx. cbn [mbind option_bind]. rewrite TnmOidSet_spec by lia. cbn [mbind option_bind].
    rewrite IH by (rewrite ?oid_elements_set, ?length_insert; done || lia).
    rewrite u32_id by (by eapply Forall_lookup_1).
    rewrite set_oid_elements_set, oid_elements_set. do 2 f_equal.
    rewrite take_S_insert, drop_insert_lt by lia.
    rewrite (drop_S (oid_elements src) x i) by done. cbn [take app]. rewrite <- app_assoc.
    cbn [app]. by rewrite (Nat.add_succ_r i n).
Qed.

Lemma oid_wf_init : oid_wf TnmOidInit.
Proof. by_eval. Qed.

Lemma TnmOidCopy_spec dst src :
  oid_wf src -> oid_length src <= oid_max ->
  exists o, TnmOidCopy dst src = Some o /\ oid_wf o /\ oid_list o = oid_list src.
Proof.
  intros Hwf Hmax. pose proof Hwf as (? & ? & ? & ?).
  unfold TnmOidCopy, TnmOidGetLength.
  destruct (TnmOidSetLength_spec (TnmOidFree dst) (oid_length src)) as (o1 & -> & Hwf1 & Hl1 & _);
    [exact oid_wf_init|lia|]. pose proof Hwf1 as (? & ? & ? & ?).
  cbn [mbind option_bind]. rewrite oid_copy_elements_spec by (done || lia).
  rewrite take_0, drop_0, Nat.add_0_l, app_nil_l. eexists. split; [done|]. split.
  - apply oid_wf_set; [done|rewrite length_app, length_take, length_drop; lia|].
    apply Forall_app; split; [by apply Forall_take|by apply Forall_drop].
  - unfold oid_list at 1. rewrite oid_length_set, oid_elements_set, Hl1.
    rewrite take_app_le by (rewrite length_take; lia). unfold oid_list.
    rewrite take_take. f_equal. lia.
Qed.

(** *** The dotted notation as [TnmOidFromString] reads it *)

Lemma isdigit_range c : isdigit c = true -> 48 <= c <= 57.
Proof. unfold isdigit. intros ?%bool_decide_eq_true_1. done. Qed.

Lemma dotted_low l : Forall (fun c => c <= 57) (dotted l).
Proof.
  assert (H : forall v, Forall (fun c => c <= 57) (sprintf_u v)).
  { intros v. eapply Forall_impl; [apply sprintf_u_digits|]. intros c Hc%isdigit_range. lia. }
  induction l as [|v l IH]; [constructor|].
  destruct l; [apply H|]. rewrite dotted_cons by done.
  apply Forall_app. split; [apply H|]. constructor; [unfold chr_dot; lia|done].
Qed.

Lemma hex_prefix_dotted l : hex_prefix (dotted l) = None.
Proof.
  pose proof (dotted_low l) as H. destruct (dotted l) as [|c1 [|c2 s]]; [done..|].
  inversion_clear H as [|? ? ? H']. inversion_clear H'. simpl.
  rewrite (bool_decide_eq_false_2 (c2 = 120)) by lia. by rewrite andb_false_r.
Qed.

Lemma isdigit_cases c : isdigit c = true ->
  bool_decide (c = chr_dot) = false /\ bool_decide (c = chr_colon) = false.
Proof.
  intros ?%isdigit_range. unfold chr_dot, chr_colon.
  split; apply bool_decide_eq_false_2; lia.
Qed.

Lemma oid_scan_length_digits s : forall fuel rest len,
  Forall (fun c => isdigit c = true) s ->
  oid_scan_length (length s + fuel) (s ++ rest) len false = oid_scan_length fuel rest len false.
Proof.
  induction s as [|c s IH]; intros fuel rest len Hs; [done|].
  inversion_clear Hs as [|? ? Hc Hs']. destruct (isdigit_cases c Hc) as [E1 E2].
  cbn [length app Nat.add oid_scan_length]. rewrite E1, E2, Hc. simpl. by apply IH.
Qed.

Lemma oid_scan_length_dotted l : forall len, l <> [] ->
  oid_scan_length (length (dotted l)) (dotted l) len false
  = Some (len + Z.of_nat (length l) - 1).
Proof.
  induction l as [|v l IH]; intros len Hne; [done|]. destruct l as [|w l].
  - cbn [dotted]. rewrite <- (app_nil_r (sprintf_u v)) at 2.
    rewrite <- (Nat.add_0_r (length _)), oid_scan_length_digits by apply sprintf_u_digits.
    simpl. f_equal. lia.
  - rewrite dotted_cons, length_app, oid_scan_length_digits by (done || apply sprintf_u_digits).
    cbn [length oid_scan_length]. rewrite bool_decide_eq_true_2 by done.
    rewrite hex_prefix_dotted, IH by done. cbn [length]. f_equal. lia.
Qed.

Lemma oid_scan_values_digits s : forall fuel rest o i,
  Forall (fun c => isdigit c = true) s -> (i < length (oid_elements o))%nat ->
  oid_scan_values (length s + fuel) (s ++ rest) o i false
  = oid_scan_values fuel rest
      (set_oid_elements o (<[i := fold_dec s (oid_elements o !!! i)]> (oid_elements o))) i false.
Proof.
  induction s as [|c s IH]; intros fuel rest o i Hs Hi.
  - cbn [length app Nat.add]. unfold fold_dec. cbn [fold_left]. f_equal.
    destruct (lookup_lt_is_Some_2 _ i Hi) as [x Hx].
    by rewrite (list_lookup_total_correct _ _ _ Hx), list_insert_id, set_oid_elements_id.
  - inversion_clear Hs as [|? ? Hc Hs']. destruct (isdigit_cases c Hc) as [E1 E2].
    cbn [length app Nat.add oid_scan_values]. rewrite E1, E2. cbn [negb].
    unfold oid_push, TnmOidGet.
    destruct (lookup_lt_is_Some_2 _ i Hi) as [x Hx]. rewrite Hx. cbn [mbind option_bind].
    rewrite TnmOidSet_spec by done. cbn [mbind option_bind].
    rewrite IH by (rewrite ?oid_elements_set, ?length_insert; done).
    rewrite set_oid_elements_set, oid_elements_set, list_insert_insert_eq.
    rewrite list_lookup_total_insert_eq by done.
    by rewrite (list_lookup_total_correct _ _ _ Hx).
Qed.

Lemma oid_scan_values_dotted l : forall o pre z post,
  l <> [] -> Forall is_u32 l -> oid_elements o = pre ++ 0 :: z ++ post ->
  length z = (length l - 1)%nat ->
  oid_scan_values (length (dotted l)) (dotted l) o (length pre) false
  = Some (set_oid_elements o (pre ++ l ++ post)).
Proof.
  induction l as [|v l IH]; intros o pre z post Hne Hl He Hz; [done|].
  inversion_clear Hl as [|? ? Hv Hl'].
  assert (Hstep : forall fuel rest,
    oid_scan_values (length (sprintf_u v) + fuel) (sprintf_u v ++ rest) o (length pre) false
    = oid_scan_values fuel rest (set_oid_elements o (pre ++ v :: z ++ post)) (length pre) false).
  { intros fuel rest. rewrite oid_scan_values_digits
      by (first [apply sprintf_u_digits | rewrite He, length_app; cbn [length]; lia]).
    rewrite He, (list_lookup_total_correct _ _ _ (lookup_app_mid pre 0 (z ++ post))).
    unfold fold_dec. rewrite sprintf_u_fold32 by done. by rewrite insert_app_mid. }
  destruct l as [|w l].
  - destruct z; [|done]. cbn [dotted]. rewrite <- (app_nil_r (sprintf_u v)) at 2.
    rewrite <- (Nat.add_0_r (length _)), Hstep. done.
  - destruct z as [|z0 z]; [simpl in Hz; lia|].
    rewrite dotted_cons, length_app, Hstep by done.
    cbn [length oid_scan_values]. rewrite bool_decide_eq_true_2 by done.
    rewrite TnmOidSet_spec
      by (rewrite oid_elements_set, length_app; cbn [length app]; lia).
    cbn [mbind option_bind]. rewrite set_oid_elements_set, oid_elements_set.
    replace (pre ++ v :: (z0 :: z) ++ post) with ((pre ++ [v]) ++ z0 :: z ++ post) by (by app_norm).
    replace (S (length pre)) with (length (pre ++ [v])) by (rewrite length_app; simpl; lia).
    rewrite insert_app_mid, hex_prefix_dotted.
    rewrite (IH _ (pre ++ [v]) z post) by
      (done || (by rewrite oid_elements_set) || (cbn [length] in *; lia)).
    rewrite set_oid_elements_set. by app_norm.
Qed.

(** The space [TnmOidFromString] makes available for [len] subidentifiers. *)
Lemma oid_fresh_space o len : 0 <= len <= Z.of_nat TNM_OID_MAX_SIZE ->
  exists o1 n,
    (if bool_decide (oid_spaceAvl (TnmOidFree o) < len)
     then TnmOidSetLength (TnmOidFree o) len else Some (TnmOidFree o)) = Some o1 /\
    oid_elements o1 = replicate n 0 /\ len <= oid_spaceAvl o1 <= Z.of_nat n /\
    oid_spaceAvl o1 < 32768.
Proof.
  intros Hlen. unfold TNM_OID_MAX_SIZE in Hlen.
  case_bool_decide as Hc; cbn [oid_spaceAvl TnmOidFree] in Hc.
  - unfold TnmOidSetLength. rewrite bool_decide_eq_true_2 by done.
    cbn [TnmOidFree oid_length]. rewrite Z.min_r by lia. simpl Z.to_nat. cbn [oid_copy_loop].
    cbn [mbind option_bind]. eexists _, _. split; [done|]. cbn [oid_spaceAvl].
    change (Z.of_nat TNM_OID_STATIC_SIZE) with 16. rewrite !s16_id by lia.
    split; [reflexivity|]. lia.
  - exists (TnmOidFree o), 16%nat. split; [done|]. split; [done|].
    cbn [oid_spaceAvl TnmOidFree]. unfold TNM_OID_STATIC_SIZE in *. lia.
Qed.

(** A structure that holds [l] at the start of zeroed space. *)
Lemma oid_filled o l n : 0 <= Z.of_nat (length l) <= oid_spaceAvl o ->
  oid_spaceAvl o < 32768 -> oid_spaceAvl o <= Z.of_nat n -> Forall is_u32 l ->
  let o' := set_oid_length (set_oid_elements o (l ++ replicate (n - length l) 0))
              (Z.of_nat (length l)) in
  oid_elements o' = l ++ replicate (n - length l) 0 /\ oid_length o' = Z.of_nat (length l) /\
  oid_wf o' /\ oid_list o' = l.
Proof.
  intros Hlen Hs Hn Hl o'.
  assert (He : oid_elements o' = l ++ replicate (n - length l) 0)
    by (unfold o', set_oid_length, set_oid_elements; by destruct (oid_heap o)).
  assert (Ho : oid_length o' = Z.of_nat (length l)) by (apply s16_id; lia).
  assert (Hs' : oid_spaceAvl o' = oid_spaceAvl o) by apply oid_spaceAvl_set.
  split; [done|]. split; [done|]. unfold oid_wf, oid_list.
  rewrite He, Ho, Hs', Nat2Z.id, take_app_length, length_app, length_replicate.
  split; [|done]. split; [lia|]. split; [lia|]. split; [lia|].
  apply Forall_app. split; [done|]. apply Forall_replicate. unfold is_u32. lia.
Qed.

Lemma TnmOidFromString_dotted o l : oid_value l ->
  exists o', TnmOidFromString o (dotted l) = Some (TCL_OK, o') /\ oid_wf o' /\ oid_list o' = l.
Proof.
  intros (Hlen & Hl & H0). assert (l <> []) as Hne by (intros ->; simpl in Hlen; lia).
  unfold TnmOidFromString. rewrite bool_decide_eq_false_2
    by (destruct (dotted_head l Hne) as (c & s & -> & _); done).
  rewrite oid_scan_length_dotted by done.
  replace (1 + Z.of_nat (length l) - 1) with (Z.of_nat (length l)) by lia.
  rewrite bool_decide_eq_false_2 by lia.
  destruct (oid_fresh_space o (Z.of_nat (length l))) as (o1 & n & -> & He & Hsp & Hsp'); [lia|].
  cbn [mbind option_bind].
  pose proof (oid_scan_values_dotted l o1 [] (replicate (length l - 1) 0)
    (replicate (n - length l) 0) Hne Hl) as Hs.
  cbn [length app] in Hs. rewrite Hs;
    [|rewrite He, <- replicate_add, <- replicate_S; f_equal; lia|by rewrite length_replicate].
  cbn [mbind option_bind].
  destruct (oid_filled o1 l n) as (He2 & Hl2 & Hwf & Hlist); [lia..|done|].
  set (o2 := set_oid_length _ _) in *.
  unfold TnmOidGet. rewrite He2. destruct l as [|v l]; [done|].
  change (((v :: l) ++ replicate (n - length (v :: l)) 0) !! 0%nat) with (Some v).
  cbn [mbind option_bind]. rewrite Hl2.
  rewrite bool_decide_eq_false_2, bool_decide_eq_false_2 by (cbn in H0; lia).
  eexists. done.
Qed.

(** ** Comparison *)

(** The lexicographic order on lists of subidentifiers, as a sign. *)
Fixpoint lex (l1 l2 : list Z) : Z :=
  match l1, l2 with
  | [], [] => 0
  | [], _ :: _ => -1
  | _ :: _, [] => 1
  | x :: l1, y :: l2 => if bool_decide (x < y) then -1 else if bool_decide (y < x) then 1 else lex l1 l2
  end.

Lemma lex_refl l : lex l l = 0.
Proof. induction l as [|x l IH]; simpl; [done|]. rewrite bool_decide_eq_false_2 by lia. done. Qed.

Lemma lex_eq l1 : forall l2, lex l1 l2 = 0 -> l1 = l2.
Proof.
  induction l1 as [|x l1 IH]; intros [|y l2]; simpl; try done.
  repeat case_bool_decide; try done. intros ?%IH. f_equal; [lia|done].
Qed.

Lemma lex_opp l1 : forall l2, lex l2 l1 = - lex l1 l2.
Proof.
  induction l1 as [|x l1 IH]; intros [|y l2]; simpl; try done.
  repeat case_bool_decide; try done; lia.
Qed.

Lemma lex_trans l1 : forall l2 l3, lex l1 l2 = -1 -> lex l2 l3 = -1 -> lex l1 l3 = -1.
Proof.
  induction l1 as [|x l1 IH]; intros [|y l2] [|z l3]; simpl; try done.
  repeat case_bool_decide; try done; try lia. apply IH.
Qed.

Lemma lex_range l1 : forall l2, lex l1 l2 = -1 \/ lex l1 l2 = 0 \/ lex l1 l2 = 1.
Proof.
  induction l1 as [|x l1 IH]; intros [|y l2]; simpl; try (by auto).
  repeat case_bool_decide; auto.
Qed.

Lemma oid_compare_loop_spec n : forall i o1 o2,
  (i + n = Z.to_nat (oid_length o1 `min` oid_length o2))%nat -> oid_wf o1 -> oid_wf o2 ->
  (r ← oid_compare_loop n i o1 o2;
   if bool_decide (r = 0) then
     if bool_decide (oid_length o1 = oid_length o2) then Some 0
     else Some (if bool_decide (oid_length o1 < oid_length o2) then -1 else 1)
   else Some r) = Some (lex (drop i (oid_list o1)) (drop i (oid_list o2))).
Proof.
  induction n as [|n IH]; intros i o1 o2 Hi H1 H2;
    pose proof (oid_list_length o1 H1); pose proof (oid_list_length o2 H2);
    destruct H1 as (? & ?), H2 as (? & ?); cbn [oid_compare_loop].
  - cbn [mbind option_bind]. rewrite (bool_decide_eq_true_2 (0 = 0)) by done.
    assert (length (drop i (oid_list o1)) = Z.to_nat (oid_length o1) - i)%nat as L1
      by (rewrite length_drop; lia).
    assert (length (drop i (oid_list o2)) = Z.to_nat (oid_length o2) - i)%nat as L2
      by (rewrite length_drop; lia).
    repeat case_bool_decide;
      destruct (drop i (oid_list o1)), (drop i (oid_list o2)); simpl in *; try done; lia.
  - assert (i < length (oid_list o1))%nat as [x Hx]%lookup_lt_is_Some_2 by lia.
    assert (i < length (oid_list o2))%nat as [y Hy]%lookup_lt_is_Some_2 by lia.
    rewrite !oid_list_lookup, Hx, Hy by lia. cbn [mbind option_bind].
    rewrite (drop_S _ _ _ Hx), (drop_S _ _ _ Hy). cbn [lex].
    destruct (bool_decide (x < y)) eqn:?; [done|].
    destruct (bool_decide (y < x)) eqn:?; [done|]. apply IH; [lia|done..].
Qed.

Lemma TnmOidCompare_spec o1 o2 : oid_wf o1 -> oid_wf o2 ->
  TnmOidCompare o1 o2 = Some (lex (oid_list o1) (oid_list o2)).
Proof.
  intros. unfold TnmOidCompare. by rewrite (oid_compare_loop_spec _ 0) by (done || lia).
Qed.

Lemma oid_in_tree_loop_spec n : forall i tree o,
  (i + n = Z.to_nat (oid_length tree))%nat -> oid_length tree <= oid_length o ->
  oid_wf tree -> oid_wf o ->
  oid_in_tree_loop n i tree o
  = Some (bool_decide (drop i (oid_list tree) `prefix_of` drop i (oid_list o))).
Proof.
  induction n as [|n IH]; intros i tree o Hi Hle H1 H2;
    pose proof (oid_list_length tree H1); pose proof (oid_list_length o H2);
    pose proof H1 as (? & _); cbn [oid_in_tree_loop].
  - rewrite bool_decide_eq_true_2; [done|]. rewrite drop_ge by lia. apply prefix_nil.
  - assert (i < length (oid_list tree))%nat as [y Hy]%lookup_lt_is_Some_2 by lia.
    assert (i < length (oid_list o))%nat as [x Hx]%lookup_lt_is_Some_2 by lia.
    rewrite !oid_list_lookup, Hx, Hy by lia. cbn [mbind option_bind].
    rewrite (drop_S _ _ _ Hx), (drop_S _ _ _ Hy). case_bool_decide.
    + rewrite bool_decide_eq_false_2; [done|]. intros Hp%prefix_cons_inv_1. done.
    + assert (x = y) as -> by (by destruct (decide (x = y))).
      rewrite IH by (done || lia). f_equal. apply bool_decide_ext.
      split; [apply prefix_cons|apply prefix_cons_inv_2].
Qed.

Lemma TnmOidInTree_spec tree o : oid_wf tree -> oid_wf o ->
  TnmOidInTree tree o = Some (bool_decide (oid_list tree `prefix_of` oid_list o)).
Proof.
  intros H1 H2. unfold TnmOidInTree. case_bool_decide.
  - rewrite bool_decide_eq_false_2; [done|]. intros Hp%prefix_length.
    rewrite !oid_list_length in Hp by done. destruct H1, H2. lia.
  - by rewrite (oid_in_tree_loop_spec _ 0) by (done || lia).
Qed.

Lemma lex_prefix l1 l2 : l1 `prefix_of` l2 -> lex l1 l2 <= 0.
Proof.
  intros [k ->]. induction l1 as [|x l1 IH]; simpl; [by destruct k|].
  rewrite bool_decide_eq_false_2 by lia. done.
Qed.

(** ** Properties *)

(** [TnmOid] implements a list of subidentifiers: an initialised identifier
    is empty, [TnmOidAppend] adds at the end (or reports [TCL_ERROR] and changes
    nothing at the maximum length), [TnmOidCopy] makes an equal identifier and
    [TnmOidSetLength] keeps the common prefix, all without leaving the
    allocated space and keeping the structure well formed. *)
Theorem oid_storage_refines o dst v len :
  oid_wf o -> oid_length o < oid_max -> 0 <= len <= oid_max ->
  (oid_wf TnmOidInit /\ oid_list TnmOidInit = []) /\
  (exists c o', TnmOidAppend o v = Some (c, o') /\ oid_wf o' /\
     match c with
     | TCL_OK => oid_list o' = oid_list o ++ [u32 v]
     | TCL_ERROR => length (oid_list o) = TNM_OID_MAX_SIZE /\ o' = o
     end) /\
  (exists o', TnmOidCopy dst o = Some o' /\ oid_wf o' /\ oid_list o' = oid_list o) /\
  (exists o', TnmOidSetLength o len = Some o' /\ oid_wf o' /\
     Z.of_nat (length (oid_list o')) = len /\
     take (length (oid_list o)) (oid_list o') = take (Z.to_nat len) (oid_list o)).
Proof.
  intros Hwf Hmax Hlen. split; [split; [exact oid_wf_init|done]|]. split; [|split].
  - destruct (decide (oid_length o = Z.of_nat TNM_OID_MAX_SIZE)) as [E|E].
    + exists TCL_ERROR, o. unfold TnmOidAppend, TnmOidGetLength.
      rewrite bool_decide_eq_true_2 by done. rewrite oid_list_length, E, Nat2Z.id by done. done.
    + destruct (TnmOidAppend_spec o v Hwf Hmax E) as (o' & ? & ? & ?). by exists TCL_OK, o'.
  - apply TnmOidCopy_spec; [done|lia].
  - destruct (TnmOidSetLength_spec o len Hwf Hlen) as (o' & ? & ? & ? & ?).
    exists o'. rewrite !oid_list_length by done. subst. split; [done|]. split; [done|].
    split; [lia|done].
Qed.

Lemma oid_storage_refines_witness :
  exists o', TnmOidCopy TnmOidInit TnmOidInit = Some o' /\ oid_wf o' /\
             oid_list o' = oid_list TnmOidInit.
Proof.
  apply (oid_storage_refines TnmOidInit TnmOidInit 7 20); [by_eval|by_eval|].
  by_eval.
Defined.

(** [TnmOidFromString] reads what [TnmOidToString] prints: into any
    structure, without leaving its space, as an identifier [TnmOidCompare] calls
    equal. *)
Theorem oid_string_roundtrip o dst :
  oid_wf o -> oid_value (oid_list o) -> (length (dotted (oid_list o)) < OID_STR_SIZE)%nat ->
  exists s o', TnmOidToString o = Some s /\ TnmOidFromString dst s = Some (TCL_OK, o') /\
    oid_wf o' /\ oid_list o' = oid_list o /\ TnmOidCompare o o' = Some 0.
Proof.
  intros Hwf Hv Hfit. pose proof Hwf as (? & ? & ? & ?).
  destruct (TnmOidFromString_dotted dst _ Hv) as (o' & Hf & Hwf' & Hl').
  exists (dotted (oid_list o)), o'. split; [|split; [done|]].
  - unfold TnmOidToString. rewrite oid_to_str_spec by (done || lia).
    fold (oid_list o). by rewrite decide_True.
  - split; [done|]. split; [done|].
    rewrite TnmOidCompare_spec, Hl', lex_refl by done. done.
Qed.

(** 1.3.6.1 in the static space. *)
Definition oid_internet : TnmOid := mkOid None 4 16 ([1; 3; 6; 1] ++ replicate 12 0).

Lemma oid_string_roundtrip_witness :
  exists s o', TnmOidToString oid_internet = Some s /\
    TnmOidFromString TnmOidInit s = Some (TCL_OK, o') /\
    oid_wf o' /\ oid_list o' = oid_list oid_internet /\ TnmOidCompare oid_internet o' = Some 0.
Proof.
  apply (oid_string_roundtrip oid_internet TnmOidInit); [by_eval|by_eval|vm_compute; lia].
Defined.

(** [TnmOidCompare] is a total order on object identifiers, the
    lexicographic one: it always answers -1, 0 or 1; 0 means equal
    subidentifiers; exchanging the arguments changes the sign; "less" is
    transitive. *)
Theorem oid_compare_order o1 o2 o3 :
  oid_wf o1 -> oid_wf o2 -> oid_wf o3 ->
  (exists r, TnmOidCompare o1 o2 = Some r /\ TnmOidCompare o2 o1 = Some (- r) /\
     (r = -1 \/ r = 0 \/ r = 1) /\ (r = 0 <-> oid_list o1 = oid_list o2) /\
     r = lex (oid_list o1) (oid_list o2)) /\
  (TnmOidCompare o1 o2 = Some (-1) -> TnmOidCompare o2 o3 = Some (-1) ->
   TnmOidCompare o1 o3 = Some (-1)).
Proof.
  intros. rewrite !TnmOidCompare_spec by done. split.
  - eexists. split; [done|]. split; [by rewrite lex_opp|]. split; [apply lex_range|].
    split; [|done]. split; [apply lex_eq|]. intros ->. apply lex_refl.
  - intros [= E12] [= E23]. f_equal. by eapply lex_trans.
Qed.

Lemma oid_compare_order_witness :
  exists r, TnmOidCompare oid_internet TnmOidInit = Some r /\
            TnmOidCompare TnmOidInit oid_internet = Some (- r) /\ r = 1.
Proof.
  destruct (oid_compare_order oid_internet TnmOidInit TnmOidInit) as [(r & H1 & H2 & _ & _ & H3) _];
    [by_eval|by_eval|by_eval|]. exists r. repeat split; [exact H1|exact H2|]. rewrite H3. reflexivity.
Defined.

(** [TnmOidInTree] holds exactly when the subidentifiers of the tree are a
    prefix of those of the identifier, and members of a tree never compare
    below its root. *)
Theorem oid_in_tree_prefix tree o :
  oid_wf tree -> oid_wf o ->
  exists b, TnmOidInTree tree o = Some b /\
    (b = true <-> oid_list tree `prefix_of` oid_list o) /\
    (b = true -> TnmOidCompare o tree <> Some (-1)).
Proof.
  intros. rewrite TnmOidInTree_spec, TnmOidCompare_spec by done. eexists. split; [done|].
  rewrite bool_decide_eq_true. split; [done|]. intros Hp%lex_prefix.
  rewrite lex_opp. intros [= E]. lia.
Qed.

Lemma oid_in_tree_prefix_witness :
  exists b, TnmOidInTree TnmOidInit oid_internet = Some b /\
    (b = true <-> oid_list TnmOidInit `prefix_of` oid_list oid_internet) /\
    (b = true -> TnmOidCompare oid_internet TnmOidInit <> Some (-1)).
Proof. apply (oid_in_tree_prefix TnmOidInit oid_internet); by_eval. Defined.

(** *** Arbitrary strings *)

Lemma oid_scan_length_le fuel : forall str n h len,
  oid_scan_length fuel str n h = Some len -> n <= len.
Proof.
  induction fuel as [|fuel IH]; intros [|c rest] n h len; cbn [oid_scan_length];
    try (intros [= <-]; lia).
  repeat (case_bool_decide || case_match); intros Hq; try done; try apply IH in Hq; lia.
Qed.

(** A store into the elements keeps their number and range. *)
Lemma TnmOidSet_inv o i v : (i < length (oid_elements o))%nat -> Forall is_u32 (oid_elements o) ->
  exists o', TnmOidSet o i v = Some o' /\ length (oid_elements o') = length (oid_elements o) /\
    Forall is_u32 (oid_elements o') /\ oid_spaceAvl o' = oid_spaceAvl o.
Proof.
  intros. rewrite TnmOidSet_spec by done. eexists. split; [done|].
  rewrite oid_elements_set, length_insert, oid_spaceAvl_set.
  split; [done|]. split; [|done]. by apply Forall_insert, u32_range.
Qed.

Lemma oid_push_inv o i f : (i < length (oid_elements o))%nat -> Forall is_u32 (oid_elements o) ->
  exists o', oid_push o i f = Some o' /\ length (oid_elements o') = length (oid_elements o) /\
    Forall is_u32 (oid_elements o') /\ oid_spaceAvl o' = oid_spaceAvl o.
Proof.
  intros Hi ?. unfold oid_push, TnmOidGet.
  destruct (lookup_lt_is_Some_2 _ i Hi) as [x ->]. by apply TnmOidSet_inv.
Qed.

(** The second scan stores within the number of subidentifiers the first one
    counted, whatever the two make of the hexadecimal flag. *)
Lemma oid_scan_values_safe fuel : forall str n h len o i h',
  oid_scan_length fuel str n h = Some len ->
  Z.of_nat i + 1 + (len - n) <= Z.of_nat (length (oid_elements o)) ->
  Forall is_u32 (oid_elements o) ->
  exists o', oid_scan_values fuel str o i h' = Some o' /\
    length (oid_elements o') = length (oid_elements o) /\
    Forall is_u32 (oid_elements o') /\ oid_spaceAvl o' = oid_spaceAvl o.
Proof.
  induction fuel as [|fuel IH]; intros str n h len o i h' Hlen Hi Hu;
    [by exists o|]. destruct str as [|c rest]; [by exists o|].
  cbn [oid_scan_length] in Hlen. cbn [oid_scan_values].
  assert (Hsep : forall str' hn hv, oid_scan_length fuel str' (n + 1) hn = Some len ->
    exists o', (o ← TnmOidSet o (S i) 0; oid_scan_values fuel str' o (S i) hv) = Some o' /\
      length (oid_elements o') = length (oid_elements o) /\
      Forall is_u32 (oid_elements o') /\ oid_spaceAvl o' = oid_spaceAvl o).
  { intros str' hn hv E. pose proof (oid_scan_length_le _ _ _ _ _ E).
    destruct (TnmOidSet_inv o (S i) 0) as (o1 & -> & L1 & U1 & S1); [lia|done|].
    rewrite <- L1, <- S1. cbn [mbind option_bind]. eapply IH; [done|lia|done]. }
  assert (Hdig : forall f, oid_scan_length fuel rest n h = Some len ->
    exists o', (o ← oid_push o i f; oid_scan_values fuel rest o i h') = Some o' /\
      length (oid_elements o') = length (oid_elements o) /\
      Forall is_u32 (oid_elements o') /\ oid_spaceAvl o' = oid_spaceAvl o).
  { intros f E. pose proof (oid_scan_length_le _ _ _ _ _ E).
    destruct (oid_push_inv o i f) as (o1 & -> & L1 & U1 & S1); [lia|done|].
    rewrite <- L1, <- S1. cbn [mbind option_bind]. eapply IH; [done|lia|done]. }
  case_bool_decide.
  - destruct (hex_prefix rest); by eapply Hsep.
  - case_bool_decide; [by eapply Hsep|].
    destruct (h && negb (isxdigit c)), (negb h && negb (isdigit c)); try done.
    destruct (negb h'); by apply Hdig.
Qed.

Lemma is_oid_scan_length fuel : forall str n h hi,
  is_oid_loop fuel str hi = true -> (hi = true -> h = true) ->
  is_Some (oid_scan_length fuel str n h).
Proof.
  assert (Hx : forall c, isdigit c = true -> isxdigit c = true).
  { intros c. unfold isdigit, isxdigit. by intros ->. }
  induction fuel as [|fuel IH]; intros [|c rest] n h hi H Hh; try by eexists.
  cbn [is_oid_loop oid_scan_length] in *. case_bool_decide.
  { destruct (hex_prefix rest); eapply IH; done. }
  case_bool_decide; [by eapply IH|].
  destruct hi; [rewrite (Hh eq_refl) in *|destruct h]; cbn [andb negb] in *;
    destruct (isxdigit c) eqn:Ex, (isdigit c) eqn:Ed; cbn [andb negb] in *; try done;
    try (by eapply IH); rewrite Hx in Ex; done.
Qed.

Lemma is_oid_digits s : forall fuel rest, Forall (fun c => isdigit c = true) s ->
  is_oid_loop (length s + fuel) (s ++ rest) false = is_oid_loop fuel rest false.
Proof.
  induction s as [|c s IH]; intros fuel rest Hs; [done|].
  inversion_clear Hs as [|? ? Hc Hs']. destruct (isdigit_cases c Hc) as [E1 E2].
  cbn [length app Nat.add is_oid_loop]. rewrite E1, E2, Hc. simpl. by apply IH.
Qed.

Lemma is_oid_dotted l : TnmIsOid (dotted l) = true.
Proof.
  unfold TnmIsOid. induction l as [|v l IH]; [done|]. destruct l as [|w l].
  - cbn [dotted]. rewrite <- (app_nil_r (sprintf_u v)) at 2.
    by rewrite <- (Nat.add_0_r (length _)), is_oid_digits by apply sprintf_u_digits.
  - rewrite dotted_cons, length_app, is_oid_digits by (done || apply sprintf_u_digits).
    cbn [length is_oid_loop]. rewrite bool_decide_eq_true_2 by done. by rewrite hex_prefix_dotted, IH.
Qed.

Lemma TnmOidFromString_safe o str :
  exists c o', TnmOidFromString o str = Some (c, o') /\ oid_wf o'.
Proof.
  unfold TnmOidFromString. case_bool_decide; [eexists _, _; split; [done|exact oid_wf_init]|].
  destruct (oid_scan_length _ _ _ _) as [len|] eqn:E;
    [|eexists _, _; split; [done|exact oid_wf_init]].
  case_bool_decide; [eexists _, _; split; [done|exact oid_wf_init]|].
  pose proof (oid_scan_length_le _ _ _ _ _ E).
  destruct (oid_fresh_space o len) as (o1 & n & -> & He & Hsp & Hsp'); [lia|].
  cbn [mbind option_bind].
  destruct (oid_scan_values_safe _ _ _ _ _ o1 0 false E) as (o2 & -> & L2 & U2 & S2);
    [rewrite He, length_replicate; lia
    |rewrite He; apply Forall_replicate; unfold is_u32; lia|].
  cbn [mbind option_bind]. rewrite He, length_replicate in L2.
  assert (Hwf : oid_wf (set_oid_length o2 len)).
  { unfold oid_wf. change (oid_elements (set_oid_length o2 len)) with (oid_elements o2).
    unfold set_oid_length. cbn [oid_length oid_spaceAvl].
    rewrite s16_id, S2 by lia. split; [lia|]. split; [lia|]. split; [lia|done]. }
  destruct (lookup_lt_is_Some_2 (oid_elements o2) 0 ltac:(lia)) as [e0 He0].
  change (TnmOidGet (set_oid_length o2 len) 0) with (oid_elements o2 !! 0%nat). rewrite He0.
  cbn [mbind option_bind].
  destruct (_ || _); eexists _, _; (split; [done|]); [exact oid_wf_init|done].
Qed.

(** [TnmOidFromString] is safe on every string: it answers [TCL_OK] or
    [TCL_ERROR] without storing outside the space it prepared and leaves a well
    formed identifier; strings that [TnmIsOid] accepts pass its scan.  The
    converse fails, since the scan does not leave hexadecimal mode at a dot:
    "1.0xf.a", which [TnmIsOid] rejects, is read as 1.15.49. *)
Theorem oid_from_string_safe o str :
  (exists c o', TnmOidFromString o str = Some (c, o') /\ oid_wf o') /\
  (TnmIsOid str = true -> is_Some (oid_scan_length (length str) str 1 false)) /\
  TnmIsOid (cstr "1.0xf.a") = false /\
  (exists o', TnmOidFromString TnmOidInit (cstr "1.0xf.a") = Some (TCL_OK, o') /\
              oid_list o' = [1; 15; 49]).
Proof.
  split; [|split; [|split; [by vm_compute|]]].
  - apply TnmOidFromString_safe.
  - intros H. by eapply is_oid_scan_length.
  - eexists. split; [by vm_compute|done].
Qed.
