(* ===== verification/Util.v ===== *)
(** The utility procedures of [src/tnm/generic/tnmUtil.c]: key/value tables,
    object configuration, growable vectors, octet strings in hexadecimal,
    host names and addresses, attributes, handles and tags.

    Procedures of Tcl and of the resolver are parameters of the sections that
    use them.  Error messages left in the interpreter are not part of the state;
    the result codes are. *)

From stdpp Require Import gmap.
From S2P Require Import Prelude CStr.
Local Open Scope Z_scope.
Local Open Scope cint_scope.

(** ** Tables *)

(** The entry with a [NULL] value that ends the C array is the end of the
    list. *)
Record TnmTableElem := mkElem { elem_key : Z; elem_value : cstring }.
Definition TnmTable : Type := list TnmTableElem.

Fixpoint TnmGetTableValue (table : TnmTable) (key : Z) : option cstring :=
  match table with
  | [] => None
  | e :: table => if bool_decide (elem_key e = key) then Some (elem_value e) else TnmGetTableValue table key
  end.

(** The key is unsigned and the result an [int]. *)
Fixpoint TnmGetTableKey (table : TnmTable) (value : cstring) : Z :=
  match table with
  | [] => -1
  | e :: table => if bool_decide (value = elem_value e) then s32 (elem_key e) else TnmGetTableKey table value
  end.

(** The number of bytes [TnmGetTableValues] makes available. *)
Definition table_values_count (table : TnmTable) : nat :=
  fold_left (fun cnt e => cnt + (length (elem_value e) + 2))%nat table 8%nat.

(** [p] is what was written so far; [p != buffer] means that it is not empty. *)
Fixpoint table_values_loop (table : TnmTable) (p : cstring) : cstring :=
  match table with
  | [] => p
  | e :: next =>
      let p := match p with
               | [] => p
               | _ => let p := p ++ cstr ", " in
                      match next with [] => p ++ cstr "or " | _ => p end
               end in
      table_values_loop next (p ++ elem_value e)
  end.

Definition TnmGetTableValues (table : TnmTable) : cstring := table_values_loop table [].

Section string_match.
(** [Tcl_StringMatch(string, pattern)] *)
Variable Tcl_StringMatch : cstring -> cstring -> bool.

(** [if (pattern && ! Tcl_StringMatch(name, pattern)) continue;] *)
Definition pattern_ok (pattern : option cstring) (name : cstring) : bool :=
  match pattern with None => true | Some pattern => Tcl_StringMatch name pattern end.

(** [pattern == NULL] is [None]; the elements are appended to the list. *)
Fixpoint TnmListFromTable (table : TnmTable) (listPtr : list cstring) (pattern : option cstring)
    : list cstring :=
  match table with
  | [] => listPtr
  | e :: table =>
      match pattern with
      | Some pat =>
          if Tcl_StringMatch (elem_value e) pat
          then TnmListFromTable table (listPtr ++ [elem_value e]) pattern
          else TnmListFromTable table listPtr pattern
      | None => TnmListFromTable table (listPtr ++ [elem_value e]) pattern
      end
  end.

(** [for (j = 0; j < tagLen && !match; j++)] *)
Fixpoint match_tags_inner (tags : list cstring) (pat : cstring) : bool :=
  match tags with
  | [] => false
  | t :: tags => if Tcl_StringMatch t pat then true else match_tags_inner tags pat
  end.

Fixpoint match_tags_outer (tags pats : list cstring) : Z :=
  match pats with
  | [] => 1
  | pat :: pats => if match_tags_inner tags pat then match_tags_outer tags pats else 0
  end.

(** A Tcl object that is not a valid list is [None]. *)
Definition TnmMatchTags (tagList patternList : option (list cstring)) : Z :=
  match tagList, patternList with
  | Some tags, Some pats => match_tags_outer tags pats
  | _, _ => -1
  end.
End string_match.

(** ** Object configuration *)

Section config.
Context {Object Value : Type}.

(** [setOption] returns the object it leaves behind in either case. *)
Record TnmConfig := mkConfig {
  optionTable : TnmTable;
  setOption : Object -> Z -> Value -> tcl_code * Object;
  getOption : Object -> Z -> option Value
}.

(** [TnmGetTableKeyFromObj]; the error message is not modelled. *)
Definition TnmGetTableKeyFromObj (table : TnmTable) (name : cstring) : Z := TnmGetTableKey table name.

Fixpoint set_config_scan (config : TnmConfig) (args : list (cstring * Value)) : bool :=
  match args with
  | [] => true
  | (name, _) :: args =>
      if bool_decide (TnmGetTableKeyFromObj (optionTable config) name < 0) then false
      else set_config_scan config args
  end.

Fixpoint set_config_apply (config : TnmConfig) (object : Object) (args : list (cstring * Value))
    : tcl_code * Object :=
  match args with
  | [] => (TCL_OK, object)
  | (name, v) :: args =>
      match setOption config object (TnmGetTableKeyFromObj (optionTable config) name) v with
      | (TCL_OK, object) => set_config_apply config object args
      | (TCL_ERROR, object) => (TCL_ERROR, object)
      end
  end.

Fixpoint config_list (config : TnmConfig) (object : Object) (table : TnmTable)
    : list (cstring * Value) :=
  match table with
  | [] => []
  | e :: table =>
      match getOption config object (s32 (elem_key e)) with
      | Some v => (elem_value e, v) :: config_list config object table
      | None => config_list config object table
      end
  end.

(** The arguments after the first two words of the command, in pairs; an odd
    number of words is [None].  The results are the code, the object and the
    option list left in the interpreter. *)
Definition TnmSetConfig (config : TnmConfig) (object : Object)
    (args : option (list (cstring * Value))) : tcl_code * Object * list (cstring * Value) :=
  match args with
  | None => (TCL_ERROR, object, [])
  | Some args =>
      if set_config_scan config args then
        match set_config_apply config object args with
        | (TCL_OK, object) => (TCL_OK, object, config_list config object (optionTable config))
        | (TCL_ERROR, object) => (TCL_ERROR, object, [])
        end
      else (TCL_ERROR, object, [])
  end.

(** [objc != 3] is [None]. *)
Definition TnmGetConfig (config : TnmConfig) (object : Object) (arg : option cstring)
    : tcl_code * option Value :=
  match arg with
  | None => (TCL_ERROR, None)
  | Some name =>
      let option := TnmGetTableKeyFromObj (optionTable config) name in
      if bool_decide (option < 0) then (TCL_ERROR, None)
      else match getOption config object option with
           | None => (TCL_ERROR, None)
           | Some v => (TCL_OK, Some v)
           end
  end.
End config.
Arguments TnmConfig : clear implicits.

(** ** Vectors *)

(** [ClientData] values are addresses; 0 is [NULL].  As for [TnmOid],
    [vec_heap] is the block [elements] points to when it is not the static
    space, and [None] results are accesses outside the block. *)
Definition TNM_VECTOR_STATIC_SIZE : nat := 8.

Record TnmVector := mkVec {
  vec_heap : option (list Z);
  vec_size : Z;
  vec_spaceAvl : Z;
  vec_static : list Z
}.

Definition vec_elements (v : TnmVector) : list Z := default (vec_static v) (vec_heap v).

Definition set_vec_elements (v : TnmVector) (l : list Z) : TnmVector :=
  match vec_heap v with
  | Some _ => mkVec (Some l) (vec_size v) (vec_spaceAvl v) (vec_static v)
  | None => mkVec None (vec_size v) (vec_spaceAvl v) l
  end.

Definition set_vec_size (v : TnmVector) (n : Z) : TnmVector :=
  mkVec (vec_heap v) n (vec_spaceAvl v) (vec_static v).

Definition vec_get (v : TnmVector) (i : nat) : option Z := vec_elements v !! i.

Definition vec_set (v : TnmVector) (i : nat) (x : Z) : option TnmVector :=
  if decide (i < length (vec_elements v))%nat
  then Some (set_vec_elements v (<[i := x]> (vec_elements v))) else None.

Definition TnmVectorInit : TnmVector :=
  mkVec None 0 (Z.of_nat TNM_VECTOR_STATIC_SIZE) (replicate (TNM_VECTOR_STATIC_SIZE + 1) 0).

Definition TnmVectorFree (v : TnmVector) : TnmVector :=
  mkVec None 0 (Z.of_nat TNM_VECTOR_STATIC_SIZE) (replicate (TNM_VECTOR_STATIC_SIZE + 1) 0).

(** [for (i = 0; i < n; i++) dst[i] = src[i];] from index [i]. *)
Fixpoint vec_copy_loop (n i : nat) (src dst : list Z) : option (list Z) :=
  match n with
  | O => Some dst
  | S n =>
      x ← src !! i;
      if decide (i < length dst)%nat then vec_copy_loop n (S i) src (<[i := x]> dst) else None
  end.

Definition vec_grow (v : TnmVector) : option TnmVector :=
  let spaceAvl := vec_spaceAvl v + Z.of_nat TNM_VECTOR_STATIC_SIZE in
  dyn ← vec_copy_loop (Z.to_nat (vec_size v)) 0 (vec_elements v)
          (replicate (Z.to_nat (spaceAvl + 1)) 0);
  Some (mkVec (Some dyn) (vec_size v) spaceAvl (vec_static v)).

Definition TnmVectorAdd (v : TnmVector) (clientData : Z) : option TnmVector :=
  v ← (if bool_decide (vec_size v = vec_spaceAvl v) then vec_grow v else Some v);
  v' ← vec_set v (Z.to_nat (vec_size v)) clientData;
  Some (set_vec_size v' (vec_size v + 1)).

(** The index of the first match below [n + i]. *)
Fixpoint vec_find (n i : nat) (v : TnmVector) (clientData : Z) : option (option nat) :=
  match n with
  | O => Some None
  | S n =>
      x ← vec_get v i;
      if bool_decide (clientData = x) then Some (Some i) else vec_find n (S i) v clientData
  end.

(** [for (; i < size; i++) elements[i] = elements[i+1];] *)
Fixpoint vec_shift (n i : nat) (v : TnmVector) : option TnmVector :=
  match n with
  | O => Some v
  | S n => x ← vec_get v (S i); v ← vec_set v i x; vec_shift n (S i) v
  end.

Definition TnmVectorDelete (v : TnmVector) (clientData : Z) : option TnmVector :=
  found ← vec_find (Z.to_nat (vec_size v)) 0 v clientData;
  match found with
  | None => Some v
  | Some i =>
      v ← vec_shift (Z.to_nat (vec_size v) - i) i v;
      Some (set_vec_size v (vec_size v - 1))
  end.

(** ** Numbers *)

(** [Tcl_GetIntFromObj] is given by its result; [None] is [TCL_ERROR]. *)
Definition TnmGetUnsignedFromObj (i : option Z) : option Z :=
  match i with Some n => if bool_decide (n < 0) then None else Some n | None => None end.

Definition TnmGetPositiveFromObj (i : option Z) : option Z :=
  match i with Some n => if bool_decide (n < 1) then None else Some n | None => None end.

Definition TnmGetIntRangeFromObj (min max : Z) (i : option Z) : option Z :=
  match i with
  | Some n => if bool_decide (n < min) || bool_decide (max < n) then None else Some n
  | None => None
  end.

(** ** Octet strings in hexadecimal *)

(** [if ((c += '0') > '9') c += 7;] *)
Definition hex_digit (c : Z) : Z := let c := c + 48 in if bool_decide (57 < c) then c + 7 else c.

Fixpoint TnmHexEnc (s : list Z) : cstring :=
  match s with
  | [] => []
  | c :: s =>
      hex_digit ((c .& 0xf0) >> 4) :: hex_digit (c .& 0x0f)
      :: match s with [] => [] | _ => chr_colon :: TnmHexEnc s end
  end.

(** [c >= 'a' ? c - 87 : (c >= 'A' ? c - 55 : c - 48)] *)
Definition hex_value (c : Z) : Z :=
  if bool_decide (97 <= c) then c - 87 else if bool_decide (65 <= c) then c - 55 else c - 48.

(** [if ( *s == ':') s++;] *)
Definition skip_colon (s : cstring) : cstring :=
  match s with c :: s' => if bool_decide (c = chr_colon) then s' else s | [] => s end.

(** [fuel] is the length of the string; [None] is the result -1. *)
Fixpoint hex_dec_loop (fuel : nat) (s : cstring) (d : list Z) : option (list Z) :=
  match fuel, s with
  | S fuel, c1 :: c2 :: s =>
      if negb (isxdigit c1) then None
      else if negb (isxdigit c2) then None
      else hex_dec_loop fuel (skip_colon s) (d ++ [u8 ((hex_value c1 << 4) + hex_value c2)])
  | _, [] => Some d
  | _, _ => None
  end.

Definition TnmHexDec (s : cstring) : option (list Z) := hex_dec_loop (length s) s [].

(** ** Host names and addresses *)

(** The state of the scan: what follows, the last character, the numbers of
    dots and of letters. *)
Fixpoint host_name_scan (p : cstring) (last : Z) (dots alpha : nat) : cstring * Z * nat * nat :=
  match p with
  | c :: p' =>
      if isalnum c || bool_decide (c = 45) || bool_decide (c = chr_dot) then
        host_name_scan p' c (if bool_decide (c = chr_dot) then S dots else dots)
          (if isalpha c then S alpha else alpha)
      else (p, last, dots, alpha)
  | [] => (p, last, dots, alpha)
  end.

(** [inet_ntoa] of the four octets of an address *)
Definition inet_ntoa (addr : list Z) : cstring := dotted addr.

Definition TnmValidateIpHostName (name : cstring) : tcl_code :=
  match name with
  | [] => TCL_ERROR
  | c :: _ =>
      if negb (isalnum c) then TCL_ERROR else
      let '(p, last, dots, alpha) := host_name_scan name 32 0 0 in
      if bool_decide (p = []) && (isalnum last || bool_decide (last = chr_dot))
         && (bool_decide (alpha <> 0%nat) || bool_decide (dots <> 3%nat))
      then TCL_OK else TCL_ERROR
  end.

(** [None] is [goto error]; otherwise what follows the scan and the number of
    dots. *)
Fixpoint ip_address_scan (p : cstring) (dots a : Z) : option (cstring * Z) :=
  match p with
  | c :: p' =>
      if isdigit c || bool_decide (c = chr_dot) then
        let '(dots, a) := if bool_decide (c = chr_dot) then (u32 (dots + 1), 0)
                          else (dots, u32 (10 * a + c - chr_0)) in
        if bool_decide (3 < dots) || bool_decide (255 < a) then None
        else ip_address_scan p' dots a
      else Some (p, dots)
  | [] => Some (p, dots)
  end.

Definition TnmValidateIpAddress (address : cstring) : tcl_code :=
  match ip_address_scan address 0 0 with
  | Some (p, dots) => if bool_decide (p = []) && bool_decide (dots = 3) then TCL_OK else TCL_ERROR
  | None => TCL_ERROR
  end.

Section resolver.
(** [inet_addr] yields the four octets of [s_addr], all 255 for a failure. *)
Variable inet_addr : cstring -> list Z.
(** [gethostbyname]: the first address of the host. *)
Variable gethostbyname : cstring -> option (list Z).

(** The cache of host names is the state; the second result is
    [addr->sin_addr] ([None] when it is not set). *)
Definition TnmSetIPAddress (hostTable : gmap cstring (list Z)) (host : cstring)
    : tcl_code * option (list Z) * gmap cstring (list Z) :=
  match TnmValidateIpHostName host with
  | TCL_ERROR =>
      match TnmValidateIpAddress host with
      | TCL_ERROR => (TCL_ERROR, None, hostTable)
      | TCL_OK =>
          let hostaddr := inet_addr host in
          if bool_decide (hostaddr = replicate 4 255)
             && bool_decide (host <> cstr "255.255.255.255")
          then (TCL_ERROR, None, hostTable)
          else (TCL_OK, Some hostaddr, hostTable)
      end
  | TCL_OK =>
      match hostTable !! host with
      | Some caddr => (TCL_OK, Some caddr, hostTable)
      | None =>
          match gethostbyname host with
          | None => (TCL_ERROR, None, hostTable)
          | Some addr => (TCL_OK, Some addr, <[host := addr]> hostTable)
          end
      end
  end.

(** [getservbyname]: the port of a service, in host byte order. *)
Variable getservbyname : cstring -> cstring -> option Z.

(** [atoi] of a string of digits. *)
Definition atoi_digits (s : cstring) : Z :=
  s32 (fold_left (fun acc c => 10 * acc + c - chr_0) s 0).

(** The second result is the port stored in the address. *)
Definition TnmSetIPPort (protocol port : cstring) : tcl_code * option Z :=
  if bool_decide (protocol <> cstr "udp") && bool_decide (protocol <> cstr "tcp")
  then (TCL_ERROR, None)
  else if forallb isdigit port then
    let number := atoi_digits port in
    if bool_decide (0 <= number) then (TCL_OK, Some (u16 number)) else (TCL_ERROR, None)
  else match getservbyname port protocol with
       | Some p => (TCL_OK, Some p)
       | None => (TCL_ERROR, None)
       end.
End resolver.

(** ** Attributes *)

Definition attr_name_ok (name : cstring) : bool :=
  forallb (fun c => isalnum c || bool_decide (c = chr_colon)) name.

(** [value] is [NULL] for a query.  The results are the code, the string left
    in the interpreter (if any) and the table. *)
Definition TnmAttrSet (table : gmap cstring cstring) (name : cstring) (value : option cstring)
    : tcl_code * option cstring * gmap cstring cstring :=
  match value with
  | None => (TCL_OK, table !! name, table)
  | Some v =>
      if attr_name_ok name then
        match v with
        | [] => (TCL_OK, None, delete name table)
        | _ => (TCL_OK, Some v, <[name := v]> table)
        end
      else (TCL_ERROR, None, table)
  end.

(** ** Handles *)

(** [strncpy(buffer, prefix, 20)] and the number after it. *)
Definition handle_name (prefix : cstring) (id : Z) : cstring := take 20 prefix ++ sprintf_u id.

(** [commands] are the names [Tcl_GetCommandInfo] finds.  The results are the
    handle and the next identifier. *)
Fixpoint TnmGetHandle (fuel : nat) (commands : list cstring) (prefix : cstring) (id : Z)
    : option (cstring * Z) :=
  match fuel with
  | O => None
  | S fuel =>
      let buffer := handle_name prefix id in
      let id := u32 (id + 1) in
      if bool_decide (buffer ∈ commands) then TnmGetHandle fuel commands prefix id
      else Some (buffer, id)
  end.
