(* ===== verification/UtilTheorems.v ===== *)
(** Properties of the utility procedures: tables, configuration, vectors,
    hexadecimal octet strings, addresses, the host cache and handles. *)

From stdpp Require Import gmap.
From S2P Require Import Prelude CStr Util.
Local Open Scope Z_scope.
Local Open Scope cint_scope.

(** ** Tables *)

Definition table_ok (table : TnmTable) : Prop :=
  NoDup (map elem_value table) /\ NoDup (map elem_key table) /\
  Forall (fun e => 0 <= elem_key e < 2147483648) table.

#[global] Instance table_ok_dec table : Decision (table_ok table).
Proof. unfold table_ok. apply _. Defined.

Lemma TnmGetTableKey_elem table e : table_ok table -> e ∈ table ->
  TnmGetTableKey table (elem_value e) = elem_key e.
Proof.
  induction table as [|e' table IH]; intros (Hv & Hk & Hr) He; [by apply elem_of_nil in He|].
  inversion_clear Hv as [|? ? Hn Hv']. inversion_clear Hk as [|? ? Hk' Hk''].
  inversion_clear Hr as [|? ? Hr1 Hr2]. simpl. apply elem_of_cons in He as [->|He].
  - rewrite bool_decide_eq_true_2 by done. apply s32_id. unfold is_s32. lia.
  - rewrite bool_decide_eq_false_2; [by apply IH|].
    intros E. apply Hn. rewrite <- E. by apply list_elem_of_fmap_2.
Qed.

Lemma TnmGetTableValue_elem table e : NoDup (map elem_key table) -> e ∈ table ->
  TnmGetTableValue table (elem_key e) = Some (elem_value e).
Proof.
  induction table as [|e' table IH]; intros Hk He; [by apply elem_of_nil in He|].
  inversion_clear Hk as [|? ? Hn Hk']. simpl. apply elem_of_cons in He as [->|He].
  - by rewrite bool_decide_eq_true_2.
  - rewrite bool_decide_eq_false_2; [by apply IH|].
    intros E. apply Hn. rewrite E. by apply list_elem_of_fmap_2.
Qed.

Lemma TnmGetTableKey_none table v : v ∉ map elem_value table -> TnmGetTableKey table v = -1.
Proof.
  induction table as [|e table IH]; intros Hv; simpl; [done|].
  apply not_elem_of_cons in Hv as [? ?]. rewrite bool_decide_eq_false_2 by done. by apply IH.
Qed.

Lemma TnmGetTableValue_some table k v : TnmGetTableValue table k = Some v ->
  exists e, e ∈ table /\ elem_key e = k /\ elem_value e = v.
Proof.
  induction table as [|e table IH]; simpl; [done|]. case_bool_decide.
  - intros [= <-]. exists e. split; [by left|done].
  - intros (e' & ? & ?)%IH. exists e'. split; [by right|done].
Qed.

Lemma table_values_loop_length table : forall p, Forall (fun e => elem_value e <> []) table ->
  (length (table_values_loop table p)
   <= length p + sum_list (map (fun e => length (elem_value e) + 2)%nat table)
      + match table with [] => 0 | _ => 3 end)%nat.
Proof.
  induction table as [|e table IH]; intros p Hne; [simpl; lia|].
  inversion_clear Hne as [|? ? He Hne']. cbn [table_values_loop map sum_list].
  etrans; [by apply IH|]. rewrite length_app.
  destruct p as [|c p], table as [|e2 table]; cbn [map sum_list sum_list_with foldr] in *;
    rewrite ?length_app; change (length (cstr ", ")) with 2%nat;
    change (length (cstr "or ")) with 3%nat; unfold id; simpl in *; lia.
Qed.

Lemma table_values_count_sum table :
  table_values_count table = (8 + sum_list (map (fun e => length (elem_value e) + 2) table))%nat.
Proof.
  unfold table_values_count. generalize 8%nat as n.
  induction table as [|e table IH]; intros n; simpl; [lia|]. rewrite IH. simpl. lia.
Qed.

(** On a table without repeated keys or values [TnmGetTableKey] and
    [TnmGetTableValue] are inverse to each other, an unknown name has the key -1
    and the list of names that [TnmGetTableValues] builds fits, with its
    terminating NUL, the buffer it sizes beforehand. *)
Theorem table_lookup table e :
  table_ok table -> e ∈ table ->
  TnmGetTableKey table (elem_value e) = elem_key e /\
  TnmGetTableValue table (elem_key e) = Some (elem_value e) /\
  (forall v, TnmGetTableKey table v = -1 <-> v ∉ map elem_value table) /\
  (Forall (fun e => elem_value e <> []) table ->
   length (TnmGetTableValues table) + 1 <= table_values_count table)%nat.
Proof.
  intros Hok He. pose proof Hok as (Hv & Hk & Hr).
  split; [by apply TnmGetTableKey_elem|]. split; [by apply TnmGetTableValue_elem|]. split.
  - intros v. split; [|apply TnmGetTableKey_none].
    intros E (e' & -> & He')%list_elem_of_fmap. rewrite (TnmGetTableKey_elem _ e') in E by done.
    rewrite Forall_forall in Hr. specialize (Hr e' He'). simpl in Hr. lia.
  - intros Hne. rewrite table_values_count_sum. unfold TnmGetTableValues.
    pose proof (table_values_loop_length table [] Hne) as H. simpl length in H at 2.
    destruct table; lia.
Qed.

(** The table of transport domains of [tnmSnmpUtil.c]. *)
Definition tnmSnmpDomainTable : TnmTable := [mkElem 1 (cstr "udp"); mkElem 2 (cstr "tcp")].

Lemma table_lookup_witness :
  TnmGetTableKey tnmSnmpDomainTable (cstr "tcp") = 2 /\
  TnmGetTableValue tnmSnmpDomainTable 2 = Some (cstr "tcp").
Proof.
  destruct (table_lookup tnmSnmpDomainTable (mkElem 2 (cstr "tcp"))) as (H1 & H2 & _);
    [by_eval|right; left|]. split; [exact H1|exact H2].
Defined.

Lemma match_tags_inner_spec sm tags p :
  if match_tags_inner sm tags p then exists t, t ∈ tags /\ sm t p = true
  else forall t, t ∈ tags -> sm t p = false.
Proof.
  induction tags as [|t tags IH]; simpl; [intros t Ht; by apply elem_of_nil in Ht|].
  destruct (sm t p) eqn:E; [exists t; split; [by left|done]|].
  destruct (match_tags_inner _ tags p).
  - destruct IH as (t' & ? & ?). exists t'. split; [by right|done].
  - intros t' [->|?]%elem_of_cons; auto.
Qed.

Lemma match_tags_outer_spec sm tags pats :
  match match_tags_outer sm tags pats with
  | 1 => forall p, p ∈ pats -> exists t, t ∈ tags /\ sm t p = true
  | 0 => exists p, p ∈ pats /\ forall t, t ∈ tags -> sm t p = false
  | _ => False
  end.
Proof.
  induction pats as [|p pats IH]; simpl; [intros p Hp; by apply elem_of_nil in Hp|].
  pose proof (match_tags_inner_spec sm tags p) as Hin. destruct (match_tags_inner _ tags p).
  - destruct (match_tags_outer _ _ _) as [|[]|]; try done.
    + destruct IH as (p' & ? & ?). exists p'. split; [by right|done].
    + intros p' [->|?]%elem_of_cons; auto.
  - exists p. split; [by left|done].
Qed.

(** [TnmMatchTags] answers 1 exactly when every pattern matches some tag
    (all patterns, where its description asks for one of them), 0 otherwise and
    -1 only for an argument that is not a list. *)
Theorem match_tags_all Tcl_StringMatch tagList patternList :
  match TnmMatchTags Tcl_StringMatch tagList patternList with
  | 1 => exists tags pats, tagList = Some tags /\ patternList = Some pats /\
           forall p, p ∈ pats -> exists t, t ∈ tags /\ Tcl_StringMatch t p = true
  | 0 => exists tags pats p, tagList = Some tags /\ patternList = Some pats /\ p ∈ pats /\
           forall t, t ∈ tags -> Tcl_StringMatch t p = false
  | _ => tagList = None \/ patternList = None
  end.
Proof.
  destruct tagList as [tags|], patternList as [pats|]; simpl; auto.
  pose proof (match_tags_outer_spec Tcl_StringMatch tags pats) as Hout.
  destruct (match_tags_outer _ _ _) as [|[]|]; try done.
  - destruct Hout as (p & ? & ?). by exists tags, pats, p.
  - by exists tags, pats.
Qed.

(** ** Configuration *)

Section config.
Context {Object Value : Type} (config : TnmConfig Object Value).

Lemma set_config_scan_spec args :
  set_config_scan config args = true <->
  Forall (fun a => 0 <= TnmGetTableKey (optionTable config) a.1) args.
Proof.
  induction args as [|[name v] args IH]; simpl; [split; [constructor|done]|].
  rewrite Forall_cons. unfold TnmGetTableKeyFromObj. simpl.
  case_bool_decide; [split; [done|intros [? _]; lia]|].
  rewrite IH. split; [intros; split; [lia|done]|tauto].
Qed.

Lemma config_list_spec object table name v :
  (name, v) ∈ config_list config object table <->
  exists e, e ∈ table /\ elem_value e = name /\ getOption config object (s32 (elem_key e)) = Some v.
Proof.
  induction table as [|e table IH]; simpl.
  { split; [intros H; by apply elem_of_nil in H|intros (e & H & _); by apply elem_of_nil in H]. }
  destruct (getOption config object (s32 (elem_key e))) as [w|] eqn:E;
    rewrite ?elem_of_cons, IH; split.
  - intros [[= -> ->]|(e' & ? & ?)]; [exists e; split; [left|]|exists e'; split; [right|]]; done.
  - intros (e' & [->|?]%elem_of_cons & H2 & H3); [left|right; by exists e'].
    rewrite H3 in E. by simplify_eq.
  - intros (e' & ? & ?). exists e'. split; [by right|done].
  - intros (e' & [->|?]%elem_of_cons & H2 & H3); [congruence|by exists e'].
Qed.
End config.

(** [TnmSetConfig] checks every option name before it changes the object:
    with an unknown name the object is unchanged, with known names the options
    are set in order up to the first one that fails, and on success the result
    lists the options that have a value. *)
Theorem set_config_checks_names {Object Value} (config : TnmConfig Object Value) object args :
  let '(code, object', result) := TnmSetConfig config object (Some args) in
  let names_known := Forall (fun a => 0 <= TnmGetTableKey (optionTable config) a.1) args in
  (~ names_known -> code = TCL_ERROR /\ object' = object /\ result = []) /\
  (names_known -> (code, object') = set_config_apply config object args /\
     (code = TCL_OK ->
      forall name v, (name, v) ∈ result <->
        exists e, e ∈ optionTable config /\ elem_value e = name /\
                  getOption config object' (s32 (elem_key e)) = Some v)).
Proof.
  pose proof (set_config_scan_spec config args) as Hscan.
  simpl. destruct (set_config_scan config args) eqn:Es.
  - destruct (set_config_apply config object args) as [[|] object'] eqn:Ea;
      (split; [intros Hn; exfalso; apply Hn, Hscan; done|intros _; split; [done|]]); [|done].
    intros _ name v. apply config_list_spec.
  - split; [done|]. intros Hk%Hscan. done.
Qed.

(** ** Vectors *)

(** The contents; every slot after them is [NULL], so that the elements are a
    [NULL] terminated array. *)
Definition vec_list (v : TnmVector) : list Z := take (Z.to_nat (vec_size v)) (vec_elements v).

Definition vec_wf (v : TnmVector) : Prop :=
  0 <= vec_size v <= vec_spaceAvl v /\
  length (vec_elements v) = Z.to_nat (vec_spaceAvl v + 1) /\
  drop (Z.to_nat (vec_size v)) (vec_elements v)
  = replicate (Z.to_nat (vec_spaceAvl v + 1 - vec_size v)) 0.

#[global] Instance vec_wf_dec v : Decision (vec_wf v).
Proof. unfold vec_wf. apply _. Defined.

(** The elements of a well formed vector. *)
Lemma vec_wf_elements v : vec_wf v <->
  exists k, vec_elements v = vec_list v ++ replicate (S k) 0 /\
    vec_size v = Z.of_nat (length (vec_list v)) /\
    vec_spaceAvl v = Z.of_nat (length (vec_list v) + k).
Proof.
  unfold vec_wf, vec_list. split.
  - intros (Hs & Hl & Hd). exists (Z.to_nat (vec_spaceAvl v - vec_size v)).
    rewrite length_take_le by lia. split; [|lia].
    rewrite <- (take_drop (Z.to_nat (vec_size v)) (vec_elements v)) at 1. rewrite Hd.
    do 2 f_equal. lia.
  - intros (k & He & Hs & Ha). set (l := take _ _) in *.
    rewrite He, Hs, Ha, length_app, length_replicate. split; [lia|]. split; [lia|].
    rewrite Nat2Z.id, drop_app_length. f_equal. lia.
Qed.

Lemma vec_elements_set v l : vec_elements (set_vec_elements v l) = l.
Proof. unfold vec_elements, set_vec_elements. by destruct (vec_heap v). Qed.

Lemma vec_size_set v l : vec_size (set_vec_elements v l) = vec_size v.
Proof. unfold set_vec_elements. by destruct (vec_heap v). Qed.

Lemma set_vec_elements_set v l k : set_vec_elements (set_vec_elements v l) k = set_vec_elements v k.
Proof. unfold set_vec_elements. by destruct v as [[?|] ? ? ?]. Qed.

Lemma set_vec_elements_id v : set_vec_elements v (vec_elements v) = v.
Proof. unfold set_vec_elements, vec_elements. by destruct v as [[?|] ? ? ?]. Qed.

(** Building a well formed vector from its contents. *)
Lemma vec_wf_intro v l k :
  vec_elements v = l ++ replicate (S k) 0 -> vec_size v = Z.of_nat (length l) ->
  vec_spaceAvl v = Z.of_nat (length l + k) -> vec_wf v /\ vec_list v = l.
Proof.
  intros He Hs Ha.
  assert (Hl : vec_list v = l) by (unfold vec_list; rewrite He, Hs, Nat2Z.id; by rewrite take_app_length).
  split; [|done]. apply vec_wf_elements. exists k. rewrite Hl. done.
Qed.

Lemma vec_copy_loop_spec n : forall i src dst,
  (i + n <= length src)%nat -> (i + n <= length dst)%nat ->
  vec_copy_loop n i src dst = Some (take i dst ++ take n (drop i src) ++ drop (i + n) dst).
Proof.
  induction n as [|n IH]; intros i src dst Hs Hd; cbn [vec_copy_loop].
  - rewrite Nat.add_0_r. simpl. by rewrite take_drop.
  - destruct (lookup_lt_is_Some_2 src i ltac:(lia)) as [x Hx]. rewrite Hx. simpl.
    rewrite decide_True by lia. rewrite IH by (rewrite ?length_insert; lia). f_equal.
    rewrite take_S_insert by lia. rewrite drop_insert_lt by lia.
    rewrite (drop_S src x i) by done. cbn [take app]. rewrite <- app_assoc. cbn [app].
    by rewrite (Nat.add_succ_r i n).
Qed.

Lemma vec_grow_spec v : vec_wf v -> vec_size v = vec_spaceAvl v ->
  exists v', vec_grow v = Some v' /\ vec_wf v' /\ vec_list v' = vec_list v /\
    vec_size v' < vec_spaceAvl v'.
Proof.
  intros (k & He & Hs & Ha)%vec_wf_elements Hfull. unfold vec_grow.
  change (Z.of_nat TNM_VECTOR_STATIC_SIZE) with 8. rewrite Hs, Nat2Z.id.
  rewrite vec_copy_loop_spec
    by (rewrite ?He, ?length_app, ?length_replicate; lia).
  rewrite take_0, drop_0, Nat.add_0_l, app_nil_l, He, take_app_length.
  cbn [mbind option_bind]. eexists. split; [done|].
  edestruct (vec_wf_intro (mkVec (Some (vec_list v ++ drop (length (vec_list v))
      (replicate (Z.to_nat (vec_spaceAvl v + 8 + 1)) 0))) (Z.of_nat (length (vec_list v)))
      (vec_spaceAvl v + 8) (vec_static v)) (vec_list v) 8) as [Hwf Hl]; [|done|cbn; lia|].
  - cbn [vec_elements vec_heap default from_option id]. f_equal. rewrite drop_replicate.
    f_equal. lia.
  - split; [exact Hwf|]. split; [exact Hl|]. cbn. lia.
Qed.

Lemma TnmVectorAdd_spec v x : vec_wf v ->
  exists v', TnmVectorAdd v x = Some v' /\ vec_wf v' /\ vec_list v' = vec_list v ++ [x].
Proof.
  intros Hwf. unfold TnmVectorAdd.
  assert (Hroom : exists v1, (if bool_decide (vec_size v = vec_spaceAvl v) then vec_grow v else Some v)
    = Some v1 /\ vec_wf v1 /\ vec_list v1 = vec_list v /\ vec_size v1 < vec_spaceAvl v1).
  { case_bool_decide; [by apply vec_grow_spec|]. exists v. destruct Hwf as (? & ? & ?).
    split; [done|]. split; [done|]. split; [done|lia]. }
  destruct Hroom as (v1 & -> & (k & He & Hs & Ha)%vec_wf_elements & Hl & Hlt).
  cbn [mbind option_bind]. unfold vec_set. rewrite He, Hs, Nat2Z.id.
  destruct k as [|k]; [lia|]. rewrite decide_True by (rewrite length_app, length_replicate; lia).
  cbn [mbind option_bind]. eexists. split; [done|].
  change (replicate (S (S k)) 0) with (0 :: replicate (S k) 0). rewrite insert_app_mid.
  rewrite <- Hl. apply (vec_wf_intro _ _ k).
  - unfold set_vec_size, set_vec_elements. destruct (vec_heap v1); by app_norm.
  - cbn [set_vec_size vec_size]. rewrite length_app. simpl. lia.
  - unfold set_vec_size, set_vec_elements. rewrite length_app. simpl.
    destruct (vec_heap v1); simpl; lia.
Qed.

(** The first occurrence removed. *)
Fixpoint remove_first (x : Z) (l : list Z) : list Z :=
  match l with
  | [] => []
  | y :: l => if bool_decide (x = y) then l else y :: remove_first x l
  end.

Lemma vec_find_spec n : forall i v x,
  (i + n <= length (vec_elements v))%nat ->
  match vec_find n i v x with
  | Some (Some j) => (i <= j < i + n)%nat /\ vec_elements v !! j = Some x /\
      (forall m, (i <= m < j)%nat -> vec_elements v !! m <> Some x)
  | Some None => forall m, (i <= m < i + n)%nat -> vec_elements v !! m <> Some x
  | None => False
  end.
Proof.
  induction n as [|n IH]; intros i v x Hn; cbn [vec_find]; [intros; lia|].
  unfold vec_get. destruct (lookup_lt_is_Some_2 (vec_elements v) i ltac:(lia)) as [y Hy].
  rewrite Hy. cbn [mbind option_bind]. case_bool_decide as E.
  - subst y. split; [lia|]. split; [done|]. intros; lia.
  - specialize (IH (S i) v x ltac:(lia)). destruct (vec_find n (S i) v x) as [[j|]|]; [| |done].
    + destruct IH as (? & ? & Hm). split; [lia|]. split; [done|]. intros m Hr.
      destruct (decide (m = i)) as [->|]; [rewrite Hy; congruence|apply Hm; lia].
    + intros m Hr. destruct (decide (m = i)) as [->|]; [rewrite Hy; congruence|apply IH; lia].
Qed.

Lemma vec_shift_spec n : forall v pre y mid z post,
  vec_elements v = pre ++ y :: mid ++ z :: post -> n = S (length mid) ->
  vec_shift n (length pre) v = Some (set_vec_elements v (pre ++ mid ++ z :: z :: post)).
Proof.
  induction n as [|n IH]; intros v pre y mid z post He Hn; [done|]. cbn [vec_shift].
  unfold vec_get, vec_set. rewrite He.
  destruct mid as [|w mid].
  - cbn [app]. rewrite lookup_app_r by lia. replace (S (length pre) - length pre)%nat with 1%nat by lia.
    cbn [lookup list_lookup mbind option_bind]. rewrite decide_True by (rewrite length_app; simpl; lia).
    cbn [mbind option_bind]. rewrite insert_app_mid. simpl in Hn.
    injection Hn as ->. cbn [vec_shift]. done.
  - cbn [app]. rewrite lookup_app_r by lia. replace (S (length pre) - length pre)%nat with 1%nat by lia.
    cbn [lookup list_lookup mbind option_bind]. rewrite decide_True by (rewrite length_app; simpl; lia).
    cbn [mbind option_bind]. rewrite insert_app_mid.
    replace (S (length pre)) with (length (pre ++ [w])) by (rewrite length_app; simpl; lia).
    rewrite (IH _ (pre ++ [w]) w mid z post).
    + rewrite set_vec_elements_set. by app_norm.
    + rewrite vec_elements_set. by app_norm.
    + simpl in Hn. lia.
Qed.

Lemma remove_first_app x pre post : x ∉ pre -> remove_first x (pre ++ x :: post) = pre ++ post.
Proof.
  induction pre as [|y pre IH]; intros Hx; simpl; [by rewrite bool_decide_eq_true_2|].
  apply not_elem_of_cons in Hx as [? ?]. rewrite bool_decide_eq_false_2 by done. by rewrite IH.
Qed.

Lemma remove_first_none x l : x ∉ l -> remove_first x l = l.
Proof.
  induction l as [|y l IH]; intros Hx; simpl; [done|].
  apply not_elem_of_cons in Hx as [? ?]. rewrite bool_decide_eq_false_2 by done. by rewrite IH.
Qed.

Lemma TnmVectorDelete_spec v x : vec_wf v ->
  exists v', TnmVectorDelete v x = Some v' /\ vec_wf v' /\ vec_list v' = remove_first x (vec_list v).
Proof.
  intros Hwf. pose proof Hwf as (k & He & Hs & Ha)%vec_wf_elements. unfold TnmVectorDelete.
  set (l := vec_list v) in *. rewrite Hs, Nat2Z.id.
  pose proof (vec_find_spec (length l) 0 v x) as Hf. rewrite He, length_app in Hf.
  specialize (Hf ltac:(lia)). destruct (vec_find (length l) 0 v x) as [[j|]|]; [| |done].
  - destruct Hf as (Hj & Hx & Hm). cbn [mbind option_bind].
    rewrite lookup_app_l in Hx by lia. destruct (list_elem_of_split_length _ _ _ Hx) as (pre & post & El & Ej).
    assert (Hpre : x ∉ pre).
    { intros (m & Hm')%list_elem_of_lookup_1. pose proof (lookup_lt_Some _ _ _ Hm').
      apply (Hm m); [lia|]. rewrite El, <- app_assoc. by apply lookup_app_l_Some. }
    rewrite El in *. rewrite length_app in *. cbn [length] in *.
    replace (length pre + S (length post) - j)%nat with (S (length post)) by lia. subst j.
    rewrite (vec_shift_spec _ v pre x post 0 (replicate k 0)) by (rewrite ?He; by app_norm).
    cbn [mbind option_bind]. eexists. split; [done|]. rewrite remove_first_app by done.
    apply (vec_wf_intro _ _ (S k)).
    + unfold set_vec_size, set_vec_elements. destruct (vec_heap v); by app_norm.
    + cbn [set_vec_size vec_size]. rewrite vec_size_set, length_app. lia.
    + unfold set_vec_size, set_vec_elements. rewrite length_app. destruct (vec_heap v); simpl; lia.
  - cbn [mbind option_bind]. exists v. split; [done|]. split; [done|]. symmetry. apply remove_first_none.
    intros (m & Hm)%list_elem_of_lookup_1. fold l in Hm. pose proof (lookup_lt_Some _ _ _ Hm).
    apply (Hf m); [lia|]. by apply lookup_app_l_Some.
Qed.

(** A vector is the list of its elements: initialising and freeing give the
    empty list, [TnmVectorAdd] appends, growing the storage when it is full,
    [TnmVectorDelete] removes the first occurrence, every access is inside the
    storage and the slots after the contents stay [NULL]. *)
Theorem vector_refines_list v x :
  vec_wf v ->
  (vec_wf TnmVectorInit /\ vec_list TnmVectorInit = []) /\
  (vec_wf (TnmVectorFree v) /\ vec_list (TnmVectorFree v) = []) /\
  (exists v', TnmVectorAdd v x = Some v' /\ vec_wf v' /\ vec_list v' = vec_list v ++ [x]) /\
  (exists v', TnmVectorDelete v x = Some v' /\ vec_wf v' /\ vec_list v' = remove_first x (vec_list v)).
Proof.
  intros Hwf. split; [split; [by_eval|done]|]. split; [split; [by_eval|done]|].
  split; [by apply TnmVectorAdd_spec|by apply TnmVectorDelete_spec].
Qed.

Lemma vector_refines_list_witness :
  exists v', TnmVectorAdd TnmVectorInit 5 = Some v' /\ vec_wf v' /\
             vec_list v' = vec_list TnmVectorInit ++ [5].
Proof. apply (vector_refines_list TnmVectorInit 5). by_eval. Defined.

(** ** Hexadecimal octet strings *)

Lemma hex_digit_value d : 0 <= d < 16 ->
  isxdigit (hex_digit d) = true /\ hex_value (hex_digit d) = d /\ hex_digit d <> chr_colon.
Proof.
  intros. assert (Hd : d ∈ seqZ 0 16) by (apply elem_of_seqZ; lia).
  revert d Hd H. apply (Forall_forall (fun d => 0 <= d < 16 -> isxdigit (hex_digit d) = true /\
    hex_value (hex_digit d) = d /\ hex_digit d <> chr_colon)).
  cbv [seqZ seq fmap list_fmap Z.to_nat Pos.to_nat Pos.iter_op]. simpl.
  repeat constructor; vm_compute; congruence.
Qed.

Lemma byte_nibbles c : is_byte c ->
  0 <= (c .& 0xf0) >> 4 < 16 /\ 0 <= c .& 0x0f < 16 /\ ((c .& 0xf0) >> 4 << 4) + (c .& 0x0f) = c.
Proof.
  intros [? ?]. change 0x0f with (Z.ones 4). rewrite Z.land_ones by lia.
  replace ((c .& 0xf0) >> 4) with (c / 16).
  - rewrite Z.shiftl_mul_pow2 by lia. change (2 ^ 4) with 16. lia.
  - change 0xf0 with (Z.shiftl (Z.ones 4) 4). rewrite Z.shiftr_land, Z.shiftr_shiftl_l by lia.
    rewrite Z.shiftl_0_r, Z.land_ones, Z.shiftr_div_pow2 by lia. change (2 ^ 4) with 16. lia.
Qed.

Lemma TnmHexEnc_cons c s : TnmHexEnc (c :: s) =
  hex_digit ((c .& 0xf0) >> 4) :: hex_digit (c .& 0x0f)
  :: match s with [] => [] | _ => chr_colon :: TnmHexEnc s end.
Proof. by destruct s. Qed.

Lemma hex_dec_enc s : forall fuel d, bytes s -> (length s <= fuel)%nat ->
  hex_dec_loop fuel (TnmHexEnc s) d = Some (d ++ s).
Proof.
  induction s as [|c s IH]; intros fuel d Hs Hf.
  - destruct fuel; simpl; by rewrite app_nil_r.
  - apply bytes_cons in Hs as [Hc Hs]. destruct fuel as [|fuel]; [simpl in Hf; lia|].
    rewrite TnmHexEnc_cons. destruct (byte_nibbles c Hc) as (H1 & H2 & Hsum).
    destruct (hex_digit_value _ H1) as (X1 & V1 & _), (hex_digit_value _ H2) as (X2 & V2 & _).
    cbn [hex_dec_loop]. rewrite X1, X2, V1, V2, Hsum, u8_id by done. cbn [negb].
    transitivity (hex_dec_loop fuel (TnmHexEnc s) (d ++ [c])); [f_equal; by destruct s|].
    simpl in Hf. rewrite IH by (done || lia). by app_norm.
Qed.

Lemma TnmHexEnc_length s : (length (TnmHexEnc s) + 1 = 3 * length s \/ s = [])%nat.
Proof.
  induction s as [|c s IH]; [by right|]. left. rewrite TnmHexEnc_cons.
  destruct IH as [IH| ->]; [|done]. destruct s; cbn [length] in *; lia.
Qed.

Lemma hex_dec_length fuel : forall s d r, hex_dec_loop fuel s d = Some r ->
  (length r <= length d + length s)%nat /\ (bytes d -> bytes r).
Proof.
  induction fuel as [|fuel IH]; intros s d r; [destruct s; [intros [= <-]; split; [simpl; lia|done]|done]|].
  destruct s as [|c1 [|c2 s]]; [intros [= <-]; split; [simpl; lia|done]|done|]. cbn [hex_dec_loop].
  destruct (isxdigit c1), (isxdigit c2); try done. cbn [negb]. intros (Hl & Hb)%IH.
  rewrite length_app in Hl.
  assert (length (skip_colon s) <= length s)%nat
    by (destruct s as [|c s]; simpl; [lia|case_bool_decide; simpl; lia]).
  cbn [length] in *. split; [lia|]. intros. apply Hb, Forall_app. split; [done|].
  repeat constructor; apply (u8_byte _).
Qed.

(** Octet strings survive [TnmHexEnc] followed by [TnmHexDec].  The encoding
    of [n] octets takes [3 * n - 1] characters, which fits the [5 * n + 1] the
    callers allocate, and whatever string is decoded, the octets fit the buffer
    of its length that the callers provide. *)
Theorem hex_roundtrip s :
  bytes s ->
  TnmHexDec (TnmHexEnc s) = Some s /\
  (length (TnmHexEnc s) + 1 <= 5 * length s + 1)%nat /\
  (forall str r, TnmHexDec str = Some r -> (length r <= length str)%nat /\ bytes r).
Proof.
  intros Hs. pose proof (TnmHexEnc_length s) as Hl. split; [|split].
  - unfold TnmHexDec. rewrite hex_dec_enc; [done|done|].
    destruct Hl as [Hl| ->]; [|done]. destruct s; cbn [length] in *; lia.
  - destruct Hl as [Hl| ->]; [lia|simpl; lia].
  - intros str r (? & Hb)%hex_dec_length. split; [done|]. apply Hb. constructor.
Qed.

Lemma hex_roundtrip_witness :
  TnmHexEnc [26; 43; 61] = cstr "1A:2B:3D" /\ TnmHexDec (cstr "1A:2B:3D") = Some [26; 43; 61].
Proof. split; [reflexivity|]. apply (hex_roundtrip [26; 43; 61]). by_eval. Defined.

(** ** Addresses *)

(** The parts of a string between dots. *)
Fixpoint split_dots (s : cstring) : cstring * list cstring :=
  match s with
  | [] => ([], [])
  | c :: s =>
      let '(p, ps) := split_dots s in
      if bool_decide (c = chr_dot) then ([], p :: ps) else (c :: p, ps)
  end.

Definition dec_value (a : Z) (s : cstring) : Z := fold_left (fun acc c => 10 * acc + c - chr_0) s a.

(** A part of an address: digits, not above 255 after the accumulator. *)
Definition ip_part (a : Z) (s : cstring) : Prop :=
  Forall (fun c => isdigit c = true) s /\ dec_value a s <= 255.

Lemma isdigit_bounds c : isdigit c = true <-> 48 <= c <= 57.
Proof. unfold isdigit. apply bool_decide_eq_true. Qed.

Lemma dec_value_ge s : forall a, 0 <= a -> Forall (fun c => isdigit c = true) s -> a <= dec_value a s.
Proof.
  induction s as [|c s IH]; intros a Ha Hs; [done|]. inversion_clear Hs as [|? ? Hc Hs'].
  apply isdigit_bounds in Hc. unfold chr_0. etrans; [|apply IH]; [..|done]; unfold chr_0; lia.
Qed.

Lemma ip_part_cons a c s : 0 <= a ->
  ip_part a (c :: s) <-> isdigit c = true /\ 10 * a + c - chr_0 <= 255 /\ ip_part (10 * a + c - chr_0) s.
Proof.
  intros Ha. unfold ip_part. rewrite Forall_cons. cbn [dec_value fold_left]. split.
  - intros [[Hc Hs] Hv]. split; [done|]. pose proof Hc as Hc'%isdigit_bounds.
    pose proof (dec_value_ge s (10 * a + c - chr_0) ltac:(unfold chr_0; lia) Hs).
    unfold dec_value in *. cbn [fold_left] in Hv. split; [lia|done].
  - intros (Hc & ? & Hs & Hv). done.
Qed.

Lemma ip_address_scan_spec s : forall dots a, 0 <= dots <= 3 -> 0 <= a <= 255 ->
  ip_address_scan s dots a = Some ([], 3) <->
  let '(p, ps) := split_dots s in
  ip_part a p /\ Forall (ip_part 0) ps /\ dots + Z.of_nat (length ps) = 3.
Proof.
  induction s as [|c s IH]; intros dots a Hd Ha; cbn [ip_address_scan split_dots].
  - split; [intros [= ->]|intros (_ & _ & H)]; [|simpl in H; do 2 f_equal; lia].
    split; [|split; [constructor|done]]. split; [constructor|]. simpl. lia.
  - destruct (split_dots s) as [p ps] eqn:E. destruct (decide (c = chr_dot)) as [->|Hc].
    + change (isdigit chr_dot) with false. rewrite !bool_decide_eq_true_2 by done. cbn [orb].
      unfold u32. rewrite Z.mod_small by lia. rewrite (bool_decide_eq_false_2 (255 < 0)) by lia.
      rewrite orb_false_r. case_bool_decide.
      * split; [done|]. intros (_ & _ & H'). simpl in H'. lia.
      * rewrite IH by lia. rewrite Forall_cons. cbn [length].
        assert (ip_part a []) by (split; [constructor|simpl; lia]).
        split; [intros (? & ? & ?)|intros (? & [? ?] & ?)]; (split; [done|split; [done|lia]]).
    + rewrite !(bool_decide_eq_false_2 (c = chr_dot)) by done. rewrite orb_false_r.
      rewrite ip_part_cons by lia. destruct (isdigit c) eqn:Ec.
      * pose proof Ec as Ec'%isdigit_bounds. unfold u32. rewrite Z.mod_small by (unfold chr_0; lia).
        rewrite (bool_decide_eq_false_2 (3 < dots)) by lia. cbn [orb]. case_bool_decide.
        -- split; [done|]. intros ((_ & ? & _) & _). lia.
        -- rewrite IH by (unfold chr_0 in *; lia). split; [intros (? & ? & ?)|intros ((_ & _ & ?) & ? & ?)];
             (split; [|done]); [split; [done|split; [lia|done]]|done].
      * split; [intros [= ? ?]; done|]. intros ((? & _) & _). done.
Qed.

Fixpoint count_dots (s : cstring) : nat :=
  match s with
  | [] => 0
  | c :: s => if bool_decide (c = chr_dot) then S (count_dots s) else count_dots s
  end.

(** A validated address consists of digits and the three dots. *)
Lemma ip_address_scan_chars s : forall dots a, 0 <= dots <= 3 ->
  ip_address_scan s dots a = Some ([], 3) ->
  Forall (fun c => isdigit c = true \/ c = chr_dot) s /\
  dots + Z.of_nat (count_dots s) = 3.
Proof.
  induction s as [|c s IH]; intros dots a Hd; cbn [ip_address_scan].
  - intros [= ->]. split; [constructor|simpl; lia].
  - destruct (isdigit c || bool_decide (c = chr_dot)) eqn:Ec; [|intros [= ? ?]; done].
    apply orb_true_iff in Ec. rewrite bool_decide_eq_true in Ec.
    cbn [count_dots]. destruct (decide (c = chr_dot)) as [->|Hn].
    + rewrite !bool_decide_eq_true_2 by done. unfold u32. rewrite Z.mod_small by lia.
      destruct (bool_decide (3 < dots + 1)) eqn:E3; [done|]. apply bool_decide_eq_false in E3.
      destruct (bool_decide (255 < 0)); [done|]. cbn [orb]. intros (Hf & Hc)%IH; [|lia].
      split; [by constructor; [right|]|]. lia.
    + rewrite !bool_decide_eq_false_2 by done.
      destruct (_ || _); [done|]. intros (Hf & Hc)%IH; [|lia]. split; [|done]. by constructor.
Qed.

Lemma isdigit_not_alpha c : isdigit c = true -> isalpha c = false.
Proof.
  rewrite isdigit_bounds. unfold isalpha. intros. rewrite !bool_decide_eq_false_2 by lia. done.
Qed.

Lemma host_name_scan_chars s : forall last dots alpha,
  Forall (fun c => isdigit c = true \/ c = chr_dot) s ->
  exists last', host_name_scan s last dots alpha
    = ([], last', (dots + count_dots s)%nat, alpha).
Proof.
  induction s as [|c s IH]; intros last dots alpha Hs; cbn [host_name_scan].
  - exists last. simpl. by rewrite Nat.add_0_r.
  - inversion_clear Hs as [|? ? Hc Hs']. cbn [count_dots]. destruct Hc as [Hc| ->].
    + assert (c <> chr_dot) by (apply isdigit_bounds in Hc; unfold chr_dot; lia).
      unfold isalnum. rewrite Hc, isdigit_not_alpha by done. cbn [orb].
      rewrite !bool_decide_eq_false_2 by done. by apply IH.
    + rewrite !(bool_decide_eq_true_2 (chr_dot = chr_dot)), orb_true_r by done.
      change (isalpha chr_dot) with false. rewrite Nat.add_succ_r. by apply IH.
Qed.

Lemma ip_address_accepted s : TnmValidateIpAddress s = TCL_OK <-> ip_address_scan s 0 0 = Some ([], 3).
Proof.
  unfold TnmValidateIpAddress. destruct (ip_address_scan s 0 0) as [[p dots]|]; [|done].
  split; [|intros [= -> ->]; done].
  destruct (bool_decide (p = []) && bool_decide (dots = 3)) eqn:E; [|done].
  apply andb_true_iff in E as [?%bool_decide_eq_true ?%bool_decide_eq_true]. by subst.
Qed.

Lemma ip_address_ok s : TnmValidateIpAddress s = TCL_OK <->
  let '(p, ps) := split_dots s in length (p :: ps) = 4%nat /\ Forall (ip_part 0) (p :: ps).
Proof.
  rewrite ip_address_accepted, ip_address_scan_spec by lia. destruct (split_dots s) as [p ps].
  rewrite Forall_cons. cbn [length]. split; [intros (? & ? & ?)|intros (? & ? & ?)];
    split; (done || lia || (split; done || lia)).
Qed.

Lemma ip_address_no_name s : TnmValidateIpAddress s = TCL_OK -> TnmValidateIpHostName s = TCL_ERROR.
Proof.
  rewrite ip_address_accepted. intros (Hf & Hc)%ip_address_scan_chars; [|lia].
  destruct (host_name_scan_chars s 32 0 0 Hf) as [last' Hs].
  unfold TnmValidateIpHostName. destruct s as [|c s']; [done|].
  destruct (negb (isalnum c)); [done|]. rewrite Hs.
  rewrite (bool_decide_eq_false_2 (0 <> 0)%nat), (bool_decide_eq_false_2 (_ <> 3%nat)) by lia.
  by rewrite andb_false_r.
Qed.

(** [TnmValidateIpAddress] accepts exactly the strings of four parts
    between dots, each a sequence of digits not above 255, and no such string is
    a valid host name.  A part may be empty, which the description of the
    procedure excludes: "..." is accepted. *)
Theorem ip_address_valid s :
  (TnmValidateIpAddress s = TCL_OK <->
   let '(p, ps) := split_dots s in length (p :: ps) = 4%nat /\ Forall (ip_part 0) (p :: ps)) /\
  (TnmValidateIpAddress s = TCL_OK -> TnmValidateIpHostName s = TCL_ERROR) /\
  TnmValidateIpAddress (cstr "...") = TCL_OK.
Proof. split; [apply ip_address_ok|]. split; [apply ip_address_no_name|by vm_compute]. Qed.

(** [TnmSetIPAddress] resolves a host name once: an address it found is kept
    in the cache and returned for that name from then on, whatever the resolver
    answers later; failures are not cached and no entry is ever changed. *)
Theorem host_cache_stable inet_addr resolve resolve' hostTable host code addr hostTable' :
  TnmSetIPAddress inet_addr resolve hostTable host = (code, addr, hostTable') ->
  hostTable ⊆ hostTable' /\
  (code = TCL_ERROR -> addr = None /\ hostTable' = hostTable) /\
  (code = TCL_OK -> TnmValidateIpHostName host = TCL_OK ->
   forall later, hostTable' ⊆ later ->
     TnmSetIPAddress inet_addr resolve' later host = (TCL_OK, addr, later)).
Proof.
  unfold TnmSetIPAddress. intros H. destruct (TnmValidateIpHostName host); [|].
  - destruct (hostTable !! host) as [c|] eqn:Eh.
    + injection H as <- <- <-. split; [done|]. split; [done|]. intros _ _ later Hl.
      by rewrite (lookup_weaken _ _ _ _ Eh Hl).
    + destruct (resolve host) as [a|]; injection H as <- <- <-.
      * split; [by apply insert_subseteq|]. split; [done|]. intros _ _ later Hl.
        by rewrite (lookup_weaken _ _ host a (lookup_insert_eq _ _ _) Hl).
      * done.
  - destruct (TnmValidateIpAddress host); [|injection H as <- <- <-; done].
    destruct (_ && _); injection H as <- <- <-; done.
Qed.

Lemma host_cache_stable_witness :
  let later := {[ cstr "mgr" := [10; 0; 0; 1]; cstr "gw" := [10; 0; 0; 2] ]} in
  TnmSetIPAddress (fun _ => replicate 4 255) (fun _ => None) later (cstr "mgr")
  = (TCL_OK, Some [10; 0; 0; 1], later).
Proof.
  apply (host_cache_stable (fun _ => replicate 4 255) (fun _ => Some [10; 0; 0; 1]) (fun _ => None)
    ∅ (cstr "mgr") TCL_OK (Some [10; 0; 0; 1]) {[ cstr "mgr" := [10; 0; 0; 1] ]});
    [by vm_compute|done|by vm_compute|by_eval].
Defined.

(** ** Handles *)

Lemma sprintf_u_inj u v : is_u32 u -> is_u32 v -> sprintf_u u = sprintf_u v -> u = v.
Proof. intros Hu Hv E. rewrite <- (sprintf_u_fold u Hu), E. by apply sprintf_u_fold. Qed.

(** The names tried by [n] iterations. *)
Fixpoint handle_names (n : nat) (prefix : cstring) (id : Z) : list cstring :=
  match n with
  | O => []
  | S n => handle_name prefix id :: handle_names n prefix (u32 (id + 1))
  end.

Lemma handle_names_elem n : forall prefix id h,
  is_u32 id -> h ∈ handle_names n prefix id ->
  exists j, 0 <= j < Z.of_nat n /\ h = handle_name prefix (u32 (id + j)).
Proof.
  induction n as [|n IH]; intros prefix id h Hid Hh; [by apply elem_of_nil in Hh|].
  apply elem_of_cons in Hh as [->|Hh].
  - exists 0. split; [lia|]. by rewrite Z.add_0_r, u32_id.
  - destruct (IH _ _ _ (u32_range _) Hh) as (j & Hj & ->). exists (j + 1). split; [lia|].
    f_equal. unfold u32. lia.
Qed.

Lemma handle_names_nodup n : forall prefix id,
  is_u32 id -> Z.of_nat n <= 4294967296 -> NoDup (handle_names n prefix id).
Proof.
  induction n as [|n IH]; intros prefix id Hid Hn; [constructor|].
  constructor; [|apply IH; [apply u32_range|lia]].
  intros (j & Hj & E)%handle_names_elem; [|apply u32_range].
  apply app_inv_head, sprintf_u_inj in E; [|done|apply u32_range].
  destruct Hid. unfold u32 in E. lia.
Qed.

Lemma TnmGetHandle_none n : forall commands prefix id,
  TnmGetHandle n commands prefix id = None -> handle_names n prefix id ⊆ commands.
Proof.
  induction n as [|n IH]; intros commands prefix id H h Hh; [by apply elem_of_nil in Hh|].
  cbn [TnmGetHandle] in H. case_bool_decide; [|done].
  apply elem_of_cons in Hh as [->|Hh]; [done|]. by apply (IH _ _ _ H).
Qed.

Lemma TnmGetHandle_some n : forall commands prefix id h id',
  TnmGetHandle n commands prefix id = Some (h, id') ->
  (h ∉ commands) /\ exists k, h = handle_name prefix k.
Proof.
  induction n as [|n IH]; intros commands prefix id h id' H; [done|].
  cbn [TnmGetHandle] in H. case_bool_decide; [by eapply IH|].
  injection H as <- <-. split; [done|by eexists].
Qed.

(** [TnmGetHandle] returns: among [n] existing commands it finds an unused
    name within [n + 1] attempts (for fewer than 2^32 commands, whatever the
    counter starts at), and the name fits the static buffer of 40 characters. *)
Theorem handle_fresh commands prefix id :
  is_u32 id -> Z.of_nat (length commands) < 4294967296 ->
  exists h id', TnmGetHandle (S (length commands)) commands prefix id = Some (h, id') /\
    (h ∉ commands) /\ (length h + 1 <= 40)%nat.
Proof.
  intros Hid Hc. destruct (TnmGetHandle _ commands prefix id) as [[h id']|] eqn:E.
  - exists h, id'. split; [done|]. apply TnmGetHandle_some in E as (? & k & ->).
    split; [done|]. unfold handle_name. rewrite length_app, length_take.
    pose proof (sprintf_u_length k). lia.
  - exfalso. pose proof (TnmGetHandle_none _ _ _ _ E) as Hsub.
    pose proof (NoDup_submseteq _ _ (handle_names_nodup (S (length commands)) prefix id Hid
      ltac:(lia)) Hsub) as Hlen%submseteq_length.
    assert (forall n p i, length (handle_names n p i) = n) as Hnl
      by (intros n; induction n; intros; simpl; by f_equal).
    rewrite Hnl in Hlen. lia.
Qed.

Lemma handle_fresh_witness :
  exists h id', TnmGetHandle 3 [cstr "job0"; cstr "job1"] (cstr "job") 0 = Some (h, id') /\
    (h ∉ [cstr "job0"; cstr "job1"]) /\ (length h + 1 <= 40)%nat.
Proof. apply (handle_fresh [cstr "job0"; cstr "job1"] (cstr "job") 0); [by_eval|simpl; lia]. Defined.

(** [TnmAttrSet] is a map from attribute names to non-empty values: a value
    set is what a query returns and leaves other names alone, setting the empty
    value removes the attribute, and a name with other characters than letters,
    digits and colons is refused without a change. *)
Theorem attr_map table name v :
  let '(code, result, table') := TnmAttrSet table name (Some v) in
  (attr_name_ok name = false -> code = TCL_ERROR /\ table' = table) /\
  (attr_name_ok name = true ->
     code = TCL_OK /\ TnmAttrSet table' name None = (TCL_OK, result, table') /\
     result = (if bool_decide (v = []) then None else Some v) /\
     forall name', name' <> name -> table' !! name' = table !! name').
Proof.
  simpl. destruct (attr_name_ok name); [|done]. destruct v as [|c v]; split; try done; intros _.
  - split; [done|]. rewrite lookup_delete_eq. split; [done|]. split; [done|].
    intros. by rewrite lookup_delete_ne.
  - split; [done|]. rewrite lookup_insert_eq. split; [done|]. split; [done|].
    intros. by rewrite lookup_insert_ne.
Qed.
