(* ===== verification/Job.v ===== *)
(** The job scheduler, [tnmJob.c].

    Jobs live in memory ([js_heap]) under an address; the list of a [JobControl]
    holds the addresses in the order in which the jobs were created.  A job that is
    deleted leaves the list and its memory is released, at once or, while it is
    preserved, when it is released last.  Scripts of jobs are evaluated by Tcl: what
    they do to the scheduler is a parameter, a function on the whole state, because
    a script can call every job command and time passes while it runs. *)

From stdpp Require Import gmap.
From S2P Require Import Prelude Mem CStr Util.
Local Open Scope Z_scope.

Inductive status := suspended | waiting | running | expired.
#[global] Instance status_eq_dec : EqDecision status.
Proof. solve_decision. Defined.

Definition status_key (s : status) : Z :=
  match s with suspended => 0 | waiting => 1 | running => 2 | expired => 3 end.
Definition status_of_key (k : Z) : status :=
  if bool_decide (k = 0) then suspended else if bool_decide (k = 1) then waiting
  else if bool_decide (k = 2) then running else expired.

Definition statusTable : TnmTable :=
  [mkElem 0 (cstr "suspended"); mkElem 1 (cstr "waiting"); mkElem 2 (cstr "running"); mkElem 3 (cstr "expired")].

Record Job := mkJob {
  job_cmd : cstring;
  job_newCmd : option cstring;
  job_exitCmd : cstring;
  job_errorCmd : cstring;
  job_interval : Z;
  job_iterations : Z;
  job_remtime : Z;
  job_status : status;
  job_tagList : cstring;
  job_attributes : gmap cstring cstring;
  job_token : cstring
}.

Definition set_cmd (c : cstring) (n : option cstring) (j : Job) : Job :=
  mkJob c n (job_exitCmd j) (job_errorCmd j) (job_interval j) (job_iterations j) (job_remtime j)
    (job_status j) (job_tagList j) (job_attributes j) (job_token j).
Definition set_exitCmd (c : cstring) (j : Job) : Job :=
  mkJob (job_cmd j) (job_newCmd j) c (job_errorCmd j) (job_interval j) (job_iterations j) (job_remtime j)
    (job_status j) (job_tagList j) (job_attributes j) (job_token j).
Definition set_errorCmd (c : cstring) (j : Job) : Job :=
  mkJob (job_cmd j) (job_newCmd j) (job_exitCmd j) c (job_interval j) (job_iterations j) (job_remtime j)
    (job_status j) (job_tagList j) (job_attributes j) (job_token j).
Definition set_interval (n : Z) (j : Job) : Job :=
  mkJob (job_cmd j) (job_newCmd j) (job_exitCmd j) (job_errorCmd j) n (job_iterations j) (job_remtime j)
    (job_status j) (job_tagList j) (job_attributes j) (job_token j).
Definition set_iterations (n : Z) (j : Job) : Job :=
  mkJob (job_cmd j) (job_newCmd j) (job_exitCmd j) (job_errorCmd j) (job_interval j) n (job_remtime j)
    (job_status j) (job_tagList j) (job_attributes j) (job_token j).
Definition set_remtime (n : Z) (j : Job) : Job :=
  mkJob (job_cmd j) (job_newCmd j) (job_exitCmd j) (job_errorCmd j) (job_interval j) (job_iterations j) n
    (job_status j) (job_tagList j) (job_attributes j) (job_token j).
Definition set_status (s : status) (j : Job) : Job :=
  mkJob (job_cmd j) (job_newCmd j) (job_exitCmd j) (job_errorCmd j) (job_interval j) (job_iterations j)
    (job_remtime j) s (job_tagList j) (job_attributes j) (job_token j).
Definition set_tags (t : cstring) (j : Job) : Job :=
  mkJob (job_cmd j) (job_newCmd j) (job_exitCmd j) (job_errorCmd j) (job_interval j) (job_iterations j)
    (job_remtime j) (job_status j) t (job_attributes j) (job_token j).
Definition set_attributes (a : gmap cstring cstring) (j : Job) : Job :=
  mkJob (job_cmd j) (job_newCmd j) (job_exitCmd j) (job_errorCmd j) (job_interval j) (job_iterations j)
    (job_remtime j) (job_status j) (job_tagList j) a (job_token j).
Definition set_token (t : cstring) (j : Job) : Job :=
  mkJob (job_cmd j) (job_newCmd j) (job_exitCmd j) (job_errorCmd j) (job_interval j) (job_iterations j)
    (job_remtime j) (job_status j) (job_tagList j) (job_attributes j) t.

(** The fields of [JobControl], the memory of the jobs, the number of times each
    job is preserved and the jobs that wait for their release, the names of the
    other commands of the interpreter, the next number of [TnmGetHandle] and the
    clock. *)
Record JobState := mkJS {
  js_heap : gmap nat Job;
  js_list : list nat;
  js_current : option nat;
  js_timer : option Z;
  js_lastTime : Z * Z;
  js_preserved : gmap nat nat;
  js_doomed : gset nat;
  js_commands : list cstring;
  js_nextId : Z;
  js_clock : Z * Z
}.

Definition with_heap (h : gmap nat Job) (s : JobState) : JobState :=
  mkJS h (js_list s) (js_current s) (js_timer s) (js_lastTime s) (js_preserved s) (js_doomed s)
    (js_commands s) (js_nextId s) (js_clock s).
Definition with_list (l : list nat) (s : JobState) : JobState :=
  mkJS (js_heap s) l (js_current s) (js_timer s) (js_lastTime s) (js_preserved s) (js_doomed s)
    (js_commands s) (js_nextId s) (js_clock s).
Definition with_current (c : option nat) (s : JobState) : JobState :=
  mkJS (js_heap s) (js_list s) c (js_timer s) (js_lastTime s) (js_preserved s) (js_doomed s)
    (js_commands s) (js_nextId s) (js_clock s).
Definition with_timer (t : option Z) (s : JobState) : JobState :=
  mkJS (js_heap s) (js_list s) (js_current s) t (js_lastTime s) (js_preserved s) (js_doomed s)
    (js_commands s) (js_nextId s) (js_clock s).
Definition with_lastTime (t : Z * Z) (s : JobState) : JobState :=
  mkJS (js_heap s) (js_list s) (js_current s) (js_timer s) t (js_preserved s) (js_doomed s)
    (js_commands s) (js_nextId s) (js_clock s).
Definition with_memory (p : gmap nat nat) (d : gset nat) (s : JobState) : JobState :=
  mkJS (js_heap s) (js_list s) (js_current s) (js_timer s) (js_lastTime s) p d
    (js_commands s) (js_nextId s) (js_clock s).
Definition with_names (c : list cstring) (n : Z) (s : JobState) : JobState :=
  mkJS (js_heap s) (js_list s) (js_current s) (js_timer s) (js_lastTime s) (js_preserved s) (js_doomed s)
    c n (js_clock s).
Definition with_clock (c : Z * Z) (s : JobState) : JobState :=
  mkJS (js_heap s) (js_list s) (js_current s) (js_timer s) (js_lastTime s) (js_preserved s) (js_doomed s)
    (js_commands s) (js_nextId s) c.

Definition update_job (f : Job -> Job) (a : nat) (s : JobState) : JobState := with_heap (alter f a (js_heap s)) s.

(** The jobs of the list, in its order. *)
Definition jobs (s : JobState) : list Job := omap (fun a => js_heap s !! a) (js_list s).

(** ** Memory *)

Definition Tcl_Preserve (a : nat) (s : JobState) : JobState :=
  with_memory (<[a := S (default 0%nat (js_preserved s !! a))]> (js_preserved s)) (js_doomed s) s.

(** [DestroyProc] *)
Definition DestroyProc (a : nat) (s : JobState) : JobState := with_heap (delete a (js_heap s)) s.

Definition Tcl_EventuallyFree (a : nat) (s : JobState) : JobState :=
  match js_preserved s !! a with
  | Some (S _) => with_memory (js_preserved s) ({[a]} ∪ js_doomed s) s
  | _ => DestroyProc a s
  end.

Definition Tcl_Release (a : nat) (s : JobState) : JobState :=
  match js_preserved s !! a with
  | Some (S (S n)) => with_memory (<[a := S n]> (js_preserved s)) (js_doomed s) s
  | Some (S O) =>
      if bool_decide (a ∈ js_doomed s)
      then DestroyProc a (with_memory (delete a (js_preserved s)) (js_doomed s ∖ {[a]}) s)
      else with_memory (delete a (js_preserved s)) (js_doomed s) s
  | _ => s
  end.

(** [Tcl_DeleteCommandFromToken]: the command disappears and [DeleteProc] takes
    the job out of the list. *)
Definition DeleteProc (a : nat) (s : JobState) : JobState :=
  Tcl_EventuallyFree a (with_list (filter (fun b => b <> a) (js_list s)) s).

Definition delete_command (a : nat) (s : JobState) : JobState :=
  match js_heap s !! a with
  | Some j =>
      DeleteProc a (with_names (filter (fun n => n <> job_token j) (js_commands s)) (js_nextId s) s)
  | None => s
  end.

(** ** Time *)

(** [ms]: the result of the loop of [NextSchedule], -1 if no job is active. *)
Definition next_ms (l : list Job) : Z :=
  fold_left (fun ms j =>
    if (bool_decide (job_status j = waiting) || bool_decide (job_status j = expired))
       && (bool_decide (ms < 0) || bool_decide (job_remtime j < ms))
    then (if bool_decide (job_remtime j < 0) then 0 else job_remtime j) else ms) l (-1).

Definition NextSchedule (s : JobState) : JobState :=
  let s := with_timer None s in
  let ms := next_ms (jobs s) in
  if bool_decide (ms < 0) then with_lastTime (0, 0) s else with_timer (Some ms) s.

(** [(currentTime.sec - lastTime.sec) * 1000 + (currentTime.usec - lastTime.usec) / 1000] *)
Definition time_delta (now last : Z * Z) : Z := s32 ((now.1 - last.1) * 1000 + Z.quot (now.2 - last.2) 1000).

Definition adjust_job (delta : Z) (j : Job) : Job :=
  if bool_decide (job_status j <> suspended) then set_remtime (s32 (job_remtime j - delta)) j else j.

Definition AdjustTime (s : JobState) : JobState :=
  if bool_decide (js_lastTime s = (0, 0)) then with_lastTime (js_clock s) s
  else
    let delta := time_delta (js_clock s) (js_lastTime s) in
    let s := with_lastTime (js_clock s) s in
    if bool_decide (delta <= 0) then s
    else foldr (update_job (adjust_job delta)) s (js_list s).

(** ** The scheduler *)

Section scheduler.
(** [Tcl_GlobalEvalObj]: the code and the state a script leaves. *)
Variable Tcl_GlobalEvalObj : cstring -> JobState -> tcl_code * JobState.

(** [if (jobPtr->newCmd)] *)
Definition take_new_cmd (j : Job) : Job :=
  match job_newCmd j with Some c => set_cmd c None j | None => j end.

(** What follows the script of a job that was executed. *)
Definition job_done (j : Job) : Job :=
  let j := if bool_decide (job_status j = running) then set_status waiting j else j in
  let j := set_remtime (job_interval j) j in
  if bool_decide (0 < job_iterations j) then
    let j := set_iterations (job_iterations j - 1) j in
    if bool_decide (job_iterations j = 0) then set_status expired j else j
  else j.

(** The execution of one job. *)
Definition run_job (a : nat) (s : JobState) : run_result JobState :=
  let s := Tcl_Preserve a s in
  let s := with_current (Some a) s in
  let s := update_job (set_status running) a s in
  match js_heap s !! a with
  | None => UseAfterFree
  | Some j =>
      let '(code, s) := Tcl_GlobalEvalObj (job_cmd j) s in
      match js_heap s !! a with
      | None => UseAfterFree
      | Some j =>
          let s := match code with
                   | TCL_ERROR =>
                       if bool_decide (job_errorCmd j <> []) then (Tcl_GlobalEvalObj (job_errorCmd j) s).2
                       else update_job (set_status expired) a s
                   | TCL_OK => s
                   end in
          match js_heap s !! a with
          | None => UseAfterFree
          | Some _ => Ok (Tcl_Release a (update_job job_done a (with_current None s)))
          end
      end
  end.

(** One pass of the loop from [l] on: the first job that is due is executed and
    the address returned. *)
Fixpoint find_due (l : list nat) (s : JobState) : run_result (option nat * JobState) :=
  match l with
  | [] => Ok (None, s)
  | a :: l =>
      let s := update_job take_new_cmd a s in
      match js_heap s !! a with
      | None => UseAfterFree
      | Some j =>
          if bool_decide (job_status j = waiting) && bool_decide (job_remtime j <= 0)
          then Ok (Some a, s) else find_due l s
      end
  end.

(** [restart:] *)
Fixpoint run_due (fuel : nat) (s : JobState) : run_result JobState :=
  match fuel with
  | O => NoFuel
  | S fuel =>
      match find_due (js_list s) s with
      | Ok (None, s) => Ok s
      | Ok (Some a, s) =>
          match run_job a s with
          | Ok s => run_due fuel s
          | r => r
          end
      | UseAfterFree => UseAfterFree
      | NoFuel => NoFuel
      end
  end.

(** The first expired job. *)
Fixpoint find_expired (l : list nat) (s : JobState) : run_result (option nat) :=
  match l with
  | [] => Ok None
  | a :: l =>
      match js_heap s !! a with
      | None => UseAfterFree
      | Some j => if bool_decide (job_status j = expired) then Ok (Some a) else find_expired l s
      end
  end.

(** [repeat:] The job is not preserved while its exit command runs. *)
Fixpoint remove_expired (fuel : nat) (s : JobState) : run_result JobState :=
  match fuel with
  | O => NoFuel
  | S fuel =>
      match find_expired (js_list s) s with
      | Ok None => Ok s
      | Ok (Some a) =>
          match js_heap s !! a with
          | None => UseAfterFree
          | Some j =>
              let s := if bool_decide (job_exitCmd j <> [])
                       then (Tcl_GlobalEvalObj (job_exitCmd j) s).2 else s in
              match js_heap s !! a with
              | None => UseAfterFree
              | Some _ => remove_expired fuel (delete_command a s)
              end
          end
      | UseAfterFree => UseAfterFree
      | NoFuel => NoFuel
      end
  end.

Definition Schedule (fuel : nat) (s : JobState) : run_result JobState :=
  match run_due fuel (AdjustTime s) with
  | Ok s =>
      match remove_expired fuel s with
      | Ok s => Ok (NextSchedule (AdjustTime s))
      | r => r
      end
  | r => r
  end.
End scheduler.

(** ** Commands *)

(** The options and their numbers in [enum options]. *)
Definition job_optionTable : TnmTable :=
  [mkElem 0 (cstr "-command"); mkElem 2 (cstr "-error"); mkElem 1 (cstr "-exit"); mkElem 3 (cstr "-interval");
   mkElem 4 (cstr "-iterations"); mkElem 5 (cstr "-status"); mkElem 6 (cstr "-tags"); mkElem 7 (cstr "-time")].

Section commands.
(** [Tcl_GetIntFromObj] *)
Variable Tcl_GetIntFromObj : cstring -> option Z.

Definition SetOption (a : nat) (s : JobState) (option : Z) (v : cstring) : tcl_code * JobState :=
  if bool_decide (option = 0) then
    (TCL_OK, update_job (fun j => set_cmd (job_cmd j) (Some v) j) a s)
  else if bool_decide (option = 2) then (TCL_OK, update_job (set_errorCmd v) a s)
  else if bool_decide (option = 1) then (TCL_OK, update_job (set_exitCmd v) a s)
  else if bool_decide (option = 3) then
    match TnmGetPositiveFromObj (Tcl_GetIntFromObj v) with
    | Some num => (TCL_OK, update_job (set_interval num) a s)
    | None => (TCL_ERROR, s)
    end
  else if bool_decide (option = 4) then
    match TnmGetUnsignedFromObj (Tcl_GetIntFromObj v) with
    | Some num => (TCL_OK, update_job (set_iterations num) a s)
    | None => (TCL_ERROR, s)
    end
  else if bool_decide (option = 5) then
    let status := TnmGetTableKeyFromObj statusTable v in
    if bool_decide (status < 0) then (TCL_ERROR, s)
    else
      let status := if bool_decide (status_of_key status = running) then waiting else status_of_key status in
      (TCL_OK, NextSchedule (AdjustTime (update_job (set_status status) a s)))
  else if bool_decide (option = 6) then (TCL_OK, update_job (set_tags v) a s)
  else (TCL_OK, s).

(** The value of an option; the time is read after [AdjustTime]. *)
Definition GetOption (a : nat) (s : JobState) (option : Z) : Datatypes.option cstring :=
  match js_heap s !! a with
  | None => None
  | Some j =>
      if bool_decide (option = 0) then Some (default (job_cmd j) (job_newCmd j))
      else if bool_decide (option = 2) then Some (job_errorCmd j)
      else if bool_decide (option = 1) then Some (job_exitCmd j)
      else if bool_decide (option = 3) then Some (sprintf_d (job_interval j))
      else if bool_decide (option = 4) then Some (sprintf_d (job_iterations j))
      else if bool_decide (option = 5) then TnmGetTableValue statusTable (status_key (job_status j))
      else if bool_decide (option = 6) then Some (job_tagList j)
      else if bool_decide (option = 7) then
        match js_heap (AdjustTime s) !! a with Some j => Some (sprintf_d (job_remtime j)) | None => None end
      else None
  end.

Definition job_config (a : nat) : TnmConfig JobState cstring :=
  mkConfig (Object := JobState) (Value := cstring) job_optionTable (SetOption a) (GetOption a).

(** [TnmSetConfig] with the time that passes when the options are listed. *)
Definition configure (a : nat) (args : option (list (cstring * cstring))) (s : JobState)
    : tcl_code * JobState * list (cstring * cstring) :=
  match TnmSetConfig (job_config a) s args with
  | (TCL_OK, s, opts) => (TCL_OK, AdjustTime s, opts)
  | r => r
  end.

(** [cget]; reading the time adjusts all jobs. *)
Definition cget (a : nat) (arg : option cstring) (s : JobState) : tcl_code * option cstring * JobState :=
  let '(code, v) := TnmGetConfig (job_config a) s arg in
  (code, v, if bool_decide (arg = Some (cstr "-time")) then AdjustTime s else s).

Definition new_job : Job := mkJob [] None [] [] 1000 0 0 waiting [] ∅ [].

(** [CreateJob]; the address is one that is not in use. *)
Definition CreateJob (args : option (list (cstring * cstring))) (s : JobState)
    : tcl_code * JobState * option cstring :=
  let a := fresh (dom (js_heap s)) in
  let s := with_heap (<[a := new_job]> (js_heap s)) s in
  match configure a args s with
  | (TCL_ERROR, s, _) => (TCL_ERROR, Tcl_EventuallyFree a s, None)
  | (TCL_OK, s, _) =>
      let s := NextSchedule (with_list (js_list s ++ [a]) s) in
      match TnmGetHandle (S (length (js_commands s))) (js_commands s) (cstr "job") (js_nextId s) with
      | Some (name, nextId) =>
          (TCL_OK, update_job (set_token name) a (with_names (name :: js_commands s) nextId s), Some name)
      | None => (TCL_ERROR, s, None)
      end
  end.

(** [JobObjCmd] without [wait], which runs the event loop: the code, the state
    and the result. *)
Inductive job_command :=
  | cmdAttribute (name value : option cstring)
  | cmdCget (option : option cstring)
  | cmdConfigure (args : option (list (cstring * cstring)))
  | cmdDestroy.

Definition JobObjCmd (a : nat) (cmd : job_command) (s : JobState) : tcl_code * JobState * option cstring :=
  match cmd with
  | cmdAttribute None _ => (TCL_OK, s, None)
  | cmdAttribute (Some name) value =>
      match js_heap s !! a with
      | None => (TCL_ERROR, s, None)
      | Some j =>
          let '(code, result, attrs) := TnmAttrSet (job_attributes j) name value in
          (match value with None => code | Some _ => TCL_OK end,
           update_job (set_attributes attrs) a s, result)
      end
  | cmdCget option => let '(code, v, s) := cget a option s in (code, s, v)
  | cmdConfigure args => let '(code, s, _) := configure a args s in (code, s, None)
  | cmdDestroy => (TCL_OK, update_job (set_status expired) a s, None)
  end.
End commands.

Section find.
Variable Tcl_StringMatch : cstring -> cstring -> bool.
(** [Tcl_ListObjGetElements]: a string that is not a list is [None]. *)
Variable list_of : cstring -> option (list cstring).

(** [FindJobs] with the values of [-status] (-1 if there is none) and [-tags]: the
    names of the jobs found, [None] for an error. *)
Fixpoint find_jobs (l : list Job) (status : Z) (patList : option cstring) (found : list cstring)
    : option (list cstring) :=
  match l with
  | [] => Some found
  | j :: l =>
      if bool_decide (0 <= status) && bool_decide (status_key (job_status j) <> status)
      then find_jobs l status patList found
      else
        match patList with
        | None => find_jobs l status patList (found ++ [job_token j])
        | Some pat =>
            let match_ := TnmMatchTags Tcl_StringMatch (list_of (job_tagList j)) (list_of pat) in
            if bool_decide (match_ < 0) then None
            else if bool_decide (match_ = 0) then find_jobs l status patList found
            else find_jobs l status patList (found ++ [job_token j])
        end
  end.

Inductive find_option := findStatus (name : cstring) | findTags (pats : cstring).

Fixpoint find_options (args : list find_option) (status : Z) (patList : option cstring)
    : option (Z * option cstring) :=
  match args with
  | [] => Some (status, patList)
  | findStatus name :: args =>
      let status := TnmGetTableKeyFromObj statusTable name in
      if bool_decide (status < 0) then None else find_options args status patList
  | findTags pats :: args => find_options args status (Some pats)
  end.

Definition FindJobs (s : JobState) (args : list find_option) : option (list cstring) :=
  match find_options args (-1) None with
  | None => None
  | Some (status, patList) => find_jobs (jobs s) status patList []
  end.
End find.
