(* ===== verification/JobTheorems.v ===== *)
(** The scheduler keeps its invariant, every job that is due is executed once and
    the timer is set for the next one. *)

From stdpp Require Import gmap.
From S2P Require Import Prelude Mem CStr Util UtilTheorems Job.
Local Open Scope Z_scope.

(** ** The next point of time *)

Definition active (j : Job) : Prop := job_status j = waiting \/ job_status j = expired.
Definition due (j : Job) : Prop := job_status j = waiting /\ job_remtime j <= 0.
#[global] Instance active_dec j : Decision (active j).
Proof. unfold active. apply _. Defined.
#[global] Instance due_dec j : Decision (due j).
Proof. unfold due. apply _. Defined.

(** The minimum of the remaining times of the active jobs, none of them below
    zero. *)
Definition is_next (l : list Job) (ms : Z) : Prop :=
  (exists j, j ∈ l /\ active j /\ ms = Z.max 0 (job_remtime j)) /\
  Forall (fun j => active j -> ms <= Z.max 0 (job_remtime j)) l.

Lemma next_ms_step j ms :
  (if (bool_decide (job_status j = waiting) || bool_decide (job_status j = expired))
      && (bool_decide (ms < 0) || bool_decide (job_remtime j < ms))
   then (if bool_decide (job_remtime j < 0) then 0 else job_remtime j) else ms)
  = if decide (active j) then (if decide (ms < 0) then Z.max 0 (job_remtime j)
                               else if decide (job_remtime j < ms) then Z.max 0 (job_remtime j) else ms)
    else ms.
Proof. unfold active. repeat case_bool_decide; repeat case_decide; cbn; (lia || tauto). Qed.

Lemma next_ms_spec l :
  (next_ms l = -1 /\ Forall (fun j => ~ active j) l) \/ (0 <= next_ms l /\ is_next l (next_ms l)).
Proof.
  unfold next_ms.
  assert (H : forall l2 l1 ms, (ms = -1 /\ Forall (fun j => ~ active j) l1) \/ (0 <= ms /\ is_next l1 ms) ->
    let r := fold_left (fun ms j =>
      if (bool_decide (job_status j = waiting) || bool_decide (job_status j = expired))
         && (bool_decide (ms < 0) || bool_decide (job_remtime j < ms))
      then (if bool_decide (job_remtime j < 0) then 0 else job_remtime j) else ms) l2 ms in
    (r = -1 /\ Forall (fun j => ~ active j) (l1 ++ l2)) \/ (0 <= r /\ is_next (l1 ++ l2) r)).
  { induction l2 as [|j l2 IH]; intros l1 ms Hms; [by rewrite app_nil_r|].
    cbn [fold_left]. replace (l1 ++ j :: l2) with ((l1 ++ [j]) ++ l2) by (by rewrite <- app_assoc).
    apply IH. rewrite next_ms_step. unfold is_next in *. setoid_rewrite Forall_app. setoid_rewrite elem_of_app.
    setoid_rewrite list_elem_of_singleton. setoid_rewrite Forall_singleton.
    destruct (decide (active j)) as [Ha|Ha].
    - right. destruct Hms as [[-> Hn]|[Hp [(k & Hk & Hka & Hkm) Hall]]].
      + rewrite decide_True by lia. split; [lia|]. split; [exists j; tauto|]. split; [|intros; lia].
        eapply Forall_impl; [exact Hn|]. intros k Hk Hk'. done.
      + rewrite decide_False by lia. case_decide.
        * split; [lia|]. split; [exists j; tauto|]. split; [|intros; lia].
          eapply Forall_impl; [exact Hall|]. intros i Hi Hia. specialize (Hi Hia). lia.
        * split; [lia|]. split; [exists k; tauto|]. split; [done|intros; lia].
    - destruct Hms as [[-> Hn]|[Hp [(k & Hk & Hka & Hkm) Hall]]].
      + left. split; [done|]. by split.
      + right. split; [done|]. split; [exists k; tauto|]. by split. }
  apply (H l [] (-1)). left. split; [done|constructor].
Qed.

Lemma next_schedule_fields s :
  js_heap (NextSchedule s) = js_heap s /\ js_list (NextSchedule s) = js_list s /\
  js_preserved (NextSchedule s) = js_preserved s /\ js_doomed (NextSchedule s) = js_doomed s /\
  js_nextId (NextSchedule s) = js_nextId s /\ js_commands (NextSchedule s) = js_commands s.
Proof. unfold NextSchedule. by case_bool_decide. Qed.

Lemma next_schedule_timer s :
  (js_timer (NextSchedule s) = None /\ Forall (fun j => ~ active j) (jobs s)) \/
  exists ms, js_timer (NextSchedule s) = Some ms /\ is_next (jobs s) ms.
Proof.
  unfold NextSchedule. change (jobs (with_timer None s)) with (jobs s).
  destruct (next_ms_spec (jobs s)) as [[-> Hn]|[Hp Hn]].
  - left. by rewrite bool_decide_eq_true_2.
  - right. exists (next_ms (jobs s)). by rewrite bool_decide_eq_false_2 by lia.
Qed.

(** ** The invariant *)

Record job_inv (s : JobState) : Prop := {
  inv_nodup : NoDup (js_list s);
  inv_alive : Forall (fun a => is_Some (js_heap s !! a) /\ a ∉ js_doomed s) (js_list s);
  inv_jobs : map_Forall (fun _ j => 1 <= job_interval j /\ 0 <= job_iterations j) (js_heap s);
  inv_running : map_Forall (fun a j => job_status j = running -> is_Some (js_preserved s !! a)) (js_heap s);
  inv_preserved : map_Forall (fun a n => (1 <= n)%nat /\ is_Some (js_heap s !! a)) (js_preserved s);
  inv_doomed : forall a, a ∈ js_doomed s -> is_Some (js_preserved s !! a);
  inv_nextId : is_u32 (js_nextId s)
}.

(** Changing one job in a way that respects the ranges. *)
Definition tame (s : JobState) (a : nat) (f : Job -> Job) : Prop :=
  forall j, js_heap s !! a = Some j -> 1 <= job_interval j -> 0 <= job_iterations j ->
    (1 <= job_interval (f j) /\ 0 <= job_iterations (f j)) /\
    (job_status (f j) = running -> job_status j = running \/ is_Some (js_preserved s !! a)).

Lemma lookup_alter_is_Some {A} (m : gmap nat A) (f : A -> A) a b : is_Some (alter f a m !! b) <-> is_Some (m !! b).
Proof.
  destruct (decide (a = b)) as [->|Hne]; [|by rewrite lookup_alter_ne].
  rewrite lookup_alter_eq. by rewrite fmap_is_Some.
Qed.

Lemma inv_update s a f : job_inv s -> tame s a f -> job_inv (update_job f a s).
Proof.
  intros [H1 H2 H3 H4 H5 H6 H7] Hf. unfold update_job, with_heap. split; cbn; try done.
  - eapply Forall_impl; [exact H2|]. intros b [Hb ?]. split; [|done]. by apply lookup_alter_is_Some.
  - intros b j. rewrite lookup_alter_Some. intros [(-> & i & Hi & ->)|[_ Hj]]; [|by apply (H3 b)].
    destruct (H3 _ _ Hi) as [? ?]. by apply Hf.
  - intros b j. rewrite lookup_alter_Some. intros [(-> & i & Hi & ->)|[_ Hj]]; [|by apply (H4 b)].
    destruct (H3 _ _ Hi) as [Hiv Hit]. intros Hr. destruct (Hf _ Hi Hiv Hit) as [_ Hs]. destruct (Hs Hr) as [?|?]; [|done].
    by apply (H4 b i).
  - intros b n Hb. destruct (H5 b n Hb) as [? ?]. split; [done|]. by apply lookup_alter_is_Some.
Qed.

Lemma inv_next s : job_inv s -> job_inv (NextSchedule s).
Proof.
  intros []. destruct (next_schedule_fields s) as (E1 & E2 & E3 & E4 & E5 & _).
  split; rewrite ?E1, ?E2, ?E3, ?E4, ?E5; done.
Qed.

Lemma inv_lastTime s t : job_inv s -> job_inv (with_lastTime t s).
Proof. intros []. by split. Qed.
Lemma inv_current s c : job_inv s -> job_inv (with_current c s).
Proof. intros []. by split. Qed.
Lemma inv_clock s c : job_inv s -> job_inv (with_clock c s).
Proof. intros []. by split. Qed.

Lemma adjust_job_tame s a delta : tame s a (adjust_job delta).
Proof. intros j _ Hi Hn. unfold adjust_job. case_bool_decide; cbn; tauto. Qed.

(** The fields [AdjustTime] leaves alone. *)
Lemma foldr_update_fields f l s :
  let s' := foldr (update_job f) s l in
  js_list s' = js_list s /\ js_preserved s' = js_preserved s /\ js_doomed s' = js_doomed s /\
  js_nextId s' = js_nextId s /\ js_timer s' = js_timer s /\ js_commands s' = js_commands s /\
  js_lastTime s' = js_lastTime s /\ js_clock s' = js_clock s.
Proof. induction l as [|a l IH]; cbn; [done|]. destruct IH as (?&?&?&?&?&?&?&?). by split_and!. Qed.

Lemma foldr_update_lookup f l s b : NoDup l ->
  js_heap (foldr (update_job f) s l) !! b = (if decide (b ∈ l) then f else id) <$> js_heap s !! b.
Proof.
  induction l as [|a l IH]; intros Hnd; cbn [foldr].
  - rewrite decide_False by (apply not_elem_of_nil). by rewrite option_fmap_id.
  - apply NoDup_cons in Hnd as [Ha Hnd]. unfold update_job at 1, with_heap at 1. cbn [js_heap].
    destruct (decide (a = b)) as [->|Hne].
    + rewrite lookup_alter_eq, IH by done. rewrite decide_False by done. rewrite decide_True by left.
      by rewrite option_fmap_id.
    + rewrite lookup_alter_ne, IH by done. destruct (decide (b ∈ l)).
      * by rewrite decide_True by (by right).
      * by rewrite decide_False by (rewrite elem_of_cons; intros [?|?]; congruence).
Qed.

Lemma inv_adjust s : job_inv s -> job_inv (AdjustTime s).
Proof.
  intros Hs. unfold AdjustTime. case_bool_decide; [by apply inv_lastTime|].
  case_bool_decide; [by apply inv_lastTime|].
  assert (Hl : forall l t, job_inv t -> job_inv (foldr (update_job (adjust_job (time_delta (js_clock s) (js_lastTime s)))) t l)).
  { induction l as [|a l IH]; intros t Ht; [done|]. cbn [foldr]. apply inv_update; [by apply IH|]. apply adjust_job_tame. }
  by apply Hl, inv_lastTime.
Qed.

Lemma inv_names s c n : is_u32 n -> job_inv s -> job_inv (with_names c n s).
Proof. intros ? []. by split. Qed.

(** ** Commands *)

Lemma positive_range i n : TnmGetPositiveFromObj i = Some n -> 1 <= n.
Proof. destruct i; cbn; [|done]. case_bool_decide; [done|]. intros [= <-]. lia. Qed.
Lemma unsigned_range i n : TnmGetUnsignedFromObj i = Some n -> 0 <= n.
Proof. destruct i; cbn; [|done]. case_bool_decide; [done|]. intros [= <-]. lia. Qed.

Section commands.
Variable get_int : cstring -> option Z.

Lemma inv_SetOption a s option v : job_inv s -> job_inv (SetOption get_int a s option v).2.
Proof.
  intros Hs. unfold SetOption.
  repeat case_bool_decide; cbn [snd]; try done;
    try (apply inv_update; [done|]; intros j _ Hi Hn; cbn; tauto).
  - destruct (TnmGetPositiveFromObj _) as [num|] eqn:E; [|done]. apply positive_range in E.
    apply inv_update; [done|]. intros j _ Hi Hn. cbn. split; [lia|tauto].
  - destruct (TnmGetUnsignedFromObj _) as [num|] eqn:E; [|done]. apply unsigned_range in E.
    apply inv_update; [done|]. intros j _ Hi Hn. cbn. split; [lia|tauto].
  - apply inv_next, inv_adjust, inv_update; [done|]. intros j _ Hi Hn. cbn. split; [done|]. done.
  - apply inv_next, inv_adjust, inv_update; [done|]. intros j _ Hi Hn. split; [done|]. cbn [job_status set_status]. congruence.
Qed.

Lemma inv_apply a args : forall s, job_inv s -> job_inv (set_config_apply (job_config get_int a) s args).2.
Proof.
  induction args as [|[name v] args IH]; intros s Hs; cbn [set_config_apply setOption job_config]; [done|].
  pose proof (inv_SetOption a s (TnmGetTableKeyFromObj job_optionTable name) v Hs) as H.
  destruct (SetOption _ _ _ _ _) as [[] s']; cbn in *; [by apply IH|done].
Qed.

Lemma inv_configure a args s : job_inv s -> job_inv (configure get_int a args s).1.2.
Proof.
  intros Hs. unfold configure, TnmSetConfig. destruct args as [args|]; [|done].
  destruct (set_config_scan _ _); [|done]. pose proof (inv_apply a args s Hs) as H.
  destruct (set_config_apply _ _ _) as [[] s']; cbn in *; [by apply inv_adjust|done].
Qed.

Lemma inv_JobObjCmd a cmd s : job_inv s -> job_inv (JobObjCmd get_int a cmd s).1.2.
Proof.
  intros Hs. destruct cmd as [[name|] value|option|args|]; cbn [JobObjCmd].
  - destruct (js_heap s !! a) as [j|]; [|done]. destruct (TnmAttrSet _ _ _) as [[code r] attrs]. cbn.
    apply inv_update; [done|]. intros i _ ? ?. cbn. tauto.
  - done.
  - unfold cget. destruct (TnmGetConfig _ _ _). cbn. case_bool_decide; [by apply inv_adjust|done].
  - pose proof (inv_configure a args s Hs). by destruct (configure _ _ _ _) as [[code t] o].
  - cbn. apply inv_update; [done|]. intros j _ ? ?. cbn. split; [done|]. done.
Qed.
End commands.

(** *** Memory *)

Lemma inv_preserve s a : job_inv s -> is_Some (js_heap s !! a) -> job_inv (Tcl_Preserve a s).
Proof.
  intros [H1 H2 H3 H4 H5 H6 H7] Ha. unfold Tcl_Preserve. split; cbn; try done.
  - intros b j Hb Hr. rewrite lookup_insert_is_Some. destruct (decide (a = b)); [by left|right]. split; [done|by apply (H4 b j)].
  - intros b n. rewrite lookup_insert_Some. intros [[<- <-]|[_ Hb]]; [split; [lia|done]|by apply H5].
  - intros b Hb. rewrite lookup_insert_is_Some. destruct (decide (a = b)); [by left|right]. split; [done|by apply H6].
Qed.

(** Removing a job that is neither listed nor preserved from memory. *)
Lemma inv_destroy s a : job_inv s -> a ∉ js_list s -> js_preserved s !! a = None -> job_inv (DestroyProc a s).
Proof.
  intros [H1 H2 H3 H4 H5 H6 H7] Hl Hp. unfold DestroyProc. split; cbn; try done.
  - rewrite Forall_forall in *. intros b Hb. destruct (H2 b Hb) as [? ?]. split; [|done].
    rewrite lookup_delete_ne by (intros ->; done). done.
  - by apply map_Forall_delete.
  - by apply map_Forall_delete.
  - intros b n Hb. destruct (H5 b n Hb) as [? ?]. split; [done|]. rewrite lookup_delete_ne by (intros ->; congruence). done.
Qed.

Lemma inv_eventually s a : job_inv s -> a ∉ js_list s -> job_inv (Tcl_EventuallyFree a s).
Proof.
  intros Hs Hl. unfold Tcl_EventuallyFree. destruct (js_preserved s !! a) as [[|n]|] eqn:E.
  - destruct (inv_preserved s Hs a 0%nat E) as [? _]. lia.
  - destruct Hs as [H1 H2 H3 H4 H5 H6 H7]. split; cbn; try done.
    + rewrite Forall_forall in *. intros b Hb. destruct (H2 b Hb) as [? ?]. split; [done|].
      rewrite elem_of_union, elem_of_singleton. intros [->|?]; done.
    + intros b. rewrite elem_of_union, elem_of_singleton. intros [->|?]; [by rewrite E|by apply H6].
  - by apply inv_destroy.
Qed.

Lemma inv_list_filter s a : job_inv s -> job_inv (with_list (filter (fun b => b <> a) (js_list s)) s).
Proof.
  intros [H1 H2 H3 H4 H5 H6 H7]. split; cbn; try done; [by apply NoDup_filter|].
  rewrite Forall_forall in *. intros b [_ Hb]%list_elem_of_filter. by apply H2.
Qed.

Lemma inv_delete_command s a : job_inv s -> job_inv (delete_command a s).
Proof.
  intros Hs. unfold delete_command. destruct (js_heap s !! a) as [j|]; [|done]. unfold DeleteProc.
  apply inv_eventually; [|cbn; rewrite list_elem_of_filter; naive_solver].
  apply (inv_list_filter (with_names _ _ s)). apply inv_names; [apply Hs|done].
Qed.

(** Releasing a job whose status is not running. *)
Lemma inv_release s a : job_inv s -> (forall j, js_heap s !! a = Some j -> job_status j <> running) ->
  job_inv (Tcl_Release a s).
Proof.
  intros Hs Hr. unfold Tcl_Release. destruct (js_preserved s !! a) as [[|[|n]]|] eqn:E; try done.
  - assert (Hinv : job_inv (with_memory (delete a (js_preserved s)) (js_doomed s ∖ {[a]}) s)).
    { destruct Hs as [H1 H2 H3 H4 H5 H6 H7]. split; cbn; try done.
      - rewrite Forall_forall in *. intros b Hb. destruct (H2 b Hb) as [? ?]. split; [done|]. set_solver.
      - intros b j Hb Hrun. rewrite lookup_delete_is_Some. split; [intros ->; by eapply Hr|by apply (H4 b j)].
      - intros b m. rewrite lookup_delete_Some. intros [_ Hb]. by apply H5.
      - intros b Hb. rewrite lookup_delete_is_Some. split; [set_solver|]. apply H6. set_solver. }
    case_bool_decide as Hd.
    + apply inv_destroy; [done| |apply lookup_delete_eq]. cbn. intros Hl.
      pose proof (inv_alive s Hs) as Hal. rewrite Forall_forall in Hal. by destruct (Hal a Hl).
    + destruct Hinv as [H1 H2 H3 H4 H5 H6 H7]. split; cbn in *; try done; [by apply Hs|].
      intros b Hb. apply H6. set_solver.
  - destruct Hs as [H1 H2 H3 H4 H5 H6 H7]. split; cbn; try done.
    + intros b j Hb Hrun. rewrite lookup_insert_is_Some. destruct (decide (a = b)); [by left|right]. split; [done|by apply (H4 b j)].
    + intros b m. rewrite lookup_insert_Some. intros [[<- <-]|[_ Hb]]; [split; [lia|by apply (H5 a _ E)]|by apply H5].
    + intros b Hb. rewrite lookup_insert_is_Some. destruct (decide (a = b)); [by left|right]. split; [done|by apply H6].
Qed.

(** *** Creation *)

(** What changing options leaves alone. *)
Definition frame (s s' : JobState) : Prop :=
  js_list s' = js_list s /\ js_preserved s' = js_preserved s /\ js_doomed s' = js_doomed s /\
  dom (js_heap s') = dom (js_heap s).

Lemma frame_refl s : frame s s.
Proof. done. Qed.
Lemma frame_trans s1 s2 s3 : frame s1 s2 -> frame s2 s3 -> frame s1 s3.
Proof. intros (?&?&?&?) (?&?&?&?). split_and!; congruence. Qed.
Lemma frame_update f a s : frame s (update_job f a s).
Proof. split_and!; cbn; try done. apply dom_alter_L. Qed.
Lemma frame_next s : frame s (NextSchedule s).
Proof. destruct (next_schedule_fields s) as (E1 & E2 & E3 & E4 & _). split_and!; congruence. Qed.
Lemma frame_adjust s : frame s (AdjustTime s).
Proof.
  unfold AdjustTime. repeat case_bool_decide; try done.
  generalize (js_list (with_lastTime (js_clock s) s)). intros l.
  eapply (frame_trans _ (with_lastTime (js_clock s) s)); [done|].
  induction l as [|a l IH]; [done|]. cbn [foldr]. eapply frame_trans; [exact IH|apply frame_update].
Qed.

Lemma frame_SetOption get_int a s option v : frame s (SetOption get_int a s option v).2.
Proof.
  unfold SetOption. repeat case_bool_decide; cbn [snd]; try apply frame_update; try done;
    try (case_match; [apply frame_update|done]);
    (eapply frame_trans; [|apply frame_next]); (eapply frame_trans; [|apply frame_adjust]); apply frame_update.
Qed.

Lemma frame_configure get_int a args s : frame s (configure get_int a args s).1.2.
Proof.
  unfold configure, TnmSetConfig. destruct args as [args|]; [|done]. destruct (set_config_scan _ _); [|done].
  assert (H : forall args s, frame s (set_config_apply (job_config get_int a) s args).2).
  { clear. induction args as [|[name v] args IH]; intros s; cbn [set_config_apply setOption job_config]; [done|].
    pose proof (frame_SetOption get_int a s (TnmGetTableKeyFromObj job_optionTable name) v) as H.
    destruct (SetOption _ _ _ _ _) as [[] s']; cbn in *; [eapply frame_trans; [exact H|apply IH]|done]. }
  specialize (H args s). destruct (set_config_apply _ _ _) as [[] s']; cbn in *; [|done].
  eapply frame_trans; [exact H|apply frame_adjust].
Qed.

Lemma inv_new_job s : job_inv s -> let a := fresh (dom (js_heap s)) in
  job_inv (with_heap (<[a := new_job]> (js_heap s)) s) /\ (a ∉ js_list s) /\ (a ∉ js_doomed s).
Proof.
  intros Hs a. assert (Ha : js_heap s !! a = None) by (apply not_elem_of_dom, is_fresh).
  destruct Hs as [H1 H2 H3 H4 H5 H6 H7]. split; [|split].
  - split; cbn; try done.
    + rewrite Forall_forall in *. intros b Hb. destruct (H2 b Hb) as [? ?]. split; [|done].
      rewrite lookup_insert_is_Some. destruct (decide (a = b)); [by left|by right].
    + by apply map_Forall_insert_2.
    + by apply map_Forall_insert_2.
    + intros b n Hb. destruct (H5 b n Hb) as [? ?]. split; [done|].
      rewrite lookup_insert_is_Some. destruct (decide (a = b)); [by left|by right].
  - intros Hl. rewrite Forall_forall in H2. destruct (H2 a Hl) as [[j Hj] _]. congruence.
  - intros Hd. destruct (H6 a Hd) as [n Hn]. destruct (H5 a n Hn) as [_ [j Hj]]. congruence.
Qed.

Lemma handle_next_u32 fuel : forall commands prefix id name next,
  is_u32 id -> TnmGetHandle fuel commands prefix id = Some (name, next) -> is_u32 next.
Proof.
  induction fuel as [|fuel IH]; intros commands prefix id name next Hid; [done|]. cbn [TnmGetHandle].
  case_bool_decide; [apply IH, u32_range|]. intros [= <- <-]. apply u32_range.
Qed.

Lemma inv_CreateJob get_int args s : job_inv s -> job_inv (CreateJob get_int args s).1.2.
Proof.
  intros Hs. unfold CreateJob. destruct (inv_new_job s Hs) as (Hn & Hl & Hd).
  set (a := fresh (dom (js_heap s))) in *.
  set (s1 := with_heap (<[a := new_job]> (js_heap s)) s) in *.
  pose proof (inv_configure get_int a args s1 Hn) as Hc. pose proof (frame_configure get_int a args s1) as (F1 & F2 & F3 & F4).
  destruct (configure get_int a args s1) as [[[] s2] opts]; cbn [fst snd] in *.
  - assert (Hi : job_inv (with_list (js_list s2 ++ [a]) s2)).
    { destruct Hc as [H1 H2 H3 H4 H5 H6 H7]. split; cbn; try done.
      - apply NoDup_app. split; [done|]. split; [|apply NoDup_singleton].
        intros b Hb ->%list_elem_of_singleton. rewrite F1 in Hb. done.
      - apply Forall_app. split; [done|]. apply Forall_singleton. split; [|by rewrite F3].
        apply elem_of_dom. rewrite F4. cbn. rewrite dom_insert_L. set_solver. }
    apply inv_next in Hi. set (s3 := NextSchedule _) in *.
    destruct (TnmGetHandle _ _ _ _) as [[name next]|] eqn:E; [|done]. cbn [fst snd].
    apply inv_update; [|intros j _ ? ?; cbn; tauto]. apply inv_names; [|done].
    eapply handle_next_u32; [|exact E]. apply Hi.
  - apply inv_eventually; [done|]. by rewrite F1.
Qed.

(** ** The scheduler *)

Lemma take_new_cmd_tame s a : tame s a take_new_cmd.
Proof. intros j _ Hi Hn. unfold take_new_cmd. destruct (job_newCmd j); cbn; tauto. Qed.

Lemma inv_find_due l : forall s, job_inv s -> Forall (fun a => is_Some (js_heap s !! a)) l ->
  exists r s', find_due l s = Ok (r, s') /\ job_inv s' /\ frame s s' /\
    match r with Some a => a ∈ l /\ exists j, js_heap s' !! a = Some j /\ due j | None => True end.
Proof.
  induction l as [|a l IH]; intros s Hs Hl; cbn [find_due]; [by exists None, s|].
  apply Forall_cons in Hl as [Ha Hl]. set (s1 := update_job take_new_cmd a s).
  assert (Hs1 : job_inv s1) by (apply inv_update; [done|apply take_new_cmd_tame]).
  assert (Ha1 : is_Some (js_heap s1 !! a)) by (by apply lookup_alter_is_Some).
  destruct Ha1 as [j Hj]. rewrite Hj. destruct (bool_decide _ && bool_decide _) eqn:E.
  - apply andb_true_iff in E as [E1%bool_decide_eq_true E2%bool_decide_eq_true].
    exists (Some a), s1. split; [done|]. split; [done|]. split; [apply frame_update|]. split; [by left|]. by exists j.
  - destruct (IH s1 Hs1) as (r & s' & -> & Hi & Hf & Hr).
    { eapply Forall_impl; [exact Hl|]. intros b Hb. by apply lookup_alter_is_Some. }
    exists r, s'. split; [done|]. split; [done|]. split; [eapply frame_trans; [apply frame_update|exact Hf]|].
    destruct r as [b|]; [|done]. destruct Hr as [? ?]. split; [by right|done].
Qed.

Lemma job_done_spec j : job_status (job_done j) <> running /\ job_interval (job_done j) = job_interval j /\
  (0 <= job_iterations j -> 0 <= job_iterations (job_done j)).
Proof.
  unfold job_done. case_bool_decide; cbn; case_bool_decide; cbn; try case_bool_decide; cbn in *; split_and!; (done || lia).
Qed.

Lemma preserved_release a s s' : job_inv s -> js_preserved s' = js_preserved (Tcl_Preserve a s) ->
  js_preserved (Tcl_Release a s') = js_preserved s.
Proof.
  intros Hs E. unfold Tcl_Release. rewrite E. cbn. rewrite lookup_insert_eq.
  destruct (js_preserved s !! a) as [[|n]|] eqn:Ea; cbn.
  - destruct (inv_preserved s Hs a 0%nat Ea). lia.
  - rewrite insert_insert_eq. by apply insert_id.
  - case_bool_decide; cbn; rewrite delete_insert_eq; by apply delete_id.
Qed.

Section scheduler.
Variable eval : cstring -> JobState -> tcl_code * JobState.

(** Scripts act through the commands, which keep the invariant, and leave no
    job preserved that was not, nor the other way round. *)
Definition script_ok : Prop :=
  forall c s, job_inv s -> job_inv (eval c s).2 /\ js_preserved (eval c s).2 = js_preserved s.

(** The exit script of an expired job has deleted that job. *)
Definition exit_deletes_job : Prop :=
  exists s a j, job_inv s /\ a ∈ js_list s /\ js_heap s !! a = Some j /\ job_status j = expired /\
    job_exitCmd j <> [] /\ js_heap (eval (job_exitCmd j) s).2 !! a = None.

Lemma inv_run_job a s : script_ok -> job_inv s -> is_Some (js_heap s !! a) ->
  exists s', run_job eval a s = Ok s' /\ job_inv s' /\ js_preserved s' = js_preserved s.
Proof.
  intros Hok Hs Ha. unfold run_job.
  set (s1 := update_job (set_status running) a (with_current (Some a) (Tcl_Preserve a s))).
  assert (Hp1 : js_preserved s1 = js_preserved (Tcl_Preserve a s)) by done.
  assert (Hs1 : job_inv s1).
  { apply inv_update; [by apply inv_current, inv_preserve|]. intros j _ ? ?. cbn. split; [done|]. intros _.
    right. rewrite lookup_insert_eq. by eexists. }
  assert (Hkeep : forall t, job_inv t -> js_preserved t = js_preserved s1 -> is_Some (js_heap t !! a)).
  { intros t Ht Et. assert (Hk : js_preserved t !! a = Some (S (default 0%nat (js_preserved s !! a))))
      by (rewrite Et; apply lookup_insert_eq). by destruct (inv_preserved t Ht a _ Hk). }
  destruct (Hkeep s1 Hs1 eq_refl) as [j Hj]. rewrite Hj.
  pose proof (Hok (job_cmd j) s1 Hs1) as [Hi2 Hp2]. destruct (eval (job_cmd j) s1) as [code s2]. cbn [fst snd] in *.
  destruct (Hkeep s2 Hi2 Hp2) as [j2 Hj2]. rewrite Hj2.
  set (s3 := match code with TCL_ERROR => _ | TCL_OK => s2 end).
  assert (Hs3 : job_inv s3 /\ js_preserved s3 = js_preserved s1).
  { unfold s3. destruct code; [done|]. case_bool_decide; [|split; [|done]; apply inv_update; [done|]; by intros i _ ? ?].
    destruct (Hok (job_errorCmd j2) s2 Hi2) as [? ->]. done. }
  destruct Hs3 as [Hi3 Hp3]. destruct (Hkeep s3 Hi3 Hp3) as [j3 Hj3]. rewrite Hj3.
  eexists. split; [done|]. split.
  - apply inv_release.
    + apply inv_update; [by apply inv_current|]. intros i _ Hiv Hit. destruct (job_done_spec i) as (H1 & H2 & H3).
      rewrite H2. split; [split; [done|by apply H3]|]. intros. by left.
    + intros i. cbn. rewrite lookup_alter_eq. intros (k & _ & ->)%fmap_Some_1.
      apply job_done_spec.
  - apply preserved_release; [done|]. cbn. by rewrite Hp3, Hp1.
Qed.

Lemma inv_listed s : job_inv s -> Forall (fun a => is_Some (js_heap s !! a)) (js_list s).
Proof. intros Hs. eapply Forall_impl; [apply Hs|]. by intros a [? _]. Qed.

(** No job is due any more. *)
Definition none_due (s : JobState) : Prop := Forall (fun j => ~ due j) (jobs s).
Definition none_expired (s : JobState) : Prop := Forall (fun j => job_status j <> expired) (jobs s).

Lemma inv_run_due fuel : forall s, script_ok -> job_inv s ->
  match run_due eval fuel s with
  | Ok s' => job_inv s' /\ js_preserved s' = js_preserved s
  | UseAfterFree => False
  | NoFuel => True
  end.
Proof.
  induction fuel as [|fuel IH]; intros s Hok Hs; cbn [run_due]; [done|].
  destruct (inv_find_due (js_list s) s Hs (inv_listed s Hs)) as (r & s1 & -> & Hs1 & (F1 & F2 & F3 & F4) & Hr).
  destruct r as [a|]; [|done]. destruct Hr as (_ & j & Hj & _).
  destruct (inv_run_job a s1 Hok Hs1) as (s2 & -> & Hs2 & Hp2); [by eexists|].
  specialize (IH s2 Hok Hs2). destruct (run_due eval fuel s2); [|done|done]. destruct IH as [? ->]. split; [done|congruence].
Qed.

Lemma find_expired_spec l s : Forall (fun a => is_Some (js_heap s !! a)) l ->
  exists r, find_expired l s = Ok r /\
    match r with
    | Some a => a ∈ l /\ exists j, js_heap s !! a = Some j /\ job_status j = expired
    | None => Forall (fun j => job_status j <> expired) (omap (fun a => js_heap s !! a) l)
    end.
Proof.
  induction l as [|a l IH]; intros Hl; cbn [find_expired]; [by exists None|].
  apply Forall_cons in Hl as [[j Hj] Hl]. rewrite Hj. case_bool_decide as He.
  - exists (Some a). split; [done|]. split; [by left|]. by exists j.
  - destruct (IH Hl) as (r & -> & Hr). exists r. split; [done|]. destruct r as [b|].
    + destruct Hr as [? ?]. split; [by right|done].
    + cbn [omap list_omap]. rewrite Hj. by constructor.
Qed.

Lemma preserved_delete a s : js_preserved (delete_command a s) = js_preserved s.
Proof.
  unfold delete_command. destruct (js_heap s !! a); [|done]. unfold DeleteProc, Tcl_EventuallyFree. by repeat case_match.
Qed.

Lemma inv_remove_expired fuel : forall s, script_ok -> job_inv s ->
  match remove_expired eval fuel s with
  | Ok s' => job_inv s' /\ js_preserved s' = js_preserved s /\ none_expired s'
  | UseAfterFree => exit_deletes_job
  | NoFuel => True
  end.
Proof.
  induction fuel as [|fuel IH]; intros s Hok Hs; cbn [remove_expired]; [done|].
  destruct (find_expired_spec (js_list s) s (inv_listed s Hs)) as (r & -> & Hr).
  destruct r as [a|]; [|done]. destruct Hr as (Hin & j & Hj & Hx). rewrite Hj.
  set (s1 := if bool_decide (job_exitCmd j <> []) then _ else s).
  assert (Hs1 : job_inv s1 /\ js_preserved s1 = js_preserved s).
  { unfold s1. case_bool_decide; [|done]. by apply Hok. }
  destruct Hs1 as (Hi & Hp). destruct (js_heap s1 !! a) as [j1|] eqn:Hj1.
  - specialize (IH (delete_command a s1) Hok (inv_delete_command s1 a Hi)).
    destruct (remove_expired _ _ _); [|done|done]. destruct IH as (? & -> & ?). split; [done|]. split; [|done].
    by rewrite preserved_delete.
  - unfold s1 in Hj1. case_bool_decide; [|congruence]. by exists s, a, j.
Qed.

Lemma adjust_status s : none_expired s -> job_inv s -> none_expired (AdjustTime s).
Proof.
  intros Hn Hs. unfold none_expired, jobs, AdjustTime in *. repeat case_bool_decide; try done.
  set (f := adjust_job _). change (js_list (with_lastTime (js_clock s) s)) with (js_list s).
  destruct (foldr_update_fields f (js_list s) (with_lastTime (js_clock s) s)) as (-> & _).
  change (js_list (with_lastTime (js_clock s) s)) with (js_list s).
  rewrite Forall_forall in *. intros j (a & Ha & Hj)%list_elem_of_omap.
  rewrite foldr_update_lookup, decide_True in Hj by (done || apply Hs). cbn in Hj.
  apply fmap_Some in Hj as (i & Hi & ->).
  assert (job_status (f i) = job_status i) as -> by (unfold f, adjust_job; by case_bool_decide).
  apply Hn. apply list_elem_of_omap. by exists a.
Qed.

Lemma inv_Schedule fuel s : script_ok -> job_inv s ->
  match Schedule eval fuel s with
  | Ok s' => job_inv s' /\ js_preserved s' = js_preserved s /\ none_expired s'
  | UseAfterFree => exit_deletes_job
  | NoFuel => True
  end.
Proof.
  intros Hok Hs. unfold Schedule. pose proof (inv_run_due fuel (AdjustTime s) Hok (inv_adjust s Hs)) as H1.
  destruct (run_due eval fuel (AdjustTime s)) as [s1| |]; [|done|done]. destruct H1 as [Hi1 Hp1].
  pose proof (inv_remove_expired fuel s1 Hok Hi1) as H2. destruct (remove_expired eval fuel s1) as [s2| |]; [|done|done].
  destruct H2 as (Hi2 & Hp2 & Hn2). destruct (frame_next (AdjustTime s2)) as (E1 & E2 & E3 & E4).
  destruct (frame_adjust s2) as (A1 & A2 & A3 & A4). destruct (frame_adjust s) as (B1 & B2 & B3 & B4).
  split; [by apply inv_next, inv_adjust|]. split; [congruence|].
  unfold none_expired, jobs. rewrite E1. destruct (next_schedule_fields (AdjustTime s2)) as (-> & _).
  by apply adjust_status.
Qed.
End scheduler.

(** ** A pass of the scheduler *)

(** Scripts that only take time. *)
Section quiet.
Variable code : cstring -> tcl_code.
Variable tick : cstring -> Z * Z -> Z * Z.
Definition quiet (c : cstring) (s : JobState) : tcl_code * JobState := (code c, with_clock (tick c (js_clock s)) s).

Lemma quiet_ok : script_ok quiet.
Proof. intros c s Hs. split; [by apply inv_clock|done]. Qed.

(** What a pass makes of a job. *)
Definition executed (j : Job) : Job :=
  match code (job_cmd j) with
  | TCL_ERROR => if decide (job_errorCmd j = []) then set_status expired j else set_status running j
  | TCL_OK => set_status running j
  end.
Definition pass_job (j : Job) : Job :=
  let j := take_new_cmd j in if decide (due j) then job_done (executed j) else j.

Lemma take_new_cmd_idemp j : take_new_cmd (take_new_cmd j) = take_new_cmd j.
Proof. unfold take_new_cmd at 2 3. destruct (job_newCmd j) as [c|] eqn:E; [done|]. unfold take_new_cmd. by rewrite E. Qed.

Lemma pass_job_new_cmd j : pass_job (take_new_cmd j) = pass_job j.
Proof. unfold pass_job. by rewrite take_new_cmd_idemp. Qed.

Lemma take_new_cmd_fields j : job_newCmd (take_new_cmd j) = None /\ job_interval (take_new_cmd j) = job_interval j.
Proof. unfold take_new_cmd. by destruct (job_newCmd j) eqn:E. Qed.

Lemma job_done_fields j : job_newCmd (job_done j) = job_newCmd j /\ job_remtime (job_done j) = job_interval j.
Proof. unfold job_done. repeat (case_bool_decide; cbn); done. Qed.

Lemma executed_fields j : job_newCmd (executed j) = job_newCmd j /\ job_interval (executed j) = job_interval j.
Proof. unfold executed. destruct (code _); [done|]. by case_decide. Qed.

Lemma pass_job_rest j : 1 <= job_interval j -> ~ due (pass_job j) /\ take_new_cmd (pass_job j) = pass_job j.
Proof.
  intros Hi. unfold pass_job. destruct (take_new_cmd_fields j) as [Hn Hiv].
  case_decide as Hd; [|split; [done|apply take_new_cmd_idemp]].
  destruct (executed_fields (take_new_cmd j)) as [En Ei]. destruct (job_done_fields (executed (take_new_cmd j))) as [Dn Dr].
  split; [intros [_ Hr]; lia|]. unfold take_new_cmd at 1. by rewrite Dn, En, Hn.
Qed.

(** The loop up to the first job that is due. *)
Lemma find_due_heap l : forall s r s', NoDup l -> find_due l s = Ok (r, s') ->
  (forall b, take_new_cmd <$> js_heap s' !! b = take_new_cmd <$> js_heap s !! b) /\
  (forall b, b ∉ l -> js_heap s' !! b = js_heap s !! b) /\
  match r with
  | None => forall b, b ∈ l -> exists j, js_heap s !! b = Some j /\ js_heap s' !! b = Some (take_new_cmd j) /\ ~ due (take_new_cmd j)
  | Some a => (exists l1 l2, l = l1 ++ a :: l2 /\ forall b, b ∈ l1 -> exists j, js_heap s !! b = Some j /\ ~ due (take_new_cmd j)) /\
      exists j, js_heap s !! a = Some j /\ js_heap s' !! a = Some (take_new_cmd j) /\ due (take_new_cmd j)
  end /\ js_clock s' = js_clock s /\ js_lastTime s' = js_lastTime s.
Proof.
  induction l as [|a l IH]; intros s r s' Hnd; cbn [find_due].
  - intros [= <- <-]. split; [done|]. split; [done|]. split; [|done]. intros b Hb. by apply elem_of_nil in Hb.
  - apply NoDup_cons in Hnd as [Hnotin Hnd]. set (s1 := update_job take_new_cmd a s).
    assert (Hne : forall b, a <> b -> js_heap s1 !! b = js_heap s !! b) by (intros b Hb; cbn; by rewrite lookup_alter_ne).
    assert (Ha : js_heap s1 !! a = take_new_cmd <$> js_heap s !! a) by (cbn; by rewrite lookup_alter_eq).
    assert (Hh : forall b, take_new_cmd <$> js_heap s1 !! b = take_new_cmd <$> js_heap s !! b).
    { intros b. destruct (decide (a = b)) as [->|Hb]; [|by rewrite Hne].
      rewrite Ha, <- option_fmap_compose. apply option_fmap_ext. intros j. apply take_new_cmd_idemp. }
    destruct (js_heap s !! a) as [j|] eqn:Ej; rewrite Ha; [|done]. cbn [fmap option_fmap option_map] in Ha |- *.
    assert (Hout : forall b, b ∉ a :: l -> a <> b /\ (b ∉ l)) by (intros b Hb; rewrite not_elem_of_cons in Hb; naive_solver).
    destruct (bool_decide _ && bool_decide _) eqn:E.
    + apply andb_true_iff in E as [E1%bool_decide_eq_true E2%bool_decide_eq_true]. intros [= <- <-].
      split; [done|]. split; [intros b [? _]%Hout; by apply Hne|]. split; [|done].
      split; [exists [], l; split; [done|]; intros b Hb; by apply elem_of_nil in Hb|]. exists j. by split_and!.
    + assert (Hnd' : ~ due (take_new_cmd j)).
      { intros [E1 E2]. rewrite !bool_decide_eq_true_2 in E by done. done. }
      intros Hf. destruct (IH s1 r s' Hnd Hf) as (H1 & H2 & H3 & H4).
      split; [intros b; by rewrite H1, Hh|]. split; [intros b [Hb ?]%Hout; rewrite H2 by done; by apply Hne|].
      split; [|destruct H4 as [-> ->]; done]. destruct r as [c|].
      * destruct H3 as ((l1 & l2 & -> & Hl1) & i & Hi & Hi' & Hd). split.
        -- exists (a :: l1), l2. split; [done|]. intros b [->|Hb]%elem_of_cons; [by exists j|].
           destruct (Hl1 b Hb) as (k & Hk & ?). exists k. split; [|done]. rewrite <- Hk. symmetry. apply Hne.
           intros ->. apply Hnotin, elem_of_app. by left.
        -- exists i. split; [|done]. rewrite <- Hi. symmetry. apply Hne. intros ->. apply Hnotin, elem_of_app. right. by left.
      * intros b [->|Hb]%elem_of_cons.
        -- exists j. split; [done|]. split; [|done]. by rewrite H2.
        -- destruct (H3 b Hb) as (i & Hi & ?). exists i. split; [|done]. rewrite <- Hi. symmetry. apply Hne.
           intros ->. done.
Qed.

(** The scripts a job evaluates when it is executed, and the time they take. *)
Definition scripts (j : Job) : list cstring :=
  job_cmd j :: match code (job_cmd j) with
               | TCL_ERROR => if decide (job_errorCmd j = []) then [] else [job_errorCmd j]
               | TCL_OK => []
               end.
Definition clock_after (now : Z * Z) (cs : list cstring) : Z * Z := foldl (fun t c => tick c t) now cs.

(** The execution of one job. *)
Lemma run_job_quiet a s j : job_inv s -> a ∈ js_list s -> js_heap s !! a = Some j ->
  exists s', run_job quiet a s = Ok s' /\ job_inv s' /\ js_list s' = js_list s /\
    js_heap s' !! a = Some (job_done (executed j)) /\ (forall b, b <> a -> js_heap s' !! b = js_heap s !! b) /\
    js_clock s' = clock_after (js_clock s) (scripts j) /\ js_lastTime s' = js_lastTime s.
Proof.
  intros Hs Hin Hj. pose proof quiet_ok as Hok.
  destruct (inv_run_job quiet a s Hok Hs) as (s' & E & Hs' & _); [by eexists|]. exists s'. split; [done|]. split; [done|].
  assert (Hnd : a ∉ js_doomed s).
  { pose proof (inv_alive s Hs) as Hal. rewrite Forall_forall in Hal. by apply Hal. }
  unfold run_job, quiet in E. cbn in E. rewrite lookup_alter_eq, Hj in E. cbn in E.
  assert (Hrel : forall u, js_doomed u = js_doomed s ->
    js_list (Tcl_Release a u) = js_list u /\ js_heap (Tcl_Release a u) = js_heap u /\
    js_clock (Tcl_Release a u) = js_clock u /\ js_lastTime (Tcl_Release a u) = js_lastTime u).
  { intros u Hu. unfold Tcl_Release. rewrite Hu. rewrite (bool_decide_eq_false_2 (a ∈ js_doomed s)) by done. by repeat case_match. }
  revert E. unfold clock_after, scripts, executed.
  destruct (code (job_cmd j)) eqn:Ec; [|case_bool_decide as He]; cbn; rewrite ?lookup_alter_eq, ?Hj; cbn;
    intros [= <-]; match goal with |- context [Tcl_Release a ?u] => destruct (Hrel u ltac:(done)) as (-> & -> & -> & ->) end; cbn;
    rewrite ?(decide_True (P := job_errorCmd j = [])), ?(decide_False (P := job_errorCmd j = [])) by done;
    (split; [done|]); (split; [|split; [intros b Hb; by rewrite !lookup_alter_ne by done|done]]);
    by rewrite !lookup_alter_eq, Hj.
Qed.

(** A list computed from the jobs that are due, in the order of the list. *)
Definition of_due {A} (f : nat -> Job -> list A) (h : gmap nat Job) (l : list nat) : list A :=
  l ≫= (fun a => match h !! a with
                 | Some j => if decide (due (take_new_cmd j)) then f a (take_new_cmd j) else []
                 | None => []
                 end).

Lemma of_due_ext {A} (f : nat -> Job -> list A) h h' l :
  (forall b, b ∈ l -> take_new_cmd <$> h' !! b = take_new_cmd <$> h !! b) -> of_due f h' l = of_due f h l.
Proof.
  unfold of_due. induction l as [|b l IH]; intros H; [done|]. rewrite !bind_cons, IH by (intros c Hc; apply H; by right).
  f_equal. specialize (H b ltac:(by left)). destruct (h' !! b), (h !! b); try done. cbn in H. by injection H as ->.
Qed.

Lemma of_due_none {A} (f : nat -> Job -> list A) h l :
  (forall b, b ∈ l -> exists j, h !! b = Some j /\ ~ due (take_new_cmd j)) -> of_due f h l = [].
Proof.
  unfold of_due. induction l as [|b l IH]; intros H; [done|]. rewrite bind_cons, IH by (intros c Hc; apply H; by right).
  destruct (H b ltac:(by left)) as (j & -> & ?). by rewrite decide_False.
Qed.

(** Once the first job that is due was executed, the others remain. *)
Lemma of_due_step {A} (f : nat -> Job -> list A) h h' l1 a l2 j : NoDup (l1 ++ a :: l2) ->
  (forall b, b ∈ l1 -> exists i, h !! b = Some i /\ ~ due (take_new_cmd i)) ->
  h !! a = Some j -> due (take_new_cmd j) -> 1 <= job_interval j -> h' !! a = Some (pass_job j) ->
  (forall b, b <> a -> take_new_cmd <$> h' !! b = take_new_cmd <$> h !! b) ->
  of_due f h (l1 ++ a :: l2) = f a (take_new_cmd j) ++ of_due f h' (l1 ++ a :: l2).
Proof.
  intros Hnd Hl1 Hj Hd Hi Hj' Hh. apply NoDup_app in Hnd as (_ & Hdis & Hnd). apply NoDup_cons in Hnd as [Ha _].
  unfold of_due at 1. rewrite bind_app, bind_cons. fold (of_due f h l1) (of_due f h l2).
  rewrite Hj, decide_True by done. rewrite of_due_none by done. cbn [app]. f_equal.
  unfold of_due at 2. rewrite bind_app, bind_cons. fold (of_due f h' l1) (of_due f h' l2).
  destruct (pass_job_rest j Hi) as [Hr1 Hr2]. rewrite Hj', Hr2, decide_False by done. cbn [app].
  rewrite (of_due_ext f h h' l2) by (intros b Hb; apply Hh; by intros ->).
  rewrite (of_due_ext f h h' l1), (of_due_none f h l1); [done|done|].
  intros b Hb. apply Hh. intros ->. apply (Hdis a Hb). by left.
Qed.

Lemma pass_job_fix j : 1 <= job_interval j -> pass_job (pass_job j) = pass_job j.
Proof.
  intros Hi. destruct (pass_job_rest j Hi) as [H1 H2]. unfold pass_job at 1. rewrite H2. by rewrite decide_False.
Qed.

Lemma pass_job_ext (x y : option Job) : take_new_cmd <$> x = take_new_cmd <$> y -> pass_job <$> x = pass_job <$> y.
Proof.
  destruct x as [i|], y as [j|]; try done. cbn. intros [= H]. f_equal.
  by rewrite <- (pass_job_new_cmd i), <- (pass_job_new_cmd j), H.
Qed.

(** The first loop of a pass: every job that is due is executed once, in the order
    of the list. *)
Lemma run_due_quiet fuel : forall s, job_inv s ->
  (length (of_due (fun a _ => [a]) (js_heap s) (js_list s)) < fuel)%nat ->
  exists s', run_due quiet fuel s = Ok s' /\ job_inv s' /\ js_list s' = js_list s /\
    (forall a, a ∈ js_list s -> js_heap s' !! a = pass_job <$> js_heap s !! a) /\
    js_clock s' = clock_after (js_clock s) (of_due (fun _ => scripts) (js_heap s) (js_list s)) /\
    js_lastTime s' = js_lastTime s.
Proof.
  induction fuel as [|fuel IH]; intros s Hs Hf; [lia|]. cbn [run_due].
  destruct (inv_find_due (js_list s) s Hs (inv_listed s Hs)) as (r & s1 & E & Hs1 & (F1 & _) & _). rewrite E.
  destruct (find_due_heap _ _ _ _ (inv_nodup s Hs) E) as (H1 & _ & H3 & H4 & T4). destruct r as [a|].
  - destruct H3 as ((l1 & l2 & El & Hl1) & j & Hj & Hj1 & Hd).
    assert (Hin : a ∈ js_list s) by (rewrite El, elem_of_app; right; by left).
    assert (Hi : 1 <= job_interval j) by (by apply (inv_jobs s Hs a)).
    destruct (run_job_quiet a s1 (take_new_cmd j) Hs1) as (s2 & -> & Hs2 & L2 & J2 & O2 & C2 & T2); [by rewrite F1|done|].
    assert (J2' : js_heap s2 !! a = Some (pass_job j)) by (rewrite J2; unfold pass_job; by rewrite decide_True).
    assert (O2' : forall b, b <> a -> take_new_cmd <$> js_heap s2 !! b = take_new_cmd <$> js_heap s !! b)
      by (intros b Hb; by rewrite O2, H1).
    pose proof (inv_nodup s Hs) as Hnd. rewrite El in Hnd, Hf.
    assert (Ls2 : js_list s2 = l1 ++ a :: l2) by congruence.
    rewrite (of_due_step _ _ _ _ _ _ _ Hnd Hl1 Hj Hd Hi J2' O2') in Hf. cbn in Hf.
    destruct (IH s2 Hs2) as (s' & -> & Hs' & Ls' & Hh & Hc & T'); [rewrite Ls2; lia|].
    exists s'. split; [done|]. split; [done|]. split; [congruence|]. split.
    + intros b Hb. rewrite Hh by congruence. destruct (decide (b = a)) as [->|Hne]; [|by apply pass_job_ext, O2'].
      rewrite J2', Hj. cbn. by rewrite pass_job_fix.
    + split; [|congruence]. rewrite Hc, C2, H4, Ls2, El. rewrite (of_due_step _ _ _ _ _ _ _ Hnd Hl1 Hj Hd Hi J2' O2').
      unfold clock_after. by rewrite foldl_app.
  - exists s1. split; [done|]. split; [done|]. split; [done|]. split.
    + intros a Ha. destruct (H3 a Ha) as (j & -> & -> & Hn). cbn. f_equal. unfold pass_job. by rewrite decide_False.
    + split; [|done]. rewrite H4, of_due_none; [done|]. intros b Hb. destruct (H3 b Hb) as (j & ? & _ & ?). by exists j.
Qed.
(** *** The second loop *)

Definition collect {A} (f : nat -> Job -> list A) (h : gmap nat Job) (l : list nat) : list A :=
  l ≫= (fun a => match h !! a with Some j => f a j | None => [] end).
Definition exits (a : nat) (j : Job) : list cstring :=
  if decide (job_status j = expired /\ job_exitCmd j <> []) then [job_exitCmd j] else [].
Definition job_kept (a : nat) (j : Job) : list nat := if decide (job_status j = expired) then [] else [a].

Lemma collect_ext {A} (f g : nat -> Job -> list A) h h' l :
  (forall b, b ∈ l -> (f b <$> h !! b) = (g b <$> h' !! b)) -> collect f h l = collect g h' l.
Proof.
  unfold collect. induction l as [|b l IH]; intros H; [done|]. rewrite !bind_cons, IH by (intros c Hc; apply H; by right).
  f_equal. specialize (H b ltac:(by left)). destruct (h !! b), (h' !! b); try done. cbn in H. by injection H as ->.
Qed.

Lemma collect_app {A} (f : nat -> Job -> list A) h l1 l2 : collect f h (l1 ++ l2) = collect f h l1 ++ collect f h l2.
Proof. apply bind_app. Qed.

Lemma collect_ids h l : (forall b, b ∈ l -> exists j, h !! b = Some j /\ job_status j <> expired) -> collect job_kept h l = l.
Proof.
  intros H. induction l as [|b l IH]; [done|]. unfold collect. rewrite bind_cons.
  destruct (H b ltac:(by left)) as (j & -> & ?). unfold job_kept at 1. rewrite decide_False by done. cbn. f_equal.
  apply IH. intros c Hc. apply H. by right.
Qed.

Lemma collect_no_exits h l : (forall b, b ∈ l -> exists j, h !! b = Some j /\ job_status j <> expired) -> collect exits h l = [].
Proof.
  intros H. induction l as [|b l IH]; [done|]. unfold collect. rewrite bind_cons.
  destruct (H b ltac:(by left)) as (j & -> & ?). unfold exits at 1. rewrite decide_False by tauto. cbn.
  apply IH. intros c Hc. apply H. by right.
Qed.

Lemma find_expired_first l s : forall r, find_expired l s = Ok r ->
  match r with
  | Some a => exists l1 l2 j, l = l1 ++ a :: l2 /\ js_heap s !! a = Some j /\ job_status j = expired /\
      forall b, b ∈ l1 -> exists i, js_heap s !! b = Some i /\ job_status i <> expired
  | None => forall b, b ∈ l -> exists i, js_heap s !! b = Some i /\ job_status i <> expired
  end.
Proof.
  induction l as [|a l IH]; intros r; cbn [find_expired].
  - intros [= <-] b Hb. by apply elem_of_nil in Hb.
  - destruct (js_heap s !! a) as [j|] eqn:Ej; [|done]. case_bool_decide as He.
    + intros [= <-]. exists [], l, j. split_and!; try done. intros b Hb. by apply elem_of_nil in Hb.
    + intros Hr. specialize (IH r Hr). destruct r as [c|].
      * destruct IH as (l1 & l2 & i & -> & Hi & Hx & Hl1). exists (a :: l1), l2, i. split_and!; try done.
        intros b [->|Hb]%elem_of_cons; [by exists j|by apply Hl1].
      * intros b [->|Hb]%elem_of_cons; [by exists j|by apply IH].
Qed.

Lemma delete_command_fields a s : is_Some (js_heap s !! a) ->
  js_list (delete_command a s) = filter (fun b => b <> a) (js_list s) /\
  (forall b, b <> a -> js_heap (delete_command a s) !! b = js_heap s !! b) /\
  js_clock (delete_command a s) = js_clock s /\ js_lastTime (delete_command a s) = js_lastTime s.
Proof.
  intros [j Hj]. unfold delete_command. rewrite Hj. unfold DeleteProc, Tcl_EventuallyFree, DestroyProc.
  repeat case_match; (split; [done|]; split; [intros b Hb; cbn; rewrite ?lookup_delete_ne by done; done|done]).
Qed.

Lemma filter_absent (l : list nat) a : a ∉ l -> filter (fun b => b <> a) l = l.
Proof.
  induction l as [|b l IH]; intros H; [done|]. apply not_elem_of_cons in H as [Hb Hl]. rewrite filter_cons_True by done. f_equal. by apply IH.
Qed.

Lemma filter_remove (l1 l2 : list nat) a : NoDup (l1 ++ a :: l2) -> filter (fun b => b <> a) (l1 ++ a :: l2) = l1 ++ l2.
Proof.
  intros (_ & Hdis & [Ha _]%NoDup_cons)%NoDup_app. rewrite filter_app, filter_cons_False by naive_solver.
  f_equal; apply filter_absent; [|done]. intros Hb. apply (Hdis a Hb). by left.
Qed.

Lemma remove_expired_quiet fuel : forall s, job_inv s -> (length (js_list s) < fuel)%nat ->
  exists s', remove_expired quiet fuel s = Ok s' /\ job_inv s' /\ js_list s' = collect job_kept (js_heap s) (js_list s) /\
    (forall a, a ∈ js_list s' -> js_heap s' !! a = js_heap s !! a) /\
    js_clock s' = clock_after (js_clock s) (collect exits (js_heap s) (js_list s)) /\ js_lastTime s' = js_lastTime s.
Proof.
  induction fuel as [|fuel IH]; intros s Hs Hf; [lia|]. cbn [remove_expired].
  destruct (find_expired_spec (js_list s) s (inv_listed s Hs)) as (r & E & _). rewrite E.
  apply find_expired_first in E. destruct r as [a|].
  - destruct E as (l1 & l2 & j & El & Hj & Hx & Hl1). rewrite Hj.
    set (s1 := if bool_decide (job_exitCmd j <> []) then _ else s).
    assert (H1 : js_heap s1 = js_heap s /\ js_list s1 = js_list s /\ js_clock s1 = clock_after (js_clock s) (exits a j) /\
      js_lastTime s1 = js_lastTime s /\ job_inv s1).
    { unfold s1, exits. case_bool_decide; [rewrite decide_True by done|rewrite decide_False by tauto]; split_and!; try done.
      by apply inv_clock. }
    destruct H1 as (Eh & Elist & Ec & Et & Hs1). rewrite Eh, Hj.
    destruct (delete_command_fields a s1) as (D1 & D2 & D3 & D4); [rewrite Eh; by eexists|].
    pose proof (inv_nodup s Hs) as Hnd. rewrite El in Hnd. pose proof Hnd as (_ & Hdis & [Ha _]%NoDup_cons)%NoDup_app.
    rewrite Elist, El, filter_remove in D1 by done.
    assert (Hkeep : forall b, b ∈ l1 ++ l2 -> js_heap (delete_command a s1) !! b = js_heap s !! b).
    { intros b Hb. rewrite D2, Eh; [done|]. intros ->. apply elem_of_app in Hb as [Hb|Hb]; [|done]. apply (Hdis a Hb). by left. }
    assert (Hcol : forall A (f : nat -> Job -> list A),
      collect f (js_heap (delete_command a s1)) (l1 ++ l2) = collect f (js_heap s) l1 ++ collect f (js_heap s) l2).
    { intros A f. rewrite <- collect_app. apply collect_ext. intros b Hb. by rewrite Hkeep. }
    destruct (IH (delete_command a s1) (inv_delete_command s1 a Hs1)) as (s' & -> & Hs' & L' & H' & C' & T').
    { rewrite D1. rewrite El in Hf. rewrite length_app in *. cbn in Hf. lia. }
    exists s'. split; [done|]. split; [done|]. rewrite D1, Hcol in L', C'. rewrite El, !collect_app.
    unfold collect at 2 4. rewrite !bind_cons, Hj. unfold job_kept at 2. rewrite decide_True by done. split; [done|]. split.
    + intros b Hb. rewrite H' by done. apply Hkeep. rewrite L' in Hb. rewrite <- (Hcol _ job_kept) in Hb.
      apply list_elem_of_bind in Hb as (c & Hb & Hc). destruct (_ !! c) as [i|]; [|by apply elem_of_nil in Hb].
      unfold job_kept in Hb. case_decide; [by apply elem_of_nil in Hb|]. apply list_elem_of_singleton in Hb as ->. done.
    + split; [|congruence]. rewrite C', D3, Ec, (collect_no_exits _ l1) by done. unfold clock_after. cbn [app]. by rewrite <- foldl_app.
  - exists s. split; [done|]. split; [done|]. by rewrite collect_ids, collect_no_exits.
Qed.
(** *** A whole pass, as a function on the list of jobs *)

(** The time that passed since the last call of [AdjustTime]. *)
Definition elapse (now last : Z * Z) : Job -> Job :=
  if decide (last = (0, 0) \/ time_delta now last <= 0) then id else adjust_job (time_delta now last).

Lemma adjust_fields s : js_lastTime (AdjustTime s) = js_clock s /\ js_clock (AdjustTime s) = js_clock s.
Proof.
  unfold AdjustTime. repeat case_bool_decide; try done.
  by destruct (foldr_update_fields (adjust_job (time_delta (js_clock s) (js_lastTime s))) (js_list s)
    (with_lastTime (js_clock s) s)) as (_ & _ & _ & _ & _ & _ & ? & ?).
Qed.

Lemma adjust_lookup s a : job_inv s -> a ∈ js_list s ->
  js_heap (AdjustTime s) !! a = elapse (js_clock s) (js_lastTime s) <$> js_heap s !! a.
Proof.
  intros Hs Ha. unfold AdjustTime, elapse.
  case_bool_decide; [rewrite decide_True by (by left); by rewrite option_fmap_id|].
  case_bool_decide; [rewrite decide_True by (by right); by rewrite option_fmap_id|]. rewrite decide_False by tauto.
  rewrite foldr_update_lookup, decide_True by (done || apply Hs). done.
Qed.

Lemma jobs_collect {A} (f : Job -> list A) s : jobs s ≫= f = collect (fun _ => f) (js_heap s) (js_list s).
Proof.
  unfold jobs, collect. induction (js_list s) as [|a l IH]; [done|]. rewrite bind_cons, <- IH. cbn [omap list_omap].
  by destruct (js_heap s !! a).
Qed.

Lemma jobs_fmap f s s' : js_list s' = js_list s ->
  (forall a, a ∈ js_list s -> js_heap s' !! a = f <$> js_heap s !! a) -> jobs s' = f <$> jobs s.
Proof.
  intros El H. unfold jobs. rewrite El. clear El. induction (js_list s) as [|a l IH]; [done|]. cbn [omap list_omap].
  rewrite H, IH by (set_solver). by destruct (js_heap s !! a).
Qed.

Lemma jobs_adjust s : job_inv s -> jobs (AdjustTime s) = elapse (js_clock s) (js_lastTime s) <$> jobs s.
Proof. intros Hs. apply jobs_fmap; [apply frame_adjust|]. intros a. by apply adjust_lookup. Qed.

Lemma jobs_kept s s' : js_list s' = collect job_kept (js_heap s) (js_list s) ->
  (forall a, a ∈ js_list s' -> js_heap s' !! a = js_heap s !! a) -> jobs s' = filter (fun j => job_status j <> expired) (jobs s).
Proof.
  intros El H. unfold jobs. rewrite El in *. clear El. induction (js_list s) as [|a l IH]; [done|].
  unfold collect in *. rewrite bind_cons in *. cbn [omap list_omap]. destruct (js_heap s !! a) as [j|] eqn:Ej; [|by apply IH].
  unfold job_kept in *. rewrite filter_cons. destruct (decide (job_status j = expired)).
  - rewrite decide_False by tauto. by apply IH.
  - rewrite decide_True by done. cbn [app omap list_omap] in *. rewrite H, Ej by (by left). f_equal. apply IH.
    intros b Hb. apply H. by right.
Qed.

(** The scripts of the jobs that are due, then those of the jobs that expire. *)
Definition pass_scripts (l : list Job) : list cstring :=
  (l ≫= (fun j => if decide (due (take_new_cmd j)) then scripts (take_new_cmd j) else [])) ++
  ((pass_job <$> l) ≫= (fun j => if decide (job_status j = expired /\ job_exitCmd j <> []) then [job_exitCmd j] else [])).

Lemma of_due_length h l : (length (of_due (fun a _ => [a]) h l) <= length l)%nat.
Proof.
  unfold of_due. induction l as [|a l IH]; [done|]. rewrite bind_cons, length_app. cbn [length].
  destruct (h !! a); [case_decide|]; cbn [length]; lia.
Qed.

Lemma next_schedule_jobs s : jobs (NextSchedule s) = jobs s /\ js_clock (NextSchedule s) = js_clock s.
Proof. unfold NextSchedule. by case_bool_decide. Qed.

Lemma schedule_quiet fuel s : job_inv s -> (length (js_list s) < fuel)%nat ->
  exists s', Schedule quiet fuel s = Ok s' /\ job_inv s' /\
    js_clock s' = clock_after (js_clock s) (pass_scripts (jobs (AdjustTime s))) /\
    jobs s' = elapse (js_clock s') (js_clock s) <$>
      filter (fun j => job_status j <> expired) (pass_job <$> jobs (AdjustTime s)).
Proof.
  intros Hs Hf. pose proof (inv_adjust s Hs) as Ha. destruct (adjust_fields s) as [At Ac]. destruct (frame_adjust s) as (Al & _).
  set (t := AdjustTime s) in *. unfold Schedule. fold t.
  destruct (run_due_quiet fuel t Ha) as (s1 & -> & Hs1 & L1 & H1 & C1 & T1).
  { rewrite Al. pose proof (of_due_length (js_heap t) (js_list s)). lia. }
  destruct (remove_expired_quiet fuel s1 Hs1) as (s2 & -> & Hs2 & L2 & H2 & C2 & T2); [congruence|].
  eexists. split; [done|]. split; [by apply inv_next, inv_adjust|].
  destruct (next_schedule_jobs (AdjustTime s2)) as [-> ->]. destruct (adjust_fields s2) as [_ ->].
  pose proof (jobs_fmap pass_job t s1 L1 H1) as J1. split.
  - rewrite C2, C1, Ac. unfold clock_after, pass_scripts. rewrite <- foldl_app. do 2 f_equal.
    + rewrite jobs_collect. done.
    + rewrite <- J1, jobs_collect. done.
  - rewrite jobs_adjust by done. rewrite T2, T1, At. f_equal. rewrite <- J1. by apply jobs_kept.
Qed.
End quiet.

(** ** Scripts made of job commands *)

Inductive job_action :=
  | actCreate (args : option (list (cstring * cstring)))
  | actCommand (a : nat) (cmd : job_command)
  | actDelete (a : nat)
  | actTime (now : Z * Z).

Section actions.
Variable get_int : cstring -> option Z.
(** What a script does and the code it returns. *)
Variable script : cstring -> tcl_code * list job_action.

(** The command of a job exists as long as the job is listed. *)
Definition do_action (s : JobState) (act : job_action) : JobState :=
  match act with
  | actCreate args => (CreateJob get_int args s).1.2
  | actCommand a cmd => if decide (a ∈ js_list s) then (JobObjCmd get_int a cmd s).1.2 else s
  | actDelete a => if decide (a ∈ js_list s) then delete_command a s else s
  | actTime now => with_clock now s
  end.
Definition eval_script (c : cstring) (s : JobState) : tcl_code * JobState :=
  ((script c).1, foldl do_action s (script c).2).

Lemma preserved_create args s : js_preserved (CreateJob get_int args s).1.2 = js_preserved s.
Proof.
  unfold CreateJob. pose proof (frame_configure get_int (fresh (dom (js_heap s))) args
    (with_heap (<[fresh (dom (js_heap s)) := new_job]> (js_heap s)) s)) as (_ & F & _).
  destruct (configure _ _ _ _) as [[[] t] o]; cbn [fst snd] in *.
  - destruct (next_schedule_fields (with_list (js_list t ++ [fresh (dom (js_heap s))]) t)) as (_ & _ & E & _).
    destruct (TnmGetHandle _ _ _ _) as [[]|]; cbn [fst snd js_preserved update_job with_heap with_names]; rewrite E; done.
  - unfold Tcl_EventuallyFree. by repeat case_match.
Qed.

Lemma preserved_command a cmd s : js_preserved (JobObjCmd get_int a cmd s).1.2 = js_preserved s.
Proof.
  destruct cmd as [[name|] value|option|args|]; cbn [JobObjCmd]; [| |unfold cget| |]; try done.
  - destruct (js_heap s !! a) as [j|]; [|done]. by destruct (TnmAttrSet _ _ _) as [[? ?] ?].
  - destruct (TnmGetConfig _ _ _). cbn. case_bool_decide; [apply frame_adjust|done].
  - pose proof (frame_configure get_int a args s) as (_ & F & _). by destruct (configure _ _ _ _) as [[? ?] ?].
Qed.

Lemma inv_action act s : job_inv s -> job_inv (do_action s act) /\ js_preserved (do_action s act) = js_preserved s.
Proof.
  intros Hs. destruct act as [args|a cmd|a|now]; cbn [do_action]; [|case_decide; [|done]..|].
  - split; [by apply inv_CreateJob|apply preserved_create].
  - split; [by apply inv_JobObjCmd|apply preserved_command].
  - split; [by apply inv_delete_command|apply preserved_delete].
  - split; [by apply inv_clock|done].
Qed.

Lemma script_actions : script_ok eval_script.
Proof.
  intros c s Hs. unfold eval_script. cbn [fst snd]. revert s Hs. generalize (script c).2.
  induction l as [|act l IH]; intros s Hs; cbn [foldl]; [done|]. destruct (inv_action act s Hs) as [H1 H2].
  destruct (IH _ H1) as [H3 H4]. split; [done|congruence].
Qed.

(** *** The states of the scheduler *)

Definition no_jobs (now : Z * Z) (commands : list cstring) : JobState :=
  mkJS ∅ [] None None (0, 0) ∅ ∅ commands 0 now.

Inductive reachable : JobState -> Prop :=
  | reachable_init now commands : reachable (no_jobs now commands)
  | reachable_action s act : reachable s -> reachable (do_action s act)
  | reachable_schedule s fuel s' : reachable s -> Schedule eval_script fuel s = Ok s' -> reachable s'.

Lemma inv_no_jobs now commands : job_inv (no_jobs now commands).
Proof. split; cbn; try done; try constructor; try apply map_Forall_empty; set_solver. Qed.

Lemma reachable_inv s : reachable s -> job_inv s /\ js_preserved s = ∅.
Proof.
  induction 1 as [now commands|s act _ [IH1 IH2]|s fuel s' _ [IH1 IH2] E].
  - split; [apply inv_no_jobs|done].
  - destruct (inv_action act s IH1) as [? ->]. done.
  - pose proof (inv_Schedule eval_script fuel s script_actions IH1) as H. rewrite E in H. destruct H as (? & -> & _). done.
Qed.

End actions.

(** C9: a pass of the scheduler over jobs whose scripts only take time returns,
    and what it does is a function on the list of jobs: the time since the last
    pass is subtracted, every job that is due then evaluates its script (and its
    error script if the script fails) exactly once and in the order of the list, its
    remaining time is its interval again and its iterations are counted down, jobs
    that have no iterations left, fail without an error script or were destroyed run
    their exit script and disappear, the time the scripts took is subtracted, and
    the timer is set to the smallest remaining time of the jobs left (it is off only
    if none of them is active).  The loops need no more passes than there are jobs. *)
Theorem job_schedule_pass code tick fuel s : job_inv s -> (length (js_list s) < fuel)%nat ->
  exists s', Schedule (quiet code tick) fuel s = Ok s' /\
    jobs (AdjustTime s) = elapse (js_clock s) (js_lastTime s) <$> jobs s /\
    js_clock s' = clock_after tick (js_clock s) (pass_scripts code (jobs (AdjustTime s))) /\
    jobs s' = elapse (js_clock s') (js_clock s) <$>
      filter (fun j => job_status j <> expired) (pass_job code <$> jobs (AdjustTime s)) /\
    match js_timer s' with
    | Some ms => is_next (jobs s') ms
    | None => Forall (fun j => ~ active j) (jobs s')
    end.
Proof.
  intros Hs Hf. destruct (schedule_quiet code tick fuel s Hs Hf) as (s' & E & Hs' & Hc & Hj). exists s'.
  split; [done|]. split; [by apply jobs_adjust|]. split; [done|]. split; [done|]. revert E. unfold Schedule.
  destruct (run_due _ _ _) as [s1| |]; [|done|done]. destruct (remove_expired _ _ _) as [s2| |]; [|done|done]. intros [= <-].
  destruct (next_schedule_jobs (AdjustTime s2)) as [-> _].
  destruct (next_schedule_timer (AdjustTime s2)) as [[-> ?]|(ms & -> & ?)]; done.
Qed.

(** *** Examples *)

(** Numbers of one digit. *)
Definition digit_int (v : cstring) : option Z :=
  match v with [c] => if bool_decide (48 <= c <= 57) then Some (c - 48) else None | _ => None end.
Definition opts (l : list (string * string)) : option (list (cstring * cstring)) :=
  Some ((fun p => (cstr p.1, cstr p.2)) <$> l).
(** [bye] deletes the first job, [bad] fails. *)
Definition demo_script (c : cstring) : tcl_code * list job_action :=
  if bool_decide (c = cstr "bye") then (TCL_OK, [actDelete 0])
  else if bool_decide (c = cstr "bad") then (TCL_ERROR, []) else (TCL_OK, []).
Definition demo (l : list job_action) : JobState := foldl (do_action digit_int) (no_jobs (1, 0) []) l.

Lemma demo_reachable l : reachable digit_int demo_script (demo l).
Proof.
  unfold demo. assert (H : reachable digit_int demo_script (no_jobs (1, 0) [])) by constructor. revert H.
  generalize (no_jobs (1, 0) []). induction l as [|act l IH]; intros s Hs; [done|]. apply IH. by constructor.
Qed.

Definition demo_jobs : list job_action :=
  [actCreate (opts [("-command", "work"); ("-interval", "5"); ("-iterations", "2")]);
   actCreate (opts [("-command", "bad"); ("-exit", "done")]); actTime (1, 7000)].

Lemma job_schedule_pass_witness :
  job_inv (demo demo_jobs) /\ (length (js_list (demo demo_jobs)) < 3)%nat /\
  exists s', Schedule (quiet (fun c => (demo_script c).1) (fun _ t => (t.1, t.2 + 1000))) 3 (demo demo_jobs) = Ok s' /\
    match js_timer s' with
    | Some ms => is_next (jobs s') ms
    | None => Forall (fun j => ~ active j) (jobs s')
    end.
Proof.
  assert (Hi : job_inv (demo demo_jobs)) by (eapply reachable_inv; apply demo_reachable).
  assert (Hl : (length (js_list (demo demo_jobs)) < 3)%nat) by (vm_compute; lia).
  split; [exact Hi|]. split; [exact Hl|].
  destruct (job_schedule_pass (fun c => (demo_script c).1) (fun _ t => (t.1, t.2 + 1000)) 3 (demo demo_jobs) Hi Hl)
    as (s' & H1 & _ & _ & _ & H2).
  exists s'. exact (conj H1 H2).
Defined.

(** The pass executes both jobs, deletes the one that fails, after its exit
    script, and wakes up when the first one is due again: 5 ms less the 3 ms that
    the three scripts took. *)
Example demo_pass :
  match Schedule (quiet (fun c => (demo_script c).1) (fun _ t => (t.1, t.2 + 1000))) 3 (demo demo_jobs) with
  | Ok s => (job_cmd <$> jobs s, job_iterations <$> jobs s, js_clock s, js_timer s)
            = ([cstr "work"], [1], (1, 10000), Some 2)
  | _ => False
  end.
Proof. vm_compute. reflexivity. Qed.


(** An exit script that deletes its own job: the scheduler uses the job after its
    memory was released. *)
Lemma exit_script_frees_job :
  Schedule (eval_script digit_int demo_script) 5
    (demo [actCreate (opts [("-command", "work"); ("-exit", "bye"); ("-iterations", "1")])]) = UseAfterFree.
Proof. vm_compute. reflexivity. Qed.

(** A suspended job that is destroyed stays in the list: no timer is set that would
    run the scheduler. *)
Lemma destroy_keeps_timer :
  let s := demo [actCreate (opts [("-status", "suspended")]); actCommand 0 cmdDestroy] in
  js_timer s = None /\ js_list s = [0%nat] /\ job_status <$> jobs s = [expired].
Proof. vm_compute. done. Qed.

(** Times below a millisecond are lost: [lastTime] advances although nothing is
    subtracted. *)
Lemma adjust_loses_time s : job_inv s -> js_lastTime s <> (0, 0) -> time_delta (js_clock s) (js_lastTime s) = 0 ->
  jobs (AdjustTime s) = jobs s /\ js_lastTime (AdjustTime s) = js_clock s.
Proof.
  intros Hs Hl Hd. destruct (adjust_fields s) as [-> _]. split; [|done]. rewrite jobs_adjust by done. unfold elapse.
  rewrite decide_True by (right; lia). apply list_fmap_id.
Qed.
