(* ===== verification/Digest.v ===== *)
(** Memory primitives and the structure the message digests share: a message
    is cut into blocks of 64 octets, the blocks are absorbed one by one, and
    what is left over waits in a buffer. *)

From S2P Require Import Prelude.
Local Open Scope Z_scope.

(** ** Memory *)

(** [memcpy(dst + off, src + soff, n)]: [None] is an access outside of one of
    the two arrays. *)
Definition memcpy (dst : list Z) (off : nat) (src : list Z) (soff n : nat) : option (list Z) :=
  if decide (off + n <= length dst /\ soff + n <= length src)%nat
  then Some (take off dst ++ take n (drop soff src) ++ drop (off + n) dst)
  else None.

(** [memset(dst + off, c, n)] *)
Definition memset (dst : list Z) (off : nat) (c : Z) (n : nat) : option (list Z) :=
  if decide (off + n <= length dst)%nat
  then Some (take off dst ++ replicate n c ++ drop (off + n) dst)
  else None.

Lemma memcpy_some dst off src soff n dst' :
  memcpy dst off src soff n = Some dst' ->
  length dst' = length dst /\ (off + n <= length dst)%nat /\ (soff + n <= length src)%nat /\
  take (off + n) dst' = take off dst ++ take n (drop soff src).
Proof.
  unfold memcpy. case_decide as Hd; [|done]. intros [= <-].
  split; [rewrite !length_app, !length_take, !length_drop; lia|]. split; [lia|]. split; [lia|].
  rewrite app_assoc, take_app_le, take_ge; [done| |];
    rewrite length_app, !length_take, length_drop; lia.
Qed.

Lemma memcpy_ok dst off src soff n :
  (off + n <= length dst)%nat -> (soff + n <= length src)%nat ->
  exists dst', memcpy dst off src soff n = Some dst'.
Proof. intros. unfold memcpy. rewrite decide_True by lia. eauto. Qed.

(** Copying [n] octets of [src] behind the first [off] ones of a buffer. *)
Lemma memcpy_fill dst off src soff n pre :
  take off dst = pre -> (off + n <= length dst)%nat -> (soff + n <= length src)%nat ->
  exists dst', memcpy dst off src soff n = Some dst' /\ length dst' = length dst /\
    take (off + n) dst' = pre ++ take n (drop soff src).
Proof.
  intros <- ? ?. destruct (memcpy_ok dst off src soff n) as [dst' E]; [done|done|].
  exists dst'. split; [done|]. destruct (memcpy_some _ _ _ _ _ _ E) as (? & _ & _ & ?). done.
Qed.

Lemma memset_some dst off c n dst' :
  memset dst off c n = Some dst' ->
  length dst' = length dst /\ take (off + n) dst' = take off dst ++ replicate n c.
Proof.
  unfold memset. case_decide as Hd; [|done]. intros [= <-].
  split; [rewrite !length_app, length_take, length_replicate, length_drop; lia|].
  rewrite app_assoc, take_app_le, take_ge; [done| |];
    rewrite length_app, length_take, length_replicate; lia.
Qed.

Lemma memset_ok dst off c n : (off + n <= length dst)%nat -> exists dst', memset dst off c n = Some dst'.
Proof. intros. unfold memset. rewrite decide_True by lia. eauto. Qed.

(** ** Absorbing a message in blocks *)

Definition block_size : nat := 64.

(** What does not fill a block. *)
Definition rest (m : list Z) : list Z := drop (block_size * (length m / block_size)) m.

Lemma rest_length m : length (rest m) = (length m mod block_size)%nat.
Proof.
  unfold rest. rewrite length_drop.
  pose proof (Nat.div_mod (length m) block_size ltac:(done)). lia.
Qed.

Section absorb.
Context {st : Type} (compress : st -> list Z -> st).

Fixpoint absorb_n (n : nat) (s : st) (m : list Z) : st :=
  match n with
  | O => s
  | S n => absorb_n n (compress s (take block_size m)) (drop block_size m)
  end.

(** All complete blocks of the message. *)
Definition absorb (s : st) (m : list Z) : st := absorb_n (length m / block_size) s m.

Lemma absorb_short s m : (length m < block_size)%nat -> absorb s m = s /\ rest m = m.
Proof. intros H. unfold absorb, rest. by rewrite Nat.div_small. Qed.

Lemma absorb_block s m : (block_size <= length m)%nat ->
  absorb s m = absorb (compress s (take block_size m)) (drop block_size m) /\
  rest m = rest (drop block_size m).
Proof.
  intros H. unfold absorb, rest. rewrite length_drop.
  assert (length m / block_size = S ((length m - block_size) / block_size))%nat as ->.
  { replace (length m) with (length m - block_size + 1 * block_size)%nat at 1 by lia.
    rewrite Nat.div_add by done. lia. }
  split; [done|]. rewrite drop_drop. f_equal. lia.
Qed.

(** A message can be absorbed in two parts: the blocks of the first, then what
    was left over together with the second. *)
Lemma absorb_app s m1 m2 :
  absorb s (m1 ++ m2) = absorb (absorb s m1) (rest m1 ++ m2) /\
  rest (m1 ++ m2) = rest (rest m1 ++ m2).
Proof.
  remember (length m1) as n eqn:Hn. revert s m1 Hn.
  induction n as [n IH] using lt_wf_ind. intros s m1 Hn.
  destruct (decide (n < block_size)%nat) as [Hlt|Hge].
  - destruct (absorb_short s m1) as [-> ->]; [lia|]. done.
  - destruct (absorb_block s m1) as [-> ->]; [lia|].
    destruct (absorb_block s (m1 ++ m2)) as [-> ->]; [rewrite length_app; lia|].
    rewrite take_app_le, drop_app_le by lia.
    apply (IH (n - block_size)%nat); [unfold block_size in *; lia|rewrite length_drop; lia].
Qed.

(** The octets that complete the block in the buffer, and the blocks after it. *)
Lemma absorb_fill s m d (r := (length m mod 64)%nat) : (64 - r <= length d)%nat ->
  absorb s (m ++ d) = absorb (compress (absorb s m) (rest m ++ take (64 - r) d)) (drop (64 - r) d) /\
  rest (m ++ d) = rest (drop (64 - r) d).
Proof.
  intros Hd. destruct (absorb_app s m d) as [-> ->]. pose proof (rest_length m) as Hr.
  change block_size with 64%nat in Hr. fold r in Hr.
  pose proof (Nat.mod_upper_bound (length m) 64 ltac:(done)) as Hub. fold r in Hub.
  destruct (absorb_block (absorb s m) (rest m ++ d)) as [-> ->]; [rewrite length_app; unfold block_size; lia|].
  unfold block_size. by rewrite take_app_ge, drop_app_ge, Hr by lia.
Qed.

(** Octets that do not complete it. *)
Lemma absorb_wait s m d (r := (length m mod 64)%nat) : (length d < 64 - r)%nat ->
  absorb s (m ++ d) = absorb s m /\ rest (m ++ d) = rest m ++ d.
Proof.
  intros Hd. destruct (absorb_app s m d) as [-> ->]. pose proof (rest_length m) as Hr.
  apply absorb_short. rewrite length_app, Hr. unfold block_size. fold r. lia.
Qed.
End absorb.

(** One block and two. *)
Lemma absorb_one {st} (f : st -> list Z -> st) s b : length b = block_size -> absorb f s b = f s b.
Proof.
  intros Hb. destruct (absorb_block f s b) as [-> _]; [lia|]. rewrite take_ge, drop_ge by lia. done.
Qed.

Lemma absorb_two {st} (f : st -> list Z -> st) s b1 b2 :
  length b1 = block_size -> length b2 = block_size -> absorb f s (b1 ++ b2) = f (f s b1) b2.
Proof.
  intros H1 H2. destruct (absorb_block f s (b1 ++ b2)) as [-> _]; [rewrite length_app; lia|].
  rewrite <- H1, take_app_length, drop_app_length. by apply absorb_one.
Qed.

(** Two block functions that agree on the states that occur. *)
Lemma absorb_ext {st} (f g : st -> list Z -> st) (P : st -> Prop) :
  (forall s b, P s -> bytes b -> length b = block_size -> f s b = g s b /\ P (f s b)) ->
  forall m s, P s -> bytes m -> absorb f s m = absorb g s m /\ P (absorb f s m).
Proof.
  intros Hfg m. remember (length m) as n eqn:Hn. revert m Hn.
  induction n as [n IH] using lt_wf_ind. intros m Hn s HP Hm.
  destruct (decide (n < block_size)%nat) as [Hlt|Hge].
  - destruct (absorb_short f s m) as [-> _]; [lia|]. by destruct (absorb_short g s m) as [-> _]; [lia|].
  - destruct (absorb_block f s m) as [-> _]; [lia|]. destruct (absorb_block g s m) as [-> _]; [lia|].
    destruct (Hfg s (take block_size m)) as [<- HP']; [done|by apply Forall_take|rewrite length_take; lia|].
    apply (IH (n - block_size)%nat); [unfold block_size in *; lia|rewrite length_drop; lia|done|by apply Forall_drop].
Qed.

Lemma rest_nil_app m : (length m mod 64 = 0)%nat -> rest m = [].
Proof. intros H. apply nil_length_inv. by rewrite rest_length. Qed.

(** The state of a digest over [m]: the words so far, the number of bits in two
    words of 32 bits and the octets waiting in the buffer. *)
Definition bits_of (m : list Z) : Z := 8 * Z.of_nat (length m).

Lemma rest_app_length m1 m2 : (length (rest m1 ++ m2) mod block_size = length (m1 ++ m2) mod block_size)%nat.
Proof.
  rewrite !length_app, rest_length, Nat.Div0.add_mod_idemp_l. done.
Qed.

(** ** Octets of words *)

Definition le32 (w : Z) : list Z := [w mod 256; w / 256 mod 256; w / 65536 mod 256; w / 16777216 mod 256].
Definition be32 (w : Z) : list Z := [w / 16777216 mod 256; w / 65536 mod 256; w / 256 mod 256; w mod 256].

(** The words of a block, with the octets of a word in either order. *)
Fixpoint words_le (l : list Z) : list Z :=
  match l with
  | b0 :: b1 :: b2 :: b3 :: l => b0 + 256 * b1 + 65536 * b2 + 16777216 * b3 :: words_le l
  | _ => []
  end.
Fixpoint words_be (l : list Z) : list Z :=
  match l with
  | b0 :: b1 :: b2 :: b3 :: l => 16777216 * b0 + 65536 * b1 + 256 * b2 + b3 :: words_be l
  | _ => []
  end.

(** The padding of both digests: one bit, then zeros up to 56 octets of a
    block. *)
Definition pad_octets (n : nat) : list Z :=
  0x80 :: replicate (if decide (n mod 64 < 56)%nat then 55 - n mod 64 else 119 - n mod 64) 0.

Lemma pad_octets_length n : length (pad_octets n) = (if decide (n mod 64 < 56) then 56 - n mod 64 else 120 - n mod 64)%nat.
Proof.
  unfold pad_octets. cbn [length]. rewrite length_replicate.
  pose proof (Nat.mod_upper_bound n 64 ltac:(done)). case_decide; lia.
Qed.

Lemma padded_length n : ((n + length (pad_octets n) + 8) mod 64 = 0)%nat.
Proof.
  rewrite pad_octets_length. pose proof (Nat.mod_upper_bound n 64 ltac:(done)) as Hm.
  pose proof (Nat.div_mod n 64 ltac:(done)) as Hn. set (q := (n / 64)%nat) in *. set (r := (n mod 64)%nat) in *.
  case_decide.
  - replace (n + (56 - r) + 8)%nat with ((q + 1) * 64)%nat by lia. apply Nat.Div0.mod_mul.
  - replace (n + (120 - r) + 8)%nat with ((q + 2) * 64)%nat by lia. apply Nat.Div0.mod_mul.
Qed.

Lemma pad_octets_bytes n : bytes (pad_octets n).
Proof. apply bytes_cons. split; [done|]. by apply Forall_replicate. Qed.

Lemma le32_bytes w : bytes (le32 w).
Proof. unfold le32, bytes, is_byte. repeat constructor; lia. Qed.

Lemma be32_bytes w : bytes (be32 w).
Proof. unfold be32, bytes, is_byte. repeat constructor; lia. Qed.

(** ** Words of 32 bits *)

Definition rotl32 (x n : Z) : Z := x * 2 ^ n mod 4294967296 + x / 2 ^ (32 - n).

Lemma testbit_u32 z i : is_u32 z -> 32 <= i -> Z.testbit z i = false.
Proof.
  intros Hz Hi. destruct (decide (z = 0)) as [->|Hne]; [apply Z.bits_0|].
  apply Z.bits_above_log2; [unfold is_u32 in Hz; lia|]. apply Z.lt_le_trans with 32; [|done].
  apply Z.log2_lt_pow2; [unfold is_u32 in Hz; lia|]. apply Hz.
Qed.

Lemma u32_bits z i : 0 <= i -> Z.testbit (u32 z) i = (if bool_decide (i < 32) then Z.testbit z i else false).
Proof.
  intros Hi. unfold u32. change 4294967296 with (2 ^ 32). case_bool_decide.
  - by rewrite Z.mod_pow2_bits_low.
  - rewrite Z.mod_pow2_bits_high by lia. done.
Qed.

Lemma bits_u32 z : 0 <= z -> (forall i, 32 <= i -> Z.testbit z i = false) -> is_u32 z.
Proof.
  intros Hz H. split; [done|]. change 4294967296 with (2 ^ 32).
  destruct (decide (z = 0)) as [->|Hne]; [done|]. apply Z.log2_lt_pow2; [lia|].
  destruct (Z.lt_ge_cases (Z.log2 z) 32) as [?|Hge]; [done|].
  specialize (H _ Hge). rewrite Z.bit_log2 in H by lia. done.
Qed.

Lemma u32_lor x y : is_u32 x -> is_u32 y -> is_u32 (Z.lor x y).
Proof.
  intros Hx Hy. apply bits_u32; [apply Z.lor_nonneg; unfold is_u32 in *; lia|].
  intros i Hi. by rewrite Z.lor_spec, !testbit_u32 by done.
Qed.

Lemma lor_rotl x n : is_u32 x -> 0 < n < 32 -> Z.lor (u32 (Z.shiftl x n)) (Z.shiftr x (32 - n)) = rotl32 x n.
Proof.
  intros [Hx0 Hx] Hn. unfold rotl32. rewrite Z.shiftl_mul_pow2, shiftr_pow2 by lia.
  assert (Hp : 2 ^ n * 2 ^ (32 - n) = 4294967296)
    by (rewrite <- Z.pow_add_r by lia; by replace (n + (32 - n)) with 32 by lia).
  pose proof (Z.pow_pos_nonneg 2 (32 - n) ltac:(done) ltac:(lia)) as Hk.
  pose proof (Z.pow_pos_nonneg 2 n ltac:(done) ltac:(lia)) as Hm.
  assert (Hlow : 0 <= x / 2 ^ (32 - n) < 2 ^ n).
  { split; [by apply Z.div_pos|]. apply Z.div_lt_upper_bound; [done|]. by rewrite Z.mul_comm, Hp. }
  unfold u32. rewrite <- Hp, (Z.mul_comm x), Z.mul_mod_distr_l by (by apply Z.neq_sym, Z.lt_neq).
  rewrite (Z.mul_comm (2 ^ n)), <- Z.shiftl_mul_pow2 by lia. rewrite lor_shiftl_add by (done || lia).
  by rewrite Z.shiftl_mul_pow2 by lia.
Qed.

Lemma land_63 z : Z.land z 0x3f = z mod 64.
Proof. change 0x3f with (Z.ones 6). by rewrite Z.land_ones. Qed.

Lemma shiftl_3 z : Z.shiftl z 3 = z * 8.
Proof. by rewrite Z.shiftl_mul_pow2. Qed.

(** The number of octets waiting, out of the low word of the number of bits. *)
Lemma count_index n : Z.land (Z.shiftr (u32 (8 * Z.of_nat n)) 3) 0x3f = Z.of_nat (n mod 64).
Proof. rewrite land_63, shiftr_pow2 by done. unfold u32. rewrite Nat2Z.inj_mod. change (2 ^ 3) with 8. lia. Qed.
