(* ===== verification/MD5.v ===== *)
(** The MD5 message digest, [tnmMD5.c]: the procedures as they are written,
    and the proof that they compute the digest of RFC 1321 for a message that is
    handed over in any number of parts. *)

From S2P Require Import Prelude Digest.
Local Open Scope Z_scope.
Local Open Scope cint_scope.

(** ** The basic transformation *)

Definition S11 : Z := 7.
Definition S12 : Z := 12.
Definition S13 : Z := 17.
Definition S14 : Z := 22.
Definition S21 : Z := 5.
Definition S22 : Z := 9.
Definition S23 : Z := 14.
Definition S24 : Z := 20.
Definition S31 : Z := 4.
Definition S32 : Z := 11.
Definition S33 : Z := 16.
Definition S34 : Z := 23.
Definition S41 : Z := 6.
Definition S42 : Z := 10.
Definition S43 : Z := 15.
Definition S44 : Z := 21.

(** [~x] of a word *)
Definition not32 (x : Z) : Z := u32 (Z.lnot x).

Definition MD5_F (x y z : Z) : Z := (x .& y) .| (not32 x .& z).
Definition MD5_G (x y z : Z) : Z := (x .& z) .| (y .& not32 z).
Definition MD5_H (x y z : Z) : Z := x .^ y .^ z.
Definition MD5_I (x y z : Z) : Z := y .^ (x .| not32 z).

Definition ROTATE_LEFT (x n : Z) : Z := u32 (x << n) .| (x >> (32 - n)).

(** The body the four macros [FF], [GG], [HH] and [II] share: the new value of
    their first argument. *)
Definition MD5_step (f : Z -> Z -> Z -> Z) (a b c d x s ac : Z) : Z :=
  let a := u32 (a + u32 (u32 (f b c d + x) + ac)) in
  let a := ROTATE_LEFT a s in
  u32 (a + b).

(** The variables [a], [b], [c], [d] and the order in which a line of the
    transformation names them; the first one is assigned. *)
Definition md5_state : Type := Z * Z * Z * Z.
Inductive md5_order := abcd | dabc | cdab | bcda.
Inductive md5_macro := macro_FF | macro_GG | macro_HH | macro_II.
Record md5_line := mkLine {
  line_macro : md5_macro; line_order : md5_order; line_x : nat; line_s : Z; line_ac : Z }.

Definition FF := mkLine macro_FF.
Definition GG := mkLine macro_GG.
Definition HH := mkLine macro_HH.
Definition II := mkLine macro_II.

Definition macro_f (m : md5_macro) : Z -> Z -> Z -> Z :=
  match m with macro_FF => MD5_F | macro_GG => MD5_G | macro_HH => MD5_H | macro_II => MD5_I end.

Definition run_line (x : list Z) (r : md5_state) (l : md5_line) : md5_state :=
  let '(a, b, c, d) := r in
  let step a b c d := MD5_step (macro_f (line_macro l)) a b c d (x !!! line_x l) (line_s l) (line_ac l) in
  match line_order l with
  | abcd => (step a b c d, b, c, d)
  | dabc => (a, b, c, step d a b c)
  | cdab => (a, b, step c d a b, d)
  | bcda => (a, step b c d a, c, d)
  end.

Definition md5_lines : list md5_line :=
  [FF abcd 0 S11 0xd76aa478; FF dabc 1 S12 0xe8c7b756;
   FF cdab 2 S13 0x242070db; FF bcda 3 S14 0xc1bdceee;
   FF abcd 4 S11 0xf57c0faf; FF dabc 5 S12 0x4787c62a;
   FF cdab 6 S13 0xa8304613; FF bcda 7 S14 0xfd469501;
   FF abcd 8 S11 0x698098d8; FF dabc 9 S12 0x8b44f7af;
   FF cdab 10 S13 0xffff5bb1; FF bcda 11 S14 0x895cd7be;
   FF abcd 12 S11 0x6b901122; FF dabc 13 S12 0xfd987193;
   FF cdab 14 S13 0xa679438e; FF bcda 15 S14 0x49b40821;
   GG abcd 1 S21 0xf61e2562; GG dabc 6 S22 0xc040b340;
   GG cdab 11 S23 0x265e5a51; GG bcda 0 S24 0xe9b6c7aa;
   GG abcd 5 S21 0xd62f105d; GG dabc 10 S22 0x2441453;
   GG cdab 15 S23 0xd8a1e681; GG bcda 4 S24 0xe7d3fbc8;
   GG abcd 9 S21 0x21e1cde6; GG dabc 14 S22 0xc33707d6;
   GG cdab 3 S23 0xf4d50d87; GG bcda 8 S24 0x455a14ed;
   GG abcd 13 S21 0xa9e3e905; GG dabc 2 S22 0xfcefa3f8;
   GG cdab 7 S23 0x676f02d9; GG bcda 12 S24 0x8d2a4c8a;
   HH abcd 5 S31 0xfffa3942; HH dabc 8 S32 0x8771f681;
   HH cdab 11 S33 0x6d9d6122; HH bcda 14 S34 0xfde5380c;
   HH abcd 1 S31 0xa4beea44; HH dabc 4 S32 0x4bdecfa9;
   HH cdab 7 S33 0xf6bb4b60; HH bcda 10 S34 0xbebfbc70;
   HH abcd 13 S31 0x289b7ec6; HH dabc 0 S32 0xeaa127fa;
   HH cdab 3 S33 0xd4ef3085; HH bcda 6 S34 0x4881d05;
   HH abcd 9 S31 0xd9d4d039; HH dabc 12 S32 0xe6db99e5;
   HH cdab 15 S33 0x1fa27cf8; HH bcda 2 S34 0xc4ac5665;
   II abcd 0 S41 0xf4292244; II dabc 7 S42 0x432aff97;
   II cdab 14 S43 0xab9423a7; II bcda 5 S44 0xfc93a039;
   II abcd 12 S41 0x655b59c3; II dabc 3 S42 0x8f0ccc92;
   II cdab 10 S43 0xffeff47d; II bcda 1 S44 0x85845dd1;
   II abcd 8 S41 0x6fa87e4f; II dabc 15 S42 0xfe2ce6e0;
   II cdab 6 S43 0xa3014314; II bcda 13 S44 0x4e0811a1;
   II abcd 4 S41 0xf7537e82; II dabc 11 S42 0xbd3af235;
   II cdab 2 S43 0x2ad7d2bb; II bcda 9 S44 0xeb86d391].

(** The words of [len] octets, least significant octet first. *)
Fixpoint MD5_Decode (input : list Z) (len : nat) : list Z :=
  match len, input with
  | S (S (S (S len))), b0 :: b1 :: b2 :: b3 :: input =>
      (b0 .| (b1 << 8) .| (b2 << 16) .| (b3 << 24)) :: MD5_Decode input len
  | _, _ => []
  end.

Fixpoint MD5_Encode (input : list Z) (len : nat) : list Z :=
  match len, input with
  | S (S (S (S len))), w :: input =>
      (w .& 0xff) :: ((w >> 8) .& 0xff) :: ((w >> 16) .& 0xff) :: ((w >> 24) .& 0xff)
      :: MD5_Encode input len
  | _, _ => []
  end.

Definition MD5Transform (state : md5_state) (block : list Z) : md5_state :=
  let x := MD5_Decode block 64 in
  let '(a, b, c, d) := foldl (run_line x) state md5_lines in
  let '(s0, s1, s2, s3) := state in
  (u32 (s0 + a), u32 (s1 + b), u32 (s2 + c), u32 (s3 + d)).

(** ** The context *)

Record MD5_CTX := mkMD5 {
  md5_words : md5_state;
  md5_count0 : Z;
  md5_count1 : Z;
  md5_buffer : list Z
}.

(** [buffer] is the memory [TnmMD5Init] leaves as it is. *)
Definition TnmMD5Init (buffer : list Z) : MD5_CTX :=
  mkMD5 (0x67452301, 0xefcdab89, 0x98badcfe, 0x10325476) 0 0 buffer.

(** [for (i = partLen; i + 63 < inputLen; i += 64)] *)
Fixpoint md5_blocks (fuel : nat) (state : md5_state) (input : list Z) (inputLen i : Z)
    : option (md5_state * Z) :=
  match fuel with
  | O => None
  | S fuel =>
      if bool_decide (u32 (i + 63) < inputLen) then
        if decide (i + 64 <= Z.of_nat (length input)) then
          md5_blocks fuel (MD5Transform state (take 64 (drop (Z.to_nat i) input))) input inputLen (u32 (i + 64))
        else None
      else Some (state, i)
  end.

(** [None] is an access outside of [input] or of the buffer. *)
Definition TnmMD5Update (context : MD5_CTX) (input : list Z) (inputLen : Z) : option MD5_CTX :=
  let index := (md5_count0 context >> 3) .& 0x3f in
  let count0 := u32 (md5_count0 context + u32 (inputLen << 3)) in
  let count1 := if bool_decide (count0 < u32 (inputLen << 3)) then u32 (md5_count1 context + 1)
                else md5_count1 context in
  let count1 := u32 (count1 + (inputLen >> 29)) in
  let partLen := 64 - index in
  '(state, buffer, i, index) ←
    (if bool_decide (partLen <= inputLen) then
       buffer ← memcpy (md5_buffer context) (Z.to_nat index) input 0 (Z.to_nat partLen);
       '(state, i) ← md5_blocks (S (Z.to_nat inputLen)) (MD5Transform (md5_words context) buffer)
                       input inputLen partLen;
       Some (state, buffer, i, 0)
     else Some (md5_words context, md5_buffer context, 0, index));
  buffer ← memcpy buffer (Z.to_nat index) input (Z.to_nat i) (Z.to_nat (inputLen - i));
  Some (mkMD5 state count0 count1 buffer).

Definition PADDING : list Z := 0x80 :: replicate 63 0.

Definition md5_state_words (s : md5_state) : list Z := let '(a, b, c, d) := s in [a; b; c; d].

(** The digest and the context with its memory cleared. *)
Definition TnmMD5Final (context : MD5_CTX) : option (list Z * MD5_CTX) :=
  let bits := MD5_Encode [md5_count0 context; md5_count1 context] 8 in
  let index := (md5_count0 context >> 3) .& 0x3f in
  let padLen := if bool_decide (index < 56) then 56 - index else 120 - index in
  context ← TnmMD5Update context PADDING padLen;
  context ← TnmMD5Update context bits 8;
  let digest := MD5_Encode (md5_state_words (md5_words context)) 16 in
  Some (digest, mkMD5 (0, 0, 0, 0) 0 0 (replicate 64 0)).

(** ** Absorbing octets *)

Definition md5_iv : md5_state := md5_words (TnmMD5Init []).

(** The context stands for the octets [m] handed over so far. *)
Record md5_rep (context : MD5_CTX) (m : list Z) : Prop := {
  rep_words : md5_words context = absorb MD5Transform md5_iv m;
  rep_size : length (md5_buffer context) = 64%nat;
  rep_buffer : take (length m mod 64) (md5_buffer context) = rest m;
  rep_count0 : md5_count0 context = u32 (bits_of m);
  rep_count1 : md5_count1 context = u32 (bits_of m / 4294967296)
}.

(** Counting bits in two words. *)
Lemma count_add old n (c0 := u32 (8 * old)) (c1 := u32 (8 * old / 4294967296)) :
  0 <= old -> 0 <= n < 4294967296 ->
  let c0' := u32 (c0 + u32 (n << 3)) in
  c0' = u32 (8 * (old + n)) /\
  u32 ((if bool_decide (c0' < u32 (n << 3)) then u32 (c1 + 1) else c1) + (n >> 29))
  = u32 (8 * (old + n) / 4294967296).
Proof.
  intros Ho Hn c0'. rewrite shiftr_pow2, shiftl_3 in * by done. change (2 ^ 29) with 536870912.
  unfold c0', c0, c1, u32. rewrite shiftl_3. split; [lia|]. case_bool_decide; lia.
Qed.

Lemma md5_blocks_spec fuel : forall s input n i,
  (n <= length input)%nat -> Z.of_nat n < 4294967232 -> (i <= n)%nat -> (n - i < 64 * fuel)%nat ->
  exists i', md5_blocks fuel s input (Z.of_nat n) (Z.of_nat i)
      = Some (absorb MD5Transform s (drop i (take n input)), Z.of_nat i') /\
    (i <= i' <= n)%nat /\ rest (drop i (take n input)) = drop i' (take n input).
Proof.
  induction fuel as [|fuel IH]; intros s input n i Hn Hmax Hi Hf; [lia|]. cbn [md5_blocks].
  assert (Hlen : length (drop i (take n input)) = (n - i)%nat) by (rewrite length_drop, length_take; lia).
  assert (u32 (Z.of_nat i + 63) = Z.of_nat (i + 63)) as -> by (unfold u32; lia).
  case_bool_decide as Hlt.
  - rewrite decide_True by lia.
    assert (u32 (Z.of_nat i + 64) = Z.of_nat (i + 64)) as -> by (unfold u32; lia).
    destruct (IH (MD5Transform s (take 64 (drop i input))) input n (i + 64)%nat) as (i' & E & Hi' & Er);
      [done|done|lia|lia|]. exists i'.
    destruct (absorb_block MD5Transform s (drop i (take n input))) as [-> ->]; [unfold block_size; lia|].
    rewrite Nat2Z.id, E, drop_drop. change block_size with 64%nat. split; [|split; [lia|done]].
    f_equal. f_equal. f_equal. f_equal. rewrite skipn_firstn_comm, take_take. f_equal. lia.
  - exists i. destruct (absorb_short MD5Transform s (drop i (take n input))) as [-> ->]; [unfold block_size; lia|].
    split; [done|]. split; [lia|done].
Qed.

(** The words and the buffer after an update, and where the input was left. *)
Lemma md5_update_state context m input n (r := (length m mod 64)%nat) :
  md5_rep context m -> (n <= length input)%nat -> Z.of_nat n < 4294967232 ->
  exists state buffer i index,
    (if bool_decide (64 - Z.of_nat r <= Z.of_nat n) then
       buffer ← memcpy (md5_buffer context) (Z.to_nat (Z.of_nat r)) input 0 (Z.to_nat (64 - Z.of_nat r));
       '(state, i) ← md5_blocks (S (Z.to_nat (Z.of_nat n))) (MD5Transform (md5_words context) buffer)
                       input (Z.of_nat n) (64 - Z.of_nat r);
       Some (state, buffer, i, 0)
     else Some (md5_words context, md5_buffer context, 0, Z.of_nat r))
    = Some (state, buffer, Z.of_nat i, Z.of_nat index) /\
    state = absorb MD5Transform md5_iv (m ++ take n input) /\ length buffer = 64%nat /\ (i <= n)%nat /\
    rest (m ++ take n input) = take index buffer ++ drop i (take n input) /\ (index <= 64)%nat.
Proof.
  intros [Hw Hs Hb _ _] Hn Hmax. fold r in Hb.
  pose proof (Nat.mod_upper_bound (length m) 64 ltac:(done)) as Hr. fold r in Hr.
  assert (Hl : length (take n input) = n) by (rewrite length_take; lia). rewrite !Nat2Z.id.
  case_bool_decide as Hc.
  - replace (64 - Z.of_nat r) with (Z.of_nat (64 - r)) by lia. rewrite Nat2Z.id.
    destruct (memcpy_fill (md5_buffer context) r input 0 (64 - r) _ Hb) as (buf & -> & Hlb & Htb); [lia|lia|].
    cbn [mbind option_bind].
    destruct (md5_blocks_spec (S n) (MD5Transform (md5_words context) buf) input n (64 - r))
      as (i & -> & Hi & Ei); [done|done|lia|lia|]. cbn [mbind option_bind].
    destruct (absorb_fill MD5Transform md5_iv m (take n input)) as [-> ->]; [fold r; lia|]. fold r.
    exists (absorb MD5Transform (MD5Transform (md5_words context) buf) (drop (64 - r) (take n input))), buf, i, 0%nat.
    split; [done|]. split; [|split; [lia|]; split; [lia|]; split; [done|lia]].
    replace (r + (64 - r))%nat with 64%nat in Htb by lia. rewrite take_ge in Htb by lia.
    rewrite Hw, Htb, take_take, drop_0. by replace ((64 - r) `min` n)%nat with (64 - r)%nat by lia.
  - destruct (absorb_wait MD5Transform md5_iv m (take n input)) as [-> ->]; [fold r; lia|].
    exists (md5_words context), (md5_buffer context), 0%nat, r. rewrite Hb, drop_0. repeat split; [done|lia|lia|lia].
Qed.

Lemma TnmMD5Update_rep context m input n :
  md5_rep context m -> (n <= length input)%nat -> Z.of_nat n < 4294967232 ->
  exists context', TnmMD5Update context input (Z.of_nat n) = Some context' /\
    md5_rep context' (m ++ take n input).
Proof.
  intros Hrep Hn Hmax. destruct (md5_update_state context m input n Hrep Hn Hmax)
    as (state & buffer & i & index & E & Hst & Hlb & Hi & Hrest & Hix).
  destruct Hrep as [_ _ _ H0 H1]. unfold TnmMD5Update, bits_of in *. rewrite H0, H1, count_index.
  destruct (count_add (Z.of_nat (length m)) (Z.of_nat n)) as [-> ->]; [lia|lia|].
  rewrite E. cbn [mbind option_bind]. rewrite !Nat2Z.id.
  replace (Z.to_nat (Z.of_nat n - Z.of_nat i)) with (n - i)%nat by lia.
  pose proof (f_equal length Hrest) as Hlen.
  rewrite rest_length, (length_app (take index buffer)), length_drop, !length_take in Hlen. change block_size with 64%nat in Hlen.
  pose proof (Nat.mod_upper_bound (length (m ++ take n input)) 64 ltac:(done)).
  destruct (memcpy_fill buffer index input i (n - i) _ eq_refl) as (buf & -> & Hl & Ht); [lia|lia|].
  cbn [mbind option_bind]. eexists. split; [done|].
  assert (Hb : 8 * (Z.of_nat (length m) + Z.of_nat n) = bits_of (m ++ take n input))
    by (unfold bits_of; rewrite length_app, length_take; lia). rewrite Hb.
  split; cbn [md5_words md5_buffer md5_count0 md5_count1]; [done|lia| |done|done].
  rewrite Hrest, Hlen. replace (index `min` length buffer + (n `min` length input - i))%nat with (index + (n - i))%nat by lia.
  by rewrite Ht, skipn_firstn_comm.
Qed.

(** ** The digest of RFC 1321 *)

(** The constants: [4294967296 * abs(sin i)], with the sine of an integer by the
    addition theorem from fixed point values of [sin 1] and [cos 1]. *)
Definition fixed_one : Z := 2 ^ 96.

Fixpoint taylor (terms : nat) (k x : Z) : Z :=
  match terms with
  | O => 0
  | S terms => x - taylor terms (k + 2) (x / ((k + 1) * (k + 2)))
  end.

Fixpoint sines (n : nat) (prev cur : Z) : list Z :=
  match n with
  | O => []
  | S n => cur :: sines n cur (2 * taylor 20 0 fixed_one * cur / fixed_one - prev)
  end.

Definition rfc_T : list Z := map (fun s => Z.abs s / 2 ^ 64) (sines 64 0 (taylor 20 1 fixed_one)).

Definition rfc_f (i : nat) (x y z : Z) : Z :=
  match (i / 16)%nat with
  | 0%nat => Z.lor (Z.land x y) (Z.ldiff z x)
  | 1%nat => Z.lor (Z.land x z) (Z.ldiff y z)
  | 2%nat => Z.lxor (Z.lxor x y) z
  | _ => Z.lxor y (Z.lor x (4294967295 - z))
  end.

Definition rfc_k (i : nat) : nat :=
  match (i / 16)%nat with
  | 0%nat => i
  | 1%nat => (5 * i + 1) mod 16
  | 2%nat => (3 * i + 5) mod 16
  | _ => (7 * i) mod 16
  end.

Definition rfc_s (i : nat) : Z :=
  ([[7; 12; 17; 22]; [5; 9; 14; 20]; [4; 11; 16; 23]; [6; 10; 15; 21]] !!! (i / 16)%nat) !!! (i mod 4)%nat.

(** One of the 64 operations, on the registers in a fixed order. *)
Definition rfc_round (x : list Z) (r : md5_state) (i : nat) : md5_state :=
  let '(a, b, c, d) := r in
  let sum := (a + rfc_f i b c d + x !!! rfc_k i + rfc_T !!! i) mod 4294967296 in
  (d, (b + rotl32 sum (rfc_s i)) mod 4294967296, b, c).

Definition rfc_compress (state : md5_state) (block : list Z) : md5_state :=
  let '(a, b, c, d) := foldl (rfc_round (words_le block)) state (seq 0 64) in
  let '(s0, s1, s2, s3) := state in
  ((s0 + a) mod 4294967296, (s1 + b) mod 4294967296, (s2 + c) mod 4294967296, (s3 + d) mod 4294967296).

Definition rfc_pad (m : list Z) : list Z :=
  m ++ pad_octets (length m) ++ le32 (bits_of m) ++ le32 (bits_of m / 4294967296).

Definition md5 (m : list Z) : list Z :=
  concat (map le32 (md5_state_words
    (absorb rfc_compress (0x67452301, 0xefcdab89, 0x98badcfe, 0x10325476) (rfc_pad m)))).

(** ** Words *)

Lemma not32_sub z : is_u32 z -> not32 z = 4294967295 - z.
Proof. unfold not32, is_u32, u32, Z.lnot. lia. Qed.

Lemma land_not32 x z : is_u32 z -> not32 x .& z = Z.ldiff z x.
Proof.
  intros Hz. apply Z.bits_inj'. intros i Hi. rewrite Z.land_spec, Z.ldiff_spec. unfold not32.
  rewrite u32_bits by done. case_bool_decide; [rewrite Z.lnot_spec by done; apply andb_comm|].
  by rewrite (testbit_u32 z) by (done || lia).
Qed.

Lemma ROTATE_LEFT_rotl x n : is_u32 x -> 0 < n < 32 -> ROTATE_LEFT x n = rotl32 x n.
Proof. apply lor_rotl. Qed.

Definition rfc_macro (i : nat) : md5_macro :=
  match (i / 16)%nat with 0%nat => macro_FF | 1%nat => macro_GG | 2%nat => macro_HH | _ => macro_II end.

Lemma md5_f_rfc i x y z : is_u32 x -> is_u32 y -> is_u32 z ->
  macro_f (rfc_macro i) x y z = rfc_f i x y z.
Proof.
  intros Hx Hy Hz. unfold rfc_f, rfc_macro. destruct (i / 16)%nat as [|[|[|?]]]; cbn [macro_f];
    unfold MD5_F, MD5_G, MD5_H, MD5_I.
  - by rewrite land_not32.
  - by rewrite (Z.land_comm y), land_not32.
  - done.
  - by rewrite not32_sub.
Qed.

(** ** The transformation *)

(** Line [i] of the transformation is operation [i] of the standard, with the
    variables renamed instead of moved. *)
Definition rfc_line (i : nat) : md5_line :=
  mkLine (rfc_macro i)
    (match (i mod 4)%nat with 0%nat => abcd | 1%nat => dabc | 2%nat => cdab | _ => bcda end)
    (rfc_k i) (rfc_s i) (rfc_T !!! i).

Lemma md5_lines_rfc : md5_lines = map rfc_line (seq 0 64).
Proof. vm_compute. reflexivity. Qed.

Lemma rfc_s_range : Forall (fun i => 0 < rfc_s i < 32) (seq 0 64).
Proof. by_eval. Qed.

Definition state_u32 (r : md5_state) : Prop := let '(a, b, c, d) := r in is_u32 a /\ is_u32 b /\ is_u32 c /\ is_u32 d.

(** The registers in the order of the standard before operation [i]. *)
Definition view (i : nat) (r : md5_state) : md5_state :=
  let '(a, b, c, d) := r in
  match (i mod 4)%nat with 0%nat => (a, b, c, d) | 1%nat => (d, a, b, c) | 2%nat => (c, d, a, b) | _ => (b, c, d, a) end.

Lemma MD5_step_rfc i a b c d x ac : 0 < rfc_s i < 32 ->
  is_u32 a -> is_u32 b -> is_u32 c -> is_u32 d ->
  MD5_step (macro_f (rfc_macro i)) a b c d x (rfc_s i) ac
  = (b + rotl32 ((a + rfc_f i b c d + x + ac) mod 4294967296) (rfc_s i)) mod 4294967296.
Proof.
  intros Hs Ha Hb Hc Hd. unfold MD5_step. rewrite md5_f_rfc by done.
  rewrite ROTATE_LEFT_rotl by (done || apply u32_range). unfold u32 at 1. rewrite Z.add_comm.
  do 3 f_equal. unfold u32. rewrite Zplus_mod_idemp_l, Zplus_mod_idemp_r. f_equal. lia.
Qed.

Lemma run_line_rfc x i r : (i < 64)%nat -> state_u32 r ->
  view (S i) (run_line x r (rfc_line i)) = rfc_round x (view i r) i /\ state_u32 (run_line x r (rfc_line i)).
Proof.
  intros Hi. destruct r as [[[a b] c] d]. intros (Ha & Hb & Hc & Hd).
  assert (Hs : 0 < rfc_s i < 32).
  { pose proof rfc_s_range as Hall. rewrite Forall_forall in Hall. apply Hall, elem_of_seq. lia. }
  assert (Hm : forall k, (i mod 4 = k)%nat -> (S i mod 4 = (k + 1) mod 4)%nat)
    by (intros k <-; rewrite Nat.Div0.add_mod_idemp_l; f_equal; lia).
  unfold view, rfc_round. unfold run_line. cbn [rfc_line line_macro line_order line_x line_s line_ac].
  pose proof (Nat.mod_upper_bound i 4 ltac:(done)) as Hub.
  destruct (i mod 4)%nat as [|[|[|[|?]]]] eqn:Ei; [..|lia]; rewrite (Hm _ eq_refl); simpl Nat.modulo; cbn match;
    rewrite MD5_step_rfc by done; (split; [done|]); unfold state_u32; split_and!; try done; apply u32_range.
Qed.

Lemma run_lines_rfc x n : forall i r, (i + n <= 64)%nat -> state_u32 r ->
  view (i + n) (foldl (run_line x) r (map rfc_line (seq i n))) = foldl (rfc_round x) (view i r) (seq i n).
Proof.
  induction n as [|n IH]; intros i r Hi Hr; [by rewrite Nat.add_0_r|].
  cbn [seq map foldl]. destruct (run_line_rfc x i r ltac:(lia) Hr) as [<- Hr'].
  rewrite <- IH by (done || lia). f_equal. lia.
Qed.

Lemma MD5_Decode_words n : forall input, bytes input -> (length input = 4 * n)%nat ->
  MD5_Decode input (4 * n) = words_le input.
Proof.
  induction n as [|n IH]; intros input Hb Hl; [by destruct input|].
  replace (4 * S n)%nat with (S (S (S (S (4 * n))))) in * by lia.
  destruct input as [|b0 [|b1 [|b2 [|b3 input]]]]; try done. cbn [MD5_Decode words_le].
  repeat (apply bytes_cons in Hb as [? Hb]). rewrite IH by (done || (cbn in Hl; lia)). f_equal.
  unfold is_byte in *. change 16777216 with (2 ^ 24). change 65536 with (2 ^ 16). change 256 with (2 ^ 8) in *.
  assert (E1 : b0 .| (b1 << 8) = b1 * 2 ^ 8 + b0) by (rewrite Z.lor_comm; by apply lor_shiftl_add).
  assert (E2 : b0 .| (b1 << 8) .| (b2 << 16) = b2 * 2 ^ 16 + (b1 * 2 ^ 8 + b0))
    by (rewrite E1, Z.lor_comm; apply lor_shiftl_add; lia).
  rewrite E2, Z.lor_comm, lor_shiftl_add by lia. lia.
Qed.

Lemma words_le_length l : forall n, (length l = 4 * n)%nat -> length (words_le l) = n.
Proof.
  intros n. revert l. induction n as [|n IH]; intros [|b0 [|b1 [|b2 [|b3 l]]]] Hl; cbn in Hl; try lia; [done|].
  cbn [words_le length]. f_equal. apply IH. lia.
Qed.

Lemma MD5Transform_rfc s block : state_u32 s -> bytes block -> length block = 64%nat ->
  MD5Transform s block = rfc_compress s block /\ state_u32 (MD5Transform s block).
Proof.
  intros Hs Hb Hl. unfold MD5Transform, rfc_compress. rewrite (MD5_Decode_words 16) by done.
  rewrite md5_lines_rfc. pose proof (run_lines_rfc (words_le block) 64 0 s ltac:(lia) Hs) as E.
  destruct (foldl (run_line _) s _) as [[[a b] c] d]. destruct s as [[[s0 s1] s2] s3].
  change (view 0 (s0, s1, s2, s3)) with (s0, s1, s2, s3) in E. rewrite <- E. cbn.
  split; [done|]. split_and!; apply u32_range.
Qed.

(** ** The result *)

Lemma MD5_Encode_words ws : MD5_Encode ws (4 * length ws) = concat (map le32 ws).
Proof.
  induction ws as [|w ws IH]; [done|]. cbn [length]. replace (4 * S (length ws))%nat with (S (S (S (S (4 * length ws))))) by lia.
  cbn [MD5_Encode map concat]. rewrite IH, !land_255, !shiftr_pow2 by done. done.
Qed.

Lemma le32_u32 z : le32 (u32 z) = le32 z.
Proof. unfold le32, u32. repeat (apply (f_equal2 cons); [lia|]); done. Qed.

Lemma bits_words m : concat (map le32 [u32 (bits_of m); u32 (bits_of m / 4294967296)])
  = le32 (bits_of m) ++ le32 (bits_of m / 4294967296).
Proof. cbn [map concat]. by rewrite !le32_u32, app_nil_r. Qed.

Lemma PADDING_pad n : take (length (pad_octets n)) PADDING = pad_octets n.
Proof.
  unfold PADDING, pad_octets. cbn [length take]. rewrite length_replicate, take_replicate. do 2 f_equal.
  case_decide; lia.
Qed.

Lemma rfc_pad_length m : (length (rfc_pad m) mod 64 = 0)%nat.
Proof.
  unfold rfc_pad. rewrite !length_app. cbn [le32 length].
  replace (length m + (length (pad_octets (length m)) + (4 + 4)))%nat
    with (length m + length (pad_octets (length m)) + 8)%nat by lia. apply padded_length.
Qed.

Lemma TnmMD5Final_rep context m : md5_rep context m ->
  TnmMD5Final context
  = Some (concat (map le32 (md5_state_words (absorb MD5Transform md5_iv (rfc_pad m)))),
          mkMD5 (0, 0, 0, 0) 0 0 (replicate 64 0)).
Proof.
  intros Hrep. pose proof Hrep as [_ _ _ H0 H1]. unfold TnmMD5Final. rewrite H0, H1.
  rewrite (MD5_Encode_words [_; _]), bits_words. pose proof (count_index (length m)) as Hix.
  fold (bits_of m) in Hix. rewrite Hix.
  assert (Hp : (length (pad_octets (length m)) <= 64)%nat).
  { rewrite pad_octets_length. pose proof (Nat.mod_upper_bound (length m) 64 ltac:(done)). case_decide; lia. }
  assert (Hlen : (if bool_decide (Z.of_nat (length m mod 64) < 56) then 56 - Z.of_nat (length m mod 64)
            else 120 - Z.of_nat (length m mod 64)) = Z.of_nat (length (pad_octets (length m)))).
  { rewrite pad_octets_length. pose proof (Nat.mod_upper_bound (length m) 64 ltac:(done)).
    case_bool_decide; case_decide; lia. }
  rewrite Hlen.
  destruct (TnmMD5Update_rep context m PADDING (length (pad_octets (length m)))) as (c1 & -> & Hr1);
    [done|by unfold PADDING|lia|]. cbn [mbind option_bind]. rewrite PADDING_pad in Hr1.
  destruct (TnmMD5Update_rep c1 _ (le32 (bits_of m) ++ le32 (bits_of m / 4294967296)) 8 Hr1) as (c2 & E & Hr2);
    [done|done|]. change (Z.of_nat 8) with 8 in E. rewrite E. cbn [mbind option_bind].
  destruct Hr2 as [-> _ _ _ _]. rewrite take_ge by done.
  replace ((m ++ pad_octets (length m)) ++ le32 (bits_of m) ++ le32 (bits_of m / 4294967296)) with (rfc_pad m)
    by (unfold rfc_pad; by rewrite <- app_assoc).
  destruct (absorb MD5Transform md5_iv (rfc_pad m)) as [[[a b] c] d]. cbn [md5_state_words].
  do 2 f_equal. exact (MD5_Encode_words [a; b; c; d]).
Qed.

(** Updates in sequence. *)
Definition md5_updates (context : MD5_CTX) (parts : list (list Z)) : option MD5_CTX :=
  foldl (fun c part => c ← c; TnmMD5Update c part (Z.of_nat (length part))) (Some context) parts.

Lemma md5_init_rep buffer : length buffer = 64%nat -> md5_rep (TnmMD5Init buffer) [].
Proof. intros H. by split. Qed.

Lemma md5_updates_rep parts : forall context m,
  md5_rep context m -> Forall (fun part => Z.of_nat (length part) < 4294967232) parts ->
  exists context', md5_updates context parts = Some context' /\ md5_rep context' (m ++ concat parts).
Proof.
  induction parts as [|p parts IH]; intros c m Hrep Hall; [exists c; by rewrite app_nil_r|].
  apply Forall_cons in Hall as [Hp Hall].
  destruct (TnmMD5Update_rep c m p (length p)) as (c1 & E & Hr); [done|lia|done|].
  rewrite take_ge in Hr by lia. destruct (IH c1 _ Hr Hall) as (c2 & E2 & Hr2).
  exists c2. unfold md5_updates in *. cbn [foldl mbind option_bind concat]. rewrite E. split; [done|].
  by rewrite app_assoc.
Qed.

(** The digest of octets handed over in parts. *)
Definition md5_of (buffer : list Z) (parts : list (list Z)) : option (list Z) :=
  context ← md5_updates (TnmMD5Init buffer) parts; fst <$> TnmMD5Final context.

Lemma md5_rfc_words m : bytes m ->
  concat (map le32 (md5_state_words (absorb MD5Transform md5_iv (rfc_pad m)))) = md5 m.
Proof.
  intros Hb. unfold md5. fold md5_iv.
  destruct (absorb_ext MD5Transform rfc_compress state_u32 MD5Transform_rfc (rfc_pad m) md5_iv)
    as [-> _]; [by vm_compute| |done].
  unfold rfc_pad. repeat (apply bytes_app; split); [done|apply pad_octets_bytes|apply le32_bytes|apply le32_bytes].
Qed.

Lemma md5_of_spec buffer parts :
  length buffer = 64%nat -> bytes (concat parts) -> Forall (fun part => Z.of_nat (length part) < 4294967232) parts ->
  md5_of buffer parts = Some (md5 (concat parts)).
Proof.
  intros Hl Hb Hall. unfold md5_of.
  destruct (md5_updates_rep parts _ [] (md5_init_rep buffer Hl) Hall) as (c & -> & Hr). cbn [mbind option_bind].
  rewrite (TnmMD5Final_rep _ _ Hr). cbn [fmap option_fmap option_map fst app]. by rewrite md5_rfc_words.
Qed.
