(* ===== verification/SHA.v ===== *)
(** The SHA message digest, [tnmSHA.c]: the procedures as they are compiled on
    a machine with little-endian longs of 64 bits, and the proof that they
    compute the digest of FIPS 180-1 for a message that is handed over in any
    number of parts. *)

From S2P Require Import Prelude Digest.
Local Open Scope Z_scope.
Local Open Scope cint_scope.

(** ** The transformation *)

Definition T32 (x : Z) : Z := x .& 0xffffffff.
Definition R32 (x n : Z) : Z := T32 ((x << n) .| (x >> (32 - n))).

Definition CONST1 : Z := 0x5a827999.
Definition CONST2 : Z := 0x6ed9eba1.
Definition CONST3 : Z := 0x8f1bbcdc.
Definition CONST4 : Z := 0xca62c1d6.

(** The [f()]-functions and the constant that goes with each; [~x] of a long. *)
Inductive sha_fn := f1 | f2 | f3 | f4.
Definition sha_f (n : sha_fn) (x y z : Z) : Z :=
  match n with
  | f1 => (x .& y) .| (u64 (Z.lnot x) .& z)
  | f2 => x .^ y .^ z
  | f3 => (x .& y) .| (x .& z) .| (y .& z)
  | f4 => x .^ y .^ z
  end.
Definition sha_const (n : sha_fn) : Z :=
  match n with f1 => CONST1 | f2 => CONST2 | f3 => CONST3 | f4 => CONST4 end.

(** The variables [T], [A], [B], [C], [D] and [E], and the macros that assign
    two of them each. *)
Record sha_regs := mkRegs { rT : Z; rA : Z; rB : Z; rC : Z; rD : Z; rE : Z }.
Inductive sha_macro := FA | FB | FC | FD | FE | FT.

Definition sha_sum (n : sha_fn) (a b c d e w : Z) : Z :=
  T32 (R32 a 5 + sha_f n b c d + e + w + sha_const n).

Definition run_macro (m : sha_macro) (n : sha_fn) (w : Z) (r : sha_regs) : sha_regs :=
  let '(mkRegs T A B C D E) := r in
  match m with
  | FA => mkRegs (sha_sum n A B C D E w) A (R32 B 30) C D E
  | FB => mkRegs T (R32 A 30) B C D (sha_sum n T A B C D w)
  | FC => mkRegs (R32 T 30) A B C (sha_sum n E T A B C w) E
  | FD => mkRegs T A B (sha_sum n D E T A B w) D (R32 E 30)
  | FE => mkRegs T A (sha_sum n C D E T A w) C (R32 D 30) E
  | FT => mkRegs T (sha_sum n B C D E T w) B (R32 C 30) D E
  end.

Definition sha_macros : list (sha_macro * sha_fn) :=
  [(FA, f1); (FB, f1); (FC, f1); (FD, f1); (FE, f1); (FT, f1); (FA, f1); (FB, f1); (FC, f1); (FD, f1);
   (FE, f1); (FT, f1); (FA, f1); (FB, f1); (FC, f1); (FD, f1); (FE, f1); (FT, f1); (FA, f1); (FB, f1);
   (FC, f2); (FD, f2); (FE, f2); (FT, f2); (FA, f2); (FB, f2); (FC, f2); (FD, f2); (FE, f2); (FT, f2);
   (FA, f2); (FB, f2); (FC, f2); (FD, f2); (FE, f2); (FT, f2); (FA, f2); (FB, f2); (FC, f2); (FD, f2);
   (FE, f3); (FT, f3); (FA, f3); (FB, f3); (FC, f3); (FD, f3); (FE, f3); (FT, f3); (FA, f3); (FB, f3);
   (FC, f3); (FD, f3); (FE, f3); (FT, f3); (FA, f3); (FB, f3); (FC, f3); (FD, f3); (FE, f3); (FT, f3);
   (FA, f4); (FB, f4); (FC, f4); (FD, f4); (FE, f4); (FT, f4); (FA, f4); (FB, f4); (FC, f4); (FD, f4);
   (FE, f4); (FT, f4); (FA, f4); (FB, f4); (FC, f4); (FD, f4); (FE, f4); (FT, f4); (FA, f4); (FB, f4)].

(** The macros with [WP] running over [W]. *)
Fixpoint run_macros (ms : list (sha_macro * sha_fn)) (WP : list Z) (r : sha_regs) : sha_regs :=
  match ms, WP with
  | (m, n) :: ms, w :: WP => run_macros ms WP (run_macro m n w r)
  | _, _ => r
  end.

(** [T = *((LONG * ) dp)], a long of eight octets *)
Definition load_long (b0 b1 b2 b3 b4 b5 b6 b7 : Z) : Z :=
  b0 + 2 ^ 8 * b1 + 2 ^ 16 * b2 + 2 ^ 24 * b3 + 2 ^ 32 * b4 + 2 ^ 40 * b5 + 2 ^ 48 * b6 + 2 ^ 56 * b7.

Definition sha_swap (T : Z) : Z :=
  ((u64 (T << 24) .& 0xff000000) .| (u64 (T << 8) .& 0x00ff0000))
  .| ((T >> 8) .& 0x0000ff00) .| ((T >> 24) .& 0x000000ff).

(** The first sixteen words, two for each long. *)
Fixpoint sha_words (dp : list Z) : list Z :=
  match dp with
  | b0 :: b1 :: b2 :: b3 :: b4 :: b5 :: b6 :: b7 :: dp =>
      let T := load_long b0 b1 b2 b3 b4 b5 b6 b7 in
      sha_swap T :: sha_swap (T >> 32) :: sha_words dp
  | _ => []
  end.

(** [for (i = 16; i < 80; ++i)]; [n] rounds are left. *)
Fixpoint sha_schedule (n i : nat) (W : list Z) : list Z :=
  match n with
  | O => W
  | S n =>
      let w := W !!! (i - 3)%nat .^ W !!! (i - 8)%nat .^ W !!! (i - 14)%nat .^ W !!! (i - 16)%nat in
      sha_schedule n (S i) (W ++ [R32 w 1])
  end.

Definition sha_state : Type := Z * Z * Z * Z * Z.

Definition sha_transform (digest : sha_state) (data : list Z) : sha_state :=
  let W := sha_schedule 64 16 (sha_words data) in
  let '(d0, d1, d2, d3, d4) := digest in
  let '(mkRegs T A B C D E) := run_macros sha_macros W (mkRegs 0 d0 d1 d2 d3 d4) in
  (T32 (d0 + E), T32 (d1 + T), T32 (d2 + A), T32 (d3 + B), T32 (d4 + C)).

(** ** The context *)

Definition SHA_BLOCKSIZE : Z := 64.

Record SHA_CTX := mkSHA {
  sha_digest : sha_state;
  sha_count_lo : Z;
  sha_count_hi : Z;
  sha_data : list Z;
  sha_local : Z
}.

(** [data] is the memory [TnmSHAInit] leaves as it is. *)
Definition TnmSHAInit (data : list Z) : SHA_CTX :=
  mkSHA (0x67452301, 0xefcdab89, 0x98badcfe, 0x10325476, 0xc3d2e1f0) 0 0 data 0.

(** [while (count >= SHA_BLOCKSIZE)]: the digest, the data, the position of
    [buffer] and [count]. *)
Fixpoint sha_blocks (fuel : nat) (digest : sha_state) (data buffer : list Z) (pos : nat) (count : Z)
    : option (sha_state * list Z * nat * Z) :=
  match fuel with
  | O => None
  | S fuel =>
      if bool_decide (SHA_BLOCKSIZE <= count) then
        data ← memcpy data 0 buffer pos (Z.to_nat SHA_BLOCKSIZE);
        sha_blocks fuel (sha_transform digest data) data buffer (pos + 64) (count - SHA_BLOCKSIZE)
      else Some (digest, data, pos, count)
  end.

(** What follows the octets that complete a block. *)
Definition sha_update_tail (digest : sha_state) (lo hi : Z) (data buffer : list Z) (pos : nat) (count : Z)
    : option SHA_CTX :=
  '(digest, data, pos, count) ← sha_blocks (S (Z.to_nat count)) digest data buffer pos count;
  data ← memcpy data 0 buffer pos (Z.to_nat count);
  Some (mkSHA digest lo hi data count).

(** [None] is an access outside of [buffer] or of the data of the context. *)
Definition TnmSHAUpdate (sha_info : SHA_CTX) (buffer : list Z) (count : Z) : option SHA_CTX :=
  let clo := T32 (sha_count_lo sha_info + u64 (count << 3)) in
  let hi := if bool_decide (clo < sha_count_lo sha_info) then u64 (sha_count_hi sha_info + 1)
            else sha_count_hi sha_info in
  let hi := u64 (hi + (count >> 29)) in
  if bool_decide (sha_local sha_info <> 0) then
    let i := SHA_BLOCKSIZE - sha_local sha_info in
    let i := if bool_decide (count < i) then count else i in
    data ← memcpy (sha_data sha_info) (Z.to_nat (sha_local sha_info)) buffer 0 (Z.to_nat i);
    let local := sha_local sha_info + i in
    if bool_decide (local = SHA_BLOCKSIZE) then
      sha_update_tail (sha_transform (sha_digest sha_info) data) clo hi data buffer (Z.to_nat i) (count - i)
    else Some (mkSHA (sha_digest sha_info) clo hi data local)
  else sha_update_tail (sha_digest sha_info) clo hi (sha_data sha_info) buffer 0 count.

(** [data[off] = ...; data[off + 1] = ...; ...] *)
Fixpoint store_octets (data : list Z) (off : nat) (octets : list Z) : list Z :=
  match octets with
  | [] => data
  | b :: octets => store_octets (<[off:=b]> data) (S off) octets
  end.

Definition sha_output (digest : sha_state) : list Z :=
  let '(d0, d1, d2, d3, d4) := digest in
  [u8 ((d0 >> 24) .& 0xff); u8 ((d0 >> 16) .& 0xff); u8 ((d0 >> 8) .& 0xff); u8 (d0 .& 0xff);
   u8 ((d1 >> 24) .& 0xff); u8 ((d1 >> 16) .& 0xff); u8 ((d1 >> 8) .& 0xff); u8 (d1 .& 0xff);
   u8 ((d2 >> 24) .& 0xff); u8 ((d2 >> 16) .& 0xff); u8 ((d2 >> 8) .& 0xff); u8 (d2 .& 0xff);
   u8 ((d3 >> 24) .& 0xff); u8 ((d3 >> 16) .& 0xff); u8 ((d3 >> 8) .& 0xff); u8 (d3 .& 0xff);
   u8 ((d4 >> 24) .& 0xff); u8 ((d4 >> 16) .& 0xff); u8 ((d4 >> 8) .& 0xff); u8 (d4 .& 0xff)].

Definition TnmSHAFinal (sha_info : SHA_CTX) : option (list Z) :=
  let lo := sha_count_lo sha_info in
  let hi := sha_count_hi sha_info in
  let count := (lo >> 3) .& 0x3f in
  let data := <[Z.to_nat count:=0x80]> (sha_data sha_info) in
  let count := count + 1 in
  '(digest, data) ←
    (if bool_decide (SHA_BLOCKSIZE - 8 < count) then
       data ← memset data (Z.to_nat count) 0 (Z.to_nat (SHA_BLOCKSIZE - count));
       let digest := sha_transform (sha_digest sha_info) data in
       data ← memset data 0 0 (Z.to_nat (SHA_BLOCKSIZE - 8));
       Some (digest, data)
     else
       data ← memset data (Z.to_nat count) 0 (Z.to_nat (SHA_BLOCKSIZE - 8 - count));
       Some (sha_digest sha_info, data));
  let data := store_octets data 56
    [(hi >> 24) .& 0xff; (hi >> 16) .& 0xff; (hi >> 8) .& 0xff; (hi >> 0) .& 0xff;
     (lo >> 24) .& 0xff; (lo >> 16) .& 0xff; (lo >> 8) .& 0xff; (lo >> 0) .& 0xff] in
  Some (sha_output (sha_transform digest data)).

(** ** The digest of FIPS 180-1 *)

Definition fips_f (t : nat) (x y z : Z) : Z :=
  match (t / 20)%nat with
  | 0%nat => Z.lor (Z.land x y) (Z.ldiff z x)
  | 2%nat => Z.lor (Z.lor (Z.land x y) (Z.land x z)) (Z.land y z)
  | _ => Z.lxor (Z.lxor x y) z
  end.

(** [2^30] times the square roots of 2, 3, 5 and 10. *)
Definition fips_K (t : nat) : Z := Z.sqrt ([2; 3; 5; 10] !!! (t / 20)%nat * 2 ^ 60).

Fixpoint fips_schedule (n t : nat) (W : list Z) : list Z :=
  match n with
  | O => W
  | S n =>
      let w := Z.lxor (Z.lxor (Z.lxor (W !!! (t - 3)%nat) (W !!! (t - 8)%nat)) (W !!! (t - 14)%nat))
                 (W !!! (t - 16)%nat) in
      fips_schedule n (S t) (W ++ [rotl32 w 1])
  end.

Definition fips_round (W : list Z) (r : sha_state) (t : nat) : sha_state :=
  let '(a, b, c, d, e) := r in
  ((rotl32 a 5 + fips_f t b c d + e + W !!! t + fips_K t) mod 4294967296, a, rotl32 b 30, c, d).

Definition fips_compress (digest : sha_state) (block : list Z) : sha_state :=
  let W := fips_schedule 64 16 (words_be block) in
  let '(a, b, c, d, e) := foldl (fips_round W) digest (seq 0 80) in
  let '(d0, d1, d2, d3, d4) := digest in
  ((d0 + a) mod 4294967296, (d1 + b) mod 4294967296, (d2 + c) mod 4294967296, (d3 + d) mod 4294967296,
   (d4 + e) mod 4294967296).

Definition fips_pad (m : list Z) : list Z :=
  m ++ pad_octets (length m) ++ be32 (bits_of m / 4294967296) ++ be32 (bits_of m).

Definition sha_state_words (s : sha_state) : list Z := let '(a, b, c, d, e) := s in [a; b; c; d; e].

Definition sha1 (m : list Z) : list Z :=
  concat (map be32 (sha_state_words
    (absorb fips_compress (0x67452301, 0xefcdab89, 0x98badcfe, 0x10325476, 0xc3d2e1f0) (fips_pad m)))).

(** ** Words *)

Lemma T32_u32 x : T32 x = u32 x.
Proof. unfold T32, u32. change 0xffffffff with (Z.ones 32). by rewrite Z.land_ones. Qed.

Lemma u32_lor_distr x y : u32 (Z.lor x y) = Z.lor (u32 x) (u32 y).
Proof.
  apply Z.bits_inj'. intros i Hi. rewrite Z.lor_spec, !u32_bits by done.
  case_bool_decide; [by rewrite Z.lor_spec|done].
Qed.

Lemma R32_rotl x n : is_u32 x -> 0 < n < 32 -> R32 x n = rotl32 x n.
Proof.
  intros Hx Hn. unfold R32. rewrite T32_u32, u32_lor_distr, <- lor_rotl by done. f_equal. apply u32_id.
  rewrite shiftr_pow2 by lia. unfold is_u32 in *.
  pose proof (Z.pow_pos_nonneg 2 (32 - n) ltac:(done) ltac:(lia)) as Hk.
  split; [apply Z.div_pos; lia|]. apply Z.div_lt_upper_bound; [done|]. nia.
Qed.

Lemma R32_range x n : is_u32 (R32 x n).
Proof. unfold R32. rewrite T32_u32. apply u32_range. Qed.

Lemma sha_f_fips t x y z : (t < 80)%nat -> is_u32 z ->
  sha_f (match (t / 20)%nat with 0%nat => f1 | 1%nat => f2 | 2%nat => f3 | _ => f4 end) x y z = fips_f t x y z.
Proof.
  intros Ht Hz. unfold fips_f. assert (Hq : (t / 20 < 4)%nat) by (apply Nat.Div0.div_lt_upper_bound; lia).
  destruct (t / 20)%nat as [|[|[|[|?]]]]; [|done|done|done|lia]. cbn [sha_f]. f_equal.
  apply Z.bits_inj'. intros i Hi. rewrite Z.land_spec, Z.ldiff_spec. unfold u64. change 18446744073709551616 with (2 ^ 64).
  destruct (Z.lt_ge_cases i 64) as [?|?].
  - rewrite Z.mod_pow2_bits_low, Z.lnot_spec by lia. apply andb_comm.
  - by rewrite Z.mod_pow2_bits_high, (testbit_u32 z) by (done || lia).
Qed.

(** ** The transformation *)

Definition fips_fn (t : nat) : sha_fn := match (t / 20)%nat with 0%nat => f1 | 1%nat => f2 | 2%nat => f3 | _ => f4 end.
Definition fips_macro (t : nat) : sha_macro * sha_fn :=
  (match (t mod 6)%nat with 0%nat => FA | 1%nat => FB | 2%nat => FC | 3%nat => FD | 4%nat => FE | _ => FT end, fips_fn t).

Lemma sha_macros_fips : sha_macros = map fips_macro (seq 0 80).
Proof. vm_compute. reflexivity. Qed.

Lemma sha_const_fips : Forall (fun t => sha_const (fips_fn t) = fips_K t) (seq 0 80).
Proof. by_eval. Qed.

(** The registers in the order of the standard before operation [t]. *)
Definition sha_view (t : nat) (r : sha_regs) : sha_state :=
  let '(mkRegs T A B C D E) := r in
  match (t mod 6)%nat with
  | 0%nat => (A, B, C, D, E) | 1%nat => (T, A, B, C, D) | 2%nat => (E, T, A, B, C)
  | 3%nat => (D, E, T, A, B) | 4%nat => (C, D, E, T, A) | _ => (B, C, D, E, T)
  end.

Definition regs_u32 (r : sha_regs) : Prop :=
  let '(mkRegs T A B C D E) := r in
  is_u32 T /\ is_u32 A /\ is_u32 B /\ is_u32 C /\ is_u32 D /\ is_u32 E.

Lemma sha_sum_fips t a b c d e w : (t < 80)%nat -> is_u32 a -> is_u32 d ->
  sha_sum (fips_fn t) a b c d e w = (rotl32 a 5 + fips_f t b c d + e + w + fips_K t) mod 4294967296.
Proof.
  intros Ht Ha Hd. unfold sha_sum. rewrite T32_u32, R32_rotl by done. unfold fips_fn at 1. rewrite sha_f_fips by done.
  pose proof sha_const_fips as Hall. rewrite Forall_forall in Hall. rewrite Hall by (apply elem_of_seq; lia). done.
Qed.

Lemma run_macro_fips W t r : (t < 80)%nat -> regs_u32 r ->
  let r' := run_macro (fips_macro t).1 (fips_macro t).2 (W !!! t) r in
  sha_view (S t) r' = fips_round W (sha_view t r) t /\ regs_u32 r'.
Proof.
  intros Ht. destruct r as [T A B C D E]. intros (HT & HA & HB & HC & HD & HE).
  assert (Hm : forall k, (t mod 6 = k)%nat -> (S t mod 6 = (k + 1) mod 6)%nat)
    by (intros k <-; rewrite Nat.Div0.add_mod_idemp_l; f_equal; lia).
  unfold sha_view, fips_round. cbn [fips_macro fst snd].
  pose proof (Nat.mod_upper_bound t 6 ltac:(done)) as Hub.
  destruct (t mod 6)%nat as [|[|[|[|[|[|?]]]]]] eqn:Et; [..|lia]; rewrite (Hm _ eq_refl);
    simpl Nat.modulo; cbn match; cbn [run_macro]; rewrite sha_sum_fips, R32_rotl by done; (split; [done|]);
    unfold regs_u32; split_and!; try done; first [apply u32_range|rewrite <- R32_rotl by done; apply R32_range].
Qed.

Lemma run_macros_fips W n : forall t r, length W = 80%nat -> (t + n <= 80)%nat -> regs_u32 r ->
  sha_view (t + n) (run_macros (map fips_macro (seq t n)) (drop t W) r)
  = foldl (fips_round W) (sha_view t r) (seq t n).
Proof.
  induction n as [|n IH]; intros t r HW Ht Hr.
  { rewrite Nat.add_0_r. cbn [seq map run_macros foldl]. done. }
  assert (Hd : drop t W = W !!! t :: drop (S t) W).
  { apply drop_S. apply list_lookup_lookup_total_lt. lia. }
  rewrite Hd. cbn [seq map foldl]. destruct (run_macro_fips W t r ltac:(lia) Hr) as [E Hr'].
  destruct (fips_macro t) as [m f]. cbn [run_macros fst snd] in *. rewrite <- E, <- IH by (done || lia). f_equal. lia.
Qed.

(** A mask of one octet. *)
Lemma land_octet x k : 0 <= k -> x .& (255 * 2 ^ k) = (x / 2 ^ k) mod 256 * 2 ^ k.
Proof.
  intros Hk. apply Z.bits_inj'. intros i Hi. rewrite <- !Z.shiftl_mul_pow2, Z.land_spec by done.
  destruct (Z.lt_ge_cases i k) as [?|?].
  - by rewrite !Z.shiftl_spec_low, andb_false_r by lia.
  - rewrite !Z.shiftl_spec by lia. rewrite <- shiftr_pow2 by done. change 256 with (2 ^ 8).
    rewrite <- Z.land_ones, Z.land_spec, Z.shiftr_spec by lia. change (Z.ones 8) with 255. do 2 f_equal. lia.
Qed.

Lemma sha_swap_octets b0 b1 b2 b3 r : is_byte b0 -> is_byte b1 -> is_byte b2 -> is_byte b3 -> 0 <= r < 4294967296 ->
  sha_swap (b0 + 256 * b1 + 65536 * b2 + 16777216 * b3 + 4294967296 * r)
  = 16777216 * b0 + 65536 * b1 + 256 * b2 + b3.
Proof.
  unfold is_byte. intros H0 H1 H2 H3 Hr. set (T := b0 + 256 * b1 + 65536 * b2 + 16777216 * b3 + 4294967296 * r).
  unfold sha_swap. change 0xff000000 with (255 * 2 ^ 24). change 0x00ff0000 with (255 * 2 ^ 16).
  change 0x0000ff00 with (255 * 2 ^ 8). change 0x000000ff with (255 * 2 ^ 0). rewrite !land_octet by done.
  rewrite !Z.shiftl_mul_pow2, !shiftr_pow2 by done. unfold u64.
  replace (T * 2 ^ 24 mod 18446744073709551616 / 2 ^ 24 mod 256) with b0 by (unfold T; lia).
  replace (T * 2 ^ 8 mod 18446744073709551616 / 2 ^ 16 mod 256) with b1 by (unfold T; lia).
  replace (T / 2 ^ 8 / 2 ^ 8 mod 256) with b2 by (unfold T; lia).
  replace (T / 2 ^ 24 / 2 ^ 0 mod 256) with b3 by (unfold T; lia).
  rewrite <- (Z.shiftl_mul_pow2 b0), lor_shiftl_add by lia.
  assert (E2 : b0 * 2 ^ 24 + b1 * 2 ^ 16 = (b0 * 2 ^ 8 + b1) * 2 ^ 16) by lia.
  rewrite E2, <- (Z.shiftl_mul_pow2 (b0 * 2 ^ 8 + b1)), lor_shiftl_add by lia.
  assert (E3 : (b0 * 2 ^ 8 + b1) * 2 ^ 16 + b2 * 2 ^ 8 = (b0 * 2 ^ 16 + b1 * 2 ^ 8 + b2) * 2 ^ 8) by lia.
  rewrite E3, <- (Z.shiftl_mul_pow2 (b0 * 2 ^ 16 + b1 * 2 ^ 8 + b2)), lor_shiftl_add by lia. lia.
Qed.

Lemma sha_words_be n : forall dp, bytes dp -> (length dp = 8 * n)%nat -> sha_words dp = words_be dp.
Proof.
  induction n as [|n IH]; intros dp Hb Hl; [by destruct dp|].
  destruct dp as [|b0 [|b1 [|b2 [|b3 [|b4 [|b5 [|b6 [|b7 dp]]]]]]]]; cbn [length] in Hl; try lia.
  cbn [sha_words words_be]. repeat (apply bytes_cons in Hb as [? Hb]). rewrite IH by (done || lia).
  unfold is_byte in *.
  replace (load_long b0 b1 b2 b3 b4 b5 b6 b7) with (b0 + 256 * b1 + 65536 * b2 + 16777216 * b3
    + 4294967296 * (b4 + 256 * b5 + 65536 * b6 + 16777216 * b7)) by (unfold load_long; lia).
  rewrite shiftr_pow2 by done.
  replace ((b0 + 256 * b1 + 65536 * b2 + 16777216 * b3 + 4294967296 * (b4 + 256 * b5 + 65536 * b6 + 16777216 * b7)) / 2 ^ 32)
    with (b4 + 256 * b5 + 65536 * b6 + 16777216 * b7 + 4294967296 * 0) by lia.
  by rewrite !sha_swap_octets by (unfold is_byte; lia).
Qed.

Lemma words_be_spec n : forall l, bytes l -> (length l = 4 * n)%nat -> Forall is_u32 (words_be l) /\ length (words_be l) = n.
Proof.
  induction n as [|n IH]; intros l Hb Hl; [by destruct l|].
  destruct l as [|b0 [|b1 [|b2 [|b3 l]]]]; cbn [length] in Hl; try lia. cbn [words_be length].
  repeat (apply bytes_cons in Hb as [? Hb]). destruct (IH l Hb ltac:(lia)) as [? ->].
  split; [|done]. constructor; [unfold is_byte, is_u32 in *; lia|done].
Qed.

Lemma u32_lxor x y : is_u32 x -> is_u32 y -> is_u32 (Z.lxor x y).
Proof.
  intros Hx Hy. apply bits_u32; [apply Z.lxor_nonneg; unfold is_u32 in *; lia|].
  intros i Hi. by rewrite Z.lxor_spec, !testbit_u32 by done.
Qed.

Lemma lookup_total_u32 W i : Forall is_u32 W -> is_u32 (W !!! i).
Proof.
  intros H. destruct (W !! i) as [w|] eqn:E.
  - rewrite (list_lookup_total_correct _ _ _ E). by eapply Forall_lookup_1.
  - rewrite list_lookup_total_alt, E. done.
Qed.

Lemma sha_schedule_fips n : forall t W, Forall is_u32 W ->
  sha_schedule n t W = fips_schedule n t W /\ length (fips_schedule n t W) = (length W + n)%nat.
Proof.
  induction n as [|n IH]; intros t W HW; [cbn; split; [done|lia]|]. cbn [sha_schedule fips_schedule].
  set (w := Z.lxor _ (W !!! (t - 16)%nat)).
  assert (is_u32 w) by (unfold w; repeat apply u32_lxor; by apply lookup_total_u32).
  rewrite <- R32_rotl by done. destruct (IH (S t) (W ++ [R32 w 1])) as [-> ->].
  - apply Forall_app. split; [done|]. constructor; [apply R32_range|done].
  - rewrite length_app. cbn. split; [done|lia].
Qed.

Definition sha_state_u32 (s : sha_state) : Prop :=
  let '(a, b, c, d, e) := s in is_u32 a /\ is_u32 b /\ is_u32 c /\ is_u32 d /\ is_u32 e.

Lemma sha_transform_fips s block : sha_state_u32 s -> bytes block -> length block = 64%nat ->
  sha_transform s block = fips_compress s block /\ sha_state_u32 (sha_transform s block).
Proof.
  intros Hs Hb Hl. unfold sha_transform, fips_compress. rewrite (sha_words_be 8) by done.
  destruct (words_be_spec 16 block Hb Hl) as [HW HlW].
  destruct (sha_schedule_fips 64 16 (words_be block) HW) as [-> HlS]. rewrite HlW in HlS.
  generalize dependent (fips_schedule 64 16 (words_be block)). intros W HlS. rewrite sha_macros_fips.
  destruct s as [[[[d0 d1] d2] d3] d4]. destruct Hs as (H0 & H1 & H2 & H3 & H4).
  assert (Hr : regs_u32 (mkRegs 0 d0 d1 d2 d3 d4)) by (unfold regs_u32; split_and!; [unfold is_u32; lia|assumption..]).
  pose proof (run_macros_fips W 80 0 _ HlS (le_n 80) Hr) as E. rewrite drop_0 in E.
  change (sha_view 0 (mkRegs 0 d0 d1 d2 d3 d4)) with (d0, d1, d2, d3, d4) in E. rewrite <- E. clear E.
  destruct (run_macros _ W _) as [T A B C D E]. change (sha_view (0 + 80) (mkRegs T A B C D E)) with (E, T, A, B, C).
  cbn match. rewrite !T32_u32. split; [done|]. split_and!; apply u32_range.
Qed.

(** ** Absorbing octets *)

Definition sha_iv : sha_state := sha_digest (TnmSHAInit []).

Record sha_rep (c : SHA_CTX) (m : list Z) : Prop := {
  srep_digest : sha_digest c = absorb sha_transform sha_iv m;
  srep_size : length (sha_data c) = 64%nat;
  srep_data : take (length m mod 64) (sha_data c) = rest m;
  srep_local : sha_local c = Z.of_nat (length m mod 64);
  srep_lo : sha_count_lo c = u32 (bits_of m);
  srep_hi : sha_count_hi c = u64 (bits_of m / 4294967296)
}.

Lemma sha_count_add old n (lo := u32 (8 * old)) (hi := u64 (8 * old / 4294967296)) :
  0 <= old -> 0 <= n < 2147483648 ->
  let clo := T32 (lo + u64 (n << 3)) in
  clo = u32 (8 * (old + n)) /\
  u64 ((if bool_decide (clo < lo) then u64 (hi + 1) else hi) + (n >> 29)) = u64 (8 * (old + n) / 4294967296).
Proof.
  intros Ho Hn clo. unfold clo. rewrite shiftl_3, shiftr_pow2, T32_u32 by done. change (2 ^ 29) with 536870912.
  unfold lo, hi, u32, u64. split; [lia|]. case_bool_decide; lia.
Qed.

Lemma sha_blocks_spec fuel : forall digest data buffer pos n,
  length data = 64%nat -> (pos + n <= length buffer)%nat -> (n < 64 * fuel)%nat ->
  exists data' pos' n', sha_blocks fuel digest data buffer pos (Z.of_nat n)
      = Some (absorb sha_transform digest (take n (drop pos buffer)), data', pos', Z.of_nat n') /\
    length data' = 64%nat /\ (pos' + n' = pos + n)%nat /\ n' = (n mod 64)%nat /\
    rest (take n (drop pos buffer)) = take n' (drop pos' buffer).
Proof.
  induction fuel as [|fuel IH]; intros digest data buffer pos n Hd Hn Hf; [lia|]. cbn [sha_blocks].
  assert (Hl : length (take n (drop pos buffer)) = n) by (rewrite length_take, length_drop; lia).
  unfold SHA_BLOCKSIZE. change (Z.to_nat 64) with 64%nat. case_bool_decide as Hc.
  - destruct (memcpy_fill data 0 buffer pos 64 [] eq_refl) as (data1 & -> & Hl1 & Ht1); [lia|lia|].
    rewrite take_ge in Ht1 by lia. cbn [mbind option_bind app] in *.
    replace (Z.of_nat n - 64) with (Z.of_nat (n - 64)) by lia.
    destruct (IH (sha_transform digest data1) data1 buffer (pos + 64)%nat (n - 64)%nat)
      as (data' & pos' & n' & -> & Hl' & Hp & Hn' & Hr); [lia|lia|lia|].
    exists data', pos', n'. destruct (absorb_block sha_transform digest (take n (drop pos buffer))) as [-> ->];
      [unfold block_size; lia|]. unfold block_size. rewrite take_take, skipn_firstn_comm, drop_drop.
    replace (64 `min` n)%nat with 64%nat by lia. rewrite <- Ht1. split; [done|]. split; [done|].
    split; [lia|]. split; [|done]. rewrite Hn'. replace n with ((n - 64) + 1 * 64)%nat at 2 by lia.
    by rewrite Nat.Div0.mod_add.
  - exists data, pos, n. destruct (absorb_short sha_transform digest (take n (drop pos buffer))) as [-> ->];
      [unfold block_size; lia|]. split; [done|]. split; [done|]. split; [done|]. split; [|done].
    by rewrite Nat.mod_small by lia.
Qed.

(** The blocks of the input behind the octets [m] that filled complete ones. *)
Lemma sha_update_tail_rep digest lo hi data buffer pos n m :
  let m' := m ++ take n (drop pos buffer) in
  digest = absorb sha_transform sha_iv m -> (length m mod 64 = 0)%nat -> length data = 64%nat ->
  (pos + n <= length buffer)%nat -> lo = u32 (bits_of m') -> hi = u64 (bits_of m' / 4294967296) ->
  exists c, sha_update_tail digest lo hi data buffer pos (Z.of_nat n) = Some c /\ sha_rep c m'.
Proof.
  intros m' Hdg Hm Hd Hn Hlo Hhi. unfold sha_update_tail. rewrite Nat2Z.id.
  destruct (sha_blocks_spec (S n) digest data buffer pos n) as (data1 & p1 & n1 & -> & Hl1 & Hp1 & Hn1 & Hr1);
    [done|done|lia|]. cbn [mbind option_bind]. rewrite Nat2Z.id.
  pose proof (Nat.mod_upper_bound n 64 ltac:(done)) as Hub.
  destruct (memcpy_fill data1 0 buffer p1 n1 [] eq_refl) as (data2 & -> & Hl2 & Ht2); [lia|lia|].
  cbn [mbind option_bind app] in *. eexists. split; [done|].
  destruct (absorb_app sha_transform sha_iv m (take n (drop pos buffer))) as [Ea Er]. fold m' in Ea, Er.
  rewrite (rest_nil_app m) in Ea, Er by done. cbn [app] in Ea, Er.
  assert (Hlen : (length m' mod 64 = n1)%nat).
  { unfold m'. rewrite length_app, length_take, length_drop, <- Nat.Div0.add_mod_idemp_l, Hm, Hn1.
    f_equal. lia. }
  split; cbn [sha_digest sha_data sha_local sha_count_lo sha_count_hi]; rewrite ?Hlen;
    [by rewrite Ea, Hdg|lia| |done|done|done].
  rewrite Er, Hr1. exact Ht2.
Qed.

Lemma TnmSHAUpdate_rep c m buffer n :
  sha_rep c m -> (n <= length buffer)%nat -> Z.of_nat n < 2147483648 ->
  exists c', TnmSHAUpdate c buffer (Z.of_nat n) = Some c' /\ sha_rep c' (m ++ take n buffer).
Proof.
  intros [Hdg Hs Hb Hlc Hlo Hhi] Hn Hmax. unfold TnmSHAUpdate, SHA_BLOCKSIZE. rewrite Hlo, Hhi, Hlc. unfold bits_of.
  destruct (sha_count_add (Z.of_nat (length m)) (Z.of_nat n)) as [-> ->]; [lia|lia|].
  set (r := (length m mod 64)%nat) in *. pose proof (Nat.mod_upper_bound (length m) 64 ltac:(done)) as Hr. fold r in Hr.
  assert (Hbits : 8 * (Z.of_nat (length m) + Z.of_nat n) = bits_of (m ++ take n buffer))
    by (unfold bits_of; rewrite length_app, length_take; lia). rewrite Hbits.
  case_bool_decide as H0.
  - set (k := Nat.min n (64 - r)).
    assert ((if bool_decide (Z.of_nat n < 64 - Z.of_nat r) then Z.of_nat n else 64 - Z.of_nat r) = Z.of_nat k) as ->
      by (case_bool_decide; lia). rewrite !Nat2Z.id.
    destruct (memcpy_fill (sha_data c) r buffer 0 k _ Hb) as (data1 & -> & Hl1 & Ht1); [lia|lia|].
    cbn [mbind option_bind]. rewrite drop_0 in Ht1. case_bool_decide as Hfull.
    + assert (Hk : k = (64 - r)%nat) by lia. rewrite take_ge in Ht1 by lia.
      assert (Hsplit : m ++ take n buffer = (m ++ take k buffer) ++ take (n - k) (drop k buffer)).
      { rewrite <- app_assoc. f_equal. rewrite take_take_drop. f_equal. lia. }
      replace (Z.of_nat n - Z.of_nat k) with (Z.of_nat (n - k)) by lia. rewrite Hsplit.
      assert (Hlk : length (take k buffer) = k) by (rewrite length_take; lia).
      apply sha_update_tail_rep; [| |lia|lia|done|done].
      * destruct (absorb_fill sha_transform sha_iv m (take k buffer)) as [-> _]; [fold r; lia|]. fold r.
        rewrite (take_ge (take k buffer)), drop_ge by lia. rewrite Hdg, Ht1. done.
      * rewrite length_app, Hlk, <- Nat.Div0.add_mod_idemp_l. fold r. by replace (r + k)%nat with 64%nat by lia.
    + eexists. split; [done|]. assert (Hkn : k = n) by lia. rewrite Hkn in *.
      assert (Hln : length (take n buffer) = n) by (rewrite length_take; lia).
      destruct (absorb_wait sha_transform sha_iv m (take n buffer)) as [Ea Er]; [fold r; lia|].
      assert (Hlen : (length (m ++ take n buffer) mod 64 = r + n)%nat).
      { rewrite length_app, Hln, <- Nat.Div0.add_mod_idemp_l. fold r. apply Nat.mod_small. lia. }
      split; cbn [sha_digest sha_data sha_local sha_count_lo sha_count_hi]; rewrite ?Hlen;
        [by rewrite Ea|lia|by rewrite Er|lia|done|done].
  - assert (Hr0 : r = 0%nat) by lia.
    pose proof (sha_update_tail_rep (sha_digest c) (u32 (bits_of (m ++ take n buffer)))
      (u64 (bits_of (m ++ take n buffer) / 4294967296)) (sha_data c) buffer 0 n m) as H.
    rewrite drop_0 in H. by apply H.
Qed.

(** ** The result *)

Lemma be32_u32 z : be32 (u32 z) = be32 z.
Proof. unfold be32, u32. repeat (apply (f_equal2 cons); [lia|]); done. Qed.
Lemma be32_u64 z : be32 (u64 z) = be32 z.
Proof. unfold be32, u64. repeat (apply (f_equal2 cons); [lia|]); done. Qed.

Lemma sha_count_octets z : [(z >> 24) .& 0xff; (z >> 16) .& 0xff; (z >> 8) .& 0xff; (z >> 0) .& 0xff] = be32 z.
Proof. rewrite !land_255, !shiftr_pow2 by done. change (2 ^ 0) with 1. by rewrite Z.div_1_r. Qed.

Lemma sha_output_words s : sha_output s = concat (map be32 (sha_state_words s)).
Proof.
  destruct s as [[[[a b] c] d] e]. unfold sha_output, sha_state_words. cbn [map concat app]. unfold be32, u8.
  rewrite !land_255, !shiftr_pow2, !Z.mod_mod by done. done.
Qed.

Lemma store_octets_app pre : forall octets old, length octets = length old ->
  store_octets (pre ++ old) (length pre) octets = pre ++ octets.
Proof.
  intros octets. revert pre. induction octets as [|b octets IH]; intros pre [|o old] Hl; try done.
  cbn [store_octets]. rewrite insert_app_mid. cbn in Hl.
  replace (pre ++ b :: old) with ((pre ++ [b]) ++ old) by (by rewrite <- app_assoc).
  replace (S (length pre)) with (length (pre ++ [b])) by (rewrite length_app; cbn; lia).
  rewrite IH by lia. by rewrite <- app_assoc.
Qed.

(** The data of the context with the padding and the number of bits stored at
    its end. *)
Lemma sha_last_block data octets : length data = 64%nat -> length octets = 8%nat ->
  store_octets data 56 octets = take 56 data ++ octets.
Proof.
  intros Hd Ho. rewrite <- (take_drop 56 data) at 1.
  replace 56%nat with (length (take 56 data)) at 3 by (rewrite length_take; lia).
  apply store_octets_app. rewrite length_drop. lia.
Qed.

Lemma fips_pad_length m : (length (fips_pad m) mod 64 = 0)%nat.
Proof.
  unfold fips_pad. rewrite !length_app. cbn [be32 length].
  replace (length m + (length (pad_octets (length m)) + (4 + 4)))%nat
    with (length m + length (pad_octets (length m)) + 8)%nat by lia. apply padded_length.
Qed.

(** The first octet of the padding in the data. *)
Lemma sha_pad_start data r pre : take r data = pre -> length pre = r -> (r < length data)%nat ->
  take (S r) (<[r:=0x80]> data) = pre ++ [0x80].
Proof. intros <- Hr Hd. by rewrite take_S_insert. Qed.

Lemma sha_final_block c m bits : sha_rep c m -> length bits = 8%nat ->
  exists digest data,
    (let data := <[(length m mod 64)%nat:=0x80]> (sha_data c) in
     let count := Z.of_nat (length m mod 64) + 1 in
     if bool_decide (SHA_BLOCKSIZE - 8 < count) then
       data ← memset data (Z.to_nat count) 0 (Z.to_nat (SHA_BLOCKSIZE - count));
       let digest := sha_transform (sha_digest c) data in
       data ← memset data 0 0 (Z.to_nat (SHA_BLOCKSIZE - 8));
       Some (digest, data)
     else
       data ← memset data (Z.to_nat count) 0 (Z.to_nat (SHA_BLOCKSIZE - 8 - count));
       Some (sha_digest c, data)) = Some (digest, data) /\ length data = 64%nat /\
    sha_transform digest (take 56 data ++ bits)
    = absorb sha_transform sha_iv (m ++ pad_octets (length m) ++ bits).
Proof.
  intros [Hdg Hs Hb _ _ _] Hbits. destruct (absorb_app sha_transform sha_iv m (pad_octets (length m) ++ bits)) as [-> _].
  rewrite Hdg. pose proof (rest_length m) as Hr. change block_size with 64%nat in Hr. unfold pad_octets.
  set (r := (length m mod 64)%nat) in *. set (s := absorb sha_transform sha_iv m).
  pose proof (Nat.mod_upper_bound (length m) 64 ltac:(done)) as Hub. fold r in Hub.
  pose proof (sha_pad_start (sha_data c) r (rest m) Hb Hr ltac:(lia)) as Hst.
  set (d0 := <[r:=0x80]> (sha_data c)) in *. assert (Hl0 : length d0 = 64%nat) by (unfold d0; by rewrite length_insert).
  cbv zeta. unfold SHA_BLOCKSIZE. replace (Z.to_nat (Z.of_nat r + 1)) with (S r) by lia. case_bool_decide as Hc.
  - rewrite decide_False by lia. replace (Z.to_nat (64 - (Z.of_nat r + 1))) with (63 - r)%nat by lia.
    change (Z.to_nat (64 - 8)) with 56%nat.
    destruct (memset_ok d0 (S r) 0 (63 - r)) as [d1 E1]; [lia|]. rewrite E1. cbn [mbind option_bind].
    apply memset_some in E1 as [Hl1 Ht1]. rewrite take_ge, Hst in Ht1 by lia.
    destruct (memset_ok d1 0 0 56) as [d2 E2]; [lia|]. rewrite E2. cbn [mbind option_bind].
    apply memset_some in E2 as [Hl2 Ht2]. change (0 + 56)%nat with 56%nat in Ht2.
    eexists _, _. split; [done|]. split; [lia|]. rewrite Ht2, take_0. cbn [app].
    replace (119 - r)%nat with ((63 - r) + 56)%nat by lia. rewrite replicate_add.
    replace (rest m ++ 128 :: (replicate (63 - r) 0 ++ replicate 56 0) ++ bits)
      with (d1 ++ (replicate 56 0 ++ bits)) by (rewrite Ht1; by app_norm).
    rewrite absorb_two; [done|unfold block_size; lia|rewrite length_app, length_replicate; unfold block_size; lia].
  - rewrite decide_True by lia. replace (Z.to_nat (64 - 8 - (Z.of_nat r + 1))) with (55 - r)%nat by lia.
    destruct (memset_ok d0 (S r) 0 (55 - r)) as [d1 E1]; [lia|]. rewrite E1. cbn [mbind option_bind].
    apply memset_some in E1 as [Hl1 Ht1]. replace (S r + (55 - r))%nat with 56%nat in Ht1 by lia. rewrite Hst in Ht1.
    eexists _, _. split; [done|]. split; [lia|]. rewrite Ht1.
    replace (rest m ++ (128 :: replicate (55 - r) 0) ++ bits)
      with (((rest m ++ [128]) ++ replicate (55 - r) 0) ++ bits) by (by app_norm).
    rewrite absorb_one; [done|]. rewrite !length_app, length_replicate, Hr. cbn [length]. unfold block_size. lia.
Qed.

Lemma TnmSHAFinal_rep c m : sha_rep c m ->
  TnmSHAFinal c = Some (concat (map be32 (sha_state_words (absorb sha_transform sha_iv (fips_pad m))))).
Proof.
  intros Hrep. pose proof Hrep as [_ _ _ _ Hlo Hhi]. unfold TnmSHAFinal. rewrite Hlo, Hhi.
  pose proof (count_index (length m)) as Hix. fold (bits_of m) in Hix. rewrite Hix, Nat2Z.id.
  destruct (sha_final_block c m (be32 (bits_of m / 4294967296) ++ be32 (bits_of m)) Hrep eq_refl)
    as (digest & data & E & Hl & Ht).
  cbv zeta in E. rewrite E. cbn [mbind option_bind]. rewrite <- sha_output_words. do 2 f_equal.
  rewrite <- (be32_u64 (bits_of m / 4294967296)), <- (be32_u32 (bits_of m)), <- !sha_count_octets in Ht.
  unfold fips_pad. rewrite <- (be32_u64 (bits_of m / 4294967296)), <- (be32_u32 (bits_of m)), <- !sha_count_octets.
  rewrite sha_last_block by done. exact Ht.
Qed.

Definition sha_updates (c : SHA_CTX) (parts : list (list Z)) : option SHA_CTX :=
  foldl (fun c part => c ← c; TnmSHAUpdate c part (Z.of_nat (length part))) (Some c) parts.

Lemma sha_init_rep data : length data = 64%nat -> sha_rep (TnmSHAInit data) [].
Proof. intros H. by split. Qed.

Lemma sha_updates_rep parts : forall c m,
  sha_rep c m -> Forall (fun part => Z.of_nat (length part) < 2147483648) parts ->
  exists c', sha_updates c parts = Some c' /\ sha_rep c' (m ++ concat parts).
Proof.
  induction parts as [|p parts IH]; intros c m Hrep Hall; [exists c; by rewrite app_nil_r|].
  apply Forall_cons in Hall as [Hp Hall].
  destruct (TnmSHAUpdate_rep c m p (length p)) as (c1 & E & Hr); [done|lia|done|].
  rewrite take_ge in Hr by lia. destruct (IH c1 _ Hr Hall) as (c2 & E2 & Hr2).
  exists c2. unfold sha_updates in *. cbn [foldl mbind option_bind concat]. rewrite E. split; [done|].
  by rewrite app_assoc.
Qed.

Definition sha_of (data : list Z) (parts : list (list Z)) : option (list Z) :=
  c ← sha_updates (TnmSHAInit data) parts; TnmSHAFinal c.

Lemma sha_fips_words m : bytes m ->
  concat (map be32 (sha_state_words (absorb sha_transform sha_iv (fips_pad m)))) = sha1 m.
Proof.
  intros Hb. unfold sha1. fold sha_iv.
  destruct (absorb_ext sha_transform fips_compress sha_state_u32 sha_transform_fips (fips_pad m) sha_iv)
    as [-> _]; [by vm_compute| |done].
  unfold fips_pad. repeat (apply bytes_app; split); [done|apply pad_octets_bytes|apply be32_bytes|apply be32_bytes].
Qed.

Lemma sha_of_spec data parts :
  length data = 64%nat -> bytes (concat parts) -> Forall (fun part => Z.of_nat (length part) < 2147483648) parts ->
  sha_of data parts = Some (sha1 (concat parts)).
Proof.
  intros Hl Hb Hall. unfold sha_of.
  destruct (sha_updates_rep parts _ [] (sha_init_rep data Hl) Hall) as (c & -> & Hr). cbn [mbind option_bind].
  rewrite (TnmSHAFinal_rep _ _ Hr). cbn [app]. by rewrite sha_fips_words.
Qed.
