(* ===== verification/Obj.v ===== *)
(** The Tcl object types of [tnmObj.c]: 64 bit and 32 bit unsigned numbers,
    octet strings and IP addresses.

    A Tcl object has two representations, a string and an internal one, and
    either may be missing.  The types of this file convert between them; [Foreign]
    stands for the internal representations of Tcl itself, with the string Tcl
    would produce for them. *)

From stdpp Require Import gmap.
From S2P Require Import Prelude CStr Util.
Local Open Scope Z_scope.

(** ** Numerals: [strtoul] with base 0 and [sscanf] with [%llu] *)

(** The value of a digit of a base. *)
Definition digit_of (base c : Z) : option Z :=
  let d := if isdigit c then c - 48
           else if bool_decide (97 <= c <= 122) then c - 87
           else if bool_decide (65 <= c <= 90) then c - 55 else 36 in
  if bool_decide (d < base) then Some d else None.

(** The value of the leading digits and what follows them. *)
Fixpoint scan_digits (base : Z) (s : cstring) (acc : Z) : Z * cstring :=
  match s with
  | c :: s' =>
      match digit_of base c with
      | Some d => scan_digits base s' (base * acc + d)
      | None => (acc, s)
      end
  | [] => (acc, s)
  end.

Definition starts_with_digit (base : Z) (s : cstring) : bool :=
  match s with c :: _ => bool_decide (is_Some (digit_of base c)) | [] => false end.

(** The base a numeral announces and the digits. *)
Definition detect_base (s : cstring) : Z * cstring :=
  match s with
  | 48 :: c :: s' =>
      if (bool_decide (c = 120) || bool_decide (c = 88)) && starts_with_digit 16 s' then (16, s') else (8, s)
  | 48 :: _ => (8, s)
  | _ => (10, s)
  end.

Definition skip_sign (s : cstring) : bool * cstring :=
  match s with
  | 45 :: s' => (true, s')
  | 43 :: s' => (false, s')
  | _ => (false, s)
  end.

(** [strtoul(p, &end, 0)] with 64 bits: the value, whether [errno] is
    [ERANGE], and the string at [end], which is [p] itself if there is no
    numeral. *)
Definition strtoul (p : cstring) : Z * bool * cstring :=
  let '(neg, s) := skip_sign (skip_space p) in
  let '(base, ds) := detect_base s in
  if starts_with_digit base ds then
    let '(v, rest) := scan_digits base ds 0 in
    if bool_decide (18446744073709551615 < v) then (18446744073709551615, true, rest)
    else (if neg then u64 (- v) else v, false, rest)
  else (0, false, p).

(** [sscanf(p, "%llu", &u)]: [None] unless one value is assigned. *)
Definition sscanf_llu (p : cstring) : option Z :=
  let '(neg, s) := skip_sign (skip_space p) in
  if starts_with_digit 10 s then
    let v := (scan_digits 10 s 0).1 in
    Some (if bool_decide (18446744073709551615 < v) then 18446744073709551615
          else if neg then u64 (- v) else v)
  else None.

(** ** Objects *)

Inductive internal_rep :=
  | NoType
  | Foreign (s : cstring)
  | tnmUnsigned64 (u : Z)
  | tnmUnsigned32 (u : Z)
  | tnmOctetString (octets : list Z)
  | tnmIpAddress (addr : list Z).

(** [bytes] is [None] when the string representation is invalid. *)
Record Tcl_Obj := mkObj { obj_bytes : option cstring; obj_rep : internal_rep }.

Definition Tcl_NewObj : Tcl_Obj := mkObj (Some []) NoType.

(** The octets [UpdateStringOf...] allocates and the string it writes. *)
Definition UpdateStringOfUnsigned64 (u : Z) : nat * cstring := (30%nat, sprintf_llu u).
Definition UpdateStringOfUnsigned32 (u : Z) : nat * cstring := (30%nat, sprintf_u u).
Definition UpdateStringOfOctetString (octets : list Z) : nat * cstring :=
  ((length octets * 3)%nat, TnmHexEnc octets).

Definition UpdateStringOfIpAddress (addr : list Z) : nat * cstring := (16%nat, inet_ntoa addr).

(** The string and its terminating NUL in the memory allocated for them. *)
Definition write_string (r : nat * cstring) : option cstring :=
  let '(size, s) := r in if decide (length s + 1 <= size)%nat then Some s else None.

(** The update procedure of a type; [None] is a write outside of the memory
    that was allocated. *)
Definition updateStringProc (rep : internal_rep) : option cstring :=
  match rep with
  | NoType => Some []
  | Foreign s => Some s
  | tnmUnsigned64 u => write_string (UpdateStringOfUnsigned64 u)
  | tnmUnsigned32 u => write_string (UpdateStringOfUnsigned32 u)
  | tnmOctetString octets => write_string (UpdateStringOfOctetString octets)
  | tnmIpAddress addr => write_string (UpdateStringOfIpAddress addr)
  end.

(** [Tcl_GetStringFromObj]: the string and the object with it. *)
Definition Tcl_GetStringFromObj (obj : Tcl_Obj) : option (cstring * Tcl_Obj) :=
  match obj_bytes obj with
  | Some s => Some (s, obj)
  | None => s ← updateStringProc (obj_rep obj); Some (s, mkObj (Some s) (obj_rep obj))
  end.

(** [Tcl_DuplicateObj]: the [Dup...InternalRep] procedures copy the value. *)
Definition DupInternalRep (src : Tcl_Obj) : Tcl_Obj := mkObj (obj_bytes src) (obj_rep src).

(** ** The types *)

Definition TnmNewUnsigned64Obj (u : Z) : Tcl_Obj := mkObj None (tnmUnsigned64 u).
Definition TnmNewUnsigned32Obj (u : Z) : Tcl_Obj := mkObj None (tnmUnsigned32 u).
Definition TnmNewOctetStringObj (octets : list Z) : Tcl_Obj := mkObj None (tnmOctetString octets).
Definition TnmNewIpAddressObj (addr : list Z) : Tcl_Obj := mkObj None (tnmIpAddress addr).

(** [TnmSet...Obj] of an object that is not shared *)
Definition TnmSetUnsigned64Obj (obj : Tcl_Obj) (u : Z) : Tcl_Obj := mkObj None (tnmUnsigned64 u).
Definition TnmSetUnsigned32Obj (obj : Tcl_Obj) (u : Z) : Tcl_Obj := mkObj None (tnmUnsigned32 u).
Definition TnmSetOctetStringObj (obj : Tcl_Obj) (octets : list Z) : Tcl_Obj := mkObj None (tnmOctetString octets).
Definition TnmSetIpAddressObj (obj : Tcl_Obj) (addr : list Z) : Tcl_Obj := mkObj None (tnmIpAddress addr).

(** The value a string denotes for each type. *)
Definition scan_unsigned64 (string : cstring) : option Z :=
  let p := skip_space string in
  match p with 45 :: _ => None | _ => sscanf_llu p end.

(** [end == string], [end != string + length]: positions are compared by the
    length of what follows.  The value is cut to 32 bits when it is stored in
    [u]. *)
Definition scan_unsigned32 (string : cstring) : option Z :=
  let p := skip_space string in
  match p with
  | 45 :: _ => None
  | _ =>
      let '(v, erange, rest) := strtoul p in
      if bool_decide (length rest = length string) then None
      else if erange then None
      else if bool_decide (skip_space rest <> []) then None
      else Some (u32 v)
  end.

(** [Set...FromAny]: the object with the new internal representation, or the
    object as it was. *)
Definition set_from_any (rep : cstring -> option internal_rep) (obj : Tcl_Obj) : option (tcl_code * Tcl_Obj) :=
  '(s, obj) ← Tcl_GetStringFromObj obj;
  match rep s with
  | Some r => Some (TCL_OK, mkObj (obj_bytes obj) r)
  | None => Some (TCL_ERROR, obj)
  end.

Definition SetUnsigned64FromAny : Tcl_Obj -> option (tcl_code * Tcl_Obj) :=
  set_from_any (fun s => tnmUnsigned64 <$> scan_unsigned64 s).
Definition SetUnsigned32FromAny : Tcl_Obj -> option (tcl_code * Tcl_Obj) :=
  set_from_any (fun s => tnmUnsigned32 <$> scan_unsigned32 s).
Definition SetOctetStringFromAny : Tcl_Obj -> option (tcl_code * Tcl_Obj) :=
  set_from_any (fun s => tnmOctetString <$> TnmHexDec s).

(** [TnmGet...FromObj]: the value ([None] for an error) and the object. *)
Definition TnmGetUnsigned64FromObj (obj : Tcl_Obj) : option (option Z * Tcl_Obj) :=
  match obj_rep obj with
  | tnmUnsigned64 u => Some (Some u, obj)
  | _ =>
      '(result, obj) ← SetUnsigned64FromAny obj;
      match result, obj_rep obj with
      | TCL_OK, tnmUnsigned64 u => Some (Some u, obj)
      | _, _ => Some (None, obj)
      end
  end.

Definition TnmGetUnsigned32FromObj (obj : Tcl_Obj) : option (option Z * Tcl_Obj) :=
  match obj_rep obj with
  | tnmUnsigned32 u => Some (Some u, obj)
  | _ =>
      '(result, obj) ← SetUnsigned32FromAny obj;
      match result, obj_rep obj with
      | TCL_OK, tnmUnsigned32 u => Some (Some u, obj)
      | _, _ => Some (None, obj)
      end
  end.

Definition TnmGetOctetStringFromObj (obj : Tcl_Obj) : option (option (list Z) * Tcl_Obj) :=
  match obj_rep obj with
  | tnmOctetString octets => Some (Some octets, obj)
  | _ =>
      '(result, obj) ← SetOctetStringFromAny obj;
      match result, obj_rep obj with
      | TCL_OK, tnmOctetString octets => Some (Some octets, obj)
      | _, _ => Some (None, obj)
      end
  end.

Section address.
Variable inet_addr : cstring -> list Z.
Variable gethostbyname : cstring -> option (list Z).

(** The cache of host names of [TnmSetIPAddress] is passed along. *)
Definition SetIpAddressFromAny (hostTable : gmap cstring (list Z)) (obj : Tcl_Obj)
    : option (tcl_code * Tcl_Obj * gmap cstring (list Z)) :=
  '(s, obj) ← Tcl_GetStringFromObj obj;
  match TnmSetIPAddress inet_addr gethostbyname hostTable s with
  | (TCL_OK, Some addr, hostTable) => Some (TCL_OK, mkObj (obj_bytes obj) (tnmIpAddress addr), hostTable)
  | (_, _, hostTable) => Some (TCL_ERROR, obj, hostTable)
  end.

Definition TnmGetIpAddressFromObj (hostTable : gmap cstring (list Z)) (obj : Tcl_Obj)
    : option (option (list Z) * Tcl_Obj * gmap cstring (list Z)) :=
  match obj_rep obj with
  | tnmIpAddress addr => Some (Some addr, obj, hostTable)
  | _ =>
      '(result, obj, hostTable) ← SetIpAddressFromAny hostTable obj;
      match result, obj_rep obj with
      | TCL_OK, tnmIpAddress addr => Some (Some addr, obj, hostTable)
      | _, _ => Some (None, obj, hostTable)
      end
  end.
End address.
