(* ===== verification/ObjTheorems.v ===== *)
(** The two representations of a Tcl object stay consistent: whatever is
    asked of an object, its string denotes its internal value. *)

From stdpp Require Import gmap.
From S2P Require Import Prelude CStr Util UtilTheorems Obj.
Local Open Scope Z_scope.

(** ** Numerals *)

Definition numeral (fuel : nat) (u : Z) : cstring := map (Z.add chr_0) (digits_msd (dec_width fuel u) u).

Lemma digit_of_10 d : 0 <= d < 10 -> digit_of 10 (chr_0 + d) = Some d.
Proof.
  intros Hd. unfold digit_of, isdigit, chr_0. rewrite (bool_decide_eq_true_2 (48 <= 48 + d <= 57)) by lia.
  replace (48 + d - 48) with d by lia. by rewrite bool_decide_eq_true_2 by lia.
Qed.

Lemma scan_digits_10 ds : forall acc, Forall (fun d => 0 <= d < 10) ds ->
  scan_digits 10 (map (Z.add chr_0) ds) acc = (fold_left (fun acc d => 10 * acc + d) ds acc, []).
Proof.
  induction ds as [|d ds IH]; intros acc Hds; [done|]. apply Forall_cons in Hds as [Hd Hds].
  cbn [map scan_digits]. by rewrite digit_of_10, IH.
Qed.

Lemma numeral_scan fuel u : 0 <= u < 10 ^ Z.of_nat (S fuel) -> scan_digits 10 (numeral fuel u) 0 = (u, []).
Proof.
  intros Hu. unfold numeral. rewrite scan_digits_10 by (apply digits_msd_range; lia).
  rewrite digits_msd_fold by lia. rewrite Z.mod_small; [done|]. split; [lia|]. by apply dec_width_upper.
Qed.

(** The first digit: not zero unless the number is. *)
Lemma numeral_head fuel u : 0 <= u < 10 ^ Z.of_nat (S fuel) ->
  (u = 0 /\ numeral fuel u = [48]) \/ exists d s, numeral fuel u = (48 + d) :: s /\ 1 <= d <= 9.
Proof.
  intros Hu. destruct (decide (u = 0)) as [->|Hne].
  { left. split; [done|]. unfold numeral. by destruct fuel. }
  right. unfold numeral. pose proof (dec_width_bound fuel u) as Hb.
  pose proof (dec_width_lower fuel u ltac:(lia)) as Hlo. pose proof (dec_width_upper fuel u Hu) as Hup.
  destruct (dec_width fuel u) as [|k]; [lia|]. replace (S k - 1)%nat with k in Hlo by lia.
  cbn [digits_msd map]. eexists _, _. split; [reflexivity|]. rewrite pow10_S in Hup. pose proof (pow10_pos k).
  assert (1 <= u / 10 ^ Z.of_nat k) by (apply Z.div_le_lower_bound; lia).
  assert (u / 10 ^ Z.of_nat k < 10) by (apply Z.div_lt_upper_bound; lia).
  rewrite Z.mod_small by lia. lia.
Qed.

Lemma scan_unsigned64_numeral u : 0 <= u < 18446744073709551616 -> scan_unsigned64 (sprintf_llu u) = Some u.
Proof.
  intros Hu. unfold sprintf_llu, u64. rewrite Z.mod_small by done. fold (numeral 20 u).
  assert (Hu' : 0 <= u < 10 ^ Z.of_nat 21) by (split; [lia|]; change (10 ^ Z.of_nat 21) with 1000000000000000000000; lia).
  pose proof (numeral_scan 20 u Hu') as Hs.
  destruct (numeral_head 20 u Hu') as [[-> Hh]|(d & s & Hh & Hd)]; rewrite Hh in *; [done|].
  assert (d = 1 \/ d = 2 \/ d = 3 \/ d = 4 \/ d = 5 \/ d = 6 \/ d = 7 \/ d = 8 \/ d = 9) as Hc by lia.
  unfold scan_unsigned64, sscanf_llu.
  destruct Hc as [->|[->|[->|[->|[->|[->|[->|[->| ->]]]]]]]]; simpl in *; rewrite Hs; cbn [fst];
    by rewrite bool_decide_eq_false_2 by lia.
Qed.

Lemma scan_unsigned32_numeral u : is_u32 u -> scan_unsigned32 (sprintf_u u) = Some u.
Proof.
  intros Hu. unfold sprintf_u. rewrite u32_id by done. fold (numeral 10 u).
  assert (Hu' : 0 <= u < 10 ^ Z.of_nat 11) by (destruct Hu; split; [lia|]; change (10 ^ Z.of_nat 11) with 100000000000; lia).
  pose proof (numeral_scan 10 u Hu') as Hs. unfold is_u32 in Hu.
  destruct (numeral_head 10 u Hu') as [[-> Hh]|(d & s & Hh & Hd)]; rewrite Hh in *; [done|].
  assert (d = 1 \/ d = 2 \/ d = 3 \/ d = 4 \/ d = 5 \/ d = 6 \/ d = 7 \/ d = 8 \/ d = 9) as Hc by lia.
  unfold scan_unsigned32, strtoul.
  destruct Hc as [->|[->|[->|[->|[->|[->|[->|[->| ->]]]]]]]]; simpl in *; rewrite Hs;
    rewrite bool_decide_eq_false_2 by lia; simpl; by rewrite u32_id.
Qed.

(** ** Addresses *)

Lemma split_dots_digits s1 s2 : Forall (fun c => isdigit c = true) s1 ->
  split_dots (s1 ++ chr_dot :: s2) = (s1, (split_dots s2).1 :: (split_dots s2).2).
Proof.
  induction s1 as [|c s1 IH]; intros H; cbn [app split_dots].
  - destruct (split_dots s2). by rewrite bool_decide_eq_true_2.
  - apply Forall_cons in H as [Hc H]. rewrite IH by done. rewrite bool_decide_eq_false_2; [done|].
    intros ->. done.
Qed.

Lemma split_dots_last s : Forall (fun c => isdigit c = true) s -> split_dots s = (s, []).
Proof.
  induction s as [|c s IH]; intros H; cbn [split_dots]; [done|]. apply Forall_cons in H as [Hc H].
  rewrite IH by done. rewrite bool_decide_eq_false_2; [done|]. intros ->. done.
Qed.

Lemma ip_part_byte a : is_byte a -> ip_part 0 (sprintf_u a).
Proof.
  intros Ha. split; [apply sprintf_u_digits|]. unfold dec_value. rewrite sprintf_u_fold; unfold is_byte, is_u32 in *; lia.
Qed.

(** The dotted notation of four octets is an address and no host name. *)
Lemma dotted_address a b c d : bytes [a; b; c; d] ->
  TnmValidateIpAddress (dotted [a; b; c; d]) = TCL_OK /\ TnmValidateIpHostName (dotted [a; b; c; d]) = TCL_ERROR.
Proof.
  unfold bytes. rewrite !Forall_cons. intros (Ha & Hb & Hc & Hd & _).
  assert (Hok : TnmValidateIpAddress (dotted [a; b; c; d]) = TCL_OK).
  { apply ip_address_ok. cbn [dotted].
    rewrite !split_dots_digits, split_dots_last by apply sprintf_u_digits. cbn [fst snd].
    split; [done|]. rewrite !Forall_cons. split_and!; by try apply ip_part_byte. }
  split; [done|]. by apply ip_address_no_name.
Qed.

(** ** Types *)

(** The types whose conversion needs nothing but the string. *)
Inductive obj_type := type_Unsigned64 | type_Unsigned32 | type_OctetString.

(** What a type promises: strings are scanned to values in range, and a value
    that is printed is scanned back. *)
Class ObjType (T : obj_type) := {
  value : Type;
  rep_of : value -> internal_rep;
  value_of : internal_rep -> option value;
  scan : cstring -> option value;
  in_range : value -> Prop;
  value_rep : forall v, value_of (rep_of v) = Some v;
  rep_value : forall rep v, value_of rep = Some v -> rep = rep_of v;
  scan_range : forall s v, scan s = Some v -> in_range v;
  print_scan : forall v s, in_range v -> updateStringProc (rep_of v) = Some s -> scan s = Some v
}.
Arguments value T {_}.
Arguments rep_of T {_} _.
Arguments value_of T {_} _.
Arguments scan T {_} _.
Arguments in_range T {_} _.

(** The shape of [TnmGet...FromObj]. *)
Definition get_from_obj (T : obj_type) `{ObjType T} (obj : Tcl_Obj) : option (option (value T) * Tcl_Obj) :=
  match value_of T (obj_rep obj) with
  | Some v => Some (Some v, obj)
  | None =>
      '(result, obj) ← set_from_any (fun s => rep_of T <$> scan T s) obj;
      match result, value_of T (obj_rep obj) with
      | TCL_OK, Some v => Some (Some v, obj)
      | _, _ => Some (None, obj)
      end
  end.

Definition unsigned64_range (u : Z) : Prop := 0 <= u < 18446744073709551616.

Lemma sscanf_llu_range s u : sscanf_llu s = Some u -> unsigned64_range u.
Proof.
  unfold sscanf_llu, unsigned64_range. destruct (skip_sign _) as [neg s1].
  destruct (starts_with_digit 10 s1); [|done]. intros [= <-].
  assert (Hge : forall t acc, 0 <= acc -> 0 <= (scan_digits 10 t acc).1).
  { induction t as [|c t IH]; intros acc Hacc; cbn [scan_digits fst]; [done|].
    destruct (digit_of 10 c) as [d|] eqn:Ed; [|done]. apply IH. unfold digit_of, isdigit in Ed.
    destruct (bool_decide_reflect (48 <= c <= 57)), (bool_decide_reflect (97 <= c <= 122)), (bool_decide_reflect (65 <= c <= 90));
      case_bool_decide; simplify_eq; lia. }
  specialize (Hge s1 0 ltac:(done)). case_bool_decide; [lia|]. destruct neg; [unfold u64; lia|lia].
Qed.

Lemma scan_unsigned64_range s u : scan_unsigned64 s = Some u -> unsigned64_range u.
Proof.
  unfold scan_unsigned64. intros H. apply (sscanf_llu_range (skip_space s)).
  destruct (skip_space s) as [|c s0]; [done|]. repeat case_match; done.
Qed.

Lemma scan_unsigned32_range s u : scan_unsigned32 s = Some u -> is_u32 u.
Proof.
  unfold scan_unsigned32. intros H. assert (exists z, u = u32 z) as [z ->]; [|apply u32_range].
  repeat case_match; simplify_eq; eauto.
Qed.

Lemma write_string_some r s : write_string r = Some s -> r.2 = s /\ (length s + 1 <= r.1)%nat.
Proof. destruct r as [size t]. unfold write_string. case_decide; [|done]. by intros [= <-]. Qed.

#[export] Instance unsigned64_type : ObjType type_Unsigned64.
Proof.
  refine {| value := Z; rep_of := tnmUnsigned64; scan := scan_unsigned64; in_range := unsigned64_range;
            value_of := fun r => match r with tnmUnsigned64 u => Some u | _ => None end |}.
  - done.
  - by intros [] v [= ->].
  - apply scan_unsigned64_range.
  - intros v s Hv [<- _]%write_string_some. by apply scan_unsigned64_numeral.
Defined.

#[export] Instance unsigned32_type : ObjType type_Unsigned32.
Proof.
  refine {| value := Z; rep_of := tnmUnsigned32; scan := scan_unsigned32; in_range := is_u32;
            value_of := fun r => match r with tnmUnsigned32 u => Some u | _ => None end |}.
  - done.
  - by intros [] v [= ->].
  - apply scan_unsigned32_range.
  - intros v s Hv [<- _]%write_string_some. by apply scan_unsigned32_numeral.
Defined.

#[export] Instance octet_string_type : ObjType type_OctetString.
Proof.
  refine {| value := list Z; rep_of := tnmOctetString; scan := TnmHexDec; in_range := bytes;
            value_of := fun r => match r with tnmOctetString o => Some o | _ => None end |}.
  - done.
  - by intros [] v [= ->].
  - intros s v (_ & Hb)%hex_dec_length. apply Hb. constructor.
  - intros v s Hv [<- Hl]%write_string_some. unfold TnmHexDec. cbn [UpdateStringOfOctetString snd fst] in *.
    rewrite hex_dec_enc; [done|done|]. destruct (TnmHexEnc_length v) as [?| ->]; [lia|done].
Defined.

(** The three procedures are instances of the shape. *)
Ltac same_get obj :=
  unfold get_from_obj; cbn [value_of value rep_of scan unsigned64_type unsigned32_type octet_string_type];
  destruct (obj_rep obj); try done;
  destruct (set_from_any _ obj) as [[[] o]|]; cbn; try done; by destruct (obj_rep o).

Lemma get_unsigned64 obj : TnmGetUnsigned64FromObj obj = get_from_obj type_Unsigned64 obj.
Proof. unfold TnmGetUnsigned64FromObj, SetUnsigned64FromAny. same_get obj. Qed.
Lemma get_unsigned32 obj : TnmGetUnsigned32FromObj obj = get_from_obj type_Unsigned32 obj.
Proof. unfold TnmGetUnsigned32FromObj, SetUnsigned32FromAny. same_get obj. Qed.
Lemma get_octet_string obj : TnmGetOctetStringFromObj obj = get_from_obj type_OctetString obj.
Proof. unfold TnmGetOctetStringFromObj, SetOctetStringFromAny. same_get obj. Qed.

(** ** Consistency *)

Section consistent.
Variable inet_addr : cstring -> list Z.
Variable gethostbyname : cstring -> option (list Z).
(** [inet_addr] reads the dotted notation; addresses have four octets. *)
Hypothesis inet_addr_dotted : forall a, bytes a -> length a = 4%nat -> inet_addr (dotted a) = a.
Hypothesis inet_addr_octets : forall s, bytes (inet_addr s) /\ length (inet_addr s) = 4%nat.
Hypothesis gethostbyname_octets : forall s a, gethostbyname s = Some a -> bytes a /\ length a = 4%nat.
Local Abbreviation set_ip := (TnmSetIPAddress inet_addr gethostbyname).

Definition address_octets (a : list Z) : Prop := bytes a /\ length a = 4%nat.
Definition table_wf (table : gmap cstring (list Z)) : Prop := forall s a, table !! s = Some a -> address_octets a.

Definition rep_ok (rep : internal_rep) : Prop :=
  match rep with
  | NoType | Foreign _ => True
  | tnmUnsigned64 u => unsigned64_range u
  | tnmUnsigned32 u => is_u32 u
  | tnmOctetString o => bytes o
  | tnmIpAddress a => address_octets a
  end.

(** The string [s] denotes the internal value. *)
Definition denotes (table : gmap cstring (list Z)) (s : cstring) (rep : internal_rep) : Prop :=
  match rep with
  | NoType => True
  | Foreign t => s = t
  | tnmUnsigned64 u => scan_unsigned64 s = Some u
  | tnmUnsigned32 u => scan_unsigned32 s = Some u
  | tnmOctetString o => TnmHexDec s = Some o
  | tnmIpAddress a => set_ip table s = (TCL_OK, Some a, table)
  end.

Definition obj_wf (table : gmap cstring (list Z)) (obj : Tcl_Obj) : Prop :=
  rep_ok (obj_rep obj) /\
  match obj_bytes obj with Some s => denotes table s (obj_rep obj) | None => obj_rep obj <> NoType end.

(** An empty octet string without a string representation: the one value
    whose string is written outside of the memory allocated for it. *)
Definition unprintable (obj : Tcl_Obj) : Prop := obj_bytes obj = None /\ obj_rep obj = tnmOctetString [].

Lemma sprintf_llu_length u : (length (sprintf_llu u) <= 21)%nat.
Proof.
  unfold sprintf_llu. rewrite length_map, digits_msd_length. pose proof (dec_width_bound 20 (u64 u)). lia.
Qed.

Lemma sprintf_u_byte a : is_byte a -> (length (sprintf_u a) <= 3)%nat.
Proof.
  intros Ha. unfold is_byte in Ha. unfold sprintf_u. rewrite u32_id by (unfold is_u32; lia).
  rewrite length_map, digits_msd_length. apply dec_width_le; [lia|]. change (10 ^ Z.of_nat 3) with 1000. lia.
Qed.

Lemma address_cases a : address_octets a -> exists b0 b1 b2 b3, a = [b0; b1; b2; b3] /\ bytes [b0; b1; b2; b3].
Proof. intros [Hb Hl]. destruct a as [|b0 [|b1 [|b2 [|b3 [|]]]]]; try done. by exists b0, b1, b2, b3. Qed.

Lemma set_ip_dotted table a : address_octets a -> set_ip table (dotted a) = (TCL_OK, Some a, table).
Proof using inet_addr_dotted.
  intros Ha. destruct (address_cases a Ha) as (b0 & b1 & b2 & b3 & -> & Hb).
  destruct (dotted_address b0 b1 b2 b3 Hb) as [H1 H2]. unfold TnmSetIPAddress. rewrite H1, H2, inet_addr_dotted by done.
  destruct (bool_decide_reflect ([b0; b1; b2; b3] = replicate 4 255)) as [E|]; [|done].
  rewrite E. by vm_compute.
Qed.

(** Every internal value but the empty octet string can be printed, and its
    string denotes it. *)
Lemma updateString_denotes table rep : rep_ok rep -> rep <> tnmOctetString [] ->
  exists s, updateStringProc rep = Some s /\ denotes table s rep.
Proof using inet_addr_dotted.
  intros Hr Hne. assert (Hw : forall size s, (length s + 1 <= size)%nat -> write_string (size, s) = Some s)
    by (intros; unfold write_string; by rewrite decide_True).
  destruct rep as [|t|u|u|o|a]; cbn [updateStringProc denotes rep_ok] in *; [by eauto..| | | |].
  - eexists. unfold UpdateStringOfUnsigned64. pose proof (sprintf_llu_length u). rewrite Hw by lia.
    split; [done|]. by apply scan_unsigned64_numeral.
  - eexists. unfold UpdateStringOfUnsigned32. pose proof (sprintf_u_length u). rewrite Hw by lia.
    split; [done|]. by apply scan_unsigned32_numeral.
  - eexists. unfold UpdateStringOfOctetString. destruct (TnmHexEnc_length o) as [Hl| ->]; [|done].
    rewrite Hw by lia. split; [done|]. unfold TnmHexDec. by rewrite hex_dec_enc by (done || lia).
  - eexists. unfold UpdateStringOfIpAddress, inet_ntoa. rewrite Hw; [split; [done|]; by apply set_ip_dotted|].
    destruct (address_cases a Hr) as (b0 & b1 & b2 & b3 & -> & Hb). unfold bytes in Hb. rewrite !Forall_cons in Hb.
    destruct Hb as (H0 & H1 & H2 & H3 & _). cbn [dotted]. rewrite !length_app. cbn [length]. rewrite !length_app. cbn [length].
    rewrite !length_app. cbn [length].
    pose proof (sprintf_u_byte b0 H0). pose proof (sprintf_u_byte b1 H1). pose proof (sprintf_u_byte b2 H2).
    pose proof (sprintf_u_byte b3 H3). lia.
Qed.

(** [Tcl_GetStringFromObj] makes the string valid and changes nothing else. *)
Lemma get_string_spec table obj : obj_wf table obj -> ~ unprintable obj ->
  exists s, Tcl_GetStringFromObj obj = Some (s, mkObj (Some s) (obj_rep obj)) /\
    denotes table s (obj_rep obj) /\ obj_wf table (mkObj (Some s) (obj_rep obj)).
Proof using inet_addr_dotted.
  destruct obj as [[s|] rep]; unfold obj_wf, unprintable; cbn [obj_bytes obj_rep Tcl_GetStringFromObj].
  - intros [Hr Hd] _. by exists s.
  - intros [Hr Hne] Hu. destruct (updateString_denotes table rep Hr) as (s & -> & Hd); [|by exists s].
    intros ->. by apply Hu.
Qed.

(** What a conversion does to a consistent object: it yields what the string
    of the object denotes, keeps the string, and replaces the internal value only
    if it succeeds. *)
Definition converts {V} (get : Tcl_Obj -> option (option V * Tcl_Obj)) (scan : cstring -> option V)
    (rep : V -> internal_rep) : Prop :=
  forall table obj, obj_wf table obj -> ~ unprintable obj ->
  exists s obj', get obj = Some (scan s, obj') /\ obj_wf table obj' /\
    Tcl_GetStringFromObj obj = Some (s, mkObj (Some s) (obj_rep obj)) /\
    Tcl_GetStringFromObj obj' = Some (s, mkObj (Some s) (obj_rep obj')) /\
    obj_rep obj' = match scan s with Some v => rep v | None => obj_rep obj end.

Lemma get_converts T `{ObjType T} :
  (forall table s v, denotes table s (rep_of T v) <-> scan T s = Some v) ->
  (forall v, rep_ok (rep_of T v) <-> in_range T v) ->
  converts (get_from_obj T) (scan T) (rep_of T).
Proof using inet_addr_dotted.
  intros Hden Hok table obj Hwf Hp. destruct (get_string_spec table obj Hwf Hp) as (s & Hs & Hd & Hwf').
  exists s. unfold get_from_obj. destruct (value_of T (obj_rep obj)) as [v|] eqn:Ev.
  - exists obj. apply rep_value in Ev. rewrite Ev, Hden in Hd. rewrite Hd. by rewrite Ev, <- Ev at 1.
  - unfold set_from_any. rewrite Hs. cbn [mbind option_bind]. destruct (scan T s) as [v|] eqn:Es; cbn.
    + rewrite value_rep. eexists. split; [done|]. split; [|done].
      split; cbn; [apply Hok; by eapply scan_range|by apply Hden].
    + eexists. by split.
Qed.

Lemma set_ip_table table s code a table' : table_wf table -> set_ip table s = (code, a, table') ->
  table ⊆ table' /\ table_wf table' /\
  (code = TCL_ERROR -> table' = table) /\
  (code = TCL_OK -> exists v, a = Some v /\ address_octets v /\ set_ip table' s = (TCL_OK, Some v, table')).
Proof using inet_addr_octets gethostbyname_octets.
  intros Hwf. unfold TnmSetIPAddress. destruct (TnmValidateIpHostName s).
  - destruct (table !! s) as [c|] eqn:El.
    + intros [= <- <- <-]. split; [done|]. split; [done|]. split; [done|]. intros _. exists c. rewrite El. by eauto.
    + destruct (gethostbyname s) as [c|] eqn:Eg; intros [= <- <- <-]; [|by split_and!].
      split; [by apply insert_subseteq|]. pose proof (gethostbyname_octets s c Eg) as Hc.
      split. { intros t b. rewrite lookup_insert_Some. intros [[_ <-]|[_ ?]]; [done|by eapply Hwf]. }
      split; [done|]. intros _. exists c. rewrite lookup_insert_eq. done.
  - destruct (TnmValidateIpAddress s); [|intros [= <- <- <-]; by split_and!].
    destruct (_ && _) eqn:Eb; intros [= <- <- <-]; [by split_and!|].
    split; [done|]. split; [done|]. split; [done|]. intros _. eexists. split; [done|]. split; [apply inet_addr_octets|done].
Qed.

(** A growing table does not change what a string denotes. *)
Lemma denotes_weaken table table' s rep : table ⊆ table' -> denotes table s rep -> denotes table' s rep.
Proof.
  intros Hsub. destruct rep as [| | | | |a]; cbn [denotes]; try done. unfold TnmSetIPAddress.
  destruct (TnmValidateIpHostName s).
  - destruct (table !! s) as [c|] eqn:El.
    + intros [= <-]. by rewrite (lookup_weaken _ _ _ _ El Hsub).
    + destruct (gethostbyname s) as [c|]; [|done]. intros [= <- Ht]. exfalso.
      apply (f_equal (.!! s)) in Ht. by rewrite lookup_insert_eq, El in Ht.
  - destruct (TnmValidateIpAddress s); [|done]. destruct (_ && _); [done|]. by intros [= <-].
Qed.

Lemma obj_wf_weaken table table' obj : table ⊆ table' -> obj_wf table obj -> obj_wf table' obj.
Proof.
  intros Hsub [Hr Hb]. split; [done|]. destruct (obj_bytes obj); [|done]. by eapply denotes_weaken.
Qed.

End consistent.

(** A resolver for the numeric addresses. *)
Definition inet_parse (s : cstring) : list Z :=
  let '(p, ps) := split_dots s in
  let a := map (fun p => u8 (dec_value 0 p)) (p :: ps) in
  if decide (length a = 4%nat) then a else replicate 4 255.

Lemma inet_parse_dotted a : bytes a -> length a = 4%nat -> inet_parse (dotted a) = a.
Proof.
  intros Hb Hl. destruct (address_cases a (conj Hb Hl)) as (b0 & b1 & b2 & b3 & -> & _).
  unfold bytes in Hb. rewrite !Forall_cons in Hb. destruct Hb as (H0 & H1 & H2 & H3 & _).
  assert (Hp : forall b, is_byte b -> u8 (dec_value 0 (sprintf_u b)) = b).
  { intros b Hbb. unfold dec_value. rewrite sprintf_u_fold by (unfold is_byte, is_u32 in *; lia). by apply u8_id. }
  unfold inet_parse. cbn [dotted]. rewrite !split_dots_digits, split_dots_last by apply sprintf_u_digits.
  cbn [fst snd map length]. rewrite decide_True by done. by rewrite !Hp.
Qed.

Lemma inet_parse_octets s : bytes (inet_parse s) /\ length (inet_parse s) = 4%nat.
Proof.
  unfold inet_parse. destruct (split_dots s) as [p ps]. case_decide as Hd; [|by split; [by_eval|]].
  split; [|done]. unfold bytes. rewrite Forall_map. apply Forall_true. intros x. apply u8_byte.
Qed.


(** The scanners accept more than numerals in range: a value above 32 bits is
    cut, blanks alone are zero, and what follows a 64 bit numeral is ignored. *)
Lemma obj_scan_lenient :
  scan_unsigned32 (cstr "4294967297") = Some 1 /\ scan_unsigned32 (cstr "  ") = Some 0 /\
  scan_unsigned64 (cstr "12abc") = Some 12.
Proof. by vm_compute. Qed.
