(* ===== verification/Snmp.v ===== *)
(** The data of the SNMP engine: sessions, PDUs and messages of [tnmSnmp.h] and
    [tnmSnmpRecv.c], the statistics, the tables of [tnmAsn1.c] and
    [tnmSnmpUtil.c], and the interface to the procedures of Tcl, of the system
    and of the MIB that encoding and decoding a message call. *)

From Stdlib Require Import QArith.
From S2P Require Import Prelude Ber CStr Util.
Local Open Scope Z_scope.
Local Open Scope cint_scope.

(** ** Constants (tnmSnmp.h) *)

Definition TNM_SNMPv1 : Z := 0x11.
Definition TNM_SNMPv2C : Z := 0x21.
Definition TNM_SNMPv3 : Z := 0x23.

Definition TNM_SNMP_NOERROR : Z := 0.
Definition TNM_SNMP_TOOBIG : Z := 1.
Definition TNM_SNMP_NOSUCHNAME : Z := 2.
Definition TNM_SNMP_BADVALUE : Z := 3.
Definition TNM_SNMP_READONLY : Z := 4.
Definition TNM_SNMP_GENERR : Z := 5.
Definition TNM_SNMP_NOACCESS : Z := 6.
Definition TNM_SNMP_WRONGTYPE : Z := 7.
Definition TNM_SNMP_WRONGLENGTH : Z := 8.
Definition TNM_SNMP_WRONGENCODING : Z := 9.
Definition TNM_SNMP_WRONGVALUE : Z := 10.
Definition TNM_SNMP_NOCREATION : Z := 11.
Definition TNM_SNMP_INCONSISTENTVALUE : Z := 12.
Definition TNM_SNMP_RESOURCEUNAVAILABLE : Z := 13.
Definition TNM_SNMP_COMMITFAILED : Z := 14.
Definition TNM_SNMP_UNDOFAILED : Z := 15.
Definition TNM_SNMP_AUTHORIZATIONERROR : Z := 16.
Definition TNM_SNMP_NOTWRITABLE : Z := 17.
Definition TNM_SNMP_INCONSISTENTNAME : Z := 18.
Definition TNM_SNMP_ENDOFWALK : Z := 254.
Definition TNM_SNMP_NORESPONSE : Z := 255.

Definition TNM_SNMP_MAXSIZE : Z := 16384.
Definition TNM_SNMP_USM_SEC_MODEL : Z := 3.
Definition TNM_SNMP_FLAG_AUTH : Z := 0x01.
Definition TNM_SNMP_FLAG_PRIV : Z := 0x02.
Definition TNM_SNMP_FLAG_REPORT : Z := 0x04.
Definition TNM_SNMP_AUTH_MASK : Z := 0x0f.
Definition TNM_SNMP_PRIV_MASK : Z := 0xf0.

(** ** Tables (tnmAsn1.c) *)

Definition tnmSnmpTypeTable : TnmTable :=
  [mkElem ASN1_OTHER (cstr "OTHER");
   mkElem ASN1_INTEGER (cstr "Integer32");
   mkElem ASN1_INTEGER (cstr "INTEGER");
   mkElem ASN1_OCTET_STRING (cstr "OCTET STRING");
   mkElem ASN1_NULL (cstr "NULL");
   mkElem ASN1_OBJECT_IDENTIFIER (cstr "OBJECT IDENTIFIER");
   mkElem ASN1_SEQUENCE (cstr "SEQUENCE");
   mkElem ASN1_SEQUENCE_OF (cstr "SEQUENCE OF");
   mkElem ASN1_IPADDRESS (cstr "IpAddress");
   mkElem ASN1_IPADDRESS (cstr "NetworkAddress");
   mkElem ASN1_COUNTER32 (cstr "Counter32");
   mkElem ASN1_COUNTER32 (cstr "Counter");
   mkElem ASN1_GAUGE32 (cstr "Unsigned32");
   mkElem ASN1_GAUGE32 (cstr "Gauge32");
   mkElem ASN1_GAUGE32 (cstr "Gauge");
   mkElem ASN1_TIMETICKS (cstr "TimeTicks");
   mkElem ASN1_OPAQUE (cstr "Opaque");
   mkElem ASN1_COUNTER64 (cstr "Counter64")].

Definition tnmSnmpPDUTable : TnmTable :=
  [mkElem ASN1_SNMP_GET (cstr "get");
   mkElem ASN1_SNMP_GETNEXT (cstr "getnext");
   mkElem ASN1_SNMP_RESPONSE (cstr "response");
   mkElem ASN1_SNMP_SET (cstr "set");
   mkElem ASN1_SNMP_TRAP1 (cstr "trap1");
   mkElem ASN1_SNMP_GETBULK (cstr "getbulk");
   mkElem ASN1_SNMP_INFORM (cstr "inform");
   mkElem ASN1_SNMP_TRAP2 (cstr "trap2");
   mkElem ASN1_SNMP_REPORT (cstr "report")].

Definition tnmSnmpExceptionTable : TnmTable :=
  [mkElem ASN1_NO_SUCH_OBJECT (cstr "noSuchObject");
   mkElem ASN1_NO_SUCH_INSTANCE (cstr "noSuchInstance");
   mkElem ASN1_END_OF_MIB_VIEW (cstr "endOfMibView")].

Definition TnmSnmpGet (x : Z) : bool :=
  bool_decide (x = ASN1_SNMP_GET) || bool_decide (x = ASN1_SNMP_GETNEXT)
  || bool_decide (x = ASN1_SNMP_GETBULK) || bool_decide (x = ASN1_SNMP_GETRANGE).

(** ** Statistics *)

(** The fields of [TnmSnmpStats]; all are [u_int]. *)
Inductive counter :=
  | snmpInPkts | snmpOutPkts | snmpInBadVersions
  | snmpInBadCommunityNames | snmpInBadCommunityUses | snmpInASNParseErrs
  | snmpInTooBigs | snmpInNoSuchNames | snmpInBadValues
  | snmpInReadOnlys | snmpInGenErrs | snmpInTotalReqVars
  | snmpInTotalSetVars | snmpInGetRequests | snmpInGetNexts
  | snmpInSetRequests | snmpInGetResponses | snmpInTraps
  | snmpOutTooBigs | snmpOutNoSuchNames | snmpOutBadValues
  | snmpOutGenErrs | snmpOutGetRequests | snmpOutGetNexts
  | snmpOutSetRequests | snmpOutGetResponses | snmpOutTraps
  | snmpEnableAuthenTraps | snmpStatsPackets | snmpStats30Something
  | snmpStatsEncodingErrors | snmpStatsUnknownDstParties | snmpStatsDstPartyMismatches
  | snmpStatsUnknownSrcParties | snmpStatsBadAuths | snmpStatsNotInLifetimes
  | snmpStatsWrongDigestValues | snmpStatsUnknownContexts | snmpStatsBadOperations
  | snmpStatsSilentDrops.

#[global] Instance counter_eq_dec : EqDecision counter.
Proof. solve_decision. Defined.

Definition TnmSnmpStats : Type := counter -> Z.

(** [tnmSnmpStats.c++] *)
Definition bump (c : counter) (s : TnmSnmpStats) : TnmSnmpStats :=
  fun d => if decide (d = c) then u32 (s d + 1) else s d.

(** ** Tcl values *)

(** A Tcl string read as a list: its elements, or the message of
    [Tcl_SplitList] for a string that is not a list. *)
Inductive tcl_list (A : Type) := BadList (msg : cstring) | TclList (l : list A).
Arguments BadList {A} msg.
Arguments TclList {A} l.

(** The result of the interpreter: a text, or a pointer computed from a [NULL]
    stream by [TnmBerGetError(NULL)]. *)
Inductive tcl_result := ResText (s : cstring) | ResDangling.

(** ** Sessions, PDUs and messages *)

(** The fields of the C structure that encoding and decoding use. *)
Record TnmSnmp := mkSession {
  ss_version : Z;
  ss_community : list Z;
  ss_enterpriseOid : list Z;
  ss_context : list Z;
  ss_user : list Z;
  ss_engineID : list Z;
  ss_engineBoots : Z;
  ss_engineTime : Z;
  ss_securityLevel : Z
}.

(** [pdu_varbind] is the Tcl list in the dynamic string, a list of lists. *)
Record TnmSnmpPdu := mkPdu {
  pdu_type : Z;
  pdu_requestId : Z;
  pdu_errorStatus : Z;
  pdu_errorIndex : Z;
  pdu_trapOID : option cstring;
  pdu_context : list Z;
  pdu_engineID : list Z;
  pdu_varbind : tcl_list (tcl_list cstring)
}.

(** Octet strings of the packet are given by their octets. *)
Record Message := mkMessage {
  msg_version : Z;
  msg_com : list Z;
  msg_msgFlags : list Z;
  msg_msgID : Z;
  msg_maxSize : Z;
  msg_user : list Z;
  msg_engineID : list Z;
  msg_engineBoots : Z;
  msg_engineTime : Z
}.

(** [memset((char * ) msg, 0, sizeof(Message))] *)
Definition msg_zero : Message := mkMessage 0 [] [] 0 0 [] [] 0 0.

(** ** What encoding and decoding rely on

    [inl] is a result, [inr] the error message left in the interpreter. *)
Class SnmpEnv := {
  (* Tcl *)
  Tcl_GetInt : cstring -> Z + cstring;
  Tcl_GetDouble : cstring -> Q + cstring;
  (* the MIB (tnmMibUtil.c, tnmMibTree.c), with exact = 0 *)
  TnmMibGetOid : cstring -> option cstring;
  TnmMibGetName : cstring -> option cstring;
  TnmMibGetBaseSyntax : cstring -> Z;
  TnmMibFindType : cstring -> option Z;
  TnmMibScan : cstring -> cstring -> option cstring;
  TnmMibFormat : cstring -> cstring -> option cstring;
  (* the system *)
  inet_addr : cstring -> list Z;
  host_address : list Z + cstring;
  TnmSnmpSysUpTime : Z
}.
