(* ===== verification/Usm.v ===== *)
(** The user based security model, [tnmSnmpUsm.c]: keys from passwords, the
    cache of keys, localized keys and the authentication of outgoing messages. *)

From S2P Require Import Prelude CStr Util UtilTheorems Digest MD5 SHA Obj ObjTheorems Snmp.
Local Open Scope Z_scope.
Local Open Scope cint_scope.

(** The outcome of a procedure: a value, [Tcl_Panic] with its message, or an
    access outside of an array. *)
Inductive usm_result (A : Type) := Done (a : A) | Panic (msg : cstring) | Overrun.
Arguments Done {A} a.
Arguments Panic {A} msg.
Arguments Overrun {A}.

Definition TNM_SNMP_AUTH_NONE : Z := 0x00.
Definition TNM_SNMP_AUTH_MD5 : Z := 0x01.
Definition TNM_SNMP_AUTH_SHA : Z := 0x02.
Definition TNM_SNMP_PRIV_NONE : Z := 0x00.
Definition TNM_SNMP_PRIV_DES : Z := 0x10.

Definition tnmSnmpSecurityLevelTable : TnmTable :=
  [mkElem (TNM_SNMP_AUTH_NONE .| TNM_SNMP_PRIV_NONE) (cstr "noAuth/noPriv");
   mkElem (TNM_SNMP_AUTH_MD5 .| TNM_SNMP_PRIV_NONE) (cstr "md5/noPriv");
   mkElem (TNM_SNMP_AUTH_MD5 .| TNM_SNMP_PRIV_DES) (cstr "md5/des");
   mkElem (TNM_SNMP_AUTH_SHA .| TNM_SNMP_PRIV_NONE) (cstr "sha/noPriv");
   mkElem (TNM_SNMP_AUTH_SHA .| TNM_SNMP_PRIV_DES) (cstr "sha/des")].

Section usm.
(** What the stack holds before it is written, by size. *)
Variable uninit : nat -> list Z.

(** ** Passwords *)

(** [for (i = 0; i < 64; i++) *cp++ = pwBytes[index++ % pwLength]] *)
Fixpoint pw_fill (n : nat) (pwBytes : list Z) (index : Z) : option (list Z * Z) :=
  match n with
  | O => Some ([], index)
  | S n =>
      if bool_decide (length pwBytes = 0%nat) then None else
      b ← pwBytes !! Z.to_nat (index mod Z.of_nat (length pwBytes));
      '(l, index) ← pw_fill n pwBytes (index + 1);
      Some (b :: l, index)
  end.

Definition key_fuel : nat := Z.to_nat 16385.

(** [while (count < 1048576)] *)
Fixpoint md5_pw_loop (fuel : nat) (MD : MD5_CTX) (pwBytes : list Z) (index count : Z) : option MD5_CTX :=
  match fuel with
  | O => None
  | S fuel =>
      if bool_decide (count < 1048576) then
        '(buffer, index) ← pw_fill 64 pwBytes index;
        MD ← TnmMD5Update MD buffer 64;
        md5_pw_loop fuel MD pwBytes index (count + 64)
      else Some MD
  end.

Definition MD5PassWord2Key (pwBytes engineBytes : list Z) : option (list Z) :=
  let engineLength := length engineBytes in
  MD ← md5_pw_loop key_fuel (TnmMD5Init (uninit 64)) pwBytes 0 0;
  '(key, MD) ← TnmMD5Final MD;
  buffer ← memcpy (uninit 64) 0 key 0 16;
  buffer ← memcpy buffer 16 engineBytes 0 engineLength;
  buffer ← memcpy buffer (16 + engineLength) key 0 16;
  MD ← TnmMD5Update (TnmMD5Init (md5_buffer MD)) buffer (Z.of_nat (16 + engineLength + 16));
  fst <$> TnmMD5Final MD.

Fixpoint sha_pw_loop (fuel : nat) (SH : SHA_CTX) (pwBytes : list Z) (index count : Z) : option SHA_CTX :=
  match fuel with
  | O => None
  | S fuel =>
      if bool_decide (count < 1048576) then
        '(buffer, index) ← pw_fill 64 pwBytes index;
        SH ← TnmSHAUpdate SH buffer 64;
        sha_pw_loop fuel SH pwBytes index (count + 64)
      else Some SH
  end.

Definition SHAPassWord2Key (pwBytes engineBytes : list Z) : option (list Z) :=
  let engineLength := length engineBytes in
  SH ← sha_pw_loop key_fuel (TnmSHAInit (uninit 64)) pwBytes 0 0;
  key ← TnmSHAFinal SH;
  buffer ← memcpy (uninit 72) 0 key 0 20;
  buffer ← memcpy buffer 20 engineBytes 0 engineLength;
  buffer ← memcpy buffer (20 + engineLength) key 0 20;
  SH ← TnmSHAUpdate (TnmSHAInit (sha_data SH)) buffer (Z.of_nat (20 + engineLength + 20));
  TnmSHAFinal SH.

(** ** The cache of keys *)

Record KeyCache := mkKeyCache {
  kc_password : Tcl_Obj; kc_engineID : Tcl_Obj; kc_key : Tcl_Obj; kc_algorithm : Z }.

(** [Tcl_GetStringFromObj(elemPtr->...)] compared with [length] octets *)
Definition same_string (obj : Tcl_Obj) (octets : list Z) : option bool :=
  '(s, _) ← Tcl_GetStringFromObj obj; Some (bool_decide (s = octets)).

(** The loop over the cache; it does not end at the first match, so the last
    one counts. *)
Fixpoint cache_scan (keyList : list KeyCache) (pwBytes engineBytes : list Z) (algorithm : Z)
    (key : option Tcl_Obj) : option (option Tcl_Obj) :=
  match keyList with
  | [] => Some key
  | e :: keyList =>
      if bool_decide (kc_algorithm e <> algorithm) then cache_scan keyList pwBytes engineBytes algorithm key else
      pw ← same_string (kc_password e) pwBytes;
      if negb pw then cache_scan keyList pwBytes engineBytes algorithm key else
      en ← same_string (kc_engineID e) engineBytes;
      if negb en then cache_scan keyList pwBytes engineBytes algorithm key else
      cache_scan keyList pwBytes engineBytes algorithm (Some (kc_key e))
  end.

Definition panic_algorithm : cstring := cstr "unknown algorithm for password to key conversion".

(** The key left in [*objPtrPtr] and the cache. *)
Definition ComputeKey (keyList : list KeyCache) (password engineID : Tcl_Obj) (algorithm : Z)
    : usm_result (option Tcl_Obj * list KeyCache) :=
  match Tcl_GetStringFromObj password, TnmGetOctetStringFromObj engineID with
  | Some (pwBytes, password), Some (engineBytes, engineID) =>
      match engineBytes with
      | None | Some [] => Done (None, keyList)
      | Some engineBytes =>
          if bool_decide (pwBytes = []) then Done (None, keyList) else
          match cache_scan keyList pwBytes engineBytes algorithm None with
          | None => Overrun
          | Some _ =>
              let key := if bool_decide (algorithm = TNM_SNMP_AUTH_MD5) then
                           inl (MD5PassWord2Key pwBytes engineBytes)
                         else if bool_decide (algorithm = TNM_SNMP_AUTH_SHA) then
                           inl (SHAPassWord2Key pwBytes engineBytes)
                         else inr panic_algorithm in
              match key with
              | inr msg => Panic msg
              | inl None => Overrun
              | inl (Some buffer) =>
                  let obj := TnmNewOctetStringObj buffer in
                  Done (Some obj, mkKeyCache password engineID obj algorithm :: keyList)
              end
          end
      end
  | _, _ => Overrun
  end.

(** The fields of a session the keys depend on. *)
Record usm_session := mkUsm {
  us_securityLevel : Z; us_authPassWord : Tcl_Obj; us_privPassWord : Tcl_Obj; us_engineID : Tcl_Obj;
  us_usmAuthKey : option Tcl_Obj; us_usmPrivKey : option Tcl_Obj }.

Definition TnmSnmpComputeKeys (keyList : list KeyCache) (session : usm_session)
    : usm_result (usm_session * list KeyCache) :=
  let authProto := us_securityLevel session .& TNM_SNMP_AUTH_MASK in
  let privProto := us_securityLevel session .& TNM_SNMP_PRIV_MASK in
  let '(mkUsm level authPw privPw engineID authKey privKey) := session in
  if bool_decide (authProto <> TNM_SNMP_AUTH_NONE) then
    match ComputeKey keyList authPw engineID authProto with
    | Done (authKey, keyList) =>
        if bool_decide (privProto <> TNM_SNMP_PRIV_NONE) then
          match ComputeKey keyList privPw engineID authProto with
          | Done (privKey, keyList) => Done (mkUsm level authPw privPw engineID authKey privKey, keyList)
          | Panic msg => Panic msg
          | Overrun => Overrun
          end
        else Done (mkUsm level authPw privPw engineID authKey privKey, keyList)
    | Panic msg => Panic msg
    | Overrun => Overrun
    end
  else Done (session, keyList).

(** ** Localized keys *)

(** Always 20 octets are stored: for MD5 the last four are what the stack
    held. *)
Definition TnmSnmpLocalizeKey (algorithm : Z) (authKeyBytes engineBytes : list Z) : usm_result (list Z) :=
  if bool_decide (algorithm = TNM_SNMP_AUTH_MD5) then
    match md5_of (uninit 64) [authKeyBytes; engineBytes; authKeyBytes] with
    | Some digest => match memcpy (uninit 20) 0 digest 0 16 with Some k => Done k | None => Overrun end
    | None => Overrun
    end
  else if bool_decide (algorithm = TNM_SNMP_AUTH_SHA) then
    match sha_of (uninit 64) [authKeyBytes; engineBytes; authKeyBytes] with
    | Some digest => match memcpy (uninit 20) 0 digest 0 20 with Some k => Done k | None => Overrun end
    | None => Overrun
    end
  else Panic (cstr "unknown algorithm for key localization").

(** ** Outgoing messages *)

(** [for (i = from; i < 64; i++) extendedAuthKey[i] = extendedAuthKey[i] ^ c] *)
Definition xor_from (from : nat) (c : Z) (key : list Z) : list Z :=
  take from key ++ map (fun b => b .^ c) (drop from key).

(** [msg] is the packet and [off] the offset of the authentication parameters
    in it. *)
Definition MD5AuthOutMsg (authKey msg : list Z) (off : nat) : option (list Z) :=
  msg ← memset msg off 0 12;
  extendedAuthKey ← memcpy (uninit 64) 0 authKey 0 16;
  let extendedAuthKey := xor_from 1 0x36 extendedAuthKey in
  digest ← md5_of (uninit 64) [extendedAuthKey; msg];
  let extendedAuthKey := xor_from 0 0x5c extendedAuthKey in
  digest ← md5_of (uninit 64) [extendedAuthKey; digest];
  memcpy msg off digest 0 12.

Definition TnmSnmpAuthOutMsg (algorithm : Z) (keyBytes msg : list Z) (off : nat) : usm_result (list Z) :=
  if bool_decide (algorithm = TNM_SNMP_AUTH_MD5) then
    if bool_decide (length keyBytes <> 16%nat)
    then Panic (cstr "illegal length of the MD5 authentication key")
    else match MD5AuthOutMsg keyBytes msg off with Some m => Done m | None => Overrun end
  else Panic (cstr "unknown authentication algorithm").
End usm.
