(* ===== verification/UsmTheorems.v ===== *)
(** Keys are those of RFC 2274; the cache of keys has no influence on them. *)

From S2P Require Import Prelude CStr Util UtilTheorems Digest MD5 SHA Obj ObjTheorems Snmp Usm.
Local Open Scope Z_scope.
Local Open Scope cint_scope.

(** ** Lengths *)

Lemma concat_le32_length ws : length (concat (map le32 ws)) = (4 * length ws)%nat.
Proof. induction ws as [|w ws IH]; [done|]. cbn [map concat]. rewrite length_app, IH. cbn. lia. Qed.
Lemma concat_be32_length ws : length (concat (map be32 ws)) = (4 * length ws)%nat.
Proof. induction ws as [|w ws IH]; [done|]. cbn [map concat]. rewrite length_app, IH. cbn. lia. Qed.

Lemma md5_length m : length (md5 m) = 16%nat.
Proof. unfold md5. rewrite concat_le32_length. by destruct (absorb _ _ _) as [[[??]?]?]. Qed.
Lemma sha1_length m : length (sha1 m) = 20%nat.
Proof. unfold sha1. rewrite concat_be32_length. by destruct (absorb _ _ _) as [[[[??]?]?]?]. Qed.

Lemma md5_bytes m : bytes (md5 m).
Proof.
  unfold md5. generalize (md5_state_words (absorb rfc_compress (0x67452301, 0xefcdab89, 0x98badcfe, 0x10325476) (rfc_pad m))).
  intros ws. induction ws as [|w ws IH]; [constructor|]. cbn [map concat]. apply bytes_app. split; [apply le32_bytes|done].
Qed.
Lemma sha1_bytes m : bytes (sha1 m).
Proof.
  unfold sha1. generalize (sha_state_words (absorb fips_compress (0x67452301, 0xefcdab89, 0x98badcfe, 0x10325476, 0xc3d2e1f0) (fips_pad m))).
  intros ws. induction ws as [|w ws IH]; [constructor|]. cbn [map concat]. apply bytes_app. split; [apply be32_bytes|done].
Qed.

(** ** Passwords *)

(** [n] octets of the password repeated for ever, from position [i]. *)
Definition cycle (pw : list Z) (i n : nat) : list Z := map (fun j => pw !!! (j mod length pw)%nat) (seq i n).

(** The keys of RFC 2274, appendix A.2: the digest of a megabyte of password,
    localized to an engine. *)
Definition megabyte : nat := Z.to_nat 1048576.
Definition md5_key (pw engine : list Z) : list Z :=
  let ku := md5 (cycle pw 0 megabyte) in md5 (ku ++ engine ++ ku).
Definition sha_key (pw engine : list Z) : list Z :=
  let ku := sha1 (cycle pw 0 megabyte) in sha1 (ku ++ engine ++ ku).

Lemma cycle_app pw i n1 n2 : cycle pw i (n1 + n2) = cycle pw i n1 ++ cycle pw (i + n1) n2.
Proof. unfold cycle. by rewrite seq_app, map_app. Qed.

Lemma cycle_length pw i n : length (cycle pw i n) = n.
Proof. unfold cycle. by rewrite length_map, length_seq. Qed.

Lemma cycle_bytes pw i n : bytes pw -> pw <> [] -> bytes (cycle pw i n).
Proof.
  intros Hb Hne. unfold cycle, bytes. rewrite Forall_map. apply Forall_true. intros j. unfold compose.
  destruct (lookup_lt_is_Some_2 pw (j mod length pw)) as [x Hx].
  { apply Nat.mod_upper_bound. by destruct pw. }
  rewrite (list_lookup_total_correct _ _ _ Hx). by eapply bytes_lookup.
Qed.

Lemma pw_fill_spec n : forall pw i, pw <> [] ->
  pw_fill n pw (Z.of_nat i) = Some (cycle pw i n, Z.of_nat (i + n)).
Proof.
  induction n as [|n IH]; intros pw i Hne; cbn [pw_fill]; [by rewrite Nat.add_0_r|].
  rewrite bool_decide_eq_false_2 by (by destruct pw).
  rewrite <- Nat2Z.inj_mod, Nat2Z.id.
  destruct (lookup_lt_is_Some_2 pw (i mod length pw)) as [x Hx].
  { apply Nat.mod_upper_bound. by destruct pw. }
  rewrite Hx. cbn [mbind option_bind]. replace (Z.of_nat i + 1) with (Z.of_nat (S i)) by lia.
  rewrite IH by done. cbn [mbind option_bind]. unfold cycle. cbn [seq map].
  rewrite (list_lookup_total_correct _ _ _ Hx). do 2 f_equal. lia.
Qed.

Lemma md5_pw_loop_spec fuel : forall MD pw k, pw <> [] -> md5_rep MD (cycle pw 0 (64 * k)) ->
  (k <= Z.to_nat 16384)%nat -> (Z.to_nat 16384 - k < fuel)%nat ->
  exists MD', md5_pw_loop fuel MD pw (Z.of_nat (64 * k)) (Z.of_nat (64 * k)) = Some MD' /\
    md5_rep MD' (cycle pw 0 megabyte).
Proof.
  induction fuel as [|fuel IH]; intros MD pw k Hne Hrep Hk Hf; [lia|]. cbn [md5_pw_loop].
  case_bool_decide as Hc.
  - rewrite pw_fill_spec by done. cbn [mbind option_bind].
    destruct (TnmMD5Update_rep MD _ (cycle pw (64 * k) 64) 64 Hrep) as (MD1 & E & Hrep1);
      [rewrite cycle_length; lia|lia|]. change (Z.of_nat 64) with 64 in E. rewrite E. cbn [mbind option_bind].
    rewrite take_ge in Hrep1 by (rewrite cycle_length; lia). pose proof (cycle_app pw 0 (64 * k) 64) as Ec.
    rewrite Nat.add_0_l in Ec. rewrite <- Ec in Hrep1.
    replace (64 * k + 64)%nat with (64 * S k)%nat in * by lia.
    replace (Z.of_nat (64 * k) + 64) with (Z.of_nat (64 * S k)) by lia. apply IH; [done|done|lia|lia].
  - exists MD. split; [done|]. by replace megabyte with (64 * k)%nat by (unfold megabyte; lia).
Qed.

Lemma sha_pw_loop_spec fuel : forall SH pw k, pw <> [] -> sha_rep SH (cycle pw 0 (64 * k)) ->
  (k <= Z.to_nat 16384)%nat -> (Z.to_nat 16384 - k < fuel)%nat ->
  exists SH', sha_pw_loop fuel SH pw (Z.of_nat (64 * k)) (Z.of_nat (64 * k)) = Some SH' /\
    sha_rep SH' (cycle pw 0 megabyte).
Proof.
  induction fuel as [|fuel IH]; intros SH pw k Hne Hrep Hk Hf; [lia|]. cbn [sha_pw_loop].
  case_bool_decide as Hc.
  - rewrite pw_fill_spec by done. cbn [mbind option_bind].
    destruct (TnmSHAUpdate_rep SH _ (cycle pw (64 * k) 64) 64 Hrep) as (SH1 & E & Hrep1);
      [rewrite cycle_length; lia|lia|]. change (Z.of_nat 64) with 64 in E. rewrite E. cbn [mbind option_bind].
    rewrite take_ge in Hrep1 by (rewrite cycle_length; lia). pose proof (cycle_app pw 0 (64 * k) 64) as Ec.
    rewrite Nat.add_0_l in Ec. rewrite <- Ec in Hrep1.
    replace (64 * k + 64)%nat with (64 * S k)%nat in * by lia.
    replace (Z.of_nat (64 * k) + 64) with (Z.of_nat (64 * S k)) by lia. apply IH; [done|done|lia|lia].
  - exists SH. split; [done|]. by replace megabyte with (64 * k)%nat by (unfold megabyte; lia).
Qed.

(** The fuel of the loops is enough, and their contexts start empty. *)
Lemma key_fuel_enough : (Z.to_nat 16384 - 0 < key_fuel)%nat.
Proof. unfold key_fuel. rewrite Nat.sub_0_r. apply Z2Nat.inj_lt; lia. Qed.

Opaque key_fuel.

(** The digest a context stands for. *)
Lemma md5_final MD m : md5_rep MD m -> bytes m ->
  exists MD', TnmMD5Final MD = Some (md5 m, MD') /\ length (md5_buffer MD') = 64%nat.
Proof.
  intros Hrep Hb. rewrite (TnmMD5Final_rep _ _ Hrep), (md5_rfc_words m Hb). eexists. split; [done|].
  apply length_replicate.
Qed.

Lemma sha_final SH m : sha_rep SH m -> bytes m -> TnmSHAFinal SH = Some (sha1 m).
Proof. intros Hrep Hb. by rewrite (TnmSHAFinal_rep _ _ Hrep), (sha_fips_words m Hb). Qed.

(** Three copies that fill the front of a buffer, or leave it. *)
Lemma memcpy_three buffer a b :
  let copies := (buffer ← memcpy buffer 0 a 0 (length a);
    buffer ← memcpy buffer (length a) b 0 (length b);
    memcpy buffer (length a + length b) a 0 (length a)) in
  if decide (length a + length b + length a <= length buffer)%nat
  then exists buf, copies = Some buf /\ length buf = length buffer /\
         take (length a + length b + length a) buf = a ++ b ++ a
  else copies = None.
Proof.
  intros copies. unfold copies. destruct (memcpy buffer 0 a 0 (length a)) as [b1|] eqn:E1.
  2:{ unfold memcpy in E1. case_decide; [done|]. rewrite decide_False by lia. done. }
  apply memcpy_some in E1 as (Hl1 & H1 & _ & T1). cbn [mbind option_bind]. rewrite drop_0, (take_ge a) in T1 by lia.
  cbn [take app Nat.add] in T1.
  destruct (memcpy b1 (length a) b 0 (length b)) as [b2|] eqn:E2.
  2:{ unfold memcpy in E2. case_decide; [done|]. rewrite decide_False by lia. done. }
  apply memcpy_some in E2 as (Hl2 & H2 & _ & T2). cbn [mbind option_bind]. rewrite T1, drop_0, (take_ge b) in T2 by lia.
  destruct (memcpy b2 (length a + length b) a 0 (length a)) as [b3|] eqn:E3.
  2:{ unfold memcpy in E3. case_decide; [done|]. rewrite decide_False by lia. done. }
  apply memcpy_some in E3 as (Hl3 & H3 & _ & T3). rewrite T2, drop_0, (take_ge a) in T3 by lia.
  rewrite decide_True by lia. exists b3. split; [done|]. split; [lia|]. by rewrite T3, <- app_assoc.
Qed.

Section keys.
Variable uninit : nat -> list Z.
Hypothesis uninit_length : forall n, length (uninit n) = n.

Lemma MD5PassWord2Key_spec pw engine : bytes pw -> pw <> [] -> bytes engine ->
  MD5PassWord2Key uninit pw engine
  = if decide (length engine <= 32)%nat then Some (md5_key pw engine) else None.
Proof using uninit_length.
  intros Hp Hne He. unfold MD5PassWord2Key, md5_key.
  destruct (md5_pw_loop_spec key_fuel (TnmMD5Init (uninit 64)) pw 0 Hne) as (MD & E & Hrep);
    [exact (md5_init_rep _ (uninit_length 64))|apply Nat.le_0_l|apply key_fuel_enough|].
  change (Z.of_nat (64 * 0)) with 0 in E. rewrite E. cbn [mbind option_bind].
  destruct (md5_final MD _ Hrep) as (MD1 & -> & Hl1); [by apply cycle_bytes|]. cbn [mbind option_bind].
  set (ku := md5 (cycle pw 0 megabyte)). pose proof (md5_length (cycle pw 0 megabyte)) as Hku. fold ku in Hku.
  pose proof (md5_bytes (cycle pw 0 megabyte)) as Hkb. fold ku in Hkb. clearbody ku.
  pose proof (memcpy_three (uninit 64) ku engine) as H3. rewrite Hku, uninit_length in H3. cbv zeta in H3.
  destruct (decide (16 + length engine + 16 <= 64)%nat) as [Hd|Hd].
  - destruct H3 as (buf & E3 & Hlb & Ht). rewrite decide_True by lia.
    destruct (memcpy (uninit 64) 0 ku 0 16) as [b1|]; [|done]. cbn [mbind option_bind] in *.
    destruct (memcpy b1 16 engine 0 (length engine)) as [b2|]; [|done]. cbn [mbind option_bind] in *.
    rewrite E3. cbn [mbind option_bind].
    destruct (TnmMD5Update_rep _ [] buf (16 + length engine + 16) (md5_init_rep _ Hl1)) as (MD2 & E2 & Hr2); [lia|lia|].
    rewrite E2. cbn [mbind option_bind app] in *. rewrite Ht in Hr2.
    destruct (md5_final MD2 _ Hr2) as (MD3 & -> & _); [|done].
    repeat (apply bytes_app; split); [done|done|done].
  - rewrite decide_False by lia.
    destruct (memcpy (uninit 64) 0 ku 0 16) as [b1|]; [|done]. cbn [mbind option_bind] in *.
    destruct (memcpy b1 16 engine 0 (length engine)) as [b2|]; [|done]. cbn [mbind option_bind] in *. by rewrite H3.
Qed.

Lemma SHAPassWord2Key_spec pw engine : bytes pw -> pw <> [] -> bytes engine ->
  SHAPassWord2Key uninit pw engine
  = if decide (length engine <= 32)%nat then Some (sha_key pw engine) else None.
Proof using uninit_length.
  intros Hp Hne He. unfold SHAPassWord2Key, sha_key.
  destruct (sha_pw_loop_spec key_fuel (TnmSHAInit (uninit 64)) pw 0 Hne) as (SH & E & Hrep);
    [exact (sha_init_rep _ (uninit_length 64))|apply Nat.le_0_l|apply key_fuel_enough|].
  change (Z.of_nat (64 * 0)) with 0 in E. rewrite E. cbn [mbind option_bind].
  rewrite (sha_final SH _ Hrep) by (by apply cycle_bytes). cbn [mbind option_bind].
  set (ku := sha1 (cycle pw 0 megabyte)). pose proof (sha1_length (cycle pw 0 megabyte)) as Hku. fold ku in Hku.
  pose proof (sha1_bytes (cycle pw 0 megabyte)) as Hkb. fold ku in Hkb. clearbody ku.
  pose proof (memcpy_three (uninit 72) ku engine) as H3. rewrite Hku, uninit_length in H3. cbv zeta in H3.
  destruct (decide (20 + length engine + 20 <= 72)%nat) as [Hd|Hd].
  - destruct H3 as (buf & E3 & Hlb & Ht). rewrite decide_True by lia.
    destruct (memcpy (uninit 72) 0 ku 0 20) as [b1|]; [|done]. cbn [mbind option_bind] in *.
    destruct (memcpy b1 20 engine 0 (length engine)) as [b2|]; [|done]. cbn [mbind option_bind] in *.
    rewrite E3. cbn [mbind option_bind].
    destruct (TnmSHAUpdate_rep _ [] buf (20 + length engine + 20) (sha_init_rep _ (srep_size _ _ Hrep)))
      as (SH2 & E2 & Hr2); [lia|lia|].
    rewrite E2. cbn [mbind option_bind app] in *. rewrite Ht in Hr2. rewrite (sha_final SH2 _ Hr2); [done|].
    repeat (apply bytes_app; split); [done|done|done].
  - rewrite decide_False by lia.
    destruct (memcpy (uninit 72) 0 ku 0 20) as [b1|]; [|done]. cbn [mbind option_bind] in *.
    destruct (memcpy b1 20 engine 0 (length engine)) as [b2|]; [|done]. cbn [mbind option_bind] in *. by rewrite H3.
Qed.
End keys.

(** ** The results *)

(** C10: The digests are the standard ones.  However a message is cut into parts
    and whatever the context holds before, [TnmMD5Init], an update for each part and
    [TnmMD5Final] yield the digest of RFC 1321, and [TnmSHAInit], [TnmSHAUpdate] and
    [TnmSHAFinal] that of FIPS 180-1: the unrolled transformations compute the
    rounds of the standards, the padding and the number of bits are right for every
    length, and no access leaves the input or the context. *)
Theorem digests_standard buffer parts :
  length buffer = 64%nat -> bytes (concat parts) -> Forall (fun part => Z.of_nat (length part) < 2147483648) parts ->
  md5_of buffer parts = Some (md5 (concat parts)) /\ sha_of buffer parts = Some (sha1 (concat parts)).
Proof.
  intros Hl Hb Hall. split; [|by apply sha_of_spec].
  apply md5_of_spec; [done|done|]. eapply Forall_impl; [exact Hall|]. intros p Hp. cbv beta in *. lia.
Qed.

Lemma digests_standard_witness :
  let parts := [[97]; [98; 99]] in
  md5_of (replicate 64 7) parts = Some (md5 [97; 98; 99]) /\
  md5_of (replicate 64 7) parts = Some [0x90; 0x01; 0x50; 0x98; 0x3c; 0xd2; 0x4f; 0xb0; 0xd6; 0x96; 0x3f; 0x7d; 0x28; 0xe1; 0x7f; 0x72].
Proof.
  intros parts. split; [|by vm_compute]. apply (digests_standard (replicate 64 7) parts); [done|by_eval|by_eval].
Defined.

(** The cache holds objects that have a string. *)
Definition cache_ok (keyList : list KeyCache) : Prop :=
  Forall (fun e => is_Some (Tcl_GetStringFromObj (kc_password e)) /\ is_Some (Tcl_GetStringFromObj (kc_engineID e))) keyList.

Lemma cache_scan_ok keyList pw engine algorithm : forall key, cache_ok keyList ->
  is_Some (cache_scan keyList pw engine algorithm key).
Proof.
  induction keyList as [|e keyList IH]; intros key Hok; cbn [cache_scan]; [done|].
  apply Forall_cons in Hok as [[[[s1 o1] E1] [[s2 o2] E2]] Hok]. case_bool_decide; [by apply IH|].
  unfold same_string. rewrite E1, E2. cbn [mbind option_bind]. destruct (negb _); [by apply IH|].
  cbn [mbind option_bind]. destruct (negb _); by apply IH.
Qed.

Definition key_of (algorithm : Z) (pw engine : list Z) : list Z :=
  if decide (algorithm = TNM_SNMP_AUTH_MD5) then md5_key pw engine else sha_key pw engine.

(** C27: [ComputeKey] derives the key of RFC 2274 from the password and the engine
    whatever the cache holds: the digest, by the session's algorithm, of a megabyte of
    the repeated password, localized with the octets of the engine.  Without a password
    or an engine there is no key; an unknown algorithm ends the program; an engine of
    more than 32 octets overruns the buffer.  A key that was computed is put at the
    front of the cache, also when it is there already. *)
Theorem usm_compute_key uninit keyList password engineID algorithm pw password' engine engineID' :
  (forall n, length (uninit n) = n) -> cache_ok keyList ->
  Tcl_GetStringFromObj password = Some (pw, password') ->
  TnmGetOctetStringFromObj engineID = Some (Some engine, engineID') ->
  bytes pw -> bytes engine ->
  ComputeKey uninit keyList password engineID algorithm =
  if decide (pw = [] \/ engine = []) then Done (None, keyList)
  else if decide (algorithm = TNM_SNMP_AUTH_MD5 \/ algorithm = TNM_SNMP_AUTH_SHA) then
    if decide (length engine <= 32)%nat then
      let key := TnmNewOctetStringObj (key_of algorithm pw engine) in
      Done (Some key, mkKeyCache password' engineID' key algorithm :: keyList)
    else Overrun
  else Panic panic_algorithm.
Proof.
  intros Hu Hc Hp He Hpb Heb. unfold ComputeKey. rewrite Hp, He. destruct engine as [|e0 engine].
  { by rewrite decide_True by (by right). }
  set (en := e0 :: engine) in *. case_bool_decide as Hne; [by rewrite decide_True by (by left)|].
  rewrite decide_False by (by intros [?|?]).
  destruct (cache_scan_ok keyList pw en algorithm None Hc) as [k ->].
  rewrite MD5PassWord2Key_spec, SHAPassWord2Key_spec by done. unfold key_of.
  destruct (decide (algorithm = TNM_SNMP_AUTH_MD5)) as [->|H1].
  { rewrite (bool_decide_eq_true_2 (TNM_SNMP_AUTH_MD5 = TNM_SNMP_AUTH_MD5)) by done.
    rewrite (decide_True (P := TNM_SNMP_AUTH_MD5 = TNM_SNMP_AUTH_MD5 \/ _)) by (by left). by case_decide. }
  rewrite (bool_decide_eq_false_2 (algorithm = TNM_SNMP_AUTH_MD5)) by done.
  destruct (decide (algorithm = TNM_SNMP_AUTH_SHA)) as [->|H2].
  { rewrite (bool_decide_eq_true_2 (TNM_SNMP_AUTH_SHA = TNM_SNMP_AUTH_SHA)) by done.
    rewrite (decide_True (P := _ \/ TNM_SNMP_AUTH_SHA = TNM_SNMP_AUTH_SHA)) by (by right). by case_decide. }
  rewrite (bool_decide_eq_false_2 (algorithm = TNM_SNMP_AUTH_SHA)) by done.
  rewrite decide_False by (by intros [?|?]). done.
Qed.

Lemma usm_compute_key_witness :
  let engineID := mkObj (Some (cstr "00:00:00:02")) NoType in
  let key := TnmNewOctetStringObj (md5_key (cstr "maplesyrup") [0; 0; 0; 2]) in
  ComputeKey (fun n => replicate n 0) [] (mkObj (Some (cstr "maplesyrup")) NoType) engineID TNM_SNMP_AUTH_MD5
  = Done (Some key, [mkKeyCache (mkObj (Some (cstr "maplesyrup")) NoType)
      (mkObj (Some (cstr "00:00:00:02")) (tnmOctetString [0; 0; 0; 2])) key TNM_SNMP_AUTH_MD5]).
Proof.
  assert (Hp : bytes (cstr "maplesyrup")) by by_eval. assert (He : bytes [0; 0; 0; 2]) by by_eval.
  intros engineID key. assert (Hl : (length [0; 0; 0; 2] <= 32)%nat) by by_eval.
  rewrite (usm_compute_key (fun n => replicate n 0) [] (mkObj (Some (cstr "maplesyrup")) NoType) engineID TNM_SNMP_AUTH_MD5 (cstr "maplesyrup")
    (mkObj (Some (cstr "maplesyrup")) NoType) [0; 0; 0; 2]
    (mkObj (Some (cstr "00:00:00:02")) (tnmOctetString [0; 0; 0; 2]))
    (fun n => length_replicate n 0) (Forall_nil_2 _) eq_refl eq_refl Hp He).
  rewrite decide_False by (by intros [?|?]). rewrite decide_True by (by left). rewrite decide_True by exact Hl.
  unfold key_of. rewrite decide_True by reflexivity. reflexivity.
Defined.

(** ** Outgoing messages *)

(** HMAC-MD5 of RFC 2104 for a key of 16 octets. *)
Definition hmac_md5 (key msg : list Z) : list Z :=
  let k := key ++ replicate 48 0 in
  md5 (map (fun b => b .^ 0x5c) k ++ md5 (map (fun b => b .^ 0x36) k ++ msg)).

Lemma xor_from_bytes from c key : is_byte c -> bytes key -> bytes (xor_from from c key).
Proof.
  intros Hc Hk. unfold xor_from. apply bytes_app. split; [by apply Forall_take|].
  unfold bytes. rewrite Forall_map. eapply Forall_impl; [by apply Forall_drop|]. intros b Hb. unfold compose.
  assert (Hu : is_u32 (Z.lxor b c)) by (apply u32_lxor; unfold is_byte, is_u32 in *; lia).
  unfold is_byte, is_u32 in *. split; [lia|]. change 256 with (2 ^ 8).
  destruct (decide (Z.lxor b c = 0)) as [->|Hne]; [done|]. apply Z.log2_lt_pow2; [lia|].
  pose proof (Z.log2_lxor b c ltac:(lia) ltac:(lia)) as Hl.
  assert (Z.log2 b < 8) by (destruct (decide (b = 0)) as [->|]; [done|apply Z.log2_lt_pow2; lia]).
  assert (Z.log2 c < 8) by (destruct (decide (c = 0)) as [->|]; [done|apply Z.log2_lt_pow2; lia]). lia.
Qed.

(** What [MD5AuthOutMsg] writes: the digest of two passes over the packet with the
    parameters cleared.  The block the passes start with is the key and 48 octets that
    were never written, and its first octet misses the first mask, so this is not the
    HMAC of the standard. *)
Theorem usm_auth_out (uninit : nat -> list Z) key msg off :
  (forall n, length (uninit n) = n /\ bytes (uninit n)) -> bytes key -> length key = 16%nat -> bytes msg ->
  (off + 12 <= length msg)%nat -> Z.of_nat (length msg) < 2147483648 ->
  let cleared := take off msg ++ replicate 12 0 ++ drop (off + 12) msg in
  let k1 := xor_from 1 0x36 (key ++ drop 16 (uninit 64%nat)) in
  let k2 := xor_from 0 0x5c k1 in
  TnmSnmpAuthOutMsg uninit TNM_SNMP_AUTH_MD5 key msg off
  = Done (take off msg ++ take 12 (md5 (k2 ++ md5 (k1 ++ cleared))) ++ drop (off + 12) msg).
Proof.
  intros Hu Hkb Hkl Hmb Hoff Hml cleared k1 k2. pose proof (Hu 64%nat) as [Hul Hub].
  unfold TnmSnmpAuthOutMsg. rewrite bool_decide_eq_true_2, bool_decide_eq_false_2 by (done || lia).
  unfold MD5AuthOutMsg, memset. rewrite decide_True by done. cbn [mbind option_bind]. fold cleared.
  assert (Ek : memcpy (uninit 64%nat) 0 key 0 16 = Some (key ++ drop 16 (uninit 64%nat))).
  { unfold memcpy. rewrite decide_True by lia. by rewrite take_0, drop_0, (take_ge key) by lia. }
  rewrite Ek. cbn [mbind option_bind]. fold k1 k2.
  assert (Hk1 : bytes k1) by (apply xor_from_bytes; [done|]; apply bytes_app; split; [done|by apply Forall_drop]).
  assert (Hk2 : bytes k2) by (by apply xor_from_bytes).
  assert (Hl1 : length k1 = 64%nat).
  { unfold k1, xor_from. rewrite length_app, length_map, length_take, length_drop, length_app, length_drop. lia. }
  assert (Hl2 : length k2 = 64%nat).
  { unfold k2, xor_from. rewrite length_app, length_map, length_take, length_drop. lia. }
  assert (Hcb : bytes cleared).
  { unfold cleared. repeat (apply bytes_app; split); [by apply Forall_take|by apply Forall_replicate|by apply Forall_drop]. }
  assert (Hcl : length cleared = length msg).
  { unfold cleared. rewrite !length_app, length_take, length_replicate, length_drop. lia. }
  rewrite md5_of_spec; [|done|cbn; rewrite app_nil_r; by apply bytes_app|repeat constructor; lia].
  cbn [mbind option_bind concat]. rewrite app_nil_r.
  rewrite md5_of_spec; [|done|cbn; rewrite app_nil_r; apply bytes_app; split; [done|apply md5_bytes]
    |repeat constructor; rewrite ?md5_length; lia].
  cbn [mbind option_bind concat]. rewrite app_nil_r. unfold memcpy.
  rewrite decide_True by (rewrite md5_length; lia). rewrite drop_0. f_equal.
  assert (E1 : take off cleared = take off msg).
  { unfold cleared. rewrite take_app_le by (rewrite length_take; lia). rewrite take_take. f_equal. lia. }
  assert (E2 : drop (off + 12) cleared = drop (off + 12) msg).
  { unfold cleared. rewrite app_assoc, drop_app_ge by (rewrite length_app, length_take, length_replicate; lia).
    rewrite length_app, length_take, length_replicate. by replace (off + 12 - _)%nat with 0%nat by lia. }
  by rewrite E1, E2.
Qed.

Lemma usm_auth_not_hmac :
  exists msg', TnmSnmpAuthOutMsg (fun n => replicate n 0) TNM_SNMP_AUTH_MD5 (replicate 16 1) (replicate 12 0) 0 = Done msg' /\
    msg' <> take 12 (hmac_md5 (replicate 16 1) (replicate 12 0)).
Proof. eexists. split; [vm_compute; reflexivity|]. vm_compute. discriminate. Qed.

(** A key is localized to an engine by the digest of the key, the engine and
    the key; always 20 octets are stored, so that for MD5 the last four are whatever
    was on the stack. *)
Theorem usm_localize_key uninit algorithm key engine :
  (forall n, length (uninit n) = n) -> bytes key -> bytes engine ->
  Z.of_nat (length key) < 2147483648 -> Z.of_nat (length engine) < 2147483648 ->
  TnmSnmpLocalizeKey uninit algorithm key engine =
  if decide (algorithm = TNM_SNMP_AUTH_MD5) then Done (md5 (key ++ engine ++ key) ++ drop 16 (uninit 20%nat))
  else if decide (algorithm = TNM_SNMP_AUTH_SHA) then Done (sha1 (key ++ engine ++ key))
  else Panic (cstr "unknown algorithm for key localization").
Proof.
  intros Hu Hk He Hlk Hle. unfold TnmSnmpLocalizeKey.
  assert (Hc : bytes (concat [key; engine; key])) by (cbn; rewrite app_nil_r; repeat (apply bytes_app; split); done).
  rewrite md5_of_spec by (apply Hu || done || (repeat constructor; lia)).
  rewrite sha_of_spec by (apply Hu || done || (repeat constructor; lia)).
  cbn [concat]. rewrite app_nil_r. unfold memcpy. rewrite Hu, md5_length, sha1_length.
  repeat rewrite (decide_True (P := (_ /\ _)%nat)) by lia. rewrite take_0, !drop_0, !app_nil_l.
  rewrite (take_ge (md5 _)), (take_ge (sha1 _)) by (rewrite ?md5_length, ?sha1_length; lia).
  rewrite (drop_ge (uninit 20%nat) (0 + 20)), app_nil_r by (rewrite Hu; lia).
  destruct (decide (algorithm = TNM_SNMP_AUTH_MD5)); [by rewrite bool_decide_eq_true_2|].
  rewrite bool_decide_eq_false_2 by done.
  destruct (decide (algorithm = TNM_SNMP_AUTH_SHA)); [by rewrite bool_decide_eq_true_2|by rewrite bool_decide_eq_false_2].
Qed.
