(* ===== verification/SnmpEnc.v ===== *)
(** Encoding SNMP messages: [src/tnm/snmp/tnmSnmpSend.c].

    The stream pointer of the C code becomes [NULL] when a BER procedure fails,
    and the code goes on: the BER procedures pass a [NULL] stream through, while
    the surrounding code may still find an error of its own.  [EncM] therefore
    keeps the pointer as an option in its state, next to the result of the
    interpreter and the statistics; [ENull] is [return NULL] after an error
    message was left in the interpreter. *)

From Stdlib Require Import QArith.
From S2P Require Import Prelude Ber CStr Oid Util Snmp.
Local Open Scope Z_scope.
Local Open Scope cint_scope.

Record EncState := mkEnc {
  es_ber : option TnmBer;
  es_result : tcl_result;
  es_stats : TnmSnmpStats
}.

Inductive EncOut (A : Type) :=
  | EOk (a : A) (s : EncState)
  | ENull (s : EncState)
  | EFault (f : fault).
Arguments EOk {A} a s.
Arguments ENull {A} s.
Arguments EFault {A} f.

Definition EncM (A : Type) : Type := EncState -> EncOut A.

#[global] Instance EncM_ret : MRet EncM := fun A a s => EOk a s.
#[global] Instance EncM_bind : MBind EncM := fun A B k m s =>
  match m s with
  | EOk a s' => k a s'
  | ENull s' => ENull s'
  | EFault f => EFault f
  end.

(** [ber = TnmBerEnc...(ber, ...)]; [d] is what an out parameter holds when the
    call does nothing. *)
Definition ber_call {A} (d : A) (m : BerM A) : EncM A := fun s =>
  match es_ber s with
  | None => EOk d s
  | Some b =>
      match m b with
      | Ret a b' => EOk a (mkEnc (Some b') (es_result s) (es_stats s))
      | Null _ => EOk d (mkEnc None (es_result s) (es_stats s))
      | Fault f => EFault f
      end
  end.

Definition enc_do (m : BerM unit) : EncM unit := ber_call tt m.
Definition enc_seq_start (tag : Z) : EncM nat := ber_call O (TnmBerEncSequenceStart tag).
Definition enc_seq_end (token : nat) : EncM unit := enc_do (TnmBerEncSequenceEnd token).

(** [ber == NULL] *)
Definition ber_is_null : EncM bool := fun s =>
  EOk (match es_ber s with None => true | Some _ => false end) s.

Definition enc_bump (c : counter) : EncM unit := fun s =>
  EOk tt (mkEnc (es_ber s) (es_result s) (bump c (es_stats s))).

Definition enc_fault {A} (f : fault) : EncM A := fun _ => EFault f.

(** [Tcl_SetResult(interp, msg); return NULL;] *)
Definition tcl_fail {A} (msg : cstring) : EncM A := fun s =>
  ENull (mkEnc (es_ber s) (ResText msg) (es_stats s)).

(** [Tcl_AppendResult(interp, msg); return NULL;] *)
Definition tcl_append_fail {A} (msg : cstring) : EncM A := fun s =>
  ENull (mkEnc (es_ber s)
    (match es_result s with ResText t => ResText (t ++ msg) | ResDangling => ResDangling end)
    (es_stats s)).

(** A value or an error message of a procedure of Tcl. *)
Definition tcl_lift {A} (r : A + cstring) : EncM A :=
  match r with inl a => mret a | inr msg => tcl_fail msg end.

(** [ber = Encode...(...)] of a procedure of this file: its [return NULL]
    becomes a [NULL] stream. *)
Definition enc_call (m : EncM unit) : EncM unit := fun s =>
  match m s with
  | ENull s' => EOk tt (mkEnc None (es_result s') (es_stats s'))
  | o => o
  end.

(** [if ( *Tcl_GetStringResult(interp) == '\0')
       Tcl_SetResult(interp, TnmBerGetError(NULL), TCL_STATIC);] *)
Definition result_from_null : EncM unit := fun s =>
  match es_result s with
  | ResText [] => EOk tt (mkEnc (es_ber s) ResDangling (es_stats s))
  | _ => EOk tt s
  end.

(** ** Values *)

(** [sscanf(value, "%d.%d.%d.%d", ...)]: the number of conversions. *)
Fixpoint skip_digits (s : cstring) : cstring :=
  match s with c :: s' => if isdigit c then skip_digits s' else s | [] => [] end.

Definition scan_int (s : cstring) : option cstring :=
  let s := skip_space s in
  let s := match s with
           | c :: s' => if bool_decide (c = 43) || bool_decide (c = 45) then s' else s
           | [] => s
           end in
  match s with
  | c :: _ => if isdigit c then Some (skip_digits s) else None
  | [] => None
  end.

Fixpoint scan_dotted (n : nat) (s : cstring) : nat :=
  match n with
  | O => O
  | S n =>
      match scan_int s with
      | None => O
      | Some [] => 1
      | Some (c :: rest) => if bool_decide (c = chr_dot) then S (scan_dotted n rest) else 1
      end
  end.

Section encode.
Context `{!SnmpEnv}.

(** [oid = TnmStrToOid(s); if (! oid) { tmp = TnmMibGetOid(s); ... }] *)
Definition lookup_oid (s : cstring) : option (list Z) :=
  match TnmStrToOid s with
  | Some (oid, oidlen) => Some (take oidlen oid)
  | None =>
      match TnmMibGetOid s with
      | None => None
      | Some tmp => match TnmStrToOid tmp with
                    | Some (oid, oidlen) => Some (take oidlen oid)
                    | None => None
                    end
      end
  end.

(** [rc = Tcl_GetInt(interp, value, &int_val)] with the second attempt. *)
Definition get_int (name value : cstring) : EncM Z :=
  match Tcl_GetInt value with
  | inl v => mret v
  | inr msg =>
      match TnmMibScan name value with
      | Some (c :: tmp) => tcl_lift (Tcl_GetInt (c :: tmp))
      | _ => tcl_fail msg
      end
  end.

(** The octets of a string in hexadecimal; the empty one is not decoded. *)
Definition get_hex (hex err : cstring) : EncM (list Z) :=
  match hex with
  | [] => mret []
  | _ => match TnmHexDec hex with
         | Some bin => mret bin
         | None => tcl_fail err
         end
  end.

(** [switch (asn1_type)] *)
Definition encode_value (session : TnmSnmp) (asn1_type : Z) (name value : cstring) : EncM unit :=
  if bool_decide (asn1_type = ASN1_INTEGER) || bool_decide (asn1_type = ASN1_COUNTER32)
     || bool_decide (asn1_type = ASN1_GAUGE32) || bool_decide (asn1_type = ASN1_TIMETICKS) then
    int_val ← get_int name value;
    enc_do (TnmBerEncInt asn1_type int_val)
  else if bool_decide (asn1_type = ASN1_COUNTER64) then
    if bool_decide (ss_version session = TNM_SNMPv1)
    then tcl_fail (cstr "Counter64 not allowed on an SNMPv1 session")
    else
      d ← tcl_lift (Tcl_GetDouble value);
      if negb (Qle_bool 0 d) then tcl_fail (cstr "negativ counter value")
      else enc_do (TnmBerEncUnsigned64 d)
  else if bool_decide (asn1_type = ASN1_IPADDRESS) then
    let addr := inet_addr value in
    let cnt := scan_dotted 4 value in
    if (bool_decide (addr = replicate 4 255) && bool_decide (value <> cstr "255.255.255.255"))
       || bool_decide (cnt <> 4%nat)
    then tcl_fail (cstr "invalid IP address")
    else enc_do (TnmBerEncOctetString ASN1_IPADDRESS addr)
  else if bool_decide (asn1_type = ASN1_OCTET_STRING) then
    match value with
    | [] => enc_do (TnmBerEncOctetString ASN1_OCTET_STRING [])
    | _ =>
        let hex := default value (TnmMibScan name value) in
        bin ← get_hex hex (cstr "illegal OCTET STRING value");
        enc_do (TnmBerEncOctetString ASN1_OCTET_STRING bin)
    end
  else if bool_decide (asn1_type = ASN1_OPAQUE) then
    bin ← get_hex value (cstr "illegal Opaque value");
    enc_do (TnmBerEncOctetString ASN1_OPAQUE bin)
  else if bool_decide (asn1_type = ASN1_OBJECT_IDENTIFIER) then
    match lookup_oid value with
    | None => tcl_append_fail (cstr "illegal object identifier " ++ [34] ++ value ++ [34])
    | Some oid => enc_do (TnmBerEncOID oid)
    end
  else if bool_decide (asn1_type = ASN1_NO_SUCH_OBJECT) || bool_decide (asn1_type = ASN1_NO_SUCH_INSTANCE)
          || bool_decide (asn1_type = ASN1_END_OF_MIB_VIEW) || bool_decide (asn1_type = ASN1_NULL)
  then enc_do (TnmBerEncNull asn1_type)
  else tcl_fail (cstr "unknown asn1 type 0x" ++ sprintf_x2 asn1_type).

(** ** Varbinds *)

(** [TnmGetTableKey] in the table of types, [ASN1_OTHER] if it is unknown. *)
Definition type_from_table (typ : cstring) : Z :=
  let t := TnmGetTableKey tnmSnmpTypeTable typ in
  if bool_decide (t < 0) then ASN1_OTHER else t.

(** [switch (vbc)]: the type and the value of a varbind with the words [vbv]
    after its name. *)
Definition varbind_type (pdutype : Z) (name : cstring) (vbv : list cstring) : Z * cstring :=
  match vbv with
  | [] => (ASN1_NULL, [])
  | [value] => (TnmMibGetBaseSyntax name, value)
  | typ :: value :: _ =>
      let t :=
        if bool_decide (pdutype = ASN1_SNMP_RESPONSE) then
          let t := TnmGetTableKey tnmSnmpExceptionTable typ in
          if bool_decide (t < 0) then type_from_table typ else t
        else type_from_table typ in
      let t := if bool_decide (t = ASN1_OTHER) then default t (TnmMibFindType typ) else t in
      (t, value)
  end.

(** The body of the loop over the varbinds after the name was encoded. *)
Definition encode_varbind_value (session : TnmSnmp) (pdutype : Z) (name : cstring)
    (vbv : list cstring) : EncM unit :=
  let '(asn1_type, value) := varbind_type pdutype name vbv in
  if bool_decide (asn1_type = ASN1_OTHER)
  then tcl_fail (cstr "unknown type " ++ [34] ++ default [] (head vbv) ++ [34])
  else if TnmSnmpGet pdutype then enc_do (TnmBerEncNull ASN1_NULL)
  else encode_value session asn1_type name value.

(** [for (i = 0; i < vblc; i++)] *)
Fixpoint encode_varbinds (session : TnmSnmp) (pdutype : Z) (vbl : list (tcl_list cstring)) : EncM unit :=
  match vbl with
  | [] => mret tt
  | BadList msg :: _ => tcl_fail msg
  | TclList [] :: _ => tcl_fail (cstr "missing OBJECT IDENTIFIER")
  | TclList (name :: vbv) :: vbl =>
      vbSeqToken ← enc_seq_start ASN1_SEQUENCE;
      match lookup_oid name with
      | None => tcl_fail (cstr "invalid object identifier " ++ [34] ++ name ++ [34])
      | Some oid =>
          _ ← enc_do (TnmBerEncOID oid);
          null ← ber_is_null;
          if (null : bool) then mret tt
          else
            _ ← encode_varbind_value session pdutype name vbv;
            _ ← enc_seq_end vbSeqToken;
            encode_varbinds session pdutype vbl
      end
  end.

(** ** PDUs *)

(** [oid = TnmStrToOid(s, &oidlen); ber = TnmBerEncOID(ber, oid, oidlen);]
    A [NULL] vector is dereferenced. *)
Definition encode_str_oid (s : option cstring) : EncM unit :=
  match s ≫= TnmStrToOid with
  | None => enc_fault OutOfBounds
  | Some (oid, oidlen) => enc_do (TnmBerEncOID (take oidlen oid))
  end.

(** The fields of an SNMPv1 trap. *)
Definition encode_trap1 (session : TnmSnmp) (pdu : TnmSnmpPdu) : EncM unit :=
  match pdu_trapOID pdu with
  | None => tcl_fail (cstr "illegal notification object identifier")
  | Some trapOID =>
      match TnmStrToOid trapOID with
      | None => tcl_fail (cstr "illegal notification object identifier")
      | Some (oid, oidlen) =>
          if bool_decide (oidlen < 4)%nat
          then tcl_fail (cstr "illegal notification object identifier")
          else
            let last := oid !!! (oidlen - 1)%nat in
            let '(generic, specific, enterprise) :=
              if bool_decide (take 17 trapOID = cstr "1.3.6.1.6.3.1.1.5")
              then (s32 (last - 1), 0, ss_enterpriseOid session)
              else if bool_decide (take 16 trapOID = cstr "1.3.6.1.2.1.11.0")
              then (s32 last, 0, ss_enterpriseOid session)
              else (6, s32 last, take (oidlen - 2) oid) in
            _ ← enc_do (TnmBerEncOID enterprise);
            null ← ber_is_null;
            if (null : bool) then tcl_fail (cstr "failed to encode enterprise object identifier")
            else
              addr ← tcl_lift host_address;
              _ ← enc_do (TnmBerEncOctetString ASN1_IPADDRESS addr);
              _ ← enc_do (TnmBerEncInt ASN1_INTEGER generic);
              _ ← enc_do (TnmBerEncInt ASN1_INTEGER specific);
              enc_do (TnmBerEncInt ASN1_TIMETICKS TnmSnmpSysUpTime)
      end
  end.

(** [switch (pdu->errorStatus)] *)
Definition count_out_error (status : Z) : EncM unit :=
  if bool_decide (status = TNM_SNMP_TOOBIG) then enc_bump snmpOutTooBigs
  else if bool_decide (status = TNM_SNMP_NOSUCHNAME) then enc_bump snmpOutNoSuchNames
  else if bool_decide (status = TNM_SNMP_BADVALUE) then enc_bump snmpOutBadValues
  else if bool_decide (status = TNM_SNMP_GENERR) then enc_bump snmpOutGenErrs
  else mret tt.

Definition encode_request (pdu : TnmSnmpPdu) : EncM unit :=
  _ ← enc_do (TnmBerEncInt ASN1_INTEGER (pdu_requestId pdu));
  _ ← enc_do (TnmBerEncInt ASN1_INTEGER (pdu_errorStatus pdu));
  _ ← count_out_error (pdu_errorStatus pdu);
  enc_do (TnmBerEncInt ASN1_INTEGER (pdu_errorIndex pdu)).

(** sysUpTime.0 and snmpTrapOID.0 of a notification *)
Definition encode_notification (pdu : TnmSnmpPdu) : EncM unit :=
  vbSeqToken ← enc_seq_start ASN1_SEQUENCE;
  _ ← encode_str_oid (Some (cstr "1.3.6.1.2.1.1.3.0"));
  _ ← enc_do (TnmBerEncInt ASN1_TIMETICKS TnmSnmpSysUpTime);
  _ ← enc_seq_end vbSeqToken;
  vbSeqToken ← enc_seq_start ASN1_SEQUENCE;
  _ ← encode_str_oid (Some (cstr "1.3.6.1.6.3.1.1.4.1.0"));
  _ ← encode_str_oid (pdu_trapOID pdu);
  enc_seq_end vbSeqToken.

Definition EncodePDU (session : TnmSnmp) (pdu : TnmSnmpPdu) : EncM unit :=
  pduSeqToken ← enc_seq_start (u8 (pdu_type pdu));
  _ ← (if bool_decide (pdu_type pdu = ASN1_SNMP_TRAP1) then encode_trap1 session pdu
       else encode_request pdu);
  vblSeqToken ← enc_seq_start ASN1_SEQUENCE;
  match pdu_varbind pdu with
  | BadList msg => tcl_fail msg
  | TclList vbl =>
      _ ← (if bool_decide (pdu_type pdu = ASN1_SNMP_TRAP2) || bool_decide (pdu_type pdu = ASN1_SNMP_INFORM)
           then encode_notification pdu else mret tt);
      _ ← encode_varbinds session (pdu_type pdu) vbl;
      _ ← enc_seq_end vblSeqToken;
      enc_seq_end pduSeqToken
  end.

(** ** SNMPv3 *)

(** The flags of a message: reportable for requests, and the security level. *)
Definition header_flags (session : TnmSnmp) (pdu : TnmSnmpPdu) : Z :=
  let t := pdu_type pdu in
  let flags := if bool_decide (t = ASN1_SNMP_GET) || bool_decide (t = ASN1_SNMP_GETNEXT)
                  || bool_decide (t = ASN1_SNMP_GETBULK) || bool_decide (t = ASN1_SNMP_SET)
                  || bool_decide (t = ASN1_SNMP_INFORM)
               then TNM_SNMP_FLAG_REPORT else 0 in
  let flags := if bool_decide (ss_securityLevel session .& TNM_SNMP_AUTH_MASK <> 0)
               then flags .| TNM_SNMP_FLAG_AUTH else flags in
  if bool_decide (ss_securityLevel session .& TNM_SNMP_PRIV_MASK <> 0)
  then flags .| TNM_SNMP_FLAG_PRIV else flags.

Definition EncodeHeader (session : TnmSnmp) (pdu : TnmSnmpPdu) : EncM unit :=
  seqToken ← enc_seq_start ASN1_SEQUENCE;
  _ ← enc_do (TnmBerEncInt ASN1_INTEGER (pdu_requestId pdu));
  _ ← enc_do (TnmBerEncInt ASN1_INTEGER TNM_SNMP_MAXSIZE);
  _ ← enc_do (TnmBerEncOctetString ASN1_OCTET_STRING [header_flags session pdu]);
  _ ← enc_do (TnmBerEncInt ASN1_INTEGER TNM_SNMP_USM_SEC_MODEL);
  enc_seq_end seqToken.

(** The fields of the security parameters. *)
Definition usm_fields (session : TnmSnmp) (pdu : TnmSnmpPdu) : BerM unit :=
  let auth := bool_decide (ss_securityLevel session .& TNM_SNMP_AUTH_MASK <> 0) in
  let timely := bool_decide (pdu_type pdu = ASN1_SNMP_RESPONSE) || auth in
  _ ← TnmBerEncOctetString ASN1_OCTET_STRING (ss_engineID session);
  _ ← TnmBerEncInt ASN1_INTEGER (if timely then ss_engineBoots session else 0);
  _ ← TnmBerEncInt ASN1_INTEGER (if timely then ss_engineTime session else 0);
  _ ← TnmBerEncOctetString ASN1_OCTET_STRING (ss_user session);
  _ ← TnmBerEncOctetString ASN1_OCTET_STRING (if auth then replicate 12 0 else []);
  TnmBerEncOctetString ASN1_OCTET_STRING [].

(** [buffer] is the static buffer with its previous contents; the result is
    what is left in it, up to the length returned. *)
Definition EncodeUsmSecParams (buffer : list Z) (session : TnmSnmp) (pdu : TnmSnmpPdu)
    : fault + option (list Z) :=
  match (seqToken ← TnmBerEncSequenceStart ASN1_SEQUENCE;
         _ ← usm_fields session pdu;
         TnmBerEncSequenceEnd seqToken) (TnmBerCreate buffer TNM_SNMP_MAXSIZE) with
  | Ret _ b => inr (Some (take (ber_current b) (ber_buf b)))
  | Null _ => inr None
  | Fault f => inl f
  end.

Definition EncodeScopedPDU (session : TnmSnmp) (pdu : TnmSnmpPdu) : EncM unit :=
  seqToken ← enc_seq_start ASN1_SEQUENCE;
  _ ← enc_do (TnmBerEncOctetString ASN1_OCTET_STRING (ss_engineID session));
  _ ← enc_do (TnmBerEncOctetString ASN1_OCTET_STRING (ss_context session));
  _ ← enc_call (EncodePDU session pdu);
  enc_seq_end seqToken.

(** ** Messages *)

Definition message_version (session : TnmSnmp) : Z :=
  if bool_decide (ss_version session = TNM_SNMPv2C) then 1
  else if bool_decide (ss_version session = TNM_SNMPv3) then 3 else 0.

(** The community is only used by the versions that have one. *)
Definition message_parameter (session : TnmSnmp) : list Z :=
  if bool_decide (ss_version session = TNM_SNMPv1) || bool_decide (ss_version session = TNM_SNMPv2C)
  then ss_community session else [].

(** [ber = TnmBerEncSequenceEnd(ber, seqToken); return (ber ? TCL_OK : TCL_ERROR);] *)
Definition encode_message_end (seqToken : nat) : EncM tcl_code :=
  _ ← enc_seq_end seqToken;
  null ← ber_is_null;
  mret (if (null : bool) then TCL_ERROR else TCL_OK).

Definition EncodeMessage (buffer : list Z) (session : TnmSnmp) (pdu : TnmSnmpPdu) : EncM tcl_code :=
  seqToken ← enc_seq_start ASN1_SEQUENCE;
  _ ← enc_do (TnmBerEncInt ASN1_INTEGER (message_version session));
  if bool_decide (message_version session < 3) then
    _ ← enc_do (TnmBerEncOctetString ASN1_OCTET_STRING (message_parameter session));
    _ ← enc_call (EncodePDU session pdu);
    null ← ber_is_null;
    if (null : bool) then _ ← result_from_null; mret TCL_ERROR
    else encode_message_end seqToken
  else
    _ ← EncodeHeader session pdu;
    match EncodeUsmSecParams buffer session pdu with
    | inl f => enc_fault f
    | inr None => fun s => EOk TCL_ERROR (mkEnc (es_ber s) ResDangling (es_stats s))
    | inr (Some secParam) =>
        _ ← enc_do (TnmBerEncOctetString ASN1_OCTET_STRING secParam);
        _ ← EncodeScopedPDU session pdu;
        _ ← result_from_null;
        encode_message_end seqToken
    end.

(** ** The entry point *)

(** SNMPv1 has no bulk requests, no inform requests and fewer error codes. *)
Definition v1_error (status : Z) : Z :=
  if bool_decide (status ∈ [TNM_SNMP_NOACCESS; TNM_SNMP_NOCREATION; TNM_SNMP_AUTHORIZATIONERROR;
                            TNM_SNMP_NOTWRITABLE; TNM_SNMP_INCONSISTENTNAME])
  then TNM_SNMP_NOSUCHNAME
  else if bool_decide (status ∈ [TNM_SNMP_WRONGTYPE; TNM_SNMP_WRONGLENGTH; TNM_SNMP_WRONGENCODING;
                                 TNM_SNMP_WRONGVALUE; TNM_SNMP_INCONSISTENTVALUE])
  then TNM_SNMP_BADVALUE
  else TNM_SNMP_GENERR.

Definition v1_pdu (session : TnmSnmp) (pdu : TnmSnmpPdu) : TnmSnmpPdu :=
  if bool_decide (ss_version session = TNM_SNMPv1) then
    let bulk := bool_decide (pdu_type pdu = ASN1_SNMP_GETBULK) in
    let type := if bulk then ASN1_SNMP_GETNEXT else pdu_type pdu in
    let status := if bulk then TNM_SNMP_NOERROR else pdu_errorStatus pdu in
    let index := if bulk then 0 else pdu_errorIndex pdu in
    let type := if bool_decide (type = ASN1_SNMP_INFORM) || bool_decide (type = ASN1_SNMP_TRAP2)
                then ASN1_SNMP_TRAP1 else type in
    let status := if bool_decide (TNM_SNMP_GENERR < status) then v1_error status else status in
    mkPdu type (pdu_requestId pdu) status index (pdu_trapOID pdu) (pdu_context pdu)
      (pdu_engineID pdu) (pdu_varbind pdu)
  else pdu.

(** [switch (pdu->type)] after the message was encoded. *)
Definition count_out_pdu (type : Z) : EncM unit :=
  if bool_decide (type = ASN1_SNMP_GET) then enc_bump snmpOutGetRequests
  else if bool_decide (type = ASN1_SNMP_GETNEXT) then enc_bump snmpOutGetNexts
  else if bool_decide (type = ASN1_SNMP_SET) then enc_bump snmpOutSetRequests
  else if bool_decide (type = ASN1_SNMP_RESPONSE) then enc_bump snmpOutGetResponses
  else if bool_decide (type = ASN1_SNMP_TRAP1) then enc_bump snmpOutTraps
  else mret tt.

(** [packetlen = TnmBerSize(ber)]: the octets that will be sent. *)
Definition encoded_packet : EncM (list Z) := fun s =>
  match es_ber s with
  | Some b => EOk (take (ber_current b) (ber_buf b)) s
  | None => EOk [] s
  end.

(** [TnmSnmpEncode] up to the point where the packet is handed to the
    transport: the PDU as it was changed, and the packet ([None] after an
    error). *)
Definition TnmSnmpEncode_packet (buffer : list Z) (session : TnmSnmp) (pdu : TnmSnmpPdu)
    (result : tcl_result) (stats : TnmSnmpStats) : EncOut (TnmSnmpPdu * option (list Z)) :=
  let pdu := v1_pdu session pdu in
  let ber := TnmBerCreate (replicate (Z.to_nat TNM_SNMP_MAXSIZE) 0) TNM_SNMP_MAXSIZE in
  (code ← EncodeMessage buffer session pdu;
   match code with
   | TCL_ERROR => mret (pdu, None)
   | TCL_OK =>
       packet ← encoded_packet;
       _ ← count_out_pdu (pdu_type pdu);
       mret (pdu, Some packet)
   end) (mkEnc (Some ber) result stats).
End encode.
