(* ===== verification/SnmpSpec.v ===== *)
(** The format of SNMP messages (RFC 1157, RFC 1901, RFC 1905, RFC 2272), as
    octets of abstract messages, and the proof that the procedures of
    [SnmpEnc.v] write it.

    [snmp_value] are the values a varbind can carry.  [value_encodes] says which
    value the words of a varbind stand for, given the MIB and Tcl; it follows
    the conversions the encoder performs and does not mention the stream. *)

From Stdlib Require Import QArith.
From S2P Require Import Prelude Ber BerSpec BerRound CStr Oid Util Snmp SnmpEnc.
Local Open Scope Z_scope.

(** ** Octets of a message *)

Inductive snmp_value :=
  | VInteger (i : Z)
  | VUnsigned (tag u : Z)
  | VCounter64 (u : Z)
  | VNull
  | VOid (oid : list Z)
  | VIpAddress (octets : list Z)
  | VOctets (octets : list Z)
  | VOpaque (octets : list Z)
  | VException (tag : Z).

Definition varbind : Type := list Z * snmp_value.

Definition int_tlv (v : Z) : list Z := tlv ASN1_INTEGER (int_octets v).
Definition oid_tlv (oid : list Z) : list Z := tlv ASN1_OBJECT_IDENTIFIER (oid_octets oid).

Definition value_tlv (v : snmp_value) : list Z :=
  match v with
  | VInteger i => int_tlv i
  | VUnsigned tag u => tlv tag (int_octets (s32 u))
  | VCounter64 u => tlv ASN1_COUNTER64 (u64_octets u)
  | VNull => tlv ASN1_NULL []
  | VOid oid => oid_tlv oid
  | VIpAddress octets => tlv ASN1_IPADDRESS octets
  | VOctets octets => tlv ASN1_OCTET_STRING octets
  | VOpaque octets => tlv ASN1_OPAQUE octets
  | VException tag => tlv tag []
  end.

Definition varbind_body (vb : varbind) : list Z := oid_tlv vb.1 ++ value_tlv vb.2.
Definition varbind_tlv (vb : varbind) : list Z := tlv ASN1_SEQUENCE (varbind_body vb).
Definition varbinds_body (vbs : list varbind) : list Z := concat (map varbind_tlv vbs).
Definition varbinds_tlv (vbs : list varbind) : list Z := tlv ASN1_SEQUENCE (varbinds_body vbs).

Definition request_body (rid status index : Z) (vbs : list varbind) : list Z :=
  (int_tlv rid ++ int_tlv status ++ int_tlv index) ++ varbinds_tlv vbs.
Definition pdu_tlv (type rid status index : Z) (vbs : list varbind) : list Z :=
  tlv type (request_body rid status index vbs).

(** A community based message. *)
Definition message_body (version : Z) (community pdu : list Z) : list Z :=
  int_tlv version ++ tlv ASN1_OCTET_STRING community ++ pdu.
Definition message_tlv (version : Z) (community pdu : list Z) : list Z :=
  tlv ASN1_SEQUENCE (message_body version community pdu).

(** Values within the ranges of their types.  An unsigned value has to be below
    0xff800000: larger ones do not survive [TnmBerEncInt]. *)
Definition value_ok (v : snmp_value) : Prop :=
  match v with
  | VInteger i => is_s32 i
  | VUnsigned tag u =>
      tag ∈ [ASN1_COUNTER32; ASN1_GAUGE32; ASN1_TIMETICKS] /\ 0 <= u < 0xff800000
  | VCounter64 u => 0 <= u < 2 ^ 64
  | VNull => True
  | VOid oid => valid_oid oid
  | VIpAddress octets => bytes octets /\ length octets = 4%nat
  | VOctets octets | VOpaque octets => bytes octets
  | VException tag => tag ∈ [ASN1_NO_SUCH_OBJECT; ASN1_NO_SUCH_INSTANCE; ASN1_END_OF_MIB_VIEW]
  end.

#[global] Instance value_ok_dec v : Decision (value_ok v).
Proof. destruct v; simpl; apply _. Defined.

Definition varbind_ok (vb : varbind) : Prop := valid_oid vb.1 /\ value_ok vb.2.

#[global] Instance varbind_ok_dec vb : Decision (varbind_ok vb).
Proof. unfold varbind_ok. apply _. Defined.

Lemma tlv_length_body tag body : (length body < length (tlv tag body))%nat.
Proof. rewrite length_tlv. lia. Qed.

(** ** Writing in [EncM] *)

(** With room for [o] and a spare octet, [m] writes exactly [o] and leaves the
    result of the interpreter alone. *)
Definition eappends (m : EncM unit) (o : list Z) : Prop :=
  bytes o /\
  forall pre rest e res stats, (length o + 1 <= length rest)%nat ->
    exists stats', m (mkEnc (Some (st pre rest e)) res stats)
      = EOk tt (mkEnc (Some (st (pre ++ o) (drop (length o) rest) e)) res stats').

Lemma ebind_ok {A B} (m : EncM A) (k : A -> EncM B) s a s' :
  m s = EOk a s' -> (m ≫= k) s = k a s'.
Proof. unfold mbind, EncM_bind. by intros ->. Qed.

Lemma eappends_ext m m' o : (forall s, m s = m' s) -> eappends m o -> eappends m' o.
Proof. intros E [Hb H]. split; [done|]. intros. rewrite <- E. by apply H. Qed.

Lemma eappends_ret : eappends (mret tt) [].
Proof. split; [constructor|]. intros. exists stats. simpl. by rewrite app_nil_r. Qed.

Lemma eappends_do m o : appends m o -> eappends (enc_do m) o.
Proof.
  intros [Hb H]. split; [done|]. intros pre rest e res stats Hr. exists stats.
  unfold enc_do, ber_call. cbn [es_ber]. by rewrite H.
Qed.

Lemma eappends_bump c : eappends (enc_bump c) [].
Proof.
  split; [constructor|]. intros. exists (bump c stats). unfold enc_bump. simpl.
  by rewrite app_nil_r.
Qed.

Lemma eappends_bind m1 m2 o1 o2 :
  eappends m1 o1 -> eappends m2 o2 -> eappends (_ ← m1; m2) (o1 ++ o2).
Proof.
  intros [Hb1 H1] [Hb2 H2]. split; [by apply bytes_app|].
  intros pre rest e res stats Hr. rewrite length_app in Hr.
  destruct (H1 pre rest e res stats) as [stats1 E1]; [lia|].
  destruct (H2 (pre ++ o1) (drop (length o1) rest) e res stats1) as [stats2 E2];
    [rewrite length_drop; lia|].
  exists stats2. rewrite (ebind_ok _ _ _ _ _ E1), E2. by rewrite length_app, drop_drop, app_assoc.
Qed.

(** A check for a failure in between. *)
Lemma eappends_check m1 m2 m3 o1 o2 :
  eappends m1 o1 -> eappends m2 o2 ->
  eappends (_ ← m1; null ← ber_is_null; if (null : bool) then m3 else m2) (o1 ++ o2).
Proof.
  intros [Hb1 H1] [Hb2 H2]. split; [by apply bytes_app|].
  intros pre rest e res stats Hr. rewrite length_app in Hr.
  destruct (H1 pre rest e res stats) as [stats1 E1]; [lia|].
  destruct (H2 (pre ++ o1) (drop (length o1) rest) e res stats1) as [stats2 E2];
    [rewrite length_drop; lia|].
  exists stats2. rewrite (ebind_ok _ _ _ _ _ E1). unfold ber_is_null, mbind, EncM_bind. cbn [es_ber].
  rewrite E2. by rewrite length_app, drop_drop, app_assoc.
Qed.

Lemma eappends_if (c : bool) m1 m2 o :
  (c = true -> eappends m1 o) -> (c = false -> eappends m2 o) ->
  eappends (if c then m1 else m2) o.
Proof. destruct c; auto. Qed.

(** A sequence around what [m] writes, with the states in between. *)
Lemma eseq_run tag m body pre rest e res stats :
  is_byte tag -> Z.of_nat (length body) < 65536 -> eappends m body ->
  (length (tlv tag body) + 1 <= length rest)%nat ->
  exists t s1 b stats',
    enc_seq_start tag (mkEnc (Some (st pre rest e)) res stats) = EOk t s1 /\
    m s1 = EOk tt (mkEnc (Some b) res stats') /\
    enc_seq_end t (mkEnc (Some b) res stats')
    = EOk tt (mkEnc (Some (st (pre ++ tlv tag body) (drop (length (tlv tag body)) rest) e)) res stats').
Proof.
  intros Ht Hl [Hb Hm] Hr.
  rewrite length_tlv in Hr. destruct rest as [|y [|z rest]]; [simpl in Hr; lia..|].
  rewrite !length_cons in Hr.
  destruct (Hm ((pre ++ [u8 tag]) ++ [0]) rest e res stats) as [stats' E]; [lia|].
  eexists _, _, _, stats'. split; [|split; [exact E|]].
  - unfold enc_seq_start, ber_call, TnmBerEncSequenceStart. cbn [es_ber].
    by rewrite (enc_header_app mret tag pre y z rest e).
  - unfold enc_seq_end, enc_do, ber_call, TnmBerEncSequenceEnd. cbn [es_ber].
    ber_step ber_pos_st. rewrite enc_close_app; try done.
    + rewrite length_tlv, drop_drop. done.
    + rewrite !length_app. simpl. lia.
    + rewrite length_drop. unfold len_room. case_bool_decide; lia.
Qed.

Lemma eappends_seq tag m body :
  is_byte tag -> Z.of_nat (length body) < 65536 -> eappends m body ->
  eappends (t ← enc_seq_start tag; _ ← m; enc_seq_end t) (tlv tag body).
Proof.
  intros Ht Hl Hm. split; [apply tlv_bytes; [done|apply Hm|done]|].
  intros pre rest e res stats Hr.
  destruct (eseq_run tag m body pre rest e res stats Ht Hl Hm Hr) as (t & s1 & b & stats' & E1 & E2 & E3).
  exists stats'. by rewrite (ebind_ok _ _ _ _ _ E1), (ebind_ok _ _ _ _ _ E2), E3.
Qed.

Lemma eappends_call m o : eappends m o -> eappends (enc_call m) o.
Proof.
  intros [Hb H]. split; [done|]. intros pre rest e res stats Hr.
  destruct (H pre rest e res stats Hr) as [stats' E]. exists stats'. unfold enc_call. by rewrite E.
Qed.

#[export] Hint Resolve eappends_ret eappends_do eappends_bump eappends_bind : ber.

(** ** What the words of a varbind stand for *)

Section encode.
Context `{!SnmpEnv}.

(** The octets a text in hexadecimal stands for. *)
Definition hex_denotes (hex : cstring) (octets : list Z) : Prop :=
  match hex with [] => octets = [] | _ => TnmHexDec hex = Some octets end.

#[global] Instance hex_denotes_dec hex octets : Decision (hex_denotes hex octets).
Proof. destruct hex; simpl; apply _. Defined.

Definition value_encodes (session : TnmSnmp) (asn1_type : Z) (name text : cstring) (v : snmp_value)
    : Prop :=
  match v with
  | VInteger i => asn1_type = ASN1_INTEGER /\ Tcl_GetInt text = inl i
  | VUnsigned tag u => asn1_type = tag /\ Tcl_GetInt text = inl (s32 u)
  | VCounter64 u =>
      asn1_type = ASN1_COUNTER64 /\ ss_version session <> TNM_SNMPv1 /\
      Tcl_GetDouble text = inl (inject_Z u)
  | VNull => asn1_type = ASN1_NULL
  | VOid oid => asn1_type = ASN1_OBJECT_IDENTIFIER /\ lookup_oid text = Some oid
  | VIpAddress octets =>
      asn1_type = ASN1_IPADDRESS /\ inet_addr text = octets /\ scan_dotted 4 text = 4%nat /\
      (octets <> replicate 4 255 \/ text = cstr "255.255.255.255")
  | VOctets octets =>
      asn1_type = ASN1_OCTET_STRING /\
      hex_denotes (match text with [] => [] | _ => default text (TnmMibScan name text) end) octets
  | VOpaque octets => asn1_type = ASN1_OPAQUE /\ hex_denotes text octets
  | VException tag => asn1_type = tag
  end.

(** The words of a varbind; values are not sent with retrieval requests. *)
Definition varbind_encodes (session : TnmSnmp) (pdutype : Z) (words : tcl_list cstring) (vb : varbind)
    : Prop :=
  match words with
  | TclList (name :: vbv) =>
      let '(asn1_type, text) := varbind_type pdutype name vbv in
      lookup_oid name = Some vb.1 /\ asn1_type <> ASN1_OTHER /\
      if TnmSnmpGet pdutype then vb.2 = VNull
      else value_encodes session asn1_type name text vb.2
  | _ => False
  end.

Lemma appends_get_hex hex err octets tag :
  hex_denotes hex octets -> is_byte tag -> bytes octets -> Z.of_nat (length octets) < 65536 ->
  eappends (bin ← get_hex hex err; enc_do (TnmBerEncOctetString tag bin)) (tlv tag octets).
Proof.
  intros Hh Ht Hb Hl. eapply (eappends_ext (enc_do (TnmBerEncOctetString tag octets))).
  - intros s. unfold get_hex, hex_denotes in *. destruct hex as [|c hex]; [by subst|]. by rewrite Hh.
  - by apply eappends_do, appends_octets.
Qed.

(** The switch on a tag that is one of the constants. *)
Ltac tag_cases :=
  repeat (rewrite bool_decide_eq_false_2 by (vm_compute; congruence));
  repeat (rewrite bool_decide_eq_true_2 by done); cbn [orb andb negb].

Lemma Qle_inject_0 u : 0 <= u -> Qle_bool 0 (inject_Z u) = true.
Proof. intros. apply Qle_bool_iff. unfold Qle. simpl. lia. Qed.

Lemma appends_encode_value session asn1_type name text v :
  value_encodes session asn1_type name text v -> value_ok v ->
  Z.of_nat (length (value_tlv v)) < 65536 ->
  eappends (encode_value session asn1_type name text) (value_tlv v).
Proof.
  intros He Hok Hlen. unfold encode_value. destruct v; cbn [value_encodes value_ok value_tlv] in *.
  - destruct He as [-> Hi]. tag_cases.
    eapply (eappends_ext (enc_do (TnmBerEncInt ASN1_INTEGER i))).
    + intros s. unfold get_int. by rewrite Hi.
    + by apply eappends_do, appends_int.
  - destruct He as [-> Hi]. destruct Hok as [Htag Hu].
    assert (Hgo : eappends (int_val ← get_int name text; enc_do (TnmBerEncInt tag int_val))
      (tlv tag (int_octets (s32 u)))).
    { eapply (eappends_ext (enc_do (TnmBerEncInt tag (s32 u)))).
      - intros s. unfold get_int. by rewrite Hi.
      - apply eappends_do, appends_int; [|apply s32_range].
        rewrite !elem_of_cons in Htag. destruct Htag as [->|[->|[->|[]%elem_of_nil]]]; done. }
    rewrite !elem_of_cons in Htag. destruct Htag as [->|[->|[->|[]%elem_of_nil]]]; exact Hgo.
  - destruct He as (-> & Hv & Hd). tag_cases.
    rewrite bool_decide_eq_false_2 by done.
    eapply (eappends_ext (enc_do (TnmBerEncUnsigned64 (inject_Z u)))).
    + intros s. rewrite Hd. unfold tcl_lift, mbind, EncM_bind, mret, EncM_ret.
      rewrite Qle_inject_0 by lia. done.
    + by apply eappends_do, appends_u64.
  - subst asn1_type. tag_cases. by apply eappends_do, appends_null.
  - destruct He as [-> Hl]. tag_cases. rewrite Hl. by apply eappends_do, appends_oid.
  - destruct He as (-> & Ha & Hs & Hne). destruct Hok as [Hb H4]. tag_cases. rewrite Ha, Hs.
    rewrite (bool_decide_eq_false_2 (4 <> 4)%nat) by lia. rewrite orb_false_r.
    assert (bool_decide (octets = replicate 4 255) && bool_decide (text <> cstr "255.255.255.255") = false)
      as ->.
    { destruct Hne as [Hne|Ht]; [by rewrite bool_decide_eq_false_2|].
      rewrite (bool_decide_eq_false_2 (text <> _)) by auto. apply andb_false_r. }
    apply eappends_do, appends_octets; [done|done|lia].
  - destruct He as (-> & Hh). pose proof (tlv_length_body ASN1_OCTET_STRING octets). tag_cases.
    destruct text as [|c text].
    + simpl in Hh. subst octets. by apply eappends_do, appends_octets.
    + apply appends_get_hex; [done|done|done|lia].
  - destruct He as (-> & Hh). pose proof (tlv_length_body ASN1_OPAQUE octets). tag_cases.
    apply appends_get_hex; [done|done|done|lia].
  - subst asn1_type. rewrite !elem_of_cons in Hok.
    destruct Hok as [->|[->|[->|[]%elem_of_nil]]]; tag_cases;
      by apply eappends_do, appends_null.
Qed.

Lemma appends_varbind_value session pdutype name vbv oid v :
  varbind_encodes session pdutype (TclList (name :: vbv)) (oid, v) -> value_ok v ->
  Z.of_nat (length (value_tlv v)) < 65536 ->
  eappends (encode_varbind_value session pdutype name vbv) (value_tlv v).
Proof.
  unfold varbind_encodes, encode_varbind_value.
  destruct (varbind_type pdutype name vbv) as [asn1_type text]. intros (_ & Ht & He) Hok Hl.
  rewrite bool_decide_eq_false_2 by done. destruct (TnmSnmpGet pdutype).
  - cbn in He. subst v. by apply eappends_do, appends_null.
  - by apply appends_encode_value.
Qed.

Lemma varbind_encodes_oid session pdutype name vbv vb :
  varbind_encodes session pdutype (TclList (name :: vbv)) vb -> lookup_oid name = Some vb.1.
Proof. unfold varbind_encodes. destruct (varbind_type pdutype name vbv). by intros [? _]. Qed.

(** The rest of an iteration, up to the end of the varbind. *)
Definition encode_one (session : TnmSnmp) (pdutype : Z) (name : cstring) (vbv : list cstring)
    (oid : list Z) : EncM unit :=
  _ ← enc_do (TnmBerEncOID oid);
  encode_varbind_value session pdutype name vbv.

Lemma appends_encode_one session pdutype name vbv vb :
  varbind_encodes session pdutype (TclList (name :: vbv)) vb -> varbind_ok vb ->
  Z.of_nat (length (varbind_body vb)) < 65536 ->
  eappends (encode_one session pdutype name vbv vb.1) (varbind_body vb).
Proof.
  intros He [Ho Hv] Hl. destruct vb as [oid v]. cbn [fst snd] in *.
  unfold varbind_body in *. cbn [fst snd] in *. rewrite length_app in Hl.
  apply eappends_bind; [by apply eappends_do, appends_oid|].
  eapply appends_varbind_value; [done|done|lia].
Qed.

(** Where the name can be written, an iteration is a sequence around
    [encode_one], followed by the others. *)
Lemma encode_varbinds_step session pdutype name vbv vbl vb pre rest e res stats :
  varbind_encodes session pdutype (TclList (name :: vbv)) vb -> valid_oid vb.1 ->
  (length (oid_tlv vb.1) + 3 <= length rest)%nat ->
  encode_varbinds session pdutype (TclList (name :: vbv) :: vbl)
    (mkEnc (Some (st pre rest e)) res stats)
  = (_ ← (t ← enc_seq_start ASN1_SEQUENCE;
          _ ← encode_one session pdutype name vbv vb.1;
          enc_seq_end t);
     encode_varbinds session pdutype vbl) (mkEnc (Some (st pre rest e)) res stats).
Proof.
  intros He Ho Hr. cbn [encode_varbinds]. rewrite (varbind_encodes_oid _ _ _ _ _ He).
  destruct rest as [|y [|z rest]]; [simpl in Hr; lia..|]. cbn [length] in Hr.
  assert (Hs : enc_seq_start ASN1_SEQUENCE (mkEnc (Some (st pre (y :: z :: rest) e)) res stats)
    = EOk (S (length pre)) (mkEnc (Some (st ((pre ++ [u8 ASN1_SEQUENCE]) ++ [0]) rest e)) res stats)).
  { unfold enc_seq_start, ber_call, TnmBerEncSequenceStart. cbn [es_ber].
    by rewrite (enc_header_app mret ASN1_SEQUENCE pre y z rest e). }
  destruct (eappends_do _ _ (appends_oid _ Ho)) as [_ Hoid].
  destruct (Hoid ((pre ++ [u8 ASN1_SEQUENCE]) ++ [0]) rest e res stats) as [stats1 Eo];
    [unfold oid_tlv in Hr; lia|].
  unfold encode_one. unfold mbind, EncM_bind. rewrite Hs, Eo. unfold ber_is_null. cbn [es_ber].
  destruct (encode_varbind_value _ _ _ _ _) as [[] s'| |]; [|done|done].
  destruct (enc_seq_end _ s') as [[] s2| |]; done.
Qed.

Lemma appends_encode_varbinds session pdutype wordss vbs :
  Forall2 (varbind_encodes session pdutype) wordss vbs -> Forall varbind_ok vbs ->
  Z.of_nat (length (varbinds_body vbs)) < 65536 ->
  eappends (encode_varbinds session pdutype wordss) (varbinds_body vbs).
Proof.
  intros Hall. induction Hall as [|words vb wordss vbs He _ IH]; intros Hok Hl; [apply eappends_ret|].
  inversion_clear Hok as [|? ? Hvb Hok']. unfold varbinds_body in *. cbn [map concat] in *.
  rewrite length_app in Hl. pose proof (tlv_length_body ASN1_SEQUENCE (varbind_body vb)) as Hbody.
  unfold varbind_tlv in Hl at 1.
  destruct words as [msg|[|name vbv]]; [done..|].
  destruct (eappends_bind (t ← enc_seq_start ASN1_SEQUENCE;
      _ ← encode_one session pdutype name vbv vb.1; enc_seq_end t)
    (encode_varbinds session pdutype wordss) (varbind_tlv vb) (concat (map varbind_tlv vbs)))
    as [Hb Hgo].
  - apply eappends_seq; [done|lia|]. apply appends_encode_one; [done|done|lia].
  - apply IH; [done|lia].
  - split; [done|]. intros pre rest e res stats Hr.
    rewrite (encode_varbinds_step _ _ _ _ _ vb); [by apply Hgo|done|apply Hvb|].
    rewrite length_app in Hr. change (varbind_tlv vb)
      with (tlv ASN1_SEQUENCE (oid_tlv vb.1 ++ value_tlv vb.2)) in Hr.
    rewrite length_tlv, length_app in Hr. lia.
Qed.

(** ** PDUs *)

(** The statistics do not touch the stream. *)
Lemma appends_count_out status : eappends (count_out_error status) [].
Proof. unfold count_out_error. repeat case_bool_decide; auto with ber. Qed.

Lemma appends_request pdu :
  is_s32 (pdu_requestId pdu) -> is_s32 (pdu_errorStatus pdu) -> is_s32 (pdu_errorIndex pdu) ->
  eappends (encode_request pdu)
    (int_tlv (pdu_requestId pdu) ++ int_tlv (pdu_errorStatus pdu) ++ int_tlv (pdu_errorIndex pdu)).
Proof.
  intros. unfold encode_request, int_tlv.
  apply eappends_bind; [by apply eappends_do, appends_int|].
  apply eappends_bind; [by apply eappends_do, appends_int|].
  rewrite <- (app_nil_l (tlv _ (int_octets (pdu_errorIndex pdu)))).
  apply eappends_bind; [apply appends_count_out|by apply eappends_do, appends_int].
Qed.

(** The PDU types with a request header and no extra varbinds. *)
Definition plain_pdu (type : Z) : Prop :=
  type ∈ [ASN1_SNMP_GET; ASN1_SNMP_GETNEXT; ASN1_SNMP_RESPONSE; ASN1_SNMP_SET;
          ASN1_SNMP_GETBULK; ASN1_SNMP_REPORT].

#[global] Instance plain_pdu_dec type : Decision (plain_pdu type).
Proof. unfold plain_pdu. apply _. Defined.

Lemma plain_pdu_byte type : plain_pdu type -> is_byte type.
Proof.
  unfold plain_pdu. rewrite !elem_of_cons, elem_of_nil.
  intros [->|[->|[->|[->|[->|[->|[]]]]]]]; done.
Qed.

Lemma plain_pdu_not type t : plain_pdu type ->
  t ∈ [ASN1_SNMP_TRAP1; ASN1_SNMP_TRAP2; ASN1_SNMP_INFORM] -> type <> t.
Proof.
  unfold plain_pdu. rewrite !elem_of_cons, !elem_of_nil.
  intros [->|[->|[->|[->|[->|[->|[]]]]]]] [->|[->|[->|[]]]]; vm_compute; congruence.
Qed.

Lemma appends_EncodePDU session pdu wordss vbs :
  plain_pdu (pdu_type pdu) ->
  is_s32 (pdu_requestId pdu) -> is_s32 (pdu_errorStatus pdu) -> is_s32 (pdu_errorIndex pdu) ->
  pdu_varbind pdu = TclList wordss ->
  Forall2 (varbind_encodes session (pdu_type pdu)) wordss vbs -> Forall varbind_ok vbs ->
  Z.of_nat (length (request_body (pdu_requestId pdu) (pdu_errorStatus pdu) (pdu_errorIndex pdu) vbs))
    < 65536 ->
  eappends (EncodePDU session pdu)
    (pdu_tlv (pdu_type pdu) (pdu_requestId pdu) (pdu_errorStatus pdu) (pdu_errorIndex pdu) vbs).
Proof.
  intros Hp H1 H2 H3 Hvb He Hok Hl. pose proof (plain_pdu_byte _ Hp) as Hbyte.
  eapply (eappends_ext (t ← enc_seq_start (pdu_type pdu);
     _ ← (_ ← encode_request pdu;
          t2 ← enc_seq_start ASN1_SEQUENCE;
          _ ← encode_varbinds session (pdu_type pdu) wordss;
          enc_seq_end t2);
     enc_seq_end t)).
  - intros s. unfold EncodePDU. rewrite u8_id by done. rewrite Hvb.
    pose proof (plain_pdu_not _ ASN1_SNMP_TRAP1 Hp ltac:(rewrite !elem_of_cons; tauto)).
    pose proof (plain_pdu_not _ ASN1_SNMP_TRAP2 Hp ltac:(rewrite !elem_of_cons; tauto)).
    pose proof (plain_pdu_not _ ASN1_SNMP_INFORM Hp ltac:(rewrite !elem_of_cons; tauto)).
    rewrite !bool_decide_eq_false_2 by done.
    cbn [orb]. unfold mbind, EncM_bind, mret, EncM_ret.
    destruct (enc_seq_start _ s) as [t s1| |]; [|done|done].
    destruct (encode_request pdu s1) as [[] s2| |]; [|done|done].
    destruct (enc_seq_start _ s2) as [t2 s3| |]; [|done|done].
    destruct (encode_varbinds _ _ _ s3) as [[] s4| |]; [|done|done].
    by destruct (enc_seq_end t2 s4) as [[] s5| |].
  - unfold pdu_tlv, request_body in *. rewrite length_app in Hl. unfold varbinds_tlv in *.
    pose proof (tlv_length_body ASN1_SEQUENCE (varbinds_body vbs)).
    apply eappends_seq; [done|rewrite length_app; lia|].
    apply eappends_bind; [by apply appends_request|].
    apply eappends_seq; [done|lia|]. apply appends_encode_varbinds; [done|done|lia].
Qed.

(** ** Messages *)

(** The hypotheses on a PDU and the varbinds it stands for, as a whole. *)
Record pdu_encodes (session : TnmSnmp) (pdu : TnmSnmpPdu) (vbs : list varbind) : Prop := {
  pe_type : plain_pdu (pdu_type pdu);
  pe_id : is_s32 (pdu_requestId pdu);
  pe_status : is_s32 (pdu_errorStatus pdu);
  pe_index : is_s32 (pdu_errorIndex pdu);
  pe_words : exists wordss, pdu_varbind pdu = TclList wordss /\
               Forall2 (varbind_encodes session (pdu_type pdu)) wordss vbs;
  pe_ok : Forall varbind_ok vbs
}.

Definition pdu_octets (pdu : TnmSnmpPdu) (vbs : list varbind) : list Z :=
  pdu_tlv (pdu_type pdu) (pdu_requestId pdu) (pdu_errorStatus pdu) (pdu_errorIndex pdu) vbs.

Lemma appends_pdu session pdu vbs :
  pdu_encodes session pdu vbs -> Z.of_nat (length (pdu_octets pdu vbs)) < 65536 ->
  eappends (EncodePDU session pdu) (pdu_octets pdu vbs).
Proof.
  intros [? ? ? ? (wordss & ? & ?) ?] Hl. unfold pdu_octets, pdu_tlv in Hl.
  pose proof (tlv_length_body (pdu_type pdu) (request_body (pdu_requestId pdu)
    (pdu_errorStatus pdu) (pdu_errorIndex pdu) vbs)).
  eapply appends_EncodePDU; try done. lia.
Qed.

(** A community based session. *)
Definition community_session (session : TnmSnmp) : Prop :=
  (ss_version session = TNM_SNMPv1 \/ ss_version session = TNM_SNMPv2C) /\ bytes (ss_community session).

#[global] Instance community_session_dec session : Decision (community_session session).
Proof. unfold community_session. apply _. Defined.

Definition community_message (session : TnmSnmp) (pdu : TnmSnmpPdu) (vbs : list varbind) : list Z :=
  message_tlv (message_version session) (ss_community session) (pdu_octets pdu vbs).

Lemma message_version_s32 session : is_s32 (message_version session).
Proof. unfold message_version, is_s32. repeat case_bool_decide; lia. Qed.

(** The message around a PDU, whatever the PDU is. *)
Lemma EncodeMessage_octets buffer session pdu octets pre rest e res stats :
  let message := message_tlv (message_version session) (ss_community session) octets in
  community_session session -> eappends (EncodePDU session pdu) octets ->
  (length message + 1 <= length rest)%nat -> Z.of_nat (length message) < 65536 ->
  exists stats', EncodeMessage buffer session pdu (mkEnc (Some (st pre rest e)) res stats)
    = EOk TCL_OK (mkEnc (Some (st (pre ++ message) (drop (length message) rest) e)) res stats').
Proof.
  intros message [Hv Hc] Hp Hr Hl. set (version := message_version session) in *.
  assert (Hlt : bool_decide (version < 3) = true)
    by (destruct Hv as [Hv|Hv]; unfold version, message_version; rewrite Hv; done).
  assert (Hparam : message_parameter session = ss_community session)
    by (destruct Hv as [Hv|Hv]; unfold message_parameter; rewrite Hv; done).
  unfold message, message_tlv in *. set (body := message_body version (ss_community session) octets) in *.
  pose proof (tlv_length_body ASN1_SEQUENCE body) as Hbody.
  assert (Hparts : (length (ss_community session) < length body)%nat).
  { unfold body, message_body. rewrite !length_app.
    pose proof (tlv_length_body ASN1_OCTET_STRING (ss_community session)). lia. }
  set (m := (_ ← enc_do (TnmBerEncInt ASN1_INTEGER version);
             _ ← enc_do (TnmBerEncOctetString ASN1_OCTET_STRING (ss_community session));
             enc_call (EncodePDU session pdu))).
  assert (Hm : eappends m body).
  { apply eappends_bind; [apply eappends_do, appends_int; [done|apply message_version_s32]|].
    apply eappends_bind; [apply eappends_do, appends_octets; [done|done|lia]|].
    by apply eappends_call. }
  destruct (eseq_run ASN1_SEQUENCE m body pre rest e res stats) as (t & s1 & b & stats' & E1 & E2 & E3);
    [done|lia|done|done|]. exists stats'.
  unfold EncodeMessage. fold version. rewrite Hparam, Hlt. rewrite (ebind_ok _ _ _ _ _ E1).
  unfold m, mbind, EncM_bind in E2. unfold mbind, EncM_bind.
  destruct (enc_do _ s1) as [[] s2| |]; [|done|done].
  destruct (enc_do _ s2) as [[] s3| |]; [|done|done]. rewrite E2.
  unfold ber_is_null at 1. cbn [es_ber]. unfold encode_message_end, mbind, EncM_bind.
  rewrite E3. done.
Qed.

Lemma EncodeMessage_community buffer session pdu vbs pre rest e res stats :
  community_session session -> pdu_encodes session pdu vbs ->
  (length (community_message session pdu vbs) + 1 <= length rest)%nat ->
  Z.of_nat (length (community_message session pdu vbs)) < 65536 ->
  exists stats', EncodeMessage buffer session pdu (mkEnc (Some (st pre rest e)) res stats)
    = EOk TCL_OK (mkEnc (Some (st (pre ++ community_message session pdu vbs)
        (drop (length (community_message session pdu vbs)) rest) e)) res stats').
Proof.
  intros Hs Hp Hr Hl. apply EncodeMessage_octets; [done| |done|done]. apply appends_pdu; [done|].
  unfold community_message, message_tlv, message_body in Hl. rewrite length_tlv, !length_app in Hl. lia.
Qed.

(** ** SNMPv3 messages *)

Definition octets_tlv (octets : list Z) : list Z := tlv ASN1_OCTET_STRING octets.

Definition header_body (id size : Z) (flags : Z) (model : Z) : list Z :=
  int_tlv id ++ int_tlv size ++ octets_tlv [flags] ++ int_tlv model.
Definition header_tlv (id size flags model : Z) : list Z :=
  tlv ASN1_SEQUENCE (header_body id size flags model).

Definition usm_body (engineID : list Z) (boots time : Z) (user auth : list Z) : list Z :=
  octets_tlv engineID ++ int_tlv boots ++ int_tlv time ++ octets_tlv user
  ++ octets_tlv auth ++ octets_tlv [].
Definition usm_tlv (engineID : list Z) (boots time : Z) (user auth : list Z) : list Z :=
  tlv ASN1_SEQUENCE (usm_body engineID boots time user auth).

Definition scoped_body (engineID context pdu : list Z) : list Z :=
  octets_tlv engineID ++ octets_tlv context ++ pdu.
Definition scoped_tlv (engineID context pdu : list Z) : list Z :=
  tlv ASN1_SEQUENCE (scoped_body engineID context pdu).

Definition v3_body (header usm scoped : list Z) : list Z :=
  int_tlv 3 ++ header ++ octets_tlv usm ++ scoped.

(** The parts of the message of an SNMPv3 session. *)
Definition session_auth (session : TnmSnmp) : bool :=
  bool_decide (Z.land (ss_securityLevel session) TNM_SNMP_AUTH_MASK <> 0).
Definition session_timely (session : TnmSnmp) (pdu : TnmSnmpPdu) : bool :=
  bool_decide (pdu_type pdu = ASN1_SNMP_RESPONSE) || session_auth session.

Definition session_usm (session : TnmSnmp) (pdu : TnmSnmpPdu) : list Z :=
  let timely := session_timely session pdu in
  usm_tlv (ss_engineID session) (if timely then ss_engineBoots session else 0)
    (if timely then ss_engineTime session else 0) (ss_user session)
    (if session_auth session then replicate 12 0 else []).
Definition session_header (session : TnmSnmp) (pdu : TnmSnmpPdu) : list Z :=
  header_tlv (pdu_requestId pdu) TNM_SNMP_MAXSIZE (header_flags session pdu) TNM_SNMP_USM_SEC_MODEL.
Definition v3_message (session : TnmSnmp) (pdu : TnmSnmpPdu) (vbs : list varbind) : list Z :=
  tlv ASN1_SEQUENCE (v3_body (session_header session pdu) (session_usm session pdu)
    (scoped_tlv (ss_engineID session) (ss_context session) (pdu_octets pdu vbs))).

Definition v3_session (session : TnmSnmp) : Prop :=
  ss_version session = TNM_SNMPv3 /\ bytes (ss_engineID session) /\ bytes (ss_context session) /\
  bytes (ss_user session) /\ is_s32 (ss_engineBoots session) /\ is_s32 (ss_engineTime session).

#[global] Instance v3_session_dec session : Decision (v3_session session).
Proof. unfold v3_session. apply _. Defined.

Lemma header_flags_byte session pdu : is_byte (header_flags session pdu).
Proof.
  unfold header_flags, TNM_SNMP_FLAG_REPORT, TNM_SNMP_FLAG_AUTH, TNM_SNMP_FLAG_PRIV.
  destruct (_ || _), (bool_decide _), (bool_decide _); by_eval.
Qed.

Lemma appends_header session pdu :
  is_s32 (pdu_requestId pdu) -> eappends (EncodeHeader session pdu) (session_header session pdu).
Proof.
  intros Hid. unfold EncodeHeader, session_header, header_tlv, header_body, octets_tlv.
  pose proof (header_flags_byte session pdu).
  assert (Hm : eappends (_ ← enc_do (TnmBerEncInt ASN1_INTEGER (pdu_requestId pdu));
    _ ← enc_do (TnmBerEncInt ASN1_INTEGER TNM_SNMP_MAXSIZE);
    _ ← enc_do (TnmBerEncOctetString ASN1_OCTET_STRING [header_flags session pdu]);
    enc_do (TnmBerEncInt ASN1_INTEGER TNM_SNMP_USM_SEC_MODEL))
    (header_body (pdu_requestId pdu) TNM_SNMP_MAXSIZE (header_flags session pdu) TNM_SNMP_USM_SEC_MODEL)).
  { repeat apply eappends_bind; apply eappends_do; try (apply appends_int; done).
    apply appends_octets; [done|by constructor|done]. }
  eapply eappends_ext; [|apply eappends_seq; [done| |exact Hm]].
  - intros s. unfold mbind, EncM_bind. destruct (enc_seq_start _ s) as [t s1| |]; [|done|done].
    destruct (enc_do _ s1) as [[] s2| |]; [|done|done]. destruct (enc_do _ s2) as [[] s3| |]; [|done|done].
    destruct (enc_do _ s3) as [[] s4| |]; [|done|done]. by destruct (enc_do _ s4) as [[] s5| |].
  - unfold header_body, octets_tlv, int_tlv. rewrite !length_app, !length_tlv.
    unfold len_extra, int_octets. rewrite !length_be_octets.
    pose proof (int_size_bounds (pdu_requestId pdu)).
    unfold len_octets. repeat case_bool_decide; simpl; try lia; simpl in *; lia.
Qed.

Lemma appends_usm_fields session pdu :
  v3_session session -> Z.of_nat (length (session_usm session pdu)) < 65536 ->
  appends (_ ← TnmBerEncOctetString ASN1_OCTET_STRING (ss_engineID session);
    _ ← TnmBerEncInt ASN1_INTEGER (if session_timely session pdu then ss_engineBoots session else 0);
    _ ← TnmBerEncInt ASN1_INTEGER (if session_timely session pdu then ss_engineTime session else 0);
    _ ← TnmBerEncOctetString ASN1_OCTET_STRING (ss_user session);
    _ ← TnmBerEncOctetString ASN1_OCTET_STRING (if session_auth session then replicate 12 0 else []);
    TnmBerEncOctetString ASN1_OCTET_STRING [])
   (usm_body (ss_engineID session) (if session_timely session pdu then ss_engineBoots session else 0)
    (if session_timely session pdu then ss_engineTime session else 0) (ss_user session)
    (if session_auth session then replicate 12 0 else [])).
Proof.
  intros (_ & He & _ & Hu & Hb & Ht) Hl. unfold session_usm, usm_tlv, usm_body, octets_tlv in *.
  rewrite length_tlv, !length_app in Hl.
  pose proof (tlv_length_body ASN1_OCTET_STRING (ss_engineID session)).
  pose proof (tlv_length_body ASN1_OCTET_STRING (ss_user session)).
  apply appends_bind; [apply appends_octets; [done|done|lia]|].
  apply appends_bind; [apply appends_int; [done|by destruct (session_timely _ _)]|].
  apply appends_bind; [apply appends_int; [done|by destruct (session_timely _ _)]|].
  apply appends_bind; [apply appends_octets; [done|done|lia]|].
  apply appends_bind; [apply appends_octets; [done|destruct (session_auth _); by_eval|by destruct (session_auth _)]|].
  apply appends_octets; [done|constructor|done].
Qed.

Lemma ber_create_st packet len : (0 < len) -> (Z.to_nat len <= length packet)%nat ->
  TnmBerCreate packet len = st [] (take (Z.to_nat len) packet) NoError.
Proof. intros. unfold TnmBerCreate. by rewrite bool_decide_eq_true_2. Qed.

Lemma EncodeUsmSecParams_spec buffer session pdu :
  v3_session session -> length buffer = Z.to_nat TNM_SNMP_MAXSIZE ->
  (length (session_usm session pdu) < length buffer)%nat ->
  EncodeUsmSecParams buffer session pdu = inr (Some (session_usm session pdu)).
Proof.
  intros Hs Hbuf Hl. unfold TNM_SNMP_MAXSIZE in *.
  assert (Hl' : Z.of_nat (length (session_usm session pdu)) < 65536) by lia.
  pose proof (appends_usm_fields session pdu Hs Hl') as Hf.
  unfold session_usm, usm_tlv in *. set (body := usm_body _ _ _ _ _) in *.
  pose proof (tlv_length_body ASN1_SEQUENCE body) as Hb.
  apply (appends_seq ASN1_SEQUENCE) in Hf as [_ Happ]; [|done|lia].
  unfold EncodeUsmSecParams. rewrite ber_create_st by (unfold TNM_SNMP_MAXSIZE; lia).
  unfold usm_fields. fold (session_auth session) (session_timely session pdu).
  rewrite Happ by (rewrite take_ge by (unfold TNM_SNMP_MAXSIZE; lia); lia).
  unfold st. cbn [ber_current ber_buf]. by rewrite app_nil_l, take_app_length.
Qed.

Lemma appends_scoped session pdu vbs :
  v3_session session -> pdu_encodes session pdu vbs ->
  Z.of_nat (length (scoped_tlv (ss_engineID session) (ss_context session) (pdu_octets pdu vbs))) < 65536 ->
  eappends (EncodeScopedPDU session pdu)
    (scoped_tlv (ss_engineID session) (ss_context session) (pdu_octets pdu vbs)).
Proof.
  intros (_ & He & Hc & _) Hp Hl. unfold scoped_tlv in *. rewrite length_tlv in Hl.
  unfold scoped_body, octets_tlv in *. rewrite !length_app in Hl.
  pose proof (tlv_length_body ASN1_OCTET_STRING (ss_engineID session)).
  pose proof (tlv_length_body ASN1_OCTET_STRING (ss_context session)).
  unfold EncodeScopedPDU.
  eapply (eappends_ext (t ← enc_seq_start ASN1_SEQUENCE;
    _ ← (_ ← enc_do (TnmBerEncOctetString ASN1_OCTET_STRING (ss_engineID session));
         _ ← enc_do (TnmBerEncOctetString ASN1_OCTET_STRING (ss_context session));
         enc_call (EncodePDU session pdu));
    enc_seq_end t)).
  - intros s. unfold mbind, EncM_bind. destruct (enc_seq_start _ s) as [t s1| |]; [|done|done].
    destruct (enc_do _ s1) as [[] s2| |]; [|done|done]. destruct (enc_do _ s2) as [[] s3| |]; [|done|done].
    by destruct (enc_call _ s3) as [[] s4| |].
  - apply eappends_seq; [done|rewrite !length_app; lia|].
    apply eappends_bind; [apply eappends_do, appends_octets; [done|done|lia]|].
    apply eappends_bind; [apply eappends_do, appends_octets; [done|done|lia]|].
    apply eappends_call, appends_pdu; [done|lia].
Qed.

Lemma session_usm_bytes session pdu :
  v3_session session -> Z.of_nat (length (session_usm session pdu)) < 65536 ->
  bytes (session_usm session pdu).
Proof.
  intros Hs Hl. destruct (appends_usm_fields session pdu Hs Hl) as [Hb _].
  unfold session_usm, usm_tlv in *. rewrite length_tlv in Hl. apply tlv_bytes; [done|exact Hb|lia].
Qed.

(** The result the message leaves in the interpreter: an empty one is replaced
    by the text of a [NULL] stream. *)
Definition v3_result (res : tcl_result) : tcl_result :=
  match res with ResText [] => ResDangling | _ => res end.

Lemma v3_message_end t b res stats b' :
  enc_seq_end t (mkEnc (Some b) res stats) = EOk tt (mkEnc (Some b') res stats) ->
  (_ ← result_from_null; encode_message_end t) (mkEnc (Some b) res stats)
  = EOk TCL_OK (mkEnc (Some b') (v3_result res) stats).
Proof.
  intros E. unfold enc_seq_end, enc_do, ber_call in E. cbn [es_ber es_result es_stats] in E.
  assert (Hend : forall r, enc_seq_end t (mkEnc (Some b) r stats) = EOk tt (mkEnc (Some b') r stats)).
  { intros r. unfold enc_seq_end, enc_do, ber_call. cbn [es_ber es_result es_stats].
    destruct (TnmBerEncSequenceEnd t b) as [[] b2| |]; congruence. }
  unfold encode_message_end, mbind, EncM_bind, result_from_null. cbn [es_ber es_result es_stats].
  destruct res as [[|c text]|]; cbn [v3_result]; by rewrite Hend.
Qed.

Lemma EncodeMessage_v3 buffer session pdu vbs pre rest e res stats :
  v3_session session -> pdu_encodes session pdu vbs ->
  length buffer = Z.to_nat TNM_SNMP_MAXSIZE ->
  (length (v3_message session pdu vbs) < Z.to_nat TNM_SNMP_MAXSIZE)%nat ->
  (length (v3_message session pdu vbs) + 1 <= length rest)%nat ->
  exists stats', EncodeMessage buffer session pdu (mkEnc (Some (st pre rest e)) res stats)
    = EOk TCL_OK (mkEnc (Some (st (pre ++ v3_message session pdu vbs)
        (drop (length (v3_message session pdu vbs)) rest) e)) (v3_result res) stats').
Proof.
  intros Hs Hp Hbuf Hmax Hr. pose proof Hs as (Hv & _).
  assert (Hver : message_version session = 3) by (unfold message_version; by rewrite Hv).
  unfold v3_message in *. set (scoped := scoped_tlv _ _ _) in *.
  set (usm := session_usm session pdu) in *. set (header := session_header session pdu) in *.
  set (body := v3_body header usm scoped) in *.
  pose proof (tlv_length_body ASN1_SEQUENCE body) as Hbody.
  assert (Hparts : (length usm < length body /\ length scoped <= length body)%nat).
  { unfold body, v3_body, octets_tlv. rewrite !length_app.
    pose proof (tlv_length_body ASN1_OCTET_STRING usm). lia. }
  unfold TNM_SNMP_MAXSIZE in *.
  assert (Hub : bytes usm) by (apply session_usm_bytes; [done|fold usm; lia]).
  set (m := (_ ← enc_do (TnmBerEncInt ASN1_INTEGER 3);
             _ ← EncodeHeader session pdu;
             _ ← enc_do (TnmBerEncOctetString ASN1_OCTET_STRING usm);
             EncodeScopedPDU session pdu)).
  assert (Hm : eappends m body).
  { apply eappends_bind; [by apply eappends_do, appends_int|].
    apply eappends_bind; [apply appends_header, Hp|].
    apply eappends_bind; [apply eappends_do, appends_octets; [done|done|lia]|].
    apply appends_scoped; [done|done|fold scoped; lia]. }
  destruct (eseq_run ASN1_SEQUENCE m body pre rest e res stats) as (t & s1 & b & stats' & E1 & E2 & E3);
    [done|lia|done|done|]. exists stats'.
  unfold EncodeMessage. rewrite Hver. rewrite (bool_decide_eq_false_2 (3 < 3)) by lia.
  rewrite (ebind_ok _ _ _ _ _ E1).
  rewrite EncodeUsmSecParams_spec by (done || (unfold TNM_SNMP_MAXSIZE; fold usm; lia)). fold usm.
  unfold m, mbind, EncM_bind in E2. unfold mbind, EncM_bind.
  destruct (enc_do _ s1) as [[] s2| |]; [|done|done].
  destruct (EncodeHeader _ _ s2) as [[] s3| |]; [|done|done].
  destruct (enc_do _ s3) as [[] s4| |]; [|done|done]. rewrite E2.
  by apply (v3_message_end _ _ _ _ _ E3).
Qed.
End encode.
