(* ===== verification/SnmpDec.v ===== *)
(** Decoding SNMP messages: [src/tnm/snmp/tnmSnmpRecv.c].

    Decoding stops at the first failing BER procedure ([goto asn1Error]), so the
    monad is the one of the BER decoders with the statistics as additional
    state, which survives a failure. *)

From S2P Require Import Prelude Ber CStr Oid Util Snmp.
Local Open Scope Z_scope.
Local Open Scope cint_scope.

Definition DecM (A : Type) : Type := TnmSnmpStats -> TnmBer -> outcome A * TnmSnmpStats.

#[global] Instance DecM_ret : MRet DecM := fun A a s b => (Ret a b, s).
#[global] Instance DecM_bind : MBind DecM := fun A B k m s b =>
  match m s b with
  | (Ret a b', s') => k a s' b'
  | (Null b', s') => (Null b', s')
  | (Fault f, s') => (Fault f, s')
  end.

Definition dlift {A} (m : BerM A) : DecM A := fun s b => (m b, s).
Definition dec_bump (c : counter) : DecM unit := fun s b => (Ret tt b, bump c s).

(** [goto asn1Error] when [m] fails, with the counters of that label. *)
Definition on_null {A} (m : DecM A) (h : DecM unit) : DecM A := fun s b =>
  match m s b with
  | (Null b', s') => (Null b', (h s' b').2)
  | o => o
  end.

(** The result of a call that the code does not look at. *)
Definition ignore {A} (m : BerM A) : BerM unit := fun b =>
  match m b with
  | Ret _ b' | Null b' => Ret tt b'
  | Fault f => Fault f
  end.

(** [Some] of a result or [None] for [NULL], which the caller tests. *)
Definition attempt {A} (m : BerM A) : BerM (option A) := fun b =>
  match m b with
  | Ret a b' => Ret (Some a) b'
  | Null b' => Ret None b'
  | Fault f => Fault f
  end.

Definition dec_done : BerM bool := fun b => Ret (TnmBerDecDone b) b.

Section decode.
Context `{!SnmpEnv}.

(** The size of the vector of subidentifiers on the stack of [DecodePDU]. *)
Variable oidsize : nat.

(** [TnmOidToStr(oid, oidlen)] *)
Definition dec_oid_str (oid : list Z) (oidlen : nat) : BerM cstring :=
  match TnmOidToStr oid oidlen with
  | Some s => mret s
  | None => ber_fault OutOfBounds
  end.

(** ** Values *)

Definition format_or (name text : cstring) : cstring := default text (TnmMibFormat name text).

(** [switch (tag)]: the text appended for a value of the given tag. *)
Definition decode_value (oid : list Z) (vboid : cstring) (tag : Z) : BerM cstring :=
  if bool_decide (tag = ASN1_COUNTER32) || bool_decide (tag = ASN1_GAUGE32)
     || bool_decide (tag = ASN1_TIMETICKS) then
    int_val ← TnmBerDecInt tag;
    mret (sprintf_u int_val)
  else if bool_decide (tag = ASN1_INTEGER) then
    int_val ← TnmBerDecInt tag;
    mret (format_or vboid (sprintf_d int_val))
  else if bool_decide (tag = ASN1_COUNTER64) then
    u ← TnmBerDecUnsigned64;
    mret (sprintf_llu u)
  else if bool_decide (tag = ASN1_NULL) then
    _ ← TnmBerDecNull ASN1_NULL;
    mret []
  else if bool_decide (tag = ASN1_OBJECT_IDENTIFIER) then
    '(oid, oidlen) ← TnmBerDecOID oid;
    soid ← dec_oid_str oid oidlen;
    mret (format_or vboid soid)
  else if bool_decide (tag = ASN1_IPADDRESS) then
    '(_, octets) ← TnmBerDecOctetString ASN1_IPADDRESS;
    if bool_decide (length octets <> 4%nat) then ber_null
    else mret (dotted octets)
  else if bool_decide (tag = ASN1_OPAQUE) || bool_decide (tag = ASN1_OCTET_STRING) then
    '(_, octets) ← TnmBerDecOctetString tag;
    mret (if bool_decide (tag = ASN1_OCTET_STRING)
          then format_or vboid (TnmHexEnc octets) else TnmHexEnc octets)
  else
    '(_, octets) ← TnmBerDecAny;
    mret (TnmHexEnc octets).

(** What follows the name of a varbind: the type and the text of the value. *)
Definition decode_varbind_value (oid : list Z) (vboid : cstring) : BerM (list cstring) :=
  tag ← TnmBerDecPeek;
  match TnmGetTableValue tnmSnmpExceptionTable tag with
  | Some exception =>
      _ ← ignore (TnmBerDecNull tag);
      mret [exception;
            if bool_decide (TnmMibGetBaseSyntax vboid = ASN1_OCTET_STRING) then [] else cstr "0"]
  | None =>
      let syntax := default (cstr "Opaque") (TnmGetTableValue tnmSnmpTypeTable tag) in
      text ← decode_value oid vboid tag;
      mret [syntax; text]
  end.

Definition decode_varbind (oid : list Z) : BerM (list cstring) :=
  '(vbSeqToken, vbSeqLength) ← TnmBerDecSequenceStart ASN1_SEQUENCE;
  '(oid, oidlen) ← TnmBerDecOID oid;
  vboid ← dec_oid_str oid oidlen;
  rest ← decode_varbind_value oid vboid;
  _ ← TnmBerDecSequenceEnd vbSeqToken vbSeqLength;
  mret (vboid :: rest).

(** [while (!TnmBerDecDone(ber))]; every iteration reads at least one octet. *)
Fixpoint decode_varbinds (fuel : nat) (oid : list Z) (acc : list (list cstring))
    : BerM (list (list cstring)) :=
  match fuel with
  | O => ber_fault OutOfFuel
  | S fuel =>
      stop ← dec_done;
      if (stop : bool) then mret acc
      else vb ← decode_varbind oid; decode_varbinds fuel oid (acc ++ [vb])
  end.

Definition decode_varbind_list (oid : list Z) (acc : list (list cstring)) : BerM (list (list cstring)) :=
  fun b => decode_varbinds (S (ber_end b)) oid acc b.

(** ** PDUs *)

(** The trap identifier of a generic trap number. *)
Definition generic_trap (generic : Z) : option cstring :=
  if bool_decide (generic = 0) then Some (cstr "1.3.6.1.6.3.1.1.5.1")
  else if bool_decide (generic = 1) then Some (cstr "1.3.6.1.6.3.1.1.5.2")
  else if bool_decide (generic = 2) then Some (cstr "1.3.6.1.6.3.1.1.5.3")
  else if bool_decide (generic = 3) then Some (cstr "1.3.6.1.6.3.1.1.5.4")
  else if bool_decide (generic = 4) then Some (cstr "1.3.6.1.6.3.1.1.5.5")
  else if bool_decide (generic = 5) then Some (cstr "1.3.6.1.6.3.1.1.5.6")
  else None.

(** The trap identifier; that of an enterprise specific trap is built in the
    vector that holds the enterprise. *)
Definition trap_oid (oid : list Z) (oidlen : nat) (generic specific : Z) : BerM cstring :=
  match generic_trap generic with
  | Some toid => mret toid
  | None =>
      oid ← oid_store oid oidlen 0;
      oid ← oid_store oid (S oidlen) specific;
      dec_oid_str oid (S (S oidlen))
  end.

(** The fields of an SNMPv1 trap: the enterprise and the first two varbinds. *)
Definition decode_trap1 (oid : list Z) : BerM (cstring * list (list cstring)) :=
  '(oid, oidlen) ← TnmBerDecOID oid;
  soid ← dec_oid_str oid oidlen;
  let snmpTrapEnterprise := default soid (TnmMibGetName soid) in
  '(_, agent) ← TnmBerDecOctetString ASN1_IPADDRESS;
  generic ← TnmBerDecInt ASN1_INTEGER;
  specific ← TnmBerDecInt ASN1_INTEGER;
  if bool_decide (length agent <> 4%nat) then ber_null
  else
    uptime ← TnmBerDecInt ASN1_TIMETICKS;
    toid ← trap_oid oid oidlen generic specific;
    mret (snmpTrapEnterprise,
          [[cstr "1.3.6.1.2.1.1.3.0"; cstr "TimeTicks"; sprintf_u uptime];
           [cstr "1.3.6.1.6.3.1.1.4.1.0"; cstr "OBJECT IDENTIFIER";
            format_or (cstr "1.3.6.1.6.3.1.1.4.1.0") toid]]).

(** [switch (pdu->errorStatus)] *)
Definition count_in_error (status : Z) : DecM unit :=
  if bool_decide (status = TNM_SNMP_TOOBIG) then dec_bump snmpInTooBigs
  else if bool_decide (status = TNM_SNMP_NOSUCHNAME) then dec_bump snmpInNoSuchNames
  else if bool_decide (status = TNM_SNMP_BADVALUE) then dec_bump snmpInBadValues
  else if bool_decide (status = TNM_SNMP_READONLY) then dec_bump snmpInReadOnlys
  else if bool_decide (status = TNM_SNMP_GENERR) then dec_bump snmpInGenErrs
  else mret tt.

Definition decode_request : DecM (Z * Z * Z) :=
  requestId ← dlift (TnmBerDecInt ASN1_INTEGER);
  errorStatus ← dlift (TnmBerDecInt ASN1_INTEGER);
  errorIndex ← dlift (TnmBerDecInt ASN1_INTEGER);
  if bool_decide (errorStatus < TNM_SNMP_NOERROR)
     || bool_decide (TNM_SNMP_INCONSISTENTNAME < errorStatus)
  then dlift (ber_fail (Msg "unknown error status in SNMP PDU"))
  else _ ← count_in_error errorStatus; mret (requestId, errorStatus, errorIndex).

(** The PDU with its fields set. *)
Definition pdu_fields (pdu : TnmSnmpPdu) (type : Z) (req : Z * Z * Z) (vbs : list (list cstring))
    : TnmSnmpPdu :=
  let '(requestId, errorStatus, errorIndex) := req in
  mkPdu type requestId errorStatus errorIndex (pdu_trapOID pdu) (pdu_context pdu)
    (pdu_engineID pdu) (TclList (map TclList vbs)).

(** The varbind list and what follows it, for the PDU types with a request
    header ([enterprise] is [None]) and for traps. *)
Definition decode_pdu_tail (pdu : TnmSnmpPdu) (type : Z) (req : Z * Z * Z)
    (enterprise : option cstring) (acc : list (list cstring)) (pduSeq : nat * Z) (oid : list Z)
    : BerM TnmSnmpPdu :=
  start ← attempt (TnmBerDecSequenceStart ASN1_SEQUENCE);
  match start with
  | None => match enterprise with Some _ => mret (pdu_fields pdu type req acc) | None => ber_null end
  | Some (vblSeqToken, vblSeqLength) =>
      vbs ← decode_varbind_list oid acc;
      let vbs := match enterprise with
                 | Some e => vbs ++ [[cstr "1.3.6.1.6.3.1.1.4.3.0"; cstr "OBJECT IDENTIFIER"; e]]
                 | None => vbs
                 end in
      _ ← TnmBerDecSequenceEnd vblSeqToken vblSeqLength;
      _ ← TnmBerDecSequenceEnd pduSeq.1 pduSeq.2;
      mret (pdu_fields pdu type req vbs)
  end.

(** The peeked octet is not checked; without one the next call fails too. *)
Definition decode_pdu_start : DecM (Z * (nat * Z)) :=
  byte ← dlift (attempt TnmBerDecPeek);
  seq ← on_null (dlift (TnmBerDecSequenceStart (default 0 byte))) (dec_bump snmpInASNParseErrs);
  mret (default 0 byte, seq).

Definition DecodePDU (pdu : TnmSnmpPdu) : DecM TnmSnmpPdu :=
  on_null
    ('(type, pduSeq) ← decode_pdu_start;
     match TnmGetTableValue tnmSnmpPDUTable type with
     | None => dlift (ber_fail (Msg "unknown PDU tag in SNMP message"))
     | Some _ =>
         let oid := replicate oidsize 0 in
         if bool_decide (type = ASN1_SNMP_TRAP1) then
           '(enterprise, acc) ← dlift (decode_trap1 oid);
           dlift (decode_pdu_tail pdu type (0, 0, 0) (Some enterprise) acc pduSeq oid)
         else
           req ← decode_request;
           dlift (decode_pdu_tail pdu type req None [] pduSeq oid)
     end)
    (dec_bump snmpInASNParseErrs).

(** ** SNMPv3 *)

Definition DecodeHeader (msg : Message) : BerM Message :=
  '(seqToken, seqLength) ← TnmBerDecSequenceStart ASN1_SEQUENCE;
  msgID ← TnmBerDecInt ASN1_INTEGER;
  maxSize ← TnmBerDecInt ASN1_INTEGER;
  if bool_decide (maxSize < 484) then ber_null
  else
    '(_, flags) ← TnmBerDecOctetString ASN1_OCTET_STRING;
    if bool_decide (length flags <> 1%nat) then ber_null
    else
      secmodel ← TnmBerDecInt ASN1_INTEGER;
      if bool_decide (secmodel = TNM_SNMP_USM_SEC_MODEL) then
        _ ← TnmBerDecSequenceEnd seqToken seqLength;
        mret (mkMessage (msg_version msg) (msg_com msg) flags msgID maxSize (msg_user msg)
                (msg_engineID msg) (msg_engineBoots msg) (msg_engineTime msg))
      else ber_null.

Definition DecodeUsmSecParams (msg : Message) : BerM Message :=
  '(seqToken, seqLength) ← TnmBerDecSequenceStart ASN1_SEQUENCE;
  '(_, engineID) ← TnmBerDecOctetString ASN1_OCTET_STRING;
  engineBoots ← TnmBerDecInt ASN1_INTEGER;
  engineTime ← TnmBerDecInt ASN1_INTEGER;
  '(_, user) ← TnmBerDecOctetString ASN1_OCTET_STRING;
  _ ← TnmBerDecOctetString ASN1_OCTET_STRING;
  _ ← TnmBerDecOctetString ASN1_OCTET_STRING;
  _ ← TnmBerDecSequenceEnd seqToken seqLength;
  mret (mkMessage (msg_version msg) (msg_com msg) (msg_msgFlags msg) (msg_msgID msg)
          (msg_maxSize msg) user engineID engineBoots engineTime).

(** Decoding the parameters on a stream of their own: its error text is not
    seen by the caller. *)
Definition decode_usm (msg : Message) (usmParam : list Z) : BerM Message := fun b =>
  match DecodeUsmSecParams msg (TnmBerCreate usmParam (Z.of_nat (length usmParam))) with
  | Ret msg' _ => Ret msg' b
  | Null _ => Null b
  | Fault f => Fault f
  end.

Definition DecodeScopedPDU (pdu : TnmSnmpPdu) : DecM TnmSnmpPdu :=
  '(seqToken, seqLength) ← dlift (TnmBerDecSequenceStart ASN1_SEQUENCE);
  '(_, engineID) ← dlift (TnmBerDecOctetString ASN1_OCTET_STRING);
  '(_, context) ← dlift (TnmBerDecOctetString ASN1_OCTET_STRING);
  pdu ← DecodePDU (mkPdu (pdu_type pdu) (pdu_requestId pdu) (pdu_errorStatus pdu)
                    (pdu_errorIndex pdu) (pdu_trapOID pdu) context engineID (pdu_varbind pdu));
  _ ← dlift (TnmBerDecSequenceEnd seqToken seqLength);
  mret pdu.

(** ** Messages *)

Definition version_of (version : Z) : option Z :=
  if bool_decide (version = 0) then Some TNM_SNMPv1
  else if bool_decide (version = 1) then Some TNM_SNMPv2C
  else if bool_decide (version = 3) then Some TNM_SNMPv3
  else None.

(** [pdu->context = msg->com] of a community based message *)
Definition set_context (pdu : TnmSnmpPdu) (context : list Z) : TnmSnmpPdu :=
  mkPdu (pdu_type pdu) (pdu_requestId pdu) (pdu_errorStatus pdu) (pdu_errorIndex pdu)
    (pdu_trapOID pdu) context (pdu_engineID pdu) (pdu_varbind pdu).

Definition decode_message_body (version : Z) (msg : Message) (pdu : TnmSnmpPdu)
    : DecM (Message * TnmSnmpPdu) :=
  if bool_decide (version < 3) then
    '(_, com) ← dlift (TnmBerDecOctetString ASN1_OCTET_STRING);
    let msg := mkMessage (msg_version msg) com (msg_msgFlags msg) (msg_msgID msg) (msg_maxSize msg)
                 (msg_user msg) (msg_engineID msg) (msg_engineBoots msg) (msg_engineTime msg) in
    pdu ← DecodePDU pdu;
    mret (msg, set_context pdu com)
  else
    msg ← dlift (DecodeHeader msg);
    '(_, usmParam) ← dlift (TnmBerDecOctetString ASN1_OCTET_STRING);
    msg ← dlift (decode_usm msg usmParam);
    pdu ← DecodeScopedPDU pdu;
    mret (msg, pdu).

(** The fields of the message, with the part of the packet it takes still to
    be checked; a failure is [goto asn1Error]. *)
Definition decode_message (msg : Message) (pdu : TnmSnmpPdu) : DecM (Message * TnmSnmpPdu) :=
  '(msgSeqToken, msgSeqLength) ← dlift (TnmBerDecSequenceStart ASN1_SEQUENCE);
  version ← dlift (TnmBerDecInt ASN1_INTEGER);
  match version_of version with
  | None =>
      _ ← dec_bump snmpInBadVersions;
      dlift (ber_fail (Msg "unknown version in SNMP message"))
  | Some v =>
      let msg := mkMessage v (msg_com msg) (msg_msgFlags msg) (msg_msgID msg) (msg_maxSize msg)
                   (msg_user msg) (msg_engineID msg) (msg_engineBoots msg) (msg_engineTime msg) in
      r ← decode_message_body version msg pdu;
      _ ← dlift (TnmBerDecSequenceEnd msgSeqToken msgSeqLength);
      mret r
  end.

(** The standard Tcl result, with the message and the PDU or with the text left
    in the interpreter. *)
Inductive decoded :=
  | DecOk (msg : Message) (pdu : TnmSnmpPdu)
  | DecError (text : BerError)
  | DecFault (f : fault).

Definition DecodeMessage (msg : Message) (pdu : TnmSnmpPdu) (stats : TnmSnmpStats) (ber : TnmBer)
    : decoded * TnmSnmpStats :=
  match decode_message msg pdu stats ber with
  | (Ret (msg, pdu) b, stats) =>
      if TnmBerDecDone b then (DecOk msg pdu, stats)
      else (DecError (Msg "message length does not match packet size"),
            bump snmpInASNParseErrs stats)
  | (Null b, stats) => (DecError (TnmBerGetError b), bump snmpInASNParseErrs stats)
  | (Fault f, stats) => (DecFault f, stats)
  end.

(** ** Authentication *)

(** [case TNM_SNMPv3:]; without a first octet of the flags [*msg->msgFlags]
    reads a [NULL] pointer, which [DecodeHeader] excludes. *)
Definition authentic_usm (session : TnmSnmp) (msg : Message) : bool :=
  let flags := default 0 (head (msg_msgFlags msg)) in
  if bool_decide (flags .& TNM_SNMP_FLAG_AUTH = 0) && bool_decide (flags .& TNM_SNMP_FLAG_PRIV = 0)
  then bool_decide (length (ss_user session) = length (msg_user msg))
       && bool_decide (ss_user session = take (length (ss_user session)) (msg_user msg))
  else false.

Definition Authentic (session : TnmSnmp) (msg : Message) (pdu : TnmSnmpPdu) : bool :=
  if bool_decide (msg_version msg <> ss_version session) then false
  else if bool_decide (msg_version msg = TNM_SNMPv1) || bool_decide (msg_version msg = TNM_SNMPv2C) then
    if bool_decide (pdu_type pdu = ASN1_SNMP_TRAP1) || bool_decide (pdu_type pdu = ASN1_SNMP_TRAP2)
       || bool_decide (pdu_type pdu = ASN1_SNMP_INFORM)
    then true
    else bool_decide (length (ss_community session) = length (msg_com msg))
         && bool_decide (take (length (msg_com msg)) (ss_community session) = msg_com msg)
  else if bool_decide (msg_version msg = TNM_SNMPv3) then authentic_usm session msg
  else false.
End decode.
