(* ===== verification/SnmpRound.v ===== *)
(** The procedures of [SnmpDec.v] read the message format of [SnmpSpec.v]. *)

From Stdlib Require Import QArith.
From S2P Require Import Prelude Ber BerSpec BerRound CStr Oid OidTheorems Util Snmp SnmpEnc SnmpSpec SnmpDec.
Local Open Scope Z_scope.

(** ** Sequences *)

Lemma dec_seq_start_st tag n pre rest e :
  0 <= n < 65536 ->
  TnmBerDecSequenceStart tag (st pre (tag :: len_octets n ++ rest) e)
  = Ret (length (pre ++ tag :: len_octets n), n) (st (pre ++ tag :: len_octets n) rest e).
Proof.
  intros Hn. unfold TnmBerDecSequenceStart. rewrite (dec_header_consumes tag n) by done. done.
Qed.

Lemma dec_seq_start_tlv tag body pre rest e :
  Z.of_nat (length body) < 65536 ->
  TnmBerDecSequenceStart tag (st pre (tlv tag body ++ rest) e)
  = Ret (length (pre ++ tag :: len_octets (Z.of_nat (length body))), Z.of_nat (length body))
        (st (pre ++ tag :: len_octets (Z.of_nat (length body))) (body ++ rest) e).
Proof. intros. unfold tlv. cbn [app]. rewrite <- app_assoc. apply dec_seq_start_st. lia. Qed.

Lemma dec_seq_end_st p body rest e :
  TnmBerDecSequenceEnd (length p) (Z.of_nat (length body)) (st (p ++ body) rest e)
  = Ret tt (st (p ++ body) rest e).
Proof.
  unfold TnmBerDecSequenceEnd, st. cbn [ber_current]. rewrite length_app.
  rewrite bool_decide_eq_false_2 by lia. done.
Qed.

(** The octets before the body of a value, together with the body. *)
Lemma tlv_split pre tag body :
  (pre ++ tag :: len_octets (Z.of_nat (length body))) ++ body = pre ++ tlv tag body.
Proof. unfold tlv. by app_norm. Qed.

(** ** Object identifiers *)

Lemma valid_oid_u32 oid : valid_oid oid -> Forall is_u32 oid.
Proof.
  destruct oid as [|o0 [|o1 oid]]; simpl; try done. intros (? & ? & ? & ? & ? & ?).
  repeat constructor; try done; unfold is_u32; lia.
Qed.

(** The dotted notation fits the static buffer of [TnmOidToStr]. *)
Definition oid_fits (oid : list Z) : Prop := (length (dotted oid) < OID_STR_SIZE)%nat.

#[global] Instance oid_fits_dec oid : Decision (oid_fits oid).
Proof. unfold oid_fits. apply _. Defined.

Lemma dec_oid_str_app oid tail b :
  Forall is_u32 oid -> Forall is_u32 tail -> oid_fits oid ->
  dec_oid_str (oid ++ tail) (length oid) b = Ret (dotted oid) b.
Proof.
  intros H1 H2 H3. unfold dec_oid_str.
  rewrite oid_to_str_spec by (try (apply Forall_app; done); rewrite length_app; lia).
  rewrite take_app_length, decide_True by done. done.
Qed.

Section decode.
Context `{!SnmpEnv}.
Variable oidsize : nat.
Let scratch := replicate oidsize 0.

(** A vector of subidentifiers large enough for the decoder. *)
Definition oid_array (arr : list Z) : Prop :=
  (TNM_OID_MAX_SIZE <= length arr)%nat /\ Forall is_u32 arr.

Lemma oid_array_after oid arr : oid_array arr -> Forall is_u32 oid ->
  (length oid <= length arr)%nat -> oid_array (oid ++ drop (length oid) arr).
Proof.
  intros [Ha Hu] Ho Hl. split; [rewrite length_app, length_drop; lia|].
  apply Forall_app. split; [done|]. by apply Forall_drop.
Qed.

(** ** Values *)

(** The words the decoder makes of a value. *)
Definition value_words (name : cstring) (v : snmp_value) : list cstring :=
  match v with
  | VInteger i => [cstr "Integer32"; format_or name (sprintf_d i)]
  | VUnsigned tag u => [default (cstr "Opaque") (TnmGetTableValue tnmSnmpTypeTable tag); sprintf_u u]
  | VCounter64 u => [cstr "Counter64"; sprintf_llu u]
  | VNull => [cstr "NULL"; []]
  | VOid oid => [cstr "OBJECT IDENTIFIER"; format_or name (dotted oid)]
  | VIpAddress octets => [cstr "IpAddress"; dotted octets]
  | VOctets octets => [cstr "OCTET STRING"; format_or name (TnmHexEnc octets)]
  | VOpaque octets => [cstr "Opaque"; TnmHexEnc octets]
  | VException tag =>
      [default [] (TnmGetTableValue tnmSnmpExceptionTable tag);
       if bool_decide (TnmMibGetBaseSyntax name = ASN1_OCTET_STRING) then [] else cstr "0"]
  end.

Definition varbind_words (vb : varbind) : list cstring :=
  dotted vb.1 :: value_words (dotted vb.1) vb.2.

(** Printed identifiers fit their buffer. *)
Definition varbind_fits (vb : varbind) : Prop :=
  oid_fits vb.1 /\ match vb.2 with VOid oid => oid_fits oid | _ => True end.

#[global] Instance varbind_fits_dec vb : Decision (varbind_fits vb).
Proof. unfold varbind_fits. destruct vb.2; apply _. Defined.

Lemma sprintf_u_dec_int tag u :
  tag <> ASN1_INTEGER -> 0 <= u < 0xff800000 -> sprintf_u (dec_int_value tag (s32 u)) = sprintf_u u.
Proof.
  intros Ht Hu. unfold dec_int_value. rewrite bool_decide_eq_false_2 by done.
  unfold sprintf_u. assert (u32 (s32 (s32 u mod 256 ^ Z.of_nat (int_size (s32 u)))) = u32 u) as ->; [|done].
  rewrite u32_s32.
  assert (Hcase : s32 u = u /\ u < 2 ^ 31 \/ s32 u = u - 2 ^ 32 /\ 2 ^ 31 <= u).
  { unfold s32. case_bool_decide; lia. }
  unfold int_size, u32. repeat case_bool_decide; simpl; lia.
Qed.

Lemma valid_oid_length oid : valid_oid oid -> (length oid <= TNM_OID_MAX_SIZE)%nat.
Proof. destruct oid as [|o0 [|o1 oid]]; simpl; try done. by intros (? & ? & ? & ? & ? & ?). Qed.

Lemma dec_oid_tlv arr oid pre rest e :
  oid_array arr -> valid_oid oid ->
  TnmBerDecOID arr (st pre (oid_tlv oid ++ rest) e)
  = Ret (oid ++ drop (length oid) arr, length oid) (st (pre ++ oid_tlv oid) rest e).
Proof. intros [? ?] ?. by apply dec_oid_consumes. Qed.

(** The switches on a tag that is one of the constants. *)
Ltac dec_tag_cases :=
  repeat (rewrite bool_decide_eq_false_2 by (vm_compute; congruence));
  repeat (rewrite bool_decide_eq_true_2 by done); cbn [orb andb negb].

(** The branch of the decoder for a constant tag that is no exception. *)
Ltac dec_branch :=
  match goal with |- context [TnmGetTableValue tnmSnmpExceptionTable ?t] =>
    change (TnmGetTableValue tnmSnmpExceptionTable t) with (@None cstring) end;
  cbn match; unfold decode_value; dec_tag_cases.

Lemma decode_varbind_value_tlv arr name v pre rest e :
  oid_array arr -> value_ok v -> Z.of_nat (length (value_tlv v)) < 65536 ->
  match v with VOid oid => oid_fits oid | _ => True end ->
  forall tag body, value_tlv v = tlv tag body ->
  decode_varbind_value arr name (st pre (value_tlv v ++ rest) e)
  = Ret (value_words name v) (st (pre ++ value_tlv v) rest e).
Proof.
  intros Harr Hok Hl Hfit tag body Htlv. unfold decode_varbind_value.
  rewrite Htlv at 1. unfold tlv at 1. cbn [app]. ber_step dec_peek_app.
  change (tag :: (len_octets (Z.of_nat (length body)) ++ body) ++ rest) with (tlv tag body ++ rest).
  rewrite <- Htlv. revert Htlv.
  destruct v; cbn [value_tlv value_words value_ok] in *; intros Htlv;
    try (injection Htlv as <- _).
  - dec_branch.
    unfold int_tlv.
    erewrite bind_ret; [done|]. erewrite bind_ret by (by apply dec_int_consumes). done.
  - destruct Hok as [Htag Hu].
    assert (Hgo : (int_val ← TnmBerDecInt tag0; mret (sprintf_u int_val))
        (st pre (tlv tag0 (int_octets (s32 u)) ++ rest) e)
      = Ret (sprintf_u u) (st (pre ++ tlv tag0 (int_octets (s32 u))) rest e)).
    { erewrite bind_ret by (apply dec_int_consumes, s32_range). cbn beta.
      rewrite sprintf_u_dec_int; [done| |done].
      rewrite !elem_of_cons, elem_of_nil in Htag. destruct Htag as [->|[->|[->|[]]]]; vm_compute; congruence. }
    rewrite !elem_of_cons, elem_of_nil in Htag. destruct Htag as [->|[->|[->|[]]]];
      dec_branch; (erewrite bind_ret; [done|]; exact Hgo).
  - dec_branch.
    erewrite bind_ret; [done|].
    erewrite bind_ret by (by apply dec_u64_consumes). done.
  - dec_branch.
    erewrite bind_ret; [done|].
    erewrite bind_ret by (apply dec_null_consumes). done.
  - dec_branch.
    erewrite bind_ret; [done|].
    erewrite bind_ret by (by apply dec_oid_tlv). cbn beta iota.
    erewrite bind_ret; [done|]. apply dec_oid_str_app; [by apply valid_oid_u32|apply Forall_drop, Harr|done].
  - dec_branch.
    destruct Hok as [Hb H4].
    erewrite bind_ret; [done|]. erewrite bind_ret by (apply dec_octets_consumes; lia). cbn beta iota.
    rewrite bool_decide_eq_false_2 by lia. done.
  - dec_branch.
    pose proof (tlv_length_body ASN1_OCTET_STRING octets).
    erewrite bind_ret; [done|]. erewrite bind_ret by (apply dec_octets_consumes; lia). done.
  - dec_branch.
    pose proof (tlv_length_body ASN1_OPAQUE octets).
    erewrite bind_ret; [done|]. erewrite bind_ret by (apply dec_octets_consumes; lia). done.
  - rewrite !elem_of_cons, elem_of_nil in Hok.
    assert (Hn : forall t, ignore (TnmBerDecNull t) (st pre (tlv t [] ++ rest) e)
      = Ret tt (st (pre ++ tlv t []) rest e)).
    { intros t. unfold ignore. by rewrite dec_null_consumes. }
    destruct Hok as [->|[->|[->|[]]]]; cbn [TnmGetTableValue tnmSnmpExceptionTable];
      dec_tag_cases; cbn [elem_key elem_value]; dec_tag_cases; (erewrite bind_ret by apply Hn); done.
Qed.

Lemma value_tlv_tag v : exists tag body, value_tlv v = tlv tag body.
Proof. destruct v; eexists _, _; done. Qed.

Lemma dec_done_bind {A} (k : bool -> BerM A) b : (dec_done ≫= k) b = k (TnmBerDecDone b) b.
Proof. done. Qed.

Lemma ber_done_nil pre e : TnmBerDecDone (st pre [] e) = true.
Proof.
  unfold TnmBerDecDone, st, ber_end. cbn. rewrite length_app. apply bool_decide_eq_true_2. simpl. lia.
Qed.

Lemma ber_done_cons pre x rest e : TnmBerDecDone (st pre (x :: rest) e) = false.
Proof.
  unfold TnmBerDecDone, st, ber_end. cbn. rewrite length_app. apply bool_decide_eq_false_2. simpl. lia.
Qed.

(** ** PDUs *)

Lemma dlift_bind {A B} (m : BerM A) (k : A -> DecM B) s b a b' :
  m b = Ret a b' -> (dlift m ≫= k) s b = k a s b'.
Proof. unfold mbind, DecM_bind, dlift. by intros ->. Qed.

Lemma dbind_ret {A B} (m : DecM A) (k : A -> DecM B) s b a b' s' :
  m s b = (Ret a b', s') -> (m ≫= k) s b = k a s' b'.
Proof. unfold mbind, DecM_bind. by intros ->. Qed.

Lemma int_tlv_consumes v pre rest e : is_s32 v ->
  TnmBerDecInt ASN1_INTEGER (st pre (int_tlv v ++ rest) e) = Ret v (st (pre ++ int_tlv v) rest e).
Proof. intros. by apply dec_int_consumes. Qed.

(** The error status a decoder accepts. *)
Definition status_ok (status : Z) : Prop := TNM_SNMP_NOERROR <= status <= TNM_SNMP_INCONSISTENTNAME.

#[global] Instance status_ok_dec status : Decision (status_ok status).
Proof. unfold status_ok. apply _. Defined.

Lemma count_in_error_ret status s b : exists s', count_in_error status s b = (Ret tt b, s').
Proof. unfold count_in_error. repeat case_bool_decide; eexists; done. Qed.

Lemma decode_request_tlv rid status index pre rest e s :
  is_s32 rid -> status_ok status -> is_s32 index ->
  exists s', decode_request s (st pre (int_tlv rid ++ int_tlv status ++ int_tlv index ++ rest) e)
    = (Ret (rid, status, index) (st (pre ++ int_tlv rid ++ int_tlv status ++ int_tlv index) rest e), s').
Proof.
  intros Hr Hs Hi. assert (is_s32 status)
    by (unfold status_ok, TNM_SNMP_NOERROR, TNM_SNMP_INCONSISTENTNAME in Hs; unfold is_s32; lia).
  unfold decode_request.
  erewrite dlift_bind by (by apply int_tlv_consumes). erewrite dlift_bind by (by apply int_tlv_consumes).
  erewrite dlift_bind by (by apply int_tlv_consumes).
  unfold status_ok in Hs. rewrite !bool_decide_eq_false_2 by lia. cbn [orb].
  edestruct count_in_error_ret as [s' E]. exists s'. erewrite dbind_ret by exact E.
  rewrite <- !app_assoc. done.
Qed.

Lemma plain_pdu_table type : plain_pdu type ->
  exists w, TnmGetTableValue tnmSnmpPDUTable type = Some w.
Proof.
  unfold plain_pdu. rewrite !elem_of_cons, elem_of_nil.
  intros [->|[->|[->|[->|[->|[->|[]]]]]]]; eexists; reflexivity.
Qed.

Lemma decode_pdu_start_tlv type body pre e s :
  Z.of_nat (length body) < 65536 ->
  decode_pdu_start s (st pre (tlv type body) e)
  = (Ret (type, (length (pre ++ type :: len_octets (Z.of_nat (length body))), Z.of_nat (length body)))
         (st (pre ++ type :: len_octets (Z.of_nat (length body))) body e), s).
Proof.
  intros. unfold decode_pdu_start, tlv.
  erewrite dlift_bind by (unfold attempt; by rewrite dec_peek_app).
  cbn [default]. unfold on_null, dlift, mbind, DecM_bind. rewrite dec_seq_start_st by lia. done.
Qed.

Lemma octets_consumes octets pre rest e : Z.of_nat (length octets) < 65536 ->
  TnmBerDecOctetString ASN1_OCTET_STRING (st pre (octets_tlv octets ++ rest) e)
  = Ret (length (pre ++ ASN1_OCTET_STRING :: len_octets (Z.of_nat (length octets))), octets)
        (st (pre ++ octets_tlv octets) rest e).
Proof. intros. apply dec_octets_consumes. lia. Qed.

(** ** The parts of an SNMPv3 message *)

Lemma DecodeHeader_tlv msg id flags pre rest e :
  is_s32 id -> is_byte flags ->
  DecodeHeader msg (st pre (header_tlv id TNM_SNMP_MAXSIZE flags TNM_SNMP_USM_SEC_MODEL ++ rest) e)
  = Ret (mkMessage (msg_version msg) (msg_com msg) [flags] id TNM_SNMP_MAXSIZE (msg_user msg)
           (msg_engineID msg) (msg_engineBoots msg) (msg_engineTime msg))
        (st (pre ++ header_tlv id TNM_SNMP_MAXSIZE flags TNM_SNMP_USM_SEC_MODEL) rest e).
Proof.
  intros Hid Hf. unfold header_tlv, DecodeHeader.
  set (body := header_body id TNM_SNMP_MAXSIZE flags TNM_SNMP_USM_SEC_MODEL).
  assert (Hl : Z.of_nat (length body) < 65536).
  { unfold body, header_body, octets_tlv, int_tlv. rewrite !length_app, !length_tlv.
    unfold len_extra, int_octets. rewrite !length_be_octets. pose proof (int_size_bounds id).
    unfold len_octets. repeat case_bool_decide; simpl; try lia; simpl in *; lia. }
  erewrite bind_ret by (by apply dec_seq_start_tlv). cbn beta iota.
  set (p := pre ++ _). unfold body at 2, header_body. rewrite <- !app_assoc.
  erewrite bind_ret by (by apply int_tlv_consumes).
  erewrite bind_ret by (by apply int_tlv_consumes).
  rewrite bool_decide_eq_false_2 by (vm_compute; congruence).
  erewrite bind_ret by (by apply octets_consumes). cbn beta iota.
  rewrite bool_decide_eq_false_2 by (simpl; lia).
  erewrite bind_ret by (by apply int_tlv_consumes).
  rewrite bool_decide_eq_true_2 by done.
  replace (st _ rest e) with (st (p ++ body) rest e) by (unfold body, header_body; by app_norm).
  erewrite bind_ret by apply dec_seq_end_st. unfold p. by rewrite tlv_split.
Qed.

Lemma DecodeUsmSecParams_tlv msg engineID boots time user auth :
  is_s32 boots -> is_s32 time ->
  Z.of_nat (length (usm_tlv engineID boots time user auth)) < 65536 ->
  let usm := usm_tlv engineID boots time user auth in
  DecodeUsmSecParams msg (TnmBerCreate usm (Z.of_nat (length usm)))
  = Ret (mkMessage (msg_version msg) (msg_com msg) (msg_msgFlags msg) (msg_msgID msg)
           (msg_maxSize msg) user engineID boots time) (st usm [] NoError).
Proof.
  intros Hb Ht Hl usm. unfold usm. rewrite ber_create_st by (unfold usm_tlv; rewrite length_tlv; lia).
  rewrite take_ge by lia. unfold usm_tlv, DecodeUsmSecParams in *.
  set (body := usm_body engineID boots time user auth) in *.
  pose proof (tlv_length_body ASN1_SEQUENCE body) as Hlb.
  assert (Hparts : (length engineID <= length body /\ length user <= length body
                    /\ length auth <= length body)%nat).
  { unfold body, usm_body, octets_tlv. rewrite !length_app, !length_tlv. lia. }
  rewrite <- (app_nil_r (tlv _ body)) at 1.
  erewrite bind_ret by (apply dec_seq_start_tlv; lia). cbn beta iota.
  set (p := [] ++ _). unfold body at 2, usm_body. rewrite <- !app_assoc.
  erewrite bind_ret by (apply octets_consumes; lia). cbn beta iota.
  erewrite bind_ret by (by apply int_tlv_consumes). erewrite bind_ret by (by apply int_tlv_consumes).
  erewrite bind_ret by (apply octets_consumes; lia). cbn beta iota.
  erewrite bind_ret by (apply octets_consumes; lia). cbn beta iota.
  erewrite bind_ret by (by apply octets_consumes). cbn beta iota.
  replace (st _ [] NoError) with (st (p ++ body) [] NoError) by (unfold body, usm_body; by app_norm).
  erewrite bind_ret by apply dec_seq_end_st. unfold p. by rewrite tlv_split.
Qed.

Hypothesis Hsize : (TNM_OID_MAX_SIZE <= oidsize)%nat.

Lemma scratch_array : oid_array scratch.
Proof using All.
  split; [by unfold scratch; rewrite length_replicate|].
  apply Forall_replicate. unfold is_u32. lia.
Qed.

Lemma decode_varbind_tlv vb pre rest e :
  varbind_ok vb -> varbind_fits vb -> Z.of_nat (length (varbind_tlv vb)) < 65536 ->
  decode_varbind scratch (st pre (varbind_tlv vb ++ rest) e)
  = Ret (varbind_words vb) (st (pre ++ varbind_tlv vb) rest e).
Proof using All.
  destruct vb as [oid v]. intros [Ho Hv] [Hf Hfv] Hl. cbn [fst snd] in *.
  unfold varbind_tlv in *. pose proof (tlv_length_body ASN1_SEQUENCE (varbind_body (oid, v))) as Hb.
  assert (length (value_tlv v) <= length (varbind_body (oid, v)))%nat as Hvl
    by (unfold varbind_body; rewrite length_app; simpl; lia).
  unfold decode_varbind. erewrite bind_ret by (apply dec_seq_start_tlv; lia). cbn beta iota.
  unfold varbind_body at 4. cbn [fst snd]. rewrite <- app_assoc.
  pose proof (valid_oid_u32 oid Ho). pose proof scratch_array as Harr.
  erewrite bind_ret by (by apply dec_oid_tlv). cbn beta iota.
  erewrite bind_ret by (apply dec_oid_str_app; [done|apply Forall_drop, Harr|done]).
  destruct (value_tlv_tag v) as (tag & body & Htlv).
  erewrite bind_ret by (eapply decode_varbind_value_tlv;
    [apply oid_array_after; [done|done|]; pose proof (valid_oid_length oid Ho); destruct Harr; lia
    |done|lia|done|done]).
  rewrite <- !(app_assoc _ (oid_tlv oid)).
  change (oid_tlv oid ++ value_tlv v) with (varbind_body (oid, v)).
  erewrite bind_ret by apply dec_seq_end_st. by rewrite tlv_split.
Qed.

Lemma decode_varbinds_tlv vbs : forall fuel acc pre e,
  Forall varbind_ok vbs -> Forall varbind_fits vbs ->
  Z.of_nat (length (varbinds_body vbs)) < 65536 -> (length vbs < fuel)%nat ->
  decode_varbinds fuel scratch acc (st pre (varbinds_body vbs) e)
  = Ret (acc ++ map varbind_words vbs) (st (pre ++ varbinds_body vbs) [] e).
Proof using All.
  induction vbs as [|vb vbs IH]; intros fuel acc pre e Hok Hfit Hl Hf;
    (destruct fuel as [|fuel]; [lia|]); cbn [decode_varbinds].
  - unfold varbinds_body. cbn [map concat]. rewrite dec_done_bind, ber_done_nil. simpl.
    by rewrite !app_nil_r.
  - inversion_clear Hok. inversion_clear Hfit. unfold varbinds_body in *. cbn [map concat] in *.
    rewrite length_app in Hl. rewrite dec_done_bind.
    assert (TnmBerDecDone (st pre (varbind_tlv vb ++ concat (map varbind_tlv vbs)) e) = false) as ->
      by apply ber_done_cons.
    erewrite bind_ret by (apply decode_varbind_tlv; [done|done|lia]).
    rewrite IH by (done || (cbn [length] in Hf; lia)). by app_norm.
Qed.

Lemma decode_varbind_list_tlv vbs acc pre e :
  Forall varbind_ok vbs -> Forall varbind_fits vbs ->
  Z.of_nat (length (varbinds_body vbs)) < 65536 ->
  decode_varbind_list scratch acc (st pre (varbinds_body vbs) e)
  = Ret (acc ++ map varbind_words vbs) (st (pre ++ varbinds_body vbs) [] e).
Proof using All.
  intros. apply decode_varbinds_tlv; [done..|]. unfold st, ber_end. cbn. rewrite length_app.
  assert (length vbs <= length (varbinds_body vbs))%nat; [|lia].
  clear. induction vbs as [|vb vbs IH]; [simpl; lia|]. unfold varbinds_body in *.
  cbn [map concat length]. rewrite length_app. unfold varbind_tlv at 1. rewrite length_tlv. lia.
Qed.

Lemma decode_pdu_tail_tlv pdu type req vbs p body e :
  Forall varbind_ok vbs -> Forall varbind_fits vbs ->
  Z.of_nat (length (varbinds_tlv vbs)) < 65536 ->
  decode_pdu_tail pdu type req None [] (length p, Z.of_nat (length (body ++ varbinds_tlv vbs))) scratch
    (st (p ++ body) (varbinds_tlv vbs) e)
  = Ret (pdu_fields pdu type req (map varbind_words vbs))
        (st (p ++ body ++ varbinds_tlv vbs) [] e).
Proof using All.
  intros Hok Hfit Hl.
  pose proof (tlv_length_body ASN1_SEQUENCE (varbinds_body vbs)) as Hvb. fold (varbinds_tlv vbs) in Hvb.
  unfold decode_pdu_tail.
  erewrite bind_ret by (unfold attempt, varbinds_tlv; rewrite <- (app_nil_r (tlv _ (varbinds_body vbs)));
    rewrite dec_seq_start_tlv by lia; reflexivity).
  rewrite app_nil_r. cbn beta iota.
  erewrite bind_ret by (apply decode_varbind_list_tlv; [done|done|lia]). cbn [app].
  erewrite bind_ret by apply dec_seq_end_st. rewrite tlv_split. fold (varbinds_tlv vbs).
  cbn [fst snd]. rewrite <- (app_assoc p). erewrite bind_ret by apply dec_seq_end_st. done.
Qed.

(** A PDU at the end of the packet. *)
Lemma DecodePDU_tlv pdu type rid status index vbs pre e s :
  plain_pdu type -> is_s32 rid -> status_ok status -> is_s32 index ->
  Forall varbind_ok vbs -> Forall varbind_fits vbs ->
  Z.of_nat (length (pdu_tlv type rid status index vbs)) < 65536 ->
  exists s', DecodePDU oidsize pdu s (st pre (pdu_tlv type rid status index vbs) e)
    = (Ret (pdu_fields pdu type (rid, status, index) (map varbind_words vbs))
           (st (pre ++ pdu_tlv type rid status index vbs) [] e), s').
Proof using All.
  intros Ht Hr Hs Hi Hok Hfit Hl. unfold pdu_tlv in *.
  pose proof (tlv_length_body type (request_body rid status index vbs)) as Hb.
  unfold request_body in *.
  set (ints := int_tlv rid ++ int_tlv status ++ int_tlv index) in *.
  set (body := ints ++ varbinds_tlv vbs) in *.
  assert (Hvl : (length (varbinds_tlv vbs) <= length body)%nat)
    by (unfold body; rewrite length_app; lia).
  set (p := pre ++ type :: len_octets (Z.of_nat (length body))).
  destruct (decode_request_tlv rid status index p (varbinds_tlv vbs) e s Hr Hs Hi) as [s' Hreq].
  exists s'. unfold DecodePDU, on_null.
  erewrite dbind_ret by (apply decode_pdu_start_tlv; lia). cbn beta iota.
  destruct (plain_pdu_table type Ht) as [w ->].
  rewrite bool_decide_eq_false_2 by (apply plain_pdu_not; [done|rewrite !elem_of_cons; tauto]).
  fold p. replace (st p body e) with (st p (int_tlv rid ++ int_tlv status ++ int_tlv index ++ varbinds_tlv vbs) e)
    by (unfold body, ints; by app_norm).
  erewrite dbind_ret by exact Hreq. unfold dlift. fold scratch ints body.
  pose proof (decode_pdu_tail_tlv pdu type (rid, status, index) vbs p ints e Hok Hfit ltac:(lia)) as Htl.
  fold body in Htl. rewrite Htl. unfold p. by rewrite tlv_split.
Qed.

(** ** Messages *)

(** The message as it is written: a sequence with the version first and the
    PDU at its end. *)
Lemma decode_message_tlv msg pdu version v tail r s s' :
  is_s32 version -> version_of version = Some v ->
  Z.of_nat (length (int_tlv version ++ tail)) < 65536 ->
  let packet := tlv ASN1_SEQUENCE (int_tlv version ++ tail) in
  let p := ASN1_SEQUENCE :: len_octets (Z.of_nat (length (int_tlv version ++ tail))) in
  let msg0 := mkMessage v (msg_com msg) (msg_msgFlags msg) (msg_msgID msg) (msg_maxSize msg)
                (msg_user msg) (msg_engineID msg) (msg_engineBoots msg) (msg_engineTime msg) in
  decode_message_body oidsize version msg0 pdu s (st (p ++ int_tlv version) tail NoError)
    = (Ret r (st (p ++ int_tlv version ++ tail) [] NoError), s') ->
  DecodeMessage oidsize msg pdu s (TnmBerCreate packet (Z.of_nat (length packet)))
  = (DecOk r.1 r.2, s').
Proof using All.
  intros Hv Hver Hl packet p msg0 Hbody. unfold DecodeMessage, decode_message, packet.
  rewrite ber_create_st by (rewrite length_tlv; lia). rewrite take_ge by lia.
  rewrite <- (app_nil_r (tlv _ _)) at 1.
  erewrite dlift_bind by (apply dec_seq_start_tlv; done). cbn beta iota. cbn [app].
  fold p. rewrite app_nil_r.
  erewrite dlift_bind by (by apply int_tlv_consumes). rewrite Hver. fold msg0.
  erewrite dbind_ret by exact Hbody.
  erewrite dlift_bind by apply dec_seq_end_st.
  destruct r as [m q]. cbn. by rewrite ber_done_nil.
Qed.

(** What is decoded from the PDU of a message. *)
Definition decoded_pdu (pdu sent : TnmSnmpPdu) (vbs : list varbind) : TnmSnmpPdu :=
  pdu_fields pdu (pdu_type sent) (pdu_requestId sent, pdu_errorStatus sent, pdu_errorIndex sent)
    (map varbind_words vbs).

Lemma DecodePDU_octets session pdu sent vbs pre e s :
  pdu_encodes session sent vbs -> status_ok (pdu_errorStatus sent) -> Forall varbind_fits vbs ->
  Z.of_nat (length (pdu_octets sent vbs)) < 65536 ->
  exists s', DecodePDU oidsize pdu s (st pre (pdu_octets sent vbs) e)
    = (Ret (decoded_pdu pdu sent vbs) (st (pre ++ pdu_octets sent vbs) [] e), s').
Proof using All. intros [] Hs Hf Hl. by apply DecodePDU_tlv. Qed.

(** The fields of the message around a PDU at the end of the packet. *)
Lemma DecodeMessage_octets msg pdu session octets pdu' s :
  community_session session ->
  Z.of_nat (length (message_tlv (message_version session) (ss_community session) octets)) < 65536 ->
  (forall pre, exists s',
     DecodePDU oidsize pdu s (st pre octets NoError) = (Ret pdu' (st (pre ++ octets) [] NoError), s')) ->
  let packet := message_tlv (message_version session) (ss_community session) octets in
  exists s', DecodeMessage oidsize msg pdu s (TnmBerCreate packet (Z.of_nat (length packet)))
  = (DecOk (mkMessage (ss_version session) (ss_community session) (msg_msgFlags msg) (msg_msgID msg)
              (msg_maxSize msg) (msg_user msg) (msg_engineID msg) (msg_engineBoots msg)
              (msg_engineTime msg))
           (set_context pdu' (ss_community session)), s').
Proof using All.
  intros [Hv Hc] Hl Hpdu packet. unfold packet, message_tlv, message_body in *.
  pose proof (tlv_length_body ASN1_SEQUENCE (int_tlv (message_version session)
    ++ tlv ASN1_OCTET_STRING (ss_community session) ++ octets)) as Hb.
  pose proof (tlv_length_body ASN1_OCTET_STRING (ss_community session)).
  assert (Hlen : Z.of_nat (length (ss_community session)) < 65536)
    by (rewrite !length_app in Hb; lia).
  set (p := ASN1_SEQUENCE :: len_octets (Z.of_nat (length (int_tlv (message_version session)
    ++ tlv ASN1_OCTET_STRING (ss_community session) ++ octets)))).
  destruct (Hpdu ((p ++ int_tlv (message_version session)) ++ octets_tlv (ss_community session)))
    as [s' Hpdu']. exists s'.
  match goal with |- _ = (DecOk ?m ?q, _) =>
    apply (decode_message_tlv msg pdu _ (ss_version session) _ (m, q)) end;
    [apply message_version_s32| |lia|].
  { destruct Hv as [Hv|Hv]; unfold message_version; rewrite Hv; done. }
  unfold decode_message_body. rewrite bool_decide_eq_true_2
    by (destruct Hv as [Hv|Hv]; unfold message_version; rewrite Hv; by vm_compute).
  erewrite dlift_bind by (apply octets_consumes; lia). cbn beta iota zeta.
  erewrite dbind_ret by exact Hpdu'. by app_norm.
Qed.

Lemma DecodeMessage_community msg pdu session sent vbs s :
  community_session session -> pdu_encodes session sent vbs ->
  status_ok (pdu_errorStatus sent) -> Forall varbind_fits vbs ->
  Z.of_nat (length (community_message session sent vbs)) < 65536 ->
  exists s',
    DecodeMessage oidsize msg pdu s (TnmBerCreate (community_message session sent vbs)
      (Z.of_nat (length (community_message session sent vbs))))
    = (DecOk (mkMessage (ss_version session) (ss_community session) (msg_msgFlags msg) (msg_msgID msg)
                (msg_maxSize msg) (msg_user msg) (msg_engineID msg) (msg_engineBoots msg)
                (msg_engineTime msg))
             (set_context (decoded_pdu pdu sent vbs) (ss_community session)), s').
Proof using All.
  intros Hc Hp Hs Hf Hl.
  assert (Hlen : Z.of_nat (length (pdu_octets sent vbs)) < 65536).
  { unfold community_message, message_tlv, message_body in Hl. rewrite length_tlv, !length_app in Hl. lia. }
  apply DecodeMessage_octets; [done|done|]. intros pre. by eapply DecodePDU_octets.
Qed.

Lemma DecodeScopedPDU_tlv session engineID context pdu sent vbs pre e s :
  pdu_encodes session sent vbs -> status_ok (pdu_errorStatus sent) -> Forall varbind_fits vbs ->
  Z.of_nat (length (scoped_tlv engineID context (pdu_octets sent vbs))) < 65536 ->
  exists s', DecodeScopedPDU oidsize pdu s (st pre (scoped_tlv engineID context (pdu_octets sent vbs)) e)
    = (Ret (decoded_pdu (mkPdu (pdu_type pdu) (pdu_requestId pdu) (pdu_errorStatus pdu)
               (pdu_errorIndex pdu) (pdu_trapOID pdu) context engineID (pdu_varbind pdu)) sent vbs)
           (st (pre ++ scoped_tlv engineID context (pdu_octets sent vbs)) [] e), s').
Proof using All.
  intros Hp Hs Hf Hl. unfold scoped_tlv in *. set (pdu0 := mkPdu _ _ _ _ _ _ _ _).
  set (body := scoped_body engineID context (pdu_octets sent vbs)) in *.
  pose proof (tlv_length_body ASN1_SEQUENCE body) as Hlb.
  assert (Hparts : (length engineID <= length body /\ length context <= length body
                    /\ length (pdu_octets sent vbs) <= length body)%nat).
  { unfold body, scoped_body, octets_tlv. rewrite !length_app, !length_tlv. lia. }
  set (p := pre ++ ASN1_SEQUENCE :: len_octets (Z.of_nat (length body))).
  destruct (DecodePDU_octets session pdu0 sent vbs
    ((p ++ octets_tlv engineID) ++ octets_tlv context) e s Hp Hs Hf ltac:(lia)) as [s' Hpdu].
  exists s'. unfold DecodeScopedPDU.
  rewrite <- (app_nil_r (tlv _ body)) at 1.
  erewrite dlift_bind by (apply dec_seq_start_tlv; lia). cbn beta iota.
  fold p. rewrite app_nil_r. unfold body at 2, scoped_body.
  erewrite dlift_bind by (apply octets_consumes; lia). cbn beta iota.
  erewrite dlift_bind by (apply octets_consumes; lia). cbn beta iota.
  erewrite dbind_ret by exact Hpdu.
  replace (st _ [] e) with (st (p ++ body) [] e) by (unfold body, scoped_body; by app_norm).
  erewrite dlift_bind by apply dec_seq_end_st. unfold p. by rewrite tlv_split.
Qed.

Lemma DecodeMessage_v3 msg pdu session sent vbs s :
  v3_session session -> pdu_encodes session sent vbs ->
  status_ok (pdu_errorStatus sent) -> Forall varbind_fits vbs ->
  Z.of_nat (length (v3_message session sent vbs)) < 65536 ->
  let timely := session_timely session sent in
  exists s',
    DecodeMessage oidsize msg pdu s (TnmBerCreate (v3_message session sent vbs)
      (Z.of_nat (length (v3_message session sent vbs))))
    = (DecOk (mkMessage TNM_SNMPv3 (msg_com msg) [header_flags session sent] (pdu_requestId sent)
                TNM_SNMP_MAXSIZE (ss_user session) (ss_engineID session)
                (if timely then ss_engineBoots session else 0)
                (if timely then ss_engineTime session else 0))
             (decoded_pdu (mkPdu (pdu_type pdu) (pdu_requestId pdu) (pdu_errorStatus pdu)
                (pdu_errorIndex pdu) (pdu_trapOID pdu) (ss_context session) (ss_engineID session)
                (pdu_varbind pdu)) sent vbs), s').
Proof using All.
  intros (Hv & He & Hc & Hu & Hboots & Htime) Hp Hs Hf Hl timely. unfold v3_message, v3_body in *.
  set (scoped := scoped_tlv _ _ _) in *. set (usm := session_usm session sent) in *.
  set (header := session_header session sent) in *.
  pose proof (tlv_length_body ASN1_SEQUENCE (int_tlv 3 ++ header ++ octets_tlv usm ++ scoped)) as Hb.
  assert (Hparts : Z.of_nat (length usm) < 65536 /\ Z.of_nat (length scoped) < 65536).
  { rewrite !length_app in Hb. pose proof (tlv_length_body ASN1_OCTET_STRING usm) as Hu'.
    fold (octets_tlv usm) in Hu'. lia. }
  set (p := ASN1_SEQUENCE :: len_octets (Z.of_nat (length (int_tlv 3 ++ header ++ octets_tlv usm ++ scoped)))).
  destruct (DecodeScopedPDU_tlv session (ss_engineID session) (ss_context session) pdu sent vbs
    (((p ++ int_tlv 3) ++ header) ++ octets_tlv usm) NoError s Hp Hs Hf) as [s' Hscoped]; [fold scoped; lia|].
  fold scoped in Hscoped.
  exists s'. match goal with |- _ = (DecOk ?m ?q, _) =>
    apply (decode_message_tlv msg pdu 3 TNM_SNMPv3 _ (m, q)) end; [done|done|lia|].
  fold p. unfold decode_message_body. rewrite bool_decide_eq_false_2 by lia.
  unfold header, session_header.
  erewrite dlift_bind by (apply DecodeHeader_tlv; [apply Hp|apply header_flags_byte]).
  fold (session_header session sent). fold header.
  erewrite dlift_bind by (apply octets_consumes; lia). cbn beta iota.
  assert (Hint : forall z, is_s32 z -> is_s32 (if timely then z else 0)) by (by destruct timely).
  assert (Husm : forall m b, decode_usm m usm b
    = Ret (mkMessage (msg_version m) (msg_com m) (msg_msgFlags m) (msg_msgID m) (msg_maxSize m)
             (ss_user session) (ss_engineID session) (if timely then ss_engineBoots session else 0)
             (if timely then ss_engineTime session else 0)) b).
  { intros m b. unfold decode_usm, usm, session_usm. fold timely.
    rewrite DecodeUsmSecParams_tlv; [done|by apply Hint|by apply Hint|apply Hparts]. }
  erewrite dlift_bind by apply Husm.
  erewrite dbind_ret by exact Hscoped. by app_norm.
Qed.
End decode.
