(* ===== verification/SnmpTheorems.v ===== *)
(** What the SNMP message layer guarantees: a message sent by a session is read
    back by a receiver, SNMPv1 messages stay within SNMPv1, and who passes the
    authentication check. *)

From Stdlib Require Import QArith.
From S2P Require Import Prelude Ber BerSpec BerRound CStr Oid Util Snmp SnmpEnc SnmpSpec SnmpDec SnmpRound.
Local Open Scope Z_scope.

(** ** A concrete environment

    An empty MIB: names are dotted notations, values are not reformatted. *)

Fixpoint scan_dec (s : cstring) (acc : Z) : option Z :=
  match s with
  | [] => Some acc
  | c :: s' => if isdigit c then scan_dec s' (10 * acc + (c - 48)) else None
  end.

Definition get_int_dec (s : cstring) : Z + cstring :=
  match s with
  | [] => inr (cstr "expected integer")
  | _ => match scan_dec s 0 with Some z => inl (s32 z) | None => inr (cstr "expected integer") end
  end.

Definition no_mib : SnmpEnv := {|
  Tcl_GetInt := get_int_dec;
  Tcl_GetDouble s := match scan_dec s 0 with Some z => inl (inject_Z z) | None => inr [] end;
  TnmMibGetOid _ := None;
  TnmMibGetName _ := None;
  TnmMibGetBaseSyntax _ := ASN1_OTHER;
  TnmMibFindType _ := None;
  TnmMibScan _ _ := None;
  TnmMibFormat _ _ := None;
  inet_addr s := if decide (s = cstr "10.0.0.1") then [10; 0; 0; 1] else replicate 4 255;
  host_address := inl [10; 0; 0; 1];
  TnmSnmpSysUpTime := 0
|}.

Definition zero_stats : TnmSnmpStats := fun _ => 0.
Definition blank_pdu : TnmSnmpPdu := mkPdu 0 0 0 0 None [] [] (TclList []).

(** A set request for an integer, an octet string, an object identifier, an
    address and a counter. *)
Definition public_session (version : Z) : TnmSnmp :=
  mkSession version (cstr "public") [1; 3; 6; 1; 4; 1; 1575] (cstr "ctx") (cstr "initial")
    [1; 2; 3; 4; 5] 7 9 0.
Definition set_pdu : TnmSnmpPdu :=
  mkPdu ASN1_SNMP_SET 4711 0 0 None [] []
    (TclList [TclList [cstr "1.3.6.1.2.1.1.7.0"; cstr "INTEGER"; cstr "72"];
              TclList [cstr "1.3.6.1.2.1.1.5.0"; cstr "OCTET STRING"; cstr "61:62"];
              TclList [cstr "1.3.6.1.2.1.1.2.0"; cstr "OBJECT IDENTIFIER"; cstr "1.3.6.1.4.1"];
              TclList [cstr "1.3.6.1.2.1.4.20.1.1"; cstr "IpAddress"; cstr "10.0.0.1"];
              TclList [cstr "1.3.6.1.2.1.2.2.1.10.1"; cstr "Counter32"; cstr "3000000000"]]).
Definition set_varbinds : list varbind :=
  [([1; 3; 6; 1; 2; 1; 1; 7; 0], VInteger 72);
   ([1; 3; 6; 1; 2; 1; 1; 5; 0], VOctets [0x61; 0x62]);
   ([1; 3; 6; 1; 2; 1; 1; 2; 0], VOid [1; 3; 6; 1; 4; 1]);
   ([1; 3; 6; 1; 2; 1; 4; 20; 1; 1], VIpAddress [10; 0; 0; 1]);
   ([1; 3; 6; 1; 2; 1; 2; 2; 1; 10; 1], VUnsigned ASN1_COUNTER32 3000000000)].

Lemma set_pdu_encodes version :
  pdu_encodes (H := no_mib) (public_session version) set_pdu set_varbinds.
Proof.
  split; [by_eval|by_eval|by_eval|by_eval| |by_eval].
  eexists. split; [reflexivity|].
  repeat constructor; try by_eval; try (vm_compute; congruence).
Qed.

(** ** Round trip of messages *)

Section roundtrip.
Context `{!SnmpEnv}.

(** The packet of [TnmSnmpEncode], once [EncodeMessage] has written [octets] to
    the fresh stream. *)
Lemma encode_packet_of buffer session pdu result result' stats stats1 octets :
  let ber := st [] (replicate (Z.to_nat TNM_SNMP_MAXSIZE) 0) NoError in
  EncodeMessage buffer session (v1_pdu session pdu) (mkEnc (Some ber) result stats)
  = EOk TCL_OK (mkEnc (Some (st octets
      (drop (length octets) (replicate (Z.to_nat TNM_SNMP_MAXSIZE) 0)) NoError)) result' stats1) ->
  exists s, TnmSnmpEncode_packet buffer session pdu result stats
    = EOk (v1_pdu session pdu, Some octets) s /\ es_result s = result'.
Proof.
  intros ber E. unfold TnmSnmpEncode_packet.
  rewrite ber_create_st by (rewrite ?length_replicate; unfold TNM_SNMP_MAXSIZE; lia).
  rewrite take_ge by (rewrite length_replicate; lia). fold ber.
  rewrite (ebind_ok _ _ _ _ _ E). unfold encoded_packet, mbind, EncM_bind. cbn [es_ber].
  unfold st. cbn [ber_current ber_buf]. rewrite take_app_length.
  unfold count_out_pdu. repeat case_bool_decide; eexists; done.
Qed.

(** What a receiver makes of a community based message. *)
Definition received_message (session : TnmSnmp) (msg : Message) : Message :=
  mkMessage (ss_version session) (ss_community session) (msg_msgFlags msg) (msg_msgID msg)
    (msg_maxSize msg) (msg_user msg) (msg_engineID msg) (msg_engineBoots msg) (msg_engineTime msg).

(** What a receiver makes of an SNMPv3 message. *)
Definition received_message3 (session : TnmSnmp) (pdu : TnmSnmpPdu) (msg : Message) : Message :=
  let timely := session_timely session pdu in
  mkMessage TNM_SNMPv3 (msg_com msg) [header_flags session pdu] (pdu_requestId pdu)
    TNM_SNMP_MAXSIZE (ss_user session) (ss_engineID session)
    (if timely then ss_engineBoots session else 0) (if timely then ss_engineTime session else 0).

Lemma authentic_community session msg pdu :
  ss_version session = TNM_SNMPv1 \/ ss_version session = TNM_SNMPv2C ->
  Authentic session (received_message session msg) pdu = true.
Proof.
  intros Hv. unfold Authentic, received_message. cbn [msg_version msg_com].
  rewrite bool_decide_eq_false_2 by congruence.
  assert (bool_decide (ss_version session = TNM_SNMPv1) || bool_decide (ss_version session = TNM_SNMPv2C)
          = true) as -> by (destruct Hv as [->| ->]; done).
  destruct (_ || _ || _); [done|]. rewrite bool_decide_eq_true_2 by done.
  rewrite take_ge by done. by rewrite bool_decide_eq_true_2.
Qed.

(** C2: A message of an SNMPv1 or SNMPv2c session survives the network.  For
    every PDU that is no trap and no inform, after the mapping to SNMPv1 and
    with varbinds in the ranges of their types, [TnmSnmpEncode] writes the
    message of the standard into its buffer, and [DecodeMessage] on exactly that
    packet returns the version, the community, the type, the request id, the
    error status and index and, in their order, the name, type and value of every
    varbind; the message passes the community check of the session it came from. *)
Theorem snmp_community_roundtrip buffer session pdu vbs result stats :
  let sent := v1_pdu session pdu in
  let packet := community_message session sent vbs in
  community_session session -> pdu_encodes session sent vbs ->
  status_ok (pdu_errorStatus sent) -> Forall varbind_fits vbs ->
  Z.of_nat (length packet) < TNM_SNMP_MAXSIZE ->
  (exists s, TnmSnmpEncode_packet buffer session pdu result stats = EOk (sent, Some packet) s /\
             es_result s = result) /\
  forall msg recv stats, let msg' := received_message session msg in
    let recv' := set_context (decoded_pdu recv sent vbs) (ss_community session) in
    exists stats', DecodeMessage TNM_OID_MAX_SIZE msg recv stats
        (TnmBerCreate packet (Z.of_nat (length packet))) = (DecOk msg' recv', stats') /\
      Authentic session msg' recv' = true.
Proof.
  intros sent packet Hs Hp Hst Hf Hl. unfold TNM_SNMP_MAXSIZE in Hl. split.
  - destruct (EncodeMessage_community buffer session sent vbs []
      (replicate (Z.to_nat TNM_SNMP_MAXSIZE) 0) NoError result stats Hs Hp) as [stats' E];
      [rewrite length_replicate; unfold packet, TNM_SNMP_MAXSIZE in *; lia|unfold packet in Hl; lia|].
    eapply encode_packet_of. exact E.
  - intros msg recv stats0 msg' recv'.
    destruct (DecodeMessage_community TNM_OID_MAX_SIZE ltac:(lia) msg recv session sent vbs stats0
      Hs Hp Hst Hf) as [stats' E]; [unfold packet in Hl; lia|].
    exists stats'. split; [exact E|]. apply authentic_community, Hs.
Qed.

Lemma authentic_v3 session pdu msg recv :
  ss_version session = TNM_SNMPv3 ->
  Authentic session (received_message3 session pdu msg) recv
  = bool_decide (Z.land (ss_securityLevel session) TNM_SNMP_AUTH_MASK = 0)
    && bool_decide (Z.land (ss_securityLevel session) TNM_SNMP_PRIV_MASK = 0).
Proof.
  intros Hv. unfold Authentic, authentic_usm, received_message3. cbn [msg_version msg_msgFlags msg_user].
  rewrite Hv. rewrite bool_decide_eq_false_2 by (intros []; done).
  rewrite (bool_decide_eq_false_2 (TNM_SNMPv3 = TNM_SNMPv1)) by done.
  rewrite (bool_decide_eq_false_2 (TNM_SNMPv3 = TNM_SNMPv2C)) by done.
  cbn [orb]. rewrite (bool_decide_eq_true_2 (TNM_SNMPv3 = TNM_SNMPv3)) by done.
  cbn [head default]. rewrite take_ge by done.
  rewrite (bool_decide_eq_true_2 (length (ss_user session) = length (ss_user session))) by done.
  rewrite (bool_decide_eq_true_2 (ss_user session = ss_user session)) by done.
  unfold header_flags. destruct (_ || _); repeat case_bool_decide; done || (vm_compute; done) || tauto.
Qed.

(** C3: A message of an SNMPv3 session survives the network.  [TnmSnmpEncode]
    writes the header, the security parameters and the scoped PDU into its
    buffer; [DecodeMessage] on that packet returns the message id, the flags, the
    user, the engine with its boots and time (zero in a request without
    authentication), the context and the PDU with all its varbinds.  The packet
    passes [Authentic] exactly when the session has neither authentication nor
    privacy.  An empty result of the interpreter is replaced on the way: it holds
    [TnmBerGetError(NULL)] although the message was encoded. *)
Theorem snmp_v3_roundtrip buffer session pdu vbs result stats :
  let sent := v1_pdu session pdu in
  let packet := v3_message session sent vbs in
  v3_session session -> pdu_encodes session sent vbs ->
  status_ok (pdu_errorStatus sent) -> Forall varbind_fits vbs ->
  length buffer = Z.to_nat TNM_SNMP_MAXSIZE -> Z.of_nat (length packet) < TNM_SNMP_MAXSIZE ->
  (exists s, TnmSnmpEncode_packet buffer session pdu result stats = EOk (sent, Some packet) s /\
             es_result s = v3_result result) /\
  forall msg recv stats, let msg' := received_message3 session sent msg in
    let recv' := decoded_pdu (mkPdu (pdu_type recv) (pdu_requestId recv) (pdu_errorStatus recv)
                   (pdu_errorIndex recv) (pdu_trapOID recv) (ss_context session)
                   (ss_engineID session) (pdu_varbind recv)) sent vbs in
    exists stats', DecodeMessage TNM_OID_MAX_SIZE msg recv stats
        (TnmBerCreate packet (Z.of_nat (length packet))) = (DecOk msg' recv', stats') /\
      Authentic session msg' recv'
      = bool_decide (Z.land (ss_securityLevel session) TNM_SNMP_AUTH_MASK = 0)
        && bool_decide (Z.land (ss_securityLevel session) TNM_SNMP_PRIV_MASK = 0).
Proof.
  intros sent packet Hs Hp Hst Hf Hbuf Hl. unfold packet in Hl. split.
  - destruct (EncodeMessage_v3 buffer session sent vbs []
      (replicate (Z.to_nat TNM_SNMP_MAXSIZE) 0) NoError result stats Hs Hp Hbuf) as [stats' E];
      [lia|rewrite length_replicate; lia|].
    eapply encode_packet_of. exact E.
  - intros msg recv stats0 msg' recv'.
    destruct (DecodeMessage_v3 TNM_OID_MAX_SIZE ltac:(lia) msg recv session sent vbs stats0
      Hs Hp Hst Hf) as [stats' E]; [unfold TNM_SNMP_MAXSIZE in Hl; lia|].
    exists stats'. split; [exact E|]. apply authentic_v3, Hs.
Qed.
End roundtrip.

Lemma snmp_community_roundtrip_witness :
  let e := no_mib in let s := public_session TNM_SNMPv1 in
  let packet := community_message s set_pdu set_varbinds in
  (exists st, TnmSnmpEncode_packet [] s set_pdu (ResText []) zero_stats
     = EOk (set_pdu, Some packet) st /\ es_result st = ResText []) /\
  Z.of_nat (length packet) = 116.
Proof.
  intros e s packet. split; [|by vm_compute].
  apply (snmp_community_roundtrip (H := e) [] s set_pdu set_varbinds);
    [by_eval|apply set_pdu_encodes|by_eval|by_eval|by_eval].
Defined.

Lemma snmp_v3_roundtrip_witness :
  let e := no_mib in let s := public_session TNM_SNMPv3 in
  let packet := v3_message s set_pdu set_varbinds in
  exists st, TnmSnmpEncode_packet (replicate (Z.to_nat TNM_SNMP_MAXSIZE) 0) s set_pdu (ResText []) zero_stats
     = EOk (set_pdu, Some packet) st /\ es_result st = ResDangling.
Proof.
  intros e s packet.
  apply (snmp_v3_roundtrip (H := e) (replicate (Z.to_nat TNM_SNMP_MAXSIZE) 0) s set_pdu set_varbinds (ResText []) zero_stats);
    [by_eval|apply set_pdu_encodes|by_eval|by_eval|apply length_replicate|by_eval].
Defined.

(** ** SNMPv1 *)

(** The PDUs of RFC 1157. *)
Definition v1_types : list Z :=
  [ASN1_SNMP_GET; ASN1_SNMP_GETNEXT; ASN1_SNMP_RESPONSE; ASN1_SNMP_SET; ASN1_SNMP_TRAP1].

Lemma v1_error_range status : TNM_SNMP_NOERROR <= v1_error status <= TNM_SNMP_GENERR.
Proof. unfold v1_error. repeat case_bool_decide; by_eval. Qed.

(** The types that are mapped, and what the others are. *)
Lemma pdu_table_types type : is_Some (TnmGetTableValue tnmSnmpPDUTable type) ->
  type ∈ v1_types ++ [ASN1_SNMP_GETBULK; ASN1_SNMP_INFORM; ASN1_SNMP_TRAP2; ASN1_SNMP_REPORT].
Proof.
  cbn [TnmGetTableValue tnmSnmpPDUTable elem_key elem_value v1_types app].
  rewrite !elem_of_cons. repeat case_bool_decide; intros [? ?]; first [done|subst; tauto].
Qed.

(** What an SNMPv1 session sends is SNMPv1: the PDU types of SNMPv2 are
    mapped to those of RFC 1157 (a report is not) and the error status is one of
    noError(0) to genErr(5); the request id and the varbinds are untouched, the
    mapping changes nothing when applied again, and PDUs of other sessions and
    PDUs that already are SNMPv1 are sent as they are. *)
Theorem snmp_v1_mapping session pdu :
  let sent := v1_pdu session pdu in
  (ss_version session = TNM_SNMPv1 -> pdu_type pdu <> ASN1_SNMP_REPORT ->
   is_Some (TnmGetTableValue tnmSnmpPDUTable (pdu_type pdu)) -> status_ok (pdu_errorStatus pdu) ->
   pdu_type sent ∈ v1_types /\ TNM_SNMP_NOERROR <= pdu_errorStatus sent <= TNM_SNMP_GENERR) /\
  pdu_requestId sent = pdu_requestId pdu /\ pdu_varbind sent = pdu_varbind pdu /\
  v1_pdu session sent = sent /\
  (ss_version session <> TNM_SNMPv1 \/
   (pdu_type pdu ∈ v1_types /\ pdu_errorStatus pdu <= TNM_SNMP_GENERR) -> sent = pdu).
Proof.
  intros sent. unfold sent, v1_pdu.
  destruct (decide (ss_version session = TNM_SNMPv1)) as [Hv|Hv];
    [rewrite !(bool_decide_eq_true_2 (ss_version session = TNM_SNMPv1)) by done
    |rewrite !(bool_decide_eq_false_2 (ss_version session = TNM_SNMPv1)) by done; tauto].
  destruct pdu as [type rid status index trap ctx eng vbs]. cbn.
  split; [|split; [done|split; [done|split]]].
  - intros _ Hr Ht%pdu_table_types Hs. split.
    + cbn in *. unfold v1_types in *. cbn [app] in *.
      rewrite !elem_of_cons in *. repeat case_bool_decide; try done; tauto.
    + pose proof (v1_error_range status). unfold status_ok in *. repeat case_bool_decide; lia.
  - assert (Hle : forall st, bool_decide (TNM_SNMP_GENERR <
      (if bool_decide (TNM_SNMP_GENERR < st) then v1_error st else st)) = false).
    { intros st. apply bool_decide_eq_false_2. pose proof (v1_error_range st). case_bool_decide; lia. }
    destruct (decide (type = ASN1_SNMP_GETBULK)) as [->|Hb]; [done|].
    rewrite !(bool_decide_eq_false_2 (type = ASN1_SNMP_GETBULK)) by done.
    destruct (bool_decide (type = ASN1_SNMP_INFORM) || bool_decide (type = ASN1_SNMP_TRAP2)) eqn:Hn.
    + rewrite !(bool_decide_eq_false_2 (ASN1_SNMP_TRAP1 = _)) by done. cbn [orb]. by rewrite Hle.
    + rewrite !(bool_decide_eq_false_2 (type = ASN1_SNMP_GETBULK)) by done. by rewrite Hn, Hle.
  - intros [?|[Ht Hs]]; [done|]. unfold v1_types in Ht. rewrite !elem_of_cons, elem_of_nil in Ht.
    rewrite (bool_decide_eq_false_2 (TNM_SNMP_GENERR < _)) 
      by (case_bool_decide; unfold TNM_SNMP_GENERR, TNM_SNMP_NOERROR in *; lia).
    destruct Ht as [->|[->|[->|[->|[->|[]]]]]]; done.
Qed.

Lemma snmp_v1_mapping_witness :
  let pdu := mkPdu ASN1_SNMP_GETBULK 1 0 10 None [] [] (TclList []) in
  pdu_type (v1_pdu (public_session TNM_SNMPv1) pdu) ∈ v1_types /\
  pdu_errorIndex (v1_pdu (public_session TNM_SNMPv1) pdu) = 0.
Proof.
  intros pdu. split; [|done].
  apply (snmp_v1_mapping (public_session TNM_SNMPv1) pdu); [done|by vm_compute|by eexists|by_eval].
Defined.

(** ** Authentication *)

(** C36: Who passes [Authentic].  The version has to be that of the session; then
    a community based message is accepted exactly when it is a notification
    (whatever its community is) or carries the community of the session, and an
    SNMPv3 message exactly when it asks for no security at all and carries the
    user of the session: no message with authentication or privacy is ever
    accepted. *)
Theorem snmp_authentic session msg pdu :
  Authentic session msg pdu = true <->
  msg_version msg = ss_version session /\
  (((msg_version msg = TNM_SNMPv1 \/ msg_version msg = TNM_SNMPv2C) /\
    (pdu_type pdu ∈ [ASN1_SNMP_TRAP1; ASN1_SNMP_TRAP2; ASN1_SNMP_INFORM] \/
     msg_com msg = ss_community session)) \/
   (msg_version msg = TNM_SNMPv3 /\
    Z.testbit (default 0 (head (msg_msgFlags msg))) 0 = false /\
    Z.testbit (default 0 (head (msg_msgFlags msg))) 1 = false /\
    msg_user msg = ss_user session)).
Proof.
  unfold Authentic, authentic_usm. rewrite !elem_of_cons, elem_of_nil.
  destruct (decide (msg_version msg = ss_version session)) as [Hv|Hv];
    [rewrite bool_decide_eq_false_2 by tauto|rewrite bool_decide_eq_true_2 by done; split; [done|tauto]].
  rewrite <- !land_pow2_zero by lia. change (2 ^ 0) with TNM_SNMP_FLAG_AUTH. change (2 ^ 1) with TNM_SNMP_FLAG_PRIV.
  destruct (bool_decide (msg_version msg = TNM_SNMPv1) || bool_decide (msg_version msg = TNM_SNMPv2C)) eqn:Hc.
  - apply orb_true_iff in Hc. rewrite !bool_decide_eq_true in Hc.
    assert (msg_version msg <> TNM_SNMPv3) by (destruct Hc as [->| ->]; done).
    destruct (_ || _ || _) eqn:Ht.
    + rewrite !orb_true_iff, !bool_decide_eq_true in Ht. tauto.
    + rewrite !orb_false_iff, !bool_decide_eq_false in Ht.
      rewrite andb_true_iff, !bool_decide_eq_true.
      split; [intros [Hl Heq]; rewrite take_ge in Heq by lia; symmetry in Heq; tauto|].
      intros (_ & [(_ & [?|Heq])|[? _]]); [tauto| |done]. rewrite Heq. by rewrite take_ge.
  - rewrite orb_false_iff, !bool_decide_eq_false in Hc.
    case_bool_decide as H3; [|split; [done|tauto]].
    destruct (_ && _) eqn:Hf; 
      rewrite ?andb_true_iff, ?andb_false_iff, ?bool_decide_eq_true, ?bool_decide_eq_false in Hf.
    + rewrite andb_true_iff, !bool_decide_eq_true.
      split; [intros [Hl Heq]; rewrite take_ge in Heq by lia; symmetry in Heq; tauto|].
      intros (_ & [(? & _)|(_ & _ & _ & Heq)]); [tauto|]. rewrite Heq. by rewrite take_ge.
    + split; [done|]. intros (_ & [(? & _)|(_ & ? & ? & _)]); tauto.
Qed.

(** A concrete failure of the encoder: the error text is missing. *)

(** The empty object name is not rejected by [TnmStrToOid]; the BER encoder
    then fails and [EncodeMessage] reports the error with the text of a stream
    that is [NULL]: the result of the interpreter is a pointer that was computed
    from a null pointer. *)
Theorem snmp_encode_error_text :
  let pdu := mkPdu ASN1_SNMP_GET 1 0 0 None [] [] (TclList [TclList [cstr ""]]) in
  match TnmSnmpEncode_packet (H := no_mib) [] (public_session TNM_SNMPv2C) pdu (ResText []) zero_stats with
  | EOk (_, packet) s => packet = None /\ es_ber s = None /\ es_result s = ResDangling
  | _ => False
  end.
Proof. vm_compute. done. Qed.
