(* ===== verification/SnmpTrap.v ===== *)
(** SNMPv1 traps: [EncodePDU] turns the identifier of a notification into the
    generic and specific numbers of RFC 1157 and [DecodePDU] turns them back. *)

From Stdlib Require Import QArith.
From S2P Require Import Prelude Ber BerSpec BerRound CStr Oid OidTheorems Util Snmp SnmpEnc SnmpSpec SnmpDec SnmpRound SnmpTheorems.
Local Open Scope Z_scope.

(** ** The format *)

Definition trap_fields (ent addr : list Z) (generic specific uptime : Z) : list Z :=
  oid_tlv ent ++ tlv ASN1_IPADDRESS addr ++ int_tlv generic ++ int_tlv specific
  ++ tlv ASN1_TIMETICKS (int_octets (s32 uptime)).
Definition trap_tlv (ent addr : list Z) (generic specific uptime : Z) (vbs : list varbind) : list Z :=
  tlv ASN1_SNMP_TRAP1 (trap_fields ent addr generic specific uptime ++ varbinds_tlv vbs).

(** How an identifier is split by a sender with the enterprise [own], and what
    a receiver makes of it: the standard traps in their two notations, and the
    others.  An enterprise specific identifier loses its last component but
    one. *)
Inductive trap_split (own oid : list Z) : Z -> Z -> list Z -> list Z -> Prop :=
  | split_standard k : oid = [1; 3; 6; 1; 6; 3; 1; 1; 5; k] -> 1 <= k <= 6 ->
      trap_split own oid (k - 1) 0 own oid
  | split_rfc1215 k : oid = [1; 3; 6; 1; 2; 1; 11; 0; k] -> 0 <= k <= 5 ->
      trap_split own oid k 0 own [1; 3; 6; 1; 6; 3; 1; 1; 5; k + 1]
  | split_specific ent x k : oid = ent ++ [x; k] ->
      take 17 (dotted oid) <> cstr "1.3.6.1.6.3.1.1.5" -> take 16 (dotted oid) <> cstr "1.3.6.1.2.1.11.0" ->
      trap_split own oid 6 (s32 k) ent (ent ++ [0; k]).

Section trap.
Context `{!SnmpEnv}.

(** The trap a PDU stands for. *)
Record trap_encodes (session : TnmSnmp) (pdu : TnmSnmpPdu) (oid ent addr back : list Z)
    (generic specific : Z) (vbs : list varbind) : Prop := {
  te_type : pdu_type pdu = ASN1_SNMP_TRAP1;
  te_oid : pdu_trapOID pdu = Some (dotted oid);
  te_value : oid_value oid /\ (4 <= length oid)%nat;
  te_split : trap_split (ss_enterpriseOid session) oid generic specific ent back;
  te_enterprise : valid_oid ent /\ (length ent + 2 <= TNM_OID_MAX_SIZE)%nat;
  te_address : host_address = inl addr /\ bytes addr /\ length addr = 4%nat;
  te_uptime : 0 <= TnmSnmpSysUpTime < 2 ^ 31;
  te_words : exists wordss, pdu_varbind pdu = TclList wordss /\
               Forall2 (varbind_encodes session (pdu_type pdu)) wordss vbs;
  te_ok : Forall varbind_ok vbs
}.

(** ** Encoding *)

Lemma trap_split_s32 own oid generic specific ent back :
  trap_split own oid generic specific ent back -> is_s32 generic /\ is_s32 specific.
Proof. intros [k _ ?|k _ ?|e x k _ _ _]; split; try apply s32_range; unfold is_s32; lia. Qed.

Lemma last_app_two (l : list Z) x k r :
  (l ++ [x; k] ++ r) !!! (length (l ++ [x; k]) - 1)%nat = k.
Proof.
  rewrite length_app. cbn [length]. rewrite lookup_total_app_r by lia.
  replace (length l + 2 - 1 - length l)%nat with 1%nat by lia. done.
Qed.

Lemma appends_trap1 session pdu oid ent addr back generic specific vbs :
  trap_encodes session pdu oid ent addr back generic specific vbs ->
  eappends (encode_trap1 session pdu) (trap_fields ent addr generic specific TnmSnmpSysUpTime).
Proof.
  intros [_ Hoid [Hval Hlen] Hsplit [Hent _] (Haddr & Hbytes & H4) Hup _ _].
  pose proof (trap_split_s32 _ _ _ _ _ _ Hsplit) as [Hg Hsp].
  unfold encode_trap1. rewrite Hoid, (str_to_oid_spec oid Hval).
  rewrite bool_decide_eq_false_2 by lia.
  set (full := oid ++ replicate (TNM_OID_MAX_SIZE - length oid) 0).
  assert (Hcase : (if bool_decide (take 17 (dotted oid) = cstr "1.3.6.1.6.3.1.1.5")
     then (s32 (full !!! (length oid - 1)%nat - 1), 0, ss_enterpriseOid session)
     else if bool_decide (take 16 (dotted oid) = cstr "1.3.6.1.2.1.11.0")
     then (s32 (full !!! (length oid - 1)%nat), 0, ss_enterpriseOid session)
     else (6, s32 (full !!! (length oid - 1)%nat), take (length oid - 2) full)) = (generic, specific, ent)).
  { destruct Hsplit as [k -> Hk|k -> Hk|e x k Eq H17 H16].
    - assert (k = 1 \/ k = 2 \/ k = 3 \/ k = 4 \/ k = 5 \/ k = 6) as Hks by lia.
      destruct Hks as [->|[->|[->|[->|[->| ->]]]]]; vm_compute; reflexivity.
    - assert (k = 0 \/ k = 1 \/ k = 2 \/ k = 3 \/ k = 4 \/ k = 5) as Hks by lia.
      destruct Hks as [->|[->|[->|[->|[->| ->]]]]]; vm_compute; reflexivity.
    - rewrite !bool_decide_eq_false_2 by done. unfold full. rewrite Eq, <- app_assoc, last_app_two.
      rewrite length_app. cbn [length]. replace (length e + 2 - 2)%nat with (length e) by lia.
      by rewrite take_app_length. }
  rewrite Hcase. unfold trap_fields.
  apply eappends_check; [by apply eappends_do, appends_oid|].
  eapply (eappends_ext (_ ← enc_do (TnmBerEncOctetString ASN1_IPADDRESS addr);
    _ ← enc_do (TnmBerEncInt ASN1_INTEGER generic);
    _ ← enc_do (TnmBerEncInt ASN1_INTEGER specific);
    enc_do (TnmBerEncInt ASN1_TIMETICKS TnmSnmpSysUpTime))); [intros s; by rewrite Haddr|].
  apply eappends_bind; [apply eappends_do, appends_octets; [done|done|lia]|].
  apply eappends_bind; [by apply eappends_do, appends_int|].
  apply eappends_bind; [by apply eappends_do, appends_int|].
  rewrite s32_id by (unfold is_s32; lia). apply eappends_do, appends_int; [done|unfold is_s32; lia].
Qed.

Definition trap_octets (ent addr : list Z) (generic specific : Z) (vbs : list varbind) : list Z :=
  trap_tlv ent addr generic specific TnmSnmpSysUpTime vbs.

Lemma appends_trap_pdu session pdu oid ent addr back generic specific vbs :
  trap_encodes session pdu oid ent addr back generic specific vbs ->
  Z.of_nat (length (trap_octets ent addr generic specific vbs)) < 65536 ->
  eappends (EncodePDU session pdu) (trap_octets ent addr generic specific vbs).
Proof.
  intros Ht Hl. pose proof (appends_trap1 _ _ _ _ _ _ _ _ _ Ht) as Hfields.
  destruct Ht as [Hty _ _ _ _ _ _ (wordss & Hvb & Hwords) Hok]. rewrite Hty in Hwords.
  eapply (eappends_ext (t ← enc_seq_start ASN1_SNMP_TRAP1;
     _ ← (_ ← encode_trap1 session pdu;
          t2 ← enc_seq_start ASN1_SEQUENCE;
          _ ← encode_varbinds session ASN1_SNMP_TRAP1 wordss;
          enc_seq_end t2);
     enc_seq_end t)).
  - intros s. unfold EncodePDU. rewrite Hty, Hvb. rewrite (bool_decide_eq_true_2 (ASN1_SNMP_TRAP1 = ASN1_SNMP_TRAP1)) by done.
    change (bool_decide (ASN1_SNMP_TRAP1 = ASN1_SNMP_TRAP2) || bool_decide (ASN1_SNMP_TRAP1 = ASN1_SNMP_INFORM)) with false.
    change (u8 ASN1_SNMP_TRAP1) with ASN1_SNMP_TRAP1.
    unfold mbind, EncM_bind, mret, EncM_ret.
    destruct (enc_seq_start _ s) as [t s1| |]; [|done|done].
    destruct (encode_trap1 session pdu s1) as [[] s2| |]; [|done|done].
    destruct (enc_seq_start _ s2) as [t2 s3| |]; [|done|done].
    destruct (encode_varbinds _ _ _ s3) as [[] s4| |]; [|done|done].
    by destruct (enc_seq_end t2 s4) as [[] s5| |].
  - unfold trap_octets, trap_tlv, varbinds_tlv in *. rewrite length_tlv, length_app in Hl.
    pose proof (tlv_length_body ASN1_SEQUENCE (varbinds_body vbs)).
    apply eappends_seq; [done|rewrite length_app; lia|]. apply eappends_bind; [done|].
    apply eappends_seq; [done|lia|]. apply appends_encode_varbinds; [done|done|lia].
Qed.

(** ** Decoding *)

(** The words a receiver makes of the trap: its uptime, its identifier, the
    varbinds and the enterprise. *)
Definition trap_words (ent back : list Z) (vbs : list varbind) : list (list cstring) :=
  [[cstr "1.3.6.1.2.1.1.3.0"; cstr "TimeTicks"; sprintf_u TnmSnmpSysUpTime];
   [cstr "1.3.6.1.6.3.1.1.4.1.0"; cstr "OBJECT IDENTIFIER";
    format_or (cstr "1.3.6.1.6.3.1.1.4.1.0") (dotted back)]]
  ++ map varbind_words vbs
  ++ [[cstr "1.3.6.1.6.3.1.1.4.3.0"; cstr "OBJECT IDENTIFIER"; default (dotted ent) (TnmMibGetName (dotted ent))]].

Lemma trap_oid_back own oid ent generic specific back arr b :
  trap_split own oid generic specific ent back -> oid_array arr -> (length arr = TNM_OID_MAX_SIZE)%nat ->
  Forall is_u32 ent -> Forall is_u32 oid -> (length ent + 2 <= TNM_OID_MAX_SIZE)%nat -> oid_fits back ->
  trap_oid (ent ++ drop (length ent) arr) (length ent) generic specific b = Ret (dotted back) b.
Proof.
  intros Hsplit [_ Harr] Hlen Hent Hoid Hmax Hfits. unfold trap_oid.
  destruct Hsplit as [k -> Hk|k -> Hk|e x k -> _ _].
  - assert (k = 1 \/ k = 2 \/ k = 3 \/ k = 4 \/ k = 5 \/ k = 6) as Hks by lia.
    destruct Hks as [->|[->|[->|[->|[->| ->]]]]]; done.
  - assert (k = 0 \/ k = 1 \/ k = 2 \/ k = 3 \/ k = 4 \/ k = 5) as Hks by lia.
    destruct Hks as [->|[->|[->|[->|[->| ->]]]]]; done.
  - change (generic_trap 6) with (@None cstring). cbn match.
    assert (Htail : exists a b' rest, drop (length e) arr = a :: b' :: rest /\ Forall is_u32 rest).
    { pose proof (length_drop arr (length e)) as Hd. pose proof (Forall_drop is_u32 (length e) arr Harr) as Hf.
      destruct (drop (length e) arr) as [|a [|b' rest]]; [simpl in Hd; lia..|].
      exists a, b', rest. split; [done|]. apply Forall_cons in Hf as [_ Hf]. by apply Forall_cons in Hf as [_ ?]. }
    destruct Htail as (a & b' & rest & -> & Hrest). apply Forall_app in Hoid as [_ Hk].
    apply Forall_cons in Hk as [_ Hk]. apply Forall_cons in Hk as [Hk _].
    assert (Hstore : forall l1 y z l2, oid_store (l1 ++ y :: l2) (length l1) z b = Ret (l1 ++ u32 z :: l2) b).
    { intros. unfold oid_store. rewrite decide_True by (rewrite length_app; simpl; lia). by rewrite insert_app_mid. }
    erewrite bind_ret by apply Hstore. change (u32 0) with 0.
    replace (e ++ 0 :: b' :: rest) with ((e ++ [0]) ++ b' :: rest) by (by rewrite <- app_assoc).
    replace (S (length e)) with (length (e ++ [0])) at 1 by (rewrite length_app; simpl; lia).
    erewrite bind_ret by apply Hstore. rewrite u32_s32, u32_id by done.
    replace ((e ++ [0]) ++ k :: rest) with ((e ++ [0; k]) ++ rest) by (by rewrite <- !app_assoc).
    replace (S (S (length e))) with (length (e ++ [0; k])) by (rewrite length_app; simpl; lia).
    apply dec_oid_str_app; [|done|done]. apply Forall_app. split; [done|].
    apply Forall_cons. split; [unfold is_u32; lia|by apply Forall_singleton].
Qed.

Lemma decode_trap1_tlv own oid ent generic specific back addr arr pre rest e :
  trap_split own oid generic specific ent back -> oid_array arr -> (length arr = TNM_OID_MAX_SIZE)%nat ->
  valid_oid ent -> Forall is_u32 oid -> (length ent + 2 <= TNM_OID_MAX_SIZE)%nat ->
  oid_fits ent -> oid_fits back -> length addr = 4%nat -> 0 <= TnmSnmpSysUpTime < 2 ^ 31 ->
  decode_trap1 arr (st pre (trap_fields ent addr generic specific TnmSnmpSysUpTime ++ rest) e)
  = Ret (default (dotted ent) (TnmMibGetName (dotted ent)),
         [[cstr "1.3.6.1.2.1.1.3.0"; cstr "TimeTicks"; sprintf_u TnmSnmpSysUpTime];
          [cstr "1.3.6.1.6.3.1.1.4.1.0"; cstr "OBJECT IDENTIFIER";
           format_or (cstr "1.3.6.1.6.3.1.1.4.1.0") (dotted back)]])
        (st (pre ++ trap_fields ent addr generic specific TnmSnmpSysUpTime) rest e).
Proof.
  intros Hsplit Harr Hlen Hent Hoid Hmax Hfe Hfb H4 Hup.
  pose proof (trap_split_s32 _ _ _ _ _ _ Hsplit) as [Hg Hsp]. pose proof (valid_oid_u32 ent Hent) as Hu.
  unfold decode_trap1, trap_fields. rewrite <- !app_assoc.
  erewrite bind_ret by (by apply dec_oid_tlv). cbn beta iota.
  erewrite bind_ret by (apply dec_oid_str_app; [done|apply Forall_drop, Harr|done]).
  erewrite bind_ret by (apply dec_octets_consumes; lia). cbn beta iota.
  erewrite bind_ret by (by apply int_tlv_consumes). erewrite bind_ret by (by apply int_tlv_consumes).
  rewrite bool_decide_eq_false_2 by lia.
  erewrite bind_ret by (apply dec_int_consumes, s32_range).
  erewrite bind_ret by (by eapply trap_oid_back).
  rewrite sprintf_u_dec_int by (done || lia). by app_norm.
Qed.

Lemma decode_trap_tail pdu ent acc vbs p body e arr :
  arr = replicate TNM_OID_MAX_SIZE 0 ->
  Forall varbind_ok vbs -> Forall varbind_fits vbs -> Z.of_nat (length (varbinds_tlv vbs)) < 65536 ->
  decode_pdu_tail pdu ASN1_SNMP_TRAP1 (0, 0, 0) (Some ent) acc
    (length p, Z.of_nat (length (body ++ varbinds_tlv vbs))) arr
    (st (p ++ body) (varbinds_tlv vbs) e)
  = Ret (pdu_fields pdu ASN1_SNMP_TRAP1 (0, 0, 0) ((acc ++ map varbind_words vbs)
           ++ [[cstr "1.3.6.1.6.3.1.1.4.3.0"; cstr "OBJECT IDENTIFIER"; ent]]))
        (st (p ++ body ++ varbinds_tlv vbs) [] e).
Proof.
  intros -> Hok Hfit Hl.
  pose proof (tlv_length_body ASN1_SEQUENCE (varbinds_body vbs)) as Hvb. fold (varbinds_tlv vbs) in Hvb.
  unfold decode_pdu_tail.
  erewrite bind_ret by (unfold attempt, varbinds_tlv; rewrite <- (app_nil_r (tlv _ (varbinds_body vbs)));
    rewrite dec_seq_start_tlv by lia; reflexivity).
  rewrite app_nil_r. cbn beta iota.
  erewrite bind_ret by (apply (decode_varbind_list_tlv TNM_OID_MAX_SIZE ltac:(done)); [done|done|lia]).
  erewrite bind_ret by apply dec_seq_end_st. rewrite tlv_split. fold (varbinds_tlv vbs).
  cbn [fst snd]. rewrite <- (app_assoc p). erewrite bind_ret by apply dec_seq_end_st. done.
Qed.

Lemma DecodePDU_trap pdu own oid ent generic specific back addr vbs pre s :
  trap_split own oid generic specific ent back ->
  valid_oid ent -> Forall is_u32 oid -> (length ent + 2 <= TNM_OID_MAX_SIZE)%nat ->
  oid_fits ent -> oid_fits back -> length addr = 4%nat -> 0 <= TnmSnmpSysUpTime < 2 ^ 31 ->
  Forall varbind_ok vbs -> Forall varbind_fits vbs ->
  Z.of_nat (length (trap_octets ent addr generic specific vbs)) < 65536 ->
  DecodePDU TNM_OID_MAX_SIZE pdu s (st pre (trap_octets ent addr generic specific vbs) NoError)
  = (Ret (pdu_fields pdu ASN1_SNMP_TRAP1 (0, 0, 0) (trap_words ent back vbs))
         (st (pre ++ trap_octets ent addr generic specific vbs) [] NoError), s).
Proof.
  intros Hsplit Hent Hoid Hmax Hfe Hfb H4 Hup Hok Hfit Hl. unfold trap_octets, trap_tlv in *.
  set (fields := trap_fields ent addr generic specific TnmSnmpSysUpTime) in *.
  set (body := fields ++ varbinds_tlv vbs) in *.
  pose proof (tlv_length_body ASN1_SNMP_TRAP1 body) as Hb.
  assert (Hvl : (length (varbinds_tlv vbs) <= length body)%nat) by (unfold body; rewrite length_app; lia).
  set (p := pre ++ ASN1_SNMP_TRAP1 :: len_octets (Z.of_nat (length body))).
  unfold DecodePDU, on_null.
  erewrite dbind_ret by (apply decode_pdu_start_tlv; lia). cbn beta iota. fold p.
  change (TnmGetTableValue tnmSnmpPDUTable ASN1_SNMP_TRAP1) with (Some (cstr "trap1")).
  cbn match. rewrite bool_decide_eq_true_2 by done.
  erewrite dlift_bind by (apply (decode_trap1_tlv own oid ent generic specific back); try done;
    split; [by rewrite length_replicate|by apply Forall_replicate]).
  cbn beta iota. unfold dlift. fold fields body.
  pose proof (decode_trap_tail pdu (default (dotted ent) (TnmMibGetName (dotted ent)))
    [[cstr "1.3.6.1.2.1.1.3.0"; cstr "TimeTicks"; sprintf_u TnmSnmpSysUpTime];
     [cstr "1.3.6.1.6.3.1.1.4.1.0"; cstr "OBJECT IDENTIFIER";
      format_or (cstr "1.3.6.1.6.3.1.1.4.1.0") (dotted back)]] vbs p fields NoError
    (replicate TNM_OID_MAX_SIZE 0) eq_refl Hok Hfit ltac:(lia)) as Ht.
  fold body in Ht. rewrite Ht. unfold p. by rewrite tlv_split, <- app_assoc.
Qed.

(** C23: A trap of an SNMPv1 session survives the network.  Whether the caller
    asks for a trap or for a notification of SNMPv2 (which the mapping turns into
    a trap), [TnmSnmpEncode] writes the trap of RFC 1157 with the session's
    enterprise, or with the identifier's own for an enterprise specific trap, the
    generic and specific numbers, the address of the host and the uptime (below
    2^31 ticks), and
    [DecodeMessage] on exactly that packet returns the varbinds in their order
    between the two varbinds of an SNMPv2 notification, sysUpTime and
    snmpTrapOID, and the enterprise.  The identifier that comes back is the one
    sent for a standard trap, its SNMPv2 form for one in the notation of RFC
    1215, and the one sent with the last but one component replaced by zero for
    every other. *)
Theorem snmp_trap_roundtrip buffer session pdu oid ent addr back generic specific vbs result stats :
  let sent := v1_pdu session pdu in
  let packet := message_tlv (message_version session) (ss_community session)
                  (trap_octets ent addr generic specific vbs) in
  community_session session ->
  trap_encodes session sent oid ent addr back generic specific vbs ->
  oid_fits ent -> oid_fits back -> Forall varbind_fits vbs ->
  Z.of_nat (length packet) < TNM_SNMP_MAXSIZE ->
  (exists s, TnmSnmpEncode_packet buffer session pdu result stats = EOk (sent, Some packet) s /\
             es_result s = result) /\
  forall msg recv stats, let msg' := received_message session msg in
    let recv' := set_context (pdu_fields recv ASN1_SNMP_TRAP1 (0, 0, 0) (trap_words ent back vbs))
                   (ss_community session) in
    exists stats', DecodeMessage TNM_OID_MAX_SIZE msg recv stats
        (TnmBerCreate packet (Z.of_nat (length packet))) = (DecOk msg' recv', stats') /\
      Authentic session msg' recv' = true.
Proof.
  intros sent packet Hs Ht Hfe Hfb Hf Hl. unfold TNM_SNMP_MAXSIZE in Hl.
  assert (Hin : Z.of_nat (length (trap_octets ent addr generic specific vbs)) < 65536).
  { unfold packet, message_tlv, message_body in Hl. rewrite length_tlv, !length_app in Hl. lia. }
  split.
  - destruct (EncodeMessage_octets buffer session sent (trap_octets ent addr generic specific vbs) []
      (replicate (Z.to_nat TNM_SNMP_MAXSIZE) 0) NoError result stats Hs) as [stats' E];
      [by eapply appends_trap_pdu|rewrite length_replicate; unfold packet, TNM_SNMP_MAXSIZE in *; lia
      |unfold packet in Hl; lia|]. eapply encode_packet_of. exact E.
  - intros msg recv stats0 msg' recv'. destruct Ht.
    destruct (DecodeMessage_octets TNM_OID_MAX_SIZE ltac:(lia) msg recv session
      (trap_octets ent addr generic specific vbs)
      (pdu_fields recv ASN1_SNMP_TRAP1 (0, 0, 0) (trap_words ent back vbs)) stats0 Hs) as [stats' E];
      [unfold packet in Hl; lia| |].
    { intros pre. exists stats0. destruct te_value0 as [Hv ?], te_enterprise0, te_address0 as (? & ? & ?).
      eapply DecodePDU_trap; try done. apply Hv. }
    exists stats'. split; [exact E|]. apply authentic_community, Hs.
Qed.
End trap.

(** An enterprise specific trap and a linkDown notification of SNMPv2. *)
Definition trap_pdu (type : Z) (oid : list Z) : TnmSnmpPdu :=
  mkPdu type 0 0 0 (Some (dotted oid)) [] []
    (TclList [TclList [cstr "1.3.6.1.2.1.2.2.1.1.1"; cstr "INTEGER"; cstr "1"]]).
Definition trap_varbinds : list varbind := [([1; 3; 6; 1; 2; 1; 2; 2; 1; 1; 1], VInteger 1)].

Lemma snmp_trap_roundtrip_witness :
  let e := no_mib in let s := public_session TNM_SNMPv1 in
  let down := [1; 3; 6; 1; 6; 3; 1; 1; 5; 3] in let own := [1; 3; 6; 1; 4; 1; 9; 7; 42] in
  let packet ent g sp := message_tlv 0 (cstr "public") (trap_octets ent [10; 0; 0; 1] g sp trap_varbinds) in
  (exists st, TnmSnmpEncode_packet [] s (trap_pdu ASN1_SNMP_TRAP2 down) (ResText []) zero_stats
     = EOk (trap_pdu ASN1_SNMP_TRAP1 down, Some (packet [1; 3; 6; 1; 4; 1; 1575] 2 0)) st /\
     es_result st = ResText []) /\
  (exists st, TnmSnmpEncode_packet [] s (trap_pdu ASN1_SNMP_TRAP1 own) (ResText []) zero_stats
     = EOk (trap_pdu ASN1_SNMP_TRAP1 own, Some (packet [1; 3; 6; 1; 4; 1; 9] 6 42)) st /\
     es_result st = ResText []).
Proof.
  intros e s down own packet. split.
  - apply (snmp_trap_roundtrip (H := e) [] s (trap_pdu ASN1_SNMP_TRAP2 down) down _ _ down);
      [by_eval| |by_eval|by_eval|by_eval|by_eval].
    split; [by_eval|by_eval|split; by_eval|by apply (split_standard _ _ 3)|split; by_eval|by_eval|by_eval| |by_eval].
    eexists. split; [reflexivity|]. repeat constructor; try by_eval; try (vm_compute; congruence).
  - apply (snmp_trap_roundtrip (H := e) [] s (trap_pdu ASN1_SNMP_TRAP1 own) own _ _ [1; 3; 6; 1; 4; 1; 9; 0; 42]);
      [by_eval| |by_eval|by_eval|by_eval|by_eval].
    split; [by_eval|by_eval|split; by_eval|by apply (split_specific _ _ [1; 3; 6; 1; 4; 1; 9] 7 42)
      |split; by_eval|by_eval|by_eval| |by_eval].
    eexists. split; [reflexivity|]. repeat constructor; try by_eval; try (vm_compute; congruence).
Defined.
