(* ===== verification/SnmpSafe.v ===== *)
(** Safety and termination of [DecodeMessage] on every packet.

    The decoder of object identifiers and the printing of their dotted notation
    can leave the arrays they are given; nothing else can go wrong.  [mem_ok]
    says that of a computation: it stays in the packet and returns, and if it
    does access an array outside its bounds then the packet is longer than
    [short_packet] octets.  Up to that size an object identifier has at most 91
    components, which fit the vector of [DecodePDU] even with the two components
    added for a trap, and whose dotted notation fits the buffer of
    [TnmOidToStr]. *)

From Stdlib Require Import QArith.
From S2P Require Import Prelude Ber BerSpec BerRound BerSafe CStr Oid OidTheorems Util Snmp SnmpSpec SnmpDec SnmpRound SnmpTheorems.
Local Open Scope Z_scope.

Definition short_packet : nat := 90.

(** [N] is the length of the packet. *)
Definition mem_ok {A} (N : nat) (b : TnmBer) (o : outcome A) : Prop :=
  match o with
  | Ret _ b' | Null b' => dec_frame b b'
  | Fault f => f = OutOfBounds /\ (short_packet < N)%nat
  end.

Definition mem_safe {A} (N : nat) (m : BerM A) : Prop :=
  forall b, wf b -> ber_end b = N -> mem_ok N b (m b).

Lemma dec_frame_end b b' : dec_frame b b' -> ber_end b' = ber_end b.
Proof. unfold dec_frame, ber_end. by intros (-> & _). Qed.

Lemma mem_ok_bind {A B} N (m : BerM A) (k : A -> BerM B) b :
  mem_ok N b (m b) -> (forall a b', m b = Ret a b' -> dec_frame b b' -> mem_ok N b' (k a b')) ->
  mem_ok N b ((m ≫= k) b).
Proof.
  unfold mbind, BerM_bind. intros Hm Hk. destruct (m b) as [a b'|b'|f] eqn:E; simpl in *; [|done|done].
  specialize (Hk a b' eq_refl Hm). destruct (k a b') as [c b2|b2|f]; simpl in *;
    [by eapply dec_frame_trans|by eapply dec_frame_trans|done].
Qed.

Lemma mem_safe_bind {A B} N (m : BerM A) (k : A -> BerM B) :
  mem_safe N m -> (forall a, mem_safe N (k a)) -> mem_safe N (m ≫= k).
Proof.
  intros Hm Hk b Hb HN. apply mem_ok_bind; [by apply Hm|]. intros a b' _ Hf.
  apply Hk; [apply Hf|]. by rewrite (dec_frame_end _ _ Hf).
Qed.

Lemma mem_safe_dec {A} N (m : BerM A) : dec_safe m -> mem_safe N m.
Proof. intros H b Hb _. specialize (H b Hb). by destruct (m b). Qed.

Lemma mem_safe_if {A} N (c : bool) (m1 m2 : BerM A) :
  mem_safe N m1 -> mem_safe N m2 -> mem_safe N (if c then m1 else m2).
Proof. by destruct c. Qed.

Lemma mem_safe_ignore {A} N (m : BerM A) : mem_safe N m -> mem_safe N (ignore m).
Proof. intros H b Hb HN. specialize (H b Hb HN). unfold ignore. by destruct (m b). Qed.

Lemma mem_safe_attempt {A} N (m : BerM A) : mem_safe N m -> mem_safe N (attempt m).
Proof. intros H b Hb HN. specialize (H b Hb HN). unfold attempt. by destruct (m b). Qed.

Create HintDb mem_safe.
#[export] Hint Resolve mem_safe_ignore mem_safe_attempt : mem_safe.
#[export] Hint Extern 3 (mem_safe _ _) => apply mem_safe_dec; solve [dec_safe_tac] : mem_safe.

(** [mem_tac]: follow the structure of a computation; what has no fault at all
    is left to [dec_safe_tac]. *)
Ltac mem_tac :=
  repeat match goal with
  | |- mem_safe _ _ => solve [auto with mem_safe]
  | |- mem_safe _ (mbind _ _) => apply mem_safe_bind; [|intros ?]
  | |- mem_safe _ (if _ then _ else _) => apply mem_safe_if
  | |- mem_safe _ (let '(_, _) := ?p in _) => destruct p
  | |- mem_safe _ (match ?o with Some _ => _ | None => _ end) => destruct o
  end.

(** ** Object identifiers *)

Lemma oid_store_cases oid i v b :
  oid_store oid i v b = (if decide (i < length oid)%nat then Ret (<[i := u32 v]> oid) b else Fault OutOfBounds).
Proof. done. Qed.

Lemma oid_insert_u32 oid i v : Forall is_u32 oid -> Forall is_u32 (<[i := u32 v]> oid).
Proof. intros. apply Forall_insert; [done|apply u32_range]. Qed.

(** A component: an octet at least was read, or the array was too short. *)
Lemma dec_oid_component_shape fuel len oid i b :
  wf b -> (ber_left b < fuel)%nat -> Forall is_u32 oid ->
  match dec_oid_component fuel len oid i b with
  | Ret (oid', v, len') b' => dec_frame b b' /\ length oid' = length oid /\ Forall is_u32 oid'
                              /\ (ber_left b' < ber_left b)%nat /\ (i < length oid)%nat
  | Null b' => dec_frame b b'
  | Fault f => f = OutOfBounds /\ (length oid <= i)%nat
  end.
Proof.
  intros Hb Hf Hu. destruct (decide (i < length oid)%nat) as [Hi|Hi].
  - destruct (dec_oid_component_ok fuel len oid i b Hb Hi Hf) as [Hok Hret].
    destruct (dec_oid_component fuel len oid i b) as [[[oid' v] len'] b'|b'|f] eqn:E; [|done|done].
    destruct (Hret _ _ _ _ eq_refl). split_and!; try done.
    unfold dec_oid_component in E. apply bind_inv in E as (o1 & b1 & E1 & E).
    rewrite oid_store_cases, decide_True in E1 by done. injection E1 as <- <-.
    apply bind_inv in E as (x & b2 & E2 & E). apply bind_inv in E as ([[acc y] l1] & b3 & E3 & E).
    apply bind_inv in E as (o2 & b4 & E4 & E). injection E as <- _ _ _.
    rewrite oid_store_cases in E4. destruct (decide _) as [|]; [|done]. injection E4 as <- _.
    by apply oid_insert_u32, oid_insert_u32.
  - unfold dec_oid_component, mbind, BerM_bind. rewrite oid_store_cases, decide_False by done.
    split; [done|lia].
Qed.

Lemma dec_oid_unpack_shape oid v b : (2 <= length oid)%nat -> Forall is_u32 oid -> wf b ->
  exists oid', dec_oid_unpack oid v b = Ret oid' b /\ length oid' = length oid /\ Forall is_u32 oid'.
Proof.
  intros Hl Hu Hb. unfold dec_oid_unpack. erewrite bind_ret by (apply oid_store_ok; [done|lia]).
  rewrite oid_store_ok by (rewrite ?length_insert; done || lia).
  eexists. split; [done|]. split; [by rewrite !length_insert|]. by apply oid_insert_u32, oid_insert_u32.
Qed.

(** After the loop the number of components is at most that of the octets read,
    on top of those there were; the array is left only when the packet has
    enough octets to fill it. *)
Definition oid_shape (i : nat) (oid : list Z) (b : TnmBer) (o : outcome (list Z * nat)) : Prop :=
  match o with
  | Ret (oid', n) b' => dec_frame b b' /\ length oid' = length oid /\ Forall is_u32 oid'
                        /\ (n + ber_left b' <= i + ber_left b)%nat
  | Null b' => dec_frame b b'
  | Fault f => f = OutOfBounds /\ (length oid <= i + ber_left b)%nat
  end.

Lemma oid_shape_later i i' oid oid' b b' o :
  dec_frame b b' -> length oid' = length oid -> (i' + ber_left b' <= i + ber_left b)%nat ->
  oid_shape i' oid' b' o -> oid_shape i oid b o.
Proof.
  unfold oid_shape. intros Hf Hl Hi. destruct o as [[o n] b2|b2|f].
  - intros (? & ? & ? & ?). split_and!; [by eapply dec_frame_trans|congruence|done|lia].
  - intros. by eapply dec_frame_trans.
  - intros [? ?]. split; [done|lia].
Qed.

Lemma dec_oid_loop_shape fuel : forall len oid i b,
  wf b -> (ber_left b < fuel)%nat -> Forall is_u32 oid -> (2 <= length oid)%nat ->
  oid_shape i oid b (dec_oid_loop fuel len oid i b).
Proof.
  induction fuel as [|fuel IH]; intros len oid i b Hb Hf Hu Hl; [lia|].
  cbn [dec_oid_loop]. case_bool_decide; [|by split; [apply dec_frame_refl|]].
  pose proof (dec_oid_component_shape (S fuel) len oid i b Hb Hf Hu) as Hc.
  unfold mbind at 1, BerM_bind at 1.
  destruct (dec_oid_component (S fuel) len oid i b) as [[[oid1 v] len1] b1|b1|f];
    [|done|destruct Hc; split; [done|lia]].
  destruct Hc as (Hfr & Hl1 & Hu1 & Hlt & Hi). pose proof Hfr as (_ & _ & Hw).
  assert (Hif : exists oid2, (if bool_decide (i = 1)%nat then dec_oid_unpack oid1 v
      else mret oid1) b1 = Ret oid2 b1 /\ length oid2 = length oid1 /\ Forall is_u32 oid2).
  { case_bool_decide; [apply dec_oid_unpack_shape; [lia|done|done]|by eexists]. }
  destruct Hif as (oid2 & Hr2 & Hl2 & Hu2). rewrite (bind_ret _ _ _ _ _ Hr2). clear Hr2.
  apply (oid_shape_later i (S i) oid oid2 b b1); [done|congruence|lia|].
  case_bool_decide; [|apply IH; done || lia].
  by apply (dec_safe_error (A := unit) (fun b => TnmBerWrongValue b _)).
Qed.

Lemma dec_oid_shape oid b :
  wf b -> Forall is_u32 oid -> (2 <= length oid)%nat -> oid_shape 1 oid b (TnmBerDecOID oid b).
Proof.
  intros Hb Hu Hl. unfold TnmBerDecOID, mbind, BerM_bind.
  pose proof (dec_tag_safe ASN1_OBJECT_IDENTIFIER b Hb) as H1.
  destruct (dec_tag ASN1_OBJECT_IDENTIFIER b) as [t b1|b1|]; [|done|done].
  pose proof (dec_length_safe b1 ltac:(apply H1)) as H2.
  destruct (TnmBerDecLength b1) as [len b2|b2|]; [|by eapply dec_frame_trans|done].
  assert (Hfr : dec_frame b b2) by (by eapply dec_frame_trans).
  apply (oid_shape_later 1 1 oid oid b b2); [done|done|by apply Nat.add_le_mono_l, dec_frame_left|].
  case_bool_decide.
  - apply (dec_safe_error (A := unit) (fun b => TnmBerWrongValue b _)); [done|apply Hfr].
  - unfold dec_oid_body. apply dec_oid_loop_shape; [apply Hfr| |done|done]. unfold ber_left. lia.
Qed.

Lemma ber_left_end b : (ber_left b <= ber_end b)%nat.
Proof. unfold ber_left. lia. Qed.

(** With the vector of [DecodePDU]. *)
Lemma dec_oid_mem N oid : oid_array oid -> mem_safe N (TnmBerDecOID oid).
Proof.
  intros [Hl Hu] b Hb <-. unfold TNM_OID_MAX_SIZE in Hl.
  pose proof (dec_oid_shape oid b Hb Hu ltac:(lia)) as H.
  unfold oid_shape, mem_ok, short_packet in *. destruct (TnmBerDecOID oid b) as [[o n] b'|b'|f]; [apply H|done|].
  pose proof (ber_left_end b). destruct H. split; [done|lia].
Qed.

(** What is known of an object identifier that was read. *)
Definition oid_read (N : nat) (oid : list Z) (n : nat) : Prop :=
  oid_array oid /\ (n <= short_packet + 1 \/ short_packet < N)%nat.

Lemma dec_oid_read oid b oid' n b' :
  oid_array oid -> wf b -> TnmBerDecOID oid b = Ret (oid', n) b' -> oid_read (ber_end b) oid' n.
Proof.
  intros [Hl Hu] Hb E. pose proof (dec_oid_shape oid b Hb Hu) as H. rewrite E in H.
  destruct H as (Hf & Hl' & Hu' & Hn); [unfold TNM_OID_MAX_SIZE in Hl; lia|].
  pose proof (ber_left_end b). unfold oid_read, oid_array. rewrite Hl'. split; [done|lia].
Qed.

Lemma dec_oid_str_mem N oid n :
  oid_array oid -> (n <= short_packet + 3 \/ short_packet < N)%nat -> mem_safe N (dec_oid_str oid n).
Proof.
  intros [Hl Hu] Hn b Hb _. unfold dec_oid_str.
  destruct (TnmOidToStr oid n) eqn:E; [by apply dec_frame_refl|]. split; [done|].
  destruct Hn as [Hn|]; [|done]. exfalso. unfold short_packet, TNM_OID_MAX_SIZE in *.
  rewrite oid_to_str_spec, decide_True in E; [done| |done|lia].
  pose proof (dotted_length (take n oid)) as Hd. rewrite length_take in Hd.
  apply (Nat.le_lt_trans _ 1023); [lia|]. vm_compute. lia.
Qed.

(** Reading an identifier and going on with its dotted notation. *)
Lemma dec_oid_then {A} N oid (k : list Z -> nat -> cstring -> BerM A) :
  oid_array oid -> (forall oid' n str, oid_read N oid' n -> mem_safe N (k oid' n str)) ->
  mem_safe N ('(oid, n) ← TnmBerDecOID oid; str ← dec_oid_str oid n; k oid n str).
Proof.
  intros Ha Hk b Hb HN. apply mem_ok_bind; [by apply dec_oid_mem|].
  intros [oid' n] b1 E Hf. pose proof Hf as (_ & _ & Hw).
  pose proof (dec_oid_read _ _ _ _ _ Ha Hb E) as Hr. rewrite HN in Hr. pose proof Hr as [Ha' Hn].
  rewrite <- (dec_frame_end _ _ Hf) in HN. clear E Hf. revert b1 HN Hw.
  cut (mem_safe N (str ← dec_oid_str oid' n; k oid' n str)); [by intros H b1 ? ?; apply H|].
  apply mem_safe_bind; [apply dec_oid_str_mem; [done|lia]|]. intros. by apply Hk.
Qed.

Section decode.
Context `{!SnmpEnv} (N : nat).

Lemma decode_value_mem oid vboid tag : oid_array oid -> mem_safe N (decode_value oid vboid tag).
Proof.
  intros Ha. unfold decode_value.
  assert (Hoid : mem_safe N ('(oid, oidlen) ← TnmBerDecOID oid;
    soid ← dec_oid_str oid oidlen; mret (format_or vboid soid))).
  { apply (dec_oid_then N oid (fun _ _ soid => mret (format_or vboid soid)) Ha). intros. mem_tac. }
  mem_tac.
Qed.

Lemma decode_varbind_value_mem oid vboid : oid_array oid -> mem_safe N (decode_varbind_value oid vboid).
Proof.
  intros Ha. pose proof (fun tag => decode_value_mem oid vboid tag Ha). unfold decode_varbind_value. mem_tac.
Qed.

(** What follows the start of a varbind. *)
Definition decode_varbind_tail (oid : list Z) (token : nat) (len : Z) : BerM (list cstring) :=
  '(oid, oidlen) ← TnmBerDecOID oid;
  vboid ← dec_oid_str oid oidlen;
  rest ← decode_varbind_value oid vboid;
  _ ← TnmBerDecSequenceEnd token len;
  mret (vboid :: rest).

Lemma decode_varbind_tail_mem oid token len : oid_array oid -> mem_safe N (decode_varbind_tail oid token len).
Proof.
  intros Ha. apply (dec_oid_then N oid (fun oid _ vboid => rest ← decode_varbind_value oid vboid;
    _ ← TnmBerDecSequenceEnd token len; mret (vboid :: rest)) Ha).
  intros oid' n str [Ha' _]. pose proof (decode_varbind_value_mem oid' str Ha'). mem_tac.
Qed.

Lemma decode_varbind_mem oid : oid_array oid -> mem_safe N (decode_varbind oid).
Proof.
  intros Ha. apply mem_safe_bind; [mem_tac|]. intros [token len]. by apply decode_varbind_tail_mem.
Qed.

(** A varbind takes at least an octet. *)
Lemma seq_start_progress tag b r b' :
  wf b -> TnmBerDecSequenceStart tag b = Ret r b' -> (ber_left b' < ber_left b)%nat.
Proof.
  intros Hb. unfold TnmBerDecSequenceStart. intros E. apply bind_inv in E as (t & b1 & E1 & E).
  unfold dec_tag in E1. apply bind_inv in E1 as (x & b2 & E2 & E1).
  assert (b1 = b2) as -> by (destruct (bool_decide _); [done|by injection E1]).
  pose proof (dec_byte_safe b Hb) as Hs. rewrite E2 in Hs. apply dec_byte_inv in E2 as (H1 & H2 & H3).
  assert (Hd : dec_safe (len ← TnmBerDecLength; token ← ber_pos; mret (token, len))) by dec_safe_tac.
  specialize (Hd b2 ltac:(apply Hs)). rewrite E in Hd. apply dec_frame_left in Hd.
  unfold ber_left, ber_end in *. rewrite H1, H2 in Hd. lia.
Qed.

Lemma decode_varbind_progress oid b vb b' :
  oid_array oid -> wf b -> ber_end b = N -> decode_varbind oid b = Ret vb b' ->
  (ber_left b' < ber_left b)%nat.
Proof.
  intros Ha Hb HN E. unfold decode_varbind in E. apply bind_inv in E as ([token len] & b1 & E1 & E).
  pose proof (seq_start_progress _ _ _ _ Hb E1) as Hp.
  pose proof (dec_seq_start_safe ASN1_SEQUENCE b Hb) as Hs. rewrite E1 in Hs.
  rewrite <- (dec_frame_end _ _ Hs) in HN.
  pose proof (decode_varbind_tail_mem oid token len Ha b1 ltac:(apply Hs) HN) as Ht.
  unfold decode_varbind_tail in Ht. rewrite E in Ht. apply dec_frame_left in Ht. lia.
Qed.

Lemma decode_varbinds_mem oid : oid_array oid -> forall fuel acc b,
  wf b -> ber_end b = N -> (ber_left b < fuel)%nat -> mem_ok N b (decode_varbinds fuel oid acc b).
Proof.
  intros Ha. induction fuel as [|fuel IH]; intros acc b Hb HN Hf; [lia|]. cbn [decode_varbinds].
  rewrite dec_done_bind. destruct (TnmBerDecDone b); [by apply dec_frame_refl|].
  apply mem_ok_bind; [by apply decode_varbind_mem|]. intros vb b' E Hfr.
  apply IH; [apply Hfr|by rewrite (dec_frame_end _ _ Hfr)|].
  pose proof (decode_varbind_progress _ _ _ _ Ha Hb HN E). lia.
Qed.

Lemma decode_varbind_list_mem oid acc : oid_array oid -> mem_safe N (decode_varbind_list oid acc).
Proof. intros Ha b Hb HN. apply decode_varbinds_mem; [done..|]. unfold ber_left. lia. Qed.

(** ** PDUs *)

Lemma trap_oid_mem oid n generic specific : oid_read N oid n -> mem_safe N (trap_oid oid n generic specific).
Proof.
  intros [[Hl Hu] Hn]. unfold trap_oid. destruct (generic_trap generic); [mem_tac|].
  unfold short_packet, TNM_OID_MAX_SIZE in *. intros b Hb HN.
  unfold mbind, BerM_bind. rewrite !oid_store_cases.
  destruct (decide _) as [H1|H1]; [|split; [done|unfold short_packet; lia]].
  rewrite oid_store_cases, length_insert.
  destruct (decide _) as [H2|H2]; [|split; [done|unfold short_packet; lia]].
  apply dec_oid_str_mem; [|unfold short_packet; lia|done|done].
  split; [by rewrite !length_insert|]. by apply oid_insert_u32, oid_insert_u32.
Qed.

Lemma decode_trap1_mem oid : oid_array oid -> mem_safe N (decode_trap1 oid).
Proof.
  intros Ha.
  apply (dec_oid_then N oid (fun oid oidlen soid =>
    '(_, agent) ← TnmBerDecOctetString ASN1_IPADDRESS;
    generic ← TnmBerDecInt ASN1_INTEGER;
    specific ← TnmBerDecInt ASN1_INTEGER;
    if bool_decide (length agent <> 4%nat) then ber_null
    else
      uptime ← TnmBerDecInt ASN1_TIMETICKS;
      toid ← trap_oid oid oidlen generic specific;
      mret (default soid (TnmMibGetName soid),
            [[cstr "1.3.6.1.2.1.1.3.0"; cstr "TimeTicks"; sprintf_u uptime];
             [cstr "1.3.6.1.6.3.1.1.4.1.0"; cstr "OBJECT IDENTIFIER";
              format_or (cstr "1.3.6.1.6.3.1.1.4.1.0") toid]])) Ha).
  intros oid' n str Hr. pose proof (fun g s => trap_oid_mem oid' n g s Hr). mem_tac.
Qed.

Lemma decode_pdu_tail_mem pdu type req ent acc pduSeq oid :
  oid_array oid -> mem_safe N (decode_pdu_tail pdu type req ent acc pduSeq oid).
Proof.
  intros Ha. pose proof (fun acc => decode_varbind_list_mem oid acc Ha). unfold decode_pdu_tail. mem_tac.
Qed.

(** ** Computations with statistics *)

Definition dmem {A} (m : DecM A) : Prop := forall s, mem_safe N (fun b => (m s b).1).

Lemma dmem_lift {A} (m : BerM A) : mem_safe N m -> dmem (dlift m).
Proof. intros Hm s b. apply Hm. Qed.

Lemma dmem_ret {A} (a : A) : dmem (mret a).
Proof. intros s b Hb _. by apply dec_frame_refl. Qed.

Lemma dmem_bump c : dmem (dec_bump c).
Proof. intros s b Hb _. by apply dec_frame_refl. Qed.

Lemma dmem_bind {A B} (m : DecM A) (k : A -> DecM B) :
  dmem m -> (forall a, dmem (k a)) -> dmem (m ≫= k).
Proof.
  intros Hm Hk s b Hb HN. specialize (Hm s b Hb HN). cbv beta in Hm. unfold mbind, DecM_bind.
  destruct (m s b) as [[a b'|b'|f] s']; simpl in *; [|done|done].
  pose proof (Hk a s' b' ltac:(apply Hm)) as Hk2. rewrite (dec_frame_end _ _ Hm) in Hk2. specialize (Hk2 HN).
  simpl in Hk2. destruct (k a s' b') as [[c b2|b2|f] s2]; simpl in *; [by eapply dec_frame_trans..|done].
Qed.

Lemma dmem_on_null {A} (m : DecM A) h : dmem m -> dmem (on_null m h).
Proof.
  intros Hm s b Hb HN. specialize (Hm s b Hb HN). cbv beta in Hm. unfold on_null. by destruct (m s b) as [[a b'|b'|f] s'].
Qed.

Lemma dmem_if {A} (c : bool) (m1 m2 : DecM A) : dmem m1 -> dmem m2 -> dmem (if c then m1 else m2).
Proof. by destruct c. Qed.
End decode.

#[export] Hint Resolve dmem_ret dmem_bump dmem_on_null decode_trap1_mem decode_pdu_tail_mem : mem_safe.

(** [dmem_tac]: the same for computations with statistics. *)
Ltac dmem_tac :=
  repeat match goal with
  | |- dmem _ (mbind _ _) => apply dmem_bind; [|intros ?]
  | |- dmem _ (if _ then _ else _) => apply dmem_if
  | |- dmem _ (let '(_, _) := ?p in _) => destruct p
  | |- dmem _ (match ?o with Some _ => _ | None => _ end) => destruct o
  | |- dmem _ (on_null _ _) => apply dmem_on_null
  | |- dmem _ (dlift _) => apply dmem_lift; mem_tac
  | |- dmem _ _ => solve [auto with mem_safe]
  end.

Section messages.
Context `{!SnmpEnv} (N : nat) (oidsize : nat).
Lemma decode_request_mem : dmem N decode_request.
Proof using Type. unfold decode_request, count_in_error. dmem_tac. Qed.

Lemma DecodeHeader_safe msg : dec_safe (DecodeHeader msg).
Proof using Type. unfold DecodeHeader. dec_safe_tac. Qed.

Lemma DecodeUsmSecParams_safe msg : dec_safe (DecodeUsmSecParams msg).
Proof using Type. unfold DecodeUsmSecParams. dec_safe_tac. Qed.

Lemma ber_create_wf packet len : wf (TnmBerCreate packet len).
Proof using Type. unfold wf, TnmBerCreate. case_bool_decide; simpl; lia. Qed.

Lemma decode_usm_mem msg usm : mem_safe N (decode_usm msg usm).
Proof using Type.
  intros b Hb _. unfold decode_usm.
  pose proof (DecodeUsmSecParams_safe msg _ (ber_create_wf usm (Z.of_nat (length usm)))) as Hs.
  destruct (DecodeUsmSecParams _ _); [by apply dec_frame_refl|by apply dec_frame_refl|done].
Qed.

Hypothesis Hsize : (TNM_OID_MAX_SIZE <= oidsize)%nat.

Lemma DecodePDU_mem pdu : dmem N (DecodePDU oidsize pdu).
Proof using All.
  pose proof (scratch_array oidsize Hsize). pose proof decode_request_mem.
  unfold DecodePDU, decode_pdu_start. dmem_tac.
Qed.

Lemma DecodeScopedPDU_mem pdu : dmem N (DecodeScopedPDU oidsize pdu).
Proof using All. pose proof DecodePDU_mem. unfold DecodeScopedPDU. dmem_tac. Qed.

Lemma decode_message_mem msg pdu : dmem N (decode_message oidsize msg pdu).
Proof using All.
  pose proof DecodePDU_mem. pose proof DecodeScopedPDU_mem. pose proof decode_usm_mem.
  pose proof (fun msg => mem_safe_dec N _ (DecodeHeader_safe msg)).
  unfold decode_message, decode_message_body. dmem_tac.
Qed.

Lemma DecodeMessage_mem msg pdu stats packet :
  N = length packet ->
  match (DecodeMessage oidsize msg pdu stats (TnmBerCreate packet (Z.of_nat (length packet)))).1 with
  | DecFault f => f = OutOfBounds /\ (short_packet < N)%nat
  | _ => True
  end.
Proof using All.
  intros HN. pose proof (decode_message_mem msg pdu stats _ (ber_create_wf packet (Z.of_nat (length packet)))) as Hd.
  cbv beta in Hd. unfold DecodeMessage. destruct (decode_message _ _ _ _ _) as [[[m p] b|b|f] s]; [by destruct (TnmBerDecDone b)|done|].
  apply Hd. unfold TnmBerCreate. case_bool_decide; cbn.
  - unfold ber_end. cbn. rewrite length_take. lia.
  - destruct packet; [done|simpl in *; lia].
Qed.
End messages.



(** A get request for one object, and an enterprise specific trap. *)
Definition get_packet (oid : list Z) : list Z :=
  message_tlv 0 (cstr "public") (tlv ASN1_SNMP_GET ((int_tlv 1 ++ int_tlv 0 ++ int_tlv 0)
    ++ tlv ASN1_SEQUENCE (tlv ASN1_SEQUENCE (tlv ASN1_OBJECT_IDENTIFIER oid ++ tlv ASN1_NULL [])))).
Definition trap_packet (oid : list Z) : list Z :=
  message_tlv 0 (cstr "public") (tlv ASN1_SNMP_TRAP1 (tlv ASN1_OBJECT_IDENTIFIER oid
    ++ tlv ASN1_IPADDRESS [10; 0; 0; 1] ++ int_tlv 6 ++ int_tlv 1 ++ tlv ASN1_TIMETICKS (int_octets 0)
    ++ tlv ASN1_SEQUENCE [])).

(** The bounds of [DecodePDU] can be left from the network, before any
    authentication: by a get request with a name of 129 components (165 octets),
    by an SNMPv1 trap with an enterprise of 127 components, and by a name of 109
    components that are printed with ten digits each.  With one component less
    the first two are decoded. *)
Theorem snmp_decode_overrun :
  let decode packet := (DecodeMessage (H := no_mib) TNM_OID_MAX_SIZE msg_zero blank_pdu zero_stats
                          (TnmBerCreate packet (Z.of_nat (length packet)))).1 in
  let big := concat (replicate 108 [0x8f; 0xff; 0xff; 0xff; 0x7f]) in
  decode (get_packet (replicate 128 1)) = DecFault OutOfBounds /\
  length (get_packet (replicate 128 1)) = 165%nat /\
  decode (trap_packet (replicate 126 1)) = DecFault OutOfBounds /\
  decode (get_packet big) = DecFault OutOfBounds /\
  (exists msg pdu, decode (get_packet (replicate 127 1)) = DecOk msg pdu) /\
  (exists msg pdu, decode (trap_packet (replicate 125 1)) = DecOk msg pdu).
Proof.
  split_and!; try (vm_compute; reflexivity); eexists _, _; vm_compute; reflexivity.
Qed.
