(* ===== verification/Inst.v ===== *)
(** The tree of instances of the agent: [src/tnm/snmp/tnmSnmpInst.c], with
    [FindInstance] and [FindNextInstance] of [tnmSnmpAgent.c].

    A node is its fields and the list of its children: [childPtr] is the head of
    that list and [nextPtr] its tail.  A pointer to a node of the tree is the
    path to it, the list of the subidentifiers from the root.  [instTree] is an
    option, [None] for the initial [NULL].  A [None] of an operation is an
    access through a [NULL] pointer or outside an array. *)

From S2P Require Import Prelude Ber CStr Oid.
Local Open Scope Z_scope.

(** ** Data *)

Record TnmSnmpBinding := mkBinding {
  bind_event : Z;
  bind_command : option cstring
}.

Record node := mkNode {
  nd_label : cstring;
  nd_offset : Z;
  nd_syntax : Z;
  nd_access : Z;
  nd_tclVarName : option cstring;
  nd_bindings : list TnmSnmpBinding;
  nd_subid : Z
}.

#[global] Instance TnmSnmpBinding_eq_dec : EqDecision TnmSnmpBinding.
Proof. solve_decision. Defined.
#[global] Instance node_eq_dec : EqDecision node.
Proof. solve_decision. Defined.

Inductive TnmSnmpNode := Node (nd : node) (childPtr : list TnmSnmpNode).

Definition nd_of (t : TnmSnmpNode) : node := let '(Node nd _) := t in nd.
Definition children (t : TnmSnmpNode) : list TnmSnmpNode := let '(Node _ cs) := t in cs.
Definition subid (t : TnmSnmpNode) : Z := nd_subid (nd_of t).

(** The node made by [memset(..., 0, ...)] with the fields set afterwards. *)
Definition new_node (label : cstring) (id offset : Z) : TnmSnmpNode :=
  Node (mkNode label offset 0 0 None [] id) [].

(** [instTree] when it is first needed. *)
Definition new_root : TnmSnmpNode := new_node (cstr "1") 1 0.

(** ** Adding nodes *)

(** [for (q = p->childPtr; q; q = q->nextPtr) if (q->subid == x) break;] *)
Fixpoint find_child (x : Z) (cs : list TnmSnmpNode) : option TnmSnmpNode :=
  match cs with
  | [] => None
  | c :: cs => if bool_decide (subid c = x) then Some c else find_child x cs
  end.

(** The node [q] of the same loop replaced by what is made of it. *)
Fixpoint update_child (x : Z) (f : TnmSnmpNode -> option TnmSnmpNode) (cs : list TnmSnmpNode)
    : option (list TnmSnmpNode) :=
  match cs with
  | [] => None
  | c :: cs =>
      if bool_decide (subid c = x) then c' ← f c; Some (c' :: cs)
      else cs' ← update_child x f cs; Some (c :: cs')
  end.

(** [for (q = p->childPtr; q->nextPtr && q->nextPtr->subid < oid[i]; ...)] and
    the insertion behind [q]. *)
Fixpoint insert_after (n : TnmSnmpNode) (cs : list TnmSnmpNode) : list TnmSnmpNode :=
  match cs with
  | [] => [n]
  | q :: cs' =>
      match cs' with
      | r :: _ => if bool_decide (subid r < subid n) then q :: insert_after n cs' else q :: n :: cs'
      | [] => [q; n]
      end
  end.

(** The first node, the head, or somewhere else. *)
Definition insert_child (n : TnmSnmpNode) (cs : list TnmSnmpNode) : list TnmSnmpNode :=
  match cs with
  | [] => [n]
  | c :: _ => if bool_decide (subid n < subid c) then n :: cs else insert_after n cs
  end.

(** [for (p = instTree, i = 1; i < oidlen; p = q, i++)] below the node [p] at
    depth [i], with [rest] the subidentifiers from [oid[i]] on; [set] is what
    happens to the node at the end. *)
Fixpoint add_path (oid : list Z) (offset : Z) (set : node -> node) (i : nat) (rest : list Z)
    (p : TnmSnmpNode) : option TnmSnmpNode :=
  match rest with
  | [] => Some (Node (set (nd_of p)) (children p))
  | x :: rest =>
      cs ← match find_child x (children p) with
           | Some _ => Some (children p)
           | None =>
               s ← TnmOidToStr oid (S i);
               Some (insert_child (new_node s x offset) (children p))
           end;
      cs ← update_child x (add_path oid offset set (S i) rest) cs;
      Some (Node (nd_of p) cs)
  end.

(** The new tree, and the path to the node or [None] for [NULL]. *)
Definition AddNode (instTree : option TnmSnmpNode) (soid : cstring) (offset syntax access : Z)
    (tclVarName : option cstring) : option (option TnmSnmpNode * option (list Z)) :=
  let tree := default new_root instTree in
  '(oid, oidlen) ← TnmStrToOid soid;
  x ← oid !! 0%nat;
  if bool_decide (x <> 1) || bool_decide (oidlen < 1)%nat then Some (Some tree, None)
  else if bool_decide (oidlen = 1%nat) then Some (Some tree, Some [1])
  else
    let set nd := mkNode soid offset syntax access tclVarName (nd_bindings nd) (nd_subid nd) in
    tree ← add_path oid offset set 1 (drop 1 (take oidlen oid)) tree;
    Some (Some tree, Some (take oidlen oid)).

(** ** Finding nodes *)

Fixpoint find_path (p : TnmSnmpNode) (rest : list Z) : option TnmSnmpNode :=
  match rest with
  | [] => Some p
  | x :: rest => q ← find_child x (children p); find_path q rest
  end.

(** [q] is still [NULL] when the loop is not entered. *)
Definition FindNode (root : option TnmSnmpNode) (oid : list Z) : option TnmSnmpNode :=
  if bool_decide (oid !!! 0%nat <> 1) then None
  else match drop 1 oid with
       | [] => None
       | rest => p ← root; find_path p rest
       end.

(** [FindNextNode] for one node [p] of the loop over a level and for the levels
    below: the node that is returned, if any, and the value of the static
    variable [force].  [next_level] is a whole level: it skips smaller
    subidentifiers first. *)
Fixpoint next_node (p : TnmSnmpNode) (oid : list Z) (force : bool) : option TnmSnmpNode * bool :=
  let next_level := fix next_level (skip : bool) (ps : list TnmSnmpNode) (oid : list Z) (force : bool) :=
    match ps with
    | [] => (None, force)
    | p :: ps =>
        if skip && bool_decide (0 < length oid)%nat && bool_decide (subid p < oid !!! 0%nat)
        then next_level true ps oid force
        else match next_node p oid force with
             | (Some inst, force) => (Some inst, force)
             | (None, force) => next_level false ps oid force
             end
    end in
  match children p with
  | _ :: _ =>
      if bool_decide (0 < length oid)%nat && bool_decide (subid p = oid !!! 0%nat)
      then next_level true (children p) (drop 1 oid) force
      else if bool_decide (nd_syntax (nd_of p) <> 0) then (Some p, force)
      else next_level true (children p) [] true
  | [] =>
      if bool_decide (length oid = 0)%nat && bool_decide (nd_syntax (nd_of p) <> 0) then (Some p, force)
      else if ((bool_decide (0 < length oid)%nat && bool_decide (subid p <> oid !!! 0%nat)) || force)
              && bool_decide (nd_syntax (nd_of p) <> 0)
      then (Some p, force)
      else (None, true)
  end.

Fixpoint next_level (skip : bool) (ps : list TnmSnmpNode) (oid : list Z) (force : bool)
    : option TnmSnmpNode * bool :=
  match ps with
  | [] => (None, force)
  | p :: ps =>
      if skip && bool_decide (0 < length oid)%nat && bool_decide (subid p < oid !!! 0%nat)
      then next_level true ps oid force
      else match next_node p oid force with
           | (Some inst, force) => (Some inst, force)
           | (None, force) => next_level false ps oid force
           end
  end.

(** The call from outside: the root has no neighbours and [force] is reset. *)
Definition FindNextNode (root : option TnmSnmpNode) (oid : list Z) : option TnmSnmpNode :=
  (next_level true (from_option (fun p => [p]) [] root) oid false).1.

(** [FindInstance] and [FindNextInstance] *)
Definition FindInstance (root : option TnmSnmpNode) (oid : list Z) : option TnmSnmpNode :=
  inst ← FindNode root oid;
  if bool_decide (nd_syntax (nd_of inst) <> 0) then Some inst else None.

Definition FindNextInstance (root : option TnmSnmpNode) (oid : list Z) : option TnmSnmpNode :=
  inst ← FindNextNode root oid;
  if bool_decide (nd_syntax (nd_of inst) <> 0) then Some inst else None.

(** ** Removing nodes *)

Section remove.
Variable varName : cstring.

(** [q->tclVarName && (strcmp(q->tclVarName, varName) == 0)] *)
Definition has_var (q : TnmSnmpNode) : bool :=
  bool_decide (nd_tclVarName (nd_of q) = Some varName).

(** The child list of [p] after the level below was treated: its first node is
    removed here. *)
Definition remove_first (cs : list TnmSnmpNode) : list TnmSnmpNode :=
  match cs with
  | q :: qs => if has_var q then qs else cs
  | [] => []
  end.

(** One node [p] of the loop: what is below it. *)
Fixpoint remove_below (p : TnmSnmpNode) : TnmSnmpNode :=
  let level := fix level (ps : list TnmSnmpNode) : list TnmSnmpNode :=
    match ps with
    | [] => []
    | p :: ps =>
        remove_below p ::
          match ps with
          | q :: qs => if has_var q then level qs else level ps
          | [] => []
          end
    end in
  Node (nd_of p) (remove_first (level (children p))).

(** [for (p = root; p; p = p->nextPtr)]: the node behind [p] is removed before
    the loop moves on. *)
Fixpoint remove_level (ps : list TnmSnmpNode) : list TnmSnmpNode :=
  match ps with
  | [] => []
  | p :: ps =>
      remove_below p ::
        match ps with
        | q :: qs => if has_var q then remove_level qs else remove_level ps
        | [] => []
        end
  end.
End remove.

Definition RemoveNode (root : option TnmSnmpNode) (varName : cstring) : option TnmSnmpNode :=
  head (remove_level varName (from_option (fun p => [p]) [] root)).

(** The name of a variable or of an element of an array. *)
Definition var_name (name1 : cstring) (name2 : option cstring) : cstring :=
  match name2 with
  | Some n => name1 ++ cstr "(" ++ n ++ cstr ")"
  | None => name1
  end.

Definition DeleteNodeProc (instTree : option TnmSnmpNode) (name1 : cstring) (name2 : option cstring)
    : option TnmSnmpNode :=
  RemoveNode instTree (var_name name1 name2).

(** ** Bindings *)

Fixpoint find_binding (event : Z) (bs : list TnmSnmpBinding) : option TnmSnmpBinding :=
  match bs with
  | [] => None
  | b :: bs => if bool_decide (bind_event b = event) then Some b else find_binding event bs
  end.

(** The command of the binding replaced; an empty one leaves none. *)
Fixpoint replace_command (event : Z) (command : cstring) (bs : list TnmSnmpBinding)
    : list TnmSnmpBinding :=
  match bs with
  | [] => []
  | b :: bs =>
      if bool_decide (bind_event b = event)
      then mkBinding event (match command with [] => None | _ => Some command end) :: bs
      else b :: replace_command event command bs
  end.

Definition set_binding (event : Z) (command : option cstring) (bs : list TnmSnmpBinding)
    : list TnmSnmpBinding :=
  match command with
  | None => bs
  | Some command =>
      replace_command event command
        (match find_binding event bs with
         | Some _ => bs
         | None => mkBinding event None :: bs
         end)
  end.

(** The node at the end of a path with its bindings changed. *)
Fixpoint update_path (f : node -> node) (rest : list Z) (p : TnmSnmpNode) : option TnmSnmpNode :=
  match rest with
  | [] => Some (Node (f (nd_of p)) (children p))
  | x :: rest => cs ← update_child x (update_path f rest) (children p); Some (Node (nd_of p) cs)
  end.

Definition with_bindings (f : list TnmSnmpBinding -> list TnmSnmpBinding) (nd : node) : node :=
  mkNode (nd_label nd) (nd_offset nd) (nd_syntax nd) (nd_access nd) (nd_tclVarName nd)
    (f (nd_bindings nd)) (nd_subid nd).

(** The anonymous node is added under the dotted notation of the identifier. *)
Definition TnmSnmpSetNodeBinding (instTree : option TnmSnmpNode) (oid : list Z) (event : Z)
    (command : option cstring) : option (tcl_code * option TnmSnmpNode) :=
  let bind tree path :=
    root ← tree;
    root ← update_path (with_bindings (set_binding event command)) (drop 1 path) root;
    Some (TCL_OK, Some root) in
  match FindNode instTree oid with
  | Some _ => bind instTree oid
  | None =>
      s ← TnmOidToStr oid (length oid);
      '(tree, path) ← AddNode instTree s 0 0 0 None;
      match path with
      | None => Some (TCL_ERROR, tree)
      | Some path => bind tree path
      end
  end.

Definition TnmSnmpGetNodeBinding (instTree : option TnmSnmpNode) (oid : list Z) (event : Z)
    : option cstring :=
  nd ← FindNode instTree oid;
  b ← find_binding event (nd_bindings (nd_of nd));
  bind_command b.
