(* ===== verification/InstTheorems.v ===== *)
(** The tree of instances behaves as an ordered map from object identifiers to
    instances: adding, finding, the lexicographic successor that SNMP getnext
    requests need, walking, and removing. *)

From Stdlib Require Import Sorted.
From S2P Require Import Prelude Ber CStr Oid OidTheorems Inst.
Local Open Scope Z_scope.

(** ** Trees *)

Section node_ind.
Variable P : TnmSnmpNode -> Prop.
Hypothesis step : forall nd cs, Forall P cs -> P (Node nd cs).

Fixpoint node_tree_ind (t : TnmSnmpNode) : P t :=
  match t with
  | Node nd cs =>
      step nd cs ((fix go (cs : list TnmSnmpNode) : Forall P cs :=
        match cs with
        | [] => List.Forall_nil _
        | c :: cs => List.Forall_cons _ c cs (node_tree_ind c) (go cs)
        end) cs)
  end.
End node_ind.

(** Siblings are in the order of their subidentifiers. *)
Definition before (a b : TnmSnmpNode) : Prop := subid a < subid b.

Inductive ordered : TnmSnmpNode -> Prop :=
  | ordered_Node nd cs : StronglySorted before cs -> Forall ordered cs -> ordered (Node nd cs).

Definition level_ordered (ps : list TnmSnmpNode) : Prop := StronglySorted before ps /\ Forall ordered ps.

Lemma ordered_children t : ordered t -> level_ordered (children t).
Proof. by intros [nd cs ? ?]. Qed.

Lemma level_ordered_cons p ps :
  level_ordered (p :: ps) <-> ordered p /\ level_ordered ps /\ Forall (before p) ps.
Proof.
  unfold level_ordered. split.
  - intros [Hs Ho]. apply StronglySorted_inv in Hs as [? ?]. inversion Ho; subst. done.
  - intros (? & [? ?] & ?). split; [by constructor|by constructor].
Qed.

Lemma next_node_eq nd cs oid force :
  next_node (Node nd cs) oid force =
  match cs with
  | _ :: _ =>
      if bool_decide (0 < length oid)%nat && bool_decide (nd_subid nd = oid !!! 0%nat)
      then next_level true cs (drop 1 oid) force
      else if bool_decide (nd_syntax nd <> 0) then (Some (Node nd cs), force)
      else next_level true cs [] true
  | [] =>
      if bool_decide (length oid = 0)%nat && bool_decide (nd_syntax nd <> 0) then (Some (Node nd cs), force)
      else if ((bool_decide (0 < length oid)%nat && bool_decide (nd_subid nd <> oid !!! 0%nat)) || force)
              && bool_decide (nd_syntax nd <> 0)
      then (Some (Node nd cs), force)
      else (None, true)
  end.
Proof. by destruct cs. Qed.

(** ** The instances of a tree *)

(** The instances in the order of the tree, with their paths. *)
Fixpoint instances (t : TnmSnmpNode) : list (list Z * node) :=
  let '(Node nd cs) := t in
  (if bool_decide (nd_syntax nd <> 0) then [([nd_subid nd], nd)] else [])
  ++ map (fun i => (nd_subid nd :: i.1, i.2)) (concat (map instances cs)).

Definition level_instances (ps : list TnmSnmpNode) : list (list Z * node) := concat (map instances ps).

(** Those behind an identifier, and the first of them. *)
Definition after (oid : list Z) (l : list (list Z * node)) : list (list Z * node) :=
  filter (fun i => lex oid i.1 = -1) l.
Definition first_after (oid : list Z) (l : list (list Z * node)) : option node := snd <$> head (after oid l).

Lemma after_app oid l1 l2 : after oid (l1 ++ l2) = after oid l1 ++ after oid l2.
Proof. apply filter_app. Qed.

Lemma first_after_app oid l1 l2 :
  first_after oid (l1 ++ l2) = match first_after oid l1 with Some n => Some n | None => first_after oid l2 end.
Proof. unfold first_after. rewrite after_app. by destruct (after oid l1). Qed.

Lemma instances_head t i : i ∈ instances t -> exists r, i.1 = subid t :: r.
Proof.
  destruct t as [nd cs]. simpl. rewrite elem_of_app. intros [Hi|Hi].
  - case_bool_decide; [|by apply elem_of_nil in Hi]. apply list_elem_of_singleton in Hi as ->. by eexists.
  - apply list_elem_of_In, in_map_iff in Hi as (j & <- & _). by eexists.
Qed.

Lemma after_all oid l : (forall i, i ∈ l -> lex oid i.1 = -1) -> after oid l = l.
Proof.
  intros H. unfold after. induction l as [|i l IH]; [done|].
  rewrite filter_cons_True by (apply H; left). f_equal. apply IH. intros j Hj. apply H. by right.
Qed.

Lemma after_none oid l : (forall i, i ∈ l -> lex oid i.1 <> -1) -> after oid l = [].
Proof.
  intros H. unfold after. induction l as [|i l IH]; [done|].
  rewrite filter_cons_False by (apply H; left). apply IH. intros j Hj. apply H. by right.
Qed.

(** All instances of a subtree are behind a smaller identifier, none behind a
    larger one; on the path itself those of the children count. *)
Lemma after_larger oid t : (oid = [] \/ oid !!! 0%nat < subid t) -> after oid (instances t) = instances t.
Proof.
  intros H. apply after_all. intros i (r & ->)%instances_head.
  destruct oid as [|x oid]; [done|]. destruct H as [?|H]; [done|]. simpl in *.
  by rewrite bool_decide_eq_true_2.
Qed.

Lemma after_smaller x oid t : subid t < x -> after (x :: oid) (instances t) = [].
Proof.
  intros H. apply after_none. intros i (r & ->)%instances_head. simpl.
  rewrite bool_decide_eq_false_2 by lia. by rewrite bool_decide_eq_true_2 by lia.
Qed.

Lemma after_map x oid l :
  after (x :: oid) (map (fun i => (x :: i.1, i.2)) l) = map (fun i => (x :: i.1, i.2)) (after oid l).
Proof.
  unfold after. induction l as [|i l IH]; [done|]. cbn [map].
  assert (Hl : lex (x :: oid) (x :: i.1) = lex oid i.1).
  { simpl. by rewrite !bool_decide_eq_false_2 by lia. }
  destruct (decide (lex oid i.1 = -1)) as [H|H].
  - rewrite !filter_cons_True by (cbn [fst]; rewrite ?Hl; done). cbn [map]. by rewrite IH.
  - rewrite !filter_cons_False by (cbn [fst]; rewrite ?Hl; done). apply IH.
Qed.

Lemma first_after_map x oid l :
  first_after (x :: oid) (map (fun i => (x :: i.1, i.2)) l) = first_after oid l.
Proof. unfold first_after. rewrite after_map. by destruct (after oid l). Qed.

(** ** The next node *)

(** The last disjunct is the position where the identifier itself may be: the
    flag [force] has not been set there. *)
Definition next_pre (oid : list Z) (force : bool) (p : TnmSnmpNode) : Prop :=
  oid = [] \/ oid !!! 0%nat < subid p \/ (oid !!! 0%nat = subid p /\ force = false).

Lemma next_level_spec_of ps :
  Forall (fun p => forall oid force, ordered p -> next_pre oid force p ->
    nd_of <$> (next_node p oid force).1 = first_after oid (instances p)) ps ->
  forall skip oid force, level_ordered ps ->
  (skip = true /\ (oid = [] \/ force = false)) \/ (oid = [] \/ Forall (fun p => oid !!! 0%nat < subid p) ps) ->
  nd_of <$> (next_level skip ps oid force).1 = first_after oid (level_instances ps).
Proof.
  induction 1 as [|p ps Hp _ IH]; intros skip oid force Ho Hpre; [done|].
  apply level_ordered_cons in Ho as (Hop & Hol & Hbef).
  cbn [next_level]. unfold level_instances. cbn [map concat]. fold (level_instances ps).
  rewrite first_after_app.
  destruct (skip && bool_decide (0 < length oid)%nat && bool_decide (subid p < oid !!! 0%nat)) eqn:Hskip.
  - apply andb_true_iff in Hskip as [[-> Hl]%andb_true_iff Hlt].
    apply bool_decide_eq_true in Hl, Hlt. destruct oid as [|x oid]; [simpl in Hl; lia|].
    assert (first_after (x :: oid) (instances p) = None) as ->
      by (unfold first_after; by rewrite after_smaller).
    rewrite IH; [done|done|]. destruct Hpre as [[_ ?]|[?|Hf]]; [by left; split|done|].
    apply Forall_cons in Hf as [? _]. simpl in *. lia.
  - assert (Hnext : next_pre oid force p).
    { destruct oid as [|x oid]; [by left|]. right. simpl in *.
      destruct Hpre as [[-> [?| ->]]|[?|Hf]]; [done| |done|].
      - cbn in Hskip. apply bool_decide_eq_false in Hskip. lia.
      - apply Forall_cons in Hf as [? _]. by left. }
    specialize (Hp oid force Hop Hnext). destruct (next_node p oid force) as [[inst|] force'];
      simpl in Hp; rewrite <- Hp; [done|].
    apply IH; [done|]. right. destruct oid as [|x oid]; [by left|]. right.
    eapply Forall_impl; [exact Hbef|]. intros q Hq. unfold before in Hq. simpl.
    destruct Hnext as [?|[?|[? _]]]; [done|simpl in *; lia|simpl in *; lia].
Qed.

Lemma next_node_spec p : forall oid force, ordered p -> next_pre oid force p ->
  nd_of <$> (next_node p oid force).1 = first_after oid (instances p).
Proof.
  induction p as [nd cs IH] using node_tree_ind. intros oid force Ho Hpre.
  pose proof (ordered_children _ Ho) as Hl. simpl in Hl.
  pose proof (next_level_spec_of cs IH) as Hlevel. rewrite next_node_eq.
  destruct (decide (oid = [] \/ oid !!! 0%nat < nd_subid nd)) as [Hlt|Hge].
  - unfold first_after. rewrite after_larger by done.
    assert (Hb : bool_decide (0 < length oid)%nat && bool_decide (nd_subid nd = oid !!! 0%nat) = false).
    { destruct oid as [|x oid]; [done|]. destruct Hlt as [?|Hlt]; [done|].
      apply andb_false_intro2, bool_decide_eq_false_2. lia. }
    rewrite Hb. cbn [instances]. destruct (decide (nd_syntax nd <> 0)) as [Hs|Hs].
    + rewrite (bool_decide_eq_true_2 (nd_syntax nd <> 0)) by done. rewrite !andb_true_r. destruct cs as [|c cs]; [|done].
      destruct oid as [|x oid]; [done|]. destruct Hlt as [?|Hlt]; [done|]. simpl in *.
      by rewrite (bool_decide_eq_true_2 (nd_subid nd <> x)) by lia.
    + rewrite (bool_decide_eq_false_2 (nd_syntax nd <> 0)) by done. rewrite !andb_false_r. cbn [app].
      destruct cs as [|c cs]; [done|]. rewrite Hlevel; [|done|by left; split; [|left]].
      unfold first_after. rewrite after_all; [unfold level_instances; by destruct (concat (map instances (c :: cs)))|].
      intros i Hi. unfold level_instances in Hi. apply list_elem_of_In, in_concat in Hi as (l & Hin & Hi).
      apply in_map_iff in Hin as (q & <- & _). apply list_elem_of_In, instances_head in Hi as (r & ->). done.
  - destruct oid as [|x oid]; [tauto|]. destruct Hpre as [?|[?|[Hx ->]]]; [done|tauto|].
    simpl in Hx. change (subid (Node nd cs)) with (nd_subid nd) in Hx. subst x. cbn [length drop lookup_total list_lookup_total].
    rewrite (bool_decide_eq_true_2 (0 < S (length oid))%nat) by lia.
    rewrite (bool_decide_eq_true_2 (nd_subid nd = nd_subid nd)) by done.
    cbn [instances]. rewrite first_after_app, first_after_map.
    assert (Hself : first_after (nd_subid nd :: oid)
      (if bool_decide (nd_syntax nd <> 0) then [([nd_subid nd], nd)] else []) = None).
    { unfold first_after. rewrite after_none; [done|]. case_bool_decide; [|by intros i ?%elem_of_nil].
      intros i ->%list_elem_of_singleton. simpl. rewrite !bool_decide_eq_false_2 by lia. by destruct oid. }
    rewrite Hself. destruct cs as [|c cs].
    + rewrite (bool_decide_eq_false_2 (S (length oid) = 0)%nat) by lia.
      rewrite (bool_decide_eq_false_2 (nd_subid nd <> nd_subid nd)) by (intros Hn; by apply Hn). done.
    + cbn [andb]. rewrite Hlevel; [done|done|]. left. split; [done|by right].
Qed.

Lemma next_level_spec ps oid : level_ordered ps ->
  nd_of <$> (next_level true ps oid false).1 = first_after oid (level_instances ps).
Proof.
  intros. apply next_level_spec_of; [|done|by left; split; [|right]].
  apply Forall_forall. intros p _. apply next_node_spec.
Qed.

(** The instances of [instTree]. *)
Definition all_instances (root : option TnmSnmpNode) : list (list Z * node) :=
  from_option instances [] root.

Lemma find_next_node_spec root oid :
  from_option ordered True root ->
  nd_of <$> FindNextNode root oid = first_after oid (all_instances root).
Proof.
  intros Ho. unfold FindNextNode. rewrite next_level_spec.
  - destruct root; [|done]. unfold level_instances. cbn. by rewrite app_nil_r.
  - destruct root; cbn; [|by split; constructor]. split; repeat constructor. done.
Qed.

(** ** Paths *)

Lemma find_child_in x cs c : find_child x cs = Some c -> c ∈ cs /\ subid c = x.
Proof.
  induction cs as [|d cs IH]; [done|]. cbn [find_child]. case_bool_decide as Hd.
  - intros [= <-]. split; [left|done].
  - intros [? ?]%IH. split; [by right|done].
Qed.

Lemma find_child_ordered cs c : StronglySorted before cs -> c ∈ cs -> find_child (subid c) cs = Some c.
Proof.
  induction 1 as [|d cs Hs IH Hd]; [by intros ?%elem_of_nil|]. intros [->|Hc]%elem_of_cons; cbn [find_child].
  - by rewrite bool_decide_eq_true_2.
  - rewrite Forall_forall in Hd. specialize (Hd c Hc). unfold before in Hd.
    rewrite bool_decide_eq_false_2 by lia. by apply IH.
Qed.

Lemma level_instances_in ps i : i ∈ level_instances ps <-> exists p, p ∈ ps /\ i ∈ instances p.
Proof.
  unfold level_instances. rewrite list_elem_of_In, in_concat. split.
  - intros (l & (p & <- & Hp)%in_map_iff & Hi). exists p. by rewrite !list_elem_of_In.
  - intros (p & Hp & Hi). exists (instances p).
    split; [apply in_map|]; by apply list_elem_of_In.
Qed.

Lemma instances_cons nd cs i : i ∈ instances (Node nd cs) <->
  (nd_syntax nd <> 0 /\ i = ([nd_subid nd], nd)) \/
  exists j, j ∈ level_instances cs /\ i = (nd_subid nd :: j.1, j.2).
Proof.
  cbn [instances]. rewrite elem_of_app. fold (level_instances cs).
  assert (Hmap : i ∈ map (fun i => (nd_subid nd :: i.1, i.2)) (level_instances cs)
    <-> exists j, j ∈ level_instances cs /\ i = (nd_subid nd :: j.1, j.2)).
  { rewrite list_elem_of_In, in_map_iff. split; intros (j & ? & ?); exists j; rewrite list_elem_of_In in *; done. }
  rewrite Hmap. case_bool_decide; [rewrite list_elem_of_singleton; tauto|]. rewrite elem_of_nil. tauto.
Qed.

Lemma instances_find t : ordered t -> forall r nd,
  (subid t :: r, nd) ∈ instances t <->
  exists q, find_path t r = Some q /\ nd_of q = nd /\ nd_syntax nd <> 0.
Proof.
  induction t as [nd cs IH] using node_tree_ind. intros Ho r nd'.
  apply ordered_children in Ho as [Hs Hf]. simpl in Hs, Hf. rewrite instances_cons.
  change (subid (Node nd cs)) with (nd_subid nd). destruct r as [|x r]; cbn [find_path].
  - split.
    + intros [[? [= ->]]|([o n] & Hj & [= <- ->])]; [by eexists|].
      apply level_instances_in in Hj as (p & _ & (r & Hr)%instances_head). done.
    + intros (q & [= <-] & <- & ?). by left.
  - cbn [children]. rewrite !Forall_forall in IH, Hf. split.
    + intros [[_ [=]]|([o n] & Hj & [= <- ->])]. apply level_instances_in in Hj as (p & Hp & Hi).
      pose proof (instances_head _ _ Hi) as (r' & [= -> ->]).
      rewrite (find_child_ordered _ _ Hs Hp). simpl. by apply (IH p Hp (Hf p Hp)).
    + intros (q & Hq & Hn). destruct (find_child x cs) as [c|] eqn:Hc; [|done]. simpl in Hq.
      apply find_child_in in Hc as [Hc <-]. right. exists (subid c :: r, nd'). split; [|done].
      apply level_instances_in. exists c. split; [done|]. apply (IH c Hc (Hf c Hc)). eauto.
Qed.

(** The instances are in lexicographic order. *)
Definition inst_lt (i j : list Z * node) : Prop := lex i.1 j.1 = -1.

Lemma inst_lt_cons x i j : inst_lt i j -> inst_lt (x :: i.1, i.2) (x :: j.1, j.2).
Proof. unfold inst_lt. simpl. by rewrite !bool_decide_eq_false_2 by lia. Qed.

Lemma StronglySorted_app_2 {A} (R : A -> A -> Prop) l1 l2 :
  StronglySorted R l1 -> StronglySorted R l2 -> (forall x y, x ∈ l1 -> y ∈ l2 -> R x y) ->
  StronglySorted R (l1 ++ l2).
Proof.
  induction 1 as [|x l1 Hs IH Hx]; intros H2 H; [done|]. cbn [app]. constructor.
  - apply IH; [done|]. intros y z ? ?. apply H; [by right|done].
  - apply Forall_app. split; [done|]. apply Forall_forall. intros y Hy. apply H; [left|done].
Qed.

Lemma level_instances_sorted ps :
  StronglySorted before ps -> Forall (fun p => StronglySorted inst_lt (instances p)) ps ->
  StronglySorted inst_lt (level_instances ps).
Proof.
  unfold level_instances. induction 1 as [|p ps Hs IH Hp]; intros Hf; [constructor|].
  apply Forall_cons in Hf as [Hi Hf]. cbn [map concat]. apply StronglySorted_app_2; [done|by apply IH|].
  intros i j Hi' (q & Hq & Hj)%level_instances_in.
  apply instances_head in Hi' as (r & E1), Hj as (r' & E2). unfold inst_lt. rewrite E1, E2. simpl.
  rewrite Forall_forall in Hp. specialize (Hp q Hq). unfold before in Hp. by rewrite bool_decide_eq_true_2.
Qed.

Lemma StronglySorted_map {A} (R : A -> A -> Prop) (f : A -> A) l :
  (forall x y, R x y -> R (f x) (f y)) -> StronglySorted R l -> StronglySorted R (map f l).
Proof.
  intros H. induction 1 as [|x l Hs IH Hx]; [constructor|]. cbn [map]. constructor; [done|].
  apply Forall_map. eapply Forall_impl; [exact Hx|]. intros y ?. by apply H.
Qed.

Lemma instances_sorted t : ordered t -> StronglySorted inst_lt (instances t).
Proof.
  induction t as [nd cs IH] using node_tree_ind. intros Ho.
  apply ordered_children in Ho as [Hs Hf]. cbn [children] in *. cbn [instances]. fold (level_instances cs).
  assert (Hl : StronglySorted inst_lt (level_instances cs)).
  { apply level_instances_sorted; [done|]. rewrite Forall_forall in *. intros p Hp. by apply IH, Hf. }
  apply StronglySorted_app_2; [case_bool_decide; repeat constructor| |].
  - apply (StronglySorted_map inst_lt (fun i => (nd_subid nd :: i.1, i.2))); [|done].
    intros. by apply inst_lt_cons.
  - intros i j Hi Hj. case_bool_decide; [|by apply elem_of_nil in Hi].
    apply list_elem_of_singleton in Hi as ->. apply list_elem_of_In, in_map_iff in Hj as (k & <- & Hk).
    apply list_elem_of_In, level_instances_in in Hk as (q & _ & (r & Er)%instances_head).
    unfold inst_lt. simpl. rewrite Er. by rewrite !bool_decide_eq_false_2 by lia.
Qed.

(** ** The invariant *)

(** The identifier a label stands for. *)
Definition label_oid (label : cstring) : option (list Z) :=
  '(v, n) ← TnmStrToOid label; Some (take n v).

(** What holds of [instTree]: the siblings are ordered, the root is the node 1,
    no instance and without a variable, and the labels of the instances name their paths. *)
Definition inst_ok (root : option TnmSnmpNode) : Prop :=
  match root with
  | None => True
  | Some t =>
      ordered t /\ subid t = 1 /\ (nd_syntax (nd_of t) = 0 /\ nd_tclVarName (nd_of t) = None) /\
      forall o n, FindInstance root o = Some n -> label_oid (nd_label (nd_of n)) = Some o
  end.

Lemma inst_ok_ordered root : inst_ok root -> from_option ordered True root.
Proof. destruct root; [|done]. by intros (? & _). Qed.

Lemma find_node_some root o q :
  FindNode root o = Some q <-> exists t y r, root = Some t /\ o = 1 :: y :: r /\ find_path t (y :: r) = Some q.
Proof.
  unfold FindNode. split.
  - case_bool_decide as Hx; [done|].
    destruct o as [|x [|y r]]; [done|done|]. simpl in Hx. subst x. cbn [drop].
    destruct root as [t|]; [|done]. intros E. by exists t, y, r.
  - intros (t & y & r & -> & -> & E). rewrite bool_decide_eq_false_2; [done|]. simpl. auto.
Qed.

Lemma find_instance_some root o n :
  FindInstance root o = Some n <-> FindNode root o = Some n /\ nd_syntax (nd_of n) <> 0.
Proof.
  unfold FindInstance. destruct (FindNode root o) as [q|]; simpl; [|split; [done|by intros [? _]]].
  case_bool_decide; (split; [|intros [[= ->] ?]]); try done. by intros [= ->].
Qed.

Lemma instances_in_tree t o nd : ordered t -> subid t = 1 -> nd_syntax (nd_of t) = 0 ->
  (o, nd) ∈ instances t <-> exists n, FindInstance (Some t) o = Some n /\ nd_of n = nd.
Proof.
  intros Ho H1 H0. setoid_rewrite find_instance_some. setoid_rewrite find_node_some. split.
  - intros Hin. pose proof (instances_head _ _ Hin) as (r & Hr). cbn [fst] in Hr. subst o.
    apply (instances_find _ Ho) in Hin as (q & Hq & <- & Hs). exists q. split; [|done]. split; [|done].
    destruct r as [|y r]; [injection Hq as <-; done|]. exists t, y, r. by rewrite H1.
  - intros (n & ((t' & y & r & [= <-] & -> & Hq) & Hs) & <-). rewrite <- H1.
    apply (instances_find _ Ho). eauto.
Qed.

Lemma find_instance_null o : FindInstance None o = None.
Proof.
  destruct (FindInstance None o) as [n|] eqn:E; [|done].
  apply find_instance_some in E as [(? & ? & ? & ? & _)%find_node_some _]. done.
Qed.

Lemma find_instance_in root o nd : inst_ok root ->
  (o, nd) ∈ all_instances root <-> exists n, FindInstance root o = Some n /\ nd_of n = nd.
Proof.
  destruct root as [t|]; [intros (? & ? & [? _] & _); by apply instances_in_tree|].
  intros _. setoid_rewrite find_instance_null. split; [by intros ?%elem_of_nil|by intros (? & ? & _)].
Qed.

(** ** Getnext *)

Lemma after_least oid l i : StronglySorted inst_lt l -> head (after oid l) = Some i ->
  i ∈ l /\ lex oid i.1 = -1 /\ forall j, j ∈ l -> lex oid j.1 = -1 -> i = j \/ inst_lt i j.
Proof.
  unfold after. induction 1 as [|k l Hs IH Hk]; [done|].
  destruct (decide (lex oid k.1 = -1)) as [Hlt|Hlt].
  - rewrite filter_cons_True by done. intros [= <-]. split; [left|]. split; [done|].
    intros j [->|Hj]%elem_of_cons _; [by left|right]. rewrite Forall_forall in Hk. by apply Hk.
  - rewrite filter_cons_False by done. intros (Hi & Hi' & Hl)%IH. split; [by right|]. split; [done|].
    intros j [->|Hj]%elem_of_cons Hj'; [done|]. by apply Hl.
Qed.

Lemma all_instances_sorted root : inst_ok root -> StronglySorted inst_lt (all_instances root).
Proof. destruct root; [|intros _; constructor]. intros (? & _). by apply instances_sorted. Qed.

Lemma instances_syntax root i : inst_ok root -> i ∈ all_instances root ->
  nd_syntax i.2 <> 0 /\ label_oid (nd_label i.2) = Some i.1.
Proof.
  intros Hok Hi. destruct i as [o nd]. apply (find_instance_in _ _ _ Hok) in Hi as (n & Hn & <-).
  split; [by apply find_instance_some in Hn as [_ ?]|].
  destruct root as [t|]; [by apply Hok|by rewrite find_instance_null in Hn].
Qed.

(** What is found is the first instance behind the identifier. *)
Lemma find_next_first root oid : inst_ok root ->
  match FindNextInstance root oid with
  | Some n => exists o, head (after oid (all_instances root)) = Some (o, nd_of n)
  | None => after oid (all_instances root) = []
  end.
Proof.
  intros Hok. pose proof (find_next_node_spec root oid (inst_ok_ordered _ Hok)) as Hn.
  unfold FindNextInstance, first_after in *.
  destruct (after oid (all_instances root)) as [|[o nd] l] eqn:Ha; destruct (FindNextNode root oid) as [q|];
    try done. injection Hn as <-. simpl. rewrite bool_decide_eq_true_2; [by eexists|].
  assert (Hin : (o, nd_of q) ∈ all_instances root).
  { apply (list_elem_of_filter (fun i => lex oid i.1 = -1)). unfold after in Ha. rewrite Ha. left. }
  by apply (instances_syntax _ _ Hok) in Hin as [? _].
Qed.

(** C20: A getnext request is answered with the lexicographic successor.
    [FindNextInstance] returns the instance with the smallest object identifier
    behind the given one among all the instances [FindInstance] knows, and its
    label is that identifier; it returns nothing exactly when there is no
    instance behind. *)
Theorem inst_next root oid : inst_ok root ->
  match FindNextInstance root oid with
  | Some n =>
      exists o n', label_oid (nd_label (nd_of n)) = Some o /\
        FindInstance root o = Some n' /\ nd_of n' = nd_of n /\ lex oid o = -1 /\
        forall o2 n2, FindInstance root o2 = Some n2 -> lex oid o2 = -1 -> o2 = o \/ lex o o2 = -1
  | None => forall o2 n2, FindInstance root o2 = Some n2 -> lex oid o2 <> -1
  end.
Proof.
  intros Hok. pose proof (find_next_first root oid Hok) as Hf.
  assert (Hin : forall o2 n2, FindInstance root o2 = Some n2 -> (o2, nd_of n2) ∈ all_instances root).
  { intros o2 n2 H. apply find_instance_in; eauto. }
  destruct (FindNextInstance root oid) as [n|].
  - destruct Hf as [o Ho]. apply after_least in Ho as (Hi & Hlt & Hleast); [|by apply all_instances_sorted].
    pose proof (instances_syntax _ _ Hok Hi) as [_ Hlab].
    apply (find_instance_in _ _ _ Hok) in Hi as (n' & Hn' & E). exists o, n'. split_and!; try done.
    intros o2 n2 H2%Hin Hlt2. destruct (Hleast _ H2 Hlt2) as [[= <- _]|?]; [by left|by right].
  - intros o2 n2 H2%Hin Hlt.
    assert (Ha : (o2, nd_of n2) ∈ after oid (all_instances root)) by (by apply list_elem_of_filter).
    rewrite Hf in Ha. by apply elem_of_nil in Ha.
Qed.

(** ** Walking *)

(** Following getnext from an identifier on, as a manager does. *)
Fixpoint walk (fuel : nat) (root : option TnmSnmpNode) (oid : list Z) : list node :=
  match fuel with
  | O => []
  | S fuel =>
      match FindNextInstance root oid with
      | None => []
      | Some n => nd_of n :: walk fuel root (default [] (label_oid (nd_label (nd_of n))))
      end
  end.

Lemma after_tail l1 i l2 : StronglySorted inst_lt (l1 ++ i :: l2) -> after i.1 (l1 ++ i :: l2) = l2.
Proof.
  unfold after. induction l1 as [|k l1 IH]; cbn [app]; intros [Hs Hf]%StronglySorted_inv;
    rewrite Forall_forall in Hf.
  - rewrite filter_cons_False by (rewrite lex_refl; lia). apply after_all, Hf.
  - rewrite filter_cons_False; [by apply IH|].
    specialize (Hf i ltac:(apply elem_of_app; right; left)). unfold inst_lt in Hf. rewrite lex_opp, Hf. lia.
Qed.

Lemma walk_from root : inst_ok root -> forall l2 l1 oid fuel,
  all_instances root = l1 ++ l2 -> after oid (all_instances root) = l2 -> (length l2 < fuel)%nat ->
  walk fuel root oid = map snd l2.
Proof.
  intros Hok. induction l2 as [|i l2 IH]; intros l1 oid fuel Hall Ha Hf;
    (destruct fuel as [|fuel]; [lia|]); cbn [walk]; pose proof (find_next_first root oid Hok) as Hn;
    rewrite Ha in Hn.
  - destruct (FindNextInstance root oid); [by destruct Hn|done].
  - destruct (FindNextInstance root oid) as [n|]; [|done]. destruct Hn as [o [= ->]].
    assert (Hi : (o, nd_of n) ∈ all_instances root) by (rewrite Hall; apply elem_of_app; right; left).
    apply (instances_syntax _ _ Hok) in Hi as [_ Hlab]. simpl in Hlab. rewrite Hlab. cbn [default map snd].
    f_equal. apply (IH (l1 ++ [(o, nd_of n)])); [by rewrite Hall, <- app_assoc| |simpl in Hf; lia].
    rewrite Hall. apply (after_tail l1 (o, nd_of n) l2). rewrite <- Hall. by apply all_instances_sorted.
Qed.

(** C38: Walking the agent with getnext requests, each for the identifier of the
    last answer, visits every instance exactly once, in lexicographic order, and
    ends: the request after the last instance has no answer. *)
Theorem inst_walk root fuel : inst_ok root -> (length (all_instances root) < fuel)%nat ->
  let visited := walk fuel root [] in
  length visited = length (all_instances root) /\
  (forall nd, nd ∈ visited <-> exists o n, FindInstance root o = Some n /\ nd_of n = nd) /\
  StronglySorted (fun a b => exists o1 o2, label_oid (nd_label a) = Some o1 /\
    label_oid (nd_label b) = Some o2 /\ lex o1 o2 = -1) visited.
Proof.
  intros Hok Hf visited.
  assert (Hv : visited = map snd (all_instances root)).
  { apply (walk_from root Hok _ []); [done| |done].
    apply after_all. intros [o nd] Hi. apply (find_instance_in _ _ _ Hok) in Hi as (n & Hn & _).
    apply find_instance_some in Hn as [Hn _]. apply find_node_some in Hn as (? & ? & ? & _ & -> & _). done. }
  rewrite Hv, length_map. split; [done|]. split.
  - intros nd. rewrite list_elem_of_In, in_map_iff. split.
    + intros ([o nd'] & <- & Hi%list_elem_of_In). exists o. by apply find_instance_in.
    + intros (o & n & Hn & <-). exists (o, nd_of n). split; [done|].
      apply list_elem_of_In, find_instance_in; eauto.
  - pose proof (fun i => instances_syntax root i Hok) as Hlab. pose proof (all_instances_sorted _ Hok) as Hs.
    clear -Hlab Hs. induction Hs as [|i l Hs IH Hi]; [constructor|]. cbn [map]. constructor.
    + apply IH. intros j Hj. apply Hlab. by right.
    + apply Forall_map. rewrite Forall_forall in *. intros j Hj. exists i.1, j.1.
      split_and!; [by apply (Hlab i); left|by apply (Hlab j); right|by apply Hi].
Qed.

(** ** Adding *)

Lemma insert_after_perm n cs : insert_after n cs ≡ₚ n :: cs.
Proof.
  induction cs as [|q cs IH]; [done|]. cbn [insert_after]. destruct cs as [|r cs]; [apply Permutation_swap|].
  case_bool_decide; [rewrite IH; apply Permutation_swap|apply Permutation_swap].
Qed.

Lemma insert_child_perm n cs : insert_child n cs ≡ₚ n :: cs.
Proof.
  unfold insert_child. destruct cs as [|c cs]; [done|]. case_bool_decide; [done|apply insert_after_perm].
Qed.

Lemma insert_after_sorted n cs :
  StronglySorted before cs -> Forall (fun c => subid c <> subid n) cs ->
  match cs with c :: _ => subid c < subid n | [] => True end -> StronglySorted before (insert_after n cs).
Proof.
  induction 1 as [|q cs Hs IH Hq]; intros Hne Hlt; [repeat constructor|]. cbn [insert_after].
  apply Forall_cons in Hne as [_ Hne]. destruct cs as [|r cs].
  { repeat constructor. exact Hlt. }
  case_bool_decide as Hr.
  - specialize (IH Hne Hr). constructor; [exact IH|].
    rewrite insert_after_perm. constructor; [exact Hlt|exact Hq].
  - assert (Hnr : subid n < subid r) by (apply Forall_cons in Hne as [? _]; lia).
    constructor; [constructor; [done|]|].
    + constructor; [exact Hnr|]. apply StronglySorted_inv in Hs as [_ Hs].
      eapply Forall_impl; [exact Hs|]. unfold before. intros x Hx. simpl in Hx. lia.
    + constructor; [exact Hlt|exact Hq].
Qed.

Lemma insert_child_sorted n cs :
  StronglySorted before cs -> Forall (fun c => subid c <> subid n) cs ->
  StronglySorted before (insert_child n cs).
Proof.
  intros Hs Hne. unfold insert_child. destruct cs as [|c cs]; [repeat constructor|]. case_bool_decide as Hc.
  - constructor; [done|]. apply StronglySorted_inv in Hs as [_ Hs]. constructor; [exact Hc|].
    eapply Forall_impl; [exact Hs|]. unfold before. intros x Hx. simpl in Hx. lia.
  - apply insert_after_sorted; [done|done|]. apply Forall_cons in Hne as [? _]. lia.
Qed.

(** In an ordered level the child with a subidentifier is the member that has it. *)
Lemma find_child_iff cs x c : StronglySorted before cs ->
  find_child x cs = Some c <-> c ∈ cs /\ subid c = x.
Proof.
  intros Hs. split; [apply find_child_in|]. intros [Hc <-]. by apply find_child_ordered.
Qed.

Lemma find_child_none cs x : find_child x cs = None -> Forall (fun c => subid c <> x) cs.
Proof.
  induction cs as [|c cs IH]; [constructor|]. cbn [find_child]. case_bool_decide; [done|].
  intros. constructor; [done|by apply IH].
Qed.

Lemma insert_child_find n cs y :
  StronglySorted before cs -> find_child (subid n) cs = None ->
  find_child y (insert_child n cs) = if decide (y = subid n) then Some n else find_child y cs.
Proof.
  intros Hs Hn. pose proof (insert_child_sorted n cs Hs (find_child_none _ _ Hn)) as Hs'.
  assert (Hiff : forall c, find_child y (insert_child n cs) = Some c <->
    (if decide (y = subid n) then Some n else find_child y cs) = Some c).
  { intros c. rewrite (find_child_iff _ _ _ Hs'), insert_child_perm, elem_of_cons.
    destruct (decide (y = subid n)) as [->|Hy].
    - split; [|intros [= ->]; tauto]. intros [[->|Hc] Hsub]; [done|].
      pose proof (find_child_none _ _ Hn) as Hf. rewrite Forall_forall in Hf. by apply Hf in Hc.
    - rewrite (find_child_iff _ _ _ Hs). split; [|tauto]. intros [[->|Hc] Hsub]; [congruence|done]. }
  destruct (find_child y (insert_child n cs)) as [c|].
  - symmetry. by apply Hiff.
  - destruct (if decide (y = subid n) then Some n else find_child y cs) as [c|]; [|done].
    by apply (Hiff c).
Qed.

Lemma update_child_spec x f cs c c' :
  StronglySorted before cs -> find_child x cs = Some c -> f c = Some c' -> subid c' = x ->
  exists cs', update_child x f cs = Some cs' /\ StronglySorted before cs' /\
    (forall P : TnmSnmpNode -> Prop, Forall P cs -> P c' -> Forall P cs') /\
    forall y, find_child y cs' = if decide (y = x) then Some c' else find_child y cs.
Proof.
  intros Hs. induction Hs as [|d cs Hs IH Hd]; [done|]. cbn [find_child update_child].
  intros Hfind Hf Hx. case_bool_decide as Hdx.
  - injection Hfind as ->. rewrite Hf. cbn. eexists. split; [done|]. split; [|split].
    + constructor; [done|]. eapply Forall_impl; [exact Hd|]. unfold before. intros e. lia.
    + intros P [_ ?]%Forall_cons ?. by constructor.
    + intros y. cbn [find_child]. destruct (decide (y = x)) as [->|Hy].
      * by rewrite bool_decide_eq_true_2.
      * by rewrite !bool_decide_eq_false_2 by congruence.
  - destruct (IH Hfind Hf Hx) as (cs' & E & Hs' & HP & Hfc). rewrite E. cbn. eexists. split; [done|]. split; [|split].
    + constructor; [done|]. apply HP; [done|]. unfold before. rewrite Hx, <- (proj2 (find_child_in _ _ _ Hfind)).
      rewrite Forall_forall in Hd. apply Hd. by apply find_child_in in Hfind as [? _].
    + intros P [? ?]%Forall_cons ?. constructor; [done|by apply HP].
    + intros y. cbn [find_child]. destruct (decide (y = x)) as [->|Hy].
      * rewrite bool_decide_eq_false_2 by done. rewrite Hfc. by rewrite decide_True.
      * case_bool_decide; [done|]. rewrite Hfc. by rewrite decide_False.
Qed.

(** The fields of the node at the end of a path. *)
Definition node_at (t : TnmSnmpNode) (r : list Z) : option node := nd_of <$> find_path t r.

(** An instance at the end of a path. *)
Definition inst_at (t : TnmSnmpNode) (r : list Z) : option node :=
  nd ← node_at t r; if bool_decide (nd_syntax nd <> 0) then Some nd else None.

Lemma node_at_cons t x r :
  node_at t (x :: r) = match find_child x (children t) with Some c => node_at c r | None => None end.
Proof. unfold node_at. cbn [find_path]. by destruct (find_child x (children t)). Qed.

Lemma inst_at_cons t x r :
  inst_at t (x :: r) = match find_child x (children t) with Some c => inst_at c r | None => None end.
Proof. unfold inst_at. rewrite node_at_cons. by destruct (find_child x (children t)). Qed.

(** The bindings of the node at the end of a path; none if there is no node. *)
Definition binds (t : TnmSnmpNode) (r : list Z) : list TnmSnmpBinding := from_option nd_bindings [] (node_at t r).

Lemma binds_cons t x r :
  binds t (x :: r) = match find_child x (children t) with Some c => binds c r | None => [] end.
Proof. unfold binds. rewrite node_at_cons. by destruct (find_child x (children t)). Qed.

Lemma binds_new s x offset r : binds (new_node s x offset) r = [].
Proof. destruct r; [done|]. by rewrite binds_cons. Qed.

(** The variable of the node at the end of a path. *)
Definition var_at (t : TnmSnmpNode) (r : list Z) : option cstring := node_at t r ≫= nd_tclVarName.

Lemma var_at_cons t x r :
  var_at t (x :: r) = match find_child x (children t) with Some c => var_at c r | None => None end.
Proof. unfold var_at. rewrite node_at_cons. by destruct (find_child x (children t)). Qed.

Lemma var_at_new s x offset r : var_at (new_node s x offset) r = None.
Proof. destruct r; [done|]. by rewrite var_at_cons. Qed.

(** A node that was just made has no instances below. *)
Lemma inst_at_new s x offset r : inst_at (new_node s x offset) r = None.
Proof. destruct r; [done|]. by rewrite inst_at_cons. Qed.

Lemma last_cons (x : Z) l d : List.last (x :: l) d = List.last l x.
Proof.
  revert x d. induction l as [|y l IH]; intros x d; [done|].
  change (List.last (x :: y :: l) d) with (List.last (y :: l) d). by rewrite !IH.
Qed.

Section add.
Variables (oid : list Z) (offset : Z) (set : node -> node).
Hypothesis set_subid : forall nd, nd_subid (set nd) = nd_subid nd.

(** The data a new node at the end of the path would have before it is set. *)
Definition fresh_at (t : TnmSnmpNode) (r : list Z) (nd : node) : Prop :=
  node_at t r = Some nd \/ (node_at t r = None /\ nd_bindings nd = []).

Lemma add_path_spec rest : forall i t,
  ordered t -> (forall j, (i < j <= i + length rest)%nat -> is_Some (TnmOidToStr oid j)) ->
  exists t', add_path oid offset set i rest t = Some t' /\ ordered t' /\ subid t' = subid t /\
    (rest <> [] -> nd_of t' = nd_of t) /\
    (exists nd, fresh_at t rest nd /\ node_at t' rest = Some (set nd) /\
                nd_subid nd = List.last rest (subid t)) /\
    (forall r, r <> rest -> inst_at t' r = inst_at t r /\ binds t' r = binds t r /\ var_at t' r = var_at t r).
Proof using set_subid.
  induction rest as [|x rest IH]; intros i t Ho Hstr; cbn [add_path].
  - eexists. split; [done|]. destruct t as [nd cs]. split; [by apply ordered_children in Ho as [? ?]; constructor|].
    split; [apply set_subid|]. split; [done|]. split; [exists nd; split_and!; [by left|done|done]|].
    intros [|y r]; [done|]. intros _. by rewrite !inst_at_cons, !binds_cons, !var_at_cons.
  - pose proof (ordered_children _ Ho) as [Hs Hf].
    assert (Hens : exists cs c, match find_child x (children t) with
        | Some _ => Some (children t)
        | None => s ← TnmOidToStr oid (S i); Some (insert_child (new_node s x offset) (children t))
        end = Some cs /\ StronglySorted before cs /\ Forall ordered cs /\
        find_child x cs = Some c /\
        (forall y, y <> x -> find_child y cs = find_child y (children t)) /\
        (find_child x (children t) = Some c \/
         (find_child x (children t) = None /\ exists s, c = new_node s x offset))).
    { destruct (find_child x (children t)) as [c|] eqn:Hc; [exists (children t), c; split_and!; auto|].
      destruct (Hstr (S i)) as [s ->]; [simpl; lia|]. cbn.
      eexists _, (new_node s x offset). split; [done|].
      pose proof (find_child_none _ _ Hc) as Hne. pose proof (insert_child_find (new_node s x offset) (children t)) as Hfc.
      change (subid (new_node s x offset)) with x in Hfc.
      split; [by apply insert_child_sorted|]. split; [rewrite insert_child_perm; constructor; [repeat constructor|done]|].
      split; [by rewrite Hfc, decide_True|]. split; [intros y Hy; by rewrite Hfc, decide_False|].
      right. split; [done|by eexists]. }
    destruct Hens as (cs & c & -> & Hs' & Hf' & Hc & Hother & Hcase).
    cbn [mbind option_bind].
    assert (Hoc : ordered c) by (rewrite Forall_forall in Hf'; apply Hf'; by apply find_child_in in Hc as [? _]).
    destruct (IH (S i) c Hoc) as (c' & Ec & Hoc' & Hsub & Hnd & (nd & Hfresh & Hat & Hlast) & Hrest).
    { intros j Hj. apply Hstr. simpl. lia. }
    pose proof (proj2 (find_child_in _ _ _ Hc)) as Hcx.
    destruct (update_child_spec x _ cs c c' Hs' Hc Ec ltac:(congruence)) as (cs' & -> & Hs2 & HP & Hfc).
    cbn [mbind option_bind].
    eexists. split; [done|]. split; [constructor; [done|by apply HP]|]. split; [done|]. split; [done|]. split.
    + exists nd. rewrite node_at_cons. cbn [children]. rewrite Hfc, decide_True by done.
      split; [|split; [done|]].
      * unfold fresh_at in *. rewrite node_at_cons. destruct Hcase as [->|[-> (s & ->)]]; [done|].
        right. split; [done|]. destruct Hfresh as [Hfr|[_ ?]]; [|done].
        destruct rest as [|z rest]; [by injection Hfr as <-|]. by rewrite node_at_cons in Hfr.
      * rewrite Hlast, Hcx. by rewrite last_cons.
    + intros [|y r] Hr; [done|]. rewrite !inst_at_cons, !binds_cons, !var_at_cons. cbn [children]. rewrite Hfc.
      destruct (decide (y = x)) as [->|Hy]; [|by rewrite Hother].
      destruct (Hrest r) as (-> & -> & ->); [congruence|]. destruct Hcase as [->|[-> (s & ->)]]; [done|].
      by rewrite inst_at_new, binds_new, var_at_new.
Qed.
End add.

Lemma inst_at_some t r nd :
  inst_at t r = Some nd <-> exists q, find_path t r = Some q /\ nd_of q = nd /\ nd_syntax nd <> 0.
Proof.
  unfold inst_at, node_at. destruct (find_path t r) as [q|]; simpl.
  - case_bool_decide; split; [intros [= <-]; eauto|by intros (? & [= <-] & <- & _)|done|].
    by intros (? & [= <-] & <- & ?).
  - split; [done|by intros (? & ? & _)].
Qed.

(** Instances through their paths below the root. *)
Lemma find_instance_at t o :
  nd_syntax (nd_of t) = 0 ->
  nd_of <$> FindInstance (Some t) o =
  match o with 1 :: r => inst_at t r | _ => None end.
Proof.
  intros H0. apply option_eq. intros nd. rewrite fmap_Some. setoid_rewrite find_instance_some.
  setoid_rewrite find_node_some. split.
  - intros (n & [(t' & y & r & [= <-] & -> & Hp) Hs] & ->). apply inst_at_some. eauto.
  - destruct o as [|[|[| |]|] r]; try done. intros (q & Hq & <- & Hs)%inst_at_some.
    destruct r as [|y r]; [by injection Hq as <-|]. exists q. split; [|done]. split; [|done]. eauto 10.
Qed.

Lemma dotted_take_le l n : (length (dotted (take n l)) <= length (dotted l))%nat.
Proof.
  revert n. induction l as [|v l IH]; intros [|n]; [simpl; lia..|]. cbn [take].
  destruct (take n l) as [|w l'] eqn:E; destruct l as [|w2 l2].
  - done.
  - rewrite (dotted_cons v (w2 :: l2)), length_app by done. simpl. lia.
  - by rewrite take_nil in E.
  - rewrite <- E, !dotted_cons, !length_app by (done || by rewrite E). cbn [length].
    specialize (IH n). lia.
Qed.

(** An identifier below the root whose dotted notation fits its buffer. *)
Definition inst_oid (oid : list Z) : Prop :=
  oid_value oid /\ oid !!! 0%nat = 1 /\ (length (dotted oid) < OID_STR_SIZE)%nat.

#[global] Instance inst_oid_dec oid : Decision (inst_oid oid).
Proof. unfold inst_oid. apply _. Defined.

Lemma inst_oid_strings oid j : inst_oid oid -> (1 <= j <= length oid)%nat ->
  is_Some (TnmOidToStr (oid ++ replicate (TNM_OID_MAX_SIZE - length oid) 0) j).
Proof.
  intros ((Hlen & Hu & _) & _ & Hd) Hj. rewrite oid_to_str_spec.
  - rewrite take_app_le by lia. rewrite decide_True; [by eexists|].
    pose proof (dotted_take_le oid j). lia.
  - apply Forall_app. split; [done|]. apply Forall_replicate. unfold is_u32. lia.
  - rewrite length_app. lia.
Qed.

(** The bindings at an identifier. *)
Definition bindings_at (root : option TnmSnmpNode) (oid : list Z) : list TnmSnmpBinding :=
  from_option (fun q => nd_bindings (nd_of q)) [] (FindNode root oid).

Lemma inst_ok_root root : inst_ok root -> let t := default new_root root in
  ordered t /\ subid t = 1 /\ (nd_syntax (nd_of t) = 0 /\ nd_tclVarName (nd_of t) = None) /\
  (forall o, FindInstance (Some t) o = FindInstance root o) /\
  (forall o, FindNode (Some t) o = FindNode root o).
Proof.
  destruct root as [t|]; [intros (? & ? & ? & _); done|]. intros _. cbn.
  assert (Hf : forall o, FindNode (Some new_root) o = None).
  { intros o. unfold FindNode. case_bool_decide; [done|]. by destruct o as [|x [|y r]]. }
  split_and!; [repeat constructor|done|done|done| |].
  - intros o. unfold FindInstance. rewrite Hf. unfold FindNode. case_bool_decide; [done|].
    by destruct (drop 1 o).
  - intros o. rewrite Hf. unfold FindNode. case_bool_decide; [done|]. by destruct (drop 1 o).
Qed.

(** What [AddNode] makes of the fields of the node. *)
Definition set_fields (soid : cstring) (offset syntax access : Z) (var : option cstring) (nd : node) : node :=
  mkNode soid offset syntax access var (nd_bindings nd) (nd_subid nd).

(** The call of [add_path] in [AddNode]. *)
Lemma add_node_path root y oid offset syntax access var :
  let full := 1 :: y :: oid in
  inst_oid full ->
  AddNode root (dotted full) offset syntax access var =
  (tree ← add_path (full ++ replicate (TNM_OID_MAX_SIZE - length full) 0) offset
            (set_fields (dotted full) offset syntax access var) 1 (y :: oid) (default new_root root);
   Some (Some tree, Some full)).
Proof.
  intros full (Hval & _). unfold AddNode. rewrite (str_to_oid_spec full Hval). cbn [mbind option_bind].
  change ((full ++ replicate (TNM_OID_MAX_SIZE - length full) 0) !! 0%nat) with (Some 1).
  cbn [mbind option_bind].
  rewrite (bool_decide_eq_false_2 (1 <> 1)), (bool_decide_eq_false_2 (length full < 1)%nat),
    (bool_decide_eq_false_2 (length full = 1%nat)) by (simpl; lia). cbn [orb].
  by rewrite take_app_length.
Qed.

(** The instance at the end of the path, and the others. *)
Lemma add_path_instances root y oid t' nd (set : node -> node) :
  let full := 1 :: y :: oid in let t := default new_root root in
  inst_ok root -> nd_of t' = nd_of t -> fresh_at t (y :: oid) nd ->
  node_at t' (y :: oid) = Some (set nd) ->
  (forall r, r <> y :: oid -> inst_at t' r = inst_at t r /\ binds t' r = binds t r /\ var_at t' r = var_at t r) ->
  nd_bindings nd = bindings_at root full /\
  forall o, nd_of <$> FindInstance (Some t') o = if decide (o = full) then
    (if bool_decide (nd_syntax (set nd) <> 0) then Some (set nd) else None) else nd_of <$> FindInstance root o.
Proof.
  intros full t Hok Hnd Hfresh Hat Hrest.
  destruct (inst_ok_root root Hok) as (_ & _ & [H0 _] & Hinst & Hnode). fold t in H0, Hinst, Hnode. split.
  - unfold bindings_at. rewrite <- Hnode. unfold FindNode, full. cbn [drop].
    rewrite bool_decide_eq_false_2 by (simpl; auto). cbn [mbind option_bind]. unfold fresh_at, node_at in Hfresh.
    destruct (find_path t (y :: oid)); [destruct Hfresh as [[= <-]|[? _]]; done|]. by destruct Hfresh as [?|[_ ->]].
  - intros o. rewrite <- Hinst, !find_instance_at by (done || by rewrite Hnd).
    destruct (decide (o = full)) as [->|Hne].
    + unfold full at 1, inst_at. by rewrite Hat.
    + destruct o as [|[|[| |]|] r]; try done. apply Hrest. intros ->. by apply Hne.
Qed.

Lemma add_node_spec root oid offset syntax access var : inst_ok root -> inst_oid oid ->
  exists root', AddNode root (dotted oid) offset syntax access var = Some (root', Some oid) /\
    inst_ok root' /\
    forall o, nd_of <$> FindInstance root' o =
      if decide (o = oid) then
        if decide (syntax = 0) then None
        else Some (mkNode (dotted oid) offset syntax access var (bindings_at root oid) (List.last oid 1))
      else nd_of <$> FindInstance root o.
Proof.
  intros Hok Hoid. pose proof Hoid as (Hval & H1 & _). pose proof Hval as (Hlen & _).
  destruct (inst_ok_root root Hok) as (Ho & Hsub & [H0 Hv0] & _).
  destruct oid as [|x [|y oid]]; [simpl in Hlen; lia..|]. simpl in H1. subst x.
  rewrite add_node_path by done. set (full := 1 :: y :: oid) in *.
  destruct (add_path_spec (full ++ replicate (TNM_OID_MAX_SIZE - length full) 0) offset
    (set_fields (dotted full) offset syntax access var) ltac:(done) (y :: oid) 1 (default new_root root) Ho)
    as (t' & -> & Ho' & Hs' & Hnd & (nd & Hfresh & Hat & Hlast) & Hrest).
  { intros j Hj. apply inst_oid_strings; [done|]. simpl in *. lia. }
  specialize (Hnd ltac:(done)). cbn [mbind option_bind].
  destruct (add_path_instances root y oid t' nd _ Hok Hnd Hfresh Hat Hrest) as [Hbind Hall]. fold full in Hbind, Hall.
  assert (Hset : set_fields (dotted full) offset syntax access var nd =
    mkNode (dotted full) offset syntax access var (bindings_at root full) (List.last full 1)).
  { unfold set_fields. rewrite Hbind, Hlast, Hsub. by rewrite <- (last_cons 1 (y :: oid) 1). }
  rewrite Hset in Hall. cbn [nd_syntax] in Hall.
  exists (Some t'). split; [done|]. split; [unfold inst_ok; split_and!; [done|congruence|by rewrite Hnd|by rewrite Hnd|]|].
  - intros o n Hn. specialize (Hall o). rewrite Hn in Hall. cbn [fmap option_fmap option_map] in Hall.
    destruct (decide (o = full)) as [->|Hne].
    + destruct (bool_decide _); [|done]. apply (inj Some) in Hall. rewrite Hall. unfold label_oid. cbn [nd_label].
      rewrite (str_to_oid_spec full Hval). cbn [mbind option_bind]. by rewrite take_app_length.
    + destruct (FindInstance root o) as [n'|] eqn:En; [|done]. apply (inj Some) in Hall. rewrite Hall.
      destruct root as [t0|]; [by destruct Hok as (_ & _ & _ & Hlab); apply Hlab|].
      by rewrite find_instance_null in En.
  - intros o. rewrite Hall. destruct (decide (o = full)); [|done].
    case_bool_decide; [by rewrite decide_False|by rewrite decide_True].
Qed.

(** C37: [AddNode] implements insertion into a map.  For an identifier whose
    dotted notation fits the buffer it succeeds; afterwards [FindInstance] finds
    at that identifier an instance with the given fields (none if the syntax is
    0), which keeps the bindings made before, and every other instance is as it
    was, whatever intermediate nodes were created; the invariant of the tree is
    preserved. *)
Theorem inst_add root oid offset syntax access var : inst_ok root -> inst_oid oid ->
  exists root', AddNode root (dotted oid) offset syntax access var = Some (root', Some oid) /\
    inst_ok root' /\
    forall o, nd_of <$> FindInstance root' o =
      if decide (o = oid) then
        if decide (syntax = 0) then None
        else Some (mkNode (dotted oid) offset syntax access var (bindings_at root oid) (List.last oid 1))
      else nd_of <$> FindInstance root o.
Proof. apply add_node_spec. Qed.

(** ** Removing *)

Section remove.
Variable var : cstring.

Lemma remove_below_eq nd cs :
  remove_below var (Node nd cs) = Node nd (remove_first var (remove_level var cs)).
Proof. done. Qed.

Lemma remove_below_nd p : nd_of (remove_below var p) = nd_of p.
Proof. by destruct p. Qed.

Lemma remove_below_subid p : subid (remove_below var p) = subid p.
Proof. unfold subid. by rewrite remove_below_nd. Qed.

(** The nodes that stay, each with something removed below. *)
Inductive kept : list TnmSnmpNode -> list TnmSnmpNode -> Prop :=
  | kept_nil : kept [] []
  | kept_cons p ps qs : kept ps qs -> kept (p :: ps) (remove_below var p :: qs)
  | kept_skip p ps qs : kept ps qs -> kept (p :: ps) qs.

Lemma remove_level_kept n : forall ps, (length ps <= n)%nat -> kept ps (remove_level var ps).
Proof.
  induction n as [|n IH]; intros [|p ps] Hn; [apply kept_nil|simpl in Hn; lia|apply kept_nil|].
  destruct ps as [|q qs]; [apply kept_cons, kept_nil|].
  change (remove_level var (p :: q :: qs)) with (remove_below var p ::
    (if has_var var q then remove_level var qs else remove_level var (q :: qs))).
  apply kept_cons. destruct (has_var var q); [apply kept_skip|]; apply IH; simpl in *; lia.
Qed.

Lemma remove_first_kept ps qs : kept ps qs -> kept ps (remove_first var qs).
Proof.
  induction 1 as [|p ps qs H IH|p ps qs H IH]; [constructor| |by apply kept_skip].
  cbn [remove_first]. destruct (has_var var _); [by apply kept_skip|by apply kept_cons].
Qed.

Lemma kept_in ps qs x : kept ps qs -> x ∈ qs -> exists p, p ∈ ps /\ x = remove_below var p.
Proof.
  induction 1 as [|p ps qs H IH|p ps qs H IH]; [by intros ?%elem_of_nil|..].
  - intros [->|Hx]%elem_of_cons; [exists p; split; [left|done]|].
    destruct (IH Hx) as (q & ? & ->). exists q. split; [by right|done].
  - intros Hx. destruct (IH Hx) as (q & ? & ->). exists q. split; [by right|done].
Qed.

Lemma kept_sorted ps qs : kept ps qs -> StronglySorted before ps -> StronglySorted before qs.
Proof.
  induction 1 as [|p ps qs H IH|p ps qs H IH]; [done|..]; intros [Hs Hf]%StronglySorted_inv; [|by apply IH].
  constructor; [by apply IH|]. rewrite Forall_forall in *. intros x Hx.
  destruct (kept_in _ _ _ H Hx) as (q & Hq & ->). unfold before. rewrite !remove_below_subid. by apply Hf.
Qed.

Lemma remove_kept cs : kept cs (remove_first var (remove_level var cs)).
Proof. eapply remove_first_kept, remove_level_kept. done. Qed.

Lemma remove_below_ordered t : ordered t -> ordered (remove_below var t).
Proof.
  induction t as [nd cs IH] using node_tree_ind. intros Ho. apply ordered_children in Ho as [Hs Hf].
  rewrite remove_below_eq. pose proof (remove_kept cs) as Hk. constructor; [by eapply kept_sorted|].
  rewrite Forall_forall in *. intros x Hx. destruct (kept_in _ _ _ Hk Hx) as (q & Hq & ->).
  by apply IH, Hf.
Qed.

(** Nothing but removal happens. *)
Lemma remove_below_instances t i : i ∈ instances (remove_below var t) -> i ∈ instances t.
Proof.
  revert i. induction t as [nd cs IH] using node_tree_ind. intros i. rewrite remove_below_eq, !instances_cons.
  intros [?|(j & (x & Hx & Hj)%level_instances_in & ->)]; [by left|]. right. exists j. split; [|done].
  destruct (kept_in _ _ _ (remove_kept cs) Hx) as (q & Hq & ->). apply level_instances_in.
  exists q. split; [done|]. rewrite Forall_forall in IH. by apply IH.
Qed.

(** *** The variable of a single instance *)

(** In no level are there two nodes for the variable, and such a node has no
    children. *)
Inductive removable : TnmSnmpNode -> Prop :=
  | removable_Node nd cs :
      (length (filter (fun c => has_var var c = true) cs) <= 1)%nat ->
      Forall (fun c => has_var var c = true -> children c = []) cs ->
      Forall removable cs -> removable (Node nd cs).

Notation others := (filter (fun c => has_var var c = false)).

Lemma remove_level_none ps :
  filter (fun c => has_var var c = true) (tail ps) = [] -> remove_level var ps = map (remove_below var) ps.
Proof.
  induction ps as [|p ps IH]; [done|]. cbn [tail remove_level map]. intros Hn. f_equal.
  destruct ps as [|q qs]; [done|]. destruct (has_var var q) eqn:Hq.
  - by rewrite filter_cons_True in Hn.
  - rewrite filter_cons_False in Hn by (by rewrite Hq). by apply IH.
Qed.

Lemma others_all ps : filter (fun c => has_var var c = true) ps = [] -> others ps = ps.
Proof.
  induction ps as [|p ps IH]; [done|]. destruct (has_var var p) eqn:Hp.
  - by rewrite filter_cons_True.
  - rewrite filter_cons_False by (by rewrite Hp). intros. rewrite filter_cons_True by done. f_equal. by apply IH.
Qed.

Lemma remove_level_one p ps : (length (filter (fun c => has_var var c = true) ps) <= 1)%nat ->
  remove_level var (p :: ps) = remove_below var p :: map (remove_below var) (others ps).
Proof.
  revert p. induction ps as [|q qs IH]; intros p Hn; [done|].
  change (remove_level var (p :: q :: qs)) with (remove_below var p ::
    (if has_var var q then remove_level var qs else remove_level var (q :: qs))). f_equal.
  destruct (has_var var q) eqn:Hq.
  - rewrite filter_cons_True in Hn by done. rewrite filter_cons_False by (by rewrite Hq).
    assert (Hnil : filter (fun c => has_var var c = true) qs = [])
      by (destruct (filter (fun c => has_var var c = true) qs); [done|simpl in Hn; lia]).
    rewrite others_all by done. apply remove_level_none. destruct qs as [|r qs]; [done|]. cbn [tail].
    destruct (has_var var r) eqn:Hr; [by rewrite filter_cons_True in Hnil|].
    by rewrite filter_cons_False in Hnil by (by rewrite Hr).
  - rewrite filter_cons_False in Hn by (by rewrite Hq). rewrite filter_cons_True by done.
    cbn [map]. by rewrite IH.
Qed.

Lemma remove_children cs : (length (filter (fun c => has_var var c = true) cs) <= 1)%nat ->
  remove_first var (remove_level var cs) = map (remove_below var) (others cs).
Proof.
  destruct cs as [|p ps]; [done|]. intros Hn.
  assert (Hv : has_var var (remove_below var p) = has_var var p) by (unfold has_var; by rewrite remove_below_nd).
  destruct (has_var var p) eqn:Hp.
  - rewrite filter_cons_True in Hn by done. rewrite remove_level_one by (simpl in Hn; lia).
    cbn [remove_first]. rewrite Hv. by rewrite filter_cons_False by (by rewrite Hp).
  - rewrite filter_cons_False in Hn by (by rewrite Hp). rewrite remove_level_one by done.
    cbn [remove_first]. rewrite Hv. by rewrite filter_cons_True.
Qed.

(** An instance that stays. *)
Definition stays (i : list Z * node) : Prop := nd_tclVarName i.2 <> Some var.

Lemma filter_map_stays x l :
  filter stays (map (fun i => (x :: i.1, i.2)) l) = map (fun i => (x :: i.1, i.2)) (filter stays l).
Proof.
  induction l as [|i l IH]; [done|]. cbn [map]. destruct (decide (stays i)) as [H|H].
  - rewrite !filter_cons_True by done. cbn [map]. by rewrite IH.
  - rewrite !filter_cons_False by done. apply IH.
Qed.

Lemma remove_below_exact t : removable t -> has_var var t = false ->
  instances (remove_below var t) = filter stays (instances t).
Proof.
  induction t as [nd cs IH] using node_tree_ind. intros Hr Hv. inversion Hr as [? ? Hn Hleaf Hf]; subst.
  rewrite remove_below_eq, remove_children by done. cbn [instances].
  rewrite filter_app, filter_map_stays. f_equal.
  - case_bool_decide; [|done]. rewrite filter_cons_True; [done|]. unfold stays.
    unfold has_var in Hv. by apply bool_decide_eq_false in Hv.
  - f_equal. clear Hn Hr. induction cs as [|c cs IHc]; [done|].
    apply Forall_cons in IH as [Hc IH], Hleaf as [Hcl Hleaf], Hf as [Hcr Hf]. specialize (IHc IH Hv Hleaf Hf).
    cbn [map concat]. rewrite filter_app. destruct (has_var var c) eqn:Hcv.
    + rewrite filter_cons_False by (by rewrite Hcv). rewrite IHc. destruct c as [ndc cc]. cbn in Hcl. rewrite Hcl by done.
      cbn [instances map concat]. rewrite app_nil_r. unfold has_var in Hcv. apply bool_decide_eq_true in Hcv.
      case_bool_decide; [|done]. rewrite filter_cons_False; [done|]. unfold stays. intros Hs. by apply Hs.
    + rewrite filter_cons_True by done. cbn [map concat]. rewrite IHc. by rewrite Hc.
Qed.
End remove.

Lemma remove_node_root root var : RemoveNode root var = remove_below var <$> root.
Proof. by destruct root. Qed.

Lemma remove_node_spec root var : inst_ok root ->
  let root' := RemoveNode root var in
  inst_ok root' /\
  (forall o n', FindInstance root' o = Some n' -> nd_of <$> FindInstance root o = Some (nd_of n')) /\
  (from_option (removable var) True root -> forall o,
     nd_of <$> FindInstance root' o =
     (nd ← nd_of <$> FindInstance root o;
      if decide (nd_tclVarName nd = Some var) then None else Some nd)).
Proof.
  intros Hok root'. unfold root'. rewrite remove_node_root.
  destruct root as [t|]; [|cbn [fmap option_fmap option_map]; setoid_rewrite find_instance_null; by split_and!; auto].
  pose proof Hok as (Ho & H1 & [H0 Hvar] & Hlab). cbn [fmap option_fmap option_map].
  set (t' := remove_below var t).
  assert (Ht' : ordered t' /\ subid t' = 1 /\ nd_syntax (nd_of t') = 0).
  { unfold t'. rewrite remove_below_subid, remove_below_nd. split_and!; [by apply remove_below_ordered|done|done]. }
  destruct Ht' as (Ho' & H1' & H0').
  assert (Hsub : forall o n', FindInstance (Some t') o = Some n' ->
    exists n, FindInstance (Some t) o = Some n /\ nd_of n = nd_of n').
  { intros o n' Hn. apply instances_in_tree; [done..|]. apply (remove_below_instances var).
    apply (instances_in_tree t'); [done..|]. eauto. }
  split; [|split].
  - unfold inst_ok. split_and!; [done..|by unfold t'; rewrite remove_below_nd|].
    intros o n' Hn. destruct (Hsub _ _ Hn) as (n & Hn' & <-). by apply Hlab.
  - intros o n' Hn. destruct (Hsub _ _ Hn) as (n & -> & <-). done.
  - intros Hr o. assert (Hv : has_var var t = false) by (unfold has_var; rewrite Hvar; by apply bool_decide_eq_false_2).
    pose proof (remove_below_exact var t Hr Hv) as Hexact. fold t' in Hexact.
    apply option_eq. intros nd. rewrite fmap_Some.
    transitivity ((o, nd) ∈ instances t').
    { rewrite instances_in_tree by done. split; intros (n & ? & ?); exists n; split; congruence. }
    rewrite Hexact, list_elem_of_filter, (instances_in_tree t) by done. unfold stays. cbn [snd]. split.
    + intros (Hne & n & -> & <-). cbn. by rewrite decide_False.
    + destruct (FindInstance (Some t) o) as [n|]; [|done]. cbn. case_decide; [done|]. intros [= <-]. eauto.
Qed.

(** Deleting a Tcl variable.  [RemoveNode] preserves the invariant of the
    tree and invents nothing: what is found afterwards was found before.  When
    the variable belongs to at most one node of each level and to none with
    children, the instances of the variable are gone and all the others are
    still found. *)
Theorem inst_remove root var : inst_ok root ->
  let root' := RemoveNode root var in
  inst_ok root' /\
  (forall o n', FindInstance root' o = Some n' -> nd_of <$> FindInstance root o = Some (nd_of n')) /\
  (from_option (removable var) True root -> forall o,
     nd_of <$> FindInstance root' o =
     (nd ← nd_of <$> FindInstance root o;
      if decide (nd_tclVarName nd = Some var) then None else Some nd)).
Proof. apply remove_node_spec. Qed.

(** ** Bindings *)

Lemma bindings_at_tree t y r : bindings_at (Some t) (1 :: y :: r) = binds t (y :: r).
Proof.
  unfold bindings_at, FindNode. rewrite bool_decide_eq_false_2 by (simpl; auto). cbn [drop].
  cbn [mbind option_bind]. unfold binds, node_at. by destruct (find_path t (y :: r)).
Qed.

Lemma bindings_at_other t o : (forall y r, o <> 1 :: y :: r) -> bindings_at (Some t) o = [].
Proof.
  intros Ho. unfold bindings_at. destruct (FindNode (Some t) o) as [q|] eqn:E; [|done].
  apply find_node_some in E as (? & y & r & _ & -> & _). by destruct (Ho y r).
Qed.

Lemma get_node_binding_at root o e :
  TnmSnmpGetNodeBinding root o e = (b ← find_binding e (bindings_at root o); bind_command b).
Proof. unfold TnmSnmpGetNodeBinding, bindings_at. by destruct (FindNode root o). Qed.

Lemma find_binding_replace e event c bs :
  is_Some (find_binding event bs) -> c <> [] ->
  (b ← find_binding e (replace_command event c bs); bind_command b) =
  if decide (e = event) then Some c else b ← find_binding e bs; bind_command b.
Proof.
  intros Hs Hc. induction bs as [|b bs IH]; [by destruct Hs|].
  cbn [find_binding replace_command] in *. case_bool_decide as Hb.
  - cbn [find_binding bind_event]. destruct (decide (e = event)) as [->|He].
    + rewrite bool_decide_eq_true_2 by done. by destruct c.
    + by rewrite !bool_decide_eq_false_2 by congruence.
  - cbn [find_binding]. destruct (decide (e = event)) as [->|He].
    + rewrite bool_decide_eq_false_2 by done. by apply IH.
    + case_bool_decide; [done|]. by apply IH.
Qed.

Lemma find_set_binding e event c bs : c <> [] ->
  (b ← find_binding e (set_binding event (Some c) bs); bind_command b) =
  if decide (e = event) then Some c else b ← find_binding e bs; bind_command b.
Proof.
  intros Hc. unfold set_binding. destruct (find_binding event bs) as [b|] eqn:E.
  - apply find_binding_replace; [by eexists|done].
  - rewrite find_binding_replace; [|cbn; rewrite bool_decide_eq_true_2 by done; by eexists|done].
    destruct (decide (e = event)); [done|]. cbn. by rewrite bool_decide_eq_false_2 by congruence.
Qed.

Lemma update_path_spec f rest : (forall nd, nd_subid (f nd) = nd_subid nd) -> forall t nd,
  ordered t -> node_at t rest = Some nd ->
  exists t', update_path f rest t = Some t' /\ ordered t' /\ subid t' = subid t /\
    (rest <> [] -> nd_of t' = nd_of t) /\
    forall r, node_at t' r = if decide (r = rest) then Some (f nd) else node_at t r.
Proof.
  intros Hf. induction rest as [|x rest IH]; intros t nd Ho Hn; cbn [update_path].
  - injection Hn as <-. eexists. split; [done|]. destruct t as [nd cs].
    split; [by apply ordered_children in Ho as [? ?]; constructor|]. split; [apply Hf|]. split; [done|].
    intros [|y r]; [done|]. by rewrite !node_at_cons.
  - rewrite node_at_cons in Hn. destruct (find_child x (children t)) as [c|] eqn:Hc; [|done].
    apply ordered_children in Ho as [Hs Hfo].
    assert (Hoc : ordered c) by (rewrite Forall_forall in Hfo; apply Hfo; by apply find_child_in in Hc as [? _]).
    destruct (IH c nd Hoc Hn) as (c' & Ec & Hoc' & Hsub & _ & Hat).
    destruct (update_child_spec x _ _ c c' Hs Hc Ec) as (cs' & -> & Hs' & HP & Hfc).
    { rewrite Hsub. by apply find_child_in in Hc as [_ ?]. }
    cbn [mbind option_bind]. eexists. split; [done|]. split; [constructor; [done|by apply HP]|]. split; [done|].
    split; [done|]. intros [|y r]; [done|]. rewrite !node_at_cons. cbn [children]. rewrite Hfc.
    destruct (decide (y = x)) as [->|Hy]; [|by rewrite decide_False by congruence].
    rewrite Hc, Hat. destruct (decide (r = rest)) as [->|Hr]; [by rewrite decide_True|].
    by rewrite decide_False by congruence.
Qed.

(** The fields of an instance but its bindings. *)
Definition strip (nd : node) : node := with_bindings (fun _ => []) nd.

Lemma inst_ok_default root : inst_ok root -> inst_ok (Some (default new_root root)).
Proof.
  intros Hok. destruct (inst_ok_root root Hok) as (? & ? & ? & Hinst & _). split_and!; try tauto.
  intros o n. rewrite Hinst. intros Hn. destruct root as [t|]; [by apply Hok|by rewrite find_instance_null in Hn].
Qed.

Lemma inst_ok_strip t t' : inst_ok (Some t) -> ordered t' -> nd_of t' = nd_of t ->
  (forall r, strip <$> inst_at t' r = strip <$> inst_at t r) ->
  inst_ok (Some t') /\
  forall o, strip ∘ nd_of <$> FindInstance (Some t') o = strip ∘ nd_of <$> FindInstance (Some t) o.
Proof.
  intros (Ho & H1 & [H0 Hv] & Hlab) Ho' Hnd Hst.
  assert (Hall : forall o, strip ∘ nd_of <$> FindInstance (Some t') o = strip ∘ nd_of <$> FindInstance (Some t) o).
  { intros o. rewrite !option_fmap_compose, !find_instance_at by (done || by rewrite Hnd).
    destruct o as [|[|[| |]|] r]; done. }
  split; [|done]. unfold inst_ok. unfold subid in *. rewrite Hnd. split_and!; [done..|].
  intros o n Hn. specialize (Hall o). rewrite Hn in Hall. destruct (FindInstance (Some t) o) as [n2|] eqn:E; [|done].
  apply (inj Some) in Hall. apply Hlab in E. rewrite <- E. f_equal.
  change (nd_label (strip (nd_of n)) = nd_label (strip (nd_of n2))). unfold compose in Hall. by rewrite Hall.
Qed.

Lemma oid_cases o : (exists y r, o = 1 :: y :: r) \/ (forall y r, o <> 1 :: y :: r).
Proof.
  destruct o as [|x [|y r]]; [by right|by right|].
  destruct (decide (x = 1)) as [->|]; [left; eauto|right; congruence].
Qed.

(** The second half of [TnmSnmpSetNodeBinding]. *)
Lemma bind_existing t nd y r event command :
  let path := 1 :: y :: r in
  inst_ok (Some t) -> node_at t (y :: r) = Some nd -> command <> [] ->
  exists t', update_path (with_bindings (set_binding event (Some command))) (y :: r) t = Some t' /\
    inst_ok (Some t') /\
    (forall o e, TnmSnmpGetNodeBinding (Some t') o e =
       if decide (o = path /\ e = event) then Some command else TnmSnmpGetNodeBinding (Some t) o e) /\
    forall o, strip ∘ nd_of <$> FindInstance (Some t') o = strip ∘ nd_of <$> FindInstance (Some t) o.
Proof.
  intros path Hok Hnd Hc.
  destruct (update_path_spec (with_bindings (set_binding event (Some command))) (y :: r) ltac:(done) t nd ltac:(apply Hok) Hnd)
    as (t' & E & Ho' & Hs' & Hroot & Hat). specialize (Hroot ltac:(done)).
  destruct (inst_ok_strip t t' Hok Ho' Hroot) as [Hok' Hst].
  { intros r'. unfold inst_at. rewrite Hat. destruct (decide (r' = y :: r)) as [->|]; [|done].
    rewrite Hnd. cbn. by case_bool_decide. }
  exists t'. split_and!; [done|done| |done]. intros o e. rewrite !get_node_binding_at.
  destruct (oid_cases o) as [(y' & r' & ->)|Hno].
  - rewrite !bindings_at_tree. unfold binds. rewrite Hat. destruct (decide (y' :: r' = y :: r)) as [Er|Hr].
    + rewrite Er, Hnd. cbn [from_option nd_bindings with_bindings]. rewrite find_set_binding by done.
      destruct (decide (e = event)) as [->|He]; [by rewrite decide_True|].
      by rewrite decide_False by (unfold path; intros [_ ?]; congruence).
    + by rewrite decide_False by (unfold path; intros [? _]; congruence).
  - rewrite !bindings_at_other by done. rewrite decide_False; [done|]. intros [-> _]. by apply (Hno y r).
Qed.

(** Event bindings.  [TnmSnmpSetNodeBinding] makes the command the one that
    [TnmSnmpGetNodeBinding] returns for that node and event, creating an
    anonymous node if there is none, and changes no other binding; the tree
    keeps its invariant and its instances. *)
Theorem inst_binding root oid event command :
  inst_ok root -> inst_oid oid -> command <> [] ->
  exists root', TnmSnmpSetNodeBinding root oid event (Some command) = Some (TCL_OK, root') /\
    inst_ok root' /\
    (forall o e, TnmSnmpGetNodeBinding root' o e =
       if decide (o = oid /\ e = event) then Some command else TnmSnmpGetNodeBinding root o e) /\
    forall o, strip ∘ nd_of <$> FindInstance root' o = strip ∘ nd_of <$> FindInstance root o.
Proof.
  intros Hok Hoid Hc. pose proof Hoid as (Hval & H1 & Hfit). pose proof Hval as (Hlen & Hu & _).
  destruct oid as [|x [|y r]]; [simpl in Hlen; lia..|]. simpl in H1. subst x.
  set (full := 1 :: y :: r) in *. unfold TnmSnmpSetNodeBinding.
  destruct (FindNode root full) as [q|] eqn:Hq.
  - pose proof Hq as (t & y' & r' & -> & [= <- <-] & Hp)%find_node_some.
    destruct (bind_existing t (nd_of q) y r event command Hok) as (t' & E & ? & ? & ?);
      [unfold node_at; by rewrite Hp|done|].
    exists (Some t'). change (drop 1 full) with (y :: r). cbn [mbind option_bind]. by rewrite E.
  - rewrite oid_to_str_spec by (done || lia). rewrite take_ge by done. rewrite decide_True by done.
    cbn [mbind option_bind]. unfold full. rewrite add_node_path by done. fold full.
    destruct (inst_ok_root root Hok) as (Ho & Hsub & _ & Hinst & Hnode).
    destruct (add_path_spec (full ++ replicate (TNM_OID_MAX_SIZE - length full) 0) 0
      (set_fields (dotted full) 0 0 0 None) ltac:(done) (y :: r) 1 (default new_root root) Ho)
      as (t1 & -> & Ho1 & Hs1 & Hnd1 & (nd & Hfresh & Hat & _) & Hrest).
    { intros j Hj. apply inst_oid_strings; [done|]. simpl in *. lia. }
    specialize (Hnd1 ltac:(done)). cbn [mbind option_bind]. set (t := default new_root root) in *.
    assert (Hnone : node_at t (y :: r) = None).
    { unfold node_at. destruct (find_path t (y :: r)) as [q|] eqn:E; [|done].
      assert (FindNode (Some t) full = Some q) as Hf by (apply find_node_some; eauto 10).
      by rewrite Hnode, Hq in Hf. }
    destruct (inst_ok_strip t t1 (inst_ok_default root Hok) Ho1 Hnd1) as [Hok1 Hst1].
    { intros r'. destruct (decide (r' = y :: r)) as [->|Hr]; [|by destruct (Hrest r' Hr) as [-> _]].
      unfold inst_at. by rewrite Hat, Hnone. }
    destruct (bind_existing t1 _ y r event command Hok1 Hat Hc) as (t' & E & Hok' & Hget & Hst).
    exists (Some t'). change (drop 1 full) with (y :: r). rewrite E. split_and!; [done|done| |].
    + intros o e. rewrite Hget. destruct (decide _); [done|]. rewrite !get_node_binding_at.
      assert (Hb : bindings_at (Some t1) o = bindings_at (Some t) o).
      { destruct (oid_cases o) as [(y' & r' & ->)|?]; [|by rewrite !bindings_at_other].
        rewrite !bindings_at_tree. destruct (decide (y' :: r' = y :: r)) as [->|Hr]; [|by apply Hrest].
        unfold binds. rewrite Hat, Hnone. by destruct Hfresh as [?|[_ ?]]; [congruence|]. }
      rewrite Hb. unfold bindings_at. by rewrite Hnode.
    + intros o. by rewrite Hst, Hst1, Hinst.
Qed.

(** ** Witnesses and limits *)

(** A tree with a scalar and a row of two columns. *)
Definition sample_oids : list (list Z) :=
  [[1; 3; 6; 1; 2; 1; 1; 5; 0]; [1; 3; 6; 1; 2; 1; 2; 2; 1; 2; 1]; [1; 3; 6; 1; 2; 1; 2; 2; 1; 1; 1]].
Definition add_sample (var : list Z -> cstring) (tree : option TnmSnmpNode) (oid : list Z) : option TnmSnmpNode :=
  match AddNode tree (dotted oid) 0 ASN1_INTEGER 0 (Some (var oid)) with
  | Some (tree, _) => tree
  | None => tree
  end.
Definition sample_tree (var : list Z -> cstring) (oids : list (list Z)) : option TnmSnmpNode :=
  fold_left (add_sample var) oids None.

Lemma sample_tree_ok var oids : Forall inst_oid oids -> inst_ok (sample_tree var oids).
Proof.
  unfold sample_tree. generalize (eq_refl : inst_ok None = True). intros _.
  assert (H : forall tree, inst_ok tree -> Forall inst_oid oids ->
    inst_ok (fold_left (add_sample var) oids tree)); [|intros; by apply H].
  induction oids as [|oid oids IH]; intros tree Hok Ho; [done|]. cbn [fold_left].
  apply Forall_cons in Ho as [Ho Hos]. apply IH; [|done]. unfold add_sample.
  by destruct (add_node_spec tree oid 0 ASN1_INTEGER 0 (Some (var oid)) Hok Ho) as (tree' & -> & Hok' & _).
Qed.

Definition each_var (oid : list Z) : cstring := cstr "v" ++ dotted oid.
Definition same_var (oid : list Z) : cstring := cstr "v".

Lemma inst_next_witness :
  let root := sample_tree each_var sample_oids in
  (nd_label ∘ nd_of) <$> FindNextInstance root [1; 3; 6; 1; 2; 1; 2; 2; 1; 1; 1]
  = Some (cstr "1.3.6.1.2.1.2.2.1.2.1") /\
  exists o n', label_oid (cstr "1.3.6.1.2.1.2.2.1.2.1") = Some o /\ FindInstance root o = Some n'.
Proof.
  intros root. split; [by vm_compute|].
  pose proof (inst_next root [1; 3; 6; 1; 2; 1; 2; 2; 1; 1; 1] (sample_tree_ok each_var sample_oids ltac:(by_eval))) as H.
  vm_compute in H. destruct H as (o & n' & H1 & H2 & _). exists o, n'. split; [exact H1|]. vm_compute. exact H2.
Defined.

Lemma inst_walk_witness :
  let root := sample_tree each_var sample_oids in
  map nd_label (walk 4 root []) =
    [cstr "1.3.6.1.2.1.1.5.0"; cstr "1.3.6.1.2.1.2.2.1.1.1"; cstr "1.3.6.1.2.1.2.2.1.2.1"] /\
  forall nd, nd ∈ walk 4 root [] <-> exists o n, FindInstance root o = Some n /\ nd_of n = nd.
Proof.
  intros root. split; [by vm_compute|].
  apply (inst_walk root 4); [apply sample_tree_ok; by_eval|by_eval].
Defined.

Lemma inst_add_witness :
  let root := sample_tree each_var sample_oids in let oid := [1; 3; 6; 1; 2; 1; 1; 3; 0] in
  exists root', AddNode root (dotted oid) 18 ASN1_TIMETICKS 1 (Some (cstr "tnm_system(sysUpTime)"))
    = Some (root', Some oid) /\
    nd_of <$> FindInstance root' oid = Some (mkNode (cstr "1.3.6.1.2.1.1.3.0") 18 ASN1_TIMETICKS 1
      (Some (cstr "tnm_system(sysUpTime)")) [] 0).
Proof.
  intros root oid.
  destruct (inst_add root oid 18 ASN1_TIMETICKS 1 (Some (cstr "tnm_system(sysUpTime)")))
    as (root' & E & _ & H); [apply sample_tree_ok; by_eval|by_eval|].
  exists root'. split; [exact E|]. rewrite H, decide_True by done. by vm_compute.
Defined.

Lemma inst_remove_witness :
  let root := sample_tree each_var sample_oids in let oid := [1; 3; 6; 1; 2; 1; 1; 5; 0] in
  FindInstance root oid <> None /\ nd_of <$> FindInstance (RemoveNode root (each_var oid)) oid = None.
Proof.
  intros root oid. split; [by vm_compute|].
  destruct (inst_remove root (each_var oid)) as (_ & _ & H); [apply sample_tree_ok; by_eval|].
  rewrite H; [by vm_compute|]. vm_compute.
  repeat first [apply removable_Node | apply List.Forall_nil | apply List.Forall_cons
               | solve [by_eval] | solve [vm_compute; done]].
Defined.

Lemma inst_binding_witness :
  let root := sample_tree each_var sample_oids in let oid := [1; 3; 6; 1; 2; 1; 1; 9] in
  exists root', TnmSnmpSetNodeBinding root oid 0x02 (Some (cstr "puts set")) = Some (TCL_OK, root') /\
    TnmSnmpGetNodeBinding root' oid 0x02 = Some (cstr "puts set") /\
    TnmSnmpGetNodeBinding root' oid 0x04 = None.
Proof.
  intros root oid.
  destruct (inst_binding root oid 0x02 (cstr "puts set")) as (root' & E & _ & H & _);
    [apply sample_tree_ok; by_eval|by_eval|done|].
  exists root'. split; [exact E|clear E]. split; [by rewrite H, decide_True|].
  rewrite H, decide_False by (intros [_ ?]; done). vm_compute. reflexivity.
Defined.

(** Where the removal falls short of its description.  Of two neighbours
    with the variable that are not the first nodes of their level the second one
    stays, although all nodes of a variable are to be removed; and with a node
    everything below it is removed, also the instances of other variables. *)
Theorem inst_remove_limits :
  let level := sample_tree (fun oid => if decide (List.last oid 0 = 1) then cstr "w" else cstr "v")
                 [[1; 3; 1]; [1; 3; 2]; [1; 3; 3]] in
  let nested := sample_tree (fun oid => if decide (length oid = 4)%nat then cstr "w" else cstr "v")
                  [[1; 3; 2]; [1; 3; 2; 7]] in
  (nd_tclVarName ∘ nd_of) <$> FindInstance (RemoveNode level (cstr "v")) [1; 3; 3] = Some (Some (cstr "v")) /\
  (nd_tclVarName ∘ nd_of) <$> FindInstance nested [1; 3; 2; 7] = Some (Some (cstr "w")) /\
  FindInstance (RemoveNode nested (cstr "v")) [1; 3; 2; 7] = None.
Proof. by vm_compute. Qed.
