(* ===== verification/Queue.v ===== *)
(** The queue of asynchronous requests: [tnmSnmpUtil.c], the timeout of a request
    in [tnmSnmpNet.c] and the handling of responses in [tnmSnmpRecv.c].

    Requests and sessions live in memory; the queue and the list of sessions
    hold addresses.  [q_sent] records what was handed to the transport. *)

From stdpp Require Import gmap.
From S2P Require Import Prelude Mem Ber CStr Util Snmp SnmpDec.
Local Open Scope Z_scope.

(** The fields of [TnmSnmp] the queue uses besides those of [Snmp.v]. *)
Record QSession := mkQSession {
  qs_snmp : TnmSnmp;
  qs_retries : Z;
  qs_timeout : Z;
  qs_window : Z;
  qs_active : Z;
  qs_waiting : Z
}.

(** [rq_timer] is the time of the timer handler, [rq_proc] the callback with its
    argument. *)
Record TnmSnmpRequest := mkRequest {
  rq_id : Z;
  rq_sends : Z;
  rq_packet : list Z;
  rq_timer : option Z;
  rq_session : nat;
  rq_proc : option cstring
}.

Record QState := mkQ {
  q_req : Mem TnmSnmpRequest;
  q_queue : list nat;
  q_ses : Mem QSession;
  q_list : list nat;
  q_sent : list (nat * list Z)
}.

Definition with_req (m : Mem TnmSnmpRequest) (q : QState) : QState := mkQ m (q_queue q) (q_ses q) (q_list q) (q_sent q).
Definition with_queue (l : list nat) (q : QState) : QState := mkQ (q_req q) l (q_ses q) (q_list q) (q_sent q).
Definition with_ses (m : Mem QSession) (q : QState) : QState := mkQ (q_req q) (q_queue q) m (q_list q) (q_sent q).
Definition with_slist (l : list nat) (q : QState) : QState := mkQ (q_req q) (q_queue q) (q_ses q) l (q_sent q).
Definition with_sent (l : list (nat * list Z)) (q : QState) : QState := mkQ (q_req q) (q_queue q) (q_ses q) (q_list q) l.

Definition update_req (f : TnmSnmpRequest -> TnmSnmpRequest) (a : nat) (q : QState) : QState :=
  with_req (mem_update f a (q_req q)) q.
Definition update_ses (f : QSession -> QSession) (a : nat) (q : QState) : QState :=
  with_ses (mem_update f a (q_ses q)) q.

Definition set_sends (n : Z) (t : option Z) (r : TnmSnmpRequest) : TnmSnmpRequest :=
  mkRequest (rq_id r) n (rq_packet r) t (rq_session r) (rq_proc r).
Definition set_session (s : nat) (r : TnmSnmpRequest) : TnmSnmpRequest :=
  mkRequest (rq_id r) (rq_sends r) (rq_packet r) (rq_timer r) s (rq_proc r).
(** [session->active += da; session->waiting += dw] *)
Definition add_counts (da dw : Z) (s : QSession) : QSession :=
  mkQSession (qs_snmp s) (qs_retries s) (qs_timeout s) (qs_window s) (qs_active s + da) (qs_waiting s + dw).

(** ** Sessions *)

Definition TNM_SNMP_RETRIES : Z := 3.
Definition TNM_SNMP_TIMEOUT : Z := 5.
Definition TNM_SNMP_WINDOW : Z := 10.

(** [TnmSnmpCreateSession] with the value of the Tcl variable [tnm(user)]. *)
Definition new_session (user : option cstring) : QSession :=
  mkQSession
    (mkSession TNM_SNMPv1 (cstr "public") [1; 3; 6; 1; 4; 1; 1575] [] (default (cstr "initial") user) [] 0 0 0)
    TNM_SNMP_RETRIES TNM_SNMP_TIMEOUT TNM_SNMP_WINDOW 0 0.

(** The session is put at the head of [tnmSnmpList]. *)
Definition TnmSnmpCreateSession (user : option cstring) (q : QState) : nat * QState :=
  let s := mem_fresh (q_ses q) in
  (s, with_slist (s :: q_list q) (with_ses (mem_alloc s (new_session user) (q_ses q)) q)).

(** [SetOption] for the options of the queue. *)
Inductive queue_option := optTimeout | optRetries | optWindow.
Definition set_queue_option (num : option Z) (o : queue_option) (s : nat) (q : QState) : tcl_code * QState :=
  let set v := (TCL_OK, update_ses (fun x => mkQSession (qs_snmp x)
                  (match o with optRetries => v | _ => qs_retries x end)
                  (match o with optTimeout => v | _ => qs_timeout x end)
                  (match o with optWindow => v | _ => qs_window x end) (qs_active x) (qs_waiting x)) s q) in
  match o with
  | optTimeout => match TnmGetPositiveFromObj num with Some v => set v | None => (TCL_ERROR, q) end
  | optRetries | optWindow => match TnmGetUnsignedFromObj num with Some v => set v | None => (TCL_ERROR, q) end
  end.

(** ** Requests *)

(** The new request; its session is set when it is queued. *)
Definition new_request (id : Z) (packet : list Z) (proc : option cstring) : TnmSnmpRequest :=
  mkRequest id 0 packet None 0 proc.

Definition TnmSnmpCreateRequest (id : Z) (packet : list Z) (proc : option cstring) (q : QState) : nat * QState :=
  let a := mem_fresh (q_req q) in
  (a, with_req (mem_alloc a (new_request id packet proc) (q_req q)) q).

(** The first element of the queue from [l] on with the given identifier. *)
Fixpoint find_request (id : Z) (l : list nat) (q : QState) : run_result (option nat) :=
  match l with
  | [] => Ok None
  | a :: l =>
      r ← mem_read (q_req q) a;
      if bool_decide (rq_id r = id) then Ok (Some a) else find_request id l q
  end.

Definition TnmSnmpFindRequest (id : Z) (q : QState) : run_result (option nat) := find_request id (q_queue q) q.

Section queue.
(** A request procedure: what the script bound to a request does when it is
    called with the session, the request id and the error status. *)
Variable request_proc : cstring -> nat -> Z -> Z -> QState -> QState.

(** The first branch of [TnmSnmpTimeoutProc]: the packet is sent (again) and the
    timer started. *)
Definition retransmit (a : nat) (r : TnmSnmpRequest) (s : QSession) (q : QState) : QState :=
  update_req (fun r => set_sends (rq_sends r + 1) (Some (Z.quot (qs_timeout s * 1000) (qs_retries s + 1))) r) a
    (with_sent (q_sent q ++ [(rq_session r, rq_packet r)]) q).

(** The requests in the queue that were sent and those that were not. *)
Fixpoint count_queue (l : list nat) (q : QState) (active waiting : Z) : run_result (Z * Z) :=
  match l with
  | [] => Ok (active, waiting)
  | a :: l =>
      r ← mem_read (q_req q) a;
      if bool_decide (rq_sends r <> 0) then count_queue l q (active + 1) waiting
      else count_queue l q active (waiting + 1)
  end.

(** [rPtr->nextPtr] of an element of the queue. *)
Fixpoint next_requests (a : nat) (l : list nat) : option (list nat) :=
  match l with
  | [] => None
  | b :: l => if decide (a = b) then Some l else next_requests a l
  end.

(** The second loop of [TnmSnmpQueueRequest].  [timeout] is [TnmSnmpTimeoutProc];
    when it has taken the request out of the queue, the request is not in memory
    any more and the loop goes on from released memory. *)
Fixpoint activate (timeout : nat -> QState -> run_result QState) (n : nat) (l : list nat) (session : nat)
    (active waiting : Z) (q : QState) : run_result QState :=
  match n with
  | O => NoFuel
  | S n =>
      match l with
      | [] => Ok q
      | a :: l =>
          if bool_decide (waiting = 0) then Ok q
          else
            s ← mem_read (q_ses q) session;
            if bool_decide (qs_window s <> 0) && bool_decide (qs_window s <= active) then Ok q
            else
              r ← mem_read (q_req q) a;
              if bool_decide (rq_sends r = 0) then
                rs ← mem_read (q_ses q) (rq_session r);
                if bool_decide (qs_active rs < qs_window rs) || bool_decide (qs_window rs = 0) then
                  q ← timeout a q;
                  r ← mem_read (q_req q) a;
                  _ ← mem_read (q_ses q) (rq_session r);
                  let q := update_ses (add_counts 1 (-1)) (rq_session r) q in
                  match next_requests a (q_queue q) with
                  | Some l => activate timeout n l session (active + 1) (waiting - 1) q
                  | None => UseAfterFree
                  end
                else activate timeout n l session active waiting q
              else activate timeout n l session active waiting q
      end
  end.

(** [TnmSnmpQueueRequest]: the number of requests of the session. *)
Definition queue_request (timeout : nat -> QState -> run_result QState) (session : nat) (request : option nat)
    (q : QState) : run_result (Z * QState) :=
  '(active, waiting) ← count_queue (q_queue q) q 0 0;
  '(waiting, q) ← match request with
                  | Some a =>
                      _ ← mem_read (q_req q) a;
                      _ ← mem_read (q_ses q) session;
                      Ok (waiting + 1, with_queue (q_queue q ++ [a])
                            (update_ses (add_counts 0 1) session (update_req (set_session session) a q)))
                  | None => Ok (waiting, q)
                  end;
  q ← activate timeout (S (length (q_queue q))) (q_queue q) session active waiting q;
  s ← mem_read (q_ses q) session;
  Ok (qs_active s + qs_waiting s, q).

(** [Tcl_DeleteTimerHandler(request->timer)] *)
Definition clear_timer (a : nat) (m : Mem TnmSnmpRequest) : Mem TnmSnmpRequest :=
  mem_update (fun r => set_sends (rq_sends r) None r) a m.

(** [TnmSnmpDeleteRequest] *)
Definition delete_request (timeout : nat -> QState -> run_result QState) (a : nat) (q : QState) : run_result QState :=
  if bool_decide (a ∉ q_queue q) then Ok q
  else
    r ← mem_read (q_req q) a;
    let session := if bool_decide (rq_session r ∈ q_list q) then Some (rq_session r) else None in
    q ← match session with
        | Some s =>
            _ ← mem_read (q_ses q) s;
            Ok (update_ses (if bool_decide (rq_sends r <> 0) then add_counts (-1) 0 else add_counts 0 (-1)) s q)
        | None => Ok q
        end;
    let q := with_queue (filter (fun b => b <> a) (q_queue q)) q in
    let q := with_req (mem_free a (clear_timer a (q_req q))) q in
    match session with
    | Some s => '(_, q) ← queue_request timeout s None q; Ok q
    | None => Ok q
    end.

(** [TnmSnmpTimeoutProc] *)
Fixpoint TnmSnmpTimeoutProc (fuel : nat) (a : nat) (q : QState) : run_result QState :=
  match fuel with
  | O => NoFuel
  | S fuel =>
      r ← mem_read (q_req q) a;
      s ← mem_read (q_ses q) (rq_session r);
      if bool_decide (rq_sends r < 1 + qs_retries s) then Ok (retransmit a r s q)
      else
        let q := with_ses (mem_preserve (rq_session r) (q_ses q)) (with_req (mem_preserve a (q_req q)) q) in
        q ← delete_request (TnmSnmpTimeoutProc fuel) a q;
        r' ← mem_read (q_req q) a;
        let q := match rq_proc r' with
                 | Some proc => request_proc proc (rq_session r) (rq_id r) TNM_SNMP_NORESPONSE q
                 | None => q
                 end in
        Ok (with_req (mem_release a (q_req q)) (with_ses (mem_release (rq_session r) (q_ses q)) q))
  end.

Definition TnmSnmpQueueRequest (fuel : nat) (session : nat) (request : option nat) (q : QState) : run_result (Z * QState) :=
  queue_request (TnmSnmpTimeoutProc fuel) session request q.
Definition TnmSnmpDeleteRequest (fuel : nat) (a : nat) (q : QState) : run_result QState :=
  delete_request (TnmSnmpTimeoutProc fuel) a q.

(** [TnmSnmpDeleteSession]: the loop over the queue, then the session. *)
Fixpoint drop_requests (session : nat) (l : list nat) (q : QState) : run_result QState :=
  match l with
  | [] => Ok q
  | a :: l =>
      r ← mem_read (q_req q) a;
      if bool_decide (rq_session r = session)
      then drop_requests session l (with_queue (filter (fun b => b <> a) (q_queue q)) (with_req (mem_free a (clear_timer a (q_req q))) q))
      else drop_requests session l q
  end.

Definition TnmSnmpDeleteSession (session : nat) (q : QState) : run_result QState :=
  q ← drop_requests session (q_queue q) q;
  Ok (with_ses (mem_free session (q_ses q)) q).

(** [DeleteProc] of a session command. *)
Definition session_DeleteProc (session : nat) (q : QState) : run_result QState :=
  TnmSnmpDeleteSession session (with_slist (filter (fun b => b <> session) (q_list q)) q).

(** The end of [TnmSnmpEncode] for an asynchronous request. *)
Definition encode_async (fuel : nat) (session : nat) (id : Z) (packet : list Z) (proc : cstring) (q : QState)
    : run_result QState :=
  let '(a, q) := TnmSnmpCreateRequest id packet (Some proc) q in
  '(_, q) ← TnmSnmpQueueRequest fuel session (Some a) q;
  Ok q.

(** ** Responses *)

(** The event binding for packets that are received, evaluated before the request
    is looked at. *)
Variable recv_binding : nat -> TnmSnmpPdu -> QState -> QState.

Inductive decode_code := DEC_OK | DEC_CONTINUE.

(** [TnmSnmpDecode] for a response to a request in the queue. *)
Definition decode_response (fuel : nat) (msg : Message) (pdu : TnmSnmpPdu) (q : QState)
    : run_result (option (decode_code * QState)) :=
  request ← TnmSnmpFindRequest (pdu_requestId pdu) q;
  match request with
  | None => Ok None
  | Some a =>
      r ← mem_read (q_req q) a;
      let session := rq_session r in
      s ← mem_read (q_ses q) session;
      if Authentic (qs_snmp s) msg pdu then
        let q := recv_binding session pdu q in
        _ ← mem_read (q_req q) a;
        _ ← mem_read (q_ses q) session;
        let q := with_ses (mem_preserve session (q_ses q)) (with_req (mem_preserve a (q_req q)) q) in
        q ← TnmSnmpDeleteRequest fuel a q;
        r' ← mem_read (q_req q) a;
        let q := match rq_proc r' with
                 | Some proc => request_proc proc session (pdu_requestId pdu) (pdu_errorStatus pdu) q
                 | None => q
                 end in
        Ok (Some (DEC_OK, with_req (mem_release a (q_req q)) (with_ses (mem_release session (q_ses q)) q)))
      else Ok (Some (DEC_CONTINUE, q))
  end.
End queue.

(** ** Request identifiers *)

(** [rand()] gives the values of a sequence; the identifier and the position
    after it. *)
Fixpoint TnmSnmpGetRequestId (fuel : nat) (rand : nat -> Z) (n : nat) (q : QState) : run_result (Z * nat) :=
  match fuel with
  | O => NoFuel
  | S fuel =>
      found ← TnmSnmpFindRequest (rand n) q;
      match found with
      | None => Ok (rand n, S n)
      | Some _ => TnmSnmpGetRequestId fuel rand (S n) q
      end
  end.
