(* ===== verification/QueueInv.v ===== *)
(** The request queue: its counters are exact, requests leave it in order, the
    windows are respected, and nothing that was released is used. *)

From stdpp Require Import gmap.
From S2P Require Import Prelude Mem Ber CStr Util Snmp SnmpDec Queue.
Local Open Scope Z_scope.

(** ** Sums over the queue *)

Definition qsum (f : nat -> Z) (l : list nat) : Z := foldr (fun a z => f a + z) 0 l.

Lemma qsum_app f l1 l2 : qsum f (l1 ++ l2) = qsum f l1 + qsum f l2.
Proof. induction l1 as [|a l1 IH]; cbn; [done|]. fold (qsum f (l1 ++ l2)) (qsum f l1). lia. Qed.

Lemma qsum_ext f g l : (forall b, b ∈ l -> g b = f b) -> qsum g l = qsum f l.
Proof.
  induction l as [|a l IH]; intros H; [done|]. cbn. fold (qsum f l) (qsum g l). rewrite (H a), IH; [done| |by left].
  intros b Hb. apply H. by right.
Qed.

Lemma qsum_nonneg f l : (forall b, b ∈ l -> 0 <= f b) -> 0 <= qsum f l.
Proof.
  induction l as [|a l IH]; intros H; [done|]. cbn. fold (qsum f l). pose proof (H a ltac:(by left)).
  assert (0 <= qsum f l) by (apply IH; intros b Hb; apply H; by right). lia.
Qed.

(** One element changes. *)
Lemma qsum_update f g l a : NoDup l -> a ∈ l -> (forall b, b ∈ l -> b <> a -> g b = f b) -> qsum g l = qsum f l - f a + g a.
Proof.
  induction l as [|c l IH]; intros Hnd Ha H; [by apply elem_of_nil in Ha|].
  apply NoDup_cons in Hnd as [Hc Hnd]. cbn. fold (qsum f l) (qsum g l). apply elem_of_cons in Ha as [->|Ha].
  - rewrite (qsum_ext f g l); [lia|]. intros b Hb. apply H; [by right|]. by intros ->.
  - rewrite (H c); [|by left|by intros ->]. rewrite (IH Hnd Ha); [lia|]. intros b Hb. apply H. by right.
Qed.

Lemma qsum_remove f l a : NoDup l -> a ∈ l -> qsum f (filter (fun b => b <> a) l) = qsum f l - f a.
Proof.
  intros Hnd Ha.
  assert (E : qsum f (filter (fun b => b <> a) l) = qsum (fun b => if decide (b = a) then 0 else f b) l).
  { clear. induction l as [|c l IH]; [done|]. rewrite filter_cons. cbn. case_decide as Hc; [|subst c].
    - rewrite decide_False by done. cbn. fold (qsum f (filter (fun b => b <> a) l)). by rewrite IH.
    - rewrite decide_True by done. exact IH. }
  rewrite E, (qsum_update f _ l a Hnd Ha).
  - rewrite decide_True by done. lia.
  - intros b _ Hb. by rewrite decide_False.
Qed.

(** ** The invariant *)

(** 1 for a request of the session that was sent, or that waits. *)
Definition sent_of (s : nat) (q : QState) (a : nat) : Z :=
  match mem_heap (q_req q) !! a with
  | Some r => if decide (rq_session r = s /\ rq_sends r <> 0) then 1 else 0
  | None => 0
  end.
Definition waits_of (s : nat) (q : QState) (a : nat) : Z :=
  match mem_heap (q_req q) !! a with
  | Some r => if decide (rq_session r = s /\ rq_sends r = 0) then 1 else 0
  | None => 0
  end.
Definition was_sent (q : QState) (a : nat) : Z :=
  match mem_heap (q_req q) !! a with Some r => if decide (rq_sends r <> 0) then 1 else 0 | None => 0 end.
Definition waits (q : QState) (a : nat) : Z :=
  match mem_heap (q_req q) !! a with Some r => if decide (rq_sends r = 0) then 1 else 0 | None => 0 end.

Definition total_active (q : QState) : Z := qsum (was_sent q) (q_queue q).
Definition total_waiting (q : QState) : Z := qsum (waits q) (q_queue q).

Definition request_ok (q : QState) (a : nat) : Prop :=
  mem_alive (q_req q) a /\ forall r, mem_heap (q_req q) !! a = Some r ->
    rq_session r ∈ q_list q /\ 0 <= rq_sends r /\ (is_Some (rq_timer r) <-> rq_sends r <> 0).
Definition session_ok (q : QState) (s : nat) : Prop :=
  mem_alive (q_ses q) s /\ forall x, mem_heap (q_ses q) !! s = Some x ->
    0 <= qs_retries x /\ 0 <= qs_window x /\
    qs_active x = qsum (sent_of s q) (q_queue q) /\ qs_waiting x = qsum (waits_of s q) (q_queue q).

(** Requests of a session are sent in the order of the queue. *)
Definition in_order (q : QState) : Prop :=
  forall l1 a l2 b l3 r r', q_queue q = l1 ++ a :: l2 ++ b :: l3 ->
    mem_heap (q_req q) !! a = Some r -> mem_heap (q_req q) !! b = Some r' ->
    rq_session r = rq_session r' -> rq_sends r' <> 0 -> rq_sends r <> 0.

Record queue_inv (q : QState) : Prop := {
  qi_req : mem_ok (q_req q);
  qi_ses : mem_ok (q_ses q);
  qi_nodup : NoDup (q_queue q);
  qi_requests : forall a, a ∈ q_queue q -> request_ok q a;
  qi_sessions : forall s, s ∈ q_list q -> session_ok q s;
  qi_order : in_order q;
  qi_timers : forall a r, mem_heap (q_req q) !! a = Some r -> is_Some (rq_timer r) -> a ∈ q_queue q
}.

Definition same_preserved (q q' : QState) : Prop :=
  mem_preserved (q_req q') = mem_preserved (q_req q) /\ mem_preserved (q_ses q') = mem_preserved (q_ses q).

(** A request in the queue with its session. *)
Lemma request_of q a : queue_inv q -> a ∈ q_queue q ->
  exists r x, mem_heap (q_req q) !! a = Some r /\ mem_heap (q_ses q) !! rq_session r = Some x /\
    rq_session r ∈ q_list q /\ 0 <= rq_sends r /\ (is_Some (rq_timer r) <-> rq_sends r <> 0).
Proof.
  intros Hq Ha. destruct (qi_requests q Hq a Ha) as [[[r Hr] _] H]. destruct (H r Hr) as (Hl & Hs & Ht).
  destruct (qi_sessions q Hq _ Hl) as [[[x Hx] _] _]. exists r, x. by split_and!.
Qed.

(** ** Sending one waiting request *)

Definition fire (a : nat) (r : TnmSnmpRequest) (x : QSession) (q : QState) : QState :=
  update_ses (add_counts 1 (-1)) (rq_session r) (retransmit a r x q).

Lemma fire_req a r x q b : mem_heap (q_req q) !! a = Some r ->
  mem_heap (q_req (fire a r x q)) !! b
  = if decide (b = a) then Some (set_sends (rq_sends r + 1) (Some (Z.quot (qs_timeout x * 1000) (qs_retries x + 1))) r)
    else mem_heap (q_req q) !! b.
Proof.
  intros Hr. cbn. case_decide as Hb; [subst b; by rewrite lookup_alter_eq, Hr|by rewrite lookup_alter_ne].
Qed.

Lemma fire_ses a r x q s : mem_heap (q_ses q) !! rq_session r = Some x ->
  mem_heap (q_ses (fire a r x q)) !! s = if decide (s = rq_session r) then Some (add_counts 1 (-1) x) else mem_heap (q_ses q) !! s.
Proof.
  intros Hx. cbn. case_decide as Hb; [subst s; by rewrite lookup_alter_eq, Hx|by rewrite lookup_alter_ne].
Qed.

(** The waiting request becomes an active one. *)
Lemma fire_sums a r x q : NoDup (q_queue q) -> a ∈ q_queue q -> mem_heap (q_req q) !! a = Some r -> rq_sends r = 0 ->
  let q' := fire a r x q in
  (forall s, qsum (sent_of s q') (q_queue q) = qsum (sent_of s q) (q_queue q) + (if decide (s = rq_session r) then 1 else 0)) /\
  (forall s, qsum (waits_of s q') (q_queue q) = qsum (waits_of s q) (q_queue q) - (if decide (s = rq_session r) then 1 else 0)) /\
  total_active q' = total_active q + 1 /\ total_waiting q' = total_waiting q - 1.
Proof.
  intros Hnd Ha Hr H0 q'. unfold total_active, total_waiting. change (q_queue q') with (q_queue q).
  assert (Hq : forall b, mem_heap (q_req q') !! b = _) by (intros b; apply fire_req, Hr).
  split_and!; [intros s..| |];
    match goal with |- qsum _ _ = qsum ?f _ + _ => rewrite (qsum_update f _ _ a Hnd Ha) | |- qsum _ _ = qsum ?f _ - _ => rewrite (qsum_update f _ _ a Hnd Ha) end;
    try (intros b _ Hb; unfold sent_of, waits_of, was_sent, waits; by rewrite Hq, decide_False);
    unfold sent_of, waits_of, was_sent, waits; rewrite Hq, decide_True, Hr by done; cbn [rq_session rq_sends set_sends];
    repeat case_decide; naive_solver lia.
Qed.

Lemma fire_inv a r x q : queue_inv q -> a ∈ q_queue q -> mem_heap (q_req q) !! a = Some r ->
  mem_heap (q_ses q) !! rq_session r = Some x -> rq_sends r = 0 ->
  (forall l1 b l2 l3 r', q_queue q = l1 ++ b :: l2 ++ a :: l3 -> mem_heap (q_req q) !! b = Some r' ->
     rq_session r' = rq_session r -> rq_sends r' <> 0) ->
  queue_inv (fire a r x q).
Proof.
  intros Hq Ha Hr Hx H0 Hord. pose proof (fire_sums a r x q (qi_nodup q Hq) Ha Hr H0) as (S1 & S2 & _ & _).
  pose proof (fire_req a r x q) as Fr. pose proof (fire_ses a r x q) as Fs. pose proof (fun s => Fs s Hx) as Fs'.
  pose proof (fun b => Fr b Hr) as Fr'. clear Fr Fs. destruct Hq as [Q1 Q2 Q3 Q4 Q5 Q6 Q7]. split.
  - apply mem_update_ok, Q1.
  - apply mem_update_ok, Q2.
  - exact Q3.
  - intros b Hb. destruct (Q4 b Hb) as [Hal Hok]. split; [by apply mem_update_alive|]. intros r'. rewrite Fr'. case_decide as Hba.
    + subst b. intros [= <-]. destruct (Hok r Hr) as (? & ? & ?). cbn. split_and!; [done|lia|]. split; [lia|by eexists].
    + apply Hok.
  - intros s Hs. destruct (Q5 s Hs) as [Hal Hok]. split; [by apply mem_update_alive|]. intros y. rewrite Fs'.
    change (q_queue (fire a r x q)) with (q_queue q). rewrite S1, S2. case_decide as Hsr.
    + subst s. intros [= <-]. destruct (Hok x Hx) as (? & ? & ? & ?). cbn. split_and!; (done || lia).
    + intros Hy. destruct (Hok y Hy) as (? & ? & ? & ?). split_and!; (done || lia).
  - intros l1 b l2 c l3 rb rc E. change (q_queue (fire a r x q)) with (q_queue q) in E. rewrite !Fr'.
    case_decide as Hba; case_decide as Hca.
    + intros [= <-] _ _ _. cbn. lia.
    + intros [= <-] _ _ _. cbn. lia.
    + subst c. intros Hb [= <-] Hs _. cbn in Hs. by apply (Hord l1 b l2 l3 rb E Hb).
    + intros Hb Hc. by apply (Q6 l1 b l2 c l3 rb rc E).
  - intros b r'. rewrite Fr'. case_decide as Hba; [by subst b|apply Q7].
Qed.

(** ** Activating requests *)

(** A step that the windows permit: the first waiting request of its session is
    sent. *)
Inductive send_step (session : nat) (q : QState) : nat -> QState -> Prop :=
  | send_one a r x y :
      a ∈ q_queue q -> mem_heap (q_req q) !! a = Some r -> rq_sends r = 0 ->
      mem_heap (q_ses q) !! rq_session r = Some x -> qs_active x < qs_window x \/ qs_window x = 0 ->
      mem_heap (q_ses q) !! session = Some y -> total_active q < qs_window y \/ qs_window y = 0 ->
      (forall l1 b l2 l3 r', q_queue q = l1 ++ b :: l2 ++ a :: l3 -> mem_heap (q_req q) !! b = Some r' ->
         rq_session r' = rq_session r -> rq_sends r' <> 0) ->
      send_step session q a (fire a r x q).

(** The requests sent, in order. *)
Inductive send_steps (session : nat) : QState -> list nat -> QState -> Prop :=
  | send_none q : send_steps session q [] q
  | send_more q a q1 l q2 : send_step session q a q1 -> send_steps session q1 l q2 -> send_steps session q (a :: l) q2.

(** The session has as many active requests as its window allows. *)
Definition saturated (q : QState) (s : nat) : Prop :=
  exists x, mem_heap (q_ses q) !! s = Some x /\ qs_window x <> 0 /\ qs_window x <= qs_active x.

(** Nothing more can be sent. *)
Definition settled (session : nat) (q : QState) : Prop :=
  (forall a r, a ∈ q_queue q -> mem_heap (q_req q) !! a = Some r -> rq_sends r = 0 -> saturated q (rq_session r)) \/
  (exists x, mem_heap (q_ses q) !! session = Some x /\ qs_window x <> 0 /\ qs_window x <= total_active q).

Lemma send_step_inv session q a q' : queue_inv q -> send_step session q a q' -> queue_inv q'.
Proof. intros Hq [a' r x y ? ? ? ? ? ? ? ?]. by apply fire_inv. Qed.

(** What sending leaves alone. *)
Lemma send_step_frame session q a q' : send_step session q a q' ->
  q_queue q' = q_queue q /\ q_list q' = q_list q /\ same_preserved q q' /\
  mem_doomed (q_req q') = mem_doomed (q_req q) /\ mem_doomed (q_ses q') = mem_doomed (q_ses q).
Proof. by intros [a' r x y ? ? ? ? ? ? ? ?]. Qed.

Lemma fire_saturated a r x q s : mem_heap (q_ses q) !! rq_session r = Some x -> saturated q s -> saturated (fire a r x q) s.
Proof.
  intros Hx (y & Hy & Hw & Hl). unfold saturated. rewrite fire_ses by done. case_decide as Hs.
  - subst s. assert (y = x) as -> by congruence. eexists. split; [done|]. cbn. split; [done|lia].
  - by exists y.
Qed.

Lemma next_requests_app l1 a l2 : a ∉ l1 -> next_requests a (l1 ++ a :: l2) = Some l2.
Proof.
  induction l1 as [|b l1 IH]; intros Ha; cbn; [by rewrite decide_True|].
  apply not_elem_of_cons in Ha as [? ?]. rewrite decide_False by done. by apply IH.
Qed.

(** The position of an element of a list without repetitions. *)
Lemma app_inj_nodup (a : nat) l1 k1 : forall l2 k2, NoDup (l1 ++ a :: l2) -> k1 ++ a :: k2 = l1 ++ a :: l2 -> k1 = l1.
Proof.
  revert k1. induction l1 as [|b l1 IH]; intros [|c k1] l2 k2 Hnd E; cbn in *; simplify_eq; [done| | |].
  - apply NoDup_cons in Hnd as [Hnd _]. exfalso. apply Hnd. rewrite elem_of_app. right. by left.
  - apply NoDup_cons in Hnd as [Hnd _]. exfalso. apply Hnd. rewrite elem_of_app. right. by left.
  - apply NoDup_cons in Hnd as [_ Hnd]. f_equal. by eapply IH.
Qed.

Lemma total_waiting_zero q a r : total_waiting q = 0 -> a ∈ q_queue q -> mem_heap (q_req q) !! a = Some r -> rq_sends r <> 0.
Proof.
  intros Hz Ha Hr H0. apply list_elem_of_split in Ha as (l1 & l2 & E). unfold total_waiting in Hz. rewrite E, qsum_app in Hz.
  assert (Hn : forall l, 0 <= qsum (waits q) l).
  { intros l. apply qsum_nonneg. intros b _. unfold waits. repeat case_match; lia. }
  pose proof (Hn l1). pose proof (Hn l2). cbn in Hz. fold (qsum (waits q) l2) in Hz. unfold waits at 2 in Hz.
  rewrite Hr, decide_True in Hz by done. lia.
Qed.

Lemma count_queue_ok q : queue_inv q -> forall l active waiting, (forall a, a ∈ l -> a ∈ q_queue q) ->
  count_queue l q active waiting = Ok (active + qsum (was_sent q) l, waiting + qsum (waits q) l).
Proof.
  intros Hq. induction l as [|a l IH]; intros active waiting Hl; cbn [count_queue].
  - cbn. do 2 f_equal; lia.
  - destruct (request_of q a Hq) as (r & x & Hr & _); [apply Hl; by left|]. rewrite (mem_read_Some _ _ _ Hr), run_bind_ok.
    cbn [qsum foldr]. fold (qsum (was_sent q) l) (qsum (waits q) l). unfold was_sent at 1, waits at 1. rewrite Hr.
    case_bool_decide as Hs; rewrite IH by (intros b Hb; apply Hl; by right);
      repeat case_decide; try done; do 2 f_equal; lia.
Qed.

Lemma send_steps_frame session q l q' : send_steps session q l q' ->
  q_queue q' = q_queue q /\ q_list q' = q_list q /\ same_preserved q q' /\
  mem_doomed (q_req q') = mem_doomed (q_req q) /\ mem_doomed (q_ses q') = mem_doomed (q_ses q).
Proof.
  induction 1 as [q|q a q1 l q2 H _ IH]; [done|]. destruct (send_step_frame _ _ _ _ H) as (E1 & E2 & [E3 E4] & E5 & E6).
  destruct IH as (I1 & I2 & [I3 I4] & I5 & I6). split_and!; try congruence. split; congruence.
Qed.

Section activate.
Variable timeout : nat -> QState -> run_result QState.
Hypothesis timeout_sends : forall q a r x, mem_heap (q_req q) !! a = Some r -> mem_heap (q_ses q) !! rq_session r = Some x ->
  rq_sends r = 0 -> 0 <= qs_retries x -> timeout a q = Ok (retransmit a r x q).

Lemma activate_ok session n : forall l l1 q, queue_inv q -> q_queue q = l1 ++ l -> (length l < n)%nat -> session ∈ q_list q ->
  (forall b r, b ∈ l1 -> mem_heap (q_req q) !! b = Some r -> rq_sends r = 0 -> saturated q (rq_session r)) ->
  exists q' acts, activate timeout n l session (total_active q) (total_waiting q) q = Ok q' /\ queue_inv q' /\
    send_steps session q acts q' /\ settled session q' /\ sublist acts l.
Proof using timeout_sends.
  induction n as [|n IH]; intros l l1 q Hq El Hn Hs Hsat; [lia|]. destruct l as [|a l]; cbn [activate].
  - exists q, []. split_and!; [done|done|constructor| |apply sublist_nil_l]. left. intros b r. rewrite El, app_nil_r. apply Hsat.
  - case_bool_decide as Hw.
    { exists q, []. split_and!; [done|done|constructor| |apply sublist_nil_l]. left. intros b r Hb Hr H0. exfalso.
      by apply (total_waiting_zero q b r). }
    destruct (qi_sessions q Hq session Hs) as [[[y Hy] _] _]. rewrite (mem_read_Some _ _ _ Hy), run_bind_ok.
    destruct (bool_decide (qs_window y <> 0) && _) eqn:Ew.
    { apply andb_true_iff in Ew as [E1%bool_decide_eq_true E2%bool_decide_eq_true].
      exists q, []. split_and!; [done|done|constructor| |apply sublist_nil_l]. right. by exists y. }
    assert (Hin : a ∈ q_queue q) by (rewrite El, elem_of_app; right; by left).
    destruct (request_of q a Hq Hin) as (r & x & Hr & Hx & Hl & H0 & Ht). rewrite (mem_read_Some _ _ _ Hr), run_bind_ok.
    assert (Hskip : (rq_sends r = 0 -> saturated q (rq_session r)) ->
      exists q' acts, activate timeout n l session (total_active q) (total_waiting q) q = Ok q' /\ queue_inv q' /\
        send_steps session q acts q' /\ settled session q' /\ sublist acts (a :: l)).
    { intros Ha. destruct (IH l (l1 ++ [a]) q) as (q' & acts & ? & ? & ? & ? & ?); [done|by rewrite <- app_assoc|cbn in Hn; lia|done| |].
      2:{ exists q', acts. split_and!; try done. by constructor. }
      intros b r' [Hb| ->%list_elem_of_singleton]%elem_of_app Hr' Hz; [by eapply Hsat|]. assert (r' = r) as -> by congruence. by apply Ha. }
    destruct (bool_decide (rq_sends r = 0)) eqn:Hz; [apply bool_decide_eq_true in Hz|apply bool_decide_eq_false in Hz; apply Hskip; intros ?; done]. rewrite (mem_read_Some _ _ _ Hx), run_bind_ok.
    destruct (bool_decide (qs_active x < qs_window x) || _) eqn:Ea.
    2:{ apply Hskip. intros _. apply orb_false_iff in Ea as [E1%bool_decide_eq_false E2%bool_decide_eq_false].
        exists x. split; [done|]. split; [done|lia]. }
    destruct (qi_sessions q Hq _ Hl) as [_ Hok]. destruct (Hok x Hx) as (Hret & _).
    rewrite (timeout_sends q a r x Hr Hx Hz Hret), run_bind_ok.
    assert (Hr2 : mem_heap (q_req (retransmit a r x q)) !! a
      = Some (set_sends (rq_sends r + 1) (Some (Z.quot (qs_timeout x * 1000) (qs_retries x + 1))) r))
      by (cbn; by rewrite lookup_alter_eq, Hr).
    rewrite (mem_read_Some _ _ _ Hr2), run_bind_ok. cbn [rq_session set_sends].
    assert (Hx2 : mem_heap (q_ses (retransmit a r x q)) !! rq_session r = Some x) by done.
    rewrite (mem_read_Some _ _ _ Hx2), run_bind_ok. fold (fire a r x q). change (q_queue (fire a r x q)) with (q_queue q).
    pose proof (qi_nodup q Hq) as Hnd. rewrite El in Hnd. pose proof Hnd as (_ & Hdis & Hnd2)%NoDup_app. apply NoDup_cons in Hnd2 as [Ha2 _].
    rewrite El, next_requests_app by (intros Hb; apply (Hdis a Hb); by left).
    assert (Hord : forall l1 b l2 l3 r', q_queue q = l1 ++ b :: l2 ++ a :: l3 -> mem_heap (q_req q) !! b = Some r' ->
      rq_session r' = rq_session r -> rq_sends r' <> 0).
    { intros k1 b k2 k3 r' Ek Hb Hsb Hzb. assert (Hbl : b ∈ l1).
      { assert (E : k1 ++ b :: k2 = l1).
        { eapply (app_inj_nodup a); [exact Hnd|]. rewrite <- El, Ek. by rewrite <- app_assoc. }
        rewrite <- E, elem_of_app. right. by left. }
      destruct (Hsat b r' Hbl Hb Hzb) as (x' & Hx' & Hw' & Hl'). rewrite Hsb in Hx'. assert (x' = x) as -> by congruence.
      apply orb_true_iff in Ea as [E%bool_decide_eq_true|E%bool_decide_eq_true]; [lia|done]. }
    assert (Hstep : send_step session q a (fire a r x q)).
    { apply (send_one session q a r x y); try done.
      - apply orb_true_iff in Ea as [E%bool_decide_eq_true|E%bool_decide_eq_true]; [by left|by right].
      - apply andb_false_iff in Ew as [E%bool_decide_eq_false|E%bool_decide_eq_false]; [right; by apply dec_stable|left; lia]. }
    destruct (fire_sums a r x q (qi_nodup q Hq) Hin Hr Hz) as (_ & _ & <- & <-).
    destruct (IH l (l1 ++ [a]) (fire a r x q)) as (q' & acts & E & Hq' & Hst & Hset & Hsub).
    + by apply fire_inv.
    + by rewrite <- app_assoc.
    + cbn in Hn. lia.
    + done.
    + intros b r' Hb. rewrite fire_req by done. destruct (decide (b = a)) as [Hba|Hba].
      * injection 1 as <-. cbn. lia.
      * intros Hr' Hz'. apply fire_saturated; [done|]. apply elem_of_app in Hb as [Hb|Hb]; [by apply (Hsat b)|].
        by apply list_elem_of_singleton in Hb.
    + exists q', (a :: acts). split_and!; try done; [by econstructor|by constructor].
Qed.

(** Without a new request. *)
Lemma queue_request_none session q : queue_inv q -> session ∈ q_list q ->
  exists n q' acts, queue_request timeout session None q = Ok (n, q') /\ queue_inv q' /\
    send_steps session q acts q' /\ settled session q' /\ sublist acts (q_queue q).
Proof using timeout_sends.
  intros Hq Hs. unfold queue_request. rewrite (count_queue_ok q Hq) by done. rewrite !run_bind_ok. cbn [fst snd].
  destruct (activate_ok session (S (length (q_queue q))) (q_queue q) [] q Hq eq_refl ltac:(lia) Hs) as (q' & acts & E & Hq' & Hst & Hset & Hsub).
  { intros b r Hb. by apply elem_of_nil in Hb. }
  rewrite !Z.add_0_l. fold (total_active q) (total_waiting q). rewrite E, run_bind_ok.
  destruct (send_steps_frame _ _ _ _ Hst) as (_ & El & _). rewrite <- El in Hs.
  destruct (qi_sessions q' Hq' session Hs) as [[[y Hy] _] _]. rewrite (mem_read_Some _ _ _ Hy), run_bind_ok.
  by eexists _, q', acts.
Qed.
End activate.

(** ** Entering and leaving the queue *)

Definition enqueue (session a : nat) (q : QState) : QState :=
  with_queue (q_queue q ++ [a]) (update_ses (add_counts 0 1) session (update_req (set_session session) a q)).

Lemma enqueue_req session a q b : mem_heap (q_req (enqueue session a q)) !! b
  = (if decide (b = a) then set_session session else id) <$> mem_heap (q_req q) !! b.
Proof.
  cbn. case_decide as Hb; [subst b; by rewrite lookup_alter_eq|]. rewrite lookup_alter_ne by done. by rewrite option_fmap_id.
Qed.

Lemma enqueue_sums session a q r : a ∉ q_queue q -> mem_heap (q_req q) !! a = Some r -> rq_sends r = 0 ->
  let q' := enqueue session a q in
  (forall s, qsum (sent_of s q') (q_queue q') = qsum (sent_of s q) (q_queue q)) /\
  (forall s, qsum (waits_of s q') (q_queue q') = qsum (waits_of s q) (q_queue q) + (if decide (s = session) then 1 else 0)) /\
  total_active q' = total_active q /\ total_waiting q' = total_waiting q + 1.
Proof.
  intros Ha Hr H0 q'. unfold total_active, total_waiting. change (q_queue q') with (q_queue q ++ [a]).
  assert (Hold : forall b, b ∈ q_queue q -> mem_heap (q_req q') !! b = mem_heap (q_req q) !! b).
  { intros b Hb. unfold q'. rewrite enqueue_req, decide_False by (by intros ->). by rewrite option_fmap_id. }
  assert (Hnew : mem_heap (q_req q') !! a = Some (set_session session r)).
  { unfold q'. rewrite enqueue_req, decide_True, Hr by done. done. }
  split_and!; [intros s..| |]; rewrite qsum_app; cbn [qsum foldr];
    match goal with |- qsum ?g _ + _ = qsum ?f _ + _ => rewrite (qsum_ext f g) | |- qsum ?g _ + _ = qsum ?f _ => rewrite (qsum_ext f g) end;
    try (intros b Hb; unfold sent_of, waits_of, was_sent, waits; by rewrite Hold);
    unfold sent_of, waits_of, was_sent, waits; rewrite Hnew; cbn [rq_session rq_sends set_session];
    repeat case_decide; naive_solver lia.
Qed.

Lemma enqueue_inv session a q r : queue_inv q -> a ∉ q_queue q -> mem_alive (q_req q) a -> mem_heap (q_req q) !! a = Some r ->
  rq_sends r = 0 -> rq_timer r = None -> session ∈ q_list q -> queue_inv (enqueue session a q).
Proof.
  intros Hq Ha Hal Hr H0 Ht Hs. destruct (enqueue_sums session a q r Ha Hr H0) as (S1 & S2 & _ & _).
  destruct Hq as [Q1 Q2 Q3 Q4 Q5 Q6 Q7].
  assert (Hold : forall b, b <> a -> mem_heap (q_req (enqueue session a q)) !! b = mem_heap (q_req q) !! b).
  { intros b Hb. rewrite enqueue_req, decide_False by done. by rewrite option_fmap_id. }
  split.
  - apply mem_update_ok, Q1.
  - apply mem_update_ok, Q2.
  - cbn. apply NoDup_app. split; [done|]. split; [|apply NoDup_singleton]. by intros b Hb ->%list_elem_of_singleton.
  - intros b [Hb| ->%list_elem_of_singleton]%elem_of_app.
    + destruct (Q4 b Hb) as [Hb1 Hb2]. split; [by apply mem_update_alive|]. intros r'. rewrite Hold by (by intros ->). apply Hb2.
    + split; [by apply mem_update_alive|]. intros r'. rewrite enqueue_req, decide_True, Hr by done. intros [= <-]. cbn.
      rewrite H0, Ht. split_and!; [done|done|]. split; [by intros [? ?]|done].
  - intros s Hsl. destruct (Q5 s Hsl) as [Hs1 Hs2]. split; [by apply mem_update_alive|]. intros x. rewrite S1, S2. cbn.
    destruct (decide (session = s)) as [->|Hne].
    + rewrite lookup_alter_eq. intros (y & Hy & ->)%fmap_Some. destruct (Hs2 y Hy) as (? & ? & ? & ?). cbn.
      rewrite decide_True by done. split_and!; (done || lia).
    + rewrite lookup_alter_ne by done. intros Hx. destruct (Hs2 x Hx) as (? & ? & ? & ?). rewrite decide_False by done.
      split_and!; (done || lia).
  - intros l1 b l2 c l3 rb rc E Hb Hc Hss Hsc. assert (Hca : c <> a).
    { intros ->. rewrite enqueue_req, decide_True, Hr in Hc by done. injection Hc as <-. done. }
    destruct l3 as [|d l3 _] using rev_ind.
    { change (q_queue (enqueue session a q)) with (q_queue q ++ [a]) in E. rewrite app_comm_cons, app_assoc in E.
      apply app_inj_tail in E as [_ ->]. done. }
    assert (Eq : q_queue q = l1 ++ b :: l2 ++ c :: l3).
    { change (q_queue (enqueue session a q)) with (q_queue q ++ [a]) in E.
      replace (l1 ++ b :: l2 ++ c :: l3 ++ [d]) with ((l1 ++ b :: l2 ++ c :: l3) ++ [d]) in E
        by (rewrite <- app_assoc; cbn; by rewrite <- app_assoc).
      by apply app_inj_tail in E as [-> _]. }
    assert (Hba : b <> a) by (intros ->; apply Ha; rewrite Eq, elem_of_app; right; by left).
    rewrite Hold in Hb, Hc by done. by apply (Q6 l1 b l2 c l3 rb rc Eq).
  - intros b r' Hb Hti. cbn. rewrite elem_of_app, list_elem_of_singleton. destruct (decide (b = a)) as [->|Hne]; [by right|left].
    rewrite Hold in Hb by done. by apply (Q7 b r').
Qed.

(** The state after a request was taken out of the queue. *)
Definition dequeue (a : nat) (r : TnmSnmpRequest) (q : QState) : QState :=
  with_req (mem_free a (clear_timer a (q_req q)))
    (with_queue (filter (fun b => b <> a) (q_queue q))
      (update_ses (if bool_decide (rq_sends r <> 0) then add_counts (-1) 0 else add_counts 0 (-1)) (rq_session r) q)).

Lemma dequeue_old a r q b : b <> a -> mem_heap (q_req (dequeue a r q)) !! b = mem_heap (q_req q) !! b.
Proof. intros Hb. cbn. rewrite (proj1 (mem_free_other a b _ ltac:(congruence))). cbn. by rewrite lookup_alter_ne. Qed.

Lemma in_order_filter (P : nat -> Prop) `{!forall b, Decision (P b)} q q' : in_order q ->
  q_queue q' = filter P (q_queue q) ->
  (forall b, P b -> mem_heap (q_req q') !! b = mem_heap (q_req q) !! b) -> in_order q'.
Proof.
  intros Ho Eq Hold l1 b l2 c l3 rb rc E Hb Hc.
  assert (Hsplit : forall (l : list nat) k1 x k2, filter P l = k1 ++ x :: k2 ->
    exists m1 m2, l = m1 ++ x :: m2 /\ k2 = filter P m2 /\ P x).
  { clear -P. induction l as [|y l IH]; intros k1 x k2 E; [by destruct k1|]. rewrite filter_cons in E. case_decide as Hy.
    - destruct k1 as [|z k1]; cbn in E; injection E as -> E.
      + exists [], l. by rewrite <- E.
      + destruct (IH k1 x k2 E) as (m1 & m2 & -> & -> & ?). by exists (z :: m1), m2.
    - destruct (IH k1 x k2 E) as (m1 & m2 & -> & -> & ?). by exists (y :: m1), m2. }
  rewrite Eq in E. destruct (Hsplit _ _ _ _ E) as (m1 & m2 & El & E2 & Hba). symmetry in E2.
  destruct (Hsplit _ _ _ _ E2) as (m3 & m4 & -> & _ & Hca). rewrite Hold in Hb, Hc by done.
  by apply (Ho m1 b m3 c m4 rb rc El Hb Hc).
Qed.

Lemma dequeue_inv a r q : queue_inv q -> a ∈ q_queue q -> mem_heap (q_req q) !! a = Some r -> queue_inv (dequeue a r q).
Proof.
  intros [Q1 Q2 Q3 Q4 Q5 Q6 Q7] Ha Hr.
  assert (Hmem : forall b, b ∈ q_queue (dequeue a r q) <-> b <> a /\ b ∈ q_queue q) by (intros b; cbn; by rewrite list_elem_of_filter).
  assert (Hsum : forall f g, (forall b, b <> a -> g b = f b) -> qsum g (q_queue (dequeue a r q)) = qsum f (q_queue q) - f a).
  { intros f g Hfg. rewrite <- (qsum_remove f _ a Q3 Ha). apply qsum_ext. intros b [Hb _]%Hmem. by apply Hfg. }
  split.
  - apply mem_free_ok, mem_update_ok, Q1.
  - apply mem_update_ok, Q2.
  - by apply NoDup_filter.
  - intros b [Hb Hbq]%Hmem. destruct (Q4 b Hbq) as [H1 H2]. split; [|intros r'; rewrite dequeue_old by done; apply H2].
    apply mem_free_other; [congruence|]. by apply mem_update_alive.
  - intros s Hs. destruct (Q5 s Hs) as [H1 H2]. split; [by apply mem_update_alive|]. intros x.
    rewrite (Hsum (sent_of s q)) by (intros b Hb; unfold sent_of; by rewrite dequeue_old).
    rewrite (Hsum (waits_of s q)) by (intros b Hb; unfold waits_of; by rewrite dequeue_old).
    cbn [dequeue with_req with_queue update_ses with_ses q_ses mem_update mem_heap].
    unfold sent_of at 2, waits_of at 2. rewrite Hr. destruct (decide (rq_session r = s)) as [<-|Hne].
    + rewrite lookup_alter_eq. intros (y & Hy & ->)%fmap_Some. destruct (H2 y Hy) as (? & ? & ? & ?).
      case_bool_decide as Hb; cbn; [rewrite decide_True, decide_False by tauto|rewrite decide_False, decide_True by tauto]; split_and!; (done || lia).
    + rewrite lookup_alter_ne by done. intros Hx. destruct (H2 x Hx) as (? & ? & ? & ?).
      rewrite !decide_False by tauto. split_and!; (done || lia).
  - eapply (in_order_filter (fun b => b <> a)); [exact Q6|done|]. intros b. apply dequeue_old.
  - intros b r' Hb Ht. apply Hmem. destruct (decide (b = a)) as [->|Hne].
    + apply mem_free_sub in Hb. cbn in Hb. rewrite lookup_alter_eq, Hr in Hb. injection Hb as <-. by destruct Ht.
    + rewrite dequeue_old in Hb by done. split; [done|]. by apply (Q7 b r').
Qed.

(** ** States that agree on what the queue and the list hold *)

Lemma inv_agree q q' : queue_inv q -> mem_ok (q_req q') -> mem_ok (q_ses q') ->
  q_queue q' = q_queue q -> q_list q' = q_list q ->
  (forall a, a ∈ q_queue q -> mem_alive (q_req q') a /\ mem_heap (q_req q') !! a = mem_heap (q_req q) !! a) ->
  (forall s, s ∈ q_list q -> mem_alive (q_ses q') s /\ mem_heap (q_ses q') !! s = mem_heap (q_ses q) !! s) ->
  (forall a r, mem_heap (q_req q') !! a = Some r -> mem_heap (q_req q) !! a = Some r \/ rq_timer r = None) ->
  queue_inv q'.
Proof.
  intros [Q1 Q2 Q3 Q4 Q5 Q6 Q7] M1 M2 Eq El Hr Hs Hti.
  assert (Hsum : forall f g, (forall b, mem_heap (q_req q') !! b = mem_heap (q_req q) !! b -> g b = f b) ->
    qsum g (q_queue q') = qsum f (q_queue q)).
  { intros f g Hfg. rewrite Eq. apply qsum_ext. intros b Hb. apply Hfg. by apply Hr. }
  split; [done|done|by rewrite Eq| | | |].
  - intros a. rewrite Eq. intros Ha. destruct (Hr a Ha) as [H1 H2]. split; [done|]. intros r. rewrite H2, El. by apply Q4.
  - intros s. rewrite El. intros H. destruct (Hs s H) as [H1 H2]. split; [done|]. intros x. rewrite H2. intros Hx.
    destruct (Q5 s H) as [_ H3]. destruct (H3 x Hx) as (? & ? & -> & ->). split_and!; [done|done| |];
      symmetry; apply Hsum; intros b Hb; unfold sent_of, waits_of; by rewrite Hb.
  - intros l1 a l2 b l3 ra rb. rewrite Eq. intros E. rewrite (proj2 (Hr a ltac:(rewrite E; set_solver))).
    rewrite (proj2 (Hr b ltac:(rewrite E; set_solver))). by apply (Q6 l1 a l2 b l3).
  - intros a r Ha Ht. rewrite Eq. destruct (Hti a r Ha) as [Ha'|E]; [by apply (Q7 a r)|]. rewrite E in Ht. by destruct Ht.
Qed.

Lemma inv_alive q : queue_inv q ->
  (forall a, a ∈ q_queue q -> mem_alive (q_req q) a) /\ (forall s, s ∈ q_list q -> mem_alive (q_ses q) s).
Proof. intros Hq. split; intros x Hx; [by apply (qi_requests q Hq)|by apply (qi_sessions q Hq)]. Qed.

(** [Tcl_Preserve] and [Tcl_Release] of a request and of a session. *)
Definition preserve_both (a s : nat) (q : QState) : QState :=
  with_ses (mem_preserve s (q_ses q)) (with_req (mem_preserve a (q_req q)) q).
Definition release_both (a s : nat) (q : QState) : QState :=
  with_req (mem_release a (q_req q)) (with_ses (mem_release s (q_ses q)) q).

Lemma queue_preserve_inv a s q : queue_inv q -> is_Some (mem_heap (q_req q) !! a) -> is_Some (mem_heap (q_ses q) !! s) ->
  queue_inv (preserve_both a s q).
Proof.
  intros Hq Ha Hs. destruct (inv_alive q Hq) as [H1 H2].
  eapply inv_agree; [exact Hq|apply mem_preserve_ok; [apply Hq|done]..|done|done| | |intros b r Hb; by left];
    intros x Hx; (split; [|done]); [exact (H1 x Hx)|exact (H2 x Hx)].
Qed.

Lemma queue_release_inv a s q : queue_inv q -> queue_inv (release_both a s q).
Proof.
  intros Hq. destruct (inv_alive q Hq) as [H1 H2].
  eapply inv_agree; [exact Hq|apply mem_release_ok, Hq..|done|done| | |intros b r Hb; left; exact (mem_release_sub _ _ _ _ Hb)];
    intros x Hx; by apply mem_release_alive; auto.
Qed.

Lemma inv_sent l q : queue_inv q -> queue_inv (with_sent l q).
Proof. intros Hq. destruct (inv_alive q Hq). eapply inv_agree; [exact Hq|apply Hq|apply Hq|done|done| | |]; auto. Qed.

(** A new structure is not in the queue. *)
Lemma inv_create id packet proc q : queue_inv q -> let '(a, q') := TnmSnmpCreateRequest id packet proc q in
  queue_inv q' /\ (a ∉ q_queue q) /\ mem_alive (q_req q') a /\ mem_heap (q_req q') !! a = Some (new_request id packet proc) /\
  q_queue q' = q_queue q /\ q_list q' = q_list q /\ same_preserved q q'.
Proof.
  intros Hq. unfold TnmSnmpCreateRequest. set (a := mem_fresh (q_req q)). destruct (inv_alive q Hq) as [H1 H2].
  assert (Ha : forall b, b ∈ q_queue q -> a <> b).
  { intros b Hb <-. destruct (H1 a Hb) as [[r Hr] _]. unfold a in Hr. by rewrite mem_fresh_None in Hr. }
  split_and!; try done.
  - eapply inv_agree; [exact Hq|apply mem_alloc_ok, Hq|apply Hq|done|done| |auto|].
    2:{ intros b r. cbn. rewrite lookup_insert_Some. intros [[<- <-]|[_ ?]]; [by right|by left]. }
    intros b Hb. split; [|cbn; by rewrite lookup_insert_ne by (by apply Ha)]. destruct (H1 b Hb) as [? ?]. split; [|done].
    cbn. by rewrite lookup_insert_ne by (by apply Ha).
  - intros Hb. by apply (Ha a).
  - apply mem_fresh_alive, Hq.
  - cbn. by rewrite lookup_insert_eq.
Qed.

(** Sending a request again. *)
Lemma inv_retransmit a r x q : queue_inv q -> a ∈ q_queue q -> mem_heap (q_req q) !! a = Some r -> rq_sends r <> 0 ->
  queue_inv (retransmit a r x q).
Proof.
  intros [Q1 Q2 Q3 Q4 Q5 Q6 Q7] Ha Hr Hn. destruct (Q4 a Ha) as [_ Hok]. destruct (Hok r Hr) as (Hsl & H0 & _).
  assert (Hq : forall b, mem_heap (q_req (retransmit a r x q)) !! b
    = if decide (b = a) then Some (set_sends (rq_sends r + 1) (Some (Z.quot (qs_timeout x * 1000) (qs_retries x + 1))) r)
      else mem_heap (q_req q) !! b).
  { intros b. cbn. case_decide as Hb; [subst b; by rewrite lookup_alter_eq, Hr|by rewrite lookup_alter_ne]. }
  split; try done.
  - apply mem_update_ok, Q1.
  - intros b Hb. destruct (Q4 b Hb) as [H1 H2]. split; [by apply mem_update_alive|]. intros r'. rewrite Hq. case_decide; [|apply H2].
    intros [= <-]. cbn. split_and!; [done|lia|]. split; [lia|by eexists].
  - intros s Hs. destruct (Q5 s Hs) as [H1 H2]. split; [done|]. intros y Hy. destruct (H2 y Hy) as (? & ? & -> & ->).
    split_and!; try done; symmetry; apply qsum_ext; intros b _; unfold sent_of, waits_of; rewrite Hq; case_decide as Hb; try done;
      subst b; rewrite Hr; cbn; repeat case_decide; naive_solver lia.
  - intros l1 b l2 c l3 rb rc E. rewrite !Hq. case_decide as Hb; case_decide as Hc.
    + intros [= <-] _ _ _. cbn. lia.
    + intros [= <-] _ _ _. cbn. lia.
    + subst c. intros Hb' [= <-] Hs _. by apply (Q6 l1 b l2 a l3 rb r E).
    + intros Hb' Hc'. by apply (Q6 l1 b l2 c l3 rb rc E).
  - intros b r'. rewrite Hq. case_decide as Hb; [by subst b|apply Q7].
Qed.

Lemma send_steps_req session q l q' b : send_steps session q l q' -> b ∉ q_queue q ->
  mem_heap (q_req q') !! b = mem_heap (q_req q) !! b.
Proof.
  induction 1 as [q|q a q1 l q2 H _ IH]; intros Hb; [done|]. rewrite IH.
  - destruct H as [a r x y Ha Hr _ _ _ _ _ _]. rewrite fire_req by done. rewrite decide_False; [done|]. by intros ->.
  - destruct (send_step_frame _ _ _ _ H) as (-> & _). done.
Qed.

(** ** The procedures of the queue *)

Section procs.
Variable request_proc : cstring -> nat -> Z -> Z -> QState -> QState.

(** A callback works on the queue through the procedures below. *)
Definition callback_ok (f : QState -> QState) : Prop :=
  forall q, queue_inv q -> queue_inv (f q) /\ same_preserved q (f q).
Definition procs_ok : Prop := forall proc s id status, callback_ok (request_proc proc s id status).

Lemma timeout_first fuel q a r x : mem_heap (q_req q) !! a = Some r -> mem_heap (q_ses q) !! rq_session r = Some x ->
  rq_sends r = 0 -> 0 <= qs_retries x -> TnmSnmpTimeoutProc request_proc (S fuel) a q = Ok (retransmit a r x q).
Proof.
  intros Hr Hx H0 Hret. cbn [TnmSnmpTimeoutProc]. rewrite (mem_read_Some _ _ _ Hr), run_bind_ok.
  rewrite (mem_read_Some _ _ _ Hx), run_bind_ok. rewrite bool_decide_eq_true_2 by lia. done.
Qed.

Lemma delete_queued fuel q a r : queue_inv q -> a ∈ q_queue q -> mem_heap (q_req q) !! a = Some r ->
  exists q' acts, TnmSnmpDeleteRequest request_proc (S fuel) a q = Ok q' /\ queue_inv q' /\
    send_steps (rq_session r) (dequeue a r q) acts q' /\ settled (rq_session r) q' /\
    sublist acts (filter (fun b => b <> a) (q_queue q)).
Proof.
  intros Hq Ha Hr. unfold TnmSnmpDeleteRequest, delete_request. rewrite bool_decide_eq_false_2 by tauto.
  rewrite (mem_read_Some _ _ _ Hr), run_bind_ok. destruct (request_of q a Hq Ha) as (r' & x & Hr' & Hx & Hl & _).
  assert (r' = r) as -> by congruence. rewrite bool_decide_eq_true_2 by done. cbv zeta.
  rewrite (mem_read_Some _ _ _ Hx), !run_bind_ok. fold (dequeue a r q).
  destruct (queue_request_none _ (timeout_first fuel) (rq_session r) (dequeue a r q)) as (n & q' & acts & E & Hq' & Hst & Hset & Hsub);
    [by apply dequeue_inv|done|].
  exists q', acts. split; [|done]. change (with_req _ _) with (dequeue a r q). rewrite E. done.
Qed.

Lemma dequeue_preserved a r s q : queue_inv q -> a ∈ q_queue q -> mem_heap (q_req q) !! a = Some r ->
  mem_heap (q_req (dequeue a r (preserve_both a s q))) !! a = Some (set_sends (rq_sends r) None r).
Proof.
  intros Hq Ha Hr. unfold dequeue, preserve_both. cbn [with_req q_req with_queue update_ses with_ses].
  rewrite mem_free_keeps.
  - cbn. by rewrite lookup_alter_eq, Hr.
  - apply mem_update_ok, mem_preserve_ok; [apply Hq|by eexists].
  - cbn. by rewrite lookup_insert_eq.
Qed.

(** Deleting a request that is preserved and calling its procedure. *)
Definition finish (fuel a s : nat) (id status : Z) (q : QState) : run_result QState :=
  q ← TnmSnmpDeleteRequest request_proc fuel a (preserve_both a s q);
  r' ← mem_read (q_req q) a;
  let q := match rq_proc r' with Some proc => request_proc proc s id status q | None => q end in
  Ok (release_both a s q).

Lemma finish_ok fuel a s id status q r : procs_ok -> queue_inv q -> a ∈ q_queue q -> mem_heap (q_req q) !! a = Some r ->
  is_Some (mem_heap (q_ses q) !! s) ->
  exists q1 acts, let q2 := match rq_proc r with Some proc => request_proc proc s id status q1 | None => q1 end in
    finish (S fuel) a s id status q = Ok (release_both a s q2) /\
    queue_inv q1 /\ send_steps (rq_session r) (dequeue a r (preserve_both a s q)) acts q1 /\ settled (rq_session r) q1 /\
    queue_inv (release_both a s q2) /\ same_preserved q (release_both a s q2).
Proof.
  intros Hok Hq Ha Hr Hs.
  assert (Hp : queue_inv (preserve_both a s q)) by (apply queue_preserve_inv; [done|by eexists|done]).
  destruct (delete_queued fuel _ a r Hp Ha Hr) as (q1 & acts & E & Hq1 & Hst & Hset & _). exists q1, acts.
  assert (Hr1 : mem_heap (q_req q1) !! a = Some (set_sends (rq_sends r) None r)).
  { rewrite (send_steps_req _ _ _ _ a Hst); [by apply dequeue_preserved|]. cbn. rewrite list_elem_of_filter. tauto. }
  set (q2 := match rq_proc r with Some proc => _ | None => q1 end).
  assert (Hq2 : queue_inv q2 /\ same_preserved q1 q2) by (unfold q2; destruct (rq_proc r); [by apply Hok|done]).
  destruct Hq2 as [Hq2 [P1 P2]]. destruct (send_steps_frame _ _ _ _ Hst) as (_ & _ & [F1 F2] & _).
  unfold finish. rewrite E, run_bind_ok, (mem_read_Some _ _ _ Hr1), run_bind_ok. split_and!; try done; [by apply queue_release_inv|].
  split; cbn [release_both with_req with_ses q_req q_ses]; apply mem_release_preserve; try apply Hq.
  - rewrite P1, F1. cbn [dequeue with_req q_req]. by rewrite mem_free_preserved.
  - by rewrite P2, F2.
Qed.

(** A timer that expires. *)
Lemma timeout_ok fuel a q : procs_ok -> queue_inv q -> a ∈ q_queue q ->
  exists q', TnmSnmpTimeoutProc request_proc (S (S fuel)) a q = Ok q' /\ (exists r, mem_heap (q_req q) !! a = Some r /\
    (rq_sends r <> 0 -> queue_inv q' /\ same_preserved q q')).
Proof.
  intros Hok Hq Ha. destruct (request_of q a Hq Ha) as (r & x & Hr & Hx & _).
  change (TnmSnmpTimeoutProc request_proc (S (S fuel)) a q) with
    (r ← mem_read (q_req q) a; s ← mem_read (q_ses q) (rq_session r);
     if bool_decide (rq_sends r < 1 + qs_retries s) then Ok (retransmit a r s q)
     else finish (S fuel) a (rq_session r) (rq_id r) TNM_SNMP_NORESPONSE q).
  rewrite (mem_read_Some _ _ _ Hr), run_bind_ok, (mem_read_Some _ _ _ Hx), run_bind_ok. case_bool_decide.
  - eexists. split; [done|]. exists r. split; [done|]. intros Hn. split; [by apply inv_retransmit|done].
  - destruct (finish_ok fuel a (rq_session r) (rq_id r) TNM_SNMP_NORESPONSE q r Hok Hq Ha Hr ltac:(by eexists)) as (q1 & acts & -> & _ & _ & _ & H1 & H2).
    eexists. split; [done|]. by exists r.
Qed.
End procs.

(** ** Sessions *)

(** The request belongs to the session. *)
Definition belongs (s : nat) (q : QState) (a : nat) : Prop :=
  match mem_heap (q_req q) !! a with Some r => rq_session r = s | None => False end.
#[global] Instance belongs_dec s q a : Decision (belongs s q a).
Proof. unfold belongs. destruct (mem_heap (q_req q) !! a); apply _. Defined.

Lemma drop_requests_ok s l : forall q, mem_ok (q_req q) -> NoDup l -> (forall a, a ∈ l -> is_Some (mem_heap (q_req q) !! a)) ->
  exists q', drop_requests s l q = Ok q' /\ mem_ok (q_req q') /\ same_preserved q q' /\ q_ses q' = q_ses q /\ q_list q' = q_list q /\
    q_sent q' = q_sent q /\ q_queue q' = filter (fun b => ~ (b ∈ l /\ belongs s q b)) (q_queue q) /\
    (forall b, ~ (b ∈ l /\ belongs s q b) -> mem_heap (q_req q') !! b = mem_heap (q_req q) !! b /\
      (mem_alive (q_req q) b -> mem_alive (q_req q') b)) /\
    (forall b r, mem_heap (q_req q') !! b = Some r -> is_Some (rq_timer r) ->
      mem_heap (q_req q) !! b = Some r /\ ~ (b ∈ l /\ belongs s q b)).
Proof.
  induction l as [|a l IH]; intros q Hm Hnd Hl; cbn [drop_requests].
  - exists q. split_and!; try done; [|intros b r Hb _; split; [done|]; by intros [?%elem_of_nil _]]. clear. induction (q_queue q) as [|c l IH]; [done|].
    rewrite filter_cons_True by (intros [H%elem_of_nil _]; done). by f_equal.
  - apply NoDup_cons in Hnd as [Ha Hnd]. destruct (Hl a ltac:(by left)) as [r Hr]. rewrite (mem_read_Some _ _ _ Hr), run_bind_ok.
    assert (Hba : belongs s q a <-> rq_session r = s) by (unfold belongs; by rewrite Hr).
    case_bool_decide as Hs.
    + set (q1 := with_queue _ _).
      assert (Hold : forall b, b <> a -> mem_heap (q_req q1) !! b = mem_heap (q_req q) !! b).
      { intros b Hb. cbn. rewrite (proj1 (mem_free_other a b _ ltac:(congruence))). cbn. by rewrite lookup_alter_ne. }
      assert (Hbel : forall b, b ∈ l -> belongs s q1 b <-> belongs s q b).
      { intros b Hb. unfold belongs. rewrite Hold; [done|]. by intros ->. }
      destruct (IH q1) as (q' & E & M & [P1 P2] & E1 & E2 & E3 & E4 & H4 & H7); [by apply mem_free_ok, mem_update_ok|done| |].
      { intros b Hb. rewrite Hold by (by intros ->). apply Hl. by right. }
      exists q'. split_and!; try done.
      * split; [rewrite P1; cbn; by rewrite mem_free_preserved|by rewrite P2].
      * rewrite E4. cbn. rewrite list_filter_filter. apply list_filter_iff. intros b. rewrite elem_of_cons. split.
        -- intros [H1 H2] [[->|Hb] Hb2]; [done|]. apply H1. split; [done|]. by apply Hbel.
        -- intros H1. split; [|intros ->; tauto]. intros [Hb Hb2]. apply H1. split; [by right|]. by apply Hbel.
      * intros b Hb. assert (Hne : b <> a) by (intros ->; apply Hb; split; [by left|by apply Hba]).
        destruct (H4 b) as [H5 H6].
        { intros [Hb1 Hb2]. apply Hb. split; [by right|]. by apply Hbel. }
        split; [by rewrite H5, Hold|]. intros Hal. apply H6, mem_free_other; [congruence|]. by apply mem_update_alive.
      * intros b r' Hb Ht. destruct (H7 b r' Hb Ht) as [H8 H9]. assert (Hne : b <> a).
        { intros ->. cbn in H8. apply mem_free_sub in H8. cbn in H8. rewrite lookup_alter_eq, Hr in H8. injection H8 as <-. by destruct Ht. }
        rewrite Hold in H8 by done. split; [done|]. intros [[->|Hbl]%elem_of_cons Hbe]; [done|]. apply H9. split; [done|]. by apply Hbel.
    + destruct (IH q Hm Hnd) as (q' & E & M & P & E1 & E2 & E3 & E4 & H4 & H7); [intros b Hb; apply Hl; by right|].
      assert (Hiff : forall b, (b ∈ a :: l /\ belongs s q b) <-> (b ∈ l /\ belongs s q b)).
      { intros b. rewrite elem_of_cons. split; [|tauto]. intros [[->|?] ?]; [by destruct Hs; apply Hba|done]. }
      exists q'. split_and!; try done.
      * rewrite E4. apply list_filter_iff. intros b. by rewrite Hiff.
      * intros b Hb. apply H4. by rewrite <- Hiff.
      * intros b r'. rewrite Hiff. apply H7.
Qed.

Lemma qsum_filter (P : nat -> Prop) `{!forall b, Decision (P b)} f l : (forall b, b ∈ l -> ~ P b -> f b = 0) -> qsum f (filter P l) = qsum f l.
Proof.
  induction l as [|c l IH]; intros Hz; [done|]. rewrite filter_cons. cbn [qsum foldr]. fold (qsum f l).
  rewrite <- IH by (intros b Hb; apply Hz; by right). case_decide as Hc; [done|]. rewrite (Hz c); [done|by left|done].
Qed.

Lemma delete_session_ok s q : queue_inv q ->
  exists q', session_DeleteProc s q = Ok q' /\ queue_inv q' /\ same_preserved q q' /\
    q_list q' = filter (fun b => b <> s) (q_list q) /\
    q_queue q' = filter (fun b => ~ belongs s q b) (q_queue q) /\ q_sent q' = q_sent q.
Proof.
  intros Hq. unfold session_DeleteProc, TnmSnmpDeleteSession. cbn [q_queue with_slist].
  set (q1 := with_slist _ q). destruct (inv_alive q Hq) as [A1 A2].
  destruct (drop_requests_ok s (q_queue q) q1) as (q' & -> & M & [P1 P2] & E1 & E2 & E3 & E4 & H4 & H7).
  { apply Hq. } { apply Hq. } { intros a Ha. by apply (A1 a Ha). }
  rewrite run_bind_ok. eexists. split; [done|].
  assert (Hqueue : q_queue q' = filter (fun b => ~ belongs s q b) (q_queue q)).
  { rewrite E4. clear. change (belongs s q1) with (belongs s q). cbn [q1 with_slist q_queue].
    assert (Hgen : forall k l : list nat, (forall b, b ∈ l -> b ∈ k) ->
      filter (fun b => ~ (b ∈ k /\ belongs s q b)) l = filter (fun b => ~ belongs s q b) l).
    { intros k. induction l as [|c l IH]; intros Hl; [done|]. pose proof (Hl c ltac:(by left)). rewrite !filter_cons.
      rewrite IH by (intros b Hb; apply Hl; by right). by repeat case_decide; naive_solver. }
    by apply Hgen. }
  destruct Hq as [Q1 Q2 Q3 Q4 Q5 Q6 Q7].
  assert (Hin : forall b, b ∈ q_queue q' -> b ∈ q_queue q /\ ~ belongs s q b).
  { intros b. rewrite Hqueue, list_elem_of_filter. tauto. }
  split_and!; try done; [|split; [done|cbn; by rewrite mem_free_preserved, P2]].
  split; cbn [q_req with_ses q_ses q_queue q_list].
  - done.
  - rewrite E1. by apply mem_free_ok.
  - rewrite Hqueue. by apply NoDup_filter.
  - intros b [Hb Hnb]%Hin. destruct (Q4 b Hb) as [B1 B2]. destruct (H4 b) as [H5 H6]; [tauto|].
    split; [by apply H6|]. intros r. cbn [q_req q_list with_ses]. rewrite H5, E2. intros Hr. destruct (B2 r Hr) as (R1 & R2 & R3).
    split_and!; try done. cbn. rewrite list_elem_of_filter. split; [|done]. intros E. apply Hnb. unfold belongs. change (mem_heap (q_req q1)) with (mem_heap (q_req q)) in Hr. by rewrite Hr.
  - intros t. rewrite E2. cbn [q1 with_slist q_list]. intros [Ht Htl]%list_elem_of_filter. destruct (Q5 t Htl) as [T1 T2].
    rewrite E1. destruct (mem_free_other s t (q_ses q1)) as [F1 F2]; [congruence|]. split; [by apply F2|]. intros x. cbn [q_ses with_ses]. rewrite F1.
    intros Hx. destruct (T2 x Hx) as (? & ? & -> & ->). split_and!; [done|done| |]; cbn [q_queue with_ses]; rewrite Hqueue; symmetry;
      (etrans; [apply qsum_ext|apply qsum_filter]).
    all: try (intros b Hb%list_elem_of_filter; unfold sent_of, waits_of; cbn [q_req with_ses]; rewrite (proj1 (H4 b ltac:(tauto))); done).
    all: intros b Hb Hbel; apply dec_stable in Hbel; unfold belongs, sent_of, waits_of in *;
      destruct (mem_heap (q_req q) !! b) as [r|]; [|done]; rewrite decide_False; [done|]; intros [? _]; congruence.
  - eapply (in_order_filter (fun b => ~ belongs s q b)); [exact Q6|done|]. intros b Hb. apply H4. tauto.
  - intros b r Hb Ht. cbn in Hb. destruct (H7 b r Hb Ht) as [H8 H9]. rewrite Hqueue, list_elem_of_filter.
    pose proof (Q7 b r H8 Ht). tauto.
Qed.
