(* ===== verification/QueueTheorems.v ===== *)
(** What the request queue promises: safety, windows and order, the life of a
    request, and the way of a response to the procedure that waits for it. *)

From stdpp Require Import gmap.
From S2P Require Import Prelude Mem Ber CStr Util UtilTheorems Snmp SnmpEnc SnmpSpec SnmpDec SnmpRound SnmpTheorems Queue QueueInv.
Local Open Scope Z_scope.

(** ** Queueing a request *)

Lemma queue_request_some timeout session a r q :
  (forall q a r x, mem_heap (q_req q) !! a = Some r -> mem_heap (q_ses q) !! rq_session r = Some x ->
     rq_sends r = 0 -> 0 <= qs_retries x -> timeout a q = Ok (retransmit a r x q)) ->
  queue_inv q -> a ∉ q_queue q -> mem_alive (q_req q) a -> mem_heap (q_req q) !! a = Some r ->
  rq_sends r = 0 -> rq_timer r = None -> session ∈ q_list q ->
  exists n q' acts, queue_request timeout session (Some a) q = Ok (n, q') /\ queue_inv q' /\
    send_steps session (enqueue session a q) acts q' /\ settled session q' /\ sublist acts (q_queue q ++ [a]).
Proof.
  intros Hto Hq Ha Hal Hr H0 Ht Hs. unfold queue_request. rewrite (count_queue_ok q Hq) by done. rewrite !run_bind_ok.
  destruct (qi_sessions q Hq session Hs) as [[[x Hx] _] _].
  rewrite (mem_read_Some _ _ _ Hr), run_bind_ok, (mem_read_Some _ _ _ Hx), !run_bind_ok. fold (enqueue session a q).
  pose proof (enqueue_inv session a q r Hq Ha Hal Hr H0 Ht Hs) as He.
  destruct (enqueue_sums session a q r Ha Hr H0) as (_ & _ & S3 & S4).
  destruct (activate_ok timeout Hto session (S (length (q_queue (enqueue session a q)))) (q_queue (enqueue session a q)) []
    (enqueue session a q) He eq_refl ltac:(lia) Hs) as (q' & acts & E & Hq' & Hst & Hset & Hsub).
  { intros b r' Hb. by apply elem_of_nil in Hb. }
  rewrite !Z.add_0_l. fold (total_active q) (total_waiting q). rewrite <- S3, <- S4, E, run_bind_ok.
  destruct (send_steps_frame _ _ _ _ Hst) as (_ & El & _). assert (Hs' : session ∈ q_list q') by (by rewrite El).
  destruct (qi_sessions q' Hq' session Hs') as [[[y Hy] _] _]. rewrite (mem_read_Some _ _ _ Hy), run_bind_ok.
  by eexists _, q', acts.
Qed.

Section procs.
Variable request_proc : cstring -> nat -> Z -> Z -> QState -> QState.

Lemma encode_async_ok fuel session id packet proc q : queue_inv q -> session ∈ q_list q ->
  exists q' acts, encode_async request_proc (S fuel) session id packet proc q = Ok q' /\ queue_inv q' /\ same_preserved q q' /\
    let '(a, q0) := TnmSnmpCreateRequest id packet (Some proc) q in
    send_steps session (enqueue session a q0) acts q' /\ settled session q' /\ sublist acts (q_queue q ++ [a]).
Proof.
  intros Hq Hs. unfold encode_async. pose proof (inv_create id packet (Some proc) q Hq) as Hc.
  destruct (TnmSnmpCreateRequest id packet (Some proc) q) as [a q0]. destruct Hc as (H0 & Ha & Hal & Hr & Eq & El & P0).
  destruct (queue_request_some _ session a (new_request id packet (Some proc)) q0 (timeout_first request_proc fuel) H0) as (n & q' & acts & E & Hq' & Hst & Hset & Hsub);
    try done; [by rewrite Eq|by rewrite El|].
  exists q', acts. unfold TnmSnmpQueueRequest. rewrite E, run_bind_ok. rewrite Eq in Hsub. split; [done|]. split; [done|]. split; [|done].
  destruct (send_steps_frame _ _ _ _ Hst) as (_ & _ & [P1 P2] & _). destruct P0 as [P3 P4].
  split; [by rewrite P1|by rewrite P2].
Qed.
End procs.

Lemma inv_create_session user q : queue_inv q -> queue_inv (TnmSnmpCreateSession user q).2.
Proof.
  intros Hq. unfold TnmSnmpCreateSession. cbn [snd]. set (s := mem_fresh (q_ses q)).
  destruct (inv_alive q Hq) as [A1 A2].
  assert (Hs : forall t, t ∈ q_list q -> s <> t).
  { intros t Ht <-. destruct (A2 s Ht) as [[x Hx] _]. unfold s in Hx. by rewrite mem_fresh_None in Hx. }
  assert (Hz : forall f, (forall a r, mem_heap (q_req q) !! a = Some r -> rq_session r <> s -> f a = 0) -> qsum f (q_queue q) = 0).
  { intros f Hf. rewrite (qsum_ext (fun _ => 0)); [clear; induction (q_queue q) as [|c l IH]; [done|exact IH]|].
    intros b Hb. destruct (request_of q b Hq Hb) as (r & x & Hr & _ & Hl & _). apply (Hf b r Hr). intros E. by apply (Hs _ Hl). }
  pose proof Hq as [Q1 Q2 Q3 Q4 Q5 Q6 Q7]. split; try done; cbn [q_ses with_slist with_ses].
  - by apply mem_alloc_ok.
  - intros a Ha. destruct (Q4 a Ha) as [H1 H2]. split; [done|]. intros r Hr. destruct (H2 r Hr) as (? & ? & ?).
    split_and!; try done. cbn. by right.
  - intros t [->|Ht]%elem_of_cons.
    + split; [by apply mem_fresh_alive|]. intros x. cbn. rewrite lookup_insert_eq. intros [= <-]. cbn. split_and!; [done|done| |];
        symmetry; apply Hz; intros a r Hr Hne; unfold sent_of, waits_of; cbn [q_req with_slist with_ses]; rewrite Hr, decide_False by tauto; done.
    + destruct (Q5 t Ht) as [[T1 T2] T3]. pose proof (Hs t Ht). split; [split; [cbn; by rewrite lookup_insert_ne|done]|].
      intros x. cbn. rewrite lookup_insert_ne by done. apply T3.
Qed.

Lemma inv_set_option num o s q : queue_inv q -> queue_inv (set_queue_option num o s q).2.
Proof.
  intros Hq. unfold set_queue_option.
  assert (Hset : forall f, (forall x, 0 <= qs_retries x -> 0 <= qs_window x -> 0 <= qs_retries (f x) /\ 0 <= qs_window (f x) /\
    qs_active (f x) = qs_active x /\ qs_waiting (f x) = qs_waiting x) -> queue_inv (update_ses f s q)).
  { intros f Hf. destruct Hq as [Q1 Q2 Q3 Q4 Q5 Q6 Q7]. split; try done; [by apply mem_update_ok|].
    intros t Ht. destruct (Q5 t Ht) as [T1 T2]. split; [by apply mem_update_alive|]. intros x. cbn.
    destruct (decide (s = t)) as [->|Hne]; [|rewrite lookup_alter_ne by done; apply T2].
    rewrite lookup_alter_eq. intros (y & Hy & ->)%fmap_Some. destruct (T2 y Hy) as (H1 & H2 & H3 & H4).
    destruct (Hf y H1 H2) as (? & ? & -> & ->). done. }
  destruct o; destruct num as [v|]; cbn; try done; case_bool_decide; cbn; try done; apply Hset; intros x ? ?; cbn; split_and!; (done || lia).
Qed.

(** ** What sending amounts to *)

(** The request as it is sent for the first time. *)
Definition first_sent (q : QState) (a : nat) : option (nat * list Z) :=
  (fun r => (rq_session r, rq_packet r)) <$> mem_heap (q_req q) !! a.

(** The state after the requests [acts] were sent, within the windows. *)
Record sent_first (session : nat) (q : QState) (acts : list nat) (q' : QState) : Prop := {
  sf_sent : (Some <$> q_sent q') = (Some <$> q_sent q) ++ (first_sent q <$> acts);
  sf_waited : forall a, a ∈ acts -> a ∈ q_queue q /\ exists r, mem_heap (q_req q) !! a = Some r /\ rq_sends r = 0;
  sf_once : forall a r, a ∈ acts -> mem_heap (q_req q') !! a = Some r -> rq_sends r = 1;
  sf_others : forall a, a ∉ acts -> mem_heap (q_req q') !! a = mem_heap (q_req q) !! a;
  sf_window : forall s x x', mem_heap (q_ses q) !! s = Some x -> mem_heap (q_ses q') !! s = Some x' ->
    qs_window x' = qs_window x /\ (qs_window x <> 0 -> qs_active x' <= Z.max (qs_active x) (qs_window x));
  sf_total : forall y, mem_heap (q_ses q) !! session = Some y ->
    qs_window y <> 0 -> total_active q' <= Z.max (total_active q) (qs_window y)
}.

Lemma send_step_sent session q a q1 acts q2 : queue_inv q -> send_step session q a q1 ->
  sent_first session q1 acts q2 -> sent_first session q (a :: acts) q2.
Proof.
  intros Hq [a' r x y Ha Hr H0 Hx Hw Hy Ht Hord] [S1 S2 S3 S4 S5 S6].
  pose proof (fire_req a' r x q) as Fr. pose proof (fun b => Fr b Hr) as Fr'.
  destruct (fire_sums a' r x q (qi_nodup q Hq) Ha Hr H0) as (_ & _ & T1 & _).
  assert (Hnew : a' ∉ acts).
  { intros (_ & r' & Hr' & Hz)%S2. rewrite Fr', decide_True in Hr' by done. injection Hr' as <-. cbn in Hz. lia. }
  split.
  - rewrite S1. cbn [fire update_ses with_ses q_sent retransmit update_req with_req with_sent]. rewrite fmap_app, <- app_assoc. f_equal.
    cbn. unfold first_sent at 2. rewrite Hr. cbn. f_equal. apply list_fmap_ext. intros i b Hb%list_elem_of_lookup_2.
    unfold first_sent. rewrite Fr', decide_False; [done|]. by intros ->.
  - intros b [->|Hb]%elem_of_cons; [split; [done|by exists r]|]. destruct (S2 b Hb) as (Hbq & r' & Hr' & Hz). split; [done|].
    rewrite Fr', decide_False in Hr' by (by intros ->). by exists r'.
  - intros b r' [->|Hb]%elem_of_cons Hr'; [|by apply (S3 b)]. rewrite S4, Fr', decide_True in Hr' by done.
    injection Hr' as <-. cbn. lia.
  - intros b [Hne Hb]%not_elem_of_cons. rewrite S4, Fr' by done. by rewrite decide_False.
  - intros s z z' Hz Hz'. pose proof (fire_ses a' r x q s Hx) as Fs. case_decide as Hs.
    + subst s. assert (z = x) as -> by congruence. destruct (S5 _ _ _ Fs Hz') as [E1 E2]. cbn in E1, E2. split; [done|].
      intros Hnz. specialize (E2 Hnz). lia.
    + rewrite Hz in Fs. by apply (S5 s).
  - intros z Hz Hnz. assert (z = y) as -> by congruence. pose proof (fire_ses a' r x q session Hx) as Fs. case_decide as Hs.
    + subst session. assert (y = x) as -> by congruence. specialize (S6 _ Fs Hnz). rewrite T1 in S6.
      change (qs_window (add_counts 1 (-1) x)) with (qs_window x) in S6. lia.
    + rewrite Hy in Fs. specialize (S6 _ Fs Hnz). rewrite T1 in S6. lia.
Qed.

Lemma send_steps_sent session q acts q' : queue_inv q -> send_steps session q acts q' -> sent_first session q acts q'.
Proof.
  intros Hq H. induction H as [q|q a q1 l q2 H _ IH].
  - split; cbn; try done.
    + by rewrite app_nil_r.
    + intros a Ha. by apply elem_of_nil in Ha.
    + intros a r Ha. by apply elem_of_nil in Ha.
    + intros s x x' Hx Hx'. assert (x' = x) as -> by congruence. split; [done|lia].
    + lia.
  - eapply send_step_sent; [done|exact H|]. apply IH. by eapply send_step_inv.
Qed.

(** ** Finding requests *)

Lemma find_request_ok id q : queue_inv q -> forall l, (forall a, a ∈ l -> a ∈ q_queue q) ->
  exists o, find_request id l q = Ok o /\
    match o with
    | Some a => a ∈ l /\ exists r, mem_heap (q_req q) !! a = Some r /\ rq_id r = id
    | None => forall a r, a ∈ l -> mem_heap (q_req q) !! a = Some r -> rq_id r <> id
    end.
Proof.
  intros Hq. induction l as [|a l IH]; intros Hl; cbn [find_request].
  - exists None. split; [done|]. intros a r Ha. by apply elem_of_nil in Ha.
  - destruct (request_of q a Hq) as (r & x & Hr & _); [apply Hl; by left|]. rewrite (mem_read_Some _ _ _ Hr), run_bind_ok.
    case_bool_decide as Hid.
    + exists (Some a). split; [done|]. split; [by left|by exists r].
    + destruct IH as (o & -> & Ho); [intros b Hb; apply Hl; by right|]. exists o. split; [done|]. destruct o as [b|].
      * destruct Ho as [? ?]. split; [by right|done].
      * intros b r' [->|Hb]%elem_of_cons Hr'; [congruence|by apply (Ho b)].
Qed.

Lemma find_unique id q a r : queue_inv q -> a ∈ q_queue q -> mem_heap (q_req q) !! a = Some r -> rq_id r = id ->
  (forall b r', b ∈ q_queue q -> mem_heap (q_req q) !! b = Some r' -> rq_id r' = id -> b = a) ->
  TnmSnmpFindRequest id q = Ok (Some a).
Proof.
  intros Hq Ha Hr Hid Hu. destruct (find_request_ok id q Hq (q_queue q) ltac:(done)) as (o & E & Ho). unfold TnmSnmpFindRequest. rewrite E.
  destruct o as [b|]; [|by destruct (Ho a r Ha Hr)]. destruct Ho as (Hb & r' & Hr' & Hid'). by rewrite (Hu b r').
Qed.

(** [TnmSnmpGetRequestId] returns an identifier that is not in use, once [rand]
    gives one. *)
Lemma request_id_fresh rand q : queue_inv q -> forall fuel n,
  match TnmSnmpGetRequestId fuel rand n q with
  | Ok (id, n') => (exists k, (k < fuel)%nat /\ id = rand (n + k)%nat /\ n' = S (n + k)) /\ TnmSnmpFindRequest id q = Ok None
  | NoFuel => forall k, (k < fuel)%nat -> exists a r, a ∈ q_queue q /\ mem_heap (q_req q) !! a = Some r /\ rq_id r = rand (n + k)%nat
  | UseAfterFree => False
  end.
Proof.
  intros Hq. induction fuel as [|fuel IH]; intros n; cbn [TnmSnmpGetRequestId]; [lia|].
  destruct (find_request_ok (rand n) q Hq (q_queue q) ltac:(done)) as (o & E & Ho). unfold TnmSnmpFindRequest in *. rewrite E, run_bind_ok.
  destruct o as [a|].
  - destruct Ho as (Ha & r & Hr & Hid). specialize (IH (S n)). destruct (TnmSnmpGetRequestId fuel rand (S n) q) as [[id n']| |]; [| |].
    + destruct IH as [(k & Hk & -> & ->) Hf]. split; [|done]. exists (S k). split; [lia|]. split; [f_equal; lia|lia].
    + done.
    + intros [|k] Hk; [exists a, r; by rewrite Nat.add_0_r|]. destruct (IH k ltac:(lia)) as (b & r' & ? & ? & ?).
      exists b, r'. split_and!; try done. rewrite H1. f_equal. lia.
  - split; [|done]. exists 0%nat. rewrite Nat.add_0_r. split_and!; [lia|done|done].
Qed.

(** A value that occurs less often than there are requests is found in time. *)
Lemma request_id_terminates rand n q : queue_inv q ->
  (forall i j, (i <= length (q_queue q))%nat -> (j <= length (q_queue q))%nat -> rand (n + i)%nat = rand (n + j)%nat -> i = j) ->
  exists r, TnmSnmpGetRequestId (S (length (q_queue q))) rand n q = Ok r.
Proof.
  intros Hq Hinj. pose proof (request_id_fresh rand q Hq (S (length (q_queue q))) n) as H.
  destruct (TnmSnmpGetRequestId _ _ _ _) as [r| |]; [by exists r|done|]. exfalso.
  set (ids := omap (fun a => rq_id <$> mem_heap (q_req q) !! a) (q_queue q)).
  set (tries := (fun k => rand (n + k)%nat) <$> seq 0 (S (length (q_queue q)))).
  assert (Hnd : NoDup tries).
  { apply NoDup_fmap_2_strong; [|apply NoDup_seq]. intros i j Hi%elem_of_seq Hj%elem_of_seq. apply Hinj; lia. }
  assert (Hsub : tries ⊆ ids).
  { intros x (k & -> & Hk%elem_of_seq)%list_elem_of_fmap. destruct (H k ltac:(lia)) as (a & r & Ha & Hr & Hid).
    apply list_elem_of_omap. exists a. split; [done|]. rewrite Hr. cbn. by rewrite Hid. }
  pose proof (submseteq_length _ _ (NoDup_submseteq _ _ Hnd Hsub)) as Hlen.
  assert (length ids <= length (q_queue q))%nat as Hl2.
  { unfold ids. clear. induction (q_queue q) as [|c l IH]; [done|]. cbn. destruct (rq_id <$> _); cbn; lia. }
  unfold tries in Hlen. rewrite length_fmap, length_seq in Hlen. lia.
Qed.

(** ** Results *)

Section results.
Variable request_proc : cstring -> nat -> Z -> Z -> QState -> QState.

Section responses.
Variable recv_binding : nat -> TnmSnmpPdu -> QState -> QState.

(** The binding for received packets has released the request or its session. *)
Definition binding_frees (pdu : TnmSnmpPdu) (q : QState) : Prop :=
  exists a r, a ∈ q_queue q /\ mem_heap (q_req q) !! a = Some r /\ rq_id r = pdu_requestId pdu /\
    let q' := recv_binding (rq_session r) pdu q in
    mem_heap (q_req q') !! a = None \/ mem_heap (q_ses q') !! rq_session r = None.

Lemma response_ok fuel msg pdu q : procs_ok request_proc -> (forall s pdu, callback_ok (recv_binding s pdu)) -> queue_inv q ->
  match decode_response request_proc recv_binding (S fuel) msg pdu q with
  | Ok (Some (_, q')) => queue_inv q' /\ same_preserved q q'
  | Ok None => TnmSnmpFindRequest (pdu_requestId pdu) q = Ok None
  | UseAfterFree => binding_frees pdu q
  | NoFuel => False
  end.
Proof.
  intros Hp Hb Hq. unfold decode_response.
  destruct (find_request_ok (pdu_requestId pdu) q Hq (q_queue q) ltac:(done)) as (o & E & Ho).
  unfold TnmSnmpFindRequest. rewrite E, run_bind_ok. destruct o as [a|]; [|done]. destruct Ho as (Ha & r & Hr & Hid).
  rewrite (mem_read_Some _ _ _ Hr), run_bind_ok. destruct (request_of q a Hq Ha) as (r' & x & Hr' & Hx & _).
  assert (r' = r) as -> by congruence. rewrite (mem_read_Some _ _ _ Hx), run_bind_ok.
  destruct (Authentic _ _ _); [|done]. destruct (Hb (rq_session r) pdu q Hq) as [Hq1 [P1 P2]]. cbv zeta.
  set (q1 := recv_binding (rq_session r) pdu q) in *.
  destruct (mem_heap (q_req q1) !! a) as [r1|] eqn:Hr1;
    [rewrite (mem_read_Some _ _ _ Hr1), run_bind_ok|rewrite (mem_read_None _ _ Hr1); exists a, r; by split_and!; try done; left].
  destruct (mem_heap (q_ses q1) !! rq_session r) as [x1|] eqn:Hx1;
    [rewrite (mem_read_Some _ _ _ Hx1), run_bind_ok|rewrite (mem_read_None _ _ Hx1); exists a, r; by split_and!; try done; right].
  fold (preserve_both a (rq_session r) q1).
  destruct (decide (a ∈ q_queue q1)) as [Hin|Hout].
  - destruct (finish_ok request_proc fuel a (rq_session r) (pdu_requestId pdu) (pdu_errorStatus pdu) q1 r1 Hp Hq1 Hin Hr1
      ltac:(by eexists)) as (q2 & acts & F & _ & _ & _ & Hq3 & [P3 P4]).
    unfold finish in F. apply run_bind_inv in F as (q4 & E4 & F). apply run_bind_inv in F as (r4 & E5 & F). apply run_ok_inj in F.
    rewrite E4, run_bind_ok, E5, run_bind_ok.
    match goal with |- queue_inv ?s /\ _ => change s with (release_both a (rq_session r)
      match rq_proc r4 with Some proc => request_proc proc (rq_session r) (pdu_requestId pdu) (pdu_errorStatus pdu) q4 | None => q4 end) end.
    rewrite F. split; [done|]. split; congruence.
  - unfold TnmSnmpDeleteRequest, delete_request. rewrite bool_decide_eq_true_2 by done. rewrite run_bind_ok.
    assert (Hpr : queue_inv (preserve_both a (rq_session r) q1)) by (apply queue_preserve_inv; [done|by eexists|by eexists]).
    rewrite (mem_read_Some (q_req (preserve_both a (rq_session r) q1)) a r1 Hr1), run_bind_ok.
    set (q2 := match rq_proc r1 with Some proc => _ | None => _ end).
    assert (Hq2 : queue_inv q2 /\ same_preserved (preserve_both a (rq_session r) q1) q2)
      by (unfold q2; destruct (rq_proc r1); [by apply Hp|done]).
    destruct Hq2 as [Hq2 [P3 P4]]. change (with_req _ _) with (release_both a (rq_session r) q2).
    split; [by apply queue_release_inv|]. split; cbn [release_both with_req with_ses q_req q_ses].
    + rewrite <- P1. apply mem_release_preserve; [apply Hq1|exact P3].
    + rewrite <- P2. apply mem_release_preserve; [apply Hq1|exact P4].
Qed.

End responses.

(** C24: the windows are respected and nothing waits without a reason.  Sending an
    asynchronous request appends it to the queue and sends some of the waiting
    requests for the first time, in the order of the queue; no session with a
    window gets more active requests than its window, and all sessions together no
    more than the window of the session the request belongs to (unless there were
    more already).  After that, every request that still waits belongs to a session
    whose window is full, or all sessions together fill the window of this session. *)
Theorem queue_windows session id packet proc q : queue_inv q -> session ∈ q_list q ->
  let a := mem_fresh (q_req q) in
  let q0 := enqueue session a (TnmSnmpCreateRequest id packet (Some proc) q).2 in
  exists q' acts, encode_async request_proc 1 session id packet proc q = Ok q' /\
    q_queue q' = q_queue q ++ [a] /\ sublist acts (q_queue q') /\ sent_first session q0 acts q' /\ settled session q'.
Proof.
  intros Hq Hs a q0. destruct (encode_async_ok request_proc 0 session id packet proc q Hq Hs) as (q' & acts & E & Hq' & _ & H).
  pose proof (inv_create id packet (Some proc) q Hq) as Hc. unfold TnmSnmpCreateRequest in *. cbn [snd] in q0. fold a in H, Hc.
  destruct H as (Hst & Hset & Hsub). destruct Hc as (H0 & Ha & Hal & Hr & _ & El & _).
  destruct (send_steps_frame _ _ _ _ Hst) as (Eq & _). exists q', acts. split; [done|]. split; [done|]. split; [by rewrite Eq|].
  split; [|done]. apply send_steps_sent; [|done]. by eapply enqueue_inv.
Qed.

(** [n] expirations of the timer of a request. *)
Fixpoint expire (n a : nat) (q : QState) : run_result QState :=
  match n with
  | O => Ok q
  | S n => q ← TnmSnmpTimeoutProc request_proc 2 a q; expire n a q
  end.

Lemma expire_ok n a : forall q r x, queue_inv q -> a ∈ q_queue q -> mem_heap (q_req q) !! a = Some r ->
  mem_heap (q_ses q) !! rq_session r = Some x -> 1 <= rq_sends r -> Z.of_nat n + rq_sends r <= 1 + qs_retries x ->
  exists q' t, expire n a q = Ok q' /\ queue_inv q' /\ q_queue q' = q_queue q /\ q_ses q' = q_ses q /\
    mem_heap (q_req q') !! a = Some (set_sends (rq_sends r + Z.of_nat n) t r) /\
    q_sent q' = q_sent q ++ replicate n (rq_session r, rq_packet r).
Proof.
  induction n as [|n IH]; intros q r x Hq Ha Hr Hx H1 Hn; cbn [expire].
  - exists q, (rq_timer r). rewrite app_nil_r, Z.add_0_r. by destruct r.
  - cbn [TnmSnmpTimeoutProc]. rewrite (mem_read_Some _ _ _ Hr), run_bind_ok, (mem_read_Some _ _ _ Hx), run_bind_ok.
    rewrite bool_decide_eq_true_2 by lia. rewrite run_bind_ok.
    assert (Hr' : mem_heap (q_req (retransmit a r x q)) !! a
      = Some (set_sends (rq_sends r + 1) (Some (Z.quot (qs_timeout x * 1000) (qs_retries x + 1))) r))
      by (cbn; by rewrite lookup_alter_eq, Hr).
    destruct (IH (retransmit a r x q) _ x (inv_retransmit a r x q Hq Ha Hr ltac:(lia)) Ha Hr') as (q' & t & -> & Hq' & Eq & Es & Hr2 & Esent);
      [done|cbn; lia|cbn; lia|].
    exists q', t. split_and!; try done.
    + rewrite Hr2. cbn. f_equal. unfold set_sends. cbn. f_equal. lia.
    + rewrite Esent. cbn. by rewrite <- app_assoc.
Qed.

(** C7: a request that gets no response is sent once more for every retry and then
    given up: as long as it was sent at most [retries] times, each expiration of its
    timer sends the packet again, the next one takes it out of the queue and calls
    its procedure, once, with the status noResponse, after other requests of the
    queue were sent in its place. *)
Theorem request_lifetime a q r x : procs_ok request_proc -> queue_inv q -> a ∈ q_queue q -> mem_heap (q_req q) !! a = Some r ->
  mem_heap (q_ses q) !! rq_session r = Some x -> 1 <= rq_sends r -> rq_sends r <= 1 + qs_retries x ->
  let n := Z.to_nat (1 + qs_retries x - rq_sends r) in
  exists q1 q2 q3, expire n a q = Ok q1 /\ queue_inv q1 /\
    q_sent q1 = q_sent q ++ replicate n (rq_session r, rq_packet r) /\ a ∈ q_queue q1 /\
    TnmSnmpTimeoutProc request_proc 2 a q1 = Ok q3 /\ queue_inv q3 /\
    (a ∉ q_queue q2) /\ settled (rq_session r) q2 /\
    q3 = release_both a (rq_session r)
           match rq_proc r with
           | Some proc => request_proc proc (rq_session r) (rq_id r) TNM_SNMP_NORESPONSE q2
           | None => q2
           end.
Proof.
  intros Hp Hq Ha Hr Hx H1 H2 n.
  destruct (expire_ok n a q r x Hq Ha Hr Hx H1) as (q1 & t & E & Hq1 & Eq & Es & Hr1 & Esent); [unfold n; lia|].
  set (r1 := set_sends (rq_sends r + Z.of_nat n) t r) in *.
  assert (Ha1 : a ∈ q_queue q1) by (by rewrite Eq). assert (Hx1 : mem_heap (q_ses q1) !! rq_session r1 = Some x) by (by rewrite Es).
  destruct (finish_ok request_proc 0 a (rq_session r1) (rq_id r1) TNM_SNMP_NORESPONSE q1 r1 Hp Hq1 Ha1 Hr1 ltac:(by eexists))
    as (q2 & acts & F & Hq2 & Hst & Hset & Hq3 & _).
  exists q1, q2. eexists. split_and!; [done|done|done|done| |exact Hq3| |exact Hset|done].
  - change (TnmSnmpTimeoutProc request_proc 2 a q1) with
      (r ← mem_read (q_req q1) a; s ← mem_read (q_ses q1) (rq_session r);
       if bool_decide (rq_sends r < 1 + qs_retries s) then Ok (retransmit a r s q1)
       else finish request_proc 1 a (rq_session r) (rq_id r) TNM_SNMP_NORESPONSE q1).
    rewrite (mem_read_Some _ _ _ Hr1), run_bind_ok, (mem_read_Some _ _ _ Hx1), run_bind_ok.
    rewrite bool_decide_eq_false_2 by (cbn; unfold n; lia). exact F.
  - destruct (send_steps_frame _ _ _ _ Hst) as (-> & _). cbn. rewrite list_elem_of_filter. tauto.
Qed.
End results.

(** ** From the network to the procedure of a request *)

Section dispatch.
Context `{!SnmpEnv}.
Variable request_proc : cstring -> nat -> Z -> Z -> QState -> QState.

(** C8: a response finds its request.  Let a request wait in the queue under an
    identifier of its own.  A packet with a response to it, written by an agent with
    the community of the session, is decoded, found to be authentic, and leads to
    exactly one call of the procedure of the request, with the error status of the
    response, after the request was taken out of the queue; a message with this
    identifier that is not authentic changes nothing. *)
Theorem response_dispatch a r x resp vbs q : procs_ok request_proc -> queue_inv q ->
  a ∈ q_queue q -> mem_heap (q_req q) !! a = Some r -> mem_heap (q_ses q) !! rq_session r = Some x ->
  (forall b r', b ∈ q_queue q -> mem_heap (q_req q) !! b = Some r' -> rq_id r' = rq_id r -> b = a) ->
  community_session (qs_snmp x) -> pdu_encodes (qs_snmp x) resp vbs -> status_ok (pdu_errorStatus resp) ->
  Forall varbind_fits vbs -> pdu_requestId resp = rq_id r ->
  let packet := community_message (qs_snmp x) resp vbs in
  let receive := decode_response request_proc (fun _ _ q => q) 1 in
  Z.of_nat (length packet) < 65536 ->
  (forall msg recv stats, exists msg' recv' stats' q2 q3,
     DecodeMessage TNM_OID_MAX_SIZE msg recv stats (TnmBerCreate packet (Z.of_nat (length packet))) = (DecOk msg' recv', stats') /\
     receive msg' recv' q = Ok (Some (DEC_OK, q3)) /\ queue_inv q3 /\ (a ∉ q_queue q2) /\
     q3 = release_both a (rq_session r)
            match rq_proc r with
            | Some proc => request_proc proc (rq_session r) (rq_id r) (pdu_errorStatus resp) q2
            | None => q2
            end) /\
  (forall msg pdu, pdu_requestId pdu = rq_id r -> Authentic (qs_snmp x) msg pdu = false ->
     receive msg pdu q = Ok (Some (DEC_CONTINUE, q))).
Proof.
  intros Hp Hq Ha Hr Hx Hu Hs Henc Hst Hf Hid packet receive Hlen.
  assert (Hfind : TnmSnmpFindRequest (rq_id r) q = Ok (Some a)) by (by eapply find_unique).
  split.
  - intros msg recv stats.
    destruct (DecodeMessage_community TNM_OID_MAX_SIZE ltac:(lia) msg recv (qs_snmp x) resp vbs stats Hs Henc Hst Hf Hlen) as [stats' E].
    destruct (finish_ok request_proc 0 a (rq_session r) (rq_id r) (pdu_errorStatus resp) q r Hp Hq Ha Hr ltac:(by eexists))
      as (q2 & acts & F & Hq2 & Hsteps & _ & Hq3 & _).
    eexists _, _, stats', q2, _. split; [exact E|]. split_and!; [|exact Hq3| |done].
    + unfold receive, decode_response. cbn [pdu_requestId set_context decoded_pdu pdu_fields].
      rewrite Hid, Hfind, run_bind_ok, (mem_read_Some _ _ _ Hr), run_bind_ok, (mem_read_Some _ _ _ Hx), run_bind_ok.
      fold (received_message (qs_snmp x) msg). rewrite authentic_community by apply Hs. cbv beta iota zeta.
      rewrite !run_bind_ok.
      unfold finish in F. apply run_bind_inv in F as (q4 & E4 & F). apply run_bind_inv in F as (r4 & E5 & F). apply run_ok_inj in F.
      change (with_ses (mem_preserve _ _) _) with (preserve_both a (rq_session r) q). rewrite E4, run_bind_ok, E5, run_bind_ok.
      do 3 f_equal. exact F.
    + destruct (send_steps_frame _ _ _ _ Hsteps) as (-> & _). cbn. rewrite list_elem_of_filter. tauto.
  - intros msg pdu Hpid Hauth. unfold receive, decode_response.
    rewrite Hpid, Hfind, run_bind_ok, (mem_read_Some _ _ _ Hr), run_bind_ok, (mem_read_Some _ _ _ Hx), run_bind_ok. by rewrite Hauth.
Qed.
End dispatch.

(** ** Examples *)

Definition q_empty : QState := mkQ mem_empty [] mem_empty [] [].

Lemma q_empty_inv : queue_inv q_empty.
Proof.
  split; cbn; try apply mem_empty_ok; try (by intros a Ha%elem_of_nil).
  - constructor.
  - intros l1 a l2 b l3 r r' E. by destruct l1.
  - intros a r Hr. by rewrite lookup_empty in Hr.
Qed.

(** The procedure [bye] deletes the session of the request. *)
Definition demo_proc (proc : cstring) (s : nat) (id status : Z) (q : QState) : QState :=
  if bool_decide (proc = cstr "bye") then match session_DeleteProc s q with Ok q => q | _ => q end else q.

Lemma demo_procs_ok : procs_ok demo_proc.
Proof.
  intros proc s id status q Hq. unfold demo_proc. case_bool_decide; [|done].
  destruct (delete_session_ok s q Hq) as (q' & -> & ? & ? & _). done.
Qed.

Definition run_or (q : QState) (r : run_result QState) : QState := match r with Ok q => q | _ => q end.

(** Two sessions with windows of one and two; the first one sends two requests,
    the second one one. *)
Definition demo_sessions : QState :=
  (set_queue_option (Some 2) optWindow 1 (set_queue_option (Some 1) optWindow 0
    (TnmSnmpCreateSession None (TnmSnmpCreateSession None q_empty).2).2).2).2.
Definition demo_send (s : nat) (id : Z) (proc : cstring) (q : QState) : QState :=
  if decide (s ∈ q_list q) then run_or q (encode_async demo_proc 1 s id [48; 0] proc q) else q.
Definition demo_queue : QState := demo_send 1 13 (cstr "ok") (demo_send 0 12 (cstr "bye") (demo_send 0 11 (cstr "bye") demo_sessions)).

Lemma demo_send_inv s id proc q : queue_inv q -> queue_inv (demo_send s id proc q).
Proof.
  intros Hq. unfold demo_send. case_decide as Hs; [|done].
  destruct (encode_async_ok demo_proc 0 s id [48; 0] proc q Hq Hs) as (q' & acts & -> & Hq' & _). done.
Qed.

Lemma demo_sessions_inv : queue_inv demo_sessions.
Proof. apply inv_set_option, inv_set_option, inv_create_session, inv_create_session, q_empty_inv. Qed.

Lemma demo_queue_inv : queue_inv demo_queue.
Proof. apply demo_send_inv, demo_send_inv, demo_send_inv, demo_sessions_inv. Qed.

(** The first session has one request active and one waiting; the total window of
    the second one leaves room for its request. *)
Example demo_queue_state :
  (q_queue demo_queue, (fun p => p.1) <$> q_sent demo_queue,
   (fun s => (fun x => (qs_active x, qs_waiting x)) <$> mem_heap (q_ses demo_queue) !! s) <$> [0; 1]%nat)
  = ([0; 1; 2]%nat, [0; 1]%nat, [Some (1, 1); Some (1, 0)]).
Proof. vm_compute. reflexivity. Qed.


Lemma queue_windows_witness :
  queue_inv demo_sessions /\ exists q' acts, encode_async demo_proc 1 0 11 [48; 0] (cstr "ok") demo_sessions = Ok q' /\
    sublist acts (q_queue q') /\ settled 0 q'.
Proof.
  split; [exact demo_sessions_inv|].
  destruct (queue_windows demo_proc 0 11 [48; 0] (cstr "ok") demo_sessions demo_sessions_inv ltac:(by vm_compute; right; left))
    as (q' & acts & H1 & _ & H2 & _ & H3).
  exists q', acts. exact (conj H1 (conj H2 H3)).
Defined.

Definition demo_request : TnmSnmpRequest := mkRequest 11 1 [48; 0] (Some 1250) 0 (Some (cstr "bye")).
Definition demo_session : QSession :=
  mkQSession (qs_snmp (new_session None)) TNM_SNMP_RETRIES TNM_SNMP_TIMEOUT 1 1 1.

Lemma request_lifetime_witness :
  queue_inv demo_queue /\ exists q1 q3, expire demo_proc 3 0 demo_queue = Ok q1 /\
    q_sent q1 = q_sent demo_queue ++ [(0%nat, [48; 0]); (0%nat, [48; 0]); (0%nat, [48; 0])] /\
    TnmSnmpTimeoutProc demo_proc 2 0 q1 = Ok q3 /\ queue_inv q3.
Proof.
  split; [exact demo_queue_inv|].
  destruct (request_lifetime demo_proc 0 demo_queue demo_request demo_session demo_procs_ok demo_queue_inv
    ltac:(vm_compute; left) ltac:(vm_compute; reflexivity) ltac:(vm_compute; reflexivity) ltac:(vm_compute; congruence)
    ltac:(vm_compute; congruence)) as (q1 & q2 & q3 & H1 & _ & H2 & _ & H3 & H4 & _).
  exists q1, q3. exact (conj H1 (conj H2 (conj H3 H4))).
Defined.

Definition demo_response : TnmSnmpPdu :=
  mkPdu ASN1_SNMP_RESPONSE 11 0 0 None [] [] (pdu_varbind set_pdu).

Lemma demo_response_encodes : pdu_encodes (H := no_mib) (qs_snmp demo_session) demo_response set_varbinds.
Proof.
  split; [by_eval|by_eval|by_eval|by_eval| |by_eval]. eexists. split; [reflexivity|].
  repeat constructor; try by_eval; try (vm_compute; congruence).
Qed.

Lemma demo_unique b r : b ∈ q_queue demo_queue -> mem_heap (q_req demo_queue) !! b = Some r -> rq_id r = 11 -> b = 0%nat.
Proof.
  intros Hb Hr Hid. vm_compute in Hb. repeat (apply elem_of_cons in Hb as [->|Hb]; [|]); [done| | |by apply elem_of_nil in Hb];
    vm_compute in Hr; injection Hr as <-; vm_compute in Hid; discriminate Hid.
Qed.

Lemma response_dispatch_witness :
  queue_inv demo_queue /\
  let packet := community_message (qs_snmp demo_session) demo_response set_varbinds in
  exists msg' recv' stats' q3,
    DecodeMessage (H := no_mib) TNM_OID_MAX_SIZE msg_zero blank_pdu zero_stats
      (TnmBerCreate packet (Z.of_nat (length packet))) = (DecOk msg' recv', stats') /\
    decode_response demo_proc (fun _ _ q => q) 1 msg' recv' demo_queue = Ok (Some (DEC_OK, q3)) /\ queue_inv q3.
Proof.
  split; [exact demo_queue_inv|]. intros packet.
  destruct (response_dispatch (H := no_mib) demo_proc 0 demo_request demo_session demo_response set_varbinds demo_queue demo_procs_ok demo_queue_inv
    ltac:(vm_compute; left) ltac:(vm_compute; reflexivity) ltac:(vm_compute; reflexivity) demo_unique ltac:(by_eval)
    demo_response_encodes ltac:(by_eval) ltac:(by_eval) ltac:(by_eval) ltac:(by_eval)) as [H _].
  destruct (H msg_zero blank_pdu zero_stats) as (msg' & recv' & stats' & q2 & q3 & H1 & H2 & H3 & _).
  exists msg', recv', stats', q3. exact (conj H1 (conj H2 H3)).
Defined.

(** Deleting the session of the only active request leaves the request of another
    session waiting, although nothing is active any more and no timer is pending. *)
Lemma delete_session_stalls :
  let q := demo_send 1 12 (cstr "ok") (demo_send 0 11 (cstr "ok") (set_queue_option (Some 1) optWindow 1 demo_sessions).2) in
  match session_DeleteProc 0 q with
  | Ok q' => total_active q' = 0 /\ total_waiting q' = 1 /\
      Forall (fun a => (fun r => rq_timer r) <$> mem_heap (q_req q') !! a = Some None) (q_queue q')
  | _ => False
  end.
Proof. vm_compute. split; [reflexivity|]. split; [reflexivity|]. repeat constructor. Qed.

(** A script bound to received packets that deletes the session: the request is used
    after its memory was released. *)
Lemma recv_binding_frees_request :
  decode_response demo_proc (fun s _ q => run_or q (session_DeleteProc s q)) 1
    (received_message (qs_snmp demo_session) msg_zero) demo_response demo_queue = UseAfterFree.
Proof. vm_compute. reflexivity. Qed.
