(* ===== verification/Callback.v ===== *)
(** Event bindings and the scripts bound to them: [TnmSnmpEvalCallback] and
    [TnmSnmpEvalBinding] of [tnmSnmpUtil.c], up to the command that is handed to
    Tcl. *)

From S2P Require Import Prelude Ber CStr Util Snmp Inst.
Local Open Scope Z_scope.

Definition tnmSnmpErrorTable : TnmTable :=
  [mkElem TNM_SNMP_NOERROR (cstr "noError");
   mkElem TNM_SNMP_TOOBIG (cstr "tooBig");
   mkElem TNM_SNMP_NOSUCHNAME (cstr "noSuchName");
   mkElem TNM_SNMP_BADVALUE (cstr "badValue");
   mkElem TNM_SNMP_READONLY (cstr "readOnly");
   mkElem TNM_SNMP_GENERR (cstr "genErr");
   mkElem TNM_SNMP_NOACCESS (cstr "noAccess");
   mkElem TNM_SNMP_WRONGTYPE (cstr "wrongType");
   mkElem TNM_SNMP_WRONGLENGTH (cstr "wrongLength");
   mkElem TNM_SNMP_WRONGENCODING (cstr "wrongEncoding");
   mkElem TNM_SNMP_WRONGVALUE (cstr "wrongValue");
   mkElem TNM_SNMP_NOCREATION (cstr "noCreation");
   mkElem TNM_SNMP_INCONSISTENTVALUE (cstr "inconsistentValue");
   mkElem TNM_SNMP_RESOURCEUNAVAILABLE (cstr "resourceUnavailable");
   mkElem TNM_SNMP_COMMITFAILED (cstr "commitFailed");
   mkElem TNM_SNMP_UNDOFAILED (cstr "undoFailed");
   mkElem TNM_SNMP_AUTHORIZATIONERROR (cstr "authorizationError");
   mkElem TNM_SNMP_NOTWRITABLE (cstr "notWritable");
   mkElem TNM_SNMP_INCONSISTENTNAME (cstr "inconsistentName");
   mkElem TNM_SNMP_ENDOFWALK (cstr "endOfWalk");
   mkElem TNM_SNMP_NORESPONSE (cstr "noResponse")].

Definition TNM_SNMP_GET_EVENT : Z := 0x0001.
Definition TNM_SNMP_SET_EVENT : Z := 0x0002.
Definition TNM_SNMP_CREATE_EVENT : Z := 0x0004.
Definition TNM_SNMP_TRAP_EVENT : Z := 0x0008.
Definition TNM_SNMP_INFORM_EVENT : Z := 0x0010.
Definition TNM_SNMP_CHECK_EVENT : Z := 0x0020.
Definition TNM_SNMP_COMMIT_EVENT : Z := 0x0040.
Definition TNM_SNMP_ROLLBACK_EVENT : Z := 0x0080.
Definition TNM_SNMP_BEGIN_EVENT : Z := 0x0100.
Definition TNM_SNMP_END_EVENT : Z := 0x0200.
Definition TNM_SNMP_SEND_EVENT : Z := 0x0400.
Definition TNM_SNMP_RECV_EVENT : Z := 0x0800.

(** An address of the Internet: four octets and a port. *)
Record sockaddr := mkAddr { sin_addr : list Z; sin_port : Z }.
#[global] Instance sockaddr_eq_dec : EqDecision sockaddr.
Proof. solve_decision. Defined.

(** The arguments of a callback: the name of the session's command, the PDU with
    its address, and those of an instance binding. *)
Record callback := mkCallback {
  cb_session : option cstring;
  cb_pdu : TnmSnmpPdu;
  cb_addr : sockaddr;
  cb_instance : option cstring;
  cb_oid : option cstring;
  cb_value : option cstring;
  cb_last : option cstring
}.

Section callback.
(** The string representation of a list of varbinds, which Tcl builds. *)
Variable varbind_string : tcl_list (tcl_list cstring) -> cstring.

Definition chr_percent : Z := 37.

(** [switch ( *scanPtr)] *)
Definition escape (cb : callback) (c : Z) : cstring :=
  let pdu := cb_pdu cb in
  if bool_decide (c = 82) then sprintf_d (pdu_requestId pdu)
  else if bool_decide (c = 83) then default [] (cb_session cb)
  else if bool_decide (c = 86) then varbind_string (pdu_varbind pdu)
  else if bool_decide (c = 69) then
    default (cstr "unknown") (TnmGetTableValue tnmSnmpErrorTable (u32 (pdu_errorStatus pdu)))
  else if bool_decide (c = 73) then sprintf_d (s32 (pdu_errorIndex pdu - 1))
  else if bool_decide (c = 65) then inet_ntoa (sin_addr (cb_addr cb))
  else if bool_decide (c = 80) then sprintf_u (sin_port (cb_addr cb))
  else if bool_decide (c = 67) then pdu_context pdu
  else if bool_decide (c = 71) then pdu_engineID pdu
  else if bool_decide (c = 84) then
    default (cstr "unknown") (TnmGetTableValue tnmSnmpPDUTable (u32 (pdu_type pdu)))
  else if bool_decide (c = 111) then default [] (cb_instance cb)
  else if bool_decide (c = 105) then default [] (cb_oid cb)
  else if bool_decide (c = 118) then default [] (cb_value cb)
  else if bool_decide (c = 112) then default [] (cb_last cb)
  else if bool_decide (c = chr_percent) then [chr_percent]
  else [chr_percent; c].

(** [for (scanPtr = startPtr; *scanPtr != '\0'; scanPtr++)].  Behind a percent
    sign the scan moves on without looking for the end of the string: with the
    sign at the end it leaves the string ([None]). *)
Fixpoint expand (cb : callback) (cmd : cstring) : option cstring :=
  match cmd with
  | [] => Some []
  | c :: cmd =>
      if bool_decide (c <> chr_percent) then cons c <$> expand cb cmd
      else match cmd with
           | [] => None
           | e :: cmd => app (escape cb e) <$> expand cb cmd
           end
  end.

(** ** What the scan computes *)

(** A command as a sequence of characters and escapes. *)
Inductive piece := Char (c : Z) | Escape (e : Z).

Definition piece_source (p : piece) : cstring :=
  match p with Char c => [c] | Escape e => [chr_percent; e] end.
Definition piece_ok (p : piece) : Prop := match p with Char c => c <> chr_percent | Escape _ => True end.
Definition piece_text (cb : callback) (p : piece) : cstring :=
  match p with Char c => [c] | Escape e => escape cb e end.

Lemma expand_pieces cb ps : Forall piece_ok ps ->
  expand cb (ps ≫= piece_source) = Some (ps ≫= piece_text cb).
Proof.
  induction 1 as [|[c|e] ps H _ IH]; [done|..]; cbn in *.
  - by rewrite bool_decide_eq_true_2, IH.
  - by rewrite IH.
Qed.

(** Every command is a sequence of pieces, or one with a percent sign at its end,
    which makes the scan leave the string. *)
Lemma expand_cases cb cmd : exists ps, Forall piece_ok ps /\
  ((cmd = ps ≫= piece_source /\ expand cb cmd = Some (ps ≫= piece_text cb)) \/
   (cmd = (ps ≫= piece_source) ++ [chr_percent] /\ expand cb cmd = None)).
Proof.
  remember (length cmd) as n eqn:Hn. revert cmd Hn. induction n as [n IH] using lt_wf_ind. intros [|c cmd] ->.
  { exists []. split; [constructor|by left]. }
  cbn [expand]. case_bool_decide as Hc.
  - destruct (IH (length cmd) ltac:(cbn; lia) cmd eq_refl) as (ps & Hps & H). exists (Char c :: ps). split; [by constructor|].
    destruct H as [[-> ->]|[-> ->]]; [left|right]; done.
  - subst c. destruct cmd as [|e cmd]; [exists []; split; [constructor|by right]|].
    destruct (IH (length cmd) ltac:(cbn; lia) cmd eq_refl) as (ps & Hps & H). exists (Escape e :: ps). split; [by constructor|].
    destruct H as [[-> ->]|[-> ->]]; [left|right]; done.
Qed.

(** Percent signs that are doubled come out as they were. *)
Definition quote (s : cstring) : cstring := s ≫= (fun c => if bool_decide (c = chr_percent) then [chr_percent; c] else [c]).

Lemma expand_quote cb s : expand cb (quote s) = Some s.
Proof.
  induction s as [|c s IH]; [done|]. unfold quote in *. cbn [mbind list_bind]. case_bool_decide as Hc.
  - subst c. cbn. by rewrite IH.
  - cbn. by rewrite bool_decide_eq_true_2, IH.
Qed.
End callback.
