(* ===== verification/Mib.v ===== *)
(** The data of the MIB ([tnmMib.h]): types with their restrictions, the constants
    of the SMI and their tables ([tnmMibUtil.c]), and [TnmHexToOid]
    ([tnmOidObj.c]), which rewrites hexadecimal subidentifiers. *)

From S2P Require Import Prelude Ber CStr Oid Util.
Local Open Scope Z_scope.
Local Open Scope cint_scope.

(** ** Constants and tables *)

Definition TNM_MIB_NOACCESS : Z := 0.
Definition TNM_MIB_FORNOTIFY : Z := 1.
Definition TNM_MIB_READONLY : Z := 2.
Definition TNM_MIB_READWRITE : Z := 3.
Definition TNM_MIB_READCREATE : Z := 4.

Definition TNM_MIB_OBJECTTYPE : Z := 1.
Definition TNM_MIB_OBJECTIDENTITY : Z := 2.
Definition TNM_MIB_MODULEIDENTITY : Z := 3.
Definition TNM_MIB_NOTIFICATIONTYPE : Z := 4.
Definition TNM_MIB_TRAPTYPE : Z := 5.
Definition TNM_MIB_OBJECTGROUP : Z := 6.
Definition TNM_MIB_NOTIFICATIONGROUP : Z := 7.
Definition TNM_MIB_COMPLIANCE : Z := 8.
Definition TNM_MIB_CAPABILITIES : Z := 9.
Definition TNM_MIB_TEXTUALCONVENTION : Z := 10.
Definition TNM_MIB_TYPE_ASSIGNMENT : Z := 11.
Definition TNM_MIB_VALUE_ASSIGNEMENT : Z := 12.

Definition TNM_MIB_CURRENT : Z := 1.
Definition TNM_MIB_DEPRECATED : Z := 2.
Definition TNM_MIB_OBSOLETE : Z := 3.

Definition TNM_MIB_REST_NONE : Z := 0.
Definition TNM_MIB_REST_SIZE : Z := 1.
Definition TNM_MIB_REST_RANGE : Z := 2.
Definition TNM_MIB_REST_ENUMS : Z := 3.

Definition tnmMibAccessTable : TnmTable :=
  [mkElem TNM_MIB_NOACCESS (cstr "not-accessible");
   mkElem TNM_MIB_READONLY (cstr "read-only");
   mkElem TNM_MIB_READCREATE (cstr "read-create");
   mkElem TNM_MIB_READWRITE (cstr "read-write");
   mkElem TNM_MIB_FORNOTIFY (cstr "accessible-for-notify")].

Definition tnmMibMacroTable : TnmTable :=
  [mkElem TNM_MIB_OBJECTTYPE (cstr "OBJECT-TYPE");
   mkElem TNM_MIB_OBJECTIDENTITY (cstr "OBJECT-IDENTITY");
   mkElem TNM_MIB_MODULEIDENTITY (cstr "MODULE-IDENTITY");
   mkElem TNM_MIB_NOTIFICATIONTYPE (cstr "NOTIFICATION-TYPE");
   mkElem TNM_MIB_TRAPTYPE (cstr "TRAP-TYPE");
   mkElem TNM_MIB_OBJECTGROUP (cstr "OBJECT-GROUP");
   mkElem TNM_MIB_NOTIFICATIONGROUP (cstr "NOTIFICATION-GROUP");
   mkElem TNM_MIB_COMPLIANCE (cstr "MODULE-COMPLIANCE");
   mkElem TNM_MIB_CAPABILITIES (cstr "AGENT-CAPABILITIES");
   mkElem TNM_MIB_TEXTUALCONVENTION (cstr "TEXTUAL-CONVENTION");
   mkElem TNM_MIB_TYPE_ASSIGNMENT (cstr "TYPE-ASSIGNEMENT");
   mkElem TNM_MIB_VALUE_ASSIGNEMENT (cstr "VALUE-ASSIGNEMENT")].

Definition tnmMibStatusTable : TnmTable :=
  [mkElem TNM_MIB_CURRENT (cstr "current");
   mkElem TNM_MIB_DEPRECATED (cstr "deprecated");
   mkElem TNM_MIB_OBSOLETE (cstr "obsolete")].

(** ** Types *)

(** A restriction; the list of a type holds those of the kind in [restKind]. *)
Inductive TnmMibRest :=
  | intEnum (enumValue : Z) (enumLabel : cstring)
  | intRange (min max : Z)
  | unsRange (min max : Z).

Record TnmMibType := mkMibType {
  ty_name : option cstring;
  ty_moduleName : option cstring;
  ty_fileName : option cstring;
  ty_fileOffset : Z;
  ty_syntax : Z;
  ty_displayHint : option cstring;
  ty_macro : Z;
  ty_status : Z;
  ty_restKind : Z;
  ty_restList : list TnmMibRest
}.

(** ** Results *)

(** What goes wrong: a write outside of a buffer, arithmetic or an access that C leaves
    undefined (memory that was released or never set), a loop that does not end within the given number of rounds, [Tcl_Panic], a [NULL]
    pointer that is used. *)
Inductive mib_fault := MibOverrun | MibUndefined | MibLoops | MibPanic | MibNull.
Inductive mib_out (A : Type) := MibOk (a : A) | MibFault (f : mib_fault).
Arguments MibOk {A} a.
Arguments MibFault {A} f.

#[global] Instance mib_ret : MRet mib_out := fun A a => MibOk a.
#[global] Instance mib_bind : MBind mib_out := fun A B k m =>
  match m with MibOk a => k a | MibFault f => MibFault f end.

(** ** Hexadecimal subidentifiers *)

(** [(p[0] == ':' && isdigit(p[1])) || (p[0] == '.' && p[1] == '0' && p[2] == 'x')]:
    the string behind the separator. *)
Definition hex_separator (p : cstring) : option cstring :=
  match p with
  | c :: rest =>
      if bool_decide (c = chr_colon) && match rest with d :: _ => isdigit d | [] => false end then Some rest
      else if bool_decide (c = chr_dot) then hex_prefix rest
      else None
  | [] => None
  end.

(** [while (isxdigit(c))]: the number, cut to an [int], and what follows. *)
Fixpoint hex_number (p : cstring) (w : Z) : Z * cstring :=
  match p with
  | c :: p' =>
      if isxdigit c then
        hex_number p' (s32 ((w << 4) + hex_value c))
      else (w, p)
  | [] => (w, p)
  end.

(** The second loop of [TnmHexToOid]; [fuel] is the length of the string.  [None] is
    a string that does not fit into the static buffer. *)
Fixpoint hex_to_oid_loop (fuel : nat) (p : cstring) (s : cstring) : option cstring :=
  match fuel, p with
  | S fuel, c :: p' =>
      let '(text, p) := match hex_separator p with
                        | Some q => let '(w, q) := hex_number q 0 in (chr_dot :: sprintf_d w, q)
                        | None => ([c], p')
                        end in
      if decide (length (s ++ text) < OID_STR_SIZE)%nat then hex_to_oid_loop fuel p (s ++ text) else None
  | _, _ => Some s
  end.

Fixpoint has_hex (p : cstring) : bool :=
  match p with
  | [] => false
  | _ :: p' => bool_decide (is_Some (hex_separator p)) || has_hex p'
  end.

(** [Some None] is [return NULL]: there is nothing to convert. *)
Definition TnmHexToOid (str : cstring) : option (option cstring) :=
  if has_hex str then Some <$> hex_to_oid_loop (length str) str [] else Some None.
