(* ===== verification/Agent.v ===== *)
(** The SNMP agent: [tnmSnmpAgent.c], with [TnmSnmpCreateNode] and
    [TnmSnmpEvalNodeBinding] of [tnmSnmpInst.c], [TnmSnmpEvalCallback] and
    [Tnm_SnmpSplitVBList] of [tnmSnmpUtil.c].

    The agent answers requests from a tree of instances.  The value of an instance
    is the value of a Tcl variable; scripts can be bound to its nodes.  A script is
    given by what it does to the agent: a code, a result and a sequence of commands
    ([script_action]).  Tcl, the MIB and the socket are parameters ([AgentEnv]).

    A pointer to an instance is its path and the number of nodes that had left the
    tree when it was obtained; using it after its node left the tree is the outcome
    [LostInstance]. *)

From stdpp Require Import gmap.
From S2P Require Import Prelude Ber CStr Oid Util Snmp SnmpEnc SnmpDec Inst Callback Mib.
Local Open Scope Z_scope.

(** ** State *)

(** What a Tcl variable is read through: [TraceSysUpTime] and [TraceUnsignedInt]. *)
Inductive read_trace := TraceSysUpTime | TraceUnsignedInt (c : counter).

(** A variable: its value, if it is defined, the number of unset traces (calls of
    [DeleteNodeProc]) and the read traces. *)
Record tcl_var := mkVar {
  var_value : option cstring;
  var_unsets : nat;
  var_reads : list read_trace
}.

Definition no_var : tcl_var := mkVar None 0 [].

Definition varbinds : Type := tcl_list (tcl_list cstring).

Record CacheElement := mkCache {
  ce_session : option nat;
  ce_request : varbinds;
  ce_response : TnmSnmpPdu;
  ce_addr : sockaddr;
  ce_timestamp : Z
}.

Definition CACHE_SIZE : nat := 64.

(** The instances and the nodes that left the tree, the variables and the result of
    the interpreter, the statistics, the cache with its static index, the clock of
    the system, and a record of the scripts that were evaluated and of the packets
    that were sent. *)
Record AgentState := mkAgent {
  ag_tree : option TnmSnmpNode;
  ag_lost : list (list Z);
  ag_vars : gmap cstring tcl_var;
  ag_result : tcl_result;
  ag_stats : TnmSnmpStats;
  ag_cache : list CacheElement;
  ag_last : nat;
  ag_clock : Z;
  ag_log : list cstring;
  ag_sent : list (sockaddr * list Z)
}.

Definition with_tree (t : option TnmSnmpNode) (s : AgentState) : AgentState :=
  mkAgent t (ag_lost s) (ag_vars s) (ag_result s) (ag_stats s) (ag_cache s) (ag_last s) (ag_clock s) (ag_log s) (ag_sent s).
Definition with_lost (l : list (list Z)) (s : AgentState) : AgentState :=
  mkAgent (ag_tree s) l (ag_vars s) (ag_result s) (ag_stats s) (ag_cache s) (ag_last s) (ag_clock s) (ag_log s) (ag_sent s).
Definition with_vars (v : gmap cstring tcl_var) (s : AgentState) : AgentState :=
  mkAgent (ag_tree s) (ag_lost s) v (ag_result s) (ag_stats s) (ag_cache s) (ag_last s) (ag_clock s) (ag_log s) (ag_sent s).
Definition with_result (r : tcl_result) (s : AgentState) : AgentState :=
  mkAgent (ag_tree s) (ag_lost s) (ag_vars s) r (ag_stats s) (ag_cache s) (ag_last s) (ag_clock s) (ag_log s) (ag_sent s).
Definition with_stats (c : TnmSnmpStats) (s : AgentState) : AgentState :=
  mkAgent (ag_tree s) (ag_lost s) (ag_vars s) (ag_result s) c (ag_cache s) (ag_last s) (ag_clock s) (ag_log s) (ag_sent s).
Definition with_cache (c : list CacheElement) (n : nat) (s : AgentState) : AgentState :=
  mkAgent (ag_tree s) (ag_lost s) (ag_vars s) (ag_result s) (ag_stats s) c n (ag_clock s) (ag_log s) (ag_sent s).
Definition with_log (l : list cstring) (s : AgentState) : AgentState :=
  mkAgent (ag_tree s) (ag_lost s) (ag_vars s) (ag_result s) (ag_stats s) (ag_cache s) (ag_last s) (ag_clock s) l (ag_sent s).
Definition with_sent (l : list (sockaddr * list Z)) (s : AgentState) : AgentState :=
  mkAgent (ag_tree s) (ag_lost s) (ag_vars s) (ag_result s) (ag_stats s) (ag_cache s) (ag_last s) (ag_clock s) (ag_log s) l.

(** ** Outcomes *)

Inductive agent_fault :=
  | LostInstance      (* a pointer to an instance that left the tree *)
  | NullPointer       (* a NULL pointer or one that was never set *)
  | CommandOverrun    (* [expand] leaves the command *)
  | DanglingResult    (* the result of the interpreter is [ResDangling] *)
  | OutsideArray.     (* an access outside an array *)

Inductive agent_out (A : Type) := AOk (a : A) (s : AgentState) | AFault (f : agent_fault).
Arguments AOk {A} a s.
Arguments AFault {A} f.

Definition AgentM (A : Type) : Type := AgentState -> agent_out A.

#[global] Instance AgentM_ret : MRet AgentM := fun A a s => AOk a s.
#[global] Instance AgentM_bind : MBind AgentM := fun A B k m s =>
  match m s with AOk a s => k a s | AFault f => AFault f end.

Definition agent_get : AgentM AgentState := fun s => AOk s s.
Definition agent_do (f : AgentState -> AgentState) : AgentM unit := fun s => AOk tt (f s).
Definition agent_fail {A} (f : agent_fault) : AgentM A := fun _ => AFault f.
(** A value or a fault. *)
Definition need {A} (f : agent_fault) (o : option A) : AgentM A :=
  match o with Some a => mret a | None => agent_fail f end.

Definition count (c : counter) : AgentM unit := agent_do (fun s => with_stats (bump c (ag_stats s)) s).
Definition Tcl_ResetResult : AgentM unit := agent_do (with_result (ResText [])).
Definition Tcl_AppendResult (msg : cstring) : AgentM unit := agent_do (fun s =>
  with_result (match ag_result s with ResText t => ResText (t ++ msg) | ResDangling => ResDangling end) s).
Definition Tcl_GetStringResult : AgentM cstring := fun s =>
  match ag_result s with ResText t => AOk t s | ResDangling => AFault DanglingResult end.

(** ** What the agent relies on *)

Inductive eval_code := EVAL_OK | EVAL_ERROR | EVAL_RETURN | EVAL_BREAK | EVAL_CONTINUE.
#[global] Instance eval_code_eq_dec : EqDecision eval_code.
Proof. solve_decision. Defined.

(** The commands of a script that reach the agent: [set], [unset], and [instance]
    and [bind] of a session. *)
Inductive script_action :=
  | actSet (name value : cstring)
  | actUnset (name : cstring)
  | actInstance (label varName defval : cstring)
  | actBind (oid : list Z) (event : Z) (command : cstring).

(** The fields of a MIB node the agent reads: the access, whether it has children,
    the syntax of its parent. *)
Record mib_view := mkMibView {
  mib_access : Z;
  mib_children : bool;
  mib_parent : option Z
}.

Class AgentEnv := {
  (* Tcl *)
  Tcl_GlobalEval : cstring -> AgentState -> eval_code * cstring * list script_action;
  can_set : gmap cstring tcl_var -> cstring -> bool;
  read_error : cstring -> cstring;
  set_error : cstring -> cstring;
  varbind_string : varbinds -> cstring;
  Tcl_DStringLength : list (list cstring) -> option (list cstring) -> Z;
  (* the MIB (tnmMibTree.c), with exact = 0 and exact = 1 *)
  TnmMibFindNode : cstring -> option mib_view;
  TnmMibFindExact : cstring -> option mib_view;
  (* the socket: the message of an error *)
  sendto_error : sockaddr -> list Z -> option cstring;
  (* what the static buffer of EncodeUsmSecParams holds *)
  usm_buffer : list Z
}.

Definition TNM_SNMPv2 : Z := 0x20.
Definition TNM_SNMP_RESPONDER : Z := 2.
Definition TNM_SNMP_LISTENER : Z := 4.

(** A session of the agent: its address in memory, its type, the fields of messages,
    the name of its command and its event bindings. *)
Record AgentSession := mkAgentSession {
  as_address : nat;
  as_type : Z;
  as_snmp : TnmSnmp;
  as_token : option cstring;
  as_bindings : list TnmSnmpBinding
}.

(** ** Variables *)

Section agent.
Context `{!SnmpEnv, !AgentEnv}.

Definition trace_value (t : read_trace) (s : AgentState) : cstring :=
  match t with
  | TraceSysUpTime => sprintf_u TnmSnmpSysUpTime
  | TraceUnsignedInt c => sprintf_u (ag_stats s c)
  end.

(** The read traces of a variable set its value. *)
Definition run_reads (s : AgentState) (v : tcl_var) : tcl_var :=
  fold_left (fun v t => mkVar (Some (trace_value t s)) (var_unsets v) (var_reads v)) (var_reads v) v.

(** With [TCL_LEAVE_ERR_MSG]. *)
Definition Tcl_GetVar (name : cstring) : AgentM (option cstring) := fun s =>
  let s := with_vars (alter (run_reads s) name (ag_vars s)) s in
  match ag_vars s !! name ≫= var_value with
  | Some value => AOk (Some value) s
  | None => AOk None (with_result (ResText (read_error name)) s)
  end.

Definition set_value (value : cstring) (v : tcl_var) : tcl_var := mkVar (Some value) (var_unsets v) (var_reads v).

(** Whether the variable was set. *)
Definition Tcl_SetVar (name value : cstring) : AgentM bool := fun s =>
  if can_set (ag_vars s) name
  then AOk true (with_vars (<[name := set_value value (default no_var (ag_vars s !! name))]> (ag_vars s)) s)
  else AOk false s.

Definition Tcl_TraceUnset (name : cstring) : AgentM unit := agent_do (fun s =>
  let v := default no_var (ag_vars s !! name) in
  with_vars (<[name := mkVar (var_value v) (S (var_unsets v)) (var_reads v)]> (ag_vars s)) s).

Definition Tcl_TraceRead (name : cstring) (t : read_trace) : AgentM unit := agent_do (fun s =>
  let v := default no_var (ag_vars s !! name) in
  with_vars (<[name := mkVar (var_value v) (var_unsets v) (t :: var_reads v)]> (ag_vars s)) s).

(** The name of a variable and the element of an array Tcl passes to a trace. *)
Definition split_name (name : cstring) : cstring * option cstring :=
  match last name, list_find (fun c => c = 40) name with
  | Some 41, Some (i, _) => (take i name, Some (take (length name - i - 2) (drop (S i) name)))
  | _, _ => (name, None)
  end.

(** The paths of all nodes. *)
Fixpoint paths (t : TnmSnmpNode) : list (list Z) :=
  match t with
  | Node nd cs => [nd_subid nd] :: map (cons (nd_subid nd)) (concat (map paths cs))
  end.
Definition tree_paths (root : option TnmSnmpNode) : list (list Z) := from_option paths [] root.

(** A call of the unset trace. *)
Definition delete_node (name : cstring) (s : AgentState) : AgentState :=
  let '(name1, name2) := split_name name in
  let tree := DeleteNodeProc (ag_tree s) name1 name2 in
  with_lost (ag_lost s ++ filter (fun p => p ∉ tree_paths tree) (tree_paths (ag_tree s))) (with_tree tree s).

Definition Tcl_UnsetVar (name : cstring) : AgentM unit := agent_do (fun s =>
  match ag_vars s !! name with
  | None => s
  | Some v => Nat.iter (var_unsets v) (delete_node name) (with_vars (delete name (ag_vars s)) s)
  end).

(** ** Creating instances *)

(** [for (oid = TnmStrToOid(soid, &oidLen); oidLen; oidLen--)]: the identifier of
    the longest prefix that is in the MIB. *)
Fixpoint find_base (oid : list Z) (oidLen : nat) : option (option cstring) :=
  match oidLen with
  | O => Some None
  | S n =>
      freeme ← TnmOidToStr oid oidLen;
      match TnmMibFindExact freeme with
      | Some _ => Some (Some freeme)
      | None => find_base oid n
      end
  end.

Definition quoted (s : cstring) : cstring := [34] ++ s ++ [34].

(** [Tcl_AppendResult(interp, ...); return TCL_ERROR;] *)
Definition create_error (msg : cstring) : AgentM tcl_code := _ ← Tcl_AppendResult msg; mret TCL_ERROR.

(** The end of [TnmSnmpCreateNode]: the variable and the node. *)
Definition create_instance (soid : cstring) (offset syntax access : Z) (varName : cstring) (defval : option cstring)
    : AgentM tcl_code :=
  ok ← match defval with Some value => Tcl_SetVar varName value | None => mret true end;
  if negb (ok : bool) then _ ← agent_do (with_result (ResText (set_error varName))); mret TCL_ERROR
  else
    s ← agent_get;
    '(tree, _) ← need OutsideArray (AddNode (ag_tree s) soid offset syntax access (Some varName));
    _ ← agent_do (with_tree tree);
    _ ← Tcl_TraceUnset varName;
    _ ← Tcl_ResetResult;
    mret TCL_OK.

Definition TnmSnmpCreateNode (label tclVarName : cstring) (defval : option cstring) : AgentM tcl_code :=
  match TnmMibFindNode label with
  | Some nodePtr =>
      if mib_children nodePtr then create_error (cstr "unknown object type " ++ quoted label)
      else
        soid ← need NullPointer (TnmMibGetOid label);
        if negb (TnmIsOid soid) then create_error (cstr "illegal instance identifier " ++ quoted soid)
        else
          '(oid, oidLen) ← need NullPointer (TnmStrToOid soid);
          base ← need OutsideArray (find_base oid oidLen);
          let missing := create_error (cstr "instance identifier missing in " ++ quoted label) in
          match base with
          | None => missing
          | Some freeme =>
              if bool_decide (length soid <= length freeme)%nat then missing
              else
                let offset := S (length freeme) in
                let access := mib_access nodePtr in
                if bool_decide (access = TNM_MIB_NOACCESS)
                then create_error (cstr "object " ++ quoted label ++ cstr " is not accessible")
                else
                  match mib_parent nodePtr with
                  | None => create_error (cstr "instance " ++ quoted label ++ cstr " not allowed")
                  | Some parent =>
                      if bool_decide (parent <> ASN1_SEQUENCE) && bool_decide (drop offset soid <> cstr "0")
                      then create_error (cstr "illegal instance identifier " ++ quoted (drop offset soid)
                             ++ cstr " for instance " ++ quoted label)
                      else create_instance soid (Z.of_nat offset) (TnmMibGetBaseSyntax label) access tclVarName defval
                  end
          end
  | None => create_error (cstr "unknown object type " ++ quoted label)
  end.

(** ** Scripts *)

Definition run_action (a : script_action) : AgentM unit :=
  match a with
  | actSet name value => _ ← Tcl_SetVar name value; mret tt
  | actUnset name => Tcl_UnsetVar name
  | actInstance label varName defval => _ ← TnmSnmpCreateNode label varName (Some defval); mret tt
  | actBind oid event command =>
      s ← agent_get;
      '(_, tree) ← need OutsideArray (TnmSnmpSetNodeBinding (ag_tree s) oid event (Some command));
      agent_do (with_tree tree)
  end.

Fixpoint run_actions (l : list script_action) : AgentM unit :=
  match l with
  | [] => mret tt
  | a :: l => _ ← run_action a; run_actions l
  end.

(** [Tcl_GlobalEval] *)
Definition eval_script (script : cstring) : AgentM eval_code := fun s =>
  let '(code, result, actions) := Tcl_GlobalEval script s in
  (_ ← run_actions actions;
   _ ← agent_do (with_result (ResText result));
   mret code) (with_log (ag_log s ++ [script]) s).

(** The error of a binding that belongs to no instance is reported in the
    background; the result is the message either way. *)
Definition TnmSnmpEvalCallback (cb : callback) (cmd : cstring) : AgentM eval_code :=
  script ← need CommandOverrun (expand varbind_string cb cmd);
  eval_script script.

(** A request with the address it came from, or a response. *)
Definition request : Type := TnmSnmpPdu * sockaddr.

Definition TnmSnmpEvalBinding (session : AgentSession) (req : request) (event : Z) : AgentM eval_code :=
  match find_binding event (as_bindings session) with
  | Some (mkBinding _ (Some cmd)) =>
      TnmSnmpEvalCallback (mkCallback (as_token session) req.1 req.2 None None None None) cmd
  | _ => mret EVAL_OK
  end.

(** A pointer to an instance. *)
Record inst_ptr := mkPtr { ip_path : list Z; ip_stamp : nat }.

Definition deref (p : inst_ptr) : AgentM node := fun s =>
  if bool_decide (ip_path p ∈ drop (ip_stamp p) (ag_lost s)) then AFault LostInstance
  else match FindNode (ag_tree s) (ip_path p) with
       | Some t => AOk (nd_of t) s
       | None => AFault LostInstance
       end.

(** The identifier in a string: empty if it is not one. *)
Definition oid_from_string (str : cstring) : AgentM (list Z) :=
  '(_, o) ← need OutsideArray (TnmOidFromString TnmOidInit str);
  mret (take (Z.to_nat (oid_length o)) (oid_elements o)).

(** The PDU of a callback has no error. *)
Definition no_error (pdu : TnmSnmpPdu) : TnmSnmpPdu :=
  mkPdu (pdu_type pdu) (pdu_requestId pdu) TNM_SNMP_NOERROR 0 (pdu_trapOID pdu) (pdu_context pdu)
    (pdu_engineID pdu) (pdu_varbind pdu).

(** [for (len = TnmOidGetLength(&oid); len > 0; len--)] *)
Fixpoint eval_up (session : AgentSession) (req : request) (event : Z) (oid : list Z) (instOid : cstring)
    (value oldValue : option cstring) (len : nat) (code : eval_code) : AgentM eval_code :=
  match len with
  | O => mret code
  | S n =>
      s ← agent_get;
      match FindNode (ag_tree s) (take len oid) with
      | None => eval_up session req event oid instOid value oldValue n code
      | Some inst =>
          match find_binding event (nd_bindings (nd_of inst)) with
          | Some (mkBinding _ (Some cmd)) =>
              code ← TnmSnmpEvalCallback
                       (mkCallback (as_token session) (no_error req.1) req.2 (Some (nd_label (nd_of inst)))
                          (Some instOid) value oldValue) cmd;
              s ← agent_get;
              let code := if bool_decide (code = EVAL_OK) && bool_decide (FindNode (ag_tree s) (take len oid) = None)
                          then EVAL_ERROR else code in
              if bool_decide (code = EVAL_BREAK) || bool_decide (code = EVAL_ERROR) then mret code
              else eval_up session req event oid instOid value oldValue n code
          | _ => eval_up session req event oid instOid value oldValue n code
          end
      end
  end.

Definition TnmSnmpEvalNodeBinding (session : AgentSession) (req : request) (inst : inst_ptr) (event : Z)
    (value oldValue : option cstring) : AgentM eval_code :=
  nd ← deref inst;
  oid ← oid_from_string (nd_label nd);
  eval_up session req event oid (drop (Z.to_nat (nd_offset nd)) (nd_label nd)) value oldValue (length oid) EVAL_OK.

(** [FindInstance] and [FindNextInstance]: the path to an instance is in its
    label. *)
Definition find_instance (next : bool) (oid : list Z) : AgentM (option inst_ptr) := fun s =>
  match (if next then FindNextInstance else FindInstance) (ag_tree s) oid with
  | None => AOk None s
  | Some t =>
      match (if next then '(o, n) ← TnmStrToOid (nd_label (nd_of t)); Some (take n o) else Some oid) with
      | Some path => AOk (Some (mkPtr path (length (ag_lost s)))) s
      | None => AFault NullPointer
      end
  end.

(** ** The response that is being built *)

(** The varbinds that are complete and the one that is open: an error leaves it
    open, and the string is not a list then. *)
Record response := mkResponse {
  rs_status : Z;
  rs_index : Z;
  rs_done : list (list cstring);
  rs_open : option (list cstring)
}.

Definition rs_error (status index : Z) (r : response) : response :=
  mkResponse status index (rs_done r) (rs_open r).
Definition rs_start (l : list cstring) (r : response) : response :=
  mkResponse (rs_status r) (rs_index r) (rs_done r) (Some l).
Definition rs_add (l : list cstring) (r : response) : response :=
  mkResponse (rs_status r) (rs_index r) (rs_done r ++ [l]) None.

Definition rs_varbind (r : response) : varbinds :=
  match rs_open r with
  | None => TclList (TclList <$> rs_done r)
  | Some _ => BadList (cstr "unmatched open brace in list")
  end.

(** [if (Tcl_DStringLength(&response->varbind) >= TNM_SNMP_MAXSIZE)] *)
Definition check_size (r : response) : response :=
  if bool_decide (TNM_SNMP_MAXSIZE <= Tcl_DStringLength (rs_done r) (rs_open r))
  then rs_error TNM_SNMP_TOOBIG 0 r else r.

(** [varBindTclError:] the status from the result of the interpreter. *)
Definition error_from_result : AgentM Z :=
  result ← Tcl_GetStringResult;
  let key := TnmGetTableKey tnmSnmpErrorTable result in
  let status := if bool_decide (key < 0) then TNM_SNMP_GENERR else key in
  _ ← (if bool_decide (status = TNM_SNMP_GENERR) then count snmpOutGenErrs else mret tt);
  mret status.

(** The label and the name of the syntax of an instance. *)
Definition varbind_head (nd : node) : list cstring :=
  [nd_label nd; default [] (TnmGetTableValue tnmSnmpTypeTable (u32 (nd_syntax nd)))].

(** ** Get requests *)

(** [TnmGetOidFromObj] *)
Definition TnmGetOidFromObj (str : cstring) : AgentM (option (list Z)) :=
  match (if TnmIsOid str then Some str else TnmMibGetOid str) with
  | None => mret None
  | Some str =>
      '(code, o) ← need OutsideArray (TnmOidFromString TnmOidInit str);
      mret (match code with
            | TCL_OK => Some (take (Z.to_nat (oid_length o)) (oid_elements o))
            | TCL_ERROR => None
            end)
  end.

(** [Tcl_ListObjIndex(interp, vbListElems[i], n, &objPtr)] and a use of the object. *)
Definition word (vb : tcl_list cstring) (n : nat) : AgentM cstring :=
  match vb with
  | BadList _ => agent_fail NullPointer
  | TclList l => need NullPointer (l !! n)
  end.

(** The exception of SNMPv2 for an instance that does not exist. *)
Definition get_exception (type : Z) (soid : cstring) : cstring :=
  if bool_decide (type = ASN1_SNMP_GET) then
    match TnmMibFindNode soid with
    | Some nodePtr => if mib_children nodePtr then cstr "noSuchObject" else cstr "noSuchInstance"
    | None => cstr "noSuchObject"
    end
  else cstr "endOfMibView".

Definition is_next (type : Z) : bool := bool_decide (type = ASN1_SNMP_GETNEXT) || bool_decide (type = ASN1_SNMP_GETBULK).

(** One round of the loop of [GetRequest]: the response and whether to go on. *)
Definition get_varbind (session : AgentSession) (req : request) (i : Z) (vb : tcl_list cstring) (r : response)
    : AgentM (response * bool) :=
  let type := pdu_type req.1 in
  name ← word vb 0;
  oid ← TnmGetOidFromObj name;
  match oid with
  | None => _ ← count snmpOutGenErrs; mret (rs_error TNM_SNMP_GENERR (i + 1) r, false)
  | Some oid =>
      inst ← find_instance (is_next type) oid;
      match inst with
      | None =>
          if bool_decide (ss_version (as_snmp session) = TNM_SNMPv1)
          then _ ← count snmpOutNoSuchNames; mret (rs_error TNM_SNMP_NOSUCHNAME (i + 1) r, false)
          else
            soid ← need OutsideArray (TnmOidToStr oid (length oid));
            mret (rs_add [soid; get_exception type soid; []] r, true)
      | Some inst =>
          nd ← deref inst;
          let head := varbind_head nd in
          let r := rs_start head r in
          value ← word vb 2;
          code ← TnmSnmpEvalNodeBinding session req inst TNM_SNMP_GET_EVENT (Some value) None;
          if bool_decide (code = EVAL_ERROR)
          then status ← error_from_result; mret (rs_error status (i + 1) r, false)
          else
            nd ← deref inst;
            name ← need NullPointer (nd_tclVarName nd);
            value ← Tcl_GetVar name;
            match value with
            | None => _ ← count snmpOutGenErrs; mret (rs_error TNM_SNMP_GENERR (i + 1) r, false)
            | Some value =>
                _ ← Tcl_ResetResult;
                _ ← count snmpInTotalReqVars;
                mret (rs_add (head ++ [value]) r, true)
            end
      end
  end.

(** [for (i = 0; i < vbListLen; i++)] *)
Fixpoint get_varbinds (session : AgentSession) (req : request) (i : Z) (vbs : list (tcl_list cstring)) (r : response)
    : AgentM response :=
  match vbs with
  | [] => mret r
  | vb :: vbs =>
      '(r, go) ← get_varbind session req i vb r;
      if (go : bool) then get_varbinds session req (i + 1) vbs r else mret r
  end.

Definition rs_empty : response := mkResponse TNM_SNMP_NOERROR 0 [] None.

(** [None] is [TCL_ERROR]. *)
Definition GetRequest (session : AgentSession) (req : request) : AgentM (option response) :=
  match pdu_varbind req.1 with
  | BadList _ => mret None
  | TclList vbs => r ← get_varbinds session req 0 vbs rs_empty; mret (Some (check_size r))
  end.

(** ** Set requests *)

(** [clientData] is the previous value, [flags] whether the node was created. *)
Record SNMP_VarBind := mkVarBind {
  vb_soid : option cstring;
  vb_syntax : option cstring;
  vb_value : option cstring;
  vb_clientData : option cstring;
  vb_created : bool
}.

Definition with_clientData (old : option cstring) (vb : SNMP_VarBind) : SNMP_VarBind :=
  mkVarBind (vb_soid vb) (vb_syntax vb) (vb_value vb) old (vb_created vb).
Definition with_created (vb : SNMP_VarBind) : SNMP_VarBind :=
  mkVarBind (vb_soid vb) (vb_syntax vb) (vb_value vb) (vb_clientData vb) true.

(** [None] for a string that is not a list; its message is the result. *)
Fixpoint split_varbinds (vbs : list (tcl_list cstring)) : list SNMP_VarBind + cstring :=
  match vbs with
  | [] => inl []
  | BadList msg :: _ => inr msg
  | TclList l :: vbs =>
      match split_varbinds vbs with
      | inl res => inl (mkVarBind (l !! 0%nat) (l !! 1%nat) (l !! 2%nat) None false :: res)
      | inr msg => inr msg
      end
  end.

Definition Tnm_SnmpSplitVBList (list : varbinds) : Datatypes.list SNMP_VarBind + cstring :=
  match list with
  | BadList msg => inr msg
  | TclList vbs => split_varbinds vbs
  end.

(** The instance of a varbind; a [NULL] string is the empty identifier. *)
Definition vb_instance (vb : SNMP_VarBind) : AgentM (option inst_ptr) :=
  oid ← oid_from_string (default [] (vb_soid vb));
  find_instance false oid.

(** The name of the variable of a new instance: the first dot becomes an opening
    parenthesis and a closing one is added. *)
Fixpoint array_name (name : cstring) : cstring :=
  match name with
  | [] => [41]
  | c :: name => if bool_decide (c = chr_dot) then 40 :: name ++ [41] else c :: array_name name
  end.

(** How a round of the loop of [SetRequest] ends: with the next varbind, with an
    error before anything was changed for this varbind ([varsToRollback--]), or with
    an error after that. *)
Inductive set_end := SetNext | SetRefused | SetFailed.

(** The instance that is created for a varbind. *)
Definition set_create (session : AgentSession) (req : request) (vb : SNMP_VarBind)
    : AgentM (SNMP_VarBind * (inst_ptr + Z * set_end)) :=
  soid ← need NullPointer (vb_soid vb);
  match TnmMibFindNode soid with
  | Some nodePtr =>
      if bool_decide (mib_access nodePtr = TNM_MIB_READCREATE) then
        name ← need NullPointer (TnmMibGetName soid);
        _ ← TnmSnmpCreateNode soid (array_name name) (Some []);
        let vb := with_created vb in
        inst ← vb_instance vb;
        match inst with
        | None => mret (vb, inr (TNM_SNMP_NOCREATION, SetRefused))
        | Some inst =>
            code ← TnmSnmpEvalNodeBinding session req inst TNM_SNMP_CREATE_EVENT (vb_value vb) None;
            if bool_decide (code = EVAL_ERROR)
            then status ← error_from_result; mret (vb, inr (status, SetFailed))
            else
              _ ← (if bool_decide (code <> EVAL_BREAK) then
                     nd ← deref inst;
                     name ← need NullPointer (nd_tclVarName nd);
                     value ← need NullPointer (vb_value vb);
                     Tcl_SetVar name value
                   else mret true);
              mret (vb, inl inst)
        end
      else mret (vb, inr (TNM_SNMP_NOCREATION, SetRefused))
  | None => mret (vb, inr (TNM_SNMP_NOCREATION, SetRefused))
  end.

(** The value of an instance that exists. *)
Definition set_existing (session : AgentSession) (req : request) (vb : SNMP_VarBind) (inst : inst_ptr)
    : AgentM (SNMP_VarBind * (inst_ptr + Z * set_end)) :=
  nd ← deref inst;
  if bool_decide (nd_access nd = TNM_MIB_READONLY) then mret (vb, inr (TNM_SNMP_NOTWRITABLE, SetRefused))
  else
    syntax ← need NullPointer (vb_syntax vb);
    if bool_decide (TnmGetTableKey tnmSnmpTypeTable syntax <> nd_syntax nd)
    then mret (vb, inr (TNM_SNMP_WRONGTYPE, SetRefused))
    else
      name ← need NullPointer (nd_tclVarName nd);
      old ← Tcl_GetVar name;
      let vb := with_clientData old vb in
      code ← TnmSnmpEvalNodeBinding session req inst TNM_SNMP_SET_EVENT (vb_value vb) old;
      if bool_decide (code = EVAL_ERROR)
      then status ← error_from_result; mret (vb, inr (status, SetFailed))
      else
        ok ← (if bool_decide (code <> EVAL_BREAK) then
                nd ← deref inst;
                name ← need NullPointer (nd_tclVarName nd);
                value ← need NullPointer (vb_value vb);
                Tcl_SetVar name value
              else mret true);
        if negb (ok : bool) then status ← error_from_result; mret (vb, inr (status, SetFailed))
        else _ ← count snmpInTotalSetVars; mret (vb, inl inst).

(** One round of the loop of [SetRequest]. *)
Definition set_varbind (session : AgentSession) (req : request) (i : Z) (vb : SNMP_VarBind) (r : response)
    : AgentM (SNMP_VarBind * response * set_end) :=
  inst ← vb_instance vb;
  '(vb, res) ← match inst with
               | None => set_create session req vb
               | Some inst => set_existing session req vb inst
               end;
  match res with
  | inr (status, e) => mret (vb, rs_error status (i + 1) r, e)
  | inl inst =>
      nd ← deref inst;
      let head := varbind_head nd in
      let r := rs_start head r in
      name ← need NullPointer (nd_tclVarName nd);
      value ← Tcl_GetVar name;
      match value with
      | None => mret (vb, rs_error TNM_SNMP_GENERR (i + 1) r, SetFailed)
      | Some value => _ ← Tcl_ResetResult; mret (vb, rs_add (head ++ [value]) r, SetNext)
      end
  end.

(** [for (i = 0; i < inVarBindSize; i++)]: the varbinds as they are left, the
    response, and those that a rollback has to undo, in the order of the list. *)
Fixpoint set_varbinds (session : AgentSession) (req : request) (i : Z) (vbs : list SNMP_VarBind) (r : response)
    : AgentM (list SNMP_VarBind * response * list SNMP_VarBind) :=
  match vbs with
  | [] => mret ([], r, [])
  | vb :: vbs =>
      '(vb, r, e) ← set_varbind session req i vb r;
      match e with
      | SetNext =>
          '(vbs, r, undo) ← set_varbinds session req (i + 1) vbs r;
          mret (vb :: vbs, r, vb :: undo)
      | SetRefused => mret (vb :: vbs, r, [])
      | SetFailed => mret (vb :: vbs, r, [vb])
      end
  end.

(** The check bindings: the response with the first error. *)
Fixpoint check_varbinds (session : AgentSession) (req : request) (i : Z) (vbs : list SNMP_VarBind) (r : response)
    : AgentM response :=
  match vbs with
  | [] => mret r
  | vb :: vbs =>
      inst ← vb_instance vb;
      code ← match inst with
             | Some inst => TnmSnmpEvalNodeBinding session req inst TNM_SNMP_CHECK_EVENT (vb_value vb) (vb_clientData vb)
             | None => _ ← Tcl_ResetResult; mret EVAL_ERROR
             end;
      if bool_decide (code <> EVAL_OK)
      then status ← error_from_result; mret (rs_error status (i + 1) r)
      else check_varbinds session req (i + 1) vbs r
  end.

Fixpoint commit_varbinds (session : AgentSession) (req : request) (vbs : list SNMP_VarBind) : AgentM unit :=
  match vbs with
  | [] => mret tt
  | vb :: vbs =>
      inst ← vb_instance vb;
      _ ← match inst with
          | Some inst => TnmSnmpEvalNodeBinding session req inst TNM_SNMP_COMMIT_EVENT (vb_value vb) (vb_clientData vb)
          | None => mret EVAL_OK
          end;
      commit_varbinds session req vbs
  end.

(** One round of the rollback. *)
Definition rollback_varbind (session : AgentSession) (req : request) (vb : SNMP_VarBind) : AgentM unit :=
  inst ← vb_instance vb;
  match inst with
  | None => mret tt
  | Some inst =>
      _ ← TnmSnmpEvalNodeBinding session req inst TNM_SNMP_ROLLBACK_EVENT (vb_value vb) (vb_clientData vb);
      if vb_created vb then
        nd ← deref inst;
        name ← need NullPointer (nd_tclVarName nd);
        Tcl_UnsetVar name
      else
        match vb_clientData vb with
        | Some old =>
            nd ← deref inst;
            name ← need NullPointer (nd_tclVarName nd);
            _ ← Tcl_SetVar name old;
            mret tt
        | None => mret tt
        end
  end.

(** [for (i = varsToRollback; i >= 0; i--)]: the last one first. *)
Fixpoint rollback_varbinds (session : AgentSession) (req : request) (undo : list SNMP_VarBind) : AgentM unit :=
  match undo with
  | [] => mret tt
  | vb :: undo => _ ← rollback_varbinds session req undo; rollback_varbind session req vb
  end.

Definition SetRequest (session : AgentSession) (req : request) : AgentM (option response) :=
  match Tnm_SnmpSplitVBList (pdu_varbind req.1) with
  | inr msg => _ ← agent_do (with_result (ResText msg)); mret None
  | inl vbs =>
      '(vbs, r, undo) ← set_varbinds session req 0 vbs rs_empty;
      let r := check_size r in
      r ← (if bool_decide (rs_status r = TNM_SNMP_NOERROR) then check_varbinds session req 0 vbs r else mret r);
      _ ← (if bool_decide (rs_status r = TNM_SNMP_NOERROR) then commit_varbinds session req vbs
           else rollback_varbinds session req undo);
      mret (Some r)
  end.

(** ** The cache of answers *)

Definition cache_zero : CacheElement :=
  mkCache None (TclList []) (mkPdu 0 0 0 0 None [] [] (TclList [])) (mkAddr [0; 0; 0; 0] 0) 0.

Definition CacheInit : AgentM unit := agent_do (fun s => with_cache (replicate CACHE_SIZE cache_zero) (ag_last s) s).

(** The element after the last one is taken; what its response holds is reset. *)
Definition CacheGet (session : AgentSession) (req : request) : AgentM (nat * TnmSnmpPdu) :=
  s ← agent_get;
  let last := ((ag_last s + 1) mod CACHE_SIZE)%nat in
  e ← need OutsideArray (ag_cache s !! last);
  let old := ce_response e in
  let response := mkPdu (pdu_type old) 0 TNM_SNMP_NOERROR 0 (pdu_trapOID old) (pdu_context old) (pdu_engineID old) (TclList []) in
  let e := mkCache (Some (as_address session)) (pdu_varbind req.1) response req.2 (ag_clock s) in
  _ ← agent_do (with_cache (<[last := e]> (ag_cache s)) last);
  mret (last, response).

(** [reply->... = ...]: the response in the cache is changed. *)
Definition cache_store (i : nat) (pdu : TnmSnmpPdu) : AgentM unit := agent_do (fun s =>
  with_cache (alter (fun e => mkCache (ce_session e) (ce_request e) pdu (ce_addr e) (ce_timestamp e)) i (ag_cache s))
    (ag_last s) s).

#[global] Instance varbind_eq_dec : EqDecision (tcl_list cstring).
Proof. solve_decision. Defined.
#[global] Instance varbinds_eq_dec : EqDecision varbinds.
Proof. solve_decision. Defined.

(** The element answers the request: same session, request and varbinds, and it is
    at most five seconds old. *)
Definition cache_match (now : Z) (session : AgentSession) (pdu : TnmSnmpPdu) (e : CacheElement) : bool :=
  bool_decide (pdu_requestId (ce_response e) = pdu_requestId pdu)
  && bool_decide (ce_session e = Some (as_address session))
  && negb (bool_decide (ce_timestamp e = 0) || bool_decide (5 < now - ce_timestamp e))
  && bool_decide (pdu_varbind pdu = ce_request e).

Fixpoint cache_find (now : Z) (session : AgentSession) (pdu : TnmSnmpPdu) (i : nat) (l : list CacheElement) : option nat :=
  match l with
  | [] => None
  | e :: l => if cache_match now session pdu e then Some i else cache_find now session pdu (S i) l
  end.

(** The index of the element, whose address is changed. *)
Definition CacheHit (session : AgentSession) (req : request) : AgentM (option nat) := fun s =>
  if bool_decide (pdu_requestId req.1 = 0) then AOk None s
  else match cache_find (ag_clock s) session req.1 0 (ag_cache s) with
       | None => AOk None s
       | Some i =>
           AOk (Some i) (with_cache (alter (fun e => mkCache (ce_session e) (ce_request e) (ce_response e) req.2 (ce_timestamp e))
                                       i (ag_cache s)) (ag_last s) s)
       end.

Definition CacheClear (session : AgentSession) : AgentM unit := agent_do (fun s =>
  with_cache (map (fun e => if bool_decide (ce_session e = Some (as_address session))
                            then mkCache (ce_session e) (ce_request e) (ce_response e) (ce_addr e) 0 else e) (ag_cache s))
    (ag_last s) s).

(** ** Requests *)

(** [TnmSnmpSend] *)
Definition TnmSnmpSend (to : sockaddr) (packet : list Z) : AgentM tcl_code :=
  match sendto_error to packet with
  | Some msg => _ ← Tcl_AppendResult (cstr "sendto failed: " ++ msg); mret TCL_ERROR
  | None =>
      _ ← count snmpOutPkts;
      _ ← agent_do (fun s => with_sent (ag_sent s ++ [(to, packet)]) s);
      mret TCL_OK
  end.

(** [TnmSnmpEncode] for a response: the code and the PDU as it was changed. *)
Definition encode_response (session : AgentSession) (rsp : request) : AgentM (tcl_code * TnmSnmpPdu) := fun s =>
  let finish es := with_stats (es_stats es) (with_result (es_result es) s) in
  match TnmSnmpEncode_packet usm_buffer (as_snmp session) rsp.1 (ag_result s) (ag_stats s) with
  | EFault _ => AFault OutsideArray
  | ENull es => AOk (TCL_ERROR, v1_pdu (as_snmp session) rsp.1) (finish es)
  | EOk (pdu, None) es => AOk (TCL_ERROR, pdu) (finish es)
  | EOk (pdu, Some packet) es =>
      (_ ← TnmSnmpEvalBinding session (pdu, rsp.2) TNM_SNMP_SEND_EVENT;
       code ← TnmSnmpSend rsp.2 packet;
       match code with
       | TCL_OK => _ ← Tcl_ResetResult; mret (TCL_OK, pdu)
       | TCL_ERROR => mret (TCL_ERROR, pdu)
       end) (finish es)
  end.

(** [switch (pdu->type)] *)
Definition count_request (type : Z) : AgentM unit :=
  if bool_decide (type = ASN1_SNMP_GET) then count snmpInGetRequests
  else if bool_decide (type = ASN1_SNMP_GETNEXT) then count snmpInGetNexts
  else if bool_decide (type = ASN1_SNMP_SET) then count snmpInSetRequests
  else mret tt.

(** The reply with the varbinds of the request after an error. *)
Definition reply_pdu (reply : TnmSnmpPdu) (pdu : TnmSnmpPdu) (r : response) : TnmSnmpPdu :=
  mkPdu ASN1_SNMP_RESPONSE (pdu_requestId pdu) (rs_status r) (rs_index r) (pdu_trapOID reply) (pdu_context reply)
    (pdu_engineID reply)
    (if bool_decide (rs_status r <> TNM_SNMP_NOERROR) then pdu_varbind pdu else rs_varbind r).

(** The reply that is sent when the first one could not be. *)
Definition generr_pdu (reply pdu : TnmSnmpPdu) : TnmSnmpPdu :=
  mkPdu (pdu_type reply) (pdu_requestId reply) TNM_SNMP_GENERR (pdu_errorIndex reply) (pdu_trapOID reply)
    (pdu_context reply) (pdu_engineID reply) (pdu_varbind pdu).

(** A request that is not in the cache. *)
Definition answer_request (session : AgentSession) (req : request) : AgentM tcl_code :=
  let '(pdu, addr) := req in
  _ ← TnmSnmpEvalBinding session req TNM_SNMP_BEGIN_EVENT;
  '(i, reply) ← CacheGet session req;
  r ← (if bool_decide (pdu_type pdu = ASN1_SNMP_SET) then SetRequest session req else GetRequest session req);
  match r with
  | None => mret TCL_ERROR
  | Some r =>
      let reply := reply_pdu reply pdu r in
      _ ← cache_store i reply;
      _ ← TnmSnmpEvalBinding session (reply, addr) TNM_SNMP_END_EVENT;
      '(code, reply) ← encode_response session (reply, addr);
      _ ← cache_store i reply;
      match code with
      | TCL_OK => mret TCL_OK
      | TCL_ERROR =>
          _ ← Tcl_GetStringResult;
          _ ← Tcl_ResetResult;
          let reply := generr_pdu reply pdu in
          '(code, reply) ← encode_response session (reply, addr);
          _ ← cache_store i reply;
          mret code
      end
  end.

Definition TnmSnmpAgentRequest (session : AgentSession) (req : request) : AgentM tcl_code :=
  let '(pdu, addr) := req in
  _ ← count_request (pdu_type pdu);
  _ ← (if bool_decide (pdu_type pdu = ASN1_SNMP_SET) then CacheClear session else mret tt);
  hit ← CacheHit session req;
  match hit with
  | Some i =>
      s ← agent_get;
      e ← need OutsideArray (ag_cache s !! i);
      '(code, reply) ← encode_response session (ce_response e, addr);
      _ ← cache_store i reply;
      mret code
  | None => answer_request session req
  end.

(** ** The start of the agent *)

(** [statTable] *)
Definition statTable : list (cstring * counter) :=
  [(cstr "snmpInPkts.0", snmpInPkts); (cstr "snmpOutPkts.0", snmpOutPkts);
   (cstr "snmpInBadVersions.0", snmpInBadVersions); (cstr "snmpInBadCommunityNames.0", snmpInBadCommunityNames);
   (cstr "snmpInBadCommunityUses.0", snmpInBadCommunityUses); (cstr "snmpInASNParseErrs.0", snmpInASNParseErrs);
   (cstr "snmpInTooBigs.0", snmpInTooBigs); (cstr "snmpInNoSuchNames.0", snmpInNoSuchNames);
   (cstr "snmpInBadValues.0", snmpInBadValues); (cstr "snmpInReadOnlys.0", snmpInReadOnlys);
   (cstr "snmpInGenErrs.0", snmpInGenErrs); (cstr "snmpInTotalReqVars.0", snmpInTotalReqVars);
   (cstr "snmpInTotalSetVars.0", snmpInTotalSetVars); (cstr "snmpInGetRequests.0", snmpInGetRequests);
   (cstr "snmpInGetNexts.0", snmpInGetNexts); (cstr "snmpInSetRequests.0", snmpInSetRequests);
   (cstr "snmpInGetResponses.0", snmpInGetResponses); (cstr "snmpInTraps.0", snmpInTraps);
   (cstr "snmpOutTooBigs.0", snmpOutTooBigs); (cstr "snmpOutNoSuchNames.0", snmpOutNoSuchNames);
   (cstr "snmpOutBadValues.0", snmpOutBadValues); (cstr "snmpOutGenErrs.0", snmpOutGenErrs);
   (cstr "snmpOutGetRequests.0", snmpOutGetRequests); (cstr "snmpOutGetNexts.0", snmpOutGetNexts);
   (cstr "snmpOutSetRequests.0", snmpOutSetRequests); (cstr "snmpOutGetResponses.0", snmpOutGetResponses);
   (cstr "snmpOutTraps.0", snmpOutTraps); (cstr "snmpStatsPackets.0", snmpStatsPackets);
   (cstr "snmpStats30Something.0", snmpStats30Something);
   (cstr "snmpStatsUnknownDstParties.0", snmpStatsUnknownDstParties);
   (cstr "snmpStatsDstPartyMismatches.0", snmpStatsDstPartyMismatches);
   (cstr "snmpStatsUnknownSrcParties.0", snmpStatsUnknownSrcParties);
   (cstr "snmpStatsBadAuths.0", snmpStatsBadAuths); (cstr "snmpStatsNotInLifetimes.0", snmpStatsNotInLifetimes);
   (cstr "snmpStatsWrongDigestValues.0", snmpStatsWrongDigestValues);
   (cstr "snmpStatsUnknownContexts.0", snmpStatsUnknownContexts);
   (cstr "snmpStatsBadOperations.0", snmpStatsBadOperations); (cstr "snmpStatsSilentDrops.0", snmpStatsSilentDrops);
   (cstr "snmpV1BadCommunityNames.0", snmpInBadCommunityNames);
   (cstr "snmpV1BadCommunityUses.0", snmpInBadCommunityUses)].

Definition stat_var (name : cstring) : cstring := cstr "tnm_snmp(" ++ name ++ cstr ")".

(** [for (p = statTable; p->name; p++)] *)
Fixpoint register_stats (table : list (cstring * counter)) : AgentM unit :=
  match table with
  | [] => mret tt
  | (name, c) :: table =>
      _ ← TnmSnmpCreateNode name (stat_var name) (Some (cstr "0"));
      _ ← Tcl_TraceRead (stat_var name) (TraceUnsignedInt c);
      register_stats table
  end.

(** The instances of the agent; [sysDescr] is made of the version and the
    architecture.  [TnmSnmpResponderOpen] was successful. *)
Definition agent_instances (sysDescr : cstring) : AgentM tcl_code :=
  let create label var value := TnmSnmpCreateNode (cstr label) (cstr var) (Some value) in
  _ ← CacheInit;
  _ ← create "sysDescr.0" "tnm_system(sysDescr)" sysDescr;
  _ ← create "sysObjectID.0" "tnm_system(sysObjectID)" (cstr "1.3.6.1.4.1.1575.1.1");
  _ ← create "sysUpTime.0" "tnm_system(sysUpTime)" (cstr "0");
  _ ← Tcl_TraceRead (cstr "tnm_system(sysUpTime)") TraceSysUpTime;
  _ ← create "sysContact.0" "tnm_system(sysContact)" [];
  _ ← create "sysName.0" "tnm_system(sysName)" [];
  _ ← create "sysLocation.0" "tnm_system(sysLocation)" [];
  _ ← create "sysServices.0" "tnm_system(sysServices)" (cstr "72");
  _ ← register_stats statTable;
  _ ← Tcl_ResetResult;
  mret TCL_OK.

(** [strcpy(buffer, "Tnm SNMP agent")] and what follows. *)
Definition sys_descr (version arch : option cstring) : cstring :=
  cstr "Tnm SNMP agent"
  ++ match version with Some v => cstr " version " ++ v | None => [] end
  ++ match arch with Some a => cstr " (" ++ a ++ cstr ")" | None => [] end.

(** The engine identifier of the session: the enterprise number, 4 and a text. *)
Definition agent_engineID : list Z := [0; 0; 6; 39; 4] ++ cstr "smile:)".

(** ** Delivery of messages *)

(** The binding of an event of a session. *)
Definition event_command (session : AgentSession) (event : Z) : option cstring :=
  find_binding event (as_bindings session) ≫= bind_command.

(** A notification: the command bound to it is evaluated with the PDU. *)
Definition notify (session : AgentSession) (req : request) (cmd : cstring) : AgentM unit :=
  _ ← TnmSnmpEvalBinding session req TNM_SNMP_RECV_EVENT;
  _ ← TnmSnmpEvalCallback (mkCallback (as_token session) req.1 req.2 None None None None) cmd;
  mret tt.

Definition set_type (type : Z) (pdu : TnmSnmpPdu) : TnmSnmpPdu :=
  mkPdu type (pdu_requestId pdu) (pdu_errorStatus pdu) (pdu_errorIndex pdu) (pdu_trapOID pdu) (pdu_context pdu)
    (pdu_engineID pdu) (pdu_varbind pdu).

(** The body of the loop over the sessions at the end of [TnmSnmpDecode]: the code,
    the PDU, whose type changes when an inform request was answered, and whether it
    was delivered. *)
Definition deliver_one (session : AgentSession) (msg : Message) (req : request) : AgentM (tcl_code * TnmSnmpPdu * bool) :=
  let '(pdu, addr) := req in
  let version := ss_version (as_snmp session) in
  let authentic := Authentic (as_snmp session) msg pdu in
  let type := pdu_type pdu in
  let trap cond :=
    match event_command session TNM_SNMP_TRAP_EVENT with
    | Some cmd =>
        if cond && bool_decide (as_type session = TNM_SNMP_LISTENER) && authentic
        then _ ← notify session req cmd; _ ← count snmpInTraps; mret (TCL_OK, pdu, true)
        else mret (TCL_OK, pdu, false)
    | None => mret (TCL_OK, pdu, false)
    end in
  if bool_decide (version <> msg_version msg) then mret (TCL_OK, pdu, false)
  else if bool_decide (type = ASN1_SNMP_TRAP1) then trap (bool_decide (version = TNM_SNMPv1))
  else if bool_decide (type = ASN1_SNMP_TRAP2) then trap (bool_decide (Z.land version TNM_SNMPv2 <> 0))
  else if bool_decide (type = ASN1_SNMP_INFORM) then
    match event_command session TNM_SNMP_INFORM_EVENT with
    | Some cmd =>
        if bool_decide (Z.land version TNM_SNMPv2 <> 0) && authentic then
          _ ← notify session req cmd;
          '(code, pdu) ← encode_response session (set_type ASN1_SNMP_RESPONSE pdu, addr);
          mret (code, pdu, true)
        else mret (TCL_OK, pdu, false)
    | None => mret (TCL_OK, pdu, false)
    end
  else if bool_decide (type ∈ [ASN1_SNMP_GETBULK; ASN1_SNMP_GET; ASN1_SNMP_GETNEXT; ASN1_SNMP_SET]) then
    if (bool_decide (type = ASN1_SNMP_GETBULK) && bool_decide (version = TNM_SNMPv1))
       || bool_decide (as_type session <> TNM_SNMP_RESPONDER) then mret (TCL_OK, pdu, false)
    else if authentic then
      _ ← TnmSnmpEvalBinding session req TNM_SNMP_RECV_EVENT;
      code ← TnmSnmpAgentRequest session req;
      mret (code, pdu, true)
    else mret (TCL_OK, pdu, false)
  else mret (TCL_OK, pdu, false).

(** [for (session = tnmSnmpList; session; session = session->nextPtr)] *)
Fixpoint deliver (sessions : list AgentSession) (msg : Message) (req : request) (delivered : bool) : AgentM (tcl_code * bool) :=
  match sessions with
  | [] => mret (TCL_OK, delivered)
  | session :: sessions =>
      '(code, pdu, d) ← deliver_one session msg req;
      match code with
      | TCL_ERROR => mret (TCL_ERROR, delivered || d)
      | TCL_OK => deliver sessions msg (pdu, req.2) (delivered || d)
      end
  end.

(** What [TnmSnmpDecode] does with a packet that is neither a response nor a
    report: [Delivered TCL_OK] is its [return TCL_CONTINUE] behind the loop. *)
Inductive received :=
  | Undecodable (text : BerError)
  | NotRequest (msg : Message) (pdu : TnmSnmpPdu)
  | Delivered (code : tcl_code).

Definition TnmSnmpDecode (sessions : list AgentSession) (packet : list Z) (from : sockaddr) (uninit : TnmSnmpPdu)
    : AgentM received :=
  _ ← count snmpInPkts;
  s ← agent_get;
  let '(d, stats) := DecodeMessage TNM_OID_MAX_SIZE msg_zero uninit (ag_stats s)
                       (TnmBerCreate packet (Z.of_nat (length packet))) in
  _ ← agent_do (with_stats stats);
  match d with
  | DecFault _ => agent_fail OutsideArray
  | DecError text => mret (Undecodable text)
  | DecOk msg pdu =>
      if (bool_decide (msg_version msg = TNM_SNMPv3) && bool_decide (pdu_type pdu = ASN1_SNMP_REPORT))
         || bool_decide (pdu_type pdu = ASN1_SNMP_RESPONSE) then mret (NotRequest msg pdu)
      else
        '(code, delivered) ← deliver sessions msg (pdu, from) false;
        match code with
        | TCL_ERROR => mret (Delivered TCL_ERROR)
        | TCL_OK =>
            _ ← (if negb delivered && bool_decide (msg_version msg = TNM_SNMPv1)
                 then count snmpInBadCommunityNames else mret tt);
            mret (Delivered TCL_OK)
        end
  end.
End agent.
