(* ===== verification/AgentTree.v ===== *)
(** The tree of instances as the agent uses it: a map from identifiers to nodes,
    what creating an instance and unsetting a variable do to this map. *)

From stdpp Require Import gmap sorting.
From S2P Require Import Prelude Ber CStr Oid OidTheorems Inst InstTheorems.
Local Open Scope Z_scope.

(** ** The map of a tree *)

Definition inst_map (root : option TnmSnmpNode) (o : list Z) : option node := nd_of <$> FindInstance root o.

(** The variable of the node with an identifier. *)
Definition node_var (root : option TnmSnmpNode) (o : list Z) : option cstring :=
  q ← FindNode root o; nd_tclVarName (nd_of q).

(** Only instances have variables. *)
Definition vars_ok (root : option TnmSnmpNode) : Prop :=
  forall o v, node_var root o = Some v -> is_Some (inst_map root o).

Lemma inst_map_some root o nd : inst_ok root -> inst_map root o = Some nd <-> (o, nd) ∈ all_instances root.
Proof.
  intros Hok. rewrite find_instance_in by done. unfold inst_map. rewrite fmap_Some. split; intros (n & ? & ?); eauto.
Qed.

Lemma inst_map_node root o nd : inst_map root o = Some nd -> exists q, FindNode root o = Some q /\ nd_of q = nd.
Proof.
  unfold inst_map. rewrite fmap_Some. intros (q & (? & _)%find_instance_some & ->). eauto.
Qed.

Lemma inst_map_var root o nd : inst_map root o = Some nd -> node_var root o = nd_tclVarName nd.
Proof. intros (q & Hq & <-)%inst_map_node. unfold node_var. by rewrite Hq. Qed.

Lemma find_node_tree t y r : FindNode (Some t) (1 :: y :: r) = find_path t (y :: r).
Proof. unfold FindNode. rewrite bool_decide_eq_false_2 by (cbn; auto). done. Qed.

Lemma node_var_tree t o :
  node_var (Some t) o = match o with 1 :: y :: r => var_at t (y :: r) | _ => None end.
Proof.
  unfold node_var, var_at, node_at. destruct (oid_cases o) as [(y & r & ->)|Hn].
  - rewrite find_node_tree. by destruct (find_path t (y :: r)).
  - destruct (FindNode (Some t) o) as [q|] eqn:E.
    + apply find_node_some in E as (? & y & r & _ & -> & _). by destruct (Hn y r eq_refl).
    + destruct o as [|[|[| |]|] [|y r]]; try done. by destruct (Hn y r eq_refl).
Qed.

Lemma node_var_root root o : node_var (Some (default new_root root)) o = node_var root o.
Proof.
  destruct root as [t|]; [done|]. unfold node_var. destruct (inst_ok_root None I) as (_ & _ & _ & _ & Hn).
  cbn [default] in *. by rewrite Hn.
Qed.

(** ** Creating an instance *)

Lemma add_node_vars root oid offset syntax access var root' p : inst_ok root -> inst_oid oid ->
  AddNode root (dotted oid) offset syntax access var = Some (root', p) ->
  forall o, node_var root' o = if decide (o = oid) then var else node_var root o.
Proof.
  intros Hok Hoid. pose proof Hoid as (Hval & H1 & _). pose proof Hval as (Hlen & _).
  destruct (inst_ok_root root Hok) as (Ho & _).
  destruct oid as [|x [|y oid]]; [simpl in Hlen; lia..|]. simpl in H1. subst x.
  rewrite add_node_path by done. set (full := 1 :: y :: oid) in *.
  destruct (add_path_spec (full ++ replicate (TNM_OID_MAX_SIZE - length full) 0) offset
    (set_fields (dotted full) offset syntax access var) ltac:(done) (y :: oid) 1 (default new_root root) Ho)
    as (t' & -> & _ & _ & _ & (nd & _ & Hat & _) & Hrest).
  { intros j Hj. apply inst_oid_strings; [done|]. simpl in *. lia. }
  cbn [mbind option_bind]. intros [= <- _] o. rewrite <- (node_var_root root), !node_var_tree.
  destruct (decide (o = full)) as [->|Hne]; [unfold full, var_at; cbn [drop]; by rewrite Hat|].
  destruct o as [|[|[| |]|] [|z r]]; try done. cbn [drop]. apply Hrest. intros [= -> ->]. by apply Hne.
Qed.

Lemma bindings_at_cases root o : bindings_at (Some (default new_root root)) o = bindings_at root o.
Proof.
  destruct root as [t|]; [done|]. unfold bindings_at. destruct (inst_ok_root None I) as (_ & _ & _ & _ & Hn).
  cbn [default] in *. by rewrite Hn.
Qed.

(** The bindings stay. *)
Lemma add_node_bindings root oid offset syntax access var root' p : inst_ok root -> inst_oid oid ->
  AddNode root (dotted oid) offset syntax access var = Some (root', p) ->
  forall o, bindings_at root' o = bindings_at root o.
Proof.
  intros Hok Hoid. pose proof Hoid as (Hval & H1 & _). pose proof Hval as (Hlen & _).
  destruct (inst_ok_root root Hok) as (Ho & _).
  destruct oid as [|x [|y oid]]; [simpl in Hlen; lia..|]. simpl in H1. subst x.
  rewrite add_node_path by done. set (full := 1 :: y :: oid) in *.
  destruct (add_path_spec (full ++ replicate (TNM_OID_MAX_SIZE - length full) 0) offset
    (set_fields (dotted full) offset syntax access var) ltac:(done) (y :: oid) 1 (default new_root root) Ho)
    as (t' & -> & _ & _ & _ & (nd & Hfresh & Hat & _) & Hrest).
  { intros j Hj. apply inst_oid_strings; [done|]. simpl in *. lia. }
  cbn [mbind option_bind]. intros [= <- _] o. rewrite <- (bindings_at_cases root).
  destruct (oid_cases o) as [(z & r & ->)|Hn]; [|by rewrite !bindings_at_other].
  rewrite !bindings_at_tree. destruct (decide (z :: r = y :: oid)) as [->|Hne]; [|by apply Hrest].
  unfold binds. rewrite Hat. destruct Hfresh as [-> | [-> Hb]]; [done|]. cbn. by rewrite Hb.
Qed.

(** ** Unsetting a variable *)

Section remove.
Variable var : cstring.

(** A level with at most one node for the variable. *)
Lemma single_var cs (x : Z) : StronglySorted before cs -> (forall c, c ∈ cs -> has_var var c = true -> subid c = x) ->
  (length (filter (fun c => has_var var c = true) cs) <= 1)%nat.
Proof.
  intros Hs Hx. induction Hs as [|c cs Hs IH Hc]; [cbn; lia|]. rewrite filter_cons. case_decide as Hv.
  - cbn. enough (filter (fun c => has_var var c = true) cs = []) as -> by (cbn; lia).
    destruct (filter _ cs) as [|d l] eqn:E; [done|].
    assert (Hd : d ∈ filter (fun c => has_var var c = true) cs) by (rewrite E; left).
    apply list_elem_of_filter in Hd as [Hdv Hd]. rewrite Forall_forall in Hc. specialize (Hc d Hd). unfold before in Hc.
    rewrite (Hx c (list_elem_of_here _ _) Hv), (Hx d (list_elem_of_further _ _ _ Hd) Hdv) in Hc. lia.
  - apply IH. intros d Hd. apply Hx. by right.
Qed.

Lemma find_child_map x (f : TnmSnmpNode -> TnmSnmpNode) cs : (forall c, subid (f c) = subid c) ->
  find_child x (map f cs) = f <$> find_child x cs.
Proof. intros Hf. induction cs as [|c cs IH]; [done|]. cbn. rewrite Hf. by case_bool_decide. Qed.

Lemma find_child_filter x (P : TnmSnmpNode -> Prop) `{!forall c, Decision (P c)} cs : StronglySorted before cs ->
  find_child x (filter P cs) = c ← find_child x cs; if decide (P c) then Some c else None.
Proof.
  intros Hs. induction Hs as [|c cs Hs IH Hc]; [done|]. rewrite filter_cons. cbn [find_child].
  case_decide as HP; cbn [find_child]; case_bool_decide as Hx; try done.
  - cbn. by rewrite decide_True.
  - cbn [mbind option_bind]. rewrite decide_False by done. rewrite IH.
    destruct (find_child x cs) as [d|] eqn:E; [|done]. apply find_child_in in E as [Hd Hdx].
    rewrite Forall_forall in Hc. specialize (Hc d Hd). unfold before in Hc. lia.
Qed.

(** The node for the variable, when it is the only one, disappears with everything
    below it. *)
Lemma remove_below_prefix t : forall r0, ordered t -> r0 <> [] -> (forall r, var_at t r = Some var -> r = r0) ->
  forall r, node_at (remove_below var t) r = if decide (var_at t r0 = Some var /\ r0 `prefix_of` r) then None else node_at t r.
Proof.
  induction t as [nd cs IH] using node_tree_ind. intros r0 Ho Hne Hv r. apply ordered_children in Ho as [Hs Hf].
  cbn [children] in Hs, Hf. destruct r0 as [|x r0]; [done|]. rewrite remove_below_eq.
  assert (Hsub : forall c r, c ∈ cs -> var_at (Node nd cs) (subid c :: r) = var_at c r).
  { intros c r' Hc. rewrite var_at_cons. cbn [children]. by rewrite (find_child_ordered cs c Hs Hc). }
  assert (Hone : forall c, c ∈ cs -> has_var var c = true -> subid c = x /\ r0 = []).
  { intros c Hc Hh. unfold has_var in Hh. apply bool_decide_eq_true in Hh.
    assert (E : [subid c] = x :: r0) by (apply Hv; by rewrite Hsub). by injection E. }
  rewrite remove_children by (by eapply single_var; [|intros c Hc Hh; apply (Hone c Hc Hh)]).
  destruct r as [|y r].
  { rewrite decide_False; [done|]. by intros [_ [k Hk]]. }
  rewrite !node_at_cons. cbn [children]. rewrite find_child_map by apply remove_below_subid.
  rewrite find_child_filter by done.
  destruct (find_child y cs) as [c|] eqn:Ec; cbn [mbind option_bind fmap option_fmap option_map]; [|by case_decide].
  apply find_child_in in Ec as [Hc <-]. rewrite Forall_forall in IH, Hf.
  destruct (has_var var c) eqn:Hh.
  - rewrite decide_False by done. cbn [fmap option_fmap option_map]. destruct (Hone c Hc Hh) as [<- ->].
    rewrite decide_True; [done|]. split; [|by exists r]. rewrite Hsub by done.
    unfold has_var in Hh. by apply bool_decide_eq_true in Hh.
  - rewrite decide_True by done. cbn [fmap option_fmap option_map].
    assert (Hc0 : var_at c [] <> Some var) by (unfold has_var in Hh; by apply bool_decide_eq_false in Hh).
    destruct (decide (subid c = x /\ r0 <> [])) as [[<- Hr0]|Hno].
    + rewrite (IH c Hc r0) by (auto; intros r' Hr'; rewrite <- Hsub in Hr' by done; apply Hv in Hr'; congruence).
      rewrite Hsub by done. apply decide_ext. split; intros [? ?]; (split; [done|]); [by apply prefix_cons|by eapply prefix_cons_inv_2].
    + assert (Hnone : forall r', var_at c r' <> Some var).
      { intros r' Hr'. pose proof Hr' as Hr2. rewrite <- Hsub in Hr' by done. apply Hv in Hr'. injection Hr' as E ->.
        apply Hno. split; [done|]. intros ->. by apply Hc0. }
      rewrite (IH c Hc [0]) by (auto; intros r' Hr'; by apply Hnone in Hr').
      rewrite decide_False by (intros [? _]; by eapply Hnone). rewrite decide_False; [done|].
      intros [Hx [k [= <- ->]]]. rewrite Hsub in Hx by done. by eapply Hnone.
Qed.
End remove.

(** What [RemoveNode] does to the map: the instance of the variable disappears. *)
Lemma remove_node_map root var o0 : inst_ok root -> vars_ok root ->
  (forall o nd, inst_map root o = Some nd -> nd_tclVarName nd = Some var <-> o = o0) ->
  is_Some (inst_map root o0) ->
  (forall o, is_Some (inst_map root o) -> o0 `prefix_of` o -> o = o0) ->
  let root' := RemoveNode root var in
  inst_ok root' /\ vars_ok root' /\ (forall o, inst_map root' o = if decide (o = o0) then None else inst_map root o) /\
  forall o, bindings_at root' o = [] \/ bindings_at root' o = bindings_at root o.
Proof.
  intros Hok Hvars Hvar [nd0 Hnd0] Hpre root'.
  pose proof (proj1 (remove_node_spec root var Hok)) as Hok'. fold root' in Hok'. unfold root' in *. clear root'.
  rewrite remove_node_root in *. destruct root as [t|]; [|by unfold inst_map in Hnd0; rewrite find_instance_null in Hnd0].
  pose proof Hok as (Ho & H1 & [H0 Hv0] & _). cbn [fmap option_fmap option_map] in *.
  assert (Hv : forall r, var_at t r = Some var -> 1 :: r = o0).
  { intros r Hr. destruct r as [|y r]; [by cbn in Hr; rewrite Hv0 in Hr|].
    assert (E : node_var (Some t) (1 :: y :: r) = Some var) by (by rewrite node_var_tree).
    destruct (Hvars _ _ E) as [nd Hnd]. rewrite (inst_map_var _ _ _ Hnd) in E. by apply (Hvar _ _ Hnd). }
  assert (Ho0 : exists y r, o0 = 1 :: y :: r).
  { destruct (inst_map_node _ _ _ Hnd0) as (q & (? & y & r & _ & -> & _)%find_node_some & _). eauto. }
  destruct Ho0 as (y & r & ->).
  assert (Hat : var_at t (y :: r) = Some var).
  { rewrite <- (proj2 (Hvar _ _ Hnd0) eq_refl), <- (inst_map_var _ _ _ Hnd0). by rewrite node_var_tree. }
  pose proof (remove_below_prefix var t (y :: r) Ho ltac:(done) ltac:(intros r' Hr'; apply Hv in Hr'; congruence)) as Hrm.
  assert (Hnd : nd_syntax (nd_of (remove_below var t)) = 0) by (by rewrite remove_below_nd).
  assert (Hm : forall o, inst_map (Some (remove_below var t)) o = if decide (o = 1 :: y :: r) then None else inst_map (Some t) o).
  { intros o. unfold inst_map. rewrite !find_instance_at by done.
    destruct o as [|[|[| |]|] o]; try (by rewrite decide_False). unfold inst_at. rewrite Hrm.
    destruct (decide (var_at t (y :: r) = Some var /\ y :: r `prefix_of` o)) as [[_ Hp]|Hp].
    - destruct (decide (1 :: o = 1 :: y :: r)) as [|Hne]; [done|]. cbn.
      destruct (inst_map (Some t) (1 :: o)) as [nd|] eqn:E.
      + destruct Hne. apply Hpre; [by eexists|]. by apply prefix_cons.
      + unfold inst_map in E. rewrite find_instance_at in E by done. by unfold inst_at in E.
    - rewrite decide_False; [done|]. intros [= ->]. by apply Hp. }
  split; [done|]. split; [|split; [done|]].
  2: { intros o. destruct (oid_cases o) as [(z & o' & ->)|Hn]; [|left; by rewrite bindings_at_other].
       rewrite !bindings_at_tree. unfold binds. rewrite Hrm. destruct (decide _); [by left|by right]. }
  intros o v Hov.
  assert (E : node_var (Some t) o = Some v /\ o <> 1 :: y :: r).
  { rewrite node_var_tree in *. destruct o as [|[|[| |]|] [|z o]]; try done. cbn [drop] in *. unfold var_at in *.
    rewrite Hrm in Hov. case_decide as Hd; [done|]. split; [done|]. intros [= -> ->]. by apply Hd. }
  destruct E as [E Hne]. rewrite Hm, decide_False by done. by apply (Hvars _ _ E).
Qed.

(** What [AddNode] does to the map. *)
Lemma add_node_map root oid offset syntax access var : inst_ok root -> vars_ok root -> inst_oid oid -> syntax <> 0 ->
  exists root' bindings, AddNode root (dotted oid) offset syntax access (Some var) = Some (root', Some oid) /\
    inst_ok root' /\ vars_ok root' /\ (forall o, bindings_at root' o = bindings_at root o) /\
    forall o, inst_map root' o =
      if decide (o = oid) then Some (mkNode (dotted oid) offset syntax access (Some var) bindings (List.last oid 1))
      else inst_map root o.
Proof.
  intros Hok Hv Hoid Hs. destruct (add_node_spec root oid offset syntax access (Some var) Hok Hoid) as (root' & E & Hok' & Hm).
  exists root', (bindings_at root oid). split; [done|]. split; [done|].
  assert (Hm' : forall o, inst_map root' o = if decide (o = oid) then
    Some (mkNode (dotted oid) offset syntax access (Some var) (bindings_at root oid) (List.last oid 1)) else inst_map root o).
  { intros o. unfold inst_map. rewrite Hm. case_decide; [|done]. by rewrite decide_False. }
  split; [|split; [by eapply add_node_bindings|done]]. intros o v Ho. rewrite (add_node_vars _ _ _ _ _ _ _ _ Hok Hoid E) in Ho. rewrite Hm'.
  case_decide; [by eexists|]. by apply (Hv _ _ Ho).
Qed.
