(* ===== verification/AgentInv.v ===== *)
(** What the operations of the agent keep: scripts that only look at the agent change
    nothing but the result of the interpreter, and pointers to instances are good as long
    as the tree does not change.  Get requests are answered from the map of instances and
    the variables.  At the end a small agent: the name of the system can be written, its
    location can be created, and scripts do nothing. *)

From stdpp Require Import gmap.
From S2P Require Import Prelude Ber BerSpec CStr Oid OidTheorems Util Snmp SnmpEnc SnmpSpec SnmpDec SnmpTheorems Inst InstTheorems Callback Mib Agent AgentTree.
Local Open Scope Z_scope.

(** * What operations keep *)

(** The result of the interpreter is a text. *)
Definition text (s : AgentState) : Prop := exists t, ag_result s = ResText t.

(** Everything but the result and the record of scripts. *)
Record frame (s s' : AgentState) : Prop := {
  fr_tree : ag_tree s' = ag_tree s;
  fr_lost : ag_lost s' = ag_lost s;
  fr_vars : ag_vars s' = ag_vars s;
  fr_stats : ag_stats s' = ag_stats s;
  fr_cache : ag_cache s' = ag_cache s;
  fr_last : ag_last s' = ag_last s;
  fr_clock : ag_clock s' = ag_clock s;
  fr_sent : ag_sent s' = ag_sent s;
  fr_text : text s -> text s'
}.

#[global] Instance frame_refl : Reflexive frame.
Proof. intros s. by constructor. Qed.
#[global] Instance frame_trans : Transitive frame.
Proof. intros s1 s2 s3 [] []. constructor; try congruence. auto. Qed.

(** The same up to the statistics. *)
Record stat_frame (s s' : AgentState) : Prop := {
  sf_tree : ag_tree s' = ag_tree s;
  sf_lost : ag_lost s' = ag_lost s;
  sf_vars : ag_vars s' = ag_vars s;
  sf_cache : ag_cache s' = ag_cache s;
  sf_last : ag_last s' = ag_last s;
  sf_clock : ag_clock s' = ag_clock s;
  sf_sent : ag_sent s' = ag_sent s;
  sf_text : text s -> text s'
}.

#[global] Instance stat_frame_refl : Reflexive stat_frame.
Proof. intros s. by constructor. Qed.
#[global] Instance stat_frame_trans : Transitive stat_frame.
Proof. intros s1 s2 s3 [] []. constructor; try congruence. auto. Qed.
Lemma frame_stat s s' : frame s s' -> stat_frame s s'.
Proof. intros []. by constructor. Qed.

(** The instances and the variables. *)
Record core (s s' : AgentState) : Prop := {
  co_tree : ag_tree s' = ag_tree s;
  co_lost : ag_lost s' = ag_lost s;
  co_vars : ag_vars s' = ag_vars s;
  co_text : text s -> text s'
}.

#[global] Instance core_refl : Reflexive core.
Proof. intros s. by constructor. Qed.
#[global] Instance core_trans : Transitive core.
Proof. intros s1 s2 s3 [] []. constructor; try congruence. auto. Qed.
Lemma stat_core s s' : stat_frame s s' -> core s s'.
Proof. intros []. by constructor. Qed.
Lemma frame_core s s' : frame s s' -> core s s'.
Proof. intros []. by constructor. Qed.
Create HintDb agent.
#[export] Hint Resolve frame_stat stat_core frame_core : agent.

Lemma agent_bind_ok {A B} (m : AgentM A) (k : A -> AgentM B) s a s' : m s = AOk a s' -> (m ≫= k) s = k a s'.
Proof. unfold mbind, AgentM_bind. by intros ->. Qed.

Lemma agent_ret_bind {A B} (a : A) (k : A -> AgentM B) s : ((mret a : AgentM A) ≫= k) s = k a s.
Proof. done. Qed.

Section laws.
Context `{!SnmpEnv, !AgentEnv}.

(** Scripts that do nothing to the agent, and a property of their codes. *)
Definition quiet (Q : eval_code -> Prop) : Prop :=
  forall script s, (Tcl_GlobalEval script s).2 = [] /\ Q (Tcl_GlobalEval script s).1.1.

(** A command the scan does not leave. *)
Definition cmd_ok (cmd : cstring) : Prop := forall cb, is_Some (expand varbind_string cb cmd).
Definition bindings_ok (bs : list TnmSnmpBinding) : Prop :=
  Forall (fun b => forall cmd, bind_command b = Some cmd -> cmd_ok cmd) bs.
Definition cmds_ok (root : option TnmSnmpNode) : Prop := forall o, bindings_ok (bindings_at root o).

Lemma find_binding_ok event bs b cmd : bindings_ok bs -> find_binding event bs = Some b -> bind_command b = Some cmd -> cmd_ok cmd.
Proof.
  induction 1 as [|b' bs Hb _ IH]; [done|]. cbn. case_bool_decide; [|done]. intros [= ->]. apply Hb.
Qed.

Section quiet.
Context (Q : eval_code -> Prop) (Hquiet : quiet Q).

Lemma eval_callback_quiet cb cmd s : cmd_ok cmd -> exists code s', TnmSnmpEvalCallback cb cmd s = AOk code s' /\ frame s s' /\ text s' /\ Q code.
Proof using Hquiet.
  intros Hcmd. destruct (Hcmd cb) as [script E]. unfold TnmSnmpEvalCallback. rewrite E.
  destruct (Hquiet script s) as [Ha Hq]. destruct (Tcl_GlobalEval script s) as [[code result] acts] eqn:Ee. cbn in Ha, Hq. subst acts.
  exists code. eexists. split; [|split; [|split; [|exact Hq]]].
  - transitivity (eval_script script s); [done|]. unfold eval_script. rewrite Ee. reflexivity.
  - constructor; try done. by eexists.
  - by eexists.
Qed.

Lemma eval_binding_quiet session req event s : bindings_ok (as_bindings session) -> Q EVAL_OK ->
  exists code s', TnmSnmpEvalBinding session req event s = AOk code s' /\ frame s s' /\ Q code.
Proof using Hquiet.
  intros Hb HQ. unfold TnmSnmpEvalBinding. destruct (find_binding _ _) as [[ev [cmd|]]|] eqn:E; try by exists EVAL_OK, s.
  destruct (eval_callback_quiet (mkCallback (as_token session) req.1 req.2 None None None None) cmd s)
    as (code & s' & ? & ? & _ & ?); [|by exists code, s'].
  by eapply find_binding_ok.
Qed.

Lemma eval_up_quiet session req event oid instOid value old len : forall code s, cmds_ok (ag_tree s) -> Q code ->
  exists code' s', eval_up session req event oid instOid value old len code s = AOk code' s' /\ frame s s' /\ Q code'.
Proof using Hquiet.
  induction len as [|n IH]; intros code s Hc Hq; [by exists code, s|]. cbn [eval_up].
  rewrite (agent_bind_ok _ _ _ s s) by done.
  destruct (FindNode (ag_tree s) (take (S n) oid)) as [q|] eqn:Eq; [|by apply IH].
  destruct (find_binding event (nd_bindings (nd_of q))) as [[ev [cmd|]]|] eqn:Eb; [|by apply IH|by apply IH].
  destruct (eval_callback_quiet (mkCallback (as_token session) (no_error req.1) req.2 (Some (nd_label (nd_of q)))
    (Some instOid) value old) cmd s) as (code' & s' & E & Hf & _ & Hq').
  { specialize (Hc (take (S n) oid)). unfold bindings_at in Hc. rewrite Eq in Hc. by eapply find_binding_ok. }
  rewrite (agent_bind_ok _ _ _ _ _ E), (agent_bind_ok _ _ _ s' s') by done.
  rewrite (fr_tree _ _ Hf), Eq, (bool_decide_eq_false_2 (Some q = None)), andb_false_r by done.
  destruct (_ || _); [by exists code', s'|].
  destruct (IH code' s') as (c2 & s2 & ? & ? & ?); [by rewrite (fr_tree _ _ Hf)|done|].
  exists c2, s2. split; [done|]. split; [by transitivity s'|done].
Qed.

Lemma oid_from_string_total str s : exists oid, oid_from_string str s = AOk oid s.
Proof.
  unfold oid_from_string. destruct (TnmOidFromString_safe TnmOidInit str) as (c & o & -> & _). eexists. done.
Qed.

Lemma oid_from_string_dotted oid s : oid_value oid -> oid_from_string (dotted oid) s = AOk oid s.
Proof.
  intros Hv. unfold oid_from_string. destruct (TnmOidFromString_dotted TnmOidInit oid Hv) as (o & -> & _ & <-). done.
Qed.

Lemma eval_node_quiet session req inst event value old s nd : deref inst s = AOk nd s -> cmds_ok (ag_tree s) -> Q EVAL_OK ->
  exists code s', TnmSnmpEvalNodeBinding session req inst event value old s = AOk code s' /\ frame s s' /\ Q code.
Proof using Hquiet.
  intros Hd Hc HQ. unfold TnmSnmpEvalNodeBinding. rewrite (agent_bind_ok _ _ _ _ _ Hd).
  destruct (oid_from_string_total (nd_label nd) s) as [oid E]. rewrite (agent_bind_ok _ _ _ _ _ E). by apply eval_up_quiet.
Qed.
End quiet.

(** ** Pointers *)

(** The instance a request for an identifier is answered with. *)
Definition served (root : option TnmSnmpNode) (next : bool) (oid : list Z) : option (list Z * node) :=
  if next then head (after oid (all_instances root)) else pair oid <$> inst_map root oid.

Definition ptr_to (s : AgentState) (o : list Z) : inst_ptr := mkPtr o (length (ag_lost s)).

Lemma served_inst root next oid i : inst_ok root -> served root next oid = Some i -> inst_map root i.1 = Some i.2.
Proof.
  intros Hok. destruct next; cbn.
  - intros (Hi & _)%after_least; [|by apply all_instances_sorted]. apply inst_map_some; [done|]. by destruct i.
  - destruct (inst_map root oid) as [nd|] eqn:E; [|done]. by intros [= <-].
Qed.

Lemma find_instance_served next oid s : inst_ok (ag_tree s) ->
  find_instance next oid s = AOk ((fun i => ptr_to s i.1) <$> served (ag_tree s) next oid) s.
Proof.
  intros Hok. unfold find_instance. destruct next; cbn [served].
  - pose proof (find_next_first (ag_tree s) oid Hok) as Hf.
    destruct (FindNextInstance (ag_tree s) oid) as [n|]; [|by rewrite Hf].
    destruct Hf as [o Ho]. rewrite Ho. cbn.
    assert (Hi : (o, nd_of n) ∈ all_instances (ag_tree s)) by (apply after_least in Ho as [? _]; [done|by apply all_instances_sorted]).
    apply (instances_syntax _ _ Hok) in Hi as [_ Hl]. cbn in Hl. unfold label_oid in Hl.
    destruct (TnmStrToOid (nd_label (nd_of n))) as [[v m]|]; [|done]. cbn in *. by injection Hl as ->.
  - unfold inst_map. by destruct (FindInstance (ag_tree s) oid).
Qed.

Lemma deref_inst s o nd : inst_map (ag_tree s) o = Some nd -> deref (ptr_to s o) s = AOk nd s.
Proof.
  intros (q & Hq & <-)%inst_map_node. unfold deref, ptr_to. cbn [ip_path ip_stamp].
  rewrite drop_all, bool_decide_eq_false_2 by (by intros ?%elem_of_nil). by rewrite Hq.
Qed.

(** A pointer survives what leaves the tree alone. *)
Lemma deref_same s s' o nd : ag_tree s' = ag_tree s -> ag_lost s' = ag_lost s -> inst_map (ag_tree s) o = Some nd ->
  deref (ptr_to s o) s' = AOk nd s'.
Proof.
  intros Et El Hm. replace (ptr_to s o) with (ptr_to s' o) by (unfold ptr_to; by rewrite El).
  apply deref_inst. by rewrite Et.
Qed.

(** ** Variables *)

(** A variable with a value and without read traces. *)
Definition plain (s : AgentState) (name value : cstring) : Prop :=
  exists n, ag_vars s !! name = Some (mkVar (Some value) n []).

Lemma get_var_plain s name value : plain s name value -> Tcl_GetVar name s = AOk (Some value) s.
Proof.
  intros [n Hn]. unfold Tcl_GetVar.
  assert (E : alter (run_reads s) name (ag_vars s) = ag_vars s).
  { apply map_eq. intros k. destruct (decide (k = name)) as [->|Hk]; [by rewrite lookup_alter_eq, Hn|by rewrite lookup_alter_ne]. }
  rewrite E. replace (with_vars (ag_vars s) s) with s by (by destruct s). by rewrite Hn.
Qed.

(** ** The invariant of the agent *)

Record agent_ok (s : AgentState) : Prop := {
  ok_tree : inst_ok (ag_tree s);
  ok_vars : vars_ok (ag_tree s);
  ok_cmds : cmds_ok (ag_tree s);
  ok_named : forall o nd, inst_map (ag_tree s) o = Some nd -> is_Some (nd_tclVarName nd);
  ok_text : text s
}.

Lemma agent_ok_core s s' : core s s' -> agent_ok s -> agent_ok s'.
Proof. intros [Et _ _ Ht] [? ? ? ? ?]. constructor; rewrite ?Et; auto. Qed.
End laws.

(** * Get requests *)

(** An identifier whose dotted notation fits its buffer. *)
Definition request_oid (oid : list Z) : Prop := oid_value oid /\ (length (dotted oid) < OID_STR_SIZE)%nat.
#[global] Instance request_oid_dec oid : Decision (request_oid oid).
Proof. unfold request_oid. apply _. Defined.

(** A varbind of a request: an identifier, a type and a value. *)
Definition asks (oid : list Z) (vb : tcl_list cstring) : Prop :=
  exists type value ws, vb = TclList (dotted oid :: type :: value :: ws).

Section get.
Context `{!SnmpEnv, !AgentEnv}.
Context (session : AgentSession) (req : request).

Notation type := (pdu_type req.1).
Notation version := (ss_version (as_snmp session)).

(** The words of the varbind an identifier is answered with. *)
Definition get_answer (s : AgentState) (oid : list Z) : list cstring :=
  match served (ag_tree s) (is_next type) oid with
  | Some (_, nd) =>
      varbind_head nd ++ [default [] (name ← nd_tclVarName nd; v ← ag_vars s !! name; var_value v)]
  | None => [dotted oid; get_exception type (dotted oid); []]
  end.

(** The number of the varbind an SNMPv1 agent has no instance for. *)
Definition get_stop (s : AgentState) (oids : list (list Z)) : option nat :=
  if decide (version = TNM_SNMPv1)
  then fst <$> list_find (fun oid => served (ag_tree s) (is_next type) oid = None) oids
  else None.

(** The answer from the varbind number [i] on. *)
Definition get_result (s : AgentState) (i : Z) (oids : list (list Z)) (r : response) : response :=
  match get_stop s oids with
  | Some k =>
      mkResponse TNM_SNMP_NOSUCHNAME (i + Z.of_nat k + 1) (rs_done r ++ (get_answer s <$> take k oids)) None
  | None => mkResponse (rs_status r) (rs_index r) (rs_done r ++ (get_answer s <$> oids)) None
  end.

(** The variables of the instances that are asked for have a value of their own. *)
Definition readable (s : AgentState) (oids : list (list Z)) : Prop :=
  Forall (fun oid => forall o nd, served (ag_tree s) (is_next type) oid = Some (o, nd) ->
    exists name value, nd_tclVarName nd = Some name /\ plain s name value) oids.

Lemma get_oid_dotted oid s : request_oid oid -> TnmGetOidFromObj (dotted oid) s = AOk (Some oid) s.
Proof.
  intros [Hv _]. unfold TnmGetOidFromObj. rewrite is_oid_dotted.
  destruct (TnmOidFromString_dotted TnmOidInit oid Hv) as (o & -> & _ & <-). done.
Qed.

Lemma to_str_dotted oid : request_oid oid -> TnmOidToStr oid (length oid) = Some (dotted oid).
Proof.
  intros [(_ & Hu & _) Hl]. rewrite oid_to_str_spec by done. rewrite firstn_all. by rewrite decide_True.
Qed.

Context (Hquiet : quiet (fun code => code <> EVAL_ERROR)).

Lemma get_found i oid vb r s o nd name value : agent_ok s -> request_oid oid -> asks oid vb ->
  served (ag_tree s) (is_next type) oid = Some (o, nd) -> nd_tclVarName nd = Some name -> plain s name value ->
  exists s', get_varbind session req i vb r s = AOk (rs_add (varbind_head nd ++ [value]) r, true) s' /\ stat_frame s s'.
Proof using Hquiet.
  intros Hok Hoid (ty & v & ws & ->) Hs Hn Hp. unfold get_varbind. cbn [word].
  rewrite (agent_bind_ok _ _ _ (dotted oid) s), (agent_bind_ok _ _ _ _ _ (get_oid_dotted oid s Hoid)) by done.
  pose proof (find_instance_served (is_next type) oid s (ok_tree s Hok)) as Hi. rewrite Hs in Hi.
  rewrite (agent_bind_ok _ _ _ _ _ Hi). cbn [fmap option_fmap option_map fst].
  pose proof (served_inst _ _ _ _ (ok_tree s Hok) Hs) as Hm. cbn [fst snd] in Hm.
  rewrite (agent_bind_ok _ _ _ _ _ (deref_inst s o nd Hm)), (agent_bind_ok _ _ _ v s) by done.
  destruct (eval_node_quiet _ Hquiet session req (ptr_to s o) TNM_SNMP_GET_EVENT (Some v) None s nd
    (deref_inst s o nd Hm) (ok_cmds s Hok) ltac:(done)) as (code & s1 & E & Hf & Hc).
  rewrite (agent_bind_ok _ _ _ _ _ E), (bool_decide_eq_false_2 (code = EVAL_ERROR)) by done.
  rewrite (agent_bind_ok _ _ _ _ _ (deref_same s s1 o nd (fr_tree _ _ Hf) (fr_lost _ _ Hf) Hm)).
  rewrite Hn. cbn [need]. rewrite agent_ret_bind.
  assert (Hp1 : plain s1 name value) by (unfold plain; by rewrite (fr_vars _ _ Hf)).
  rewrite (agent_bind_ok _ _ _ _ _ (get_var_plain s1 name value Hp1)).
  eexists. split; [reflexivity|]. transitivity s1; [by apply frame_stat|]. constructor; try done. by eexists.
Qed.

Lemma get_missing i oid vb r s : agent_ok s -> request_oid oid -> asks oid vb ->
  served (ag_tree s) (is_next type) oid = None ->
  exists s', stat_frame s s' /\ get_varbind session req i vb r s =
    if decide (version = TNM_SNMPv1) then AOk (rs_error TNM_SNMP_NOSUCHNAME (i + 1) r, false) s'
    else AOk (rs_add [dotted oid; get_exception type (dotted oid); []] r, true) s'.
Proof.
  intros Hok Hoid (ty & v & ws & ->) Hs. unfold get_varbind. cbn [word].
  rewrite (agent_bind_ok _ _ _ (dotted oid) s), (agent_bind_ok _ _ _ _ _ (get_oid_dotted oid s Hoid)) by done.
  pose proof (find_instance_served (is_next type) oid s (ok_tree s Hok)) as Hi. rewrite Hs in Hi.
  rewrite (agent_bind_ok _ _ _ _ _ Hi). cbn [fmap option_fmap option_map].
  destruct (decide (version = TNM_SNMPv1)) as [Hv|Hv].
  - rewrite bool_decide_eq_true_2 by done. eexists. split; [|reflexivity]. by constructor.
  - rewrite bool_decide_eq_false_2, to_str_dotted by done. exists s. by split.
Qed.

Lemma get_answer_core s s' oid : core s s' -> get_answer s' oid = get_answer s oid.
Proof. intros Hf. unfold get_answer. by rewrite (co_tree _ _ Hf), (co_vars _ _ Hf). Qed.

Lemma get_result_core s s' i oids r : core s s' -> get_result s' i oids r = get_result s i oids r.
Proof.
  intros Hf. unfold get_result, get_stop. rewrite (co_tree _ _ Hf).
  destruct (if decide _ then _ else _) as [k|]; f_equal; f_equal; apply list_fmap_ext; intros; by apply get_answer_core.
Qed.

Lemma readable_core s s' oids : core s s' -> readable s oids -> readable s' oids.
Proof.
  intros Hf Hr. unfold readable in *. rewrite (co_tree _ _ Hf). eapply Forall_impl; [exact Hr|]. intros x Hx o nd Hs.
  destruct (Hx o nd Hs) as (n & v & ? & ?). exists n, v. split; [done|]. unfold plain. by rewrite (co_vars _ _ Hf).
Qed.

Lemma get_result_cons s i oid oids r answer : rs_open r = None -> get_answer s oid = answer ->
  (version = TNM_SNMPv1 -> served (ag_tree s) (is_next type) oid <> None) ->
  get_result s i (oid :: oids) r = get_result s (i + 1) oids (rs_add answer r).
Proof.
  intros Ho <- Hfound. unfold get_result, get_stop. destruct (decide (version = TNM_SNMPv1)) as [Hv|Hv].
  - cbn [list_find]. rewrite decide_False by (by apply Hfound).
    destruct (list_find _ oids) as [[k x]|]; cbn; rewrite <- app_assoc; [|done]. f_equal. lia.
  - cbn. by rewrite <- app_assoc.
Qed.

Lemma get_varbinds_spec oids vbs : Forall2 asks oids vbs -> forall i r s, agent_ok s -> Forall request_oid oids ->
  readable s oids -> rs_open r = None ->
  exists s', get_varbinds session req i vbs r s = AOk (get_result s i oids r) s' /\ stat_frame s s'.
Proof using Hquiet.
  induction 1 as [|oid vb oids vbs Ha _ IH]; intros i r s Hok Ho Hr Hopen.
  { exists s. split; [|done]. unfold get_result, get_stop. cbn. rewrite app_nil_r. case_decide; by destruct r; cbn in *; subst. }
  apply Forall_cons in Ho as [Hoid Ho], Hr as [Hro Hr]. cbn [get_varbinds].
  assert (Hgo : forall s1 answer, stat_frame s s1 -> get_answer s oid = answer ->
    (version = TNM_SNMPv1 -> served (ag_tree s) (is_next type) oid <> None) ->
    exists s', get_varbinds session req (i + 1) vbs (rs_add answer r) s1 = AOk (get_result s i (oid :: oids) r) s' /\ stat_frame s s').
  { intros s1 answer Hf Ha1 Hfound. destruct (IH (i + 1) (rs_add answer r) s1) as (s' & E & Hf'); [by eapply agent_ok_core; eauto with agent|done|by eapply readable_core; eauto with agent|done|].
    exists s'. split; [|by transitivity s1]. rewrite E. f_equal. rewrite (get_result_core s s1) by auto with agent.
    symmetry. by apply get_result_cons. }
  destruct (served (ag_tree s) (is_next type) oid) as [[o nd]|] eqn:Hs.
  - destruct (Hro o nd eq_refl) as (name & value & Hn & Hp).
    destruct (get_found i oid vb r s o nd name value) as (s1 & E & Hf); [done..|]. rewrite (agent_bind_ok _ _ _ _ _ E).
    apply Hgo; [done| |done]. unfold get_answer. rewrite Hs, Hn. destruct Hp as [n Hp]. cbn. by rewrite Hp.
  - destruct (get_missing i oid vb r s) as (s1 & Hf & E); [done..|]. destruct (decide (version = TNM_SNMPv1)) as [Hv|Hv].
    + rewrite (agent_bind_ok _ _ _ _ _ E). exists s1. split; [|done]. unfold get_result, get_stop.
      rewrite decide_True by done. cbn [list_find]. rewrite decide_True by done. cbn. rewrite app_nil_r, Z.add_0_r. unfold rs_error.
      by rewrite Hopen.
    + rewrite (agent_bind_ok _ _ _ _ _ E). apply Hgo; [done| |done]. unfold get_answer. by rewrite Hs.
Qed.

Lemma get_request_spec oids vbs s : agent_ok s -> pdu_varbind req.1 = TclList vbs -> Forall2 asks oids vbs ->
  Forall request_oid oids -> readable s oids ->
  exists s', GetRequest session req s = AOk (Some (check_size (get_result s 0 oids rs_empty))) s' /\ stat_frame s s'.
Proof using Hquiet.
  intros Hok Hv Ha Ho Hr. unfold GetRequest. rewrite Hv.
  destruct (get_varbinds_spec oids vbs Ha 0 rs_empty s Hok Ho Hr eq_refl) as (s' & E & Hf).
  rewrite (agent_bind_ok _ _ _ _ _ E). by exists s'.
Qed.
End get.

(** * A small agent *)

Definition sysName : list Z := [1; 3; 6; 1; 2; 1; 1; 5; 0].
Definition sysLocation : list Z := [1; 3; 6; 1; 2; 1; 1; 6; 0].
Definition sysServices : list Z := [1; 3; 6; 1; 2; 1; 1; 7; 0].

Definition sample_mib : SnmpEnv := {|
  Tcl_GetInt := get_int_dec;
  Tcl_GetDouble _ := inr [];
  TnmMibGetOid s := Some s;
  TnmMibGetName s := Some (cstr "sys." ++ s);
  TnmMibGetBaseSyntax _ := ASN1_OCTET_STRING;
  TnmMibFindType _ := None;
  TnmMibScan _ _ := None;
  TnmMibFormat _ _ := None;
  inet_addr s := replicate 4 255;
  host_address := inl [10; 0; 0; 1];
  TnmSnmpSysUpTime := 0
|}.

Definition sample_env : AgentEnv := {|
  Tcl_GlobalEval _ _ := (EVAL_OK, [], []);
  can_set _ _ := true;
  read_error name := name;
  set_error name := name;
  varbind_string _ := [];
  Tcl_DStringLength _ _ := 0;
  TnmMibFindNode s := if bool_decide (s = dotted sysLocation) then Some (mkMibView TNM_MIB_READCREATE false (Some 0)) else None;
  TnmMibFindExact s := if bool_decide (s = cstr "1.3.6.1.2.1.1.6") then Some (mkMibView 0 false None) else None;
  sendto_error _ _ := None;
  usm_buffer := []
|}.

#[export] Existing Instance sample_mib.
#[export] Existing Instance sample_env.

Definition name_var : cstring := cstr "tnm_system(sysName)".

Definition sample_root : option TnmSnmpNode :=
  match AddNode None (dotted sysName) 16 ASN1_OCTET_STRING TNM_MIB_READWRITE (Some name_var) with
  | Some (root, _) => root
  | None => None
  end.

Definition sample_state : AgentState :=
  mkAgent sample_root [] {[ name_var := mkVar (Some (cstr "61:62")) 1 [] ]} (ResText []) zero_stats
    (replicate CACHE_SIZE cache_zero) 0 1000 [] [].

Definition sample_session : AgentSession :=
  mkAgentSession 1 TNM_SNMP_RESPONDER (public_session TNM_SNMPv2C) (Some (cstr "snmp0")) [].

Definition sample_addr : sockaddr := mkAddr [10; 0; 0; 2] 161.

Lemma sample_quiet Q : Q EVAL_OK -> quiet Q.
Proof. intros HQ script s. by split. Qed.

Lemma find_node_null o : FindNode None o = None.
Proof. unfold FindNode. case_bool_decide; [done|]. by destruct (drop 1 o). Qed.

Lemma sample_inst : agent_ok sample_state /\ forall o, inst_map sample_root o =
  if decide (o = sysName)
  then Some (mkNode (dotted sysName) 16 ASN1_OCTET_STRING TNM_MIB_READWRITE (Some name_var) [] 0) else None.
Proof.
  destruct (add_node_map None sysName 16 ASN1_OCTET_STRING TNM_MIB_READWRITE name_var) as (root & bs & E & Hok & Hv & Hb & Hm); [done|intros o v; unfold node_var; by rewrite find_node_null|by_eval|done|].
  assert (Er : sample_root = root) by (unfold sample_root; by rewrite E).
  assert (Hm' : forall o, inst_map sample_root o = if decide (o = sysName)
    then Some (mkNode (dotted sysName) 16 ASN1_OCTET_STRING TNM_MIB_READWRITE (Some name_var) [] 0) else None).
  { intros o. destruct (decide (o = sysName)) as [->|Hne]; [by vm_compute|]. rewrite Er, Hm, decide_False by done.
    unfold inst_map. by rewrite find_instance_null. }
  split; [|done]. constructor; cbn [ag_tree sample_state]; [by rewrite Er|by rewrite Er| | |by eexists].
  - intros o. rewrite Er, Hb. unfold bindings_at. rewrite find_node_null. constructor.
  - intros o nd. rewrite Hm'. case_decide; [|done]. intros [= <-]. by eexists.
Qed.
