(* ===== verification/AgentRequest.v ===== *)
(** From the packet of a request to the packet of its answer, and the cache of
    answers. *)

From stdpp Require Import gmap.
From S2P Require Import Prelude Ber BerSpec CStr Oid OidTheorems Util Snmp SnmpEnc SnmpSpec SnmpDec SnmpRound SnmpTheorems Inst InstTheorems Callback Mib Agent AgentTree AgentInv.
Local Open Scope Z_scope.

(** ** Responses *)

(** The fields of a PDU that are encoded. *)
Definition same_pdu (p q : TnmSnmpPdu) : Prop :=
  pdu_type p = pdu_type q /\ pdu_requestId p = pdu_requestId q /\ pdu_errorStatus p = pdu_errorStatus q /\
  pdu_errorIndex p = pdu_errorIndex q /\ pdu_varbind p = pdu_varbind q.

Lemma v1_pdu_same session p q : same_pdu p q -> same_pdu (v1_pdu session p) (v1_pdu session q).
Proof.
  intros (E1 & E2 & E3 & E4 & E5). unfold v1_pdu. case_bool_decide; [|done].
  unfold same_pdu. cbn. rewrite E1, E2, E3, E4, E5. done.
Qed.

Lemma v1_pdu_idem session pdu : v1_pdu session (v1_pdu session pdu) = v1_pdu session pdu.
Proof.
  unfold v1_pdu. case_bool_decide as Hv; [|done]. cbn [pdu_type pdu_errorStatus pdu_errorIndex pdu_requestId pdu_trapOID pdu_context pdu_engineID pdu_varbind].
  set (bulk := bool_decide (pdu_type pdu = ASN1_SNMP_GETBULK)).
  assert (Ht : bool_decide ((if bool_decide ((if bulk then ASN1_SNMP_GETNEXT else pdu_type pdu) = ASN1_SNMP_INFORM)
     || bool_decide ((if bulk then ASN1_SNMP_GETNEXT else pdu_type pdu) = ASN1_SNMP_TRAP2)
     then ASN1_SNMP_TRAP1 else if bulk then ASN1_SNMP_GETNEXT else pdu_type pdu) = ASN1_SNMP_GETBULK) = false).
  { apply bool_decide_eq_false_2. destruct (_ || _); [done|]. unfold bulk. by case_bool_decide. }
  rewrite Ht. f_equal.
  - destruct (bool_decide ((if bulk then ASN1_SNMP_GETNEXT else pdu_type pdu) = ASN1_SNMP_INFORM)
     || bool_decide ((if bulk then ASN1_SNMP_GETNEXT else pdu_type pdu) = ASN1_SNMP_TRAP2)) eqn:E; [done|by rewrite E].
  - set (st := if bulk then TNM_SNMP_NOERROR else pdu_errorStatus pdu).
    assert (Hle : v1_error st <= TNM_SNMP_GENERR) by (unfold v1_error, TNM_SNMP_GENERR, TNM_SNMP_BADVALUE, TNM_SNMP_NOSUCHNAME; repeat case_bool_decide; lia).
    destruct (bool_decide (TNM_SNMP_GENERR < st)) eqn:Hs; [|by rewrite Hs]. by rewrite bool_decide_eq_false_2 by lia.
Qed.

Section responses.
Context `{!SnmpEnv, !AgentEnv}.

Lemma pdu_encodes_same session p q vbs : same_pdu p q -> pdu_encodes session p vbs -> pdu_encodes session q vbs.
Proof. intros (E1 & E2 & E3 & E4 & E5) []. constructor; by rewrite <- ?E1, <- ?E2, <- ?E3, <- ?E4, <- ?E5. Qed.

Lemma community_message_same session p q vbs : same_pdu p q -> community_message session p vbs = community_message session q vbs.
Proof. intros (E1 & E2 & E3 & E4 & _). unfold community_message, pdu_octets. by rewrite E1, E2, E3, E4. Qed.

(** A response can be sent: its varbinds are valid, the packet is small enough and
    the socket takes it. *)
Definition can_send (session : AgentSession) (pdu : TnmSnmpPdu) (vbs : list varbind) (to : sockaddr) : Prop :=
  let sent := v1_pdu (as_snmp session) pdu in
  let packet := community_message (as_snmp session) sent vbs in
  community_session (as_snmp session) /\ pdu_encodes (as_snmp session) sent vbs /\
  Z.of_nat (length packet) < TNM_SNMP_MAXSIZE /\ sendto_error to packet = None.

Lemma can_send_same session p q vbs to : same_pdu p q -> can_send session p vbs to -> can_send session q vbs to.
Proof.
  intros Hs (? & ? & ? & ?). pose proof (v1_pdu_same (as_snmp session) _ _ Hs) as Hs'. unfold can_send.
  rewrite <- (community_message_same _ _ _ _ Hs'). split_and!; try done. by eapply pdu_encodes_same.
Qed.

(** The steps that send: the instances and variables, the cache and the clock stay,
    the record of scripts too if the session has no binding for it. *)
Record sends (session : AgentSession) (out : sockaddr * list Z) (s s' : AgentState) : Prop := {
  sd_core : core s s';
  sd_cache : ag_cache s' = ag_cache s;
  sd_last : ag_last s' = ag_last s;
  sd_clock : ag_clock s' = ag_clock s;
  sd_sent : ag_sent s' = ag_sent s ++ [out];
  sd_log : event_command session TNM_SNMP_SEND_EVENT = None -> ag_log s' = ag_log s
}.

Context (Q : eval_code -> Prop) (Hquiet : quiet Q) (HOK : Q EVAL_OK).

Lemma eval_binding_none session req event s : event_command session event = None ->
  TnmSnmpEvalBinding session req event s = AOk EVAL_OK s.
Proof.
  unfold event_command, TnmSnmpEvalBinding. destruct (find_binding _ _) as [[ev [cmd|]]|]; done.
Qed.

Lemma encode_response_ok session pdu to vbs s : bindings_ok (as_bindings session) -> can_send session pdu vbs to ->
  let sent := v1_pdu (as_snmp session) pdu in
  exists s', encode_response session (pdu, to) s = AOk (TCL_OK, sent) s' /\ text s' /\
    sends session (to, community_message (as_snmp session) sent vbs) s s'.
Proof using Hquiet HOK.
  intros Hb (Hc & He & Hl & Hto) sent. fold sent in He, Hl, Hto. set (packet := community_message (as_snmp session) sent vbs) in *.
  unfold encode_response. cbn [fst snd].
  destruct (EncodeMessage_community usm_buffer (as_snmp session) sent vbs []
    (replicate (Z.to_nat TNM_SNMP_MAXSIZE) 0) NoError (ag_result s) (ag_stats s) Hc He) as [stats' E];
    [rewrite length_replicate; unfold packet, TNM_SNMP_MAXSIZE in *; lia|unfold packet, TNM_SNMP_MAXSIZE in *; lia|].
  destruct (encode_packet_of _ _ pdu _ _ _ _ _ E) as (es & -> & Hr). cbn [app]. fold packet sent.
  set (s1 := with_stats (es_stats es) (with_result (es_result es) s)).
  destruct (eval_binding_quiet Q Hquiet session (sent, to) TNM_SNMP_SEND_EVENT s1 Hb HOK) as (code & s2 & E2 & Hf & _).
  assert (Hlog : event_command session TNM_SNMP_SEND_EVENT = None -> ag_log s2 = ag_log s).
  { intros Hn. rewrite (eval_binding_none session (sent, to) _ s1 Hn) in E2. by injection E2 as _ <-. }
  rewrite (agent_bind_ok _ _ _ _ _ E2). unfold TnmSnmpSend. rewrite Hto. eexists. split; [reflexivity|].
  split; [by eexists|]. destruct Hf as [? ? ? ? ? ? ? Hs2 ?]. unfold s1 in *. cbn in *.
  constructor; cbn; try done; [constructor; try done; by eexists|by rewrite Hs2].
Qed.

(** ** The cache *)

Lemma cache_find_Some now session pdu l : forall i k, cache_find now session pdu i l = Some k ->
  exists e, l !! (k - i)%nat = Some e /\ (i <= k)%nat /\ cache_match now session pdu e = true.
Proof.
  induction l as [|e l IH]; intros i k; cbn; [done|]. destruct (cache_match now session pdu e) eqn:E.
  - intros [= <-]. exists e. by rewrite Nat.sub_diag.
  - intros (e' & Hl & Hk & Hm)%IH. exists e'. split; [|split; [lia|done]].
    replace (k - i)%nat with (S (k - S i)) by lia. done.
Qed.

Lemma cache_find_None now session pdu l : forall i, cache_find now session pdu i l = None <->
  Forall (fun e => cache_match now session pdu e = false) l.
Proof.
  induction l as [|e l IH]; intros i; cbn; [done|]. destruct (cache_match now session pdu e) eqn:E.
  - split; [done|]. intros [? _]%Forall_cons. congruence.
  - rewrite IH, Forall_cons. tauto.
Qed.

(** The only element that matches is found. *)
Lemma cache_find_only now session pdu l k e : l !! k = Some e -> cache_match now session pdu e = true ->
  (forall j e', l !! j = Some e' -> j <> k -> cache_match now session pdu e' = false) ->
  cache_find now session pdu 0 l = Some k.
Proof.
  intros Hk Hm Hother. destruct (cache_find now session pdu 0 l) as [j|] eqn:E.
  - destruct (cache_find_Some _ _ _ _ _ _ E) as (e' & Hj & _ & Hm'). rewrite Nat.sub_0_r in Hj.
    destruct (decide (j = k)) as [->|Hne]; [done|]. by rewrite (Hother _ _ Hj Hne) in Hm'.
  - apply cache_find_None in E. rewrite Forall_forall in E. apply list_elem_of_lookup_2 in Hk. specialize (E _ Hk). congruence.
Qed.

(** [CacheClear] leaves nothing that matches a request of the session. *)
Lemma cache_clear_miss session req s :
  exists s', CacheClear session s = AOk tt s' /\ CacheHit session req s' = AOk None s' /\ core s s' /\
    ag_last s' = ag_last s /\ ag_clock s' = ag_clock s /\ length (ag_cache s') = length (ag_cache s) /\ ag_sent s' = ag_sent s.
Proof.
  eexists. split; [reflexivity|]. split_and!; try done; [|cbn; by rewrite length_map].
  unfold CacheHit. case_bool_decide; [done|]. cbn [ag_clock ag_cache with_cache].
  match goal with |- match cache_find ?n ?se ?p 0 ?l with _ => _ end = _ => assert (E : cache_find n se p 0 l = None) end; [|by rewrite E].
  apply cache_find_None, Forall_forall. intros e (e0 & -> & _)%list_elem_of_fmap. unfold cache_match.
  match goal with |- context [if ?b then mkCache _ _ _ _ 0 else _] => destruct b eqn:Hb end.
  - cbn. by destruct (bool_decide _), (bool_decide _).
  - apply bool_decide_eq_false in Hb. rewrite (bool_decide_eq_false_2 (ce_session e0 = _)) by done. by rewrite andb_false_r.
Qed.

(** The element [CacheGet] takes. *)
Definition next_slot (n : nat) : nat := ((n + 1) mod CACHE_SIZE)%nat.

Lemma next_slot_lt n : (next_slot n < CACHE_SIZE)%nat.
Proof. unfold next_slot. apply Nat.mod_upper_bound. done. Qed.

Lemma cache_get_ok session req s : length (ag_cache s) = CACHE_SIZE ->
  let i := next_slot (ag_last s) in
  exists reply, pdu_errorStatus reply = TNM_SNMP_NOERROR /\
    CacheGet session req s = AOk (i, reply)
      (with_cache (<[i := mkCache (Some (as_address session)) (pdu_varbind req.1) reply req.2 (ag_clock s)]> (ag_cache s)) i s).
Proof.
  intros Hl i. unfold CacheGet. rewrite (agent_bind_ok _ _ _ s s) by done. fold (next_slot (ag_last s)). fold i.
  destruct (lookup_lt_is_Some_2 (ag_cache s) i ltac:(rewrite Hl; apply next_slot_lt)) as [e ->]. eexists. split; [|reflexivity]. done.
Qed.

Lemma list_alter_insert' {A} (f : A -> A) i x (l : list A) : alter f i (<[i := x]> l) = <[i := f x]> l.
Proof.
  apply list_eq. intros j. destruct (decide (i = j)) as [->|Hne].
  - rewrite list_lookup_alter_eq. destruct (decide (j < length l)%nat) as [Hl|Hl].
    + by rewrite !list_lookup_insert_eq.
    + by rewrite !list_insert_ge by lia; rewrite lookup_ge_None_2 by lia.
  - by rewrite list_lookup_alter_ne, !list_lookup_insert_ne.
Qed.

(** The reply to a request, up to the fields that are not encoded. *)
Definition plain_reply (pdu : TnmSnmpPdu) (r : response) : TnmSnmpPdu :=
  reply_pdu (mkPdu 0 0 0 0 None [] [] (TclList [])) pdu r.

Lemma reply_same reply pdu r : same_pdu (plain_reply pdu r) (reply_pdu reply pdu r).
Proof. done. Qed.

(** How a request that is not in the cache is answered, given what processing it
    does: the reply is sent and remembered. *)
Lemma answer_ok session pdu addr s r rvbs : bindings_ok (as_bindings session) -> length (ag_cache s) = CACHE_SIZE -> text s ->
  can_send session (plain_reply pdu r) rvbs addr ->
  let i := next_slot (ag_last s) in
  let sent := v1_pdu (as_snmp session) (plain_reply pdu r) in
  (forall s1, core s s1 -> text s1 -> exists s2,
     (if bool_decide (pdu_type pdu = ASN1_SNMP_SET) then SetRequest session (pdu, addr) else GetRequest session (pdu, addr)) s1
       = AOk (Some r) s2 /\ stat_frame s1 s2) ->
  exists s' stored, answer_request session (pdu, addr) s = AOk TCL_OK s' /\ core s s' /\ text s' /\
    ag_sent s' = ag_sent s ++ [(addr, community_message (as_snmp session) sent rvbs)] /\
    ag_clock s' = ag_clock s /\ ag_last s' = i /\ same_pdu sent stored /\ v1_pdu (as_snmp session) stored = stored /\
    ag_cache s' = <[i := mkCache (Some (as_address session)) (pdu_varbind pdu) stored addr (ag_clock s)]> (ag_cache s).
Proof using Hquiet HOK.
  intros Hb Hl Ht Hcan i sent Hproc. unfold answer_request.
  destruct (eval_binding_quiet Q Hquiet session (pdu, addr) TNM_SNMP_BEGIN_EVENT s Hb HOK) as (c1 & s1 & E1 & F1 & _).
  rewrite (agent_bind_ok _ _ _ _ _ E1).
  destruct (cache_get_ok session (pdu, addr) s1 ltac:(by rewrite (fr_cache _ _ F1))) as (reply & _ & E2).
  rewrite (agent_bind_ok _ _ _ _ _ E2). cbn [fst snd] in *. rewrite (fr_last _ _ F1), (fr_cache _ _ F1), (fr_clock _ _ F1) in *. fold i in E2 |- *.
  set (e0 := mkCache _ _ reply _ _) in *. set (s2 := with_cache _ i s1) in *.
  assert (C2 : core s s2) by (transitivity s1; [auto with agent|by constructor]).
  destruct (Hproc s2 C2 ltac:(by apply C2)) as (s3 & E3 & F3). rewrite (agent_bind_ok _ _ _ _ _ E3).
  set (rp := reply_pdu reply pdu r). rewrite (agent_bind_ok (cache_store i rp) _ _ tt _ eq_refl).
  set (s4 := with_cache _ _ s3).
  destruct (eval_binding_quiet Q Hquiet session (rp, addr) TNM_SNMP_END_EVENT s4 Hb HOK) as (c5 & s5 & E5 & F5 & _).
  rewrite (agent_bind_ok _ _ _ _ _ E5).
  destruct (encode_response_ok session rp addr rvbs s5 Hb) as (s6 & E6 & T6 & S6).
  { eapply can_send_same; [apply reply_same|exact Hcan]. }
  rewrite (agent_bind_ok _ _ _ _ _ E6).
  rewrite (agent_bind_ok (cache_store i _) _ _ tt _ eq_refl).
  exists (with_cache (<[i := mkCache (Some (as_address session)) (pdu_varbind pdu) (v1_pdu (as_snmp session) rp) addr (ag_clock s)]> (ag_cache s)) i s6).
  exists (v1_pdu (as_snmp session) rp).
  assert (Hcache : ag_cache s6 = <[i := mkCache (Some (as_address session)) (pdu_varbind pdu) rp addr (ag_clock s)]> (ag_cache s)).
  { rewrite (sd_cache _ _ _ _ S6), (fr_cache _ _ F5). unfold s4. cbn [ag_cache with_cache].
    rewrite (sf_cache _ _ F3). unfold s2. cbn [ag_cache with_cache]. by rewrite list_alter_insert'. }
  assert (Hlast : ag_last s6 = i).
  { rewrite (sd_last _ _ _ _ S6), (fr_last _ _ F5). unfold s4. cbn. by rewrite (sf_last _ _ F3). }
  split_and!.
  - unfold mret, AgentM_ret. f_equal. rewrite Hcache, Hlast, list_alter_insert'. done.
  - transitivity s2; [done|]. transitivity s3; [auto with agent|]. transitivity s4; [by constructor|].
    transitivity s5; [auto with agent|]. transitivity s6; [apply S6|by constructor].
  - done.
  - cbn. rewrite (sd_sent _ _ _ _ S6), (fr_sent _ _ F5). unfold s4. cbn. rewrite (sf_sent _ _ F3). unfold s2. cbn.
    rewrite (fr_sent _ _ F1). do 3 f_equal. apply community_message_same, v1_pdu_same. done.
  - cbn. rewrite (sd_clock _ _ _ _ S6), (fr_clock _ _ F5). unfold s4. cbn. rewrite (sf_clock _ _ F3). unfold s2. cbn. by rewrite (fr_clock _ _ F1).
  - done.
  - by apply v1_pdu_same.
  - apply v1_pdu_idem.
  - done.
Qed.
End responses.
