(* ===== verification/AgentSet.v ===== *)
(** Set requests: all of a request or nothing of it takes effect. *)

From stdpp Require Import gmap.
From S2P Require Import Prelude Ber CStr Oid OidTheorems Util Snmp SnmpEnc SnmpDec SnmpTheorems Inst InstTheorems Callback Mib Agent AgentTree AgentInv.
Local Open Scope Z_scope.

(** ** Names *)

Lemma var_name_split name : var_name (split_name name).1 (split_name name).2 = name.
Proof.
  unfold split_name. destruct (last name) as [c|] eqn:El; [|done].
  destruct (decide (c = 41)) as [->|Hc]; [|by repeat (destruct c as [|[c|c|]|]; try done)].
  destruct (list_find _ name) as [[i x]|] eqn:Ef; [|done]. cbn [fst snd var_name].
  change (cstr "(") with [40]. change (cstr ")") with [41].
  apply list_find_Some in Ef as (Hi & -> & _). apply last_Some in El as [l ->].
  assert (Hil : (i < length l)%nat).
  { apply lookup_lt_Some in Hi as Hlt. rewrite length_app in Hlt. cbn in Hlt.
    destruct (decide (i = length l)) as [->|]; [|lia]. rewrite lookup_app_r, Nat.sub_diag in Hi by lia. done. }
  rewrite lookup_app_l in Hi by done. rewrite length_app. cbn [length].
  rewrite take_app_le, drop_app_le by lia. replace (length l + 1 - i - 2)%nat with (length (drop (S i) l)) by (rewrite length_drop; lia).
  rewrite take_app_length, (app_assoc [40]), app_assoc. f_equal. cbn [app]. rewrite <- (drop_S _ _ _ Hi). apply take_drop.
Qed.

Section set.
Context `{!SnmpEnv, !AgentEnv}.
Context (session : AgentSession) (req : request).
Context (Q : eval_code -> Prop) (Hquiet : quiet Q) (HQ : Q EVAL_OK).

(** Whether a variable can be set depends on its name only. *)
Definition can_set_stable : Prop := forall vars1 vars2 name, can_set vars1 name = can_set vars2 name.
Context (Hcan : can_set_stable).

(** Nothing stands in the way: no script fails or breaks, every variable can be
    set. *)
Definition calm : Prop := (forall code, Q code -> code = EVAL_OK) /\ forall name, can_set ∅ name = true.

(** The variables of instances that can be written have a value of their own. *)
Definition settable (s : AgentState) : Prop :=
  forall o nd, inst_map (ag_tree s) o = Some nd -> nd_access nd <> TNM_MIB_READONLY ->
    exists name old n, nd_tclVarName nd = Some name /\ ag_vars s !! name = Some (mkVar (Some old) n []).

(** The instances and the variables. *)
Record same_data (s s' : AgentState) : Prop := {
  da_inst : forall o, inst_map (ag_tree s') o = inst_map (ag_tree s) o;
  da_vars : ag_vars s' = ag_vars s
}.
#[global] Instance same_data_refl : Reflexive same_data.
Proof. by constructor. Qed.
#[global] Instance same_data_trans : Transitive same_data.
Proof. intros s1 s2 s3 [E1 V1] [E2 V2]. constructor; [intros o; by rewrite E2|congruence]. Qed.
Lemma core_data s s' : core s s' -> same_data s s'.
Proof. intros []. constructor; [congruence|done]. Qed.

Lemma set_var_ok s name value : Tcl_SetVar name value s =
  if can_set ∅ name then AOk true (with_vars (<[name := set_value value (default no_var (ag_vars s !! name))]> (ag_vars s)) s)
  else AOk false s.
Proof using Hcan. unfold Tcl_SetVar. by rewrite (Hcan (ag_vars s) ∅). Qed.

(** A varbind with an identifier, a type and a value. *)
Record vb_for (oid : list Z) (vb : SNMP_VarBind) : Prop := {
  vf_soid : vb_soid vb = Some (dotted oid);
  vf_syntax : is_Some (vb_syntax vb);
  vf_value : is_Some (vb_value vb)
}.

Lemma vb_instance_ok oid vb s : vb_soid vb = Some (dotted oid) -> oid_value oid -> inst_ok (ag_tree s) ->
  vb_instance vb s = AOk ((fun _ => ptr_to s oid) <$> inst_map (ag_tree s) oid) s.
Proof.
  intros Hs Ho Hok. unfold vb_instance. rewrite Hs. cbn [default].
  rewrite (agent_bind_ok _ _ _ _ _ (oid_from_string_dotted oid s Ho)), find_instance_served by done.
  unfold served. by destruct (inst_map (ag_tree s) oid).
Qed.

Lemma error_from_result_ok s : text s -> exists status s', error_from_result s = AOk status s' /\ stat_frame s s'.
Proof.
  intros [t Ht]. unfold error_from_result. rewrite (agent_bind_ok _ _ _ t s) by (unfold Tcl_GetStringResult; by rewrite Ht).
  set (status := if bool_decide _ then _ else _). destruct (bool_decide (status = TNM_SNMP_GENERR));
    eexists _, _; (split; [reflexivity|by constructor]).
Qed.

(** ** Instances that exist *)

(** What became of the variable of an instance, and whether it can be set back. *)
Definition var_set (s s' : AgentState) (name old value : cstring) : Prop :=
  exists n, ag_vars s !! name = Some (mkVar (Some old) n []) /\
    ag_vars s' = <[name := mkVar (Some value) n []]> (ag_vars s) /\ (can_set ∅ name = true \/ value = old).

Lemma set_existing_ok oid nd vb s : agent_ok s -> settable s -> inst_map (ag_tree s) oid = Some nd -> vb_for oid vb ->
  exists vb' res s', set_existing session req vb (ptr_to s oid) s = AOk (vb', res) s' /\
    ag_tree s' = ag_tree s /\ ag_lost s' = ag_lost s /\ text s' /\
    ((exists status, res = inr (status, SetRefused) /\ status <> TNM_SNMP_NOERROR /\ ag_vars s' = ag_vars s) \/
     exists name old value, nd_tclVarName nd = Some name /\ vb' = with_clientData (Some old) vb /\ var_set s s' name old value /\
       ((res = inl (ptr_to s oid) /\ (calm -> vb_value vb = Some value)) \/ (~ calm /\ exists status, res = inr (status, SetFailed)))).
Proof using Hquiet HQ Hcan.
  intros Hok Hset Hm [Hso [syntax Hsy] [value Hva]]. unfold set_existing.
  rewrite (agent_bind_ok _ _ _ _ _ (deref_inst s oid nd Hm)). pose proof (ok_text s Hok) as Ht.
  case_bool_decide as Hro; [eexists _, _, s; split; [reflexivity|]; split_and!; try done; left; by eexists|].
  rewrite Hsy. cbn [need]. rewrite agent_ret_bind.
  case_bool_decide; [eexists _, _, s; split; [reflexivity|]; split_and!; try done; left; by eexists|].
  destruct (Hset oid nd Hm Hro) as (name & old & n & Hn & Hv). rewrite Hn. cbn [need]. rewrite agent_ret_bind.
  rewrite (agent_bind_ok _ _ _ _ _ (get_var_plain s name old ltac:(by exists n))).
  destruct (eval_node_quiet _ Hquiet session req (ptr_to s oid) TNM_SNMP_SET_EVENT (vb_value vb) (Some old) s nd
    (deref_inst s oid nd Hm) (ok_cmds s Hok) HQ) as (code & s1 & E & F & HQc).
  cbn [vb_value with_clientData]. rewrite (agent_bind_ok _ _ _ _ _ E).
  assert (Hid : ag_vars s = <[name := mkVar (Some old) n []]> (ag_vars s)) by (by rewrite insert_id).
  assert (Hstay : forall s2, ag_vars s2 = ag_vars s -> var_set s s2 name old old).
  { intros s2 Hs2. exists n. split; [done|]. split; [|by right]. by rewrite Hs2. }
  assert (Ht1 : text s1) by (by apply F).
  case_bool_decide as Hce.
  { destruct (error_from_result_ok s1 Ht1) as (st & s2 & E2 & F2). rewrite (agent_bind_ok _ _ _ _ _ E2).
    eexists _, _, s2. split; [reflexivity|]. destruct F, F2. split_and!; try congruence; auto. right.
    exists name, old, old. split_and!; try done; [apply Hstay; congruence|right]. split; [|by eexists].
    intros [Hc _]. specialize (Hc code HQc). congruence. }
  case_bool_decide as Hbr.
  - rewrite (agent_bind_ok (deref _ ≫= _) _ s1 (can_set ∅ name)
      (if can_set ∅ name then with_vars (<[name := mkVar (Some value) n []]> (ag_vars s1)) s1 else s1)).
    2: { rewrite (agent_bind_ok _ _ _ _ _ (deref_same s s1 oid nd (fr_tree _ _ F) (fr_lost _ _ F) Hm)), Hn. cbn [need].
         rewrite agent_ret_bind, Hva. cbn [need]. rewrite agent_ret_bind, set_var_ok, (fr_vars _ _ F), Hv. by destruct (can_set ∅ name). }
    destruct (can_set ∅ name) eqn:Hc; cbn [negb].
    + rewrite (agent_bind_ok (count _) _ _ tt _ eq_refl). eexists _, _, _. split; [reflexivity|]. destruct F. cbn. split_and!; try done. right.
      exists name, old, value. split_and!; try done; [|by left]. exists n. cbn. split_and!; [done|congruence|by left].
    + destruct (error_from_result_ok s1 Ht1) as (st & s2 & E2 & F2). rewrite (agent_bind_ok _ _ _ _ _ E2).
      eexists _, _, s2. split; [reflexivity|]. destruct F, F2. split_and!; try congruence; auto. right.
      exists name, old, old. split_and!; try done; [apply Hstay; congruence|right]. split; [|by eexists]. intros [_ Hc']. by rewrite Hc' in Hc.
  - rewrite agent_ret_bind. cbn [negb]. rewrite (agent_bind_ok (count _) _ _ tt _ eq_refl). eexists _, _, _. split; [reflexivity|].
    destruct F. cbn. split_and!; try done. right. exists name, old, old. split_and!; try done; [by apply Hstay|left]. split; [done|]. intros [Hc _]. specialize (Hc code HQc). congruence.
Qed.

(** The variable is set back. *)
Lemma undo_existing oid nd vb s s1 s2 name old value : vb_soid vb = Some (dotted oid) -> vb_created vb = false -> oid_value oid ->
  agent_ok s2 -> inst_map (ag_tree s) oid = Some nd -> nd_tclVarName nd = Some name -> var_set s s1 name old value ->
  (forall o, inst_map (ag_tree s1) o = inst_map (ag_tree s) o) -> same_data s1 s2 ->
  exists s3, rollback_varbind session req (with_clientData (Some old) vb) s2 = AOk tt s3 /\ agent_ok s3 /\ same_data s s3.
Proof using Hquiet HQ Hcan.
  intros Hso Hcr Ho Hok2 Hm Hn (n & Hv & Hs1 & Hc) Hi [Di Dv].
  assert (Hm2 : inst_map (ag_tree s2) oid = Some nd) by (by rewrite Di, Hi).
  unfold rollback_varbind. rewrite (agent_bind_ok _ _ _ _ _ (vb_instance_ok oid (with_clientData (Some old) vb) s2 Hso Ho (ok_tree s2 Hok2))).
  rewrite Hm2. cbn [fmap option_fmap option_map vb_value vb_clientData vb_created with_clientData].
  destruct (eval_node_quiet _ Hquiet session req (ptr_to s2 oid) TNM_SNMP_ROLLBACK_EVENT (vb_value vb) (Some old) s2 nd
    (deref_inst s2 oid nd Hm2) (ok_cmds s2 Hok2) HQ) as (code & s3 & E & F & _).
  rewrite (agent_bind_ok _ _ _ _ _ E), Hcr.
  rewrite (agent_bind_ok _ _ _ _ _ (deref_same s2 s3 oid nd (fr_tree _ _ F) (fr_lost _ _ F) Hm2)), Hn. cbn [need]. rewrite agent_ret_bind.
  assert (Hv3 : ag_vars s3 = <[name := mkVar (Some value) n []]> (ag_vars s)) by (by rewrite (fr_vars _ _ F), Dv).
  assert (Hok3 : agent_ok s3) by (eapply agent_ok_core; [|exact Hok2]; auto with agent).
  assert (Hi3 : forall o, inst_map (ag_tree s3) o = inst_map (ag_tree s) o) by (intros o; by rewrite (fr_tree _ _ F), Di, Hi).
  unfold mbind, AgentM_bind. rewrite set_var_ok. destruct (can_set ∅ name) eqn:Hset.
  - eexists. split; [reflexivity|]. split; [destruct Hok3; by constructor|]. constructor; [done|]. cbn.
    rewrite Hv3, lookup_insert_eq, insert_insert_eq. cbn. by rewrite insert_id.
  - destruct Hc as [?| ->]; [done|]. eexists. split; [reflexivity|]. split; [done|]. constructor; [done|]. by rewrite Hv3, insert_id.
Qed.

(** ** Instances that are created *)

(** What the agent relies on: a dotted identifier names itself, and objects that
    can be created have a name and a syntax. *)
Record mib_ok : Prop := {
  mo_oid : forall oid, oid_value oid -> TnmMibGetOid (dotted oid) = Some (dotted oid);
  mo_create : forall oid nd, inst_oid oid -> TnmMibFindNode (dotted oid) = Some nd -> mib_access nd = TNM_MIB_READCREATE ->
    is_Some (TnmMibGetName (dotted oid)) /\ TnmMibGetBaseSyntax (dotted oid) <> 0
}.
Context (Hmib : mib_ok).

(** The variable of a new instance. *)
Definition new_name (oid : list Z) : option cstring := array_name <$> TnmMibGetName (dotted oid).

(** A new instance: its variable is new, and there are no instances below it. *)
Definition creatable (s : AgentState) (oid : list Z) : Prop :=
  inst_map (ag_tree s) oid = None -> forall nm, new_name oid = Some nm ->
    ag_vars s !! nm = None /\
    (forall o nd, inst_map (ag_tree s) o = Some nd -> nd_tclVarName nd <> Some nm) /\
    (forall o, is_Some (inst_map (ag_tree s) o) -> ~ oid `prefix_of` o).

(** The instance [nd] was added at [oid] with a variable of the given value. *)
Record created (s s' : AgentState) (oid : list Z) (nm value : cstring) (nd : node) : Prop := {
  cr_inst : forall o, inst_map (ag_tree s') o = if decide (o = oid) then Some nd else inst_map (ag_tree s) o;
  cr_vars : ag_vars s' = <[nm := mkVar (Some value) 1 []]> (ag_vars s);
  cr_name : nd_tclVarName nd = Some nm
}.

Lemma find_base_total oid n : (forall j, (1 <= j <= n)%nat -> is_Some (TnmOidToStr oid j)) -> is_Some (find_base oid n).
Proof.
  induction n as [|n IH]; intros Hj; [by eexists|]. cbn [find_base].
  destruct (Hj (S n) ltac:(lia)) as [str E]. rewrite E. cbn [mbind option_bind].
  destruct (TnmMibFindExact str); [by eexists|]. apply IH. intros j Hlt. apply Hj. lia.
Qed.

Lemma create_error_ok msg s : text s -> exists s', create_error msg s = AOk TCL_ERROR s' /\ core s s'.
Proof.
  intros [t Ht]. eexists. split; [reflexivity|]. constructor; try done. intros _. exists (t ++ msg). cbn. by rewrite Ht.
Qed.

Lemma create_instance_ok oid offset syntax access nm s : agent_ok s -> inst_oid oid -> syntax <> 0 -> ag_vars s !! nm = None ->
  exists code s', create_instance (dotted oid) offset syntax access nm (Some []) s = AOk code s' /\ text s' /\ ag_lost s' = ag_lost s /\
    (core s s' \/ (can_set ∅ nm = true /\ agent_ok s' /\ exists nd, created s s' oid nm [] nd /\ nd_access nd = access)).
Proof using Hcan.
  intros Hok Hoid Hs Hfresh. unfold create_instance. unfold mbind at 1, AgentM_bind at 1. rewrite set_var_ok.
  destruct (can_set ∅ nm) eqn:Hset; cbn [negb].
  2: { eexists _, _. split; [reflexivity|]. split; [by eexists|]. split; [done|]. left. constructor; try done. by eexists. }
  rewrite Hfresh. set (s1 := with_vars _ s). rewrite (agent_bind_ok agent_get _ s1 s1 s1) by done.
  destruct (add_node_map (ag_tree s) oid offset syntax access nm (ok_tree s Hok) (ok_vars s Hok) Hoid Hs)
    as (tree' & bs & E & Hok' & Hv' & Hb' & Hm').
  change (ag_tree s1) with (ag_tree s). rewrite E. cbn [need]. rewrite agent_ret_bind.
  eexists _, _. split; [reflexivity|]. split; [by eexists|]. split; [done|]. right. split; [done|].
  assert (Hn : forall o nd, inst_map tree' o = Some nd -> is_Some (nd_tclVarName nd)).
  { intros o nd. rewrite Hm'. case_decide; [intros [= <-]; by eexists|apply (ok_named s Hok)]. }
  split; [constructor; cbn; [done|done|intros o; rewrite Hb'; apply (ok_cmds s Hok)|done|by eexists]|].
  eexists. split; [constructor; cbn; [exact Hm'| |done]|done]. by rewrite lookup_insert_eq, insert_insert_eq.
Qed.

Lemma create_node_ok oid node nm s : agent_ok s -> inst_oid oid -> TnmMibFindNode (dotted oid) = Some node ->
  mib_access node = TNM_MIB_READCREATE -> ag_vars s !! nm = None ->
  exists code s', TnmSnmpCreateNode (dotted oid) nm (Some []) s = AOk code s' /\ text s' /\ ag_lost s' = ag_lost s /\
    (core s s' \/ (can_set ∅ nm = true /\ agent_ok s' /\ exists nd, created s s' oid nm [] nd /\ nd_access nd = TNM_MIB_READCREATE)).
Proof using Hcan Hmib.
  intros Hok Hoid Hnode Hacc Hfresh. pose proof Hoid as (Hval & _). pose proof (ok_text s Hok) as Ht.
  assert (Herr : forall msg, exists code s', create_error msg s = AOk code s' /\ text s' /\ ag_lost s' = ag_lost s /\
    (core s s' \/ (can_set ∅ nm = true /\ agent_ok s' /\ exists nd, created s s' oid nm [] nd /\ nd_access nd = TNM_MIB_READCREATE))).
  { intros msg. destruct (create_error_ok msg s Ht) as (s' & -> & C). exists TCL_ERROR, s'. split; [done|].
    split; [by apply C|]. split; [apply C|by left]. }
  unfold TnmSnmpCreateNode. rewrite Hnode. destruct (mib_children node); [apply Herr|].
  rewrite (mo_oid Hmib oid Hval). cbn [need]. rewrite agent_ret_bind, is_oid_dotted. cbn [negb].
  rewrite (str_to_oid_spec oid Hval). cbn [need]. rewrite agent_ret_bind.
  destruct (find_base_total (oid ++ replicate (TNM_OID_MAX_SIZE - length oid) 0) (length oid)) as [base E].
  { intros j Hj. by apply inst_oid_strings. }
  rewrite E. cbn [need]. rewrite agent_ret_bind. destruct base as [freeme|]; [|apply Herr].
  case_bool_decide; [apply Herr|]. case_bool_decide; [apply Herr|]. destruct (mib_parent node) as [parent|]; [|apply Herr].
  destruct (_ && _); [apply Herr|]. rewrite <- Hacc. apply create_instance_ok; [done|done| |done].
  by apply (mo_create Hmib oid node).
Qed.

Lemma set_create_ok oid vb s : agent_ok s -> inst_oid oid -> vb_for oid vb -> inst_map (ag_tree s) oid = None -> creatable s oid ->
  exists vb' res s', set_create session req vb s = AOk (vb', res) s' /\ agent_ok s' /\ ag_lost s' = ag_lost s /\
    ((exists status, res = inr (status, SetRefused) /\ status <> TNM_SNMP_NOERROR /\ same_data s s') \/
     exists nm value nd, new_name oid = Some nm /\ vb' = with_created vb /\ created s s' oid nm value nd /\
       nd_access nd = TNM_MIB_READCREATE /\
       ((res = inl (ptr_to s' oid) /\ (calm -> vb_value vb = Some value)) \/ (~ calm /\ exists status, res = inr (status, SetFailed)))).
Proof using Hquiet HQ Hcan Hmib.
  intros Hok Hoid [Hso _ [value Hva]] Hm Hcr. pose proof Hoid as (Hval & _). unfold set_create. rewrite Hso. cbn [need]. rewrite agent_ret_bind.
  destruct (TnmMibFindNode (dotted oid)) as [node|] eqn:Hnode;
    [|eexists _, _, s; split; [reflexivity|]; split_and!; try done; left; by eexists].
  case_bool_decide as Hacc; [|eexists _, _, s; split; [reflexivity|]; split_and!; try done; left; by eexists].
  destruct (mo_create Hmib oid node Hoid Hnode Hacc) as [[name Hname] _]. rewrite Hname. cbn [need]. rewrite agent_ret_bind.
  assert (Hnew : new_name oid = Some (array_name name)) by (unfold new_name; by rewrite Hname).
  destruct (Hcr Hm _ Hnew) as (Hfresh & _). set (nm := array_name name) in *.
  destruct (create_node_ok oid node nm s Hok Hoid Hnode Hacc Hfresh) as (code & s1 & E & Ht1 & Hl1 & Hcase).
  rewrite (agent_bind_ok _ _ _ _ _ E).
  assert (Hok1 : agent_ok s1) by (destruct Hcase as [?|(_ & ? & _)]; [by eapply agent_ok_core|done]).
  rewrite (agent_bind_ok _ _ _ _ _ (vb_instance_ok oid (with_created vb) s1 Hso Hval (ok_tree s1 Hok1))).
  destruct Hcase as [C|(Hset & _ & nd & Cr & Hnacc)].
  { rewrite (co_tree _ _ C), Hm. eexists _, _, s1. split; [reflexivity|]. split_and!; try done. left. eexists. split; [done|]. split; [done|]. by apply core_data. }
  assert (Hm1 : inst_map (ag_tree s1) oid = Some nd) by (by rewrite (cr_inst _ _ _ _ _ _ Cr), decide_True).
  rewrite Hm1. cbn [fmap option_fmap option_map].
  destruct (eval_node_quiet _ Hquiet session req (ptr_to s1 oid) TNM_SNMP_CREATE_EVENT (vb_value vb) None s1 nd
    (deref_inst s1 oid nd Hm1) (ok_cmds s1 Hok1) HQ) as (code2 & s2 & E2 & F2 & HQc).
  cbn [vb_value with_created]. rewrite (agent_bind_ok _ _ _ _ _ E2).
  assert (Hcr' : forall s3 v, ag_tree s3 = ag_tree s1 -> ag_vars s3 = <[nm := mkVar (Some v) 1 []]> (ag_vars s) -> created s s3 oid nm v nd).
  { intros s3 v Et Ev. destruct Cr as [Ci _ Cn]. constructor; [|done|done]. intros o. by rewrite Et. }
  case_bool_decide.
  { destruct (error_from_result_ok s2) as (st & s3 & E3 & F3); [by apply F2|]. rewrite (agent_bind_ok _ _ _ _ _ E3).
    eexists _, _, s3. split; [reflexivity|]. assert (C3 : core s1 s3) by (transitivity s2; auto with agent).
    split; [by eapply agent_ok_core|]. split; [by rewrite (co_lost _ _ C3)|]. right. exists nm, [], nd. split_and!; try done; [|right; split; [intros [Hc _]; specialize (Hc code2 HQc); congruence|by eexists]].
    apply Hcr'; [apply C3|]. rewrite (co_vars _ _ C3). apply Cr. }
  case_bool_decide.
  - rewrite (agent_bind_ok (deref _ ≫= _) _ s2 true (with_vars (<[nm := mkVar (Some value) 1 []]> (ag_vars s2)) s2)).
    2: { rewrite (agent_bind_ok _ _ _ _ _ (deref_same s1 s2 oid nd (fr_tree _ _ F2) (fr_lost _ _ F2) Hm1)), (cr_name _ _ _ _ _ _ Cr). cbn [need].
         rewrite agent_ret_bind, Hva. cbn [need]. rewrite agent_ret_bind, set_var_ok, Hset, (fr_vars _ _ F2), (cr_vars _ _ _ _ _ _ Cr).
         by rewrite lookup_insert_eq. }
    eexists _, _, _. split; [reflexivity|].
    split; [eapply agent_ok_core in Hok1; [|eauto with agent]; destruct Hok1; by constructor|]. cbn. split; [by rewrite (fr_lost _ _ F2)|].
    right. exists nm, value, nd. split_and!; try done; [|left; split; [unfold ptr_to; cbn; by rewrite (fr_lost _ _ F2)|done]].
    apply Hcr'; [apply F2|]. cbn. by rewrite (fr_vars _ _ F2), (cr_vars _ _ _ _ _ _ Cr), insert_insert_eq.
  - rewrite agent_ret_bind. eexists _, _, s2. split; [reflexivity|]. split; [eapply agent_ok_core; [|exact Hok1]; auto with agent|].
    split; [by rewrite (fr_lost _ _ F2)|]. right. exists nm, [], nd. split_and!; try done; [|left; split; [unfold ptr_to; by rewrite (fr_lost _ _ F2)|intros [Hc _]; specialize (Hc code2 HQc); congruence]].
    apply Hcr'; [apply F2|]. rewrite (fr_vars _ _ F2). apply Cr.
Qed.

(** The new instance disappears with its variable. *)
Lemma undo_created oid nd vb s s1 s2 nm value : vb_soid vb = Some (dotted oid) -> oid_value oid ->
  agent_ok s2 -> creatable s oid -> inst_map (ag_tree s) oid = None -> new_name oid = Some nm -> created s s1 oid nm value nd ->
  same_data s1 s2 ->
  exists s3, rollback_varbind session req (with_created vb) s2 = AOk tt s3 /\ agent_ok s3 /\ same_data s s3.
Proof using Hquiet HQ.
  intros Hso Ho Hok2 Hcr Hm Hnew Cr [Di Dv]. destruct (Hcr Hm nm Hnew) as (Hfresh & Huniq & Hpre).
  assert (Hinst : forall o, inst_map (ag_tree s2) o = if decide (o = oid) then Some nd else inst_map (ag_tree s) o)
    by (intros o; rewrite Di; apply Cr).
  assert (Hm2 : inst_map (ag_tree s2) oid = Some nd) by (by rewrite Hinst, decide_True).
  unfold rollback_varbind. rewrite (agent_bind_ok _ _ _ _ _ (vb_instance_ok oid (with_created vb) s2 Hso Ho (ok_tree s2 Hok2))).
  rewrite Hm2. cbn [fmap option_fmap option_map].
  destruct (eval_node_quiet _ Hquiet session req (ptr_to s2 oid) TNM_SNMP_ROLLBACK_EVENT (vb_value (with_created vb)) (vb_clientData (with_created vb)) s2 nd
    (deref_inst s2 oid nd Hm2) (ok_cmds s2 Hok2) HQ) as (code & s3 & E & F & _).
  rewrite (agent_bind_ok _ _ _ _ _ E). cbn [vb_created with_created].
  rewrite (agent_bind_ok _ _ _ _ _ (deref_same s2 s3 oid nd (fr_tree _ _ F) (fr_lost _ _ F) Hm2)), (cr_name _ _ _ _ _ _ Cr). cbn [need].
  rewrite agent_ret_bind. assert (Hok3 : agent_ok s3) by (eapply agent_ok_core; [|exact Hok2]; auto with agent).
  destruct (remove_node_map (ag_tree s3) nm oid (ok_tree s3 Hok3) (ok_vars s3 Hok3)) as (Ro & Rv & Rm & Rb).
  { intros o nd'. rewrite (fr_tree _ _ F), Hinst. case_decide as Ho'; [intros [= <-]; rewrite (cr_name _ _ _ _ _ _ Cr); naive_solver|].
    intros Hx. split; [by intros ?%(Huniq _ _ Hx)|done]. }
  { rewrite (fr_tree _ _ F), Hm2. by eexists. }
  { intros o [nd' Hx] Hp. rewrite (fr_tree _ _ F), Hinst in Hx. case_decide; [done|]. by destruct (Hpre o ltac:(by eexists)). }
  assert (Hu : exists s4, Tcl_UnsetVar nm s3 = AOk tt s4 /\ ag_tree s4 = RemoveNode (ag_tree s3) nm /\ ag_vars s4 = delete nm (ag_vars s3) /\ ag_result s4 = ag_result s3).
  { eexists. split; [reflexivity|]. rewrite (fr_vars _ _ F), Dv, (cr_vars _ _ _ _ _ _ Cr), lookup_insert_eq. cbn [var_unsets Nat.iter nat_rect].
    unfold delete_node. destruct (split_name nm) as [n1 n2] eqn:Es. unfold DeleteNodeProc.
    pose proof (var_name_split nm) as Hvn. rewrite Es in Hvn. cbn [fst snd] in Hvn. rewrite Hvn. done. }
  destruct Hu as (s4 & -> & Et & Ev & Er). exists s4. split; [done|]. split.
  - constructor; rewrite ?Et; try done.
    + intros o. destruct (Rb o) as [-> | ->]; [constructor|apply (ok_cmds s3 Hok3)].
    + intros o nd'. rewrite Rm. case_decide; [done|]. apply (ok_named s3 Hok3).
    + unfold text. rewrite Er. apply (ok_text s3 Hok3).
  - constructor.
    + intros o. rewrite Et, Rm, (fr_tree _ _ F), Hinst. case_decide; [by subst|done].
    + rewrite Ev, (fr_vars _ _ F), Dv, (cr_vars _ _ _ _ _ _ Cr). by rewrite delete_insert_id.
Qed.

(** ** One varbind *)

(** An identifier a varbind is for, in a state in which it can be processed. *)
Record ready (s : AgentState) (oid : list Z) : Prop := {
  rd_ok : agent_ok s;
  rd_set : settable s;
  rd_oid : inst_oid oid;
  rd_new : creatable s oid
}.

(** What a varbind does to the instances and variables. *)
Inductive changed (s s' : AgentState) (oid : list Z) : Prop :=
  | changed_not : same_data s s' -> changed s s' oid
  | changed_value nd name old value : inst_map (ag_tree s) oid = Some nd -> nd_tclVarName nd = Some name ->
      (forall o, inst_map (ag_tree s') o = inst_map (ag_tree s) o) -> var_set s s' name old value -> changed s s' oid
  | changed_new nm value nd : inst_map (ag_tree s) oid = None -> new_name oid = Some nm ->
      created s s' oid nm value nd -> changed s s' oid.

(** The instance exists and its variable has the value. *)
Definition holds (s : AgentState) (oid : list Z) (value : cstring) : Prop :=
  exists nd name n, inst_map (ag_tree s) oid = Some nd /\ nd_tclVarName nd = Some name /\
    ag_vars s !! name = Some (mkVar (Some value) n []).

Lemma holds_core s s' oid value : core s s' -> holds s oid value -> holds s' oid value.
Proof. intros C (nd & name & n & ? & ? & ?). exists nd, name, n. by rewrite (co_tree _ _ C), (co_vars _ _ C). Qed.

(** A second identifier in a request: the same one, or one with another variable
    that is not above the first. *)
Definition fits (o1 o2 : list Z) : Prop :=
  o1 = o2 \/ (~ o2 `prefix_of` o1 /\ forall nm, new_name o1 = Some nm -> new_name o2 <> Some nm).

Lemma settable_changed s s' oid : settable s -> changed s s' oid -> settable s'.
Proof.
  intros Hset [[Di Dv]|nd name old value Hm Hn Hi (n & Hv & Hs & _)|nm value nd Hm Hnew [Ci Cv Cn]] o nd' Ho Ha.
  - rewrite Dv. apply (Hset o nd'); [by rewrite <- Di|done].
  - rewrite Hi in Ho. destruct (Hset o nd' Ho Ha) as (name' & old' & n' & Hn' & Hv').
    destruct (decide (name' = name)) as [->|Hne].
    + exists name, value, n. split; [done|]. by rewrite Hs, lookup_insert_eq.
    + exists name', old', n'. split; [done|]. by rewrite Hs, lookup_insert_ne.
  - rewrite Ci in Ho. case_decide; [injection Ho as <-; exists nm, value, 1%nat; split; [done|]; by rewrite Cv, lookup_insert_eq|].
    destruct (Hset o nd' Ho Ha) as (name' & old' & n' & Hn' & Hv'). destruct (decide (name' = nm)) as [->|Hne].
    + exists nm, value, 1%nat. split; [done|]. by rewrite Cv, lookup_insert_eq.
    + exists name', old', n'. split; [done|]. by rewrite Cv, lookup_insert_ne.
Qed.

Lemma creatable_changed s s' oid o2 : creatable s o2 -> fits oid o2 -> changed s s' oid -> creatable s' o2.
Proof.
  intros Hcr Hf [[Di Dv]|nd name old value Hm Hn Hi (n & Hv & Hs & _)|nm value nd Hm Hnew [Ci Cv Cn]] Hm2 nm2 Hnm2.
  - rewrite Di in Hm2. rewrite Dv. destruct (Hcr Hm2 nm2 Hnm2) as (Hx & Hy & Hz). split; [done|].
    split; intros o; rewrite Di; eauto.
  - rewrite Hi in Hm2. destruct (Hcr Hm2 nm2 Hnm2) as (Hx & Hy & Hz). split; [|split; intros o; rewrite Hi; eauto].
    rewrite Hs, lookup_insert_ne; [done|]. intros ->. congruence.
  - rewrite Ci in Hm2. case_decide as Hd; [done|]. destruct Hf as [<-|[Hp Hne]]; [done|].
    destruct (Hcr Hm2 nm2 Hnm2) as (Hx & Hy & Hz). specialize (Hne nm Hnew). split; [|split].
    + rewrite Cv, lookup_insert_ne; [done|]. congruence.
    + intros o nd'. rewrite Ci. case_decide; [intros [= <-]; congruence|apply Hy].
    + intros o. rewrite Ci. case_decide; [by subst|apply Hz].
Qed.

(** The value of the instance goes into the response. *)
Definition report (i : Z) (vb : SNMP_VarBind) (inst : inst_ptr) (r : response) : AgentM (SNMP_VarBind * response * set_end) :=
  nd ← deref inst;
  name ← need NullPointer (nd_tclVarName nd);
  value ← Tcl_GetVar name;
  match value with
  | None => mret (vb, rs_error TNM_SNMP_GENERR (i + 1) (rs_start (varbind_head nd) r), SetFailed)
  | Some value => _ ← Tcl_ResetResult; mret (vb, rs_add (varbind_head nd ++ [value]) (rs_start (varbind_head nd) r), SetNext)
  end.

Lemma report_ok i vb oid nd name value r s : inst_map (ag_tree s) oid = Some nd -> nd_tclVarName nd = Some name -> plain s name value ->
  exists r' s', report i vb (ptr_to s oid) r s = AOk (vb, r', SetNext) s' /\ core s s' /\ rs_status r' = rs_status r.
Proof.
  intros Hm Hn Hp. unfold report. rewrite (agent_bind_ok _ _ _ _ _ (deref_inst s oid nd Hm)), Hn. cbn [need]. rewrite agent_ret_bind.
  rewrite (agent_bind_ok _ _ _ _ _ (get_var_plain s name value Hp)). eexists _, _. split; [reflexivity|].
  split; [|done]. constructor; try done. by eexists.
Qed.

(** A varbind is processed, and what it did can be undone. *)
Lemma set_varbind_ok i oid vb r s : ready s oid -> vb_for oid vb -> vb_created vb = false ->
  exists vb' r' e s1, set_varbind session req i vb r s = AOk (vb', r', e) s1 /\ agent_ok s1 /\ changed s s1 oid /\
    (e = SetRefused -> rs_status r' <> TNM_SNMP_NOERROR /\ same_data s s1) /\ (e = SetFailed -> ~ calm) /\
    (e = SetNext -> rs_status r' = rs_status r /\ (calm -> exists value, vb_value vb = Some value /\ holds s1 oid value)) /\
    (e <> SetRefused -> forall s2, agent_ok s2 -> same_data s1 s2 ->
       exists s3, rollback_varbind session req vb' s2 = AOk tt s3 /\ agent_ok s3 /\ same_data s s3).
Proof using Hquiet HQ Hcan Hmib.
  intros [Hok Hset Hoid Hcr] Hvb Hnc. pose proof Hoid as (Hval & _). pose proof (vf_soid _ _ Hvb) as Hso. unfold set_varbind.
  rewrite (agent_bind_ok _ _ _ _ _ (vb_instance_ok oid vb s Hso Hval (ok_tree s Hok))).
  destruct (inst_map (ag_tree s) oid) as [nd|] eqn:Hm; cbn [fmap option_fmap option_map].
  - destruct (set_existing_ok oid nd vb s Hok Hset Hm Hvb) as (vb' & res & s1 & E & Et & El & Ht & Hcase).
    rewrite (agent_bind_ok _ _ _ _ _ E).
    assert (Hok1 : agent_ok s1) by (destruct Hok; constructor; rewrite ?Et; done).
    assert (Hi : forall o, inst_map (ag_tree s1) o = inst_map (ag_tree s) o) by (by rewrite Et).
    destruct Hcase as [(status & -> & Hst & Hv)|(name & old & value & Hn & -> & Hvs & Hres)].
    { eexists _, _, SetRefused, s1. split; [reflexivity|]. assert (same_data s s1) by (by constructor).
      split_and!; try done. by constructor. }
    assert (Hundo : forall s1', core s1 s1' -> forall s2, agent_ok s2 -> same_data s1' s2 ->
      exists s3, rollback_varbind session req (with_clientData (Some old) vb) s2 = AOk tt s3 /\ agent_ok s3 /\ same_data s s3).
    { intros s1' C s2 Hok2 Hd. eapply undo_existing; try done. transitivity s1'; [by apply core_data|done]. }
    assert (Hch : forall s1', core s1 s1' -> changed s s1' oid).
    { intros s1' C. eapply changed_value; [done|done|by rewrite (co_tree _ _ C)|].
      destruct Hvs as (n & ? & ? & ?). exists n. by rewrite (co_vars _ _ C). }
    destruct Hres as [[-> Hval']|(Hnc' & status & ->)].
    + destruct (report_ok i (with_clientData (Some old) vb) oid nd name value r s1) as (r' & s1' & E' & C & Hst); [by rewrite Hi|done| |].
      { destruct Hvs as (n & _ & Hs1 & _). exists n. by rewrite Hs1, lookup_insert_eq. }
      replace (ptr_to s1 oid) with (ptr_to s oid) in E' by (unfold ptr_to; by rewrite El).
      eexists _, _, _, s1'. split; [exact E'|]. split; [by eapply agent_ok_core|]. split; [by apply Hch|]. split; [done|]. split; [done|].
      split; [|intros _; by apply Hundo]. intros _. split; [done|]. intros Hcalm. exists value. split; [by apply Hval'|].
      destruct Hvs as (n & _ & Hs1 & _). exists nd, name, n. by rewrite (co_tree _ _ C), Hi, (co_vars _ _ C), Hs1, lookup_insert_eq.
    + eexists _, _, SetFailed, s1. split; [reflexivity|]. split; [done|]. split; [by apply Hch|]. split; [done|]. split; [done|].
      split; [done|]. intros _. by apply (Hundo s1).
  - destruct (set_create_ok oid vb s Hok Hoid Hvb Hm Hcr) as (vb' & res & s1 & E & Hok1 & _ & Hcase). rewrite (agent_bind_ok _ _ _ _ _ E).
    destruct Hcase as [(status & -> & Hst & Hd)|(nm & value & nd & Hnew & -> & Cr & _ & Hres)].
    { eexists _, _, SetRefused, s1. split; [reflexivity|]. split_and!; try done. by constructor. }
    assert (Hcr' : forall s1', core s1 s1' -> created s s1' oid nm value nd).
    { intros s1' C. destruct Cr as [Ci Cv Cn]. constructor; [|by rewrite (co_vars _ _ C)|done]. intros o. by rewrite (co_tree _ _ C). }
    assert (Hundo : forall s1', core s1 s1' -> forall s2, agent_ok s2 -> same_data s1' s2 ->
      exists s3, rollback_varbind session req (with_created vb) s2 = AOk tt s3 /\ agent_ok s3 /\ same_data s s3).
    { intros s1' C s2 Hok2 Hd. by eapply undo_created; [| | | | | |by apply Hcr'|]. }
    destruct Hres as [[-> Hval']|(Hnc' & status & ->)].
    + destruct (report_ok i (with_created vb) oid nd nm value r s1) as (r' & s1' & E' & C & Hst).
      { by rewrite (cr_inst _ _ _ _ _ _ Cr), decide_True. }
      { apply Cr. }
      { exists 1%nat. by rewrite (cr_vars _ _ _ _ _ _ Cr), lookup_insert_eq. }
      eexists _, _, _, s1'. split; [exact E'|]. split; [by eapply agent_ok_core|].
      split; [by eapply changed_new; [| |apply Hcr']|]. split; [done|]. split; [done|].
      split; [|intros _; by apply Hundo]. intros _. split; [done|]. intros Hcalm. exists value. split; [by apply Hval'|].
      destruct (Hcr' s1' C) as [Ci Cv Cn]. exists nd, nm, 1%nat. by rewrite Ci, decide_True, Cv, lookup_insert_eq.
    + eexists _, _, SetFailed, s1. split; [reflexivity|]. split; [done|]. split; [by eapply changed_new|]. split; [done|]. split; [done|].
      split; [done|]. intros _. by apply (Hundo s1).
Qed.

(** ** Requests *)

(** The identifiers of a request, in their order. *)
Fixpoint compatible (oids : list (list Z)) : Prop :=
  match oids with
  | [] => True
  | o :: oids => Forall (fits o) oids /\ compatible oids
  end.

(** Every instance has a variable of its own. *)
Definition distinct_vars (s : AgentState) : Prop :=
  forall o1 o2 nd1 nd2, inst_map (ag_tree s) o1 = Some nd1 -> inst_map (ag_tree s) o2 = Some nd2 ->
    nd_tclVarName nd1 = nd_tclVarName nd2 -> o1 = o2.

Lemma distinct_changed s s' oid : creatable s oid -> distinct_vars s -> changed s s' oid -> distinct_vars s'.
Proof.
  intros Hcr Hd [[Di _]|nd name old value _ _ Hi _|nm value nd Hm Hnew [Ci _ Cn]] o1 o2 nd1 nd2.
  - rewrite !Di. apply Hd.
  - rewrite !Hi. apply Hd.
  - destruct (Hcr Hm nm Hnew) as (_ & Hx & _). rewrite !Ci. repeat case_decide; try congruence.
    + intros [= <-] Ho2 E. rewrite Cn in E. by destruct (Hx _ _ Ho2).
    + intros Ho1 [= <-] E. rewrite Cn in E. by destruct (Hx _ _ Ho1).
    + apply Hd.
Qed.

Lemma holds_changed s s' o1 o2 value : distinct_vars s -> creatable s o2 -> o1 <> o2 -> changed s s' o2 -> holds s o1 value -> holds s' o1 value.
Proof.
  intros Hd Hcr Hne Hch (nd1 & name1 & n1 & Hm1 & Hn1 & Hv1). exists nd1, name1, n1.
  destruct Hch as [[Di Dv]|nd name old v Hm Hn Hi (n & Hv & Hs & _)|nm v nd Hm Hnew [Ci Cv _]].
  - by rewrite Di, Dv.
  - rewrite Hi, Hs. split; [done|]. split; [done|]. rewrite lookup_insert_ne; [done|]. intros ->. apply Hne.
    apply (Hd _ _ _ _ Hm1 Hm). congruence.
  - rewrite Ci, decide_False, Cv by done. split; [done|]. split; [done|]. rewrite lookup_insert_ne; [done|]. intros ->.
    destruct (Hcr Hm name1 Hnew) as (Hx & _). congruence.
Qed.

(** A varbind of a request as it is before it is processed. *)
Definition fresh_for (oid : list Z) (vb : SNMP_VarBind) : Prop := vb_for oid vb /\ vb_created vb = false.

Lemma set_varbinds_ok oids vbs : Forall2 fresh_for oids vbs -> forall i r s, agent_ok s -> settable s ->
  Forall inst_oid oids -> Forall (creatable s) oids -> compatible oids ->
  exists vbs' r' undo s1, set_varbinds session req i vbs r s = AOk (vbs', r', undo) s1 /\ agent_ok s1 /\
    (forall s2, agent_ok s2 -> same_data s1 s2 ->
       exists s3, rollback_varbinds session req undo s2 = AOk tt s3 /\ agent_ok s3 /\ same_data s s3) /\
    (calm -> distinct_vars s -> NoDup oids -> rs_status r' = TNM_SNMP_NOERROR ->
       Forall2 (fun oid vb => exists value, vb_value vb = Some value /\ holds s1 oid value) oids vbs /\
       forall o value, o ∉ oids -> holds s o value -> holds s1 o value).
Proof using Hquiet HQ Hcan Hmib.
  induction 1 as [|oid vb oids vbs [Hvb Hnc] _ IH]; intros i r s Hok Hset Hoids Hcr Hfit.
  { exists [], r, [], s. split_and!; try done. intros s2 ? ?. by exists s2. }
  apply Forall_cons in Hoids as [Hoid Hoids], Hcr as [Hc Hcr]. destruct Hfit as [Hf Hfit]. cbn [set_varbinds].
  destruct (set_varbind_ok i oid vb r s (Build_ready s oid Hok Hset Hoid Hc) Hvb Hnc)
    as (vb' & r' & e & s1 & E & Hok1 & Hch & Href & Hfail & Hnext & Hundo).
  rewrite (agent_bind_ok _ _ _ _ _ E). destruct e.
  - destruct (IH (i + 1) r' s1) as (vbs' & r2 & undo & s2 & E2 & Hok2 & Hundo2 & Hall); [done|by eapply settable_changed|done| |done|].
    { rewrite Forall_forall in Hcr, Hf |- *. intros o Ho. eapply creatable_changed; eauto. }
    rewrite (agent_bind_ok _ _ _ _ _ E2). exists (vb' :: vbs'), r2, (vb' :: undo), s2. split; [done|]. split; [done|]. split.
    + intros s3 Hok3 Hd. destruct (Hundo2 s3 Hok3 Hd) as (s4 & E4 & Hok4 & Hd4). cbn [rollback_varbinds].
      rewrite (agent_bind_ok _ _ _ _ _ E4). by apply Hundo.
    + intros Hcalm Hdv [Hnin Hnd]%NoDup_cons Hst. destruct (Hall Hcalm ltac:(by eapply distinct_changed) Hnd Hst) as [Hl Hrest].
      destruct (Hnext eq_refl) as [_ Hh]. destruct (Hh Hcalm) as (value & Hv & Hheld). split.
      * constructor; [|done]. exists value. split; [done|]. by apply Hrest.
      * intros o v [Hne Hno]%not_elem_of_cons Ho. apply Hrest; [done|]. by eapply holds_changed.
  - destruct (Href eq_refl) as [Hst Hd]. exists (vb' :: vbs), r', [], s1. split; [done|]. split; [done|]. split; [|done].
    intros s2 Hok2 Hd2. exists s2. split; [done|]. split; [done|]. by transitivity s1.
  - exists (vb' :: vbs), r', [vb'], s1. split; [done|]. split; [done|]. split; [|intros ?; by destruct Hfail].
    intros s2 Hok2 Hd. cbn [rollback_varbinds]. rewrite agent_ret_bind. by apply Hundo.
Qed.

(** The bindings that check and commit a request change nothing. *)
Lemma vb_event_ok vb event s : agent_ok s -> exists inst, vb_instance vb s = AOk inst s /\
  forall p, inst = Some p -> exists code s', TnmSnmpEvalNodeBinding session req p event (vb_value vb) (vb_clientData vb) s = AOk code s' /\
    frame s s' /\ Q code.
Proof using Hquiet HQ.
  intros Hok. destruct (oid_from_string_total (default [] (vb_soid vb)) s) as [oid E].
  exists ((fun i => ptr_to s i.1) <$> served (ag_tree s) false oid). split.
  - unfold vb_instance. rewrite (agent_bind_ok _ _ _ _ _ E). by apply find_instance_served, ok_tree.
  - intros p. destruct (served (ag_tree s) false oid) as [[o nd]|] eqn:Es; [|done]. intros [= <-]. cbn [fst].
    apply (served_inst _ _ _ _ (ok_tree s Hok)) in Es. cbn in Es.
    apply (eval_node_quiet Q Hquiet) with nd; [by apply deref_inst|apply (ok_cmds s Hok)|done].
Qed.

Lemma check_varbinds_ok vbs : forall i r s, agent_ok s -> exists r' s', check_varbinds session req i vbs r s = AOk r' s' /\ core s s'.
Proof using Hquiet HQ.
  induction vbs as [|vb vbs IH]; intros i r s Hok; [by exists r, s|]. cbn [check_varbinds].
  destruct (vb_event_ok vb TNM_SNMP_CHECK_EVENT s Hok) as (inst & E & Hev). rewrite (agent_bind_ok _ _ _ _ _ E).
  assert (Hcode : exists code s1, match inst with
      | Some inst => TnmSnmpEvalNodeBinding session req inst TNM_SNMP_CHECK_EVENT (vb_value vb) (vb_clientData vb)
      | None => _ ← Tcl_ResetResult; mret EVAL_ERROR end s = AOk code s1 /\ core s s1).
  { destruct inst as [p|]; [destruct (Hev p eq_refl) as (code & s1 & E1 & F & _); exists code, s1; auto with agent|].
    eexists _, _. split; [reflexivity|]. constructor; try done. by eexists. }
  destruct Hcode as (code & s1 & E1 & C). rewrite (agent_bind_ok _ _ _ _ _ E1).
  assert (Hok1 : agent_ok s1) by (by eapply agent_ok_core). case_bool_decide.
  - destruct (error_from_result_ok s1 (ok_text s1 Hok1)) as (st & s2 & E2 & F2). rewrite (agent_bind_ok _ _ _ _ _ E2).
    eexists _, s2. split; [reflexivity|]. transitivity s1; auto with agent.
  - destruct (IH (i + 1) r s1 Hok1) as (r' & s2 & E2 & C2). exists r', s2. split; [done|]. by transitivity s1.
Qed.

Lemma commit_varbinds_ok vbs : forall s, agent_ok s -> exists s', commit_varbinds session req vbs s = AOk tt s' /\ core s s'.
Proof using Hquiet HQ.
  induction vbs as [|vb vbs IH]; intros s Hok; [by exists s|]. cbn [commit_varbinds].
  destruct (vb_event_ok vb TNM_SNMP_COMMIT_EVENT s Hok) as (inst & E & Hev). rewrite (agent_bind_ok _ _ _ _ _ E).
  assert (Hcode : exists code s1, match inst with
      | Some inst => TnmSnmpEvalNodeBinding session req inst TNM_SNMP_COMMIT_EVENT (vb_value vb) (vb_clientData vb)
      | None => mret EVAL_OK end s = AOk code s1 /\ core s s1).
  { destruct inst as [p|]; [destruct (Hev p eq_refl) as (code & s1 & E1 & F & _); exists code, s1; auto with agent|by eexists _, _]. }
  destruct Hcode as (code & s1 & E1 & C). rewrite (agent_bind_ok _ _ _ _ _ E1).
  destruct (IH s1) as (s2 & E2 & C2); [by eapply agent_ok_core|]. exists s2. split; [done|]. by transitivity s1.
Qed.

(** A varbind that gives an instance a value. *)
Definition assigns (b : list Z * cstring) (vb : tcl_list cstring) : Prop :=
  exists type ws, vb = TclList (dotted b.1 :: type :: b.2 :: ws).

Lemma split_assigns bs vbs : Forall2 assigns bs vbs -> exists l, split_varbinds vbs = inl l /\
  Forall2 fresh_for (bs.*1) l /\ Forall2 (fun b vb => vb_value vb = Some b.2) bs l.
Proof.
  induction 1 as [|b vb bs vbs (type & ws & ->) _ (l & E & Hl & Hv)]; [by exists []|].
  eexists. cbn [split_varbinds]. rewrite E. split; [reflexivity|].
  split; constructor; try done.
Qed.

Lemma holds_values bs s1 l : Forall2 (fun b vb => vb_value vb = Some b.2) bs l ->
  Forall2 (fun oid vb => exists value, vb_value vb = Some value /\ holds s1 oid value) (bs.*1) l ->
  Forall (fun b => holds s1 b.1 b.2) bs.
Proof.
  induction 1 as [|b vb bs l Hv _ IH]; cbn [fmap list_fmap]; intros Hh; [done|].
  apply Forall2_cons in Hh as [(value & Hv' & Hx) Hh]. constructor; [|by apply IH].
  rewrite Hv in Hv'. by injection Hv' as <-.
Qed.

Lemma holds_same s s' oid value : same_data s s' -> holds s oid value -> holds s' oid value.
Proof. intros [Di Dv] (nd & name & n & ? & ? & ?). exists nd, name, n. by rewrite Di, Dv. Qed.

Lemma check_size_ok r : rs_status (check_size r) = TNM_SNMP_NOERROR -> rs_status r = TNM_SNMP_NOERROR.
Proof. unfold check_size. by case_bool_decide. Qed.
End set.

(** ** All or nothing *)


(** The name is set, the location is created, and then the services can not be:
    nothing of the request stays. *)
Definition sample_set : list (list Z * cstring) :=
  [(sysName, cstr "63"); (sysLocation, cstr "64"); (sysLocation, cstr "65"); (sysServices, cstr "72")].
Definition sample_set_pdu : TnmSnmpPdu := mkPdu ASN1_SNMP_SET 4711 0 0 None [] []
  (TclList (map (fun b => TclList [dotted b.1; cstr "OCTET STRING"; b.2]) sample_set)).

Lemma sample_creatable oid : sysName = oid \/ ~ oid `prefix_of` sysName -> creatable sample_state oid.
Proof.
  cbn [ag_tree sample_state]. intros Hp Hm nm [= <-]. destruct sample_inst as [_ Hi]. cbn [ag_tree ag_vars sample_state] in *.
  split; [by apply lookup_singleton_ne|].
  split; intros o; rewrite Hi; case_decide as Ho.
  - by intros nd [= <-].
  - done.
  - intros _. subst o. destruct Hp as [<-|?]; [|done]. by rewrite Hi, decide_True in Hm.
  - by intros [? ?].
Qed.

Lemma sample_names o1 o2 : o1 = o2 \/ (~ o2 `prefix_of` o1 /\ dotted o1 <> dotted o2) -> fits o1 o2.
Proof. intros [->|[? Hd]]; [by left|right]. split; [done|]. intros nm [= <-] [= E]. by apply app_inj_2 in E as [E _]. Qed.

Definition reply_status (out : agent_out (option response)) : option (Z * Z) :=
  match out with AOk (Some r) _ => Some (rs_status r, rs_index r) | _ => None end.

