(* ===== verification/AgentTheorems.v ===== *)
(** The agent from packet to packet: get requests, the cache of answers. *)

From stdpp Require Import gmap.
From S2P Require Import Prelude Ber BerSpec CStr Oid OidTheorems Util Snmp SnmpEnc SnmpSpec SnmpDec SnmpRound SnmpTheorems Inst InstTheorems Callback Mib Agent AgentTree AgentInv AgentRequest.
Local Open Scope Z_scope.

Section requests.
Context `{!SnmpEnv, !AgentEnv}.

Lemma count_request_ok type s : exists s', count_request type s = AOk tt s' /\ stat_frame s s'.
Proof. unfold count_request. repeat case_bool_decide; eexists; (split; [reflexivity|by constructor]). Qed.

(** A request that is not answered from the cache. *)
Lemma request_miss session pdu addr s : pdu_type pdu <> ASN1_SNMP_SET ->
  pdu_requestId pdu = 0 \/ cache_find (ag_clock s) session pdu 0 (ag_cache s) = None ->
  exists s1, stat_frame s s1 /\ TnmSnmpAgentRequest session (pdu, addr) s = answer_request session (pdu, addr) s1.
Proof.
  intros Ht Hmiss. destruct (count_request_ok (pdu_type pdu) s) as (s1 & E & F). exists s1. split; [done|].
  unfold TnmSnmpAgentRequest. rewrite (agent_bind_ok _ _ _ _ _ E).
  rewrite (bool_decide_eq_false_2 (pdu_type pdu = ASN1_SNMP_SET)) by done. rewrite agent_ret_bind.
  rewrite (agent_bind_ok (CacheHit session (pdu, addr)) _ s1 None s1); [done|]. unfold CacheHit. cbn [fst].
  case_bool_decide as Hz; [done|]. destruct Hmiss as [?|Hmiss]; [done|].
  by rewrite (sf_clock _ _ F), (sf_cache _ _ F), Hmiss.
Qed.

(** What a get request is answered with: the reply of [get_result]. *)
Definition get_reply (session : AgentSession) (req : request) (s : AgentState) (oids : list (list Z)) : TnmSnmpPdu :=
  plain_reply req.1 (check_size (get_result session req s 0 oids rs_empty)).

Lemma answer_get session pdu addr oids vbs rvbs s : quiet (fun code => code <> EVAL_ERROR) -> agent_ok s ->
  bindings_ok (as_bindings session) -> length (ag_cache s) = CACHE_SIZE ->
  pdu_type pdu <> ASN1_SNMP_SET -> pdu_varbind pdu = TclList vbs -> Forall2 asks oids vbs -> Forall request_oid oids ->
  readable (pdu, addr) s oids ->
  let reply := get_reply session (pdu, addr) s oids in
  can_send session reply rvbs addr ->
  let i := next_slot (ag_last s) in
  let sent := v1_pdu (as_snmp session) reply in
  exists s' stored, answer_request session (pdu, addr) s = AOk TCL_OK s' /\ core s s' /\ text s' /\
    ag_sent s' = ag_sent s ++ [(addr, community_message (as_snmp session) sent rvbs)] /\
    ag_clock s' = ag_clock s /\ ag_last s' = i /\ same_pdu sent stored /\ v1_pdu (as_snmp session) stored = stored /\
    ag_cache s' = <[i := mkCache (Some (as_address session)) (pdu_varbind pdu) stored addr (ag_clock s)]> (ag_cache s).
Proof.
  intros Hq Hok Hb Hl Hty Hv Ha Ho Hr reply Hcan i sent.
  apply (answer_ok _ Hq ltac:(done) session pdu addr s _ rvbs Hb Hl (ok_text s Hok) Hcan).
  intros s1 C1 _. rewrite bool_decide_eq_false_2 by done.
  destruct (get_request_spec session (pdu, addr) Hq oids vbs s1) as (s2 & E & F);
    [by eapply agent_ok_core|done|done|done|by eapply readable_core|].
  exists s2. split; [|done]. by rewrite E, (get_result_core session (pdu, addr) s s1).
Qed.

(** ** From packet to packet *)

(** The PDU the agent makes of a request of [pdu] for [oids]. *)
Definition received_pdu (session : AgentSession) (uninit pdu : TnmSnmpPdu) (oids : list (list Z)) : TnmSnmpPdu :=
  set_context (decoded_pdu uninit pdu (map (fun oid => (oid, VNull)) oids)) (ss_community (as_snmp session)).

Lemma received_asks oids : Forall2 asks oids (map TclList (map varbind_words (map (fun oid => (oid, VNull)) oids))).
Proof. induction oids as [|oid oids IH]; constructor; [|done]. unfold asks. eexists _, _, _. reflexivity. Qed.

(** A retrieval request on a session. *)
Definition retrieval (session : AgentSession) (type : Z) : Prop :=
  type = ASN1_SNMP_GET \/ type = ASN1_SNMP_GETNEXT \/
  (type = ASN1_SNMP_GETBULK /\ ss_version (as_snmp session) <> TNM_SNMPv1).

Lemma deliver_request session msg pdu addr s : retrieval session (pdu_type pdu) -> as_type session = TNM_SNMP_RESPONDER ->
  msg_version msg = ss_version (as_snmp session) -> Authentic (as_snmp session) msg pdu = true ->
  deliver_one session msg (pdu, addr) s =
  (_ ← TnmSnmpEvalBinding session (pdu, addr) TNM_SNMP_RECV_EVENT;
   code ← TnmSnmpAgentRequest session (pdu, addr);
   mret (code, pdu, true)) s.
Proof.
  intros Hty Hresp Hv Ha. unfold deliver_one. rewrite Ha, Hresp, Hv. rewrite (bool_decide_eq_false_2 (_ <> _)) by (intros Hne; by apply Hne).
  destruct Hty as [->|[->|[-> Hv1]]]; [done|done|]. cbn. by rewrite (bool_decide_eq_false_2 (ss_version _ = TNM_SNMPv1)).
Qed.

(** C4: the agent answers a get, getnext or getbulk request that arrives as a packet
    of a manager with the community of the session.  For every identifier, in their
    order, the answer holds the label, the type and the value of the variable of the
    instance: the one with this identifier for get, the first one behind it for
    getnext and getbulk (which is treated like getnext); without one it holds the
    exception noSuchObject, noSuchInstance or endOfMibView, and on an SNMPv1 session
    the whole answer is noSuchName with the number of the first such varbind and the
    varbinds of the request.  The packet with this answer is sent to the address of
    the request, the manager decodes it to the answer, and neither the instances nor
    the variables change. *)
Theorem agent_answers session uninit pdu oids from rvbs s : quiet (fun code => code <> EVAL_ERROR) -> agent_ok s ->
  bindings_ok (as_bindings session) -> length (ag_cache s) = CACHE_SIZE ->
  as_type session = TNM_SNMP_RESPONDER -> community_session (as_snmp session) ->
  retrieval session (pdu_type pdu) -> Forall request_oid oids ->
  let qvbs := map (fun oid => (oid, VNull)) oids in
  let packet := community_message (as_snmp session) pdu qvbs in
  let req := received_pdu session uninit pdu oids in
  pdu_encodes (as_snmp session) pdu qvbs -> status_ok (pdu_errorStatus pdu) -> Forall varbind_fits qvbs ->
  Z.of_nat (length packet) < 65536 -> readable (req, from) s oids ->
  pdu_requestId pdu = 0 \/ cache_find (ag_clock s) session req 0 (ag_cache s) = None ->
  let reply := get_reply session (req, from) s oids in
  let sent := v1_pdu (as_snmp session) reply in
  let answer := community_message (as_snmp session) sent rvbs in
  can_send session reply rvbs from -> status_ok (pdu_errorStatus sent) -> Forall varbind_fits rvbs ->
  exists s', TnmSnmpDecode [session] packet from uninit s = AOk (Delivered TCL_OK) s' /\ core s s' /\
    ag_sent s' = ag_sent s ++ [(from, answer)] /\
    forall msg recv stats, exists stats', DecodeMessage TNM_OID_MAX_SIZE msg recv stats
        (TnmBerCreate answer (Z.of_nat (length answer)))
      = (DecOk (received_message (as_snmp session) msg)
           (set_context (decoded_pdu recv sent rvbs) (ss_community (as_snmp session))), stats').
Proof.
  intros Hq Hok Hb Hl Hresp Hc Hty Ho qvbs packet req He Hst Hf Hp Hr Hmiss reply sent answer Hcan Hst' Hf'.
  unfold TnmSnmpDecode. rewrite (agent_bind_ok (count snmpInPkts) _ _ tt _ eq_refl), (agent_bind_ok agent_get _ _ _ _ eq_refl).
  set (s1 := with_stats _ s).
  destruct (DecodeMessage_community TNM_OID_MAX_SIZE ltac:(lia) msg_zero uninit (as_snmp session) pdu qvbs (ag_stats s1) Hc He Hst Hf Hp)
    as [stats1 E1]. fold packet in E1. rewrite E1.
  change (set_context (decoded_pdu uninit pdu qvbs) (ss_community (as_snmp session))) with req.
  rewrite (agent_bind_ok (agent_do _) _ _ tt _ eq_refl). set (s2 := with_stats stats1 s1).
  change (pdu_type req) with (pdu_type pdu). cbn [msg_version].
  assert (Hnr : bool_decide (pdu_type pdu = ASN1_SNMP_REPORT) = false /\ bool_decide (pdu_type pdu = ASN1_SNMP_RESPONSE) = false).
  { destruct Hty as [->|[->|[-> _]]]; done. }
  destruct Hnr as [-> ->]. rewrite andb_false_r. cbn [orb].
  set (msg := mkMessage _ _ _ _ _ _ _ _ _).
  assert (Hdel : exists s5, deliver_one session msg (req, from) s2 = AOk (TCL_OK, req, true) s5 /\ core s s5 /\ ag_sent s5 = ag_sent s ++ [(from, answer)]).
  { rewrite deliver_request; [|done|done|done|apply authentic_community, Hc].
    destruct (eval_binding_quiet _ Hq session (req, from) TNM_SNMP_RECV_EVENT s2 Hb ltac:(done)) as (c & s3 & E3 & F3 & _).
    rewrite (agent_bind_ok _ _ _ _ _ E3).
    assert (C3 : core s s3) by (transitivity s2; [by constructor|auto with agent]).
    destruct (request_miss session req from s3) as (s4 & F4 & E4).
    { destruct Hty as [Hx|[Hx|[Hx _]]]; change (pdu_type req) with (pdu_type pdu); by rewrite Hx. }
    { destruct Hmiss as [?|Hmiss]; [by left|right]. by rewrite (fr_clock _ _ F3), (fr_cache _ _ F3). }
    assert (C4 : core s s4) by (transitivity s3; auto with agent).
    destruct (answer_get session req from oids (map TclList (map varbind_words qvbs)) rvbs s4 Hq) as (s5 & stored & E5 & C5 & _ & S5 & _);
      [by eapply agent_ok_core|done|by rewrite (sf_cache _ _ F4), (fr_cache _ _ F3)| |done|apply received_asks|done|by eapply readable_core| |].
    { destruct Hty as [Hx|[Hx|[Hx _]]]; change (pdu_type req) with (pdu_type pdu); by rewrite Hx. }
    { unfold get_reply. by rewrite (get_result_core session (req, from) s s4). }
    unfold mbind at 1, AgentM_bind at 1. rewrite E4, E5. exists s5. split; [done|]. split; [by transitivity s4|].
    rewrite S5, (sf_sent _ _ F4), (fr_sent _ _ F3). unfold get_reply. by rewrite (get_result_core session (req, from) s s4). }
  destruct Hdel as (s5 & E5 & C5 & S5).
  assert (E6 : deliver [session] msg (req, from) false s2 = AOk (TCL_OK, true) s5) by (cbn [deliver]; by rewrite (agent_bind_ok _ _ _ _ _ E5)).
  rewrite (agent_bind_ok _ _ _ _ _ E6). exists s5. split; [done|]. split; [done|]. split; [done|]. intros msg' recv stats.
  destruct Hcan as (_ & He' & Hl' & _). unfold TNM_SNMP_MAXSIZE in Hl'.
  destruct (DecodeMessage_community TNM_OID_MAX_SIZE ltac:(lia) msg' recv (as_snmp session) sent rvbs stats Hc He' Hst' Hf' ltac:(fold sent in Hl'; lia))
    as [stats' E]. by exists stats'.
Qed.

(** ** The cache *)

(** A request that is answered from the cache. *)
Lemma request_hit Q session pdu addr s i e rvbs : quiet Q -> Q EVAL_OK -> bindings_ok (as_bindings session) ->
  pdu_type pdu <> ASN1_SNMP_SET -> pdu_requestId pdu <> 0 ->
  cache_find (ag_clock s) session pdu 0 (ag_cache s) = Some i -> ag_cache s !! i = Some e ->
  can_send session (ce_response e) rvbs addr ->
  exists s', TnmSnmpAgentRequest session (pdu, addr) s = AOk TCL_OK s' /\ core s s' /\
    ag_sent s' = ag_sent s ++ [(addr, community_message (as_snmp session) (v1_pdu (as_snmp session) (ce_response e)) rvbs)] /\
    (event_command session TNM_SNMP_SEND_EVENT = None -> ag_log s' = ag_log s).
Proof.
  intros Hq HQ Hb Ht Hid Hfind He Hcan. unfold TnmSnmpAgentRequest.
  assert (E1 : exists s1, count_request (pdu_type pdu) s = AOk tt s1 /\ stat_frame s s1 /\ ag_log s1 = ag_log s).
  { unfold count_request. repeat case_bool_decide; eexists; (split; [reflexivity|]); (split; [by constructor|done]). }
  destruct E1 as (s1 & E1 & F1 & L1). rewrite (agent_bind_ok _ _ _ _ _ E1).
  rewrite (bool_decide_eq_false_2 (pdu_type pdu = ASN1_SNMP_SET)) by done. rewrite agent_ret_bind.
  rewrite <- (sf_clock _ _ F1), <- (sf_cache _ _ F1) in Hfind.
  unfold mbind at 1, AgentM_bind at 1. unfold CacheHit at 1. cbn [fst snd].
  rewrite (bool_decide_eq_false_2 (pdu_requestId pdu = 0)) by done. rewrite Hfind. set (s2 := with_cache _ _ s1).
  rewrite (agent_bind_ok agent_get _ s2 s2 s2) by done.
  assert (He2 : ag_cache s2 !! i = Some (mkCache (ce_session e) (ce_request e) (ce_response e) addr (ce_timestamp e))).
  { unfold s2. cbn [ag_cache with_cache]. by rewrite list_lookup_alter_eq, (sf_cache _ _ F1), He. }
  rewrite He2. cbn [need]. rewrite agent_ret_bind. cbn [ce_response].
  destruct (encode_response_ok Q Hq HQ session (ce_response e) addr rvbs s2 Hb Hcan) as (s3 & E3 & T3 & S3).
  rewrite (agent_bind_ok _ _ _ _ _ E3). eexists. split; [reflexivity|]. cbn. split_and!.
  - transitivity s1; [auto with agent|]. transitivity s2; [by constructor|]. transitivity s3; [apply S3|by constructor].
  - rewrite (sd_sent _ _ _ _ S3). unfold s2. cbn. by rewrite (sf_sent _ _ F1).
  - intros Hn. rewrite (sd_log _ _ _ _ S3 Hn). by unfold s2.
Qed.

(** Other requests that take an element of the cache. *)
Fixpoint cache_gets (l : list (AgentSession * request)) : AgentM unit :=
  match l with
  | [] => mret tt
  | (session, req) :: l => _ ← CacheGet session req; cache_gets l
  end.

Lemma cache_gets_keep l : forall s i e, length (ag_cache s) = CACHE_SIZE -> ag_cache s !! i = Some e ->
  (forall j, (j < length l)%nat -> ((ag_last s + j + 1) mod CACHE_SIZE)%nat <> i) ->
  exists s', cache_gets l s = AOk tt s' /\ ag_cache s' !! i = Some e.
Proof.
  induction l as [|[session req] l IH]; intros s i e Hl He Hj; [by exists s|]. cbn [cache_gets].
  destruct (cache_get_ok session req s Hl) as (reply & _ & E). rewrite (agent_bind_ok _ _ _ _ _ E).
  apply IH; cbn [ag_cache ag_last with_cache]; [by rewrite length_insert| |].
  - rewrite list_lookup_insert_ne; [done|]. pose proof (Hj 0%nat ltac:(cbn; lia)) as H0j. rewrite Nat.add_0_r in H0j. done.
  - intros j Hlt. specialize (Hj (S j) ltac:(cbn; lia)). intros E'. apply Hj. rewrite <- E'. unfold next_slot.
    rewrite <- !Nat.add_assoc, Nat.Div0.add_mod_idemp_l. f_equal. lia.
Qed.

(** C26: a retry is answered from the cache.  After a get request with an identifier
    other than 0 was answered, a request of the same session with the same identifier
    and varbinds that arrives at most five seconds later is answered with the same
    packet, sent to the address of the retry; nothing is looked up and, unless the
    session has a binding for packets that are sent, no script is evaluated.  The
    answer stays in the cache while fewer than 64 other requests are answered.  A set
    request is never answered from the cache: it removes the answers of its session
    first, so a retry of a set request is executed again. *)
Theorem agent_cache session pdu addr oids vbs rvbs s : quiet (fun code => code <> EVAL_ERROR) -> agent_ok s ->
  bindings_ok (as_bindings session) -> length (ag_cache s) = CACHE_SIZE ->
  pdu_type pdu <> ASN1_SNMP_SET -> pdu_varbind pdu = TclList vbs -> Forall2 asks oids vbs -> Forall request_oid oids ->
  readable (pdu, addr) s oids -> pdu_requestId pdu <> 0 -> ag_clock s <> 0 ->
  cache_find (ag_clock s) session pdu 0 (ag_cache s) = None ->
  let reply := get_reply session (pdu, addr) s oids in
  let packet := community_message (as_snmp session) (v1_pdu (as_snmp session) reply) rvbs in
  can_send session reply rvbs addr ->
  exists s' e, TnmSnmpAgentRequest session (pdu, addr) s = AOk TCL_OK s' /\ ag_sent s' = ag_sent s ++ [(addr, packet)] /\
    ag_clock s' = ag_clock s /\ ag_cache s' !! ag_last s' = Some e /\
    (forall s2 pdu2 addr2, ag_cache s2 = ag_cache s' -> ag_clock s <= ag_clock s2 <= ag_clock s + 5 ->
       pdu_type pdu2 <> ASN1_SNMP_SET -> pdu_requestId pdu2 = pdu_requestId pdu -> pdu_varbind pdu2 = pdu_varbind pdu ->
       can_send session reply rvbs addr2 ->
       exists s3, TnmSnmpAgentRequest session (pdu2, addr2) s2 = AOk TCL_OK s3 /\ core s2 s3 /\
         ag_sent s3 = ag_sent s2 ++ [(addr2, packet)] /\
         (event_command session TNM_SNMP_SEND_EVENT = None -> ag_log s3 = ag_log s2)) /\
    (forall others, (length others < CACHE_SIZE)%nat ->
       exists s3, cache_gets others s' = AOk tt s3 /\ ag_cache s3 !! ag_last s' = Some e) /\
    (forall s2 pdu2 addr2, pdu_type pdu2 = ASN1_SNMP_SET ->
       exists s3, core s2 s3 /\ TnmSnmpAgentRequest session (pdu2, addr2) s2 = answer_request session (pdu2, addr2) s3).
Proof.
  intros Hq Hok Hb Hl Hty Hv Ha Ho Hr Hid Hclock Hmiss reply packet Hcan.
  destruct (request_miss session pdu addr s Hty ltac:(by right)) as (s1 & F1 & E1).
  assert (C1 : core s s1) by auto with agent.
  assert (Hreply : get_reply session (pdu, addr) s1 oids = reply).
  { unfold reply, get_reply. by rewrite (get_result_core session (pdu, addr) s s1). }
  destruct (answer_get session pdu addr oids vbs rvbs s1 Hq) as (s' & stored & E & C & T & S & Hck & Hlast & Hsame & Hidem & Hcache);
    [by eapply agent_ok_core|done|by rewrite (sf_cache _ _ F1)|done|done|done|done|by eapply readable_core|by rewrite Hreply|].
  rewrite Hreply, (sf_clock _ _ F1), (sf_cache _ _ F1), (sf_sent _ _ F1), (sf_last _ _ F1) in *.
  set (i := next_slot (ag_last s)) in *. set (e := mkCache _ _ stored _ _) in *.
  assert (Hi : ag_cache s' !! i = Some e) by (rewrite Hcache; apply list_lookup_insert_eq; rewrite Hl; apply next_slot_lt).
  exists s', e. rewrite E1, Hlast. split; [done|]. split; [done|]. split; [done|]. split; [done|]. split; [|split].
  - intros s2 pdu2 addr2 Hc2 Ht2 Hty2 Hid2 Hvb2 Hcan2.
    assert (Hst : pdu_requestId stored = pdu_requestId pdu).
    { destruct Hsame as (_ & <- & _). unfold reply, v1_pdu. by case_bool_decide. }
    assert (Hfind : cache_find (ag_clock s2) session pdu2 0 (ag_cache s2) = Some i).
    { rewrite Hc2. apply (cache_find_only _ _ _ _ _ e Hi).
      - unfold cache_match, e. cbn [ce_response ce_session ce_timestamp ce_request].
        rewrite Hst, Hid2, Hvb2, (bool_decide_eq_false_2 (ag_clock s = 0)), (bool_decide_eq_false_2 (5 < _)) by lia.
        by rewrite !bool_decide_eq_true_2.
      - intros j e' Hj Hne. rewrite Hcache, list_lookup_insert_ne in Hj by done.
        apply cache_find_None in Hmiss. rewrite Forall_forall in Hmiss. specialize (Hmiss e' (list_elem_of_lookup_2 _ _ _ Hj)).
        unfold cache_match in *. rewrite Hid2, Hvb2. revert Hmiss.
        destruct (bool_decide _); [|done]. destruct (bool_decide _); [|done]. cbn [andb].
        case_bool_decide; [done|]. cbn [orb]. repeat case_bool_decide; cbn; intros; try done; lia. }
    destruct (request_hit _ session pdu2 addr2 s2 i e rvbs Hq ltac:(done) Hb Hty2 ltac:(by rewrite Hid2) Hfind) as (s3 & E3 & C3 & S3 & L3);
      [by rewrite Hc2| |].
    { unfold e. cbn [ce_response]. destruct Hcan2 as (? & He2 & Hl2 & Hs2). unfold can_send. rewrite Hidem.
      rewrite <- (community_message_same _ _ _ _ Hsame). split_and!; try done. by eapply pdu_encodes_same. }
    exists s3. split; [done|]. split; [done|]. split; [|done]. rewrite S3. unfold e. cbn [ce_response].
    by rewrite Hidem, <- (community_message_same _ _ _ _ Hsame).
  - intros others Hlen. rewrite <- Hlast. apply cache_gets_keep; [rewrite Hcache, length_insert; done|by rewrite Hlast|].
    intros j Hj. rewrite Hlast. unfold CACHE_SIZE in *. pose proof (next_slot_lt (ag_last s)) as Hi64. fold i in Hi64. unfold CACHE_SIZE in Hi64.
    intros Hmod. pose proof (Nat.Div0.div_mod (i + j + 1) 64) as Hdm. rewrite Hmod in Hdm. lia.
  - intros s2 pdu2 addr2 Hset. destruct (count_request_ok (pdu_type pdu2) s2) as (s3 & E3 & F3).
    destruct (cache_clear_miss session (pdu2, addr2) s3) as (s4 & E4 & M4 & C4 & _). exists s4.
    split; [transitivity s3; auto with agent|]. unfold TnmSnmpAgentRequest. rewrite (agent_bind_ok _ _ _ _ _ E3).
    rewrite (bool_decide_eq_true_2 (pdu_type pdu2 = ASN1_SNMP_SET)) by done.
    by rewrite (agent_bind_ok _ _ _ _ _ E4), (agent_bind_ok _ _ _ _ _ M4).
Qed.
End requests.

(** ** A request and its retry *)

Definition sample_asked : list (list Z) := [sysName; sysServices].
Definition sample_get : TnmSnmpPdu := mkPdu ASN1_SNMP_GET 4711 0 0 None [] []
  (TclList (map (fun oid => TclList [dotted oid; cstr "NULL"; []]) sample_asked)).
Definition sample_reply : list varbind := [(sysName, VOctets [0x61; 0x62]); (sysServices, VException ASN1_NO_SUCH_OBJECT)].

Lemma sample_readable pdu s : inst_map (ag_tree s) = inst_map sample_root -> ag_vars s = ag_vars sample_state ->
  pdu_type pdu = ASN1_SNMP_GET -> readable (pdu, sample_addr) s sample_asked.
Proof.
  intros Et Ev Hty. apply Forall_forall. intros oid _ o nd. unfold served. cbn [fst]. rewrite Hty, Et, (proj2 sample_inst).
  cbn. case_decide; [|done]. intros [= <- <-]. exists name_var, (cstr "61:62"). split; [done|]. exists 1%nat. by rewrite Ev.
Qed.

Lemma sample_can_send addr :
  can_send sample_session (get_reply sample_session (sample_get, sample_addr) sample_state sample_asked) sample_reply addr.
Proof.
  split; [by_eval|]. split; [|split; [by_eval|done]].
  constructor; try by_eval. eexists. split; [reflexivity|]. repeat constructor; try by_eval; try (vm_compute; congruence).
Qed.

Lemma agent_answers_witness :
  let packet := community_message (as_snmp sample_session) sample_get (map (fun oid => (oid, VNull)) sample_asked) in
  let answer := community_message (as_snmp sample_session)
                  (mkPdu ASN1_SNMP_RESPONSE 4711 0 0 None [] [] (TclList [])) sample_reply in
  exists s', TnmSnmpDecode [sample_session] packet sample_addr blank_pdu sample_state = AOk (Delivered TCL_OK) s' /\
    core sample_state s' /\ ag_sent s' = [(sample_addr, answer)].
Proof.
  intros packet answer.
  destruct (agent_answers sample_session blank_pdu sample_get sample_asked sample_addr sample_reply sample_state)
    as (s' & E & C & S & _).
  - by apply sample_quiet.
  - apply sample_inst.
  - constructor.
  - done.
  - done.
  - by_eval.
  - by left.
  - by_eval.
  - constructor; try by_eval. eexists. split; [reflexivity|]. repeat constructor; by_eval.
  - by_eval.
  - by_eval.
  - by_eval.
  - by apply sample_readable.
  - right. by vm_compute.
  - eapply can_send_same; [|exact (sample_can_send sample_addr)]. by vm_compute.
  - by_eval.
  - by_eval.
  - exists s'. split; [exact E|]. split; [exact C|exact S].
Defined.

Lemma agent_cache_witness : exists s' packet,
  TnmSnmpAgentRequest sample_session (sample_get, sample_addr) sample_state = AOk TCL_OK s' /\
  exists s3, TnmSnmpAgentRequest sample_session (sample_get, mkAddr [10; 0; 0; 3] 162) s' = AOk TCL_OK s3 /\
    ag_sent s3 = [(sample_addr, packet); (mkAddr [10; 0; 0; 3] 162, packet)].
Proof.
  destruct (agent_cache sample_session sample_get sample_addr sample_asked
    (map (fun oid => TclList [dotted oid; cstr "NULL"; []]) sample_asked) sample_reply sample_state)
    as (s' & e & E & S & Hclock & _ & Hretry & _).
  - by apply sample_quiet.
  - apply sample_inst.
  - constructor.
  - done.
  - done.
  - done.
  - repeat constructor; by eexists _, _, _.
  - by_eval.
  - by apply sample_readable.
  - done.
  - done.
  - by vm_compute.
  - exact (sample_can_send sample_addr).
  - destruct (Hretry s' sample_get (mkAddr [10; 0; 0; 3] 162)) as (s3 & E3 & _ & S3 & _).
    + reflexivity.
    + rewrite Hclock. cbn. lia.
    + done.
    + reflexivity.
    + reflexivity.
    + exact (sample_can_send _).
    + exists s'. eexists. split; [exact E|]. exists s3. split; [exact E3|]. rewrite S3, S. reflexivity.
Defined.
