(* ===== verification/Hint.v ===== *)
(** Display hints ([tnmMibUtil.c]): [FormatOctetTC], [FormatIntTC], [ScanOctetTC] and
    [ScanIntTC] convert between values and the notation a textual convention gives
    them, [TnmMibFormatValue] and [TnmMibScanValue] choose the conversion.

    Results of these procedures are [Some] text or octets, or [None] for [NULL].
    [Tcl_GetLong], the integer a string denotes for Tcl, is a parameter. *)

From S2P Require Import Prelude Ber CStr Util Obj Mib.
Local Open Scope Z_scope.
Local Open Scope cint_scope.

(** A value that fits into an [int] and a [long]. *)
Definition fits_int (z : Z) : mib_out Z :=
  if bool_decide (-2147483648 <= z < 2147483648) then mret z else MibFault MibUndefined.
Definition fits_long (z : Z) : mib_out Z :=
  if bool_decide (-9223372036854775808 <= z < 9223372036854775808) then mret z else MibFault MibUndefined.
Definition s64 (z : Z) : Z :=
  let m := u64 z in if bool_decide (m < 9223372036854775808) then m else m - 18446744073709551616.

(** ** Numerals *)

Fixpoint radix_digits (base : Z) (n : nat) (u : Z) : list Z :=
  match n with
  | O => []
  | S n => radix_digits base n (u / base) ++ [u mod base]
  end.

Fixpoint radix_width (base : Z) (fuel : nat) (u : Z) : nat :=
  match fuel with
  | O => O
  | S fuel => if bool_decide (u = 0) then O else S (radix_width base fuel (u / base))
  end.

Definition digit_lower (d : Z) : Z := if bool_decide (d < 10) then 48 + d else 87 + d.
Definition digit_upper (d : Z) : Z := if bool_decide (d < 10) then 48 + d else 55 + d.

(** [%ld], [%lo], [%lx] and [%.*lX] of [sprintf] on 64 bit arguments. *)
Definition sprintf_ld (v : Z) : cstring := if bool_decide (v < 0) then 45 :: sprintf_llu (- v) else sprintf_llu v.
Definition sprintf_lo (u : Z) : cstring :=
  let u := u64 u in map digit_lower (radix_digits 8 (1 `max` radix_width 8 22 u)%nat u).
Definition sprintf_lx (u : Z) : cstring :=
  let u := u64 u in map digit_lower (radix_digits 16 (1 `max` radix_width 16 16 u)%nat u).
Definition sprintf_prec_lX (prec u : Z) : cstring :=
  let u := u64 u in map digit_upper (radix_digits 16 (Z.to_nat prec `max` radix_width 16 16 u)%nat u).

(** [sscanf(p, "%ld", &v)] *)
Definition sscanf_ld (p : cstring) : option Z :=
  let '(neg, s) := skip_sign (skip_space p) in
  if starts_with_digit 10 s then
    let v := (scan_digits 10 s 0).1 in
    Some (if neg then Z.max (-9223372036854775808) (- v) else Z.min 9223372036854775807 v)
  else None.

(** The prefix [0x] of a hexadecimal number. *)
Definition skip_hex_mark (base : Z) (s : cstring) : cstring :=
  match s with
  | 48 :: c :: s' => if bool_decide (base = 16) && (bool_decide (c = 120) || bool_decide (c = 88)) then s' else s
  | _ => s
  end.

(** [sscanf(p, "%lo", &v)] and [sscanf(p, "%lx", &v)]: an unsigned number stored in
    a [long]. *)
Definition sscanf_unsigned (base : Z) (p : cstring) : option Z :=
  let '(neg, s) := skip_sign (skip_space p) in
  let s := skip_hex_mark base s in
  if starts_with_digit base s then
    let v := (scan_digits base s 0).1 in
    Some (s64 (if bool_decide (18446744073709551615 < v) then 18446744073709551615 else if neg then - v else v))
  else None.

(** ** Octet strings *)

(** [while ( *fmt && isdigit( *fmt)) pfx = pfx * 10 + *fmt - '0', have_pfx = 1, fmt++;] *)
Fixpoint hint_digits (fmt : cstring) (pfx : Z) (have_pfx : bool) : mib_out (Z * bool * cstring) :=
  match fmt with
  | c :: fmt' =>
      if isdigit c then pfx ← fits_int (pfx * 10 + c - 48); hint_digits fmt' pfx true
      else mret (pfx, have_pfx, fmt)
  | [] => mret (pfx, have_pfx, fmt)
  end.

Definition hint_prefix (fmt : cstring) : mib_out (Z * cstring) :=
  '(pfx, have_pfx, fmt) ← hint_digits fmt 0 false;
  mret (if (have_pfx : bool) then pfx else 1, fmt).

(** [while (pfx > 0 && i < len) vv = vv * 256 + (bytes[i] & 0xff)] over the octets
    that are collected. *)
Fixpoint collect (octets : list Z) (vv : Z) : mib_out Z :=
  match octets with
  | [] => mret vv
  | b :: octets => vv ← fits_long (vv * 256 + (b .& 0xff)); collect octets vv
  end.

(** [1 << i] in an [int], for [i < 32]. *)
Definition bit (i : nat) : Z := s32 (1 << Z.of_nat i).

(** [for (i = 31; i >= 0 && ! (vv & (1 << i)); i--);] from the bit [i - 1]. *)
Fixpoint top_bit (i : nat) (vv : Z) : nat :=
  match i with
  | O => O
  | S i' => if bool_decide (vv .& bit i' = 0) then top_bit i' vv else i
  end.

(** The bits below the bit [i]. *)
Fixpoint bit_text (i : nat) (vv : Z) : cstring :=
  match i with
  | O => []
  | S i => (if bool_decide (vv .& bit i = 0) then 48 else 49) :: bit_text i vv
  end.

Definition HINT_BUFFER : nat := 80.

(** A text and its NUL in [char buf[80]]. *)
Definition in_buffer (text : cstring) : mib_out cstring :=
  if decide (length text < HINT_BUFFER)%nat then mret text else MibFault MibOverrun.

Definition chr_a : Z := 97.
Definition chr_b : Z := 98.
Definition chr_d : Z := 100.
Definition chr_o : Z := 111.
Definition chr_t : Z := 116.
Definition chr_x : Z := 120.
Definition chr_star : Z := 42.
Definition chr_minus : Z := 45.

(** The text of a number in one of the formats. *)
Definition number_text (c xlen vv : Z) : cstring :=
  if bool_decide (c = chr_d) then sprintf_ld vv
  else if bool_decide (c = chr_o) then sprintf_lo vv
  else if bool_decide (c = chr_x) then sprintf_prec_lX xlen vv
  else bit_text (top_bit 32 vv) vv.

Definition is_number_format (c : Z) : bool :=
  bool_decide (c = chr_b) || bool_decide (c = chr_d) || bool_decide (c = chr_o) || bool_decide (c = chr_x).

(** [switch ( *fmt)] of [FormatOctetTC]: the text that is appended and the new index;
    [None] is [return NULL].  The check for ASCII ends at [n], not at [i + n]. *)
Definition format_item (bytes : list Z) (c pfx : Z) (i : nat) : mib_out (option (cstring * nat)) :=
  let len := length bytes in
  if bool_decide (c = chr_a) then
    let n := if bool_decide (pfx < Z.of_nat (len - i)) then Z.to_nat pfx else (len - i)%nat in
    if forallb (fun b => bool_decide (b < 128)) (take (n - i) (drop i bytes))
    then mret (Some (take n (drop i bytes), (i + n)%nat)) else mret None
  else if is_number_format c then
    xlen ← fits_int (pfx * 2);
    let n := (Z.to_nat pfx `min` (len - i))%nat in
    vv ← collect (take (Z.to_nat pfx) (drop i bytes)) 0;
    text ← in_buffer (number_text c xlen vv);
    mret (Some (text, (i + n)%nat))
  else mret None.

(** The separator behind an item: what is appended and the rest of the format. *)
Definition format_separator (fmt : cstring) (more : bool) : cstring * cstring :=
  match fmt with
  | s :: fmt' =>
      if negb (isdigit s) && bool_decide (s <> chr_star) then (if more then [s] else [], fmt') else ([], fmt)
  | [] => ([], [])
  end.

(** [while ( *fmt && i < len)] *)
Fixpoint format_octets (fuel : nat) (bytes : list Z) (fmt : cstring) (i : nat) (out : cstring)
    : mib_out (option cstring) :=
  if bool_decide (fmt = []) || bool_decide (length bytes <= i)%nat then mret (Some out)
  else
    match fuel with
    | O => MibFault MibLoops
    | S fuel =>
        '(pfx, rest) ← hint_prefix fmt;
        match rest with
        | [] => mret None
        | c :: rest =>
            item ← format_item bytes c pfx i;
            match item with
            | None => mret None
            | Some (text, i) =>
                let more := bool_decide (i < length bytes)%nat in
                let '(sep, rest) := format_separator rest more in
                format_octets fuel bytes (if bool_decide (rest = []) && more then fmt else rest) i (out ++ text ++ sep)
            end
        end
    end.

(** With ["1x:"] the string representation of the value is made of its octets
    again. *)
Definition FormatOctetTC (fuel : nat) (bytes : option (list Z)) (fmt : cstring) : mib_out (option cstring) :=
  match bytes with
  | None => mret None
  | Some bytes => if bool_decide (fmt = cstr "1x:") then mret None else format_octets fuel bytes fmt 0 []
  end.

(** [for (vv = 0; string[i] == '0' || string[i] == '1'; i++)]: whether there is a
    digit, the number and the rest of the string. *)
Fixpoint scan_bits (s : cstring) (vv : Z) (valid : bool) : mib_out (bool * Z * cstring) :=
  match s with
  | c :: s' =>
      if bool_decide (c = 48) || bool_decide (c = 49)
      then vv ← fits_long (vv * 2 + (c - 48)); scan_bits s' vv true
      else mret (valid, vv, s)
  | [] => mret (valid, vv, s)
  end.

Fixpoint skip_while (P : Z -> bool) (s : cstring) : cstring :=
  match s with c :: s' => if P c then skip_while P s' else s | [] => [] end.

Definition is_octal (c : Z) : bool := bool_decide (48 <= c <= 55).

(** A number that was read, if there is one, and the rest of the string. *)
Definition scan_number (v : option Z) (P : Z -> bool) (s : cstring) : option Z * cstring :=
  match v with
  | Some v => (Some v, skip_while P s)
  | None => (None, s)
  end.

(** [while (pfx > 0) ... (char) (vv >> ((pfx - 1) * 8))]; shifting by 64 bits and more
    is undefined. *)
Fixpoint put_octets (pfx : nat) (vv : Z) : list Z :=
  match pfx with
  | O => []
  | S n => u8 (vv >> (Z.of_nat n * 8)) :: put_octets n vv
  end.
Definition put_number (pfx vv : Z) : mib_out (list Z) :=
  if bool_decide (8 < pfx) then MibFault MibUndefined else mret (put_octets (Z.to_nat pfx) vv).

(** [switch ( *fmt)] of [ScanOctetTC]: the octets and the rest of the string. *)
Definition scan_item (c pfx : Z) (s : cstring) : mib_out (option (list Z * cstring)) :=
  let number '(v, s) := octets ← match v with Some vv => put_number pfx vv | None => mret [] end; mret (Some (octets, s)) in
  if bool_decide (c = chr_a) then
    if bool_decide (pfx < Z.of_nat (length s)) then mret (Some (take (Z.to_nat pfx) s, drop (Z.to_nat pfx) s))
    else mret (Some (s, []))
  else if bool_decide (c = chr_b) then
    '(valid, vv, s) ← scan_bits s 0 false;
    number (if (valid : bool) then Some vv else None, s)
  else if bool_decide (c = chr_d) then number (scan_number (sscanf_ld s) isdigit s)
  else if bool_decide (c = chr_o) then number (scan_number (sscanf_unsigned 8 s) is_octal s)
  else if bool_decide (c = chr_x) then number (scan_number (sscanf_unsigned 16 s) isxdigit s)
  else mret None.

(** The separators in the format and in the string. *)
Definition scan_separator (fmt s : cstring) : cstring * cstring :=
  if bool_decide (head fmt = Some chr_star) then (fmt, s)
  else (match fmt with c :: fmt' => if isdigit c then fmt else fmt' | [] => [] end,
        match s with c :: s' => if isdigit c then s else s' | [] => [] end).

(** [while ( *fmt && i < len)]: [s] is the string from the index [i] on. *)
Fixpoint scan_octets (fuel : nat) (fmt s : cstring) (out : list Z) : mib_out (option (list Z)) :=
  if bool_decide (fmt = []) || bool_decide (s = []) then mret (Some out)
  else
    match fuel with
    | O => MibFault MibLoops
    | S fuel =>
        '(pfx, rest) ← hint_prefix fmt;
        match rest with
        | [] => mret None
        | c :: rest =>
            item ← scan_item c pfx s;
            match item with
            | None => mret None
            | Some (octets, s) =>
                let '(rest, s) := scan_separator rest s in
                scan_octets fuel (if bool_decide (rest = []) && bool_decide (s <> []) then fmt else rest) s (out ++ octets)
            end
        end
    end.

Definition ScanOctetTC (fuel : nat) (string fmt : cstring) : mib_out (option (list Z)) :=
  if bool_decide (fmt = cstr "1x:") then mret (TnmHexDec string) else scan_octets fuel fmt string [].

(** ** Integers *)

(** [fmt] behind ["d-"]: the position of the decimal point, -1 if there is none;
    [None] for an invalid format. *)
Definition decimal_point (fmt : cstring) : mib_out (option Z) :=
  '(dpt, have, rest) ← hint_digits fmt 0 false;
  mret (if bool_decide (rest <> []) then None else if (have : bool) then Some dpt else Some (-1)).

(** The digits [s] with a decimal point; without a number behind ["d-"] the NUL of
    [s] is copied too and the last character is written behind the new string. *)
Definition point_text (sign : cstring) (s : cstring) (dpt : Z) : mib_out cstring :=
  let slen := Z.of_nat (length s) in
  if bool_decide (dpt < 0) then MibFault MibOverrun
  else if bool_decide (slen <= dpt) then mret (sign ++ cstr "0." ++ replicate (Z.to_nat (dpt - slen)) 48 ++ s)
  else mret (sign ++ take (Z.to_nat (slen - dpt)) s ++ [chr_dot] ++ drop (Z.to_nat (slen - dpt)) s).

Definition split_minus (s : cstring) : cstring * cstring :=
  match s with
  | c :: s' => if bool_decide (c = chr_minus) then ([chr_minus], s') else ([], s)
  | [] => ([], [])
  end.

Section values.
Context (Tcl_GetLong : cstring -> option Z).

(** [string] is the string representation of the value.  Formatting with ["b"] shifts
    an [int] by 63 bits. *)
Definition FormatIntTC (string fmt : cstring) : mib_out (option cstring) :=
  match Tcl_GetLong string with
  | None => mret None
  | Some value =>
      let signed text := if bool_decide (value < 0) then chr_minus :: text else text in
      match fmt with
      | [] => mret None
      | c :: fmt =>
          if bool_decide (c = chr_d) then
            match fmt with
            | c1 :: fmt =>
                if bool_decide (c1 = chr_minus) then
                  dpt ← decimal_point fmt;
                  match dpt with
                  | None => mret None
                  | Some dpt => let '(sign, s) := split_minus string in text ← point_text sign s dpt; mret (Some text)
                  end
                else mret None
            | [] => mret None
            end
          else if bool_decide (fmt <> []) then mret None
          else if bool_decide (c = chr_x) then mret (Some (signed (sprintf_lx (if bool_decide (value < 0) then - value else value))))
          else if bool_decide (c = chr_o) then mret (Some (signed (sprintf_lo (if bool_decide (value < 0) then - value else value))))
          else if bool_decide (c = chr_b) then MibFault MibUndefined
          else mret None
      end
  end.

(** [for (value = 0; isdigit( *string) || *string == '.'; string++)]: the digits, the
    number of them behind the point (-1 without a point) and the rest. *)
Fixpoint scan_decimal (s : cstring) (value frac : Z) : mib_out (Z * Z * cstring) :=
  match s with
  | c :: s' =>
      if bool_decide (c = chr_dot) then
        if bool_decide (0 <= frac) then mret (value, frac, s) else scan_decimal s' value 0
      else if isdigit c then
        value ← fits_long (value * 10 + c - 48);
        scan_decimal s' value (if bool_decide (0 <= frac) then frac + 1 else frac)
      else mret (value, frac, s)
  | [] => mret (value, frac, s)
  end.

(** [for (; frac < dpt; frac++) value *= 10;], [n] rounds. *)
Fixpoint scale_up (n : nat) (value : Z) : mib_out Z :=
  match n with O => mret value | S n => value ← fits_long (value * 10); scale_up n value end.
(** [for (; frac > dpt; frac--) value /= 10;], [n] rounds. *)
Fixpoint scale_down (n : nat) (value : Z) : Z :=
  match n with O => value | S n => scale_down n (value ÷ 10) end.

(** The number of rounds counts from -1 if the string has no point. *)
Definition scale (frac dpt value : Z) : mib_out Z :=
  value ← scale_up (Z.to_nat (dpt - frac)) value;
  mret (scale_down (Z.to_nat (frac - dpt)) value).

Definition ScanIntTC (string fmt : cstring) : mib_out (option Z) :=
  match fmt with
  | [] => mret None
  | c :: fmt =>
      if bool_decide (c = chr_d) then
        match fmt with
        | c1 :: fmt =>
            if bool_decide (c1 = chr_minus) then
              dpt ← decimal_point fmt;
              match dpt with
              | None => mret None
              | Some dpt =>
                  let '(sign, s) := split_minus string in
                  '(value, frac, rest) ← scan_decimal s 0 (-1);
                  if bool_decide (rest <> []) then mret None
                  else value ← scale frac dpt value; mret (Some (if bool_decide (sign = []) then value else - value))
              end
            else mret None
        | [] => mret None
        end
      else if bool_decide (fmt <> []) then mret None
      else if bool_decide (c = chr_x) then mret (sscanf_unsigned 16 string)
      else if bool_decide (c = chr_o) then mret (sscanf_unsigned 8 string)
      else if bool_decide (c = chr_b) then
        let '(sign, s) := split_minus string in
        '(_, value, _) ← scan_bits s 0 false;
        mret (Some (if bool_decide (sign = []) then value else - value))
      else mret None
  end.

(** ** Values *)

(** The loop over the enumeration: the last element with the value. *)
Fixpoint enum_label (l : list TnmMibRest) (ival : Z) (found : option cstring) : option cstring :=
  match l with
  | [] => found
  | intEnum v label :: l => enum_label l ival (if bool_decide (v = ival) then Some label else found)
  | _ :: l => enum_label l ival found
  end.

(** The first element with the label. *)
Fixpoint enum_value (l : list TnmMibRest) (s : cstring) : option Z :=
  match l with
  | [] => None
  | intEnum v label :: l => if bool_decide (label = s) then Some v else enum_value l s
  | _ :: l => enum_value l s
  end.

(** The conversion of a string to an object identifier and back to its name or to
    numbers ([tnmOidType] of [tnmOidObj.c]). *)
Context (oid_as_name oid_as_oid : cstring -> mib_out (option cstring)).

(** A value with its string and its octets, if it has them. *)
Definition TnmMibFormatValue (fuel : nat) (type : option TnmMibType) (syntax : Z) (string : cstring)
    : mib_out (option cstring) :=
  obj ← match type with
        | None => mret None
        | Some type =>
            if bool_decide (ty_restKind type = TNM_MIB_REST_ENUMS) then
              if bool_decide (syntax = ASN1_INTEGER) then
                match Tcl_GetLong string with
                | None => MibFault MibPanic
                | Some ival => mret (enum_label (ty_restList type) ival None)
                end
              else mret None
            else
              match ty_displayHint type with
              | None => mret None
              | Some hint =>
                  if bool_decide (syntax = ASN1_OCTET_STRING) then FormatOctetTC fuel (TnmHexDec string) hint
                  else if bool_decide (syntax = ASN1_INTEGER) then FormatIntTC string hint
                  else mret None
              end
        end;
  if bool_decide (syntax = ASN1_OBJECT_IDENTIFIER)
  then name ← oid_as_name string; mret match name with Some name => Some name | None => obj end
  else mret obj.

Definition TnmMibScanValue (fuel : nat) (type : option TnmMibType) (syntax : Z) (string : cstring)
    : mib_out (option cstring) :=
  let hint type :=
    match ty_displayHint type with
    | None => mret None
    | Some hint =>
        if bool_decide (syntax = ASN1_OCTET_STRING) then v ← ScanOctetTC fuel string hint; mret (TnmHexEnc <$> v)
        else if bool_decide (syntax = ASN1_INTEGER) then v ← ScanIntTC string hint; mret (sprintf_ld <$> v)
        else mret None
    end in
  let finish (obj : option cstring) :=
    if bool_decide (syntax = ASN1_OBJECT_IDENTIFIER)
    then oid ← oid_as_oid string; mret match oid with Some oid => Some oid | None => obj end
    else mret obj in
  match type with
  | None => finish None
  | Some type =>
      if bool_decide (ty_restKind type = TNM_MIB_REST_ENUMS) then
        match enum_value (ty_restList type) string with
        | Some v => mret (Some (sprintf_d v))
        | None => obj ← hint type; finish obj
        end
      else obj ← hint type; finish obj
  end.
End values.
