(* ===== verification/HintTheorems.v ===== *)
(** Values and their notation under a display hint: what is formatted is scanned
    back, and formatting is safe for hints with small counts. *)

From S2P Require Import Prelude Ber CStr Util UtilTheorems Obj ObjTheorems Mib Hint.
Local Open Scope Z_scope.

(** ** Numerals *)

(** The digits of a text and the number they denote. *)
Definition digit_value (base c : Z) : Z := default 0 (digit_of base c).
Definition denotes (base : Z) (text : cstring) (v : Z) : Prop :=
  text <> [] /\ Forall (fun c => is_Some (digit_of base c)) text /\
  fold_left (fun a c => base * a + digit_value base c) text 0 = v.

(** What follows a number does not continue it. *)
Definition ends (base : Z) (rest : cstring) : Prop :=
  match rest with c :: _ => digit_of base c = None | [] => True end.

Lemma scan_digits_text base text rest : forall acc, Forall (fun c => is_Some (digit_of base c)) text -> ends base rest ->
  scan_digits base (text ++ rest) acc = (fold_left (fun a c => base * a + digit_value base c) text acc, rest).
Proof.
  induction text as [|c text IH]; intros acc Ht Hr.
  - destruct rest as [|c rest]; [done|]. cbn in *. by rewrite Hr.
  - apply Forall_cons in Ht as [[d Hd] Ht]. cbn [app scan_digits fold_left]. rewrite Hd, IH by done.
    assert (digit_value base c = d) as -> by (unfold digit_value; by rewrite Hd). done.
Qed.

Lemma fold_radix base n : 1 < base -> forall u a (f : Z -> Z), (forall d, 0 <= d < base -> f d = d) -> 0 <= u ->
  fold_left (fun a d => base * a + f d) (radix_digits base n u) a = a * base ^ Z.of_nat n + u mod base ^ Z.of_nat n.
Proof.
  intros Hb. induction n as [|n IH]; intros u a f Hf Hu; [cbn; rewrite Z.mod_1_r; lia|].
  cbn [radix_digits]. rewrite fold_left_app. cbn [fold_left].
  rewrite IH by (auto; apply Z.div_pos; lia). rewrite Hf by (apply Z.mod_pos_bound; lia).
  rewrite Nat2Z.inj_succ, Z.pow_succ_r by lia.
  rewrite (Z.rem_mul_r u base) by (try lia; apply Z.pow_nonzero; lia). lia.
Qed.

Lemma radix_range base n : 1 < base -> forall u, 0 <= u -> Forall (fun d => 0 <= d < base) (radix_digits base n u).
Proof.
  intros Hb. induction n as [|n IH]; intros u Hu; [constructor|]. cbn. apply Forall_app. split; [apply IH, Z.div_pos; lia|].
  constructor; [|done]. apply Z.mod_pos_bound. lia.
Qed.

Lemma radix_length base n u : length (radix_digits base n u) = n.
Proof. revert u. induction n as [|n IH]; intros u; [done|]. cbn. rewrite length_app, IH. cbn. lia. Qed.

Lemma radix_width_bound base fuel : 1 < base -> forall u, 0 <= u < base ^ Z.of_nat fuel -> u < base ^ Z.of_nat (radix_width base fuel u).
Proof.
  intros Hb. induction fuel as [|fuel IH]; intros u Hu; [cbn in *; lia|]. cbn [radix_width]. case_bool_decide; [cbn; lia|].
  rewrite Nat2Z.inj_succ, Z.pow_succ_r in * by lia.
  assert (u / base < base ^ Z.of_nat (radix_width base fuel (u / base))) as Hlt.
  { apply IH. split; [apply Z.div_pos; lia|]. apply Z.div_lt_upper_bound; lia. }
  pose proof (Z.mod_pos_bound u base ltac:(lia)). pose proof (Z.div_mod u base ltac:(lia)).
  assert (base * (u / base) <= base * (base ^ Z.of_nat (radix_width base fuel (u / base)) - 1))
    by (apply Z.mul_le_mono_nonneg_l; lia). lia.
Qed.

(** The characters of digits. *)
Definition digit_char (base : Z) (f : Z -> Z) : Prop := forall d, 0 <= d < base -> digit_of base (f d) = Some d.

Lemma digit_lower_char base : 2 <= base <= 16 -> digit_char base digit_lower.
Proof.
  intros Hb d Hd. unfold digit_of, digit_lower, isdigit. repeat case_bool_decide; try lia; f_equal; lia.
Qed.
Lemma digit_upper_char base : 2 <= base <= 16 -> digit_char base digit_upper.
Proof.
  intros Hb d Hd. unfold digit_of, digit_upper, isdigit. repeat case_bool_decide; try lia; f_equal; lia.
Qed.

Lemma fold_left_map {A B C} (f : A -> B -> A) (g : C -> B) l a : fold_left f (map g l) a = fold_left (fun a c => f a (g c)) l a.
Proof. revert a. induction l; intros; cbn; auto. Qed.

Lemma denotes_radix base f n u : 1 < base -> digit_char base f -> (0 < n)%nat -> 0 <= u < base ^ Z.of_nat n ->
  denotes base (map f (radix_digits base n u)) u.
Proof.
  intros Hb Hf Hn Hu. assert (Hlen : length (map f (radix_digits base n u)) = n) by (by rewrite length_map, radix_length).
  split; [intros E; rewrite E in Hlen; cbn in Hlen; lia|]. split.
  - apply Forall_map. eapply Forall_impl; [by apply radix_range; lia|]. intros d Hd. eexists. by apply Hf.
  - rewrite fold_left_map. rewrite (fold_radix base n Hb u 0 (fun d => digit_value base (f d))); [|intros d Hd; unfold digit_value; by rewrite Hf|lia].
    rewrite Z.mod_small; lia.
Qed.

Lemma denotes_llu v : 0 <= v < 18446744073709551616 -> denotes 10 (sprintf_llu v) v.
Proof.
  intros Hv. unfold sprintf_llu, u64. rewrite Z.mod_small by done. pose proof (dec_width_bound 20 v) as Hw.
  assert (Hv' : 0 <= v < 10 ^ Z.of_nat 21) by (change (10 ^ Z.of_nat 21) with 1000000000000000000000; lia).
  split; [|split].
  - destruct (dec_width 20 v); [lia|done].
  - apply Forall_map. eapply Forall_impl; [apply digits_msd_range; lia|]. intros d Hd. eexists. by apply digit_of_10.
  - rewrite fold_left_map.
    assert (E : forall l a, Forall (fun d => 0 <= d < 10) l -> fold_left (fun a d => 10 * a + digit_value 10 (chr_0 + d)) l a = fold_left (fun a d => 10 * a + d) l a).
    { induction l as [|d l IH]; intros a Hl; [done|]. apply Forall_cons in Hl as [Hd Hl]. cbn. assert (digit_value 10 (chr_0 + d) = d) as -> by (unfold digit_value; by rewrite digit_of_10). by apply IH. }
    rewrite E by (apply digits_msd_range; lia). rewrite digits_msd_fold by lia. rewrite Z.mod_small; [lia|]. split; [lia|]. by apply dec_width_upper.
Qed.

(** ** Scanning numerals *)

Lemma digit_of_char base c d : base <= 16 -> digit_of base c = Some d ->
  isspace c = false /\ c <> 45 /\ c <> 43 /\ c <> 120 /\ c <> 88 /\ isxdigit c = true /\ (base <= 10 -> isdigit c = true).
Proof.
  intros Hb. unfold digit_of, isdigit, isspace, isxdigit. repeat case_bool_decide; intros [= <-]; split_and!; try done; try lia.
Qed.

Lemma skip_sign_id c s : c <> 45 -> c <> 43 -> skip_sign (c :: s) = (false, c :: s).
Proof. intros H1 H2. unfold skip_sign. destruct c as [|c|c]; try done. repeat (destruct c as [c|c|]; try done). Qed.

(** A text that starts with a digit: neither blanks nor a sign. *)
Lemma skip_start base text v rest : base <= 16 -> denotes base text v ->
  skip_sign (skip_space (text ++ rest)) = (false, text ++ rest) /\ starts_with_digit base (text ++ rest) = true.
Proof.
  intros Hb (Hn & Ht & _). destruct text as [|c text]; [done|]. apply Forall_cons in Ht as [[d Hd] _].
  destruct (digit_of_char base c d Hb Hd) as (Hs & H1 & H2 & _). cbn [app skip_space]. rewrite Hs. split; [by apply skip_sign_id|].
  cbn. apply bool_decide_eq_true_2. by exists d.
Qed.

Lemma scan_value base text v rest : denotes base text v -> ends base rest -> scan_digits base (text ++ rest) 0 = (v, rest).
Proof. intros (_ & Ht & <-) Hr. by apply scan_digits_text. Qed.

Lemma sscanf_ld_text text v rest : denotes 10 text v -> ends 10 rest -> 0 <= v < 9223372036854775808 -> sscanf_ld (text ++ rest) = Some v.
Proof.
  intros Ht Hr Hv. unfold sscanf_ld. destruct (skip_start 10 text v rest ltac:(lia) Ht) as [-> ->].
  rewrite (scan_value 10 text v rest Ht Hr). cbn [fst]. f_equal. lia.
Qed.

Lemma s64_id z : -9223372036854775808 <= z < 9223372036854775808 -> s64 z = z.
Proof. unfold s64, u64. intros. case_bool_decide; lia. Qed.

(** No ["0x"] in front. *)
Lemma no_hex_mark base text v rest : base <= 16 -> denotes base text v -> ends base rest -> (head rest <> Some 120 /\ head rest <> Some 88) ->
  skip_hex_mark base (text ++ rest) = text ++ rest.
Proof.
  intros Hb (Hn & Ht & _) Hr [Hx1 Hx2]. destruct text as [|c0 text]; [done|]. apply Forall_cons in Ht as [_ Ht].
  cbn [app]. unfold skip_hex_mark. destruct (text ++ rest) as [|c s'] eqn:E; [by destruct c0 as [|c0|c0]; try done; repeat (destruct c0 as [c0|c0|]; try done)|].
  assert (Hc : bool_decide (c = 120) = false /\ bool_decide (c = 88) = false).
  { destruct text as [|c1 text]; cbn in E.
    - rewrite E in *. cbn in *. split; apply bool_decide_eq_false_2; congruence.
    - injection E as -> _. apply Forall_cons in Ht as [[d Hd] _]. destruct (digit_of_char base c d Hb Hd) as (_ & _ & _ & ? & ? & _).
      by split; apply bool_decide_eq_false_2. }
  destruct Hc as [-> ->]. rewrite andb_false_r. destruct c0 as [|c0|c0]; try done. repeat (destruct c0 as [c0|c0|]; try done).
Qed.

Lemma sscanf_unsigned_text base text v rest : 2 <= base <= 16 -> denotes base text v -> ends base rest ->
  head rest <> Some 120 /\ head rest <> Some 88 -> 0 <= v < 9223372036854775808 -> sscanf_unsigned base (text ++ rest) = Some v.
Proof.
  intros Hb Ht Hr Hx Hv. unfold sscanf_unsigned. destruct (skip_start base text v rest ltac:(lia) Ht) as [-> Hs]. cbv beta iota zeta.
  rewrite (no_hex_mark base text v rest ltac:(lia) Ht Hr Hx), Hs, (scan_value base text v rest Ht Hr). cbn [fst].
  rewrite bool_decide_eq_false_2 by lia. by rewrite s64_id by lia.
Qed.

(** The same with a minus sign. *)
Lemma sscanf_unsigned_minus base text v : 2 <= base <= 16 -> denotes base text v -> 0 <= v <= 9223372036854775808 ->
  sscanf_unsigned base (chr_minus :: text) = Some (- v).
Proof.
  intros Hb Ht Hv. unfold sscanf_unsigned. change (skip_sign (skip_space (chr_minus :: text))) with (true, text). cbv beta iota zeta.
  pose proof (no_hex_mark base text v [] ltac:(lia) Ht I ltac:(done)) as E. rewrite app_nil_r in E. rewrite E.
  destruct (skip_start base text v [] ltac:(lia) Ht) as [_ Hs]. rewrite app_nil_r in Hs. rewrite Hs.
  pose proof (scan_value base text v [] Ht I) as Es. rewrite app_nil_r in Es. rewrite Es. cbn [fst].
  rewrite bool_decide_eq_false_2 by lia. f_equal. apply s64_id. lia.
Qed.

Lemma skip_while_text (P : Z -> bool) text rest : Forall (fun c => P c = true) text ->
  match rest with c :: _ => P c = false | [] => True end -> skip_while P (text ++ rest) = rest.
Proof.
  intros Ht Hr. induction Ht as [|c text Hc _ IH]; cbn; [|by rewrite Hc].
  destruct rest as [|c rest]; [done|]. cbn. by rewrite Hr.
Qed.

(** ** Groups of octets *)

(** The number that octets denote, most significant first. *)
Definition big_endian (octets : list Z) (acc : Z) : Z := fold_left (fun a b => a * 256 + b) octets acc.

Lemma big_endian_acc g : forall acc, big_endian g acc = acc * 256 ^ Z.of_nat (length g) + big_endian g 0.
Proof.
  induction g as [|b g IH]; intros acc; [cbn; lia|]. unfold big_endian in *. cbn [fold_left length].
  rewrite IH, (IH (0 * 256 + b)), Nat2Z.inj_succ, Z.pow_succ_r by lia. lia.
Qed.

Lemma big_endian_range g : bytes g -> 0 <= big_endian g 0 < 256 ^ Z.of_nat (length g).
Proof.
  induction 1 as [|b g Hb _ IH]; [done|]. change (big_endian (b :: g) 0) with (big_endian g b).
  rewrite big_endian_acc. cbn [length]. rewrite Nat2Z.inj_succ, Z.pow_succ_r by lia. unfold is_byte in Hb. nia.
Qed.

Lemma pow256_le n m : (n <= m)%nat -> 256 ^ Z.of_nat n <= 256 ^ Z.of_nat m.
Proof. intros. apply Z.pow_le_mono_r; lia. Qed.

Lemma fits_long_ok z : -9223372036854775808 <= z < 9223372036854775808 -> fits_long z = MibOk z.
Proof. intros Hz. unfold fits_long. by rewrite bool_decide_eq_true_2. Qed.

Lemma collect_ok g : forall acc m, bytes g -> 0 <= acc < 256 ^ Z.of_nat m -> (m + length g <= 7)%nat -> collect g acc = MibOk (big_endian g acc).
Proof.
  induction g as [|b g IH]; intros acc m Hg Ha Hm; [done|]. apply Forall_cons in Hg as [Hb Hg]. cbn [collect].
  rewrite land_255, Z.mod_small by apply Hb. cbn [length] in Hm. pose proof (pow256_le (S m) 7 ltac:(lia)) as Hp.
  rewrite Nat2Z.inj_succ, Z.pow_succ_r in Hp by lia. change (256 ^ Z.of_nat 7) with 72057594037927936 in Hp. unfold is_byte in Hb.
  rewrite fits_long_ok by lia. apply (IH _ (S m)); [done| |lia]. rewrite Nat2Z.inj_succ, Z.pow_succ_r by lia. lia.
Qed.

Lemma put_octets_high n : forall a v, put_octets n (a * 256 ^ Z.of_nat n + v) = put_octets n v.
Proof.
  induction n as [|n IH]; intros a v; [done|]. cbn [put_octets]. f_equal.
  - unfold u8. rewrite !Z.shiftr_div_pow2 by lia. replace (2 ^ (Z.of_nat n * 8)) with (256 ^ Z.of_nat n)
      by (rewrite Z.mul_comm, Z.pow_mul_r by lia; done).
    rewrite Nat2Z.inj_succ, Z.pow_succ_r by lia. pose proof (Z.pow_pos_nonneg 256 (Z.of_nat n) ltac:(lia) ltac:(lia)).
    replace (a * (256 * 256 ^ Z.of_nat n) + v) with (v + a * 256 * 256 ^ Z.of_nat n) by lia.
    rewrite Z.div_add by lia. by rewrite Z.mod_add by lia.
  - rewrite Nat2Z.inj_succ, Z.pow_succ_r by lia. replace (a * (256 * 256 ^ Z.of_nat n) + v) with (a * 256 * 256 ^ Z.of_nat n + v) by lia.
    apply IH.
Qed.

Lemma put_octets_inv g : bytes g -> put_octets (length g) (big_endian g 0) = g.
Proof.
  induction 1 as [|b g Hb Hg IH]; [done|]. change (big_endian (b :: g) 0) with (big_endian g b).
  rewrite big_endian_acc. cbn [length put_octets]. rewrite put_octets_high, IH. f_equal.
  unfold u8. rewrite Z.shiftr_div_pow2 by lia. replace (2 ^ (Z.of_nat (length g) * 8)) with (256 ^ Z.of_nat (length g))
    by (rewrite Z.mul_comm, Z.pow_mul_r by lia; done).
  pose proof (big_endian_range g Hg). rewrite Z.add_comm, Z.div_add, Z.div_small by lia. unfold is_byte in Hb. rewrite Z.mod_small; lia.
Qed.

(** ** Hints *)

(** A part of a hint: how many octets, their format, and a separator. *)
Record hint_unit := mkUnit { un_count : Z; un_format : Z; un_sep : Z }.

Definition unit_ok (u : hint_unit) : Prop :=
  1 <= un_count u <= 7 /\ un_format u ∈ [chr_d; chr_x] /\ isdigit (un_sep u) = false /\ un_sep u <> chr_star /\
  (un_format u = chr_x -> isxdigit (un_sep u) = false /\ un_sep u <> 120 /\ un_sep u <> 88).
#[global] Instance unit_ok_dec u : Decision (unit_ok u).
Proof. unfold unit_ok. apply _. Defined.

Definition unit_hint (u : hint_unit) : cstring := sprintf_u (un_count u) ++ [un_format u; un_sep u].
Definition hint_of (us : list hint_unit) : cstring := concat (map unit_hint us).

(** The last part of a hint is repeated. *)
Definition next_units (us : list hint_unit) : list hint_unit :=
  match us with [u] => [u] | _ => drop 1 us end.

(** Octets in groups for the parts of a hint. *)
Inductive layout : list hint_unit -> list (list Z) -> Prop :=
  | layout_done us : layout us []
  | layout_group u us g gs : unit_ok u -> bytes g -> Z.of_nat (length g) = un_count u ->
      layout (next_units (u :: us)) gs -> layout (u :: us) (g :: gs).

(** The notation of a group and of all of them. *)
Definition group_text (u : hint_unit) (g : list Z) : cstring := number_text (un_format u) (un_count u * 2) (big_endian g 0).

Fixpoint layout_text (us : list hint_unit) (gs : list (list Z)) : cstring :=
  match us, gs with
  | u :: _, [g] => group_text u g
  | u :: _, g :: gs => group_text u g ++ un_sep u :: layout_text (next_units us) gs
  | _, _ => []
  end.

Lemma small_count n : 1 <= n <= 7 -> sprintf_u n = [48 + n].
Proof. intros. by rewrite sprintf_u_small by lia. Qed.

Lemma unit_hint_eq u : unit_ok u -> unit_hint u = [48 + un_count u; un_format u; un_sep u].
Proof. intros (Hc & _). unfold unit_hint. by rewrite small_count. Qed.

Lemma hint_prefix_unit u rest : unit_ok u -> hint_prefix (unit_hint u ++ rest) = MibOk (un_count u, un_format u :: un_sep u :: rest).
Proof.
  intros Hu. rewrite unit_hint_eq by done. destruct Hu as (Hc & Hf & _). unfold hint_prefix. cbn [app hint_digits].
  unfold isdigit at 1. rewrite bool_decide_eq_true_2 by lia. unfold fits_int. rewrite bool_decide_eq_true_2 by lia.
  unfold mbind at 2, mib_bind at 2. cbn [mret mib_ret]. cbn [hint_digits].
  assert (isdigit (un_format u) = false) as -> by (set_unfold in Hf; destruct Hf as [->|[->|[]]]; done).
  unfold mbind, mib_bind, mret, mib_ret. do 2 f_equal. lia.
Qed.

(** A group in the notation of its part is a numeral that ends at the separator. *)
Lemma group_denotes u g : unit_ok u -> bytes g -> Z.of_nat (length g) = un_count u ->
  exists base, ((un_format u = chr_d /\ base = 10) \/ (un_format u = chr_x /\ base = 16)) /\
    denotes base (group_text u g) (big_endian g 0) /\ (length (group_text u g) < HINT_BUFFER)%nat.
Proof.
  intros (Hc & Hf & _) Hg Hl. pose proof (big_endian_range g Hg) as Hr. pose proof (pow256_le (length g) 7 ltac:(lia)) as Hp.
  change (256 ^ Z.of_nat 7) with 72057594037927936 in Hp. set (v := big_endian g 0) in *. unfold group_text, number_text. fold v.
  set_unfold in Hf. destruct Hf as [E|[E|[]]]; rewrite E.
  - exists 10. split; [auto|]. rewrite bool_decide_eq_true_2 by done. unfold sprintf_ld. rewrite bool_decide_eq_false_2 by lia.
    split; [apply denotes_llu; lia|]. pose proof (sprintf_llu_length v). unfold HINT_BUFFER. lia.
  - exists 16. split; [auto|]. change (bool_decide (chr_x = chr_d)) with false. change (bool_decide (chr_x = chr_o)) with false.
    rewrite bool_decide_eq_true_2 by done. unfold sprintf_prec_lX, u64. rewrite Z.mod_small by lia.
    assert (Hw : (radix_width 16 16 v <= 16)%nat) by (clear; generalize 16%nat v; induction n as [|n IH]; intros x; cbn; [lia|]; case_bool_decide; [lia|]; specialize (IH (x / 16)); lia).
    split.
    + apply denotes_radix; [done|by apply digit_upper_char|lia|]. split; [lia|].
      eapply Z.lt_le_trans; [apply Hr|]. replace 256 with (16 ^ 2) by done. rewrite <- Z.pow_mul_r by lia. apply Z.pow_le_mono_r; lia.
    + rewrite length_map, radix_length. unfold HINT_BUFFER. lia.
Qed.

(** ** Formatting and scanning *)

Lemma hint_of_cons u us : hint_of (u :: us) = unit_hint u ++ hint_of us.
Proof. done. Qed.

Lemma unit_hint_nonempty u rest : unit_hint u ++ rest <> [].
Proof. unfold unit_hint. by destruct (sprintf_u (un_count u)). Qed.

Lemma next_units_nonempty u us : next_units (u :: us) <> [].
Proof. by destruct us. Qed.

(** Where a loop goes on behind a part: with the next ones or with the same again. *)
Lemma next_hint (u : hint_unit) us (more : bool) : (if bool_decide (hint_of us = []) && more then hint_of (u :: us) else hint_of us)
  = if more then hint_of (next_units (u :: us)) else hint_of us.
Proof.
  destruct us as [|u' us]; [by destruct more|]. rewrite bool_decide_eq_false_2 by apply unit_hint_nonempty. by destruct more.
Qed.

Lemma format_item_unit u pre g rest : unit_ok u -> bytes g -> Z.of_nat (length g) = un_count u ->
  format_item (pre ++ g ++ rest) (un_format u) (un_count u) (length pre) = MibOk (Some (group_text u g, (length pre + length g)%nat)).
Proof.
  intros Hu Hg Hl. destruct (group_denotes u g Hu Hg Hl) as (base & _ & _ & Hbuf). destruct Hu as (Hc & Hf & _).
  assert (Hcol : collect (take (Z.to_nat (un_count u)) (drop (length pre) (pre ++ g ++ rest))) 0 = MibOk (big_endian g 0)).
  { rewrite drop_app_length, <- Hl, Nat2Z.id, take_app_length. apply (collect_ok g 0 0); [done|cbn; lia|lia]. }
  unfold format_item. assert (bool_decide (un_format u = chr_a) = false) as ->
    by (set_unfold in Hf; destruct Hf as [->|[->|[]]]; done).
  assert (is_number_format (un_format u) = true) as -> by (set_unfold in Hf; destruct Hf as [->|[->|[]]]; done).
  unfold fits_int. rewrite bool_decide_eq_true_2 by lia. unfold mbind, mib_bind, mret, mib_ret. rewrite Hcol.
  unfold in_buffer. fold (group_text u g). rewrite decide_True by done. unfold mret, mib_ret. do 3 f_equal.
  rewrite !length_app. lia.
Qed.

Lemma format_layout us gs : layout us gs -> us <> [] -> forall pre out fuel, (length gs <= fuel)%nat ->
  format_octets fuel (pre ++ concat gs) (hint_of us) (length pre) out = MibOk (Some (out ++ layout_text us gs)).
Proof.
  induction 1 as [us|u us g gs Hu Hg Hl Hlay IH]; intros Hne pre out fuel Hfuel.
  { destruct us as [|u us]; [done|]. cbn [concat layout_text]. rewrite !app_nil_r.
    destruct fuel; cbn [format_octets]; rewrite (bool_decide_eq_true_2 (length pre <= _)%nat), orb_true_r by lia; done. }
  destruct fuel as [|fuel]; [cbn in Hfuel; lia|]. cbn [length] in Hfuel. cbn [concat format_octets].
  pose proof Hu as (Hc & _ & Hsd & Hss & _).
  rewrite (bool_decide_eq_false_2 (hint_of (u :: us) = [])) by apply unit_hint_nonempty.
  rewrite (bool_decide_eq_false_2 (length _ <= length pre)%nat) by (rewrite !length_app; lia). cbn [orb].
  rewrite hint_of_cons, hint_prefix_unit by done. unfold mbind at 1, mib_bind at 1. cbv beta iota.
  rewrite format_item_unit by done. unfold mbind at 1, mib_bind at 1. cbv beta iota zeta. cbn [format_separator].
  rewrite Hsd, (bool_decide_eq_true_2 (un_sep u <> chr_star)) by done. cbn [negb andb].
  rewrite <- hint_of_cons, next_hint.
  assert (Hmore : bool_decide (length pre + length g < length (pre ++ g ++ concat gs))%nat = bool_decide (gs <> [])).
  { rewrite !length_app. apply bool_decide_ext. destruct gs as [|g' gs]; [cbn; split; [lia|done]|].
    inversion Hlay as [|? ? ? ? Hu' _ Hl' _]; subst. destruct Hu' as (Hc' & _). cbn [concat]. rewrite length_app. split; [done|]. lia. }
  rewrite Hmore. replace (length pre + length g)%nat with (length (pre ++ g)) by (by rewrite length_app).
  rewrite (app_assoc pre g). destruct gs as [|g' gs].
  - cbn [concat layout_text]. rewrite !app_nil_r. change (bool_decide (([] : list (list Z)) <> [])) with false. cbv iota.
    destruct fuel; cbn [format_octets]; rewrite (bool_decide_eq_true_2 (length _ <= length _)%nat), orb_true_r by lia; done.
  - rewrite bool_decide_eq_true_2 by done. rewrite IH; [|apply next_units_nonempty|cbn in *; lia].
    do 2 f_equal. change (layout_text (u :: us) (g :: g' :: gs)) with (group_text u g ++ un_sep u :: layout_text (next_units (u :: us)) (g' :: gs)).
    by rewrite <- !app_assoc.
Qed.

Lemma scan_item_unit u g rest : unit_ok u -> bytes g -> Z.of_nat (length g) = un_count u -> (rest = [] \/ head rest = Some (un_sep u)) ->
  scan_item (un_format u) (un_count u) (group_text u g ++ rest) = MibOk (Some (g, rest)).
Proof.
  intros Hu Hg Hl Hrest. destruct (group_denotes u g Hu Hg Hl) as (base & Hbase & Hd & _). destruct Hu as (Hc & Hf & Hsd & _ & Hx).
  pose proof (big_endian_range g Hg) as Hr. pose proof (pow256_le (length g) 7 ltac:(lia)) as Hp.
  change (256 ^ Z.of_nat 7) with 72057594037927936 in Hp.
  assert (Hput : put_number (un_count u) (big_endian g 0) = MibOk g).
  { unfold put_number. rewrite bool_decide_eq_false_2 by lia. unfold mret, mib_ret. f_equal. rewrite <- Hl, Nat2Z.id. by apply put_octets_inv. }
  unfold scan_item. destruct Hbase as [[E ->]|[E ->]]; rewrite E.
  - change (bool_decide (chr_d = chr_a)) with false. change (bool_decide (chr_d = chr_b)) with false. change (bool_decide (chr_d = chr_d)) with true. cbv iota.
    rewrite (sscanf_ld_text _ (big_endian g 0)); [|done| |lia].
    + unfold scan_number. rewrite (skip_while_text isdigit); [|eapply Forall_impl; [apply Hd|]; intros c [d Hcd]; by apply (digit_of_char 10 c d)|].
      * rewrite Hput. done.
      * destruct Hrest as [->|Hh]; [done|]. destruct rest; [done|]. injection Hh as ->. done.
    + destruct Hrest as [->|Hh]; [done|]. destruct rest as [|c rest]; [done|]. injection Hh as ->. cbn. unfold digit_of.
      rewrite Hsd. apply bool_decide_eq_false in Hsd. repeat case_bool_decide; try done; lia.
  - destruct (Hx E) as (Hxd & Hx1 & Hx2).
    change (bool_decide (chr_x = chr_a)) with false. change (bool_decide (chr_x = chr_b)) with false. change (bool_decide (chr_x = chr_d)) with false.
    change (bool_decide (chr_x = chr_o)) with false. change (bool_decide (chr_x = chr_x)) with true. cbv iota.
    rewrite (sscanf_unsigned_text 16 _ (big_endian g 0)); [|lia|done| | |lia].
    + unfold scan_number. rewrite (skip_while_text isxdigit); [|eapply Forall_impl; [apply Hd|]; intros c [d Hcd]; by apply (digit_of_char 16 c d)|].
      * rewrite Hput. done.
      * destruct Hrest as [->|Hh]; [done|]. destruct rest; [done|]. injection Hh as ->. done.
    + destruct Hrest as [->|Hh]; [done|]. destruct rest as [|c rest]; [done|]. injection Hh as ->. cbn. unfold digit_of, isxdigit, isdigit in *.
      apply orb_false_iff in Hxd as [[H1%bool_decide_eq_false H2%bool_decide_eq_false]%orb_false_iff H3%bool_decide_eq_false].
      repeat case_bool_decide; try done; lia.
    + destruct Hrest as [->|Hh]; [done|]. rewrite Hh. split; congruence.
Qed.

Lemma layout_text_nonempty us gs : layout us gs -> gs <> [] -> layout_text us gs <> [].
Proof.
  intros [|u us' g gs' Hu Hg Hl _] Hne; [done|]. destruct (group_denotes u g Hu Hg Hl) as (base & _ & (Hn & _) & _).
  destruct gs'; [done|]. cbn. by destruct (group_text u g).
Qed.

Lemma scan_layout us gs : layout us gs -> us <> [] -> forall out fuel, (length gs <= fuel)%nat ->
  scan_octets fuel (hint_of us) (layout_text us gs) out = MibOk (Some (out ++ concat gs)).
Proof.
  induction 1 as [us|u us g gs Hu Hg Hl Hlay IH]; intros Hne out fuel Hfuel.
  { assert (E : layout_text us [] = []) by (by destruct us). rewrite E. cbn [concat]. rewrite app_nil_r.
    destruct fuel; cbn [scan_octets]; by rewrite (bool_decide_eq_true_2 (([] : cstring) = [])), orb_true_r. }
  destruct fuel as [|fuel]; [cbn in Hfuel; lia|]. cbn [length] in Hfuel.
  pose proof (layout_text_nonempty (u :: us) (g :: gs) ltac:(by constructor) ltac:(done)) as Hnt.
  cbn [scan_octets]. rewrite (bool_decide_eq_false_2 (hint_of (u :: us) = [])) by apply unit_hint_nonempty.
  rewrite (bool_decide_eq_false_2 (layout_text _ _ = [])) by done. cbn [orb].
  rewrite hint_of_cons, hint_prefix_unit by done. unfold mbind at 1, mib_bind at 1. cbv beta iota.
  assert (Ht : exists rest, layout_text (u :: us) (g :: gs) = group_text u g ++ rest /\
    rest = match gs with [] => [] | _ => un_sep u :: layout_text (next_units (u :: us)) gs end).
  { destruct gs; eexists; (split; [|reflexivity]); [by rewrite app_nil_r|done]. }
  destruct Ht as (rest & -> & Hrest). rewrite scan_item_unit by (try done; subst rest; destruct gs; auto).
  unfold mbind at 1, mib_bind at 1. cbv beta iota. unfold scan_separator. pose proof Hu as (_ & _ & Hsd & Hss & _).
  cbn [head]. rewrite (bool_decide_eq_false_2 (Some (un_sep u) = Some chr_star)) by congruence. rewrite Hsd.
  rewrite <- hint_of_cons. cbn [concat].
  destruct gs as [|g' gs]; subst rest.
  - rewrite andb_false_r. cbn [concat]. rewrite app_nil_r.
    destruct fuel; cbn [scan_octets]; by rewrite (bool_decide_eq_true_2 (([] : cstring) = [])), orb_true_r.
  - rewrite Hsd, (bool_decide_eq_true_2 (layout_text _ _ <> [])) by (by apply layout_text_nonempty).
    rewrite next_hint, IH by (first [apply next_units_nonempty|cbn in *; lia]). by rewrite app_assoc.
Qed.


