(* ===== verification/HintValues.v ===== *)
(** Integers and enumerations are scanned back from their notation; hints that make the
    conversions loop.  Formatting octets never fails but in the way the code says: with
    counts from 1 to 7, [FormatOctetTC] ends within one round for each octet, keeps its
    numbers in a [long] and its text in [buf[80]], whatever the octets and the hint are. *)

From S2P Require Import Prelude Ber CStr OidTheorems Util UtilTheorems Obj ObjTheorems Mib Hint HintTheorems.
Local Open Scope Z_scope.
Local Open Scope cint_scope.

(** * Values under hints *)

(** ** Decimal digits *)

Definition dec_fold (s : cstring) (acc : Z) : Z := fold_left (fun a c => a * 10 + c - 48) s acc.

Lemma dec_fold_le s : Forall (fun c => isdigit c = true) s -> forall acc, 0 <= acc -> acc <= dec_fold s acc.
Proof.
  induction 1 as [|c s Hc _ IH]; intros acc Ha; [done|]. apply bool_decide_eq_true in Hc.
  change (dec_fold (c :: s) acc) with (dec_fold s (acc * 10 + c - 48)). specialize (IH (acc * 10 + c - 48)). lia.
Qed.

Lemma dec_fold_app s t acc : dec_fold (s ++ t) acc = dec_fold t (dec_fold s acc).
Proof. apply fold_left_app. Qed.

Lemma dec_fold_zeros n : dec_fold (replicate n 48) 0 = 0.
Proof. induction n as [|n IH]; [done|]. exact IH. Qed.

Lemma dec_fold_u u : is_u32 u -> dec_fold (sprintf_u u) 0 = u.
Proof.
  intros Hu. rewrite <- (sprintf_u_fold u Hu) at 2. unfold dec_fold. generalize 0. induction (sprintf_u u) as [|c s IH]; intros a; [done|].
  cbn [fold_left]. rewrite IH. f_equal. unfold chr_0. lia.
Qed.

Lemma hint_digits_text s : Forall (fun c => isdigit c = true) s -> forall acc have, 0 <= acc -> dec_fold s acc < 2147483648 ->
  hint_digits s acc have = MibOk (dec_fold s acc, bool_decide (s <> []) || have, []).
Proof.
  induction 1 as [|c s Hc Hs IH]; intros acc have Ha Hlt; [done|]. cbn [hint_digits]. rewrite Hc.
  change (dec_fold (c :: s) acc) with (dec_fold s (acc * 10 + c - 48)) in *. apply bool_decide_eq_true in Hc.
  pose proof (dec_fold_le s Hs (acc * 10 + c - 48) ltac:(lia)). unfold fits_int. rewrite bool_decide_eq_true_2 by lia.
  unfold mbind, mib_bind, mret, mib_ret. rewrite IH by lia. do 2 f_equal. rewrite orb_true_r. by rewrite bool_decide_eq_true_2.
Qed.

Lemma scan_decimal_digits s : Forall (fun c => isdigit c = true) s -> forall rest acc frac, 0 <= acc -> dec_fold s acc < 9223372036854775808 ->
  scan_decimal (s ++ rest) acc frac = scan_decimal rest (dec_fold s acc) (if bool_decide (0 <= frac) then frac + Z.of_nat (length s) else frac).
Proof.
  induction 1 as [|c s Hc Hs IH]; intros rest acc frac Ha Hlt.
  { cbn. case_bool_decide; [|done]. by rewrite Z.add_0_r. }
  cbn [app scan_decimal]. rewrite bool_decide_eq_false_2 by (by apply isdigit_not_dot). rewrite Hc.
  change (dec_fold (c :: s) acc) with (dec_fold s (acc * 10 + c - 48)) in *. apply bool_decide_eq_true in Hc.
  pose proof (dec_fold_le s Hs (acc * 10 + c - 48) ltac:(lia)). rewrite fits_long_ok by lia.
  unfold mbind, mib_bind. rewrite IH by lia. f_equal. repeat case_bool_decide; cbn [length]; lia.
Qed.

(** ** Integers with a decimal point *)

Definition point_hint (n : Z) : cstring := cstr "d-" ++ sprintf_u n.

Lemma decimal_point_hint n : 0 <= n < 2147483648 -> decimal_point (sprintf_u n) = MibOk (Some n).
Proof.
  intros Hn. assert (Hu : is_u32 n) by (unfold is_u32; lia). unfold decimal_point.
  rewrite hint_digits_text by (try apply sprintf_u_digits; rewrite ?dec_fold_u by done; lia). rewrite dec_fold_u by done.
  unfold mbind, mib_bind, mret, mib_ret. cbn match. rewrite (bool_decide_eq_false_2 (([] : cstring) <> [])) by (by intros H).
  pose proof (sprintf_u_length n). rewrite bool_decide_eq_true_2; [done|]. intros E. rewrite E in *. cbn in *. lia.
Qed.

Lemma split_minus_digits s : Forall (fun c => isdigit c = true) s -> split_minus s = ([], s).
Proof. intros [|c t Hc _]; [done|]. cbn. rewrite bool_decide_eq_false_2; [done|]. by intros ->. Qed.

(** The digits of a number with a point are read back. *)
Lemma scan_point sign s n : (sign = [] \/ sign = [chr_minus]) -> s <> [] -> Forall (fun c => isdigit c = true) s -> 0 <= n ->
  dec_fold s 0 < 9223372036854775808 ->
  exists t, point_text sign s n = MibOk (sign ++ t) /\ split_minus (sign ++ t) = (sign, t) /\
    scan_decimal t 0 (-1) = MibOk (dec_fold s 0, n, []).
Proof.
  intros Hsign Hne Hs Hn Hlt.
  assert (Hmain : exists a b, point_text sign s n = MibOk (sign ++ a ++ chr_dot :: b) /\ Forall (fun c => isdigit c = true) a /\
    Forall (fun c => isdigit c = true) b /\ a <> [] /\ dec_fold (a ++ b) 0 = dec_fold s 0 /\ Z.of_nat (length b) = n).
  { unfold point_text. rewrite bool_decide_eq_false_2 by lia. case_bool_decide as Hl.
    - exists [48], (replicate (Z.to_nat (n - Z.of_nat (length s))) 48 ++ s). split; [done|]. split; [by repeat constructor|].
      split; [apply Forall_app; split; [by apply Forall_replicate|done]|]. split; [done|]. split.
      + change ([48] ++ ?x) with (replicate 1 48 ++ x). rewrite !dec_fold_app, !dec_fold_zeros. done.
      + rewrite length_app, length_replicate. lia.
    - set (k := Z.to_nat (Z.of_nat (length s) - n)). exists (take k s), (drop k s). split; [done|].
      split; [by apply Forall_take|]. split; [by apply Forall_drop|]. rewrite take_drop.
      split; [|split; [done|rewrite length_drop; lia]]. intros E. apply (f_equal length) in E. rewrite length_take in E. cbn in E.
      destruct s; [done|]. cbn in *. lia. }
  destruct Hmain as (a & b & E & Ha & Hb & Hane & Hf & Hlen). exists (a ++ chr_dot :: b). split; [done|]. split.
  - destruct Hsign as [->| ->]; [|done]. cbn [app]. destruct a as [|c a]; [done|]. apply Forall_cons in Ha as [Hc _].
    cbn. rewrite bool_decide_eq_false_2; [done|]. by intros ->.
  - rewrite dec_fold_app in Hf. pose proof (dec_fold_le a Ha 0 ltac:(lia)). pose proof (dec_fold_le b Hb (dec_fold a 0) ltac:(lia)).
    rewrite scan_decimal_digits by (try done; lia). rewrite (bool_decide_eq_false_2 (0 <= -1)) by lia.
    cbn [scan_decimal]. rewrite (bool_decide_eq_true_2 (chr_dot = chr_dot)) by done. rewrite (bool_decide_eq_false_2 (0 <= -1)) by lia.
    pose proof (scan_decimal_digits b Hb [] (dec_fold a 0) 0 ltac:(lia) ltac:(lia)) as Eb. rewrite app_nil_r in Eb. rewrite Eb, Hf.
    rewrite bool_decide_eq_true_2 by lia. cbn. do 2 f_equal. f_equal. lia.
Qed.

(** ** Integers *)

Lemma dec_width_fuel f1 : forall f2 u, 0 <= u < 10 ^ Z.of_nat (S f1) -> (f1 <= f2)%nat -> dec_width f2 u = dec_width f1 u.
Proof.
  induction f1 as [|f1 IH]; intros f2 u Hu Hf.
  - destruct f2; [done|]. cbn. rewrite bool_decide_eq_true_2; [done|]. change (10 ^ Z.of_nat 1) with 10 in Hu. lia.
  - destruct f2 as [|f2]; [lia|]. cbn [dec_width]. case_bool_decide; [done|]. f_equal. apply IH; [|lia].
    rewrite (pow10_S (S f1)) in Hu. lia.
Qed.

Lemma sprintf_llu_u u : is_u32 u -> sprintf_llu u = sprintf_u u.
Proof.
  intros Hu. unfold sprintf_llu, sprintf_u, u64. unfold is_u32 in Hu. rewrite u32_id, Z.mod_small by (unfold is_u32; lia).
  rewrite (dec_width_fuel 10 20) by (try lia; change (10 ^ Z.of_nat 11) with 100000000000; lia). done.
Qed.

Lemma sprintf_ld_d v : is_s32 v -> sprintf_ld v = sprintf_d v.
Proof.
  intros Hv. unfold sprintf_ld, sprintf_d. rewrite s32_id by done. unfold is_s32 in Hv. case_bool_decide; rewrite sprintf_llu_u; unfold is_u32; try done; lia.
Qed.

Lemma denotes_lx u : 0 <= u < 18446744073709551616 -> denotes 16 (sprintf_lx u) u.
Proof.
  intros Hu. unfold sprintf_lx, u64. rewrite Z.mod_small by lia. apply denotes_radix; [done|by apply digit_lower_char|lia|].
  pose proof (radix_width_bound 16 16 ltac:(lia) u ltac:(done)) as Hw. split; [lia|]. eapply Z.lt_le_trans; [exact Hw|].
  apply Z.pow_le_mono_r; lia.
Qed.
Lemma denotes_lo u : 0 <= u < 18446744073709551616 -> denotes 8 (sprintf_lo u) u.
Proof.
  intros Hu. unfold sprintf_lo, u64. rewrite Z.mod_small by lia. apply denotes_radix; [done|by apply digit_lower_char|lia|].
  assert (Hu' : 0 <= u < 8 ^ Z.of_nat 22) by (change (8 ^ Z.of_nat 22) with 73786976294838206464; lia).
  pose proof (radix_width_bound 8 22 ltac:(lia) u Hu') as Hw. split; [lia|]. eapply Z.lt_le_trans; [exact Hw|].
  apply Z.pow_le_mono_r; lia.
Qed.

Definition numbers_hints : list cstring := [cstr "x"; cstr "o"].

Lemma scan_radix base text v : 2 <= base <= 16 -> denotes base text (Z.abs v) -> is_s32 v ->
  sscanf_unsigned base (if bool_decide (v < 0) then chr_minus :: text else text) = Some v.
Proof.
  intros Hb Ht Hv. unfold is_s32 in Hv. case_bool_decide.
  - rewrite (sscanf_unsigned_minus base text (Z.abs v)) by (done || lia). f_equal. lia.
  - pose proof (sscanf_unsigned_text base text (Z.abs v) [] Hb Ht I ltac:(done) ltac:(lia)) as E. rewrite app_nil_r in E. rewrite E. f_equal. lia.
Qed.

Section values.
Context (Tcl_GetLong : cstring -> option Z).

Lemma format_scan_int v hint : is_s32 v -> Tcl_GetLong (sprintf_d v) = Some v ->
  (hint ∈ numbers_hints \/ exists n, 0 <= n < 2147483648 /\ hint = point_hint n) ->
  exists text, FormatIntTC Tcl_GetLong (sprintf_d v) hint = MibOk (Some text) /\ ScanIntTC text hint = MibOk (Some v).
Proof.
  intros Hv Hget Hhint. unfold FormatIntTC. rewrite Hget. pose proof Hv as Hv'. unfold is_s32 in Hv'. destruct Hhint as [Hh|(n & Hn & ->)].
  - unfold numbers_hints in Hh. assert (Habs : (if bool_decide (v < 0) then - v else v) = Z.abs v) by (case_bool_decide; lia).
    apply elem_of_cons in Hh as [->|Hh]; [|apply list_elem_of_singleton in Hh as ->].
    + change (cstr "x") with [chr_x]. cbv iota beta zeta. change (bool_decide (chr_x = chr_d)) with false. cbv iota. rewrite Habs.
      eexists. split; [reflexivity|]. cbn. unfold mret, mib_ret. f_equal. apply scan_radix; [lia|apply denotes_lx; lia|done].
    + change (cstr "o") with [chr_o]. cbv iota beta zeta. change (bool_decide (chr_o = chr_d)) with false. cbv iota. rewrite Habs.
      eexists. split; [reflexivity|]. cbn. unfold mret, mib_ret. f_equal. apply scan_radix; [lia|apply denotes_lo; lia|done].
  - change (point_hint n) with (chr_d :: chr_minus :: sprintf_u n).
    assert (Hs : exists sign s, sprintf_d v = sign ++ s /\ split_minus (sprintf_d v) = (sign, s) /\ (sign = [] \/ sign = [chr_minus]) /\
      s <> [] /\ Forall (fun c => isdigit c = true) s /\ dec_fold s 0 = Z.abs v /\ (sign = [] <-> 0 <= v)).
    { unfold sprintf_d. rewrite s32_id by done. pose proof (sprintf_u_length v) as Hl. pose proof (sprintf_u_length (- v)) as Hl'.
      case_bool_decide.
      - exists [chr_minus], (sprintf_u (- v)). split_and!; try done; [by right|intros E; rewrite E in *; cbn in *; lia|apply sprintf_u_digits| |split; [done|lia]].
        rewrite dec_fold_u by (unfold is_u32; lia). lia.
      - exists [], (sprintf_u v). split_and!; try done; [apply split_minus_digits, sprintf_u_digits|by left|intros E; rewrite E in *; cbn in *; lia|apply sprintf_u_digits| |split; [lia|done]].
        rewrite dec_fold_u by (unfold is_u32; lia). lia. }
    destruct Hs as (sign & s & Heq & Hsp & Hsign & Hne & Hd & Hf & Hpos).
    destruct (scan_point sign s n Hsign Hne Hd ltac:(lia) ltac:(lia)) as (t & E1 & E2 & E3).
    exists (sign ++ t). unfold ScanIntTC.
    rewrite !(bool_decide_eq_true_2 (chr_d = chr_d)), !(bool_decide_eq_true_2 (chr_minus = chr_minus)) by done.
    rewrite decimal_point_hint by done. unfold mbind, mib_bind. cbv beta iota. rewrite Hsp, E1. split; [done|].
    rewrite E2, E3. rewrite (bool_decide_eq_false_2 (([] : cstring) <> [])) by (by intros H).
    unfold scale, mbind, mib_bind. rewrite Z.sub_diag. cbn [Z.to_nat scale_up scale_down mret mib_ret]. unfold mret, mib_ret. do 2 f_equal.
    change (scale_down (Z.to_nat 0) (dec_fold s 0)) with (dec_fold s 0). rewrite Hf. destruct (decide (sign = [])) as [Hz|Hz]; [rewrite bool_decide_eq_true_2 by done; apply Hpos in Hz; lia|]. rewrite bool_decide_eq_false_2 by done. assert (~ 0 <= v) by tauto. lia.
Qed.

(** ** Enumerations *)

Lemma enum_label_some l v : forall found label, enum_label l v found = Some label -> found = Some label \/ intEnum v label ∈ l.
Proof.
  induction l as [|r l IH]; intros found label; cbn [enum_label]; [by left|].
  destruct r as [v' label'|? ?|? ?]; intros H; apply IH in H as [H|H]; auto; try (right; by right).
  case_bool_decide; subst; auto. injection H as ->. right. left.
Qed.

Lemma enum_label_found l v : forall found, (is_Some found \/ exists label, intEnum v label ∈ l) -> is_Some (enum_label l v found).
Proof.
  induction l as [|r l IH]; intros found H; cbn [enum_label].
  { destruct H as [?|[? []%not_elem_of_nil]]; done. }
  destruct r as [v' label'|? ?|? ?]; apply IH.
  - case_bool_decide; [left; by eexists|]. destruct H as [?|[label [E|?]%elem_of_cons]]; [by left|congruence|right; eauto].
  - destruct H as [?|[label [E|?]%elem_of_cons]]; [by left|done|right; eauto].
  - destruct H as [?|[label [E|?]%elem_of_cons]]; [by left|done|right; eauto].
Qed.

Definition enum_labels (l : list TnmMibRest) : list cstring :=
  omap (fun r => match r with intEnum _ label => Some label | _ => None end) l.

Lemma enum_value_found l v label : NoDup (enum_labels l) -> intEnum v label ∈ l -> enum_value l label = Some v.
Proof.
  induction l as [|r l IH]; intros Hnd Hin; [by apply not_elem_of_nil in Hin|].
  destruct r as [v' label'|? ?|? ?]; cbn [enum_value enum_labels omap list_omap] in *.
  - apply NoDup_cons in Hnd as [Hni Hnd]. apply elem_of_cons in Hin as [[= -> ->]|Hin]; [by rewrite bool_decide_eq_true_2|].
    rewrite bool_decide_eq_false_2; [by apply IH|]. intros ->. apply Hni. apply list_elem_of_omap. by exists (intEnum v label).
  - apply IH; [done|]. by apply elem_of_cons in Hin as [?|?].
  - apply IH; [done|]. by apply elem_of_cons in Hin as [?|?].
Qed.

Context (oid_as_name oid_as_oid : cstring -> mib_out (option cstring)).

(** The types whose integers have a notation of their own: enumerations with
    different labels, which hold the value, and display hints. *)
Definition integer_notation (type : TnmMibType) (v : Z) : Prop :=
  if decide (ty_restKind type = TNM_MIB_REST_ENUMS)
  then NoDup (enum_labels (ty_restList type)) /\ exists label, intEnum v label ∈ ty_restList type
  else exists hint, ty_displayHint type = Some hint /\
    (hint ∈ numbers_hints \/ exists n, 0 <= n < 2147483648 /\ hint = point_hint n).

(** An integer in the notation of its type is scanned back.  If the type is an
    enumeration with different labels that has a label for the integer, or has a
    display hint d-N, x or o, [TnmMibFormatValue] returns a text and
    [TnmMibScanValue] of this text returns the integer. *)
Theorem mib_integer_roundtrip fuel type v : is_s32 v -> Tcl_GetLong (sprintf_d v) = Some v -> integer_notation type v ->
  exists text, TnmMibFormatValue Tcl_GetLong oid_as_name fuel (Some type) ASN1_INTEGER (sprintf_d v) = MibOk (Some text) /\
    TnmMibScanValue oid_as_oid fuel (Some type) ASN1_INTEGER text = MibOk (Some (sprintf_d v)).
Proof.
  intros Hv Hget Hn. unfold TnmMibFormatValue, TnmMibScanValue, integer_notation in *.
  rewrite !(bool_decide_eq_false_2 (ASN1_INTEGER = ASN1_OBJECT_IDENTIFIER)) by done.
  destruct (decide (ty_restKind type = TNM_MIB_REST_ENUMS)) as [Hk|Hk].
  - rewrite !(bool_decide_eq_true_2 (ty_restKind type = _)) by done. rewrite (bool_decide_eq_true_2 (ASN1_INTEGER = ASN1_INTEGER)) by done.
    rewrite Hget. destruct Hn as [Hnd [label Hin]]. destruct (enum_label_found (ty_restList type) v None) as [text Ht]; [by eauto|].
    exists text. rewrite Ht. split; [done|]. apply enum_label_some in Ht as [?|Ht]; [done|].
    by rewrite (enum_value_found _ v).
  - rewrite !(bool_decide_eq_false_2 (ty_restKind type = _)) by done. destruct Hn as (hint & -> & Hh).
    rewrite !(bool_decide_eq_false_2 (ASN1_INTEGER = ASN1_OCTET_STRING)), !(bool_decide_eq_true_2 (ASN1_INTEGER = ASN1_INTEGER)) by done.
    destruct (format_scan_int v hint Hv Hget Hh) as (text & E1 & E2). exists text. rewrite E1, E2. split; [done|].
    unfold mbind, mib_bind, mret, mib_ret. cbn. by rewrite sprintf_ld_d.
Qed.
End values.

(** A temperature in tenths of a degree. *)
Lemma mib_integer_roundtrip_witness :
  let type := mkMibType (Some (cstr "Tenths")) None None 0 ASN1_INTEGER (Some (cstr "d-1")) 0 0 TNM_MIB_REST_NONE [] in
  let get s := if bool_decide (s = cstr "-215") then Some (-215) else None in
  TnmMibFormatValue get (fun _ => MibOk None) 0 (Some type) ASN1_INTEGER (cstr "-215") = MibOk (Some (cstr "-21.5")) /\
  TnmMibScanValue (fun _ => MibOk None) 0 (Some type) ASN1_INTEGER (cstr "-21.5") = MibOk (Some (cstr "-215")).
Proof.
  intros type get.
  destruct (mib_integer_roundtrip get (fun _ => MibOk None) (fun _ => MibOk None) 0 type (-215)) as (text & E1 & E2).
  - by_eval.
  - by vm_compute.
  - exists (cstr "d-1"). split; [done|]. right. exists 1. split; [lia|done].
  - change (sprintf_d (-215)) with (cstr "-215") in *.
    assert (E : TnmMibFormatValue get (fun _ => MibOk None) 0 (Some type) ASN1_INTEGER (cstr "-215") = MibOk (Some (cstr "-21.5"))) by (by vm_compute).
    rewrite E in E1. injection E1 as <-. split; [exact E|exact E2].
Defined.

(** * Formatting octets is safe *)

(** ** Safety of formatting octets *)

(** The places of a hint where a part can start: its beginning and behind every
    character that is no digit. *)
Fixpoint hint_starts (fmt : cstring) : list cstring :=
  match fmt with
  | [] => []
  | c :: fmt' => if isdigit c then hint_starts fmt' else fmt' :: hint_starts fmt'
  end.

(** The number at the beginning of a part. *)
Definition small_prefix (fmt : cstring) : bool :=
  match hint_prefix fmt with MibOk (pfx, _) => bool_decide (1 <= pfx <= 7) | MibFault _ => false end.
Definition small_hint (fmt : cstring) : bool := forallb small_prefix (fmt :: hint_starts fmt).

Lemma hint_digits_rest fmt : forall pfx have p h rest, hint_digits fmt pfx have = MibOk (p, h, rest) ->
  exists ds, fmt = ds ++ rest /\ Forall (fun c => isdigit c = true) ds /\ match rest with c :: _ => isdigit c = false | [] => True end.
Proof.
  induction fmt as [|c fmt IH]; intros pfx have p h rest; cbn [hint_digits]; [intros [= <- <- <-]; by exists []|].
  destruct (isdigit c) eqn:Hc; [|intros [= <- <- <-]; by exists []].
  unfold mbind, mib_bind. destruct (fits_int _) as [x|]; [|done]. intros (ds & -> & Hds & Hr)%IH. exists (c :: ds). by repeat constructor.
Qed.

Lemma starts_digits ds rest : Forall (fun c => isdigit c = true) ds -> hint_starts (ds ++ rest) = hint_starts rest.
Proof. induction 1 as [|c ds Hc _ IH]; [done|]. cbn. by rewrite Hc. Qed.

Lemma starts_trans fmt t : t ∈ hint_starts fmt -> forall u, u ∈ hint_starts t -> u ∈ hint_starts fmt.
Proof.
  induction fmt as [|c fmt IH]; cbn [hint_starts]; [by intros ?%not_elem_of_nil|]. destruct (isdigit c); [by auto|].
  intros [->|Ht]%elem_of_cons u Hu; right; [done|]. by eapply IH.
Qed.

Lemma small_hint_start fmt t : small_hint fmt = true -> t ∈ hint_starts fmt -> small_hint t = true.
Proof.
  unfold small_hint. cbn [forallb]. intros [_ H]%andb_true_iff Ht. rewrite forallb_forall in H. apply andb_true_iff. split.
  - by apply H, list_elem_of_In.
  - apply forallb_forall. intros u Hu. apply H. apply list_elem_of_In. apply list_elem_of_In in Hu. by eapply starts_trans.
Qed.

(** Behind the number and the format of a part a part starts. *)
Lemma small_rest fmt : small_hint fmt = true -> exists pfx rest, hint_prefix fmt = MibOk (pfx, rest) /\ 1 <= pfx <= 7 /\
  forall c rest', rest = c :: rest' -> small_hint rest' = true.
Proof.
  intros Hs. pose proof Hs as Hp. unfold small_hint in Hp. cbn [forallb] in Hp. apply andb_true_iff in Hp as [Hp _].
  unfold small_prefix in Hp. destruct (hint_prefix fmt) as [[pfx rest]|] eqn:E; [|by discriminate Hp].
  apply bool_decide_eq_true_1 in Hp. exists pfx, rest. split; [done|]. split; [done|]. intros c rest' ->.
  unfold hint_prefix, mbind, mib_bind in E. destruct (hint_digits fmt 0 false) as [[[p h] r]|] eqn:Hd; [|done].
  injection E as _ ->. apply hint_digits_rest in Hd as (ds & -> & Hds & Hc). apply small_hint_start with (1 := Hs).
  rewrite (starts_digits _ _ Hds). cbn. rewrite Hc. left.
Qed.

Lemma small_separator rest more : small_hint rest = true -> small_hint (format_separator rest more).2 = true.
Proof.
  intros Hs. destruct rest as [|s rest]; [done|]. unfold format_separator.
  destruct (isdigit s) eqn:Hd; [done|]. destruct (bool_decide (s <> chr_star)); [|done]. cbn.
  apply small_hint_start with (1 := Hs). cbn. rewrite Hd. left.
Qed.

Lemma radix_width_le base fuel : forall u, (radix_width base fuel u <= fuel)%nat.
Proof. induction fuel as [|fuel IH]; intros u; [done|]. cbn. destruct (bool_decide _); [lia|]. specialize (IH (u / base)). lia. Qed.

Lemma bit_text_length i vv : length (bit_text i vv) = i.
Proof. induction i as [|i IH]; [done|]. cbn. by rewrite IH. Qed.

Lemma top_bit_le i vv : (top_bit i vv <= i)%nat.
Proof. induction i as [|i IH]; [done|]. cbn [top_bit]. destruct (bool_decide _); lia. Qed.

(** No number is longer than the buffer. *)
Lemma number_text_length c xlen vv : 0 <= xlen <= 14 -> (length (number_text c xlen vv) <= 32)%nat.
Proof.
  intros Hx. assert (Hllu : forall u, (length (sprintf_llu u) <= 21)%nat).
  { intros u. unfold sprintf_llu. rewrite length_map, digits_msd_length. pose proof (dec_width_bound 20 (u64 u)). lia. }
  unfold number_text, sprintf_ld, sprintf_lo, sprintf_prec_lX.
  pose proof (radix_width_le 8 22 (u64 vv)). pose proof (radix_width_le 16 16 (u64 vv)). pose proof (top_bit_le 32 vv).
  pose proof (Hllu vv). pose proof (Hllu (- vv)).
  repeat case_bool_decide; cbn [length]; rewrite ?length_map, ?radix_length, ?bit_text_length; lia.
Qed.

(** A part goes on in the octets and leaves nothing undefined. *)
Lemma format_item_safe bs c pfx i : bytes bs -> 1 <= pfx <= 7 -> (i < length bs)%nat -> exists item,
  format_item bs c pfx i = MibOk item /\ forall text i', item = Some (text, i') -> (i < i')%nat.
Proof.
  intros Hb Hp Hi. unfold format_item. destruct (bool_decide (c = chr_a)).
  { destruct (forallb _ _); eexists; (split; [reflexivity|]); [|done]. intros text i' [= _ <-]. case_bool_decide; lia. }
  destruct (is_number_format c); [|by exists None].
  unfold fits_int. rewrite bool_decide_eq_true_2 by lia. unfold mret, mib_ret, mbind, mib_bind.
  rewrite (collect_ok _ 0 0); [|by apply Forall_take, Forall_drop|done|rewrite length_take; lia].
  unfold in_buffer. pose proof (number_text_length c (pfx * 2) (big_endian (take (Z.to_nat pfx) (drop i bs)) 0) ltac:(lia)) as Hl.
  rewrite decide_True by (unfold HINT_BUFFER; lia). eexists. split; [reflexivity|]. intros text i' [= _ <-]. lia.
Qed.

Lemma format_octets_safe bs fuel : bytes bs -> forall fmt i out, small_hint fmt = true -> (length bs <= i + fuel)%nat ->
  exists text, format_octets fuel bs fmt i out = MibOk text.
Proof.
  intros Hb. induction fuel as [|fuel IH]; intros fmt i out Hs Hf; cbn [format_octets];
    (destruct (bool_decide (length bs <= i)%nat) eqn:Hi; [rewrite orb_true_r; eexists; reflexivity|]); apply bool_decide_eq_false_1 in Hi; [lia|].
  destruct (bool_decide (fmt = [])); [by eexists|]. cbn [orb]. destruct (small_rest fmt Hs) as (pfx & rest & Hp & Hr & Hrest).
  rewrite Hp. unfold mbind, mib_bind. destruct rest as [|c rest]; [by eexists|]. specialize (Hrest c rest eq_refl).
  destruct (format_item_safe bs c pfx i Hb Hr ltac:(lia)) as ([[text i']|] & Hitem & Hgo); rewrite Hitem; [|by eexists].
  specialize (Hgo text i' eq_refl). pose proof (small_separator rest (bool_decide (i' < length bs)%nat) Hrest) as Hsep.
  destruct (format_separator rest _) as [sep rest']. cbn in Hsep. apply IH; [|lia]. destruct (bool_decide (rest' = []) && _); assumption.
Qed.

(** C33: For every display hint whose counts are 1 to 7 and every octet string,
    [FormatOctetTC] ends within one round per octet with a result: no number leaves a
    [long], no text leaves [buf[80]]. *)
Theorem format_octet_safe bs fmt fuel : bytes bs -> small_hint fmt = true -> (length bs <= fuel)%nat ->
  exists text, FormatOctetTC fuel (Some bs) fmt = MibOk text.
Proof.
  intros Hb Hs Hf. unfold FormatOctetTC. destruct (bool_decide _); [by exists None|]. by apply format_octets_safe.
Qed.

Lemma format_octet_safe_witness : small_hint (cstr "2d-1d-1d,1d:1d:1d.1d,1a1d:1d") = true /\
  exists text, FormatOctetTC 8 (Some [7; 208; 1; 2; 3; 4; 5; 6]) (cstr "2d-1d-1d,1d:1d:1d.1d,1a1d:1d") = MibOk text.
Proof.
  split; [vm_compute; reflexivity|]. apply format_octet_safe; [by repeat constructor|vm_compute; reflexivity|cbn; lia].
Defined.

(** ** Hints and values without an end *)

(** A count of 0 takes no octet and repeats the hint. *)
Lemma format_zero_count fuel b : FormatOctetTC fuel (Some [b]) (cstr "0d") = MibFault MibLoops.
Proof.
  unfold FormatOctetTC. change (bool_decide _) with false. cbv iota. generalize (@nil Z) at 2.
  induction fuel as [|fuel IH]; intros out; [reflexivity|]. apply IH.
Qed.

(** A text the format cannot read is not skipped when no separator is expected. *)
Lemma scan_stuck fuel : ScanOctetTC fuel (cstr "2") (cstr "1b") = MibFault MibLoops /\ ScanOctetTC fuel (cstr "8") (cstr "1o") = MibFault MibLoops.
Proof.
  unfold ScanOctetTC. split; change (bool_decide _) with false; cbv iota; generalize (@nil Z);
    (induction fuel as [|fuel IH]; intros out; [reflexivity|]); apply IH.
Qed.
