(* ===== verification/MibTree.v ===== *)
(** The tree of MIB nodes ([tnmMibTree.c]) and the procedures of [tnmMibUtil.c] that
    go through it.

    Nodes live in memory ([mb_nodes]) under an address.  The children of a node and
    the nodes with the same hash value are lists linked by [nextPtr]; a node is moved
    from one list to the other by overwriting these pointers, and [BuildSubTree] keeps
    the address of a pointer ([location]) while it moves nodes.  Walking a list is
    bounded by a number of steps; [MibLoops] is the outcome when it is exceeded.

    A position in a C string is the rest of the string from there on or, where the code
    computes with it, the number of characters in front of it. *)

From stdpp Require Import gmap.
From S2P Require Import Prelude Ber CStr Oid Util Snmp Mib.
Local Open Scope Z_scope.
Local Open Scope cint_scope.

Record TnmMibNode := mkNode {
  nd_subid : Z;
  nd_label : cstring;
  nd_parentName : option cstring;
  nd_moduleName : option cstring;
  nd_fileName : option cstring;
  nd_fileOffset : Z;
  nd_syntax : Z;
  nd_access : Z;
  nd_macro : Z;
  nd_status : Z;
  nd_implied : bool;
  nd_augment : bool;
  nd_index : option cstring;
  nd_typePtr : option TnmMibType;
  nd_parentPtr : option nat;
  nd_childPtr : option nat;
  nd_nextPtr : option nat
}.

Definition node_links (fileName : option cstring) (parent child next : option nat) (n : TnmMibNode) : TnmMibNode :=
  mkNode (nd_subid n) (nd_label n) (nd_parentName n) (nd_moduleName n) fileName (nd_fileOffset n) (nd_syntax n)
    (nd_access n) (nd_macro n) (nd_status n) (nd_implied n) (nd_augment n) (nd_index n) (nd_typePtr n) parent child next.
Definition set_nextPtr (next : option nat) (n : TnmMibNode) : TnmMibNode :=
  node_links (nd_fileName n) (nd_parentPtr n) (nd_childPtr n) next n.
Definition set_childPtr (child : option nat) (n : TnmMibNode) : TnmMibNode :=
  node_links (nd_fileName n) (nd_parentPtr n) child (nd_nextPtr n) n.

(** A message on [stderr]: a node without a name of its parent, a node whose parent is
    not in the tree. *)
Inductive mib_message :=
  | HasNoParent (label : cstring)
  | NoParent (parentName label : cstring).

Definition NODEHASHSIZE : nat := 127.

(** The static variables. *)
Record mib_state := mkMib {
  mb_nodes : gmap nat TnmMibNode;
  mb_nodehashtab : list (option nat);
  mb_nodeHashTable : option (gmap cstring (option nat));
  mb_tree : option nat;
  mb_fileName : option cstring;
  mb_stderr : list mib_message
}.

Definition with_nodes (f : gmap nat TnmMibNode -> gmap nat TnmMibNode) (st : mib_state) : mib_state :=
  mkMib (f (mb_nodes st)) (mb_nodehashtab st) (mb_nodeHashTable st) (mb_tree st) (mb_fileName st) (mb_stderr st).
Definition with_table (f : list (option nat) -> list (option nat)) (st : mib_state) : mib_state :=
  mkMib (mb_nodes st) (f (mb_nodehashtab st)) (mb_nodeHashTable st) (mb_tree st) (mb_fileName st) (mb_stderr st).
Definition with_names (h : option (gmap cstring (option nat))) (st : mib_state) : mib_state :=
  mkMib (mb_nodes st) (mb_nodehashtab st) h (mb_tree st) (mb_fileName st) (mb_stderr st).
Definition with_tree (p : option nat) (st : mib_state) : mib_state :=
  mkMib (mb_nodes st) (mb_nodehashtab st) (mb_nodeHashTable st) p (mb_fileName st) (mb_stderr st).
Definition with_message (msg : mib_message) (st : mib_state) : mib_state :=
  mkMib (mb_nodes st) (mb_nodehashtab st) (mb_nodeHashTable st) (mb_tree st) (mb_fileName st) (mb_stderr st ++ [msg]).

Definition of_option {A} (f : mib_fault) (a : option A) : mib_out A :=
  match a with Some a => mret a | None => MibFault f end.

(** [*p] of a pointer that is not [NULL]. *)
Definition deref (st : mib_state) (p : nat) : mib_out TnmMibNode := of_option MibNull (mb_nodes st !! p).

(** As many steps as there are nodes are enough for every list. *)
Definition steps (st : mib_state) : nat := size (mb_nodes st).

(** ** Searching by object identifiers *)

(** [for (q = p; q; q = q->nextPtr) if (q->subid == subid) break;] *)
Fixpoint find_sibling (fuel : nat) (st : mib_state) (p : option nat) (subid : Z) : mib_out (option nat) :=
  match p with
  | None => mret None
  | Some p =>
      match fuel with
      | O => MibFault MibLoops
      | S fuel =>
          n ← deref st p;
          if bool_decide (nd_subid n = subid) then mret (Some p) else find_sibling fuel st (nd_nextPtr n) subid
      end
  end.

(** The loop over the subidentifiers behind the first one: the last node and the number
    of subidentifiers that have been found. *)
Fixpoint descend (st : mib_state) (p : nat) (oid : list Z) (found : nat) : mib_out (nat * nat) :=
  match oid with
  | [] => mret (p, found)
  | subid :: oid =>
      n ← deref st p;
      q ← find_sibling (steps st) st (nd_childPtr n) subid;
      match q with
      | None => mret (p, found)
      | Some q => descend st q oid (S found)
      end
  end.

(** The elements of an object identifier. *)
Definition oid_values (o : TnmOid) : list Z := take (Z.to_nat (TnmOidGetLength o)) (oid_elements o).

(** [TnmMibNodeFromOid(oidPtr, nodeOidPtr)]: the node and the object identifier that is
    appended to [nodeOidPtr].  The first element is read even if there is none. *)
Definition TnmMibNodeFromOid (st : mib_state) (oid : TnmOid) : mib_out (option (nat * list Z)) :=
  first ← of_option MibOverrun (TnmOidGet oid 0);
  p ← find_sibling (steps st) st (mb_tree st) first;
  match p with
  | None => mret None
  | Some p =>
      '(q, found) ← descend st p (drop 1 (oid_values oid)) 0;
      mret (Some (q, first :: take found (drop 1 (oid_values oid))))
  end.

Definition ispunct (c : Z) : bool :=
  bool_decide (33 <= c <= 47) || bool_decide (58 <= c <= 64) || bool_decide (91 <= c <= 96) || bool_decide (123 <= c <= 126).

Fixpoint skip_chars (P : Z -> bool) (s : cstring) : cstring :=
  match s with c :: s' => if P c then skip_chars P s' else s | [] => [] end.
(** [while (ispunct( *s)) s++; while (isdigit( *s)) s++;] *)
Definition skip_subid (s : cstring) : cstring := skip_chars isdigit (skip_chars ispunct s).
Fixpoint skip_subids (n : nat) (s : cstring) : cstring :=
  match n with O => s | S n => skip_subids n (skip_subid s) end.

Definition offset_of (s rest : cstring) : Z := Z.of_nat (length s) - Z.of_nat (length rest).

(** The object identifier of a label of digits and dots; [None] is an error. *)
Definition lookup_oid_value (label : cstring) : mib_out (option (list Z)) :=
  if bool_decide (label = cstr "0") then mret (Some [0])
  else if bool_decide (label = cstr "1") then mret (Some [1])
  else if bool_decide (label = cstr "2") then mret (Some [2])
  else
    '(code, oid) ← of_option MibOverrun (TnmOidFromString TnmOidInit label);
    match code with
    | TCL_OK => first ← of_option MibOverrun (TnmOidGet oid 0); mret (Some (first :: drop 1 (oid_values oid)))
    | _ => mret None
    end.

(** The node and [*offset]. *)
Definition LookupOID (st : mib_state) (root : option nat) (label : cstring) (exact : bool) : mib_out (option nat * Z) :=
  oid ← lookup_oid_value label;
  match oid with
  | None | Some [] => mret (None, -1)
  | Some (first :: rest) =>
      p ← find_sibling (steps st) st root first;
      match p with
      | None => mret (None, -1)
      | Some p =>
          '(q, found) ← descend st p rest 0;
          if bool_decide (found = length rest) then mret (Some q, -1)
          else if exact then mret (None, -1)
          else mret (Some q, offset_of label (skip_subids (S found) label))
      end
  end.

(** ** Searching by names *)

Definition index_of (c : Z) (s : cstring) : option nat := fst <$> list_find (fun x => x = c) s.

(** Skip a subidentifier and the dot in front of it. *)
Definition skip_component (s : cstring) : cstring :=
  skip_chars (fun c => negb (bool_decide (c = chr_dot)))
    (match s with c :: s' => if bool_decide (c = chr_dot) then s' else s | [] => [] end).
Fixpoint skip_components (n : nat) (s : cstring) : cstring :=
  match n with O => s | S n => skip_components n (skip_component s) end.

(** The loop that resolves further subidentifiers: the node and [i]. *)
Definition resolve_more (st : mib_state) (nodePtr : nat) (label : cstring) : mib_out (nat * nat) :=
  '(_, o) ← of_option MibOverrun (TnmOidFromString TnmOidInit label);
  descend st nodePtr (oid_values o) 0.

(** [None] leaves [*offset] as it is. *)
Definition LookupLabelOID (st : mib_state) (label : cstring) (exact : bool) : mib_out (option (nat * Z)) :=
  if exact then mret None
  else
    match mb_nodeHashTable st, index_of chr_dot label with
    | Some table, Some dot =>
        if TnmIsOid (drop dot label) then
          match table !! (take dot label : cstring) with
          | Some (Some nodePtr) =>
              if bool_decide (dot = O) then mret (Some (nodePtr, 0))
              else
                '(nodePtr, i) ← resolve_more st nodePtr (drop dot label);
                mret (Some (nodePtr, offset_of label (skip_components i (drop dot label))))
          | _ => mret None
          end
        else mret None
    | _, _ => mret None
    end.

(** [atoi] of a string of digits; a number that is no [int] is undefined. *)
Definition atoi (s : cstring) : mib_out Z :=
  let v := fold_left (fun acc c => 10 * acc + c - chr_0) s 0 in if bool_decide (v < 2147483648) then mret v else MibFault MibUndefined.

Definition HEAD_SIZE : nat := (TNM_OID_MAX_SIZE * 8)%nat.

(** The first element of a label, the number it denotes and what follows the dot. *)
Definition label_head (label : cstring) : mib_out (cstring * Z * cstring) :=
  let dot := default (length label) (index_of chr_dot label) in
  let head := take dot label in
  if bool_decide (HEAD_SIZE <= dot)%nat then MibFault MibOverrun
  else
    num ← (if forallb isdigit head then atoi head else mret (-1));
    mret (head, num, drop (S dot) label).

(** [strcmp(head, brother->label) == 0 && ( *moduleName == 0 || strcmp(moduleName,
    brother->moduleName) == 0) || (u_int) num == brother->subid] *)
Definition label_match (head moduleName : cstring) (num : Z) (n : TnmMibNode) : mib_out bool :=
  by_name ← (if bool_decide (head = nd_label n) then
               if bool_decide (moduleName = []) then mret true
               else name ← of_option MibNull (nd_moduleName n); mret (bool_decide (moduleName = name))
             else mret false);
  mret (by_name || bool_decide (u32 num = nd_subid n)).

(** [if (offset && ( *offset < tail-start-1) && *offset != -2)] *)
Definition label_offset (start tail : cstring) (offset : Z) : Z :=
  let here := offset_of start tail - 1 in
  if bool_decide (offset < here) && bool_decide (offset <> -2)
  then (if bool_decide (tail = []) then -2 else here) else offset.

(** The loop over the brothers; [fuel] bounds the steps to a child or to the next
    brother.  The node and [*offset]. *)
Fixpoint lookup_brothers (fuel : nat) (st : mib_state) (brother : option nat) (start label : cstring)
    (moduleName : cstring) (exact fuzzy : bool) (offset : Z) : mib_out (option nat * Z) :=
  match brother with
  | None => mret (None, offset)
  | Some brother =>
      match fuel with
      | O => MibFault MibLoops
      | S fuel =>
          '(head, num, tail) ← label_head label;
          n ← deref st brother;
          matches ← label_match head moduleName num n;
          '(tp, offset) ←
            (if (matches : bool) then
               if bool_decide (tail = []) then mret (Some brother, offset)
               else if bool_decide (is_Some (nd_childPtr n))
               then lookup_brothers fuel st (nd_childPtr n) start tail moduleName exact false (-1)
               else mret (if exact then None else Some brother, offset)
             else mret (None, offset));
          match tp with
          | Some tp => mret (Some tp, label_offset start tail offset)
          | None =>
              '(tp, offset) ←
                (if fuzzy && bool_decide (is_Some (nd_childPtr n))
                 then lookup_brothers fuel st (nd_childPtr n) start label moduleName exact true (-1)
                 else mret (None, offset));
              match tp with
              | Some tp => mret (Some tp, label_offset start tail offset)
              | None => lookup_brothers fuel st (nd_nextPtr n) start label moduleName exact fuzzy offset
              end
          end
      end
  end.

(** The head of the label is copied before the first node is looked at. *)
Definition LookupLabel (st : mib_state) (root : option nat) (start label moduleName : cstring) (exact fuzzy : bool) (offset : Z)
    : mib_out (option nat * Z) :=
  match root with
  | None => mret (None, offset)
  | Some _ => lookup_brothers (steps st) st root start label moduleName exact fuzzy (-1)
  end.


Definition chr_bang : Z := 33.

(** The end of a module name in front of a name: at ['!'], at the first [':'] if a second
    one follows, or at the first dot of a name in upper case. *)
Definition module_end (name : cstring) : option nat :=
  match index_of chr_bang name with
  | Some i => Some i
  | None =>
      match index_of chr_colon name with
      | Some i => if bool_decide (name !! S i = Some chr_colon) then Some i else
          match name with c :: _ => if isupper c then index_of chr_dot name else None | [] => None end
      | None => match name with c :: _ => if isupper c then index_of chr_dot name else None | [] => None end
      end
  end.

(** The module name, the name behind it and the number of characters in front of it. *)
Definition split_module (name : cstring) : cstring * cstring * nat :=
  match module_end name with
  | None => ([], name, O)
  | Some i =>
      let moduleName := if bool_decide (i < 255)%nat then take i name else cstr "********" in
      let rest := drop (S i) name in
      if bool_decide (head rest = Some chr_colon) then (moduleName, drop 1 rest, S (S i)) else (moduleName, rest, S i)
  end.

(** A name that is no object identifier: in the table of names, with subidentifiers
    behind it, then in the whole tree. *)
Definition search_name (st : mib_state) (moduleName name : cstring) (exact : bool) : mib_out (option nat * Z) :=
  match table ← mb_nodeHashTable st; table !! name with
  | Some (Some nodePtr) => mret (Some nodePtr, -1)
  | _ =>
      found ← LookupLabelOID st name exact;
      match found with
      | Some (nodePtr, offset) => mret (Some nodePtr, offset)
      | None => LookupLabel st (mb_tree st) name name moduleName exact true (-1)
      end
  end.

(** The node must be one of the module; [extra] is the length of the module name and of
    the separator. *)
Definition check_module (st : mib_state) (moduleName : cstring) (extra : nat) (nodePtr : option nat) (offset : Z) : mib_out (option nat * Z) :=
  match nodePtr with
  | None => mret (None, offset)
  | Some nodePtr =>
      n ← deref st nodePtr;
      match nd_moduleName n with
      | Some nodeModule =>
          if bool_decide (moduleName = []) then mret (Some nodePtr, offset)
          else if bool_decide (moduleName = nodeModule)
          then mret (Some nodePtr, if bool_decide (0 < offset) then offset + Z.of_nat extra else offset)
          else mret (None, offset)
      | None => mret (Some nodePtr, offset)
      end
  end.

(** The node and [*offset]. *)
Definition TnmMibFindNode (st : mib_state) (name : cstring) (exact : bool) : mib_out (option nat * Z) :=
  let '(moduleName, name, extra) := split_module name in
  expanded ← of_option MibOverrun (TnmHexToOid name);
  let name := default name expanded in
  '(nodePtr, offset) ← (if TnmIsOid name then LookupOID st (mb_tree st) name exact else search_name st moduleName name exact);
  check_module st moduleName extra nodePtr offset.

(** ** Types *)

(** The hash table of the types by name, the list of the types, newest first, and the
    static [snmpType] of [TnmMibFindType]. *)
Record type_state := mkTypes { ts_hash : option (gmap cstring TnmMibType); ts_list : list TnmMibType }.

Definition full_name (moduleName name : cstring) : cstring := moduleName ++ chr_bang :: name.

(** The type that is known under the name afterwards; [None] is [NULL]. *)
Definition TnmMibAddType (ts : type_state) (type : TnmMibType) : mib_out (option TnmMibType * type_state) :=
  let table := default ∅ (ts_hash ts) in
  match ty_moduleName type with
  | None => mret (None, mkTypes (Some table) (ts_list ts))
  | Some moduleName =>
      name ← of_option MibNull (ty_name type);
      match table !! name with
      | Some known => mret (Some known, mkTypes (Some table) (ts_list ts))
      | None =>
          let table := <[name := type]> table in
          let full := full_name moduleName name in
          let table := match table !! full with Some _ => table | None => <[full := type]> table end in
          mret (Some type, mkTypes (Some table) (type :: ts_list ts))
      end
  end.

Definition snmpType (syntax : Z) (name : cstring) : TnmMibType := mkMibType (Some name) None None 0 syntax None 0 0 0 [].

Definition TnmMibFindType (ts : type_state) (name : cstring) : option TnmMibType :=
  match ts_hash ts with
  | None => None
  | Some table =>
      let by_label := i ← index_of chr_bang name; table !! drop (S i) name in
      match table !! name, by_label with
      | Some type, _ => Some type
      | None, Some type => Some type
      | None, None =>
          let syntax := TnmGetTableKey tnmSnmpTypeTable name in
          if bool_decide (syntax <> -1) then Some (snmpType syntax name)
          else if bool_decide (name = cstr "BITS") then Some (snmpType ASN1_OCTET_STRING name)
          else None
      end
  end.

(** ** Building the tree *)

(** [hash += *cp] with a signed [char]. *)
Definition HashNodeLabel (label : cstring) : Z :=
  Z.rem (fold_left (fun hash c => s32 (hash + (if bool_decide (c < 128) then c else c - 256))) label 0) (Z.of_nat NODEHASHSIZE).

(** The index into [nodehashtab]; a negative one is outside of the table. *)
Definition hash_index (label : cstring) : mib_out nat :=
  if bool_decide (HashNodeLabel label < 0) then MibFault MibOverrun else mret (Z.to_nat (HashNodeLabel label)).

(** [TnmMibNewNode]: the address [p] is the one [ckalloc] returned. *)
Definition TnmMibNewNode (label : cstring) : TnmMibNode :=
  mkNode 0 label None None None 0 ASN1_OTHER 0 0 0 false false None None None None None.
Definition new_node (st : mib_state) (n : TnmMibNode) : nat * mib_state :=
  let p := fresh (dom (mb_nodes st)) in (p, with_nodes <[p := n]> st).

Definition HashNode (st : mib_state) (nodePtr : nat) : mib_out mib_state :=
  n ← deref st nodePtr;
  let table := default ∅ (mb_nodeHashTable st) in
  mret (with_names (Some match table !! nd_label n with
                         | None => <[nd_label n := Some nodePtr]> table
                         | Some known => if bool_decide (known = Some nodePtr) then table else <[nd_label n := None]> table
                         end) st).

(** The loop of [HashNodeList]. *)
Fixpoint hash_node_list (fuel : nat) (st : mib_state) (nodePtr : option nat) : mib_out mib_state :=
  match nodePtr with
  | None => mret st
  | Some p =>
      match fuel with
      | O => MibFault MibLoops
      | S fuel =>
          n ← deref st p;
          match nd_parentName n with
          | None => mret (with_message (HasNoParent (nd_label n)) st)
          | Some parentName =>
              hash ← hash_index parentName;
              first ← of_option MibOverrun (mb_nodehashtab st !! hash);
              let st := with_nodes (alter (set_nextPtr first) p) st in
              hash_node_list fuel (with_table <[hash := Some p]> st) (nd_nextPtr n)
          end
      end
  end.

Definition HashNodeList (st : mib_state) (nodeList : option nat) : mib_out mib_state :=
  hash_node_list (steps st) (with_table (fun _ => replicate NODEHASHSIZE None) st) nodeList.

(** The address of a pointer: an element of [nodehashtab], the [nextPtr] or the
    [childPtr] of a node. *)
Inductive location := LTab (i : nat) | LNext (p : nat) | LChild (p : nat).

Definition get_loc (st : mib_state) (l : location) : mib_out (option nat) :=
  match l with
  | LTab i => of_option MibOverrun (mb_nodehashtab st !! i)
  | LNext p => n ← deref st p; mret (nd_nextPtr n)
  | LChild p => n ← deref st p; mret (nd_childPtr n)
  end.

Definition set_loc (l : location) (v : option nat) (st : mib_state) : mib_state :=
  match l with
  | LTab i => with_table <[i := v]> st
  | LNext p => with_nodes (alter (set_nextPtr v) p) st
  | LChild p => with_nodes (alter (set_childPtr v) p) st
  end.

(** [while ( *ptr && ( *ptr)->subid < thisNode->subid) ptr = &( *ptr)->nextPtr;] *)
Fixpoint find_place (fuel : nat) (st : mib_state) (ptr : location) (subid : Z) : mib_out location :=
  cur ← get_loc st ptr;
  match cur with
  | None => mret ptr
  | Some q =>
      n ← deref st q;
      if bool_decide (nd_subid n < subid) then
        match fuel with O => MibFault MibLoops | S fuel => find_place fuel st (LNext q) subid end
      else mret ptr
  end.

(** A node that has left its list is linked below [root], unless there is a node with its
    subidentifier; the node that is there afterwards. *)
Definition link_node (st : mib_state) (root thisNode : nat) : mib_out (nat * mib_state) :=
  let st := with_nodes (alter (node_links (mb_fileName st) (Some root) None None) thisNode) st in
  this ← deref st thisNode;
  ptr ← find_place (steps st) st (LChild root) (nd_subid this);
  cur ← get_loc st ptr;
  same ← match cur with
         | None => mret false
         | Some q => n ← deref st q; mret (bool_decide (nd_subid n = nd_subid this))
         end;
  match cur, (same : bool) with
  | Some q, true => mret (q, st)
  | _, _ =>
      let st := set_loc ptr (Some thisNode) (with_nodes (alter (set_nextPtr cur) thisNode) st) in
      st ← HashNode st thisNode;
      mret (thisNode, st)
  end.

(** The loop of [BuildSubTree] from the location [np] on.  [fuel] bounds the number of
    rounds and of nested calls. *)
Fixpoint build_loop (fuel : nat) (st : mib_state) (root : nat) (np : location) : mib_out mib_state :=
  cur ← get_loc st np;
  match cur with
  | None => mret st
  | Some thisNode =>
      match fuel with
      | O => MibFault MibLoops
      | S fuel =>
          r ← deref st root;
          this ← deref st thisNode;
          parentName ← of_option MibNull (nd_parentName this);
          if bool_decide (nd_label r = parentName) then
            '(child, st) ← link_node (set_loc np (nd_nextPtr this) st) root thisNode;
            c ← deref st child;
            hash ← hash_index (nd_label c);
            st ← build_loop fuel st child (LTab hash);
            build_loop fuel st root np
          else build_loop fuel st root (LNext thisNode)
      end
  end.

(** Enough rounds for the nodes there are. *)
Definition build_fuel (st : mib_state) : nat := ((steps st + 1) * (steps st + 1) + 1)%nat.

Definition BuildSubTree (st : mib_state) (root : nat) : mib_out mib_state :=
  r ← deref st root;
  hash ← hash_index (nd_label r);
  build_loop (build_fuel st) st root (LTab hash).

(** [ccitt], [iso] and [joint-iso-ccitt] *)
Definition root_node (label : string) (subid : Z) (next : option nat) : TnmMibNode :=
  mkNode subid (cstr label) (Some (cstr "(unknown)")) None None 0 ASN1_OBJECT_IDENTIFIER 0 0 0 false false None None None None next.

(** The pointers are set to nodes that are allocated later: the three nodes are made in
    the order in which they point to each other. *)
Definition BuildTree (st : mib_state) (nodeList : option nat) : mib_out (nat * mib_state) :=
  st ← HashNodeList st nodeList;
  let '(joint, st) := new_node st (root_node "joint-iso-ccitt" 2 None) in
  let '(iso, st) := new_node st (root_node "iso" 1 (Some joint)) in
  let '(ccitt, st) := new_node st (root_node "ccitt" 0 (Some iso)) in
  st ← BuildSubTree st ccitt;
  st ← BuildSubTree st iso;
  st ← BuildSubTree st joint;
  mret (ccitt, st).

(** [for (nodePtr = nodeList; nodePtr->nextPtr; nodePtr = nodePtr->nextPtr);] *)
Fixpoint last_node (fuel : nat) (st : mib_state) (p : nat) : mib_out nat :=
  n ← deref st p;
  match nd_nextPtr n with
  | None => mret p
  | Some q => match fuel with O => MibFault MibLoops | S fuel => last_node fuel st q end
  end.

(** The first node from [p] on whose parent is in the tree: the parent. *)
Fixpoint chain_parent (fuel : nat) (st : mib_state) (p : option nat) : mib_out (option nat) :=
  match p with
  | None => mret None
  | Some p =>
      match fuel with
      | O => MibFault MibLoops
      | S fuel =>
          n ← deref st p;
          parentName ← of_option MibNull (nd_parentName n);
          '(tree, _) ← TnmMibFindNode st parentName true;
          match tree with
          | Some tree => mret (Some tree)
          | None => chain_parent fuel st (nd_nextPtr n)
          end
      end
  end.

Fixpoint table_parent (st : mib_state) (table : list (option nat)) : mib_out (option nat) :=
  match table with
  | [] => mret None
  | p :: table =>
      tree ← chain_parent (steps st) st p;
      match tree with
      | Some tree => mret (Some tree)
      | None => table_parent st table
      end
  end.

(** [repeat:] *)
Fixpoint build_known (fuel : nat) (st : mib_state) : mib_out mib_state :=
  tree ← table_parent st (mb_nodehashtab st);
  match tree with
  | None => mret st
  | Some tree =>
      match fuel with
      | O => MibFault MibLoops
      | S fuel => st ← BuildSubTree st tree; build_known fuel st
      end
  end.

(** The messages about the nodes of a list. *)
Fixpoint report_chain (fuel : nat) (st : mib_state) (p : option nat) : mib_out (list mib_message) :=
  match p with
  | None => mret []
  | Some p =>
      match fuel with
      | O => MibFault MibLoops
      | S fuel =>
          n ← deref st p;
          parentName ← of_option MibNull (nd_parentName n);
          rest ← report_chain fuel st (nd_nextPtr n);
          mret (NoParent parentName (nd_label n) :: rest)
      end
  end.

Fixpoint report_table (st : mib_state) (table : list (option nat)) : mib_out (list mib_message) :=
  match table with
  | [] => mret []
  | p :: table =>
      chain ← report_chain (steps st) st p;
      rest ← report_table st table;
      mret (chain ++ rest)
  end.

(** [TnmMibAddNode(&tnmMibTree, nodeList)] *)
Definition TnmMibAddNode (st : mib_state) (nodeList : option nat) : mib_out (Z * mib_state) :=
  match nodeList with
  | None => mret (0, st)
  | Some first =>
      st ← match mb_tree st with
           | None => '(root, st) ← BuildTree st nodeList; mret (with_tree (Some root) st)
           | Some _ => mret st
           end;
      last ← last_node (steps st) st first;
      n ← deref st last;
      parentName ← of_option MibNull (nd_parentName n);
      '(tree, _) ← TnmMibFindNode st parentName true;
      st ← HashNodeList st nodeList;
      st ← match tree with Some tree => BuildSubTree st tree | None => mret st end;
      st ← build_known (steps st) st;
      messages ← report_table st (mb_nodehashtab st);
      mret (if bool_decide (messages = []) then 0 else -1, fold_left (fun st msg => with_message msg st) messages st)
  end.
