(* ===== verification/MibTreeInv.v ===== *)
(** The shape of the MIB tree in memory.

    [rep roots st K F] relates the memory to what it stands for: [K] gives each node of
    the tree its object identifier and the list of its children, [F] the nodes that
    wait in the lists of [nodehashtab].  Moving a node from such a list into the tree
    preserves it ([link_node_rep]), and so does [BuildSubTree] ([build_loop_rep]),
    although the pointer it walks with may end up in the tree. *)

From stdpp Require Import gmap sorting.
From S2P Require Import Prelude Ber CStr Oid Util Snmp Mib MibTree.
Local Open Scope Z_scope.

Lemma index_of_none c s : Forall (fun x => x <> c) s -> index_of c s = None.
Proof. intros H. unfold index_of. by rewrite (proj2 (list_find_None _ _) H). Qed.

Lemma deref_node st p n : mb_nodes st !! p = Some n -> deref st p = MibOk n.
Proof. intros H. unfold deref. by rewrite H. Qed.

(** ** Linked lists *)

Fixpoint chain (nodes : gmap nat TnmMibNode) (o : option nat) (l : list nat) : Prop :=
  match l with
  | [] => o = None
  | p :: l => o = Some p /\ exists n, nodes !! p = Some n /\ chain nodes (nd_nextPtr n) l
  end.

Section chains.
Implicit Types (nodes : gmap nat TnmMibNode) (l : list nat).

Lemma chain_det nodes l1 : forall o l2, chain nodes o l1 -> chain nodes o l2 -> l1 = l2.
Proof.
  induction l1 as [|p l1 IH]; intros o [|q l2]; cbn; [done|intros -> [? _]; done|intros [-> _] ?; done|].
  intros [-> (n & Hn & H1)] [[= <-] (n' & Hn' & H2)]. rewrite Hn in Hn'. injection Hn' as <-. f_equal. by eapply IH.
Qed.

Lemma chain_suffix nodes l1 : forall o p l2, chain nodes o (l1 ++ p :: l2) -> chain nodes (Some p) (p :: l2).
Proof. induction l1 as [|q l1 IH]; intros o p l2; [by intros [-> ?]; split|]. intros [_ (n & _ & H)]. by eapply IH. Qed.

Lemma chain_NoDup nodes l : forall o, chain nodes o l -> NoDup l.
Proof.
  induction l as [|p l IH]; intros o; [constructor|]. intros H. pose proof H as [-> (n & Hn & Hc)]. constructor; [|by eapply IH].
  intros (l1 & l2 & ->)%list_elem_of_split. pose proof (chain_suffix nodes (p :: l1) (Some p) p l2 H) as Hs.
  pose proof (f_equal length (chain_det _ _ _ _ H Hs)) as Hl. cbn in Hl. rewrite length_app in Hl. cbn in Hl. lia.
Qed.

Lemma chain_nodes nodes l : forall o, chain nodes o l -> Forall (fun p => is_Some (nodes !! p)) l.
Proof. induction l as [|p l IH]; intros o; [constructor|]. intros [-> (n & Hn & Hc)]. constructor; [by eexists|by eapply IH]. Qed.

Lemma chain_head nodes o l : chain nodes o l -> o = head l.
Proof. destruct l; [done|]. by intros [-> _]. Qed.

(** A list stays while the pointers of its nodes stay. *)
Definition same_next nodes nodes' (p : nat) : Prop :=
  forall n, nodes !! p = Some n -> exists n', nodes' !! p = Some n' /\ nd_nextPtr n' = nd_nextPtr n.

Lemma chain_frame nodes nodes' l : forall o, chain nodes o l -> Forall (same_next nodes nodes') l -> chain nodes' o l.
Proof.
  induction l as [|p l IH]; intros o; [done|]. intros [-> (n & Hn & Hc)] [Hp Hl]%Forall_cons. split; [done|].
  destruct (Hp n Hn) as (n' & Hn' & Heq). exists n'. split; [done|]. rewrite Heq. by apply IH.
Qed.

Lemma chain_length nodes l o : chain nodes o l -> (length l <= size nodes)%nat.
Proof.
  intros H. pose proof (chain_NoDup _ _ _ H) as Hd. pose proof (chain_nodes _ _ _ H) as Hn.
  rewrite <- size_dom, <- (size_list_to_set (C := gset nat)) by done. apply subseteq_size. intros p Hp.
  apply elem_of_list_to_set in Hp. rewrite Forall_forall in Hn. apply elem_of_dom. by apply Hn.
Qed.

(** The location of the rest of a list behind [l1]. *)
Definition loc_behind (first : location) (l1 : list nat) : location :=
  match last l1 with Some p => LNext p | None => first end.

Lemma loc_behind_snoc first l1 p : loc_behind first (l1 ++ [p]) = LNext p.
Proof. unfold loc_behind. by rewrite last_snoc. Qed.

Lemma chain_behind nodes l1 : forall o p l2, chain nodes o (l1 ++ p :: l2) -> forall q, last (l1 ++ [p]) = Some q -> exists n, nodes !! q = Some n.
Proof.
  intros o p l2 H q. rewrite last_snoc. intros [= <-]. apply chain_suffix in H as [_ (n & Hn & _)]. by eexists.
Qed.

Lemma chain_last nodes l1 : forall o p l2, chain nodes o (l1 ++ p :: l2) -> exists n, nodes !! p = Some n /\ chain nodes (nd_nextPtr n) l2.
Proof. intros o p l2 [_ (n & Hn & Hc)]%chain_suffix. by exists n. Qed.

(** Overwriting the pointer behind [l1]. *)
Lemma chain_splice nodes nodes' l1 : forall o p n l2, chain nodes o (l1 ++ p :: l2) ->
  Forall (same_next nodes nodes') l1 -> nodes' !! p = Some n -> forall l3, chain nodes' (nd_nextPtr n) l3 -> chain nodes' o (l1 ++ p :: l3).
Proof.
  induction l1 as [|q l1 IH]; intros o p n l2 H Hs Hn l3 Hl3.
  - destruct H as [-> _]. split; [done|]. by exists n.
  - destruct H as [-> (m & Hm & Hc)]. apply Forall_cons in Hs as [Hq Hs]. split; [done|].
    destruct (Hq m Hm) as (m' & Hm' & Heq). exists m'. split; [done|]. rewrite Heq. by eapply IH.
Qed.
End chains.

(** ** The tree *)

(** What linking a node does not change. *)
Definition core (n : TnmMibNode) : TnmMibNode := node_links None None None None n.

Lemma core_fields n m : core n = core m -> nd_subid n = nd_subid m /\ nd_label n = nd_label m /\ nd_parentName n = nd_parentName m
  /\ nd_moduleName n = nd_moduleName m.
Proof. intros [=]. by repeat split. Qed.
Lemma core_links n f a b c : core (node_links f a b c n) = core n.
Proof. done. Qed.

(** Names: no dots and separators of modules, not only digits, short enough. *)
Definition plain_name (s : cstring) : bool :=
  forallb (fun c => negb (bool_decide (c = chr_dot) || bool_decide (c = chr_colon) || bool_decide (c = chr_bang))) s
  && existsb (fun c => negb (isdigit c)) s && bool_decide (length s < HEAD_SIZE)%nat.

(** A subidentifier, a label and a hash value as in a MIB: 4294967295 equals the number
    [LookupLabel] has for a name that is no number. *)
Definition node_ok (n : TnmMibNode) : Prop :=
  0 <= nd_subid n < 4294967295 /\ plain_name (nd_label n) = true /\ 0 <= HashNodeLabel (nd_label n).

Definition subid_of (nodes : gmap nat TnmMibNode) (p : nat) : Z := default 0 (nd_subid <$> nodes !! p).
Definition by_subid (nodes : gmap nat TnmMibNode) (l : list nat) : Prop := StronglySorted Z.lt (subid_of nodes <$> l).

Notation tree_view := (gmap nat (list Z * list nat)) (only parsing).
Definition linked (K : tree_view) (p : nat) : Prop := is_Some (K !! p).

Definition free_at (nodes : gmap nat TnmMibNode) (K : tree_view) (i p : nat) : Prop :=
  K !! p = None /\ exists n pn, nodes !! p = Some n /\ nd_parentName n = Some pn /\ HashNodeLabel pn = Z.of_nat i.

(** A child of [r], which has the object identifier [o] and the label [name]. *)
Definition kid_of (nodes : gmap nat TnmMibNode) (K : tree_view) (r : nat) (o : list Z) (name : cstring) (q : nat) : Prop :=
  exists m l, nodes !! q = Some m /\ nd_parentPtr m = Some r /\ nd_parentName m = Some name /\ K !! q = Some (o ++ [nd_subid m], l).

Definition root_ok (nodes : gmap nat TnmMibNode) (K : tree_view) (q : nat) : Prop :=
  exists m l, nodes !! q = Some m /\ nd_parentPtr m = None /\ K !! q = Some ([nd_subid m], l).

Definition kids_ok (nodes : gmap nat TnmMibNode) (K : tree_view) (r : nat) (o : list Z) (l : list nat) : Prop :=
  exists n, nodes !! r = Some n /\ chain nodes (nd_childPtr n) l /\ by_subid nodes l /\ Forall (kid_of nodes K r o (nd_label n)) l.

(** A node of the tree is a root or a child of the node it points to. *)
Definition up_ok (nodes : gmap nat TnmMibNode) (K : tree_view) (roots : list nat) (p : nat) : Prop :=
  exists n, nodes !! p = Some n /\
    match nd_parentPtr n with None => p ∈ roots | Some r => exists o l, K !! r = Some (o, l) /\ p ∈ l end.

(** The table of names holds the nodes whose label no other node has. *)
Definition names_ok (nodes : gmap nat TnmMibNode) (K : tree_view) (roots : list nat) (names : gmap cstring (option nat)) : Prop :=
  (forall name, is_Some (names !! name) -> exists p n, nodes !! p = Some n /\ nd_label n = name) /\
  (forall name q, names !! name = Some (Some q) -> linked K q /\ exists n, nodes !! q = Some n /\ nd_label n = name) /\
  (forall q n, linked K q -> q ∉ roots -> nodes !! q = Some n -> names !! nd_label n = Some (Some q) \/ names !! nd_label n = Some None).

Definition names_of (st : mib_state) : gmap cstring (option nat) := default ∅ (mb_nodeHashTable st).

Record rep (roots : list nat) (st : mib_state) (K : tree_view) (F : list (list nat)) : Prop := mkRep {
  rep_node : forall p n, mb_nodes st !! p = Some n -> node_ok n;
  rep_table : length (mb_nodehashtab st) = NODEHASHSIZE /\ length F = NODEHASHSIZE;
  rep_free : forall i l, F !! i = Some l -> exists o, mb_nodehashtab st !! i = Some o /\ chain (mb_nodes st) o l /\ Forall (free_at (mb_nodes st) K i) l;
  rep_roots : chain (mb_nodes st) (head roots) roots /\ by_subid (mb_nodes st) roots /\ Forall (root_ok (mb_nodes st) K) roots;
  rep_kids : forall r o l, K !! r = Some (o, l) -> kids_ok (mb_nodes st) K r o l;
  rep_up : forall p, linked K p -> up_ok (mb_nodes st) K roots p;
  rep_names : names_ok (mb_nodes st) K roots (names_of st)
}.

Definition waiting (F : list (list nat)) (p : nat) : Prop := exists i l, F !! i = Some l /\ p ∈ l.

(** A node that was not linked because its place was taken. *)
Definition lost (st : mib_state) (K : tree_view) (F : list (list nat)) (p : nat) : Prop :=
  K !! p = None /\ ~ waiting F p /\ exists n, mb_nodes st !! p = Some n /\ nd_nextPtr n = None /\
  exists r q o l n', K !! r = Some (o, l) /\ q ∈ l /\ subid_of (mb_nodes st) q = nd_subid n /\ mb_nodes st !! r = Some n' /\ nd_parentName n = Some (nd_label n').

(** How the memory and its view change while nodes are moved. *)
Record evolve (st : mib_state) (K : tree_view) (F : list (list nat)) (st' : mib_state) (K' : tree_view) (F' : list (list nat)) : Prop := mkEvolve {
  ev_core : forall p, core <$> mb_nodes st' !! p = core <$> mb_nodes st !! p;
  ev_tree : mb_tree st' = mb_tree st;
  ev_linked : forall p o l, K !! p = Some (o, l) -> exists l', K' !! p = Some (o, l') /\ l ⊆ l';
  ev_lost : forall p, lost st K F p -> lost st' K' F' p;
  ev_free : forall p, waiting F p -> waiting F' p \/ linked K' p \/ lost st' K' F' p;
  ev_less : (length (concat F') <= length (concat F))%nat;
  ev_sub : forall p, waiting F' p -> waiting F p
}.

Lemma evolve_refl st K F : evolve st K F st K F.
Proof. constructor; try done; [|by left]. intros p o l H. by exists l. Qed.

Lemma evolve_trans st K F st1 K1 F1 st2 K2 F2 : evolve st K F st1 K1 F1 -> evolve st1 K1 F1 st2 K2 F2 -> evolve st K F st2 K2 F2.
Proof.
  intros [A0 A1 A2 A3 A4 A5 A6] [B0 B1 B2 B3 B4 B5 B6]. constructor.
  - intros p. by rewrite B0.
  - congruence.
  - intros p o l (l1 & H1 & S1)%A2. destruct (B2 _ _ _ H1) as (l2 & H2 & S2). exists l2. split; [done|]. by transitivity l1.
  - auto.
  - intros p [H|[[[o l] H]|H]]%A4; [by apply B4| |auto]. destruct (B2 _ _ _ H) as (l' & H' & _). right. left. by eexists.
  - lia.
  - auto.
Qed.

Lemma evolve_steps st K F st' K' F' : evolve st K F st' K' F' -> steps st' = steps st.
Proof.
  intros H. unfold steps. rewrite <- !size_dom. f_equal. apply set_eq. intros p. rewrite !elem_of_dom.
  rewrite <- (fmap_is_Some core (mb_nodes st' !! p)), <- (fmap_is_Some core (mb_nodes st !! p)). by rewrite (ev_core _ _ _ _ _ _ H).
Qed.

Lemma evolve_node st K F st' K' F' p n : evolve st K F st' K' F' -> mb_nodes st !! p = Some n ->
  exists n', mb_nodes st' !! p = Some n' /\ core n' = core n.
Proof.
  intros H Hn. pose proof (ev_core _ _ _ _ _ _ H p) as Hc. rewrite Hn in Hc. cbn in Hc.
  apply fmap_Some in Hc as (n' & Hn' & Heq). by exists n'.
Qed.

(** ** Frames *)

Definition same_core (nodes nodes' : gmap nat TnmMibNode) : Prop := forall p, core <$> nodes' !! p = core <$> nodes !! p.

Lemma same_core_alter f p nodes : (forall n, core (f n) = core n) -> same_core nodes (alter f p nodes).
Proof.
  intros Hf q. destruct (decide (p = q)) as [->|]; [|by rewrite lookup_alter_ne]. rewrite lookup_alter_eq.
  destruct (nodes !! q); [|done]. cbn. by rewrite Hf.
Qed.

Lemma same_core_trans a b c : same_core a b -> same_core b c -> same_core a c.
Proof. intros H1 H2 p. by rewrite H2. Qed.

Lemma same_core_node nodes nodes' p n : same_core nodes nodes' -> nodes !! p = Some n -> exists n', nodes' !! p = Some n' /\ core n' = core n.
Proof. intros H Hn. specialize (H p). rewrite Hn in H. apply fmap_Some in H as (n' & ? & ?). by exists n'. Qed.

Lemma same_core_back nodes nodes' p n' : same_core nodes nodes' -> nodes' !! p = Some n' -> exists n, nodes !! p = Some n /\ core n' = core n.
Proof. intros H Hn. specialize (H p). rewrite Hn in H. symmetry in H. apply fmap_Some in H as (n & ? & ?). by exists n. Qed.

Lemma same_core_subid nodes nodes' p : same_core nodes nodes' -> subid_of nodes' p = subid_of nodes p.
Proof.
  intros H. specialize (H p). unfold subid_of. destruct (nodes' !! p), (nodes !! p); cbn in H; try done. apply (inj Some) in H. cbn. by apply core_fields in H as [-> _].
Qed.

Lemma same_core_sorted nodes nodes' l : same_core nodes nodes' -> by_subid nodes l -> by_subid nodes' l.
Proof.
  intros H. unfold by_subid. replace (subid_of nodes' <$> l) with (subid_of nodes <$> l); [done|].
  apply list_fmap_ext. intros i p _. symmetry. by apply same_core_subid.
Qed.

Lemma node_ok_core n m : core n = core m -> node_ok m -> node_ok n.
Proof. intros (A & B & _)%core_fields. unfold node_ok. by rewrite A, B. Qed.

Lemma same_core_names nodes nodes' K roots names : same_core nodes nodes' -> names_ok nodes K roots names -> names_ok nodes' K roots names.
Proof.
  intros Hs (A & B & C). split; [|split].
  - intros name (p & n & Hn & <-)%A. destruct (same_core_node _ _ _ _ Hs Hn) as (n' & Hn' & Hc). exists p, n'. split; [done|]. by apply core_fields in Hc as (_ & -> & _).
  - intros name q Hq. destruct (B _ _ Hq) as (Hl & n & Hn & <-). split; [done|]. destruct (same_core_node _ _ _ _ Hs Hn) as (n' & Hn' & Hc). exists n'. split; [done|]. by apply core_fields in Hc as (_ & -> & _).
  - intros q n Hl Hr Hn. destruct (same_core_back _ _ _ _ Hs Hn) as (m & Hm & Hc). apply core_fields in Hc as (_ & -> & _). by apply C.
Qed.

(** Nodes outside of the tree may change. *)
Lemma tree_frame roots st K F nodes' tab' F' : rep roots st K F -> same_core (mb_nodes st) nodes' ->
  (forall p, linked K p -> nodes' !! p = mb_nodes st !! p) ->
  length tab' = NODEHASHSIZE -> length F' = NODEHASHSIZE ->
  (forall i l, F' !! i = Some l -> exists o, tab' !! i = Some o /\ chain nodes' o l /\ Forall (free_at nodes' K i) l) ->
  rep roots (mkMib nodes' tab' (mb_nodeHashTable st) (mb_tree st) (mb_fileName st) (mb_stderr st)) K F'.
Proof.
  intros [R0 R1 R2 (R3 & R4 & R5) R6 R7 R8] Hc Hk Ht HF Hfree.
  assert (Hkid : forall r o name q, kid_of (mb_nodes st) K r o name q -> kid_of nodes' K r o name q).
  { intros r o name q (m & l & Hm & Hrest). exists m, l. rewrite Hk; [done|]. eexists. apply Hrest. }
  assert (Hsame : forall l, Forall (linked K) l -> Forall (same_next (mb_nodes st) nodes') l).
  { intros l Hl. apply (Forall_impl _ _ _ Hl). intros p Hp n Hn. exists n. by rewrite Hk. }
  constructor; cbn.
  - intros p n' Hn'. destruct (same_core_back _ _ _ _ Hc Hn') as (n & Hn & Heq). by eapply node_ok_core, R0.
  - done.
  - done.
  - split; [|split].
    + eapply chain_frame; [done|]. apply Hsame. eapply Forall_impl; [done|]. intros q (m & l & _ & _ & Hq). by eexists.
    + by eapply same_core_sorted.
    + eapply Forall_impl; [done|]. intros q (m & l & Hm & Hp & Hq). exists m, l. rewrite Hk by (by eexists). done.
  - intros r o l Hr. destruct (R6 _ _ _ Hr) as (n & Hn & Hch & Hs & Hkids). exists n. rewrite Hk by (by eexists). split; [done|]. split; [|split].
    + eapply chain_frame; [done|]. apply Hsame. eapply Forall_impl; [done|]. intros q (m & l' & _ & _ & _ & Hq). by eexists.
    + by eapply same_core_sorted.
    + eapply Forall_impl; [done|]. apply Hkid.
  - intros p Hp. destruct (R7 p Hp) as (n & Hn & Hu). exists n. rewrite Hk by done. done.
  - by eapply same_core_names.
Qed.

Lemma rep_linked_node roots st K F p : rep roots st K F -> linked K p -> exists n, mb_nodes st !! p = Some n.
Proof. intros R Hp. destruct (rep_up _ _ _ _ R p Hp) as (n & Hn & _). by exists n. Qed.

Lemma rep_waiting roots st K F p : rep roots st K F -> waiting F p -> K !! p = None.
Proof. intros R (i & l & Hi & Hp). destruct (rep_free _ _ _ _ R _ _ Hi) as (o & _ & _ & Hf). rewrite Forall_forall in Hf. by apply Hf. Qed.

(** A waiting node is in the list of its hash value. *)
Lemma rep_waiting_at roots st K F p n pn : rep roots st K F -> waiting F p -> mb_nodes st !! p = Some n -> nd_parentName n = Some pn ->
  exists l, F !! Z.to_nat (HashNodeLabel pn) = Some l /\ p ∈ l.
Proof.
  intros R (i & l & Hi & Hp) Hn Hpn. destruct (rep_free _ _ _ _ R _ _ Hi) as (o & _ & _ & Hf). rewrite Forall_forall in Hf.
  destruct (Hf p Hp) as (_ & n' & pn' & Hn' & Hpn' & Hh). rewrite Hn in Hn'. injection Hn' as <-. rewrite Hpn in Hpn'. injection Hpn' as <-.
  rewrite Hh, Nat2Z.id. by exists l.
Qed.

(** ** Taking a node out of its list *)

Lemma last_split {A} (l : list A) : l = [] \/ exists l0 p, l = l0 ++ [p].
Proof. destruct l as [|p l0 _] using rev_ind; [by left|]. right. by exists l0, p. Qed.

Lemma free_at_core K nodes nodes' i q : same_core nodes nodes' -> free_at nodes K i q -> free_at nodes' K i q.
Proof.
  intros Hc (HK & a & b & Ha & Hb & Hi). split; [done|]. destruct (same_core_node _ _ _ _ Hc Ha) as (a' & Ha' & E). exists a', b.
  split; [done|]. apply core_fields in E as (_ & _ & -> & _). done.
Qed.

Lemma concat_insert {A} (L : list (list A)) i l l' : L !! i = Some l -> (length (concat (<[i := l']> L)) + length l = length (concat L) + length l')%nat.
Proof.
  revert i. induction L as [|a L IH]; intros [|i]; cbn; try done; [intros [= ->]; rewrite !length_app; lia|].
  intros Hi. specialize (IH i Hi). change (length (concat (a :: <[i := l']> L)) + length l = length (a ++ concat L) + length l')%nat.
  cbn [concat]. rewrite !length_app. lia.
Qed.

Section unlink.
#[local] Set Default Proof Using "All".
Context (roots : list nat) (st : mib_state) (K : tree_view) (F : list (list nat)) (h : nat) (l1 l2 : list nat) (x : nat) (n : TnmMibNode).
Context (R : rep roots st K F) (Hh : F !! h = Some (l1 ++ x :: l2)) (Hx : mb_nodes st !! x = Some n).

Definition unlinked : mib_state := set_loc (loc_behind (LTab h) l1) (nd_nextPtr n) st.

Lemma unlinked_shape : unlinked = mkMib (mb_nodes unlinked) (mb_nodehashtab unlinked) (mb_nodeHashTable st) (mb_tree st) (mb_fileName st) (mb_stderr st).
Proof. unfold unlinked. by destruct (loc_behind _ _). Qed.

Lemma unlinked_core : same_core (mb_nodes st) (mb_nodes unlinked).
Proof. unfold unlinked. destruct (loc_behind _ _); [done|by apply same_core_alter..]. Qed.

Lemma unlinked_node q : q ∉ l1 -> mb_nodes unlinked !! q = mb_nodes st !! q.
Proof.
  unfold unlinked, loc_behind. destruct (last_split l1) as [->|(l0 & p & ->)]; [done|]. rewrite last_snoc. intros Hq.
  cbn. apply lookup_alter_ne. intros ->. apply Hq. set_solver.
Qed.

Lemma unlink_chain : exists o, mb_nodehashtab st !! h = Some o /\ chain (mb_nodes st) o (l1 ++ x :: l2) /\ Forall (free_at (mb_nodes st) K h) (l1 ++ x :: l2)
  /\ NoDup (l1 ++ x :: l2).
Proof. destruct (rep_free _ _ _ _ R _ _ Hh) as (o & Ho & Hc & Hf). exists o. repeat split; try done. by eapply chain_NoDup. Qed.

Lemma unlink_other i l q : F !! i = Some l -> q ∈ l -> q ∈ l1 ++ x :: l2 -> i = h.
Proof.
  intros Hi Hq Hq'. destruct (rep_free _ _ _ _ R _ _ Hi) as (_ & _ & _ & Hf). destruct (rep_free _ _ _ _ R _ _ Hh) as (_ & _ & _ & Hf').
  rewrite Forall_forall in Hf. rewrite Forall_forall in Hf'.
  destruct (Hf q Hq) as (_ & a & b & Ha & Hb & E1). destruct (Hf' q Hq') as (_ & a' & b' & Ha' & Hb' & E2).
  rewrite Ha in Ha'. injection Ha' as <-. rewrite Hb in Hb'. injection Hb' as <-. lia.
Qed.

Lemma unlinked_head : exists o, mb_nodehashtab unlinked !! h = Some o /\ chain (mb_nodes unlinked) o (l1 ++ l2).
Proof.
  destruct unlink_chain as (o & Ho & Hc & _ & Hd). destruct (chain_last _ _ _ _ _ Hc) as (n' & Hn' & Hc2). rewrite Hx in Hn'. injection Hn' as <-.
  unfold unlinked, loc_behind. destruct (last_split l1) as [->|(l0 & p & ->)].
  - exists (nd_nextPtr n). cbn. split; [|done]. apply list_lookup_insert_eq. eapply lookup_lt_Some. exact Ho.
  - rewrite last_snoc. cbn. exists o. split; [done|]. rewrite <- app_assoc in Hc, Hd. cbn in Hc, Hd. rewrite <- app_assoc. cbn.
    destruct (chain_last _ _ _ _ _ Hc) as (m & Hm & _). apply NoDup_app in Hd as (_ & Hd0 & Hd1). apply NoDup_cons in Hd1 as [Hp Hd1].
    assert (Hs : forall q, q <> p -> same_next (mb_nodes st) (alter (set_nextPtr (nd_nextPtr n)) p (mb_nodes st)) q).
    { intros q Hq a Ha. exists a. by rewrite lookup_alter_ne. }
    eapply chain_splice; [exact Hc| |by rewrite lookup_alter_eq, Hm|].
    + apply Forall_forall. intros q Hq. apply Hs. intros ->. apply (Hd0 _ Hq). set_solver.
    + cbn. eapply chain_frame; [done|]. apply Forall_forall. intros q Hq. apply Hs. intros ->. apply Hp. set_solver.
Qed.

Lemma unlinked_rep : rep roots unlinked K (<[h := l1 ++ l2]> F).
Proof.
  rewrite unlinked_shape. destruct unlink_chain as (o & Ho & Hc & Hf & Hd). pose proof (rep_table _ _ _ _ R) as [Ht HF].
  apply tree_frame with (1 := R); [apply unlinked_core| | |by rewrite length_insert|].
  - intros q Hq. apply unlinked_node. intros Hin. rewrite Forall_forall in Hf. destruct (Hf q) as [HK _]; [set_solver|].
    destruct Hq as [? Hq]. by rewrite HK in Hq.
  - unfold unlinked. destruct (loc_behind _ _); cbn; [by rewrite length_insert|done..].
  - intros i l Hi. destruct (decide (i = h)) as [->|Hne].
    + rewrite list_lookup_insert_eq in Hi by (eapply lookup_lt_Some; exact Hh). injection Hi as <-.
      destruct unlinked_head as (o' & Ho' & Hc'). exists o'. split; [done|]. split; [done|].
      apply Forall_forall. intros q Hq. eapply free_at_core; [apply unlinked_core|]. rewrite Forall_forall in Hf. apply Hf. set_solver.
    + rewrite list_lookup_insert_ne in Hi by done. destruct (rep_free _ _ _ _ R _ _ Hi) as (o' & Ho' & Hc' & Hf'). exists o'. split; [|split].
      * unfold unlinked. destruct (loc_behind _ _) eqn:E; cbn; try done. rewrite list_lookup_insert_ne; [done|].
        unfold loc_behind in E. destruct (last l1); [done|]. injection E as <-. done.
      * eapply chain_frame; [done|]. apply Forall_forall. intros q Hq a Ha. exists a. rewrite unlinked_node; [done|].
        intros Hin. apply Hne. apply unlink_other with (1 := Hi) (q := q); [done|set_solver].
      * eapply Forall_impl; [done|]. intros q. apply free_at_core, unlinked_core.
Qed.

Lemma unlinked_waiting q : waiting (<[h := l1 ++ l2]> F) q <-> waiting F q /\ q <> x.
Proof.
  destruct unlink_chain as (o & _ & _ & _ & Hd). apply NoDup_app in Hd as (_ & Hd0 & Hd1). apply NoDup_cons in Hd1 as [Hx2 _].
  split.
  - intros (i & l & Hi & Hq). destruct (decide (i = h)) as [->|Hne].
    + rewrite list_lookup_insert_eq in Hi by (eapply lookup_lt_Some; exact Hh). injection Hi as <-. split; [exists h, (l1 ++ x :: l2); split; [done|]; set_solver|].
      intros ->. apply elem_of_app in Hq as [Hq|Hq]; [apply (Hd0 _ Hq); set_solver|done].
    + rewrite list_lookup_insert_ne in Hi by done. split; [by exists i, l|]. intros ->. apply Hne. apply unlink_other with (1 := Hi) (q := x); [done|set_solver].
  - intros [(i & l & Hi & Hq) Hqx]. destruct (decide (i = h)) as [->|Hne].
    + exists h, (l1 ++ l2). rewrite Hh in Hi. injection Hi as <-. split; [apply list_lookup_insert_eq; eapply lookup_lt_Some; exact Hh|]. set_solver.
    + exists i, l. by rewrite list_lookup_insert_ne.
Qed.

Lemma unlinked_count : S (length (concat (<[h := l1 ++ l2]> F))) = length (concat F).
Proof. pose proof (concat_insert F h _ (l1 ++ l2) Hh) as H. rewrite !length_app in H. cbn in H. lia. Qed.
End unlink.

(** ** Linking a node *)

(** A node outside of all lists may change. *)
Lemma touch_rep roots st K F x f : rep roots st K F -> K !! x = None -> ~ waiting F x -> (forall n, core (f n) = core n) ->
  rep roots (with_nodes (alter f x) st) K F.
Proof.
  intros R HK HF Hf. pose proof (rep_table _ _ _ _ R) as [Ht HL]. unfold with_nodes.
  assert (Hc : same_core (mb_nodes st) (alter f x (mb_nodes st))) by (by apply same_core_alter).
  apply tree_frame with (1 := R); try done.
  - intros p Hp. apply lookup_alter_ne. intros <-. destruct Hp as [? Hp]. by rewrite HK in Hp.
  - intros i l Hi. destruct (rep_free _ _ _ _ R _ _ Hi) as (o & Ho & Hch & Hfr). exists o. split; [done|]. split.
    + eapply chain_frame; [done|]. apply Forall_forall. intros q Hq a Ha. exists a. split; [|done]. rewrite lookup_alter_ne; [done|].
      intros <-. apply HF. by exists i, l.
    + eapply Forall_impl; [done|]. intros q. by apply free_at_core.
Qed.

Lemma get_loc_behind st first o l1 l2 : get_loc st first = MibOk o -> chain (mb_nodes st) o (l1 ++ l2) ->
  get_loc st (loc_behind first l1) = MibOk (head l2).
Proof.
  intros Ho Hc. destruct (last_split l1) as [->|(l0 & p & ->)].
  - cbn. rewrite Ho. destruct l2; [by rewrite Hc|]. by destruct Hc as [-> _].
  - rewrite loc_behind_snoc. rewrite <- app_assoc in Hc. destruct (chain_last _ _ _ _ _ Hc) as (n & Hn & Hc2). cbn. unfold deref. rewrite Hn. cbn.
    destruct l2; [by rewrite Hc2|]. by destruct Hc2 as [-> _].
Qed.

Lemma find_place_spec st s : forall l fuel first o, get_loc st first = MibOk o -> chain (mb_nodes st) o l -> (length l <= fuel)%nat ->
  exists la lb, l = la ++ lb /\ find_place fuel st first s = MibOk (loc_behind first la) /\ Forall (fun q => subid_of (mb_nodes st) q < s) la /\
    match lb with q :: _ => s <= subid_of (mb_nodes st) q | [] => True end.
Proof.
  induction l as [|q l IH]; intros fuel first o Ho Hc Hf.
  - exists [], []. cbn in Hc. subst o. repeat split; [|constructor]. destruct fuel; cbn [find_place]; rewrite Ho; done.
  - pose proof Hc as [-> (n & Hn & Hc')]. destruct (decide (nd_subid n < s)) as [Hlt|Hge].
    + destruct fuel as [|fuel]; [cbn in Hf; lia|]. destruct (IH fuel (LNext q) (nd_nextPtr n)) as (la & lb & -> & Hp & Hall & Hlb); [by cbn; unfold deref; rewrite Hn|done|cbn in Hf; lia|].
      exists (q :: la), lb. split; [done|]. split.
      * cbn [find_place]. rewrite Ho. unfold mbind, mib_bind. unfold deref. rewrite Hn. cbn [of_option]. unfold mret, mib_ret. rewrite bool_decide_eq_true_2 by done.
        unfold mbind, mib_bind in Hp. rewrite Hp. f_equal. unfold loc_behind. destruct (last_split la) as [->|(l0 & p & ->)]; [done|]. by rewrite app_comm_cons, !last_snoc.
      * split; [|done]. constructor; [|done]. unfold subid_of. by rewrite Hn.
    + exists [], (q :: l). split; [done|]. split; [|split; [constructor|unfold subid_of; rewrite Hn; cbn; lia]].
      destruct fuel; cbn [find_place]; rewrite Ho; unfold mbind, mib_bind, deref; rewrite Hn; cbn [of_option]; unfold mret, mib_ret; by rewrite bool_decide_eq_false_2.
Qed.

Lemma rep_kid_ne roots st K F r o l : rep roots st K F -> K !! r = Some (o, l) -> r ∉ l.
Proof.
  intros R Hk Hin. destruct (rep_kids _ _ _ _ R _ _ _ Hk) as (n & _ & _ & _ & Hk'). rewrite Forall_forall in Hk'.
  destruct (Hk' r Hin) as (m & l' & _ & _ & _ & Hk2). rewrite Hk in Hk2. injection Hk2 as Ho _.
  apply (f_equal length) in Ho. rewrite length_app in Ho. cbn in Ho. lia.
Qed.

Section insert_node.
#[local] Set Default Proof Using "All".
Context (roots : list nat) (st : mib_state) (K : tree_view) (F : list (list nat)) (root x : nat) (n r : TnmMibNode) (o : list Z) (la lb : list nat).
Context (R : rep roots st K F) (HK : K !! x = None) (HF : ~ waiting F x) (Hx : mb_nodes st !! x = Some n).
Context (Hroot : K !! root = Some (o, la ++ lb)) (Hr : mb_nodes st !! root = Some r) (Hname : nd_parentName n = Some (nd_label r)).
Context (Hup : nd_parentPtr n = Some root) (Hchild : nd_childPtr n = None).
Context (Hla : Forall (fun q => subid_of (mb_nodes st) q < nd_subid n) la) (Hlb : Forall (fun q => nd_subid n < subid_of (mb_nodes st) q) lb).

Definition inserted : mib_state := set_loc (loc_behind (LChild root) la) (Some x) (with_nodes (alter (set_nextPtr (head lb)) x) st).
Definition inserted_view : tree_view := <[root := (o, la ++ x :: lb)]> (<[x := (o ++ [nd_subid n], [])]> K).
Notation nodes' := (mb_nodes inserted).

Lemma insert_kids : kids_ok (mb_nodes st) K root o (la ++ lb).
Proof. by apply (rep_kids _ _ _ _ R). Qed.

Lemma insert_kid q : q ∈ la ++ lb -> linked K q /\ exists m, mb_nodes st !! q = Some m /\ nd_parentPtr m = Some root.
Proof.
  intros Hq. destruct insert_kids as (r' & _ & _ & _ & Hk). rewrite Forall_forall in Hk. destruct (Hk q Hq) as (m & l & Hm & Hp & _ & Hq'). split; [by eexists|by exists m].
Qed.

Lemma insert_owner q : last la = Some q -> q ∈ la ++ lb.
Proof. intros H. apply last_Some in H as (l0 & E). rewrite E. set_solver. Qed.

Lemma insert_x_ne q : linked K q -> q <> x.
Proof. intros [? Hq] ->. by rewrite HK in Hq. Qed.

Lemma inserted_core : same_core (mb_nodes st) nodes'.
Proof.
  unfold inserted. apply same_core_trans with (alter (set_nextPtr (head lb)) x (mb_nodes st)); [by apply same_core_alter|].
  destruct (loc_behind _ _); [done|by apply same_core_alter..].
Qed.

Lemma inserted_shape : inserted = mkMib nodes' (mb_nodehashtab st) (mb_nodeHashTable st) (mb_tree st) (mb_fileName st) (mb_stderr st).
Proof. unfold inserted, loc_behind. by destruct (last la). Qed.

Lemma inserted_x : nodes' !! x = Some (set_nextPtr (head lb) n).
Proof.
  assert (Hrx : root <> x) by (apply insert_x_ne; by eexists).
  unfold inserted, loc_behind. destruct (last la) as [p|] eqn:E; cbn.
  - rewrite lookup_alter_ne by (apply insert_x_ne, insert_kid, insert_owner, E). by rewrite lookup_alter_eq, Hx.
  - rewrite lookup_alter_ne by done. by rewrite lookup_alter_eq, Hx.
Qed.

(** The other nodes keep all but the pointer that is overwritten. *)
Lemma inserted_other q m : q <> x -> mb_nodes st !! q = Some m -> exists m', nodes' !! q = Some m' /\ nd_parentPtr m' = nd_parentPtr m /\
  (last la <> Some q -> nd_nextPtr m' = nd_nextPtr m) /\ (q <> root -> nd_childPtr m' = nd_childPtr m).
Proof.
  intros Hq Hm. unfold inserted, loc_behind. destruct (last la) as [p|] eqn:E; cbn.
  - destruct (decide (p = q)) as [->|Hne].
    + rewrite lookup_alter_eq, lookup_alter_ne, Hm by done. cbn. eexists. by repeat split.
    + rewrite !lookup_alter_ne, Hm by done. exists m. by repeat split.
  - destruct (decide (root = q)) as [<-|Hne].
    + rewrite lookup_alter_eq, lookup_alter_ne, Hm by done. cbn. eexists. by repeat split.
    + rewrite !lookup_alter_ne, Hm by done. exists m. by repeat split.
Qed.

Lemma inserted_linked q o' l : K !! q = Some (o', l) -> exists l', inserted_view !! q = Some (o', l') /\ l ⊆ l'.
Proof.
  intros Hq. unfold inserted_view. destruct (decide (root = q)) as [<-|Hne].
  - rewrite lookup_insert_eq. rewrite Hroot in Hq. injection Hq as <- <-. exists (la ++ x :: lb). split; [done|]. set_solver.
  - rewrite lookup_insert_ne by done. rewrite lookup_insert_ne; [by exists l|]. intros <-. by rewrite HK in Hq.
Qed.

Lemma inserted_kid_of q r' o' name : kid_of (mb_nodes st) K r' o' name q -> kid_of nodes' inserted_view r' o' name q.
Proof.
  intros (m & l & Hm & Hp & Hn & Hq). destruct (inserted_other q m) as (m' & Hm' & Hp' & _); [apply insert_x_ne; by eexists|done|].
  destruct (inserted_linked _ _ _ Hq) as (l' & Hq' & _). exists m', l'.
  destruct (same_core_back _ _ _ _ inserted_core Hm') as (m0 & Hm0 & Hc). rewrite Hm in Hm0. injection Hm0 as <-.
  apply core_fields in Hc as (-> & _ & -> & _). by rewrite Hp'.
Qed.

Lemma inserted_same_next l : Forall (linked K) l -> (forall q, last la = Some q -> q ∉ l) -> Forall (same_next (mb_nodes st) nodes') l.
Proof.
  intros Hl Hlast. rewrite Forall_forall in Hl. apply Forall_forall. intros q Hq m Hm.
  destruct (inserted_other q m) as (m' & Hm' & _ & Hn & _); [by apply insert_x_ne, Hl|done|]. exists m'. split; [done|].
  apply Hn. intros E. by apply (Hlast q).
Qed.

Lemma inserted_chain : exists r', nodes' !! root = Some r' /\ nd_label r' = nd_label r /\ chain nodes' (nd_childPtr r') (la ++ x :: lb).
Proof.
  destruct insert_kids as (r0 & Hr0 & Hc & _ & _). rewrite Hr in Hr0. injection Hr0 as <-. assert (Hrx : root <> x) by (apply insert_x_ne; by eexists).
  pose proof (chain_NoDup _ _ _ Hc) as Hd.
  assert (Hall : Forall (linked K) (la ++ lb)) by (apply Forall_forall; intros q Hq; by apply insert_kid).
  assert (Hxl : chain nodes' (Some x) (x :: lb)).
  { split; [done|]. exists (set_nextPtr (head lb) n). split; [apply inserted_x|]. cbn.
    assert (Hc2 : chain (mb_nodes st) (head lb) lb).
    { destruct (last_split la) as [E|(l0 & p & E)]; rewrite E in Hc; [cbn in Hc; by rewrite <- (chain_head _ _ _ Hc)|].
      rewrite <- app_assoc in Hc. destruct (chain_last _ _ _ _ _ Hc) as (m & _ & Hc2). by rewrite <- (chain_head _ _ _ Hc2). }
    eapply chain_frame; [exact Hc2|]. apply inserted_same_next; [by apply Forall_app in Hall as [_ ?]|].
    intros q Hq Hin. apply last_Some in Hq as (l0 & E). apply NoDup_app in Hd as (_ & Hd & _). apply (Hd q); [rewrite E; set_solver|done]. }
  destruct (inserted_other root r Hrx Hr) as (r' & Hr' & _). pose proof (same_core_back _ _ _ _ inserted_core Hr') as (r0 & Hr0 & Hcore).
  rewrite Hr in Hr0. injection Hr0 as <-. exists r'. split; [done|]. split; [by apply core_fields in Hcore as (_ & -> & _)|].
  unfold inserted, loc_behind in Hr'. destruct (last_split la) as [E|(l0 & p & E)]; rewrite E in Hr', Hc, Hd, Hall; rewrite E.
  - cbn in Hr'. rewrite lookup_alter_eq, lookup_alter_ne, Hr in Hr' by done. injection Hr' as <-. exact Hxl.
  - rewrite last_snoc in Hr'. cbn in Hr'. assert (Hp : p ∈ la ++ lb) by (rewrite E; set_solver).
    assert (Hpr : p <> root) by (intros ->; by apply (rep_kid_ne _ _ _ _ _ _ _ R Hroot)).
    rewrite lookup_alter_ne, lookup_alter_ne, Hr in Hr' by done. injection Hr' as <-.
    destruct (insert_kid p Hp) as (Hpl & m & Hm & _). destruct (inserted_other p m) as (m' & Hm' & _); [by apply insert_x_ne|done|].
    rewrite <- app_assoc in Hc |- *. cbn in Hc |- *. eapply chain_splice; [exact Hc| |exact Hm'|].
    + apply inserted_same_next; [rewrite <- app_assoc in Hall; by apply Forall_app in Hall as [? _]|].
      intros q. rewrite E, last_snoc. intros [= <-] Hin. rewrite <- app_assoc in Hd. apply NoDup_app in Hd as (_ & Hd & _). apply (Hd p); [done|set_solver].
    + unfold inserted, loc_behind in Hm'. rewrite E, last_snoc in Hm'. cbn in Hm'. rewrite lookup_alter_eq, lookup_alter_ne, Hm in Hm' by (by apply not_eq_sym, insert_x_ne).
      injection Hm' as <-. exact Hxl.
Qed.

Lemma inserted_sorted : by_subid nodes' (la ++ x :: lb).
Proof.
  apply same_core_sorted with (mb_nodes st); [apply inserted_core|]. destruct insert_kids as (_ & _ & _ & Hs & _). unfold by_subid in *.
  rewrite fmap_app, fmap_cons. rewrite fmap_app in Hs. assert (Hsx : subid_of (mb_nodes st) x = nd_subid n) by (unfold subid_of; by rewrite Hx).
  apply StronglySorted_app in Hs as (H1 & H2 & H3). apply StronglySorted_app. rewrite Hsx. rewrite Forall_forall in Hla. rewrite Forall_forall in Hlb.
  split; [|split; [done|]].
  - intros a b Ha [->|Hb]%elem_of_cons; [|by apply H1]. apply list_elem_of_fmap in Ha as (q & -> & Hq). by apply Hla.
  - constructor; [done|]. apply Forall_forall. intros b Hb. apply list_elem_of_fmap in Hb as (q & -> & Hq). by apply Hlb.
Qed.

Lemma inserted_rep T : names_ok nodes' inserted_view roots T -> rep roots (with_names (Some T) inserted) inserted_view F.
Proof.
  intros HT. rewrite inserted_shape. assert (Hrx : root <> x) by (apply insert_x_ne; by eexists). destruct R as [R0 R1 R2 (R3 & R4 & R5) R6 R7 R8].
  constructor; cbn; try done.
  - intros p m' Hm'. destruct (same_core_back _ _ _ _ inserted_core Hm') as (m & Hm & Hc). by eapply node_ok_core, R0.
  - intros i l Hi. destruct (R2 _ _ Hi) as (h & Hh & Hc & Hf). exists h. split; [done|]. rewrite Forall_forall in Hf. split.
    + eapply chain_frame; [done|]. apply Forall_forall. intros q Hq m Hm. destruct (Hf q Hq) as [Hq' _].
      destruct (inserted_other q m) as (m' & Hm' & _ & Hn & _); [intros ->; apply HF; by exists i, l|done|]. exists m'. split; [done|]. apply Hn.
      intros E. destruct (insert_kid q (insert_owner q E)) as [[? Hl] _]. by rewrite Hq' in Hl.
    + apply Forall_forall. intros q Hq. destruct (Hf q Hq) as [Hq' Hrest]. apply free_at_core with (mb_nodes st); [apply inserted_core|]. split; [|done].
      unfold inserted_view. rewrite lookup_insert_ne by (intros <-; by rewrite Hroot in Hq'). rewrite lookup_insert_ne; [done|].
      intros <-. apply HF. by exists i, l.
  - split; [|split].
    + eapply chain_frame; [done|]. rewrite Forall_forall in R5. apply inserted_same_next.
      * apply Forall_forall. intros q Hq. destruct (R5 q Hq) as (m & l & _ & _ & Hq'). by eexists.
      * intros q E Hq. destruct (insert_kid q (insert_owner q E)) as (_ & m & Hm & Hp). destruct (R5 q Hq) as (m' & l & Hm' & Hp' & _). congruence.
    + by apply same_core_sorted with (mb_nodes st); [apply inserted_core|].
    + eapply Forall_impl; [done|]. intros q (m & l & Hm & Hp & Hq). destruct (inserted_other q m) as (m' & Hm' & Hp' & _); [apply insert_x_ne; by eexists|done|].
      destruct (inserted_linked _ _ _ Hq) as (l' & Hq' & _). exists m', l'. destruct (same_core_back _ _ _ _ inserted_core Hm') as (m0 & Hm0 & Hc).
      rewrite Hm in Hm0. injection Hm0 as <-. apply core_fields in Hc as (-> & _). by rewrite Hp'.
  - intros q o' l Hq. unfold inserted_view in Hq. destruct (decide (root = q)) as [<-|Hne].
    + rewrite lookup_insert_eq in Hq. injection Hq as <- <-. destruct inserted_chain as (r' & Hr' & Hlab & Hc). exists r'. split; [done|]. split; [done|]. split; [apply inserted_sorted|].
      rewrite Hlab. destruct insert_kids as (r0 & Hr0 & _ & _ & Hk). rewrite Hr in Hr0. injection Hr0 as <-. rewrite Forall_forall in Hk.
      apply Forall_forall. intros q [Hq|[->|Hq]%elem_of_cons]%elem_of_app; [apply inserted_kid_of, Hk; set_solver| |apply inserted_kid_of, Hk; set_solver].
      exists (set_nextPtr (head lb) n), []. split; [apply inserted_x|]. cbn. split; [done|]. split; [done|]. unfold inserted_view. by rewrite lookup_insert_ne, lookup_insert_eq.
    + rewrite lookup_insert_ne in Hq by done. destruct (decide (x = q)) as [<-|Hnx].
      * rewrite lookup_insert_eq in Hq. injection Hq as <- <-. exists (set_nextPtr (head lb) n). split; [apply inserted_x|]. cbn. split; [done|]. split; constructor.
      * rewrite lookup_insert_ne in Hq by done. destruct (R6 _ _ _ Hq) as (m & Hm & Hc & Hs & Hk). destruct (inserted_other q m) as (m' & Hm' & _ & _ & Hch); [done..|].
        destruct (same_core_back _ _ _ _ inserted_core Hm') as (m0 & Hm0 & Hcore). rewrite Hm in Hm0. injection Hm0 as <-. apply core_fields in Hcore as (_ & Hlab & _).
        exists m'. split; [done|]. rewrite Hch, Hlab by done. rewrite Forall_forall in Hk. split; [|split].
        -- eapply chain_frame; [done|]. apply inserted_same_next.
           ++ apply Forall_forall. intros p Hp. destruct (Hk p Hp) as (a & b & _ & _ & _ & Hp'). by eexists.
           ++ intros p E Hp. destruct (insert_kid p (insert_owner p E)) as (_ & a & Ha & Hap). destruct (Hk p Hp) as (a' & b & Ha' & Hap' & _). congruence.
        -- apply same_core_sorted with (mb_nodes st); [apply inserted_core|done].
        -- apply Forall_forall. intros p Hp. by apply inserted_kid_of, Hk.
  - intros p Hp. destruct (decide (p = x)) as [->|Hpx].
    + exists (set_nextPtr (head lb) n). split; [apply inserted_x|]. cbn. rewrite Hup. exists o, (la ++ x :: lb). unfold inserted_view. rewrite lookup_insert_eq. split; [done|]. set_solver.
    + assert (Hl : linked K p).
      { destruct Hp as [v Hp]. unfold inserted_view in Hp. destruct (decide (root = p)) as [<-|Hne]; [by eexists|]. rewrite lookup_insert_ne, lookup_insert_ne in Hp by done. by eexists. }
      destruct (R7 p Hl) as (m & Hm & Hu). destruct (inserted_other p m Hpx Hm) as (m' & Hm' & Hp' & _). exists m'. split; [done|]. rewrite Hp'.
      destruct (nd_parentPtr m) as [q|]; [|done]. destruct Hu as (o' & l & Hq & Hin). destruct (inserted_linked _ _ _ Hq) as (l' & Hq' & Hsub). exists o', l'. split; [done|]. by apply Hsub.
Qed.
End insert_node.

(** The table of names after a node has been added. *)
Definition add_name (T : gmap cstring (option nat)) (name : cstring) (x : nat) : gmap cstring (option nat) :=
  match T !! name with
  | None => <[name := Some x]> T
  | Some known => if bool_decide (known = Some x) then T else <[name := None]> T
  end.

Lemma HashNode_spec st x n : mb_nodes st !! x = Some n -> HashNode st x = MibOk (with_names (Some (add_name (names_of st) (nd_label n) x)) st).
Proof. intros Hx. unfold HashNode, deref. by rewrite Hx. Qed.

Lemma add_name_ok nodes K K' roots T x n : names_ok nodes K roots T -> K !! x = None -> nodes !! x = Some n ->
  (forall q, linked K' q <-> linked K q \/ q = x) -> names_ok nodes K' roots (add_name T (nd_label n) x).
Proof.
  intros (A & B & C) HK Hx HK'.
  assert (Hk : T !! nd_label n <> Some (Some x)) by (intros E; apply B in E as [[? E] _]; by rewrite HK in E).
  assert (Hadd : forall name, add_name T (nd_label n) x !! name = if bool_decide (nd_label n = name)
    then Some (match T !! name with None => Some x | Some _ => None end) else T !! name).
  { intros name. unfold add_name. case_bool_decide as E.
    - subst name. destruct (T !! nd_label n) as [known|] eqn:ET; [|by rewrite lookup_insert_eq]. rewrite bool_decide_eq_false_2 by congruence. by rewrite lookup_insert_eq.
    - destruct (T !! nd_label n) as [known|] eqn:ET; [rewrite bool_decide_eq_false_2 by congruence|]; by rewrite lookup_insert_ne. }
  split; [|split].
  - intros name. rewrite Hadd. case_bool_decide as E; [intros _; by exists x, n|]. apply A.
  - intros name q. rewrite Hadd. case_bool_decide as E.
    + subst name. destruct (T !! nd_label n); [done|]. intros [= <-]. split; [apply HK'; by right|by exists n].
    + intros [Hq Hn]%B. split; [apply HK'; by left|done].
  - intros q m Hq Hr Hm. rewrite Hadd. case_bool_decide as E; [|].
    + destruct (decide (q = x)) as [->|Hne]; [destruct (T !! nd_label m); [by right|by left]|].
      apply HK' in Hq as [Hq|]; [|done]. destruct (C q m Hq Hr Hm) as [-> | ->]; by right.
    + apply HK' in Hq as [Hq| ->]; [by apply C|]. congruence.
Qed.

Lemma lost_mono st K F st' K' F' p : lost st K F p -> same_core (mb_nodes st) (mb_nodes st') ->
  (forall q o l, K !! q = Some (o, l) -> exists l', K' !! q = Some (o, l') /\ l ⊆ l') -> K' !! p = None -> ~ waiting F' p ->
  same_next (mb_nodes st) (mb_nodes st') p -> lost st' K' F' p.
Proof.
  intros (_ & _ & n & Hn & Hnext & r & q & o & l & n' & Hr & Hq & Hs & Hn' & Hpn) Hc HK HK' HF' Hsame. split; [done|]. split; [done|].
  destruct (Hsame n Hn) as (m & Hm & Hnx). exists m. split; [done|]. split; [congruence|].
  destruct (HK _ _ _ Hr) as (l' & Hr' & Hl). destruct (same_core_node _ _ _ _ Hc Hn') as (m' & Hm' & Hcm').
  exists r, q, o, l', m'. split; [done|]. split; [by apply Hl|]. rewrite (same_core_subid _ _ _ Hc).
  destruct (same_core_back _ _ _ _ Hc Hm) as (n0 & Hn0 & Hc0). rewrite Hn in Hn0. injection Hn0 as <-.
  apply core_fields in Hc0 as (-> & _ & -> & _). apply core_fields in Hcm' as (_ & -> & _). done.
Qed.

Section link.
#[local] Set Default Proof Using "All".
Context (roots : list nat) (st : mib_state) (K : tree_view) (F : list (list nat)) (root x : nat) (n r : TnmMibNode) (o : list Z) (kids : list nat).
Context (R : rep roots st K F) (HK : K !! x = None) (HF : ~ waiting F x) (Hx : mb_nodes st !! x = Some n).
Context (Hroot : K !! root = Some (o, kids)) (Hr : mb_nodes st !! root = Some r) (Hname : nd_parentName n = Some (nd_label r)).

Definition prepared : mib_state := with_nodes (alter (node_links (mb_fileName st) (Some root) None None) x) st.

Lemma prepared_core : same_core (mb_nodes st) (mb_nodes prepared).
Proof. by apply same_core_alter. Qed.

Lemma prepared_place : exists la lb, kids = la ++ lb /\ find_place (steps prepared) prepared (LChild root) (nd_subid n) = MibOk (loc_behind (LChild root) la) /\
  get_loc prepared (loc_behind (LChild root) la) = MibOk (head lb) /\
  Forall (fun q => subid_of (mb_nodes prepared) q < nd_subid n) la /\
  match lb with q :: _ => exists m, mb_nodes prepared !! q = Some m /\ nd_subid n <= nd_subid m | [] => True end.
Proof.
  assert (R' : rep roots prepared K F) by (by apply touch_rep). destruct (rep_kids _ _ _ _ R' _ _ _ Hroot) as (r' & Hr' & Hc & _ & _).
  assert (Ho : get_loc prepared (LChild root) = MibOk (nd_childPtr r')) by (cbn; unfold deref; by rewrite Hr').
  destruct (find_place_spec prepared (nd_subid n) kids (steps prepared) _ _ Ho Hc (chain_length _ _ _ Hc)) as (la & lb & Hk & Hp & Hall & Hlb).
  exists la, lb. split; [done|]. split; [done|]. rewrite Hk in Hc. split; [by eapply get_loc_behind|]. split; [done|]. destruct lb as [|q lb]; [done|].
  destruct (chain_last _ _ _ _ _ Hc) as (m & Hm & _). exists m. split; [done|]. unfold subid_of in Hlb. by rewrite Hm in Hlb.
Qed.

Lemma prepared_rep : rep roots prepared K F.
Proof. by apply touch_rep. Qed.

Lemma prepared_x : mb_nodes prepared !! x = Some (node_links (mb_fileName st) (Some root) None None n).
Proof. cbn. by rewrite lookup_alter_eq, Hx. Qed.

Lemma prepared_root : mb_nodes prepared !! root = Some r.
Proof. cbn. rewrite lookup_alter_ne; [done|]. intros E. rewrite <- E, HK in Hroot. done. Qed.

Lemma prepared_lost p : p <> x -> lost st K F p -> lost prepared K F p.
Proof.
  intros Hp Hl. apply lost_mono with (1 := Hl); [apply prepared_core| |apply Hl|apply Hl|]; [intros q o' l Hq; by exists l|].
  intros m Hm. exists m. cbn. by rewrite lookup_alter_ne.
Qed.

(** What a link step guarantees. *)
Definition link_post (c : nat) (st' : mib_state) (K' : tree_view) : Prop :=
  rep roots st' K' F /\ linked K' c /\ same_core (mb_nodes st) (mb_nodes st') /\ mb_tree st' = mb_tree st /\
  (forall q o l, K !! q = Some (o, l) -> exists l', K' !! q = Some (o, l') /\ l ⊆ l') /\ (linked K' x \/ lost st' K' F x) /\
  (forall p, p <> x -> lost st K F p -> lost st' K' F p).

(** The place is taken. *)
Lemma link_taken q m : q ∈ kids -> mb_nodes prepared !! q = Some m -> nd_subid m = nd_subid n -> link_post q prepared K.
Proof.
  intros Hq Hm Hs. destruct (rep_kids _ _ _ _ prepared_rep _ _ _ Hroot) as (r0 & Hr0 & _ & _ & Hkids). rewrite Forall_forall in Hkids.
  destruct (Hkids q Hq) as (m' & l' & Hm' & _ & _ & Hlq). split; [apply prepared_rep|]. split; [by eexists|]. split; [apply prepared_core|]. split; [done|].
  split; [intros p o' l Hp; by exists l|]. split; [|apply prepared_lost].
  right. split; [done|]. split; [done|]. eexists. split; [exact prepared_x|]. split; [done|]. exists root, q, o, kids, r. split; [done|]. split; [done|].
  split; [unfold subid_of; by rewrite Hm|]. split; [apply prepared_root|done].
Qed.

(** The node gets its place. *)
Lemma link_placed la lb : kids = la ++ lb -> Forall (fun q => subid_of (mb_nodes prepared) q < nd_subid n) la ->
  Forall (fun q => nd_subid n < subid_of (mb_nodes prepared) q) lb ->
  exists K', mb_nodes (inserted prepared root x la lb) !! x = Some (set_nextPtr (head lb) (node_links (mb_fileName st) (Some root) None None n)) /\
    link_post x (with_names (Some (add_name (names_of st) (nd_label n) x)) (inserted prepared root x la lb)) K'.
Proof.
  intros Hk Hla Hlb. set (n' := node_links (mb_fileName st) (Some root) None None n). set (st2 := inserted prepared root x la lb). set (K' := inserted_view K root x n' o la lb).
  pose proof Hroot as Hroot'. rewrite Hk in Hroot'. pose proof prepared_rep as R'. pose proof prepared_x as Hx'. pose proof prepared_root as Hr'. fold n' in Hx'.
  assert (Hcore : same_core (mb_nodes prepared) (mb_nodes st2)) by (by eapply (inserted_core roots prepared K F root x n' r o la lb)).
  assert (Hlk : forall q o' l, K !! q = Some (o', l) -> exists l', K' !! q = Some (o', l') /\ l ⊆ l') by (by eapply (inserted_linked roots prepared K F root x n' r o la lb)).
  assert (HK' : forall q, linked K' q <-> linked K q \/ q = x).
  { intros q. unfold K', inserted_view, linked. destruct (decide (root = q)) as [<-|H1]; [rewrite lookup_insert_eq; split; [intros _; left; by eexists|intros _; by eexists]|].
    rewrite lookup_insert_ne by done. destruct (decide (x = q)) as [<-|H2]; [rewrite lookup_insert_eq; split; [by right|intros _; by eexists]|].
    rewrite lookup_insert_ne by done. split; [by left|]. intros [?|?]; congruence. }
  assert (Hx2 : mb_nodes st2 !! x = Some (set_nextPtr (head lb) n')) by (by eapply (inserted_x roots prepared K F root x n' r o la lb)).
  exists K'. split; [done|]. split.
  { eapply (inserted_rep roots prepared K F root x n' r o la lb); try done. eapply (add_name_ok _ K K' roots (names_of st) x (set_nextPtr (head lb) n')); try done.
    apply same_core_names with (mb_nodes prepared); [done|]. apply (rep_names _ _ _ _ R'). }
  split; [apply HK'; by right|]. split; [apply same_core_trans with (mb_nodes prepared); [apply prepared_core|done]|].
  split; [unfold st2, inserted, loc_behind; by destruct (last la)|]. split; [done|]. split; [left; apply HK'; by right|].
  intros p Hp Hl. apply lost_mono with (1 := prepared_lost p Hp Hl); [done|done| |apply Hl|].
  - destruct (K' !! p) eqn:E; [|done]. assert (linked K' p) as [H|H]%HK' by (by eexists); [|done]. destruct Hl as (Hl & _). destruct H as [? H]. by rewrite Hl in H.
  - intros m Hm. edestruct (inserted_other roots prepared K F root x n' r o la lb) with (q := p) (m := m) as (m' & Hm' & _ & Hn & _); try done.
    exists m'. split; [done|]. apply Hn. intros E. destruct Hl as (Hl & _).
    edestruct (insert_kid roots prepared K F root x n' r o la lb) with (q := p) as [[? Hin] _]; try done; [|by rewrite Hl in Hin].
    by eapply (insert_owner roots prepared K F root x n' r o la lb).
Qed.

Lemma link_node_rep : exists c st' K', link_node st root x = MibOk (c, st') /\ link_post c st' K'.
Proof.
  destruct prepared_place as (la & lb & Hk & Hplace & Hget & Hla & Hlb). pose proof prepared_x as Hx'.
  unfold link_node. cbv zeta. fold prepared. rewrite (deref_node _ _ _ Hx'). unfold mbind, mib_bind. cbn [nd_subid node_links].
  rewrite Hplace, Hget.
  assert (Hnew : Forall (fun q => nd_subid n < subid_of (mb_nodes prepared) q) lb -> exists st' K',
    (match HashNode (inserted prepared root x la lb) x with MibOk st => MibOk (x, st) | MibFault f => MibFault f end) = MibOk (x, st') /\ link_post x st' K').
  { intros Hlb'. destruct (link_placed la lb Hk Hla Hlb') as (K' & Hx2 & Hpost). exists (with_names (Some (add_name (names_of st) (nd_label n) x)) (inserted prepared root x la lb)), K'.
    split; [|done]. rewrite (HashNode_spec _ _ _ Hx2). unfold names_of. replace (mb_nodeHashTable (inserted prepared root x la lb)) with (mb_nodeHashTable st); [done|].
    unfold inserted, loc_behind. by destruct (last la). }
  destruct lb as [|q lb]; cbn [head] in *.
  - destruct (Hnew ltac:(constructor)) as (st' & K' & He & Hp). exists x, st', K'. by split.
  - destruct Hlb as (m & Hm & Hle). rewrite (deref_node _ _ _ Hm). unfold mret, mib_ret. assert (Hq : q ∈ kids) by (rewrite Hk; set_solver).
    case_bool_decide as Hs; [exists q, prepared, K; split; [done|by eapply link_taken]|].
    destruct Hnew as (st' & K' & He & Hp); [|by exists x, st', K'].
    destruct (rep_kids _ _ _ _ prepared_rep _ _ _ Hroot) as (_ & _ & _ & Hsort & _). rewrite Hk in Hsort. unfold by_subid in Hsort. rewrite fmap_app in Hsort.
    apply StronglySorted_app in Hsort as (_ & _ & Hsort). rewrite fmap_cons in Hsort. apply StronglySorted_inv in Hsort as [_ Hsort].
    assert (Hqs : subid_of (mb_nodes prepared) q = nd_subid m) by (unfold subid_of; by rewrite Hm). constructor; [lia|].
    rewrite Hqs in Hsort. rewrite Forall_fmap in Hsort. eapply Forall_impl; [exact Hsort|]. cbn. lia.
Qed.
End link.
