(* ===== verification/MibTreeFind.v ===== *)
(** [BuildSubTree] ends, keeps the shape of the tree and moves at least one node if one
    waits for the root of the subtree.  Searching the tree: by object identifiers the
    deepest node on the way is found, by a plain name a node with this label, if there is
    one. *)

From stdpp Require Import gmap sorting.
From S2P Require Import Prelude Ber CStr Oid OidTheorems Util Snmp Mib MibTree MibTreeInv.
Local Open Scope Z_scope.

(** * Building subtrees *)

(** ** Moving a node *)

Lemma move_node roots st K F h l1 l2 x n root r : rep roots st K F -> F !! h = Some (l1 ++ x :: l2) -> mb_nodes st !! x = Some n ->
  linked K root -> mb_nodes st !! root = Some r -> nd_parentName n = Some (nd_label r) ->
  exists c st' K', link_node (set_loc (loc_behind (LTab h) l1) (nd_nextPtr n) st) root x = MibOk (c, st') /\
    rep roots st' K' (<[h := l1 ++ l2]> F) /\ linked K' c /\ evolve st K F st' K' (<[h := l1 ++ l2]> F).
Proof.
  intros R Hh Hx [[o kids] Hroot] Hr Hname. set (F' := <[h := l1 ++ l2]> F).
  pose proof (unlinked_rep roots st K F h l1 l2 x n R Hh Hx) as R1. pose proof (unlinked_core roots st K F h l1 l2 x n R Hh Hx) as C1.
  pose proof (unlinked_waiting roots st K F h l1 l2 x n R Hh Hx) as W. pose proof (unlinked_node roots st K F h l1 l2 x n R Hh Hx) as N.
  destruct (unlink_chain roots st K F h l1 l2 x n R Hh Hx) as (_ & _ & _ & Hf & Hd). rewrite Forall_forall in Hf.
  assert (HKx : K !! x = None) by (apply Hf; set_solver).
  assert (Hfree : forall q, q ∈ l1 -> waiting F q) by (intros q Hq; exists h, (l1 ++ x :: l2); split; [done|set_solver]).
  assert (Hxn : x ∉ l1) by (apply NoDup_app in Hd as (_ & Hd & _); intros Hin; apply (Hd x Hin); set_solver).
  assert (Hrn : root ∉ l1) by (intros Hin; apply Hfree in Hin; by rewrite (rep_waiting _ _ _ _ _ R Hin) in Hroot).
  fold (unlinked st h l1 n). destruct (link_node_rep roots (unlinked st h l1 n) K F' root x n r o kids) as (c & st' & K' & He & R' & Hc & C' & Ht & Hlk & Hxs & Hlost);
    [done|done|by intros [_ ?]%W|by rewrite N|done|by rewrite N|done|].
  exists c, st', K'. split; [done|]. split; [done|]. split; [done|]. constructor.
  - exact (same_core_trans _ _ _ C1 C').
  - rewrite Ht. unfold unlinked. by destruct (loc_behind _ _).
  - done.
  - intros p Hp. assert (Hnw : ~ waiting F p) by apply Hp. apply Hlost; [intros ->; apply Hnw; exists h, (l1 ++ x :: l2); split; [done|set_solver]|].
    apply lost_mono with (1 := Hp); [done|intros q a b Hq; by exists b|apply Hp|by intros [? _]%W|].
    intros m Hm. exists m. rewrite N; [done|]. intros Hin. by apply Hnw, Hfree.
  - intros p Hp. destruct (decide (p = x)) as [->|Hne]; [by right|]. left. by apply W.
  - pose proof (unlinked_count roots st K F h l1 l2 x n R Hh Hx). unfold F'. lia.
  - by intros p [? _]%W.
Qed.

(** ** The position of the loop *)

Definition names_other (st : mib_state) (label : cstring) (p : nat) : Prop :=
  exists n, mb_nodes st !! p = Some n /\ nd_parentName n <> Some label.

(** The list from the location [np] on: the rest of the list of the hash value [h], or,
    behind a node that has been moved, its siblings in the tree. *)
Inductive walk (roots : list nat) (st : mib_state) (K : tree_view) (F : list (list nat)) (label : cstring) (h : nat) : location -> list nat -> Prop :=
  | walk_list l1 rest : F !! h = Some (l1 ++ rest) -> (forall p, last l1 = Some p -> names_other st label p) ->
      walk roots st K F label h (loc_behind (LTab h) l1) rest
  | walk_tree p n rest : linked K p -> p ∉ roots -> names_other st label p -> mb_nodes st !! p = Some n -> chain (mb_nodes st) (nd_nextPtr n) rest ->
      walk roots st K F label h (LNext p) rest
  | walk_lost p : lost st K F p -> names_other st label p -> walk roots st K F label h (LNext p) [].

Section walking.
Context (roots : list nat).
Implicit Types (st : mib_state) (K : tree_view) (F : list (list nat)).

Lemma walk_loc st K F label h np rest : rep roots st K F -> walk roots st K F label h np rest ->
  get_loc st np = MibOk (head rest) /\ chain (mb_nodes st) (head rest) rest.
Proof.
  intros R [l1 rest' Hh _|p n rest' _ _ _ Hn Hc|p Hl _].
  - destruct (rep_free _ _ _ _ R _ _ Hh) as (o & Ho & Hc & _). split; [eapply get_loc_behind; [cbn; by rewrite Ho|done]|].
    destruct (last_split l1) as [->|(l0 & p & ->)]; [cbn in Hc; by rewrite <- (chain_head _ _ _ Hc)|].
    rewrite <- app_assoc in Hc. destruct (chain_last _ _ _ _ _ Hc) as (m & _ & Hc2). by rewrite <- (chain_head _ _ _ Hc2).
  - cbn. rewrite (deref_node _ _ _ Hn). cbn. by rewrite <- (chain_head _ _ _ Hc).
  - destruct Hl as (_ & _ & n & Hn & Hnx & _). cbn. rewrite (deref_node _ _ _ Hn). cbn. by rewrite Hnx.
Qed.

(** The siblings behind a node. *)
Lemma siblings st K F p n : rep roots st K F -> linked K p -> p ∉ roots -> mb_nodes st !! p = Some n ->
  exists rest, chain (mb_nodes st) (nd_nextPtr n) rest /\
    Forall (fun q => linked K q /\ (q ∉ roots) /\ exists m, mb_nodes st !! q = Some m /\ nd_parentName m = nd_parentName n) rest.
Proof.
  intros R Hp Hr Hn. destruct (rep_up _ _ _ _ R p Hp) as (n' & Hn' & Hu). rewrite Hn in Hn'. injection Hn' as <-.
  destruct (nd_parentPtr n) as [r|] eqn:Hpp; [|done]. destruct Hu as (o & l & Hk & (l1 & l2 & ->)%list_elem_of_split).
  destruct (rep_kids _ _ _ _ R _ _ _ Hk) as (rn & Hrn & Hc & _ & Hkids). destruct (chain_last _ _ _ _ _ Hc) as (n' & Hn' & Hc2). rewrite Hn in Hn'. injection Hn' as <-.
  exists l2. split; [done|]. rewrite Forall_forall in Hkids. destruct (Hkids p) as (a & b & Ha & _ & Hpn & _); [set_solver|]. rewrite Hn in Ha. injection Ha as <-.
  apply Forall_forall. intros q Hq. destruct (Hkids q) as (m & b' & Hm & Hmp & Hmn & Hq'); [set_solver|]. split; [by eexists|]. split.
  - intros Hin. destruct (rep_roots _ _ _ _ R) as (_ & _ & Hroots). rewrite Forall_forall in Hroots. destruct (Hroots q Hin) as (m' & ? & Hm' & Hnone & _). congruence.
  - exists m. split; [done|]. congruence.
Qed.

Lemma names_other_evolve st K F st' K' F' label p : evolve st K F st' K' F' -> names_other st label p -> names_other st' label p.
Proof.
  intros E (n & Hn & Ho). destruct (evolve_node _ _ _ _ _ _ _ _ E Hn) as (n' & Hn' & Hc). exists n'. split; [done|]. by apply core_fields in Hc as (_ & _ & -> & _).
Qed.

(** The location stays good while nodes are moved. *)
Lemma walk_evolve st K F st' K' F' label h np rest : rep roots st K F -> rep roots st' K' F' -> evolve st K F st' K' F' -> walk roots st K F label h np rest ->
  exists rest', walk roots st' K' F' label h np rest'.
Proof.
  intros R R' E W.
  assert (Htree : forall p, linked K' p -> p ∉ roots -> names_other st' label p -> exists rest', walk roots st' K' F' label h (LNext p) rest').
  { intros p Hp Hr Ho. destruct (rep_linked_node _ _ _ _ _ R' Hp) as (n & Hn). destruct (siblings _ _ _ _ _ R' Hp Hr Hn) as (rest' & Hc & _).
    exists rest'. by eapply walk_tree. }
  destruct W as [l1 rest Hh Ho|p n rest Hp Hr Ho Hn Hc|p Hp Ho].
  - destruct (last_split l1) as [->|(l0 & p & ->)].
    + destruct (lookup_lt_is_Some_2 F' h) as [l Hl]; [rewrite (proj2 (rep_table _ _ _ _ R')), <- (proj2 (rep_table _ _ _ _ R)); by eapply lookup_lt_Some|].
      exists l. by apply (walk_list _ _ _ _ _ _ []).
    + rewrite loc_behind_snoc. specialize (Ho p). rewrite last_snoc in Ho. specialize (Ho eq_refl). pose proof (names_other_evolve _ _ _ _ _ _ _ _ E Ho) as Ho'.
      assert (Hw : waiting F p) by (exists h, ((l0 ++ [p]) ++ rest); split; [done|set_solver]).
      assert (Hnr : p ∉ roots).
      { intros Hin. destruct (rep_roots _ _ _ _ R) as (_ & _ & Hroots). rewrite Forall_forall in Hroots. destruct (Hroots p Hin) as (? & ? & _ & _ & Hk). by rewrite (rep_waiting _ _ _ _ _ R Hw) in Hk. }
      destruct (ev_free _ _ _ _ _ _ E p Hw) as [Hw'|[Hl|Hl]]; [|by apply Htree|by exists []; apply walk_lost].
      destruct (rep_free _ _ _ _ R _ _ Hh) as (_ & _ & _ & Hf). rewrite Forall_forall in Hf. destruct (Hf p) as (_ & n & pn & Hn & Hpn & Hi); [set_solver|].
      destruct (evolve_node _ _ _ _ _ _ _ _ E Hn) as (n' & Hn' & Hc). pose proof (core_fields _ _ Hc) as (_ & _ & Hpn' & _). rewrite Hpn in Hpn'.
      destruct (rep_waiting_at _ _ _ _ _ _ _ R' Hw' Hn' Hpn') as (l & Hl & Hin). rewrite Hi, Nat2Z.id in Hl.
      apply list_elem_of_split in Hin as (a & b & ->). exists b. rewrite <- (loc_behind_snoc (LTab h) a p). apply walk_list; [by rewrite <- app_assoc|].
      intros q. rewrite last_snoc. by intros [= <-].
  - destruct Hp as [[o l] Hp]. destruct (ev_linked _ _ _ _ _ _ E _ _ _ Hp) as (l' & Hp' & _). apply Htree; [by eexists|done|by eapply names_other_evolve].
  - exists []. apply walk_lost; [by apply (ev_lost _ _ _ _ _ _ E)|by eapply names_other_evolve].
Qed.

Lemma walk_next st K F label h np q m rest : rep roots st K F -> walk roots st K F label h np (q :: rest) -> mb_nodes st !! q = Some m ->
  nd_parentName m <> Some label -> walk roots st K F label h (LNext q) rest.
Proof.
  intros R W Hm Ho. assert (Hother : names_other st label q) by (by exists m).
  inversion W as [l1 ? Hh Hl| p n ? Hp Hr Hop Hn Hc | ]; subst.
  - rewrite <- (loc_behind_snoc (LTab h) l1 q). apply walk_list; [by rewrite <- app_assoc|]. intros p. rewrite last_snoc. by intros [= <-].
  - destruct (siblings _ _ _ _ _ R Hp Hr Hn) as (rest' & Hc' & Hall). pose proof (chain_det _ _ _ _ Hc Hc') as <-. apply Forall_cons in Hall as [(Hq & Hqr & _) _].
    destruct Hc as [_ (m' & Hm' & Hc)]. rewrite Hm in Hm'. injection Hm' as <-. by eapply walk_tree.
Qed.

(** A node of the tree below which the loop does not work has another parent's name. *)
Lemma walk_match st K F label h np q m rest : rep roots st K F -> walk roots st K F label h np (q :: rest) -> mb_nodes st !! q = Some m ->
  nd_parentName m = Some label -> exists l1, F !! h = Some (l1 ++ q :: rest) /\ np = loc_behind (LTab h) l1.
Proof.
  intros R W Hm Hl. inversion W as [l1 ? Hh _| p n ? Hp Hr Hop Hn Hc | ]; subst; [by exists l1|].
  destruct (siblings _ _ _ _ _ R Hp Hr Hn) as (rest' & Hc' & Hall). pose proof (chain_det _ _ _ _ Hc Hc') as <-. apply Forall_cons in Hall as [(_ & _ & m' & Hm' & Heq) _].
  destruct Hop as (n' & Hn' & Hne). congruence.
Qed.

(** A node on the way has a parent's name. *)
Lemma walk_named st K F label h np q m rest : rep roots st K F -> walk roots st K F label h np (q :: rest) -> mb_nodes st !! q = Some m -> is_Some (nd_parentName m).
Proof.
  intros R W Hm. inversion W as [l1 ? Hh _| p n ? Hp Hr Hop Hn Hc | ]; subst.
  - destruct (rep_free _ _ _ _ R _ _ Hh) as (_ & _ & _ & Hf). rewrite Forall_forall in Hf. destruct (Hf q) as (_ & m' & pn & Hm' & Hpn & _); [set_solver|].
    rewrite Hm in Hm'. injection Hm' as <-. by eexists.
  - destruct (siblings _ _ _ _ _ R Hp Hr Hn) as (rest' & Hc' & Hall). pose proof (chain_det _ _ _ _ Hc Hc') as <-. apply Forall_cons in Hall as [(Hq & Hqr & _) _].
    destruct (rep_up _ _ _ _ R q Hq) as (m' & Hm' & Hu). rewrite Hm in Hm'. injection Hm' as <-. destruct (nd_parentPtr m) as [u|]; [|done]. destruct Hu as (o & l & Hu & Hin).
    destruct (rep_kids _ _ _ _ R _ _ _ Hu) as (? & _ & _ & _ & Hk). rewrite Forall_forall in Hk. destruct (Hk q Hin) as (m' & ? & Hm' & _ & Hpn & _). rewrite Hm in Hm'. injection Hm' as <-. by eexists.
Qed.
End walking.

(** ** The loop *)

Definition waits_for (st : mib_state) (label : cstring) (q : nat) : Prop :=
  exists m, mb_nodes st !! q = Some m /\ nd_parentName m = Some label.

Definition hash_slot (label : cstring) : nat := Z.to_nat (HashNodeLabel label).

Lemma hash_bound label : HashNodeLabel label < 127.
Proof. unfold HashNodeLabel. change (Z.of_nat NODEHASHSIZE) with 127. generalize (fold_left (fun hash c => s32 (hash + (if bool_decide (c < 128) then c else c - 256))) label 0). intros z. pose proof (Z.rem_bound_abs z 127 ltac:(lia)). lia. Qed.

Lemma hash_index_ok label : 0 <= HashNodeLabel label -> hash_index label = MibOk (hash_slot label).
Proof. intros H. unfold hash_index. by rewrite bool_decide_eq_false_2 by lia. Qed.

Lemma slot_start roots st K F label : rep roots st K F -> 0 <= HashNodeLabel label -> exists rest, F !! hash_slot label = Some rest /\
  walk roots st K F label (hash_slot label) (LTab (hash_slot label)) rest /\ (length rest <= steps st)%nat.
Proof.
  intros R Hl. destruct (lookup_lt_is_Some_2 F (hash_slot label)) as [rest Hr].
  { rewrite (proj2 (rep_table _ _ _ _ R)). pose proof (hash_bound label). unfold hash_slot, NODEHASHSIZE. lia. }
  exists rest. split; [done|]. split; [by apply (walk_list _ _ _ _ _ _ [])|]. destruct (rep_free _ _ _ _ R _ _ Hr) as (o & _ & Hc & _). by eapply chain_length.
Qed.

Lemma build_loop_rep roots : forall fuel st K F root r np rest, rep roots st K F -> linked K root -> mb_nodes st !! root = Some r ->
  walk roots st K F (nd_label r) (hash_slot (nd_label r)) np rest -> (length (concat F) * (steps st + 1) + length rest <= fuel)%nat ->
  exists st' K' F', build_loop fuel st root np = MibOk st' /\ rep roots st' K' F' /\ evolve st K F st' K' F' /\
    (Exists (waits_for st (nd_label r)) rest -> (length (concat F') < length (concat F))%nat).
Proof.
  induction fuel as [|fuel IH]; intros st K F root r np rest R Hroot Hr W Hf.
  { destruct rest; [|cbn in Hf; lia]. destruct (walk_loc _ _ _ _ _ _ _ _ R W) as [Hg _]. exists st, K, F. cbn. rewrite Hg. split; [done|]. split; [done|]. split; [apply evolve_refl|by intros ?%Exists_nil]. }
  destruct (walk_loc _ _ _ _ _ _ _ _ R W) as [Hg Hc]. cbn [build_loop]. rewrite Hg. unfold mbind, mib_bind.
  destruct rest as [|x rest]; cbn [head].
  { exists st, K, F. split; [done|]. split; [done|]. split; [apply evolve_refl|by intros ?%Exists_nil]. }
  destruct Hc as [_ (n & Hn & Hc)]. rewrite (deref_node _ _ _ Hr), (deref_node _ _ _ Hn). destruct (walk_named _ _ _ _ _ _ _ _ _ _ R W Hn) as [pn Hpn]. rewrite Hpn. cbn [of_option]. unfold mret, mib_ret.
  case_bool_decide as Hm.
  - subst pn. destruct (walk_match _ _ _ _ _ _ _ _ _ _ R W Hn Hpn) as (l1 & Hh & Hnp).
    destruct (move_node _ _ _ _ _ _ _ _ _ _ _ R Hh Hn Hroot Hr Hpn) as (c & st1 & K1 & Hlink & R1 & Hc1 & E1). rewrite Hnp, Hlink. rewrite <- Hnp.
    set (F1 := <[hash_slot (nd_label r) := l1 ++ rest]> F) in *.
    pose proof (unlinked_count roots st K F _ _ _ _ _ R Hh Hn) as Hcount. fold F1 in Hcount. pose proof (evolve_steps _ _ _ _ _ _ E1) as Hs1.
    destruct (rep_linked_node _ _ _ _ _ R1 Hc1) as (cn & Hcn). rewrite (deref_node _ _ _ Hcn). destruct (rep_node _ _ _ _ R1 _ _ Hcn) as (_ & _ & Hhash). rewrite hash_index_ok by done.
    destruct (slot_start roots st1 K1 F1 (nd_label cn) R1 Hhash) as (rest1 & _ & W1 & Hlen1).
    destruct (IH st1 K1 F1 c cn _ rest1 R1 Hc1 Hcn W1) as (st2 & K2 & F2 & Hb2 & R2 & E2 & _); [cbn in Hf; nia|]. rewrite Hb2.
    pose proof (evolve_trans _ _ _ _ _ _ _ _ _ E1 E2) as E12. destruct (walk_evolve _ _ _ _ _ _ _ _ _ _ _ R R2 E12 W) as (rest2 & W2).
    destruct (walk_loc _ _ _ _ _ _ _ _ R2 W2) as [_ Hc2]. pose proof (chain_length _ _ _ Hc2) as Hlen2. fold (steps st2) in Hlen2.
    destruct (evolve_node _ _ _ _ _ _ _ _ E12 Hr) as (r2 & Hr2 & Hcore). pose proof (core_fields _ _ Hcore) as (_ & Hlab & _). rewrite <- Hlab in W2.
    pose proof (evolve_steps _ _ _ _ _ _ E12) as Hs2. pose proof (ev_less _ _ _ _ _ _ E2) as Hless.
    destruct Hroot as [[o l] Hroot]. destruct (ev_linked _ _ _ _ _ _ E12 _ _ _ Hroot) as (l' & Hroot2 & _).
    destruct (IH st2 K2 F2 root r2 np rest2 R2 ltac:(by eexists) Hr2 W2) as (st3 & K3 & F3 & Hb3 & R3 & E3 & _); [cbn in Hf; rewrite Hs2 in Hlen2 |- *; nia|].
    exists st3, K3, F3. split; [done|]. split; [done|]. split; [by eapply evolve_trans|]. intros _. pose proof (ev_less _ _ _ _ _ _ E3). lia.
  - pose proof (walk_next _ _ _ _ _ _ _ _ _ _ R W Hn ltac:(congruence)) as W'.
    destruct (IH st K F root r (LNext x) rest R Hroot Hr W') as (st' & K' & F' & Hb & R' & E & Hex); [cbn in Hf; lia|].
    exists st', K', F'. split; [done|]. split; [done|]. split; [done|]. intros [(m & Hm' & Hmp)|H]%Exists_cons; [congruence|by apply Hex].
Qed.

(** The number of nodes that wait is at most the number of nodes. *)
Lemma waiting_count roots st K F : rep roots st K F -> (length (concat F) <= steps st)%nat.
Proof.
  intros R. assert (Hd : NoDup (concat F)).
  { pose proof (fun i l => rep_free _ _ _ _ R i l) as Hf. assert (Hall : forall j, NoDup (concat (drop j F))); [|exact (Hall O)]. intros j.
    assert (Hj : (length F - j + j >= length F)%nat) by lia. revert Hj. generalize (length F - j)%nat as k. intros k. revert j. induction k as [|k IHk]; intros j Hj.
    - rewrite drop_ge by lia. constructor.
    - destruct (F !! j) as [l|] eqn:Hl; [|rewrite drop_ge by (by apply lookup_ge_None); constructor]. rewrite (drop_S F l j Hl). cbn. destruct (Hf j l Hl) as (o & _ & Hc & Hfr).
      apply NoDup_app. split; [by eapply chain_NoDup|]. split; [|apply IHk; lia]. intros q Hq Hq'. rewrite Forall_forall in Hfr. destruct (Hfr q Hq) as (_ & n & pn & Hn & Hpn & Hi).
      apply list_elem_of_In, in_concat in Hq' as (l' & Hl' & Hq'). apply list_elem_of_In in Hl'. apply list_elem_of_In in Hq'. apply list_elem_of_lookup in Hl' as (i & Hi').
      rewrite lookup_drop in Hi'. destruct (Hf _ _ Hi') as (_ & _ & _ & Hfr'). rewrite Forall_forall in Hfr'. destruct (Hfr' q Hq') as (_ & n' & pn' & Hn' & Hpn' & Hi2).
      rewrite Hn in Hn'. injection Hn' as <-. rewrite Hpn in Hpn'. injection Hpn' as <-. lia. }
  unfold steps. rewrite <- size_dom, <- (size_list_to_set (C := gset nat)) by done. apply subseteq_size. intros q Hq. apply elem_of_list_to_set in Hq.
  apply list_elem_of_In, in_concat in Hq as (l & Hl & Hq). apply list_elem_of_In in Hl. apply list_elem_of_In in Hq. apply list_elem_of_lookup in Hl as (i & Hi).
  destruct (rep_free _ _ _ _ R _ _ Hi) as (_ & _ & _ & Hf). rewrite Forall_forall in Hf. destruct (Hf q Hq) as (_ & n & _ & Hn & _). apply elem_of_dom. by eexists.
Qed.

Lemma BuildSubTree_rep roots st K F root r : rep roots st K F -> linked K root -> mb_nodes st !! root = Some r ->
  exists st' K' F', BuildSubTree st root = MibOk st' /\ rep roots st' K' F' /\ evolve st K F st' K' F' /\
    ((exists p, waiting F p /\ waits_for st (nd_label r) p) -> (length (concat F') < length (concat F))%nat).
Proof.
  intros R Hroot Hr. unfold BuildSubTree. rewrite (deref_node _ _ _ Hr). destruct (rep_node _ _ _ _ R _ _ Hr) as (_ & _ & Hh). unfold mbind, mib_bind. rewrite hash_index_ok by done.
  destruct (slot_start roots st K F (nd_label r) R Hh) as (rest & Hrest & W & Hlen). pose proof (waiting_count _ _ _ _ R) as Hcount.
  destruct (build_loop_rep roots (build_fuel st) st K F root r _ rest R Hroot Hr W) as (st' & K' & F' & Hb & R' & E & Hex); [unfold build_fuel; nia|].
  exists st', K', F'. split; [done|]. split; [done|]. split; [done|]. intros (p & Hp & Hw). apply Hex. apply Exists_exists. exists p. split; [|done].
  destruct Hw as (m & Hm & Hpn). destruct (rep_waiting_at _ _ _ _ _ _ _ R Hp Hm Hpn) as (l & Hl & Hin). unfold hash_slot in Hrest. rewrite Hrest in Hl. by injection Hl as <-.
Qed.

(** * Searching *)

(** ** By object identifiers *)

Lemma find_sibling_spec st s l : forall fuel o, chain (mb_nodes st) o l -> (length l <= fuel)%nat -> exists res, find_sibling fuel st o s = MibOk res /\
  match res with Some q => q ∈ l /\ subid_of (mb_nodes st) q = s | None => Forall (fun q => subid_of (mb_nodes st) q <> s) l end.
Proof.
  induction l as [|p l IH]; intros fuel o; [intros ->; destruct fuel; by exists None|]. intros [-> (n & Hn & Hc)] Hf. destruct fuel as [|fuel]; [cbn in Hf; lia|].
  cbn [find_sibling]. rewrite (deref_node _ _ _ Hn). unfold mbind, mib_bind. assert (Hs : subid_of (mb_nodes st) p = nd_subid n) by (unfold subid_of; by rewrite Hn).
  case_bool_decide as E; [exists (Some p); split; [done|]; split; [set_solver|congruence]|].
  destruct (IH fuel _ Hc) as (res & Hres & Hr); [cbn in Hf; lia|]. exists res. split; [done|]. destruct res as [q|]; [split; [set_solver|apply Hr]|]. constructor; [congruence|done].
Qed.

Section view.
Context (roots : list nat) (st : mib_state) (K : tree_view) (F : list (list nat)).
Context (R : rep roots st K F).
#[local] Set Default Proof Using "Type*".

Lemma view_oid p o l : K !! p = Some (o, l) -> exists n, mb_nodes st !! p = Some n /\
  ((p ∈ roots /\ o = [nd_subid n]) \/ exists r o' l', K !! r = Some (o', l') /\ p ∈ l' /\ o = o' ++ [nd_subid n] /\ nd_parentPtr n = Some r).
Proof.
  intros Hp. destruct (rep_up _ _ _ _ R p) as (n & Hn & Hu); [by eexists|]. exists n. split; [done|]. destruct (nd_parentPtr n) as [r|] eqn:Hpp.
  - destruct Hu as (o' & l' & Hr & Hin). right. exists r, o', l'. split; [done|]. split; [done|]. split; [|done].
    destruct (rep_kids _ _ _ _ R _ _ _ Hr) as (rn & _ & _ & _ & Hk). rewrite Forall_forall in Hk. destruct (Hk p Hin) as (m & ? & Hm & _ & _ & Hp'). congruence.
  - left. split; [done|]. destruct (rep_roots _ _ _ _ R) as (_ & _ & Hr). rewrite Forall_forall in Hr. destruct (Hr p Hu) as (m & ? & Hm & _ & Hp'). congruence.
Qed.

Lemma view_nonempty p l : K !! p <> Some ([], l).
Proof. intros Hp. destruct (view_oid _ _ _ Hp) as (? & _ & [[_ ?]|(? & o' & ? & _ & _ & H & _)]); [done|]. by destruct o'. Qed.

Lemma sorted_inj l p q : by_subid (mb_nodes st) l -> p ∈ l -> q ∈ l -> subid_of (mb_nodes st) p = subid_of (mb_nodes st) q -> p = q.
Proof.
  unfold by_subid. induction l as [|a l IH]; [by intros _ ?%not_elem_of_nil|]. rewrite fmap_cons. intros [Hs Ha]%StronglySorted_inv Hp Hq E. rewrite Forall_forall in Ha.
  assert (Hlt : forall b, b ∈ l -> subid_of (mb_nodes st) a < subid_of (mb_nodes st) b) by (intros b Hb; apply Ha; by apply list_elem_of_fmap_2).
  apply elem_of_cons in Hp as [->|Hp]; apply elem_of_cons in Hq as [->|Hq]; [done|specialize (Hlt q Hq); lia|specialize (Hlt p Hp); lia|by apply IH].
Qed.

(** Different nodes have different object identifiers. *)
Lemma view_inj : forall o p q l l', K !! p = Some (o, l) -> K !! q = Some (o, l') -> p = q.
Proof.
  induction o as [|s o IH] using rev_ind; intros p q l l' Hp Hq.
  { by apply view_nonempty in Hp. }
  assert (Hsub : forall p n, mb_nodes st !! p = Some n -> subid_of (mb_nodes st) p = nd_subid n) by (intros a n Hn; unfold subid_of; by rewrite Hn).
  destruct (view_oid _ _ _ Hp) as (n & Hn & Hpc), (view_oid _ _ _ Hq) as (m & Hm & Hqc).
  assert (Hlen : forall a : list Z, a ++ [s] = [s] -> a = []) by (intros a Ha; by destruct a as [|? [|]]).
  destruct Hpc as [[Hpr Ep]|(r & o1 & l1 & Hr & Hp1 & Ep & _)], Hqc as [[Hqr Eq]|(r' & o2 & l2 & Hr' & Hq1 & Eq & _)].
  - apply sorted_inj with roots; [apply (rep_roots _ _ _ _ R)|done|done|]. rewrite (Hsub _ _ Hn), (Hsub _ _ Hm). rewrite Ep in Eq. by injection Eq.
  - apply (app_inj_tail _ []) in Ep as [-> ->]. apply app_inj_tail in Eq as [<- _]. by apply view_nonempty in Hr'.
  - apply (app_inj_tail _ []) in Eq as [-> ->]. apply app_inj_tail in Ep as [<- _]. by apply view_nonempty in Hr.
  - apply app_inj_tail in Ep as [<- Es]. apply app_inj_tail in Eq as [<- Es']. pose proof (IH _ _ _ _ Hr Hr') as <-. rewrite Hr in Hr'. injection Hr' as <-.
    apply sorted_inj with l1; [|done|done|rewrite (Hsub _ _ Hn), (Hsub _ _ Hm); congruence]. by destruct (rep_kids _ _ _ _ R _ _ _ Hr) as (? & _ & _ & ? & _).
Qed.

(** One step down. *)
Lemma kid_step p o l s : K !! p = Some (o, l) -> exists n, mb_nodes st !! p = Some n /\ exists res, find_sibling (steps st) st (nd_childPtr n) s = MibOk res /\
  match res with Some q => exists l', K !! q = Some (o ++ [s], l') | None => forall q l', K !! q <> Some (o ++ [s], l') end.
Proof.
  intros Hp. destruct (rep_kids _ _ _ _ R _ _ _ Hp) as (n & Hn & Hc & _ & Hk). exists n. split; [done|]. rewrite Forall_forall in Hk.
  destruct (find_sibling_spec st s l (steps st) _ Hc (chain_length _ _ _ Hc)) as (res & Hres & Hr). exists res. split; [done|]. destruct res as [q|].
  - destruct Hr as [Hq Hs]. destruct (Hk q Hq) as (m & l' & Hm & _ & _ & Hq'). exists l'. unfold subid_of in Hs. rewrite Hm in Hs. cbn in Hs. by subst s.
  - intros q l' Hq. destruct (view_oid _ _ _ Hq) as (m & Hm & [[_ E]|(r & o' & l1 & Hr' & Hin & E & _)]).
    + destruct o as [|? [|]]; [by apply view_nonempty in Hp|done|done].
    + apply app_inj_tail in E as [<- Es]. pose proof (view_inj _ _ _ _ _ Hp Hr') as <-. rewrite Hp in Hr'. injection Hr' as <-. rewrite Forall_forall in Hr.
      apply (Hr q Hin). unfold subid_of. by rewrite Hm.
Qed.

Lemma descend_spec rest : forall p o l found, K !! p = Some (o, l) -> exists q k, descend st p rest found = MibOk (q, (found + k)%nat) /\ (k <= length rest)%nat /\
  (exists l', K !! q = Some (o ++ take k rest, l')) /\ (forall s, rest !! k = Some s -> forall q' l', K !! q' <> Some (o ++ take (S k) rest, l')).
Proof.
  induction rest as [|s rest IH]; intros p o l found Hp.
  - exists p, O. cbn. rewrite Nat.add_0_r, app_nil_r. split; [done|]. split; [done|]. split; [by exists l|done].
  - cbn [descend]. destruct (kid_step p o l s Hp) as (n & Hn & res & Hres & Hr). rewrite (deref_node _ _ _ Hn). unfold mbind, mib_bind. rewrite Hres. destruct res as [q|].
    + destruct Hr as [l' Hq]. destruct (IH q _ l' (S found) Hq) as (q' & k & Hd & Hk & (l2 & Hq') & Hno). exists q', (S k). rewrite Hd. split; [f_equal; f_equal; lia|]. split; [cbn; lia|].
      rewrite <- app_assoc in Hq'. split; [by exists l2|]. intros s' Hs' q2 l3. cbn in Hs'. specialize (Hno s' Hs' q2 l3). rewrite <- app_assoc in Hno. exact Hno.
    + exists p, O. rewrite Nat.add_0_r. split; [done|]. split; [lia|]. cbn. rewrite app_nil_r. split; [by exists l|]. intros s' _ q' l'. apply Hr.
Qed.

(** The way to a node is in the tree. *)
Lemma view_prefix : forall o' o p l, K !! p = Some (o ++ o', l) -> o <> [] -> exists q l', K !! q = Some (o, l').
Proof.
  induction o' as [|s o' IH] using rev_ind; intros o p l Hp Ho; [rewrite app_nil_r in Hp; by exists p, l|]. rewrite app_assoc in Hp.
  destruct (view_oid _ _ _ Hp) as (n & _ & [[_ E]|(r & o1 & l1 & Hr & _ & E & _)]); [apply (f_equal length) in E; rewrite !length_app in E; destruct o; [done|cbn in E; lia]|].
  apply app_inj_tail in E as [<- _]. by eapply IH.
Qed.

Definition first_node (s : Z) : mib_out (option nat) := find_sibling (steps st) st (head roots) s.

Lemma first_node_spec s : exists res, first_node s = MibOk res /\ match res with Some q => exists l, K !! q = Some ([s], l) | None => forall q o l, K !! q <> Some (s :: o, l) end.
Proof.
  destruct (rep_roots _ _ _ _ R) as (Hc & _ & Hr). destruct (find_sibling_spec st s roots (steps st) _ Hc (chain_length _ _ _ Hc)) as (res & Hres & Hs). exists res. split; [done|].
  rewrite Forall_forall in Hr. destruct res as [q|].
  - destruct Hs as [Hq Hs]. destruct (Hr q Hq) as (m & l & Hm & _ & Hk). exists l. unfold subid_of in Hs. rewrite Hm in Hs. cbn in Hs. by subst s.
  - intros q o l Hq. destruct (view_prefix o [s] q l Hq ltac:(done)) as (p & l' & Hp). destruct (view_oid _ _ _ Hp) as (n & Hn & [[Hin E]|(r & o1 & l1 & Hr1 & _ & E & _)]).
    + rewrite Forall_forall in Hs. apply (Hs p Hin). unfold subid_of. rewrite Hn. cbn. by injection E.
    + apply (app_inj_tail []) in E as [<- _]. by apply view_nonempty in Hr1.
Qed.

(** The nodes on the way to an object identifier. *)
Definition deepest (oid : list Z) (q : nat) (o : list Z) : Prop :=
  (exists l, K !! q = Some (o, l)) /\ o `prefix_of` oid /\ forall q' o' l', K !! q' = Some (o', l') -> o' `prefix_of` oid -> (length o' <= length o)%nat.

Lemma deepest_found s rest q k l : K !! q = Some ([s] ++ take k rest, l) -> (k <= length rest)%nat ->
  (forall t, rest !! k = Some t -> forall q' l', K !! q' <> Some ([s] ++ take (S k) rest, l')) -> deepest (s :: rest) q (s :: take k rest).
Proof.
  intros Hq Hk Hno. split; [by exists l|]. split; [exists (drop k rest); cbn; by rewrite take_drop|]. intros q' o' l' Hq' [suf Hpre].
  destruct (decide (length o' <= S k)%nat) as [|Hlong]; [cbn; rewrite length_take; lia|]. exfalso.
  assert (Ho' : o' = take (length o') (s :: rest)) by (rewrite Hpre, take_app_length; done). assert (Hlen : (length o' <= S (length rest))%nat) by (rewrite Ho', length_take; cbn; lia).
  destruct (lookup_lt_is_Some_2 rest k ltac:(lia)) as [t Ht]. destruct (view_prefix (drop (S (S k)) o') (take (S (S k)) o') q' l') as (p & l2 & Hp).
  - by rewrite take_drop.
  - destruct o'; [cbn in Hlong; lia|done].
  - apply (Hno t Ht p l2). rewrite Hp. f_equal. f_equal. rewrite Ho', take_take. replace (S (S k) `min` length o')%nat with (S (S k)) by lia. done.
Qed.

Lemma lookup_oid_spec label oid exact : lookup_oid_value label = MibOk (Some oid) -> oid <> [] ->
  (forall q o l, K !! q = Some (o, l) -> o `prefix_of` oid -> False) /\ LookupOID st (head roots) label exact = MibOk (None, -1) \/
  exists q o, deepest oid q o /\ LookupOID st (head roots) label exact = MibOk
    (if bool_decide (o = oid) then (Some q, -1) else if exact then (None, -1) else (Some q, offset_of label (skip_subids (length o) label))).
Proof.
  intros Hl Hne. destruct oid as [|s rest]; [done|]. unfold LookupOID. rewrite Hl. unfold mbind, mib_bind. destruct (first_node_spec s) as (res & Hres & Hr). unfold first_node in Hres. rewrite Hres.
  destruct res as [p|].
  - right. destruct Hr as [l Hp]. destruct (descend_spec rest p [s] l 0 Hp) as (q & k & Hd & Hk & (l' & Hq) & Hno). rewrite Hd. exists q, (s :: take k rest). split; [by eapply deepest_found|].
    cbn [Nat.add]. unfold mret, mib_ret. destruct (decide (k = length rest)) as [->|Hlt].
    + rewrite firstn_all. by rewrite !bool_decide_eq_true_2.
    + rewrite bool_decide_eq_false_2 by done. rewrite (bool_decide_eq_false_2 (s :: take k rest = s :: rest)).
      * cbn [length]. rewrite length_take, Nat.min_l by done. by destruct exact.
      * intros [= E]. apply (f_equal length) in E. rewrite length_take in E. lia.
  - left. split; [|done]. intros q o l' Hq [suf Hpre]. destruct o as [|t o]; [|injection Hpre as <- _; by eapply Hr].
    by apply view_nonempty in Hq.
Qed.
End view.

(** ** By names *)

Lemma plain_chars s : plain_name s = true -> Forall (fun c => c <> chr_dot /\ c <> chr_colon /\ c <> chr_bang) s.
Proof.
  intros H. unfold plain_name in H. apply andb_true_iff in H as [[H _]%andb_true_iff _]. apply Forall_forall. intros c Hc.
  rewrite forallb_forall in H. specialize (H c (proj1 (list_elem_of_In _ _) Hc)). apply negb_true_iff in H. rewrite !orb_false_iff in H. destruct H as [[H1 H2] H3].
  apply bool_decide_eq_false_1 in H1. apply bool_decide_eq_false_1 in H2. by apply bool_decide_eq_false_1 in H3.
Qed.

Lemma plain_index s c : plain_name s = true -> c = chr_dot \/ c = chr_colon \/ c = chr_bang -> index_of c s = None.
Proof. intros H Hc. apply index_of_none. eapply Forall_impl; [by apply plain_chars|]. cbn. intros x (H1 & H2 & H3). by destruct Hc as [->|[->| ->]]. Qed.

Lemma plain_no_number s : plain_name s = true -> forallb isdigit s = false.
Proof.
  intros H. unfold plain_name in H. apply andb_true_iff in H as [[_ H]%andb_true_iff _]. apply not_true_iff_false. intros Hd. apply existsb_exists in H as (c & Hc & Hn).
  rewrite forallb_forall in Hd. by rewrite (Hd c Hc) in Hn.
Qed.

Lemma plain_head s : plain_name s = true -> label_head s = MibOk (s, -1, []).
Proof.
  intros H. unfold label_head. rewrite (plain_index s chr_dot) by (done || by left). cbn [default]. rewrite take_ge by done. rewrite plain_no_number by done.
  rewrite bool_decide_eq_false_2; [by rewrite drop_ge by lia|]. unfold plain_name in H. apply andb_true_iff in H as [_ H]. apply bool_decide_eq_true_1 in H. lia.
Qed.

Lemma plain_match name n : node_ok n -> label_match name [] (-1) n = MibOk (bool_decide (name = nd_label n)).
Proof.
  intros (Hs & _). unfold label_match. rewrite (bool_decide_eq_false_2 (u32 (-1) = nd_subid n)); [|change (u32 (-1)) with 4294967295; lia].
  case_bool_decide; cbn; done.
Qed.

(** The nodes in the subtrees of a list of nodes. *)
Inductive under (K : tree_view) : list nat -> nat -> Prop :=
  | under_here l q : q ∈ l -> under K l q
  | under_kid l r o kids q : r ∈ l -> K !! r = Some (o, kids) -> under K kids q -> under K l q.

Lemma under_trans K l q o kids p : under K l q -> K !! q = Some (o, kids) -> p ∈ kids -> under K l p.
Proof.
  induction 1 as [l q Hq|l r o' kids' q Hr Hk _ IH]; intros Hq' Hp.
  - eapply under_kid; [exact Hq|exact Hq'|by apply under_here].
  - eapply under_kid; [exact Hr|exact Hk|by apply IH].
Qed.

Lemma lex_app o s t : s < t -> lex (o ++ [s]) (o ++ [t]) = -1.
Proof. intros H. induction o as [|a o IH]; cbn; [by rewrite bool_decide_eq_true_2|]. by rewrite !bool_decide_eq_false_2 by lia. Qed.
Lemma lex_snoc o s : lex o (o ++ [s]) = -1.
Proof. induction o as [|a o IH]; cbn; [done|]. by rewrite !bool_decide_eq_false_2 by lia. Qed.

Lemma head_nil {A} (l : list A) : head l = None -> l = [].
Proof. by destruct l. Qed.

Section names.
Context (roots : list nat) (st : mib_state) (K : tree_view) (F : list (list nat)).
Context (R : rep roots st K F).
#[local] Set Default Proof Using "Type*".

(** The number of nodes behind an object identifier in lexicographic order. *)
Definition behind (o : list Z) (p : nat) : bool := match K !! p with Some (o', _) => bool_decide (lex o o' = -1) | None => false end.
Definition later (o : list Z) : nat := size (filter (fun p => behind o p = true) (dom K)).

Lemma later_less o p o' l : K !! p = Some (o', l) -> lex o o' = -1 -> (later o' < later o)%nat.
Proof.
  intros Hp Hlt. unfold later. apply subset_size. split.
  - intros q. rewrite !elem_of_filter. unfold behind. destruct (K !! q) as [[oq lq]|]; [|by intros [? _]]. intros [Hq%bool_decide_eq_true_1 Hd].
    split; [|done]. apply bool_decide_eq_true_2. by apply lex_trans with o'.
  - intros Hsub. assert (Hin : p ∈ filter (fun p => behind o' p = true) (dom K)).
    { apply Hsub. apply elem_of_filter. unfold behind. rewrite Hp. split; [by apply bool_decide_eq_true_2|]. apply elem_of_dom. by eexists. }
    apply elem_of_filter in Hin as [Hin _]. unfold behind in Hin. rewrite Hp, lex_refl in Hin. done.
Qed.

Lemma later_bound p o l : K !! p = Some (o, l) -> (later o < steps st)%nat.
Proof.
  intros Hp. assert (Hk : (size (dom K) <= steps st)%nat).
  { unfold steps. rewrite <- (size_dom (mb_nodes st)). apply subseteq_size. intros q Hq. apply elem_of_dom in Hq. apply elem_of_dom. destruct (rep_linked_node _ _ _ _ _ R Hq) as [n ->]. by eexists. }
  enough (later o < size (dom K))%nat by lia. unfold later. apply subset_size. split; [intros q; by rewrite elem_of_filter; intros [_ ?]|].
  intros Hsub. assert (Hin : p ∈ dom K) by (apply elem_of_dom; by eexists). apply Hsub, elem_of_filter in Hin as [Hin _]. unfold behind in Hin. by rewrite Hp, lex_refl in Hin.
Qed.

Definition brothers (o : list Z) (l : list nat) : Prop :=
  by_subid (mb_nodes st) l /\ Forall (fun q => exists l', K !! q = Some (o ++ [subid_of (mb_nodes st) q], l')) l.

Lemma kids_brothers p o l : K !! p = Some (o, l) -> brothers o l.
Proof.
  intros Hp. destruct (rep_kids _ _ _ _ R _ _ _ Hp) as (n & _ & _ & Hs & Hk). split; [done|]. eapply Forall_impl; [done|].
  intros q (m & l' & Hm & _ & _ & Hq). exists l'. unfold subid_of. by rewrite Hm.
Qed.

Lemma roots_brothers : brothers [] roots.
Proof.
  destruct (rep_roots _ _ _ _ R) as (_ & Hs & Hr). split; [done|]. eapply Forall_impl; [done|]. intros q (m & l' & Hm & _ & Hq). exists l'. unfold subid_of. by rewrite Hm.
Qed.

(** Enough steps for the nodes from the first of the brothers on. *)
Definition enough_for (fuel : nat) (o : list Z) (l : list nat) : Prop :=
  match l with q :: _ => (later (o ++ [subid_of (mb_nodes st) q]) < fuel)%nat | [] => True end.

Lemma enough_next fuel o p l : brothers o (p :: l) -> enough_for (S fuel) o (p :: l) -> enough_for fuel o l.
Proof.
  intros [Hs Hb] He. destruct l as [|q l]; [done|]. apply Forall_cons in Hb as [_ Hb]. apply Forall_cons in Hb as [[lq Hq] _].
  unfold by_subid in Hs. rewrite !fmap_cons in Hs. apply StronglySorted_inv in Hs as [_ Hs]. apply Forall_cons in Hs as [Hs _].
  pose proof (later_less _ _ _ _ Hq (lex_app o _ _ Hs)). cbn in *. lia.
Qed.

Lemma enough_kids fuel p o l : K !! p = Some (o, l) -> (later o <= fuel)%nat -> enough_for fuel o l.
Proof.
  intros Hp He. destruct l as [|q l]; [done|]. destruct (kids_brothers _ _ _ Hp) as [_ Hb]. apply Forall_cons in Hb as [[lq Hq] _].
  pose proof (later_less _ _ _ _ Hq (lex_snoc o _)). cbn. lia.
Qed.

Definition labelled (name : cstring) (q : nat) : Prop := exists n, mb_nodes st !! q = Some n /\ nd_label n = name.

Lemma lookup_brothers_spec name exact : plain_name name = true -> forall fuel o l offset, brothers o l -> chain (mb_nodes st) (head l) l -> enough_for fuel o l ->
  exists res offset', lookup_brothers fuel st (head l) name name [] exact true offset = MibOk (res, offset') /\
    match res with Some q => linked K q /\ labelled name q | None => forall q, under K l q -> ~ labelled name q end.
Proof.
  intros Hname. induction fuel as [|fuel IH]; intros o l offset Hb Hc He.
  { destruct l as [|p l]; [|cbn in He; lia]. exists None, offset. split; [done|]. intros q Hq. inversion Hq as [? ? H|? ? ? ? ? H]; by apply not_elem_of_nil in H. }
  destruct l as [|p l].
  { exists None, offset. split; [done|]. intros q Hq. inversion Hq as [? ? H|? ? ? ? ? H]; by apply not_elem_of_nil in H. }
  destruct Hc as [_ (n & Hn & Hc)]. pose proof (chain_head _ _ _ Hc) as Hhead. cbn [lookup_brothers head]. rewrite (plain_head _ Hname), (deref_node _ _ _ Hn). unfold mbind, mib_bind.
  rewrite plain_match by (by apply (rep_node _ _ _ _ R p)). pose proof Hb as [Hs Hb']. apply Forall_cons in Hb' as [[kids Hp] Hb'].
  case_bool_decide as Hm.
  { cbn [bool_decide_eq_true_2]. rewrite bool_decide_eq_true_2 by done. unfold mret, mib_ret. eexists (Some p), _. split; [reflexivity|]. split; [by eexists|]. by exists n. }
  unfold mret, mib_ret. cbn [andb]. destruct (rep_kids _ _ _ _ R _ _ _ Hp) as (n' & Hn' & Hck & _ & _). rewrite Hn in Hn'. injection Hn' as <-. pose proof (chain_head _ _ _ Hck) as Hhk.
  assert (Hsub : exists res offset', (if bool_decide (is_Some (nd_childPtr n)) then lookup_brothers fuel st (nd_childPtr n) name name [] exact true (-1) else MibOk (None, offset)) = MibOk (res, offset') /\
    match res with Some q => linked K q /\ labelled name q | None => forall q, under K kids q -> ~ labelled name q end).
  { case_bool_decide as Hkid.
    - rewrite Hhk in Hck |- *. apply (IH (o ++ [subid_of (mb_nodes st) p])); [by apply kids_brothers with p|done|]. apply enough_kids with p; [done|]. cbn in He. lia.
    - exists None, offset. split; [done|]. assert (kids = []) as -> by (rewrite Hhk in Hkid; destruct kids; [done|]; exfalso; apply Hkid; by eexists).
      intros q Hq. inversion Hq as [? ? H|? ? ? ? ? H]; by apply not_elem_of_nil in H. }
  destruct Hsub as (res & offset' & Hres & Hr). rewrite Hres. destruct res as [q|]; [by eexists (Some q), _|]. rewrite Hhead.
  destruct (IH o l offset') as (res & offset2 & Hres2 & Hr2); [split; [|done]|by rewrite Hhead in Hc|by apply enough_next with p|].
  { unfold by_subid in Hs |- *. rewrite fmap_cons in Hs. by apply StronglySorted_inv in Hs as [? _]. }
  rewrite Hres2. exists res, offset2. split; [done|]. destruct res as [q|]; [done|]. intros q Hq. inversion Hq as [? ? H|? r ? ? ? H Hk Hu]; subst.
  - apply elem_of_cons in H as [->|H]; [|by apply Hr2, under_here]. intros (m & Hm' & Hl). congruence.
  - apply elem_of_cons in H as [->|H]; [|eapply Hr2, under_kid; [exact H|exact Hk|exact Hu]]. rewrite Hp in Hk. injection Hk as <- <-. by apply Hr.
Qed.

Lemma all_under q : linked K q -> under K roots q.
Proof.
  intros [[o l] Hq]. assert (Hlen : (length o <= length o)%nat) by done. revert Hlen Hq. generalize (length o) at 2 as k. intros k. revert o l q. induction k as [|k IH]; intros o l q Hlen Hq.
  { destruct o; [|cbn in Hlen; lia]. by apply (view_nonempty _ _ _ _ R) in Hq. }
  destruct (view_oid _ _ _ _ R _ _ _ Hq) as (n & _ & [[Hin _]|(r & o' & l' & Hr & Hin & -> & _)]); [by apply under_here|].
  eapply under_trans; [|exact Hr|exact Hin]. eapply IH; [|exact Hr]. rewrite length_app in Hlen. cbn in Hlen. lia.
Qed.

Lemma enough_start o l : brothers o l -> enough_for (steps st) o l.
Proof. intros [_ Hb]. destruct l as [|q l]; [done|]. apply Forall_cons in Hb as [[l' Hq] _]. cbn. by eapply later_bound. Qed.

Lemma LookupLabel_plain name exact offset : plain_name name = true -> exists res offset', LookupLabel st (head roots) name name [] exact true offset = MibOk (res, offset') /\
  match res with Some q => linked K q /\ labelled name q | None => forall q, linked K q -> ~ labelled name q end.
Proof.
  intros Hname. unfold LookupLabel. destruct (head roots) eqn:Hh.
  - rewrite <- Hh. destruct (lookup_brothers_spec name exact Hname (steps st) [] roots (-1) roots_brothers) as (res & offset' & Hres & Hr); [apply (rep_roots _ _ _ _ R)| |].
    + apply enough_start, roots_brothers.
    + exists res, offset'. split; [done|]. destruct res; [done|]. intros q Hq. by apply Hr, all_under.
  - exists None, offset. split; [done|]. intros q Hq. apply all_under in Hq. rewrite (head_nil _ Hh) in Hq. inversion Hq as [? ? H|? ? ? ? ? H]; by apply not_elem_of_nil in H.
Qed.
End names.
