(* ===== verification/MibTreeAdd.v ===== *)
(** [TnmMibAddNode] on an existing tree: it ends, keeps the shape of the tree, and every
    node of the list is in the tree afterwards, unless its place is taken or its parent
    is not in the tree.  The first tree is built by [BuildTree]; a small MIB is used as an
    example. *)

From stdpp Require Import gmap sorting.
From S2P Require Import Prelude Ber CStr Oid OidTheorems Util Snmp Mib MibTree MibTreeInv MibTreeFind.
Local Open Scope Z_scope.

(** * Adding nodes *)

(** ** Searching for a plain name *)

Lemma plain_no_hex s : Forall (fun c => c <> chr_dot /\ c <> chr_colon /\ c <> chr_bang) s -> has_hex s = false.
Proof.
  induction 1 as [|c s (H1 & H2 & _) _ IH]; [done|]. cbn [has_hex]. rewrite IH, orb_false_r. apply bool_decide_eq_false_2. unfold hex_separator.
  rewrite !bool_decide_eq_false_2 by done. cbn. by intros [? ?].
Qed.

Lemma plain_not_oid s : plain_name s = true -> TnmIsOid s = false.
Proof.
  intros Hs. pose proof (plain_chars _ Hs) as Hc. pose proof (plain_no_number _ Hs) as Hn. unfold TnmIsOid. clear Hs.
  induction s as [|c s IH]; [done|]. apply Forall_cons in Hc as [(H1 & H2 & _) Hc]. cbn [length is_oid_loop]. rewrite !bool_decide_eq_false_2 by done. cbn [andb negb] in *.
  cbn [forallb] in Hn. destruct (isdigit c); [by apply IH|done].
Qed.

Lemma plain_split s : plain_name s = true -> split_module s = ([], s, O).
Proof.
  intros Hs. unfold split_module, module_end. rewrite !(plain_index s) by (done || tauto). destruct s as [|c s]; [done|]. by destruct (isupper c).
Qed.

Section find.
Context (roots : list nat) (st : mib_state) (K : tree_view) (F : list (list nat)).
Context (R : rep roots st K F) (Htree : mb_tree st = head roots).
#[local] Set Default Proof Using "Type*".

Definition found_by (name : cstring) (res : option nat) : Prop :=
  match res with Some q => linked K q /\ labelled st name q | None => forall q, linked K q -> ~ labelled st name q end.

Lemma check_module_none extra res offset name : found_by name res -> check_module st [] extra res offset = MibOk (res, offset).
Proof.
  destruct res as [q|]; [|done]. intros [_ (n & Hn & _)]. unfold check_module. rewrite (deref_node _ _ _ Hn). unfold mbind, mib_bind. by destruct (nd_moduleName n).
Qed.

Lemma search_plain name exact : plain_name name = true -> exists res offset, search_name st [] name exact = MibOk (res, offset) /\ found_by name res.
Proof.
  intros Hname. unfold search_name. assert (Hno : LookupLabelOID st name exact = MibOk None).
  { unfold LookupLabelOID. destruct exact; [done|]. rewrite (plain_index name chr_dot) by (done || by left). by destruct (mb_nodeHashTable st). }
  rewrite Hno, Htree. pose proof (LookupLabel_plain roots st K F R name exact (-1) Hname) as Hl. unfold mbind, mib_bind, option_bind.
  pose proof (rep_names _ _ _ _ R) as (_ & Hnames & _). unfold names_of in Hnames.
  destruct (mb_nodeHashTable st) as [T|]; cbn [default] in Hnames; [|done]. destruct (T !! name) as [[q|]|] eqn:HT; [|done..].
  exists (Some q), (-1). split; [done|]. by apply Hnames.
Qed.

Lemma find_plain name exact : plain_name name = true -> exists res offset, TnmMibFindNode st name exact = MibOk (res, offset) /\ found_by name res.
Proof.
  intros Hname. unfold TnmMibFindNode. rewrite plain_split by done. unfold TnmHexToOid. rewrite plain_no_hex by (by apply plain_chars). cbn [of_option]. unfold mbind, mib_bind, mret, mib_ret.
  cbn [from_option]. rewrite plain_not_oid by done. destruct (search_plain name exact Hname) as (res & offset & Hres & Hr). rewrite Hres. exists res, offset. split; [|done]. by eapply check_module_none.
Qed.
End find.

(** ** Filling the lists *)

(** A node that can be added: outside of the tree, with a plain name of its parent. *)
Definition loadable (st : mib_state) (K : tree_view) (p : nat) : Prop :=
  K !! p = None /\ exists n pn, mb_nodes st !! p = Some n /\ nd_parentName n = Some pn /\ plain_name pn = true /\ 0 <= HashNodeLabel pn.

Lemma rep_clear roots st K F : rep roots st K F -> rep roots (with_table (fun _ => replicate NODEHASHSIZE None) st) K (replicate NODEHASHSIZE []).
Proof.
  intros R. apply (tree_frame roots st K F); try done. intros i l Hi. apply lookup_replicate in Hi as [-> Hi]. exists None. split; [by apply lookup_replicate_2|]. by split.
Qed.

Lemma push_rep roots st K F p n pn first l : rep roots st K F -> K !! p = None -> ~ waiting F p -> mb_nodes st !! p = Some n -> nd_parentName n = Some pn -> 0 <= HashNodeLabel pn ->
  mb_nodehashtab st !! hash_slot pn = Some first -> F !! hash_slot pn = Some l ->
  rep roots (with_table <[hash_slot pn := Some p]> (with_nodes (alter (set_nextPtr first) p) st)) K (<[hash_slot pn := p :: l]> F).
Proof.
  intros R HK HF Hp Hpn Hh Hfirst Hl. pose proof (rep_table _ _ _ _ R) as [Ht HL]. pose proof (lookup_lt_Some _ _ _ Hl) as Hlt. pose proof (lookup_lt_Some _ _ _ Hfirst) as Hlt'.
  assert (Hcore : same_core (mb_nodes st) (alter (set_nextPtr first) p (mb_nodes st))) by (by apply same_core_alter).
  assert (Hch : forall i o l', F !! i = Some l' -> chain (mb_nodes st) o l' -> chain (alter (set_nextPtr first) p (mb_nodes st)) o l').
  { intros i o l' Hi Hc. eapply chain_frame; [done|]. apply Forall_forall. intros q Hq a Ha. exists a. rewrite lookup_alter_ne; [done|]. intros <-. apply HF. by exists i, l'. }
  apply (tree_frame roots st K F); [done|done| |by rewrite length_insert|by rewrite length_insert|].
  - intros q [v Hq]. cbn. apply lookup_alter_ne. intros <-. by rewrite HK in Hq.
  - intros i l' Hi. destruct (decide (i = hash_slot pn)) as [->|Hne].
    + rewrite list_lookup_insert_eq in Hi by done. injection Hi as <-. exists (Some p). split; [by apply list_lookup_insert_eq|].
      destruct (rep_free _ _ _ _ R _ _ Hl) as (o & Ho & Hc & Hf). rewrite Hfirst in Ho. injection Ho as <-. split.
      * split; [done|]. exists (set_nextPtr first n). split; [cbn; by rewrite lookup_alter_eq, Hp|]. cbn. by eapply Hch.
      * constructor; [|eapply Forall_impl; [done|]; intros q; by apply free_at_core]. split; [done|]. exists (set_nextPtr first n), pn. split; [cbn; by rewrite lookup_alter_eq, Hp|]. split; [done|].
        unfold hash_slot. lia.
    + rewrite list_lookup_insert_ne in Hi by done. destruct (rep_free _ _ _ _ R _ _ Hi) as (o & Ho & Hc & Hf). exists o. split; [by rewrite list_lookup_insert_ne|].
      split; [by eapply Hch|]. eapply Forall_impl; [done|]. intros q. by apply free_at_core.
Qed.

(** What filling the lists leaves. *)
Definition hashed (st : mib_state) (K : tree_view) (l : list nat) (st' : mib_state) (F F' : list (list nat)) : Prop :=
  same_core (mb_nodes st) (mb_nodes st') /\ mb_tree st' = mb_tree st /\ mb_nodeHashTable st' = mb_nodeHashTable st /\ (forall p, waiting F' p <-> waiting F p \/ p ∈ l).

Lemma hash_node_list_rep roots K l : forall fuel st F o, rep roots st K F -> chain (mb_nodes st) o l -> Forall (loadable st K) l -> Forall (fun p => ~ waiting F p) l -> (length l <= fuel)%nat ->
  exists st' F', hash_node_list fuel st o = MibOk st' /\ rep roots st' K F' /\ hashed st K l st' F F'.
Proof.
  induction l as [|p l IH]; intros fuel st F o R Hc Hl Hw Hf.
  { cbn in Hc. subst o. exists st, F. split; [by destruct fuel|]. split; [done|]. split; [done|]. split; [done|]. split; [done|]. intros q. set_solver. }
  pose proof (chain_NoDup _ _ _ Hc) as Hd. apply NoDup_cons in Hd as [Hp Hd]. destruct Hc as [-> (n & Hn & Hc)]. destruct fuel as [|fuel]; [cbn in Hf; lia|].
  apply Forall_cons in Hl as [(HK & n' & pn & Hn' & Hpn & Hplain & Hh) Hl]. rewrite Hn in Hn'. injection Hn' as <-. apply Forall_cons in Hw as [Hwp Hw].
  cbn [hash_node_list]. rewrite (deref_node _ _ _ Hn). unfold mbind, mib_bind. rewrite Hpn, hash_index_ok by done.
  pose proof (hash_bound pn) as Hb. pose proof (rep_table _ _ _ _ R) as [Ht HL]. unfold NODEHASHSIZE in *.
  destruct (lookup_lt_is_Some_2 (mb_nodehashtab st) (hash_slot pn) ltac:(unfold hash_slot; lia)) as [first Hfirst]. destruct (lookup_lt_is_Some_2 F (hash_slot pn) ltac:(unfold hash_slot; lia)) as [lf Hlf].
  rewrite Hfirst. cbn [of_option]. unfold mret, mib_ret. pose proof (push_rep _ _ _ _ _ _ _ _ _ R HK Hwp Hn Hpn Hh Hfirst Hlf) as R'.
  set (st1 := with_table <[hash_slot pn := Some p]> (with_nodes (alter (set_nextPtr first) p) st)) in *. set (F1 := <[hash_slot pn := p :: lf]> F) in *.
  assert (Hcore : same_core (mb_nodes st) (mb_nodes st1)) by (by apply same_core_alter).
  assert (Hw1 : forall q, waiting F1 q <-> waiting F q \/ q = p).
  { intros q. unfold waiting, F1. split.
    - intros (i & l' & Hi & Hq). destruct (decide (i = hash_slot pn)) as [->|Hne]; [|rewrite list_lookup_insert_ne in Hi by done; left; by exists i, l'].
      rewrite list_lookup_insert_eq in Hi by (by eapply lookup_lt_Some). injection Hi as <-. apply elem_of_cons in Hq as [->|Hq]; [by right|]. left. by exists (hash_slot pn), lf.
    - intros [(i & l' & Hi & Hq)| ->].
      + destruct (decide (i = hash_slot pn)) as [->|Hne]; [|exists i, l'; by rewrite list_lookup_insert_ne]. rewrite Hlf in Hi. injection Hi as <-.
        exists (hash_slot pn), (p :: lf). rewrite list_lookup_insert_eq by (by eapply lookup_lt_Some). split; [done|set_solver].
      + exists (hash_slot pn), (p :: lf). rewrite list_lookup_insert_eq by (by eapply lookup_lt_Some). split; [done|set_solver]. }
  destruct (IH fuel st1 F1 (nd_nextPtr n) R') as (st' & F' & He & R2 & Hcore2 & Htree & Hnames & Hw2).
  - eapply chain_frame; [done|]. apply Forall_forall. intros q Hq a Ha. exists a. cbn. rewrite lookup_alter_ne; [done|]. by intros <-.
  - apply (Forall_impl _ _ _ Hl). intros q (HKq & m & qn & Hm & Hqn & Hrest). split; [done|]. destruct (same_core_node _ _ _ _ Hcore Hm) as (m' & Hm' & Hcm). exists m', qn. split; [done|].
    apply core_fields in Hcm as (_ & _ & -> & _). done.
  - rewrite Forall_forall in Hw. apply Forall_forall. intros q Hq [?| ->]%Hw1; [by apply (Hw q)|done].
  - cbn in Hf. lia.
  - exists st', F'. split; [done|]. split; [done|]. split; [by eapply same_core_trans|]. split; [done|]. split; [done|]. intros q. rewrite Hw2, Hw1. set_solver.
Qed.

Lemma HashNodeList_rep roots st K F o l : rep roots st K F -> chain (mb_nodes st) o l -> Forall (loadable st K) l ->
  exists st' F', HashNodeList st o = MibOk st' /\ rep roots st' K F' /\ same_core (mb_nodes st) (mb_nodes st') /\ mb_tree st' = mb_tree st /\
    mb_nodeHashTable st' = mb_nodeHashTable st /\ (forall p, waiting F' p <-> p ∈ l).
Proof.
  intros R Hc Hl. assert (Hempty : forall p, ~ waiting (replicate NODEHASHSIZE []) p) by (intros p (i & l' & Hi & Hp); apply lookup_replicate in Hi as [-> _]; by apply not_elem_of_nil in Hp).
  destruct (hash_node_list_rep roots K l (steps st) _ _ o (rep_clear _ _ _ _ R)) as (st' & F' & He & R' & Hcore & Ht & Hn & Hw); [done|done|by apply Forall_forall|by eapply chain_length|].
  exists st', F'. split; [done|]. split; [done|]. split; [done|]. split; [done|]. split; [done|]. intros p. rewrite Hw. specialize (Hempty p). tauto.
Qed.

(** ** Nodes whose parents are known *)

Definition plain_waiting (st : mib_state) (F : list (list nat)) : Prop :=
  forall p n, waiting F p -> mb_nodes st !! p = Some n -> exists pn, nd_parentName n = Some pn /\ plain_name pn = true.

(** No node of the tree is the parent of the node [p]. *)
Definition orphan (st : mib_state) (K : tree_view) (p : nat) : Prop :=
  exists n pn, mb_nodes st !! p = Some n /\ nd_parentName n = Some pn /\ forall q, linked K q -> ~ labelled st pn q.

Lemma waiting_concat F p : waiting F p <-> p ∈ concat F.
Proof.
  split.
  - intros (i & l & Hi & Hp). apply list_elem_of_In, in_concat. exists l. split; apply list_elem_of_In; [by eapply list_elem_of_lookup_2|done].
  - intros Hp. apply list_elem_of_In, in_concat in Hp as (l & Hl & Hp). apply list_elem_of_In in Hl. apply list_elem_of_In in Hp. apply list_elem_of_lookup in Hl as (i & Hi). by exists i, l.
Qed.

Section known.
Context (roots : list nat) (st : mib_state) (K : tree_view) (F : list (list nat)).
Context (R : rep roots st K F) (Htree : mb_tree st = head roots) (Hplain : plain_waiting st F).
#[local] Set Default Proof Using "Type*".

Definition parent_found (l : list nat) (res : option nat) : Prop :=
  match res with
  | Some tree => linked K tree /\ exists p n, p ∈ l /\ mb_nodes st !! tree = Some n /\ waits_for st (nd_label n) p
  | None => Forall (orphan st K) l
  end.

Lemma chain_parent_spec l : forall fuel o, chain (mb_nodes st) o l -> Forall (waiting F) l -> (length l <= fuel)%nat ->
  exists res, chain_parent fuel st o = MibOk res /\ parent_found l res.
Proof.
  induction l as [|p l IH]; intros fuel o Hc Hw Hf; [cbn in Hc; subst o; exists None; split; [by destruct fuel|constructor]|].
  destruct Hc as [-> (n & Hn & Hc)]. apply Forall_cons in Hw as [Hp Hw]. destruct fuel as [|fuel]; [cbn in Hf; lia|]. destruct (Hplain p n Hp Hn) as (pn & Hpn & Hpl).
  cbn [chain_parent]. rewrite (deref_node _ _ _ Hn). unfold mbind, mib_bind. rewrite Hpn. cbn [of_option]. unfold mret, mib_ret.
  destruct (find_plain roots st K F R Htree pn true Hpl) as (res & offset & Hres & Hr). rewrite Hres. destruct res as [q|].
  - exists (Some q). split; [done|]. destruct Hr as [Hq (m & Hm & Hlab)]. split; [done|]. exists p, m. split; [set_solver|]. split; [done|]. exists n. by rewrite Hlab.
  - destruct (IH fuel _ Hc Hw) as (res & Hres' & Hr'); [cbn in Hf; lia|]. exists res. split; [done|]. destruct res as [t|].
    + destruct Hr' as (Ht & a & m & Ha & Hrest). split; [done|]. exists a, m. split; [set_solver|done].
    + constructor; [|done]. by exists n, pn.
Qed.

Lemma table_parent_spec : forall tab L, length tab = length L -> (forall i o l, tab !! i = Some o -> L !! i = Some l -> chain (mb_nodes st) o l /\ Forall (waiting F) l) ->
  exists res, table_parent st tab = MibOk res /\ parent_found (concat L) res.
Proof.
  induction tab as [|o tab IH]; intros [|l L] Hlen Hall; try done; [exists None; split; [done|constructor]|]. destruct (Hall O o l eq_refl eq_refl) as [Hc Hw].
  destruct (chain_parent_spec l (steps st) o Hc Hw (chain_length _ _ _ Hc)) as (res & Hres & Hr). cbn [table_parent]. unfold mbind, mib_bind. rewrite Hres. destruct res as [t|].
  - exists (Some t). split; [done|]. destruct Hr as (Ht & a & m & Ha & Hrest). split; [done|]. exists a, m. split; [cbn; set_solver|done].
  - destruct (IH L) as (res & Hres' & Hr'); [by injection Hlen|intros i; exact (Hall (S i))|]. exists res. split; [done|]. destruct res as [t|].
    + destruct Hr' as (Ht & a & m & Ha & Hrest). split; [done|]. exists a, m. split; [cbn; set_solver|done].
    + cbn. by apply Forall_app.
Qed.

Lemma known_parent : exists res, table_parent st (mb_nodehashtab st) = MibOk res /\ parent_found (concat F) res.
Proof.
  pose proof (rep_table _ _ _ _ R) as [Ht HL]. apply table_parent_spec; [congruence|]. intros i o l Hi Hl. destruct (rep_free _ _ _ _ R _ _ Hl) as (o' & Ho' & Hc & _).
  rewrite Hi in Ho'. injection Ho' as <-. split; [done|]. apply Forall_forall. intros p Hp. by exists i, l.
Qed.

(** The messages: one for each node that is left. *)
Lemma report_chain_spec l : forall fuel o, chain (mb_nodes st) o l -> Forall (waiting F) l -> (length l <= fuel)%nat -> exists msgs, report_chain fuel st o = MibOk msgs /\ length msgs = length l.
Proof.
  induction l as [|p l IH]; intros fuel o Hc Hw Hf; [cbn in Hc; subst o; exists []; split; [by destruct fuel|done]|].
  destruct Hc as [-> (n & Hn & Hc)]. apply Forall_cons in Hw as [Hp Hw]. destruct fuel as [|fuel]; [cbn in Hf; lia|]. destruct (Hplain p n Hp Hn) as (pn & Hpn & _).
  cbn [report_chain]. rewrite (deref_node _ _ _ Hn). unfold mbind, mib_bind. rewrite Hpn. cbn [of_option]. unfold mret, mib_ret.
  destruct (IH fuel _ Hc Hw) as (msgs & -> & Hlen); [cbn in Hf; lia|]. eexists. split; [reflexivity|]. cbn. by rewrite Hlen.
Qed.

Lemma report_spec : exists msgs, report_table st (mb_nodehashtab st) = MibOk msgs /\ length msgs = length (concat F).
Proof.
  pose proof (rep_table _ _ _ _ R) as [Ht HL].
  assert (Hall : forall tab L, length tab = length L -> (forall i o l, tab !! i = Some o -> L !! i = Some l -> chain (mb_nodes st) o l /\ Forall (waiting F) l) ->
    exists msgs, report_table st tab = MibOk msgs /\ length msgs = length (concat L)).
  { induction tab as [|o tab IH]; intros [|l L] Hlen Hall; try done; [by exists []|]. destruct (Hall O o l eq_refl eq_refl) as [Hc Hw].
    destruct (report_chain_spec l (steps st) o Hc Hw (chain_length _ _ _ Hc)) as (m1 & H1 & L1). destruct (IH L) as (m2 & H2 & L2); [by injection Hlen|intros i; exact (Hall (S i))|].
    cbn [report_table]. unfold mbind, mib_bind. rewrite H1, H2. eexists. split; [reflexivity|]. cbn. rewrite !length_app. lia. }
  apply Hall; [congruence|]. intros i o l Hi Hl. destruct (rep_free _ _ _ _ R _ _ Hl) as (o' & Ho' & Hc & _).
  rewrite Hi in Ho'. injection Ho' as <-. split; [done|]. apply Forall_forall. intros p Hp. by exists i, l.
Qed.
End known.

Lemma plain_waiting_evolve st K F st' K' F' : plain_waiting st F -> evolve st K F st' K' F' -> plain_waiting st' F'.
Proof.
  intros Hp E p n Hw Hn. destruct (same_core_back _ _ _ _ (ev_core _ _ _ _ _ _ E) Hn) as (m & Hm & Hc). apply core_fields in Hc as (_ & _ & -> & _).
  apply (Hp p m); [by apply (ev_sub _ _ _ _ _ _ E)|done].
Qed.

Lemma build_known_spec roots : forall fuel st K F, rep roots st K F -> mb_tree st = head roots -> plain_waiting st F -> (length (concat F) <= fuel)%nat ->
  exists st' K' F', build_known fuel st = MibOk st' /\ rep roots st' K' F' /\ evolve st K F st' K' F' /\ plain_waiting st' F' /\ (forall p, waiting F' p -> orphan st' K' p).
Proof.
  induction fuel as [|fuel IH]; intros st K F R Ht Hp Hf; destruct (known_parent roots st K F R Ht Hp) as (res & Hres & Hr); cbn [build_known]; rewrite Hres; unfold mbind, mib_bind;
    (destruct res as [t|]; [destruct Hr as (Hlt & p & n & Hin & Hn & Hw)|
      exists st, K, F; split; [done|]; split; [done|]; split; [apply evolve_refl|]; split; [done|]; intros p Hw; cbn in Hr; rewrite Forall_forall in Hr; by apply Hr, waiting_concat]).
  - apply list_elem_of_In, in_split in Hin as (? & ? & E). rewrite E, length_app in Hf. cbn in Hf. lia.
  - destruct (BuildSubTree_rep roots st K F t n R Hlt Hn) as (st1 & K1 & F1 & Hb & R1 & E1 & Hless). rewrite Hb.
    assert (Hless' : (length (concat F1) < length (concat F))%nat) by (apply Hless; exists p; split; [by apply waiting_concat|done]).
    destruct (IH st1 K1 F1 R1) as (st2 & K2 & F2 & Hb2 & R2 & E2 & Hp2 & Ho2); [by rewrite (ev_tree _ _ _ _ _ _ E1)|by eapply plain_waiting_evolve|lia|].
    exists st2, K2, F2. split; [done|]. split; [done|]. split; [by eapply evolve_trans|]. by split.
Qed.

(** ** Adding nodes *)

Lemma last_node_spec st l : forall fuel p, chain (mb_nodes st) (Some p) (p :: l) -> (length l <= fuel)%nat -> exists q, last_node fuel st p = MibOk q /\ q ∈ p :: l.
Proof.
  induction l as [|q l IH]; intros fuel p [_ (n & Hn & Hc)] Hf.
  - exists p. cbn in Hc. split; [|set_solver]. destruct fuel; cbn [last_node]; rewrite (deref_node _ _ _ Hn); unfold mbind, mib_bind; by rewrite Hc.
  - destruct fuel as [|fuel]; [cbn in Hf; lia|]. pose proof Hc as [Hq _]. cbn [last_node]. rewrite (deref_node _ _ _ Hn). unfold mbind, mib_bind. rewrite Hq in Hc |- *.
    destruct (IH fuel q Hc) as (t & -> & Ht); [cbn in Hf; lia|]. exists t. split; [done|]. set_solver.
Qed.

Lemma messages_state msgs : forall st, fold_left (fun st msg => with_message msg st) msgs st =
  mkMib (mb_nodes st) (mb_nodehashtab st) (mb_nodeHashTable st) (mb_tree st) (mb_fileName st) (mb_stderr st ++ msgs).
Proof. induction msgs as [|m msgs IH]; intros st; cbn; [rewrite app_nil_r; by destruct st|]. rewrite IH. cbn. by rewrite <- app_assoc. Qed.

Lemma rep_messages roots st K F msgs : rep roots st K F -> rep roots (fold_left (fun st msg => with_message msg st) msgs st) K F.
Proof. intros [R0 R1 R2 R3 R4 R5 R6]. rewrite messages_state. by constructor. Qed.

(** What [TnmMibAddNode] does. *)
Lemma TnmMibAddNode_rep roots st K F first l : rep roots st K F -> mb_tree st = head roots -> is_Some (mb_tree st) ->
  chain (mb_nodes st) (Some first) l -> Forall (loadable st K) l ->
  exists code st' K' F', TnmMibAddNode st (Some first) = MibOk (code, st') /\ rep roots st' K' F' /\ mb_tree st' = mb_tree st /\ same_core (mb_nodes st) (mb_nodes st') /\
    (forall p o kids, K !! p = Some (o, kids) -> exists kids', K' !! p = Some (o, kids') /\ kids ⊆ kids') /\
    (forall p, p ∈ l -> linked K' p \/ lost st' K' F' p \/ waiting F' p /\ orphan st' K' p) /\ (code = 0 <-> forall p, ~ waiting F' p) /\ (code = 0 \/ code = -1).
Proof.
  intros R Ht [root Hroot] Hc Hl. assert (Hp : exists l', l = first :: l') by (destruct l; [done|]; destruct Hc as [[= ->] _]; by eexists). destruct Hp as [l' ->].
  unfold TnmMibAddNode. rewrite Hroot. unfold mbind, mib_bind, mret, mib_ret. destruct (last_node_spec st l' (steps st) first Hc) as (q & -> & Hq); [pose proof (chain_length _ _ _ Hc) as H; cbn in H; unfold steps; lia|].
  pose proof Hl as Hl'. rewrite Forall_forall in Hl'. destruct (Hl' q Hq) as (_ & n & pn & Hn & Hpn & Hplain & _). rewrite (deref_node _ _ _ Hn), Hpn. cbn [of_option]. unfold mret, mib_ret.
  destruct (find_plain roots st K F R Ht pn true Hplain) as (tree & offset & -> & Htree).
  destruct (HashNodeList_rep roots st K F (Some first) _ R Hc Hl) as (st1 & F1 & -> & R1 & C1 & T1 & N1 & W1).
  assert (P1 : plain_waiting st1 F1).
  { intros p m Hw Hm. destruct (Hl' p) as (_ & a & b & Ha & Hb & Hpl & _); [by apply W1|]. destruct (same_core_back _ _ _ _ C1 Hm) as (a' & Ha' & Hca). rewrite Ha in Ha'. injection Ha' as <-.
    apply core_fields in Hca as (_ & _ & -> & _). by exists b. }
  assert (Hbuild : exists st2 K2 F2, match tree with Some tree => BuildSubTree st1 tree | None => MibOk st1 end = MibOk st2 /\ rep roots st2 K2 F2 /\ evolve st1 K F1 st2 K2 F2).
  { destruct tree as [t|]; [|exists st1, K, F1; split; [done|]; split; [done|]; apply evolve_refl]. destruct Htree as [Hlt _]. destruct (rep_linked_node _ _ _ _ _ R1 Hlt) as (m & Hm).
    destruct (BuildSubTree_rep roots st1 K F1 t m R1 Hlt Hm) as (st2 & K2 & F2 & ? & ? & ? & _). by exists st2, K2, F2. }
  destruct Hbuild as (st2 & K2 & F2 & -> & R2 & E2).
  destruct (build_known_spec roots (steps st2) st2 K2 F2 R2) as (st3 & K3 & F3 & -> & R3 & E3 & P3 & O3); [rewrite (ev_tree _ _ _ _ _ _ E2); congruence|by eapply plain_waiting_evolve|by eapply waiting_count|].
  pose proof (evolve_trans _ _ _ _ _ _ _ _ _ E2 E3) as E. assert (T3 : mb_tree st3 = head roots) by (rewrite (ev_tree _ _ _ _ _ _ E); congruence).
  destruct (report_spec roots st3 K3 F3 R3 T3 P3) as (msgs & -> & Hlen).
  eexists _, _, K3, F3. split; [reflexivity|]. split; [by apply rep_messages|]. rewrite messages_state. split; [cbn; rewrite (ev_tree _ _ _ _ _ _ E); congruence|].
  split; [exact (same_core_trans _ _ _ C1 (ev_core _ _ _ _ _ _ E))|]. split; [apply (ev_linked _ _ _ _ _ _ E)|]. split.
  - intros p Hp. destruct (ev_free _ _ _ _ _ _ E p) as [Hw|[Hlk|Hlo]]; [by apply W1| |by left|by right; left]. right. right. split; [done|]. by apply O3.
  - split; [|case_bool_decide; [by left|by right]]. case_bool_decide as Hm.
    + subst msgs. split; [|done]. intros _ p Hw. apply waiting_concat in Hw. destruct (concat F3); [by apply not_elem_of_nil in Hw|done].
    + split; [done|]. intros Hno. destruct (concat F3) as [|p c] eqn:Ec; [by destruct msgs|]. exfalso. apply (Hno p). apply waiting_concat. rewrite Ec. set_solver.
Qed.

(** C12: Adding a list of nodes to an existing MIB tree ends without an access outside of
    memory.  The tree keeps its shape: the children of a node are sorted by their
    subidentifiers, point to it and carry its label as the name of their parent, and the
    table of names leads to nodes of the tree.  Nodes that were in the tree keep their
    object identifiers and children.  Every node of the list is in the tree afterwards,
    or a node with its object identifier was there, or no node of the tree is its
    parent; the result is 0 if the last case does not occur. *)
Theorem mib_add_nodes roots st K F first l : rep roots st K F -> mb_tree st = head roots -> is_Some (mb_tree st) ->
  chain (mb_nodes st) (Some first) l -> Forall (loadable st K) l ->
  exists code st' K' F', TnmMibAddNode st (Some first) = MibOk (code, st') /\ rep roots st' K' F' /\ mb_tree st' = mb_tree st /\ same_core (mb_nodes st) (mb_nodes st') /\
    (forall p o kids, K !! p = Some (o, kids) -> exists kids', K' !! p = Some (o, kids') /\ kids ⊆ kids') /\
    (forall p, p ∈ l -> linked K' p \/ lost st' K' F' p \/ waiting F' p /\ orphan st' K' p) /\ (code = 0 <-> forall p, ~ waiting F' p).
Proof.
  intros R Ht Hroot Hc Hl. destruct (TnmMibAddNode_rep roots st K F first l R Ht Hroot Hc Hl) as (code & st' & K' & F' & H1 & H2 & H3 & H4 & H5 & H6 & H7 & _). by exists code, st', K', F'.
Qed.

(** * The first tree and an example *)

Section first_tree.
Context (st : mib_state) (F : list (list nat)) (R : rep [] st ∅ F) (a b c : nat).
Context (Ha : mb_nodes st !! a = None) (Hb : mb_nodes st !! b = None) (Hc : mb_nodes st !! c = None) (Hab : a <> b) (Hac : a <> c) (Hbc : b <> c).
#[local] Set Default Proof Using "All".

Definition first_nodes (nodes : gmap nat TnmMibNode) : gmap nat TnmMibNode :=
  <[a := root_node "ccitt" 0 (Some b)]> (<[b := root_node "iso" 1 (Some c)]> (<[c := root_node "joint-iso-ccitt" 2 None]> nodes)).
Definition first_view : tree_view := <[a := ([0], [])]> (<[b := ([1], [])]> (<[c := ([2], [])]> ∅)).

Lemma first_old p n : mb_nodes st !! p = Some n -> first_nodes (mb_nodes st) !! p = Some n /\ first_view !! p = None.
Proof. intros Hp. unfold first_nodes, first_view. rewrite !lookup_insert_ne by congruence. by rewrite lookup_empty. Qed.

Lemma first_cases p o l : first_view !! p = Some (o, l) -> l = [] /\ ((p = a /\ o = [0]) \/ (p = b /\ o = [1]) \/ (p = c /\ o = [2])).
Proof.
  unfold first_view. rewrite !lookup_insert_Some, lookup_empty. intros [[<- [= <- <-]]|[_ [[<- [= <- <-]]|[_ [[<- [= <- <-]]|[_ ?]]]]]]; [tauto..|done].
Qed.

Lemma first_a : first_nodes (mb_nodes st) !! a = Some (root_node "ccitt" 0 (Some b)).
Proof. unfold first_nodes. by rewrite lookup_insert_eq. Qed.
Lemma first_b : first_nodes (mb_nodes st) !! b = Some (root_node "iso" 1 (Some c)).
Proof. unfold first_nodes. by rewrite lookup_insert_ne, lookup_insert_eq. Qed.
Lemma first_c : first_nodes (mb_nodes st) !! c = Some (root_node "joint-iso-ccitt" 2 None).
Proof. unfold first_nodes. rewrite lookup_insert_ne, lookup_insert_ne by done. by rewrite lookup_insert_eq. Qed.

Lemma first_tree_rep : rep [a; b; c] (with_nodes first_nodes st) first_view F.
Proof.
  destruct R as [R0 R1 R2 _ _ _ (N1 & N2 & _)].
  assert (Hsub : subid_of (first_nodes (mb_nodes st)) <$> [a; b; c] = [0; 1; 2]) by (cbn; unfold subid_of; by rewrite first_a, first_b, first_c).
  constructor; cbn.
  - intros p n. unfold first_nodes. rewrite !lookup_insert_Some. intros [[_ <-]|[_ [[_ <-]|[_ [[_ <-]|[_ ?]]]]]]; [by repeat split; vm_compute..|by eapply R0].
  - done.
  - intros i l Hi. destruct (R2 _ _ Hi) as (o & Ho & Hch & Hf). exists o. split; [done|]. split.
    + eapply chain_frame; [done|]. eapply Forall_impl; [done|]. intros q _ n Hn. exists n. split; [|done]. by apply first_old.
    + eapply Forall_impl; [done|]. intros q (_ & n & pn & Hn & Hrest). destruct (first_old q n Hn) as [H1 H2]. split; [done|]. by exists n, pn.
  - split; [|split].
    + split; [done|]. eexists. split; [exact first_a|]. split; [done|]. eexists. split; [exact first_b|]. split; [done|]. eexists. split; [exact first_c|]. done.
    + unfold by_subid. rewrite Hsub. repeat constructor.
    + repeat constructor; eexists _, []; (split; [first [exact first_a|exact first_b|exact first_c]|]); (split; [done|]); unfold first_view; cbn; by simplify_map_eq.
  - intros r o l [-> Hr]%first_cases. destruct Hr as [[-> ->]|[[-> ->]|[-> ->]]]; eexists; (split; [first [exact first_a|exact first_b|exact first_c]|]); (split; [done|]); (split; constructor).
  - intros p [[o l] [-> Hp]%first_cases]. destruct Hp as [[-> _]|[[-> _]|[-> _]]]; eexists; (split; [first [exact first_a|exact first_b|exact first_c]|]); cbn; set_solver.
  - split; [|split].
    + intros name (p & n & Hp & Hn)%N1. exists p, n. split; [|done]. by apply first_old.
    + intros name q Hq. destruct (N2 _ _ Hq) as [[? H] _]. by rewrite lookup_empty in H.
    + intros q n [[o l] [_ Hq]%first_cases] Hr. exfalso. apply Hr. destruct Hq as [[-> _]|[[-> _]|[-> _]]]; set_solver.
Qed.
End first_tree.

Lemma with_nodes_twice f g st : with_nodes f (with_nodes g st) = with_nodes (fun m => f (g m)) st.
Proof. done. Qed.

(** The tree is built out of three roots and the nodes below them. *)
Lemma BuildTree_rep st F o l : rep [] st ∅ F -> chain (mb_nodes st) o l -> Forall (loadable st ∅) l ->
  exists root roots st' K' F', BuildTree st o = MibOk (root, st') /\ head roots = Some root /\ length roots = 3%nat /\ rep roots st' K' F' /\
    mb_tree st' = mb_tree st /\ forall p, p ∈ l -> linked K' p \/ lost st' K' F' p \/ waiting F' p.
Proof.
  intros R Hch Hl. destruct (HashNodeList_rep [] st ∅ F o l R Hch Hl) as (st1 & F1 & He & R1 & C1 & T1 & N1 & W1). unfold BuildTree. rewrite He. unfold mbind, mib_bind.
  unfold new_node. set (c := fresh (dom (mb_nodes st1))).
  set (st2 := with_nodes <[c := root_node "joint-iso-ccitt" 2 None]> st1). set (b := fresh (dom (mb_nodes st2))).
  set (st3 := with_nodes <[b := root_node "iso" 1 (Some c)]> st2). set (a := fresh (dom (mb_nodes st3))).
  assert (Hc : mb_nodes st1 !! c = None) by (apply not_elem_of_dom, is_fresh).
  assert (Hb2 : mb_nodes st2 !! b = None) by (apply not_elem_of_dom, is_fresh). assert (Ha3 : mb_nodes st3 !! a = None) by (apply not_elem_of_dom, is_fresh).
  cbn in Hb2, Ha3. rewrite lookup_insert_None in Hb2. rewrite !lookup_insert_None in Ha3. destruct Hb2 as [Hb Hcb]. destruct Ha3 as [[Ha Hca] Hba].
  pose proof (first_tree_rep st1 F1 R1 a b c Ha Hb Hc ltac:(congruence) ltac:(congruence) ltac:(congruence)) as R4.
  change (with_nodes <[a := root_node "ccitt" 0 (Some b)]> st3) with (with_nodes (first_nodes a b c) st1). set (st4 := with_nodes (first_nodes a b c) st1) in *. set (K4 := first_view a b c) in *.
  assert (Hstep : forall st K F p, rep [a; b; c] st K F -> linked K p -> exists st' K' F', BuildSubTree st p = MibOk st' /\ rep [a; b; c] st' K' F' /\ evolve st K F st' K' F').
  { intros s K G p Rs Hp. destruct (rep_linked_node _ _ _ _ _ Rs Hp) as (n & Hn). destruct (BuildSubTree_rep [a; b; c] s K G p n Rs Hp Hn) as (s' & K' & G' & ? & ? & ? & _). by exists s', K', G'. }
  assert (Hkeep : forall s K G s' K' G' p, evolve s K G s' K' G' -> linked K p -> linked K' p).
  { intros s K G s' K' G' p E [[op lp] Hp]. destruct (ev_linked _ _ _ _ _ _ E _ _ _ Hp) as (l' & ? & _). by eexists. }
  assert (Hroots : Forall (linked K4) [a; b; c]). { destruct (rep_roots _ _ _ _ R4) as (_ & _ & Hr). eapply Forall_impl; [exact Hr|]. intros q (? & ? & _ & _ & ?). by eexists. }
  rewrite !Forall_cons in Hroots. destruct Hroots as (La & Lb & Lc & _).
  destruct (Hstep _ _ _ a R4 La) as (st5 & K5 & F5 & -> & R5 & E5). destruct (Hstep _ _ _ b R5 (Hkeep _ _ _ _ _ _ _ E5 Lb)) as (st6 & K6 & F6 & -> & R6 & E6).
  pose proof (evolve_trans _ _ _ _ _ _ _ _ _ E5 E6) as E56. destruct (Hstep _ _ _ c R6 (Hkeep _ _ _ _ _ _ _ E56 Lc)) as (st7 & K7 & F7 & -> & R7 & E7).
  pose proof (evolve_trans _ _ _ _ _ _ _ _ _ E56 E7) as E. exists a, [a; b; c], st7, K7, F7. split; [done|]. split; [done|]. split; [done|]. split; [done|].
  split; [rewrite (ev_tree _ _ _ _ _ _ E); done|]. intros p Hp. apply W1 in Hp. destruct (ev_free _ _ _ _ _ _ E p Hp); tauto.
Qed.

(** ** A small MIB *)

Definition sample_node (label parent : string) (subid : Z) (up child next : option nat) : TnmMibNode :=
  mkNode subid (cstr label) (Some (cstr parent)) (Some (cstr "TEST-MIB")) None 0 ASN1_OTHER 0 0 0 false false None None up child next.

(** Four nodes to be added, the first one of the file at the end. *)
Definition sample_list : gmap nat TnmMibNode := list_to_map
  [(0%nat, sample_node "sysDescr" "system" 1 None None (Some 1%nat)); (1%nat, sample_node "system" "mib-2" 1 None None (Some 2%nat));
   (2%nat, sample_node "mib-2" "internet" 2 None None (Some 3%nat)); (3%nat, sample_node "internet" "iso" 3 None None None)].

Definition sample_state : mib_state := mkMib sample_list (replicate NODEHASHSIZE None) None None None [].

(** The roots and the nodes that are to be added. *)
Definition sample_start : mib_state := with_tree (Some 10%nat) (with_nodes (first_nodes 10 11 12) sample_state).

Lemma rep_with_tree roots st K F p : rep roots st K F -> rep roots (with_tree p st) K F.
Proof. intros [R0 R1 R2 R3 R4 R5 R6]. by constructor. Qed.

#[global] Instance node_ok_dec n : Decision (node_ok n).
Proof. unfold node_ok. apply _. Defined.

Lemma sample_state_rep : rep [] sample_state ∅ (replicate NODEHASHSIZE []).
Proof.
  constructor; cbn [mb_nodes mb_nodehashtab sample_state].
  - assert (H : map_Forall (fun _ n => node_ok n) sample_list) by (apply (bool_decide_unpack _); by vm_compute). exact H.
  - done.
  - intros i l Hi. apply lookup_replicate in Hi as [-> Hi]. exists None. split; [by apply lookup_replicate_2|]. by split.
  - split; [done|]. split; constructor.
  - intros r o l H. by rewrite lookup_empty in H.
  - intros p [? H]. by rewrite lookup_empty in H.
  - assert (names_of sample_state = ∅) as -> by done. split; [|split].
    + intros name [? H]. by rewrite lookup_empty in H.
    + intros name q H. by rewrite lookup_empty in H.
    + intros q n [? H]. by rewrite lookup_empty in H.
Qed.

Lemma sample_start_rep : rep [10%nat; 11%nat; 12%nat] sample_start (first_view 10 11 12) (replicate NODEHASHSIZE []).
Proof. apply rep_with_tree. by apply first_tree_rep; [apply sample_state_rep|..]. Qed.

(** A tree with two nodes below [iso]. *)
Definition sample_tree : mib_state :=
  mkMib (list_to_map
    [(10%nat, root_node "ccitt" 0 (Some 11%nat));
     (11%nat, mkNode 1 (cstr "iso") (Some (cstr "(unknown)")) None None 0 ASN1_OBJECT_IDENTIFIER 0 0 0 false false None None None (Some 3%nat) (Some 12%nat));
     (12%nat, root_node "joint-iso-ccitt" 2 None);
     (3%nat, sample_node "internet" "iso" 3 (Some 11%nat) (Some 2%nat) None);
     (2%nat, sample_node "mib-2" "internet" 2 (Some 3%nat) None None)])
    (replicate NODEHASHSIZE None) (Some (list_to_map [(cstr "internet", Some 3%nat); (cstr "mib-2", Some 2%nat)])) (Some 10%nat) None [].

Definition sample_view : tree_view := list_to_map
  [(10%nat, ([0], [])); (11%nat, ([1], [3%nat])); (12%nat, ([2], [])); (3%nat, ([1; 3], [2%nat])); (2%nat, ([1; 3; 2], []))].

(** Each entry of a map that is given by a list. *)
Lemma map_cases {A} (P : nat -> A -> Prop) (l : list (nat * A)) : Forall (fun '(k, v) => P k v) l -> forall k v, (list_to_map l : gmap nat A) !! k = Some v -> P k v.
Proof. intros H k v Hk. apply elem_of_list_to_map_2 in Hk. rewrite Forall_forall in H. by apply (H (k, v)). Qed.

Lemma sample_tree_rep : rep [10%nat; 11%nat; 12%nat] sample_tree sample_view (replicate NODEHASHSIZE []).
Proof.
  constructor; cbn [mb_nodes mb_nodehashtab sample_tree].
  - apply (map_cases (fun _ n => node_ok n)). apply (bool_decide_unpack _). by vm_compute.
  - done.
  - intros i l Hi. apply lookup_replicate in Hi as [-> Hi]. exists None. split; [by apply lookup_replicate_2|]. by split.
  - split; [|split].
    + repeat (split; [done|]; eexists; split; [reflexivity|]). done.
    + repeat constructor.
    + repeat constructor; eexists _, _; by repeat split.
  - assert (H : forall r ol, sample_view !! r = Some ol -> kids_ok (mb_nodes sample_tree) sample_view r ol.1 ol.2); [|intros r o l Hr; exact (H r (o, l) Hr)].
    apply (map_cases (fun r ol => kids_ok _ _ r ol.1 ol.2)). repeat constructor; (eexists; split; [reflexivity|]); (split; [cbn; eauto|]); (split; [repeat constructor|]); repeat constructor; eexists _, _; by repeat split.
  - assert (H : forall p (ol : list Z * list nat), sample_view !! p = Some ol -> up_ok (mb_nodes sample_tree) sample_view [10%nat; 11%nat; 12%nat] p); [|intros p [ol Hp]; exact (H p ol Hp)].
    apply (map_cases (fun p _ => up_ok _ _ _ p)). repeat constructor; (eexists; split; [reflexivity|]); cbn; first [set_solver|eexists _, _; split; [reflexivity|set_solver]].
  - split; [|split].
    + intros name [v Hv]. apply elem_of_list_to_map_2 in Hv. apply elem_of_cons in Hv as [[= -> ->]|Hv]; [by eexists 3%nat, _|]. apply list_elem_of_singleton in Hv as [= -> ->]. by eexists 2%nat, _.
    + intros name q Hv. apply elem_of_list_to_map_2 in Hv. apply elem_of_cons in Hv as [[= -> ->]|Hv]; [split; [by eexists|by eexists]|]. apply list_elem_of_singleton in Hv as [= -> ->]. split; [by eexists|by eexists].
    + intros q n [ol Hq] Hr Hn. revert Hr n Hn. revert q ol Hq. apply (map_cases (fun q _ => q ∉ _ -> forall n, _ !! q = Some n -> _)).
      do 5 (apply Forall_cons; split; [intros Hr n Hn; first [exfalso; apply Hr; set_solver|vm_compute in Hn; injection Hn as <-; left; reflexivity]|]). constructor.
Qed.

Lemma mib_add_nodes_witness : exists code st' K' F', TnmMibAddNode sample_start (Some 0%nat) = MibOk (code, st') /\ rep [10%nat; 11%nat; 12%nat] st' K' F' /\
  mb_tree st' = Some 10%nat /\ same_core (mb_nodes sample_start) (mb_nodes st') /\
  (forall p o kids, first_view 10 11 12 !! p = Some (o, kids) -> exists kids', K' !! p = Some (o, kids') /\ kids ⊆ kids') /\
  (forall p, p ∈ [0%nat; 1%nat; 2%nat; 3%nat] -> linked K' p \/ lost st' K' F' p \/ waiting F' p /\ orphan st' K' p) /\ (code = 0 <-> forall p, ~ waiting F' p).
Proof.
  apply (mib_add_nodes [10%nat; 11%nat; 12%nat] sample_start (first_view 10 11 12) (replicate NODEHASHSIZE []) 0%nat [0%nat; 1%nat; 2%nat; 3%nat]).
  - exact sample_start_rep.
  - reflexivity.
  - by eexists.
  - repeat (split; [reflexivity|]; eexists; split; [reflexivity|]). reflexivity.
  - repeat constructor; eexists _, _; repeat split; by vm_compute.
Defined.
