(* ===== verification/MibNames.v ===== *)
(** Names, object identifiers, descriptions and values of MIB nodes: the procedures of
    [tnmMibUtil.c] that look a node up.  They write to the static [oidBuffer], which has
    [TNM_OID_MAX_SIZE * 8] characters; what does not fit is the outcome [MibOverrun]. *)

From stdpp Require Import gmap.
From S2P Require Import Prelude Ber CStr Oid Util Obj Snmp Mib Hint MibTree.
Local Open Scope Z_scope.

(** [FormatUnsigned(u, s)] with [s] at the end of [buf]; its loops are those of
    [TnmOidToStr]. *)
Definition FormatUnsigned (u : Z) (buf : cstring) : option cstring :=
  buf ← oid_str_component u buf;
  if decide (length buf < OID_STR_SIZE)%nat then Some buf else None.

(** [GetMibPath(nodePtr, oidBuffer)] *)
Fixpoint GetMibPath (fuel : nat) (st : mib_state) (nodePtr : nat) : mib_out cstring :=
  match fuel with
  | O => MibFault MibLoops
  | S fuel =>
      n ← deref st nodePtr;
      buf ← match nd_parentPtr n with
            | None => mret []
            | Some parent => buf ← GetMibPath fuel st parent; of_option MibOverrun (oid_putc chr_dot buf)
            end;
      of_option MibOverrun (FormatUnsigned (nd_subid n) buf)
  end.

(** An object identifier that is too long stays as it is; [NULL] is used after it has
    been checked. *)
Fixpoint TnmMibNodeToOid (fuel : nat) (st : mib_state) (nodePtr : option nat) (oid : TnmOid) : mib_out TnmOid :=
  match fuel with
  | O => MibFault MibLoops
  | S fuel =>
      match nodePtr with
      | None => MibFault MibNull
      | Some p =>
          n ← deref st p;
          oid ← match nd_parentPtr n with
                | None => mret oid
                | Some parent => TnmMibNodeToOid fuel st (Some parent) oid
                end;
          '(_, oid) ← of_option MibOverrun (TnmOidAppend oid (nd_subid n));
          mret oid
      end
  end.

(** [strcat(oidBuffer, s)] *)
Definition oid_strcat (buf s : cstring) : mib_out cstring :=
  if decide (length (buf ++ s) < OID_STR_SIZE)%nat then mret (buf ++ s) else MibFault MibOverrun.

Definition TnmMibGetOid (st : mib_state) (label : cstring) : mib_out (option cstring) :=
  expanded ← of_option MibOverrun (TnmHexToOid label);
  let label := default label expanded in
  '(nodePtr, offset) ← TnmMibFindNode st label false;
  match nodePtr with
  | None => mret None
  | Some nodePtr =>
      if TnmIsOid label then mret (Some label)
      else
        path ← GetMibPath (steps st) st nodePtr;
        path ← (if bool_decide (0 < offset) then oid_strcat path (drop (Z.to_nat offset) label) else mret path);
        mret (Some path)
  end.

Definition TnmMibGetName (st : mib_state) (label : cstring) (exact : bool) : mib_out (option cstring) :=
  expanded ← of_option MibOverrun (TnmHexToOid label);
  let label := default label expanded in
  '(nodePtr, offset) ← TnmMibFindNode st label exact;
  match nodePtr with
  | None => mret None
  | Some nodePtr =>
      n ← deref st nodePtr;
      if bool_decide (0 < offset) then
        buf ← oid_strcat [] (nd_label n);
        buf ← oid_strcat buf (drop (Z.to_nat offset) label);
        mret (Some buf)
      else mret (Some (nd_label n))
  end.

Definition TnmMibGetBaseSyntax (st : mib_state) (name : cstring) : mib_out Z :=
  '(nodePtr, _) ← TnmMibFindNode st name false;
  match nodePtr with
  | None => mret ASN1_OTHER
  | Some nodePtr =>
      n ← deref st nodePtr;
      mret match nd_typePtr n with
           | Some type => if bool_decide (is_Some (ty_name type)) then ty_syntax type else nd_syntax n
           | None => nd_syntax n
           end
  end.

(** ** Descriptions *)

Definition chr_quote : Z := 34.
Definition chr_newline : Z := 10.

(** The inner loop behind a newline: what is appended for empty lines, the number of
    characters that are skipped, and the file from the character [ch] on, the last one
    that was read; the empty list is [EOF].  [indent] is 0 until it is known. *)
Fixpoint skip_indent (file : cstring) (indent n : Z) (out : cstring) : cstring * Z * cstring :=
  match file with
  | [] => (out, n, [])
  | ch :: file' =>
      if bool_decide (ch = chr_newline) then skip_indent file' indent 0 (out ++ [chr_newline])
      else if negb (isspace ch) then (out, n, file)
      else if bool_decide (n + 1 = indent) then (out, n + 1, file)
      else skip_indent file' indent (n + 1) out
  end.

(** The loop over the quoted string. *)
Fixpoint quoted_text (fuel : nat) (file : cstring) (indent : Z) (out : cstring) : mib_out cstring :=
  match file with
  | [] => mret out
  | ch :: file =>
      if bool_decide (ch = chr_quote) then mret out
      else
        match fuel with
        | O => MibFault MibLoops
        | S fuel =>
            if bool_decide (ch = chr_newline) then
              let '(out, n, rest) := skip_indent file indent 0 (out ++ [ch]) in
              let indent := if bool_decide (indent = 0) && bool_decide (n <> 0) then n + 1 else indent in
              match rest with
              | [] => mret out
              | c :: rest => if bool_decide (c = chr_quote) then mret out else quoted_text fuel rest indent (out ++ [c])
              end
            else quoted_text fuel file indent (out ++ [ch])
        end
  end.

(** [file] is the content of the file [fileName], [None] if it cannot be opened. *)
Definition TnmMibGetString (fileName : option cstring) (file : option cstring) (fileOffset : Z) : mib_out (option cstring) :=
  match fileName, file with
  | Some _, Some file =>
      if bool_decide (fileOffset <= 0) then mret None
      else
        let rest := skip_chars (fun c => negb (bool_decide (c = chr_quote))) (drop (Z.to_nat fileOffset) file) in
        out ← quoted_text (length rest) (drop 1 rest) 0 [];
        mret (Some out)
  | _, _ => mret None
  end.

(** ** Values *)

Section values.
Context (Tcl_GetLong : cstring -> option Z) (oid_as_name oid_as_oid : cstring -> mib_out (option cstring)).

(** A value that cannot be converted is returned as it is. *)
Definition TnmMibFormat (fuel : nat) (st : mib_state) (name : cstring) (exact : bool) (value : cstring) : mib_out (option cstring) :=
  '(nodePtr, _) ← TnmMibFindNode st name exact;
  match nodePtr with
  | None => mret None
  | Some nodePtr =>
      n ← deref st nodePtr;
      if bool_decide (nd_macro n <> TNM_MIB_OBJECTTYPE) &&
         negb (bool_decide (nd_macro n = TNM_MIB_VALUE_ASSIGNEMENT) && bool_decide (nd_childPtr n = None)) then mret None
      else
        dst ← TnmMibFormatValue Tcl_GetLong oid_as_name fuel (nd_typePtr n) (nd_syntax n) value;
        mret (Some (default value dst))
  end.

Definition TnmMibScan (fuel : nat) (st : mib_state) (name : cstring) (exact : bool) (value : cstring) : mib_out (option cstring) :=
  '(nodePtr, _) ← TnmMibFindNode st name exact;
  match nodePtr with
  | None => mret None
  | Some nodePtr =>
      n ← deref st nodePtr;
      TnmMibScanValue oid_as_oid fuel (nd_typePtr n) (nd_syntax n) value
  end.
End values.
