(* ===== verification/OidObj.v ===== *)
(** The Tcl object type for object identifiers ([tnmOidObj.c]): its string is the dotted
    notation or the name of a MIB node, with the name of its module in front of it. *)

From stdpp Require Import gmap.
From S2P Require Import Prelude Ber CStr Oid Util Obj Snmp Mib Hint MibTree MibNames.
Local Open Scope Z_scope.

Inductive oid_notation := TNM_OID_AS_OID | TNM_OID_AS_NAME.
#[global] Instance oid_notation_dec : EqDecision oid_notation.
Proof. solve_decision. Defined.

(** [bytes] is [None] when the string is invalid; the internal representation is [None]
    for an object of another type. *)
Record oid_obj := mkOidObj { oo_bytes : option cstring; oo_rep : option (TnmOid * oid_notation) }.

(** [for (i = 0; i < TnmOidGetLength(oidPtr); i++) TnmOidAppend(newOidPtr, ...)] *)
Fixpoint oid_append_all (l : list Z) (oid : TnmOid) : option TnmOid :=
  match l with
  | [] => Some oid
  | v :: l => '(_, oid) ← TnmOidAppend oid v; oid_append_all l oid
  end.

Definition TnmNewOidObj (oid : TnmOid) : mib_out oid_obj :=
  oid ← of_option MibOverrun (oid_append_all (oid_values oid) TnmOidInit);
  mret (mkOidObj None (Some (oid, TNM_OID_AS_OID))).

(** The object takes the object identifier over. *)
Definition TnmSetOidObj (obj : oid_obj) (oid : TnmOid) : oid_obj := mkOidObj None (Some (oid, TNM_OID_AS_OID)).

Definition DupOidInternalRep (src : oid_obj) : mib_out oid_obj :=
  match oo_rep src with
  | None => MibFault MibNull
  | Some (oid, notation) =>
      oid ← of_option MibOverrun (oid_append_all (oid_values oid) TnmOidInit);
      mret (mkOidObj (oo_bytes src) (Some (oid, notation)))
  end.

Definition colons : cstring := [chr_colon; chr_colon].

Definition UpdateStringOfOid (st : mib_state) (oid : TnmOid) (notation : oid_notation) : mib_out cstring :=
  string ← of_option MibOverrun (TnmOidToString oid);
  match notation with
  | TNM_OID_AS_OID => mret string
  | TNM_OID_AS_NAME =>
      '(nodePtr, offset) ← TnmMibFindNode st string false;
      match nodePtr with
      | None => mret string
      | Some nodePtr =>
          n ← deref st nodePtr;
          let name := match nd_moduleName n with Some moduleName => moduleName ++ colons ++ nd_label n | None => nd_label n end in
          mret (name ++ (if bool_decide (0 < offset) then drop (Z.to_nat offset) string else []))
      end
  end.

(** [Tcl_GetStringFromObj] *)
Definition oid_obj_string (st : mib_state) (obj : oid_obj) : mib_out (cstring * oid_obj) :=
  match oo_bytes obj, oo_rep obj with
  | Some s, _ => mret (s, obj)
  | None, Some (oid, notation) => s ← UpdateStringOfOid st oid notation; mret (s, mkOidObj (Some s) (oo_rep obj))
  | None, None => mret ([], mkOidObj (Some []) None)
  end.

(** The object identifier of a string; [None] is [TCL_ERROR]. *)
Definition oid_of_string (st : mib_state) (string : cstring) : mib_out (option (TnmOid * oid_notation)) :=
  let isOid := TnmIsOid string in
  text ← (if isOid then mret (Some string) else TnmMibGetOid st string);
  match text with
  | None => mret None
  | Some text =>
      '(code, oid) ← of_option MibOverrun (TnmOidFromString TnmOidInit text);
      mret match code with
           | TCL_OK => Some (oid, if isOid then TNM_OID_AS_OID else TNM_OID_AS_NAME)
           | _ => None
           end
  end.

Definition SetOidFromAny (st : mib_state) (obj : oid_obj) : mib_out (tcl_code * oid_obj) :=
  '(string, obj) ← oid_obj_string st obj;
  rep ← oid_of_string st string;
  mret match rep with
       | Some rep => (TCL_OK, mkOidObj (oo_bytes obj) (Some rep))
       | None => (TCL_ERROR, obj)
       end.

Definition TnmGetOidFromObj (st : mib_state) (obj : oid_obj) : mib_out (option TnmOid * oid_obj) :=
  match oo_rep obj with
  | Some (oid, _) => mret (Some oid, obj)
  | None =>
      '(result, obj) ← SetOidFromAny st obj;
      mret match result with TCL_OK => (fst <$> oo_rep obj, obj) | _ => (None, obj) end
  end.

(** What [TnmMibFormatValue] and [TnmMibScanValue] do with an object identifier: the
    string is converted, the notation is set and the string is made again. *)
Definition oid_as (notation : oid_notation) (st : mib_state) (string : cstring) : mib_out (option cstring) :=
  rep ← oid_of_string st string;
  match rep with
  | None => mret None
  | Some (oid, _) =>
      oid ← of_option MibOverrun (oid_append_all (oid_values oid) TnmOidInit);
      s ← UpdateStringOfOid st oid notation; mret (Some s)
  end.
