(* ===== verification/MibNamesTheorems.v ===== *)
(** Names and object identifiers of MIB nodes: the longest known part of an object
    identifier is replaced by a label, and back; an object identifier object whose string
    is the name of a node is read back from this string. *)

From stdpp Require Import gmap sorting.
From S2P Require Import Prelude Ber CStr Oid OidTheorems Util Obj Snmp Mib Hint MibTree MibTreeInv MibTreeFind MibTreeAdd MibNames OidObj.
Local Open Scope Z_scope.

(** * Names of nodes *)

(** ** Paths *)

Lemma dotted_snoc o s : o <> [] -> dotted (o ++ [s]) = dotted o ++ chr_dot :: sprintf_u s.
Proof.
  induction o as [|v o IH]; [done|]. intros _. destruct o as [|w o]; [done|].
  rewrite <- app_comm_cons, !dotted_cons by done. rewrite IH by done. by rewrite <- app_assoc.
Qed.

Lemma FormatUnsigned_spec u buf : is_u32 u -> (length buf + length (sprintf_u u) < OID_STR_SIZE)%nat -> FormatUnsigned u buf = Some (buf ++ sprintf_u u).
Proof.
  intros Hu Hl. unfold FormatUnsigned. rewrite oid_str_component_spec by (done || lia). unfold oid_puts. rewrite decide_True by lia. cbn [mbind option_bind].
  rewrite decide_True; [done|]. rewrite length_app. lia.
Qed.

Section names_of_nodes.
Context (roots : list nat) (st : mib_state) (K : tree_view) (F : list (list nat)).
Context (R : rep roots st K F).
#[local] Set Default Proof Using "Type*".

Lemma depth_bound : forall k o p l, (length o <= k)%nat -> K !! p = Some (o, l) -> (later K o + length o <= steps st)%nat.
Proof.
  induction k as [|k IH]; intros o p l Hk Hp.
  { destruct o; [|cbn in Hk; lia]. by apply (view_nonempty _ _ _ _ R) in Hp. }
  destruct (view_oid _ _ _ _ R _ _ _ Hp) as (n & _ & [[_ ->]|(r & o' & l' & Hr & _ & -> & _)]).
  - pose proof (later_bound _ _ _ _ R _ _ _ Hp). cbn. lia.
  - rewrite length_app in Hk |- *. cbn in Hk |- *. pose proof (IH o' r l' ltac:(lia) Hr). pose proof (later_less _ _ _ _ R _ _ _ _ Hp (lex_snoc o' _)). lia.
Qed.

Lemma GetMibPath_spec : forall k fuel o p l, (length o <= k)%nat -> (length o <= fuel)%nat -> K !! p = Some (o, l) -> (length (dotted o) < OID_STR_SIZE)%nat ->
  GetMibPath fuel st p = MibOk (dotted o).
Proof.
  induction k as [|k IH]; intros fuel o p l Hk Hf Hp Hlen.
  { destruct o; [|cbn in Hk; lia]. by apply (view_nonempty _ _ _ _ R) in Hp. }
  destruct (view_oid _ _ _ _ R _ _ _ Hp) as (n & Hn & Hcase). destruct (rep_node _ _ _ _ R _ _ Hn) as (Hsub & _). assert (Hu : is_u32 (nd_subid n)) by (unfold is_u32; lia).
  destruct fuel as [|fuel]; [destruct o; [by apply (view_nonempty _ _ _ _ R) in Hp|cbn in Hf; lia]|].
  cbn [GetMibPath]. rewrite (deref_node _ _ _ Hn). unfold mbind, mib_bind. destruct Hcase as [[Hin ->]|(r & o' & l' & Hr & _ & -> & Hup)].
  - destruct (rep_roots _ _ _ _ R) as (_ & _ & Hroots). rewrite Forall_forall in Hroots. destruct (Hroots p Hin) as (m & ? & Hm & Hnone & _). rewrite Hn in Hm. injection Hm as <-.
    rewrite Hnone. unfold mret, mib_ret. rewrite FormatUnsigned_spec by done. done.
  - assert (Hne : o' <> []) by (intros ->; by apply (view_nonempty _ _ _ _ R) in Hr). rewrite dotted_snoc in Hlen |- * by done. rewrite length_app in Hk, Hf, Hlen. cbn [length] in Hk, Hf, Hlen.
    rewrite Hup, (IH fuel o' r l') by (done || lia). rewrite oid_putc_puts_one by (unfold is_byte, chr_dot; lia). unfold oid_puts. cbn [length]. rewrite decide_True by lia. cbn [of_option]. unfold mret, mib_ret.
    rewrite FormatUnsigned_spec; [cbn [of_option]; by rewrite <- app_assoc|done|rewrite length_app; cbn [length]; lia].
Qed.
End names_of_nodes.

(** ** Strings *)

Lemma sprintf_u_chars v : Forall (fun c => c <> chr_dot /\ c <> chr_colon /\ c <> chr_bang /\ c <> 120 /\ ispunct c = false) (sprintf_u v).
Proof.
  eapply Forall_impl; [apply sprintf_u_digits|]. intros c Hc%isdigit_range. unfold chr_dot, chr_colon, chr_bang. repeat split; try lia.
  unfold ispunct. rewrite !bool_decide_eq_false_2 by lia. done.
Qed.

Lemma dotted_chars l : Forall (fun c => c <> chr_colon /\ c <> chr_bang /\ c <> 120) (dotted l).
Proof.
  assert (Hu : forall v, Forall (fun c => c <> chr_colon /\ c <> chr_bang /\ c <> 120) (sprintf_u v)) by (intros v; eapply Forall_impl; [apply sprintf_u_chars|]; cbn; tauto).
  induction l as [|v l IH]; [constructor|]. destruct l as [|w l]; [apply Hu|]. rewrite dotted_cons by done. apply Forall_app. split; [apply Hu|]. by constructor.
Qed.

Lemma has_hex_low s : Forall (fun c => c <> chr_colon /\ c <> chr_bang /\ c <> 120) s -> has_hex s = false.
Proof.
  induction 1 as [|c s (H1 & _) Hs IH]; [done|]. cbn [has_hex]. rewrite IH, orb_false_r. apply bool_decide_eq_false_2. unfold hex_separator. rewrite bool_decide_eq_false_2 by done. cbn [andb].
  case_bool_decide; [|by intros [? ?]]. unfold hex_prefix. destruct s as [|c1 [|c2 s]]; [by intros [? ?]..|]. apply Forall_cons in Hs as [_ Hs]. apply Forall_cons in Hs as [(_ & _ & Hx) _].
  rewrite (bool_decide_eq_false_2 (c2 = 120)) by done. rewrite andb_false_r. by intros [? ?].
Qed.

Lemma has_hex_plain s t : Forall (fun c => c <> chr_dot /\ c <> chr_colon /\ c <> chr_bang) s -> has_hex (s ++ t) = has_hex t.
Proof.
  induction 1 as [|c s (H1 & H2 & _) _ IH]; [done|]. cbn [has_hex app]. rewrite IH. rewrite bool_decide_eq_false_2; [done|]. unfold hex_separator. rewrite !bool_decide_eq_false_2 by done. cbn. by intros [? ?].
Qed.

Lemma skip_chars_all P s t : Forall (fun c => P c = true) s -> match t with c :: _ => P c = false | [] => True end -> skip_chars P (s ++ t) = t.
Proof. induction 1 as [|c s Hc _ IH]; intros Ht; [cbn; destruct t as [|c t]; [done|]; cbn; by rewrite Ht|]. cbn. rewrite Hc. by apply IH. Qed.

Lemma skip_subid_start v t : match t with c :: _ => isdigit c = false | [] => True end -> skip_subid (sprintf_u v ++ t) = t.
Proof.
  intros Ht. unfold skip_subid. pose proof (sprintf_u_length v) as Hl. pose proof (sprintf_u_digits v) as Hd. pose proof (sprintf_u_chars v) as Hc.
  destruct (sprintf_u v) as [|c s] eqn:E; [cbn in Hl; lia|]. apply Forall_cons in Hc as [(_ & _ & _ & _ & Hp) _]. cbn [app skip_chars]. rewrite Hp. by apply (skip_chars_all isdigit (c :: s)).
Qed.

Lemma skip_subids_dotted k : forall l, (S k < length l)%nat -> skip_subids (S k) (dotted l) = chr_dot :: dotted (drop (S k) l).
Proof.
  assert (Hdot : forall k l, (k < length l)%nat -> skip_subids k (chr_dot :: dotted l) = chr_dot :: dotted (drop k l)).
  { intros j. induction j as [|j IH]; intros l Hl; [done|]. destruct l as [|v [|w l]]; [cbn in Hl; lia..|]. rewrite dotted_cons by done. cbn [skip_subids].
    change (skip_subid (chr_dot :: sprintf_u v ++ chr_dot :: dotted (w :: l))) with (skip_subid (sprintf_u v ++ chr_dot :: dotted (w :: l))). rewrite skip_subid_start by done.
    rewrite IH by (cbn in Hl |- *; lia). done. }
  intros l Hl. destruct l as [|v [|w l]]; [cbn in Hl; lia..|]. rewrite dotted_cons by done. cbn [skip_subids]. rewrite skip_subid_start by done. rewrite Hdot by (cbn in Hl |- *; lia). done.
Qed.

Lemma skip_offset s t : offset_of (s ++ t) t = Z.of_nat (length s).
Proof. unfold offset_of. rewrite length_app. lia. Qed.

(** A dotted notation splits where the object identifier does. *)
Lemma dotted_app o rest : o <> [] -> rest <> [] -> dotted (o ++ rest) = dotted o ++ chr_dot :: dotted rest.
Proof.
  induction o as [|v o IH]; [done|]. intros _ Hr. destruct o as [|w o]; [cbn [app]; by rewrite dotted_cons|].
  rewrite <- app_comm_cons, !dotted_cons by done. rewrite IH by done. by rewrite <- app_assoc.
Qed.

(** A leading dot reads as a subidentifier 0. *)
Lemma TnmOidFromString_dot o rest : rest <> [] -> TnmOidFromString o (chr_dot :: dotted rest) = TnmOidFromString o (dotted (0 :: rest)).
Proof.
  intros Hr. rewrite dotted_cons by done. change (sprintf_u 0) with [48]. cbn [app]. unfold TnmOidFromString. rewrite !bool_decide_eq_false_2 by done.
  set (s := chr_dot :: dotted rest). change (oid_scan_length (length (48 :: s)) (48 :: s) 1 false) with (oid_scan_length (length s) s 1 false).
  destruct (oid_scan_length (length s) s 1 false) as [len|] eqn:E; [|done]. case_bool_decide as Hlen; [done|].
  pose proof (oid_scan_length_le _ _ _ _ _ E) as Hle. destruct (oid_fresh_space o len) as (o1 & n & Ho1 & He & Hsp & _); [lia|]. rewrite Ho1. cbn [mbind option_bind].
  assert (Hpush : oid_push o1 0 (fun v => 10 * v + 48 - chr_0) = Some o1).
  { unfold oid_push, TnmOidGet. destruct n as [|n]; [lia|]. rewrite He. cbn [replicate lookup list_lookup mbind option_bind]. unfold TnmOidSet. rewrite He. cbn [length replicate]. rewrite decide_True by lia.
    f_equal. rewrite <- (set_oid_elements_id o1) at 2. by rewrite He. }
  change (oid_scan_values (length (48 :: s)) (48 :: s) o1 0 false) with (oid_push o1 0 (fun v => 10 * v + 48 - chr_0) ≫= fun o => oid_scan_values (length s) s o 0 false).
  by rewrite Hpush.
Qed.

Lemma find_index c s t : Forall (fun x => x <> c) s -> index_of c (s ++ c :: t) = Some (length s).
Proof.
  intros H. unfold index_of. rewrite (list_find_app_r (fun x => x = c) s); [|by apply list_find_None].
  cbn. rewrite decide_True by done. cbn. by rewrite ?Nat.add_0_r.
Qed.

Lemma dotted_index c l : c = chr_colon \/ c = chr_bang -> index_of c (dotted l) = None.
Proof. intros Hc. apply index_of_none. eapply Forall_impl; [apply dotted_chars|]. cbn. intros x (H1 & H2 & _). by destruct Hc as [-> | ->]. Qed.

Lemma digit_not_upper c : isdigit c = true -> isupper c = false.
Proof. intros ?%isdigit_range. unfold isupper. apply bool_decide_eq_false_2. lia. Qed.

Lemma split_dotted l : l <> [] -> split_module (dotted l) = ([], dotted l, O).
Proof.
  intros Hl. unfold split_module, module_end. rewrite !dotted_index by tauto. destruct (dotted_head l Hl) as (c & s & -> & Hc). by rewrite digit_not_upper.
Qed.

(** A label and what follows it. *)
Definition instance_name (label : cstring) (rest : list Z) : cstring := label ++ (if bool_decide (rest = []) then [] else chr_dot :: dotted rest).

Definition lower_head (label : cstring) : bool := match label with c :: _ => negb (isupper c) | [] => false end.

Lemma plain_rest_index label rest c : plain_name label = true -> c = chr_colon \/ c = chr_bang -> index_of c (instance_name label rest) = None.
Proof.
  intros Hp Hc. apply index_of_none. apply Forall_app. split.
  - eapply Forall_impl; [by apply plain_chars|]. cbn. intros x (_ & H1 & H2). by destruct Hc as [-> | ->].
  - case_bool_decide; [constructor|]. constructor; [by destruct Hc as [-> | ->]|]. eapply Forall_impl; [apply dotted_chars|]. cbn. intros x (H1 & H2 & _). by destruct Hc as [-> | ->].
Qed.

Lemma split_instance label rest : plain_name label = true -> lower_head label = true -> split_module (instance_name label rest) = ([], instance_name label rest, O).
Proof.
  intros Hp Hl. unfold split_module, module_end. rewrite !plain_rest_index by (done || tauto). unfold instance_name. destruct label as [|c label]; [done|]. cbn [app]. cbn in Hl. by destruct (isupper c).
Qed.

Lemma hex_instance label rest : plain_name label = true -> TnmHexToOid (instance_name label rest) = Some None.
Proof.
  intros Hp. unfold TnmHexToOid, instance_name. rewrite has_hex_plain by (by apply plain_chars). rewrite has_hex_low; [done|].
  case_bool_decide; [constructor|]. constructor; [done|]. apply dotted_chars.
Qed.

Lemma hex_dotted l : TnmHexToOid (dotted l) = Some None.
Proof. unfold TnmHexToOid. by rewrite has_hex_low by apply dotted_chars. Qed.

Lemma instance_not_oid label rest : plain_name label = true -> TnmIsOid (instance_name label rest) = false.
Proof.
  intros Hp. pose proof (plain_chars _ Hp) as Hc. pose proof (plain_no_number _ Hp) as Hn. unfold instance_name. generalize (if bool_decide (rest = []) then [] else chr_dot :: dotted rest) as t. intros t. unfold TnmIsOid. clear Hp.
  induction label as [|c s IH]; [done|]. apply Forall_cons in Hc as [(H1 & H2 & _) Hc]. cbn [length is_oid_loop app]. rewrite !bool_decide_eq_false_2 by done. cbn [andb negb] in *.
  cbn [forallb] in Hn. destruct (isdigit c); [by apply IH|done].
Qed.

Lemma dot_dotted_oid rest : TnmIsOid (chr_dot :: dotted rest) = true.
Proof. unfold TnmIsOid. cbn [length is_oid_loop]. rewrite bool_decide_eq_true_2 by done. rewrite hex_prefix_dotted. apply is_oid_dotted. Qed.

(** ** Looking up *)

Lemma lookup_oid_dotted l : oid_value l -> lookup_oid_value (dotted l) = MibOk (Some l).
Proof.
  intros Hl. pose proof Hl as (Hlen & Hu & H0). destruct l as [|v [|w l]]; [cbn in Hlen; lia..|]. unfold lookup_oid_value.
  assert (Hshort : forall s, length s = 1%nat -> dotted (v :: w :: l) <> s).
  { intros s Hs E. apply (f_equal length) in E. rewrite dotted_cons, length_app, Hs in E by done. pose proof (sprintf_u_length v). cbn [length] in E. destruct (dotted_head (w :: l)) as (c & s' & Hd & _); [done|]. rewrite Hd in E. cbn in E. lia. }
  rewrite !bool_decide_eq_false_2 by (by apply Hshort). destruct (TnmOidFromString_dotted TnmOidInit (v :: w :: l) Hl) as (o' & -> & Hwf & Ho). cbn [of_option]. unfold mbind, mib_bind, mret, mib_ret.
  change (oid_values o') with (oid_list o'). rewrite Ho. assert (Hg : TnmOidGet o' 0 = Some v).
  { unfold TnmOidGet. assert (E : oid_list o' !! 0%nat = Some v) by (by rewrite Ho). unfold oid_list in E. by apply lookup_take_Some in E as [? _]. }
  rewrite Hg. done.
Qed.

Section lookups.
Context (roots : list nat) (st : mib_state) (K : tree_view) (F : list (list nat)).
Context (R : rep roots st K F) (Htree : mb_tree st = head roots).
Context (o rest : list Z) (q : nat) (n : TnmMibNode).
Context (Hdeep : deepest K (o ++ rest) q o) (Hn : mb_nodes st !! q = Some n) (Hoid : oid_value (o ++ rest)).
#[local] Set Default Proof Using "Type*".

Lemma deepest_unique q' o' : deepest K (o ++ rest) q' o' -> q' = q /\ o' = o.
Proof.
  destruct Hdeep as ([l Hq] & Hpre & Hmax). intros ([l' Hq'] & Hpre' & Hmax'). assert (o' = o) as ->.
  { pose proof (Hmax _ _ _ Hq' Hpre'). pose proof (Hmax' _ _ _ Hq Hpre). destruct Hpre as [s1 E1], Hpre' as [s2 E2]. rewrite E1 in E2.
    apply (f_equal (take (length o))) in E2. rewrite take_app_length in E2. rewrite E2. replace (length o) with (length o') by lia. by rewrite take_app_length. }
  split; [|done]. by eapply (view_inj _ _ _ _ R).
Qed.

Lemma o_nonempty : o <> [].
Proof. destruct Hdeep as ([l Hq] & _). intros E. rewrite E in Hq. by apply (view_nonempty _ _ _ _ R) in Hq. Qed.

Lemma dotted_nonempty l : l <> [] -> (0 < length (dotted l))%nat.
Proof. intros Hl. destruct (dotted_head l Hl) as (c & s & -> & _). cbn. lia. Qed.

Lemma found_q : found_by st K (nd_label n) (Some q).
Proof. destruct Hdeep as ([l Hq] & _). split; [by eexists|]. by exists n. Qed.

(** The object identifier leads to the deepest node; the offset is where the rest begins. *)
Lemma find_oid : TnmMibFindNode st (dotted (o ++ rest)) false = MibOk (Some q, if bool_decide (rest = []) then -1 else Z.of_nat (length (dotted o))).
Proof.
  assert (Hne : o ++ rest <> []) by (intros [E _]%app_eq_nil; by apply o_nonempty). unfold TnmMibFindNode. rewrite split_dotted, hex_dotted by done. cbn [of_option]. unfold mbind, mib_bind, mret, mib_ret. cbn [from_option].
  rewrite is_oid_dotted, Htree. destruct (lookup_oid_spec roots st K F R (dotted (o ++ rest)) (o ++ rest) false (lookup_oid_dotted _ Hoid) Hne) as [[Hno _]|(q' & o' & Hd & ->)].
  { exfalso. destruct Hdeep as ([l Hq] & Hpre & _). by eapply Hno. }
  apply deepest_unique in Hd as [-> ->]. destruct (decide (rest = [])) as [E|Hr].
  - rewrite (bool_decide_eq_true_2 (o = o ++ rest)) by (by rewrite E, app_nil_r). rewrite (bool_decide_eq_true_2 (rest = [])) by done. eapply (check_module_none roots st K F R Htree), found_q.
  - rewrite (bool_decide_eq_false_2 (o = o ++ rest)), (bool_decide_eq_false_2 (rest = [])); [|done|intros E; rewrite <- (app_nil_r o) in E at 1; by apply app_inv_head in E].
    assert (Hl : (length o < length (o ++ rest))%nat) by (rewrite length_app; destruct rest; [done|cbn; lia]).
    destruct (length o) as [|k] eqn:Ek; [apply length_zero_iff_nil in Ek; by apply o_nonempty in Ek|]. rewrite skip_subids_dotted by done. rewrite <- Ek at 1. rewrite drop_app_length.
    rewrite dotted_app by (done || apply o_nonempty). rewrite skip_offset. eapply (check_module_none roots st K F R Htree), found_q.
Qed.

Lemma resolve_none : rest <> [] -> (forall p k, K !! p <> Some (o ++ [0], k)) -> resolve_more st q (chr_dot :: dotted rest) = MibOk (q, O).
Proof.
  intros Hr Hzero. unfold resolve_more. rewrite TnmOidFromString_dot by done. destruct Hoid as (Hlen & Hu & _). rewrite length_app in Hlen. pose proof o_nonempty as Ho.
  assert (Hov : oid_value (0 :: rest)).
  { split; [destruct o; [done|]; destruct rest; [done|]; cbn in Hlen |- *; lia|]. split; [constructor; [by unfold is_u32|by apply Forall_app in Hu as [_ ?]]|cbn; lia]. }
  destruct (TnmOidFromString_dotted TnmOidInit _ Hov) as (o' & -> & _ & Ho'). cbn [of_option]. unfold mbind, mib_bind, mret, mib_ret. change (oid_values o') with (oid_list o'). rewrite Ho'.
  destruct Hdeep as ([l Hq] & _). destruct (descend_spec roots st K F R (0 :: rest) q o l 0 Hq) as (q' & k & -> & _ & (l' & Hq') & _). destruct k as [|k].
  - cbn in Hq'. rewrite app_nil_r in Hq'. by rewrite (view_inj _ _ _ _ R _ _ _ _ _ Hq Hq').
  - exfalso. cbn [take] in Hq'. change (0 :: take k rest) with ([0] ++ take k rest) in Hq'. rewrite app_assoc in Hq'. destruct (view_prefix _ _ _ _ R _ _ _ _ Hq') as (p & k' & Hp); [by destruct o|]. by apply Hzero in Hp.
Qed.

Lemma path_found : (length (dotted (o ++ rest)) < OID_STR_SIZE)%nat -> GetMibPath (steps st) st q = MibOk (dotted o).
Proof.
  intros Hl. pose proof o_nonempty as Ho. destruct Hdeep as ([l Hq] & _). apply (GetMibPath_spec roots st K F R (length o) (steps st) o q l); [done| |done|].
  - pose proof (depth_bound roots st K F R (length o) o q l ltac:(done) Hq). lia.
  - destruct (decide (rest = [])) as [E|Hr]; [by rewrite E, app_nil_r in Hl|]. rewrite dotted_app, length_app in Hl by done. lia.
Qed.

(** A label that no other node has leads back to the node. *)
Lemma search_label moduleName : names_of st !! nd_label n = Some (Some q) -> (forall p k, K !! p <> Some (o ++ [0], k)) ->
  search_name st moduleName (instance_name (nd_label n) rest) false = MibOk (Some q, if bool_decide (rest = []) then -1 else Z.of_nat (length (nd_label n))).
Proof.
  intros Hnames Hzero. destruct (rep_node _ _ _ _ R _ _ Hn) as (_ & Hp & _). pose proof (rep_names _ _ _ _ R) as (Hkeys & _). unfold names_of in Hkeys, Hnames. unfold search_name.
  destruct (mb_nodeHashTable st) as [T|] eqn:HT; [|done]. change (default ∅ (Some T)) with T in Hkeys, Hnames. unfold mbind, mib_bind, option_bind, mret, mib_ret. destruct (decide (rest = [])) as [E|Hr].
  - rewrite (bool_decide_eq_true_2 (rest = [])) by done. unfold instance_name. rewrite (bool_decide_eq_true_2 (rest = [])), app_nil_r by done. by rewrite Hnames.
  - rewrite (bool_decide_eq_false_2 (rest = [])) by done. unfold instance_name. rewrite (bool_decide_eq_false_2 (rest = [])) by done. set (name := nd_label n ++ chr_dot :: dotted rest).
    destruct (@lookup cstring _ _ _ name T) as [v|] eqn:Hv.
    { destruct (Hkeys name) as (p & m & Hm & Hlab); [exists v; exact Hv|]. destruct (rep_node _ _ _ _ R _ _ Hm) as (_ & Hpm & _). apply plain_chars in Hpm. rewrite Hlab in Hpm.
      apply Forall_app in Hpm as [_ Hpm]. by apply Forall_cons in Hpm as [(? & _) _]. }
    unfold LookupLabelOID. rewrite HT. unfold name. rewrite find_index by (eapply Forall_impl; [by apply plain_chars|]; cbn; tauto). rewrite drop_app_length, take_app_length, dot_dotted_oid, Hnames.
    rewrite bool_decide_eq_false_2 by (destruct (nd_label n); [done|cbn; lia]). rewrite resolve_none by done. unfold mbind, mib_bind, mret, mib_ret. cbn [skip_components]. by rewrite skip_offset.
Qed.

Lemma find_label : lower_head (nd_label n) = true -> names_of st !! nd_label n = Some (Some q) -> (forall p k, K !! p <> Some (o ++ [0], k)) ->
  TnmMibFindNode st (instance_name (nd_label n) rest) false = MibOk (Some q, if bool_decide (rest = []) then -1 else Z.of_nat (length (nd_label n))).
Proof.
  intros Hlow Hnames Hzero. destruct (rep_node _ _ _ _ R _ _ Hn) as (_ & Hp & _). unfold TnmMibFindNode. rewrite split_instance, hex_instance by done. cbn [of_option]. unfold mbind, mib_bind, mret, mib_ret. cbn [from_option].
  rewrite instance_not_oid, search_label by done. eapply (check_module_none roots st K F R Htree), found_q.
Qed.

(** The same with the module in front of the label. *)
Definition module_name (moduleName : cstring) (name : cstring) : cstring := moduleName ++ colons ++ name.

Lemma split_colons m name : Forall (fun c => c <> chr_dot /\ c <> chr_colon /\ c <> chr_bang) m -> index_of chr_bang name = None -> (length m < 255)%nat ->
  split_module (module_name m name) = (m, name, S (S (length m))).
Proof.
  intros Hm Hname Hlen. unfold split_module, module_end, module_name. assert (Hbang : index_of chr_bang (m ++ colons ++ name) = None).
  { apply index_of_none. unfold index_of in Hname. apply fmap_None, list_find_None in Hname. apply Forall_app. split; [eapply Forall_impl; [exact Hm|]; cbn; tauto|]. by repeat constructor. }
  rewrite Hbang. cbn [app colons]. rewrite find_index by (eapply Forall_impl; [exact Hm|]; cbn; tauto).
  assert (Hl : (m ++ chr_colon :: chr_colon :: name) !! S (length m) = Some chr_colon) by (rewrite lookup_app_r by lia; by replace (S (length m) - length m)%nat with 1%nat by lia).
  rewrite bool_decide_eq_true_2 by exact Hl. rewrite (bool_decide_eq_true_2 (length m < 255)%nat) by done. rewrite take_app_length.
  assert (Hd : drop (S (length m)) (m ++ chr_colon :: chr_colon :: name) = chr_colon :: name) by (rewrite drop_app_ge by lia; by replace (S (length m) - length m)%nat with 1%nat by lia).
  by rewrite Hd.
Qed.

Lemma find_module_label m : plain_name m = true -> (length m < 255)%nat -> nd_moduleName n = Some m -> names_of st !! nd_label n = Some (Some q) -> (forall p k, K !! p <> Some (o ++ [0], k)) ->
  TnmMibFindNode st (module_name m (instance_name (nd_label n) rest)) false = MibOk (Some q, if bool_decide (rest = []) then -1 else Z.of_nat (length m + 2 + length (nd_label n))).
Proof.
  intros Hm Hlen Hmod Hnames Hzero. destruct (rep_node _ _ _ _ R _ _ Hn) as (_ & Hp & _). unfold TnmMibFindNode.
  rewrite split_colons, hex_instance by (try apply plain_chars; try apply plain_rest_index; try done; tauto). cbn [of_option]. unfold mbind, mib_bind, mret, mib_ret. cbn [from_option].
  rewrite instance_not_oid, search_label by done. unfold check_module. rewrite (deref_node _ _ _ Hn). unfold mbind, mib_bind, mret, mib_ret. rewrite Hmod.
  rewrite bool_decide_eq_false_2 by (by intros ->). rewrite bool_decide_eq_true_2 by done. f_equal. f_equal. assert (Hlab : (0 < length (nd_label n))%nat) by (destruct (nd_label n); [done|cbn; lia]).
  destruct (bool_decide (rest = [])); [reflexivity|]. rewrite bool_decide_eq_true_2 by lia. lia.
Qed.
End lookups.

(** ** Round trip *)

(** C22: For every object identifier that begins with the object identifier [o] of a MIB
    node and for which there is no deeper node, [TnmMibGetName] returns the label of the
    node and the remaining subidentifiers, and [TnmMibGetOid] of this name returns the
    object identifier again.  The label must belong to one node only and begin with a
    lower case letter, the node must have no child with the subidentifier 0, and both
    strings must fit into [oidBuffer]. *)
Theorem mib_name_roundtrip roots st K F o rest q n : rep roots st K F -> mb_tree st = head roots -> oid_value (o ++ rest) -> deepest K (o ++ rest) q o ->
  mb_nodes st !! q = Some n -> lower_head (nd_label n) = true -> names_of st !! nd_label n = Some (Some q) -> (forall p kids, K !! p <> Some (o ++ [0], kids)) ->
  (length (dotted (o ++ rest)) < OID_STR_SIZE)%nat -> (length (instance_name (nd_label n) rest) < OID_STR_SIZE)%nat ->
  TnmMibGetName st (dotted (o ++ rest)) false = MibOk (Some (instance_name (nd_label n) rest)) /\
  TnmMibGetOid st (instance_name (nd_label n) rest) = MibOk (Some (dotted (o ++ rest))).
Proof.
  intros R Ht Hoid Hdeep Hn Hlow Hnames Hzero Hl1 Hl2. pose proof (find_oid roots st K F R Ht o rest q n Hdeep Hn Hoid) as Hfo. pose proof (find_label roots st K F R Ht o rest q n Hdeep Hn Hoid Hlow Hnames Hzero) as Hfl.
  assert (Ho : o <> []) by (pose proof Hdeep as ([l Hq] & _); intros ->; by apply (view_nonempty _ _ _ _ R) in Hq). destruct (rep_node _ _ _ _ R _ _ Hn) as (_ & Hp & _).
  pose proof (path_found roots st K F R Ht o rest q n Hdeep Hn Hoid Hl1) as Hpath.
  unfold TnmMibGetName, TnmMibGetOid. rewrite hex_dotted, hex_instance by done. cbn [of_option]. unfold mbind, mib_bind, mret, mib_ret. cbn [from_option].
  rewrite Hfo, Hfl, (deref_node _ _ _ Hn), Hpath. rewrite instance_not_oid by done. unfold instance_name in Hl2 |- *. destruct (decide (rest = [])) as [->|Hr].
  - rewrite !(bool_decide_eq_true_2 ([] = [])) by done. cbn. rewrite !app_nil_r. done.
  - rewrite !(bool_decide_eq_false_2 (rest = [])) in * by done. rewrite dotted_app in Hl1 |- * by done.
    assert (Hlab : (0 < length (nd_label n))%nat) by (destruct (nd_label n); [done|cbn; lia]). pose proof (dotted_head o Ho) as (c & s & Hd & _).
    assert (Hdo : (0 < length (dotted o))%nat) by (rewrite Hd; cbn; lia).
    rewrite !(bool_decide_eq_true_2 (0 < _)) by lia. rewrite !Nat2Z.id, !drop_app_length. rewrite length_app in Hl1, Hl2. unfold oid_strcat.
    rewrite app_nil_l, (decide_True (P := (length (nd_label n) < _)%nat)) by lia. unfold mret, mib_ret. rewrite !decide_True by (rewrite length_app; lia). done.
Qed.

Lemma sample_deepest : deepest sample_view ([1; 3; 2] ++ [1; 0]) 2%nat [1; 3; 2].
Proof.
  split; [by eexists|]. split; [by eexists|]. intros q' o' l' Hq _. revert q' o' l' Hq.
  assert (H : forall q (ol : list Z * list nat), sample_view !! q = Some ol -> (length ol.1 <= 3)%nat); [|intros q' o' l' Hq; exact (H q' (o', l') Hq)].
  apply (map_cases (fun _ ol => (length ol.1 <= 3)%nat)). repeat constructor.
Qed.

Lemma sample_no_zero p kids : sample_view !! p <> Some ([1; 3; 2; 0], kids).
Proof.
  assert (H : forall q (ol : list Z * list nat), sample_view !! q = Some ol -> ol.1 <> [1; 3; 2; 0]); [|intros Hp; exact (H p _ Hp eq_refl)].
  apply (map_cases (fun _ ol => ol.1 <> [1; 3; 2; 0])). by repeat constructor.
Qed.

Lemma mib_name_roundtrip_witness :
  TnmMibGetName sample_tree (cstr "1.3.2.1.0") false = MibOk (Some (cstr "mib-2.1.0")) /\ TnmMibGetOid sample_tree (cstr "mib-2.1.0") = MibOk (Some (cstr "1.3.2.1.0")).
Proof.
  apply (mib_name_roundtrip [10%nat; 11%nat; 12%nat] sample_tree sample_view (replicate NODEHASHSIZE []) [1; 3; 2] [1; 0] 2%nat (sample_node "mib-2" "internet" 2 (Some 3%nat) None None)).
  - exact sample_tree_rep.
  - reflexivity.
  - by apply (bool_decide_unpack _).
  - exact sample_deepest.
  - reflexivity.
  - reflexivity.
  - reflexivity.
  - exact sample_no_zero.
  - apply Nat.ltb_lt. vm_compute. reflexivity.
  - apply Nat.ltb_lt. vm_compute. reflexivity.
Defined.

(** C21: [TnmMibFindNode] of an object identifier returns the node with the longest object
    identifier that is a prefix of it, and the offset of the remaining subidentifiers
    in the string (-1 if there are none); with [exact] set, only a node with this very
    object identifier. *)
Theorem mib_find_longest roots st K F l exact : rep roots st K F -> mb_tree st = head roots -> oid_value l ->
  exists res offset, TnmMibFindNode st (dotted l) exact = MibOk (res, offset) /\
  match res with
  | Some q => exists o rest, l = o ++ rest /\ deepest K l q o /\ (rest = [] /\ offset = -1 \/ exact = false /\ drop (Z.to_nat offset) (dotted l) = chr_dot :: dotted rest)
  | None => if exact then forall q kids, K !! q <> Some (l, kids) else forall q o kids, K !! q = Some (o, kids) -> ~ o `prefix_of` l
  end.
Proof.
  intros R Ht Hoid. assert (Hne : l <> []) by (destruct Hoid as (Hlen & _); intros ->; cbn in Hlen; lia). unfold TnmMibFindNode. rewrite split_dotted, hex_dotted by done. cbn [of_option]. unfold mbind, mib_bind, mret, mib_ret. cbn [from_option].
  rewrite is_oid_dotted, Ht. destruct (lookup_oid_spec roots st K F R (dotted l) l exact (lookup_oid_dotted _ Hoid) Hne) as [[Hno ->]|(q & o & Hd & ->)].
  { exists None, (-1). split; [done|]. destruct exact; [intros q kids Hq; by eapply Hno|]. intros q o kids Hq Hpre. by eapply Hno. }
  pose proof Hd as ([kids Hq] & [rest Hl] & Hmax). subst l. destruct (rep_linked_node roots st K F q R ltac:(by eexists)) as (n & Hn).
  assert (Hcheck : forall offset, check_module st [] 0 (Some q) offset = MibOk (Some q, offset)).
  { intros offset. apply (check_module_none roots st K F R Ht 0 (Some q) offset (nd_label n)). split; [by eexists|]. by exists n. }
  case_bool_decide as Eo.
  { exists (Some q), (-1). split; [apply Hcheck|]. exists (o ++ rest), []. rewrite app_nil_r. split; [done|]. split; [congruence|by left]. }
  assert (Hr : rest <> []) by (intros ->; rewrite app_nil_r in Eo; congruence). assert (Ho : o <> []) by (intros ->; by apply (view_nonempty _ _ _ _ R) in Hq).
  destruct exact.
  { exists None, (-1). split; [done|]. intros q' kids' Hq'. pose proof (Hmax _ _ _ Hq' ltac:(done)) as Hlen. rewrite length_app in Hlen. destruct rest; [done|cbn in Hlen; lia]. }
  exists (Some q). eexists. split; [apply Hcheck|]. exists o, rest. split; [done|]. split; [done|]. right. split; [done|].
  destruct (length o) as [|k] eqn:Ek; [by apply length_zero_iff_nil in Ek|]. rewrite skip_subids_dotted by (rewrite length_app, Ek; destruct rest; [done|cbn; lia]).
  rewrite <- Ek, drop_app_length, dotted_app, skip_offset, Nat2Z.id by done. apply drop_app_length.
Qed.

Lemma mib_find_longest_witness : exists res offset, TnmMibFindNode sample_tree (cstr "1.3.2.1.0") false = MibOk (res, offset) /\
  match res with
  | Some q => exists o rest, [1; 3; 2; 1; 0] = o ++ rest /\ deepest sample_view [1; 3; 2; 1; 0] q o /\ (rest = [] /\ offset = -1 \/ false = false /\ drop (Z.to_nat offset) (dotted [1; 3; 2; 1; 0]) = chr_dot :: dotted rest)
  | None => forall q o kids, sample_view !! q = Some (o, kids) -> ~ o `prefix_of` [1; 3; 2; 1; 0]
  end.
Proof.
  apply (mib_find_longest [10%nat; 11%nat; 12%nat] sample_tree sample_view (replicate NODEHASHSIZE []) [1; 3; 2; 1; 0] false); [exact sample_tree_rep|reflexivity|by apply (bool_decide_unpack _)].
Defined.

(** ** Other lookups *)

(** Behind a label the first subidentifier is read as 0: the name is not resolved to
    ["mib-2.0"]. *)
Lemma label_not_resolved : TnmMibGetName sample_tree (cstr "internet.2.0") false = MibOk (Some (cstr "internet.2.0")).
Proof. vm_compute. reflexivity. Qed.

(** The roots have no module name. *)
Lemma root_module_null : TnmMibFindNode sample_tree (cstr "TEST-MIB!iso") true = MibFault MibNull.
Proof. vm_compute. reflexivity. Qed.

(** The first list of nodes is put into the hash table twice: the last node of the file
    loses its children. *)
Definition first_load : mib_state := mkMib (list_to_map [(0%nat, sample_node "x" "iso" 5 None None (Some 1%nat)); (1%nat, sample_node "y" "x" 1 None None None)]) (replicate NODEHASHSIZE None) None None None [].
Lemma first_load_drops : exists st, TnmMibAddNode first_load (Some 0%nat) = MibOk (0, st) /\ (nd_childPtr <$> mb_nodes st !! 0%nat) = Some None /\ (nd_parentPtr <$> mb_nodes st !! 1%nat) = Some (Some 0%nat) /\
  TnmMibFindNode st (cstr "1.5.1") true = MibOk (None, -1).
Proof. eexists. split; [vm_compute; reflexivity|]. vm_compute. done. Qed.

(** A parent that is given by its object identifier is found but not under this name:
    the search starts again and again. *)
Lemma repeat_loops fuel : build_known fuel (with_nodes <[0%nat := sample_node "z" "1.3" 7 None None None]> (with_table <[Z.to_nat (HashNodeLabel (cstr "1.3")) := Some 0%nat]> sample_tree)) = MibFault MibLoops.
Proof.
  set (st := with_nodes _ _). assert (Hp : table_parent st (mb_nodehashtab st) = MibOk (Some 3%nat)) by (vm_compute; reflexivity).
  assert (Hb : BuildSubTree st 3 = MibOk st) by (vm_compute; reflexivity).
  induction fuel as [|fuel IH]; cbn [build_known]; unfold mbind, mib_bind; rewrite Hp; [reflexivity|]. by rewrite Hb.
Qed.

(** * Object identifier objects *)

Definition letter_head (label : cstring) : bool := match label with c :: _ => negb (isdigit c) | [] => false end.

Lemma hex_module m label rest : plain_name m = true -> plain_name label = true -> letter_head label = true -> TnmHexToOid (module_name m (instance_name label rest)) = Some None.
Proof.
  intros Hm Hl Hh. unfold TnmHexToOid, module_name. rewrite has_hex_plain by (by apply plain_chars). pose proof (hex_instance label rest Hl) as Hi. unfold TnmHexToOid in Hi.
  destruct (has_hex (instance_name label rest)) eqn:E; [by destruct (hex_to_oid_loop _ _ _)|]. cbn [app colons has_hex]. rewrite E, orb_false_r.
  unfold instance_name. destruct label as [|c label]; [done|]. cbn in Hh. apply negb_true_iff in Hh. cbn [app hex_separator]. rewrite Hh.
  rewrite (bool_decide_eq_false_2 (chr_colon = chr_dot)) by done. change (isdigit chr_colon) with false. rewrite !andb_false_r. by rewrite !bool_decide_eq_false_2 by (by intros [? ?]).
Qed.

Lemma module_not_oid m name : plain_name m = true -> TnmIsOid (module_name m name) = false.
Proof.
  intros Hp. pose proof (plain_chars _ Hp) as Hc. pose proof (plain_no_number _ Hp) as Hn. unfold module_name, TnmIsOid. clear Hp. generalize (colons ++ name) as t. intros t.
  induction m as [|c s IH]; [done|]. apply Forall_cons in Hc as [(H1 & H2 & _) Hc]. cbn [length is_oid_loop app]. rewrite !bool_decide_eq_false_2 by done. cbn [andb negb] in *.
  cbn [forallb] in Hn. destruct (isdigit c); [by apply IH|done].
Qed.

(** C32: The string of an object identifier object in the notation with names is the module,
    the label of the deepest MIB node on the way and the remaining subidentifiers, and
    [TnmGetOidFromObj] of an object with this string returns the same object identifier
    and keeps the notation.  The label must belong to one node only and not begin with a
    digit, the node must have no child 0, the dotted notation must fit into its buffer. *)
Theorem oid_obj_roundtrip roots st K F oid o rest q n m : rep roots st K F -> mb_tree st = head roots -> oid_wf oid -> oid_list oid = o ++ rest -> oid_value (o ++ rest) ->
  deepest K (o ++ rest) q o -> mb_nodes st !! q = Some n -> nd_moduleName n = Some m -> plain_name m = true -> (length m < 255)%nat -> letter_head (nd_label n) = true ->
  names_of st !! nd_label n = Some (Some q) -> (forall p kids, K !! p <> Some (o ++ [0], kids)) -> (length (dotted (o ++ rest)) < OID_STR_SIZE)%nat ->
  exists s oid', s = module_name m (instance_name (nd_label n) rest) /\
    oid_obj_string st (mkOidObj None (Some (oid, TNM_OID_AS_NAME))) = MibOk (s, mkOidObj (Some s) (Some (oid, TNM_OID_AS_NAME))) /\
    TnmGetOidFromObj st (mkOidObj (Some s) None) = MibOk (Some oid', mkOidObj (Some s) (Some (oid', TNM_OID_AS_NAME))) /\ oid_wf oid' /\ oid_list oid' = o ++ rest.
Proof.
  intros R Ht Hwf Hlist Hoid Hdeep Hn Hmod Hm Hlen Hlet Hnames Hzero Hl. destruct (rep_node _ _ _ _ R _ _ Hn) as (_ & Hp & _).
  assert (Ho : o <> []) by (pose proof Hdeep as ([l Hq] & _); intros ->; by apply (view_nonempty _ _ _ _ R) in Hq).
  pose proof (path_found roots st K F R Ht o rest q n Hdeep Hn Hoid Hl) as Hpath.
  destruct (TnmOidFromString_dotted TnmOidInit _ Hoid) as (oid' & Hfrom & Hwf' & Hlist'). exists (module_name m (instance_name (nd_label n) rest)), oid'. split; [done|].
  assert (Hstr : TnmOidToString oid = Some (dotted (o ++ rest))).
  { unfold TnmOidToString. rewrite oid_to_str_spec; [|apply Hwf|destruct Hwf as (? & ? & ? & _); lia]. fold (oid_list oid). rewrite Hlist. by rewrite decide_True by lia. }
  split; [|split; [|done]].
  - unfold oid_obj_string, UpdateStringOfOid. cbn [oo_bytes oo_rep]. rewrite Hstr. cbn [of_option]. unfold mbind, mib_bind, mret, mib_ret. rewrite (find_oid roots st K F R Ht o rest q n Hdeep Hn Hoid), (deref_node _ _ _ Hn), Hmod.
    assert (Hname : (m ++ colons ++ nd_label n) ++ (if bool_decide (0 < (if bool_decide (rest = []) then -1 else Z.of_nat (length (dotted o))))
      then drop (Z.to_nat (if bool_decide (rest = []) then -1 else Z.of_nat (length (dotted o)))) (dotted (o ++ rest)) else []) = module_name m (instance_name (nd_label n) rest)); [|by rewrite Hname].
    unfold module_name, instance_name. rewrite <- !app_assoc. f_equal. f_equal. f_equal. destruct (decide (rest = [])) as [->|Hr]; [done|]. rewrite (bool_decide_eq_false_2 (rest = [])) by done.
    rewrite bool_decide_eq_true_2 by (destruct (dotted_head o Ho) as (c & s & -> & _); cbn; lia). rewrite dotted_app, Nat2Z.id by done. apply drop_app_length.
  - unfold TnmGetOidFromObj, SetOidFromAny, oid_obj_string, oid_of_string. cbn [oo_bytes oo_rep]. unfold mbind, mib_bind, mret, mib_ret. rewrite module_not_oid by done.
    unfold TnmMibGetOid. rewrite hex_module by done. cbn [of_option]. unfold mbind, mib_bind, mret, mib_ret. cbn [from_option].
    rewrite (find_module_label roots st K F R Ht o rest q n Hdeep Hn Hoid m Hm Hlen Hmod Hnames Hzero), module_not_oid, Hpath by done.
    assert (Hcat : (if bool_decide (0 < (if bool_decide (rest = []) then -1 else Z.of_nat (length m + 2 + length (nd_label n))))
      then oid_strcat (dotted o) (drop (Z.to_nat (if bool_decide (rest = []) then -1 else Z.of_nat (length m + 2 + length (nd_label n)))) (module_name m (instance_name (nd_label n) rest)))
      else MibOk (dotted o)) = MibOk (dotted (o ++ rest))); [|rewrite Hcat, Hfrom; done].
    destruct (decide (rest = [])) as [->|Hr]; [by rewrite app_nil_r|]. rewrite (bool_decide_eq_false_2 (rest = [])) by done. rewrite bool_decide_eq_true_2 by lia. rewrite Nat2Z.id.
    unfold module_name, instance_name. rewrite (bool_decide_eq_false_2 (rest = [])) by done. rewrite !app_assoc.
    replace (length m + 2 + length (nd_label n))%nat with (length ((m ++ colons) ++ nd_label n)) by (rewrite !length_app; cbn; lia). rewrite drop_app_length. rewrite dotted_app in Hl |- * by done.
    unfold oid_strcat. by rewrite decide_True.
Qed.

(** 1.3.2.1.0 *)
Definition sample_oid : TnmOid := mkOid None 5 16 ([1; 3; 2; 1; 0] ++ replicate 11 0).

Lemma oid_obj_roundtrip_witness : exists s oid', s = cstr "TEST-MIB::mib-2.1.0" /\
  oid_obj_string sample_tree (mkOidObj None (Some (sample_oid, TNM_OID_AS_NAME))) = MibOk (s, mkOidObj (Some s) (Some (sample_oid, TNM_OID_AS_NAME))) /\
  TnmGetOidFromObj sample_tree (mkOidObj (Some s) None) = MibOk (Some oid', mkOidObj (Some s) (Some (oid', TNM_OID_AS_NAME))) /\ oid_wf oid' /\ oid_list oid' = [1; 3; 2; 1; 0].
Proof.
  apply (oid_obj_roundtrip [10%nat; 11%nat; 12%nat] sample_tree sample_view (replicate NODEHASHSIZE []) sample_oid [1; 3; 2] [1; 0] 2%nat (sample_node "mib-2" "internet" 2 (Some 3%nat) None None) (cstr "TEST-MIB")).
  - exact sample_tree_rep.
  - reflexivity.
  - split; [cbn; lia|]. split; [cbn; lia|]. split; [cbn; lia|]. cbn. repeat constructor; by unfold is_u32.
  - reflexivity.
  - by apply (bool_decide_unpack _).
  - exact sample_deepest.
  - reflexivity.
  - reflexivity.
  - reflexivity.
  - apply Nat.ltb_lt. vm_compute. reflexivity.
  - reflexivity.
  - reflexivity.
  - exact sample_no_zero.
  - apply Nat.ltb_lt. vm_compute. reflexivity.
Defined.
