(* ===== verification/MibIndex.v ===== *)
(** Instance identifiers of table rows ([tnmMibUtil.c]): [TnmMibPack] encodes the values of
    the index objects in subidentifiers, [TnmMibUnpack] reads them again, and
    [TnmMibGetValue] converts a string to a value of a base type.

    [indexNodeList] is the list of the index nodes.  [Tcl_GetLong] (also the conversion
    to Tcl's type [int]), [inet_addr] and [gethostbyname] are parameters. *)

From stdpp Require Import gmap.
From S2P Require Import Prelude Ber CStr Oid Util Obj Snmp Mib Hint MibTree MibNames OidObj.
Local Open Scope Z_scope.
Local Open Scope cint_scope.

(** The value an object holds after its conversion. *)
Inductive mib_value :=
  | MvInt (v : Z)
  | MvUnsigned (u : Z)
  | MvIpAddress (addr : list Z)
  | MvOid (oid : list Z)
  | MvOctets (octets : list Z).

(** [typePtr ? typePtr->syntax : syntax] *)
Definition base_syntax (n : TnmMibNode) : Z :=
  match nd_typePtr n with Some type => ty_syntax type | None => nd_syntax n end.

(** The data type has a fixed size. *)
Definition fixed_size (type : option TnmMibType) : bool :=
  match type with
  | Some type =>
      bool_decide (ty_restKind type = TNM_MIB_REST_SIZE) &&
      match ty_restList type with [unsRange min max] => bool_decide (min = max) | _ => false end
  | None => false
  end.

Section index.
Context (Tcl_GetLong : cstring -> option Z) (inet_addr : cstring -> list Z) (gethostbyname : cstring -> option (list Z)).
Context (fuel : nat) (st : mib_state).

Definition host_table : Type := gmap cstring (list Z).

(** The value, [None] for [TCL_ERROR], and the cache of host names.  A string that is no
    integer and cannot be converted by the type is an access to [NULL]; [Counter64] is
    converted to an address. *)
Definition TnmMibGetValue (hosts : host_table) (syntax : Z) (string : cstring) (type : option TnmMibType)
    : mib_out (option mib_value * host_table) :=
  if bool_decide (syntax = ASN1_INTEGER) then
    match Tcl_GetLong string, type with
    | Some v, _ => mret (Some (MvInt v), hosts)
    | None, None => mret (None, hosts)
    | None, Some _ =>
        scanned ← TnmMibScanValue (oid_as TNM_OID_AS_OID st) fuel type syntax string;
        match scanned with
        | None => MibFault MibNull
        | Some text => mret (MvInt <$> Tcl_GetLong text, hosts)
        end
    end
  else if bool_decide (syntax = ASN1_COUNTER32) || bool_decide (syntax = ASN1_TIMETICKS) || bool_decide (syntax = ASN1_GAUGE32) then
    mret (MvUnsigned <$> scan_unsigned32 string, hosts)
  else if bool_decide (syntax = ASN1_COUNTER64) || bool_decide (syntax = ASN1_IPADDRESS) then
    match TnmSetIPAddress inet_addr gethostbyname hosts string with
    | (TCL_OK, Some addr, hosts) => mret (Some (MvIpAddress addr), hosts)
    | (_, _, hosts) => mret (None, hosts)
    end
  else if bool_decide (syntax = ASN1_OBJECT_IDENTIFIER) then
    rep ← oid_of_string st string;
    mret (match rep with Some (oid, _) => Some (MvOid (oid_values oid)) | None => None end, hosts)
  else if bool_decide (syntax = ASN1_OCTET_STRING) then
    match TnmHexDec string, type with
    | Some octets, _ => mret (Some (MvOctets octets), hosts)
    | None, None => mret (None, hosts)
    | None, Some _ =>
        scanned ← TnmMibScanValue (oid_as TNM_OID_AS_OID st) fuel type syntax string;
        mret (match scanned with Some text => MvOctets <$> TnmHexDec text | None => None end, hosts)
    end
  else MibFault MibPanic.

(** The subidentifiers of a value; [prefix] is whether its length comes first. *)
Definition value_subids (v : mib_value) (prefix : bool) : list Z :=
  let with_length l := if prefix then u32 (Z.of_nat (length l)) :: l else l in
  match v with
  | MvInt v => [u32 v]
  | MvUnsigned u => [u]
  | MvIpAddress addr => addr
  | MvOid oid => with_length oid
  | MvOctets octets => with_length (map (fun c => c .& 0xff) octets)
  end.

Definition has_length (syntax : Z) : bool := bool_decide (syntax = ASN1_OBJECT_IDENTIFIER) || bool_decide (syntax = ASN1_OCTET_STRING).

(** [implied] after an index: it stays set behind an index of a fixed size. *)
Definition next_implied (n : TnmMibNode) (implied : bool) : bool := implied || has_length (base_syntax n) && fixed_size (nd_typePtr n).

(** [switch (syntax)] of [TnmMibPack]; [Counter32] and [Counter64] cannot be an index. *)
Definition index_syntax (syntax : Z) : bool :=
  bool_decide (syntax = ASN1_INTEGER) || bool_decide (syntax = ASN1_TIMETICKS) || bool_decide (syntax = ASN1_GAUGE32) ||
  bool_decide (syntax = ASN1_IPADDRESS) || has_length syntax.

Inductive pack_result := PackOk | PackInvalid (value label : cstring) | PackArguments.

(** The results of [TnmOidAppend] are ignored. *)
Fixpoint TnmMibPack (hosts : host_table) (oid : TnmOid) (objv : list cstring) (implied : bool) (indexNodeList : list TnmMibNode)
    : mib_out (pack_result * TnmOid * host_table) :=
  match indexNodeList, objv with
  | n :: nodes, obj :: objv =>
      let syntax := base_syntax n in
      '(value, hosts) ← TnmMibGetValue hosts syntax obj (nd_typePtr n);
      match value with
      | None => mret (PackInvalid obj (nd_label n), oid, hosts)
      | Some value =>
          if index_syntax syntax then
            let implied := next_implied n implied in
            oid ← of_option MibOverrun (oid_append_all (value_subids value (negb implied || bool_decide (nodes <> []))) oid);
            TnmMibPack hosts oid objv implied nodes
          else MibFault MibPanic
      end
  | [], [] => mret (PackOk, oid, hosts)
  | _, _ => mret (PackArguments, oid, hosts)
  end.

(** The formatted value, or the string of the value itself. *)
Definition formatted (n : TnmMibNode) (string : cstring) : mib_out cstring :=
  text ← TnmMibFormatValue Tcl_GetLong (oid_as TNM_OID_AS_NAME st) fuel (nd_typePtr n) (nd_syntax n) string;
  mret (default string text).

(** The length of a value: all that is left, or the next subidentifier; [None] for an
    illegal length. *)
Definition value_length (implied last : bool) (rest : list Z) : option (nat * list Z) :=
  let '(len, rest) := if implied && last then (Z.of_nat (length rest), rest)
                      else match rest with [] => (-1, []) | s :: rest => (s32 s, rest) end in
  if bool_decide (len < 0) || bool_decide (Z.of_nat (length rest) < len) || bool_decide (Z.of_nat TNM_OID_MAX_SIZE < len)
  then None else Some (Z.to_nat len, rest).

(** [switch (syntax)] of [TnmMibUnpack]: the text of the value and the subidentifiers that
    are left; [None] for an illegal length.  The NUL behind the octets needs a place in
    [bytes[TNM_OID_MAX_SIZE]]. *)
Definition unpack_value (n : TnmMibNode) (implied last : bool) (rest : list Z) : mib_out (option (cstring * list Z)) :=
  let syntax := base_syntax n in
  if bool_decide (syntax = ASN1_INTEGER) then
    match rest with
    | [] => mret None
    | s :: rest => text ← formatted n (sprintf_ld s); mret (Some (text, rest))
    end
  else if bool_decide (syntax = ASN1_TIMETICKS) || bool_decide (syntax = ASN1_GAUGE32) then
    match rest with [] => mret None | s :: rest => mret (Some (sprintf_u s, rest)) end
  else if bool_decide (syntax = ASN1_IPADDRESS) then
    match rest with
    | a :: b :: c :: d :: rest => mret (Some (inet_ntoa [a .& 0xff; b .& 0xff; c .& 0xff; d .& 0xff], rest))
    | _ => mret None
    end
  else if bool_decide (syntax = ASN1_OBJECT_IDENTIFIER) then
    match value_length implied last rest with
    | None => mret None
    | Some (len, rest) =>
        oid ← of_option MibOverrun (oid_append_all (take len rest) TnmOidInit);
        text ← UpdateStringOfOid st oid TNM_OID_AS_NAME;
        mret (Some (text, drop len rest))
    end
  else if bool_decide (syntax = ASN1_OCTET_STRING) then
    match value_length implied last rest with
    | None => mret None
    | Some (len, rest) =>
        if bool_decide (len < TNM_OID_MAX_SIZE)%nat then
          text ← formatted n (TnmHexEnc (map (fun s => s .& 0xff) (take len rest)));
          mret (Some (text, drop len rest))
        else MibFault MibOverrun
    end
  else MibFault MibPanic.

Inductive unpack_result := UnpackOk (values : list cstring) | IllegalLength | TrailingSubid.

Fixpoint unpack_loop (rest : list Z) (implied : bool) (indexNodeList : list TnmMibNode) (values : list cstring) : mib_out unpack_result :=
  match indexNodeList with
  | [] => mret (if bool_decide (rest = []) then UnpackOk values else TrailingSubid)
  | n :: nodes =>
      let implied := next_implied n implied in
      value ← unpack_value n implied (bool_decide (nodes = [])) rest;
      match value with
      | None => mret IllegalLength
      | Some (text, rest) => unpack_loop rest implied nodes (values ++ [text])
      end
  end.

(** [offset] is the number of subidentifiers of the instance. *)
Definition TnmMibUnpack (oid : TnmOid) (offset : nat) (implied : bool) (indexNodeList : list TnmMibNode) : mib_out unpack_result :=
  unpack_loop (drop (length (oid_values oid) - offset) (oid_values oid)) implied indexNodeList [].
End index.
