(* ===== verification/MibIndexTheorems.v ===== *)
(** What [TnmMibPack] encodes, [TnmMibUnpack] reads again. *)

From stdpp Require Import gmap.
From S2P Require Import Prelude Ber CStr Oid OidTheorems Util Obj Snmp Mib Hint MibTree MibTreeInv MibTreeFind MibTreeAdd MibNames OidObj MibNamesTheorems MibIndex.
Local Open Scope Z_scope.
Local Open Scope cint_scope.

(** Appending within the maximum length. *)
Lemma oid_append_all_spec l : forall oid, oid_wf oid -> Forall is_u32 l -> (length (oid_list oid) + length l <= TNM_OID_MAX_SIZE)%nat ->
  exists oid', oid_append_all l oid = Some oid' /\ oid_wf oid' /\ oid_list oid' = oid_list oid ++ l.
Proof.
  induction l as [|v l IH]; intros oid Hwf Hl Hlen; [exists oid; by rewrite app_nil_r|]. apply Forall_cons in Hl as [Hv Hl]. cbn [oid_append_all]. cbn [length] in Hlen.
  pose proof Hwf as (H0 & H1 & H2 & _). assert (Hol : length (oid_list oid) = Z.to_nat (oid_length oid)) by (by apply oid_list_length). unfold TNM_OID_MAX_SIZE in *.
  destruct (TnmOidAppend_spec oid v Hwf) as (o' & -> & Hwf' & Ho'); [unfold oid_max; lia|unfold TNM_OID_MAX_SIZE; lia|]. cbn [mbind option_bind]. rewrite u32_id in Ho' by done.
  destruct (IH o' Hwf' Hl) as (oid' & -> & Hwf2 & Ho2); [rewrite Ho', length_app; cbn; lia|]. exists oid'. split; [done|]. split; [done|]. by rewrite Ho2, Ho', <- app_assoc.
Qed.

(** A value an index node can have. *)
Definition value_ok (n : TnmMibNode) (v : mib_value) : Prop :=
  match v with
  | MvInt v => base_syntax n = ASN1_INTEGER /\ is_u32 v
  | MvUnsigned u => (base_syntax n = ASN1_TIMETICKS \/ base_syntax n = ASN1_GAUGE32) /\ is_u32 u
  | MvIpAddress addr => base_syntax n = ASN1_IPADDRESS /\ length addr = 4%nat /\ bytes addr
  | MvOid oid => base_syntax n = ASN1_OBJECT_IDENTIFIER /\ Forall is_u32 oid
  | MvOctets octets => base_syntax n = ASN1_OCTET_STRING /\ bytes octets /\ (length octets < TNM_OID_MAX_SIZE)%nat
  end.

(** The subidentifiers of an instance. *)
Fixpoint instance_subids (implied : bool) (nodes : list TnmMibNode) (values : list mib_value) : list Z :=
  match nodes, values with
  | n :: nodes, v :: values =>
      let implied := next_implied n implied in
      value_subids v (negb implied || bool_decide (nodes <> [])) ++ instance_subids implied nodes values
  | _, _ => []
  end.

Lemma bytes_land l : bytes l -> map (fun c => c .& 0xff) l = l.
Proof. induction 1 as [|c l Hc _ IH]; [done|]. cbn [map]. rewrite land_255, Z.mod_small by apply Hc. by rewrite IH. Qed.

Lemma value_syntax n v : value_ok n v -> index_syntax (base_syntax n) = true.
Proof. destruct v; cbn; intros [H _]; [by rewrite H|destruct H as [-> | ->]; done|by rewrite H..]. Qed.

Lemma subids_u32 n v prefix : value_ok n v -> Forall is_u32 (value_subids v prefix).
Proof.
  assert (Hu : forall z, is_u32 (u32 z)) by (intros z; unfold is_u32, u32; apply Z.mod_pos_bound; lia).
  assert (Hb : forall l, bytes l -> Forall is_u32 l) by (intros l Hl; eapply Forall_impl; [exact Hl|]; unfold is_byte, is_u32; lia).
  destruct v; cbn; intros H.
  - constructor; [apply Hu|constructor].
  - destruct H as [_ H]. constructor; [exact H|constructor].
  - apply Hb. apply H.
  - destruct H as [_ H]. destruct prefix; [by constructor|done].
  - destruct H as (_ & H & _). rewrite bytes_land by done. destruct prefix; [constructor; [done|]|]; by apply Hb.
Qed.

Lemma value_length_spec implied last l rest : (length l <= TNM_OID_MAX_SIZE)%nat -> (implied && last = true -> rest = []) ->
  value_length implied last ((if negb (implied && last) then u32 (Z.of_nat (length l)) :: l else l) ++ rest) = Some (length l, l ++ rest).
Proof.
  intros Hl Hr. unfold value_length, TNM_OID_MAX_SIZE in *. destruct (implied && last) eqn:E; cbn [negb].
  - rewrite (Hr eq_refl), app_nil_r. rewrite !bool_decide_eq_false_2 by lia. cbn. by rewrite Nat2Z.id.
  - cbn [app]. rewrite u32_id by (unfold is_u32; lia). rewrite s32_id by (unfold is_s32; lia). rewrite length_app. rewrite !bool_decide_eq_false_2 by lia. cbn. by rewrite Nat2Z.id.
Qed.

Section texts.
#[local] Set Default Proof Using "All".
Context (Tcl_GetLong : cstring -> option Z) (fuel : nat) (st : mib_state).

(** The text of a value. *)
Definition value_text (n : TnmMibNode) (v : mib_value) : mib_out cstring :=
  match v with
  | MvInt v => formatted Tcl_GetLong fuel st n (sprintf_ld v)
  | MvUnsigned u => mret (sprintf_u u)
  | MvIpAddress addr => mret (inet_ntoa addr)
  | MvOid oid => oid ← of_option MibOverrun (oid_append_all oid TnmOidInit); UpdateStringOfOid st oid TNM_OID_AS_NAME
  | MvOctets octets => formatted Tcl_GetLong fuel st n (TnmHexEnc octets)
  end.

Lemma unpack_value_spec n v implied last rest text : value_ok n v -> value_text n v = MibOk text -> (length (value_subids v (negb (implied && last))) <= TNM_OID_MAX_SIZE)%nat -> (implied && last = true -> rest = []) ->
  unpack_value Tcl_GetLong fuel st n implied last (value_subids v (negb (implied && last)) ++ rest) = MibOk (Some (text, rest)).
Proof.
  intros Hv Ht Hlen Hr. unfold unpack_value. destruct v as [v|u|addr|oid|octets]; cbn [value_ok value_text value_subids] in *.
  - destruct Hv as [-> Hv]. rewrite bool_decide_eq_true_2 by done. cbn [app]. rewrite u32_id by done. unfold mbind, mib_bind. by rewrite Ht.
  - destruct Hv as [Hs Hu]. injection Ht as <-. destruct Hs as [-> | ->]; reflexivity.
  - destruct Hv as (-> & H4 & Hb). injection Ht as <-. destruct addr as [|a [|b [|c [|d [|]]]]]; try done. pose proof (bytes_land _ Hb) as Hm. cbn [map] in Hm. injection Hm as Ha Hb' Hc Hd.
    cbn [app]. rewrite Ha, Hb', Hc, Hd. reflexivity.
  - destruct Hv as (-> & Hu). change (bool_decide (ASN1_OBJECT_IDENTIFIER = ASN1_INTEGER)) with false. change (bool_decide (ASN1_OBJECT_IDENTIFIER = ASN1_TIMETICKS) || bool_decide (ASN1_OBJECT_IDENTIFIER = ASN1_GAUGE32)) with false.
    change (bool_decide (ASN1_OBJECT_IDENTIFIER = ASN1_IPADDRESS)) with false. rewrite bool_decide_eq_true_2 by done. cbv iota. rewrite value_length_spec; [|destruct (negb _); cbn in Hlen; lia|done].
    rewrite take_app_length, drop_app_length. unfold mbind, mib_bind in *. destruct (of_option MibOverrun (oid_append_all oid TnmOidInit)); [|done]. by rewrite Ht.
  - destruct Hv as (-> & Hb & H128). rewrite bytes_land in * by done. change (bool_decide (ASN1_OCTET_STRING = ASN1_INTEGER)) with false. change (bool_decide (ASN1_OCTET_STRING = ASN1_TIMETICKS) || bool_decide (ASN1_OCTET_STRING = ASN1_GAUGE32)) with false.
    change (bool_decide (ASN1_OCTET_STRING = ASN1_IPADDRESS)) with false. change (bool_decide (ASN1_OCTET_STRING = ASN1_OBJECT_IDENTIFIER)) with false. rewrite bool_decide_eq_true_2 by done. cbv iota.
    rewrite value_length_spec; [|lia|done]. rewrite bool_decide_eq_true_2 by done. rewrite take_app_length, drop_app_length, bytes_land by done. unfold mbind, mib_bind. by rewrite Ht.
Qed.

Lemma unpack_spec nodes : forall values texts implied out, Forall2 value_ok nodes values -> Forall3 (fun n v t => value_text n v = MibOk t) nodes values texts ->
  (length (instance_subids implied nodes values) <= TNM_OID_MAX_SIZE)%nat ->
  unpack_loop Tcl_GetLong fuel st (instance_subids implied nodes values) implied nodes out = MibOk (UnpackOk (out ++ texts)).
Proof.
  induction nodes as [|n nodes IH]; intros values texts implied out Hok Ht Hlen; inversion Ht as [|? y z ? l' k' Hty Htr]; subst; [by rewrite app_nil_r|]. apply Forall2_cons in Hok as [Hv Hok].
  cbn [unpack_loop instance_subids] in *. set (im := next_implied n implied) in *. rewrite length_app in Hlen.
  assert (Hpre : negb im || bool_decide (nodes <> []) = negb (im && bool_decide (nodes = []))) by (destruct im, nodes; reflexivity). rewrite Hpre in Hlen |- *.
  unfold mbind, mib_bind. rewrite (unpack_value_spec n y im (bool_decide (nodes = [])) _ z); [|done|done|lia|].
  - rewrite IH with (texts := k'); [by rewrite <- app_assoc|done|done|lia].
  - intros [_ E]%andb_true_iff. apply bool_decide_eq_true_1 in E. subst nodes. done.
Qed.

End texts.

Section index.
#[local] Set Default Proof Using "All".
Context (Tcl_GetLong : cstring -> option Z) (inet_addr : cstring -> list Z) (gethostbyname : cstring -> option (list Z)).
Context (fuel : nat) (st : mib_state).

(** The conversion of the arguments of [TnmMibPack], with the cache of host names. *)
Inductive converts : host_table -> list TnmMibNode -> list cstring -> list mib_value -> host_table -> Prop :=
  | converts_nil hosts : converts hosts [] [] [] hosts
  | converts_cons hosts hosts1 hosts' n nodes obj objv v values :
      TnmMibGetValue Tcl_GetLong inet_addr gethostbyname fuel st hosts (base_syntax n) obj (nd_typePtr n) = MibOk (Some v, hosts1) ->
      converts hosts1 nodes objv values hosts' -> converts hosts (n :: nodes) (obj :: objv) (v :: values) hosts'.

Lemma pack_spec nodes : forall hosts objv values hosts' oid implied, converts hosts nodes objv values hosts' -> Forall2 value_ok nodes values -> oid_wf oid ->
  (length (oid_list oid) + length (instance_subids implied nodes values) <= TNM_OID_MAX_SIZE)%nat -> exists oid',
  TnmMibPack Tcl_GetLong inet_addr gethostbyname fuel st hosts oid objv implied nodes = MibOk (PackOk, oid', hosts') /\ oid_wf oid' /\ oid_list oid' = oid_list oid ++ instance_subids implied nodes values.
Proof.
  induction nodes as [|n nodes IH]; intros hosts objv values hosts' oid implied Hc Hok Hwf Hlen; inversion Hc as [|? hosts1 ? ? ? obj objv' v values' Hget Hrest]; subst; [exists oid; by rewrite app_nil_r|].
  apply Forall2_cons in Hok as [Hv Hok]. cbn [TnmMibPack]. unfold mbind, mib_bind. rewrite Hget. rewrite (value_syntax _ _ Hv). cbn [instance_subids] in Hlen |- *. rewrite length_app in Hlen.
  destruct (oid_append_all_spec (value_subids v (negb (next_implied n implied) || bool_decide (nodes <> []))) oid Hwf (subids_u32 _ _ _ Hv)) as (o1 & -> & Hwf1 & Ho1); [lia|]. cbn [of_option]. unfold mret, mib_ret.
  destruct (IH _ _ _ _ o1 (next_implied n implied) Hrest Hok Hwf1) as (oid' & -> & Hwf2 & Ho2); [rewrite Ho1, length_app; lia|]. exists oid'. split; [done|]. split; [done|]. by rewrite Ho2, Ho1, <- app_assoc.
Qed.

(** If the arguments of [TnmMibPack] convert to values of the index nodes and the
    instance identifier stays within 128 subidentifiers, [TnmMibPack] appends the
    subidentifiers of the values to the object identifier, and [TnmMibUnpack] of the
    result returns the texts of the same values, whether the last index is implied or has
    a fixed size or not.  Integers must not be negative and octet strings must be shorter
    than 128 octets. *)
Theorem mib_index_roundtrip hosts hosts' oid objv nodes values texts implied : converts hosts nodes objv values hosts' -> Forall2 value_ok nodes values ->
  Forall3 (fun n v t => value_text Tcl_GetLong fuel st n v = MibOk t) nodes values texts -> oid_wf oid -> (length (oid_list oid) + length (instance_subids implied nodes values) <= TNM_OID_MAX_SIZE)%nat ->
  exists oid', TnmMibPack Tcl_GetLong inet_addr gethostbyname fuel st hosts oid objv implied nodes = MibOk (PackOk, oid', hosts') /\
    oid_list oid' = oid_list oid ++ instance_subids implied nodes values /\
    TnmMibUnpack Tcl_GetLong fuel st oid' (length (instance_subids implied nodes values)) implied nodes = MibOk (UnpackOk texts).
Proof.
  intros Hc Hok Ht Hwf Hlen. destruct (pack_spec nodes hosts objv values hosts' oid implied Hc Hok Hwf Hlen) as (oid' & Hp & Hwf' & Ho). exists oid'. split; [done|]. split; [done|].
  unfold TnmMibUnpack. change (oid_values oid') with (oid_list oid'). rewrite Ho, length_app, Nat.add_sub, drop_app_length. apply (unpack_spec _ _ _ nodes values texts implied []); [done|done|lia].
Qed.
End index.

(** An interface number and an implied name. *)
Definition sample_column (label : string) (syntax : Z) : TnmMibNode :=
  mkNode 1 (cstr label) (Some (cstr "ifEntry")) (Some (cstr "TEST-MIB")) None 0 syntax 0 0 0 false false None None None None None.

Lemma mib_index_roundtrip_witness : exists oid',
  TnmMibPack sscanf_ld (fun _ => []) (fun _ => None) 10 sample_tree ∅ sample_oid [cstr "7"; cstr "66:6F:6F"] true [sample_column "ifIndex" ASN1_INTEGER; sample_column "ifName" ASN1_OCTET_STRING] = MibOk (PackOk, oid', ∅) /\
  oid_list oid' = [1; 3; 2; 1; 0] ++ [7; 102; 111; 111] /\
  TnmMibUnpack sscanf_ld 10 sample_tree oid' 4 true [sample_column "ifIndex" ASN1_INTEGER; sample_column "ifName" ASN1_OCTET_STRING] = MibOk (UnpackOk [cstr "7"; cstr "66:6F:6F"]).
Proof.
  apply (mib_index_roundtrip sscanf_ld (fun _ => []) (fun _ => None) 10 sample_tree ∅ ∅ sample_oid [cstr "7"; cstr "66:6F:6F"] [sample_column "ifIndex" ASN1_INTEGER; sample_column "ifName" ASN1_OCTET_STRING] [MvInt 7; MvOctets [102; 111; 111]] [cstr "7"; cstr "66:6F:6F"] true).
  - repeat (eapply converts_cons; [vm_compute; reflexivity|]). constructor.
  - repeat constructor; vm_compute; try done.
  - do 2 (constructor; [vm_compute; reflexivity|]). constructor.
  - split; [cbn; lia|]. split; [cbn; lia|]. split; [cbn; lia|]. cbn. repeat constructor; by unfold is_u32.
  - apply Nat.leb_le. vm_compute. reflexivity.
Defined.
