(* ===== verification/NetMapBase.v ===== *)
(** The data of the network maps, [tnmMap.h], and the five types of items
    ([tnmMapNode.c], [tnmMapPort.c], [tnmMapNet.c], [tnmMapLink.c], [tnmMapGroup.c]).

    Maps, items, events, bindings and messages are structures in memory.  An address is
    used once: reading one that is not in memory any more is the outcome [UseAfterFree].
    The histories and bindings of a map or an item are lists of addresses that are kept
    beside it, because they stay in memory when the item is released.  Every structure
    has a Tcl command; its token is the name of the command. *)

From stdpp Require Import gmap.
From S2P Require Import Prelude Mem CStr Util.
Local Open Scope Z_scope.

(** ** Types of items *)

Inductive item_type := tnmNodeType | tnmPortType | tnmNetworkType | tnmLinkType | tnmGroupType.
#[global] Instance item_type_eq_dec : EqDecision item_type.
Proof. solve_decision. Defined.

Definition type_name (t : item_type) : cstring :=
  match t with
  | tnmNodeType => cstr "node" | tnmPortType => cstr "port" | tnmNetworkType => cstr "network"
  | tnmLinkType => cstr "link" | tnmGroupType => cstr "group"
  end.

Definition parentType (t : item_type) : item_type :=
  match t with tnmPortType => tnmNodeType | _ => tnmGroupType end.

Definition TNM_ITEM_OPT_COLOR : Z := 1.
Definition TNM_ITEM_OPT_FONT : Z := 2.
Definition TNM_ITEM_OPT_ICON : Z := 3.
Definition TNM_ITEM_OPT_PRIO : Z := 4.
Definition TNM_ITEM_OPT_SRC : Z := 5.
Definition TNM_ITEM_OPT_DST : Z := 6.
Definition TNM_ITEM_OPT_CTIME : Z := 7.
Definition TNM_ITEM_OPT_MTIME : Z := 8.
Definition TNM_ITEM_OPT_EXPIRE : Z := 9.
Definition TNM_ITEM_OPT_PATH : Z := 10.
Definition TNM_ITEM_OPT_TAGS : Z := 11.
Definition TNM_ITEM_OPT_STORE : Z := 12.
Definition TNM_ITEM_OPT_PARENT : Z := 13.
Definition TNM_ITEM_OPT_NAME : Z := 14.
Definition TNM_ITEM_OPT_ADDRESS : Z := 15.

Definition nodeOptions : TnmTable :=
  [mkElem TNM_ITEM_OPT_ADDRESS (cstr "-address"); mkElem TNM_ITEM_OPT_COLOR (cstr "-color");
   mkElem TNM_ITEM_OPT_CTIME (cstr "-ctime"); mkElem TNM_ITEM_OPT_EXPIRE (cstr "-expire");
   mkElem TNM_ITEM_OPT_FONT (cstr "-font"); mkElem TNM_ITEM_OPT_PARENT (cstr "-group");
   mkElem TNM_ITEM_OPT_ICON (cstr "-icon"); mkElem TNM_ITEM_OPT_MTIME (cstr "-mtime");
   mkElem TNM_ITEM_OPT_NAME (cstr "-name"); mkElem TNM_ITEM_OPT_PATH (cstr "-path");
   mkElem TNM_ITEM_OPT_PRIO (cstr "-priority"); mkElem TNM_ITEM_OPT_STORE (cstr "-store");
   mkElem TNM_ITEM_OPT_TAGS (cstr "-tags")].

Definition portOptions : TnmTable :=
  [mkElem TNM_ITEM_OPT_ADDRESS (cstr "-address"); mkElem TNM_ITEM_OPT_COLOR (cstr "-color");
   mkElem TNM_ITEM_OPT_CTIME (cstr "-ctime"); mkElem TNM_ITEM_OPT_EXPIRE (cstr "-expire");
   mkElem TNM_ITEM_OPT_MTIME (cstr "-mtime"); mkElem TNM_ITEM_OPT_NAME (cstr "-name");
   mkElem TNM_ITEM_OPT_PARENT (cstr "-node"); mkElem TNM_ITEM_OPT_PATH (cstr "-path");
   mkElem TNM_ITEM_OPT_PRIO (cstr "-priority"); mkElem TNM_ITEM_OPT_STORE (cstr "-store");
   mkElem TNM_ITEM_OPT_TAGS (cstr "-tags")].

Definition networkOptions : TnmTable :=
  [mkElem TNM_ITEM_OPT_ADDRESS (cstr "-address"); mkElem TNM_ITEM_OPT_COLOR (cstr "-color");
   mkElem TNM_ITEM_OPT_CTIME (cstr "-ctime"); mkElem TNM_ITEM_OPT_EXPIRE (cstr "-expire");
   mkElem TNM_ITEM_OPT_FONT (cstr "-font"); mkElem TNM_ITEM_OPT_PARENT (cstr "-group");
   mkElem TNM_ITEM_OPT_ICON (cstr "-icon"); mkElem TNM_ITEM_OPT_MTIME (cstr "-mtime");
   mkElem TNM_ITEM_OPT_NAME (cstr "-name"); mkElem TNM_ITEM_OPT_PATH (cstr "-path");
   mkElem TNM_ITEM_OPT_PRIO (cstr "-priority"); mkElem TNM_ITEM_OPT_STORE (cstr "-store");
   mkElem TNM_ITEM_OPT_TAGS (cstr "-tags")].

Definition linkOptions : TnmTable :=
  [mkElem TNM_ITEM_OPT_ADDRESS (cstr "-address"); mkElem TNM_ITEM_OPT_COLOR (cstr "-color");
   mkElem TNM_ITEM_OPT_CTIME (cstr "-ctime"); mkElem TNM_ITEM_OPT_DST (cstr "-dst");
   mkElem TNM_ITEM_OPT_EXPIRE (cstr "-expire"); mkElem TNM_ITEM_OPT_PARENT (cstr "-group");
   mkElem TNM_ITEM_OPT_MTIME (cstr "-mtime"); mkElem TNM_ITEM_OPT_NAME (cstr "-name");
   mkElem TNM_ITEM_OPT_PATH (cstr "-path"); mkElem TNM_ITEM_OPT_PRIO (cstr "-priority");
   mkElem TNM_ITEM_OPT_SRC (cstr "-src"); mkElem TNM_ITEM_OPT_STORE (cstr "-store");
   mkElem TNM_ITEM_OPT_TAGS (cstr "-tags")].

Definition groupOptions : TnmTable :=
  [mkElem TNM_ITEM_OPT_ADDRESS (cstr "-address"); mkElem TNM_ITEM_OPT_COLOR (cstr "-color");
   mkElem TNM_ITEM_OPT_CTIME (cstr "-ctime"); mkElem TNM_ITEM_OPT_EXPIRE (cstr "-expire");
   mkElem TNM_ITEM_OPT_PARENT (cstr "-group"); mkElem TNM_ITEM_OPT_MTIME (cstr "-mtime");
   mkElem TNM_ITEM_OPT_NAME (cstr "-name"); mkElem TNM_ITEM_OPT_PATH (cstr "-path");
   mkElem TNM_ITEM_OPT_PRIO (cstr "-priority"); mkElem TNM_ITEM_OPT_STORE (cstr "-store");
   mkElem TNM_ITEM_OPT_TAGS (cstr "-tags")].

Definition configTable (t : item_type) : TnmTable :=
  match t with
  | tnmNodeType => nodeOptions | tnmPortType => portOptions | tnmNetworkType => networkOptions
  | tnmLinkType => linkOptions | tnmGroupType => groupOptions
  end.

(** ** Items *)

Record TnmMapItem := mkItem {
  it_x : Z;
  it_y : Z;
  it_name : cstring;
  it_address : option cstring;
  it_path : cstring;
  it_color : option cstring;
  it_font : option cstring;
  it_icon : option cstring;
  it_parent : option nat;
  it_memberItems : list nat;
  it_linkedItems : list nat;
  it_srcPtr : option nat;
  it_dstPtr : option nat;
  it_expire : Z;
  it_health : Z;
  it_priority : Z;
  it_dumped : bool;
  it_token : option cstring;
  it_attributes : gmap cstring cstring;
  it_ctime : Z * Z;
  it_mtime : Z * Z;
  it_tagList : cstring;
  it_storeList : cstring;
  it_mapPtr : nat;
  it_typePtr : item_type
}.

Definition set_it_x (v : Z) (it : TnmMapItem) : TnmMapItem :=
  mkItem v (it_y it) (it_name it) (it_address it) (it_path it) (it_color it) (it_font it) (it_icon it) (it_parent it) (it_memberItems it) (it_linkedItems it) (it_srcPtr it) (it_dstPtr it) (it_expire it) (it_health it) (it_priority it) (it_dumped it) (it_token it) (it_attributes it) (it_ctime it) (it_mtime it) (it_tagList it) (it_storeList it) (it_mapPtr it) (it_typePtr it).
Definition set_it_y (v : Z) (it : TnmMapItem) : TnmMapItem :=
  mkItem (it_x it) v (it_name it) (it_address it) (it_path it) (it_color it) (it_font it) (it_icon it) (it_parent it) (it_memberItems it) (it_linkedItems it) (it_srcPtr it) (it_dstPtr it) (it_expire it) (it_health it) (it_priority it) (it_dumped it) (it_token it) (it_attributes it) (it_ctime it) (it_mtime it) (it_tagList it) (it_storeList it) (it_mapPtr it) (it_typePtr it).
Definition set_it_name (v : cstring) (it : TnmMapItem) : TnmMapItem :=
  mkItem (it_x it) (it_y it) v (it_address it) (it_path it) (it_color it) (it_font it) (it_icon it) (it_parent it) (it_memberItems it) (it_linkedItems it) (it_srcPtr it) (it_dstPtr it) (it_expire it) (it_health it) (it_priority it) (it_dumped it) (it_token it) (it_attributes it) (it_ctime it) (it_mtime it) (it_tagList it) (it_storeList it) (it_mapPtr it) (it_typePtr it).
Definition set_it_address (v : option cstring) (it : TnmMapItem) : TnmMapItem :=
  mkItem (it_x it) (it_y it) (it_name it) v (it_path it) (it_color it) (it_font it) (it_icon it) (it_parent it) (it_memberItems it) (it_linkedItems it) (it_srcPtr it) (it_dstPtr it) (it_expire it) (it_health it) (it_priority it) (it_dumped it) (it_token it) (it_attributes it) (it_ctime it) (it_mtime it) (it_tagList it) (it_storeList it) (it_mapPtr it) (it_typePtr it).
Definition set_it_path (v : cstring) (it : TnmMapItem) : TnmMapItem :=
  mkItem (it_x it) (it_y it) (it_name it) (it_address it) v (it_color it) (it_font it) (it_icon it) (it_parent it) (it_memberItems it) (it_linkedItems it) (it_srcPtr it) (it_dstPtr it) (it_expire it) (it_health it) (it_priority it) (it_dumped it) (it_token it) (it_attributes it) (it_ctime it) (it_mtime it) (it_tagList it) (it_storeList it) (it_mapPtr it) (it_typePtr it).
Definition set_it_color (v : option cstring) (it : TnmMapItem) : TnmMapItem :=
  mkItem (it_x it) (it_y it) (it_name it) (it_address it) (it_path it) v (it_font it) (it_icon it) (it_parent it) (it_memberItems it) (it_linkedItems it) (it_srcPtr it) (it_dstPtr it) (it_expire it) (it_health it) (it_priority it) (it_dumped it) (it_token it) (it_attributes it) (it_ctime it) (it_mtime it) (it_tagList it) (it_storeList it) (it_mapPtr it) (it_typePtr it).
Definition set_it_font (v : option cstring) (it : TnmMapItem) : TnmMapItem :=
  mkItem (it_x it) (it_y it) (it_name it) (it_address it) (it_path it) (it_color it) v (it_icon it) (it_parent it) (it_memberItems it) (it_linkedItems it) (it_srcPtr it) (it_dstPtr it) (it_expire it) (it_health it) (it_priority it) (it_dumped it) (it_token it) (it_attributes it) (it_ctime it) (it_mtime it) (it_tagList it) (it_storeList it) (it_mapPtr it) (it_typePtr it).
Definition set_it_icon (v : option cstring) (it : TnmMapItem) : TnmMapItem :=
  mkItem (it_x it) (it_y it) (it_name it) (it_address it) (it_path it) (it_color it) (it_font it) v (it_parent it) (it_memberItems it) (it_linkedItems it) (it_srcPtr it) (it_dstPtr it) (it_expire it) (it_health it) (it_priority it) (it_dumped it) (it_token it) (it_attributes it) (it_ctime it) (it_mtime it) (it_tagList it) (it_storeList it) (it_mapPtr it) (it_typePtr it).
Definition set_it_parent (v : option nat) (it : TnmMapItem) : TnmMapItem :=
  mkItem (it_x it) (it_y it) (it_name it) (it_address it) (it_path it) (it_color it) (it_font it) (it_icon it) v (it_memberItems it) (it_linkedItems it) (it_srcPtr it) (it_dstPtr it) (it_expire it) (it_health it) (it_priority it) (it_dumped it) (it_token it) (it_attributes it) (it_ctime it) (it_mtime it) (it_tagList it) (it_storeList it) (it_mapPtr it) (it_typePtr it).
Definition set_it_memberItems (v : list nat) (it : TnmMapItem) : TnmMapItem :=
  mkItem (it_x it) (it_y it) (it_name it) (it_address it) (it_path it) (it_color it) (it_font it) (it_icon it) (it_parent it) v (it_linkedItems it) (it_srcPtr it) (it_dstPtr it) (it_expire it) (it_health it) (it_priority it) (it_dumped it) (it_token it) (it_attributes it) (it_ctime it) (it_mtime it) (it_tagList it) (it_storeList it) (it_mapPtr it) (it_typePtr it).
Definition set_it_linkedItems (v : list nat) (it : TnmMapItem) : TnmMapItem :=
  mkItem (it_x it) (it_y it) (it_name it) (it_address it) (it_path it) (it_color it) (it_font it) (it_icon it) (it_parent it) (it_memberItems it) v (it_srcPtr it) (it_dstPtr it) (it_expire it) (it_health it) (it_priority it) (it_dumped it) (it_token it) (it_attributes it) (it_ctime it) (it_mtime it) (it_tagList it) (it_storeList it) (it_mapPtr it) (it_typePtr it).
Definition set_it_srcPtr (v : option nat) (it : TnmMapItem) : TnmMapItem :=
  mkItem (it_x it) (it_y it) (it_name it) (it_address it) (it_path it) (it_color it) (it_font it) (it_icon it) (it_parent it) (it_memberItems it) (it_linkedItems it) v (it_dstPtr it) (it_expire it) (it_health it) (it_priority it) (it_dumped it) (it_token it) (it_attributes it) (it_ctime it) (it_mtime it) (it_tagList it) (it_storeList it) (it_mapPtr it) (it_typePtr it).
Definition set_it_dstPtr (v : option nat) (it : TnmMapItem) : TnmMapItem :=
  mkItem (it_x it) (it_y it) (it_name it) (it_address it) (it_path it) (it_color it) (it_font it) (it_icon it) (it_parent it) (it_memberItems it) (it_linkedItems it) (it_srcPtr it) v (it_expire it) (it_health it) (it_priority it) (it_dumped it) (it_token it) (it_attributes it) (it_ctime it) (it_mtime it) (it_tagList it) (it_storeList it) (it_mapPtr it) (it_typePtr it).
Definition set_it_expire (v : Z) (it : TnmMapItem) : TnmMapItem :=
  mkItem (it_x it) (it_y it) (it_name it) (it_address it) (it_path it) (it_color it) (it_font it) (it_icon it) (it_parent it) (it_memberItems it) (it_linkedItems it) (it_srcPtr it) (it_dstPtr it) v (it_health it) (it_priority it) (it_dumped it) (it_token it) (it_attributes it) (it_ctime it) (it_mtime it) (it_tagList it) (it_storeList it) (it_mapPtr it) (it_typePtr it).
Definition set_it_health (v : Z) (it : TnmMapItem) : TnmMapItem :=
  mkItem (it_x it) (it_y it) (it_name it) (it_address it) (it_path it) (it_color it) (it_font it) (it_icon it) (it_parent it) (it_memberItems it) (it_linkedItems it) (it_srcPtr it) (it_dstPtr it) (it_expire it) v (it_priority it) (it_dumped it) (it_token it) (it_attributes it) (it_ctime it) (it_mtime it) (it_tagList it) (it_storeList it) (it_mapPtr it) (it_typePtr it).
Definition set_it_priority (v : Z) (it : TnmMapItem) : TnmMapItem :=
  mkItem (it_x it) (it_y it) (it_name it) (it_address it) (it_path it) (it_color it) (it_font it) (it_icon it) (it_parent it) (it_memberItems it) (it_linkedItems it) (it_srcPtr it) (it_dstPtr it) (it_expire it) (it_health it) v (it_dumped it) (it_token it) (it_attributes it) (it_ctime it) (it_mtime it) (it_tagList it) (it_storeList it) (it_mapPtr it) (it_typePtr it).
Definition set_it_dumped (v : bool) (it : TnmMapItem) : TnmMapItem :=
  mkItem (it_x it) (it_y it) (it_name it) (it_address it) (it_path it) (it_color it) (it_font it) (it_icon it) (it_parent it) (it_memberItems it) (it_linkedItems it) (it_srcPtr it) (it_dstPtr it) (it_expire it) (it_health it) (it_priority it) v (it_token it) (it_attributes it) (it_ctime it) (it_mtime it) (it_tagList it) (it_storeList it) (it_mapPtr it) (it_typePtr it).
Definition set_it_token (v : option cstring) (it : TnmMapItem) : TnmMapItem :=
  mkItem (it_x it) (it_y it) (it_name it) (it_address it) (it_path it) (it_color it) (it_font it) (it_icon it) (it_parent it) (it_memberItems it) (it_linkedItems it) (it_srcPtr it) (it_dstPtr it) (it_expire it) (it_health it) (it_priority it) (it_dumped it) v (it_attributes it) (it_ctime it) (it_mtime it) (it_tagList it) (it_storeList it) (it_mapPtr it) (it_typePtr it).
Definition set_it_attributes (v : gmap cstring cstring) (it : TnmMapItem) : TnmMapItem :=
  mkItem (it_x it) (it_y it) (it_name it) (it_address it) (it_path it) (it_color it) (it_font it) (it_icon it) (it_parent it) (it_memberItems it) (it_linkedItems it) (it_srcPtr it) (it_dstPtr it) (it_expire it) (it_health it) (it_priority it) (it_dumped it) (it_token it) v (it_ctime it) (it_mtime it) (it_tagList it) (it_storeList it) (it_mapPtr it) (it_typePtr it).
Definition set_it_ctime (v : Z * Z) (it : TnmMapItem) : TnmMapItem :=
  mkItem (it_x it) (it_y it) (it_name it) (it_address it) (it_path it) (it_color it) (it_font it) (it_icon it) (it_parent it) (it_memberItems it) (it_linkedItems it) (it_srcPtr it) (it_dstPtr it) (it_expire it) (it_health it) (it_priority it) (it_dumped it) (it_token it) (it_attributes it) v (it_mtime it) (it_tagList it) (it_storeList it) (it_mapPtr it) (it_typePtr it).
Definition set_it_mtime (v : Z * Z) (it : TnmMapItem) : TnmMapItem :=
  mkItem (it_x it) (it_y it) (it_name it) (it_address it) (it_path it) (it_color it) (it_font it) (it_icon it) (it_parent it) (it_memberItems it) (it_linkedItems it) (it_srcPtr it) (it_dstPtr it) (it_expire it) (it_health it) (it_priority it) (it_dumped it) (it_token it) (it_attributes it) (it_ctime it) v (it_tagList it) (it_storeList it) (it_mapPtr it) (it_typePtr it).
Definition set_it_tagList (v : cstring) (it : TnmMapItem) : TnmMapItem :=
  mkItem (it_x it) (it_y it) (it_name it) (it_address it) (it_path it) (it_color it) (it_font it) (it_icon it) (it_parent it) (it_memberItems it) (it_linkedItems it) (it_srcPtr it) (it_dstPtr it) (it_expire it) (it_health it) (it_priority it) (it_dumped it) (it_token it) (it_attributes it) (it_ctime it) (it_mtime it) v (it_storeList it) (it_mapPtr it) (it_typePtr it).
Definition set_it_storeList (v : cstring) (it : TnmMapItem) : TnmMapItem :=
  mkItem (it_x it) (it_y it) (it_name it) (it_address it) (it_path it) (it_color it) (it_font it) (it_icon it) (it_parent it) (it_memberItems it) (it_linkedItems it) (it_srcPtr it) (it_dstPtr it) (it_expire it) (it_health it) (it_priority it) (it_dumped it) (it_token it) (it_attributes it) (it_ctime it) (it_mtime it) (it_tagList it) v (it_mapPtr it) (it_typePtr it).

(** ** Maps *)

Record TnmMap := mkMap {
  mp_name : cstring;
  mp_width : Z;
  mp_height : Z;
  mp_path : cstring;
  mp_attributes : gmap cstring cstring;
  mp_token : cstring;
  mp_interval : Z;
  mp_timer : option Z;
  mp_lastTick : Z * Z;
  mp_expire : Z;
  mp_numItems : Z;
  mp_loading : bool;
  mp_tagList : cstring;
  mp_storeList : cstring;
  mp_itemList : list nat
}.

Definition set_mp_name (v : cstring) (m : TnmMap) : TnmMap :=
  mkMap v (mp_width m) (mp_height m) (mp_path m) (mp_attributes m) (mp_token m) (mp_interval m) (mp_timer m) (mp_lastTick m) (mp_expire m) (mp_numItems m) (mp_loading m) (mp_tagList m) (mp_storeList m) (mp_itemList m).
Definition set_mp_width (v : Z) (m : TnmMap) : TnmMap :=
  mkMap (mp_name m) v (mp_height m) (mp_path m) (mp_attributes m) (mp_token m) (mp_interval m) (mp_timer m) (mp_lastTick m) (mp_expire m) (mp_numItems m) (mp_loading m) (mp_tagList m) (mp_storeList m) (mp_itemList m).
Definition set_mp_height (v : Z) (m : TnmMap) : TnmMap :=
  mkMap (mp_name m) (mp_width m) v (mp_path m) (mp_attributes m) (mp_token m) (mp_interval m) (mp_timer m) (mp_lastTick m) (mp_expire m) (mp_numItems m) (mp_loading m) (mp_tagList m) (mp_storeList m) (mp_itemList m).
Definition set_mp_path (v : cstring) (m : TnmMap) : TnmMap :=
  mkMap (mp_name m) (mp_width m) (mp_height m) v (mp_attributes m) (mp_token m) (mp_interval m) (mp_timer m) (mp_lastTick m) (mp_expire m) (mp_numItems m) (mp_loading m) (mp_tagList m) (mp_storeList m) (mp_itemList m).
Definition set_mp_attributes (v : gmap cstring cstring) (m : TnmMap) : TnmMap :=
  mkMap (mp_name m) (mp_width m) (mp_height m) (mp_path m) v (mp_token m) (mp_interval m) (mp_timer m) (mp_lastTick m) (mp_expire m) (mp_numItems m) (mp_loading m) (mp_tagList m) (mp_storeList m) (mp_itemList m).
Definition set_mp_token (v : cstring) (m : TnmMap) : TnmMap :=
  mkMap (mp_name m) (mp_width m) (mp_height m) (mp_path m) (mp_attributes m) v (mp_interval m) (mp_timer m) (mp_lastTick m) (mp_expire m) (mp_numItems m) (mp_loading m) (mp_tagList m) (mp_storeList m) (mp_itemList m).
Definition set_mp_interval (v : Z) (m : TnmMap) : TnmMap :=
  mkMap (mp_name m) (mp_width m) (mp_height m) (mp_path m) (mp_attributes m) (mp_token m) v (mp_timer m) (mp_lastTick m) (mp_expire m) (mp_numItems m) (mp_loading m) (mp_tagList m) (mp_storeList m) (mp_itemList m).
Definition set_mp_timer (v : option Z) (m : TnmMap) : TnmMap :=
  mkMap (mp_name m) (mp_width m) (mp_height m) (mp_path m) (mp_attributes m) (mp_token m) (mp_interval m) v (mp_lastTick m) (mp_expire m) (mp_numItems m) (mp_loading m) (mp_tagList m) (mp_storeList m) (mp_itemList m).
Definition set_mp_lastTick (v : Z * Z) (m : TnmMap) : TnmMap :=
  mkMap (mp_name m) (mp_width m) (mp_height m) (mp_path m) (mp_attributes m) (mp_token m) (mp_interval m) (mp_timer m) v (mp_expire m) (mp_numItems m) (mp_loading m) (mp_tagList m) (mp_storeList m) (mp_itemList m).
Definition set_mp_expire (v : Z) (m : TnmMap) : TnmMap :=
  mkMap (mp_name m) (mp_width m) (mp_height m) (mp_path m) (mp_attributes m) (mp_token m) (mp_interval m) (mp_timer m) (mp_lastTick m) v (mp_numItems m) (mp_loading m) (mp_tagList m) (mp_storeList m) (mp_itemList m).
Definition set_mp_numItems (v : Z) (m : TnmMap) : TnmMap :=
  mkMap (mp_name m) (mp_width m) (mp_height m) (mp_path m) (mp_attributes m) (mp_token m) (mp_interval m) (mp_timer m) (mp_lastTick m) (mp_expire m) v (mp_loading m) (mp_tagList m) (mp_storeList m) (mp_itemList m).
Definition set_mp_loading (v : bool) (m : TnmMap) : TnmMap :=
  mkMap (mp_name m) (mp_width m) (mp_height m) (mp_path m) (mp_attributes m) (mp_token m) (mp_interval m) (mp_timer m) (mp_lastTick m) (mp_expire m) (mp_numItems m) v (mp_tagList m) (mp_storeList m) (mp_itemList m).
Definition set_mp_tagList (v : cstring) (m : TnmMap) : TnmMap :=
  mkMap (mp_name m) (mp_width m) (mp_height m) (mp_path m) (mp_attributes m) (mp_token m) (mp_interval m) (mp_timer m) (mp_lastTick m) (mp_expire m) (mp_numItems m) (mp_loading m) v (mp_storeList m) (mp_itemList m).
Definition set_mp_storeList (v : cstring) (m : TnmMap) : TnmMap :=
  mkMap (mp_name m) (mp_width m) (mp_height m) (mp_path m) (mp_attributes m) (mp_token m) (mp_interval m) (mp_timer m) (mp_lastTick m) (mp_expire m) (mp_numItems m) (mp_loading m) (mp_tagList m) v (mp_itemList m).
Definition set_mp_itemList (v : list nat) (m : TnmMap) : TnmMap :=
  mkMap (mp_name m) (mp_width m) (mp_height m) (mp_path m) (mp_attributes m) (mp_token m) (mp_interval m) (mp_timer m) (mp_lastTick m) (mp_expire m) (mp_numItems m) (mp_loading m) (mp_tagList m) (mp_storeList m) v.

(** ** Events, bindings and messages *)

Definition TNM_MAP_CREATE_EVENT : Z := 0x0001.
Definition TNM_MAP_DELETE_EVENT : Z := 0x0002.
Definition TNM_MAP_CONFIGURE_EVENT : Z := 0x0003.
Definition TNM_MAP_NAME_EVENT : Z := 0x0004.
Definition TNM_MAP_ADDRESS_EVENT : Z := 0x0005.
Definition TNM_MAP_MOVE_EVENT : Z := 0x0006.
Definition TNM_MAP_COLLAPSE_EVENT : Z := 0x0007.
Definition TNM_MAP_EXPAND_EVENT : Z := 0x0008.
Definition TNM_MAP_ATTRIBUTE_EVENT : Z := 0x0009.
Definition TNM_MAP_LABEL_EVENT : Z := 0x000A.
Definition TNM_MAP_USER_EVENT : Z := 0x000B.
Definition TNM_MAP_EVENT_MASK : Z := 0xFFFF.
Definition TNM_MAP_EVENT_QUEUE : Z := 0x00010000.

Record TnmMapEvent := mkEvent {
  ev_type : Z;
  ev_mapPtr : option nat;
  ev_itemPtr : option nat;
  ev_eventName : cstring;
  ev_eventTime : Z * Z;
  ev_eventData : option cstring;
  ev_token : option cstring
}.

Record TnmMapBind := mkBind {
  bd_type : Z;
  bd_mapPtr : option nat;
  bd_itemPtr : option nat;
  bd_pattern : cstring;
  bd_bindData : cstring;
  bd_token : option cstring
}.

Definition TNM_MSG_EXPIRED : Z := 0x01.
Definition TNM_MSG_SAVED : Z := 0x02.

Record TnmMapMsg := mkMsg {
  mg_flags : Z;
  mg_interval : Z;
  mg_health : Z;
  mg_tag : cstring;
  mg_msg : cstring;
  mg_msgTime : Z * Z;
  mg_mapPtr : option nat;
  mg_itemPtr : option nat;
  mg_token : option cstring
}.

(** ** The state of an interpreter *)

(** What keeps a list: an item or a map. *)
Definition owner : Type := nat + nat.

(** The client data of a Tcl command, and whether its deletion has begun. *)
Inductive client_data := CmdMap (a : nat) | CmdItem (a : nat) | CmdEvent (a : nat) | CmdBind (a : nat) | CmdMsg (a : nat) | CmdOther.
#[global] Instance client_data_eq_dec : EqDecision client_data.
Proof. solve_decision. Defined.

Record command := mkCommand { cmd_data : client_data; cmd_deleted : bool }.

Record MapState := mkMS {
  ms_maps : Mem TnmMap;
  ms_mapList : list nat;
  ms_items : gmap nat TnmMapItem;
  ms_events : gmap nat TnmMapEvent;
  ms_binds : gmap nat TnmMapBind;
  ms_msgs : gmap nat TnmMapMsg;
  ms_eventLists : gmap owner (list nat);
  ms_bindLists : gmap owner (list nat);
  ms_msgLists : gmap owner (list nat);
  ms_commands : gmap cstring command;
  ms_nextId : gmap cstring Z;
  ms_brk : nat;
  ms_clip : cstring;
  ms_clock : Z * Z
}.

Definition set_ms_maps (v : Mem TnmMap) (s : MapState) : MapState :=
  mkMS v (ms_mapList s) (ms_items s) (ms_events s) (ms_binds s) (ms_msgs s) (ms_eventLists s) (ms_bindLists s) (ms_msgLists s) (ms_commands s) (ms_nextId s) (ms_brk s) (ms_clip s) (ms_clock s).
Definition set_ms_mapList (v : list nat) (s : MapState) : MapState :=
  mkMS (ms_maps s) v (ms_items s) (ms_events s) (ms_binds s) (ms_msgs s) (ms_eventLists s) (ms_bindLists s) (ms_msgLists s) (ms_commands s) (ms_nextId s) (ms_brk s) (ms_clip s) (ms_clock s).
Definition set_ms_items (v : gmap nat TnmMapItem) (s : MapState) : MapState :=
  mkMS (ms_maps s) (ms_mapList s) v (ms_events s) (ms_binds s) (ms_msgs s) (ms_eventLists s) (ms_bindLists s) (ms_msgLists s) (ms_commands s) (ms_nextId s) (ms_brk s) (ms_clip s) (ms_clock s).
Definition set_ms_events (v : gmap nat TnmMapEvent) (s : MapState) : MapState :=
  mkMS (ms_maps s) (ms_mapList s) (ms_items s) v (ms_binds s) (ms_msgs s) (ms_eventLists s) (ms_bindLists s) (ms_msgLists s) (ms_commands s) (ms_nextId s) (ms_brk s) (ms_clip s) (ms_clock s).
Definition set_ms_binds (v : gmap nat TnmMapBind) (s : MapState) : MapState :=
  mkMS (ms_maps s) (ms_mapList s) (ms_items s) (ms_events s) v (ms_msgs s) (ms_eventLists s) (ms_bindLists s) (ms_msgLists s) (ms_commands s) (ms_nextId s) (ms_brk s) (ms_clip s) (ms_clock s).
Definition set_ms_msgs (v : gmap nat TnmMapMsg) (s : MapState) : MapState :=
  mkMS (ms_maps s) (ms_mapList s) (ms_items s) (ms_events s) (ms_binds s) v (ms_eventLists s) (ms_bindLists s) (ms_msgLists s) (ms_commands s) (ms_nextId s) (ms_brk s) (ms_clip s) (ms_clock s).
Definition set_ms_eventLists (v : gmap owner (list nat)) (s : MapState) : MapState :=
  mkMS (ms_maps s) (ms_mapList s) (ms_items s) (ms_events s) (ms_binds s) (ms_msgs s) v (ms_bindLists s) (ms_msgLists s) (ms_commands s) (ms_nextId s) (ms_brk s) (ms_clip s) (ms_clock s).
Definition set_ms_bindLists (v : gmap owner (list nat)) (s : MapState) : MapState :=
  mkMS (ms_maps s) (ms_mapList s) (ms_items s) (ms_events s) (ms_binds s) (ms_msgs s) (ms_eventLists s) v (ms_msgLists s) (ms_commands s) (ms_nextId s) (ms_brk s) (ms_clip s) (ms_clock s).
Definition set_ms_msgLists (v : gmap owner (list nat)) (s : MapState) : MapState :=
  mkMS (ms_maps s) (ms_mapList s) (ms_items s) (ms_events s) (ms_binds s) (ms_msgs s) (ms_eventLists s) (ms_bindLists s) v (ms_commands s) (ms_nextId s) (ms_brk s) (ms_clip s) (ms_clock s).
Definition set_ms_commands (v : gmap cstring command) (s : MapState) : MapState :=
  mkMS (ms_maps s) (ms_mapList s) (ms_items s) (ms_events s) (ms_binds s) (ms_msgs s) (ms_eventLists s) (ms_bindLists s) (ms_msgLists s) v (ms_nextId s) (ms_brk s) (ms_clip s) (ms_clock s).
Definition set_ms_nextId (v : gmap cstring Z) (s : MapState) : MapState :=
  mkMS (ms_maps s) (ms_mapList s) (ms_items s) (ms_events s) (ms_binds s) (ms_msgs s) (ms_eventLists s) (ms_bindLists s) (ms_msgLists s) (ms_commands s) v (ms_brk s) (ms_clip s) (ms_clock s).
Definition set_ms_brk (v : nat) (s : MapState) : MapState :=
  mkMS (ms_maps s) (ms_mapList s) (ms_items s) (ms_events s) (ms_binds s) (ms_msgs s) (ms_eventLists s) (ms_bindLists s) (ms_msgLists s) (ms_commands s) (ms_nextId s) v (ms_clip s) (ms_clock s).
Definition set_ms_clip (v : cstring) (s : MapState) : MapState :=
  mkMS (ms_maps s) (ms_mapList s) (ms_items s) (ms_events s) (ms_binds s) (ms_msgs s) (ms_eventLists s) (ms_bindLists s) (ms_msgLists s) (ms_commands s) (ms_nextId s) (ms_brk s) v (ms_clock s).
Definition set_ms_clock (v : Z * Z) (s : MapState) : MapState :=
  mkMS (ms_maps s) (ms_mapList s) (ms_items s) (ms_events s) (ms_binds s) (ms_msgs s) (ms_eventLists s) (ms_bindLists s) (ms_msgLists s) (ms_commands s) (ms_nextId s) (ms_brk s) (ms_clip s) v.

(** ** Access to memory *)

Definition get_map (s : MapState) (m : nat) : run_result TnmMap := mem_read (ms_maps s) m.
Definition update_map (f : TnmMap -> TnmMap) (m : nat) (s : MapState) : MapState := set_ms_maps (mem_update f m (ms_maps s)) s.

Definition read {A} (heap : gmap nat A) (a : nat) : run_result A :=
  match heap !! a with Some x => Ok x | None => UseAfterFree end.

Definition get_item (s : MapState) (p : nat) : run_result TnmMapItem := read (ms_items s) p.
Definition update_item (f : TnmMapItem -> TnmMapItem) (p : nat) (s : MapState) : MapState := set_ms_items (alter f p (ms_items s)) s.

(** [TnmVectorAdd] and [TnmVectorDelete] on the list of the elements of a vector
    ([vector_refines_list] of UtilTheorems.v). *)
Definition vector_add (l : list nat) (p : nat) : list nat := l ++ [p].
Fixpoint vector_delete (l : list nat) (p : nat) : list nat :=
  match l with
  | [] => []
  | q :: l => if bool_decide (q = p) then l else q :: vector_delete l p
  end.

(** A new command with the name of [TnmGetHandle]. *)
Definition create_command (prefix : cstring) (data : client_data) (s : MapState) : run_result (cstring * MapState) :=
  match TnmGetHandle (S (size (ms_commands s))) (map_to_list (ms_commands s)).*1 prefix (default 0 (ms_nextId s !! prefix)) with
  | Some (name, id) =>
      Ok (name, set_ms_nextId (<[prefix := id]> (ms_nextId s)) (set_ms_commands (<[name := mkCommand data false]> (ms_commands s)) s))
  | None => NoFuel
  end.

(** [ckalloc] *)
Definition allocate (s : MapState) : nat * MapState := (ms_brk s, set_ms_brk (S (ms_brk s)) s).
