(* ===== verification/NetMapItem.v ===== *)
(** Items of a network map: [tnmMapUtil.c], the procedures of the item types and the
    creation and deletion of items in [tnmMap.c].

    The internal events of [TnmMapCreateEvent] have no effect ([internal_event] of
    NetMapTheorems.v); the calls are left out here.  All types have the common commands. *)

From stdpp Require Import gmap.
From S2P Require Import Prelude Mem CStr Util NetMapBase.
Local Open Scope Z_scope.

(** [for (itemPtr = mapPtr->itemList; itemPtr; itemPtr = itemPtr->nextPtr)] up to the item
    that is the client data of a command. *)
Fixpoint list_search (s : MapState) (l : list nat) (data : client_data) : run_result (option nat) :=
  match l with
  | [] => Ok None
  | p :: l => if bool_decide (data = CmdItem p) then Ok (Some p) else _ ← get_item s p; list_search s l data
  end.

Definition TnmMapFindItem (s : MapState) (m : nat) (name : cstring) : run_result (option nat) :=
  match ms_commands s !! name with
  | None => Ok None
  | Some c => mp ← get_map s m; list_search s (mp_itemList mp) (cmd_data c)
  end.

(** [if (! itemPtr->mapPtr->loading) Tcl_GetTime(&itemPtr->mtime)] *)
Definition touch (p : nat) (s : MapState) : run_result MapState :=
  it ← get_item s p;
  mp ← get_map s (it_mapPtr it);
  Ok (if mp_loading mp then s else update_item (set_it_mtime (ms_clock s)) p s).

(** [for (iPtr = linkPtr; iPtr; iPtr = iPtr->parent) if (iPtr == itemPtr)] *)
Fixpoint chain_has (fuel : nat) (s : MapState) (i : option nat) (p : nat) : run_result bool :=
  match i with
  | None => Ok false
  | Some i =>
      if bool_decide (i = p) then Ok true
      else match fuel with O => NoFuel | S fuel => it ← get_item s i; chain_has fuel s (it_parent it) p end
  end.

(** Taking an item out of a vector of another item, if there is one. *)
Definition leave (vector : TnmMapItem -> list nat) (set_vector : list nat -> TnmMapItem -> TnmMapItem) (q : option nat) (p : nat) (s : MapState)
    : run_result MapState :=
  match q with
  | None => Ok s
  | Some q => _ ← get_item s q; Ok (update_item (fun it => set_vector (vector_delete (vector it) p) it) q s)
  end.
Definition leave_links : option nat -> nat -> MapState -> run_result MapState := leave it_linkedItems set_it_linkedItems.
Definition leave_members : option nat -> nat -> MapState -> run_result MapState := leave it_memberItems set_it_memberItems.

Definition join_links (q p : nat) : MapState -> MapState := update_item (fun it => set_it_linkedItems (vector_add (it_linkedItems it) p) it) q.
Definition join_members (q p : nat) : MapState -> MapState := update_item (fun it => set_it_memberItems (vector_add (it_memberItems it) p) it) q.

Section items.
Variable Tcl_GetIntFromObj : cstring -> option Z.

(** The values of the options that are numbers; the time stamps can only be set while a
    map is loaded. *)
Definition set_number (v : cstring) (f : Z -> TnmMapItem -> TnmMapItem) (p : nat) (s : MapState) : run_result (tcl_code * MapState) :=
  match TnmGetUnsignedFromObj (Tcl_GetIntFromObj v) with
  | Some num => Ok (TCL_OK, update_item (f num) p s)
  | None => Ok (TCL_ERROR, s)
  end.

Definition set_time (v : cstring) (f : Z -> TnmMapItem -> TnmMapItem) (p : nat) (s : MapState) : run_result (tcl_code * MapState) :=
  match TnmGetUnsignedFromObj (Tcl_GetIntFromObj v) with
  | Some num =>
      it ← get_item s p;
      mp ← get_map s (it_mapPtr it);
      if mp_loading mp then Ok (TCL_OK, update_item (f num) p s) else Ok (TCL_ERROR, s)
  | None => Ok (TCL_ERROR, s)
  end.

(** [-src] and [-dst] *)
Definition set_end (v : cstring) (field : TnmMapItem -> option nat) (set_field : option nat -> TnmMapItem -> TnmMapItem) (p : nat) (s : MapState)
    : run_result (tcl_code * MapState) :=
  it ← get_item s p;
  found ← TnmMapFindItem s (it_mapPtr it) v;
  match found with
  | None => Ok (TCL_ERROR, s)
  | Some linkPtr =>
      l ← get_item s linkPtr;
      if bool_decide (it_typePtr l <> tnmNetworkType) && bool_decide (it_typePtr l <> tnmPortType) then Ok (TCL_ERROR, s)
      else
        s ← leave_links (field it) p s;
        s ← touch p (update_item (set_field (Some linkPtr)) p (join_links linkPtr p s));
        Ok (TCL_OK, s)
  end.

(** [-group] and [-node] *)
Definition set_parent (v : cstring) (p : nat) (s : MapState) : run_result (tcl_code * MapState) :=
  it ← get_item s p;
  match v with
  | [] => s ← leave_members (it_parent it) p s; Ok (TCL_OK, update_item (set_it_parent None) p s)
  | _ =>
      found ← TnmMapFindItem s (it_mapPtr it) v;
      match found with
      | None => Ok (TCL_ERROR, s)
      | Some linkPtr =>
          l ← get_item s linkPtr;
          if bool_decide (it_typePtr l <> parentType (it_typePtr it)) then Ok (TCL_ERROR, s)
          else
            loop ← chain_has (S (size (ms_items s))) s (Some linkPtr) p;
            if (loop : bool) then Ok (TCL_ERROR, s)
            else
              s ← leave_members (it_parent it) p s;
              s ← touch p (update_item (set_it_parent (Some linkPtr)) p (join_members linkPtr p s));
              Ok (TCL_OK, s)
      end
  end.

Definition tcl_ok (s : run_result MapState) : run_result (tcl_code * MapState) := s ← s; Ok (TCL_OK, s).

Definition item_SetOption (p : nat) (option : Z) (v : cstring) (s : MapState) : run_result (tcl_code * MapState) :=
  if bool_decide (option = TNM_ITEM_OPT_COLOR) then tcl_ok (Ok (update_item (set_it_color (Some v)) p s))
  else if bool_decide (option = TNM_ITEM_OPT_FONT) then tcl_ok (Ok (update_item (set_it_font (Some v)) p s))
  else if bool_decide (option = TNM_ITEM_OPT_ICON) then tcl_ok (Ok (update_item (set_it_icon (Some v)) p s))
  else if bool_decide (option = TNM_ITEM_OPT_NAME) then tcl_ok (touch p (update_item (set_it_name v) p s))
  else if bool_decide (option = TNM_ITEM_OPT_ADDRESS) then
    tcl_ok (touch p (update_item (set_it_address (if bool_decide (v = []) then None else Some v)) p s))
  else if bool_decide (option = TNM_ITEM_OPT_PRIO) then
    match TnmGetUnsignedFromObj (Tcl_GetIntFromObj v) with
    | Some num => if bool_decide (100 < num) then Ok (TCL_ERROR, s) else tcl_ok (Ok (update_item (set_it_priority num) p s))
    | None => Ok (TCL_ERROR, s)
    end
  else if bool_decide (option = TNM_ITEM_OPT_SRC) then set_end v it_srcPtr set_it_srcPtr p s
  else if bool_decide (option = TNM_ITEM_OPT_DST) then set_end v it_dstPtr set_it_dstPtr p s
  else if bool_decide (option = TNM_ITEM_OPT_CTIME) then set_time v (fun n it => set_it_ctime (n, (it_ctime it).2) it) p s
  else if bool_decide (option = TNM_ITEM_OPT_MTIME) then set_time v (fun n it => set_it_mtime (n, (it_mtime it).2) it) p s
  else if bool_decide (option = TNM_ITEM_OPT_EXPIRE) then set_number v set_it_expire p s
  else if bool_decide (option = TNM_ITEM_OPT_PATH) then tcl_ok (Ok (update_item (set_it_path v) p s))
  else if bool_decide (option = TNM_ITEM_OPT_TAGS) then tcl_ok (touch p (update_item (set_it_tagList v) p s))
  else if bool_decide (option = TNM_ITEM_OPT_STORE) then tcl_ok (Ok (update_item (set_it_storeList v) p s))
  else if bool_decide (option = TNM_ITEM_OPT_PARENT) then set_parent v p s
  else Ok (TCL_OK, s).

(** [Tcl_GetCommandName] of the token of an item, the empty object for no item. *)
Definition item_name (s : MapState) (q : option nat) : cstring :=
  default [] (q ≫= fun q => ms_items s !! q ≫= it_token).

Definition item_GetOption (p : nat) (s : MapState) (option : Z) : Datatypes.option cstring :=
  match ms_items s !! p with
  | None => None
  | Some it =>
      if bool_decide (option = TNM_ITEM_OPT_COLOR) then it_color it
      else if bool_decide (option = TNM_ITEM_OPT_FONT) then it_font it
      else if bool_decide (option = TNM_ITEM_OPT_ICON) then it_icon it
      else if bool_decide (option = TNM_ITEM_OPT_NAME) then Some (it_name it)
      else if bool_decide (option = TNM_ITEM_OPT_ADDRESS) then Some (default [] (it_address it))
      else if bool_decide (option = TNM_ITEM_OPT_PRIO) then Some (sprintf_d (it_priority it))
      else if bool_decide (option = TNM_ITEM_OPT_SRC) then Some (item_name s (it_srcPtr it))
      else if bool_decide (option = TNM_ITEM_OPT_DST) then Some (item_name s (it_dstPtr it))
      else if bool_decide (option = TNM_ITEM_OPT_CTIME) then Some (sprintf_u (u32 (it_ctime it).1))
      else if bool_decide (option = TNM_ITEM_OPT_MTIME) then Some (sprintf_u (u32 (it_mtime it).1))
      else if bool_decide (option = TNM_ITEM_OPT_EXPIRE) then Some (sprintf_d (it_expire it))
      else if bool_decide (option = TNM_ITEM_OPT_PATH) then Some (it_path it)
      else if bool_decide (option = TNM_ITEM_OPT_TAGS) then Some (it_tagList it)
      else if bool_decide (option = TNM_ITEM_OPT_STORE) then Some (it_storeList it)
      else if bool_decide (option = TNM_ITEM_OPT_PARENT) then Some (item_name s (it_parent it))
      else None
  end.

(** The configuration of an item works on a state or on the outcome that ended it. *)
Definition item_config (p : nat) (t : item_type) : TnmConfig (run_result MapState) cstring :=
  mkConfig (Object := run_result MapState) (Value := cstring) (configTable t)
    (fun r option v =>
       match r with
       | Ok s => match item_SetOption p option v s with
                 | Ok (code, s) => (code, Ok s)
                 | UseAfterFree => (TCL_ERROR, UseAfterFree)
                 | NoFuel => (TCL_ERROR, NoFuel)
                 end
       | r => (TCL_ERROR, r)
       end)
    (fun r option => match r with Ok s => item_GetOption p s option | _ => None end).

Definition TnmMapItemConfigure (p : nat) (args : option (list (cstring * cstring))) (s : MapState)
    : run_result (tcl_code * MapState * list (cstring * cstring)) :=
  it ← get_item s p;
  let '(code, r, opts) := TnmSetConfig (item_config p (it_typePtr it)) (Ok s) args in
  s ← r; Ok (code, s, opts).

(** ** Creation *)

(** [PortCreateProc] and [LinkCreateProc]; the other types have none. *)
Definition createProc (it : TnmMapItem) : tcl_code :=
  match it_typePtr it with
  | tnmPortType => if bool_decide (it_parent it = None) then TCL_ERROR else TCL_OK
  | tnmLinkType => if bool_decide (it_srcPtr it = None) || bool_decide (it_dstPtr it = None) then TCL_ERROR else TCL_OK
  | _ => TCL_OK
  end.

Definition new_item (m : nat) (t : item_type) : TnmMapItem :=
  mkItem 0 0 [] None [] None None None None [] [] None None 3600 (100 * 1000) 0 false None ∅ (0, 0) (0, 0) [] [] m t.

(** The list of types, the one registered last first. *)
Definition itemTypes : list item_type := [tnmGroupType; tnmLinkType; tnmNetworkType; tnmPortType; tnmNodeType].

Fixpoint find_type (l : list item_type) (name : cstring) : option item_type :=
  match l with
  | [] => None
  | t :: l => if bool_decide (type_name t = name) then Some t else find_type l name
  end.
Definition GetItemType (name : cstring) : option item_type := find_type itemTypes name.

(** [ckfree((char * ) itemPtr)] *)
Definition free_item (p : nat) (s : MapState) : MapState := set_ms_items (delete p (ms_items s)) s.

(** The time stamps of a new item, its command and its place in the list of the map. *)
Definition insert_item (m p : nat) (t : item_type) (s : MapState) : run_result (tcl_code * option cstring * MapState) :=
  let s := update_item (fun it => if bool_decide (it_ctime it = (0, 0)) then set_it_mtime (ms_clock s) (set_it_ctime (ms_clock s) it) else it) p s in
  '(name, s) ← create_command (type_name t) (CmdItem p) s;
  _ ← get_map s m;
  Ok (TCL_OK, Some name,
      update_map (fun mp => set_mp_numItems (s32 (mp_numItems mp + 1)) (set_mp_itemList (p :: mp_itemList mp) mp)) m
        (update_item (set_it_token (Some name)) p s)).

(** When an option or the type specific procedure fails, the new item is released as it
    is. *)
Definition CreateItem (m : nat) (type : cstring) (args : option (list (cstring * cstring))) (s : MapState)
    : run_result (tcl_code * option cstring * MapState) :=
  match GetItemType type with
  | None => Ok (TCL_ERROR, None, s)
  | Some t =>
      let '(p, s) := allocate s in
      let s := set_ms_items (<[p := new_item m t]> (ms_items s)) s in
      '(code, s, _) ← TnmMapItemConfigure p args s;
      match code with
      | TCL_ERROR => Ok (TCL_ERROR, None, free_item p s)
      | TCL_OK =>
          it ← get_item s p;
          match createProc it with
          | TCL_ERROR => Ok (TCL_ERROR, None, free_item p s)
          | TCL_OK => insert_item m p t s
          end
      end
  end.
End items.

(** ** Deletion *)

(** [repeat:] The first element of a vector is deleted as long as there is one. *)
Fixpoint delete_all (del : nat -> MapState -> run_result MapState) (vector : TnmMapItem -> list nat) (n : nat) (p : nat) (s : MapState)
    : run_result MapState :=
  it ← get_item s p;
  match vector it with
  | [] => Ok s
  | i :: _ =>
      iPtr ← get_item s i;
      _ ← get_map s (it_mapPtr iPtr);
      match n with
      | O => NoFuel
      | S n => s ← del i s; delete_all del vector n p s
      end
  end.

(** [NodeDeleteProc]; the other types have none. *)
Definition deleteProc (del : nat -> MapState -> run_result MapState) (p : nat) (s : MapState) : run_result MapState :=
  it ← get_item s p;
  match it_typePtr it with
  | tnmNodeType => delete_all del it_memberItems (length (it_memberItems it)) p s
  | _ => Ok s
  end.

(** [((TnmMapItem * ) elementPtr[i])->parent = NULL] *)
Fixpoint orphan (l : list nat) (s : MapState) : run_result MapState :=
  match l with
  | [] => Ok s
  | i :: l => _ ← get_item s i; orphan l (update_item (set_it_parent None) i s)
  end.

Definition unlist (m p : nat) (s : MapState) : run_result MapState :=
  mp ← get_map s m;
  _ ← list_search s (mp_itemList mp) (CmdItem p);
  Ok (update_map (fun mp => set_mp_numItems (s32 (mp_numItems mp - 1)) (set_mp_itemList (vector_delete (mp_itemList mp) p) mp)) m s).

Definition ItemDeleteProc (del : nat -> MapState -> run_result MapState) (p : nat) (s : MapState) : run_result MapState :=
  it ← get_item s p;
  s ← unlist (it_mapPtr it) p s;
  s ← deleteProc del p s;
  it ← get_item s p;
  s ← leave_links (it_srcPtr it) p s;
  s ← leave_links (it_dstPtr it) p s;
  s ← leave_members (it_parent it) p s;
  it ← get_item s p;
  s ← delete_all del it_linkedItems (length (it_linkedItems it)) p s;
  it ← get_item s p;
  s ← orphan (it_memberItems it) s;
  Ok (free_item p s).

(** [Tcl_DeleteCommandFromToken] for the command of an item.  While the delete procedure
    runs the command can still be found; deleting it again has no effect. *)
Fixpoint delete_item (fuel : nat) (p : nat) (s : MapState) : run_result MapState :=
  it ← get_item s p;
  match it_token it ≫= fun name => pair name <$> ms_commands s !! name with
  | None => UseAfterFree
  | Some (name, c) =>
      if cmd_deleted c then Ok (set_ms_commands (delete name (ms_commands s)) s)
      else match fuel with
           | O => NoFuel
           | S fuel =>
               s ← ItemDeleteProc (delete_item fuel) p (set_ms_commands (<[name := mkCommand (cmd_data c) true]> (ms_commands s)) s);
               Ok (set_ms_commands (delete name (ms_commands s)) s)
           end
  end.

(** A node, its ports and their links: three calls deep. *)
Definition Tcl_DeleteItem : nat -> MapState -> run_result MapState := delete_item 3.
