(* ===== verification/NetMapInv.v ===== *)
(** The structure of a network map: which items refer to each other, and what is left of
    it when items are taken out. *)

From stdpp Require Import gmap.
From S2P Require Import Prelude Mem CStr Util UtilTheorems NetMapBase NetMapItem.
Local Open Scope Z_scope.

(** ** Vectors *)

Definition occ (p : nat) (l : list nat) : nat := length (filter (fun q => q = p) l).

#[global] Arguments occ : simpl never.

Lemma occ_cons p q l : occ p (q :: l) = ((if decide (q = p) then 1 else 0) + occ p l)%nat.
Proof. unfold occ. rewrite filter_cons. by destruct (decide (q = p)). Qed.
Lemma occ_app p l k : occ p (l ++ k) = (occ p l + occ p k)%nat.
Proof. unfold occ. by rewrite filter_app, length_app. Qed.
Lemma occ_zero p l : occ p l = 0%nat <-> p ∉ l.
Proof.
  induction l as [|q l IH]; [split; [set_solver|done]|]. rewrite occ_cons, not_elem_of_cons. destruct (decide (q = p)) as [->|Hne]; [split; [lia|tauto]|].
  rewrite <- IH. split; [intros ?; split; [congruence|lia]|tauto].
Qed.
Lemma occ_elem p l : (0 < occ p l)%nat <-> p ∈ l.
Proof.
  destruct (occ p l) eqn:E; [apply occ_zero in E; split; [lia|done]|]. split; [|lia]. intros _. destruct (decide (p ∈ l)) as [|H]; [done|]. apply occ_zero in H. lia.
Qed.
Lemma occ_filter p l (P : nat -> Prop) (HP : forall x, Decision (P x)) : occ p (filter P l) = if decide (P p) then occ p l else 0%nat.
Proof.
  destruct (decide (P p)) as [H|H]; [|apply occ_zero; rewrite list_elem_of_filter; tauto].
  induction l as [|q l IH]; [done|]. rewrite filter_cons. destruct (decide (P q)) as [Hq|Hq]; rewrite !occ_cons, IH; [done|]. destruct (decide (q = p)) as [->|]; [done|lia].
Qed.

Lemma filter_same (p : nat) (l : list nat) : p ∉ l -> filter (fun q => q <> p) l = l.
Proof. induction l as [|q l IH]; [done|]. rewrite not_elem_of_cons. intros [? ?]. rewrite filter_cons, decide_True by congruence. by rewrite IH. Qed.
Lemma vector_delete_none (l : list nat) (p : nat) : p ∉ l -> vector_delete l p = l.
Proof. induction l as [|q l IH]; [done|]. rewrite not_elem_of_cons. intros [Hne Hl]. cbn. rewrite bool_decide_eq_false_2 by congruence. by rewrite IH. Qed.
Lemma vector_delete_once l p : occ p l = 1%nat -> vector_delete l p = filter (fun q => q <> p) l.
Proof.
  induction l as [|q l IH]; [done|]. rewrite occ_cons, filter_cons. cbn. intros H. destruct (decide (q = p)) as [->|Hne].
  - rewrite bool_decide_eq_true_2, decide_False by (done || tauto). symmetry. apply filter_same, occ_zero. lia.
  - rewrite bool_decide_eq_false_2, decide_True by done. by rewrite IH.
Qed.
Lemma vector_delete_twice l p : occ p l = 2%nat -> vector_delete (vector_delete l p) p = filter (fun q => q <> p) l.
Proof.
  induction l as [|q l IH]; [done|]. rewrite occ_cons, filter_cons. cbn. intros H. destruct (decide (q = p)) as [->|Hne].
  - rewrite bool_decide_eq_true_2, decide_False by (done || tauto). apply vector_delete_once. lia.
  - rewrite bool_decide_eq_false_2, decide_True by done. cbn. rewrite bool_decide_eq_false_2 by done. by rewrite IH.
Qed.
Lemma occ_NoDup (p : nat) (l : list nat) : NoDup l -> p ∈ l -> occ p l = 1%nat.
Proof. induction 1 as [|q l Hq _ IH]; [set_solver|]. rewrite occ_cons, elem_of_cons. intros [->|H]; [rewrite decide_True by done; apply occ_zero in Hq; lia|]. rewrite decide_False by congruence. by rewrite IH. Qed.
Lemma vector_delete_NoDup l p : NoDup l -> vector_delete l p = filter (fun q => q <> p) l.
Proof. intros H. destruct (decide (p ∈ l)) as [Hp|Hp]; [by apply vector_delete_once, occ_NoDup|]. by rewrite vector_delete_none, filter_same. Qed.

(** ** References between items *)

#[local] Notation heap := (gmap nat TnmMapItem).

(** The number of ends a link has at an item. *)
Definition ends (p q : nat) (items : heap) : nat :=
  match items !! p with
  | Some it => ((if decide (it_srcPtr it = Some q) then 1 else 0) + (if decide (it_dstPtr it = Some q) then 1 else 0))%nat
  | None => 0%nat
  end.

Definition linkable (t : item_type) : bool := match t with tnmNetworkType | tnmPortType => true | _ => false end.

(** Going from parent to parent comes to an end. *)
Inductive rooted (items : heap) : nat -> Prop :=
  | rooted_top p it : items !! p = Some it -> it_parent it = None -> rooted items p
  | rooted_step p it q : items !! p = Some it -> it_parent it = Some q -> rooted items q -> rooted items p.

Record heap_ok (E : gset nat) (items : heap) : Prop := {
  hp_parent : forall p it q, items !! p = Some it -> it_parent it = Some q ->
    exists qi, items !! q = Some qi /\ it_typePtr qi = parentType (it_typePtr it) /\ it_mapPtr qi = it_mapPtr it /\ (p ∉ E -> p ∈ it_memberItems qi);
  hp_members : forall q qi, items !! q = Some qi -> NoDup (it_memberItems qi) /\
    forall p, p ∈ it_memberItems qi -> exists it, items !! p = Some it /\ it_parent it = Some q;
  hp_links : forall q qi p, items !! q = Some qi -> occ p (it_linkedItems qi) = ends p q items;
  hp_ends : forall p it q, items !! p = Some it -> it_srcPtr it = Some q \/ it_dstPtr it = Some q ->
    it_typePtr it = tnmLinkType /\ exists qi, items !! q = Some qi /\ linkable (it_typePtr qi) = true /\ it_mapPtr qi = it_mapPtr it;
  hp_rooted : forall p, is_Some (items !! p) -> rooted items p
}.

(** ** The state *)

Definition map_list (s : MapState) (m : nat) : list nat := match mem_heap (ms_maps s) !! m with Some mp => mp_itemList mp | None => [] end.

Record map_inv (E : gset nat) (s : MapState) : Prop := {
  inv_heap : heap_ok E (ms_items s);
  inv_map : forall p it, ms_items s !! p = Some it -> is_Some (mem_heap (ms_maps s) !! it_mapPtr it);
  inv_list : forall m mp, mem_heap (ms_maps s) !! m = Some mp -> NoDup (mp_itemList mp) /\ mp_numItems mp = s32 (Z.of_nat (length (mp_itemList mp))) /\
    forall p, p ∈ mp_itemList mp -> exists it, ms_items s !! p = Some it /\ it_mapPtr it = m;
  inv_token : forall p it name, ms_items s !! p = Some it -> it_token it = Some name -> exists c, ms_commands s !! name = Some c /\ cmd_data c = CmdItem p;
  inv_command : forall name c p, ms_commands s !! name = Some c -> cmd_data c = CmdItem p -> exists it, ms_items s !! p = Some it /\ it_token it = Some name;
  inv_brk : forall p, is_Some (ms_items s !! p) -> (p < ms_brk s)%nat
}.

(** ** What is left without some items *)

Section prune.
Context (D : gset nat).

Definition prune_item (it : TnmMapItem) : TnmMapItem :=
  set_it_memberItems (filter (fun p => p ∉ D) (it_memberItems it))
    (set_it_linkedItems (filter (fun p => p ∉ D) (it_linkedItems it))
      (set_it_parent (it_parent it ≫= fun q => if decide (q ∈ D) then None else Some q) it)).

Definition prune_items (items : heap) : heap := prune_item <$> filter (fun kv => kv.1 ∉ D) items.

Definition prune_map (mp : TnmMap) : TnmMap :=
  let l := filter (fun p => p ∉ D) (mp_itemList mp) in
  set_mp_numItems (s32 (Z.of_nat (length l))) (set_mp_itemList l mp).

Definition prune_maps (maps : Mem TnmMap) : Mem TnmMap := mkMem (prune_map <$> mem_heap maps) (mem_preserved maps) (mem_doomed maps).

(** The commands of other things than the items. *)
Definition kept (c : command) : Prop := match cmd_data c with CmdItem p => p ∉ D | _ => True end.
#[global] Instance kept_dec c : Decision (kept c).
Proof. unfold kept. destruct (cmd_data c); apply _. Defined.

Definition pruned (s : MapState) : MapState :=
  set_ms_commands (filter (fun kv => kept kv.2) (ms_commands s)) (set_ms_maps (prune_maps (ms_maps s)) (set_ms_items (prune_items (ms_items s)) s)).

Lemma prune_lookup items p : prune_items items !! p = if decide (p ∈ D) then None else prune_item <$> items !! p.
Proof.
  unfold prune_items. rewrite lookup_fmap. destruct (decide (p ∈ D)) as [H|H].
  - rewrite map_lookup_filter_None_2; [done|]. right. intros x _ Hx. done.
  - destruct (items !! p) as [it|] eqn:E; [|by rewrite map_lookup_filter_None_2; [|left]]. by rewrite (map_lookup_filter_Some_2 _ _ _ _ E).
Qed.
Lemma prune_lookup_Some items p it : prune_items items !! p = Some it <-> p ∉ D /\ exists it0, items !! p = Some it0 /\ it = prune_item it0.
Proof.
  rewrite prune_lookup. destruct (decide (p ∈ D)) as [H|H]; [split; [done|tauto]|]. rewrite fmap_Some. naive_solver.
Qed.

(** No link that stays has an end among the items that go. *)
Definition closed (items : heap) : Prop :=
  forall p it q, items !! p = Some it -> p ∉ D -> it_srcPtr it = Some q \/ it_dstPtr it = Some q -> q ∉ D.
End prune.

Lemma filter_both (D1 D2 : gset nat) (l : list nat) : filter (fun p => p ∉ D2) (filter (fun p => p ∉ D1) l) = filter (fun p => p ∉ D1 ∪ D2) l.
Proof. rewrite list_filter_filter. apply list_filter_iff. intros x. set_solver. Qed.

Lemma prune_item_twice D1 D2 it : prune_item D2 (prune_item D1 it) = prune_item (D1 ∪ D2) it.
Proof.
  unfold prune_item. cbn. rewrite !filter_both.
  assert (Hp : (it_parent it ≫= fun q => if decide (q ∈ D1) then None else Some q) ≫= (fun q => if decide (q ∈ D2) then None else Some q) =
    (it_parent it ≫= fun q => if decide (q ∈ D1 ∪ D2) then None else Some q)); [|by rewrite Hp].
  destruct (it_parent it) as [q|]; [|done]. cbn. destruct (decide (q ∈ D1)); cbn; repeat case_decide; first [done|set_solver].
Qed.

Lemma prune_maps_twice D1 D2 maps : prune_maps D2 (prune_maps D1 maps) = prune_maps (D1 ∪ D2) maps.
Proof. unfold prune_maps. cbn. f_equal. rewrite <- map_fmap_compose. apply map_fmap_ext. intros m mp _. unfold prune_map, compose. cbn. by rewrite filter_both. Qed.

Lemma prune_items_twice D1 D2 items : prune_items D2 (prune_items D1 items) = prune_items (D1 ∪ D2) items.
Proof.
  apply map_eq. intros p. rewrite !prune_lookup. destruct (items !! p) as [it|]; [|by repeat case_decide]. cbn. repeat case_decide; cbn; first [set_solver|by rewrite prune_item_twice].
Qed.

Lemma kept_twice (D1 D2 : gset nat) (cmds : gmap cstring command) : filter (fun kv => kept D2 kv.2) (filter (fun kv => kept D1 kv.2) cmds) = filter (fun kv => kept (D1 ∪ D2) kv.2) cmds.
Proof. rewrite map_filter_filter. apply map_filter_ext. intros name c _. unfold kept. cbn. destruct (cmd_data c); set_solver. Qed.

Lemma pruned_twice D1 D2 s : pruned D2 (pruned D1 s) = pruned (D1 ∪ D2) s.
Proof. unfold pruned. cbn. by rewrite prune_maps_twice, prune_items_twice, kept_twice. Qed.

Lemma filter_none (D : gset nat) (l : list nat) : D = ∅ -> filter (fun p => p ∉ D) l = l.
Proof. intros HD. induction l as [|x l IH]; [done|]. rewrite filter_cons, decide_True by set_solver. by rewrite IH. Qed.

Lemma prune_item_none it : prune_item ∅ it = it.
Proof.
  unfold prune_item. rewrite !filter_none by done. destruct it as []. cbn. f_equal. by destruct it_parent.
Qed.

Lemma pruned_none s : (forall m mp, mem_heap (ms_maps s) !! m = Some mp -> mp_numItems mp = s32 (Z.of_nat (length (mp_itemList mp)))) -> pruned ∅ s = s.
Proof.
  intros I. assert (Hm : prune_maps ∅ (ms_maps s) = ms_maps s).
  { unfold prune_maps. destruct (ms_maps s) as [h pr d] eqn:Es. cbn. f_equal. apply map_eq. intros m. rewrite lookup_fmap. destruct (h !! m) as [mp|] eqn:Em; [|done]. cbn. f_equal.
    assert (Hn := I m mp Em). unfold prune_map. rewrite filter_none, <- Hn by done. by destruct mp. }
  assert (Hi : prune_items ∅ (ms_items s) = ms_items s).
  { apply map_eq. intros p. rewrite prune_lookup, decide_False by set_solver. destruct (ms_items s !! p) as [it|]; [|done]. cbn. by rewrite prune_item_none. }
  assert (Hc : filter (fun kv => kept ∅ kv.2) (ms_commands s) = ms_commands s).
  { apply map_filter_id. intros name c _. unfold kept. cbn. destruct (cmd_data c); set_solver. }
  unfold pruned. rewrite Hm, Hi, Hc. by destruct s.
Qed.

Lemma prune_rooted D items p : rooted items p -> p ∉ D -> rooted (prune_items D items) p.
Proof.
  induction 1 as [p it Hp Hn|p it q Hp Hq _ IH]; intros HD.
  - eapply rooted_top; [by apply prune_lookup_Some; eauto|]. cbn. by rewrite Hn.
  - destruct (decide (q ∈ D)) as [Hd|Hd].
    + eapply rooted_top; [by apply prune_lookup_Some; eauto|]. cbn. rewrite Hq. cbn. by rewrite decide_True.
    + eapply rooted_step; [by apply prune_lookup_Some; eauto| |by apply IH]. cbn. rewrite Hq. cbn. by rewrite decide_False.
Qed.

Lemma prune_parent D it q : it_parent (prune_item D it) = Some q <-> it_parent it = Some q /\ q ∉ D.
Proof. cbn. destruct (it_parent it) as [q'|]; cbn; [|naive_solver]. destruct (decide (q' ∈ D)); naive_solver. Qed.

Lemma prune_ends D items p q : p ∉ D -> ends p q (prune_items D items) = ends p q items.
Proof. intros H. unfold ends. rewrite prune_lookup, decide_False by done. by destruct (items !! p). Qed.

Lemma prune_heap_ok E D items : heap_ok E items -> closed D items -> heap_ok E (prune_items D items).
Proof.
  intros [H1 H2 H3 H4 H5] HD. constructor.
  - intros p it q (Hp & it0 & Hit & ->)%prune_lookup_Some [Hq Hqd]%prune_parent. destruct (H1 _ _ _ Hit Hq) as (qi & Hqi & Ht & Hm & Hin).
    exists (prune_item D qi). split; [apply prune_lookup_Some; eauto|]. split; [done|]. split; [done|]. intros HE. cbn. apply list_elem_of_filter. auto.
  - intros q qi (Hq & qi0 & Hqi & ->)%prune_lookup_Some. destruct (H2 _ _ Hqi) as [Hnd Hall]. cbn. split; [by apply NoDup_filter|]. intros p [Hp Hin]%list_elem_of_filter.
    destruct (Hall p Hin) as (it & Hit & Hpar). exists (prune_item D it). split; [apply prune_lookup_Some; eauto|]. by apply prune_parent.
  - intros q qi p (Hq & qi0 & Hqi & ->)%prune_lookup_Some. cbn. rewrite occ_filter. destruct (decide (p ∉ D)) as [Hp|Hp]; [rewrite prune_ends by done; eauto|].
    unfold ends. by rewrite prune_lookup, decide_True by (by apply dec_stable).
  - intros p it q (Hp & it0 & Hit & ->)%prune_lookup_Some Hends. cbn in Hends. destruct (H4 _ _ _ Hit Hends) as (Ht & qi & Hqi & Hl & Hm). split; [done|].
    exists (prune_item D qi). split; [|by split]. apply prune_lookup_Some. split; [exact (HD _ _ _ Hit Hp Hends)|eauto].
  - intros p (it & (Hp & it0 & Hit & ->)%prune_lookup_Some). apply prune_rooted; [apply H5; eauto|done].
Qed.

Lemma prune_command D s name c : ms_commands (pruned D s) !! name = Some c <-> ms_commands s !! name = Some c /\ kept D c.
Proof. cbn. by rewrite map_lookup_filter_Some. Qed.

Lemma prune_map_lookup D s m mp : mem_heap (ms_maps (pruned D s)) !! m = Some mp <-> exists mp0, mem_heap (ms_maps s) !! m = Some mp0 /\ mp = prune_map D mp0.
Proof. cbn. rewrite lookup_fmap, fmap_Some. done. Qed.

Lemma prune_inv E D s : map_inv E s -> closed D (ms_items s) -> map_inv E (pruned D s).
Proof.
  intros [I1 I2 I3 I4 I5 I6] HD. constructor.
  - by apply prune_heap_ok.
  - intros p it (Hp & it0 & Hit & ->)%prune_lookup_Some. destruct (I2 _ _ Hit) as [mp Hmp]. exists (prune_map D mp). apply prune_map_lookup. eauto.
  - intros m mp (mp0 & Hmp & ->)%prune_map_lookup. destruct (I3 _ _ Hmp) as (Hnd & _ & Hall). split; [by apply NoDup_filter|]. split; [done|]. intros p [Hp Hin]%list_elem_of_filter.
    destruct (Hall p Hin) as (it & Hit & Hm). exists (prune_item D it). split; [apply prune_lookup_Some; eauto|done].
  - intros p it name (Hp & it0 & Hit & ->)%prune_lookup_Some Ht. destruct (I4 _ _ _ Hit Ht) as (c & Hc & Hd). exists c. split; [|done]. apply prune_command. split; [done|]. unfold kept. by rewrite Hd.
  - intros name c p [Hc Hk]%prune_command Hd. destruct (I5 _ _ _ Hc Hd) as (it & Hit & Ht). exists (prune_item D it). split; [|done]. apply prune_lookup_Some. split; [|eauto]. unfold kept in Hk. by rewrite Hd in Hk.
  - intros p (it & (Hp & it0 & Hit & ->)%prune_lookup_Some). apply I6. eauto.
Qed.
