(* ===== verification/NetMapDelete.v ===== *)
(** Deleting an item: what [ItemDeleteProc] and the nested deletions leave. *)

From stdpp Require Import gmap.
From S2P Require Import Prelude Mem CStr Util UtilTheorems NetMapBase NetMapItem NetMapInv.
Local Open Scope Z_scope.

#[local] Notation heap := (gmap nat TnmMapItem).

Lemma get_item_Some s p it : ms_items s !! p = Some it -> get_item s p = Ok it.
Proof. intros H. unfold get_item, NetMapBase.read. by rewrite H. Qed.
Lemma get_map_Some s m mp : mem_heap (ms_maps s) !! m = Some mp -> get_map s m = Ok mp.
Proof. intros H. unfold get_map, mem_read. by rewrite H. Qed.

Lemma set_items_id s items : items = ms_items s -> set_ms_items items s = s.
Proof. intros ->. by destruct s. Qed.
Lemma set_items_twice s a b : set_ms_items a (set_ms_items b s) = set_ms_items a s.
Proof. done. Qed.

Lemma state_ext s t : ms_maps s = ms_maps t -> ms_items s = ms_items t -> ms_commands s = ms_commands t ->
  set_ms_maps mem_empty (set_ms_items ∅ (set_ms_commands ∅ s)) = set_ms_maps mem_empty (set_ms_items ∅ (set_ms_commands ∅ t)) -> s = t.
Proof. destruct s, t. unfold set_ms_maps, set_ms_items, set_ms_commands. cbn. by intros -> -> -> [=]; subst. Qed.

Lemma list_search_ok s l data : Forall (fun p => is_Some (ms_items s !! p)) l -> exists r, list_search s l data = Ok r /\ match r with Some p => data = CmdItem p /\ p ∈ l | None => forall p, data = CmdItem p -> p ∉ l end.
Proof.
  induction 1 as [|p l [it Hp] _ IH]; [exists None; split; [done|]; intros; by apply not_elem_of_nil|]. cbn. case_bool_decide as Hd; [exists (Some p); split; [done|]; split; [done|]; by left|].
  unfold mbind, run_bind. rewrite (get_item_Some _ _ _ Hp). destruct IH as (r & -> & Hr). exists r. split; [done|]. destruct r as [q|]; [destruct Hr; split; [done|by right]|].
  intros q ->. apply not_elem_of_cons. split; [congruence|]. by apply Hr.
Qed.

(** ** The list of the map *)

Lemma s32_add a b : s32 (s32 a + b) = s32 (a + b).
Proof. apply s32_unique; [apply s32_range|]. rewrite s32_mod, <- (Z.add_mod_idemp_l (s32 a)), s32_mod by done. by rewrite Z.add_mod_idemp_l. Qed.

Lemma length_without (p : nat) (l : list nat) : NoDup l -> p ∈ l -> length l = S (length (filter (fun q => q <> p) l)).
Proof.
  induction 1 as [|q l Hq _ IH]; [set_solver|]. rewrite elem_of_cons, filter_cons. intros [->|H]; [rewrite decide_False by tauto; by rewrite filter_same|].
  rewrite decide_True by congruence. cbn. by rewrite IH.
Qed.

Lemma unlist_spec E s m p : map_inv E s -> p ∈ map_list s m ->
  unlist m p s = Ok (set_ms_maps (prune_maps {[p]} (ms_maps s)) s).
Proof.
  intros I Hin. unfold map_list in Hin. destruct (mem_heap (ms_maps s) !! m) as [mp|] eqn:Hm; [|by apply not_elem_of_nil in Hin]. destruct (inv_list _ _ I _ _ Hm) as (Hnd & Hnum & Hall). unfold unlist, mbind, run_bind. rewrite (get_map_Some _ _ _ Hm).
  destruct (list_search_ok s (mp_itemList mp) (CmdItem p)) as (r & -> & _); [apply Forall_forall; intros x (it & Hx & _)%Hall; eauto|]. f_equal. unfold update_map. f_equal.
  unfold mem_update, prune_maps. f_equal. apply map_eq. intros k. rewrite lookup_fmap. destruct (decide (k = m)) as [->|Hk].
  - rewrite lookup_alter_eq, Hm. cbn. f_equal. unfold prune_map. rewrite (vector_delete_NoDup _ _ Hnd).
    assert (Hf : filter (fun q => q <> p) (mp_itemList mp) = filter (fun q => q ∉ ({[p]} : gset nat)) (mp_itemList mp)) by (apply list_filter_iff; intros x; set_solver). rewrite Hf. f_equal.
    rewrite Hnum, (length_without p _ Hnd Hin), <- Hf, <- Z.add_opp_r, s32_add. f_equal. lia.
  - rewrite lookup_alter_ne by done. destruct (mem_heap (ms_maps s) !! k) as [mk|] eqn:Hk'; [|done]. cbn. f_equal. destruct (inv_list _ _ I _ _ Hk') as (_ & Hn & Hin'). unfold prune_map.
    assert (Hf : filter (fun q => q ∉ ({[p]} : gset nat)) (mp_itemList mk) = mp_itemList mk).
    { rewrite (list_filter_iff _ (fun q => q <> p)) by set_solver. apply filter_same. intros Hx. destruct (Hin' _ Hx) as (it & Hit & Hmk). destruct (Hall _ Hin) as (it' & Hit' & Hm'). congruence. }
    rewrite Hf, <- Hn. by destruct mk.
Qed.

(** ** The vectors of other items *)

Definition unlink (q : option nat) (f : TnmMapItem -> TnmMapItem) (items : heap) : heap := match q with Some q => alter f q items | None => items end.
Definition drop_link (p : nat) (it : TnmMapItem) : TnmMapItem := set_it_linkedItems (vector_delete (it_linkedItems it) p) it.
Definition drop_member (p : nat) (it : TnmMapItem) : TnmMapItem := set_it_memberItems (vector_delete (it_memberItems it) p) it.

(** The items after [p] left its ends and its parent. *)
Definition left_items (it : TnmMapItem) (p : nat) (items : heap) : heap :=
  unlink (it_parent it) (drop_member p) (unlink (it_dstPtr it) (drop_link p) (unlink (it_srcPtr it) (drop_link p) items)).

Lemma unlink_lookup q f items k : unlink q f items !! k = (fun it => if decide (q = Some k) then f it else it) <$> items !! k.
Proof.
  destruct q as [q|]; cbn; [|destruct (items !! k); [|done]; cbn; by rewrite decide_False]. destruct (decide (q = k)) as [->|Hne]; [rewrite lookup_alter_eq; destruct (items !! k); [|done]; cbn; by rewrite decide_True|].
  rewrite lookup_alter_ne by done. destruct (items !! k); [|done]. cbn. by rewrite decide_False by congruence.
Qed.

Lemma leave_spec vector set_vector q p s : (forall x, q = Some x -> is_Some (ms_items s !! x)) ->
  leave vector set_vector q p s = Ok (set_ms_items (unlink q (fun it => set_vector (vector_delete (vector it) p) it) (ms_items s)) s).
Proof.
  intros H. destruct q as [x|]; cbn; [|by destruct s]. destruct (H x eq_refl) as [it Hx]. unfold mbind, run_bind. by rewrite (get_item_Some _ _ _ Hx).
Qed.

Definition orphans (l : list nat) (items : heap) : heap := map_imap (fun k it => Some (if decide (k ∈ l) then set_it_parent None it else it)) items.

Lemma orphans_lookup l items k : orphans l items !! k = (fun it => if decide (k ∈ l) then set_it_parent None it else it) <$> items !! k.
Proof. unfold orphans. rewrite map_lookup_imap. by destruct (items !! k). Qed.

Lemma orphan_spec l : forall s, Forall (fun p => is_Some (ms_items s !! p)) l -> orphan l s = Ok (set_ms_items (orphans l (ms_items s)) s).
Proof.
  induction l as [|p l IH]; intros s Hl; cbn.
  - f_equal. symmetry. apply set_items_id, map_eq. intros k. rewrite orphans_lookup. by destruct (ms_items s !! k).
  - apply Forall_cons in Hl as [[it Hp] Hl]. unfold mbind, run_bind. rewrite (get_item_Some _ _ _ Hp), IH.
    + f_equal. unfold update_item. rewrite set_items_twice. f_equal. apply map_eq. intros k. rewrite !orphans_lookup. cbn in *. destruct (decide (k = p)) as [->|Hne].
      * rewrite lookup_alter_eq, Hp. cbn. f_equal. rewrite (decide_True (P := p ∈ p :: l)) by (by left). by destruct (decide (p ∈ l)).
      * rewrite lookup_alter_ne by done. destruct (ms_items s !! k); [|done]. cbn. f_equal. destruct (decide (k ∈ l)); [by rewrite decide_True by (by right)|]. rewrite decide_False; [done|]. by apply not_elem_of_cons.
    + eapply Forall_impl; [exact Hl|]. intros x [ix Hx]. cbn. destruct (decide (x = p)) as [->|Hne]; [rewrite lookup_alter_eq, Hx; by eexists|]. rewrite lookup_alter_ne by done. by eexists.
Qed.

(** ** The items that are left *)

Lemma rooted_irrefl items p it : rooted items p -> items !! p = Some it -> it_parent it <> Some p.
Proof. intros H. revert it. induction H as [p it0 Hp Hn|p it0 q Hp Hq _ IH]; intros it Hit Hpar; [congruence|]. assert (it = it0) as -> by congruence. assert (q = p) as -> by congruence. by eapply IH. Qed.

Lemma drop_links_filter items E p it k ki : heap_ok E items -> items !! p = Some it -> items !! k = Some ki ->
  let f q l := if decide (q = Some k) then vector_delete l p else l in
  f (it_dstPtr it) (f (it_srcPtr it) (it_linkedItems ki)) = filter (fun q => q <> p) (it_linkedItems ki).
Proof.
  intros H Hp Hk f. pose proof (hp_links _ _ H k ki p Hk) as Ho. unfold ends in Ho. rewrite Hp in Ho. unfold f. destruct (decide (it_srcPtr it = Some k)), (decide (it_dstPtr it = Some k)).
  - by apply vector_delete_twice.
  - by apply vector_delete_once.
  - by apply vector_delete_once.
  - symmetry. by apply filter_same, occ_zero.
Qed.

Lemma drop_member_filter items E p it k ki : heap_ok E items -> items !! p = Some it -> items !! k = Some ki ->
  (if decide (it_parent it = Some k) then vector_delete (it_memberItems ki) p else it_memberItems ki) = filter (fun q => q <> p) (it_memberItems ki).
Proof.
  intros H Hp Hk. destruct (hp_members _ _ H k ki Hk) as [Hnd Hall]. destruct (decide (it_parent it = Some k)) as [|Hne]; [by apply vector_delete_NoDup|].
  symmetry. apply filter_same. intros (it' & Hp' & Hq)%Hall. congruence.
Qed.

Lemma filter_add (p : nat) (D : gset nat) (l : list nat) : filter (fun q => q ∉ D) (filter (fun q => q <> p) l) = filter (fun q => q ∉ {[p]} ∪ D) l.
Proof. rewrite list_filter_filter. apply list_filter_iff. intros x. set_solver. Qed.

Lemma final_item E items p it k ki D : heap_ok E items -> items !! p = Some it -> items !! k = Some ki -> k ∉ D -> (it_parent ki = Some p -> k ∉ E) ->
  let f q g it := if decide (q = Some k) then g it else it in
  (if decide (k ∈ filter (fun q => q ∉ D) (it_memberItems it)) then set_it_parent None else id)
    (prune_item D (f (it_parent it) (drop_member p) (f (it_dstPtr it) (drop_link p) (f (it_srcPtr it) (drop_link p) ki)))) = prune_item ({[p]} ∪ D) ki.
Proof.
  intros H Hp Hk HD HE f. pose proof (drop_links_filter items E p it k ki H Hp Hk) as Hl. pose proof (drop_member_filter items E p it k ki H Hp Hk) as Hm.
  assert (Hpar : (if decide (k ∈ filter (fun q => q ∉ D) (it_memberItems it)) then None else it_parent ki ≫= fun q => if decide (q ∈ D) then None else Some q) =
    (it_parent ki ≫= fun q => if decide (q ∈ {[p]} ∪ D) then None else Some q)).
  { destruct (hp_members _ _ H p it Hp) as [_ Hall]. destruct (decide (k ∈ filter (fun q => q ∉ D) (it_memberItems it))) as [[_ Hin]%list_elem_of_filter|Hn].
    - destruct (Hall _ Hin) as (ki' & Hk' & Hq). assert (ki' = ki) as -> by congruence. rewrite Hq. cbn. by rewrite decide_True by set_solver.
    - destruct (it_parent ki) as [q|] eqn:Eq; [|done]. cbn. destruct (decide (q = p)) as [->|Hne]; [|by repeat case_decide; set_solver]. destruct Hn. apply list_elem_of_filter. split; [done|].
      destruct (hp_parent _ _ H k ki p Hk Eq) as (pi & Hpi & _ & _ & Hin). assert (pi = it) as -> by congruence. by apply Hin, HE. }
  cbn in Hl. apply (f_equal (filter (fun q => q ∉ D))) in Hl, Hm. rewrite filter_add in Hl, Hm. unfold f, prune_item. clear f.
  destruct (decide (it_parent it = Some k)), (decide (it_dstPtr it = Some k)), (decide (it_srcPtr it = Some k)); destruct (decide (k ∈ _)); unfold drop_member, drop_link, id; cbn;
    rewrite <- Hpar, <- Hm, <- Hl; reflexivity.
Qed.

Lemma final_items E items p it D : heap_ok E items -> items !! p = Some it -> p ∉ D -> (forall k ki, items !! k = Some ki -> it_parent ki = Some p -> k ∉ E) ->
  delete p (orphans (filter (fun q => q ∉ D) (it_memberItems it)) (prune_items D (left_items it p items))) = prune_items ({[p]} ∪ D) items.
Proof.
  intros H Hp HD HE. apply map_eq. intros k. rewrite prune_lookup. destruct (decide (k = p)) as [->|Hne]; [by rewrite lookup_delete_eq, decide_True by set_solver|].
  rewrite lookup_delete_ne, orphans_lookup, prune_lookup by done. destruct (decide (k ∈ D)); [by rewrite decide_True by set_solver|]. rewrite decide_False by set_solver.
  unfold left_items. rewrite !unlink_lookup. destruct (items !! k) as [ki|] eqn:Hk; [|done]. cbn. f_equal.
  rewrite <- (final_item E items p it k ki D H Hp Hk); [|done|by apply HE]. cbn. by destruct (decide (k ∈ _)).
Qed.

(** ** One deletion *)

Definition flagged (name : cstring) (c : command) (s : MapState) : MapState := set_ms_commands (<[name := mkCommand (cmd_data c) true]> (ms_commands s)) s.
Definition begun (name : cstring) (c : command) (p : nat) (s : MapState) : MapState := set_ms_maps (prune_maps {[p]} (ms_maps s)) (flagged name c s).

Lemma flagged_inv E name c s : map_inv E s -> ms_commands s !! name = Some c -> map_inv E (flagged name c s).
Proof.
  intros [I1 I2 I3 I4 I5 I6] Hc. constructor; cbn; try done.
  - intros p it n Hp Hn. destruct (I4 _ _ _ Hp Hn) as (c' & Hc' & Hd). destruct (decide (n = name)) as [->|Hne]; [|exists c'; by rewrite lookup_insert_ne]. rewrite lookup_insert_eq. eexists. split; [done|]. cbn. congruence.
  - intros n c' p. destruct (decide (n = name)) as [->|Hne]; [|rewrite lookup_insert_ne by done; by apply I5]. rewrite lookup_insert_eq. intros [= <-] Hd. by eapply I5.
Qed.

Lemma begun_inv E name c p s : map_inv E s -> ms_commands s !! name = Some c -> map_inv E (begun name c p s).
Proof.
  intros I Hc. destruct (flagged_inv _ _ _ _ I Hc) as [I1 I2 I3 I4 I5 I6]. constructor; cbn; try done.
  - intros q it Hq. destruct (I2 _ _ Hq) as [mp Hmp]. exists (prune_map {[p]} mp). cbn in Hmp. by rewrite lookup_fmap, Hmp.
  - intros m mp. rewrite lookup_fmap, fmap_Some. intros (mp0 & Hmp & ->). destruct (I3 _ _ Hmp) as (Hnd & _ & Hall). cbn. split; [by apply NoDup_filter|]. split; [done|].
    intros q [_ Hq]%list_elem_of_filter. by apply Hall.
Qed.

Lemma token_unique E s p q name : map_inv E s -> (exists it, ms_items s !! p = Some it /\ it_token it = Some name) -> (exists it, ms_items s !! q = Some it /\ it_token it = Some name) -> p = q.
Proof. intros I (it & Hp & Ht) (it' & Hq & Ht'). destruct (inv_token _ _ I _ _ _ Hp Ht) as (c & Hc & Hd). destruct (inv_token _ _ I _ _ _ Hq Ht') as (c' & Hc' & Hd'). congruence. Qed.

Lemma commands_final E s p it name c D : map_inv E s -> ms_items s !! p = Some it -> it_token it = Some name -> ms_commands s !! name = Some c -> p ∉ D ->
  delete name (filter (fun kv => kept D kv.2) (<[name := mkCommand (cmd_data c) true]> (ms_commands s))) = filter (fun kv => kept ({[p]} ∪ D) kv.2) (ms_commands s).
Proof.
  intros I Hp Ht Hc HD. destruct (inv_token _ _ I _ _ _ Hp Ht) as (c' & Hc' & Hdata). assert (c' = c) as -> by congruence. apply map_eq. intros n. destruct (decide (n = name)) as [->|Hne].
  - rewrite lookup_delete_eq. symmetry. apply map_lookup_filter_None. right. intros x Hx. assert (x = c) as -> by congruence. unfold kept. cbn. rewrite Hdata. set_solver.
  - rewrite lookup_delete_ne by done. apply option_eq. intros x. rewrite !map_lookup_filter_Some, lookup_insert_ne by done. cbn. unfold kept. split; intros [Hx Hk]; (split; [done|]).
    + destruct (cmd_data x) as [| q | | | |] eqn:Ex; try done. intros Hq. assert (q = p) as -> by set_solver. destruct (inv_command _ _ I _ _ _ Hx Ex) as (it' & Hp' & Ht'). congruence.
    + destruct (cmd_data x); set_solver.
Qed.

Section step.
Context (E : gset nat) (s : MapState) (p : nat) (it : TnmMapItem) (name : cstring) (c : command) (f : nat) (Dp Dl : gset nat).
Context (I : map_inv E s) (Hp : ms_items s !! p = Some it) (Hlist : p ∈ map_list s (it_mapPtr it)) (Htok : it_token it = Some name).
Context (Hcmd : ms_commands s !! name = Some c) (Hdel : cmd_deleted c = false) (HE : forall k ki, ms_items s !! k = Some ki -> it_parent ki = Some p -> k ∉ E).
Context (HDp : p ∉ Dp) (HDl : p ∉ Dl) (Hclosed : closed Dp (ms_items s)) (Hpar : forall q, it_parent it = Some q -> q ∉ Dp).

Definition state_ports : MapState := pruned Dp (begun name c p s).
Definition state_left : MapState := set_ms_items (left_items (prune_item Dp it) p (ms_items state_ports)) state_ports.

Context (Hports : deleteProc (delete_item f) p (begun name c p s) = Ok state_ports).
Context (Hlinks : delete_all (delete_item f) it_linkedItems (length (it_linkedItems (prune_item Dp it))) p state_left = Ok (pruned Dl state_left)).

Lemma ports_item : ms_items state_ports !! p = Some (prune_item Dp it).
Proof using Hp HDp. clear - Hp HDp. cbn. apply prune_lookup_Some. eauto. Qed.

Lemma ports_inv : map_inv E state_ports.
Proof using I Hcmd Hclosed. apply prune_inv; [by apply begun_inv|done]. Qed.

Lemma left_item : ms_items state_left !! p = Some (prune_item Dp it).
Proof using I Hp HDp Hcmd Hclosed.
  cbn [state_left ms_items set_ms_items]. unfold left_items. rewrite !unlink_lookup, ports_item. cbn [fmap option_fmap option_map]. f_equal.
  pose proof (inv_heap _ _ ports_inv) as H. pose proof ports_item as Hi.
  assert (Hends : forall q, it_srcPtr (prune_item Dp it) = Some q \/ it_dstPtr (prune_item Dp it) = Some q -> q <> p).
  { intros q Hq ->. destruct (hp_ends _ _ H _ _ _ Hi Hq) as (Ht & qi & Hqi & Hl & _). assert (qi = prune_item Dp it) as -> by congruence. by rewrite Ht in Hl. }
  rewrite !decide_False; [done|intros Hs; eapply Hends; eauto|intros Hs; eapply Hends; eauto|]. apply (rooted_irrefl (ms_items state_ports)); [|done]. by apply (hp_rooted _ _ H); eexists.
Qed.

Lemma delete_item_step : delete_item (S f) p s = Ok (pruned ({[p]} ∪ Dp ∪ Dl) s).
Proof using All.
  cbn [delete_item]. unfold mbind at 1, run_bind at 1. rewrite (get_item_Some _ _ _ Hp), Htok. cbn [mbind option_bind]. rewrite Hcmd. cbn [fmap option_fmap option_map]. rewrite Hdel.
  fold (flagged name c s). unfold ItemDeleteProc, mbind, run_bind. rewrite (get_item_Some (flagged name c s) _ _ Hp), (unlist_spec E _ _ _ (flagged_inv _ _ _ _ I Hcmd) Hlist).
  change (set_ms_maps (prune_maps {[p]} (ms_maps (flagged name c s))) (flagged name c s)) with (begun name c p s). rewrite Hports, (get_item_Some _ _ _ ports_item). pose proof ports_inv as I2. pose proof (inv_heap _ _ I2) as H2.
  assert (Hex : forall q, it_srcPtr (prune_item Dp it) = Some q \/ it_dstPtr (prune_item Dp it) = Some q -> is_Some (ms_items state_ports !! q)).
  { intros q Hq. destruct (hp_ends _ _ H2 _ _ _ ports_item Hq) as (_ & qi & Hqi & _). by eexists. }
  unfold leave_links, leave_members. rewrite leave_spec by (intros x Hx; apply Hex; tauto).
  rewrite leave_spec by (intros x Hx; cbn; rewrite unlink_lookup; destruct (Hex x) as [y Hy]; [tauto|]; cbn in Hy; rewrite Hy; by eexists).
  rewrite leave_spec. 2:{ intros x Hx. cbn. rewrite !unlink_lookup. destruct (hp_parent _ _ H2 _ _ _ ports_item Hx) as (qi & Hqi & _). cbn in Hqi. rewrite Hqi. by eexists. }
  rewrite !set_items_twice.
  match goal with |- context [get_item ?st p] => change st with state_left end. rewrite (get_item_Some _ _ _ left_item), Hlinks.
  assert (Hlast : ms_items (pruned Dl state_left) !! p = Some (prune_item Dl (prune_item Dp it))) by (cbn [pruned ms_items set_ms_items set_ms_maps set_ms_commands]; apply prune_lookup_Some; split; [done|]; exists (prune_item Dp it); split; [apply left_item|done]).
  rewrite (get_item_Some _ _ _ Hlast), orphan_spec.
  - f_equal. apply state_ext; try done; cbn [free_item ms_items ms_maps ms_commands set_ms_items set_ms_maps set_ms_commands pruned state_left state_ports begun flagged].
    + rewrite !prune_maps_twice. f_equal. set_solver.
    + change (it_memberItems (prune_item Dl (prune_item Dp it))) with (filter (fun q => q ∉ Dl) (it_memberItems (prune_item Dp it))).
      rewrite (final_items E); [rewrite prune_items_twice; f_equal; set_solver|apply prune_heap_ok; [apply I|done]|apply prune_lookup_Some; eauto|done|].
      intros k ki (Hk & ki0 & Hki & ->)%prune_lookup_Some [Hkp _]%prune_parent. by eapply HE.
    + rewrite kept_twice, (commands_final E s p it) by (done || set_solver). apply map_filter_ext. intros n x _. unfold kept. cbn. destruct (cmd_data x); set_solver.
  - apply Forall_forall. intros x [HxD Hx]%list_elem_of_filter. destruct (hp_members _ _ H2 _ _ ports_item) as [_ Hall]. destruct (Hall x Hx) as (xi & Hxi & _).
    cbn [pruned ms_items set_ms_items set_ms_maps set_ms_commands state_left]. rewrite prune_lookup, decide_False by done. unfold left_items. rewrite !unlink_lookup, Hxi. by eexists.
Qed.
End step.

(** ** Items that can be deleted *)

Definition live (s : MapState) (p : nat) (it : TnmMapItem) : Prop :=
  p ∈ map_list s (it_mapPtr it) /\ exists name c, it_token it = Some name /\ ms_commands s !! name = Some c /\ cmd_deleted c = false.

(** All items but those of [X]. *)
Definition all_live (X : gset nat) (s : MapState) : Prop := forall p it, ms_items s !! p = Some it -> p ∉ X -> live s p it.

Lemma inv_none E s : map_inv E s -> pruned ∅ s = s.
Proof. intros I. apply pruned_none. intros m mp Hm. by destruct (inv_list _ _ I _ _ Hm) as (_ & ? & _). Qed.

Lemma pruned_list D s m : map_list (pruned D s) m = filter (fun p => p ∉ D) (map_list s m).
Proof. unfold map_list. cbn. rewrite lookup_fmap. by destruct (mem_heap (ms_maps s) !! m). Qed.

Lemma pruned_live X E D s : map_inv E s -> all_live X s -> all_live X (pruned D s).
Proof.
  intros I H p it (Hp & it0 & Hit & ->)%prune_lookup_Some HX. destruct (H _ _ Hit HX) as (Hl & name & c & Ht & Hc & Hd). split; [rewrite pruned_list; by apply list_elem_of_filter|].
  exists name, c. split; [done|]. split; [|done]. apply prune_command. split; [done|]. destruct (inv_token _ _ I _ _ _ Hit Ht) as (c' & Hc' & Hdata). assert (c' = c) as -> by congruence. unfold kept. by rewrite Hdata.
Qed.

Lemma begun_live X E name c p it s : map_inv E s -> ms_items s !! p = Some it -> it_token it = Some name -> all_live X s -> all_live ({[p]} ∪ X) (begun name c p s).
Proof.
  intros I Hp Ht H q qi Hq HX. destruct (H q qi Hq) as (Hl & n & cq & Htq & Hcq & Hd); [set_solver|]. split.
  - unfold map_list in *. cbn. rewrite lookup_fmap. destruct (mem_heap (ms_maps s) !! it_mapPtr qi); [|done]. cbn. apply list_elem_of_filter. set_solver.
  - exists n, cq. split; [done|]. cbn. rewrite lookup_insert_ne; [done|]. intros ->. assert (p = q); [|set_solver]. eapply (token_unique E s); eauto.
Qed.

(** ** Which items have links and members *)

Lemma linked_is_link E items p it l : heap_ok E items -> items !! p = Some it -> l ∈ it_linkedItems it ->
  linkable (it_typePtr it) = true /\ exists li, items !! l = Some li /\ it_typePtr li = tnmLinkType /\ l <> p.
Proof.
  intros H Hp Hl. apply occ_elem in Hl. rewrite (hp_links _ _ H _ _ _ Hp) in Hl. unfold ends in Hl. destruct (items !! l) as [li|] eqn:El; [|lia].
  assert (Hend : it_srcPtr li = Some p \/ it_dstPtr li = Some p) by (repeat case_decide; (tauto || lia)). destruct (hp_ends _ _ H _ _ _ El Hend) as (Ht & pi & Hpi & Hlk & _). assert (pi = it) as -> by congruence.
  split; [done|]. exists li. split; [done|]. split; [done|]. intros ->. assert (li = it) as -> by congruence. by rewrite Ht in Hlk.
Qed.

Lemma no_links E items p it : heap_ok E items -> items !! p = Some it -> linkable (it_typePtr it) = false -> it_linkedItems it = [].
Proof. intros H Hp Ht. destruct (it_linkedItems it) as [|l ls] eqn:El; [done|]. destruct (linked_is_link E items p it l H Hp) as [Hlk _]; [rewrite El; by left|]. congruence. Qed.

Lemma no_children E items p it k ki : heap_ok E items -> items !! p = Some it -> items !! k = Some ki -> it_parent ki = Some p -> it_typePtr it = tnmNodeType \/ it_typePtr it = tnmGroupType.
Proof. intros H Hp Hk Hpar. destruct (hp_parent _ _ H _ _ _ Hk Hpar) as (qi & Hqi & Ht & _). assert (qi = it) as -> by congruence. rewrite Ht. destruct (it_typePtr ki); cbn; tauto. Qed.

Lemma closed_links E items p it (D : gset nat) : heap_ok E items -> items !! p = Some it -> (forall l, l ∈ it_linkedItems it -> l ∈ D) -> forall l li, items !! l = Some li -> l ∉ D -> it_srcPtr li <> Some p /\ it_dstPtr li <> Some p.
Proof.
  intros H Hp HD l li Hl HlD. assert (Ho : occ l (it_linkedItems it) = 0%nat) by (apply occ_zero; intros ?; by apply HlD, HD). rewrite (hp_links _ _ H _ _ _ Hp) in Ho. unfold ends in Ho. rewrite Hl in Ho.
  repeat case_decide; (lia || done).
Qed.

(** ** Links *)

Lemma union_empties (p : nat) : ({[p]} ∪ ∅ ∪ ∅ : gset nat) = {[p]}.
Proof. set_solver. Qed.

Lemma delete_all_nil del vector n p s it : ms_items s !! p = Some it -> vector it = [] -> delete_all del vector n p s = Ok s.
Proof. intros Hp Hv. destruct n; cbn; unfold mbind, run_bind; by rewrite (get_item_Some _ _ _ Hp), Hv. Qed.

Lemma deleteProc_none del p s it : ms_items s !! p = Some it -> it_typePtr it <> tnmNodeType -> deleteProc del p s = Ok s.
Proof. intros Hp Ht. unfold deleteProc, mbind, run_bind. rewrite (get_item_Some _ _ _ Hp). by destruct (it_typePtr it). Qed.

Lemma delete_link E s p it f : map_inv E s -> ms_items s !! p = Some it -> it_typePtr it = tnmLinkType -> live s p it -> delete_item (S f) p s = Ok (pruned {[p]} s).
Proof.
  intros I Hp Ht (Hlist & name & c & Htok & Hcmd & Hdel). pose proof (inv_heap _ _ I) as H. pose proof (begun_inv E name c p s I Hcmd) as I1. rewrite <- union_empties.
  apply (delete_item_step E s p it name c f ∅ ∅); try done; try set_solver.
  - intros k ki Hk Hpar. destruct (no_children _ _ _ _ _ _ H Hp Hk Hpar); congruence.
  - unfold state_ports. rewrite (inv_none E) by done. apply (deleteProc_none _ _ _ it); [done|congruence].
  - rewrite (delete_all_nil _ _ _ _ _ (prune_item ∅ it)).
    + symmetry. f_equal. apply pruned_none. unfold state_left, state_ports. rewrite (inv_none E) by done. intros m mp Hm. by destruct (inv_list _ _ I1 _ _ Hm) as (_ & ? & _).
    + apply (left_item E); done || set_solver.
    + rewrite prune_item_none. eapply no_links; [done|done|]. by rewrite Ht.
Qed.

Lemma closed_one E items p it : heap_ok E items -> items !! p = Some it -> linkable (it_typePtr it) = false -> closed {[p]} items.
Proof. intros H Hp Ht l li q Hl _ Hq Hin. apply elem_of_singleton in Hin as ->. destruct (hp_ends _ _ H _ _ _ Hl Hq) as (_ & qi & Hqi & Hlk & _). congruence. Qed.

Lemma filter_head (i : nat) (l : list nat) : ({[i]} ∪ list_to_set (filter (fun q => q ∉ ({[i]} : gset nat)) (i :: l)) : gset nat) = list_to_set (i :: l).
Proof. apply set_eq. intros x. rewrite elem_of_union, !elem_of_list_to_set, list_elem_of_filter, elem_of_singleton. destruct (decide (x = i)) as [->|]; set_solver. Qed.

Lemma delete_links E f n : forall s p it X, map_inv E s -> ms_items s !! p = Some it -> all_live X s -> (forall l, l ∈ it_linkedItems it -> l ∉ X) -> (length (it_linkedItems it) <= n)%nat ->
  delete_all (delete_item (S f)) it_linkedItems n p s = Ok (pruned (list_to_set (it_linkedItems it)) s).
Proof.
  induction n as [|n IH]; intros s p it X I Hp Hlive HX Hn.
  all: destruct (it_linkedItems it) as [|i l] eqn:El; [rewrite (delete_all_nil _ _ _ _ _ it) by done; by rewrite (inv_none E)|].
  { cbn in Hn. lia. }
  pose proof (inv_heap _ _ I) as H. destruct (linked_is_link E (ms_items s) p it i H Hp) as (Hlk & li & Hi & Hlt & Hne); [rewrite El; by left|].
  cbn [delete_all]. unfold mbind, run_bind. rewrite (get_item_Some _ _ _ Hp), El, (get_item_Some _ _ _ Hi). destruct (inv_map _ _ I _ _ Hi) as [mp Hmp]. rewrite (get_map_Some _ _ _ Hmp).
  rewrite (delete_link E s i li f I Hi Hlt) by (apply Hlive; [done|]; apply HX; by left).
  assert (Hcl : closed {[i]} (ms_items s)) by (eapply closed_one; [done|done|by rewrite Hlt]).
  rewrite (IH (pruned {[i]} s) p (prune_item {[i]} it) X).
  - rewrite pruned_twice. cbn [prune_item it_linkedItems set_it_memberItems set_it_linkedItems set_it_parent]. by rewrite El, filter_head.
  - by apply prune_inv.
  - apply prune_lookup_Some. split; [set_solver|eauto].
  - by eapply pruned_live.
  - intros x Hx. apply HX. cbn in Hx. apply list_elem_of_filter in Hx as [_ Hx]. by rewrite El in Hx.
  - cbn. rewrite El, filter_cons, decide_False by set_solver. cbn in Hn. pose proof (length_filter (fun q => q ∉ ({[i]} : gset nat)) l). lia.
Qed.

(** ** Ports, networks and groups *)

Lemma rooted_mono (items items' : heap) p : (forall k it, items !! k = Some it -> exists it', items' !! k = Some it' /\ it_parent it' = it_parent it) -> rooted items p -> rooted items' p.
Proof.
  intros Hk. induction 1 as [p it Hp Hn|p it q Hp Hq _ IH]; destruct (Hk _ _ Hp) as (it' & Hp' & Hpar); [eapply rooted_top; [done|congruence]|]. eapply rooted_step; [done|by rewrite Hpar|done].
Qed.

Lemma unlink_member q p (items : heap) k ki : unlink q (drop_member p) items !! k = Some ki <-> exists k0, items !! k = Some k0 /\ ki = if decide (q = Some k) then drop_member p k0 else k0.
Proof. rewrite unlink_lookup, fmap_Some. done. Qed.

Lemma left_heap_ok E items p it : heap_ok E items -> items !! p = Some it -> heap_ok ({[p]} ∪ E) (unlink (it_parent it) (drop_member p) items).
Proof.
  intros H Hp. assert (Hf : forall k k0, items !! k = Some k0 -> exists k', unlink (it_parent it) (drop_member p) items !! k = Some k' /\ it_parent k' = it_parent k0 /\ it_typePtr k' = it_typePtr k0 /\
    it_mapPtr k' = it_mapPtr k0 /\ it_linkedItems k' = it_linkedItems k0 /\ it_srcPtr k' = it_srcPtr k0 /\ it_dstPtr k' = it_dstPtr k0 /\ it_memberItems k' = filter (fun q => q <> p) (it_memberItems k0)).
  { intros k k0 Hk. rewrite unlink_lookup, Hk. eexists. split; [done|]. pose proof (drop_member_filter items E p it k k0 H Hp Hk) as Hm. by destruct (decide (it_parent it = Some k)). }
  assert (Hb : forall k k', unlink (it_parent it) (drop_member p) items !! k = Some k' -> exists k0, items !! k = Some k0 /\ it_parent k' = it_parent k0 /\ it_typePtr k' = it_typePtr k0 /\
    it_mapPtr k' = it_mapPtr k0 /\ it_linkedItems k' = it_linkedItems k0 /\ it_srcPtr k' = it_srcPtr k0 /\ it_dstPtr k' = it_dstPtr k0 /\ it_memberItems k' = filter (fun q => q <> p) (it_memberItems k0)).
  { intros k k' Hk. rewrite unlink_lookup in Hk. destruct (items !! k) as [k0|] eqn:Ek; [|done]. exists k0. split; [done|]. destruct (Hf _ _ Ek) as (k2 & Hk2 & Hr). rewrite unlink_lookup, Ek in Hk2. congruence. }
  constructor.
  - intros k ki q (k0 & Hk & -> & -> & -> & _)%Hb Hq. destruct (hp_parent _ _ H _ _ _ Hk Hq) as (qi & Hqi & Ht & Hm & Hin). destruct (Hf _ _ Hqi) as (q' & Hq' & _ & Ht' & Hm' & _ & _ & _ & Hmem).
    exists q'. split; [done|]. split; [congruence|]. split; [congruence|]. intros HE. rewrite Hmem. apply list_elem_of_filter. set_solver.
  - intros q qi (q0 & Hq & _ & _ & _ & _ & _ & _ & ->)%Hb. destruct (hp_members _ _ H _ _ Hq) as [Hnd Hall]. split; [by apply NoDup_filter|]. intros k [_ (ki & Hk & Hpar)%Hall]%list_elem_of_filter.
    destruct (Hf _ _ Hk) as (k' & Hk' & Hpar' & _). exists k'. split; [done|congruence].
  - intros q qi k (q0 & Hq & _ & _ & _ & -> & _)%Hb. rewrite (hp_links _ _ H _ _ _ Hq). unfold ends. destruct (items !! k) as [k0|] eqn:Ek.
    + destruct (Hf _ _ Ek) as (k' & -> & _ & _ & _ & _ & -> & -> & _). done.
    + destruct (unlink _ _ items !! k) as [k'|] eqn:Ek'; [|done]. apply Hb in Ek' as (? & ? & _). congruence.
  - intros k ki q (k0 & Hk & _ & -> & -> & _ & -> & -> & _)%Hb Hq. destruct (hp_ends _ _ H _ _ _ Hk Hq) as (Ht & qi & Hqi & Hl & Hm). split; [done|]. destruct (Hf _ _ Hqi) as (q' & Hq' & _ & Ht' & Hm' & _).
    exists q'. split; [done|]. split; congruence.
  - intros k [ki (k0 & Hk & _)%Hb]. apply (rooted_mono items); [|by apply (hp_rooted _ _ H); eexists]. intros x xi (x' & Hx' & Hpar & _)%Hf. eauto.
Qed.

Lemma left_inv E s p it : map_inv E s -> ms_items s !! p = Some it -> map_inv ({[p]} ∪ E) (set_ms_items (unlink (it_parent it) (drop_member p) (ms_items s)) s).
Proof.
  intros [I1 I2 I3 I4 I5 I6] Hp.
  assert (Hb : forall k k', unlink (it_parent it) (drop_member p) (ms_items s) !! k = Some k' -> exists k0, ms_items s !! k = Some k0 /\ it_mapPtr k' = it_mapPtr k0 /\ it_token k' = it_token k0).
  { intros k k' (k0 & Hk & ->)%unlink_member. exists k0. by destruct (decide (it_parent it = Some k)). }
  assert (Hf : forall k k0, ms_items s !! k = Some k0 -> exists k', unlink (it_parent it) (drop_member p) (ms_items s) !! k = Some k' /\ it_mapPtr k' = it_mapPtr k0 /\ it_token k' = it_token k0).
  { intros k k0 Hk. rewrite unlink_lookup, Hk. eexists. split; [done|]. by destruct (decide (it_parent it = Some k)). }
  constructor; cbn.
  - by apply left_heap_ok.
  - intros k ki (k0 & Hk & -> & _)%Hb. by eapply I2.
  - intros m mp Hm. destruct (I3 _ _ Hm) as (? & ? & Hall). split; [done|]. split; [done|]. intros k (k0 & Hk & <-)%Hall. destruct (Hf _ _ Hk) as (k' & ? & ? & _). eauto.
  - intros k ki name (k0 & Hk & _ & ->)%Hb. by eapply I4.
  - intros name c k Hc Hd. destruct (I5 _ _ _ Hc Hd) as (k0 & Hk & Ht). destruct (Hf _ _ Hk) as (k' & ? & _ & ?). exists k'. split; [done|congruence].
  - intros k [ki (k0 & Hk & _)%Hb]. apply I6. eauto.
Qed.

Lemma left_live X s p it : all_live X s -> all_live X (set_ms_items (unlink (it_parent it) (drop_member p) (ms_items s)) s).
Proof.
  intros H k ki (k0 & Hk & ->)%unlink_member HX. destruct (H _ _ Hk HX) as (Hl & Hc). by destruct (decide (it_parent it = Some k)).
Qed.

Lemma closed_none items : closed ∅ items.
Proof. intros p it q _ _ _. apply not_elem_of_empty. Qed.

Lemma no_ends E items p it : heap_ok E items -> items !! p = Some it -> it_typePtr it <> tnmLinkType -> it_srcPtr it = None /\ it_dstPtr it = None.
Proof.
  intros H Hp Ht. split; [destruct (it_srcPtr it) as [q|] eqn:Eq|destruct (it_dstPtr it) as [q|] eqn:Eq]; try done; exfalso; apply Ht; eapply (hp_ends _ _ H p it q Hp); tauto.
Qed.

Lemma left_items_plain it p items : it_srcPtr it = None -> it_dstPtr it = None -> left_items it p items = unlink (it_parent it) (drop_member p) items.
Proof. intros Hs Hd. unfold left_items. by rewrite Hs, Hd. Qed.

Lemma delete_plain E s p it f X : map_inv E s -> ms_items s !! p = Some it -> it_typePtr it <> tnmNodeType -> live s p it -> all_live X s -> (forall l, l ∈ it_linkedItems it -> l ∉ X) ->
  (forall k ki, ms_items s !! k = Some ki -> it_parent ki = Some p -> k ∉ E) -> delete_item (S (S f)) p s = Ok (pruned ({[p]} ∪ list_to_set (it_linkedItems it)) s).
Proof.
  intros I Hp Hnode Hlive Hall HX HE. pose proof (inv_heap _ _ I) as H. destruct (decide (it_typePtr it = tnmLinkType)) as [Ht|Ht].
  { rewrite (delete_link E s p it) by done. rewrite (no_links E (ms_items s) p it) by (done || by rewrite Ht). do 2 f_equal. set_solver. }
  pose proof Hlive as (Hlist & name & c & Htok & Hcmd & Hdel). pose proof (begun_inv E name c p s I Hcmd) as I1.
  assert (Hset : {[p]} ∪ list_to_set (it_linkedItems it) = ({[p]} ∪ ∅ ∪ list_to_set (it_linkedItems it) : gset nat)) by set_solver. rewrite Hset.
  assert (HpD : p ∉ (list_to_set (it_linkedItems it) : gset nat)).
  { rewrite elem_of_list_to_set. intros Hin. destruct (linked_is_link E (ms_items s) p it p H Hp Hin) as (_ & ? & _ & _ & Hne). done. }
  assert (Hst : state_left s p it name c ∅ = set_ms_items (unlink (it_parent it) (drop_member p) (ms_items s)) (begun name c p s)).
  { unfold state_left, state_ports. rewrite prune_item_none, (inv_none E) by done. destruct (no_ends E (ms_items s) p it H Hp Ht). by rewrite left_items_plain. }
  apply (delete_item_step E s p it name c (S f) ∅ (list_to_set (it_linkedItems it)) I Hp Hlist Htok Hcmd Hdel HE (not_elem_of_empty p) HpD (closed_none _) (fun q _ => not_elem_of_empty q)).
  - unfold state_ports. rewrite (inv_none E) by done. by apply (deleteProc_none _ _ _ it).
  - assert (Hit : ms_items (state_left s p it name c ∅) !! p = Some it) by (rewrite <- (prune_item_none it) at 2; apply (left_item E); [done|done|done|apply not_elem_of_empty|apply closed_none]).
    rewrite prune_item_none. rewrite Hst in Hit |- *. apply (delete_links ({[p]} ∪ E) f _ _ _ _ ({[p]} ∪ X)); [|done| | |done].
    + by apply (left_inv E (begun name c p s)).
    + apply (left_live ({[p]} ∪ X) (begun name c p s)). by eapply (begun_live X E).
    + intros l Hl. apply not_elem_of_union. split; [|by apply HX]. intros ->%elem_of_singleton. apply HpD. by apply elem_of_list_to_set.
Qed.

(** ** Nodes *)

(** The ports of a node and their links. *)
Definition port_links (items : heap) (x : nat) : list nat := match items !! x with Some it => it_linkedItems it | None => [] end.
Definition ports_dead (items : heap) (l : list nat) : gset nat := list_to_set l ∪ list_to_set (l ≫= port_links items).

Lemma closed_port E items p it : heap_ok E items -> items !! p = Some it -> closed ({[p]} ∪ list_to_set (it_linkedItems it)) items.
Proof.
  intros H Hp l li q Hl HD Hq. assert (Hne : q <> p).
  { intros ->. destruct (closed_links E items p it ({[p]} ∪ list_to_set (it_linkedItems it)) H Hp) with (l := l) (li := li) as [? ?]; try done; [intros x Hx; apply elem_of_union; right; by apply elem_of_list_to_set|]. by destruct Hq. }
  rewrite elem_of_union, elem_of_singleton, elem_of_list_to_set. intros [?|Hin]; [done|]. destruct (linked_is_link E items p it q H Hp Hin) as (_ & qi & Hqi & Ht & _).
  destruct (hp_ends _ _ H _ _ _ Hl Hq) as (_ & qi' & Hqi' & Hlk & _). assert (qi' = qi) as -> by congruence. by rewrite Ht in Hlk.
Qed.

Lemma node_member E items p it x : heap_ok E items -> items !! p = Some it -> it_typePtr it = tnmNodeType -> x ∈ it_memberItems it -> exists xi, items !! x = Some xi /\ it_typePtr xi = tnmPortType /\ it_parent xi = Some p.
Proof.
  intros H Hp Ht Hx. destruct (hp_members _ _ H _ _ Hp) as [_ Hall]. destruct (Hall x Hx) as (xi & Hxi & Hpar). exists xi. split; [done|]. split; [|done].
  destruct (hp_parent _ _ H _ _ _ Hxi Hpar) as (qi & Hqi & Hty & _). assert (qi = it) as -> by congruence. rewrite Ht in Hty. by destruct (it_typePtr xi).
Qed.

Lemma filter_keep (D : gset nat) (l : list nat) : (forall x, x ∈ l -> x ∉ D) -> filter (fun q => q ∉ D) l = l.
Proof. induction l as [|y l IH]; [done|]. intros H. rewrite filter_cons, decide_True by (apply H; by left). rewrite IH; [done|]. intros x Hx. apply H. by right. Qed.

Lemma port_links_prune D items y : y ∉ D -> port_links (prune_items D items) y = filter (fun q => q ∉ D) (port_links items y).
Proof. intros Hy. unfold port_links. rewrite prune_lookup, decide_False by done. by destruct (items !! y). Qed.

Lemma ports_dead_split (items : heap) (i : nat) (l : list nat) (ii : TnmMapItem) (D : gset nat) : items !! i = Some ii -> D = {[i]} ∪ list_to_set (it_linkedItems ii) -> (forall x, x ∈ l -> x ∉ D) ->
  D ∪ ports_dead (prune_items D items) (filter (fun q => q ∉ D) (i :: l)) = ports_dead items (i :: l).
Proof.
  intros Hi HD Hl. assert (Hi' : i ∈ D) by (rewrite HD; set_solver). rewrite filter_cons, decide_False by tauto. rewrite (filter_keep D l Hl).
  assert (Hpi : port_links items i = it_linkedItems ii) by (unfold port_links; by rewrite Hi). apply set_eq. intros x. unfold ports_dead. rewrite !elem_of_union, !elem_of_list_to_set, !list_elem_of_bind. split.
  - intros [Hx|[Hx|(y & Hx & Hy)]].
    + rewrite HD, elem_of_union, elem_of_singleton, elem_of_list_to_set in Hx. destruct Hx as [->|Hx]; [left; by left|]. right. exists i. split; [by rewrite Hpi|by left].
    + left. by right.
    + rewrite port_links_prune in Hx by (by apply Hl). apply list_elem_of_filter in Hx as [_ Hx]. right. exists y. split; [done|by right].
  - intros [[->|Hx]%elem_of_cons|(y & Hx & [->|Hy]%elem_of_cons)].
    + by left.
    + right. by left.
    + left. rewrite HD, <- Hpi. apply elem_of_union. right. by apply elem_of_list_to_set.
    + destruct (decide (x ∈ D)) as [|Hn]; [by left|]. right. right. exists y. split; [|done]. rewrite port_links_prune by (by apply Hl). by apply list_elem_of_filter.
Qed.

Lemma delete_ports E f n : forall s p it X, map_inv E s -> ms_items s !! p = Some it -> it_typePtr it = tnmNodeType -> all_live X s -> p ∉ E ->
  (forall x, x ∈ ports_dead (ms_items s) (it_memberItems it) -> x ∉ X) -> (length (it_memberItems it) <= n)%nat ->
  delete_all (delete_item (S (S f))) it_memberItems n p s = Ok (pruned (ports_dead (ms_items s) (it_memberItems it)) s).
Proof.
  induction n as [|n IH]; intros s p it X I Hp Ht Hall HpE HX Hn.
  all: destruct (it_memberItems it) as [|i l] eqn:El; [rewrite (delete_all_nil _ _ _ _ _ it) by done; rewrite <- (inv_none E s I) at 1; do 2 f_equal; unfold ports_dead; set_solver|].
  { cbn in Hn. lia. }
  pose proof (inv_heap _ _ I) as H. destruct (node_member E (ms_items s) p it i H Hp Ht) as (ii & Hi & Hit & Hpar); [rewrite El; by left|].
  set (D := {[i]} ∪ list_to_set (it_linkedItems ii) : gset nat). assert (HDi : forall x, x ∈ D -> x ∈ ports_dead (ms_items s) (i :: l)).
  { intros x Hx. unfold D in Hx. rewrite elem_of_union, elem_of_singleton, elem_of_list_to_set in Hx. unfold ports_dead. rewrite elem_of_union, !elem_of_list_to_set, list_elem_of_bind.
    destruct Hx as [->|Hx]; [left; by left|]. right. exists i. split; [unfold port_links; by rewrite Hi|by left]. }
  assert (HDt : forall x xi, ms_items s !! x = Some xi -> x ∈ D -> x = i \/ it_typePtr xi = tnmLinkType).
  { intros x xi Hx HxD. unfold D in HxD. rewrite elem_of_union, elem_of_singleton, elem_of_list_to_set in HxD. destruct HxD as [->|HxD]; [by left|]. right.
    destruct (linked_is_link E (ms_items s) i ii x H Hi HxD) as (_ & li & Hli & Hlt & _). congruence. }
  cbn [delete_all]. unfold mbind, run_bind. rewrite (get_item_Some _ _ _ Hp), El, (get_item_Some _ _ _ Hi). destruct (inv_map _ _ I _ _ Hi) as [mp Hmp]. rewrite (get_map_Some _ _ _ Hmp).
  rewrite (delete_plain E s i ii f X); [|done|done|by rewrite Hit|apply Hall; [done|]; apply HX, HDi; set_solver|done|intros x Hx; apply HX, HDi; set_solver|].
  2:{ intros k ki Hk Hkp. destruct (no_children _ _ _ _ _ _ H Hi Hk Hkp); congruence. }
  fold D. assert (HpD : p ∉ D) by (intros HpD; destruct (HDt _ _ Hp HpD) as [->|?]; congruence).
  assert (HlD : forall x, x ∈ l -> x ∉ D).
  { intros x Hx HxD. destruct (node_member E (ms_items s) p it x H Hp Ht) as (xi & Hxi & Hxt & _); [rewrite El; by right|]. destruct (HDt _ _ Hxi HxD) as [->|?]; [|congruence].
    destruct (hp_members _ _ H _ _ Hp) as [Hnd _]. rewrite El in Hnd. by apply NoDup_cons in Hnd as [? _]. }
  rewrite (IH (pruned D s) p (prune_item D it) X).
  - rewrite pruned_twice. do 2 f_equal. cbn [prune_item it_memberItems set_it_memberItems ms_items pruned set_ms_items set_ms_maps set_ms_commands]. rewrite El. by apply (ports_dead_split (ms_items s) i l ii D).
  - apply prune_inv; [done|]. by eapply closed_port.
  - apply prune_lookup_Some. eauto.
  - done.
  - by eapply pruned_live.
  - done.
  - intros x Hx. apply HX. cbn [prune_item it_memberItems set_it_memberItems ms_items pruned set_ms_items set_ms_maps set_ms_commands] in Hx. rewrite El in Hx. rewrite <- (ports_dead_split (ms_items s) i l ii D) by done. apply elem_of_union. by right.
  - cbn [prune_item it_memberItems set_it_memberItems]. rewrite El, filter_cons, decide_False by set_solver. cbn in Hn. pose proof (length_filter (fun q => q ∉ D) l). lia.
Qed.

Lemma ports_dead_types E items p it x xi : heap_ok E items -> items !! p = Some it -> it_typePtr it = tnmNodeType -> items !! x = Some xi -> x ∈ ports_dead items (it_memberItems it) ->
  (x ∈ it_memberItems it /\ it_typePtr xi = tnmPortType) \/ it_typePtr xi = tnmLinkType.
Proof.
  intros H Hp Ht Hx HD. unfold ports_dead in HD. rewrite elem_of_union, !elem_of_list_to_set, list_elem_of_bind in HD. destruct HD as [Hm|(y & Hy & Hm)].
  - left. split; [done|]. destruct (node_member E items p it x H Hp Ht Hm) as (xi' & Hx' & ? & _). congruence.
  - right. destruct (node_member E items p it y H Hp Ht Hm) as (yi & Hyi & _). unfold port_links in Hy. rewrite Hyi in Hy. destruct (linked_is_link E items y yi x H Hyi Hy) as (_ & li & Hli & ? & _). congruence.
Qed.

Lemma closed_ports E items p it : heap_ok E items -> items !! p = Some it -> it_typePtr it = tnmNodeType -> closed (ports_dead items (it_memberItems it)) items.
Proof.
  intros H Hp Ht l li q Hl HlD Hq HqD. destruct (hp_ends _ _ H _ _ _ Hl Hq) as (_ & qi & Hqi & Hlk & _). destruct (ports_dead_types E items p it q qi H Hp Ht Hqi HqD) as [[Hm _]|Hlt]; [|by rewrite Hlt in Hlk].
  destruct (closed_links E items q qi (ports_dead items (it_memberItems it)) H Hqi) with (l := l) (li := li) as [? ?]; try done; [|by destruct Hq].
  intros x Hx. unfold ports_dead. apply elem_of_union. right. apply elem_of_list_to_set, list_elem_of_bind. exists q. split; [unfold port_links; by rewrite Hqi|done].
Qed.

Lemma delete_node s p it : map_inv ∅ s -> all_live ∅ s -> ms_items s !! p = Some it -> it_typePtr it = tnmNodeType ->
  delete_item 3 p s = Ok (pruned ({[p]} ∪ ports_dead (ms_items s) (it_memberItems it)) s).
Proof.
  intros I Hall Hp Ht. pose proof (inv_heap _ _ I) as H. destruct (Hall p it Hp (not_elem_of_empty p)) as (Hlist & name & c & Htok & Hcmd & Hdel). pose proof (begun_inv ∅ name c p s I Hcmd) as I1.
  set (Dp := ports_dead (ms_items s) (it_memberItems it)). assert (HpD : p ∉ Dp).
  { intros HpD. destruct (ports_dead_types ∅ _ _ _ _ _ H Hp Ht Hp HpD) as [[_ ?]|?]; congruence. }
  assert (Hset : {[p]} ∪ Dp = {[p]} ∪ Dp ∪ ∅) by set_solver. rewrite Hset. pose proof (closed_ports ∅ _ _ _ H Hp Ht) as Hcl. fold Dp in Hcl.
  apply (delete_item_step ∅ s p it name c 2 Dp ∅ I Hp Hlist Htok Hcmd Hdel (fun k _ _ _ => not_elem_of_empty k) HpD (not_elem_of_empty p) Hcl).
  - intros q Hq HqD. destruct (hp_parent _ _ H _ _ _ Hp Hq) as (qi & Hqi & Hqt & _). rewrite Ht in Hqt. destruct (ports_dead_types ∅ _ _ _ _ _ H Hp Ht Hqi HqD) as [[_ ?]|?]; cbn in Hqt; congruence.
  - unfold deleteProc, mbind, run_bind. rewrite (get_item_Some (begun name c p s) _ _ Hp), Ht. apply (delete_ports ∅ 0 _ (begun name c p s) p it ({[p]} ∪ ∅)); [done|done|done|by eapply (begun_live ∅ ∅)|apply not_elem_of_empty| |done].
    intros x Hx. rewrite union_empty_r_L, elem_of_singleton. intros ->. by apply HpD.
  - assert (Hnil : it_linkedItems (prune_item Dp it) = []) by (cbn; rewrite (no_links ∅ (ms_items s) p it); [done|done|done|by rewrite Ht]).
    rewrite (delete_all_nil _ _ _ _ _ (prune_item Dp it)); [|by apply (left_item ∅)|done]. symmetry. f_equal. apply pruned_none. intros m mp Hm.
    pose proof (ports_inv ∅ s p name c Dp I Hcmd Hcl) as I2. by destruct (inv_list _ _ I2 _ _ Hm) as (_ & ? & _).
Qed.

(** The items that go with an item: the links that end at it, and for a node its ports and
    the links that end at them. *)
Definition dead (items : heap) (p : nat) (it : TnmMapItem) : gset nat :=
  {[p]} ∪ (if decide (it_typePtr it = tnmNodeType) then ports_dead items (it_memberItems it) else list_to_set (it_linkedItems it)).

Lemma dead_closed E items p it : heap_ok E items -> items !! p = Some it -> closed (dead items p it) items.
Proof.
  intros H Hp. unfold dead. destruct (decide (it_typePtr it = tnmNodeType)) as [Ht|Ht]; [|by eapply closed_port].
  pose proof (closed_ports E items p it H Hp Ht) as Hc. intros l li q Hl HD Hq HqD. apply elem_of_union in HqD as [->%elem_of_singleton|HqD].
  - destruct (hp_ends _ _ H _ _ _ Hl Hq) as (_ & qi & Hqi & Hlk & _). assert (qi = it) as -> by congruence. by rewrite Ht in Hlk.
  - apply not_elem_of_union in HD as [_ HD]. by eapply Hc.
Qed.

Lemma Tcl_DeleteItem_spec s p it : map_inv ∅ s -> all_live ∅ s -> ms_items s !! p = Some it ->
  Tcl_DeleteItem p s = Ok (pruned (dead (ms_items s) p it) s) /\ map_inv ∅ (pruned (dead (ms_items s) p it) s) /\ all_live ∅ (pruned (dead (ms_items s) p it) s).
Proof.
  intros I Hall Hp. split; [|split; [apply prune_inv; [done|]; eapply dead_closed; [apply I|done]|by eapply pruned_live]]. unfold Tcl_DeleteItem, dead. destruct (decide (it_typePtr it = tnmNodeType)) as [Ht|Ht]; [by apply delete_node|].
  apply (delete_plain ∅ s p it 1 ∅ I Hp Ht); [apply Hall; [done|apply not_elem_of_empty]|done|intros l _; apply not_elem_of_empty|intros k ki _ _; apply not_elem_of_empty].
Qed.
