(* ===== verification/NetMapEvent.v ===== *)
(** Events, bindings and messages of maps and items, [tnmMapEvent.c].

    Scripts of bindings are evaluated by Tcl: what they do to the maps is a parameter, a
    function on the whole state.  Messages that expire are also written to files
    ([SaveMsg]); the files are not modelled. *)

From stdpp Require Import gmap.
From S2P Require Import Prelude Mem CStr Util NetMapBase NetMapItem.
Local Open Scope Z_scope.
Local Open Scope cint_scope.

Definition eventTable : TnmTable :=
  [mkElem TNM_MAP_CREATE_EVENT (cstr "<CreateItem>"); mkElem TNM_MAP_DELETE_EVENT (cstr "<DeleteItem>");
   mkElem TNM_MAP_CONFIGURE_EVENT (cstr "<ConfigureItem>"); mkElem TNM_MAP_NAME_EVENT (cstr "<NameItem>");
   mkElem TNM_MAP_ADDRESS_EVENT (cstr "<AddressItem>"); mkElem TNM_MAP_MOVE_EVENT (cstr "<MoveItem>");
   mkElem TNM_MAP_COLLAPSE_EVENT (cstr "<CollapseItem>"); mkElem TNM_MAP_EXPAND_EVENT (cstr "<ExpandItem>");
   mkElem TNM_MAP_ATTRIBUTE_EVENT (cstr "<AttributeItem>"); mkElem TNM_MAP_LABEL_EVENT (cstr "<LabelItem>")].

(** ** Lists and commands *)

(** [while ( *ptr && ( *ptr) != x) ptr = &( *ptr)->nextPtr] and taking [x] out. *)
Fixpoint unchain {A} (heap : gmap nat A) (l : list nat) (x : nat) : run_result (list nat) :=
  match l with
  | [] => Ok []
  | y :: l => if bool_decide (y = x) then Ok l else _ ← NetMapBase.read heap y; l ← unchain heap l x; Ok (y :: l)
  end.

(** The list of an item or a map, which must be in memory. *)
Definition owner_list (lists : gmap owner (list nat)) (o : owner) (s : MapState) : run_result (list nat) :=
  match o with
  | inl p => _ ← get_item s p; Ok (default [] (lists !! o))
  | inr m => _ ← get_map s m; Ok (default [] (lists !! o))
  end.

(** The list a structure is put in: that of the item, or else that of the map. *)
Definition owner_of (itemPtr mapPtr : option nat) : option owner :=
  match itemPtr, mapPtr with Some p, _ => Some (inl p) | None, Some m => Some (inr m) | None, None => None end.

(** Taking a structure out of the list of its item and out of the list of its map. *)
Definition unchain_from {A} (heap : gmap nat A) (lists : gmap owner (list nat)) (o : option owner) (x : nat) (s : MapState) : run_result (gmap owner (list nat)) :=
  match o with
  | None => Ok lists
  | Some o => l ← owner_list lists o s; l ← unchain heap l x; Ok (<[o := l]> lists)
  end.

(** [Tcl_DeleteCommandFromToken] with the delete procedure of the command. *)
Definition delete_token (name : cstring) (proc : MapState -> run_result MapState) (s : MapState) : run_result MapState :=
  match ms_commands s !! name with
  | None => UseAfterFree
  | Some c =>
      if cmd_deleted c then Ok (set_ms_commands (delete name (ms_commands s)) s)
      else
        s ← proc (set_ms_commands (<[name := mkCommand (cmd_data c) true]> (ms_commands s)) s);
        Ok (set_ms_commands (delete name (ms_commands s)) s)
  end.

(** ** Events *)

Definition EventDeleteProc (e : nat) (s : MapState) : run_result MapState :=
  ev ← NetMapBase.read (ms_events s) e;
  lists ← unchain_from (ms_events s) (ms_eventLists s) (inl <$> ev_itemPtr ev) e s;
  lists ← unchain_from (ms_events s) lists (inr <$> ev_mapPtr ev) e s;
  Ok (set_ms_eventLists lists (set_ms_events (delete e (ms_events s)) s)).

Definition delete_event (e : nat) (s : MapState) : run_result MapState :=
  ev ← NetMapBase.read (ms_events s) e;
  match ev_token ev with None => UseAfterFree | Some name => delete_token name (EventDeleteProc e) s end.

Definition TnmMapCreateUserEvent (mapPtr itemPtr : option nat) (name : cstring) (args : option cstring) (s : MapState) : run_result (nat * MapState) :=
  map ← match itemPtr with
        | Some p => it ← get_item s p; _ ← get_map s (it_mapPtr it); Ok (Some (it_mapPtr it))
        | None => Ok mapPtr
        end;
  let '(e, s) := allocate s in
  match map with
  | None => Ok (e, set_ms_events (<[e := mkEvent (TNM_MAP_USER_EVENT .| TNM_MAP_EVENT_QUEUE) map itemPtr name (ms_clock s) args None]> (ms_events s)) s)
  | Some _ =>
      '(handle, s) ← create_command (cstr "event") (CmdEvent e) s;
      Ok (e, set_ms_events (<[e := mkEvent (TNM_MAP_USER_EVENT .| TNM_MAP_EVENT_QUEUE) map itemPtr name (ms_clock s) args (Some handle)]> (ms_events s)) s)
  end.

(** [nextEvent:] The first event that is older. *)
Fixpoint find_old (s : MapState) (l : list nat) (expireTime : Z) : run_result (option nat) :=
  match l with
  | [] => Ok None
  | e :: l =>
      ev ← NetMapBase.read (ms_events s) e;
      if bool_decide (ev_token ev <> None) && bool_decide ((ev_eventTime ev).1 < expireTime) then Ok (Some e) else find_old s l expireTime
  end.

Fixpoint TnmMapExpireEvents (fuel : nat) (o : owner) (expireTime : Z) (s : MapState) : run_result MapState :=
  l ← owner_list (ms_eventLists s) o s;
  old ← find_old s l expireTime;
  match old with
  | None => Ok s
  | Some e => match fuel with O => NoFuel | S fuel => s ← delete_event e s; TnmMapExpireEvents fuel o expireTime s end
  end.

(** ** Bindings *)

Definition BindDeleteProc (b : nat) (s : MapState) : run_result MapState :=
  bd ← NetMapBase.read (ms_binds s) b;
  lists ← unchain_from (ms_binds s) (ms_bindLists s) (inl <$> bd_itemPtr bd) b s;
  lists ← unchain_from (ms_binds s) lists (inr <$> bd_mapPtr bd) b s;
  Ok (set_ms_bindLists lists (set_ms_binds (delete b (ms_binds s)) s)).

Definition delete_binding (b : nat) (s : MapState) : run_result MapState :=
  bd ← NetMapBase.read (ms_binds s) b;
  match bd_token bd with None => UseAfterFree | Some name => delete_token name (BindDeleteProc b) s end.

Definition TnmMapUserBinding (mapPtr itemPtr : option nat) (pattern script : cstring) (s : MapState) : run_result (option nat * MapState) :=
  match owner_of itemPtr mapPtr with
  | None => Ok (None, s)
  | Some o =>
      _ ← owner_list (ms_bindLists s) o s;
      let '(b, s) := allocate s in
      '(handle, s) ← create_command (cstr "bind") (CmdBind b) s;
      l ← owner_list (ms_bindLists s) o s;
      Ok (Some b, set_ms_bindLists (<[o := b :: l]> (ms_bindLists s))
                    (set_ms_binds (<[b := mkBind TNM_MAP_USER_EVENT mapPtr itemPtr pattern script (Some handle)]> (ms_binds s)) s))
  end.

(** [bindPtr->nextPtr] *)
Fixpoint behind (x : nat) (l : list nat) : option nat :=
  match l with
  | [] => None
  | y :: l => if bool_decide (y = x) then head l else behind x l
  end.
Definition bind_next (s : MapState) (b : nat) : run_result (option nat) :=
  bd ← NetMapBase.read (ms_binds s) b;
  Ok (behind b (default [] (owner_of (bd_itemPtr bd) (bd_mapPtr bd) ≫= fun o => ms_bindLists s !! o))).

(** ** Evaluation of bindings *)

(** The code of a script, as far as [EvalBinding] looks at it. *)
Inductive script_code := SCRIPT_OK | SCRIPT_ERROR | SCRIPT_BREAK | SCRIPT_CONTINUE.

(** [%] escapes; a [%] at the end of the script leaves it ([None]). *)
Fixpoint expand_script (escape : Z -> cstring) (cmd : cstring) : option cstring :=
  match cmd with
  | [] => Some []
  | c :: cmd =>
      if bool_decide (c <> 37) then cons c <$> expand_script escape cmd
      else match cmd with
           | [] => None
           | e :: cmd => app (escape e) <$> expand_script escape cmd
           end
  end.

Definition map_name (s : MapState) (m : nat) : run_result cstring := mp ← get_map s m; Ok (mp_token mp).

(** [switch ( *scanPtr)]; the names of the map and of the item are read from memory. *)
Definition event_escape (s : MapState) (ev : TnmMapEvent) (bd : TnmMapBind) (c : Z) : cstring :=
  if bool_decide (c = 77) then default [] (ev_mapPtr ev ≫= fun m => mp_token <$> mem_heap (ms_maps s) !! m)
  else if bool_decide (c = 73) then item_name s (ev_itemPtr ev)
  else if bool_decide (c = 78) then ev_eventName ev
  else if bool_decide (c = 69) then default [] (ev_token ev)
  else if bool_decide (c = 80) then bd_pattern bd
  else if bool_decide (c = 65) then default [] (ev_eventData ev)
  else if bool_decide (c = 66) then default [] (bd_token bd)
  else if bool_decide (c = 37) then [37]
  else [37; c].

Section events.
Variable Tcl_StringMatch : cstring -> cstring -> bool.
(** [Tcl_GlobalEval] *)
Variable Tcl_GlobalEval : cstring -> MapState -> script_code * MapState.

(** The bindings from [b] on. *)
Fixpoint eval_bindings (fuel : nat) (e : nat) (b : option nat) (s : MapState) : run_result (script_code * MapState) :=
  match b with
  | None => Ok (SCRIPT_OK, s)
  | Some b =>
      bd ← NetMapBase.read (ms_binds s) b;
      ev ← NetMapBase.read (ms_events s) e;
      let next s := nxt ← bind_next s b; match fuel with O => NoFuel | S fuel => eval_bindings fuel e nxt s end in
      if bool_decide (bd_type bd <> ev_type ev .& TNM_MAP_EVENT_MASK) || negb (Tcl_StringMatch (ev_eventName ev) (bd_pattern bd)) then next s
      else
        match expand_script (event_escape s ev bd) (bd_bindData bd) with
        | None => UseAfterFree
        | Some cmd =>
            let '(code, s) := Tcl_GlobalEval cmd s in
            match code with
            | SCRIPT_BREAK => Ok (SCRIPT_BREAK, s)
            | SCRIPT_CONTINUE => Ok (SCRIPT_OK, s)
            | SCRIPT_ERROR =>
                bd ← NetMapBase.read (ms_binds s) b;
                _ ← match bd_itemPtr bd, bd_mapPtr bd with
                    | Some p, _ => _ ← get_item s p; Ok tt
                    | None, Some m => _ ← get_map s m; Ok tt
                    | None, None => UseAfterFree
                    end;
                Ok (SCRIPT_ERROR, s)
            | SCRIPT_OK => next s
            end
        end
  end.

Definition EvalBinding (fuel : nat) (e : nat) (bindList : option nat) (s : MapState) : run_result (script_code * MapState) :=
  ev ← NetMapBase.read (ms_events s) e;
  match ev_mapPtr ev with
  | None => Ok (SCRIPT_OK, s)
  | Some m => _ ← get_map s m; eval_bindings fuel e bindList s
  end.

(** [for (itemPtr = eventPtr->itemPtr; itemPtr; itemPtr = itemPtr->parent)] and the
    bindings of the map. *)
Fixpoint raise_chain (fuel : nat) (e : nat) (i : option nat) (s : MapState) : run_result MapState :=
  match i with
  | Some p =>
      l ← owner_list (ms_bindLists s) (inl p) s;
      '(code, s) ← EvalBinding (length l) e (head l) s;
      match code with
      | SCRIPT_BREAK => Ok s
      | _ =>
          it ← get_item s p;
          match fuel with O => NoFuel | S fuel => raise_chain fuel e (it_parent it) s end
      end
  | None =>
      ev ← NetMapBase.read (ms_events s) e;
      match ev_mapPtr ev with
      | None => UseAfterFree
      | Some m =>
          l ← owner_list (ms_bindLists s) (inr m) s;
          '(_, s) ← EvalBinding (length l) e (head l) s;
          Ok s
      end
  end.

Definition raise_user (e : nat) (ev : TnmMapEvent) (s : MapState) : run_result MapState :=
  if bool_decide (ev_type ev .& TNM_MAP_EVENT_MASK = TNM_MAP_USER_EVENT) then raise_chain (S (size (ms_items s))) e (ev_itemPtr ev) s else Ok s.

Definition TnmMapRaiseEvent (e : nat) (s : MapState) : run_result MapState :=
  ev ← NetMapBase.read (ms_events s) e;
  if bool_decide (ev_type ev .& TNM_MAP_EVENT_QUEUE <> 0) then
    match owner_of (ev_itemPtr ev) (ev_mapPtr ev) with
    | None => Ok (set_ms_events (delete e (ms_events s)) s)
    | Some o =>
        l ← owner_list (ms_eventLists s) o s;
        raise_user e ev (set_ms_eventLists (<[o := e :: l]> (ms_eventLists s)) s)
    end
  else raise_user e ev s.

(** The event is a local variable, here a structure at an address that is released at the
    end. *)
Definition TnmMapCreateEvent (type : Z) (p : nat) (s : MapState) : run_result MapState :=
  match TnmGetTableValue eventTable (u32 type) with
  | None => Ok s
  | Some eventName =>
      it ← get_item s p;
      let e := ms_brk s in
      s ← TnmMapRaiseEvent e (set_ms_events (<[e := mkEvent type (Some (it_mapPtr it)) (Some p) eventName (ms_clock s) None None]> (ms_events s)) s);
      Ok (set_ms_events (delete e (ms_events s)) s)
  end.
End events.

(** ** Messages *)

Definition MsgDeleteProc (g : nat) (s : MapState) : run_result MapState :=
  mg ← NetMapBase.read (ms_msgs s) g;
  lists ← unchain_from (ms_msgs s) (ms_msgLists s) (inl <$> mg_itemPtr mg) g s;
  lists ← unchain_from (ms_msgs s) lists (inr <$> mg_mapPtr mg) g s;
  Ok (set_ms_msgLists lists (set_ms_msgs (delete g (ms_msgs s)) s)).

Definition delete_msg (g : nat) (s : MapState) : run_result MapState :=
  mg ← NetMapBase.read (ms_msgs s) g;
  match mg_token mg with None => UseAfterFree | Some name => delete_token name (MsgDeleteProc g) s end.

Definition TnmMapCreateMsg (mapPtr itemPtr : option nat) (tag message : cstring) (health interval : Z) (s : MapState) : run_result (nat * MapState) :=
  match owner_of itemPtr mapPtr with
  | None => UseAfterFree
  | Some o =>
      l ← owner_list (ms_msgLists s) o s;
      let '(g, s) := allocate s in
      '(handle, s) ← create_command (cstr "msg") (CmdMsg g) s;
      Ok (g, set_ms_msgLists (<[o := g :: l]> (ms_msgLists s))
               (set_ms_msgs (<[g := mkMsg 0 interval health tag message (ms_clock s) mapPtr itemPtr (Some handle)]> (ms_msgs s)) s))
  end.

Section messages.
Variable Tcl_GetIntFromObj : cstring -> option Z.

(** [while (objc > 4)]: the words after [message]; the options, the tag and the text. *)
Fixpoint msg_options (words : list cstring) (health interval : Z) : option (Z * Z * cstring * cstring) :=
  match words with
  | [tag; text] => Some (health, interval, tag, text)
  | opt :: value :: words =>
      if bool_decide (opt = cstr "-interval") then
        match TnmGetUnsignedFromObj (Tcl_GetIntFromObj value) with Some n => msg_options words health n | None => None end
      else if bool_decide (opt = cstr "-health") then
        match TnmGetIntRangeFromObj (-100) 100 (Tcl_GetIntFromObj value) with Some n => msg_options words (n * 1000) interval | None => None end
      else None
  | _ => None
  end.

Definition TnmMapMsgCmd (mapPtr itemPtr : option nat) (words : list cstring) (s : MapState) : run_result (tcl_code * MapState) :=
  match msg_options words 0 0 with
  | None => Ok (TCL_ERROR, s)
  | Some (health, interval, tag, text) => '(_, s) ← TnmMapCreateMsg mapPtr itemPtr tag text health interval s; Ok (TCL_OK, s)
  end.

(** [Tcl_RegExpMatchObj] and [Tcl_ListObjGetElements] *)
Variable Tcl_RegExpMatch : cstring -> cstring -> bool.
Variable list_of : cstring -> option (list cstring).

Definition MatchMsg (tag storeList : cstring) : bool :=
  match list_of storeList with Some l => existsb (Tcl_RegExpMatch tag) l | None => false end.

Definition set_mg_flags (flags : Z) (mg : TnmMapMsg) : TnmMapMsg :=
  mkMsg flags (mg_interval mg) (mg_health mg) (mg_tag mg) (mg_msg mg) (mg_msgTime mg) (mg_mapPtr mg) (mg_itemPtr mg) (mg_token mg).

(** The marks of one message.  Every message is saved, or does not need it, when it is
    looked at. *)
Definition mark_msg (s : MapState) (expireTime : Z) (mg : TnmMapMsg) : run_result TnmMapMsg :=
  if bool_decide (mg_token mg = None) then Ok mg
  else
    _ ← match mg_tag mg, mg_itemPtr mg, mg_mapPtr mg with
        | [], _, _ => Ok tt
        | _, Some p, _ => _ ← get_item s p; Ok tt
        | _, None, Some m => _ ← get_map s m; Ok tt
        | _, None, None => Ok tt
        end;
    let mg := set_mg_flags (mg_flags mg .| TNM_MSG_SAVED) mg in
    Ok (if bool_decide ((mg_msgTime mg).1 < expireTime) then set_mg_flags (mg_flags mg .| TNM_MSG_EXPIRED) mg else mg).

Fixpoint mark_msgs (l : list nat) (expireTime : Z) (s : MapState) : run_result MapState :=
  match l with
  | [] => Ok s
  | g :: l =>
      mg ← NetMapBase.read (ms_msgs s) g;
      mg ← mark_msg s expireTime mg;
      mark_msgs l expireTime (set_ms_msgs (<[g := mg]> (ms_msgs s)) s)
  end.

(** Whether a message is written to its file: it has a tag that matches a pattern of the
    store list and was not saved before. *)
Definition msg_saved (s : MapState) (mg : TnmMapMsg) : bool :=
  bool_decide (mg_token mg <> None) && bool_decide (mg_flags mg .& TNM_MSG_SAVED = 0) && bool_decide (mg_tag mg <> []) &&
  match mg_itemPtr mg, mg_mapPtr mg with
  | Some p, _ => match ms_items s !! p with Some it => MatchMsg (mg_tag mg) (it_storeList it) | None => false end
  | None, Some m => match mem_heap (ms_maps s) !! m with Some mp => MatchMsg (mg_tag mg) (mp_storeList mp) | None => false end
  | None, None => true
  end.
End messages.

(** [nextMsg:] *)
Fixpoint find_expired_msg (s : MapState) (l : list nat) : run_result (option nat) :=
  match l with
  | [] => Ok None
  | g :: l =>
      mg ← NetMapBase.read (ms_msgs s) g;
      if bool_decide (mg_token mg <> None) && bool_decide (mg_flags mg .& TNM_MSG_EXPIRED <> 0) then Ok (Some g) else find_expired_msg s l
  end.

Fixpoint delete_expired_msgs (fuel : nat) (o : owner) (s : MapState) : run_result MapState :=
  l ← owner_list (ms_msgLists s) o s;
  old ← find_expired_msg s l;
  match old with
  | None => Ok s
  | Some g => match fuel with O => NoFuel | S fuel => s ← delete_msg g s; delete_expired_msgs fuel o s end
  end.

Definition TnmMapExpireMsgs (o : owner) (expireTime : Z) (s : MapState) : run_result MapState :=
  l ← owner_list (ms_msgLists s) o s;
  s ← mark_msgs l expireTime s;
  delete_expired_msgs (length l) o s.

(** ** Object commands *)

Inductive object_command := objDestroy | objArgs | objItem | objMap | objTag | objTime | objType | objPattern | objScript | objHealth | objInterval | objText.

(** The name of the item or the map a structure belongs to. *)
Definition ref_item (s : MapState) (p : option nat) : run_result cstring :=
  match p with None => Ok [] | Some p => it ← get_item s p; Ok (default [] (it_token it)) end.
Definition ref_map (s : MapState) (m : option nat) : run_result cstring :=
  match m with None => Ok [] | Some m => map_name s m end.

(** The result and the state; [None] for an option the object does not have. *)
Definition EventObjCmd (e : nat) (cmd : object_command) (s : MapState) : run_result (option cstring * MapState) :=
  ev ← NetMapBase.read (ms_events s) e;
  match cmd with
  | objArgs => Ok (Some (default [] (ev_eventData ev)), s)
  | objDestroy => s ← delete_event e s; Ok (Some [], s)
  | objItem => name ← ref_item s (ev_itemPtr ev); Ok (Some name, s)
  | objMap => name ← ref_map s (ev_mapPtr ev); Ok (Some name, s)
  | objTag => Ok (Some (ev_eventName ev), s)
  | objTime => Ok (Some (sprintf_u (ev_eventTime ev).1), s)
  | objType => Ok (Some (cstr "event"), s)
  | _ => Ok (None, s)
  end.

Definition BindObjCmd (b : nat) (cmd : object_command) (s : MapState) : run_result (option cstring * MapState) :=
  bd ← NetMapBase.read (ms_binds s) b;
  match cmd with
  | objDestroy => s ← delete_binding b s; Ok (Some [], s)
  | objItem => name ← ref_item s (bd_itemPtr bd); Ok (Some name, s)
  | objMap => name ← ref_map s (bd_mapPtr bd); Ok (Some name, s)
  | objPattern => Ok (Some (bd_pattern bd), s)
  | objScript => Ok (Some (bd_bindData bd), s)
  | objType => Ok (Some (cstr "binding"), s)
  | _ => Ok (None, s)
  end.

Definition MsgObjCmd (g : nat) (cmd : object_command) (s : MapState) : run_result (option cstring * MapState) :=
  mg ← NetMapBase.read (ms_msgs s) g;
  match cmd with
  | objDestroy => s ← delete_msg g s; Ok (Some [], s)
  | objItem => name ← ref_item s (mg_itemPtr mg); Ok (Some name, s)
  | objMap => name ← ref_map s (mg_mapPtr mg); Ok (Some name, s)
  | objHealth => Ok (Some (sprintf_d (Z.quot (mg_health mg) 1000)), s)
  | objInterval => Ok (Some (sprintf_u (mg_interval mg)), s)
  | objTag => Ok (Some (mg_tag mg), s)
  | objText => Ok (Some (mg_msg mg), s)
  | objTime => Ok (Some (sprintf_u (mg_msgTime mg).1), s)
  | objType => Ok (Some (cstr "message"), s)
  | _ => Ok (None, s)
  end.
