(* ===== verification/NetMap.v ===== *)
(** Network maps, [tnmMap.c], and the commands of items ([TnmMapItemObjCmd]).

    One interpreter with its list of maps.  Loading and saving a map are functions on the
    text; the channels are not modelled, and what the evaluation of the text does is left
    to Tcl. *)

From stdpp Require Import gmap.
From S2P Require Import Prelude Mem CStr Util NetMapBase NetMapItem NetMapEvent.
Local Open Scope Z_scope.
Local Open Scope cint_scope.

(** ** The health of items *)

(** Binary64 numbers are multiples of 2^-53 here: rounding to 53 significant bits, to even
    in the middle, and the constants 0.6 and 0.4. *)
Definition round53 (n : Z) : Z :=
  let e := Z.log2 n - 52 in
  if bool_decide (e <= 0) then n
  else
    let q := n >> e in
    let r := n - (q << e) in
    let half := 1 << (e - 1) in
    (if bool_decide (half < r) || (bool_decide (r = half) && Z.odd q) then q + 1 else q) << e.

Definition double_0_6 : Z := 5404319552844595.
Definition double_0_4 : Z := 3602879701896397.

(** [(int) (0.6 * score + 0.4 * itemPtr->health)] *)
Definition mix_health (score health : Z) : Z :=
  round53 (round53 (double_0_6 * score) + round53 (double_0_4 * health)) >> 53.

(** The largest and the smallest health of the messages of the last interval. *)
Fixpoint health_range (s : MapState) (l : list nat) (now timeout min max : Z) : run_result (Z * Z) :=
  match l with
  | [] => Ok (min, max)
  | g :: l =>
      mg ← NetMapBase.read (ms_msgs s) g;
      if bool_decide (timeout < now - (mg_msgTime mg).1) then Ok (min, max)
      else health_range s l now timeout (if bool_decide (mg_health mg < min) then mg_health mg else min) (if bool_decide (max < mg_health mg) then mg_health mg else max)
  end.

Definition health_score (min max : Z) : Z :=
  let score := 100 * 1000 + (if bool_decide (0 <= min) then max else if bool_decide (max <= 0) then min else Z.quot (max + min) 2) in
  let score := if bool_decide (100 * 1000 < score) then 100 * 1000 else score in
  if bool_decide (score < 0) then 0 else score.

(** The loop of [TickProc] over the items.  Deleting events and messages does not change
    the list of items. *)
Fixpoint tick_items (l : list nat) (now timeout : Z) (s : MapState) : run_result MapState :=
  match l with
  | [] => Ok s
  | p :: l =>
      msgs ← owner_list (ms_msgLists s) (inl p) s;
      '(min, max) ← health_range s msgs now timeout 0 0;
      let s := update_item (fun it => set_it_health (mix_health (health_score min max) (it_health it)) it) p s in
      it ← get_item s p;
      s ← (if bool_decide (it_expire it <> 0) then
             let expireTime := s32 (now - it_expire it) in
             events ← owner_list (ms_eventLists s) (inl p) s;
             s ← TnmMapExpireEvents (length events) (inl p) expireTime s;
             TnmMapExpireMsgs (inl p) expireTime s
           else Ok s);
      tick_items l now timeout s
  end.

Definition TickProc (m : nat) (s : MapState) : run_result MapState :=
  mp ← get_map s m;
  let now := (ms_clock s).1 in
  s ← tick_items (mp_itemList mp) now (Z.quot (mp_interval mp) 1000) s;
  mp ← get_map s m;
  s ← (if bool_decide (mp_expire mp <> 0) then
         let expireTime := s32 (now - mp_expire mp) in
         events ← owner_list (ms_eventLists s) (inr m) s;
         s ← TnmMapExpireEvents (length events) (inr m) expireTime s;
         TnmMapExpireMsgs (inr m) expireTime s
       else Ok s);
  Ok (update_map (fun mp => set_mp_lastTick (ms_clock s) (set_mp_timer (Some (mp_interval mp)) mp)) m s).

(** ** Finding items *)

Definition TNM_SORT_NONE : Z := 0x00.
Definition TNM_SORT_MTIME : Z := 0x01.
Definition TNM_SORT_CTIME : Z := 0x02.
Definition TNM_SORT_HEALTH : Z := 0x04.
Definition TNM_SORT_DECR : Z := -2147483648.

Definition sortModeTable : TnmTable := [mkElem TNM_SORT_CTIME (cstr "ctime"); mkElem TNM_SORT_MTIME (cstr "mtime"); mkElem TNM_SORT_HEALTH (cstr "health")].

(** [strcmp] *)
Fixpoint strcmp (a b : cstring) : Z :=
  match a, b with
  | [], [] => 0
  | [], _ => -1
  | _, [] => 1
  | x :: a, y :: b => if bool_decide (x < y) then -1 else if bool_decide (y < x) then 1 else strcmp a b
  end.

Definition SortProc (sortMode : Z) (a b : TnmMapItem) : Z :=
  let cmp (x y : Z) := if bool_decide (x < y) then -1 else if bool_decide (y < x) then 1 else 0 in
  let order := if bool_decide (sortMode .& 0xFF = TNM_SORT_MTIME) then cmp (it_mtime a).1 (it_mtime b).1
               else if bool_decide (sortMode .& 0xFF = TNM_SORT_CTIME) then cmp (it_ctime a).1 (it_ctime b).1 else 0 in
  let order := if bool_decide (sortMode .& TNM_SORT_DECR <> 0) then - order else order in
  if bool_decide (order = 0) then strcmp (it_name a) (it_name b) else order.

Record find_args := mkFind { fa_address : option cstring; fa_name : option cstring; fa_type : option item_type; fa_tags : option cstring; fa_sort : Z }.

Section find.
Variable Tcl_StringMatch : cstring -> cstring -> bool.
Variable list_of : cstring -> option (list cstring).

(** [for (i = 2; i < objc; i++)]: the options and their values; [None] for an error. *)
Fixpoint find_item_options (args : list (cstring * cstring)) (a : find_args) : option find_args :=
  match args with
  | [] => Some a
  | (opt, v) :: args =>
      if bool_decide (opt = cstr "-address") then find_item_options args (mkFind (Some v) (fa_name a) (fa_type a) (fa_tags a) (fa_sort a))
      else if bool_decide (opt = cstr "-name") then find_item_options args (mkFind (fa_address a) (Some v) (fa_type a) (fa_tags a) (fa_sort a))
      else if bool_decide (opt = cstr "-order") then
        if bool_decide (v = cstr "increasing") then find_item_options args (mkFind (fa_address a) (fa_name a) (fa_type a) (fa_tags a) (fa_sort a .& Z.lnot TNM_SORT_DECR))
        else if bool_decide (v = cstr "decreasing") then find_item_options args (mkFind (fa_address a) (fa_name a) (fa_type a) (fa_tags a) (fa_sort a .| TNM_SORT_DECR))
        else None
      else if bool_decide (opt = cstr "-sort") then
        let mode := TnmGetTableKeyFromObj sortModeTable v in
        if bool_decide (mode = -1) then None else find_item_options args (mkFind (fa_address a) (fa_name a) (fa_type a) (fa_tags a) mode)
      else if bool_decide (opt = cstr "-tags") then find_item_options args (mkFind (fa_address a) (fa_name a) (fa_type a) (Some v) (fa_sort a))
      else if bool_decide (opt = cstr "-type") then
        match GetItemType v with
        | Some t => find_item_options args (mkFind (fa_address a) (fa_name a) (Some t) (fa_tags a) (fa_sort a))
        | None => None
        end
      else None
  end.

(** The tests of one item: [None] for an error of [TnmMatchTags]. *)
Definition find_match (a : find_args) (it : TnmMapItem) : option bool :=
  if bool_decide (fa_type a <> None) && bool_decide (fa_type a <> Some (it_typePtr it)) then Some false
  else if match fa_name a, TnmGetTableValue (configTable (it_typePtr it)) TNM_ITEM_OPT_NAME with
          | Some name, Some _ => negb (Tcl_StringMatch (it_name it) name)
          | _, _ => false
          end then Some false
  else if match fa_address a, TnmGetTableValue (configTable (it_typePtr it)) TNM_ITEM_OPT_ADDRESS, it_address it with
          | Some address, Some _, Some ad => negb (Tcl_StringMatch ad address)
          | _, _, _ => false
          end then Some false
  else match fa_tags a with
       | None => Some true
       | Some pats =>
           let m := TnmMatchTags Tcl_StringMatch (list_of (it_tagList it)) (list_of pats) in
           if bool_decide (m < 0) then None else Some (bool_decide (m <> 0))
       end.

Fixpoint find_scan (s : MapState) (a : find_args) (l : list nat) (found : list nat) : run_result (option (list nat)) :=
  match l with
  | [] => Ok (Some found)
  | p :: l =>
      it ← get_item s p;
      match find_match a it with
      | None => Ok None
      | Some true => find_scan s a l (found ++ [p])
      | Some false => find_scan s a l found
      end
  end.

(** [qsort] of the library *)
Variable qsort : (nat -> nat -> Z) -> list nat -> list nat.

Definition sort_items (s : MapState) (mode : Z) (l : list nat) : list nat :=
  qsort (fun p q => match ms_items s !! p, ms_items s !! q with Some a, Some b => SortProc mode a b | _, _ => 0 end) l.

(** The items found, in the order of the result; [None] for an error. *)
Definition FindItems (m : nat) (args : option (list (cstring * cstring))) (s : MapState) : run_result (option (list nat)) :=
  match args ≫= fun args => find_item_options args (mkFind None None None None TNM_SORT_NONE) with
  | None => Ok None
  | Some a =>
      mp ← get_map s m;
      if bool_decide (mp_numItems mp = 0) then Ok (Some [])
      else
        found ← find_scan s a (mp_itemList mp) [];
        Ok (option_map (fun l => if bool_decide (l <> []) && bool_decide (fa_sort a .& 0xFF <> TNM_SORT_NONE) then sort_items s (fa_sort a) l else l) found)
  end.
End find.

(** ** Options of maps *)

Definition map_optionTable : TnmTable :=
  [mkElem 0 (cstr "-expire"); mkElem 1 (cstr "-height"); mkElem 2 (cstr "-name"); mkElem 3 (cstr "-path");
   mkElem 4 (cstr "-store"); mkElem 5 (cstr "-tags"); mkElem 6 (cstr "-tick"); mkElem 7 (cstr "-width")].

Section map_options.
Variable Tcl_GetIntFromObj : cstring -> option Z.

Definition map_SetOption (m : nat) (s : MapState) (option : Z) (v : cstring) : tcl_code * MapState :=
  let number (f : Z -> TnmMap -> TnmMap) :=
    match TnmGetUnsignedFromObj (Tcl_GetIntFromObj v) with
    | Some num => (TCL_OK, update_map (f num) m s)
    | None => (TCL_ERROR, s)
    end in
  if bool_decide (option = 0) then number set_mp_expire
  else if bool_decide (option = 1) then number set_mp_height
  else if bool_decide (option = 2) then (TCL_OK, update_map (set_mp_name v) m s)
  else if bool_decide (option = 3) then (TCL_OK, update_map (set_mp_path v) m s)
  else if bool_decide (option = 4) then (TCL_OK, update_map (set_mp_storeList v) m s)
  else if bool_decide (option = 5) then (TCL_OK, update_map (set_mp_tagList v) m s)
  else if bool_decide (option = 6) then
    number (fun num mp =>
      let mp := set_mp_interval (s32 (num * 1000)) (set_mp_timer None mp) in
      if bool_decide (mp_interval mp <> 0) then set_mp_lastTick (ms_clock s) (set_mp_timer (Some (mp_interval mp)) mp) else mp)
  else if bool_decide (option = 7) then number set_mp_width
  else (TCL_OK, s).

Definition map_GetOption (m : nat) (s : MapState) (option : Z) : Datatypes.option cstring :=
  match mem_heap (ms_maps s) !! m with
  | None => None
  | Some mp =>
      if bool_decide (option = 0) then Some (sprintf_d (mp_expire mp))
      else if bool_decide (option = 1) then Some (sprintf_d (mp_height mp))
      else if bool_decide (option = 2) then Some (mp_name mp)
      else if bool_decide (option = 3) then Some (mp_path mp)
      else if bool_decide (option = 4) then Some (mp_storeList mp)
      else if bool_decide (option = 5) then Some (mp_tagList mp)
      else if bool_decide (option = 6) then Some (sprintf_d (Z.quot (mp_interval mp) 1000))
      else if bool_decide (option = 7) then Some (sprintf_d (mp_width mp))
      else None
  end.

Definition map_config (m : nat) : TnmConfig MapState cstring := mkConfig (Object := MapState) (Value := cstring) map_optionTable (map_SetOption m) (map_GetOption m).

(** ** Creation and deletion of maps *)

Definition new_map (clock : Z * Z) : TnmMap := mkMap [] 0 0 [] ∅ [] (60 * 1000) (Some (60 * 1000)) clock 3600 0 false [] [] [].

(** When an option fails the map is released; its timer is not. *)
Definition CreateMap (args : option (list (cstring * cstring))) (s : MapState) : run_result (tcl_code * option cstring * MapState) :=
  let '(m, s) := allocate s in
  let s := set_ms_maps (mem_alloc m (new_map (ms_clock s)) (ms_maps s)) s in
  match TnmSetConfig (map_config m) s args with
  | (TCL_ERROR, s, _) => Ok (TCL_ERROR, None, set_ms_maps (mem_free m (ms_maps s)) s)
  | (TCL_OK, s, _) =>
      let s := set_ms_mapList (ms_mapList s ++ [m]) s in
      '(name, s) ← create_command (cstr "map") (CmdMap m) s;
      Ok (TCL_OK, Some name, update_map (set_mp_token name) m s)
  end.
End map_options.

(** [repeat:] *)
Fixpoint ClearMap (fuel : nat) (m : nat) (s : MapState) : run_result MapState :=
  mp ← get_map s m;
  match mp_itemList mp with
  | [] => Ok s
  | p :: _ => match fuel with O => NoFuel | S fuel => s ← Tcl_DeleteItem p s; ClearMap fuel m s end
  end.

Definition clear_map (m : nat) (s : MapState) : run_result MapState := mp ← get_map s m; ClearMap (length (mp_itemList mp)) m s.

Definition MapDeleteProc (m : nat) (s : MapState) : run_result MapState :=
  mp ← get_map s m;
  let s := if bool_decide (mp_timer mp <> None) then update_map (fun mp => set_mp_interval 0 (set_mp_timer None mp)) m s else s in
  s ← clear_map m s;
  Ok (set_ms_maps (mem_free m (ms_maps s)) (set_ms_mapList (vector_delete (ms_mapList s) m) s)).

(** [Tcl_DeleteCommandFromToken] for the command of a map. *)
Definition Tcl_DeleteMap (m : nat) (s : MapState) : run_result MapState :=
  mp ← get_map s m; delete_token (mp_token mp) (MapDeleteProc m) s.

(** ** Dumping *)

Section dump.
(** The string of a Tcl list and the order of a hash table. *)
Variable list_string : list cstring -> cstring.
Variable hash_order : gmap cstring cstring -> list (cstring * cstring).

Definition nl : cstring := [10].

(** [TnmAttrDump] *)
Definition TnmAttrDump (attrs : gmap cstring cstring) (name : cstring) : cstring :=
  concat (map (fun kv => match kv.1 with
                         | c :: _ => if isupper c || bool_decide (c = chr_colon) then name ++ cstr " attribute " ++ list_string [kv.1; kv.2] ++ nl else []
                         | [] => []
                         end) (hash_order attrs)).

(** The options of an item or a map as a list of names and values. *)
Definition option_words (opts : list (cstring * cstring)) : cstring := list_string (concat (map (fun kv => [kv.1; kv.2]) opts)).

(** [TnmMapItemDump]: [set], the creation with all options, the position and the
    attributes. *)
Definition TnmMapItemDump (p : nat) (s : MapState) : run_result cstring :=
  it ← get_item s p;
  let name := default [] (it_token it) in
  let var := 36 :: name in
  Ok (cstr "set " ++ name ++ cstr " [$map create " ++ type_name (it_typePtr it) ++ cstr " " ++
      option_words (config_list (item_config (fun _ => None) p (it_typePtr it)) (Ok s) (configTable (it_typePtr it))) ++ cstr "]" ++ nl ++
      TnmAttrDump (it_attributes it) var ++
      (if bool_decide (it_x it <> 0) || bool_decide (it_y it <> 0) then var ++ cstr " move " ++ sprintf_d (it_x it) ++ cstr " " ++ sprintf_d (it_y it) ++ nl else [])).

(** [strstr]: what is in front of the text and what is behind it. *)
Fixpoint strstr (s pat : cstring) : option (cstring * cstring) :=
  if bool_decide (pat `prefix_of` s) then Some ([], drop (length pat) s)
  else match s with [] => None | c :: s => '(front, rest) ← strstr s pat; Some (c :: front, rest) end.

(** [tok = strstr(str, " -src ")]: a dollar sign is put behind the option. *)
Definition reference (t : item_type) (key : Z) (word str : cstring) : cstring * cstring :=
  match TnmGetTableValue (configTable t) key with
  | None => ([], str)
  | Some _ => match strstr str word with
              | Some (front, rest) => (front ++ word ++ cstr "$", rest)
              | None => ([], str)
              end
  end.

Definition item_script (t : item_type) (str : cstring) : cstring :=
  let '(src, str) := reference t TNM_ITEM_OPT_SRC (cstr " -src ") str in
  let '(dst, str) := reference t TNM_ITEM_OPT_DST (cstr " -dst ") str in
  nl ++ src ++ dst ++ str.

(** [DumpMapProc]: the parent and the ends of an item come first. *)
Fixpoint DumpMapProc (fuel : nat) (i : option nat) (s : MapState) : run_result (cstring * MapState) :=
  match i with
  | None => Ok ([], s)
  | Some p =>
      it ← get_item s p;
      if it_dumped it then Ok ([], s)
      else
        match fuel with
        | O => NoFuel
        | S fuel =>
            '(parent, s) ← DumpMapProc fuel (it_parent it) s;
            '(src, s) ← DumpMapProc fuel (it_srcPtr it) s;
            '(dst, s) ← DumpMapProc fuel (it_dstPtr it) s;
            str ← TnmMapItemDump p s;
            Ok (parent ++ src ++ dst ++ item_script (it_typePtr it) str, update_item (set_it_dumped true) p s)
        end
  end.

Definition set_dumped (f : nat -> bool) (l : list nat) (s : MapState) : MapState := foldr (fun p => update_item (set_it_dumped (f p)) p) s l.

(** The items that are not dumped yet, in the order of the list. *)
Fixpoint dump_items (fuel : nat) (sep : cstring) (l : list nat) (s : MapState) : run_result (cstring * MapState) :=
  match l with
  | [] => Ok ([], s)
  | p :: l =>
      it ← get_item s p;
      if it_dumped it then dump_items fuel sep l s
      else '(a, s) ← DumpMapProc fuel (Some p) s; '(b, s) ← dump_items fuel sep l s; Ok (sep ++ a ++ b, s)
  end.

Definition DumpMap (m : nat) (s : MapState) : run_result (cstring * MapState) :=
  mp ← get_map s m;
  let s := set_dumped (fun _ => false) (mp_itemList mp) s in
  '(items, s) ← dump_items (S (size (ms_items s))) [] (mp_itemList mp) s;
  Ok (cstr "$map configure " ++ option_words (config_list (map_config (fun _ => None) m) s map_optionTable) ++ nl ++
      TnmAttrDump (mp_attributes mp) (cstr "$map") ++ items, s).

(** [CopyMap] with the addresses of the items: those that are not to be copied count as
    dumped. *)
Definition CopyMap (m : nat) (itemv : list nat) (s : MapState) : run_result MapState :=
  mp ← get_map s m;
  let s := set_dumped (fun p => negb (bool_decide (p ∈ itemv))) (mp_itemList mp) s in
  '(text, s) ← dump_items (S (size (ms_items s))) nl (mp_itemList mp) s;
  Ok (set_ms_clip text s).

(** [CopyMap]: the names of the items; [None] for a name that is no item of the map. *)
Fixpoint copy_items (m : nat) (names : list cstring) (s : MapState) : run_result (option (list nat)) :=
  match names with
  | [] => Ok (Some [])
  | name :: names =>
      found ← TnmMapFindItem s m name;
      match found with
      | None => Ok None
      | Some p => l ← copy_items m names s; Ok (option_map (cons p) l)
      end
  end.
End dump.

(** ** Map files *)

Section files.
Variable Tcl_StringMatch : cstring -> cstring -> bool.

(** [while (Tcl_Gets(channel, &script) >= 0)]: the lines that begin with [#], how many of
    them have the signature, and the first other line, which has no newline. *)
Fixpoint map_header (lines : list cstring) (script : cstring) (valid : nat) : cstring * nat * list cstring :=
  match lines with
  | [] => (script, valid, [])
  | line :: lines =>
      match line with
      | 35 :: _ => map_header lines (script ++ line ++ nl) (if Tcl_StringMatch line (cstr "#*Tnm map file*>> DO NOT EDIT <<") then S valid else valid)
      | _ => (script ++ line, valid, lines)
      end
  end.

(** [LoadMap]: the script that is evaluated; [None] for an invalid file. *)
Definition load_script (lines : list cstring) : option cstring :=
  let '(script, valid, lines) := map_header lines [] 0 in
  if bool_decide (valid = 0%nat) then None else Some (script ++ concat (map (fun line => line ++ nl) lines)).

(** [SaveMap]: the lines of the header, with the variables of the library if they are set. *)
Definition save_header (version user arch : option cstring) : list cstring :=
  [cstr "#!/bin/sh"; cstr "# Machine generated Tnm map file." ++ [9] ++ cstr "-*- tcl -*-" ++ [9] ++ cstr ">> DO NOT EDIT <<"; cstr "#"] ++
  match version with Some v => [cstr "# TnmVersion: " ++ v] | None => [] end ++
  match user with Some v => [cstr "# TnmUser: " ++ v] | None => [] end ++
  match arch with Some v => [cstr "# TnmArch: " ++ v] | None => [] end ++
  [cstr "#"; cstr "# The map being loaded is expected to be in the Tcl variable " ++ [34] ++ cstr "map" ++ [34; 46]; [35; 92];
   cstr "exec scotty " ++ [34; 36; 48; 34; 32; 34; 36; 42; 34]; []; cstr "if ![info exists map] { set map [Tnm::map create] }"; []].

Definition save_text (header : list cstring) (dump : cstring) : cstring := concat (map (fun line => line ++ nl) header) ++ dump.
End files.
