(* ===== verification/NetMapCmd.v ===== *)
(** The Tcl commands of items and maps: [TnmMapItemObjCmd] of [tnmMapUtil.c] with the
    command procedures of the item types, [MapObjCmd], [FindMaps], [LoadMap] and
    [Tnm_MapObjCmd] of [tnmMap.c].

    A command is the list of its words behind the name.  The result is a list of words;
    messages of errors are left out.  What a script does that is evaluated is a parameter
    (bindings, and the text of a map). *)

From stdpp Require Import gmap.
From S2P Require Import Prelude Mem CStr Util NetMapBase NetMapItem NetMapEvent NetMap.
Local Open Scope Z_scope.
Local Open Scope cint_scope.

Definition TNM_ITEM_CMD_MAP : Z := 0x0001.
Definition TNM_ITEM_CMD_MOVE : Z := 0x0002.
Definition TNM_ITEM_CMD_TYPE : Z := 0x0004.
Definition TNM_ITEM_CMD_ATTRIBUTE : Z := 0x0008.
Definition TNM_ITEM_CMD_DUMP : Z := 0x0010.
Definition TNM_ITEM_CMD_DESTROY : Z := 0x0020.
Definition TNM_ITEM_CMD_BIND : Z := 0x0040.
Definition TNM_ITEM_CMD_RAISE : Z := 0x0080.
Definition TNM_ITEM_CMD_HEALTH : Z := 0x0100.
Definition TNM_ITEM_CMD_INFO : Z := 0x0200.
Definition TNM_ITEM_CMD_MSG : Z := 0x0400.
Definition TNM_ITEM_CMD_CGET : Z := 0x0800.
Definition TNM_ITEM_CMD_CONFIG : Z := 0x1000.

Definition item_cmdTable : TnmTable :=
  [mkElem TNM_ITEM_CMD_ATTRIBUTE (cstr "attribute"); mkElem TNM_ITEM_CMD_BIND (cstr "bind"); mkElem TNM_ITEM_CMD_CGET (cstr "cget");
   mkElem TNM_ITEM_CMD_CONFIG (cstr "configure"); mkElem TNM_ITEM_CMD_DESTROY (cstr "destroy"); mkElem TNM_ITEM_CMD_DUMP (cstr "dump");
   mkElem TNM_ITEM_CMD_HEALTH (cstr "health"); mkElem TNM_ITEM_CMD_INFO (cstr "info"); mkElem TNM_ITEM_CMD_MAP (cstr "map");
   mkElem TNM_ITEM_CMD_MOVE (cstr "move"); mkElem TNM_ITEM_CMD_MSG (cstr "message"); mkElem TNM_ITEM_CMD_RAISE (cstr "raise");
   mkElem TNM_ITEM_CMD_TYPE (cstr "type")].

(** The field [commonCmds], the same for all types. *)
Definition commonCmds (t : item_type) : Z :=
  TNM_ITEM_CMD_CONFIG .| TNM_ITEM_CMD_CGET .| TNM_ITEM_CMD_MAP .| TNM_ITEM_CMD_TYPE .| TNM_ITEM_CMD_DESTROY .| TNM_ITEM_CMD_MOVE .|
  TNM_ITEM_CMD_ATTRIBUTE .| TNM_ITEM_CMD_DUMP .| TNM_ITEM_CMD_BIND .| TNM_ITEM_CMD_RAISE .| TNM_ITEM_CMD_HEALTH .| TNM_ITEM_CMD_INFO .| TNM_ITEM_CMD_MSG.

(** [TnmMapItemCmdList] *)
Definition TnmMapItemCmdList (t : item_type) : TnmTable := filter (fun e => elem_key e .& commonCmds t <> 0) item_cmdTable.

Inductive cmd_result := CmdOk (words : list cstring) | CmdError | CmdContinue.

(** The words of a command in pairs; an odd number of them is an error. *)
Fixpoint pair_words (words : list cstring) : option (list (cstring * cstring)) :=
  match words with
  | [] => Some []
  | opt :: v :: words => l ← pair_words words; Some ((opt, v) :: l)
  | _ => None
  end.

(** The subjects of [info]; the pattern is matched against the tag, the name or the pattern
    of an entry. *)
Section info.
Variable Tcl_StringMatch : cstring -> cstring -> bool.

(** One pass over a list: [label] is what is matched, [handle] is the name that is
    appended if there is one. *)
Fixpoint info_list {A} (heap : gmap nat A) (label : A -> cstring) (handle : A -> option cstring) (pattern : option cstring) (l : list nat)
    : run_result (list cstring) :=
  match l with
  | [] => Ok []
  | a :: l =>
      x ← NetMapBase.read heap a;
      rest ← info_list heap label handle pattern l;
      Ok (if pattern_ok Tcl_StringMatch pattern (label x) then option_list (handle x) ++ rest else rest)
  end.

Definition info_messages (o : owner) (pattern : option cstring) (s : MapState) : run_result (list cstring) :=
  l ← owner_list (ms_msgLists s) o s; info_list (ms_msgs s) mg_tag mg_token pattern l.
Definition info_events (o : owner) (pattern : option cstring) (s : MapState) : run_result (list cstring) :=
  l ← owner_list (ms_eventLists s) o s; info_list (ms_events s) ev_eventName ev_token pattern l.
Definition info_bindings (o : owner) (pattern : option cstring) (s : MapState) : run_result (list cstring) :=
  l ← owner_list (ms_bindLists s) o s;
  info_list (ms_binds s) bd_pattern (fun bd => if bool_decide (bd_type bd = TNM_MAP_USER_EVENT) then bd_token bd else None) pattern l.

(** The names of the items in a vector. *)
Fixpoint info_items (s : MapState) (l : list nat) : run_result (list cstring) :=
  match l with
  | [] => Ok []
  | p :: l => it ← get_item s p; rest ← info_items s l; Ok (default [] (it_token it) :: rest)
  end.

Definition item_info (p : nat) (subject : cstring) (pattern : option cstring) (s : MapState) : run_result cmd_result :=
  it ← get_item s p;
  if bool_decide (subject = cstr "messages") then l ← info_messages (inl p) pattern s; Ok (CmdOk l)
  else if bool_decide (subject = cstr "events") then l ← info_events (inl p) pattern s; Ok (CmdOk l)
  else if bool_decide (subject = cstr "bindings") then l ← info_bindings (inl p) pattern s; Ok (CmdOk l)
  else if bool_decide (subject = cstr "links") then l ← info_items s (it_linkedItems it); Ok (CmdOk l)
  else if bool_decide (subject = cstr "member") then l ← info_items s (it_memberItems it); Ok (CmdOk l)
  else Ok CmdError.

Definition map_info (m : nat) (subject : cstring) (pattern : option cstring) (s : MapState) : run_result cmd_result :=
  if bool_decide (subject = cstr "messages") then l ← info_messages (inr m) pattern s; Ok (CmdOk l)
  else if bool_decide (subject = cstr "events") then l ← info_events (inr m) pattern s; Ok (CmdOk l)
  else if bool_decide (subject = cstr "bindings") then l ← info_bindings (inr m) pattern s; Ok (CmdOk l)
  else Ok CmdError.

(** [FindMaps]: [None] for an error of [TnmMatchTags]. *)
Variable list_of : cstring -> option (list cstring).
Fixpoint FindMaps (s : MapState) (patList : option cstring) (l : list nat) : run_result cmd_result :=
  match l with
  | [] => Ok (CmdOk [])
  | m :: l =>
      mp ← get_map s m;
      let match_ := match patList with None => 1 | Some pats => TnmMatchTags Tcl_StringMatch (list_of (mp_tagList mp)) (list_of pats) end in
      if bool_decide (match_ < 0) then Ok CmdError
      else
        rest ← FindMaps s patList l;
        Ok (match rest with CmdOk names => CmdOk (if bool_decide (match_ = 0) then names else mp_token mp :: names) | r => r end)
  end.

(** [for (i = 2; i < objc; i++)] of [FindMaps]: the last list of patterns counts. *)
Fixpoint find_maps_options (args : list (cstring * cstring)) (patList : option cstring) : option (option cstring) :=
  match args with
  | [] => Some patList
  | (opt, v) :: args => if bool_decide (opt = cstr "-tags") then find_maps_options args (Some v) else None
  end.

(** [map info maps] *)
Fixpoint info_maps (s : MapState) (pattern : option cstring) (l : list nat) : run_result (list cstring) :=
  match l with
  | [] => Ok []
  | m :: l => mp ← get_map s m; rest ← info_maps s pattern l; Ok (if pattern_ok Tcl_StringMatch pattern (mp_token mp) then mp_token mp :: rest else rest)
  end.
End info.

Section commands.
Variable Tcl_GetIntFromObj : cstring -> option Z.
Variable Tcl_StringMatch : cstring -> cstring -> bool.
Variable list_of : cstring -> option (list cstring).
Variable list_string : list cstring -> cstring.
Variable hash_order : gmap cstring cstring -> list (cstring * cstring).
Variable qsort : (nat -> nat -> Z) -> list nat -> list nat.
Variable Tcl_GlobalEval : cstring -> MapState -> script_code * MapState.

Definition code_result (code : tcl_code) (words : list cstring) : cmd_result := match code with TCL_OK => CmdOk words | TCL_ERROR => CmdError end.

(** [TNM_ITEM_CMD_ATTRIBUTE] and [cmdAttribute] with their tables; with a value the code of
    [TnmAttrSet] is not looked at. *)
Definition attribute_cmd (table : gmap cstring cstring) (words : list cstring) : option (list cstring * gmap cstring cstring) :=
  match words with
  | [] => Some ((hash_order table).*1, table)
  | [name] => Some (option_list (TnmAttrSet table name None).1.2, table)
  | [name; value] => let r := TnmAttrSet table name (Some value) in Some (option_list r.1.2, r.2)
  | _ => None
  end.

Definition move_item (p : nat) (x y : Z) (s : MapState) : run_result MapState :=
  s ← touch p s;
  TnmMapCreateEvent Tcl_StringMatch Tcl_GlobalEval TNM_MAP_MOVE_EVENT p
    (update_item (fun it => set_it_y (s32 (it_y it + y)) (set_it_x (s32 (it_x it + x)) it)) p s).

Definition item_position (p : nat) (s : MapState) : run_result (cmd_result * MapState) :=
  it ← get_item s p; Ok (CmdOk [sprintf_d (it_x it); sprintf_d (it_y it)], s).

Definition raise_cmd (mapPtr itemPtr : option nat) (words : list cstring) (s : MapState) : run_result (cmd_result * MapState) :=
  let raise name args :=
    '(e, s) ← TnmMapCreateUserEvent mapPtr itemPtr name args s;
    s ← TnmMapRaiseEvent Tcl_StringMatch Tcl_GlobalEval e s;
    Ok (CmdOk [], s) in
  match words with
  | [name] => raise name None
  | [name; args] => raise name (Some args)
  | _ => Ok (CmdError, s)
  end.

Definition bind_cmd (mapPtr itemPtr : option nat) (words : list cstring) (s : MapState) : run_result (cmd_result * MapState) :=
  match words with
  | [pattern; script] => '(b, s) ← TnmMapUserBinding mapPtr itemPtr pattern script s; Ok (match b with Some _ => CmdOk [] | None => CmdError end, s)
  | _ => Ok (CmdError, s)
  end.

(** [switch (cmd & itemPtr->typePtr->commonCmds)] *)
Definition TnmMapItemObjCmd (p : nat) (words : list cstring) (s : MapState) : run_result (cmd_result * MapState) :=
  match words with
  | [] => Ok (CmdError, s)
  | word :: args =>
      it ← get_item s p;
      let cmd := TnmGetTableKey item_cmdTable word .& commonCmds (it_typePtr it) in
      let m := it_mapPtr it in
      let none (r : run_result (cmd_result * MapState)) := match args with [] => r | _ => Ok (CmdError, s) end in
      if bool_decide (cmd = TNM_ITEM_CMD_CGET) then
        let '(code, v) := TnmGetConfig (item_config Tcl_GetIntFromObj p (it_typePtr it)) (Ok s) (match args with [name] => Some name | _ => None end) in
        Ok (code_result code (option_list v), s)
      else if bool_decide (cmd = TNM_ITEM_CMD_CONFIG) then
        '(code, s, opts) ← TnmMapItemConfigure Tcl_GetIntFromObj p (pair_words args) s;
        s ← match code, args with
            | TCL_OK, _ :: _ => TnmMapCreateEvent Tcl_StringMatch Tcl_GlobalEval TNM_MAP_CONFIGURE_EVENT p s
            | _, _ => Ok s
            end;
        Ok (code_result code (concat (map (fun kv => [kv.1; kv.2]) opts)), s)
      else if bool_decide (cmd = TNM_ITEM_CMD_MAP) then none (name ← map_name s m; Ok (CmdOk [name], s))
      else if bool_decide (cmd = TNM_ITEM_CMD_MOVE) then
        match args with
        | [] => item_position p s
        | [a; b] =>
            match Tcl_GetIntFromObj a, Tcl_GetIntFromObj b with
            | Some x, Some y => s ← move_item p x y s; item_position p s
            | _, _ => Ok (CmdError, s)
            end
        | _ => Ok (CmdError, s)
        end
      else if bool_decide (cmd = TNM_ITEM_CMD_TYPE) then none (Ok (CmdOk [type_name (it_typePtr it)], s))
      else if bool_decide (cmd = TNM_ITEM_CMD_ATTRIBUTE) then
        match attribute_cmd (it_attributes it) args with
        | None => Ok (CmdError, s)
        | Some (l, table) =>
            match args with
            | [_; _] =>
                s ← touch p (update_item (set_it_attributes table) p s);
                s ← TnmMapCreateEvent Tcl_StringMatch Tcl_GlobalEval TNM_MAP_ATTRIBUTE_EVENT p s;
                Ok (CmdOk l, s)
            | _ => Ok (CmdOk l, s)
            end
        end
      else if bool_decide (cmd = TNM_ITEM_CMD_DUMP) then none (text ← TnmMapItemDump list_string hash_order p s; Ok (CmdOk [text], s))
      else if bool_decide (cmd = TNM_ITEM_CMD_DESTROY) then none (s ← Tcl_DeleteItem p s; Ok (CmdOk [], s))
      else if bool_decide (cmd = TNM_ITEM_CMD_BIND) then bind_cmd (Some m) (Some p) args s
      else if bool_decide (cmd = TNM_ITEM_CMD_RAISE) then raise_cmd (Some m) (Some p) args s
      else if bool_decide (cmd = TNM_ITEM_CMD_HEALTH) then none (Ok (CmdOk [sprintf_d (Z.quot (it_health it) 1000)], s))
      else if bool_decide (cmd = TNM_ITEM_CMD_MSG) then
        '(code, s) ← TnmMapMsgCmd Tcl_GetIntFromObj (Some m) (Some p) args s; Ok (code_result code [], s)
      else if bool_decide (cmd = TNM_ITEM_CMD_INFO) then
        match args with
        | [subject] => r ← item_info Tcl_StringMatch p subject None s; Ok (r, s)
        | [subject; pattern] => r ← item_info Tcl_StringMatch p subject (Some pattern) s; Ok (r, s)
        | _ => Ok (CmdError, s)
        end
      else Ok (CmdContinue, s)
  end.

(** [NodeCmd], [PortCmd], [NetworkCmd], [LinkCmd] and [GroupCmd] *)
Definition ItemCmd (p : nat) (words : list cstring) (s : MapState) : run_result (cmd_result * MapState) :=
  '(r, s) ← TnmMapItemObjCmd p words s; Ok (match r with CmdContinue => CmdError | r => r end, s).

(** [Tcl_Eval] of the text of a map with the variable [map]. *)
Variable Tcl_Eval : cstring -> option cstring * MapState -> script_code * (option cstring * MapState).

(** The variable [map] has its old value again when the script is done. *)
Definition PasteMap (m : nat) (script : cstring) (w : option cstring * MapState) : run_result (script_code * (option cstring * MapState)) :=
  name ← map_name w.2 m;
  let '(code, (_, s)) := Tcl_Eval script (Some name, w.2) in
  Ok (code, (w.1, s)).

(** [LoadMap]: the lines that are read from the channel up to the end of the file. *)
Definition LoadMap (m : nat) (lines : list cstring) (w : option cstring * MapState) : run_result (script_code * (option cstring * MapState)) :=
  match load_script Tcl_StringMatch lines with
  | None => Ok (SCRIPT_ERROR, w)
  | Some script =>
      _ ← get_map w.2 m;
      '(code, (v, s)) ← PasteMap m script (w.1, update_map (set_mp_loading true) m w.2);
      _ ← get_map s m;
      Ok (code, (v, update_map (set_mp_loading false) m s))
  end.

(** The commands of [MapObjCmd] that do not use channels and do not evaluate the text of a
    map. *)
Definition map_cmd (m : nat) (word : cstring) (args : list cstring) (s : MapState) : run_result (cmd_result * MapState) :=
  let none (r : run_result (cmd_result * MapState)) := match args with [] => r | _ => Ok (CmdError, s) end in
  if bool_decide (word = cstr "attribute") then
    mp ← get_map s m;
    match attribute_cmd (mp_attributes mp) args with
    | None => Ok (CmdError, s)
    | Some (l, table) => Ok (CmdOk l, update_map (set_mp_attributes table) m s)
    end
  else if bool_decide (word = cstr "bind") then bind_cmd (Some m) None args s
  else if bool_decide (word = cstr "clear") then none (s ← clear_map m s; Ok (CmdOk [], s))
  else if bool_decide (word = cstr "cget") then
    let '(code, v) := TnmGetConfig (map_config Tcl_GetIntFromObj m) s (match args with [name] => Some name | _ => None end) in
    Ok (code_result code (option_list v), s)
  else if bool_decide (word = cstr "configure") then
    let '(code, s, opts) := TnmSetConfig (map_config Tcl_GetIntFromObj m) s (pair_words args) in
    Ok (code_result code (concat (map (fun kv => [kv.1; kv.2]) opts)), s)
  else if bool_decide (word = cstr "copy") then
    match args with
    | [items] =>
        match list_of items with
        | None => Ok (CmdError, s)
        | Some names =>
            found ← copy_items m names s;
            match found with
            | None => Ok (CmdError, s)
            | Some itemv => s ← CopyMap list_string hash_order m itemv s; Ok (CmdOk [], s)
            end
        end
    | _ => Ok (CmdError, s)
    end
  else if bool_decide (word = cstr "create") then
    match args with
    | [] => Ok (CmdError, s)
    | type :: args => '(code, name, s) ← CreateItem Tcl_GetIntFromObj m type (pair_words args) s; Ok (code_result code (option_list name), s)
    end
  else if bool_decide (word = cstr "destroy") then none (s ← Tcl_DeleteMap m s; Ok (CmdOk [], s))
  else if bool_decide (word = cstr "dump") then none ('(text, s) ← DumpMap list_string hash_order m s; Ok (CmdOk [text], s))
  else if bool_decide (word = cstr "info") then
    match args with
    | [subject] => r ← map_info Tcl_StringMatch m subject None s; Ok (r, s)
    | [subject; pattern] => r ← map_info Tcl_StringMatch m subject (Some pattern) s; Ok (r, s)
    | _ => Ok (CmdError, s)
    end
  else if bool_decide (word = cstr "find") then
    found ← FindItems Tcl_StringMatch list_of qsort m (pair_words args) s;
    match found with
    | None => Ok (CmdError, s)
    | Some l => names ← info_items s l; Ok (CmdOk names, s)
    end
  else if bool_decide (word = cstr "message") then
    '(code, s) ← TnmMapMsgCmd Tcl_GetIntFromObj (Some m) None args s; Ok (code_result code [], s)
  else if bool_decide (word = cstr "raise") then raise_cmd (Some m) None args s
  else if bool_decide (word = cstr "update") then
    none (_ ← get_map s m; s ← TickProc m (update_map (set_mp_timer None) m s); Ok (CmdOk [], s))
  else Ok (CmdError, s).

(** [Tcl_Preserve] and [Tcl_Release] around the command. *)
Definition MapObjCmd (m : nat) (words : list cstring) (s : MapState) : run_result (cmd_result * MapState) :=
  match words with
  | [] => Ok (CmdError, s)
  | word :: args =>
      '(r, s) ← map_cmd m word args (set_ms_maps (mem_preserve m (ms_maps s)) s);
      Ok (r, set_ms_maps (mem_release m (ms_maps s)) s)
  end.

(** [Tnm_MapObjCmd] when the item types are registered. *)
Definition Tnm_MapObjCmd (words : list cstring) (s : MapState) : run_result (cmd_result * MapState) :=
  match words with
  | [] => Ok (CmdError, s)
  | word :: args =>
      if bool_decide (word = cstr "create") then
        '(code, name, s) ← CreateMap Tcl_GetIntFromObj (pair_words args) s; Ok (code_result code (option_list name), s)
      else if bool_decide (word = cstr "find") then
        match pair_words args ≫= fun args => find_maps_options args None with
        | None => Ok (CmdError, s)
        | Some patList => r ← FindMaps Tcl_StringMatch list_of s patList (ms_mapList s); Ok (r, s)
        end
      else if bool_decide (word = cstr "info") then
        let info subject pattern :=
          if bool_decide (subject = cstr "maps") then l ← info_maps Tcl_StringMatch s pattern (ms_mapList s); Ok (CmdOk l, s)
          else if bool_decide (subject = cstr "types") then Ok (CmdOk (filter (fun name => Is_true (pattern_ok Tcl_StringMatch pattern name)) (map type_name itemTypes)), s)
          else Ok (CmdError, s) in
        match args with
        | [subject] => info subject None
        | [subject; pattern] => info subject (Some pattern)
        | _ => Ok (CmdError, s)
        end
      else Ok (CmdError, s)
  end.
End commands.
