(* ===== verification/NetMapConfig.v ===== *)
(** Configuring an item keeps the structure of the map: the options that refer to other
    items, and those that do not. *)

From stdpp Require Import gmap.
From S2P Require Import Prelude Mem CStr Util UtilTheorems NetMapBase NetMapItem NetMapInv NetMapDelete.
Local Open Scope Z_scope.

#[local] Notation heap := (gmap nat TnmMapItem).

(** ** What the structure depends on *)

Definition shape (it : TnmMapItem) := (it_parent it, it_memberItems it, it_linkedItems it, it_srcPtr it, it_dstPtr it, it_mapPtr it, it_typePtr it).
Definition core (it : TnmMapItem) := (shape it, it_token it).

Lemma shape_eq a b : shape a = shape b -> it_parent a = it_parent b /\ it_memberItems a = it_memberItems b /\ it_linkedItems a = it_linkedItems b /\
  it_srcPtr a = it_srcPtr b /\ it_dstPtr a = it_dstPtr b /\ it_mapPtr a = it_mapPtr b /\ it_typePtr a = it_typePtr b.
Proof. unfold shape. intros [=]. tauto. Qed.
Lemma core_eq a b : core a = core b -> shape a = shape b /\ it_token a = it_token b.
Proof. unfold core. intros H. by apply pair_equal_spec in H. Qed.

(** Heaps that differ only in other fields. *)
Definition agree {B} (f : TnmMapItem -> B) (a b : heap) : Prop := f <$> a = f <$> b.
#[local] Notation same_core := (agree core).
#[local] Notation same_shape := (agree shape).

Lemma same_lookup {B} (f : TnmMapItem -> B) a b p it : agree f a b -> b !! p = Some it -> exists it', a !! p = Some it' /\ f it' = f it.
Proof.
  intros H Hp. assert (Hc : (f <$> a) !! p = Some (f it)) by (rewrite H, lookup_fmap, Hp; done). rewrite lookup_fmap in Hc.
  destruct (a !! p) as [it'|]; [|done]. apply (inj Some) in Hc. eauto.
Qed.
Lemma same_sym {B} (f : TnmMapItem -> B) a b : agree f a b -> agree f b a.
Proof. done. Qed.
Lemma core_shape a b : same_core a b -> same_shape a b.
Proof.
  intros H. apply map_eq. intros k. rewrite !lookup_fmap. apply (f_equal (fun x => x !! k)) in H. rewrite !lookup_fmap in H. destruct (a !! k), (b !! k); try done. cbn in *. f_equal. apply core_eq. by apply (inj Some).
Qed.

Ltac cores := repeat match goal with H : core _ = core _ |- _ => apply core_eq in H as (? & ?) | H : shape _ = shape _ |- _ => apply shape_eq in H as (? & ? & ? & ? & ? & ? & ?) end.

Lemma same_rooted a b p : same_shape a b -> rooted a p -> rooted b p.
Proof. intros H. apply rooted_mono. intros k it Hk. destruct (same_lookup shape b a k it (same_sym _ _ _ H) Hk) as (it' & Hk' & Hc). cores. eauto. Qed.

Lemma same_ends a b p q : same_shape a b -> ends p q b = ends p q a.
Proof.
  intros H. unfold ends. destruct (b !! p) as [it|] eqn:Hb.
  - destruct (same_lookup shape _ _ _ _ H Hb) as (it' & Ha & Hc). cores. rewrite Ha. destruct it, it'. cbn in *. by subst.
  - destruct (a !! p) as [it|] eqn:Ha; [|done]. destruct (same_lookup shape _ _ _ _ (same_sym _ _ _ H) Ha) as (it' & Hb' & _). congruence.
Qed.

Lemma same_heap_ok E a b : same_shape a b -> heap_ok E a -> heap_ok E b.
Proof.
  intros H [H1 H2 H3 H4 H5]. constructor.
  - intros p it q Hp Hq. destruct (same_lookup shape _ _ _ _ H Hp) as (it0 & Hp0 & Hc). cores. destruct (H1 p it0 q Hp0) as (qi & Hqi & Ht & Hm & Hin); [congruence|].
    destruct (same_lookup shape _ _ _ _ (same_sym _ _ _ H) Hqi) as (qi' & Hqi' & Hc). cores. exists qi'. split; [done|]. split; [congruence|]. split; [congruence|]. intros HE. replace (it_memberItems qi') with (it_memberItems qi) by congruence. auto.
  - intros q qi Hq. destruct (same_lookup shape _ _ _ _ H Hq) as (q0 & Hq0 & Hc). cores. destruct (H2 q q0 Hq0) as [Hnd Hall]. replace (it_memberItems qi) with (it_memberItems q0). split; [done|].
    intros p Hp. destruct (Hall p Hp) as (it & Hit & Hpar). destruct (same_lookup shape _ _ _ _ (same_sym _ _ _ H) Hit) as (it' & Hit' & Hc). cores. exists it'. split; congruence.
  - intros q qi p Hq. destruct (same_lookup shape _ _ _ _ H Hq) as (q0 & Hq0 & Hc). cores. rewrite (same_ends _ _ _ _ H), <- (H3 q q0 p Hq0). congruence.
  - intros p it q Hp Hq. destruct (same_lookup shape _ _ _ _ H Hp) as (it0 & Hp0 & Hc). cores. destruct (H4 p it0 q Hp0) as (Ht & qi & Hqi & Hl & Hm); [intuition congruence|].
    split; [congruence|]. destruct (same_lookup shape _ _ _ _ (same_sym _ _ _ H) Hqi) as (qi' & Hqi' & Hc). cores. exists qi'. repeat split; congruence.
  - intros p [it Hp]. destruct (same_lookup shape _ _ _ _ H Hp) as (it0 & Hp0 & _). apply (same_rooted a); [done|]. apply H5. eauto.
Qed.

(** The links that are complete. *)
Definition links_ok (X : gset nat) (items : heap) : Prop :=
  forall p it, items !! p = Some it -> p ∉ X -> it_typePtr it = tnmLinkType -> it_srcPtr it <> None /\ it_dstPtr it <> None.

(** A state between the commands, apart from the items of [X]. *)
Record good (X : gset nat) (s : MapState) : Prop := {
  good_inv : map_inv ∅ s;
  good_live : all_live X s;
  good_links : links_ok X (ms_items s)
}.

(** Only items change, and they keep their core. *)
Lemma same_good X s items : same_core (ms_items s) items -> good X s -> good X (set_ms_items items s).
Proof.
  intros H [[I1 I2 I3 I4 I5 I6] HL HK]. split; [constructor|..]; cbn.
  - by eapply same_heap_ok; [apply core_shape|].
  - intros p it Hp. destruct (same_lookup core _ _ _ _ H Hp) as (it0 & Hp0 & Hc). cores. destruct (I2 _ _ Hp0) as [mp Hmp]. exists mp. congruence.
  - intros m mp Hm. destruct (I3 m mp Hm) as (? & ? & Hall). split; [done|]. split; [done|]. intros p Hp. destruct (Hall p Hp) as (it & Hit & ?).
    destruct (same_lookup core _ _ _ _ (same_sym _ _ _ H) Hit) as (it' & Hit' & Hc). cores. exists it'. split; congruence.
  - intros p it name Hp Ht. destruct (same_lookup core _ _ _ _ H Hp) as (it0 & Hp0 & Hc). cores. apply (I4 p it0); congruence.
  - intros name c p Hc Hd. destruct (I5 name c p Hc Hd) as (it & Hit & Ht). destruct (same_lookup core _ _ _ _ (same_sym _ _ _ H) Hit) as (it' & Hit' & Hc'). cores. exists it'. split; congruence.
  - intros p [it Hp]. destruct (same_lookup core _ _ _ _ H Hp) as (it0 & Hp0 & _). apply I6. eauto.
  - intros p it Hp HX. destruct (same_lookup core _ _ _ _ H Hp) as (it0 & Hp0 & Hc). cores. destruct (HL p it0 Hp0 HX) as (Hin & name & c & Ht & Hn & Hd). split; [by replace (it_mapPtr it) with (it_mapPtr it0)|].
    exists name, c. split; [congruence|done].
  - intros p it Hp HX Ht. destruct (same_lookup core _ _ _ _ H Hp) as (it0 & Hp0 & Hc). cores. destruct (HK p it0 Hp0 HX); [congruence|]. split; congruence.
Qed.

Lemma same_alter f p (items : heap) : (forall it, core (f it) = core it) -> same_core items (alter f p items).
Proof.
  intros H. unfold same_core. apply map_eq. intros k. rewrite !lookup_fmap. destruct (decide (k = p)) as [->|Hk]; [|by rewrite lookup_alter_ne].
  rewrite lookup_alter_eq. destruct (items !! p) as [it|]; [|done]. cbn. by rewrite H.
Qed.

(** An item that is being configured: it stays what it is. *)
Definition subject (p : nat) (t : item_type) (tok : option cstring) (m : nat) (s : MapState) : Prop :=
  exists it, ms_items s !! p = Some it /\ it_typePtr it = t /\ it_token it = tok /\ it_mapPtr it = m.

(** What else there is stays as it was in [base]. *)
Section configure.
Variable base : MapState.

Record configured (X : gset nat) (p : nat) (t : item_type) (tok : option cstring) (m : nat) (s : MapState) : Prop := {
  cf_good : good X s;
  cf_subject : subject p t tok m s;
  cf_frame : s = set_ms_items (ms_items s) base
}.

Lemma frame_items s items : s = set_ms_items (ms_items s) base -> set_ms_items items s = set_ms_items items base.
Proof. by intros ->. Qed.

Lemma update_configured X p t tok m s f : (forall it, core (f it) = core it) -> configured X p t tok m s -> configured X p t tok m (update_item f p s).
Proof.
  intros Hf [G (it & Hp & Ht & Htok & Hm) F]. split; [apply same_good; [by apply same_alter|done]| |by apply frame_items]. exists (f it). cbn. rewrite lookup_alter_eq, Hp. split; [done|].
  pose proof (Hf it). cores. repeat split; congruence.
Qed.

Lemma touch_configured X p t tok m s : configured X p t tok m s -> exists s', touch p s = Ok s' /\ configured X p t tok m s'.
Proof.
  intros C. destruct (cf_subject _ _ _ _ _ _ C) as (it & Hp & _). destruct (inv_map _ _ (good_inv _ _ (cf_good _ _ _ _ _ _ C)) _ _ Hp) as [mp Hm].
  unfold touch, mbind, run_bind. rewrite (get_item_Some _ _ _ Hp), (get_map_Some _ _ _ Hm). eexists. split; [done|]. destruct (mp_loading mp); [done|]. by apply update_configured.
Qed.

(** ** The way to the root *)

Inductive path (items : heap) : nat -> list nat -> Prop :=
  | path_top p it : items !! p = Some it -> it_parent it = None -> path items p [p]
  | path_step p it q l : items !! p = Some it -> it_parent it = Some q -> path items q l -> path items p (p :: l).

Lemma rooted_path items p : rooted items p -> exists l, path items p l.
Proof. induction 1 as [p it Hp Hn|p it q Hp Hq _ [l IH]]; [exists [p]; by eapply path_top|exists (p :: l); by eapply path_step]. Qed.

Lemma path_det items p l : path items p l -> forall k, path items p k -> k = l.
Proof.
  induction 1 as [p it Hp Hn|p it q l Hp Hq _ IH]; intros k Hk; inversion Hk as [p' it' Hp' Hn'|p' it' q' l' Hp' Hq' Hl']; subst; [done|congruence|congruence|].
  f_equal. apply IH. congruence.
Qed.

Lemma path_suffix items p l : path items p l -> forall x, x ∈ l -> exists a b, l = a ++ b /\ path items x b.
Proof.
  induction 1 as [p it Hp Hn|p it q l Hp Hq Hl IH]; intros x Hx.
  - apply list_elem_of_singleton in Hx as ->. exists [], [p]. split; [done|]. by eapply path_top.
  - apply elem_of_cons in Hx as [->|Hx]; [exists [], (p :: l); split; [done|]; by eapply path_step|]. destruct (IH x Hx) as (a & b & -> & Hb). exists (p :: a), b. by split.
Qed.

Lemma path_NoDup items p l : path items p l -> NoDup l.
Proof.
  induction 1 as [p it Hp Hn|p it q l Hp Hq Hl IH]; [apply NoDup_singleton|]. apply NoDup_cons. split; [|done]. intros Hin.
  destruct (path_suffix _ _ _ Hl _ Hin) as (a & b & -> & Hb). pose proof (path_det _ _ _ Hb _ (path_step _ _ _ _ _ Hp Hq Hl)) as He.
  apply (f_equal length) in He. cbn in He. rewrite length_app in He. lia.
Qed.

Lemma path_dom items p l : path items p l -> forall x, x ∈ l -> is_Some (items !! x).
Proof.
  intros H x Hx. destruct (path_suffix _ _ _ H _ Hx) as (a & b & _ & Hb). inversion Hb; eauto.
Qed.

Lemma path_size items p l : path items p l -> (length l <= size items)%nat.
Proof.
  intros H. rewrite <- size_dom, <- (size_list_to_set (C := gset nat) l) by (by eapply path_NoDup). apply subseteq_size. intros x Hx%elem_of_list_to_set. apply elem_of_dom. by eapply path_dom.
Qed.

Lemma chain_has_path s q l p fuel : path (ms_items s) q l -> (length l <= fuel)%nat -> chain_has fuel s (Some q) p = Ok (bool_decide (p ∈ l)).
Proof.
  intros H. revert fuel. induction H as [q it Hq Hn|q it q' l Hq Hq' Hl IH]; intros fuel Hf; cbn in Hf; destruct fuel as [|fuel]; [lia| |lia|]; cbn.
  - destruct (decide (q = p)) as [->|Hqp]; [by rewrite !bool_decide_eq_true_2 by set_solver|]. rewrite (bool_decide_eq_false_2 (q = p)) by done. unfold mbind, run_bind. rewrite (get_item_Some _ _ _ Hq), Hn. destruct fuel; cbn; by rewrite bool_decide_eq_false_2 by set_solver.
  - destruct (decide (q = p)) as [->|Hqp]; [by rewrite !bool_decide_eq_true_2 by set_solver|]. rewrite (bool_decide_eq_false_2 (q = p)) by done. unfold mbind, run_bind. rewrite (get_item_Some _ _ _ Hq), Hq', IH by lia. f_equal. apply bool_decide_ext. set_solver.
Qed.

(** Changing the parent of an item does not change a way that does not lead through it. *)
Lemma path_rooted items items' p q l : path items q l -> p ∉ l -> (forall k it, items !! k = Some it -> k <> p -> exists it', items' !! k = Some it' /\ it_parent it' = it_parent it) -> rooted items' q.
Proof.
  intros H Hp Hs. induction H as [q it Hq Hn|q it q' l Hq Hq' _ IH].
  - destruct (Hs q it Hq) as (it' & Hq' & Hpar); [set_solver|]. eapply rooted_top; [done|]. congruence.
  - destruct (Hs q it Hq) as (it' & Hit' & Hpar); [set_solver|]. eapply rooted_step; [done|by rewrite Hpar|]. apply IH. set_solver.
Qed.

(** ** Finding an item by its name *)

Lemma find_item_ok X s m v : good X s -> is_Some (mem_heap (ms_maps s) !! m) ->
  exists r, TnmMapFindItem s m v = Ok r /\ forall q, r = Some q -> exists qi, ms_items s !! q = Some qi /\ it_mapPtr qi = m.
Proof.
  intros G [mp Hm]. destruct (inv_list _ _ (good_inv _ _ G) _ _ Hm) as (_ & _ & Hall). unfold TnmMapFindItem. destruct (ms_commands s !! v) as [c|]; [|by exists None].
  unfold mbind, run_bind. rewrite (get_map_Some _ _ _ Hm). destruct (list_search_ok s (mp_itemList mp) (cmd_data c)) as (r & -> & Hr); [apply Forall_forall; intros x (it & Hx & _)%Hall; eauto|].
  exists r. split; [done|]. intros q ->. destruct Hr as [_ Hq]. by apply Hall.
Qed.

(** ** [-group] and [-node] *)

Definition move_to (old new : option nat) (p k : nat) (it : TnmMapItem) : TnmMapItem :=
  let it := if decide (old = Some k) then drop_member p it else it in
  let it := if decide (new = Some k) then set_it_memberItems (vector_add (it_memberItems it) p) it else it in
  if decide (k = p) then set_it_parent new it else it.

Lemma move_core old new p k it :
  it_parent (move_to old new p k it) = (if decide (k = p) then new else it_parent it) /\
  it_linkedItems (move_to old new p k it) = it_linkedItems it /\ it_srcPtr (move_to old new p k it) = it_srcPtr it /\ it_dstPtr (move_to old new p k it) = it_dstPtr it /\
  it_token (move_to old new p k it) = it_token it /\ it_mapPtr (move_to old new p k it) = it_mapPtr it /\ it_typePtr (move_to old new p k it) = it_typePtr it.
Proof. unfold move_to. repeat case_decide; done. Qed.

Lemma move_members old new p k it : NoDup (it_memberItems it) -> (p ∈ it_memberItems it -> old = Some k) ->
  NoDup (it_memberItems (move_to old new p k it)) /\ forall x, x ∈ it_memberItems (move_to old new p k it) <-> (x <> p /\ x ∈ it_memberItems it) \/ (x = p /\ new = Some k).
Proof.
  intros Hnd Hold. set (l := if decide (old = Some k) then vector_delete (it_memberItems it) p else it_memberItems it).
  assert (Hm : it_memberItems (move_to old new p k it) = if decide (new = Some k) then l ++ [p] else l) by (unfold move_to, l; repeat case_decide; done). rewrite Hm.
  assert (Hl : NoDup l /\ forall x, x ∈ l <-> x <> p /\ x ∈ it_memberItems it).
  { clear Hm. unfold l. destruct (decide (old = Some k)) as [Hd|Hd].
    - rewrite vector_delete_NoDup by done. split; [by apply NoDup_filter|]. intros x. by rewrite list_elem_of_filter.
    - split; [done|]. intros x. split; [|tauto]. intros Hx. split; [|done]. intros ->. by apply Hd, Hold. }
  destruct Hl as [Hln Hle]. clearbody l. clear Hm. case_decide as Hn.
  - split; [apply NoDup_app; split; [done|]; split; [|apply NoDup_singleton]; intros x Hx Hx'%list_elem_of_singleton; subst; by apply Hle in Hx as [? _]|].
    intros x. rewrite elem_of_app, Hle, list_elem_of_singleton. naive_solver.
  - split; [done|]. intros x. rewrite Hle. naive_solver.
Qed.

Definition moved (old new : option nat) (p : nat) (items : heap) : heap := map_imap (fun k it => Some (move_to old new p k it)) items.

Lemma moved_Some old new p items k it : moved old new p items !! k = Some it <-> exists k0, items !! k = Some k0 /\ it = move_to old new p k k0.
Proof. unfold moved. rewrite map_lookup_imap. destruct (items !! k) as [k0|]; cbn; naive_solver. Qed.

(** The new parent: of the right type, in the same map and not below the item. *)
Definition new_parent (items : heap) (p : nat) (it : TnmMapItem) (new : option nat) : Prop :=
  forall q, new = Some q -> exists qi l, items !! q = Some qi /\ it_typePtr qi = parentType (it_typePtr it) /\ it_mapPtr qi = it_mapPtr it /\ path items q l /\ p ∉ l.

Lemma moved_rooted items p it new k : heap_ok ∅ items -> items !! p = Some it -> new_parent items p it new -> rooted items k -> rooted (moved (it_parent it) new p items) k.
Proof.
  intros H Hp Hnew. assert (Hs : forall k it0, items !! k = Some it0 -> k <> p -> exists it', moved (it_parent it) new p items !! k = Some it' /\ it_parent it' = it_parent it0).
  { intros x xi Hx Hne. eexists. split; [apply moved_Some; eauto|]. destruct (move_core (it_parent it) new p x xi) as [-> _]. by rewrite decide_False. }
  assert (Hpk : moved (it_parent it) new p items !! p = Some (move_to (it_parent it) new p p it)) by (apply moved_Some; eauto).
  assert (Hpp : it_parent (move_to (it_parent it) new p p it) = new) by (destruct (move_core (it_parent it) new p p it) as [-> _]; by rewrite decide_True).
  assert (Hrp : rooted (moved (it_parent it) new p items) p).
  { destruct new as [q|]; [|by eapply rooted_top]. destruct (Hnew q eq_refl) as (qi & l & Hq & _ & _ & Hl & Hpl). eapply rooted_step; [done|done|]. by eapply path_rooted. }
  induction 1 as [x xi Hx Hn|x xi y Hx Hy _ IH]; (destruct (decide (x = p)) as [->|Hne]; [done|]); destruct (Hs x xi Hx Hne) as (x' & Hx' & Hpar); [eapply rooted_top|eapply rooted_step]; eauto; congruence.
Qed.

Lemma moved_heap_ok items p it new : heap_ok ∅ items -> items !! p = Some it -> new_parent items p it new -> heap_ok ∅ (moved (it_parent it) new p items).
Proof.
  intros H Hp Hnew. pose proof H as [H1 H2 H3 H4 H5]. set (old := it_parent it).
  assert (Hmem : forall k ki, items !! k = Some ki -> NoDup (it_memberItems (move_to old new p k ki)) /\
    forall x, x ∈ it_memberItems (move_to old new p k ki) <-> (x <> p /\ x ∈ it_memberItems ki) \/ (x = p /\ new = Some k)).
  { intros k ki Hk. destruct (H2 k ki Hk) as [Hnd Hall]. apply move_members; [done|]. intros (x & Hx & Hpar)%Hall. unfold old. congruence. }
  constructor.
  - intros k ki q (k0 & Hk & ->)%moved_Some. destruct (move_core old new p k k0) as (-> & _ & _ & _ & _ & -> & ->). intros Hq.
    assert (Hq' : exists qi, items !! q = Some qi /\ it_typePtr qi = parentType (it_typePtr k0) /\ it_mapPtr qi = it_mapPtr k0 /\ k ∈ it_memberItems (move_to old new p q qi)).
    { destruct (decide (k = p)) as [->|Hne].
      - destruct (Hnew q Hq) as (qi & l & Hqi & Ht & Hm & _). assert (k0 = it) as -> by congruence. exists qi. split; [done|]. split; [done|]. split; [done|]. apply Hmem; [done|]. by right.
      - destruct (H1 k k0 q Hk Hq) as (qi & Hqi & Ht & Hm & Hin). exists qi. split; [done|]. split; [done|]. split; [done|]. apply Hmem; [done|]. left. split; [done|]. apply Hin. set_solver. }
    destruct Hq' as (qi & Hqi & Ht & Hm & Hin). exists (move_to old new p q qi). split; [apply moved_Some; eauto|]. destruct (move_core old new p q qi) as (_ & _ & _ & _ & _ & -> & ->). done.
  - intros q qi (q0 & Hq & ->)%moved_Some. destruct (Hmem q q0 Hq) as [Hnd Hall]. split; [done|]. intros x Hx%Hall.
    assert (Hx' : exists xi, items !! x = Some xi /\ (if decide (x = p) then new else it_parent xi) = Some q).
    { destruct Hx as [[Hne Hx]|[-> Hx]]; [|exists it; by rewrite decide_True]. destruct (H2 q q0 Hq) as [_ Hall']. destruct (Hall' x Hx) as (xi & Hxi & Hpar). exists xi. by rewrite decide_False. }
    destruct Hx' as (xi & Hxi & Hpar). exists (move_to old new p x xi). split; [apply moved_Some; eauto|]. by destruct (move_core old new p x xi) as [-> _].
  - intros q qi x (q0 & Hq & ->)%moved_Some. destruct (move_core old new p q q0) as (_ & -> & _). rewrite (H3 q q0 x Hq). unfold ends, moved. rewrite map_lookup_imap.
    destruct (items !! x) as [xi|]; [|done]. cbn. by destruct (move_core old new p x xi) as (_ & _ & -> & -> & _).
  - intros x xi q (x0 & Hx & ->)%moved_Some. destruct (move_core old new p x x0) as (_ & _ & -> & -> & _ & -> & ->). intros Hq. destruct (H4 x x0 q Hx Hq) as (Ht & qi & Hqi & Hl & Hm). split; [done|].
    exists (move_to old new p q qi). split; [apply moved_Some; eauto|]. destruct (move_core old new p q qi) as (_ & _ & _ & _ & _ & -> & ->). done.
  - intros x (xi & (x0 & Hx & ->)%moved_Some). apply moved_rooted; [done|done|done|]. apply H5. eauto.
Qed.

(** States that have the same items with the same maps, tokens and ends of links. *)
Lemma good_transfer X s items : good X s -> heap_ok ∅ items ->
  (forall p, (fun it => (it_token it, it_mapPtr it, it_typePtr it)) <$> items !! p = (fun it => (it_token it, it_mapPtr it, it_typePtr it)) <$> ms_items s !! p) ->
  links_ok X items -> good X (set_ms_items items s).
Proof.
  intros [[I1 I2 I3 I4 I5 I6] HL _] Hok Hs HK. assert (Hs1 : forall p it, items !! p = Some it -> exists it0, ms_items s !! p = Some it0 /\ it_token it0 = it_token it /\ it_mapPtr it0 = it_mapPtr it).
  { intros p it Hp. specialize (Hs p). rewrite Hp in Hs. destruct (ms_items s !! p) as [it0|]; [|done]. exists it0. injection Hs as -> -> _. done. }
  assert (Hs2 : forall p it, ms_items s !! p = Some it -> exists it0, items !! p = Some it0 /\ it_token it0 = it_token it /\ it_mapPtr it0 = it_mapPtr it).
  { intros p it Hp. specialize (Hs p). rewrite Hp in Hs. destruct (items !! p) as [it0|]; [|done]. exists it0. injection Hs as -> -> _. done. }
  split; [constructor|..]; cbn; [done|..].
  - intros p it (it0 & Hp & _ & <-)%Hs1. eauto.
  - intros m mp Hm. destruct (I3 m mp Hm) as (? & ? & Hall). split; [done|]. split; [done|]. intros p (it & Hit & Hmp)%Hall. destruct (Hs2 _ _ Hit) as (it0 & ? & _ & ?). exists it0. split; congruence.
  - intros p it name (it0 & Hp & <- & _)%Hs1. eauto.
  - intros name c p Hc Hd. destruct (I5 name c p Hc Hd) as (it & Hit & Ht). destruct (Hs2 _ _ Hit) as (it0 & ? & ? & _). exists it0. split; congruence.
  - intros p [it (it0 & Hp & _)%Hs1]. eauto.
  - intros p it (it0 & Hp & Ht & Hm)%Hs1 HX. destruct (HL p it0 Hp HX) as (Hin & name & c & Htok & Hrest). split; [by rewrite <- Hm|]. exists name, c. split; [congruence|done].
  - done.
Qed.

Lemma moved_good X s p it new : good X s -> ms_items s !! p = Some it -> new_parent (ms_items s) p it new -> good X (set_ms_items (moved (it_parent it) new p (ms_items s)) s).
Proof.
  intros G Hp Hnew. apply good_transfer; [done|by apply moved_heap_ok; [apply (inv_heap _ _ (good_inv _ _ G))|..]|..].
  - intros k. unfold moved. rewrite map_lookup_imap. destruct (ms_items s !! k) as [ki|]; [|done]. cbn. destruct (move_core (it_parent it) new p k ki) as (_ & _ & _ & _ & -> & -> & ->). done.
  - intros k ki (k0 & Hk & ->)%moved_Some HX. destruct (move_core (it_parent it) new p k k0) as (_ & _ & -> & -> & _ & _ & ->). exact (good_links _ _ G k k0 Hk HX).
Qed.

Lemma moved_alters p it new items : items !! p = Some it -> (forall q, new = Some q -> is_Some (items !! q)) ->
  alter (set_it_parent new) p (match new with Some q => alter (fun it => set_it_memberItems (vector_add (it_memberItems it) p) it) q (unlink (it_parent it) (drop_member p) items) | None => unlink (it_parent it) (drop_member p) items end) =
  moved (it_parent it) new p items.
Proof.
  intros Hp Hnew. apply map_eq. intros k. unfold moved. rewrite map_lookup_imap. pose proof (unlink_lookup (it_parent it) (drop_member p) items k) as Hu.
  assert (Hj : match new with Some q => alter (fun it => set_it_memberItems (vector_add (it_memberItems it) p) it) q (unlink (it_parent it) (drop_member p) items) | None => unlink (it_parent it) (drop_member p) items end !! k =
    (fun ki => let ki := if decide (it_parent it = Some k) then drop_member p ki else ki in if decide (new = Some k) then set_it_memberItems (vector_add (it_memberItems ki) p) ki else ki) <$> items !! k).
  { destruct new as [q|]; [|rewrite Hu; by destruct (items !! k)]. destruct (decide (q = k)) as [->|Hne].
    - rewrite lookup_alter_eq, Hu. destruct (items !! k); cbn; [|done]. by rewrite (decide_True _ _ (eq_refl (Some k))).
    - rewrite lookup_alter_ne, Hu by done. destruct (items !! k); cbn; [|done]. by rewrite (decide_False (P := Some q = Some k)) by congruence. }
  destruct (decide (k = p)) as [->|Hne]; [rewrite lookup_alter_eq, Hj, Hp; unfold move_to; cbn; by rewrite (decide_True _ _ (eq_refl p))|].
  rewrite lookup_alter_ne, Hj by done. destruct (items !! k) as [ki|]; [|done]. cbn. unfold move_to. by rewrite (decide_False (P := k = p)).
Qed.

Lemma moved_subject p t tok m s old new : subject p t tok m s -> subject p t tok m (set_ms_items (moved old new p (ms_items s)) s).
Proof.
  intros (it & Hp & Ht & Htok & Hm). exists (move_to old new p p it). destruct (move_core old new p p it) as (_ & _ & _ & _ & -> & -> & ->). split; [|done]. cbn. apply moved_Some. eauto.
Qed.

Lemma set_parent_ok X p t tok m s v : configured X p t tok m s -> exists code s', set_parent v p s = Ok (code, s') /\ configured X p t tok m s'.
Proof.
  intros [G S F]. pose proof S as (it & Hp & Ht & Htok & Hm). pose proof (good_inv _ _ G) as I. pose proof (inv_heap _ _ I) as H.
  assert (Hold : forall x, it_parent it = Some x -> is_Some (ms_items s !! x)) by (intros x Hx; destruct (hp_parent _ _ H _ _ _ Hp Hx) as (xi & ? & _); eauto).
  unfold set_parent, mbind, run_bind. rewrite (get_item_Some _ _ _ Hp). destruct v as [|c v].
  - unfold leave_members. rewrite leave_spec by done. do 2 eexists. split; [done|]. unfold update_item. cbn [ms_items set_ms_items]. rewrite set_items_twice.
    pose proof (moved_alters p it None (ms_items s) Hp) as Ha. unfold drop_member in Ha. rewrite Ha by done. split; [by apply moved_good|by apply moved_subject|by apply frame_items].
  - destruct (find_item_ok X s (it_mapPtr it) (c :: v) G (inv_map _ _ I _ _ Hp)) as (r & -> & Hr). destruct r as [q|]; [|by exists TCL_ERROR, s].
    destruct (Hr q eq_refl) as (qi & Hq & Hqm). rewrite (get_item_Some _ _ _ Hq). case_bool_decide as Hty; [by exists TCL_ERROR, s|]. 
    destruct (rooted_path _ _ (hp_rooted _ _ H q (mk_is_Some _ _ Hq))) as [l Hl]. rewrite (chain_has_path _ _ _ _ _ Hl) by (pose proof (path_size _ _ _ Hl); lia).
    case_bool_decide as Hpl; [by exists TCL_ERROR, s|]. unfold leave_members. rewrite leave_spec by done.
    assert (Hnew : new_parent (ms_items s) p it (Some q)) by (intros x [= <-]; exists qi, l; done).
    unfold join_members, update_item. cbn [ms_items set_ms_items]. rewrite !set_items_twice. pose proof (moved_alters p it (Some q) (ms_items s) Hp) as Ha. unfold drop_member in Ha. rewrite Ha by (intros x [= <-]; eauto).
    destruct (touch_configured X p t tok m (set_ms_items (moved (it_parent it) (Some q) p (ms_items s)) s)) as (s' & -> & C); [split; [by apply moved_good|by apply moved_subject|by apply frame_items]|].
    eauto.
Qed.

(** ** [-src] and [-dst] *)

Definition fld (src : bool) : TnmMapItem -> option nat := if src then it_srcPtr else it_dstPtr.
Definition set_fld (src : bool) : option nat -> TnmMapItem -> TnmMapItem := if src then set_it_srcPtr else set_it_dstPtr.

Definition relink_to (src : bool) (old : option nat) (new p k : nat) (it : TnmMapItem) : TnmMapItem :=
  let it := if decide (old = Some k) then drop_link p it else it in
  let it := if decide (new = k) then set_it_linkedItems (vector_add (it_linkedItems it) p) it else it in
  if decide (k = p) then set_fld src (Some new) it else it.

Lemma relink_core src old new p k it :
  it_parent (relink_to src old new p k it) = it_parent it /\ it_memberItems (relink_to src old new p k it) = it_memberItems it /\
  fld src (relink_to src old new p k it) = (if decide (k = p) then Some new else fld src it) /\ fld (negb src) (relink_to src old new p k it) = fld (negb src) it /\
  it_token (relink_to src old new p k it) = it_token it /\ it_mapPtr (relink_to src old new p k it) = it_mapPtr it /\ it_typePtr (relink_to src old new p k it) = it_typePtr it.
Proof. unfold relink_to, fld, set_fld. destruct src; repeat case_decide; done. Qed.

Lemma occ_delete p q l : occ q (vector_delete l p) = (occ q l - if decide (q = p) then (if decide (p ∈ l) then 1 else 0) else 0)%nat.
Proof.
  induction l as [|x l IH]; [by repeat case_decide|]. cbn. case_bool_decide as Hx; [subst|].
  - rewrite occ_cons. destruct (decide (q = p)) as [->|]; [rewrite (decide_True (P := p = p)), (decide_True (P := p ∈ p :: l)) by set_solver; lia|]. rewrite decide_False by congruence. lia.
  - rewrite !occ_cons, IH. destruct (decide (q = p)) as [->|]; [|lia]. rewrite (decide_False (P := x = p)) by done. repeat case_decide; set_solver.
Qed.

Lemma relink_occ src old new p k it q : (old = Some k -> p ∈ it_linkedItems it) ->
  (occ q (it_linkedItems (relink_to src old new p k it)) + (if decide (q = p) then (if decide (old = Some k) then 1 else 0) else 0) =
   occ q (it_linkedItems it) + (if decide (q = p) then (if decide (new = k) then 1 else 0) else 0))%nat.
Proof.
  intros Hold. set (l := if decide (old = Some k) then vector_delete (it_linkedItems it) p else it_linkedItems it).
  assert (Hm : it_linkedItems (relink_to src old new p k it) = if decide (new = k) then l ++ [p] else l) by (unfold relink_to, set_fld, l; destruct src; repeat case_decide; done). rewrite Hm.
  assert (Hl : (occ q l + (if decide (q = p) then (if decide (old = Some k) then 1 else 0) else 0) = occ q (it_linkedItems it))%nat).
  { clear Hm. unfold l. destruct (decide (old = Some k)) as [Hd|Hd]; [|destruct (decide (q = p)); lia]. rewrite occ_delete, (decide_True (P := p ∈ it_linkedItems it)) by auto. destruct (decide (q = p)) as [->|]; [|lia].
    pose proof (proj2 (occ_elem p (it_linkedItems it)) (Hold Hd)). lia. }
  clearbody l. clear Hm. destruct (decide (new = k)); [rewrite occ_app, occ_cons|]; destruct (decide (q = p)) as [->|]; repeat case_decide; first [lia|congruence|change (occ q []) with 0%nat; lia|change (occ p []) with 0%nat; lia].
Qed.

Definition relinked (src : bool) (old : option nat) (new p : nat) (items : heap) : heap := map_imap (fun k it => Some (relink_to src old new p k it)) items.

Lemma relinked_Some src old new p items k it : relinked src old new p items !! k = Some it <-> exists k0, items !! k = Some k0 /\ it = relink_to src old new p k k0.
Proof. unfold relinked. rewrite map_lookup_imap. destruct (items !! k) as [k0|]; cbn; naive_solver. Qed.

Lemma ends_fld src p q items : ends p q items = match items !! p with Some it => ((if decide (fld src it = Some q) then 1 else 0) + (if decide (fld (negb src) it = Some q) then 1 else 0))%nat | None => 0%nat end.
Proof. unfold ends. destruct (items !! p); [|done]. destruct src; cbn; [done|lia]. Qed.

Lemma fld_either (src : bool) it q : it_srcPtr it = Some q \/ it_dstPtr it = Some q <-> fld src it = Some q \/ fld (negb src) it = Some q.
Proof. destruct src; cbn; tauto. Qed.

Lemma relinked_heap_ok src items p it new ni : heap_ok ∅ items -> items !! p = Some it -> it_typePtr it = tnmLinkType -> items !! new = Some ni -> linkable (it_typePtr ni) = true -> it_mapPtr ni = it_mapPtr it ->
  heap_ok ∅ (relinked src (fld src it) new p items).
Proof.
  intros H Hp Ht Hn Hlk Hnm. pose proof H as [H1 H2 H3 H4 H5]. set (old := fld src it). constructor.
  - intros k ki q (k0 & Hk & ->)%relinked_Some. destruct (relink_core src old new p k k0) as (-> & _ & _ & _ & _ & -> & ->). intros Hq. destruct (H1 k k0 q Hk Hq) as (qi & Hqi & Hty & Hm & Hin).
    exists (relink_to src old new p q qi). split; [apply relinked_Some; eauto|]. destruct (relink_core src old new p q qi) as (_ & -> & _ & _ & _ & -> & ->). done.
  - intros q qi (q0 & Hq & ->)%relinked_Some. destruct (relink_core src old new p q q0) as (_ & -> & _). destruct (H2 q q0 Hq) as [Hnd Hall]. split; [done|]. intros x (xi & Hx & Hpar)%Hall.
    exists (relink_to src old new p x xi). split; [apply relinked_Some; eauto|]. by destruct (relink_core src old new p x xi) as [-> _].
  - intros q qi x (q0 & Hq & ->)%relinked_Some. assert (Hold : old = Some q -> p ∈ it_linkedItems q0).
    { intros Ho. apply occ_elem. rewrite (H3 q q0 p Hq), (ends_fld src), Hp, (decide_True (P := fld src it = Some q)) by done. lia. }
    pose proof (relink_occ src old new p q q0 x Hold) as Ho. rewrite (H3 q q0 x Hq), (ends_fld src) in Ho. rewrite (ends_fld src). unfold relinked. rewrite map_lookup_imap.
    destruct (items !! x) as [xi|] eqn:Hx; cbn; [|rewrite (decide_False (P := x = p)) in Ho by congruence; rewrite (decide_False (P := x = p)) in Ho by congruence; lia].
    destruct (relink_core src old new p x xi) as (_ & _ & -> & -> & _). destruct (decide (x = p)) as [->|Hne]; [|lia]. assert (xi = it) as -> by congruence. fold old in Ho.
    destruct (decide (new = q)) as [->|Hnq]; [rewrite (decide_True (P := Some q = Some q)) by done|rewrite (decide_False (P := Some new = Some q)) by congruence]; lia.
  - intros x xi q (x0 & Hx & ->)%relinked_Some. rewrite (fld_either src). destruct (relink_core src old new p x x0) as (_ & _ & -> & -> & _ & -> & ->). intros Hq.
    assert (Hq' : it_typePtr x0 = tnmLinkType /\ exists qi, items !! q = Some qi /\ linkable (it_typePtr qi) = true /\ it_mapPtr qi = it_mapPtr x0).
    { destruct (decide (x = p)) as [->|Hne]; [|apply (H4 x x0 q Hx); by apply (fld_either src)]. assert (x0 = it) as -> by congruence. destruct Hq as [[= <-]|Hq]; [eauto|]. apply (H4 p it q Hp). apply (fld_either src). by right. }
    destruct Hq' as (Hty & qi & Hqi & Hl & Hm). split; [done|]. exists (relink_to src old new p q qi). split; [apply relinked_Some; eauto|]. destruct (relink_core src old new p q qi) as (_ & _ & _ & _ & _ & -> & ->). done.
  - intros x (xi & (x0 & Hx & ->)%relinked_Some). apply (rooted_mono items); [|apply H5; eauto]. intros k ki Hk. exists (relink_to src old new p k ki). split; [apply relinked_Some; eauto|]. apply relink_core.
Qed.

Lemma relinked_good X src s p it new ni : good X s -> ms_items s !! p = Some it -> it_typePtr it = tnmLinkType -> ms_items s !! new = Some ni -> linkable (it_typePtr ni) = true -> it_mapPtr ni = it_mapPtr it ->
  good X (set_ms_items (relinked src (fld src it) new p (ms_items s)) s).
Proof.
  intros G Hp Ht Hn Hl Hm. apply good_transfer; [done|by eapply relinked_heap_ok; [apply (inv_heap _ _ (good_inv _ _ G))|..]|..].
  - intros k. unfold relinked. rewrite map_lookup_imap. destruct (ms_items s !! k) as [ki|]; [|done]. cbn. destruct (relink_core src (fld src it) new p k ki) as (_ & _ & _ & _ & -> & -> & ->). done.
  - intros k ki (k0 & Hk & ->)%relinked_Some HX. destruct (relink_core src (fld src it) new p k k0) as (_ & _ & Hf & Hg & _ & _ & ->). intros Hty. destruct (good_links _ _ G k k0 Hk HX Hty) as [Ha Hb].
    destruct src; unfold fld in *; cbn [negb] in *; rewrite Hf, Hg; case_decide; done.
Qed.

Lemma relinked_alters src p it new items : items !! p = Some it ->
  alter (set_fld src (Some new)) p (alter (fun it => set_it_linkedItems (vector_add (it_linkedItems it) p) it) new (unlink (fld src it) (drop_link p) items)) = relinked src (fld src it) new p items.
Proof.
  intros Hp. apply map_eq. intros k. unfold relinked. rewrite map_lookup_imap. pose proof (unlink_lookup (fld src it) (drop_link p) items k) as Hu.
  assert (Hj : alter (fun it => set_it_linkedItems (vector_add (it_linkedItems it) p) it) new (unlink (fld src it) (drop_link p) items) !! k =
    (fun ki => let ki := if decide (fld src it = Some k) then drop_link p ki else ki in if decide (new = k) then set_it_linkedItems (vector_add (it_linkedItems ki) p) ki else ki) <$> items !! k).
  { destruct (decide (new = k)) as [->|Hne]; [rewrite lookup_alter_eq, Hu|rewrite lookup_alter_ne, Hu by done]; by destruct (items !! k). }
  destruct (decide (k = p)) as [->|Hne]; [rewrite lookup_alter_eq, Hj, Hp; unfold relink_to; cbn; by rewrite (decide_True _ _ (eq_refl p))|].
  rewrite lookup_alter_ne, Hj by done. destruct (items !! k) as [ki|]; [|done]. cbn. unfold relink_to. by rewrite (decide_False (P := k = p)).
Qed.

Lemma set_end_ok X p tok m s v src : configured X p tnmLinkType tok m s -> exists code s', set_end v (fld src) (set_fld src) p s = Ok (code, s') /\ configured X p tnmLinkType tok m s'.
Proof.
  intros [G S F]. pose proof S as (it & Hp & Ht & Htok & Hm). pose proof (good_inv _ _ G) as I. pose proof (inv_heap _ _ I) as H.
  assert (Hold : forall x, fld src it = Some x -> is_Some (ms_items s !! x)) by (intros x Hx; destruct (hp_ends _ _ H p it x Hp) as (_ & xi & ? & _); [apply (fld_either src); by left|eauto]).
  unfold set_end, mbind, run_bind. rewrite (get_item_Some _ _ _ Hp). destruct (find_item_ok X s (it_mapPtr it) v G (inv_map _ _ I _ _ Hp)) as (r & -> & Hr). destruct r as [q|]; [|by exists TCL_ERROR, s].
  destruct (Hr q eq_refl) as (qi & Hq & Hqm). rewrite (get_item_Some _ _ _ Hq).
  destruct (linkable (it_typePtr qi)) eqn:Hl; [|exists TCL_ERROR, s; split; [by destruct (it_typePtr qi)|done]]. replace (bool_decide (it_typePtr qi <> tnmNetworkType) && bool_decide (it_typePtr qi <> tnmPortType)) with false by (by destruct (it_typePtr qi)).
  unfold leave_links. rewrite leave_spec by done. unfold join_links, update_item. cbn [ms_items set_ms_items]. rewrite !set_items_twice. pose proof (relinked_alters src p it q (ms_items s) Hp) as Ha. unfold drop_link in Ha. rewrite Ha.
  destruct (touch_configured X p tnmLinkType tok m (set_ms_items (relinked src (fld src it) q p (ms_items s)) s)) as (s' & -> & C); [split|by eauto].
  - by eapply relinked_good.
  - exists (relink_to src (fld src it) q p p it). destruct (relink_core src (fld src it) q p p it) as (_ & _ & _ & _ & -> & -> & ->). split; [|done]. cbn. apply relinked_Some. eauto.
  - by apply frame_items.
Qed.

(** ** All options *)

Lemma table_key_or table v : TnmGetTableKey table v = -1 \/ TnmGetTableKey table v ∈ map (fun e => s32 (elem_key e)) table.
Proof.
  induction table as [|e table IH]; [by left|]. cbn. case_bool_decide; [right; left|]. destruct IH as [?|?]; [by left|]. right. by right.
Qed.

(** Only links have ends. *)
Lemma end_option t v : TnmGetTableKey (configTable t) v = TNM_ITEM_OPT_SRC \/ TnmGetTableKey (configTable t) v = TNM_ITEM_OPT_DST -> t = tnmLinkType.
Proof.
  intros H. destruct (table_key_or (configTable t) v) as [E|E]; [destruct H as [H|H]; rewrite E in H; done|].
  destruct t; [..|done|]; exfalso; destruct H as [H|H]; rewrite H in E; apply (bool_decide_pack _) in E; vm_compute in E; done.
Qed.

Section options.
Variable Tcl_GetIntFromObj : cstring -> option Z.

Lemma tcl_ok_configured X p t tok m r : (exists s', r = Ok s' /\ configured X p t tok m s') -> exists code s', tcl_ok r = Ok (code, s') /\ configured X p t tok m s'.
Proof. intros (s' & -> & C). by exists TCL_OK, s'. Qed.

Lemma set_number_ok X p t tok m s v f : (forall n it, core (f n it) = core it) -> configured X p t tok m s -> exists code s', set_number Tcl_GetIntFromObj v f p s = Ok (code, s') /\ configured X p t tok m s'.
Proof. intros Hf C. unfold set_number. destruct (TnmGetUnsignedFromObj _); do 2 eexists; (split; [done|]); [|done]. by apply update_configured. Qed.

Lemma set_time_ok X p t tok m s v f : (forall n it, core (f n it) = core it) -> configured X p t tok m s -> exists code s', set_time Tcl_GetIntFromObj v f p s = Ok (code, s') /\ configured X p t tok m s'.
Proof.
  intros Hf C. unfold set_time. destruct (TnmGetUnsignedFromObj _); [|by eauto]. destruct (cf_subject _ _ _ _ _ _ C) as (it & Hp & _). destruct (inv_map _ _ (good_inv _ _ (cf_good _ _ _ _ _ _ C)) _ _ Hp) as [mp Hm].
  unfold mbind, run_bind. rewrite (get_item_Some _ _ _ Hp), (get_map_Some _ _ _ Hm). destruct (mp_loading mp); do 2 eexists; (split; [done|]); [|done]. by apply update_configured.
Qed.

Lemma SetOption_ok X p t tok m s option v : (option = TNM_ITEM_OPT_SRC \/ option = TNM_ITEM_OPT_DST -> t = tnmLinkType) -> configured X p t tok m s ->
  exists code s', item_SetOption Tcl_GetIntFromObj p option v s = Ok (code, s') /\ configured X p t tok m s'.
Proof.
  intros Ho C. unfold item_SetOption. repeat (case_bool_decide; [|]); try (apply tcl_ok_configured);
    try (eexists; split; [done|]; by apply update_configured);
    try (by apply touch_configured, update_configured).
  - destruct (TnmGetUnsignedFromObj _) as [n|]; [|by eauto]. case_bool_decide; [by eauto|]. apply tcl_ok_configured. eexists. split; [done|]. by apply update_configured.
  - assert (t = tnmLinkType) as -> by tauto. by apply (set_end_ok X p tok m s v true).
  - assert (t = tnmLinkType) as -> by tauto. by apply (set_end_ok X p tok m s v false).
  - by apply set_time_ok.
  - by apply set_time_ok.
  - by apply set_number_ok.
  - by apply set_parent_ok.
  - eauto.
Qed.

Lemma apply_ok X p t tok m args : forall s, configured X p t tok m s ->
  exists code s', set_config_apply (item_config Tcl_GetIntFromObj p t) (Ok s) args = (code, Ok s') /\ configured X p t tok m s'.
Proof.
  induction args as [|[name v] args IH]; intros s C; [by exists TCL_OK, s|]. cbn -[item_SetOption TnmGetTableKeyFromObj configTable].
  destruct (SetOption_ok X p t tok m s (TnmGetTableKeyFromObj (configTable t) name) v) as (code & s' & -> & C'); [apply end_option|done|]. destruct code; [by apply IH|by eauto].
Qed.

Lemma Configure_ok X p t tok m s args : configured X p t tok m s ->
  exists code s' opts, TnmMapItemConfigure Tcl_GetIntFromObj p args s = Ok (code, s', opts) /\ configured X p t tok m s'.
Proof.
  intros C. destruct (cf_subject _ _ _ _ _ _ C) as (it & Hp & Ht & _). unfold TnmMapItemConfigure, mbind, run_bind. rewrite (get_item_Some _ _ _ Hp), Ht. unfold TnmSetConfig.
  destruct args as [args|]; [|by exists TCL_ERROR, s, []]. destruct (set_config_scan _ args); [|by exists TCL_ERROR, s, []].
  destruct (apply_ok X p t tok m args s C) as (code & s' & -> & C'). destruct code; by eexists _, s', _.
Qed.
End options.
End configure.
