(* ===== verification/NetMapCreate.v ===== *)
(** Creating items, creating and destroying maps: the state between two commands. *)

From stdpp Require Import gmap.
From S2P Require Import Prelude Mem CStr Util UtilTheorems NetMapBase NetMapItem NetMapInv NetMapDelete NetMapEvent NetMap NetMapConfig.
Local Open Scope Z_scope.

#[local] Notation heap := (gmap nat TnmMapItem).

(** ** Names of commands *)

Definition ids_ok (s : MapState) : Prop := map_Forall (fun _ id => is_u32 id) (ms_nextId s).
Definition few_commands (s : MapState) : Prop := Z.of_nat (size (ms_commands s)) < 4294967296.

Lemma TnmGetHandle_u32 n : forall commands prefix id h id', TnmGetHandle n commands prefix id = Some (h, id') -> is_u32 id'.
Proof.
  induction n as [|n IH]; intros commands prefix id h id' H; [done|]. cbn [TnmGetHandle] in H. case_bool_decide; [by eapply IH|]. injection H as <- <-. apply u32_range.
Qed.

Definition with_command (prefix name : cstring) (id : Z) (data : client_data) (s : MapState) : MapState :=
  set_ms_nextId (<[prefix := id]> (ms_nextId s)) (set_ms_commands (<[name := mkCommand data false]> (ms_commands s)) s).

Lemma create_command_ok s prefix data : ids_ok s -> few_commands s ->
  exists name id, create_command prefix data s = Ok (name, with_command prefix name id data s) /\ ms_commands s !! name = None /\ is_u32 id.
Proof.
  intros Hids Hfew. unfold create_command. set (names := (map_to_list (ms_commands s)).*1). assert (Hlen : length names = size (ms_commands s)) by (unfold names; by rewrite length_fmap, length_map_to_list).
  destruct (handle_fresh names prefix (default 0 (ms_nextId s !! prefix))) as (h & id & Hh & Hfree & _).
  { destruct (ms_nextId s !! prefix) as [id|] eqn:E; [by apply (Hids prefix id)|done]. }
  { by rewrite Hlen. }
  rewrite <- Hlen, Hh. exists h, id. split; [done|]. split; [|by eapply TnmGetHandle_u32]. destruct (ms_commands s !! h) as [c|] eqn:E; [|done]. exfalso. apply Hfree. unfold names.
  apply list_elem_of_fmap. exists (h, c). split; [done|]. by apply elem_of_map_to_list.
Qed.

(** ** The state between two commands *)

Record maps_ok (s : MapState) : Prop := {
  mo_map : forall m mp, mem_heap (ms_maps s) !! m = Some mp ->
    (m < ms_brk s)%nat /\ m ∈ ms_mapList s /\ exists c, ms_commands s !! mp_token mp = Some c /\ cmd_data c = CmdMap m /\ cmd_deleted c = false;
  mo_list : NoDup (ms_mapList s) /\ forall m, m ∈ ms_mapList s -> is_Some (mem_heap (ms_maps s) !! m)
}.

(** No map is held in memory by a command, or the same maps are. *)
Definition quiet (s : MapState) : Prop := mem_preserved (ms_maps s) = ∅ /\ mem_doomed (ms_maps s) = ∅.
Definition same_holds (s s' : MapState) : Prop := mem_preserved (ms_maps s') = mem_preserved (ms_maps s) /\ mem_doomed (ms_maps s') = mem_doomed (ms_maps s).

Record world (s : MapState) : Prop := {
  w_good : good ∅ s;
  w_maps : maps_ok s;
  w_ids : ids_ok s;
  w_events : forall e, is_Some (ms_events s !! e) -> (e < ms_brk s)%nat
}.

(** ** A new item *)

Section new.
#[local] Set Default Proof Using "All".
Context (s : MapState) (m : nat) (t : item_type) (W : world s) (Hm : is_Some (mem_heap (ms_maps s) !! m)).

Definition with_item : MapState := set_ms_items (<[ms_brk s := new_item m t]> (ms_items s)) (set_ms_brk (S (ms_brk s)) s).

Lemma new_fresh : ms_items s !! ms_brk s = None.
Proof. destruct (ms_items s !! ms_brk s) eqn:E; [|done]. pose proof (inv_brk _ _ (good_inv _ _ (w_good _ W)) (ms_brk s) (mk_is_Some _ _ E)). lia. Qed.

Lemma new_lookup p it : <[ms_brk s := new_item m t]> (ms_items s) !! p = Some it <-> (p = ms_brk s /\ it = new_item m t) \/ (p <> ms_brk s /\ ms_items s !! p = Some it).
Proof. rewrite lookup_insert_Some. naive_solver. Qed.

Lemma new_other p it : ms_items s !! p = Some it -> <[ms_brk s := new_item m t]> (ms_items s) !! p = Some it.
Proof. intros Hp. rewrite lookup_insert_ne; [done|]. intros <-. by rewrite new_fresh in Hp. Qed.

Lemma new_ends p q : ends p q (<[ms_brk s := new_item m t]> (ms_items s)) = ends p q (ms_items s).
Proof.
  unfold ends. destruct (decide (p = ms_brk s)) as [->|Hne]; [|by rewrite lookup_insert_ne]. rewrite lookup_insert_eq, new_fresh. done.
Qed.

Lemma new_heap_ok : heap_ok ∅ (<[ms_brk s := new_item m t]> (ms_items s)).
Proof.
  destruct (inv_heap _ _ (good_inv _ _ (w_good _ W))) as [H1 H2 H3 H4 H5]. constructor.
  - intros p it q [[-> ->]|[_ Hp]]%new_lookup Hq; [done|]. destruct (H1 p it q Hp Hq) as (qi & Hqi & ?). exists qi. split; [by apply new_other|done].
  - intros q qi [[-> ->]|[_ Hq]]%new_lookup; [split; [apply NoDup_nil_2|]; intros p Hp; by apply elem_of_nil in Hp|]. destruct (H2 q qi Hq) as [Hnd Hall]. split; [done|].
    intros p (it & Hit & ?)%Hall. exists it. split; [by apply new_other|done].
  - intros q qi p [[-> ->]|[_ Hq]]%new_lookup; rewrite new_ends; [|by apply H3]. cbn. unfold ends. destruct (ms_items s !! p) as [it|] eqn:Hp; [|done].
    assert (Hn : forall x, it_srcPtr it = Some x \/ it_dstPtr it = Some x -> x <> ms_brk s).
    { intros x Hx ->. destruct (H4 p it _ Hp Hx) as (_ & xi & Hxi & _). by rewrite new_fresh in Hxi. }
    rewrite !decide_False; [done|intros Hx; by eapply Hn; [by right|]|intros Hx; by eapply Hn; [by left|]].
  - intros p it q [[-> ->]|[_ Hp]]%new_lookup Hq; [by destruct Hq|]. destruct (H4 p it q Hp Hq) as (? & qi & Hqi & ?). split; [done|]. exists qi. split; [by apply new_other|done].
  - intros p (it & [[-> ->]|[_ Hp]]%new_lookup); [eapply rooted_top; [apply lookup_insert_eq|done]|]. apply (rooted_mono (ms_items s)); [|apply H5; eauto]. intros k ki Hk. exists ki. split; [by apply new_other|done].
Qed.

Lemma new_good : good {[ms_brk s]} with_item.
Proof.
  destruct (w_good _ W) as [[I1 I2 I3 I4 I5 I6] HL HK]. split; [constructor|..]; cbn.
  - apply new_heap_ok.
  - intros p it [[-> ->]|[_ Hp]]%new_lookup; [done|by eapply I2].
  - intros k mp Hk. destruct (I3 k mp Hk) as (? & ? & Hall). split; [done|]. split; [done|]. intros p (it & Hit & ?)%Hall. exists it. split; [by apply new_other|done].
  - intros p it name [[-> ->]|[_ Hp]]%new_lookup; [done|]. by apply I4.
  - intros name c p Hc Hd. destruct (I5 name c p Hc Hd) as (it & Hit & ?). exists it. split; [by apply new_other|done].
  - intros p (it & [[-> ->]|[_ Hp]]%new_lookup); [lia|]. pose proof (I6 p (mk_is_Some _ _ Hp)). lia.
  - intros p it [[-> ->]|[_ Hp]]%new_lookup HX; [set_solver|]. apply (HL p it Hp). set_solver.
  - intros p it [[-> ->]|[_ Hp]]%new_lookup HX; [set_solver|]. apply (HK p it Hp). set_solver.
Qed.

Lemma new_configured : configured with_item {[ms_brk s]} (ms_brk s) t None m with_item.
Proof. split; [apply new_good| |done]. exists (new_item m t). split; [apply lookup_insert_eq|done]. Qed.
End new.

(** ** A configured item becomes an item of its map *)

Section insert.
#[local] Set Default Proof Using "All".
Context (base s : MapState) (p m : nat) (t : item_type) (it : TnmMapItem) (mp : TnmMap) (name : cstring) (id : Z).
Context (C : configured base {[p]} p t None m s) (Hp : ms_items s !! p = Some it) (Hm : mem_heap (ms_maps s) !! m = Some mp).
Context (Hnew : forall k, p ∉ map_list s k) (Hends : it_typePtr it = tnmLinkType -> it_srcPtr it <> None /\ it_dstPtr it <> None).
Context (Hfree : ms_commands s !! name = None) (Hid : is_u32 id) (Hids : ids_ok s).

Definition listed (mp : TnmMap) : TnmMap := set_mp_numItems (s32 (mp_numItems mp + 1)) (set_mp_itemList (p :: mp_itemList mp) mp).
Definition inserted : MapState := update_map listed m (update_item (set_it_token (Some name)) p (with_command (type_name t) name id (CmdItem p) s)).

Lemma inserted_item k ki : ms_items inserted !! k = Some ki <-> exists k0, ms_items s !! k = Some k0 /\ ki = if decide (k = p) then set_it_token (Some name) k0 else k0.
Proof.
  cbn. destruct (decide (k = p)) as [->|Hne]; [rewrite lookup_alter_eq, fmap_Some; naive_solver|]. rewrite lookup_alter_ne by done. naive_solver.
Qed.

Lemma inserted_map k mk : mem_heap (ms_maps inserted) !! k = Some mk <-> exists m0, mem_heap (ms_maps s) !! k = Some m0 /\ mk = if decide (k = m) then listed m0 else m0.
Proof.
  cbn. destruct (decide (k = m)) as [->|Hne]; [rewrite lookup_alter_eq, fmap_Some; naive_solver|]. rewrite lookup_alter_ne by done. naive_solver.
Qed.

Lemma new_shape : agree shape (ms_items s) (ms_items inserted).
Proof.
  apply map_eq. intros k. rewrite !lookup_fmap. cbn. destruct (decide (k = p)) as [->|Hne]; [rewrite lookup_alter_eq, Hp; done|by rewrite lookup_alter_ne].
Qed.

Lemma it_fields : it_mapPtr it = m /\ it_token it = None.
Proof. destruct (cf_subject _ _ _ _ _ _ _ C) as (it' & Hp' & _ & ? & ?). assert (it' = it) as -> by congruence. by split. Qed.

Lemma inserted_inv : map_inv ∅ inserted.
Proof.
  destruct (good_inv _ _ (cf_good _ _ _ _ _ _ _ C)) as [I1 I2 I3 I4 I5 I6]. destruct it_fields as [Hpm Htok]. constructor.
  - eapply same_heap_ok; [apply new_shape|done].
  - intros k ki (k0 & Hk & ->)%inserted_item. destruct (I2 k k0 Hk) as [mk Hmk]. replace (it_mapPtr _) with (it_mapPtr k0) by (by case_decide). eexists. apply inserted_map. eauto.
  - intros k mk (m0 & Hk & ->)%inserted_map. destruct (I3 k m0 Hk) as (Hnd & Hnum & Hall).
    assert (Hin : forall x xi, ms_items s !! x = Some xi -> it_mapPtr xi = k -> exists x', ms_items inserted !! x = Some x' /\ it_mapPtr x' = k).
    { intros x xi Hx Hxm. eexists. split; [apply inserted_item; eauto|]. by case_decide. }
    destruct (decide (k = m)) as [->|Hne]; cbn.
    + assert (m0 = mp) as -> by congruence. split; [apply NoDup_cons; split; [|done]; specialize (Hnew m); unfold map_list in Hnew; by rewrite Hm in Hnew|]. split; [rewrite Hnum, s32_add; f_equal; lia|].
      intros x [->|Hx]%elem_of_cons; [by eapply Hin|]. destruct (Hall x Hx) as (xi & ? & ?). by eapply Hin.
    + split; [done|]. split; [done|]. intros x (xi & ? & ?)%Hall. by eapply Hin.
  - intros k ki n (k0 & Hk & ->)%inserted_item Ht. cbn. destruct (decide (k = p)) as [->|Hne].
    + injection Ht as <-. exists (mkCommand (CmdItem p) false). by rewrite lookup_insert_eq.
    + destruct (I4 k k0 n Hk Ht) as (c & Hc & ?). exists c. rewrite lookup_insert_ne; [done|]. congruence.
  - intros n c k Hc Hd. cbn in Hc. apply lookup_insert_Some in Hc as [[<- <-]|[Hne Hc]].
    + injection Hd as <-. exists (set_it_token (Some name) it). split; [|done]. apply inserted_item. exists it. by rewrite decide_True.
    + destruct (I5 n c k Hc Hd) as (ki & Hk & Ht). exists ki. split; [|done]. apply inserted_item. exists ki. split; [done|]. rewrite decide_False; [done|]. intros ->. congruence.
  - intros k (ki & (k0 & Hk & _)%inserted_item). cbn. apply I6. eauto.
Qed.

Lemma inserted_good : good ∅ inserted.
Proof.
  destruct (cf_good _ _ _ _ _ _ _ C) as [I HL HK]. destruct it_fields as [Hpm Htok]. split; [apply inserted_inv|..].
  - intros k ki (k0 & Hk & ->)%inserted_item _. destruct (decide (k = p)) as [->|Hne].
    + assert (k0 = it) as -> by congruence. split; [unfold map_list; cbn; rewrite Hpm, lookup_alter_eq, Hm; by left|]. exists name, (mkCommand (CmdItem p) false). cbn. by rewrite lookup_insert_eq.
    + destruct (HL k k0 Hk) as (Hin & n & c & Ht & Hc & Hd); [set_solver|]. split.
      * unfold map_list in *. cbn. destruct (decide (it_mapPtr k0 = m)) as [Hkm|Hnm]; [|by rewrite lookup_alter_ne]. rewrite Hkm in Hin |- *. rewrite lookup_alter_eq, Hm. rewrite Hm in Hin. by right.
      * exists n, c. cbn. rewrite lookup_insert_ne; [done|]. congruence.
  - intros k ki (k0 & Hk & ->)%inserted_item _. destruct (decide (k = p)) as [->|Hne]; [assert (k0 = it) as -> by congruence; done|]. apply (HK k k0 Hk). set_solver.
Qed.

Lemma inserted_maps : maps_ok s -> maps_ok inserted.
Proof.
  intros [M1 M2]. constructor.
  - intros k mk (m0 & Hk & ->)%inserted_map. destruct (M1 k m0 Hk) as (? & ? & c & Hc & ?). split; [done|]. split; [done|]. exists c. replace (mp_token _) with (mp_token m0) by (by case_decide).
    cbn. rewrite lookup_insert_ne; [done|]. congruence.
  - destruct M2 as [? Hall]. split; [done|]. intros k [m0 Hk]%Hall. eexists. apply inserted_map. eauto.
Qed.

Lemma inserted_ids : ids_ok inserted.
Proof. apply map_Forall_insert_2; done. Qed.
End insert.

(** ** [CreateItem] *)

(** Only the item [p] and nothing else has changed. *)
Definition private (p : nat) (s s' : MapState) : Prop := set_ms_items (delete p (ms_items s')) s' = set_ms_items (delete p (ms_items s)) s.

Lemma private_update p s f : private p s (update_item f p s).
Proof. unfold private, update_item. cbn. by rewrite delete_alter_eq. Qed.
Lemma private_touch p s s1 s' : private p s s1 -> touch p s1 = Ok s' -> private p s s'.
Proof.
  intros H Ht. unfold touch in Ht. apply run_bind_inv in Ht as (it & _ & (mp & _ & Ht)%run_bind_inv). injection Ht as <-. destruct (mp_loading mp); [done|].
  unfold private. by rewrite private_update.
Qed.

(** The options that refer to other items. *)
Definition is_reference (option : Z) : bool := bool_decide (option = TNM_ITEM_OPT_PARENT) || bool_decide (option = TNM_ITEM_OPT_SRC) || bool_decide (option = TNM_ITEM_OPT_DST).
Definition no_references (t : item_type) (args : list (cstring * cstring)) : bool := forallb (fun kv => negb (is_reference (TnmGetTableKey (configTable t) kv.1))) args.

(** The new item of a creation that succeeds: the first in the list of its map, with the
    type and the name of its command. *)
Record created (s s' : MapState) (m : nat) (t : item_type) (name : cstring) : Prop := {
  cr_item : exists it, ms_items s' !! ms_brk s = Some it /\ it_typePtr it = t /\ it_mapPtr it = m /\ it_token it = Some name;
  cr_list : map_list s' m = ms_brk s :: map_list s m;
  cr_name : ms_commands s !! name = None /\ ms_commands s' = <[name := mkCommand (CmdItem (ms_brk s)) false]> (ms_commands s);
  cr_holds : same_holds s s';
  cr_world : world s'
}.

Lemma insert_ok s s2 p m t it : world s -> p = ms_brk s -> few_commands s -> is_Some (mem_heap (ms_maps s) !! m) -> configured (with_item s m t) {[p]} p t None m s2 -> ms_items s2 !! p = Some it ->
  createProc it = TCL_OK -> exists name s', insert_item m p t s2 = Ok (TCL_OK, Some name, s') /\ created s s' m t name.
Proof.
  intros W -> Hfew [mp Hm] C Hp Hproc. unfold insert_item. set (f := fun i : TnmMapItem => if bool_decide (it_ctime i = (0, 0)) then _ else i).
  set (s3 := update_item f (ms_brk s) s2). assert (Hcore : forall i, core (f i) = core i) by (intros i; unfold f; by case_bool_decide).
  assert (C3 : configured (with_item s m t) {[ms_brk s]} (ms_brk s) t None m s3) by (by apply update_configured). assert (Hp3 : ms_items s3 !! ms_brk s = Some (f it)) by (cbn; by rewrite lookup_alter_eq, Hp).
  pose proof (cf_frame _ _ _ _ _ _ _ C3) as F. assert (Hmaps : ms_maps s3 = ms_maps s) by (by rewrite F). assert (Hcmds : ms_commands s3 = ms_commands s) by (by rewrite F). assert (Hids : ids_ok s3) by (unfold ids_ok; rewrite F; apply (w_ids _ W)).
  destruct (create_command_ok s3 (type_name t) (CmdItem (ms_brk s))) as (name & id & -> & Hfree & Hid); [done|unfold few_commands; by rewrite Hcmds|].
  unfold mbind, run_bind. rewrite (get_map_Some _ m mp) by (cbn [ms_maps with_command set_ms_nextId set_ms_commands]; by rewrite Hmaps). exists name. eexists. split; [done|]. fold (listed (ms_brk s)).
  change (created s (inserted s3 (ms_brk s) m t name id) m t name). assert (Hm3 : mem_heap (ms_maps s3) !! m = Some mp) by (by rewrite Hmaps).
  assert (Hnew : forall k, ms_brk s ∉ map_list s3 k).
  { intros k. unfold map_list. rewrite Hmaps. destruct (mem_heap (ms_maps s) !! k) as [mk|] eqn:Hk; [|apply not_elem_of_nil]. intros Hin. destruct (inv_list _ _ (good_inv _ _ (w_good _ W)) _ _ Hk) as (_ & _ & Hall).
    destruct (Hall _ Hin) as (i & Hi & _). pose proof (inv_brk _ _ (good_inv _ _ (w_good _ W)) _ (mk_is_Some _ _ Hi)). lia. }
  destruct (cf_subject _ _ _ _ _ _ _ C3) as (i & Hi & Hty & Htok & Him). assert (i = f it) as -> by congruence.
  assert (Hends : it_typePtr (f it) = tnmLinkType -> it_srcPtr (f it) <> None /\ it_dstPtr (f it) <> None).
  { pose proof (Hcore it) as Hc. cores. intros Hl. replace (it_srcPtr (f it)) with (it_srcPtr it) by congruence. replace (it_dstPtr (f it)) with (it_dstPtr it) by congruence. unfold createProc in Hproc.
    replace (it_typePtr it) with tnmLinkType in Hproc by congruence. by destruct (it_srcPtr it), (it_dstPtr it). }
  split.
  - exists (set_it_token (Some name) (f it)). split; [|done]. change (alter (set_it_token (Some name)) (ms_brk s) (ms_items s3) !! ms_brk s = Some (set_it_token (Some name) (f it))). by rewrite lookup_alter_eq, Hp3.
  - unfold map_list, inserted. cbn. rewrite lookup_alter_eq. unfold s3 in Hmaps. cbn in Hmaps. rewrite Hmaps, Hm. done.
  - split; [by rewrite <- Hcmds|]. cbn. unfold s3 in Hcmds. cbn in Hcmds. by rewrite Hcmds.
  - unfold same_holds, inserted. cbn. unfold s3 in Hmaps. cbn in Hmaps. by rewrite Hmaps.
  - split.
    + by eapply inserted_good.
    + eapply inserted_maps; [done..|]. destruct (w_maps _ W) as [M1 M2]. rewrite F. constructor; cbn; [|done]. intros k mk Hk. destruct (M1 k mk Hk) as (? & ?). split; [lia|done].
    + by eapply inserted_ids.
    + cbn [inserted ms_events update_map update_item with_command set_ms_maps set_ms_items set_ms_nextId set_ms_commands ms_brk]. rewrite F. cbn. intros e He%(w_events _ W). lia.
Qed.

Section create.
Variable Tcl_GetIntFromObj : cstring -> option Z.

Lemma tcl_ok_inv r code s' : tcl_ok r = Ok (code, s') -> r = Ok s'.
Proof. intros (x & Hx & H)%run_bind_inv. by injection H as <- <-. Qed.

Lemma SetOption_private p option v s code s' : is_reference option = false -> item_SetOption Tcl_GetIntFromObj p option v s = Ok (code, s') -> private p s s'.
Proof.
  intros Href. unfold item_SetOption. pose proof (private_update p s) as Hu.
  repeat (case_bool_decide; [|]); intros H'; try (by exfalso; subst option); try (apply tcl_ok_inv in H'; by injection H' as <-); try (apply tcl_ok_inv in H'; eapply private_touch; [apply Hu|exact H']); revert H'.
  - destruct (TnmGetUnsignedFromObj _) as [n|]; [|by intros [= <- <-]]. case_bool_decide; [by intros [= <- <-]|]. intros [= <-]%tcl_ok_inv. done.
  - unfold set_time. destruct (TnmGetUnsignedFromObj _) as [n|]; [|by intros [= <- <-]]. intros (it & _ & (mp & _ & H')%run_bind_inv)%run_bind_inv. destruct (mp_loading mp); injection H' as <- <-; done.
  - unfold set_time. destruct (TnmGetUnsignedFromObj _) as [n|]; [|by intros [= <- <-]]. intros (it & _ & (mp & _ & H')%run_bind_inv)%run_bind_inv. destruct (mp_loading mp); injection H' as <- <-; done.
  - unfold set_number. destruct (TnmGetUnsignedFromObj _) as [n|]; by intros [= <- <-].
  - by intros [= <- <-].
Qed.

Lemma apply_private p t args : forall s code s', no_references t args = true -> set_config_apply (item_config Tcl_GetIntFromObj p t) (Ok s) args = (code, Ok s') -> private p s s'.
Proof.
  induction args as [|[name v] args IH]; intros s code s' Hn; [by intros [= <- <-]|]. cbn in Hn. apply andb_true_iff in Hn as [Hr Hn]. cbn -[item_SetOption TnmGetTableKeyFromObj configTable].
  destruct (item_SetOption _ _ _ _ s) as [[c s1]| |] eqn:E; [|done|done]. apply SetOption_private in E; [|by apply negb_true_iff]. destruct c; [|by intros [= <- <-]]. intros H%IH; [|done]. unfold private in *. congruence.
Qed.

Lemma Configure_private p t args s it code s' opts : ms_items s !! p = Some it -> it_typePtr it = t -> (forall l, args = Some l -> no_references t l = true) ->
  TnmMapItemConfigure Tcl_GetIntFromObj p args s = Ok (code, s', opts) -> private p s s'.
Proof.
  intros Hp Ht Hn. unfold TnmMapItemConfigure, mbind, run_bind. rewrite (get_item_Some _ _ _ Hp), Ht. unfold TnmSetConfig. destruct args as [args|]; [|by intros [= <- <- <-]].
  destruct (set_config_scan _ args); [|by intros [= <- <- <-]]. destruct (set_config_apply _ _ args) as [c [s1| |]] eqn:E; [|by destruct c..]. apply apply_private in E; [|by apply Hn]. destruct c; by intros [= <- <- <-].
Qed.

(** A creation ends in any case: with the new item, or with an error; then the state is the
    old one if no option referred to another item. *)
Lemma CreateItem_ok s m type args : world s -> few_commands s -> is_Some (mem_heap (ms_maps s) !! m) ->
  exists code name s', CreateItem Tcl_GetIntFromObj m type args s = Ok (code, name, s') /\
    match code with
    | TCL_OK => exists t n, GetItemType type = Some t /\ name = Some n /\ created s s' m t n
    | TCL_ERROR => name = None /\ ((forall t l, GetItemType type = Some t -> args = Some l -> no_references t l = true) -> s' = s \/ s' = set_ms_brk (S (ms_brk s)) s)
    end.
Proof.
  intros W Hfew Hm. unfold CreateItem. destruct (GetItemType type) as [t|]; [|exists TCL_ERROR, None, s; split; [done|]; split; [done|]; by left]. cbn [allocate].
  change (set_ms_items (<[ms_brk s := new_item m t]> (ms_items (set_ms_brk (S (ms_brk s)) s))) (set_ms_brk (S (ms_brk s)) s)) with (with_item s m t).
  pose proof (new_configured s m t W Hm) as C0. destruct (Configure_ok (with_item s m t) Tcl_GetIntFromObj {[ms_brk s]} (ms_brk s) t None m (with_item s m t) args C0) as (code & s2 & opts & Hc & C2).
  assert (Hpriv : (forall t0 l, Some t = Some t0 -> args = Some l -> no_references t0 l = true) -> free_item (ms_brk s) s2 = s \/ free_item (ms_brk s) s2 = set_ms_brk (S (ms_brk s)) s).
  { intros Hn. right. assert (Hp : private (ms_brk s) (with_item s m t) s2) by (apply (Configure_private (ms_brk s) t args (with_item s m t) (new_item m t) code s2 opts); [apply lookup_insert_eq|done|intros l Hl; by apply Hn|done]).
    unfold private in Hp. unfold free_item. rewrite Hp. cbn. rewrite delete_insert_id by (by apply (new_fresh s m)). by destruct s. }
  unfold mbind, run_bind. rewrite Hc. destruct (cf_subject _ _ _ _ _ _ _ C2) as (it & Hp & _). destruct code; [|by exists TCL_ERROR, None, (free_item (ms_brk s) s2)].
  rewrite (get_item_Some _ _ _ Hp). destruct (createProc it) eqn:Hproc; [|by exists TCL_ERROR, None, (free_item (ms_brk s) s2)].
  destruct (insert_ok s s2 (ms_brk s) m t it W eq_refl Hfew Hm C2 Hp Hproc) as (name & s' & -> & Hcr). exists TCL_OK, (Some name), s'. split; [done|]. by exists t, name.
Qed.
End create.
