(* ===== verification/NetMapWorld.v ===== *)
(** Deleting items and maps, and configuring maps, in the state between two commands. *)

From stdpp Require Import gmap.
From S2P Require Import Prelude Mem CStr Util UtilTheorems NetMapBase NetMapItem NetMapInv NetMapDelete NetMapEvent NetMap NetMapConfig NetMapCreate.
Local Open Scope Z_scope.

#[local] Notation heap := (gmap nat TnmMapItem).

(** ** What goes with an item *)

Inductive goes_with (items : heap) (p : nat) : nat -> Prop :=
  | goes_self : goes_with items p p
  | goes_port x xi : items !! x = Some xi -> it_typePtr xi = tnmPortType -> it_parent xi = Some p -> goes_with items p x
  | goes_link l li q : items !! l = Some li -> it_srcPtr li = Some q \/ it_dstPtr li = Some q -> goes_with items p q -> goes_with items p l.

Lemma linked_ends E items q qi l : heap_ok E items -> items !! q = Some qi -> l ∈ it_linkedItems qi <-> exists li, items !! l = Some li /\ (it_srcPtr li = Some q \/ it_dstPtr li = Some q).
Proof.
  intros H Hq. rewrite <- occ_elem, (hp_links _ _ H _ _ _ Hq). unfold ends. destruct (items !! l) as [li|]; [|split; [lia|naive_solver]]. split.
  - intros Hl. exists li. split; [done|]. repeat case_decide; (tauto || lia).
  - intros (li' & [= <-] & [->| ->]); rewrite (decide_True (P := Some q = Some q)) by done; lia.
Qed.

Lemma goes_dead items p it x : heap_ok ∅ items -> items !! p = Some it -> goes_with items p x <-> x ∈ dead items p it.
Proof.
  intros H Hp. pose proof (dead_closed ∅ items p it H Hp) as Hc. split.
  - induction 1 as [|x xi Hx Ht Hpar|l li q Hl Hq _ IH].
    + unfold dead. set_solver.
    + destruct (hp_parent _ _ H _ _ _ Hx Hpar) as (qi & Hqi & Hty & _ & Hin). assert (qi = it) as -> by congruence. rewrite Ht in Hty. unfold dead. rewrite (decide_True (P := it_typePtr it = tnmNodeType)) by done.
      apply elem_of_union. right. unfold ports_dead. apply elem_of_union. left. apply elem_of_list_to_set, Hin. set_solver.
    + destruct (decide (l ∈ dead items p it)) as [|Hn]; [done|]. exfalso. by eapply (Hc l li q).
  - unfold dead. rewrite elem_of_union, elem_of_singleton. intros [->|Hx]; [apply goes_self|]. assert (Hlink : forall q qi l, items !! q = Some qi -> l ∈ it_linkedItems qi -> goes_with items p q -> goes_with items p l).
    { intros q qi l Hq Hl Hg. apply (linked_ends ∅ items q qi l H Hq) in Hl as (li & Hli & He). by eapply goes_link. }
    destruct (decide (it_typePtr it = tnmNodeType)) as [Ht|Ht]; [|apply elem_of_list_to_set in Hx; eapply Hlink; [done|done|apply goes_self]].
    unfold ports_dead in Hx. rewrite elem_of_union, !elem_of_list_to_set, list_elem_of_bind in Hx. destruct Hx as [Hx|(y & Hx & Hy)].
    + destruct (node_member ∅ items p it x H Hp Ht Hx) as (xi & Hxi & ? & ?). by eapply goes_port.
    + destruct (node_member ∅ items p it y H Hp Ht Hy) as (yi & Hyi & ? & ?). unfold port_links in Hx. rewrite Hyi in Hx. eapply Hlink; [done|done|]. by eapply goes_port.
Qed.

Lemma goes_map items p it x : heap_ok ∅ items -> items !! p = Some it -> goes_with items p x -> exists xi, items !! x = Some xi /\ it_mapPtr xi = it_mapPtr it.
Proof.
  intros H Hp. induction 1 as [|x xi Hx Ht Hpar|l li q Hl Hq _ (qi & Hqi & Hm)]; [by exists it| |].
  - destruct (hp_parent _ _ H _ _ _ Hx Hpar) as (qi & Hqi & _ & Hm & _). exists xi. split; congruence.
  - destruct (hp_ends _ _ H _ _ _ Hl Hq) as (_ & qi' & Hqi' & _ & Hm'). exists li. split; congruence.
Qed.

(** ** Taking items away *)

Lemma pruned_good D s : closed D (ms_items s) -> good ∅ s -> good ∅ (pruned D s).
Proof.
  intros Hc [I HL HK]. split; [by apply prune_inv|by eapply pruned_live|]. intros p it (Hp & it0 & Hit & ->)%prune_lookup_Some HX Ht. apply (HK p it0 Hit HX Ht).
Qed.

Lemma pruned_maps_ok D s : maps_ok s -> maps_ok (pruned D s).
Proof.
  intros [M1 [M2 M3]]. constructor.
  - intros m mp (mp0 & Hm & ->)%prune_map_lookup. destruct (M1 m mp0 Hm) as (? & ? & c & Hc & Hd & ?). split; [done|]. split; [done|]. exists c. split; [|done]. apply prune_command. split; [done|]. unfold kept. by rewrite Hd.
  - split; [done|]. intros m [mp Hm]%M3. eexists. apply prune_map_lookup. eauto.
Qed.

Lemma pruned_world D s : closed D (ms_items s) -> world s -> world (pruned D s).
Proof. intros Hc [W1 W2 W3 W4]. split; [by apply pruned_good|by apply pruned_maps_ok|done|done]. Qed.

Lemma delete_item_ok s p it : good ∅ s -> ms_items s !! p = Some it ->
  Tcl_DeleteItem p s = Ok (pruned (dead (ms_items s) p it) s) /\ closed (dead (ms_items s) p it) (ms_items s).
Proof.
  intros [I HL HK] Hp. destruct (Tcl_DeleteItem_spec s p it I HL Hp) as (-> & _). split; [done|]. eapply dead_closed; [apply I|done].
Qed.

(** ** [ClearMap] *)

Lemma list_same_map s m p : good ∅ s -> p ∈ map_list s m <-> exists it, ms_items s !! p = Some it /\ it_mapPtr it = m.
Proof.
  intros G. split.
  - unfold map_list. destruct (mem_heap (ms_maps s) !! m) as [mp|] eqn:Hm; [|intros []%elem_of_nil]. destruct (inv_list _ _ (good_inv _ _ G) _ _ Hm) as (_ & _ & Hall). apply Hall.
  - intros (it & Hp & <-). apply (good_live _ _ G p it Hp). set_solver.
Qed.

Lemma filter_dead (D : gset nat) (l : list nat) : (forall x, x ∈ D -> x ∈ l) -> D ∪ list_to_set (filter (fun q => q ∉ D) l) = list_to_set l.
Proof.
  intros H. apply set_eq. intros x. rewrite elem_of_union, !elem_of_list_to_set, list_elem_of_filter. destruct (decide (x ∈ D)) as [Hx|Hx]; [|tauto]. split; [|tauto]. intros _. by apply H.
Qed.

Lemma filter_shorter (D : gset nat) (p : nat) (l : list nat) : p ∈ D -> (length (filter (fun q => q ∉ D) (p :: l)) <= length l)%nat.
Proof. intros Hp. rewrite filter_cons, decide_False by tauto. apply length_filter. Qed.

Lemma closed_all s m : good ∅ s -> closed (list_to_set (map_list s m)) (ms_items s).
Proof.
  intros G l li q Hl Hn Hq. rewrite elem_of_list_to_set, list_same_map in * by done. intros (qi & Hqi & Hm). apply Hn. exists li. split; [done|].
  destruct (hp_ends _ _ (inv_heap _ _ (good_inv _ _ G)) _ _ _ Hl Hq) as (_ & qi' & Hqi' & _ & Hm'). congruence.
Qed.

Lemma ClearMap_ok fuel : forall s m, good ∅ s -> is_Some (mem_heap (ms_maps s) !! m) -> (length (map_list s m) <= fuel)%nat ->
  ClearMap fuel m s = Ok (pruned (list_to_set (map_list s m)) s).
Proof.
  induction fuel as [|fuel IH]; intros s m G [mp Hm] Hlen; unfold map_list in *; rewrite Hm in *; cbn [ClearMap]; unfold mbind, run_bind; rewrite (get_map_Some _ _ _ Hm).
  - destruct (mp_itemList mp); [|cbn in Hlen; lia]. cbn. by rewrite (inv_none ∅) by apply G.
  - destruct (mp_itemList mp) as [|p l] eqn:El; [cbn; by rewrite (inv_none ∅) by apply G|].
    assert (Hp : p ∈ map_list s m) by (unfold map_list; rewrite Hm, El; by left). apply (list_same_map _ _ _ G) in Hp as (it & Hp & Hpm). destruct (delete_item_ok s p it G Hp) as [-> Hc].
    set (D := dead (ms_items s) p it) in *. pose proof (inv_heap _ _ (good_inv _ _ G)) as H.
    assert (HD : forall x, x ∈ D -> x ∈ p :: l).
    { intros x Hx%(goes_dead _ _ _ _ H Hp). destruct (goes_map _ _ _ _ H Hp Hx) as (xi & Hxi & Hxm).
      assert (Hx' : x ∈ map_list s m) by (apply list_same_map; [done|]; exists xi; split; congruence). unfold map_list in Hx'. by rewrite Hm, El in Hx'. }
    assert (Hlist : map_list (pruned D s) m = filter (fun q => q ∉ D) (p :: l)) by (rewrite pruned_list; unfold map_list; by rewrite Hm, El).
    assert (HpD : p ∈ D) by (unfold D, dead; set_solver). pose proof (filter_shorter D p l HpD) as Hs. cbn in Hlen.
    rewrite (IH (pruned D s) m); [|by apply pruned_good|by eexists; apply prune_map_lookup; eauto|change (length (map_list (pruned D s) m) <= fuel)%nat; rewrite Hlist; lia].
    f_equal. change (pruned (list_to_set (map_list (pruned D s) m)) (pruned D s) = pruned (list_to_set (p :: l)) s). by rewrite pruned_twice, Hlist, filter_dead.
Qed.

Lemma clear_map_ok s m : good ∅ s -> is_Some (mem_heap (ms_maps s) !! m) -> clear_map m s = Ok (pruned (list_to_set (map_list s m)) s).
Proof. intros G [mp Hm]. unfold clear_map, mbind, run_bind. rewrite (get_map_Some _ _ _ Hm). apply ClearMap_ok; [done|eauto|]. unfold map_list. by rewrite Hm. Qed.

(** ** Options of a map *)

Definition frame (mp : TnmMap) := (mp_itemList mp, mp_numItems mp, mp_token mp, mp_loading mp, mp_attributes mp).

(** Only the other fields of one map have changed. *)
Definition tuned (m : nat) (s s' : MapState) : Prop := exists f, (forall mp, frame (f mp) = frame mp) /\ s' = update_map f m s.

Lemma tuned_refl m s : tuned m s s.
Proof.
  exists id. split; [done|]. unfold update_map, mem_update. rewrite alter_id by done. destruct s as [ms]. by destruct ms.
Qed.
Lemma update_map_twice f g m s : update_map g m (update_map f m s) = update_map (g ∘ f) m s.
Proof.
  assert (H : alter g m (alter f m (mem_heap (ms_maps s))) = alter (g ∘ f) m (mem_heap (ms_maps s))).
  { apply map_eq. intros k. destruct (decide (k = m)) as [->|Hne]; [|by rewrite !lookup_alter_ne]. rewrite !lookup_alter_eq. by destruct (mem_heap (ms_maps s) !! m). }
  unfold update_map, mem_update, set_ms_maps. cbn. by rewrite H.
Qed.
Lemma tuned_trans m s1 s2 s3 : tuned m s1 s2 -> tuned m s2 s3 -> tuned m s1 s3.
Proof. intros (f & Hf & ->) (g & Hg & ->). exists (g ∘ f). split; [intros mp; unfold compose; by rewrite Hg, Hf|]. apply update_map_twice. Qed.

Section config.
Variable Tcl_GetIntFromObj : cstring -> option Z.

Lemma map_SetOption_tuned m s option v : tuned m s (map_SetOption Tcl_GetIntFromObj m s option v).2.
Proof.
  unfold map_SetOption. repeat (case_bool_decide; [|]); try (destruct (TnmGetUnsignedFromObj _) as [n|]); try apply tuned_refl; cbn [snd]; eexists; (split; [|reflexivity]); intros mp; try done.
  unfold frame. cbn. by case_bool_decide.
Qed.

Lemma map_apply_tuned m args : forall s, tuned m s (set_config_apply (map_config Tcl_GetIntFromObj m) s args).2.
Proof.
  induction args as [|[name v] args IH]; intros s; [apply tuned_refl|]. cbn -[map_SetOption TnmGetTableKeyFromObj map_optionTable].
  pose proof (map_SetOption_tuned m s (TnmGetTableKeyFromObj map_optionTable name) v) as H. destruct (map_SetOption _ m s _ v) as [code s1]. cbn in H. destruct code; [|done]. eapply tuned_trans; [done|apply IH].
Qed.

Lemma map_configure_tuned m s args : tuned m s (TnmSetConfig (map_config Tcl_GetIntFromObj m) s args).1.2.
Proof.
  unfold TnmSetConfig. destruct args as [args|]; [|apply tuned_refl]. destruct (set_config_scan _ args); [|apply tuned_refl].
  pose proof (map_apply_tuned m args s) as H. destruct (set_config_apply _ s args) as [[] s1]; done.
Qed.
End config.

Lemma update_map_lookup f m s k mk : mem_heap (ms_maps (update_map f m s)) !! k = Some mk <-> exists m0, mem_heap (ms_maps s) !! k = Some m0 /\ mk = if decide (k = m) then f m0 else m0.
Proof. cbn. destruct (decide (k = m)) as [->|Hne]; [rewrite lookup_alter_eq, fmap_Some; naive_solver|]. rewrite lookup_alter_ne by done. naive_solver. Qed.

Lemma frame_eq a b : frame a = frame b -> mp_itemList a = mp_itemList b /\ mp_numItems a = mp_numItems b /\ mp_token a = mp_token b.
Proof. unfold frame. intros [=]. tauto. Qed.

(** A change of a map that keeps the list of its items. *)
Lemma update_map_good f m s : (forall mp, mp_itemList (f mp) = mp_itemList mp /\ mp_numItems (f mp) = mp_numItems mp) -> good ∅ s -> good ∅ (update_map f m s).
Proof.
  intros Hf [[I1 I2 I3 I4 I5 I6] HL HK]. assert (Hlist : forall k, map_list (update_map f m s) k = map_list s k).
  { intros k. unfold map_list. cbn. destruct (decide (k = m)) as [->|Hne]; [|by rewrite lookup_alter_ne]. rewrite lookup_alter_eq. destruct (mem_heap (ms_maps s) !! m) as [mp|]; [|done]. apply Hf. }
  split; [constructor|..]; [done| |..|done|done|done| |done].
  - intros p it Hp. destruct (I2 p it Hp) as [mp Hm]. eexists. apply update_map_lookup. eauto.
  - intros k mk (m0 & Hk & ->)%update_map_lookup. destruct (I3 k m0 Hk) as (? & ? & ?). destruct (Hf m0) as [Ha Hb]. destruct (decide (k = m)); [rewrite Ha, Hb|]; done.
  - intros p it Hp HX. destruct (HL p it Hp HX) as (Hin & Hrest). split; [by rewrite Hlist|done].
Qed.

Lemma update_map_world f m s : (forall mp, mp_itemList (f mp) = mp_itemList mp /\ mp_numItems (f mp) = mp_numItems mp /\ mp_token (f mp) = mp_token mp) -> world s -> world (update_map f m s).
Proof.
  intros Hf [W1 [M1 [M2 M3]] W3 W4]. split; [apply update_map_good; [|done]; intros mp; destruct (Hf mp) as (? & ? & ?); by split|constructor|done|done].
  - intros k mk (m0 & Hk & ->)%update_map_lookup. replace (mp_token _) with (mp_token m0); [by apply M1|]. destruct (decide (k = m)); [|done]. symmetry. apply Hf.
  - split; [done|]. intros k [m0 Hk]%M3. eexists. apply update_map_lookup. eauto.
Qed.

Lemma tuned_world m s s' : tuned m s s' -> world s -> world s' /\ same_holds s s'.
Proof. intros (f & Hf & ->) W. split; [|done]. apply update_map_world; [|done]. intros mp. by apply frame_eq. Qed.

(** ** Creating a map *)

Definition with_map (s : MapState) (mp : TnmMap) (name : cstring) (id : Z) : MapState :=
  with_command (cstr "map") name id (CmdMap (ms_brk s))
    (set_ms_mapList (ms_mapList s ++ [ms_brk s]) (set_ms_maps (mem_alloc (ms_brk s) mp (ms_maps s)) (set_ms_brk (S (ms_brk s)) s))).

Lemma no_map s : world s -> mem_heap (ms_maps s) !! ms_brk s = None.
Proof. intros W. destruct (mem_heap (ms_maps s) !! ms_brk s) eqn:E; [|done]. destruct (mo_map _ (w_maps _ W) _ _ E). lia. Qed.

Lemma brk_world s : world s -> world (set_ms_brk (S (ms_brk s)) s).
Proof.
  intros [[[I1 I2 I3 I4 I5 I6] HL HK] [M1 M2] W3 W4]. split; [split; [constructor|..]|constructor|..]; try done.
  - intros p Hp%I6. cbn. lia.
  - intros k mk Hk. destruct (M1 k mk Hk) as (? & ?). split; [cbn; lia|done].
  - intros e He%W4. cbn. lia.
Qed.

Section with_map.
#[local] Set Default Proof Using "All".
Context (s : MapState) (mp : TnmMap) (name : cstring) (id : Z) (W : world s) (Hid : is_u32 id) (Hfree : ms_commands s !! name = None).
Context (Hlist : mp_itemList mp = []) (Hnum : mp_numItems mp = 0) (Htok : mp_token mp = name).

Lemma with_map_lookup k mk : mem_heap (ms_maps (with_map s mp name id)) !! k = Some mk <-> (k = ms_brk s /\ mk = mp) \/ (k <> ms_brk s /\ mem_heap (ms_maps s) !! k = Some mk).
Proof. cbn. rewrite lookup_insert_Some. naive_solver. Qed.

Lemma with_map_old k mk : mem_heap (ms_maps s) !! k = Some mk -> mem_heap (ms_maps (with_map s mp name id)) !! k = Some mk.
Proof. intros Hk. apply with_map_lookup. right. split; [|done]. intros ->. by rewrite (no_map s W) in Hk. Qed.

Lemma with_map_good : good ∅ (with_map s mp name id).
Proof.
  destruct (w_good _ W) as [[I1 I2 I3 I4 I5 I6] HL HK]. split; [constructor|..]; [done|..|done].
  - intros p it Hp. destruct (I2 p it Hp) as [mk Hk]. eexists. by apply with_map_old.
  - intros k mk [[-> ->]|[_ Hk]]%with_map_lookup; [|by apply I3]. rewrite Hlist, Hnum. split; [apply NoDup_nil_2|]. split; [done|]. intros p []%elem_of_nil.
  - intros p it n Hp Ht. destruct (I4 p it n Hp Ht) as (c & Hc & Hd). exists c. split; [|done]. cbn. rewrite lookup_insert_ne; [done|]. congruence.
  - intros n c p Hc Hd. cbn in Hc. apply lookup_insert_Some in Hc as [[<- <-]|[_ Hc]]; [done|]. by eapply I5.
  - intros p Hp%I6. cbn. lia.
  - intros p it Hp HX. destruct (HL p it Hp HX) as (Hin & n & c & Ht & Hc & Hd). split.
    + unfold map_list in *. destruct (mem_heap (ms_maps s) !! it_mapPtr it) as [mk|] eqn:Hk; [|by apply elem_of_nil in Hin]. by rewrite (with_map_old _ _ Hk).
    + exists n, c. split; [done|]. split; [|done]. cbn. rewrite lookup_insert_ne; [done|]. congruence.
Qed.

Lemma with_map_world : world (with_map s mp name id).
Proof.
  split; [apply with_map_good|constructor|apply map_Forall_insert_2; [done|apply (w_ids _ W)]|intros e He%(w_events _ W); cbn; lia]; destruct (w_maps _ W) as [M1 [M2 M3]].
  - intros k mk [[-> ->]|[_ Hk]]%with_map_lookup.
    + cbn. split; [lia|]. split; [apply elem_of_app; right; by left|]. exists (mkCommand (CmdMap (ms_brk s)) false). by rewrite Htok, lookup_insert_eq.
    + destruct (M1 k mk Hk) as (? & ? & c & Hc & ?). cbn. split; [lia|]. split; [apply elem_of_app; by left|]. exists c. rewrite lookup_insert_ne; [done|]. congruence.
  - cbn. split.
    + apply NoDup_app. split; [done|]. split; [|apply NoDup_singleton]. intros k [mk Hk]%M3 ->%list_elem_of_singleton. by rewrite (no_map s W) in Hk.
    + intros k [[mk Hk]%M3| ->%list_elem_of_singleton]%elem_of_app; eexists; apply with_map_lookup; [|by left]. right. split; [|done]. intros ->. by rewrite (no_map s W) in Hk.
Qed.
End with_map.

Section create_map.
Variable Tcl_GetIntFromObj : cstring -> option Z.

Lemma alter_insert_fresh (f : TnmMap -> TnmMap) (M : Mem TnmMap) m mp : mem_update f m (mem_alloc m mp M) = mem_alloc m (f mp) M.
Proof. unfold mem_update, mem_alloc. cbn. by rewrite alter_insert_eq. Qed.

(** A map is created with its command at the end of the list, or the state is the old one. *)
Lemma CreateMap_ok s args : world s -> few_commands s -> quiet s ->
  exists code name s', CreateMap Tcl_GetIntFromObj args s = Ok (code, name, s') /\ quiet s' /\ world s' /\
    match code with
    | TCL_OK => exists n, name = Some n /\ ms_mapList s' = ms_mapList s ++ [ms_brk s] /\ is_Some (mem_heap (ms_maps s') !! ms_brk s) /\ map_list s' (ms_brk s) = []
    | TCL_ERROR => name = None /\ s' = set_ms_brk (S (ms_brk s)) s
    end.
Proof.
  intros W Hfew Hq. unfold CreateMap. cbn [allocate]. set (m := ms_brk s). set (s1 := set_ms_maps _ _). pose proof (map_configure_tuned Tcl_GetIntFromObj m s1 args) as Ht.
  destruct (TnmSetConfig _ s1 args) as [[code s2] opts]. destruct Ht as (f & Hf & Hs2). cbn in Hs2. subst s2.
  assert (Hnone : mem_heap (ms_maps s) !! m = None) by (by apply no_map). destruct code.
  - destruct (create_command_ok (set_ms_mapList (ms_mapList s ++ [m]) (update_map f m s1)) (cstr "map") (CmdMap m)) as (name & id & Hcmd & Hfree & Hid); [apply (w_ids _ W)|done|].
    exists TCL_OK, (Some name). change (ms_mapList (update_map f m s1)) with (ms_mapList s). unfold mbind, run_bind. rewrite Hcmd. eexists. split; [done|].
    assert (He : update_map (set_mp_token name) m (with_command (cstr "map") name id (CmdMap m) (set_ms_mapList (ms_mapList s ++ [m]) (update_map f m s1))) = with_map s (set_mp_token name (f (new_map (ms_clock s)))) name id).
    { unfold with_map, update_map, s1. cbn [ms_maps set_ms_maps set_ms_brk set_ms_mapList with_command set_ms_nextId set_ms_commands]. by rewrite !alter_insert_fresh. }
    rewrite He. pose proof (frame_eq _ _ (Hf (new_map (ms_clock s)))) as (Ha & Hb & _). split; [done|]. split; [by apply with_map_world|]. exists name. split; [done|]. split; [done|].
    split; [|unfold map_list]; cbn; rewrite lookup_insert_eq; [by eexists|done].
  - assert (He : set_ms_maps (mem_free m (ms_maps (update_map f m s1))) (update_map f m s1) = set_ms_brk (S m) s).
    { unfold update_map, s1. cbn [ms_maps set_ms_maps set_ms_brk]. rewrite alter_insert_fresh. unfold mem_free, mem_alloc. cbn. destruct Hq as [Hq _]. rewrite Hq, lookup_empty, delete_insert_id by done.
      unfold set_ms_maps, set_ms_brk. cbn. f_equal. destruct (ms_maps s). cbn in *. by subst. }
    exists TCL_ERROR, None, (set_ms_brk (S m) s). rewrite He. split; [done|]. split; [done|]. split; [|done]. by apply brk_world.
Qed.
End create_map.

(** ** Destroying a map *)

(** The command of a map changes, the items do not have it. *)
Lemma map_command_good s m mp c : good ∅ s -> maps_ok s -> mem_heap (ms_maps s) !! m = Some mp -> cmd_data c = CmdMap m -> good ∅ (set_ms_commands (<[mp_token mp := c]> (ms_commands s)) s).
Proof.
  intros [[I1 I2 I3 I4 I5 I6] HL HK] M Hm Hd. destruct (mo_map _ M _ _ Hm) as (_ & _ & c0 & Hc0 & Hd0 & _).
  assert (Hne : forall p it n, ms_items s !! p = Some it -> it_token it = Some n -> n <> mp_token mp) by (intros p it n Hp Ht ->; destruct (I4 p it _ Hp Ht) as (x & ? & ?); congruence).
  split; [constructor|..]; try done.
  - intros p it n Hp Ht. cbn. rewrite lookup_insert_ne by (intros Hx; by eapply Hne). by apply (I4 p it).
  - intros n x p Hx Hdx. cbn in Hx. apply lookup_insert_Some in Hx as [[<- <-]|[_ Hx]]; [congruence|]. by apply (I5 n x).
  - intros p it Hp HX. destruct (HL p it Hp HX) as (Hin & n & x & Ht & Hx & Hdx). split; [done|]. exists n, x. split; [done|]. split; [|done]. cbn. rewrite lookup_insert_ne; [done|]. intros Hn. by eapply Hne.
Qed.

Definition close_timer (mp : TnmMap) : TnmMap := set_mp_interval 0 (set_mp_timer None mp).

(** The timer is stopped, the items go, and then the map is released. *)
Definition unmapped (M : Mem TnmMap) (m : nat) (name : cstring) (s : MapState) : MapState :=
  set_ms_commands (delete name (ms_commands s)) (set_ms_mapList (vector_delete (ms_mapList s) m) (set_ms_maps M s)).

Lemma MapDeleteProc_ok s m mp : good ∅ s -> mem_heap (ms_maps s) !! m = Some mp ->
  exists f, MapDeleteProc m s = let s' := pruned (list_to_set (map_list s m)) (update_map f m s) in
    Ok (set_ms_maps (mem_free m (ms_maps s')) (set_ms_mapList (vector_delete (ms_mapList s) m) s')).
Proof.
  intros G Hm. exists (if bool_decide (mp_timer mp <> None) then close_timer else id). unfold MapDeleteProc, mbind, run_bind. rewrite (get_map_Some _ _ _ Hm). fold close_timer.
  assert (Hs : (if bool_decide (mp_timer mp <> None) then update_map close_timer m s else s) = update_map (if bool_decide (mp_timer mp <> None) then close_timer else id) m s).
  { case_bool_decide; [done|]. unfold update_map, mem_update. rewrite alter_id by done. destruct s as [ms]. by destruct ms. }
  rewrite Hs. set (f := if bool_decide _ then _ else _). assert (Hf : forall x, mp_itemList (f x) = mp_itemList x /\ mp_numItems (f x) = mp_numItems x) by (intros x; unfold f; by case_bool_decide).
  assert (Hl : map_list (update_map f m s) m = map_list s m) by (unfold map_list; cbn; rewrite lookup_alter_eq, Hm; cbn; apply Hf).
  rewrite clear_map_ok; [by rewrite Hl|by apply update_map_good|]. eexists. apply update_map_lookup. eauto.
Qed.

Lemma prune_free D f m (M : Mem TnmMap) : mem_heap (mem_release m (mem_free m (prune_maps D (mem_update f m (mem_preserve m M))))) = delete m (mem_heap (prune_maps D M)) \/ mem_preserved M !! m <> None.
Proof.
  destruct (mem_preserved M !! m) eqn:E; [by right|]. left. unfold mem_free, mem_release, prune_maps, mem_update, mem_preserve. cbn. rewrite E. cbn. rewrite lookup_insert_eq. cbn. rewrite lookup_insert_eq.
  rewrite bool_decide_eq_true_2 by set_solver. cbn. apply map_eq. intros k. destruct (decide (k = m)) as [->|Hne]; [by rewrite !lookup_delete_eq|]. by rewrite !lookup_delete_ne, !lookup_fmap, lookup_alter_ne.
Qed.

Lemma unmapped_world s m mp M : world s -> mem_heap (ms_maps s) !! m = Some mp -> mem_heap M = delete m (mem_heap (ms_maps (pruned (list_to_set (map_list s m)) s))) ->
  world (unmapped M m (mp_token mp) (pruned (list_to_set (map_list s m)) s)).
Proof.
  intros W Hm HM. set (D := list_to_set (map_list s m)) in *. pose proof (closed_all s m (w_good _ W)) as Hc. fold D in Hc. destruct (pruned_world D s Hc W) as [[[I1 I2 I3 I4 I5 I6] HL HK] MO W3 W4].
  assert (Hitem : forall p it, ms_items (pruned D s) !! p = Some it -> it_mapPtr it <> m).
  { intros p it (Hp & it0 & Hit & ->)%prune_lookup_Some Hpm. apply Hp. unfold D. apply elem_of_list_to_set, list_same_map; [apply W|]. eauto. }
  assert (Hmp : mem_heap (ms_maps (pruned D s)) !! m = Some (prune_map D mp)) by (apply prune_map_lookup; eauto). destruct (mo_map _ MO _ _ Hmp) as (_ & _ & c & Hcmd & Hd & _).
  assert (Hne : forall p it n, ms_items (pruned D s) !! p = Some it -> it_token it = Some n -> n <> mp_token mp) by (intros p it n Hp Ht ->; destruct (I4 p it _ Hp Ht) as (x & ? & ?); change (mp_token (prune_map D mp)) with (mp_token mp) in Hcmd; congruence).
  assert (Hmap : forall k mk, mem_heap M !! k = Some mk <-> k <> m /\ mem_heap (ms_maps (pruned D s)) !! k = Some mk) by (intros k mk; rewrite HM, lookup_delete_Some; naive_solver).
  split; [split; [constructor|..]|constructor|..]; try done.
  - intros p it Hp. destruct (I2 p it Hp) as [mk Hk]. exists mk. apply Hmap. split; [by eapply Hitem|done].
  - intros k mk [_ Hk]%Hmap. by apply I3.
  - intros p it n Hp Ht. cbn. rewrite lookup_delete_ne by (intros Hx; by eapply Hne). by apply (I4 p it).
  - intros n x p Hx Hdx. cbn in Hx. apply lookup_delete_Some in Hx as [_ Hx]. by apply (I5 n x).
  - intros p it Hp HX. destruct (HL p it Hp HX) as (Hin & n & x & Ht & Hx & Hdx). split.
    + unfold map_list in *. destruct (mem_heap (ms_maps (pruned D s)) !! it_mapPtr it) as [mk|] eqn:Hk; [|by apply elem_of_nil in Hin]. assert (Hk' : mem_heap M !! it_mapPtr it = Some mk) by (apply Hmap; split; [by eapply Hitem|done]). cbn. by rewrite Hk'.
    + exists n, x. split; [done|]. split; [|done]. cbn. rewrite lookup_delete_ne; [done|]. intros Hn. by eapply Hne.
  - intros k mk [Hkm Hk]%Hmap. destruct (mo_map _ MO _ _ Hk) as (? & Hin & x & Hx & Hdx & ?). destruct (mo_list _ MO) as [Hnd _]. split; [done|]. split; [cbn; rewrite vector_delete_NoDup by done; by apply list_elem_of_filter|].
    exists x. split; [|done]. cbn. rewrite lookup_delete_ne; [done|]. change (mp_token (prune_map D mp)) with (mp_token mp) in Hcmd. congruence.
  - destruct (mo_list _ MO) as [Hnd Hall]. cbn. rewrite vector_delete_NoDup by done. split; [by apply NoDup_filter|]. intros k [Hkm [mk Hk]%Hall]%list_elem_of_filter. exists mk. by apply Hmap.
Qed.
