(* ===== verification/NetMapTheorems.v ===== *)
(** The commands that change the structure of a map, in sequences; the structure of the
    items under all of them, deletion, and a creation that fails. *)

From stdpp Require Import gmap relations.
From S2P Require Import Prelude Mem CStr Util UtilTheorems NetMapBase NetMapItem NetMapInv NetMapDelete NetMapEvent NetMap NetMapCmd NetMapConfig NetMapCreate NetMapWorld.
Local Open Scope Z_scope.

(** * Sequences of commands *)

(** ** Internal events *)

Section internal.
Variable Tcl_StringMatch : cstring -> cstring -> bool.
Variable Tcl_GlobalEval : cstring -> MapState -> script_code * MapState.

(** An event that is not raised by the user has no effect. *)
Lemma internal_event type p s it : ms_items s !! p = Some it -> ms_events s !! ms_brk s = None ->
  bool_decide (Z.land type TNM_MAP_EVENT_QUEUE <> 0) = false -> bool_decide (Z.land type TNM_MAP_EVENT_MASK = TNM_MAP_USER_EVENT) = false ->
  TnmMapCreateEvent Tcl_StringMatch Tcl_GlobalEval type p s = Ok s.
Proof.
  intros Hp He Hq Hu. unfold TnmMapCreateEvent. destruct (TnmGetTableValue eventTable (u32 type)); [|done]. unfold mbind, run_bind. rewrite (get_item_Some _ _ _ Hp).
  unfold TnmMapRaiseEvent, NetMapBase.read, mbind, run_bind. cbn [ms_events set_ms_events]. rewrite lookup_insert_eq. cbn [ev_type]. rewrite Hq. unfold raise_user. cbn [ev_type]. rewrite Hu. cbn. f_equal.
  rewrite delete_insert_id by done. by destruct s.
Qed.
End internal.

(** ** States that differ in what is held in memory *)

Lemma good_mem X s M : mem_heap M = mem_heap (ms_maps s) -> good X s -> good X (set_ms_maps M s).
Proof.
  intros HM [[I1 I2 I3 I4 I5 I6] HL HK]. split; [constructor|..]; try done; cbn.
  - by rewrite HM.
  - by rewrite HM.
  - intros p it Hp HX. destruct (HL p it Hp HX) as [Hin ?]. split; [|done]. unfold map_list in *. cbn. by rewrite HM.
Qed.

Lemma world_mem s M : mem_heap M = mem_heap (ms_maps s) -> world s -> world (set_ms_maps M s).
Proof.
  intros HM [W1 [M1 M2] W3 W4]. split; [by apply good_mem|constructor|done|done]; cbn; by rewrite HM.
Qed.

Lemma world_fresh_event s : world s -> ms_events s !! ms_brk s = None.
Proof. intros W. destruct (ms_events s !! ms_brk s) eqn:E; [|done]. pose proof (w_events _ W _ (mk_is_Some _ _ E)). lia. Qed.

Definition holding (m : nat) (s : MapState) : MapState := set_ms_maps (mem_preserve m (ms_maps s)) s.
Definition letting (m : nat) (s : MapState) : MapState := set_ms_maps (mem_release m (ms_maps s)) s.

Lemma holding_world m s : world s -> world (holding m s).
Proof. by apply world_mem. Qed.

Lemma letting_quiet m s s' : quiet s -> same_holds (holding m s) s' -> letting m s' = set_ms_maps (mkMem (mem_heap (ms_maps s')) ∅ ∅) s' /\ quiet (letting m s').
Proof.
  intros [Hq Hd] [Hp Hd']. cbn in Hp, Hd'. rewrite Hq, lookup_empty in Hp. rewrite Hd in Hd'. cbn in Hp.
  assert (He : mem_release m (ms_maps s') = mkMem (mem_heap (ms_maps s')) ∅ ∅).
  { unfold mem_release. rewrite Hp, lookup_insert_eq, Hd', bool_decide_eq_false_2 by set_solver. f_equal. rewrite delete_insert_id by apply lookup_empty. done. }
  unfold letting. rewrite He. done.
Qed.

Section commands.
Variable Tcl_GetIntFromObj : cstring -> option Z.
Variable Tcl_StringMatch : cstring -> cstring -> bool.
Variable list_of : cstring -> option (list cstring).
Variable list_string : list cstring -> cstring.
Variable hash_order : gmap cstring cstring -> list (cstring * cstring).
Variable qsort : (nat -> nat -> Z) -> list nat -> list nat.
Variable Tcl_GlobalEval : cstring -> MapState -> script_code * MapState.

(** A command that changes the structure: [map create], [$map create], [$map clear],
    [$map destroy], [$map configure], and [configure], [destroy], [move] and [attribute] of an
    item. *)
Inductive map_op :=
  | OpMap (args : list cstring)
  | OpCreate (m : nat) (type : cstring) (args : list cstring)
  | OpClear (m : nat)
  | OpDestroyMap (m : nat)
  | OpConfigureMap (m : nat) (args : list cstring)
  | OpConfigure (p : nat) (args : list cstring)
  | OpDestroy (p : nat)
  | OpMove (p : nat) (x y : cstring)
  | OpAttribute (p : nat) (name value : cstring).

Definition map_command : nat -> list cstring -> MapState -> run_result (cmd_result * MapState) :=
  MapObjCmd Tcl_GetIntFromObj Tcl_StringMatch list_of list_string hash_order qsort Tcl_GlobalEval.
Definition item_command : nat -> list cstring -> MapState -> run_result (cmd_result * MapState) :=
  ItemCmd Tcl_GetIntFromObj Tcl_StringMatch list_string hash_order Tcl_GlobalEval.

Definition run_op (op : map_op) : MapState -> run_result (cmd_result * MapState) :=
  match op with
  | OpMap args => Tnm_MapObjCmd Tcl_GetIntFromObj Tcl_StringMatch list_of (cstr "create" :: args)
  | OpCreate m type args => map_command m (cstr "create" :: type :: args)
  | OpClear m => map_command m [cstr "clear"]
  | OpDestroyMap m => map_command m [cstr "destroy"]
  | OpConfigureMap m args => map_command m (cstr "configure" :: args)
  | OpConfigure p args => item_command p (cstr "configure" :: args)
  | OpDestroy p => item_command p [cstr "destroy"]
  | OpMove p x y => item_command p [cstr "move"; x; y]
  | OpAttribute p name value => item_command p [cstr "attribute"; name; value]
  end.

(** The map or the item of the command exists. *)
Definition enabled (op : map_op) (s : MapState) : Prop :=
  match op with
  | OpMap _ => True
  | OpCreate m _ _ | OpClear m | OpDestroyMap m | OpConfigureMap m _ => is_Some (mem_heap (ms_maps s) !! m)
  | OpConfigure p _ | OpDestroy p | OpMove p _ _ | OpAttribute p _ _ => is_Some (ms_items s !! p)
  end.

(** The result of a creation: it succeeds, or no option refers to another item. *)
Definition clean (op : map_op) (r : cmd_result) : Prop :=
  match op, r with
  | OpCreate _ type args, CmdError => forall t l, GetItemType type = Some t -> pair_words args = Some l -> no_references t l = true
  | _, _ => True
  end.

Definition ready (s : MapState) : Prop := world s /\ quiet s.

#[local] Notation outcome op s := (exists r s', run_op op s = Ok (r, s') /\ (clean op r -> ready s')).

Lemma holding_map m s mp : mem_heap (ms_maps s) !! m = Some mp -> mem_heap (ms_maps (holding m s)) !! m = Some mp.
Proof. done. Qed.

(** A command of a map that keeps what is held in memory. *)
Lemma letting_ready m s s' : ready s -> same_holds (holding m s) s' -> world s' -> ready (letting m s').
Proof. intros [W Hq] Hs W'. destruct (letting_quiet m s s' Hq Hs) as [He Hq']. split; [|done]. rewrite He. by apply world_mem. Qed.

Lemma map_op_ok args s : ready s -> few_commands s -> outcome (OpMap args) s.
Proof.
  intros [W Hq] Hfew. destruct (CreateMap_ok Tcl_GetIntFromObj s (pair_words args) W Hfew Hq) as (code & name & s' & Hc & Hq' & W' & _). exists (code_result code (option_list name)), s'. split; [|by split].
  change (run_op (OpMap args) s) with ('(code, name, s0) ← CreateMap Tcl_GetIntFromObj (pair_words args) s; Ok (code_result code (option_list name), s0)). by rewrite Hc.
Qed.

Lemma create_op_ok m type args s : ready s -> few_commands s -> enabled (OpCreate m type args) s -> outcome (OpCreate m type args) s.
Proof.
  intros R Hfew Hm. pose proof R as [W Hq]. destruct (CreateItem_ok Tcl_GetIntFromObj (holding m s) m type (pair_words args) (holding_world m s W) Hfew Hm) as (code & name & s' & Hc & Hcode).
  exists (code_result code (option_list name)), (letting m s'). split.
  - change (run_op (OpCreate m type args) s) with ('(r, s0) ← ('(code, name, s0) ← CreateItem Tcl_GetIntFromObj m type (pair_words args) (holding m s); Ok (code_result code (option_list name), s0)); Ok (r, letting m s0)). by rewrite Hc.
  - intros Hcl. destruct code.
    + destruct Hcode as (t & n & _ & _ & Hcr). apply (letting_ready m s); [done|apply (cr_holds _ _ _ _ _ Hcr)|apply (cr_world _ _ _ _ _ Hcr)].
    + destruct Hcode as [_ Hs]. destruct (Hs Hcl) as [->| ->]; (apply (letting_ready m s); [done|done|]); [by apply holding_world|].
      by apply brk_world, holding_world.
Qed.

Lemma clear_op_ok m s : ready s -> enabled (OpClear m) s -> outcome (OpClear m) s.
Proof.
  intros R Hm. pose proof R as [W Hq]. pose proof (holding_world m s W) as Wh. eexists (CmdOk []), (letting m _). split.
  - change (run_op (OpClear m) s) with ('(r, s0) ← (s0 ← clear_map m (holding m s); Ok (CmdOk [], s0)); Ok (r, letting m s0)). by rewrite (clear_map_ok (holding m s) m (w_good _ Wh) Hm).
  - intros _. apply (letting_ready m s); [done|done|]. apply pruned_world; [|done]. by apply closed_all, w_good.
Qed.

Lemma configure_map_ok m args s : ready s -> enabled (OpConfigureMap m args) s -> outcome (OpConfigureMap m args) s.
Proof.
  intros R Hm. pose proof R as [W Hq]. pose proof (map_configure_tuned Tcl_GetIntFromObj m (holding m s) (pair_words args)) as Ht.
  destruct (TnmSetConfig (map_config Tcl_GetIntFromObj m) (holding m s) (pair_words args)) as [[code s'] opts] eqn:E. destruct (tuned_world m _ _ Ht (holding_world m s W)) as [W' Hs].
  exists (code_result code (concat (map (fun kv => [kv.1; kv.2]) opts))), (letting m s'). split; [|intros _; by apply (letting_ready m s)].
  change (run_op (OpConfigureMap m args) s) with ('(r, s0) ← (let '(code, s0, opts) := TnmSetConfig (map_config Tcl_GetIntFromObj m) (holding m s) (pair_words args) in Ok (code_result code (concat (map (fun kv => [kv.1; kv.2]) opts)), s0)); Ok (r, letting m s0)). by rewrite E.
Qed.

Lemma commands_closed (D : gset nat) (name : cstring) (c : command) (cmds : gmap cstring command) : delete name (filter (fun kv => kept D kv.2) (<[name := c]> cmds)) = delete name (filter (fun kv => kept D kv.2) cmds).
Proof.
  apply map_eq. intros n. destruct (decide (n = name)) as [->|Hne]; [by rewrite !lookup_delete_eq|]. rewrite !lookup_delete_ne by done. apply option_eq. intros x. rewrite !map_lookup_filter_Some. by rewrite lookup_insert_ne.
Qed.

Lemma destroy_map_ok m s : ready s -> enabled (OpDestroyMap m) s -> outcome (OpDestroyMap m) s.
Proof.
  intros R [mp Hm]. pose proof R as [W Hq]. destruct (mo_map _ (w_maps _ W) _ _ Hm) as (_ & _ & c & Hc & Hd & Hdel). set (h := holding m s). set (s1 := set_ms_commands (<[mp_token mp := mkCommand (cmd_data c) true]> (ms_commands h)) h).
  assert (G1 : good ∅ s1) by (apply (map_command_good h m mp); [apply holding_world, W|by apply (w_maps _ (holding_world m s W))|done|done]).
  destruct (MapDeleteProc_ok s1 m mp G1 Hm) as (f & Hproc). set (D := list_to_set (map_list s m) : gset nat).
  set (s2 := pruned D (update_map f m s1)) in *. exists (CmdOk []), (unmapped (mem_release m (mem_free m (ms_maps s2))) m (mp_token mp) (pruned D s)). split.
  - change (run_op (OpDestroyMap m) s) with ('(r, s0) ← (s0 ← Tcl_DeleteMap m h; Ok (CmdOk [], s0)); Ok (r, letting m s0)). unfold Tcl_DeleteMap, delete_token, mbind, run_bind.
    rewrite (get_map_Some h m mp Hm). change (ms_commands h) with (ms_commands s). rewrite Hc, Hdel. change (set_ms_commands (<[mp_token mp := mkCommand (cmd_data c) true]> (ms_commands s)) h) with s1. rewrite Hproc.
    change (list_to_set (map_list s1 m)) with D. fold s2. unfold letting, unmapped. cbn [ms_maps set_ms_maps set_ms_commands set_ms_mapList ms_commands ms_mapList].
    do 2 f_equal. apply state_ext; [done|done| |done].
    exact (commands_closed D (mp_token mp) (mkCommand (cmd_data c) true) (ms_commands s)).
  - intros _. split.
    + apply unmapped_world; [done|done|]. destruct (prune_free D f m (ms_maps s)) as [He|He]; [exact He|]. destruct Hq as [Hq _]. rewrite Hq, lookup_empty in He. done.
    + destruct Hq as [Hq Hdm]. unfold quiet, unmapped, s2. cbn. unfold mem_free. cbn. rewrite Hq, lookup_empty, lookup_insert_eq. cbn. unfold mem_release. cbn. rewrite lookup_insert_eq, Hdm. cbn.
      rewrite bool_decide_eq_true_2 by set_solver. cbn. split; [by rewrite delete_insert_id by apply lookup_empty|set_solver].
Qed.

(** ** Commands of items *)

Lemma world_configured s p it : world s -> ms_items s !! p = Some it -> configured s ∅ p (it_typePtr it) (it_token it) (it_mapPtr it) s.
Proof. intros W Hp. split; [apply W|by exists it|by destruct s]. Qed.

Lemma configured_ready s p it s' : ready s -> configured s ∅ p (it_typePtr it) (it_token it) (it_mapPtr it) s' -> ready s'.
Proof.
  intros [[W1 [M1 M2] W3 W4] Hq] [G _ F]. rewrite F in G |- *. split; [|done]. split; [done|constructor|done|done]; done.
Qed.

Lemma configured_event s p it s' type : ready s -> configured s ∅ p (it_typePtr it) (it_token it) (it_mapPtr it) s' ->
  bool_decide (Z.land type TNM_MAP_EVENT_QUEUE <> 0) = false -> bool_decide (Z.land type TNM_MAP_EVENT_MASK = TNM_MAP_USER_EVENT) = false ->
  TnmMapCreateEvent Tcl_StringMatch Tcl_GlobalEval type p s' = Ok s'.
Proof.
  intros R C H1 H2. destruct (cf_subject _ _ _ _ _ _ _ C) as (i & Hi & _). eapply internal_event; [done|by apply world_fresh_event, (configured_ready s p it)|done|done].
Qed.

Lemma item_command_eq p words s r s' : TnmMapItemObjCmd Tcl_GetIntFromObj Tcl_StringMatch list_string hash_order Tcl_GlobalEval p words s = Ok (r, s') -> exists r', item_command p words s = Ok (r', s').
Proof. intros H. unfold item_command, ItemCmd, mbind, run_bind. rewrite H. eauto. Qed.

Lemma configure_op_ok p args s : ready s -> enabled (OpConfigure p args) s -> outcome (OpConfigure p args) s.
Proof.
  intros R [it Hp]. pose proof R as [W Hq]. destruct (Configure_ok s Tcl_GetIntFromObj ∅ p _ _ _ s (pair_words args) (world_configured s p it W Hp)) as (code & s' & opts & Hc & C).
  assert (He : exists r, TnmMapItemObjCmd Tcl_GetIntFromObj Tcl_StringMatch list_string hash_order Tcl_GlobalEval p (cstr "configure" :: args) s = Ok (r, s')).
  { exists (code_result code (concat (map (fun kv => [kv.1; kv.2]) opts))). unfold TnmMapItemObjCmd, mbind, run_bind. rewrite (get_item_Some _ _ _ Hp).
    change (TnmGetTableKey item_cmdTable (cstr "configure")) with TNM_ITEM_CMD_CONFIG. change (Z.land TNM_ITEM_CMD_CONFIG (commonCmds (it_typePtr it))) with TNM_ITEM_CMD_CONFIG.
    rewrite (bool_decide_eq_false_2 (TNM_ITEM_CMD_CONFIG = TNM_ITEM_CMD_CGET)), bool_decide_eq_true_2 by done. rewrite Hc.
    destruct code, args; try done. by rewrite (configured_event s p it s' TNM_MAP_CONFIGURE_EVENT R C). }
  destruct He as [r [r' Hr]%item_command_eq]. exists r', s'. split; [done|]. intros _. by eapply configured_ready.
Qed.

Lemma destroy_op_ok p s : ready s -> enabled (OpDestroy p) s -> outcome (OpDestroy p) s.
Proof.
  intros [W Hq] [it Hp]. destruct (delete_item_ok s p it (w_good _ W) Hp) as [Hdel Hc]. eexists _, (pruned (dead (ms_items s) p it) s). split; [|intros _; split; [by apply pruned_world|done]].
  unfold run_op, item_command, ItemCmd, TnmMapItemObjCmd, mbind, run_bind. rewrite (get_item_Some _ _ _ Hp).
  change (TnmGetTableKey item_cmdTable (cstr "destroy")) with TNM_ITEM_CMD_DESTROY. change (Z.land TNM_ITEM_CMD_DESTROY (commonCmds (it_typePtr it))) with TNM_ITEM_CMD_DESTROY.
  rewrite !(bool_decide_eq_false_2 (TNM_ITEM_CMD_DESTROY = _)) by done. rewrite bool_decide_eq_true_2 by done. rewrite Hdel. done.
Qed.

Lemma move_op_ok p x y s : ready s -> enabled (OpMove p x y) s -> outcome (OpMove p x y) s.
Proof.
  intros R [it Hp]. pose proof R as [W Hq]. pose proof (world_configured s p it W Hp) as C0.
  assert (He : exists r s', TnmMapItemObjCmd Tcl_GetIntFromObj Tcl_StringMatch list_string hash_order Tcl_GlobalEval p [cstr "move"; x; y] s = Ok (r, s') /\ configured s ∅ p (it_typePtr it) (it_token it) (it_mapPtr it) s').
  { unfold TnmMapItemObjCmd, mbind, run_bind. rewrite (get_item_Some _ _ _ Hp). change (TnmGetTableKey item_cmdTable (cstr "move")) with TNM_ITEM_CMD_MOVE. change (Z.land TNM_ITEM_CMD_MOVE (commonCmds (it_typePtr it))) with TNM_ITEM_CMD_MOVE.
    rewrite (bool_decide_eq_false_2 (TNM_ITEM_CMD_MOVE = TNM_ITEM_CMD_CGET)), (bool_decide_eq_false_2 (TNM_ITEM_CMD_MOVE = TNM_ITEM_CMD_CONFIG)), (bool_decide_eq_false_2 (TNM_ITEM_CMD_MOVE = TNM_ITEM_CMD_MAP)), bool_decide_eq_true_2 by done.
    destruct (Tcl_GetIntFromObj x) as [dx|]; [|by eauto]. destruct (Tcl_GetIntFromObj y) as [dy|]; [|by eauto]. unfold move_item, mbind, run_bind. destruct (touch_configured s ∅ p _ _ _ s C0) as (s1 & -> & C1).
    set (s2 := update_item _ p s1). assert (C2 : configured s ∅ p (it_typePtr it) (it_token it) (it_mapPtr it) s2) by (by apply update_configured). rewrite (configured_event s p it s2 TNM_MAP_MOVE_EVENT R C2) by done.
    destruct (cf_subject _ _ _ _ _ _ _ C2) as (i & Hi & _). unfold item_position, mbind, run_bind. rewrite (get_item_Some _ _ _ Hi). eauto. }
  destruct He as (r & s' & [r' Hr]%item_command_eq & C). exists r', s'. split; [done|]. intros _. by eapply configured_ready.
Qed.

Lemma attribute_op_ok p name value s : ready s -> enabled (OpAttribute p name value) s -> outcome (OpAttribute p name value) s.
Proof.
  intros R [it Hp]. pose proof R as [W Hq]. pose proof (world_configured s p it W Hp) as C0.
  assert (He : exists r s', TnmMapItemObjCmd Tcl_GetIntFromObj Tcl_StringMatch list_string hash_order Tcl_GlobalEval p [cstr "attribute"; name; value] s = Ok (r, s') /\ configured s ∅ p (it_typePtr it) (it_token it) (it_mapPtr it) s').
  { unfold TnmMapItemObjCmd, mbind, run_bind. rewrite (get_item_Some _ _ _ Hp). change (TnmGetTableKey item_cmdTable (cstr "attribute")) with TNM_ITEM_CMD_ATTRIBUTE. change (Z.land TNM_ITEM_CMD_ATTRIBUTE (commonCmds (it_typePtr it))) with TNM_ITEM_CMD_ATTRIBUTE.
    rewrite !(bool_decide_eq_false_2 (TNM_ITEM_CMD_ATTRIBUTE = TNM_ITEM_CMD_CGET)), (bool_decide_eq_false_2 (TNM_ITEM_CMD_ATTRIBUTE = TNM_ITEM_CMD_CONFIG)), (bool_decide_eq_false_2 (TNM_ITEM_CMD_ATTRIBUTE = TNM_ITEM_CMD_MAP)) by done.
    rewrite (bool_decide_eq_false_2 (TNM_ITEM_CMD_ATTRIBUTE = TNM_ITEM_CMD_MOVE)), (bool_decide_eq_false_2 (TNM_ITEM_CMD_ATTRIBUTE = TNM_ITEM_CMD_TYPE)), bool_decide_eq_true_2 by done. cbn [attribute_cmd].
    set (table := (TnmAttrSet (it_attributes it) name (Some value)).2). destruct (touch_configured s ∅ p (it_typePtr it) (it_token it) (it_mapPtr it) (update_item (set_it_attributes table) p s)) as (s1 & -> & C1); [by apply update_configured|].
    rewrite (configured_event s p it s1 TNM_MAP_ATTRIBUTE_EVENT R C1) by done. eauto. }
  destruct He as (r & s' & [r' Hr]%item_command_eq & C). exists r', s'. split; [done|]. intros _. by eapply configured_ready.
Qed.

Lemma op_ok op s : ready s -> few_commands s -> enabled op s -> outcome op s.
Proof.
  intros R Hfew He. destruct op; [by apply map_op_ok|by apply create_op_ok|by apply clear_op_ok|by apply destroy_map_ok|by apply configure_map_ok|by apply configure_op_ok|by apply destroy_op_ok|by apply move_op_ok|by apply attribute_op_ok].
Qed.
End commands.

(** * Results *)

#[local] Notation heap := (gmap nat TnmMapItem).

(** An interpreter without maps. *)
Definition no_maps (clock : Z * Z) : MapState := mkMS mem_empty [] ∅ ∅ ∅ ∅ ∅ ∅ ∅ ∅ ∅ 0 [] clock.

Lemma no_maps_ready clock : ready (no_maps clock).
Proof.
  assert (Hi : forall p it, ms_items (no_maps clock) !! p = Some it -> False) by done. assert (Hm : forall m mp, mem_heap (ms_maps (no_maps clock)) !! m = Some mp -> False) by done.
  split; [|done]. split; [split; [constructor; [constructor|..]|..]|constructor|apply map_Forall_empty|]; try (intros; exfalso; eauto; fail).
  - intros p [it Hp]. by exfalso; eapply Hi.
  - done.
  - intros p [it Hp]. by exfalso; eapply Hi.
  - intros p it Hp. by exfalso; eapply Hi.
  - intros p it Hp. by exfalso; eapply Hi.
  - split; [apply NoDup_nil_2|]. intros m []%elem_of_nil.
  - by intros e [ev He].
Qed.

Section steps.
Variable Tcl_GetIntFromObj : cstring -> option Z.
Variable Tcl_StringMatch : cstring -> cstring -> bool.
Variable list_of : cstring -> option (list cstring).
Variable list_string : list cstring -> cstring.
Variable hash_order : gmap cstring cstring -> list (cstring * cstring).
Variable qsort : (nat -> nat -> Z) -> list nat -> list nat.
Variable Tcl_GlobalEval : cstring -> MapState -> script_code * MapState.
#[local] Notation run := (run_op Tcl_GetIntFromObj Tcl_StringMatch list_of list_string hash_order qsort Tcl_GlobalEval).

(** One command, or time goes by.  A creation that fails with a reference to another item
    is left out. *)
Inductive map_step (s : MapState) : MapState -> Prop :=
  | step_op op r s' : enabled op s -> few_commands s -> run op s = Ok (r, s') -> clean op r -> map_step s s'
  | step_clock t : map_step s (set_ms_clock t s).

Lemma step_ready s s' : map_step s s' -> ready s -> ready s'.
Proof.
  intros [op r s1 He Hfew Hrun Hcl|t] R.
  - destruct (op_ok Tcl_GetIntFromObj Tcl_StringMatch list_of list_string hash_order qsort Tcl_GlobalEval op s R Hfew He) as (r' & s2 & Hrun' & Hr). rewrite Hrun in Hrun'. injection Hrun' as <- <-. by apply Hr.
  - destruct R as [[[[I1 I2 I3 I4 I5 I6] HL HK] [M1 M2] W3 W4] Hq]. split; [|done]. split; [split; [constructor|..]|constructor|..]; done.
Qed.

Lemma reachable_ready clock s : rtc map_step (no_maps clock) s -> ready s.
Proof. intros H. assert (R : ready (no_maps clock)) by apply no_maps_ready. induction H as [|a b c Hab _ IH]; [done|]. apply IH. by eapply step_ready. Qed.


End steps.

(** What is left of an item when others go. *)
Definition without (gone : nat -> Prop) (it it' : TnmMapItem) : Prop :=
  (it_memberItems it' `sublist_of` it_memberItems it /\ forall x, x ∈ it_memberItems it' <-> x ∈ it_memberItems it /\ ~ gone x) /\
  (it_linkedItems it' `sublist_of` it_linkedItems it /\ forall x, x ∈ it_linkedItems it' <-> x ∈ it_linkedItems it /\ ~ gone x) /\
  (forall q, it_parent it' = Some q <-> it_parent it = Some q /\ ~ gone q) /\
  it' = set_it_memberItems (it_memberItems it') (set_it_linkedItems (it_linkedItems it') (set_it_parent (it_parent it') it)).

Lemma prune_without (gone : nat -> Prop) D it : (forall x, gone x <-> x ∈ D) -> without gone it (prune_item D it).
Proof.
  intros H. split; [|split; [|split]].
  - cbn. split; [apply sublist_filter|]. intros x. rewrite list_elem_of_filter, H. tauto.
  - cbn. split; [apply sublist_filter|]. intros x. rewrite list_elem_of_filter, H. tauto.
  - intros q. by rewrite prune_parent, H.
  - done.
Qed.

(** C17: Destroying an item of a consistent map takes away exactly the item, the ports of a
    node, and the links that end at one of those; their commands go, too, and they leave the
    list of the map.  All other items stay as they are, apart from their lists of members
    and links, from which those items are removed, and a parent that is gone. *)
Theorem map_delete_item s p it : good ∅ s -> ms_items s !! p = Some it ->
  exists s', Tcl_DeleteItem p s = Ok s' /\ good ∅ s' /\
    (forall x, goes_with (ms_items s) p x -> ms_items s' !! x = None) /\
    (forall x xi, ~ goes_with (ms_items s) p x -> ms_items s !! x = Some xi -> exists xi', ms_items s' !! x = Some xi' /\ without (goes_with (ms_items s) p) xi xi') /\
    (forall m x, x ∈ map_list s' m <-> x ∈ map_list s m /\ ~ goes_with (ms_items s) p x) /\
    (forall name c, ms_commands s' !! name = Some c <-> ms_commands s !! name = Some c /\ forall x, cmd_data c = CmdItem x -> ~ goes_with (ms_items s) p x).
Proof.
  intros G Hp. destruct (delete_item_ok s p it G Hp) as [Hdel Hc]. pose proof (inv_heap _ _ (good_inv _ _ G)) as H. set (D := dead (ms_items s) p it) in *.
  assert (Hg : forall x, goes_with (ms_items s) p x <-> x ∈ D) by (intros x; by apply goes_dead). exists (pruned D s). split; [done|]. split; [by apply pruned_good|]. split; [|split; [|split]].
  - intros x Hx%Hg. cbn. by rewrite prune_lookup, decide_True.
  - intros x xi Hx Hxi. exists (prune_item D xi). split; [|by apply prune_without]. apply prune_lookup_Some. split; [by rewrite <- Hg|eauto].
  - intros m x. rewrite pruned_list, list_elem_of_filter, Hg. tauto.
  - intros name c. rewrite prune_command. unfold kept. split; intros [Hc1 Hk]; (split; [done|]).
    + intros x Hx. rewrite Hx in Hk. by rewrite Hg.
    + destruct (cmd_data c) as [| x | | | |]; try done. rewrite <- Hg. by apply Hk.
Qed.

(** ** Samples *)

(** A Tcl that knows the number 200, does not match and sorts nothing. *)
Definition sample_int (v : cstring) : option Z := if bool_decide (v = cstr "200") then Some 200 else None.
Definition sample_run : map_op -> MapState -> run_result (cmd_result * MapState) :=
  run_op sample_int (fun _ _ => true) (fun v => Some [v]) (fun l => concat l) map_to_list (fun _ l => l) (fun _ s => (SCRIPT_OK, s)).
Definition sample_step : MapState -> MapState -> Prop :=
  map_step sample_int (fun _ _ => true) (fun v => Some [v]) (fun l => concat l) map_to_list (fun _ l => l) (fun _ s => (SCRIPT_OK, s)).

#[local] Instance enabled_dec op s : Decision (enabled op s).
Proof. destruct op; cbn; apply _. Defined.
#[local] Instance few_dec s : Decision (few_commands s).
Proof. unfold few_commands. apply _. Defined.

(** Commands that succeed one after the other. *)
Fixpoint run_ops (ops : list map_op) (s : MapState) : option MapState :=
  match ops with
  | [] => Some s
  | op :: ops =>
      if bool_decide (enabled op s) && bool_decide (few_commands s) then
        match sample_run op s with Ok (CmdOk _, s) => run_ops ops s | _ => None end
      else None
  end.

Lemma run_ops_steps ops : forall s s', run_ops ops s = Some s' -> rtc sample_step s s'.
Proof.
  induction ops as [|op ops IH]; intros s s' H; cbn in H; [injection H as <-; apply rtc_refl|]. destruct (bool_decide (enabled op s)) eqn:He; [|done]. destruct (bool_decide (few_commands s)) eqn:Hf; [|done].
  apply bool_decide_eq_true_1 in He, Hf. cbn in H. destruct (sample_run op s) as [[[w| |] s1]| |] eqn:E; try done. eapply rtc_l; [|by apply IH]. eapply step_op; [done|done|exact E|]. by destruct op.
Qed.

(** A map with a node, a port of the node, a network and a link between them. *)
Definition sample_ops : list map_op :=
  [OpMap []; OpCreate 0 (cstr "node") []; OpCreate 0 (cstr "port") [cstr "-node"; cstr "node0"]; OpCreate 0 (cstr "network") [cstr "-name"; cstr "lan"];
   OpCreate 0 (cstr "link") [cstr "-src"; cstr "port0"; cstr "-dst"; cstr "network0"]].
Definition sample_map : MapState := default (no_maps (1, 0)) (run_ops sample_ops (no_maps (1, 0))).

Lemma sample_steps : rtc sample_step (no_maps (1, 0)) sample_map.
Proof.
  apply (run_ops_steps sample_ops). unfold sample_map. assert (H : is_Some (run_ops sample_ops (no_maps (1, 0)))) by (refine (bool_decide_eq_true_1 _ _); by vm_compute). destruct H as [s Hs]. by rewrite Hs.
Qed.



Lemma sample_good : good ∅ sample_map.
Proof. apply (w_good _ (proj1 (reachable_ready sample_int (fun _ _ => true) (fun v => Some [v]) (fun l => concat l) map_to_list (fun _ l => l) (fun _ s => (SCRIPT_OK, s)) (1, 0) sample_map sample_steps))). Qed.

(** The node goes with its port and the link; the network stays. *)
Lemma map_delete_item_witness : exists it s', ms_items sample_map !! 1%nat = Some it /\ Tcl_DeleteItem 1 sample_map = Ok s' /\ good ∅ s' /\ ms_items s' !! 1%nat = None /\ dom (ms_items s') = {[3%nat]}.
Proof.
  assert (H : is_Some (ms_items sample_map !! 1%nat)) by (refine (bool_decide_eq_true_1 _ _); by vm_compute). destruct H as [it Hit]. exists it.
  destruct (map_delete_item sample_map 1 it sample_good Hit) as (s' & Hs & G & Hgone & _). exists s'. split; [done|]. split; [done|]. split; [done|]. split; [apply Hgone, goes_self|].
  assert (Hd : match Tcl_DeleteItem 1 sample_map with Ok s => bool_decide (dom (ms_items s) = {[3%nat]}) | _ => false end = true) by (by vm_compute). rewrite Hs in Hd. by exact (bool_decide_eq_true_1 _ Hd).
Defined.

