(* ===== verification/NetMapFind.v ===== *)
(** The health of items over the ticks of a map, and searching and sorting items. *)

From stdpp Require Import gmap sorting.
From S2P Require Import Prelude Mem CStr Util UtilTheorems NetMapBase NetMapItem NetMapInv NetMapDelete NetMapEvent NetMap NetMapCmd NetMapConfig NetMapCreate NetMapWorld NetMapTheorems.
Local Open Scope Z_scope.

(** ** Rounding *)

(** Rounding a quotient up or down. *)
Definition round_step (n e : Z) : Z :=
  let q := n / 2 ^ e in
  let r := n - q * 2 ^ e in
  if bool_decide (2 ^ (e - 1) < r) || (bool_decide (r = 2 ^ (e - 1)) && Z.odd q) then q + 1 else q.

Lemma round53_step n : 0 <= n -> round53 n = if bool_decide (Z.log2 n - 52 <= 0) then n else round_step n (Z.log2 n - 52) * 2 ^ (Z.log2 n - 52).
Proof.
  intros Hn. unfold round53, round_step. case_bool_decide as He; [done|]. rewrite !Z.shiftr_div_pow2, !Z.shiftl_mul_pow2 by lia. by rewrite Z.mul_1_l.
Qed.

Lemma round_step_range n e : n / 2 ^ e <= round_step n e <= n / 2 ^ e + 1.
Proof. unfold round_step. destruct (_ || _); lia. Qed.

Lemma round_step_mono n m e : 0 < e -> 0 <= n <= m -> round_step n e <= round_step m e.
Proof.
  intros He Hnm. pose proof (round_step_range n e). pose proof (round_step_range m e). assert (Hq : n / 2 ^ e <= m / 2 ^ e) by (apply Z.div_le_mono; lia).
  destruct (decide (n / 2 ^ e = m / 2 ^ e)) as [Heq|Hne]; [|lia]. unfold round_step. rewrite Heq. set (q := m / 2 ^ e). set (h := 2 ^ (e - 1)).
  destruct (Z.odd q); repeat case_bool_decide; cbn; lia.
Qed.

Lemma round53_range n : 0 < n -> 2 ^ Z.log2 n <= round53 n <= 2 ^ (Z.log2 n + 1).
Proof.
  intros Hn. pose proof (Z.log2_spec n Hn) as Hl. rewrite <- Z.add_1_r in Hl. rewrite round53_step by lia. case_bool_decide as He; [lia|]. set (e := Z.log2 n - 52) in *.
  assert (H1 : 2 ^ Z.log2 n = 2 ^ 52 * 2 ^ e) by (rewrite <- Z.pow_add_r by lia; f_equal; lia). assert (H2 : 2 ^ (Z.log2 n + 1) = 2 ^ 53 * 2 ^ e) by (rewrite <- Z.pow_add_r by lia; f_equal; lia).
  assert (He0 : 0 < 2 ^ e) by (apply Z.pow_pos_nonneg; lia). pose proof (round_step_range n e). assert (2 ^ 52 <= n / 2 ^ e) by (apply Z.div_le_lower_bound; lia). assert (n / 2 ^ e < 2 ^ 53) by (apply Z.div_lt_upper_bound; lia). rewrite H1, H2. nia.
Qed.

Lemma round53_mono n m : 0 <= n <= m -> round53 n <= round53 m.
Proof.
  intros Hnm. destruct (decide (n = 0)) as [->|Hn0]; [destruct (decide (m = 0)) as [->|]; [done|]; pose proof (round53_range m ltac:(lia)); pose proof (Z.pow_pos_nonneg 2 (Z.log2 m) ltac:(lia) (Z.log2_nonneg m)); change (round53 0) with 0; lia|].
  destruct (decide (Z.log2 n = Z.log2 m)) as [He|Hne].
  - rewrite !round53_step, He by lia. case_bool_decide as Hl; [lia|]. apply Z.mul_le_mono_nonneg_r; [apply Z.pow_nonneg; lia|]. apply round_step_mono; lia.
  - pose proof (Z.log2_le_mono n m ltac:(lia)). pose proof (round53_range n ltac:(lia)). pose proof (round53_range m ltac:(lia)). assert (2 ^ (Z.log2 n + 1) <= 2 ^ Z.log2 m) by (apply Z.pow_le_mono_r; lia). lia.
Qed.

Lemma round53_nonneg n : 0 <= n -> 0 <= round53 n.
Proof. intros Hn. change 0 with (round53 0). apply round53_mono. lia. Qed.

(** ** Health *)

Lemma mix_mono s h s' h' : 0 <= s <= s' -> 0 <= h <= h' -> mix_health s h <= mix_health s' h'.
Proof.
  intros Hs Hh. unfold mix_health. rewrite !Z.shiftr_div_pow2 by lia. apply Z.div_le_mono; [lia|]. apply round53_mono.
  pose proof (round53_nonneg (double_0_6 * s) ltac:(unfold double_0_6; lia)). pose proof (round53_nonneg (double_0_4 * h) ltac:(unfold double_0_4; lia)).
  pose proof (round53_mono (double_0_6 * s) (double_0_6 * s') ltac:(unfold double_0_6; lia)). pose proof (round53_mono (double_0_4 * h) (double_0_4 * h') ltac:(unfold double_0_4; lia)). lia.
Qed.

Lemma mix_0 : mix_health 0 0 = 0.
Proof. reflexivity. Qed.
Lemma mix_top : mix_health 100000 100000 = 100000.
Proof. reflexivity. Qed.
Lemma mix_below : mix_health 100000 99999 = 99999.
Proof. reflexivity. Qed.

Lemma mix_range s h : 0 <= s <= 100000 -> 0 <= h <= 100000 -> 0 <= mix_health s h <= 100000 /\ (h < 100000 -> mix_health s h <= 99999).
Proof.
  intros Hs Hh. pose proof (mix_mono 0 0 s h ltac:(lia) ltac:(lia)). pose proof (mix_mono s h 100000 100000 ltac:(lia) ltac:(lia)). rewrite mix_0, mix_top in *. split; [lia|]. intros Hlt.
  pose proof (mix_mono s h 100000 99999 ltac:(lia) ltac:(lia)) as Hm. by rewrite mix_below in Hm.
Qed.

Lemma health_score_range min max : 0 <= health_score min max <= 100000.
Proof. unfold health_score. repeat case_bool_decide; lia. Qed.

(** Thirteen times the weighted mean with the best score. *)
Definition recover (n : nat) (h : Z) : Z := Nat.iter n (mix_health 100000) h.

Lemma recover_S n h : recover (S n) h = mix_health 100000 (recover n h).
Proof. done. Qed.

Lemma recover_range n h : 0 <= h <= 99999 -> recover n 0 <= recover n h <= 99999 /\ 0 <= recover n 0.
Proof.
  intros Hh. induction n as [|n IH]; [cbn; lia|]. rewrite !recover_S.
  pose proof (mix_mono 100000 (recover n 0) 100000 (recover n h) ltac:(lia) ltac:(lia)). destruct (mix_range 100000 (recover n h) ltac:(lia) ltac:(lia)) as [_ Hb]. destruct (mix_range 100000 (recover n 0) ltac:(lia) ltac:(lia)) as [Ha _]. split; [split; [lia|apply Hb; lia]|lia].
Qed.

Lemma recover_13 h : 0 <= h <= 99999 -> recover 13 h = 99999.
Proof. intros Hh. pose proof (recover_range 13 h Hh) as [[Hlo Hhi] _]. assert (H0 : recover 13 0 = 99999) by (by vm_compute). lia. Qed.

Lemma recover_stays n h : 0 <= h <= 99999 -> recover (13 + n) h = 99999.
Proof.
  intros Hh. induction n as [|n IH]; [by apply recover_13|]. rewrite Nat.add_succ_r, recover_S, IH. apply mix_below.
Qed.

(** ** Ticks without messages *)

Definition no_history (s : MapState) : Prop := ms_eventLists s = ∅ /\ ms_msgLists s = ∅.

Lemma owner_list_none o s : (match o with inl p => is_Some (ms_items s !! p) | inr m => is_Some (mem_heap (ms_maps s) !! m) end) -> owner_list ∅ o s = Ok [].
Proof.
  destruct o as [p|m]; intros [x Hx]; unfold owner_list, mbind, run_bind; [rewrite (get_item_Some _ _ _ Hx)|rewrite (get_map_Some _ _ _ Hx)]; by rewrite lookup_empty.
Qed.

Lemma expire_none o t s : no_history s -> (match o with inl p => is_Some (ms_items s !! p) | inr m => is_Some (mem_heap (ms_maps s) !! m) end) ->
  TnmMapExpireEvents 0 o t s = Ok s /\ TnmMapExpireMsgs o t s = Ok s.
Proof.
  intros [He Hm] Ho. split.
  - unfold TnmMapExpireEvents, mbind, run_bind. by rewrite He, (owner_list_none o s Ho).
  - unfold TnmMapExpireMsgs, mbind, run_bind. rewrite Hm, (owner_list_none o s Ho). cbn. unfold mbind, run_bind. by rewrite Hm, (owner_list_none o s Ho).
Qed.

Definition heal1 (p : nat) : MapState -> MapState := update_item (fun it => set_it_health (mix_health 100000 (it_health it)) it) p.
Definition heal (l : list nat) (s : MapState) : MapState := foldl (fun s p => heal1 p s) s l.

Lemma tick_items_none now timeout l : forall s, no_history s -> Forall (fun p => is_Some (ms_items s !! p)) l -> tick_items l now timeout s = Ok (heal l s).
Proof.
  induction l as [|p l IH]; intros s Hh Hl; [done|]. apply Forall_cons in Hl as [[it Hp] Hl]. cbn [tick_items]. unfold mbind, run_bind. destruct Hh as [He Hm].
  assert (Hex : forall it', is_Some (ms_items (update_item it' p s) !! p)) by (intros f; cbn; rewrite lookup_alter_eq, Hp; by eexists).
  rewrite Hm, (owner_list_none (inl p) s) by eauto. cbn [health_range]. change (health_score 0 0) with 100000. fold (heal1 p s).
  assert (Hp' : ms_items (heal1 p s) !! p = Some (set_it_health (mix_health 100000 (it_health it)) it)) by (cbn; by rewrite lookup_alter_eq, Hp). rewrite (get_item_Some _ _ _ Hp').
  assert (Hl' : Forall (fun q => is_Some (ms_items (heal1 p s) !! q)) l).
  { eapply Forall_impl; [exact Hl|]. intros q [qi Hq]. cbn. destruct (decide (q = p)) as [->|Hne]; [rewrite lookup_alter_eq, Hq; by eexists|rewrite lookup_alter_ne by done; eauto]. }
  assert (Hh : no_history (heal1 p s)) by done. case_bool_decide as Hx; [|by apply IH]. change (ms_eventLists (heal1 p s)) with (ms_eventLists s). rewrite He, (owner_list_none (inl p) (heal1 p s)) by eauto. cbn [length].
  destruct (expire_none (inl p) (s32 (now - it_expire (set_it_health (mix_health 100000 (it_health it)) it))) (heal1 p s) Hh) as [-> ->]; [eauto|]. by apply IH.
Qed.

Lemma heal_spec l : forall s, NoDup l -> ms_maps (heal l s) = ms_maps s /\ no_history (heal l s) = no_history s /\
  forall k, ms_items (heal l s) !! k = (fun it => if decide (k ∈ l) then set_it_health (mix_health 100000 (it_health it)) it else it) <$> ms_items s !! k.
Proof.
  induction l as [|p l IH]; intros s Hnd; [split; [done|]; split; [done|]; intros k; cbn; by destruct (ms_items s !! k)|]. apply NoDup_cons in Hnd as [Hp Hnd].
  change (heal (p :: l) s) with (heal l (heal1 p s)). destruct (IH (heal1 p s) Hnd) as (-> & -> & Hk). split; [done|]. split; [done|]. intros k. rewrite Hk. cbn. destruct (decide (k = p)) as [->|Hne].
  - rewrite lookup_alter_eq. destruct (ms_items s !! p); [|done]. cbn. rewrite decide_False by done. by rewrite decide_True by (by left).
  - rewrite lookup_alter_ne by done. destruct (ms_items s !! k); [|done]. cbn. f_equal. destruct (decide (k ∈ l)); [rewrite decide_True by (by right)|rewrite decide_False by set_solver]; done.
Qed.

(** Several ticks of a map. *)
Definition ticks (n : nat) (m : nat) (s : MapState) : run_result MapState := Nat.iter n (fun r => r ≫= TickProc m) (Ok s).

Lemma tick_none m mp s : no_history s -> mem_heap (ms_maps s) !! m = Some mp -> NoDup (mp_itemList mp) -> (forall p, p ∈ mp_itemList mp -> is_Some (ms_items s !! p)) ->
  exists s' mp', TickProc m s = Ok s' /\ no_history s' /\ mem_heap (ms_maps s') !! m = Some mp' /\ mp_itemList mp' = mp_itemList mp /\ ms_items s' = ms_items (heal (mp_itemList mp) s).
Proof.
  intros Hh Hm Hnd Hl. unfold TickProc, mbind, run_bind. rewrite (get_map_Some _ _ _ Hm), tick_items_none by (done || by apply Forall_forall). destruct (heal_spec (mp_itemList mp) s Hnd) as (Hmaps & Hhist & _).
  set (s1 := heal (mp_itemList mp) s) in *. assert (Hm1 : mem_heap (ms_maps s1) !! m = Some mp) by (by rewrite Hmaps). assert (Hh1 : no_history s1) by (by rewrite Hhist). rewrite (get_map_Some _ _ _ Hm1).
  set (f := fun x : TnmMap => set_mp_lastTick (ms_clock s1) (set_mp_timer (Some (mp_interval x)) x)).
  assert (He : (if bool_decide (mp_expire mp <> 0) then match owner_list (ms_eventLists s1) (inr m) s1 with Ok events =>
      match TnmMapExpireEvents (length events) (inr m) (s32 ((ms_clock s).1 - mp_expire mp)) s1 with Ok s2 => TnmMapExpireMsgs (inr m) (s32 ((ms_clock s).1 - mp_expire mp)) s2 | UseAfterFree => UseAfterFree | NoFuel => NoFuel end
      | UseAfterFree => UseAfterFree | NoFuel => NoFuel end else Ok s1) = Ok s1).
  { case_bool_decide; [|done]. pose proof Hh1 as [He _]. rewrite He, (owner_list_none (inr m) s1) by eauto. cbn [length]. destruct (expire_none (inr m) (s32 ((ms_clock s).1 - mp_expire mp)) s1 Hh1) as [-> ->]; [eauto|done]. }
  rewrite He. exists (update_map f m s1), (f mp). split; [done|]. split; [done|]. split; [cbn; by rewrite lookup_alter_eq, Hm1|done].
Qed.

Lemma ticks_none n m mp s : no_history s -> mem_heap (ms_maps s) !! m = Some mp -> NoDup (mp_itemList mp) -> (forall p, p ∈ mp_itemList mp -> is_Some (ms_items s !! p)) ->
  exists s' mp', ticks n m s = Ok s' /\ no_history s' /\ mem_heap (ms_maps s') !! m = Some mp' /\ mp_itemList mp' = mp_itemList mp /\
    forall k, ms_items s' !! k = (fun it => if decide (k ∈ mp_itemList mp) then set_it_health (recover n (it_health it)) it else it) <$> ms_items s !! k.
Proof.
  intros Hh Hm Hnd Hl. induction n as [|n (s1 & mp1 & Hr & Hh1 & Hm1 & Hl1 & Hk)].
  - exists s, mp. split; [done|]. split; [done|]. split; [done|]. split; [done|]. intros k. destruct (ms_items s !! k) as [it|]; [|done]. cbn. f_equal. case_decide; [|done]. by destruct it.
  - destruct (tick_none m mp1 s1 Hh1 Hm1) as (s2 & mp2 & Ht & Hh2 & Hm2 & Hl2 & Hi); [by rewrite Hl1|intros p Hp; rewrite Hl1 in Hp; rewrite Hk; destruct (Hl p Hp) as [it ->]; by eexists|].
    exists s2, mp2. split; [change (ticks (S n) m s) with (ticks n m s ≫= TickProc m); by rewrite Hr|]. split; [done|]. split; [done|]. split; [congruence|]. intros k. rewrite Hi, Hl1. destruct (heal_spec (mp_itemList mp) s1 Hnd) as (_ & _ & ->). rewrite Hk.
    destruct (ms_items s !! k) as [it|]; [|done]. cbn. f_equal. by case_decide.
Qed.

(** C18: The health of an item stays between 0 and 100000 whatever the messages of the last
    interval say, and an item whose health is below 100000 never gets there again, because
    the weighted mean is cut to an integer.  Without messages and events all items of a map
    recover: after thirteen ticks their health is 99999, wherever it was below 100000, and it
    stays there. *)
Theorem map_health : (forall min max h, 0 <= h <= 100000 -> 0 <= mix_health (health_score min max) h <= 100000 /\ (h < 100000 -> mix_health (health_score min max) h < 100000)) /\
  forall s m n, good ∅ s -> is_Some (mem_heap (ms_maps s) !! m) -> no_history s -> (forall p it, p ∈ map_list s m -> ms_items s !! p = Some it -> 0 <= it_health it < 100000) ->
    exists s', ticks (13 + n) m s = Ok s' /\ forall p it, p ∈ map_list s m -> ms_items s !! p = Some it -> ms_items s' !! p = Some (set_it_health 99999 it).
Proof.
  split.
  - intros min max h Hh. pose proof (health_score_range min max) as Hs. destruct (mix_range (health_score min max) h Hs Hh) as [Hr Hb]. split; [done|]. intros Hlt%Hb. lia.
  - intros s m n G [mp Hm] Hh Hhealth. destruct (inv_list _ _ (good_inv _ _ G) _ _ Hm) as (Hnd & _ & Hall).
    destruct (ticks_none (13 + n) m mp s Hh Hm Hnd) as (s' & mp' & Ht & _ & _ & _ & Hk); [intros p (it & Hp & _)%Hall; eauto|]. exists s'. split; [done|]. intros p it Hin Hp. specialize (Hhealth p it Hin Hp).
    unfold map_list in Hin. rewrite Hm in Hin. rewrite Hk, Hp. cbn [fmap option_fmap option_map]. rewrite decide_True by done. do 2 f_equal. apply recover_stays. lia.
Qed.

(** ** The order of items *)

Lemma strcmp_sym a b : strcmp b a = - strcmp a b.
Proof. revert b. induction a as [|x a IH]; intros [|y b]; try done. cbn. rewrite (IH b). repeat case_bool_decide; lia. Qed.

Lemma strcmp_range a b : -1 <= strcmp a b <= 1.
Proof. revert b. induction a as [|x a IH]; intros [|y b]; cbn; try lia. specialize (IH b). repeat case_bool_decide; lia. Qed.

Lemma strcmp_trans a b c : strcmp a b <= 0 -> strcmp b c <= 0 -> strcmp a c <= 0.
Proof.
  revert b c. induction a as [|x a IH]; intros [|y b] [|z c]; cbn; try lia. specialize (IH b c). repeat case_bool_decide; lia.
Qed.

(** A comparison that [qsort] can use for the elements it gets. *)
Record comparison {A} (P : A -> Prop) (cmp : A -> A -> Z) : Prop := {
  cmp_flip : forall a b, P a -> P b -> cmp a b < 0 <-> 0 < cmp b a;
  cmp_trans : forall a b c, P a -> P b -> P c -> cmp a b <= 0 -> cmp b c <= 0 -> cmp a c <= 0
}.

Definition sort_key (mode : Z) (it : TnmMapItem) : Z :=
  let t := if bool_decide (Z.land mode 0xFF = TNM_SORT_MTIME) then (it_mtime it).1 else if bool_decide (Z.land mode 0xFF = TNM_SORT_CTIME) then (it_ctime it).1 else 0 in
  if bool_decide (Z.land mode TNM_SORT_DECR <> 0) then - t else t.

(** Items are compared by a time, or not at all, and then by their names. *)
Lemma SortProc_key mode a b : SortProc mode a b =
  if bool_decide (sort_key mode a < sort_key mode b) then -1 else if bool_decide (sort_key mode b < sort_key mode a) then 1 else strcmp (it_name a) (it_name b).
Proof.
  unfold SortProc, sort_key. destruct (bool_decide (Z.land mode 0xFF = TNM_SORT_MTIME)); [|destruct (bool_decide (Z.land mode 0xFF = TNM_SORT_CTIME))]; destruct (bool_decide (Z.land mode TNM_SORT_DECR <> 0)); repeat case_bool_decide; first [done|lia].
Qed.

Lemma SortProc_comparison mode : comparison (fun _ => True) (SortProc mode).
Proof.
  assert (Hflip : forall a b, SortProc mode b a = - SortProc mode a b) by (intros a b; rewrite !SortProc_key, (strcmp_sym (it_name a)); repeat case_bool_decide; lia).
  split.
  - intros a b _ _. rewrite (Hflip a b). lia.
  - intros a b c _ _ _. rewrite !SortProc_key. pose proof (strcmp_trans (it_name a) (it_name b) (it_name c)). repeat case_bool_decide; lia.
Qed.

(** [qsort] of the library: it permutes, and sorts when the comparison is one. *)
Definition qsort_law (qsort : (nat -> nat -> Z) -> list nat -> list nat) : Prop :=
  forall cmp l, qsort cmp l ≡ₚ l /\ (comparison (fun p => p ∈ l) cmp -> StronglySorted (fun a b => cmp a b <= 0) (qsort cmp l)).

Section find.
Variable Tcl_StringMatch : cstring -> cstring -> bool.
Variable list_of : cstring -> option (list cstring).
Variable qsort : (nat -> nat -> Z) -> list nat -> list nat.

Definition found_item (s : MapState) (a : find_args) (p : nat) : Prop := match ms_items s !! p with Some it => find_match Tcl_StringMatch list_of a it = Some true | None => False end.
#[local] Instance found_dec s a p : Decision (found_item s a p).
Proof. unfold found_item. destruct (ms_items s !! p) as [it|]; apply _. Defined.

Lemma find_scan_ok s a l : forall acc, (forall p, p ∈ l -> exists it b, ms_items s !! p = Some it /\ find_match Tcl_StringMatch list_of a it = Some b) ->
  find_scan Tcl_StringMatch list_of s a l acc = Ok (Some (acc ++ filter (found_item s a) l)).
Proof.
  induction l as [|p l IH]; intros acc H; [cbn; by rewrite app_nil_r|]. destruct (H p) as (it & b & Hp & Hb); [by left|]. cbn [find_scan]. unfold mbind, run_bind. rewrite (get_item_Some _ _ _ Hp), Hb, filter_cons.
  assert (Hl : forall q, q ∈ l -> exists it b, ms_items s !! q = Some it /\ find_match Tcl_StringMatch list_of a it = Some b) by (intros q Hq; apply H; by right).
  assert (Hf : found_item s a p <-> b = true) by (unfold found_item; rewrite Hp, Hb; split; congruence). destruct b.
  - rewrite decide_True by tauto. rewrite IH by done. by rewrite <- app_assoc.
  - rewrite decide_False by (intros Hx; by apply Hf in Hx). by apply IH.
Qed.

(** Where both are items of the state, [sort_items] compares them with [SortProc]. *)
Definition item_cmp (s : MapState) (mode : Z) (p q : nat) : Z := match ms_items s !! p, ms_items s !! q with Some a, Some b => SortProc mode a b | _, _ => 0 end.

Lemma item_cmp_comparison s mode (l : list nat) : (forall p, p ∈ l -> is_Some (ms_items s !! p)) -> comparison (fun p => p ∈ l) (item_cmp s mode).
Proof.
  intros Hl. destruct (SortProc_comparison mode) as [H1 H2]. split.
  - intros p q Hp%Hl Hq%Hl. destruct Hp as [a Ha], Hq as [b Hb]. unfold item_cmp. rewrite Ha, Hb. by apply H1.
  - intros p q r Hp%Hl Hq%Hl Hr%Hl. destruct Hp as [a Ha], Hq as [b Hb], Hr as [c Hc]. unfold item_cmp. rewrite Ha, Hb, Hc. by apply H2.
Qed.

End find.

(** ** Samples *)

(** Insertion sort is such a [qsort]. *)
Fixpoint insert_sorted (cmp : nat -> nat -> Z) (x : nat) (l : list nat) : list nat :=
  match l with
  | [] => [x]
  | y :: l => if bool_decide (cmp x y <= 0) then x :: y :: l else y :: insert_sorted cmp x l
  end.
Definition insertion_sort (cmp : nat -> nat -> Z) (l : list nat) : list nat := foldr (insert_sorted cmp) [] l.

Lemma insert_sorted_perm cmp x l : insert_sorted cmp x l ≡ₚ x :: l.
Proof. induction l as [|y l IH]; [done|]. cbn. case_bool_decide; [done|]. rewrite IH. apply Permutation_swap. Qed.
Lemma insertion_sort_perm cmp l : insertion_sort cmp l ≡ₚ l.
Proof. induction l as [|x l IH]; [done|]. cbn. rewrite insert_sorted_perm. by rewrite IH. Qed.

Lemma insert_sorted_ok (P : nat -> Prop) cmp x l : comparison P cmp -> P x -> Forall P l -> StronglySorted (fun a b => cmp a b <= 0) l -> StronglySorted (fun a b => cmp a b <= 0) (insert_sorted cmp x l).
Proof.
  intros [Hflip Htrans] Hx Hl. induction 1 as [|y l Hs IH Hy]; [repeat constructor|]. apply Forall_cons in Hl as [Py Pl]. cbn. case_bool_decide as Hc.
  - constructor; [by constructor|]. constructor; [done|]. apply Forall_forall. intros z Hz. rewrite Forall_forall in Hy, Pl. apply (Htrans x y z); auto.
  - constructor; [by apply IH|]. rewrite insert_sorted_perm. constructor; [|done]. pose proof (Hflip y x Py Hx). lia.
Qed.

Lemma insertion_sort_law : qsort_law insertion_sort.
Proof.
  intros cmp l. split; [apply insertion_sort_perm|]. intros C. assert (Hl : Forall (fun p => p ∈ l) l) by (by apply Forall_forall). revert Hl. generalize (fun p => p ∈ l) C. clear C. intros P C.
  induction l as [|x l IH]; intros Hl; [constructor|]. apply Forall_cons in Hl as [Hx Hl]. change (insertion_sort cmp (x :: l)) with (insert_sorted cmp x (insertion_sort cmp l)). apply (insert_sorted_ok P); [done|done| |by apply IH]. by rewrite insertion_sort_perm.
Qed.


(** The sample after something went wrong. *)
Definition sample_ill : MapState := set_ms_items (set_it_health 70000 <$> ms_items sample_map) sample_map.

Lemma sample_ill_good : good ∅ sample_ill.
Proof.
  apply same_good; [|apply sample_good]. apply map_eq. intros k. rewrite !lookup_fmap. destruct (ms_items sample_map !! k); reflexivity.
Qed.

Lemma map_health_witness : 0 <= mix_health (health_score (-5000) 20000) 70000 <= 100000 /\ exists s', ticks 13 0 sample_ill = Ok s'.
Proof.
  split; [apply (proj1 map_health (-5000) 20000 70000); lia|]. destruct (proj2 map_health sample_ill 0%nat 0%nat sample_ill_good) as (s' & Hs & _).
  - refine (bool_decide_eq_true_1 _ _). by vm_compute.
  - split; by vm_compute.
  - intros p it _ Hp. apply (lookup_fmap_Some (set_it_health 70000)) in Hp as (x & <- & _). cbn. lia.
  - exists s'. exact Hs.
Defined.
