(* ===== verification/MibLexer.v ===== *)
(** The lexical analysis of MIB files, [ReadKeyword] of [tnmMibParser.c].

    The state is the rest of the file and [lastchar], the character that ended the last
    keyword.  The number of the line is used in messages only and left out. *)

From S2P Require Import Prelude Ber CStr Mib.
Local Open Scope Z_scope.

(** ** Tokens *)

Definition SYMBOL_MAXLEN : nat := 128.
Definition EOF : Z := -1.

Definition ERROR : Z := (-2).
Definition DEFINITIONS : Z := 51.
Definition EQUALS : Z := 52.
Definition BEGIN : Z := 53.
Definition IMPORTS : Z := 54.
Definition EXPORTS : Z := 55.
Definition END : Z := 57.
Definition LABEL : Z := 59.
Definition CONTINUE : Z := 60.
Definition SYNTAX : Z := 70.
Definition LEFTBRACKET : Z := 80.
Definition RIGHTBRACKET : Z := 81.
Definition LEFTPAREN : Z := 82.
Definition RIGHTPAREN : Z := 83.
Definition COMMA : Z := 84.
Definition SEMICOLON : Z := 85.
Definition UPTO : Z := 86.
Definition OR : Z := 87.
Definition ACCESS : Z := 90.
Definition READONLY : Z := 91.
Definition READWRITE : Z := 92.
Definition READCREATE : Z := 93.
Definition WRITEONLY : Z := 94.
Definition FORNOTIFY : Z := 95.
Definition NOACCESS : Z := 96.
Definition STATUS : Z := 100.
Definition MANDATORY : Z := 101.
Definition OPTIONAL : Z := 102.
Definition OBSOLETE : Z := 103.
Definition CURRENT : Z := 104.
Definition DEPRECATED : Z := 105.
Definition OBJGROUP : Z := 110.
Definition OBJECTS : Z := 111.
Definition OBJECTIDENTITY : Z := 112.
Definition MODULECOMP : Z := 120.
Definition REFERENCE : Z := 121.
Definition MODULEIDENTITY : Z := 130.
Definition LASTUPDATED : Z := 153.
Definition ORGANIZATION : Z := 154.
Definition CONTACTINFO : Z := 155.
Definition NOTIFYTYPE : Z := 156.
Definition NOTIFYGROUP : Z := 157.
Definition NOTIFICATIONS : Z := 188.
Definition TRAPTYPE : Z := 158.
Definition CAPABILITIES : Z := 159.
Definition FROM : Z := 159.
Definition TEXTUALCONV : Z := 160.
Definition DISPLAYHINT : Z := 161.
Definition ENTERPRISE : Z := 162.
Definition VARIABLES : Z := 163.
Definition OBJTYPE : Z := 186.
Definition NUMBER : Z := 129.
Definition DESCRIPTION : Z := 135.
Definition QUOTESTRING : Z := 136.
Definition INDEX : Z := 137.
Definition DEFVAL : Z := 138.
Definition IMPLIED : Z := 139.
Definition SIZE : Z := 140.
Definition BINVALUE : Z := 141.
Definition HEXVALUE : Z := 142.
Definition QUOTEVALUE : Z := 143.
Definition AUGMENTS : Z := 146.
Definition UNITS : Z := 149.
Definition NUM_ENTRIES : Z := 151.
Definition SIGNEDNUMBER : Z := 152.

(** ** Keywords *)

Record Keyword := mkKeyword { kw_name : cstring; kw_key : Z; kw_hash : Z }.
Definition kw (name : string) (key : Z) : Keyword := mkKeyword (cstr name) key 0.

Definition keywords : list Keyword :=
  [kw "DEFINITIONS" DEFINITIONS; kw "BEGIN" BEGIN; kw "END" END; kw "IMPORTS" IMPORTS;
   kw "FROM" FROM; kw "EXPORTS" EXPORTS; kw "::=" EQUALS; kw "{" LEFTBRACKET;
   kw "}" RIGHTBRACKET; kw "(" LEFTPAREN; kw ")" RIGHTPAREN; kw "," COMMA;
   kw ";" SEMICOLON; kw "." CONTINUE; kw ".." UPTO; kw "|" OR;
   kw "SYNTAX" SYNTAX; kw "INTEGER" ASN1_INTEGER; kw "OCTETSTRING" ASN1_OCTET_STRING; kw "OCTET" CONTINUE;
   kw "OBJECTIDENTIFIER" ASN1_OBJECT_IDENTIFIER; kw "OBJECT" CONTINUE; kw "BITS" ASN1_OCTET_STRING; kw "NULL" ASN1_NULL;
   kw "SEQUENCE" ASN1_SEQUENCE; kw "OF" ASN1_SEQUENCE_OF; kw "Integer32" ASN1_INTEGER; kw "IpAddress" ASN1_IPADDRESS;
   kw "NetworkAddress" ASN1_IPADDRESS; kw "Counter" ASN1_COUNTER32; kw "Counter32" ASN1_COUNTER32; kw "Gauge" ASN1_GAUGE32;
   kw "Gauge32" ASN1_GAUGE32; kw "TimeTicks" ASN1_TIMETICKS; kw "Opaque" ASN1_OPAQUE; kw "Counter64" ASN1_COUNTER64;
   kw "Unsigned32" ASN1_GAUGE32; kw "ACCESS" ACCESS; kw "read-only" READONLY; kw "read-write" READWRITE;
   kw "read-create" READCREATE; kw "write-only" WRITEONLY; kw "accessible-for-notify" FORNOTIFY; kw "not-accessible" NOACCESS;
   kw "STATUS" STATUS; kw "mandatory" MANDATORY; kw "optional" OPTIONAL; kw "obsolete" OBSOLETE;
   kw "current" CURRENT; kw "deprecated" DEPRECATED; kw "DESCRIPTION" DESCRIPTION; kw "OBJECT-GROUP" OBJGROUP;
   kw "OBJECTS" OBJECTS; kw "OBJECT-TYPE" OBJTYPE; kw "OBJECT-IDENTITY" OBJECTIDENTITY; kw "MODULE-COMPLIANCE" MODULECOMP;
   kw "REFERENCE" REFERENCE; kw "MODULE-IDENTITY" MODULEIDENTITY; kw "LAST-UPDATED" LASTUPDATED; kw "ORGANIZATION" ORGANIZATION;
   kw "CONTACT-INFO" CONTACTINFO; kw "NOTIFICATION-TYPE" NOTIFYTYPE; kw "NOTIFICATION-GROUP" NOTIFYGROUP; kw "NOTIFICATIONS" NOTIFICATIONS;
   kw "TRAP-TYPE" TRAPTYPE; kw "AGENT-CAPABILITIES" CAPABILITIES; kw "TEXTUAL-CONVENTION" TEXTUALCONV; kw "DISPLAY-HINT" DISPLAYHINT;
   kw "ENTERPRISE" ENTERPRISE; kw "VARIABLES" VARIABLES; kw "AUGMENTS" AUGMENTS; kw "UNITS" UNITS;
   kw "NUM-ENTRIES" NUM_ENTRIES; kw "INDEX" INDEX; kw "IMPLIED" IMPLIED; kw "DEFVAL" DEFVAL;
   kw "SIZE" SIZE; kw "MAX-ACCESS" ACCESS].

Definition HASHTAB_SIZE : nat := 17.
Definition HASH (x : Z) : nat := Z.to_nat (x mod Z.of_nat HASHTAB_SIZE).

Definition hash_name (name : cstring) : Z := fold_left Z.add name 0.

(** Every keyword becomes the first one of its chain. *)
Definition HashKeywords : list (list Keyword) :=
  fold_left (fun tab tp => let hash := hash_name (kw_name tp) in
                           alter (cons (mkKeyword (kw_name tp) (kw_key tp) hash)) (HASH hash) tab)
    keywords (replicate HASHTAB_SIZE []).

(** [for (tp = hashtab[HASH(hash_val)]; tp != NULL; tp = tp->nextPtr)]; the table is built
    once. *)
Definition hashtab : list (list Keyword) := Eval vm_compute in HashKeywords.
Definition find_keyword (hash_val : Z) (keyword : cstring) : option Keyword :=
  snd <$> list_find (fun tp => kw_hash tp = hash_val /\ kw_name tp = keyword) (default [] (hashtab !! HASH hash_val)).

(** ** The buffer *)

(** [*cp++ = c]: the characters of the buffer in front of [cp]. *)
Definition put (buf : cstring) (c : Z) : mib_out cstring :=
  if decide (length buf < SYMBOL_MAXLEN)%nat then mret (buf ++ [c]) else MibFault MibOverrun.

(** The string in front of the first NUL. *)
Fixpoint c_string (buf : cstring) : cstring :=
  match buf with [] => [] | c :: buf => if bool_decide (c = 0) then [] else c :: c_string buf end.

(** [*cp = 0]: the string in the buffer. *)
Definition terminate (buf : cstring) : mib_out cstring :=
  if decide (length buf < SYMBOL_MAXLEN)%nat then mret (c_string buf) else MibFault MibOverrun.

(** ** Reading *)

Record lexer := mkLexer { lx_file : cstring; lx_lastchar : Z }.

(** The syntax, the keyword, and the state behind it.  At the end of the file the keyword
    is what was written to the buffer, without what may be behind it. *)
Definition token : Type := Z * cstring * lexer.

Definition chr_blank : Z := 32.
Definition is_special (ch : Z) : bool := bool_decide (ch ∈ cstr "(){},;.|").

(** A word that is no keyword. *)
Definition word_syntax (keyword : cstring) : Z :=
  let is_sign c := bool_decide (c = 45) || bool_decide (c = 43) in
  match keyword with
  | [] => NUMBER
  | c :: digits =>
      if (is_sign c || isdigit c) && forallb isdigit digits then (if is_sign c then SIGNEDNUMBER else NUMBER) else LABEL
  end.

(** The loop that reads a word, at the character [ch]. *)
Fixpoint read_word (file : cstring) (ch lastchar : Z) (buf : cstring) (hash_val : Z) : mib_out token :=
  if isspace ch || is_special ch then
    if bool_decide (ch = 46) && bool_decide (lastchar = 46) then
      buf ← put buf lastchar;
      buf ← put buf ch;
      keyword ← terminate buf;
      mret (UPTO, keyword, mkLexer (drop 1 file) chr_blank)
    else
      '(buf, hash_val, lastchar) ←
        (if negb (isspace ch) && bool_decide (c_string buf = []) then buf ← put buf ch; mret (buf, hash_val + ch, chr_blank)
         else mret (buf, hash_val, if bool_decide (ch = 10) then chr_blank else ch));
      keyword ← terminate buf;
      match find_keyword hash_val keyword with
      | Some tp =>
          if bool_decide (kw_key tp = CONTINUE) then
            match file with
            | [] => mret (EOF, buf, mkLexer [] ch)
            | ch' :: file => read_word file ch' ch buf hash_val
            end
          else mret (kw_key tp, keyword, mkLexer file lastchar)
      | None => mret (word_syntax keyword, keyword, mkLexer file lastchar)
      end
  else
    buf ← put buf ch;
    match file with
    | [] => mret (EOF, buf, mkLexer [] lastchar)
    | ch' :: file => read_word file ch' lastchar buf (hash_val + ch)
    end.

(** The loop behind the first quote; [file] is behind the quote. *)
Fixpoint read_quoted (file : cstring) (quoteChar lastchar : Z) (buf : cstring) : token :=
  match file with
  | [] => (EOF, buf, mkLexer [] lastchar)
  | ch :: file =>
      if bool_decide (ch = 10) then read_quoted file quoteChar lastchar buf
      else if bool_decide (ch = quoteChar) then
        if bool_decide (quoteChar = 34) then (QUOTESTRING, c_string buf, mkLexer file chr_blank)
        else
          match file with
          | c :: file' =>
              if bool_decide (c = 66) || bool_decide (c = 98) then (BINVALUE, c_string buf, mkLexer file' chr_blank)
              else if bool_decide (c = 72) || bool_decide (c = 104) then (HEXVALUE, c_string buf, mkLexer file' chr_blank)
              else (QUOTEVALUE, c_string buf, mkLexer file chr_blank)
          | [] => (QUOTEVALUE, c_string buf, mkLexer file chr_blank)
          end
      else read_quoted file quoteChar lastchar (if bool_decide (length buf < SYMBOL_MAXLEN - 2)%nat then buf ++ [ch] else buf)
  end.

(** The file behind the end of a comment. *)
Fixpoint skip_comment (file : cstring) : option cstring :=
  match file with
  | [] => None
  | ch :: file => if bool_decide (ch = 10) then Some file else skip_comment file
  end.

(** [fuel] bounds the number of comments in front of the keyword. *)
Fixpoint read_keyword (fuel : nat) (lx : lexer) : mib_out token :=
  match skip_space (lx_lastchar lx :: lx_file lx) with
  | [] => mret (EOF, [], mkLexer [] (lx_lastchar lx))
  | ch :: file =>
      if bool_decide (ch = 34) || bool_decide (ch = 39) || bool_decide (ch = 0) then mret (read_quoted file ch (lx_lastchar lx) [])
      else if bool_decide (ch = 45) then
        match file with
        | [] => mret (EOF, [ch], mkLexer [] (lx_lastchar lx))
        | ch' :: file =>
            if bool_decide (ch' = 45) then
              match skip_comment file with
              | None => mret (EOF, [], mkLexer [] (lx_lastchar lx))
              | Some file =>
                  match fuel with
                  | O => MibFault MibLoops
                  | S fuel => read_keyword fuel (mkLexer file chr_blank)
                  end
              end
            else read_word file ch' (lx_lastchar lx) [ch] ch
        end
      else read_word file ch (lx_lastchar lx) [] 0
  end.
Definition ReadKeyword (lx : lexer) : mib_out token := read_keyword (length (lx_file lx)) lx.
