(* ===== verification/MibParser.v ===== *)
(** The parser of MIB files, [tnmMibParser.c], as it is called by [TnmMibLoadFile]: without
    a frozen file.

    A procedure of the parser is a function on the state [parser] in a monad with faults:
    the globals of the MIB, the file and the list of new nodes.  Types are shared by nodes
    and changed in place, so they live in memory ([gl_types]); address 0 is the static
    [snmpType] of [TnmMibFindType], whose name is kept as the string its pointer pointed to.
    Messages on [stderr] are left out. *)

From stdpp Require Import gmap fin_maps.
From S2P Require Import Prelude Ber CStr Oid Util Obj Snmp Mib MibTree MibNames MibLexer.
Local Open Scope Z_scope.
Local Open Scope cint_scope.

(** ** State *)

(** The static variables that are kept from file to file: the nodes with the tree and
    [tnmMibFileName]; the memory, the table and the list of the types; the field [typePtr]
    of the nodes; [tnmMibModuleName]; [lastchar]. *)
Record mib_globals := mkGlobals {
  gl_mib : mib_state;
  gl_types : gmap nat TnmMibType;
  gl_hash : option (gmap cstring nat);
  gl_list : list nat;
  gl_typePtr : gmap nat nat;
  gl_moduleName : option cstring;
  gl_lastchar : Z
}.

(** The nodes and the types with the pointers to types replaced by the types. *)
Definition node_type (t : option TnmMibType) (n : TnmMibNode) : TnmMibNode :=
  mkNode (nd_subid n) (nd_label n) (nd_parentName n) (nd_moduleName n) (nd_fileName n) (nd_fileOffset n) (nd_syntax n)
    (nd_access n) (nd_macro n) (nd_status n) (nd_implied n) (nd_augment n) (nd_index n) t (nd_parentPtr n) (nd_childPtr n) (nd_nextPtr n).
Definition mib_of (g : mib_globals) : mib_state :=
  with_nodes (map_imap (fun p n => Some (node_type (a ← gl_typePtr g !! p; gl_types g !! a) n))) (gl_mib g).
Definition types_of (g : mib_globals) : type_state :=
  mkTypes (match gl_hash g with Some table => Some (omap (M := gmap cstring) (fun a => gl_types g !! a) table) | None => None end)
    (omap (M := list) (fun a => gl_types g !! a) (gl_list g)).

Record parser := mkParser { ps_glob : mib_globals; ps_file : cstring; ps_size : nat; ps_nodeList : option nat }.

Definition with_mib (f : mib_state -> mib_state) (g : mib_globals) : mib_globals :=
  mkGlobals (f (gl_mib g)) (gl_types g) (gl_hash g) (gl_list g) (gl_typePtr g) (gl_moduleName g) (gl_lastchar g).
Definition with_types (f : gmap nat TnmMibType -> gmap nat TnmMibType) (g : mib_globals) : mib_globals :=
  mkGlobals (gl_mib g) (f (gl_types g)) (gl_hash g) (gl_list g) (gl_typePtr g) (gl_moduleName g) (gl_lastchar g).
Definition with_known (hash : option (gmap cstring nat)) (l : list nat) (g : mib_globals) : mib_globals :=
  mkGlobals (gl_mib g) (gl_types g) hash l (gl_typePtr g) (gl_moduleName g) (gl_lastchar g).
Definition with_typePtr (f : gmap nat nat -> gmap nat nat) (g : mib_globals) : mib_globals :=
  mkGlobals (gl_mib g) (gl_types g) (gl_hash g) (gl_list g) (f (gl_typePtr g)) (gl_moduleName g) (gl_lastchar g).
Definition with_module (name : option cstring) (g : mib_globals) : mib_globals :=
  mkGlobals (gl_mib g) (gl_types g) (gl_hash g) (gl_list g) (gl_typePtr g) name (gl_lastchar g).
Definition with_lastchar (c : Z) (g : mib_globals) : mib_globals :=
  mkGlobals (gl_mib g) (gl_types g) (gl_hash g) (gl_list g) (gl_typePtr g) (gl_moduleName g) c.
Definition with_glob (f : mib_globals -> mib_globals) (s : parser) : parser := mkParser (f (ps_glob s)) (ps_file s) (ps_size s) (ps_nodeList s).
Definition with_nodeList (p : option nat) (s : parser) : parser := mkParser (ps_glob s) (ps_file s) (ps_size s) p.

(** ** The monad *)

Definition parse (A : Type) : Type := parser -> mib_out (A * parser).
#[global] Instance parse_ret : MRet parse := fun A a s => MibOk (a, s).
#[global] Instance parse_bind : MBind parse := fun A B k m s =>
  match m s with MibOk (a, s) => k a s | MibFault f => MibFault f end.

Definition fault {A} (f : mib_fault) : parse A := fun _ => MibFault f.
Definition lift {A} (a : mib_out A) : parse A := fun s => match a with MibOk a => MibOk (a, s) | MibFault f => MibFault f end.
Definition not_null {A} (a : option A) : parse A := lift (of_option MibNull a).
Definition get {A} (f : parser -> A) : parse A := fun s => MibOk (f s, s).
Definition change (f : parser -> parser) : parse unit := fun s => MibOk (tt, f s).
Definition glob {A} (f : mib_globals -> A) : parse A := get (f ∘ ps_glob).
Definition change_glob (f : mib_globals -> mib_globals) : parse unit := change (with_glob f).

(** A loop: [inl] goes on, [inr] leaves it.  Every round reads a keyword, so as many
    rounds as there are keywords left are enough unless the loop goes on at the end of
    the file. *)
Fixpoint loop {A R : Type} (body : A -> parse (A + R)) (fuel : nat) (a : A) : parse R :=
  match fuel with
  | O => fault MibLoops
  | S fuel => r ← body a; match r with inl a => loop body fuel a | inr r => mret r end
  end.
Definition keywords_left (s : parser) : nat :=
  (2 * length (ps_file s) + (if is_special (gl_lastchar (ps_glob s)) then 1 else 0))%nat.
Definition while {A R : Type} (body : A -> parse (A + R)) (a : A) : parse R := fun s => loop body (3 + keywords_left s) a s.

(** [ReadKeyword(fp, keyword)] and [ftell(fp)] *)
Definition keyword : parse (Z * cstring) := fun s =>
  match ReadKeyword (mkLexer (ps_file s) (gl_lastchar (ps_glob s))) with
  | MibOk (syntax, keyword, lx) =>
      MibOk (syntax, keyword, mkParser (with_lastchar (lx_lastchar lx) (ps_glob s)) (lx_file lx) (ps_size s) (ps_nodeList s))
  | MibFault f => MibFault f
  end.
Definition syntax_of : parse Z := '(syntax, _) ← keyword; mret syntax.
Definition ftell : parse Z := get (fun s => Z.of_nat (ps_size s) - Z.of_nat (length (ps_file s))).

(** Whether the next keyword is the one that is expected. *)
Definition expect (key : Z) : parse bool := syntax ← syntax_of; mret (bool_decide (syntax = key)).

(** ** Nodes *)

Definition set_place (parentName : option cstring) (subid : Z) (n : TnmMibNode) : TnmMibNode :=
  mkNode subid (nd_label n) parentName (nd_moduleName n) (nd_fileName n) (nd_fileOffset n) (nd_syntax n)
    (nd_access n) (nd_macro n) (nd_status n) (nd_implied n) (nd_augment n) (nd_index n) (nd_typePtr n) (nd_parentPtr n) (nd_childPtr n) (nd_nextPtr n).
Definition set_origin (macro : Z) (moduleName : option cstring) (n : TnmMibNode) : TnmMibNode :=
  mkNode (nd_subid n) (nd_label n) (nd_parentName n) moduleName (nd_fileName n) (nd_fileOffset n) (nd_syntax n)
    (nd_access n) macro (nd_status n) (nd_implied n) (nd_augment n) (nd_index n) (nd_typePtr n) (nd_parentPtr n) (nd_childPtr n) (nd_nextPtr n).
Definition set_fileOffset (fileOffset : Z) (n : TnmMibNode) : TnmMibNode :=
  mkNode (nd_subid n) (nd_label n) (nd_parentName n) (nd_moduleName n) (nd_fileName n) fileOffset (nd_syntax n)
    (nd_access n) (nd_macro n) (nd_status n) (nd_implied n) (nd_augment n) (nd_index n) (nd_typePtr n) (nd_parentPtr n) (nd_childPtr n) (nd_nextPtr n).
Definition set_syntax (syntax : Z) (n : TnmMibNode) : TnmMibNode :=
  mkNode (nd_subid n) (nd_label n) (nd_parentName n) (nd_moduleName n) (nd_fileName n) (nd_fileOffset n) (u16 syntax)
    (nd_access n) (nd_macro n) (nd_status n) (nd_implied n) (nd_augment n) (nd_index n) (nd_typePtr n) (nd_parentPtr n) (nd_childPtr n) (nd_nextPtr n).
Definition set_access (access : Z) (n : TnmMibNode) : TnmMibNode :=
  mkNode (nd_subid n) (nd_label n) (nd_parentName n) (nd_moduleName n) (nd_fileName n) (nd_fileOffset n) (nd_syntax n)
    access (nd_macro n) (nd_status n) (nd_implied n) (nd_augment n) (nd_index n) (nd_typePtr n) (nd_parentPtr n) (nd_childPtr n) (nd_nextPtr n).
Definition set_status (status : Z) (n : TnmMibNode) : TnmMibNode :=
  mkNode (nd_subid n) (nd_label n) (nd_parentName n) (nd_moduleName n) (nd_fileName n) (nd_fileOffset n) (nd_syntax n)
    (nd_access n) (nd_macro n) (status .& 15) (nd_implied n) (nd_augment n) (nd_index n) (nd_typePtr n) (nd_parentPtr n) (nd_childPtr n) (nd_nextPtr n).
Definition set_index (implied augment : bool) (index : option cstring) (n : TnmMibNode) : TnmMibNode :=
  mkNode (nd_subid n) (nd_label n) (nd_parentName n) (nd_moduleName n) (nd_fileName n) (nd_fileOffset n) (nd_syntax n)
    (nd_access n) (nd_macro n) (nd_status n) implied augment index (nd_typePtr n) (nd_parentPtr n) (nd_childPtr n) (nd_nextPtr n).

Definition node (p : nat) : parse TnmMibNode := n ← glob (fun g => mb_nodes (gl_mib g) !! p); not_null n.
Definition set_node (f : TnmMibNode -> TnmMibNode) (p : nat) : parse unit := change_glob (with_mib (with_nodes (alter f p))).

(** A node in new memory. *)
Definition NewNode (label : cstring) : parse nat := fun s =>
  let '(p, mib) := new_node (gl_mib (ps_glob s)) (TnmMibNewNode label) in
  MibOk (p, with_glob (with_typePtr (delete p) ∘ with_mib (fun _ => mib)) s).

(** [nodePtr->nextPtr = nodeList; nodeList = nodePtr;] *)
Definition push_node (p : nat) : parse unit :=
  list ← get ps_nodeList;
  _ ← set_node (set_nextPtr list) p;
  change (with_nodeList (Some p)).

Definition AddNewNode (label parentName : cstring) (subid : Z) : parse unit :=
  p ← NewNode label;
  module ← glob gl_moduleName;
  _ ← set_node (fun n => set_syntax ASN1_OTHER (set_place (Some parentName) (u32 subid) (set_origin (nd_macro n) module n))) p;
  push_node p.

(** ** Restrictions in strings *)

(** [strtol(s, NULL, base)] for base 0 and 2, stored in an [int]. *)
Definition strtol (base : Z) (s : cstring) : Z :=
  let '(neg, s) := skip_sign (skip_space s) in
  let '(base, s) := if bool_decide (base = 0) then detect_base s else (base, s) in
  let v := (scan_digits base s 0).1 in
  s32 (Z.max (-9223372036854775808) (Z.min 9223372036854775807 (if (neg : bool) then - v else v))).

(** [atoi(s)] with a sign and blanks in front. *)
Definition atoi_signed (s : cstring) : mib_out Z :=
  let '(neg, s) := skip_sign (skip_space s) in
  let v := (scan_digits 10 s 0).1 in
  let v := if (neg : bool) then - v else v in
  if decide (is_s32 v) then mret v else MibFault MibUndefined.

Definition no_space (c : Z) : bool := negb (isspace c).

(** The characters in front of the rest of a string. *)
Definition front (s rest : cstring) : cstring := take (length s - length rest) s.

(** The loop of [ScanIntEnums]. *)
Fixpoint scan_enums (fuel : nat) (str : cstring) : mib_out (list TnmMibRest) :=
  match fuel, str with
  | S fuel, _ :: _ =>
      match skip_chars no_space (skip_space str) with
      | [] => mret []
      | c :: val =>
          let rest := skip_chars no_space val in
          value ← atoi_signed (front val rest);
          enums ← scan_enums fuel (drop 1 rest);
          mret (intEnum value (front str (c :: val)) :: enums)
      end
  | _, _ => mret []
  end.
Definition ScanIntEnums (str : option cstring) : mib_out (list TnmMibRest) :=
  match str with
  | Some (68 :: 32 :: str) => scan_enums (length str) str
  | _ => mret []
  end.

Definition range_min (r : TnmMibRest) : Z := match r with intRange min _ => min | _ => 0 end.
Definition range_max (r : TnmMibRest) : Z := match r with intRange _ max => max | _ => 0 end.

(** [while (( *currRangePtr) != NULL && ...)] *)
Fixpoint insert_range (new : TnmMibRest) (l : list TnmMibRest) : list TnmMibRest :=
  match l with
  | [] => [new]
  | cur :: l' => if bool_decide (range_min cur < range_max new) then cur :: insert_range new l' else new :: l
  end.

(** A bound: [B] stands for binary digits. *)
Definition scan_bound (s : cstring) : Z :=
  match s with
  | c :: s' => if bool_decide (c = 66) || bool_decide (c = 98) then strtol 2 s' else strtol 0 s
  | [] => strtol 0 s
  end.

(** The loop of [ScanRange]. *)
Fixpoint scan_ranges (fuel : nat) (str : cstring) (rangeList : list TnmMibRest) : list TnmMibRest :=
  match fuel, str with
  | S fuel, _ :: _ =>
      let start := skip_space str in
      let behind := skip_chars (fun c => negb (bool_decide (c = chr_dot)) && no_space c) start in
      let first := front start behind in
      let rest := drop 1 behind in
      let '(last, rest) :=
        match rest with
        | c :: last => if bool_decide (c = chr_dot) then let behind := skip_chars no_space last in (front last behind, drop 1 behind)
                       else (front str behind, rest)
        | [] => (front str behind, rest)
        end in
      scan_ranges fuel rest (insert_range (intRange (scan_bound first) (scan_bound last)) rangeList)
  | _, _ => rangeList
  end.
Definition ScanRange (str : option cstring) : list TnmMibRest :=
  match str with
  | Some (82 :: 32 :: str) => scan_ranges (length str) str []
  | _ => []
  end.

(** ** Types *)

Definition type (a : nat) : parse TnmMibType := t ← glob (fun g => gl_types g !! a); not_null t.
Definition set_type (f : TnmMibType -> TnmMibType) (a : nat) : parse unit := change_glob (with_types (alter f a)).

Definition ty_set_macro (macro : Z) (t : TnmMibType) : TnmMibType :=
  mkMibType (ty_name t) (ty_moduleName t) (ty_fileName t) (ty_fileOffset t) (ty_syntax t) (ty_displayHint t) macro (ty_status t) (ty_restKind t) (ty_restList t).
Definition ty_set_rest (restKind : Z) (restList : list TnmMibRest) (t : TnmMibType) : TnmMibType :=
  mkMibType (ty_name t) (ty_moduleName t) (ty_fileName t) (ty_fileOffset t) (ty_syntax t) (ty_displayHint t) (ty_macro t) (ty_status t) restKind restList.
Definition ty_set_status (status : Z) (t : TnmMibType) : TnmMibType :=
  mkMibType (ty_name t) (ty_moduleName t) (ty_fileName t) (ty_fileOffset t) (ty_syntax t) (ty_displayHint t) (ty_macro t) (status .& 15) (ty_restKind t) (ty_restList t).
Definition ty_set_text (fileOffset : Z) (displayHint : option cstring) (t : TnmMibType) : TnmMibType :=
  mkMibType (ty_name t) (ty_moduleName t) (ty_fileName t) fileOffset (ty_syntax t) displayHint (ty_macro t) (ty_status t) (ty_restKind t) (ty_restList t).

(** [TnmMibFindType]: the address of the type. *)
Definition FindType (name : cstring) : parse (option nat) :=
  hash ← glob gl_hash;
  match hash with
  | None => mret None
  | Some table =>
      let by_label := i ← index_of chr_bang name; table !! drop (S i) name in
      match table !! name, by_label with
      | Some a, _ => mret (Some a)
      | None, Some a => mret (Some a)
      | None, None =>
          let syntax := TnmGetTableKey tnmSnmpTypeTable name in
          if bool_decide (syntax <> -1) then _ ← change_glob (with_types <[O := snmpType syntax name]>); mret (Some O)
          else if bool_decide (name = cstr "BITS") then _ ← change_glob (with_types <[O := snmpType ASN1_OCTET_STRING name]>); mret (Some O)
          else mret None
      end
  end.

(** [TnmMibAddType] of the type at [a]. *)
Definition AddType (a : nat) : parse (option nat) :=
  t ← type a;
  known ← glob gl_hash;
  list ← glob gl_list;
  let table := default ∅ known in
  match ty_moduleName t with
  | None => _ ← change_glob (with_known (Some table) list); mret None
  | Some moduleName =>
      name ← not_null (ty_name t);
      match table !! name with
      | Some other => _ ← change_glob (with_known (Some table) list); mret (Some other)
      | None =>
          let table := <[name := a]> table in
          let full := full_name moduleName name in
          let table := match table !! full with Some _ => table | None => <[full := a]> table end in
          _ ← change_glob (with_known (Some table) (a :: list));
          mret (Some a)
      end
  end.

(** The kind and the list of the restrictions of [CreateType]. *)
Definition restrictions_of (syntax : Z) (enums : cstring) : mib_out (Z * list TnmMibRest) :=
  match enums with
  | 68 :: 32 :: _ => l ← ScanIntEnums (Some enums); mret (TNM_MIB_REST_ENUMS, l)
  | 82 :: 32 :: _ =>
      mret (if bool_decide (syntax = ASN1_OCTET_STRING) || bool_decide (syntax = ASN1_OBJECT_IDENTIFIER)
            then TNM_MIB_REST_SIZE else TNM_MIB_REST_RANGE, ScanRange (Some enums))
  | _ => mret (TNM_MIB_REST_NONE, [])
  end.

(** The known type or a new one; the result of [TnmMibAddType] is used without a check. *)
Definition CreateType (name : cstring) (syntax : Z) (displayHint enums : option cstring) : parse nat :=
  known ← FindType name;
  match known with
  | Some a => mret a
  | None =>
      '(restKind, restList) ← lift (match enums with Some enums => restrictions_of syntax enums | None => mret (TNM_MIB_REST_NONE, []) end);
      fileName ← glob (mb_fileName ∘ gl_mib);
      moduleName ← glob gl_moduleName;
      a ← glob (fun g => fresh ({[ O ]} ∪ dom (gl_types g)));
      _ ← change_glob (with_types <[a := mkMibType (Some name) moduleName fileName 0 syntax displayHint TNM_MIB_TEXTUALCONVENTION 0 restKind restList]>);
      added ← AddType a;
      not_null added
  end.

(** ** Lists in braces and parentheses *)

(** [strcpy] and [strcat] to a buffer of [SYMBOL_MAXLEN] characters. *)
Definition in_symbol (text : cstring) : parse cstring :=
  if decide (length text < SYMBOL_MAXLEN)%nat then mret text else fault MibOverrun.

(** A round of [ReadIntEnums]: it is left with the last syntax and the string. *)
Definition read_enum (result : cstring) : parse (cstring + Z * cstring) :=
  '(_, str) ← keyword;
  syntax ← syntax_of;
  if bool_decide (syntax <> LEFTPAREN) then mret (inr (syntax, result))
  else
    '(syntax, num) ← keyword;
    if bool_decide (syntax <> NUMBER) && bool_decide (syntax <> SIGNEDNUMBER) then mret (inr (syntax, result))
    else
      let result := result ++ chr_blank :: str ++ chr_blank :: num in
      syntax ← syntax_of;
      if bool_decide (syntax <> RIGHTPAREN) then mret (inr (syntax, result))
      else
        syntax ← syntax_of;
        mret (if bool_decide (syntax = COMMA) then inl result else inr (syntax, result)).
Definition ReadIntEnums : parse (Z * cstring) := while read_enum (cstr "D").

(** The bound of a range in a keyword. *)
Definition read_bound (syntax : Z) (value : cstring) : parse (option cstring) :=
  if bool_decide (syntax = NUMBER) || bool_decide (syntax = SIGNEDNUMBER) then text ← in_symbol value; mret (Some text)
  else if bool_decide (syntax = HEXVALUE) then text ← in_symbol (cstr "0x" ++ value); mret (Some text)
  else if bool_decide (syntax = BINVALUE) then text ← in_symbol (cstr "B" ++ value); mret (Some text)
  else mret None.

(** [out:] *)
Definition next_range (syntax : Z) (result : cstring) (last : option cstring) : parse (cstring * option cstring + Z * cstring) :=
  mret (if bool_decide (syntax = OR) then inl (result, last) else inr (syntax, result)).

(** [append]: the string with a range, [last] is [end], [None] if it was never written. *)
Definition append_range (result start : cstring) (last : option cstring) : parse cstring :=
  last ← lift (of_option MibUndefined last);
  mret (result ++ chr_blank :: start ++ (if bool_decide (last <> []) then cstr ".." ++ last else [])).

(** A round of [ReadRange].  A binary upper bound is written to [start]. *)
Definition read_range (st : cstring * option cstring) : parse (cstring * option cstring + Z * cstring) :=
  let '(result, last) := st in
  '(syntax, value) ← keyword;
  start ← read_bound syntax value;
  match start with
  | None => next_range syntax result last
  | Some start =>
      syntax ← syntax_of;
      if bool_decide (syntax = UPTO) then
        '(syntax, value) ← keyword;
        bound ← read_bound syntax value;
        match bound with
        | None => next_range syntax result last
        | Some bound =>
            let '(start, last) := if bool_decide (syntax = BINVALUE) then (bound, last) else (start, Some bound) in
            syntax ← syntax_of;
            result ← append_range result start last;
            next_range syntax result last
        end
      else
        result ← append_range result start (Some []);
        next_range syntax result (Some [])
  end.
Definition ReadRange : parse (Z * cstring) := while read_range (cstr "R", None).

(** An element of an object identifier ([struct subid]). *)
Record subid := mkSubid { sub_parentName : cstring; sub_label : option cstring; sub_subid : Z }.
Definition set_subid (v : Z) (e : subid) : subid := mkSubid (sub_parentName e) (sub_label e) v.

(** [np->subid = v], where [np] is the first element of the list. *)
Definition number_subid (v : Z) (subidList : list subid) : parse (list subid) :=
  match subidList with [] => fault MibNull | np :: subidList => mret (set_subid v np :: subidList) end.

(** [do_label:] [name] is the last label. *)
Definition label_subid (name : option cstring) (keyword : cstring) (subidList : list subid) : option cstring * list subid :=
  (Some keyword, match name with Some name => mkSubid name (Some keyword) (-1) | None => mkSubid keyword None (-1) end :: subidList).

(** A round of [ReadSubID]; the list is empty for [NULL], [name] is [Some] if [is_child]. *)
Definition read_subid (st : option cstring * list subid) : parse (option cstring * list subid + list subid) :=
  let '(name, subidList) := st in
  '(syntax, text) ← keyword;
  if bool_decide (syntax = RIGHTBRACKET) then mret (inr subidList)
  else if bool_decide (syntax = LABEL) then mret (inl (label_subid name text subidList))
  else if bool_decide (syntax = LEFTPAREN) then
    '(syntax, text) ← keyword;
    if bool_decide (syntax <> NUMBER) then mret (inr [])
    else
      v ← lift (atoi text);
      subidList ← number_subid v subidList;
      closed ← expect RIGHTPAREN;
      mret (if (closed : bool) then inl (name, subidList) else inr [])
  else if bool_decide (syntax = NUMBER) then
    match subidList with
    | [] =>
        mib ← glob gl_mib;
        label ← lift (TnmMibGetName mib text true);
        match label with
        | None => mret (inr [])
        | Some label => text ← in_symbol label; mret (inl (label_subid name text subidList))
        end
    | np :: _ =>
        v ← lift (atoi text);
        if bool_decide (sub_subid np <> -1) then
          parentName ← not_null name; mret (inl (name, mkSubid parentName None v :: subidList))
        else
          subidList ← number_subid v subidList; mret (inl (name, subidList))
    end
  else mret (inr []).
Definition ReadSubID : parse (list subid) :=
  opened ← expect LEFTBRACKET;
  if (opened : bool) then while read_subid (None, []) else mret [].

(** [while (subidList != NULL && subidList->subid != -1)] *)
Fixpoint add_subids (p : nat) (subidList : list subid) : parse unit :=
  match subidList with
  | [] => mret tt
  | e :: subidList =>
      if bool_decide (sub_subid e = -1) then mret tt
      else
        _ ← match sub_label e with
            | None => set_node (set_place (Some (sub_parentName e)) (u32 (sub_subid e))) p
            | Some label => AddNewNode label (sub_parentName e) (sub_subid e)
            end;
        add_subids p subidList
  end.

(** Whether the list was read. *)
Definition ParseNodeList (p : nat) : parse bool :=
  subidList ← ReadSubID;
  if bool_decide (subidList = []) then mret false else _ ← add_subids p subidList; mret true.
