(* ===== verification/MibMacro.v ===== *)
(** The macros of MIB modules and the loop over a file, [tnmMibParser.c].

    The loops over the clauses of a macro differ in the clauses they know; what a clause
    does is a function, and unknown keywords are skipped. *)

From stdpp Require Import gmap.
From S2P Require Import Prelude Ber CStr Oid Util Obj Snmp Mib MibTree MibNames MibLexer MibParser.
Local Open Scope Z_scope.

(** Skip keywords up to [stop]; [false] is the end of the file.  The text is the last
    keyword. *)
Definition skip_round (stop : Z) (_ : unit) : parse (unit + bool * cstring) :=
  '(syntax, text) ← keyword;
  mret (if bool_decide (syntax = stop) then inr (true, text) else if bool_decide (syntax = EOF) then inr (false, text) else inl tt).
Definition skip_to (stop : Z) : parse (bool * cstring) := while (skip_round stop) tt.

Section parser.
Context (Tcl_DStringAppendElement : cstring -> cstring -> cstring).

(** ** Clauses *)

Definition read_name (dst : cstring) : parse (cstring + option cstring) :=
  '(syntax, text) ← keyword;
  mret (if bool_decide (syntax = RIGHTBRACKET) then inr (Some dst)
        else if bool_decide (syntax = COMMA) then inl dst
        else if bool_decide (syntax = LABEL) then inl (Tcl_DStringAppendElement dst text)
        else inr None).
Definition ReadNameList : parse (option cstring) :=
  opened ← expect LEFTBRACKET;
  if (opened : bool) then while read_name [] else mret None.

(** A status of SMIv2. *)
Definition is_status (syntax : Z) : bool :=
  bool_decide (syntax = CURRENT) || bool_decide (syntax = OBSOLETE) || bool_decide (syntax = DEPRECATED).
Definition status_key (text : cstring) : Z := TnmGetTableKey tnmMibStatusTable text.

(** The cases of the loops; [false] is [return NULL]. *)
Definition status_clause (p : nat) : parse bool :=
  '(syntax, text) ← keyword;
  if is_status syntax then _ ← set_node (set_status (status_key text)) p; mret true else mret false.
Definition description_clause (p : nat) : parse bool :=
  offset ← ftell;
  _ ← set_node (set_fileOffset offset) p;
  expect QUOTESTRING.
Definition names_clause (p : nat) : parse bool :=
  names ← ReadNameList;
  _ ← set_node (fun n => set_index (nd_implied n) (nd_augment n) names n) p;
  mret (bool_decide (is_Some names)).

(** [while ((syntax = ReadKeyword(fp, keyword)) != EQUALS)] *)
Definition clause_round (clauses : Z -> option (parse bool)) (_ : unit) : parse (unit + bool) :=
  syntax ← syntax_of;
  if bool_decide (syntax = EQUALS) then mret (inr true)
  else
    match clauses syntax with
    | Some clause => fine ← clause; mret (if (fine : bool) then inl tt else inr false)
    | None => mret (if bool_decide (syntax = EOF) then inr false else inl tt)
    end.
Definition read_clauses (clauses : Z -> option (parse bool)) : parse bool := while (clause_round clauses) tt.

(** The end of a macro, behind [EQUALS]. *)
Definition node_list_end (fine : bool) (p : nat) : parse (option nat) :=
  if fine then read ← ParseNodeList p; mret (if (read : bool) then Some p else None) else mret None.

(** ** Macros *)

(** Only the first description is read. *)
Definition first_description (p : nat) : parse bool :=
  n ← node p;
  if bool_decide (nd_fileOffset n <= 0) then description_clause p else mret true.

Definition ParseModuleCompliance (name : cstring) : parse (option nat) :=
  p ← NewNode name;
  fine ← read_clauses (fun syntax => if bool_decide (syntax = DESCRIPTION) then Some (first_description p) else None);
  node_list_end fine p.

Definition ParseModuleIdentity (name : cstring) : parse (option nat) :=
  p ← NewNode name;
  fine ← read_clauses (fun syntax => if bool_decide (syntax = DESCRIPTION) then Some (first_description p) else None);
  node_list_end fine p.

Definition ParseNotificationType (name : cstring) : parse (option nat) :=
  p ← NewNode name;
  fine ← read_clauses (fun syntax =>
    if bool_decide (syntax = STATUS) then Some (status_clause p)
    else if bool_decide (syntax = OBJECTS) then Some (names_clause p)
    else if bool_decide (syntax = DESCRIPTION) then Some (description_clause p) else None);
  node_list_end fine p.

Definition ParseCapabilitiesType (name : cstring) : parse (option nat) :=
  p ← NewNode name;
  fine ← read_clauses (fun syntax => if bool_decide (syntax = DESCRIPTION) then Some (description_clause p) else None);
  node_list_end fine p.

Definition ParseObjectIdentity (name : cstring) : parse (option nat) :=
  p ← NewNode name;
  fine ← read_clauses (fun syntax =>
    if bool_decide (syntax = STATUS) then Some (status_clause p)
    else if bool_decide (syntax = DESCRIPTION) then Some (description_clause p) else None);
  node_list_end fine p.

(** The two macros for groups, whose list of names must come first. *)
Definition parse_group (names : Z) (name : cstring) : parse (option nat) :=
  named ← expect names;
  if negb named then mret None
  else
    p ← NewNode name;
    listed ← names_clause p;
    if negb listed then mret None
    else
      fine ← read_clauses (fun syntax =>
        if bool_decide (syntax = STATUS) then Some (status_clause p)
        else if bool_decide (syntax = DESCRIPTION) then Some (description_clause p) else None);
      node_list_end fine p.
Definition ParseObjectGroup (name : cstring) : parse (option nat) := parse_group OBJECTS name.
Definition ParseNotificationGroup (name : cstring) : parse (option nat) := parse_group NOTIFICATIONS name.

Definition ParseObjectID (name : cstring) : parse (option nat) :=
  defined ← expect EQUALS;
  if negb defined then mret None
  else
    p ← NewNode name;
    _ ← set_node (set_syntax ASN1_OTHER) p;
    node_list_end true p.

(** [for (n = *nodeList; n; n = n->nextPtr)]: the label of the node below the enterprise
    with subidentifier 0. *)
Fixpoint find_trap_parent (fuel : nat) (p : option nat) (enterprise : cstring) : parse (option cstring) :=
  match p with
  | None => mret None
  | Some p =>
      match fuel with
      | O => fault MibLoops
      | S fuel =>
          n ← node p;
          parentName ← (if bool_decide (nd_subid n = 0) then name ← not_null (nd_parentName n); mret (Some name) else mret None);
          if bool_decide (parentName = Some enterprise) then mret (Some (nd_label n))
          else find_trap_parent fuel (nd_nextPtr n) enterprise
      end
  end.

(** [case ENTERPRISE:] [bracket] stays set for a later clause. *)
Definition enterprise_clause (p : nat) (bracket : bool) : parse (option (bool * cstring)) :=
  '(syntax, text) ← keyword;
  '(bracket, syntax, text) ← (if bool_decide (syntax = LEFTBRACKET) then '(syntax, text) ← keyword; mret (true, syntax, text) else mret (bracket, syntax, text));
  if bool_decide (syntax <> LABEL) then mret None
  else
    list ← get ps_nodeList;
    fuel ← glob (steps ∘ gl_mib);
    known ← find_trap_parent fuel list text;
    _ ← set_node (fun n => set_place (Some (default (text ++ cstr "Traps") known)) (nd_subid n) n) p;
    closed ← (if (bracket : bool) then expect RIGHTBRACKET else mret true);
    mret (if (closed : bool) then Some (bracket, text) else None).

(** The state of the loop of [ParseTrapType]: [bracket] and [enterprise]. *)
Definition trap_round (p : nat) (st : bool * option cstring) : parse (bool * option cstring + option (option cstring)) :=
  let '(bracket, enterprise) := st in
  let go_on fine := if (fine : bool) then inl st else inr None in
  syntax ← syntax_of;
  if bool_decide (syntax = EQUALS) then mret (inr (Some enterprise))
  else if bool_decide (syntax = DESCRIPTION) then fine ← description_clause p; mret (go_on fine)
  else if bool_decide (syntax = VARIABLES) then fine ← names_clause p; mret (go_on fine)
  else if bool_decide (syntax = ENTERPRISE) then
    read ← enterprise_clause p bracket;
    mret match read with Some (bracket, text) => inl (bracket, Some text) | None => inr None end
  else mret (go_on (bool_decide (syntax <> EOF))).

Definition ParseTrapType (name : cstring) : parse (option nat) :=
  p ← NewNode name;
  read ← while (trap_round p) (false, None);
  match read with
  | None => mret None
  | Some enterprise =>
      '(syntax, text) ← keyword;
      match enterprise with
      | Some enterprise =>
          if bool_decide (syntax <> NUMBER) then mret None
          else
            n ← node p;
            parentName ← not_null (nd_parentName n);
            _ ← AddNewNode parentName enterprise 0;
            v ← lift (atoi text);
            _ ← set_node (fun n => set_place (nd_parentName n) (u32 v) n) p;
            mret (Some p)
      | None => mret None
      end
  end.

(** ** Object types *)

(** The part of a condition behind [LEFTPAREN] that reads [SIZE] and another parenthesis
    for octet strings: whether a range follows, and the last syntax. *)
Definition range_open (syntax : Z) : parse (bool * Z) :=
  if bool_decide (syntax <> ASN1_OCTET_STRING) then mret (true, LEFTPAREN)
  else
    size ← syntax_of;
    if bool_decide (size <> SIZE) then mret (false, size)
    else paren ← syntax_of; mret (bool_decide (paren = LEFTPAREN), paren).

(** The range and the parenthesis behind it, where [None] is an error, and the last
    [syntax], which the closing parenthesis of the range does not set. *)
Definition read_range_of (syntax : Z) : parse (option cstring * Z) :=
  '(last, text) ← ReadRange;
  if bool_decide (last <> RIGHTPAREN) then mret (None, LEFTPAREN)
  else if bool_decide (syntax <> ASN1_OCTET_STRING) then mret (Some text, LEFTPAREN)
  else closing ← syntax_of; mret (if bool_decide (closing = RIGHTPAREN) then Some text else None, closing).

(** The restrictions behind [INTEGER] and [OCTET STRING]: [None] is [return NULL],
    otherwise the restrictions and the last syntax. *)
Definition read_restrictions (baseType : Z) : parse (option (option cstring * Z)) :=
  syntax ← syntax_of;
  if bool_decide (syntax = LEFTBRACKET) then '(syntax, text) ← ReadIntEnums; mret (Some (Some text, syntax))
  else if bool_decide (syntax = LEFTPAREN) then
    '(opened, syntax) ← range_open baseType;
    if (opened : bool) then
      '(range, syntax) ← read_range_of baseType;
      mret match range with Some text => Some (Some text, syntax) | None => None end
    else mret (Some (None, syntax))
  else mret (Some (None, syntax)).

Definition upper_first (label : cstring) : cstring :=
  match label with c :: label => (if bool_decide (97 <= c <= 122) then c - 32 else c) :: label | [] => [] end.

Definition set_typePtr (p a : nat) : parse unit := change_glob (with_typePtr <[p := a]>).

(** The syntax up to [ACCESS]; [false] is [return NULL]. *)
Definition object_syntax (p : nat) (syntax : Z) (text : cstring) : parse bool :=
  if bool_decide (syntax = LABEL) then
    known ← FindType text;
    _ ← match known with
        | Some a => _ ← set_typePtr p a; t ← type a; set_node (set_syntax (ty_syntax t)) p
        | None => set_node (set_syntax ASN1_SEQUENCE) p
        end;
    '(found, _) ← skip_to ACCESS; mret found
  else if bool_decide (syntax = ASN1_INTEGER) || bool_decide (syntax = ASN1_OCTET_STRING) then
    read ← read_restrictions syntax;
    match read with
    | None => mret false
    | Some (restrictions, last) =>
        '(found, _) ← (if bool_decide (last = ACCESS) then mret (true, []) else skip_to ACCESS);
        match restrictions with
        | Some text =>
            if (found : bool) && bool_decide (text <> []) then
              n ← node p;
              a ← CreateType (upper_first (nd_label n)) syntax None (Some text);
              _ ← set_typePtr p a;
              _ ← set_type (ty_set_macro TNM_MIB_OBJECTTYPE) a;
              mret true
            else mret found
        | None => mret found
        end
    end
  else if bool_decide (syntax = ASN1_SEQUENCE) then
    next ← syntax_of;
    _ ← (if bool_decide (next = ASN1_SEQUENCE_OF) then set_node (set_syntax next) p else mret tt);
    '(found, _) ← (if bool_decide (next = ACCESS) then mret (true, []) else skip_to ACCESS);
    mret found
  else '(found, _) ← skip_to ACCESS; mret found.

Definition access_of (syntax : Z) : Z :=
  if bool_decide (syntax = READONLY) then TNM_MIB_READONLY
  else if bool_decide (syntax = READCREATE) then TNM_MIB_READCREATE
  else if bool_decide (syntax = READWRITE) then TNM_MIB_READWRITE
  else if bool_decide (syntax = WRITEONLY) then TNM_MIB_READWRITE
  else if bool_decide (syntax = FORNOTIFY) then TNM_MIB_FORNOTIFY
  else TNM_MIB_NOACCESS.

Definition access_clause (p : nat) : parse bool :=
  syntax ← syntax_of;
  if bool_decide (READONLY <= syntax <= NOACCESS) then _ ← set_node (set_access (access_of syntax)) p; mret true else mret false.

(** [STATUS] with the values of SMIv1; the status is also that of a type of its own. *)
Definition object_status (p : nat) : parse bool :=
  there ← expect STATUS;
  if negb there then mret false
  else
    '(syntax, text) ← keyword;
    if bool_decide (MANDATORY <= syntax <= DEPRECATED) then
      let status := status_key (if bool_decide (syntax = MANDATORY) then cstr "current" else if bool_decide (syntax = OPTIONAL) then cstr "obsolete" else text) in
      _ ← set_node (set_status status) p;
      typePtr ← glob (fun g => gl_typePtr g !! p);
      match typePtr with
      | Some a =>
          t ← type a;
          if bool_decide (ty_macro t = TNM_MIB_OBJECTTYPE) then n ← node p; _ ← set_type (ty_set_status (nd_status n)) a; mret true else mret true
      | None => mret true
      end
    else mret false.

Definition augments_clause (p : nat) : parse bool :=
  opened ← expect LEFTBRACKET;
  if negb opened then mret false
  else
    '(syntax, text) ← keyword;
    if bool_decide (syntax <> LABEL) then mret false
    else
      closed ← expect RIGHTBRACKET;
      _ ← set_node (fun n => set_index (nd_implied n) ((closed : bool) || nd_augment n) (if closed then Some text else None) n) p;
      mret closed.

Definition read_index (p : nat) (dst : cstring) : parse (cstring + option cstring) :=
  '(syntax, text) ← keyword;
  if bool_decide (syntax = RIGHTBRACKET) then mret (inr (Some dst))
  else if bool_decide (syntax = COMMA) then mret (inl dst)
  else if bool_decide (syntax = IMPLIED) then
    n ← node p;
    if nd_implied n then mret (inr None)
    else _ ← set_node (fun n => set_index true (nd_augment n) (nd_index n) n) p; mret (inl dst)
  else if bool_decide (syntax = LABEL) then mret (inl (Tcl_DStringAppendElement dst text))
  else mret (inr None).
Definition index_clause (p : nat) : parse bool :=
  opened ← expect LEFTBRACKET;
  if negb opened then mret false
  else
    index ← while (read_index p) [];
    match index with
    | Some _ => _ ← set_node (fun n => set_index (nd_implied n) (nd_augment n) index n) p; mret true
    | None => mret false
    end.

(** [while ( *p && isxdigit( *p))]: pairs of digits with colons. *)
Fixpoint hex_pairs (p : cstring) : cstring :=
  match p with
  | c :: d :: p' =>
      if isxdigit c then c :: d :: (match p' with e :: _ => if isxdigit e then [chr_colon] else [] | [] => [] end) ++ hex_pairs p' else []
  | _ => []
  end.

(** The default value with a hexadecimal literal in quotes rewritten. *)
Definition defval_text (index : cstring) : cstring :=
  let len := length index in
  let last := default 0 (index !! (len - 1)%nat) in
  if bool_decide (2 < len)%nat && bool_decide (index !! 0%nat = Some 39) && bool_decide (index !! (len - 2)%nat = Some 39)
     && (bool_decide (last = 104) || bool_decide (last = 72)) then
    if bool_decide (len = 3%nat) then []
    else hex_pairs (if Nat.odd (len - 3) then chr_0 :: drop 1 index else drop 1 index)
  else index.

Definition read_defval (p : nat) (_ : unit) : parse (unit + bool) :=
  '(syntax, text) ← keyword;
  if bool_decide (syntax = RIGHTBRACKET) then mret (inr true)
  else if bool_decide (syntax = EOF) then mret (inr false)
  else _ ← set_node (fun n => set_index (nd_implied n) (nd_augment n) (Some text) n) p; mret (inl tt).
Definition defval_clause (p : nat) : parse bool :=
  opened ← expect LEFTBRACKET;
  if negb opened then mret false
  else
    fine ← while (read_defval p) tt;
    if negb fine then mret false
    else _ ← set_node (fun n => set_index (nd_implied n) (nd_augment n) (defval_text <$> nd_index n) n) p; mret true.

Definition ParseObjectType (name : cstring) : parse (option nat) :=
  there ← expect SYNTAX;
  if negb there then mret None
  else
    p ← NewNode name;
    _ ← set_node (set_fileOffset (-1)) p;
    '(syntax, text) ← keyword;
    if bool_decide (syntax = ACCESS) then mret None
    else
      _ ← set_node (set_syntax syntax) p;
      fine ← object_syntax p syntax text;
      if negb fine then mret None
      else
        fine ← access_clause p;
        if negb fine then mret None
        else
          fine ← object_status p;
          if negb fine then mret None
          else
            fine ← read_clauses (fun syntax =>
              if bool_decide (syntax = DESCRIPTION) then Some (description_clause p)
              else if bool_decide (syntax = AUGMENTS) then Some (augments_clause p)
              else if bool_decide (syntax = INDEX) then Some (index_clause p)
              else if bool_decide (syntax = DEFVAL) then Some (defval_clause p) else None);
            node_list_end fine p.

(** ** Types *)

(** A type that is defined by another one: the syntax of the type at [a]. *)
Definition derive_type (name : cstring) (a : nat) (offset status : Z) : parse Z :=
  t ← type a;
  new ← CreateType name (ty_syntax t) None None;
  t ← type a;
  _ ← set_type (fun n => ty_set_status status (ty_set_text offset (ty_displayHint t) (ty_set_rest (ty_restKind t) (ty_restList t) n))) new;
  t ← type a;
  mret (ty_syntax t).

(** A type that is known by the name, or [0]. *)
Definition named_type (name text : cstring) (offset status : Z) : parse Z :=
  known ← FindType text;
  match known with Some a => derive_type name a offset status | None => mret 0 end.

(** The loops of a textual convention up to [SYNTAX] or another keyword: the keyword that
    was found, [None] for [return 0], and the last text, the status and the offset. *)
Definition convention_round (stop : Z -> bool) (st : Z * Z) : parse (Z * Z + option Z * cstring * (Z * Z)) :=
  let '(status, offset) := st in
  '(syntax, text) ← keyword;
  if stop syntax then mret (inr (Some syntax, text, st))
  else if bool_decide (syntax = STATUS) then
    '(syntax, text) ← keyword;
    mret (if is_status syntax then inl (status_key text, offset) else inr (None, text, st))
  else if bool_decide (syntax = DESCRIPTION) then
    offset ← ftell;
    '(syntax, text) ← keyword;
    mret (if bool_decide (syntax = QUOTESTRING) then inl (status, offset) else inr (None, text, (status, offset)))
  else mret (if bool_decide (syntax = EOF) then inr (None, text, st) else inl st).

(** The restrictions behind the syntax of a textual convention, the last syntax and the
    last text.  After an error the string is used although it was released. *)
Definition convention_restrictions (osyntax : Z) : parse (option cstring * Z * cstring) :=
  '(syntax, text) ← keyword;
  '(enums, syntax) ←
    (if bool_decide (syntax = LEFTPAREN) then
       '(opened, syntax) ← range_open osyntax;
       if (opened : bool) then
         '(range, syntax) ← read_range_of osyntax;
         match range with
         | Some enums => mret (Some enums, syntax)
         | None => if bool_decide (syntax = LEFTBRACKET) then mret (None, syntax) else fault MibUndefined
         end
       else mret (None, syntax)
     else mret (None, syntax));
  if bool_decide (syntax = LEFTBRACKET) then '(syntax, enums) ← ReadIntEnums; mret (Some enums, syntax, text)
  else mret (enums, syntax, text).

(** The end of a textual convention. *)
Definition create_convention (name convention : cstring) (osyntax status offset : Z) : parse (Z * cstring) :=
  '(enums, syntax, text) ← convention_restrictions osyntax;
  a ← CreateType name osyntax (if bool_decide (convention = []) then None else Some convention) enums;
  _ ← set_type (fun t => ty_set_status status (ty_set_text offset (ty_displayHint t) t)) a;
  mret (syntax, text).

(** [case TEXTUALCONV:] *)
Definition textual_convention (name : cstring) : parse (Z * cstring) :=
  '(found, text, (status, offset)) ← while (convention_round (fun syntax => bool_decide (syntax = SYNTAX) || bool_decide (syntax = DISPLAYHINT))) (0, 0);
  match found with
  | None => mret (0, text)
  | Some found =>
      '(merk, text) ← keyword;
      if bool_decide (found = SYNTAX) then
        if bool_decide (merk = LABEL) then syntax ← named_type name text offset status; mret (syntax, text)
        else create_convention name [] merk status offset
      else
        '(there, last, (status, offset)) ← while (convention_round (fun syntax => bool_decide (syntax = SYNTAX))) (status, offset);
        match there with
        | None => mret (0, last)
        | Some _ =>
            '(merk, last) ← keyword;
            if bool_decide (merk = LABEL) then mret (0, last)
            else create_convention name text merk status offset
        end
  end.

(** The syntaxes that define a type. *)
Definition is_base_type (syntax : Z) : bool :=
  bool_decide (syntax ∈ [ASN1_INTEGER; ASN1_OCTET_STRING; ASN1_OBJECT_IDENTIFIER; ASN1_IPADDRESS; ASN1_COUNTER32;
                         ASN1_GAUGE32; ASN1_TIMETICKS; ASN1_OPAQUE; ASN1_COUNTER64]).

(** The result and the last text, which the caller finds in its [name]. *)
Definition ParseASN1Type (name : cstring) : parse (Z * cstring) :=
  '(syntax, text) ← keyword;
  if is_base_type syntax then mret (syntax, text)
  else if bool_decide (syntax = ASN1_SEQUENCE) then
    '(found, text) ← skip_to RIGHTBRACKET;
    mret (if (found : bool) then ASN1_SEQUENCE else 0, text)
  else if bool_decide (syntax = TEXTUALCONV) then textual_convention name
  else syntax ← named_type name text 0 0; mret (syntax, text).

(** ** Files *)

Definition import_round (_ : unit) : parse (unit + option Z) :=
  syntax ← syntax_of;
  if bool_decide (syntax = SEMICOLON) then mret (inr None)
  else if bool_decide (syntax = FROM) then
    syntax ← syntax_of;
    mret (if bool_decide (syntax = EOF) then inr (Some EOF) else if bool_decide (syntax <> LABEL) then inr (Some ERROR) else inl tt)
  else mret (if bool_decide (syntax = EOF) then inr (Some EOF) else inl tt).

(** The part of [ParseHeader] behind [BEGIN]; [ERROR] and [EOF] are errors. *)
Definition header_imports (syntax : Z) (text : cstring) : parse (Z * cstring) :=
  if bool_decide (syntax = IMPORTS) then
    failed ← while import_round tt;
    match failed with Some error => mret (error, []) | None => keyword end
  else mret (syntax, text).
Definition ParseHeader (name : cstring) : parse (Z * cstring) :=
  _ ← change_glob (with_module (Some name));
  '(syntax, text) ← keyword;
  if bool_decide (syntax <> EQUALS) then mret (ERROR, text)
  else
    '(syntax, text) ← keyword;
    if bool_decide (syntax <> BEGIN) then mret (ERROR, text)
    else
      '(syntax, text) ← keyword;
      if bool_decide (syntax = EXPORTS) then
        '(found, text) ← skip_to SEMICOLON;
        if (found : bool) then '(syntax, text) ← keyword; header_imports syntax text else mret (EOF, text)
      else header_imports syntax text.

(** The variables of [ParseFile]: whether [state] is [IN_MIB], [name], [tt_name],
    [typePtr], [lastOTPtr].  A name is [None] before it is written. *)
Record locals := mkLocals { lo_inMib : bool; lo_name : option cstring; lo_tt_name : option cstring; lo_typePtr : option nat; lo_lastOT : option nat }.

Definition outside (lo : locals) : locals := mkLocals false (lo_name lo) (lo_tt_name lo) (lo_typePtr lo) (lo_lastOT lo).
Definition lo_set_name (name : cstring) (lo : locals) : locals := mkLocals (lo_inMib lo) (Some name) (lo_tt_name lo) (lo_typePtr lo) (lo_lastOT lo).
Definition lo_set_type (a : nat) (lo : locals) : locals := mkLocals (lo_inMib lo) (lo_name lo) (lo_tt_name lo) (Some a) (lo_lastOT lo).

(** The result of a round: go on, or leave with [return NULL] or the list of nodes. *)
Definition file_round : Type := locals + option nat.

(** [for (;;)] up to the bracket that closes the first one; the end of the file does not
    end it. *)
Definition skip_bracket (cnt : nat) : parse (nat + unit) :=
  syntax ← syntax_of;
  let cnt := if bool_decide (syntax = LEFTBRACKET) then S cnt else if bool_decide (syntax = RIGHTBRACKET) then pred cnt else cnt in
  mret (if bool_decide (cnt = O) then inr tt else inl cnt).

(** [state == OUT_OF_MIB] *)
Definition out_of_mib (lo : locals) (syntax : Z) (text : cstring) : parse file_round :=
  if bool_decide (syntax = DEFINITIONS) then
    name ← lift (of_option MibUndefined (lo_name lo));
    '(syntax, name) ← ParseHeader name;
    mret (if bool_decide (syntax = EOF) || bool_decide (syntax = ERROR) then inr None
          else inl (mkLocals true (Some name) (Some name) (lo_typePtr lo) (lo_lastOT lo)))
  else if bool_decide (syntax = LABEL) then mret (inl (lo_set_name text lo))
  else if bool_decide (syntax = LEFTBRACKET) then _ ← while skip_bracket 1%nat; mret (inl lo)
  else mret (inr None).

(** [case EQUALS:] *)
Definition type_assignment (lo : locals) : parse file_round :=
  name ← lift (of_option MibUndefined (lo_name lo));
  '(syntax, name) ← ParseASN1Type name;
  let lo := lo_set_name name lo in
  lo ← (if bool_decide (syntax = END) then _ ← change_glob (with_module None); mret (outside lo) else mret lo);
  if is_base_type syntax then
    tt_name ← lift (of_option MibUndefined (lo_tt_name lo));
    a ← CreateType tt_name syntax None None;
    _ ← set_type (ty_set_macro TNM_MIB_TYPE_ASSIGNMENT) a;
    mret (inl (lo_set_type a lo))
  else
    _ ← (match lo_lastOT lo with
         | Some p => if bool_decide (syntax = ASN1_SEQUENCE) then set_node (fun n => if bool_decide (nd_syntax n = LABEL) then set_syntax syntax n else n) p else mret tt
         | None => mret tt
         end);
    mret (inl lo).

(** [case LEFTPAREN:] a range for the last type. *)
Definition type_range (lo : locals) : parse file_round :=
  match lo_typePtr lo with
  | None => mret (inl lo)
  | Some a =>
      t ← type a;
      '(opened, _) ← range_open (ty_syntax t);
      if (opened : bool) then
        '(range, _) ← read_range_of (ty_syntax t);
        _ ← match range with Some text => set_type (ty_set_rest TNM_MIB_REST_RANGE (ScanRange (Some text))) a | None => mret tt end;
        mret (inl lo)
      else mret (inl lo)
  end.

(** [case LEFTBRACKET:] enumerations for the last type. *)
Definition type_enums (lo : locals) : parse file_round :=
  '(syntax, text) ← ReadIntEnums;
  match lo_typePtr lo with
  | Some a =>
      if bool_decide (syntax = RIGHTBRACKET) then
        enums ← lift (ScanIntEnums (Some text));
        _ ← set_type (ty_set_rest TNM_MIB_REST_ENUMS enums) a;
        mret (inl lo)
      else mret (inl lo)
  | None => mret (inl lo)
  end.

(** A macro that defines a node, which becomes the first one of the list. *)
Definition define (macro : Z) (parse_macro : cstring -> parse (option nat)) (lo : locals) : parse file_round :=
  name ← lift (of_option MibUndefined (lo_name lo));
  nodePtr ← parse_macro name;
  match nodePtr with
  | None => mret (inr None)
  | Some p =>
      module ← glob gl_moduleName;
      _ ← set_node (set_origin macro module) p;
      _ ← push_node p;
      mret (inl (mkLocals (lo_inMib lo) (lo_name lo) (lo_tt_name lo) (lo_typePtr lo)
                   (if bool_decide (macro = TNM_MIB_OBJECTTYPE) then Some p else lo_lastOT lo)))
  end.

(** The macros and what they define. *)
Definition macro_of (syntax : Z) : option (Z * (cstring -> parse (option nat))) :=
  if bool_decide (syntax = MODULECOMP) then Some (TNM_MIB_COMPLIANCE, ParseModuleCompliance)
  else if bool_decide (syntax = MODULEIDENTITY) then Some (TNM_MIB_MODULEIDENTITY, ParseModuleIdentity)
  else if bool_decide (syntax = NOTIFYTYPE) then Some (TNM_MIB_NOTIFICATIONTYPE, ParseNotificationType)
  else if bool_decide (syntax = NOTIFYGROUP) then Some (TNM_MIB_NOTIFICATIONGROUP, ParseNotificationGroup)
  else if bool_decide (syntax = CAPABILITIES) then Some (TNM_MIB_CAPABILITIES, ParseCapabilitiesType)
  else if bool_decide (syntax = TRAPTYPE) then Some (TNM_MIB_TRAPTYPE, ParseTrapType)
  else if bool_decide (syntax = OBJGROUP) then Some (TNM_MIB_OBJECTGROUP, ParseObjectGroup)
  else if bool_decide (syntax = OBJECTIDENTITY) then Some (TNM_MIB_OBJECTIDENTITY, ParseObjectIdentity)
  else if bool_decide (syntax = ASN1_OBJECT_IDENTIFIER) then Some (TNM_MIB_VALUE_ASSIGNEMENT, ParseObjectID)
  else if bool_decide (syntax = OBJTYPE) then Some (TNM_MIB_OBJECTTYPE, ParseObjectType)
  else None.

(** [state == IN_MIB] *)
Definition in_mib (lo : locals) (syntax : Z) (text : cstring) : parse file_round :=
  if bool_decide (syntax = END) then _ ← change_glob (with_module None); mret (inl (outside lo))
  else if bool_decide (syntax = EQUALS) then type_assignment lo
  else if bool_decide (syntax = LABEL) then mret (inl (mkLocals true (Some text) (Some text) (lo_typePtr lo) (lo_lastOT lo)))
  else if bool_decide (syntax = LEFTPAREN) then type_range lo
  else if bool_decide (syntax = LEFTBRACKET) then type_enums lo
  else
    match macro_of syntax with
    | Some (macro, parse_macro) => define macro parse_macro lo
    | None => mret (inr None)
    end.

Definition parse_round (lo : locals) : parse file_round :=
  '(syntax, text) ← keyword;
  if bool_decide (syntax = EOF) then
    list ← get ps_nodeList;
    mret (inr (if lo_inMib lo then None else list))
  else if lo_inMib lo then in_mib lo syntax text else out_of_mib lo syntax text.

(** The first node of the list, [None] for [NULL]. *)
Definition ParseFile : parse (option nat) := while parse_round (mkLocals false None None None None).

(** [TnmMibParse(file, NULL)], where [content] is the content of the file if it can be
    opened: the name of the module. *)
Definition TnmMibParse (file : cstring) (content : option cstring) (g : mib_globals) : mib_out (option cstring * mib_globals) :=
  let g := with_mib (fun mib => mkMib (mb_nodes mib) (mb_nodehashtab mib) (mb_nodeHashTable mib) (mb_tree mib) (Some file) (mb_stderr mib)) g in
  match content with
  | None => mret (None, g)
  | Some content =>
      let saveMark := head (gl_list g) in
      '(nodePtr, s) ← ParseFile (mkParser g content (length content) None);
      let g := ps_glob s in
      '(code, mib) ← TnmMibAddNode (gl_mib g) nodePtr;
      let g := with_mib (fun _ => mib) g in
      if bool_decide (code = -1) then mret (None, g)
      else
        match nodePtr with
        | Some p => n ← deref mib p; mret (nd_moduleName n, g)
        | None =>
            if bool_decide (head (gl_list g) = saveMark) then mret (None, g)
            else mret ((a ← head (gl_list g); t ← gl_types g !! a; ty_moduleName t), g)
        end
  end.
End parser.
