(* ===== verification/MibCmd.v ===== *)
(** The Tcl command [mib], [tnmMibTcl.c].

    An argument of the command is a Tcl object with its string and, if it was used as an
    object identifier before, its internal representation.  Messages of errors are left
    out.  Tcl and the file system are parameters; a script that [mib walk] evaluates is a
    function on the whole state. *)

From stdpp Require Import gmap.
From S2P Require Import Prelude Ber CStr Oid Util Obj Snmp Mib Hint MibTree MibNames OidObj MibIndex MibLexer MibParser MibMacro.
Local Open Scope Z_scope.

(** ** State and interfaces *)

(** The results of [Tcl_EvalObj]. *)
Inductive eval_code := EvOk | EvError | EvReturn | EvBreak | EvContinue.
#[global] Instance eval_code_dec : EqDecision eval_code.
Proof. solve_decision. Defined.

(** The objects that become results and values of variables. *)
Inductive mib_object :=
  | ObjString (s : cstring)
  | ObjInt (v : Z)
  | ObjBool (b : bool)
  | ObjOid (o : oid_obj)
  | ObjList (l : list mib_object).

(** The static variables: the MIB and its types, [mibFilesLoaded], [tnmMibModulesLoaded],
    [alreadyDone] of [TnmMibLoadCore] and of [TnmMibLoad], [initialized], the cache of
    host names; [mi_world] is the interpreter. *)
Record mib_interp (W : Type) := mkInterp {
  mi_glob : mib_globals;
  mi_files : option (list cstring);
  mi_modules : option (list cstring);
  mi_core : bool;
  mi_all : bool;
  mi_initialized : bool;
  mi_hosts : host_table;
  mi_world : W
}.
Arguments mkInterp {W} _ _ _ _ _ _ _ _.
Arguments mi_glob {W} _.
Arguments mi_files {W} _.
Arguments mi_modules {W} _.
Arguments mi_core {W} _.
Arguments mi_all {W} _.
Arguments mi_initialized {W} _.
Arguments mi_hosts {W} _.
Arguments mi_world {W} _.

Section setters.
Context {W : Type}.
Implicit Types s : mib_interp W.

(** The nodes with their types, and the types. *)
Definition mi_mib s : mib_state := mib_of (mi_glob s).
Definition mi_types s : type_state := types_of (mi_glob s).

Definition set_world (w : W) s := mkInterp (mi_glob s) (mi_files s) (mi_modules s) (mi_core s) (mi_all s) (mi_initialized s) (mi_hosts s) w.
Definition set_hosts (h : host_table) s := mkInterp (mi_glob s) (mi_files s) (mi_modules s) (mi_core s) (mi_all s) (mi_initialized s) h (mi_world s).
Definition set_loaded (files modules : option (list cstring)) s := mkInterp (mi_glob s) files modules (mi_core s) (mi_all s) (mi_initialized s) (mi_hosts s) (mi_world s).
Definition set_glob (g : mib_globals) s := mkInterp g (mi_files s) (mi_modules s) (mi_core s) (mi_all s) (mi_initialized s) (mi_hosts s) (mi_world s).
Definition set_done (core all initialized : bool) s := mkInterp (mi_glob s) (mi_files s) (mi_modules s) core all initialized (mi_hosts s) (mi_world s).
End setters.
Arguments mi_mib {W} s : simpl never.
Arguments mi_types {W} s : simpl never.

(** What the command uses of Tcl and of the system.  [Tcl_ObjSetVar2] is [None] when the
    variable cannot be set; [Tcl_FSConvertToPathType] and [Tcl_FSAccess] are whether the
    name can be converted and the file read; [hash_names] lists the keys of a hash table. *)
Class MibTcl (W : Type) := mkMibTcl {
  Tcl_GetLong : cstring -> option Z;
  inet_addr : cstring -> list Z;
  gethostbyname : cstring -> option (list Z);
  Tcl_StringMatch : cstring -> cstring -> bool;
  Tcl_ListObjGetElements : cstring -> option (list cstring);
  Tcl_GetVar2 : W -> cstring -> cstring -> option cstring;
  Tcl_ObjSetVar2 : W -> cstring -> mib_object -> option W;
  Tcl_FSConvertToPathType : cstring -> bool;
  Tcl_FSAccess : W -> cstring -> bool;
  read_file : W -> cstring -> option cstring;
  hash_names : gmap cstring TnmMibType -> list cstring;
  Tcl_DStringAppendElement : cstring -> cstring -> cstring;
  Tcl_EvalObj : cstring -> mib_interp W -> mib_out (eval_code * mib_object * mib_interp W)
}.

Section mib_command.
Context {W : Type} `{!MibTcl W}.
Implicit Types s : mib_interp W.

(** What a command returns: its code, its result and the state. *)
Definition mib_result : Type := mib_out (tcl_code * mib_object * mib_interp W).
Definition no_result : mib_object := ObjString [].
Definition mib_ok (r : mib_object) s : mib_result := mret (TCL_OK, r, s).
Definition mib_error s : mib_result := mret (TCL_ERROR, no_result, s).

Definition arg_string s (obj : oid_obj) : mib_out cstring := '(string, _) ← oid_obj_string (mi_mib s) obj; mret string.

(** ** Arguments *)

Definition GetMibType s (obj : oid_obj) : mib_out (option TnmMibType) :=
  string ← arg_string s obj; mret (TnmMibFindType (mi_types s) string).

(** A node that was found: the node, the object identifier of the argument, the one of
    the node, and the argument after its conversion. *)
Record found_node := mkFound { fn_node : nat; fn_oid : TnmOid; fn_nodeOid : TnmOid; fn_obj : oid_obj }.

Definition GetMibNode (st : mib_state) (obj : oid_obj) : mib_out (option found_node) :=
  '(oid, obj) ← TnmGetOidFromObj st obj;
  match oid with
  | None => mret None
  | Some oid =>
      node ← TnmMibNodeFromOid st oid;
      match node with
      | None => mret None
      | Some (p, l) =>
          nodeOid ← of_option MibOverrun (oid_append_all l TnmOidInit);
          mret (if bool_decide (oid_length oid = 0) then None else Some (mkFound p oid nodeOid obj))
      end
  end.

Definition GetMibNodeOrType s (obj : oid_obj) : mib_out (option (TnmMibType + nat)) :=
  type ← GetMibType s obj;
  match type with
  | Some type => mret (Some (inl type))
  | None => node ← GetMibNode (mi_mib s) obj; mret (inr ∘ fn_node <$> node)
  end.

Definition GetMibColumnNode (st : mib_state) (obj : oid_obj) : mib_out (option found_node) :=
  node ← GetMibNode st obj;
  match node with
  | None => mret None
  | Some f =>
      n ← deref st (fn_node f);
      if bool_decide (nd_macro n <> TNM_MIB_OBJECTTYPE) then mret None
      else if bool_decide (nd_syntax n = ASN1_SEQUENCE) || bool_decide (nd_syntax n = ASN1_SEQUENCE_OF) then mret None
      else
        match nd_parentPtr n with
        | None => mret None
        | Some parent => r ← deref st parent; mret (if bool_decide (nd_syntax r = ASN1_SEQUENCE) then Some f else None)
        end
  end.

(** ** The index of a table *)

(** The entry of a table for the table itself, the entry and its columns. *)
Definition entry_node (st : mib_state) (p : nat) : mib_out TnmMibNode :=
  n ← deref st p;
  n ← match nd_childPtr n with
      | Some child => if bool_decide (nd_syntax n = ASN1_SEQUENCE_OF) then deref st child else mret n
      | None => mret n
      end;
  match nd_parentPtr n with
  | Some parent =>
      if bool_decide (nd_syntax n <> ASN1_SEQUENCE) then
        r ← deref st parent; mret (if bool_decide (nd_syntax r = ASN1_SEQUENCE) then r else n)
      else mret n
  | None => mret n
  end.

(** [for (i = 0; i < idxc; i++)]: the index nodes and the objects of the list. *)
Fixpoint index_nodes (st : mib_state) (names : list cstring) : mib_out (list (nat * oid_obj)) :=
  match names with
  | [] => mret []
  | name :: names =>
      node ← GetMibNode st (mkOidObj (Some name) None);
      f ← of_option MibPanic node;
      rest ← index_nodes st names;
      mret ((fn_node f, mkOidObj None ((fun rep => (rep.1, TNM_OID_AS_OID)) <$> oo_rep (fn_obj f))) :: rest)
  end.

(** The nodes and objects of the index, and [implied]. *)
Definition GetIndexList (st : mib_state) (p : nat) : mib_out (option (list (nat * oid_obj) * bool)) :=
  n ← deref st p;
  match nd_parentPtr n with
  | None => mret None
  | Some _ =>
      n ← entry_node st p;
      match nd_index n with
      | Some index =>
          if bool_decide (nd_syntax n <> ASN1_SEQUENCE) then mret None
          else
            n ← (if nd_augment n then
                   '(entry, _) ← TnmMibFindNode st index true;
                   entry ← of_option MibPanic entry;
                   e ← deref st entry;
                   if bool_decide (nd_syntax e = ASN1_SEQUENCE) then mret e else MibFault MibPanic
                 else mret n);
            names ← of_option MibPanic (Tcl_ListObjGetElements (default [] (nd_index n)));
            nodes ← index_nodes st names;
            mret (Some (nodes, nd_implied n))
      | None => mret None
      end
  end.

(** [*indexNodeList] *)
Definition node_list (st : mib_state) (nodes : list (nat * oid_obj)) : mib_out (list TnmMibNode) :=
  foldr (fun n l => n ← deref st n.1; l ← l; mret (n :: l)) (mret []) nodes.

(** ** Loading files *)

Definition site_path (library : cstring) (dir : string) (file : cstring) : cstring := library ++ cstr dir ++ file.

(** The name of the file that is found; [None] is an error. *)
Definition find_mib_file s (file : cstring) : option cstring :=
  let readable name := Tcl_FSConvertToPathType name && Tcl_FSAccess (mi_world s) name in
  if negb (Tcl_FSConvertToPathType file) then None
  else
    match Tcl_GetVar2 (mi_world s) (cstr "tnm") (cstr "library") with
    | None => Some file
    | Some library =>
        if Tcl_FSAccess (mi_world s) file then Some file
        else if readable (site_path library "/site/" file) then Some (site_path library "/site/" file)
        else if readable (site_path library "/mibs/" file) then Some (site_path library "/mibs/" file)
        else None
    end.

(** A file is loaded once. *)
Definition TnmMibLoadFile s (file : cstring) : mib_out (tcl_code * mib_interp W) :=
  let files := default [] (mi_files s) in
  let modules := default [] (mi_modules s) in
  let s := set_loaded (Some files) (Some modules) s in
  match find_mib_file s file with
  | None => mret (TCL_ERROR, s)
  | Some fileName =>
      if bool_decide (file ∈ files) then mret (TCL_OK, s)
      else
        '(module, g) ← TnmMibParse Tcl_DStringAppendElement fileName (read_file (mi_world s) fileName) (mi_glob s);
        let s := set_glob g s in
        match module with
        | None => mret (TCL_ERROR, s)
        | Some module => mret (TCL_OK, set_loaded (Some (files ++ [file])) (Some (modules ++ [module])) s)
        end
  end.

(** [for (i = 0; i < objc; i++)] *)
Fixpoint load_files s (files : list cstring) : mib_out (tcl_code * mib_interp W) :=
  match files with
  | [] => mret (TCL_OK, s)
  | file :: files =>
      '(code, s) ← TnmMibLoadFile s file;
      match code with TCL_OK => load_files s files | TCL_ERROR => mret (TCL_ERROR, s) end
  end.

(** The files in the element [part2] of the variable [tnm]; [finish] records that they
    were loaded. *)
Definition load_variable s (part2 : string) (finish : mib_interp W -> mib_interp W) : mib_out (tcl_code * mib_interp W) :=
  match Tcl_GetVar2 (mi_world s) (cstr "tnm") (cstr part2) with
  | None => mret (TCL_OK, s)
  | Some list =>
      match Tcl_ListObjGetElements list with
      | None => mret (TCL_ERROR, s)
      | Some files =>
          '(code, s) ← load_files s files;
          mret match code with TCL_OK => (TCL_OK, finish s) | TCL_ERROR => (TCL_ERROR, s) end
      end
  end.

Definition TnmMibLoadCore s : mib_out (tcl_code * mib_interp W) :=
  if mi_core s then mret (TCL_OK, s)
  else load_variable s "mibs:core" (fun s => set_done true (mi_all s) (mi_initialized s) s).

Definition TnmMibLoad s : mib_out (tcl_code * mib_interp W) :=
  if mi_all s then mret (TCL_OK, s)
  else
    '(code, s) ← TnmMibLoadCore s;
    match code with
    | TCL_ERROR => mret (TCL_ERROR, s)
    | TCL_OK => load_variable s "mibs" (fun s => set_done (mi_core s) true (mi_initialized s) s)
    end.

(** [if (! initialized)] of [Tnm_MibObjCmd] *)
Definition mib_initialize s (cmd : cstring) : mib_out (tcl_code * mib_interp W) :=
  if mi_initialized s then mret (TCL_OK, s)
  else
    '(code, s) ← TnmMibLoadCore s;
    '(code, s) ← match code with
                 | TCL_OK => if bool_decide (cmd <> cstr "load") then TnmMibLoad s else mret (TCL_OK, s)
                 | TCL_ERROR => mret (TCL_ERROR, s)
                 end;
    mret match code with TCL_OK => (TCL_OK, set_done (mi_core s) (mi_all s) true s) | TCL_ERROR => (TCL_ERROR, s) end.

(** ** Walking the tree *)

(** The loop from [nodePtr] on: the result of the script, [*oidPtr] and the state.
    [length] is the length of [*oidPtr] when the procedure is called. *)
Fixpoint WalkTree (fuel : nat) s (varName body : cstring) (nodePtr : option nat) (oid rootOid : TnmOid) (length : Z)
    : mib_out (eval_code * mib_object * TnmOid * mib_interp W) :=
  match nodePtr with
  | None => mret (EvOk, no_result, oid, s)
  | Some p =>
      match fuel with
      | O => MibFault MibLoops
      | S fuel =>
          n ← deref (mi_mib s) p;
          oid ← of_option MibOverrun (TnmOidSet oid (Z.to_nat (length - 1)) (nd_subid n));
          inTree ← of_option MibOverrun (TnmOidInTree rootOid oid);
          if negb inTree then mret (EvOk, no_result, oid, s)
          else
            obj ← TnmNewOidObj oid;
            match Tcl_ObjSetVar2 (mi_world s) varName (ObjOid obj) with
            | None => mret (EvError, no_result, oid, s)
            | Some w =>
                '(result, value, s) ← Tcl_EvalObj body (set_world w s);
                n ← deref (mi_mib s) p;
                '(result, value, oid, s) ←
                  (if (bool_decide (result = EvOk) || bool_decide (result = EvContinue)) && bool_decide (is_Some (nd_childPtr n)) then
                     oid ← of_option MibOverrun (TnmOidSetLength oid (length + 1));
                     '(result, value, oid, s) ← WalkTree fuel s varName body (nd_childPtr n) oid rootOid (TnmOidGetLength oid);
                     oid ← of_option MibOverrun (TnmOidSetLength oid length);
                     mret (result, value, oid, s)
                   else mret (result, value, oid, s));
                if bool_decide (result = EvOk) || bool_decide (result = EvContinue) then
                  n ← deref (mi_mib s) p;
                  WalkTree fuel s varName body (nd_nextPtr n) oid rootOid length
                else mret (result, value, oid, s)
            end
      end
  end.

Definition cmdWalk (fuel : nat) s (varName node body : oid_obj) : mib_result :=
  found ← GetMibNode (mi_mib s) node;
  match found with
  | None => mib_error s
  | Some f =>
      rootOid ← of_option MibOverrun (TnmOidCopy TnmOidInit (fn_nodeOid f));
      varName ← arg_string s varName;
      body ← arg_string s body;
      '(code, value, _, s) ← WalkTree fuel s varName body (Some (fn_node f)) (fn_nodeOid f) rootOid (TnmOidGetLength (fn_nodeOid f));
      match code with
      | EvOk => mib_ok no_result s
      | EvBreak => mib_ok value s
      | _ => mret (TCL_ERROR, value, s)
      end
  end.

(** ** Subcommands *)

(** A result that is left in the variable of a last argument, with whether there is one,
    or becomes the result of the command. *)
Definition give_result s (varName : option oid_obj) (result : option mib_object) (there : bool) : mib_result :=
  match varName with
  | None => mib_ok (default no_result result) s
  | Some var =>
      var ← arg_string s var;
      match result with
      | None => mib_ok (ObjBool there) s
      | Some r =>
          match Tcl_ObjSetVar2 (mi_world s) var r with
          | None => mib_error s
          | Some w => mib_ok (ObjBool there) (set_world w s)
          end
      end
  end.
Definition give_string s (varName : option oid_obj) (result : option cstring) : mib_result :=
  give_result s varName (ObjString <$> result) (bool_decide (is_Some result)).

(** Commands on a node, a type or either of them. *)
Definition with_node s (obj : oid_obj) (k : found_node -> TnmMibNode -> mib_result) : mib_result :=
  found ← GetMibNode (mi_mib s) obj;
  match found with
  | None => mib_error s
  | Some f => n ← deref (mi_mib s) (fn_node f); k f n
  end.
Definition with_type s (obj : oid_obj) (k : TnmMibType -> mib_result) : mib_result :=
  type ← GetMibType s obj;
  match type with None => mib_error s | Some type => k type end.
Definition with_either s (obj : oid_obj) (k : TnmMibType + TnmMibNode -> mib_result) : mib_result :=
  either ← GetMibNodeOrType s obj;
  match either with
  | None => mib_error s
  | Some (inl type) => k (inl type)
  | Some (inr p) => n ← deref (mi_mib s) p; k (inr n)
  end.
Definition with_oid s (obj : oid_obj) (k : TnmOid -> oid_obj -> mib_result) : mib_result :=
  '(oid, obj) ← TnmGetOidFromObj (mi_mib s) obj;
  match oid with None => mib_error s | Some oid => k oid obj end.

(** The object with another notation and no string. *)
Definition as_notation (notation : oid_notation) (obj : oid_obj) : oid_obj :=
  mkOidObj None ((fun rep => (rep.1, notation)) <$> oo_rep obj).
Definition notation_of (obj : oid_obj) : oid_notation := default TNM_OID_AS_OID (snd <$> oo_rep obj).

Definition cmdCompare s (obj1 obj2 : oid_obj) : mib_result :=
  with_oid s obj1 (fun oid1 _ => with_oid s obj2 (fun oid2 _ =>
    r ← of_option MibOverrun (TnmOidCompare oid1 oid2); mib_ok (ObjInt r) s)).

Definition cmdSubtree s (obj1 obj2 : oid_obj) : mib_result :=
  with_oid s obj1 (fun oid1 _ => with_oid s obj2 (fun oid2 _ =>
    r ← of_option MibOverrun (TnmOidInTree oid1 oid2); mib_ok (ObjInt (if (r : bool) then 1 else 0)) s)).

Definition type_and_syntax (either : TnmMibType + TnmMibNode) : option TnmMibType * Z :=
  match either with inl type => (Some type, ty_syntax type) | inr n => (nd_typePtr n, nd_syntax n) end.

Definition cmdScan (fuel : nat) s (obj value : oid_obj) : mib_result :=
  with_either s obj (fun either =>
    string ← arg_string s value;
    let '(type, syntax) := type_and_syntax either in
    r ← TnmMibScanValue (oid_as TNM_OID_AS_OID (mi_mib s)) fuel type syntax string;
    mib_ok (ObjString (default string r)) s).

Definition cmdFormat (fuel : nat) s (obj value : oid_obj) : mib_result :=
  with_either s obj (fun either =>
    string ← arg_string s value;
    let '(type, syntax) := type_and_syntax either in
    r ← TnmMibFormatValue Tcl_GetLong (oid_as TNM_OID_AS_NAME (mi_mib s)) fuel type syntax string;
    mib_ok (ObjString (default string r)) s).

Definition cmdAccess s (obj : oid_obj) (varName : option oid_obj) : mib_result :=
  with_node s obj (fun _ n => give_string s varName (TnmGetTableValue tnmMibAccessTable (nd_access n))).

(** [for (nodePtr = nodePtr->childPtr; nodePtr; nodePtr = nodePtr->nextPtr)] *)
Fixpoint child_list (fuel : nat) (st : mib_state) (nodePtr : option nat) (nodeOid : TnmOid) (index : nat) (notation : oid_notation)
    : mib_out (list mib_object) :=
  match nodePtr with
  | None => mret []
  | Some p =>
      match fuel with
      | O => MibFault MibLoops
      | S fuel =>
          n ← deref st p;
          nodeOid ← of_option MibOverrun (TnmOidSet nodeOid index (nd_subid n));
          obj ← TnmNewOidObj nodeOid;
          rest ← child_list fuel st (nd_nextPtr n) nodeOid index notation;
          mret (ObjOid (as_notation notation obj) :: rest)
      end
  end.

Definition cmdChild s (obj : oid_obj) (varName : option oid_obj) : mib_result :=
  with_node s obj (fun f n =>
    l ← match nd_childPtr n with
        | None => mret []
        | Some child =>
            '(_, nodeOid) ← of_option MibOverrun (TnmOidAppend (fn_nodeOid f) 0);
            child_list (steps (mi_mib s)) (mi_mib s) (Some child) nodeOid (Z.to_nat (TnmOidGetLength (fn_nodeOid f))) (notation_of (fn_obj f))
        end;
    match varName with
    | None => mib_ok (ObjList l) s
    | Some var =>
        var ← arg_string s var;
        match Tcl_ObjSetVar2 (mi_world s) var (ObjList l) with
        | None => mib_error s
        | Some w => mib_ok (ObjInt (Z.of_nat (length l))) (set_world w s)
        end
    end).

Definition cmdDefval s (obj : oid_obj) (varName : option oid_obj) : mib_result :=
  with_node s obj (fun _ n =>
    give_string s varName
      (if bool_decide (nd_macro n = TNM_MIB_OBJECTTYPE) && bool_decide (nd_syntax n <> ASN1_SEQUENCE_OF) && bool_decide (nd_syntax n <> ASN1_SEQUENCE)
       then nd_index n else None)).

Definition cmdDescr s (obj : oid_obj) (varName : option oid_obj) : mib_result :=
  with_either s obj (fun either =>
    let '(fileName, fileOffset) := match either with inl t => (ty_fileName t, ty_fileOffset t) | inr n => (nd_fileName n, nd_fileOffset n) end in
    text ← TnmMibGetString fileName (name ← fileName; read_file (mi_world s) name) fileOffset;
    give_string s varName text).

Definition cmdDisplay s (obj : oid_obj) (varName : option oid_obj) : mib_result :=
  with_type s obj (fun type => give_string s varName (ty_displayHint type)).

(** Labels and values in turn. *)
Definition enum_list (rests : list TnmMibRest) : list mib_object :=
  rests ≫= (fun r => match r with intEnum v label => [ObjString label; ObjInt v] | _ => [] end).

(** A variable gets the empty list of a type without enumerations, too. *)
Definition cmdEnums s (obj : oid_obj) (varName : option oid_obj) : mib_result :=
  with_type s obj (fun type =>
    let enums := bool_decide (ty_restKind type = TNM_MIB_REST_ENUMS) in
    give_result s varName (Some (ObjList (if enums then enum_list (ty_restList type) else []))) enums).

Definition cmdExists s (obj : oid_obj) : mib_result :=
  either ← GetMibNodeOrType s obj; mib_ok (ObjBool (bool_decide (is_Some either))) s.

Definition cmdFile s (obj : oid_obj) : mib_result :=
  with_either s obj (fun either => give_string s None (match either with inl t => ty_fileName t | inr n => nd_fileName n end)).

Definition cmdIndex s (obj : oid_obj) : mib_result :=
  with_node s obj (fun f _ =>
    index ← GetIndexList (mi_mib s) (fn_node f);
    mib_ok match index with Some (nodes, _) => ObjList (map (fun n => ObjOid n.2) nodes) | None => no_result end s).

(** [Tcl_ListObjGetElements] of a [NULL] pointer *)
Definition TnmListFromList (objPtr : option (list cstring)) (pattern : option cstring) : mib_out (list cstring) :=
  objv ← of_option MibNull objPtr;
  mret (filter (fun name => Is_true (pattern_ok Tcl_StringMatch pattern name)) objv).

Definition TnmMibListTypes (ts : type_state) (pattern : option cstring) : list cstring :=
  TnmListFromTable Tcl_StringMatch tnmSnmpTypeTable [] pattern ++
  match ts_hash ts with
  | Some table => filter (fun name => Is_true (bool_decide (is_Some (index_of chr_bang name)) && pattern_ok Tcl_StringMatch pattern name)) (hash_names table)
  | None => []
  end.

Definition cmdInfo s (subject : cstring) (pattern : option cstring) : mib_result :=
  let give l := mib_ok (ObjList (ObjString <$> l)) s in
  let table t := give (TnmListFromTable Tcl_StringMatch t [] pattern) in
  if bool_decide (subject = cstr "access") then table tnmMibAccessTable
  else if bool_decide (subject = cstr "files") then l ← TnmListFromList (mi_files s) pattern; give l
  else if bool_decide (subject = cstr "macros") then table tnmMibMacroTable
  else if bool_decide (subject = cstr "modules") then l ← TnmListFromList (mi_modules s) pattern; give l
  else if bool_decide (subject = cstr "status") then table tnmMibStatusTable
  else if bool_decide (subject = cstr "types") then give (TnmMibListTypes (mi_types s) pattern)
  else mib_error s.

Definition cmdLabel s (obj : oid_obj) : mib_result :=
  with_either s obj (fun either => give_string s None (match either with inl t => ty_name t | inr n => Some (nd_label n) end)).

Definition cmdMacro s (obj : oid_obj) : mib_result :=
  with_either s obj (fun either =>
    give_string s None (TnmGetTableValue tnmMibMacroTable (match either with inl t => ty_macro t | inr n => nd_macro n end))).

Definition cmdMember s (obj : oid_obj) : mib_result :=
  with_node s obj (fun _ n =>
    give_string s None (if bool_decide (nd_macro n = TNM_MIB_OBJECTGROUP) || bool_decide (nd_macro n = TNM_MIB_NOTIFICATIONGROUP) then nd_index n else None)).

Definition cmdModule s (obj : oid_obj) : mib_result :=
  with_either s obj (fun either => give_string s None (match either with inl t => ty_moduleName t | inr n => nd_moduleName n end)).

Definition cmdName s (obj : oid_obj) : mib_result :=
  with_node s obj (fun f _ => mib_ok (ObjOid (as_notation TNM_OID_AS_NAME (fn_obj f))) s).

Definition cmdOid s (obj : oid_obj) : mib_result :=
  with_oid s obj (fun _ obj => mib_ok (ObjOid (as_notation TNM_OID_AS_OID obj)) s).

(** The result of the command, an empty string, is made an object identifier. *)
Definition cmdParent s (obj : oid_obj) : mib_result :=
  with_node s obj (fun f n =>
    match nd_parentPtr n with
    | None => mib_ok no_result s
    | Some _ =>
        '(oid, _) ← TnmGetOidFromObj (mi_mib s) (mkOidObj (Some []) None);
        oid ← of_option MibNull oid;
        oid ← of_option MibOverrun (oid_append_all (removelast (oid_values (fn_nodeOid f))) oid);
        mib_ok (ObjOid (mkOidObj None (Some (oid, notation_of (fn_obj f))))) s
    end).

(** Bounds in turn. *)
Definition range_list (rests : list TnmMibRest) : list mib_object :=
  rests ≫= (fun r => match r with intRange min max => [ObjInt min; ObjInt max] | unsRange min max => [ObjInt (s32 min); ObjInt (s32 max)] | _ => [] end).

Definition cmdRange s (obj : oid_obj) : mib_result :=
  with_type s obj (fun type => mib_ok (ObjList (if bool_decide (ty_restKind type = TNM_MIB_REST_RANGE) then range_list (ty_restList type) else [])) s).
Definition cmdSize s (obj : oid_obj) : mib_result :=
  with_type s obj (fun type => mib_ok (ObjList (if bool_decide (ty_restKind type = TNM_MIB_REST_SIZE) then range_list (ty_restList type) else [])) s).

(** The subidentifiers of the node and those of the instance. *)
Definition cmdSplit s (obj : oid_obj) : mib_result :=
  with_node s obj (fun f n =>
    if bool_decide (nd_macro n = TNM_MIB_OBJECTTYPE) then
      let len := Z.to_nat (TnmOidGetLength (fn_nodeOid f)) in
      base ← of_option MibOverrun (oid_append_all (take len (oid_values (fn_oid f))) TnmOidInit);
      inst ← of_option MibOverrun (oid_append_all (drop len (oid_values (fn_oid f))) TnmOidInit);
      base ← TnmNewOidObj base;
      inst ← TnmNewOidObj inst;
      mib_ok (ObjList [ObjOid base; ObjOid inst]) s
    else mib_ok no_result s).

Definition cmdStatus s (obj : oid_obj) : mib_result :=
  with_either s obj (fun either =>
    give_string s None (TnmGetTableValue tnmMibStatusTable (match either with inl t => ty_status t | inr n => nd_status n end))).

(** The base syntax of a type or a node. *)
Definition syntax_text (either : TnmMibType + TnmMibNode) : option cstring :=
  match either with
  | inl type => TnmGetTableValue tnmSnmpTypeTable (u32 (ty_syntax type))
  | inr n =>
      if bool_decide (nd_macro n = TNM_MIB_OBJECTTYPE) then
        match t ← nd_typePtr n; name ← ty_name t; Some (t, name) with
        | Some (t, name) =>
            if bool_decide (ty_macro t = TNM_MIB_OBJECTTYPE) || bool_decide (ty_macro t = TNM_MIB_TEXTUALCONVENTION) || bool_decide (ty_macro t = TNM_MIB_TYPE_ASSIGNMENT)
            then TnmGetTableValue tnmSnmpTypeTable (u32 (ty_syntax t)) else Some name
        | None => TnmGetTableValue tnmSnmpTypeTable (nd_syntax n)
        end
      else None
  end.
Definition cmdSyntax s (obj : oid_obj) : mib_result := with_either s obj (fun either => give_string s None (syntax_text either)).

Definition cmdType s (obj : oid_obj) : mib_result :=
  with_node s obj (fun _ n =>
    give_string s None
      (if bool_decide (nd_macro n = TNM_MIB_OBJECTTYPE) then
         match nd_typePtr n with
         | Some t => Some (match ty_moduleName t with Some m => m ++ [chr_bang] | None => [] end ++ default [] (ty_name t))
         | None => TnmGetTableValue tnmSnmpTypeTable (nd_syntax n)
         end
       else None)).

Definition cmdLength s (obj : oid_obj) : mib_result := with_oid s obj (fun oid _ => mib_ok (ObjInt (TnmOidGetLength oid)) s).

Fixpoint arg_strings s (objs : list oid_obj) : mib_out (list cstring) :=
  match objs with
  | [] => mret []
  | obj :: objs => string ← arg_string s obj; rest ← arg_strings s objs; mret (string :: rest)
  end.

(** A column with the index of its table: [None] is a failure of [GetMibColumnNode], the
    index [None] a failure of [GetIndexList]. *)
Definition column_index (st : mib_state) (obj : oid_obj) : mib_out (option (found_node * option (list TnmMibNode * bool))) :=
  found ← GetMibColumnNode st obj;
  match found with
  | None => mret None
  | Some f =>
      index ← GetIndexList st (fn_node f);
      match index with
      | None => mret (Some (f, None))
      | Some (nodes, implied) => l ← node_list st nodes; mret (Some (f, Some (l, implied)))
      end
  end.

Definition cmdPack (fuel : nat) s (obj : oid_obj) (values : list oid_obj) : mib_result :=
  column ← column_index (mi_mib s) obj;
  match column with
  | None | Some (_, None) => mib_error s
  | Some (f, Some (nodes, implied)) =>
      objv ← arg_strings s values;
      '(result, oid, hosts) ← TnmMibPack Tcl_GetLong inet_addr gethostbyname fuel (mi_mib s) (mi_hosts s) (fn_nodeOid f) objv implied nodes;
      let s := set_hosts hosts s in
      match result with
      | PackOk => obj ← TnmNewOidObj oid; mib_ok (ObjOid obj) s
      | _ => mib_error s
      end
  end.

Definition cmdUnpack (fuel : nat) s (obj : oid_obj) : mib_result :=
  column ← column_index (mi_mib s) obj;
  match column with
  | None => mib_error s
  | Some (_, None) => mib_ok no_result s
  | Some (f, Some (nodes, implied)) =>
      result ← TnmMibUnpack Tcl_GetLong fuel (mi_mib s) (fn_oid f) (Z.to_nat (TnmOidGetLength (fn_oid f) - TnmOidGetLength (fn_nodeOid f))) implied nodes;
      match result with
      | UnpackOk texts => mib_ok (ObjList (ObjString <$> texts)) s
      | _ => mib_error s
      end
  end.

Definition cmdVariables s (obj : oid_obj) : mib_result :=
  with_node s obj (fun _ n =>
    give_string s None (if bool_decide (nd_macro n = TNM_MIB_TRAPTYPE) || bool_decide (nd_macro n = TNM_MIB_NOTIFICATIONTYPE) then nd_index n else None)).

Definition cmdLoad s (obj : oid_obj) : mib_result :=
  file ← arg_string s obj;
  '(code, s) ← TnmMibLoadFile s file;
  mret (code, no_result, s).

(** ** The command *)

Definition cmdTable : list cstring := map cstr
  ["access"; "children"; "compare"; "defval"; "description"; "displayhint"; "enums"; "exists"; "file"; "format"; "index";
   "info"; "label"; "length"; "load"; "macro"; "member"; "module"; "name"; "oid"; "pack"; "parent"; "range"; "scan"; "size";
   "split"; "status"; "subtree"; "syntax"; "type"; "unpack"; "variables"; "walk"].

(** Commands with one argument. *)
Definition mib_command1 s (cmd : cstring) (obj : oid_obj) : option mib_result :=
  if bool_decide (cmd = cstr "exists") then Some (cmdExists s obj)
  else if bool_decide (cmd = cstr "file") then Some (cmdFile s obj)
  else if bool_decide (cmd = cstr "index") then Some (cmdIndex s obj)
  else if bool_decide (cmd = cstr "label") then Some (cmdLabel s obj)
  else if bool_decide (cmd = cstr "load") then Some (cmdLoad s obj)
  else if bool_decide (cmd = cstr "macro") then Some (cmdMacro s obj)
  else if bool_decide (cmd = cstr "member") then Some (cmdMember s obj)
  else if bool_decide (cmd = cstr "module") then Some (cmdModule s obj)
  else if bool_decide (cmd = cstr "name") then Some (cmdName s obj)
  else if bool_decide (cmd = cstr "oid") then Some (cmdOid s obj)
  else if bool_decide (cmd = cstr "parent") then Some (cmdParent s obj)
  else if bool_decide (cmd = cstr "range") then Some (cmdRange s obj)
  else if bool_decide (cmd = cstr "size") then Some (cmdSize s obj)
  else if bool_decide (cmd = cstr "split") then Some (cmdSplit s obj)
  else if bool_decide (cmd = cstr "status") then Some (cmdStatus s obj)
  else if bool_decide (cmd = cstr "syntax") then Some (cmdSyntax s obj)
  else if bool_decide (cmd = cstr "type") then Some (cmdType s obj)
  else if bool_decide (cmd = cstr "length") then Some (cmdLength s obj)
  else if bool_decide (cmd = cstr "variables") then Some (cmdVariables s obj)
  else None.

(** Commands with an optional name of a variable. *)
Definition mib_command_var s (cmd : cstring) (obj : oid_obj) (varName : option oid_obj) : option mib_result :=
  if bool_decide (cmd = cstr "access") then Some (cmdAccess s obj varName)
  else if bool_decide (cmd = cstr "children") then Some (cmdChild s obj varName)
  else if bool_decide (cmd = cstr "defval") then Some (cmdDefval s obj varName)
  else if bool_decide (cmd = cstr "description") then Some (cmdDescr s obj varName)
  else if bool_decide (cmd = cstr "displayhint") then Some (cmdDisplay s obj varName)
  else if bool_decide (cmd = cstr "enums") then Some (cmdEnums s obj varName)
  else None.

(** Commands with two arguments. *)
Definition mib_command2 (fuel : nat) s (cmd : cstring) (obj1 obj2 : oid_obj) : option mib_result :=
  if bool_decide (cmd = cstr "compare") then Some (cmdCompare s obj1 obj2)
  else if bool_decide (cmd = cstr "format") then Some (cmdFormat fuel s obj1 obj2)
  else if bool_decide (cmd = cstr "scan") then Some (cmdScan fuel s obj1 obj2)
  else if bool_decide (cmd = cstr "subtree") then Some (cmdSubtree s obj1 obj2)
  else None.

(** [switch (cmd)]: the wrong number of arguments is an error. *)
Definition mib_switch (fuel : nat) s (cmd : cstring) (args : list oid_obj) : mib_result :=
  if bool_decide (cmd = cstr "walk") then
    match args with [varName; node; body] => cmdWalk fuel s varName node body | _ => mib_error s end
  else if bool_decide (cmd = cstr "pack") then
    match args with obj :: value :: values => cmdPack fuel s obj (value :: values) | _ => mib_error s end
  else if bool_decide (cmd = cstr "unpack") then match args with [obj] => cmdUnpack fuel s obj | _ => mib_error s end
  else if bool_decide (cmd = cstr "info") then
    match args with
    | [subject] => subject ← arg_string s subject; cmdInfo s subject None
    | [subject; pattern] => subject ← arg_string s subject; pattern ← arg_string s pattern; cmdInfo s subject (Some pattern)
    | _ => mib_error s
    end
  else
    default (mib_error s)
      match args with
      | [obj] => match mib_command1 s cmd obj with Some r => Some r | None => mib_command_var s cmd obj None end
      | [obj1; obj2] => match mib_command_var s cmd obj1 (Some obj2) with Some r => Some r | None => mib_command2 fuel s cmd obj1 obj2 end
      | _ => None
      end.

Definition Tnm_MibObjCmd (fuel : nat) s (objv : list oid_obj) : mib_result :=
  match objv with
  | cmd :: args =>
      cmd ← arg_string s cmd;
      if bool_decide (cmd ∈ cmdTable) then
        '(code, s) ← mib_initialize s cmd;
        match code with TCL_ERROR => mib_error s | TCL_OK => mib_switch fuel s cmd args end
      else mib_error s
  | [] => mib_error s
  end.
End mib_command.
