(* ===== verification/MibWalk.v ===== *)
(** Walking the MIB tree ([mib walk]), children and parents. *)

From stdpp Require Import gmap sorting.
From S2P Require Import Prelude Ber CStr Oid OidTheorems Util Obj Snmp Mib Hint MibTree MibTreeInv MibTreeFind MibTreeAdd MibNames OidObj MibNamesTheorems MibIndex MibIndexTheorems MibLexer MibParser MibCmd.
Local Open Scope Z_scope.

(** ** Object identifiers in the tree *)

Section preorder.
Context (roots : list nat) (st : mib_state) (K : tree_view) (F : list (list nat)).
Context (R : rep roots st K F).
#[local] Set Default Proof Using "Type*".

(** The object identifiers of the nodes below a list of nodes, a node before its children. *)
Inductive preorder : list nat -> list (list Z) -> Prop :=
  | preorder_nil : preorder [] []
  | preorder_cons p o kids l os1 os2 : K !! p = Some (o, kids) -> preorder kids os1 -> preorder l os2 -> preorder (p :: l) (o :: os1 ++ os2).

Lemma under_oid l p o kids : under K l p -> K !! p = Some (o, kids) -> exists q o' kids', q ∈ l /\ K !! q = Some (o', kids') /\ o' `prefix_of` o.
Proof.
  intros Hu. revert o kids. induction Hu as [l q Hq|l r o' kids' q Hr Hk _ IH]; intros o kids Hp; [by exists q, o, kids|].
  destruct (IH _ _ Hp) as (k & ok & kk & Hin & Hk' & Hpre). exists r, o', kids'. split; [done|]. split; [done|]. etrans; [|exact Hpre].
  destruct (view_oid _ _ _ _ R _ _ _ Hk') as (n & _ & [[Hroot ->]|(r2 & o2 & l2 & Hr2 & Hin2 & -> & Hpar)]).
  - destruct (rep_roots _ _ _ _ R) as (_ & _ & Hroots). rewrite Forall_forall in Hroots. destruct (Hroots _ Hroot) as (m & ? & Hm & Hnone & _).
    destruct (rep_kids _ _ _ _ R _ _ _ Hk) as (? & _ & _ & _ & Hkids). rewrite Forall_forall in Hkids. destruct (Hkids _ Hin) as (m' & ? & Hm' & ? & _). congruence.
  - destruct (rep_kids _ _ _ _ R _ _ _ Hk) as (? & _ & _ & _ & Hkids). rewrite Forall_forall in Hkids. destruct (Hkids _ Hin) as (m' & ? & Hm' & Hpar' & _ & Hk2).
    rewrite Hk' in Hk2. injection Hk2 as Ho _. apply app_inj_tail in Ho as [-> _]. by apply prefix_app_r.
Qed.

Lemma prefix_under : forall o2 q o kids p kids', K !! q = Some (o, kids) -> K !! p = Some (o ++ o2, kids') -> under K [q] p.
Proof.
  induction o2 as [|s o2 IH] using rev_ind; intros q o kids p kids' Hq Hp.
  - rewrite app_nil_r in Hp. rewrite (view_inj _ _ _ _ R _ _ _ _ _ Hp Hq). by apply under_here, list_elem_of_singleton.
  - rewrite app_assoc in Hp. destruct (view_oid _ _ _ _ R _ _ _ Hp) as (n & _ & [[_ E]|(r & o1 & l1 & Hr & Hin & E & _)]).
    + apply (f_equal length) in E. rewrite !length_app in E. cbn in E. assert (o = []) as -> by (destruct o; [done|cbn in E; lia]). by apply (view_nonempty _ _ _ _ R) in Hq.
    + apply app_inj_tail in E as [<- _]. eapply under_trans; [eapply IH; [exact Hq|exact Hr]|exact Hr|exact Hin].
Qed.

Lemma preorder_in l os : preorder l os -> forall o, o ∈ os <-> exists p kids, under K l p /\ K !! p = Some (o, kids).
Proof.
  induction 1 as [|p o' kids l os1 os2 Hp _ IH1 _ IH2]; intros o.
  - split; [by intros ?%not_elem_of_nil|]. intros (p & kids & Hu & _). inversion Hu as [? ? H|? ? ? ? ? H]; by apply not_elem_of_nil in H.
  - rewrite elem_of_cons, elem_of_app, IH1, IH2. split.
    + intros [->|[(q & k & Hu & Hq)|(q & k & Hu & Hq)]]; [exists p, kids; split; [by apply under_here, elem_of_cons; left|done]|exists q, k; split; [|done]; eapply under_kid; [by apply elem_of_cons; left|done..]|].
      exists q, k. split; [|done]. inversion Hu as [? ? H|? r ? ? ? H Hr Hu']; subst; [by apply under_here, elem_of_cons; right|eapply under_kid; [by apply elem_of_cons; right|done..]].
    + intros (q & k & Hu & Hq). inversion Hu as [? ? H|? r ? ? ? H Hr Hu']; subst.
      * apply elem_of_cons in H as [->|H]; [left; congruence|right; right; exists q, k; split; [by apply under_here|done]].
      * apply elem_of_cons in H as [->|H]; [right; left; exists q, k; split; [congruence|done]|right; right; exists q, k; split; [by eapply under_kid|done]].
Qed.

Lemma lex_below a x : lex a (a ++ x) <= 0 /\ (x <> [] -> lex a (a ++ x) = -1).
Proof. induction a as [|c a IH]; [by destruct x|]. cbn. by rewrite !bool_decide_eq_false_2 by lia. Qed.

Lemma lex_apart o a b x y : a < b -> lex ((o ++ [a]) ++ x) ((o ++ [b]) ++ y) = -1.
Proof. intros H. rewrite <- !app_assoc. induction o as [|c o IH]; cbn; [by rewrite bool_decide_eq_true_2|]. by rewrite !bool_decide_eq_false_2 by lia. Qed.

Definition before (o o' : list Z) : Prop := lex o o' = -1.

Lemma sorted_app l1 l2 : StronglySorted before l1 -> StronglySorted before l2 -> (forall x y, x ∈ l1 -> y ∈ l2 -> before x y) -> StronglySorted before (l1 ++ l2).
Proof.
  induction 1 as [|x l1 Hs IH Hx]; intros H2 Hxy; [done|]. cbn. constructor.
  - apply IH; [done|]. intros a b Ha Hb. apply Hxy; [by right|done].
  - apply Forall_app. split; [done|]. apply Forall_forall. intros y Hy. apply Hxy; [by left|done].
Qed.

Lemma preorder_below l os o : brothers st K o l -> preorder l os -> Forall (fun o' => exists q x, q ∈ l /\ o' = (o ++ [subid_of (mb_nodes st) q]) ++ x) os.
Proof.
  intros [_ Hb] Hp. rewrite Forall_forall in Hb. apply Forall_forall. intros o' (p & kids & Hu & Hk)%(preorder_in _ _ Hp).
  destruct (under_oid _ _ _ _ Hu Hk) as (q & o1 & k1 & Hq & Hk1 & [x ->]). destruct (Hb _ Hq) as [k2 Hk2]. exists q, x. split; [done|]. f_equal. congruence.
Qed.

Lemma preorder_sorted l os : preorder l os -> forall o, brothers st K o l -> StronglySorted before os.
Proof.
  induction 1 as [|p o' kids l os1 os2 Hp H1 IH1 H2 IH2]; intros o Hb; [constructor|]. pose proof Hb as [Hs Hf]. apply Forall_cons in Hf as [[k Hk] Hf]. rewrite Hp in Hk. injection Hk as Ho' <-.
  assert (Hbl : brothers st K o l) by (split; [unfold by_subid in *; rewrite fmap_cons in Hs; by apply StronglySorted_inv in Hs as [? _]|done]).
  assert (Hbk : brothers st K o' kids) by (by eapply kids_brothers). pose proof (preorder_below _ _ _ Hbk H1) as F1. pose proof (preorder_below _ _ _ Hbl H2) as F2. rewrite Forall_forall in F1, F2.
  assert (Hlt : forall q, q ∈ l -> subid_of (mb_nodes st) p < subid_of (mb_nodes st) q).
  { intros q Hq. unfold by_subid in Hs. rewrite fmap_cons in Hs. apply StronglySorted_inv in Hs as [_ Hs]. rewrite Forall_forall in Hs. apply Hs. by apply list_elem_of_fmap_2. }
  constructor.
  - apply sorted_app; [by eapply IH1|by eapply IH2|]. intros x y (q & s & _ & ->)%F1 (q' & s' & Hq' & ->)%F2. rewrite Ho', <- app_assoc. apply lex_apart. by apply Hlt.
  - apply Forall_app. split; apply Forall_forall.
    + intros x (q & s & _ & ->)%F1. rewrite <- app_assoc. apply lex_below. by destruct (_ : list Z).
    + intros y (q & s & Hq & ->)%F2. rewrite Ho'. rewrite <- (app_nil_r (o ++ [_])). apply lex_apart. by apply Hlt.
Qed.
End preorder.

(** ** Arguments that name a node *)

Section nodes.
Context (roots : list nat) (st : mib_state) (K : tree_view) (F : list (list nat)).
Context (R : rep roots st K F) (Htree : mb_tree st = head roots).
#[local] Set Default Proof Using "Type*".

Lemma oid_values_list oid : oid_values oid = oid_list oid.
Proof. done. Qed.

Lemma oid_first oid x l : oid_wf oid -> oid_list oid = x :: l -> TnmOidGet oid 0 = Some x.
Proof.
  intros Hwf Hl. pose proof (oid_list_length _ Hwf) as Hlen. rewrite Hl in Hlen. cbn in Hlen. rewrite oid_list_lookup by lia. by rewrite Hl.
Qed.

Lemma node_from_oid oid : oid_wf oid -> oid_list oid <> [] -> exists r, TnmMibNodeFromOid st oid = MibOk r /\
  match r with Some (q, o) => deepest K (oid_list oid) q o | None => forall q o l, K !! q = Some (o, l) -> ~ o `prefix_of` oid_list oid end.
Proof.
  intros Hwf Hne. destruct (oid_list oid) as [|s rest] eqn:Hl; [done|]. unfold TnmMibNodeFromOid. rewrite (oid_first _ _ _ Hwf Hl). cbn [of_option]. unfold mbind, mib_bind, mret, mib_ret. rewrite Htree.
  destruct (first_node_spec roots st K F R s) as (res & Hres & Hr). unfold first_node in Hres. rewrite Hres. rewrite oid_values_list, Hl. cbn [drop].
  destruct res as [p|].
  - destruct Hr as [l Hp]. destruct (descend_spec roots st K F R rest p [s] l 0 Hp) as (q & k & Hd & Hk & (l' & Hq) & Hno). rewrite drop_0, Hd. eexists. split; [done|]. cbn. by eapply (deepest_found roots st K F R).
  - eexists. split; [done|]. intros q o l Hq [suf Hpre]. destruct o as [|t o]; [by apply (view_nonempty _ _ _ _ R) in Hq|]. injection Hpre as <- _. by eapply Hr.
Qed.

Lemma deepest_oid l q o : deepest K l q o -> o <> [] /\ (length o <= length l)%nat.
Proof.
  intros ([k Hq] & Hpre & _). split; [intros ->; by apply (view_nonempty _ _ _ _ R) in Hq|]. by apply prefix_length.
Qed.

(** [GetMibNode] finds the node with the longest object identifier. *)
Lemma GetMibNode_spec obj oid obj' q o : TnmGetOidFromObj st obj = MibOk (Some oid, obj') -> oid_wf oid -> (length (oid_list oid) <= TNM_OID_MAX_SIZE)%nat -> deepest K (oid_list oid) q o ->
  exists nodeOid, GetMibNode st obj = MibOk (Some (mkFound q oid nodeOid obj')) /\ oid_wf nodeOid /\ oid_list nodeOid = o.
Proof.
  intros Hget Hwf Hmax Hd. destruct (deepest_oid _ _ _ Hd) as [Ho Hlen]. assert (Hne : oid_list oid <> []) by (intros E; rewrite E in Hlen; destruct o; [done|cbn in Hlen; lia]).
  unfold GetMibNode. rewrite Hget. unfold mbind, mib_bind, mret, mib_ret. destruct (node_from_oid oid Hwf Hne) as (r & -> & Hr).
  destruct r as [[q' o']|]; [|destruct Hd as ([k Hq] & Hpre & _); by destruct (Hr _ _ _ Hq)].
  assert (o' = o /\ q' = q) as [-> ->].
  { destruct Hd as ([l Hq] & Hpre & Hm), Hr as ([l' Hq'] & Hpre' & Hm'). pose proof (Hm _ _ _ Hq' Hpre'). pose proof (Hm' _ _ _ Hq Hpre). assert (o' = o) as ->; [|split; [done|by eapply (view_inj _ _ _ _ R)]].
    destruct Hpre as [s1 E1], Hpre' as [s2 E2]. rewrite E1 in E2. assert (length o = length o') as E by lia. by apply app_inj_1 in E2 as [<- _]. }
  destruct (oid_append_all_spec o TnmOidInit oid_wf_init) as (nodeOid & -> & Hwf' & Hl'); [|change (oid_list TnmOidInit) with (@nil Z); cbn [length]; lia|].
  { destruct Hd as (_ & [x Hx] & _). pose proof (oid_list_u32 _ Hwf) as Hu. rewrite Hx in Hu. by apply Forall_app in Hu as [? _]. }
  cbn [of_option]. exists nodeOid. rewrite bool_decide_eq_false_2; [done|]. pose proof (oid_list_length _ Hwf) as Hll. intros E. rewrite E in Hll. destruct (oid_list oid); [done|cbn in Hll; lia].
Qed.

(** An object for an object identifier. *)
Definition oid_object (o : list Z) (notation : oid_notation) (obj : oid_obj) : Prop :=
  exists oid, obj = mkOidObj None (Some (oid, notation)) /\ oid_wf oid /\ oid_list oid = o.

Lemma NewOidObj_spec oid : oid_wf oid -> (length (oid_list oid) <= TNM_OID_MAX_SIZE)%nat -> exists obj, TnmNewOidObj oid = MibOk obj /\ oid_object (oid_list oid) TNM_OID_AS_OID obj.
Proof.
  intros Hwf Hmax. unfold TnmNewOidObj. destruct (oid_append_all_spec (oid_values oid) TnmOidInit oid_wf_init (oid_list_u32 _ Hwf)) as (oid' & -> & Hwf' & Hl); [change (oid_list TnmOidInit) with (@nil Z); cbn [length]; rewrite oid_values_list; lia|].
  cbn. eexists. split; [done|]. by exists oid'.
Qed.
End nodes.

(** ** The walk *)

(** An object identifier that is being walked: [o] and one more subidentifier. *)
Definition walking (o : list Z) (oid : TnmOid) : Prop :=
  oid_wf oid /\ oid_length oid = Z.of_nat (S (length o)) /\ take (length o) (oid_list oid) = o.

Lemma walking_set o oid v : walking o oid -> is_u32 v -> exists oid', TnmOidSet oid (Z.to_nat (oid_length oid - 1)) v = Some oid' /\ walking o oid' /\ oid_list oid' = o ++ [v].
Proof.
  intros (Hwf & Hl & Ht) Hv. pose proof Hwf as (H1 & H2 & H3 & H4). rewrite Hl in *. rewrite TnmOidSet_spec by lia. eexists. split; [done|].
  assert (Hlist : oid_list (set_oid_elements oid (<[Z.to_nat (Z.of_nat (S (length o)) - 1) := u32 v]> (oid_elements oid))) = o ++ [v]).
  { unfold oid_list. rewrite oid_length_set, oid_elements_set, Hl. replace (Z.to_nat (Z.of_nat (S (length o)) - 1)) with (length o) by lia. rewrite Nat2Z.id, take_S_insert by lia. rewrite u32_id by done. f_equal.
    rewrite <- Ht at 2. unfold oid_list. rewrite take_take. f_equal. lia. }
  split; [|done]. split; [|split].
  - apply oid_wf_set; [done|by rewrite length_insert|]. by apply Forall_insert, u32_range.
  - by rewrite oid_length_set.
  - by rewrite Hlist, take_app_length.
Qed.

Lemma walking_down o s oid : walking o oid -> oid_list oid = o ++ [s] -> (S (length o) < TNM_OID_MAX_SIZE)%nat ->
  exists oid', TnmOidSetLength oid (oid_length oid + 1) = Some oid' /\ walking (o ++ [s]) oid'.
Proof.
  intros (Hwf & Hl & _) Hlist Hmax. unfold TNM_OID_MAX_SIZE in Hmax. destruct (TnmOidSetLength_spec oid (oid_length oid + 1) Hwf) as (oid' & He & Hwf' & Hl' & Ht); [unfold oid_max; lia|].
  exists oid'. split; [done|]. split; [done|]. rewrite length_app. cbn [length]. split; [lia|]. rewrite Hl, Nat2Z.id, Hlist in Ht. replace (length o + 1)%nat with (S (length o)) by lia. rewrite Ht.
  rewrite take_ge; [done|]. rewrite length_app. cbn. lia.
Qed.

Lemma walking_up o s oid : walking (o ++ [s]) oid -> (S (length o) < TNM_OID_MAX_SIZE)%nat -> exists oid', TnmOidSetLength oid (Z.of_nat (S (length o))) = Some oid' /\ walking o oid'.
Proof.
  intros (Hwf & Hl & Ht) Hmax. unfold TNM_OID_MAX_SIZE in Hmax. rewrite length_app in Hl, Ht. cbn [length] in Hl, Ht.
  destruct (TnmOidSetLength_spec oid (Z.of_nat (S (length o))) Hwf) as (oid' & He & Hwf' & Hl' & Ht'); [unfold oid_max; lia|].
  exists oid'. split; [done|]. split; [done|]. split; [done|]. rewrite Nat2Z.id in Ht'. pose proof (oid_list_length _ Hwf') as Hlen. rewrite Hl', Nat2Z.id in Hlen.
  rewrite take_ge in Ht' by (rewrite Hlen; lia). rewrite Ht'. replace (S (length o)) with (length o + 1)%nat by lia. rewrite Ht. by rewrite take_app_length.
Qed.

Lemma subid_u32 roots st K F p n : rep roots st K F -> mb_nodes st !! p = Some n -> is_u32 (nd_subid n).
Proof. intros R Hn. destruct (rep_node _ _ _ _ R _ _ Hn) as ([? ?] & _). unfold is_u32. lia. Qed.

Section walk.
Context {W : Type} `{!MibTcl W} (varName body : cstring).
Implicit Types s : mib_interp W.

Definition goes_on (code : eval_code) : bool := bool_decide (code = EvOk) || bool_decide (code = EvContinue).

(** The script is evaluated for some object identifiers, one after the other, with the
    variable set to them, until it is done or stops the walk. *)
Inductive visits : mib_interp W -> list (list Z) -> eval_code -> mib_interp W -> Prop :=
  | visits_end s : visits s [] EvOk s
  | visits_next s o obj w code v s1 os code' s' : oid_object o TNM_OID_AS_OID obj -> Tcl_ObjSetVar2 (mi_world s) varName (ObjOid obj) = Some w ->
      Tcl_EvalObj body (set_world w s) = MibOk (code, v, s1) -> goes_on code = true -> visits s1 os code' s' -> visits s (o :: os) code' s'
  | visits_stop s o obj w code v s' os : oid_object o TNM_OID_AS_OID obj -> Tcl_ObjSetVar2 (mi_world s) varName (ObjOid obj) = Some w ->
      Tcl_EvalObj body (set_world w s) = MibOk (code, v, s') -> goes_on code = false -> visits s (o :: os) code s'
  | visits_var s o obj os : oid_object o TNM_OID_AS_OID obj -> Tcl_ObjSetVar2 (mi_world s) varName (ObjOid obj) = None -> visits s (o :: os) EvError s.

Lemma visits_code s os code s' : visits s os code s' -> code = EvOk \/ goes_on code = false.
Proof. induction 1; [by left|done|by right|by right]. Qed.

Lemma visits_app s os1 s1 os2 code s2 : visits s os1 EvOk s1 -> visits s1 os2 code s2 -> visits s (os1 ++ os2) code s2.
Proof.
  remember EvOk as c eqn:Hc. induction 1 as [s|s o obj w c1 v s1 os c' s' Ho Hv He Hg _ IH|s o obj w c1 v s' os Ho Hv He Hg|s o obj os Ho Hv]; intros H2; [done| |by subst|done].
  eapply visits_next; [done..|]. by apply IH.
Qed.
Lemma visits_stopped s os1 os2 code s' : visits s os1 code s' -> code <> EvOk -> visits s (os1 ++ os2) code s'.
Proof.
  induction 1 as [s|s o obj w c1 v s1 os c' s' Ho Hv He Hg _ IH|s o obj w c1 v s' os Ho Hv He Hg|s o obj os Ho Hv]; intros H2; [done| | |].
  - eapply visits_next; [done..|]. by apply IH.
  - by eapply visits_stop.
  - by eapply visits_var.
Qed.

Context (roots : list nat) (st : mib_state) (K : tree_view) (F : list (list nat)).
Context (R : rep roots st K F).
(** Object identifiers in the MIB have at most 128 subidentifiers. *)
Context (Hdepth : forall p o l, K !! p = Some (o, l) -> (length o <= TNM_OID_MAX_SIZE)%nat).
(** The script returns and leaves the MIB as it is. *)
Context (Heval : forall s, mi_mib s = st -> exists code v s', Tcl_EvalObj body s = MibOk (code, v, s') /\ mi_mib s' = st).
#[local] Set Default Proof Using "Type*".

(** A sibling of the node the walk started at ends the loop. *)
Lemma WalkTree_outside fuel s o l oid rootOid : mi_mib s = st -> chain (mb_nodes st) (head l) l -> (l <> [] -> 0 < fuel)%nat -> walking o oid -> oid_wf rootOid ->
  (forall q, q ∈ l -> oid_list rootOid <> o ++ [subid_of (mb_nodes st) q]) -> length (oid_list rootOid) = S (length o) ->
  exists oid', WalkTree fuel s varName body (head l) oid rootOid (Z.of_nat (S (length o))) = MibOk (EvOk, no_result, oid', s) /\ walking o oid'.
Proof.
  intros Hs Hc Hf Hw Hr Hout Hlen. destruct l as [|p l]; [destruct fuel; by eexists|]. destruct fuel as [|fuel]; [exfalso; specialize (Hf ltac:(done)); lia|].
  destruct Hc as [_ (n & Hn & _)]. cbn [WalkTree head]. rewrite Hs, (deref_node _ _ _ Hn). unfold mbind, mib_bind, mret, mib_ret.
  destruct (walking_set _ _ _ Hw (subid_u32 _ _ _ _ _ _ R Hn)) as (oid1 & He & Hw1 & Hl1). destruct Hw as (_ & Hol & _). rewrite Hol in He. rewrite He. cbn [of_option]. unfold mret, mib_ret.
  rewrite TnmOidInTree_spec by (done || apply Hw1). cbn [of_option]. unfold mret, mib_ret. rewrite Hl1, bool_decide_eq_false_2; [by exists oid1|].
  assert (Hsub : subid_of (mb_nodes st) p = nd_subid n) by (unfold subid_of; by rewrite Hn). intros [x Hx]. apply (Hout p); [by left|]. rewrite Hsub.
  assert (Hx' := f_equal length Hx). rewrite !length_app, Hlen in Hx'. cbn in Hx'. destruct x; [|cbn in Hx'; lia]. by rewrite app_nil_r in Hx.
Qed.

(** Behind the script of a node: its children are walked. *)
Definition walk_kids (fuel : nat) (rootOid : TnmOid) (length : Z) (child : option nat) (r : eval_code * mib_object * TnmOid * mib_interp W)
    : mib_out (eval_code * mib_object * TnmOid * mib_interp W) :=
  let '(result, value, oid, s) := r in
  if goes_on result && bool_decide (is_Some child) then
    oid ← of_option MibOverrun (TnmOidSetLength oid (length + 1));
    '(result, value, oid, s) ← WalkTree fuel s varName body child oid rootOid (TnmOidGetLength oid);
    oid ← of_option MibOverrun (TnmOidSetLength oid length);
    mret (result, value, oid, s)
  else mret (result, value, oid, s).

Definition here (rootOid : TnmOid) (o : list Z) (l : list nat) : list nat := if decide (oid_list rootOid `prefix_of` o) then l else take 1 l.

(** What [WalkTree] does from a list of brothers on: all of them when they are below the
    root of the walk, or the root itself only. *)
Definition walks (rootOid : TnmOid) (fuel : nat) : Prop :=
  forall s o l oid os, mi_mib s = st -> brothers st K o l -> chain (mb_nodes st) (head l) l -> enough_for st K fuel o l -> walking o oid ->
  (oid_list rootOid `prefix_of` o \/ exists q l', l = q :: l' /\ oid_list rootOid = o ++ [subid_of (mb_nodes st) q]) -> preorder K (here rootOid o l) os ->
  exists code v oid' s', visits s os code s' /\ mi_mib s' = st /\ walking o oid' /\
    WalkTree fuel s varName body (head l) oid rootOid (Z.of_nat (S (length o))) = MibOk (code, v, oid', s') /\ (code = EvOk -> v = no_result).

Lemma walk_kids_spec fuel rootOid s o x p n kids os code v oid : walks rootOid fuel -> mi_mib s = st -> K !! p = Some (o ++ [x], kids) -> mb_nodes st !! p = Some n -> enough_for st K fuel (o ++ [x]) kids ->
  walking o oid -> oid_list oid = o ++ [x] -> oid_list rootOid `prefix_of` o ++ [x] -> preorder K kids os ->
  exists code' v' oid' s', walk_kids fuel rootOid (Z.of_nat (S (length o))) (nd_childPtr n) (code, v, oid, s) = MibOk (code', v', oid', s') /\ mi_mib s' = st /\ walking o oid' /\
    if goes_on code then visits s os code' s' \/ (os = [] /\ code' = code /\ s' = s) else code' = code /\ s' = s /\ v' = v.
Proof.
  intros IH Hs Hp Hn He Hw Hl Hpre Hos. destruct (rep_kids _ _ _ _ R _ _ _ Hp) as (n' & Hn' & Hck & _ & _). rewrite Hn in Hn'. injection Hn' as <-. pose proof (chain_head _ _ _ Hck) as Hhk. unfold walk_kids.
  destruct (goes_on code) eqn:Hg; cbn [andb]; [|by eexists _, _, _, _]. case_bool_decide as Hkid.
  2: { assert (kids = []) as -> by (rewrite Hhk in Hkid; destruct kids; [done|]; exfalso; apply Hkid; by eexists). inversion Hos; subst. eexists _, _, _, _. split; [done|]. split; [done|]. split; [done|]. by right. }
  assert (Hmax : (S (length o) < TNM_OID_MAX_SIZE)%nat).
  { destruct kids as [|k kids]; [rewrite Hhk in Hkid; by destruct Hkid|]. destruct (kids_brothers roots st K F R _ _ _ Hp) as [_ Hb]. apply Forall_cons in Hb as [[lk Hk] _]. apply Hdepth in Hk. rewrite !length_app in Hk. cbn in Hk. unfold TNM_OID_MAX_SIZE in *. lia. }
  destruct (walking_down _ _ _ Hw Hl Hmax) as (oid1 & He1 & Hw1). destruct Hw as (_ & Hol & _). rewrite Hol in He1. rewrite He1. cbn [of_option]. unfold mbind, mib_bind, mret, mib_ret.
  pose proof Hw1 as (_ & Hol1 & _). unfold TnmOidGetLength. rewrite Hol1, Hhk in *.
  destruct (IH s (o ++ [x]) kids oid1 os Hs (kids_brothers roots st K F R _ _ _ Hp) Hck He Hw1 (or_introl Hpre)) as (code' & v' & oid2 & s' & Hv & Hs' & Hw2 & -> & _).
  { unfold here. by rewrite decide_True. }
  destruct (walking_up _ _ _ Hw2 Hmax) as (oid3 & -> & Hw3). eexists _, _, _, _. split; [done|]. split; [done|]. split; [done|]. by left.
Qed.

(** The loop goes on behind a node. *)
Lemma walk_behind fuel rootOid s o p l n oid os : oid_wf rootOid -> walks rootOid fuel -> mi_mib s = st -> brothers st K o (p :: l) -> mb_nodes st !! p = Some n -> chain (mb_nodes st) (nd_nextPtr n) l ->
  enough_for st K (S fuel) o (p :: l) -> walking o oid -> (oid_list rootOid `prefix_of` o \/ exists q l', p :: l = q :: l' /\ oid_list rootOid = o ++ [subid_of (mb_nodes st) q]) ->
  preorder K (if decide (oid_list rootOid `prefix_of` o) then l else []) os ->
  exists code v oid' s', visits s os code s' /\ mi_mib s' = st /\ walking o oid' /\
    WalkTree fuel s varName body (nd_nextPtr n) oid rootOid (Z.of_nat (S (length o))) = MibOk (code, v, oid', s') /\ (code = EvOk -> v = no_result).
Proof.
  intros Hr IH Hs [Hsort Hb'] Hn Hcl He Hw Hroot Hos. pose proof (chain_head _ _ _ Hcl) as Hhead. apply Forall_cons in Hb' as [Hp Hb']. unfold by_subid in Hsort. rewrite fmap_cons in Hsort. apply StronglySorted_inv in Hsort as [Hsort Hlt].
  rewrite Hhead in Hcl |- *. assert (Hel : enough_for st K fuel o l).
  { eapply (enough_next roots st K F R); [|exact He]. split; [unfold by_subid; rewrite fmap_cons; by constructor|by constructor]. }
  case_decide as Hpre.
  - apply IH; [done|by split|done|done|done|by left|]. unfold here. by rewrite decide_True.
  - destruct Hroot as [?|(q & l' & [= <- <-] & Hro)]; [done|]. inversion Hos; subst os. destruct (WalkTree_outside fuel s o l oid rootOid Hs Hcl) as (oid' & -> & Hw'); [|done|done| | |].
    + destruct l; [done|]. cbn in Hel. lia.
    + intros q Hq. rewrite Hro. intros [= E]%app_inv_head. rewrite Forall_forall in Hlt. specialize (Hlt _ (list_elem_of_fmap_2 _ _ _ Hq)). lia.
    + rewrite Hro, length_app. cbn. lia.
    + exists EvOk, no_result, oid', s. by split; [constructor|].
Qed.

Lemma WalkTree_spec rootOid : oid_wf rootOid -> forall fuel, walks rootOid fuel.
Proof.
  intros Hr. induction fuel as [|fuel IH]; intros s o l oid os Hs Hb Hc He Hw Hroot Hos.
  { destruct l as [|p l]; [|cbn in He; lia]. assert (os = []) as -> by (unfold here in Hos; case_decide; by inversion Hos). exists EvOk, no_result, oid, s. by split; [constructor|]. }
  destruct l as [|p l]; [assert (os = []) as -> by (unfold here in Hos; case_decide; by inversion Hos); exists EvOk, no_result, oid, s; by split; [constructor|]|].
  pose proof Hc as [_ (n & Hn & Hcl)]. assert (Hsub : subid_of (mb_nodes st) p = nd_subid n) by (unfold subid_of; by rewrite Hn).
  pose proof Hb as [Hsort Hb']. apply Forall_cons in Hb' as [[kids Hp] Hb']. rewrite Hsub in Hp. pose proof (Hdepth _ _ _ Hp) as Hmax. rewrite length_app in Hmax. cbn [length] in Hmax.
  cbn [WalkTree head]. rewrite Hs, (deref_node _ _ _ Hn). unfold mbind, mib_bind, mret, mib_ret.
  destruct (walking_set _ _ _ Hw (subid_u32 _ _ _ _ _ _ R Hn)) as (oid1 & Hset & Hw1 & Hl1). pose proof Hw as (_ & Hol & _). rewrite Hol in Hset. rewrite Hset. cbn [of_option]. unfold mret, mib_ret.
  assert (Hpre : oid_list rootOid `prefix_of` o ++ [nd_subid n]) by (destruct Hroot as [Hpre|(q & l' & [= <- <-] & ->)]; [by apply prefix_app_r|by rewrite Hsub]).
  rewrite TnmOidInTree_spec by (done || apply Hw1). cbn [of_option]. unfold mret, mib_ret. rewrite Hl1, bool_decide_eq_true_2 by done.
  cbn [negb]. destruct (NewOidObj_spec oid1) as (obj & -> & Hobj); [apply Hw1|rewrite Hl1, length_app; cbn [length]; lia|]. rewrite Hl1 in Hobj.
  assert (Hos' : exists os1 os2, os = (o ++ [nd_subid n]) :: os1 ++ os2 /\ preorder K kids os1 /\ preorder K (if decide (oid_list rootOid `prefix_of` o) then l else []) os2).
  { unfold here in Hos. destruct (decide _); inversion Hos; subst; rewrite Hp in *; simplify_eq; by eexists _, _. }
  destruct Hos' as (os1 & os2 & -> & Hos1 & Hos2). destruct (Tcl_ObjSetVar2 (mi_world s) varName (ObjOid obj)) as [w|] eqn:Hvar.
  2: { exists EvError, no_result, oid1, s. split; [by eapply visits_var|]. by repeat split; try apply Hw1. }
  destruct (Heval (set_world w s)) as (code & v & s1 & Hev & Hs1); [by destruct s|]. rewrite Hev, Hs1, (deref_node _ _ _ Hn). fold (goes_on code).
  destruct (walk_kids_spec fuel rootOid s1 o (nd_subid n) p n kids os1 code v oid1 IH Hs1 Hp Hn) as (code' & v' & oid2 & s2 & Hk & Hs2 & Hw2 & Hpost); [|done..|].
  { eapply (enough_kids roots st K F R); [exact Hp|]. cbn in He. rewrite Hsub in He. lia. }
  unfold walk_kids, mbind, mib_bind, mret, mib_ret in Hk. rewrite Hk. fold (goes_on code'). destruct (goes_on code) eqn:Hg.
  - assert (Hgo : goes_on code' = true -> visits s1 os1 EvOk s2).
    { intros Hg'. destruct Hpost as [Hv|(-> & -> & ->)]; [|constructor]. destruct (visits_code _ _ _ _ Hv) as [->|]; [done|congruence]. }
    destruct (goes_on code') eqn:Hg'.
    + rewrite Hs2, (deref_node _ _ _ Hn). destruct (walk_behind fuel rootOid s2 o p l n oid2 os2) as (c3 & v3 & oid3 & s3 & Hv3 & H3); [done..|]. exists c3, v3, oid3, s3. split; [|done].
      eapply visits_next; [done..|]. eapply visits_app; [by apply Hgo|done].
    + destruct Hpost as [Hv|(_ & -> & _)]; [|congruence]. exists code', v', oid2, s2. split; [|split; [done|split; [done|split; [done|by intros ->]]]]. eapply visits_next; [done..|]. apply visits_stopped; [done|by intros ->].
  - destruct Hpost as (-> & -> & ->). rewrite Hg. exists code, v, oid2, s1. split; [by eapply visits_stop|]. split; [done|]. split; [done|]. split; [done|]. by intros ->.
Qed.
End walk.

Lemma preorder_total roots st K F : rep roots st K F -> forall fuel o l, brothers st K o l -> enough_for st K fuel o l -> exists os, preorder K l os.
Proof.
  intros R. induction fuel as [|fuel IH]; intros o l Hb He; (destruct l as [|p l]; [exists []; constructor|]); [cbn in He; lia|].
  pose proof Hb as [Hs Hf]. apply Forall_cons in Hf as [[kids Hp] Hf]. destruct (IH (o ++ [subid_of (mb_nodes st) p]) kids) as (os1 & H1).
  - by eapply (kids_brothers roots st K F R).
  - eapply (enough_kids roots st K F R); [exact Hp|]. cbn in He. lia.
  - destruct (IH o l) as (os2 & H2); [|by eapply (enough_next roots st K F R)|].
    + split; [|done]. unfold by_subid in *. rewrite fmap_cons in Hs. by apply StronglySorted_inv in Hs as [? _].
    + eexists. by econstructor.
Qed.

(** The brothers from a node on. *)
Lemma brothers_from roots st K F q o l : rep roots st K F -> K !! q = Some (o, l) -> exists o' rest, o = o' ++ [subid_of (mb_nodes st) q] /\ brothers st K o' (q :: rest) /\ chain (mb_nodes st) (Some q) (q :: rest).
Proof.
  intros R Hq. destruct (view_oid roots st K F R _ _ _ Hq) as (n & Hn & Hcase). assert (Hsub : subid_of (mb_nodes st) q = nd_subid n) by (unfold subid_of; by rewrite Hn).
  assert (Hsplit : forall o' l1 oh, brothers st K o' l1 -> chain (mb_nodes st) oh l1 -> q ∈ l1 -> exists rest, brothers st K o' (q :: rest) /\ chain (mb_nodes st) (Some q) (q :: rest)).
  { intros o' l1 oh Hb Hc (a & b & ->)%list_elem_of_split. exists b. split; [|by eapply chain_suffix]. destruct Hb as [Hs Hf]. apply Forall_app in Hf as [_ Hf]. split; [|done]. unfold by_subid in *. rewrite fmap_app in Hs.
    clear -Hs. induction (subid_of (mb_nodes st) <$> a) as [|x xs IHx]; [done|]. apply IHx. by apply StronglySorted_inv in Hs as [? _]. }
  destruct Hcase as [[Hroot ->]|(r & o' & l' & Hr & Hin & -> & _)].
  - destruct (Hsplit [] roots _ (roots_brothers roots st K F R) (proj1 (rep_roots _ _ _ _ R)) Hroot) as (rest & ? & ?). exists [], rest. by rewrite Hsub.
  - destruct (rep_kids _ _ _ _ R _ _ _ Hr) as (rn & _ & Hc & _). destruct (Hsplit o' l' _ (kids_brothers roots st K F R _ _ _ Hr) Hc Hin) as (rest & ? & ?). exists o', rest. by rewrite Hsub.
Qed.

(** C28: [mib walk varName node script] sets the variable to the object identifiers of the
    node and of all nodes below it, each once and in lexicographic order, and evaluates
    the script for each of them, until all are done or the script ends the walk with
    [break], an error or another code.  The command is successful after the last node and
    after [break].  The node of an object identifier is the deepest one on the way to it.
    The script may do what it likes to the interpreter but must leave the MIB alone. *)
Theorem mib_walk {W} `{!MibTcl W} roots s K F fuel varArg node bodyArg var body oid node' q o : rep roots (mi_mib s) K F -> mb_tree (mi_mib s) = head roots ->
  (forall p o' l, K !! p = Some (o', l) -> (length o' <= TNM_OID_MAX_SIZE)%nat) -> arg_string s varArg = MibOk var -> arg_string s bodyArg = MibOk body ->
  (forall s1, mi_mib s1 = mi_mib s -> exists code v s2, Tcl_EvalObj body s1 = MibOk (code, v, s2) /\ mi_mib s2 = mi_mib s) ->
  TnmGetOidFromObj (mi_mib s) node = MibOk (Some oid, node') -> oid_wf oid -> (length (oid_list oid) <= TNM_OID_MAX_SIZE)%nat -> deepest K (oid_list oid) q o -> (steps (mi_mib s) <= fuel)%nat ->
  exists os code v s', StronglySorted before os /\ (forall o', o' ∈ os <-> o `prefix_of` o' /\ exists p l, K !! p = Some (o', l)) /\ visits var body s os code s' /\
    cmdWalk fuel s varArg node bodyArg = MibOk (match code with EvOk | EvBreak => TCL_OK | _ => TCL_ERROR end, v, s').
Proof.
  intros R Ht Hdepth Hvar Hbody Heval Hget Hwf Hmax Hd Hfuel. destruct (GetMibNode_spec roots (mi_mib s) K F R Ht node oid node' q o Hget Hwf Hmax Hd) as (nodeOid & Hnode & Hwf' & Hl).
  pose proof Hd as ([l Hq] & _). destruct (brothers_from _ _ _ _ _ _ _ R Hq) as (o1 & rest & Ho & Hb & Hc). pose proof (Hdepth _ _ _ Hq) as Hlen.
  assert (Hnl : oid_length nodeOid = Z.of_nat (length o)) by (rewrite <- Hl, oid_list_length by done; pose proof Hwf' as (? & _); lia).
  destruct (TnmOidCopy_spec TnmOidInit nodeOid Hwf') as (rootOid & Hcopy & Hwfr & Hlr); [unfold oid_max, TNM_OID_MAX_SIZE in *; lia|]. rewrite Hl in Hlr.
  assert (Hno : ~ oid_list rootOid `prefix_of` o1) by (rewrite Hlr; intros Hp%prefix_length; rewrite Ho, length_app in Hp; cbn in Hp; lia).
  assert (He : enough_for (mi_mib s) K fuel o1 (q :: rest)). { pose proof (enough_start roots _ K F R o1 _ Hb) as He. cbn in He |- *. lia. }
  destruct (preorder_total _ _ _ _ R fuel o1 [q]) as (os & Hos); [destruct Hb as [_ Hb]; apply Forall_cons in Hb as [Hb _]; split; [repeat constructor|by constructor]|done|].
  destruct (WalkTree_spec var body roots (mi_mib s) K F R Hdepth Heval rootOid Hwfr fuel s o1 (q :: rest) nodeOid os) as (code & v & oid' & s' & Hv & _ & _ & Hw & Hres); [done|done|done|done| | |unfold here; by rewrite decide_False|].
  - split; [done|]. rewrite Hnl, Ho, length_app. cbn [length]. split; [lia|]. rewrite Hl, Ho. by rewrite take_app_length.
  - right. exists q, rest. split; [done|]. by rewrite Hlr.
  - exists os, code, v, s'. split; [|split; [|split; [done|]]].
    + eapply (preorder_sorted roots (mi_mib s) K F R); [done|]. destruct Hb as [_ Hb]. apply Forall_cons in Hb as [Hb _]. split; [repeat constructor|by constructor].
    + intros o'. rewrite (preorder_in roots (mi_mib s) K F R _ _ Hos). split.
      * intros (p & kids & Hu & Hp). destruct (under_oid roots (mi_mib s) K F R _ _ _ _ Hu Hp) as (q' & o2 & k2 & ->%list_elem_of_singleton & Hq' & Hpre). rewrite Hq in Hq'. injection Hq' as <- <-. split; [done|by exists p, kids].
      * intros ([x ->] & p & kids & Hp). exists p, kids. split; [|done]. by eapply (prefix_under roots (mi_mib s) K F R).
    + unfold cmdWalk. rewrite Hnode. unfold mbind, mib_bind. cbn [fn_nodeOid fn_node]. rewrite Hcopy. cbn [of_option]. unfold mret, mib_ret. rewrite Hvar, Hbody. unfold TnmOidGetLength. rewrite Hnl.
      replace (Z.of_nat (length o)) with (Z.of_nat (S (length o1))) by (rewrite Ho, length_app; cbn; lia). cbn [head] in Hw. rewrite Hw. destruct code; try reflexivity. by rewrite Hres.
Qed.

(** ** An example *)

(** An interpreter with one variable and a record of what it has been. *)
Record sample_world := mkWorld { sw_var : option mib_object; sw_seen : list (option mib_object) }.

Definition sample_split (l : cstring) : option (list cstring) := Some (if decide (l = []) then [] else [l]).

Instance sample_tcl : MibTcl sample_world := {|
  Tcl_GetLong := sscanf_ld;
  inet_addr := fun _ => [];
  gethostbyname := fun _ => None;
  Tcl_StringMatch := fun s pattern => bool_decide (s = pattern);
  Tcl_ListObjGetElements := sample_split;
  Tcl_GetVar2 := fun _ _ _ => None;
  Tcl_ObjSetVar2 := fun w _ v => Some (mkWorld (Some v) (sw_seen w));
  Tcl_FSConvertToPathType := fun _ => true;
  Tcl_FSAccess := fun _ _ => true;
  read_file := fun _ _ => None;
  hash_names := fun table => (map_to_list table).*1;
  Tcl_DStringAppendElement := fun dst element => if decide (dst = []) then element else dst ++ chr_blank :: element;
  Tcl_EvalObj := fun _ s => mret (EvOk, no_result, set_world (mkWorld (sw_var (mi_world s)) (sw_seen (mi_world s) ++ [sw_var (mi_world s)])) s)
|}.

(** Globals with no type but those of the nodes. *)
Definition no_types (mib : mib_state) : mib_globals := mkGlobals mib ∅ None [] ∅ None chr_blank.
Definition sample_interp : mib_interp sample_world := mkInterp (no_types sample_tree) (Some []) (Some []) true true true ∅ (mkWorld None []).

Lemma sample_mib : mi_mib sample_interp = sample_tree.
Proof. vm_compute. reflexivity. Qed.

Definition arg (text : string) : oid_obj := mkOidObj (Some (cstr text)) None.

Lemma mib_walk_witness : exists os code v s', StronglySorted before os /\ (forall o', o' ∈ os <-> [1; 3] `prefix_of` o' /\ exists p l, sample_view !! p = Some (o', l)) /\
  visits (cstr "x") (cstr "puts $x") sample_interp os code s' /\
  cmdWalk 5 sample_interp (arg "x") (arg "internet") (arg "puts $x") = MibOk (match code with EvOk | EvBreak => TCL_OK | _ => TCL_ERROR end, v, s').
Proof.
  destruct (TnmOidFromString_safe TnmOidInit (cstr "1.3")) as (c & oid & Hoid & Hwf). vm_compute in Hoid. injection Hoid as <- <-.
  eapply (mib_walk [10%nat; 11%nat; 12%nat] sample_interp sample_view (replicate NODEHASHSIZE []) 5 (arg "x") (arg "internet") (arg "puts $x") (cstr "x") (cstr "puts $x")).
  - rewrite sample_mib. exact sample_tree_rep.
  - reflexivity.
  - assert (H : forall q (ol : list Z * list nat), sample_view !! q = Some ol -> (length ol.1 <= TNM_OID_MAX_SIZE)%nat); [|intros p o' l Hp; exact (H p (o', l) Hp)].
    apply (map_cases (fun _ ol => (length ol.1 <= TNM_OID_MAX_SIZE)%nat)). repeat constructor.
  - reflexivity.
  - reflexivity.
  - intros s1 Hs1. eexists _, _, _. split; [reflexivity|]. exact Hs1.
  - vm_compute. reflexivity.
  - exact Hwf.
  - apply Nat.leb_le. vm_compute. reflexivity.
  - instantiate (1 := 3%nat). split; [by eexists|]. split; [by exists []|]. intros q' o' l' Hq' Hpre. apply prefix_length in Hpre. exact Hpre.
  - apply Nat.leb_le. vm_compute. reflexivity.
Defined.

(** ** Children and parents *)

Section children.
Context {W : Type} `{!MibTcl W} (roots : list nat) (s : mib_interp W) (K : tree_view) (F : list (list nat)).
Notation st := (mi_mib s).
Context (R : rep roots st K F) (Htree : mb_tree st = head roots).
#[local] Set Default Proof Using "Type*".

Definition child_object (o : list Z) (notation : oid_notation) (p : nat) (obj : mib_object) : Prop :=
  exists child, obj = ObjOid child /\ oid_object (o ++ [subid_of (mb_nodes st) p]) notation child.

Lemma child_list_spec o notation : (S (length o) <= TNM_OID_MAX_SIZE)%nat -> forall l fuel oh oid, chain (mb_nodes st) oh l -> (length l <= fuel)%nat -> walking o oid ->
  exists objs, child_list fuel st oh oid (length o) notation = MibOk objs /\ Forall2 (child_object o notation) l objs.
Proof.
  intros Hmax. induction l as [|p l IH]; intros fuel oh oid Hc Hf Hw; [cbn in Hc; subst oh; exists []; by destruct fuel|]. destruct Hc as [-> (n & Hn & Hc)]. destruct fuel as [|fuel]; [cbn in Hf; lia|].
  assert (Hsub : subid_of (mb_nodes st) p = nd_subid n) by (unfold subid_of; by rewrite Hn).
  cbn [child_list]. rewrite (deref_node _ _ _ Hn). unfold mbind, mib_bind, mret, mib_ret. destruct (walking_set _ _ _ Hw (subid_u32 _ _ _ _ _ _ R Hn)) as (oid1 & Hset & Hw1 & Hl1).
  pose proof Hw as (_ & Hol & _). rewrite Hol in Hset. replace (Z.to_nat (Z.of_nat (S (length o)) - 1)) with (length o) in Hset by lia. rewrite Hset. cbn [of_option]. unfold mret, mib_ret.
  destruct (NewOidObj_spec oid1) as (obj & -> & (oid2 & -> & Hwf2 & Hl2)); [apply Hw1|rewrite Hl1, length_app; cbn [length]; lia|].
  destruct (IH fuel _ oid1 Hc ltac:(cbn in Hf; lia) Hw1) as (objs & -> & Hobjs). eexists. split; [done|]. constructor; [|done].
  eexists. split; [done|]. exists oid2. rewrite Hsub. by rewrite Hl2.
Qed.

Lemma deepest_self q o l : K !! q = Some (o, l) -> deepest K o q o.
Proof. intros Hq. split; [by exists l|]. split; [done|]. intros q' o' l' _ Hp. by apply prefix_length. Qed.

Lemma parent_spec p o x l notation child r : oid_object (o ++ [x]) notation child -> K !! p = Some (o ++ [x], l) -> (exists n, mb_nodes st !! p = Some n /\ nd_parentPtr n = Some r) -> (length (o ++ [x]) <= TNM_OID_MAX_SIZE)%nat ->
  exists obj, cmdParent s child = MibOk (TCL_OK, ObjOid obj, s) /\ oid_object o notation obj.
Proof.
  intros (oid & -> & Hwf & Hl) Hp (n & Hn & Hpar) Hmax.
  destruct (GetMibNode_spec roots st K F R Htree (mkOidObj None (Some (oid, notation))) oid _ p (o ++ [x]) eq_refl Hwf) as (nodeOid & Hnode & Hwf' & Hl'); [by rewrite Hl|rewrite Hl; by eapply deepest_self|].
  unfold cmdParent, with_node. unfold mbind, mib_bind. rewrite Hnode. cbn [fn_node fn_nodeOid fn_obj]. rewrite (deref_node _ _ _ Hn), Hpar. rewrite oid_values_list, Hl', removelast_last.
  change (TnmGetOidFromObj st (mkOidObj (Some []) None)) with (MibOk (Some (TnmOidFree TnmOidInit), mkOidObj (Some []) (Some (TnmOidFree TnmOidInit, TNM_OID_AS_OID)))). cbn [of_option]. unfold mret, mib_ret.
  destruct (oid_append_all_spec o (TnmOidFree TnmOidInit) oid_wf_init) as (oid' & -> & Hwf2 & Hl2).
  - pose proof (oid_list_u32 _ Hwf) as Hu. rewrite Hl in Hu. by apply Forall_app in Hu as [? _].
  - change (oid_list (TnmOidFree TnmOidInit)) with (@nil Z). rewrite length_app in Hmax. cbn in *. lia.
  - cbn [of_option]. eexists. split; [reflexivity|]. by exists oid'.
Qed.
End children.

(** C29: [mib children] of a node returns the object identifiers of its children in the
    order of their subidentifiers, in the notation of the argument, and [mib parent] of
    each of them returns the object identifier of the node in this notation again. *)
Theorem mib_children_parent {W} `{!MibTcl W} roots s K F node oid node' q o kids : rep roots (mi_mib s) K F -> mb_tree (mi_mib s) = head roots ->
  TnmGetOidFromObj (mi_mib s) node = MibOk (Some oid, node') -> oid_wf oid -> (length (oid_list oid) <= TNM_OID_MAX_SIZE)%nat -> deepest K (oid_list oid) q o -> K !! q = Some (o, kids) -> (length o < TNM_OID_MAX_SIZE)%nat ->
  exists objs, cmdChild s node None = MibOk (TCL_OK, ObjList objs, s) /\ by_subid (mb_nodes (mi_mib s)) kids /\ Forall2 (child_object s o (notation_of node')) kids objs /\
    Forall (fun obj => exists child, obj = ObjOid child /\ exists parent, cmdParent s child = MibOk (TCL_OK, ObjOid parent, s) /\ oid_object o (notation_of node') parent) objs.
Proof.
  intros R Ht Hget Hwf Hmax Hd Hq Hlen. destruct (GetMibNode_spec roots _ K F R Ht node oid node' q o Hget Hwf Hmax Hd) as (nodeOid & Hnode & Hwf' & Hl).
  destruct (rep_kids _ _ _ _ R _ _ _ Hq) as (n & Hn & Hc & Hs & Hk). assert (Hnl : oid_length nodeOid = Z.of_nat (length o)) by (rewrite <- Hl, oid_list_length by done; pose proof Hwf' as (? & _); lia).
  assert (Hobjs : exists objs, cmdChild s node None = MibOk (TCL_OK, ObjList objs, s) /\ Forall2 (child_object s o (notation_of node')) kids objs).
  { unfold cmdChild, with_node. unfold mbind, mib_bind. rewrite Hnode. cbn [fn_node fn_nodeOid fn_obj]. rewrite (deref_node _ _ _ Hn). pose proof (chain_head _ _ _ Hc) as Hh. destruct kids as [|k kids]; [rewrite Hh; by exists []|].
    rewrite Hh in Hc |- *. destruct (TnmOidAppend_spec nodeOid 0 Hwf') as (oid1 & -> & Hwf1 & Hl1); [rewrite Hnl; unfold oid_max, TNM_OID_MAX_SIZE in *; lia|rewrite Hnl; lia|]. cbn [of_option]. unfold mret, mib_ret.
    unfold TnmOidGetLength. rewrite Hnl, Nat2Z.id. cbn [head]. destruct (child_list_spec roots s K F R Ht o (notation_of node') Hlen (k :: kids) (steps (mi_mib s)) (Some k) oid1 Hc (chain_length _ _ _ Hc)) as (objs & -> & Hobjs).
    - split; [done|]. pose proof (oid_list_length _ Hwf1) as Hl2. rewrite Hl1, Hl, length_app in Hl2. cbn in Hl2. pose proof Hwf1 as (? & _). split; [lia|]. by rewrite Hl1, Hl, take_app_length.
    - by exists objs. }
  destruct Hobjs as (objs & Hres & Hobjs). exists objs. split; [done|]. split; [done|]. split; [done|]. rewrite Forall_forall in Hk. apply Forall_forall. intros obj Hobj.
  apply list_elem_of_lookup in Hobj as [i Hi]. destruct (Forall2_lookup_r _ _ _ _ _ Hobjs Hi) as (p & Hp & child & -> & Hchild). exists child. split; [done|].
  destruct (Hk p) as (m & l & Hm & Hpar & _ & Hview); [by eapply list_elem_of_lookup_2|]. assert (Hsub : subid_of (mb_nodes (mi_mib s)) p = nd_subid m) by (unfold subid_of; by rewrite Hm). rewrite Hsub in Hchild.
  eapply (parent_spec roots s K F R Ht p o (nd_subid m) l _ child q); [done|done|by exists m|]. rewrite length_app. cbn. lia.
Qed.

Lemma mib_children_parent_witness : exists objs, cmdChild sample_interp (arg "internet") None = MibOk (TCL_OK, ObjList objs, sample_interp) /\ by_subid (mb_nodes (mi_mib sample_interp)) [2%nat] /\
  Forall2 (child_object sample_interp [1; 3] TNM_OID_AS_NAME) [2%nat] objs /\
  Forall (fun obj => exists child, obj = ObjOid child /\ exists parent, cmdParent sample_interp child = MibOk (TCL_OK, ObjOid parent, sample_interp) /\ oid_object [1; 3] TNM_OID_AS_NAME parent) objs.
Proof.
  destruct (TnmOidFromString_safe TnmOidInit (cstr "1.3")) as (c & oid & Hoid & Hwf). vm_compute in Hoid. injection Hoid as <- <-.
  eapply (mib_children_parent [10%nat; 11%nat; 12%nat] sample_interp sample_view (replicate NODEHASHSIZE []) (arg "internet") _ (mkOidObj (Some (cstr "internet")) (Some (_, TNM_OID_AS_NAME))) 3%nat [1; 3] [2%nat]).
  - rewrite sample_mib. exact sample_tree_rep.
  - reflexivity.
  - vm_compute. reflexivity.
  - exact Hwf.
  - apply Nat.leb_le. vm_compute. reflexivity.
  - split; [by eexists|]. split; [by exists []|]. intros q' o' l' Hq' Hpre. apply prefix_length in Hpre. exact Hpre.
  - reflexivity.
  - apply Nat.ltb_lt. vm_compute. reflexivity.
Defined.

(** ** Instances of columns *)

(** The index of a column depends on its node only. *)
Lemma column_index_same {W} `{!MibTcl W} st obj1 obj2 f1 f2 f nodes implied : GetMibNode st obj1 = MibOk (Some f1) -> GetMibNode st obj2 = MibOk (Some f2) -> fn_node f1 = fn_node f2 ->
  column_index st obj1 = MibOk (Some (f, Some (nodes, implied))) -> f = f1 /\ column_index st obj2 = MibOk (Some (f2, Some (nodes, implied))).
Proof.
  intros H1 H2 Hn. unfold column_index, GetMibColumnNode. unfold mbind, mib_bind. rewrite H1, H2, <- Hn. destruct (deref st (fn_node f1)) as [n|]; [|done].
  destruct (bool_decide (nd_macro n <> TNM_MIB_OBJECTTYPE)); [done|]. destruct (_ || _); [done|]. destruct (nd_parentPtr n) as [r|]; [|done].
  destruct (deref st r) as [rn|]; [|done]. unfold mret, mib_ret. destruct (bool_decide (nd_syntax rn = ASN1_SEQUENCE)); [|done]. rewrite <- Hn. destruct (GetIndexList st (fn_node f1)) as [[[nl i]|]|]; [|done..].
  destruct (node_list st nl) as [l|]; [|done]. by intros [= -> -> ->].
Qed.

(** A node without children is the deepest one for all identifiers below it. *)
Lemma deepest_leaf roots st K F q o x : rep roots st K F -> K !! q = Some (o, []) -> deepest K (o ++ x) q o.
Proof.
  intros R Hq. split; [by exists []|]. split; [by exists x|]. intros q' o' l' Hq' Hpre. destruct (decide (length o' <= length o)%nat) as [|Hlong]; [done|exfalso].
  assert (Ho : o `prefix_of` o') by (destruct Hpre as [y Hy]; exists (drop (length o) o'); rewrite <- (take_app_length o x) at 1; rewrite Hy, take_app_le by lia; by rewrite take_drop).
  destruct Ho as [z ->]. pose proof (prefix_under roots st K F R z q o [] q' l' Hq Hq') as Hu. inversion Hu as [? ? H|? r ? ? ? H Hr Hu']; subst.
  - apply list_elem_of_singleton in H as ->. rewrite Hq in Hq'. injection Hq' as E _. apply (f_equal length) in E. rewrite length_app in E, Hlong. lia.
  - apply list_elem_of_singleton in H as ->. rewrite Hq in Hr. injection Hr as <- <-. inversion Hu' as [? ? H|? ? ? ? ? H]; by apply not_elem_of_nil in H.
Qed.

(** C30: If the node of the argument is a column without children and the values convert to
    values of the index objects of its table, [mib pack] returns the object identifier of
    the column followed by the subidentifiers of the values, and [mib unpack] of this
    object identifier returns the texts of the same values, as long as there are not more
    than 128 subidentifiers. *)
Theorem mib_pack_unpack {W} `{!MibTcl W} roots s K F fuel obj oid obj' q o f nodes implied args objv hosts values texts : rep roots (mi_mib s) K F -> mb_tree (mi_mib s) = head roots ->
  TnmGetOidFromObj (mi_mib s) obj = MibOk (Some oid, obj') -> oid_wf oid -> (length (oid_list oid) <= TNM_OID_MAX_SIZE)%nat -> deepest K (oid_list oid) q o -> K !! q = Some (o, []) ->
  column_index (mi_mib s) obj = MibOk (Some (f, Some (nodes, implied))) -> arg_strings s args = MibOk objv ->
  converts Tcl_GetLong inet_addr gethostbyname fuel (mi_mib s) (mi_hosts s) nodes objv values hosts -> Forall2 value_ok nodes values ->
  Forall3 (fun n v t => value_text Tcl_GetLong fuel (mi_mib s) n v = MibOk t) nodes values texts -> (length o + length (instance_subids implied nodes values) <= TNM_OID_MAX_SIZE)%nat ->
  exists inst, cmdPack fuel s obj args = MibOk (TCL_OK, ObjOid inst, set_hosts hosts s) /\ oid_object (o ++ instance_subids implied nodes values) TNM_OID_AS_OID inst /\
    cmdUnpack fuel (set_hosts hosts s) inst = MibOk (TCL_OK, ObjList (ObjString <$> texts), set_hosts hosts s).
Proof.
  intros R Ht Hget Hwf Hmax Hd Hq Hcol Hargs Hconv Hok Htext Hlen. destruct (GetMibNode_spec roots _ K F R Ht obj oid obj' q o Hget Hwf Hmax Hd) as (nodeOid & Hnode & Hwf' & Hl).
  destruct (column_index_same _ obj obj _ _ _ _ _ Hnode Hnode eq_refl Hcol) as [-> _].
  destruct (pack_spec Tcl_GetLong inet_addr gethostbyname fuel (mi_mib s) nodes (mi_hosts s) objv values hosts nodeOid implied Hconv Hok Hwf') as (oid2 & Hpack & Hwf2 & Hl2); [by rewrite Hl|]. rewrite Hl in Hl2.
  destruct (NewOidObj_spec oid2 Hwf2) as (inst & Hinst & Hobj); [rewrite Hl2, length_app; lia|]. rewrite Hl2 in Hobj. exists inst. split; [|split; [done|]].
  - unfold cmdPack. unfold mbind, mib_bind. rewrite Hcol, Hargs. cbn [fn_nodeOid]. rewrite Hpack, Hinst. done.
  - destruct Hobj as (oid3 & -> & Hwf3 & Hl3).
    destruct (GetMibNode_spec roots _ K F R Ht (mkOidObj None (Some (oid3, TNM_OID_AS_OID))) oid3 _ q o eq_refl Hwf3) as (nodeOid3 & Hnode3 & Hwfn & Hln); [rewrite Hl3, length_app; lia|rewrite Hl3; by eapply deepest_leaf|].
    destruct (column_index_same _ obj _ _ _ _ _ _ Hnode Hnode3 eq_refl Hcol) as [_ Hcol3]. unfold cmdUnpack. unfold mbind, mib_bind. change (mi_mib (set_hosts hosts s)) with (mi_mib s). rewrite Hcol3. cbn [fn_oid fn_nodeOid].
    assert (Hoff : Z.to_nat (TnmOidGetLength oid3 - TnmOidGetLength nodeOid3) = length (instance_subids implied nodes values)).
    { unfold TnmOidGetLength. pose proof (oid_list_length _ Hwf3) as E3. pose proof (oid_list_length _ Hwfn) as En. pose proof Hwf3 as (? & _). pose proof Hwfn as (? & _). rewrite Hl3, length_app in E3. rewrite Hln in En. lia. }
    rewrite Hoff. unfold TnmMibUnpack. rewrite oid_values_list, Hl3, length_app, Nat.add_sub, drop_app_length.
    rewrite (unpack_spec Tcl_GetLong fuel (mi_mib s) nodes values texts implied [] Hok Htext) by lia. done.
Qed.

(** A table with the column [name], which is indexed by the column [number]. *)
Definition table_node (label parent : string) (subid syntax macro : Z) (index : option cstring) (up child next : option nat) : TnmMibNode :=
  mkNode subid (cstr label) (Some (cstr parent)) (Some (cstr "TEST-MIB")) None 0 syntax TNM_MIB_READONLY macro TNM_MIB_CURRENT false false index None up child next.

Definition table_nodes : list (nat * TnmMibNode) :=
  [(10%nat, root_node "ccitt" 0 (Some 11%nat));
   (11%nat, mkNode 1 (cstr "iso") (Some (cstr "(unknown)")) None None 0 ASN1_OBJECT_IDENTIFIER 0 0 0 false false None None None (Some 3%nat) (Some 12%nat));
   (12%nat, root_node "joint-iso-ccitt" 2 None);
   (3%nat, table_node "table" "iso" 3 ASN1_SEQUENCE_OF TNM_MIB_OBJECTTYPE None (Some 11%nat) (Some 2%nat) None);
   (2%nat, table_node "entry" "table" 1 ASN1_SEQUENCE TNM_MIB_OBJECTTYPE (Some (cstr "number")) (Some 3%nat) (Some 4%nat) None);
   (4%nat, table_node "number" "entry" 1 ASN1_INTEGER TNM_MIB_OBJECTTYPE None (Some 2%nat) None (Some 5%nat));
   (5%nat, table_node "name" "entry" 2 ASN1_OCTET_STRING TNM_MIB_OBJECTTYPE None (Some 2%nat) None None)].
Definition table_tree : mib_state :=
  mkMib (list_to_map table_nodes) (replicate NODEHASHSIZE None)
    (Some (list_to_map [(cstr "table", Some 3%nat); (cstr "entry", Some 2%nat); (cstr "number", Some 4%nat); (cstr "name", Some 5%nat)])) (Some 10%nat) None [].
Definition table_view : tree_view := list_to_map
  [(10%nat, ([0], [])); (11%nat, ([1], [3%nat])); (12%nat, ([2], [])); (3%nat, ([1; 3], [2%nat])); (2%nat, ([1; 3; 1], [4%nat; 5%nat])); (4%nat, ([1; 3; 1; 1], [])); (5%nat, ([1; 3; 1; 2], []))].

Lemma table_tree_rep : rep [10%nat; 11%nat; 12%nat] table_tree table_view (replicate NODEHASHSIZE []).
Proof.
  constructor; cbn [mb_nodes mb_nodehashtab table_tree].
  - apply (map_cases (fun _ n => node_ok n)). apply (bool_decide_unpack _). by vm_compute.
  - done.
  - intros i l Hi. apply lookup_replicate in Hi as [-> Hi]. exists None. split; [by apply lookup_replicate_2|]. by split.
  - split; [|split].
    + repeat (split; [done|]; eexists; split; [reflexivity|]). done.
    + repeat constructor.
    + repeat constructor; eexists _, _; by repeat split.
  - assert (H : forall r ol, table_view !! r = Some ol -> kids_ok (mb_nodes table_tree) table_view r ol.1 ol.2); [|intros r o l Hr; exact (H r (o, l) Hr)].
    apply (map_cases (fun r ol => kids_ok _ _ r ol.1 ol.2)). repeat constructor; (eexists; split; [reflexivity|]); (split; [cbn; repeat (split; [done|]; eexists; split; [reflexivity|]); done|]); (split; [repeat constructor|]); repeat constructor; eexists _, _; by repeat split.
  - assert (H : forall p (ol : list Z * list nat), table_view !! p = Some ol -> up_ok (mb_nodes table_tree) table_view [10%nat; 11%nat; 12%nat] p); [|intros p [ol Hp]; exact (H p ol Hp)].
    apply (map_cases (fun p _ => up_ok _ _ _ p)). repeat constructor; (eexists; split; [reflexivity|]); cbn; first [set_solver|eexists _, _; split; [reflexivity|set_solver]].
  - split; [|split].
    + intros name [v Hv]. revert name v Hv. set (P := fun (name : cstring) (_ : option nat) => exists p n, mb_nodes table_tree !! p = Some n /\ nd_label n = name). change (forall name v, names_of table_tree !! name = Some v -> P name v).
      intros name v Hv. apply elem_of_list_to_map_2 in Hv. set_unfold in Hv. destruct Hv as [[= -> ->]|[[= -> ->]|[[= -> ->]|[[= -> ->]|[]]]]]; [exists 3%nat|exists 2%nat|exists 4%nat|exists 5%nat]; by eexists.
    + intros name q Hv. apply elem_of_list_to_map_2 in Hv. set_unfold in Hv. destruct Hv as [[= -> ->]|[[= -> ->]|[[= -> ->]|[[= -> ->]|[]]]]]; (split; [by eexists|by eexists]).
    + intros q n [ol Hq] Hr Hn. revert Hr n Hn. revert q ol Hq. apply (map_cases (fun q _ => q ∉ _ -> forall n, _ !! q = Some n -> _)).
      do 7 (apply Forall_cons; split; [intros Hr n Hn; first [exfalso; apply Hr; set_solver|vm_compute in Hn; injection Hn as <-; left; reflexivity]|]). constructor.
Qed.

Definition table_interp : mib_interp sample_world := set_glob (no_types table_tree) sample_interp.

Lemma table_mib : mi_mib table_interp = table_tree.
Proof. vm_compute. reflexivity. Qed.

Lemma mib_pack_unpack_witness : exists inst, cmdPack 5 table_interp (arg "name") [arg "7"] = MibOk (TCL_OK, ObjOid inst, table_interp) /\ oid_object [1; 3; 1; 2; 7] TNM_OID_AS_OID inst /\
  cmdUnpack 5 table_interp inst = MibOk (TCL_OK, ObjList [ObjString (cstr "7")], table_interp).
Proof.
  destruct (TnmOidFromString_safe TnmOidInit (cstr "1.3.1.2")) as (c & oid & Hoid & Hwf). vm_compute in Hoid. injection Hoid as <- <-.
  eapply (mib_pack_unpack [10%nat; 11%nat; 12%nat] table_interp table_view (replicate NODEHASHSIZE []) 5 (arg "name") _ _ 5%nat [1; 3; 1; 2] _ [snd (List.nth 5 table_nodes (O, root_node "" 0 None))] false [arg "7"] [cstr "7"] ∅ [MvInt 7] [cstr "7"]).
  - rewrite table_mib. exact table_tree_rep.
  - reflexivity.
  - vm_compute. reflexivity.
  - exact Hwf.
  - apply Nat.leb_le. vm_compute. reflexivity.
  - exact (deepest_leaf _ _ _ _ 5%nat [1; 3; 1; 2] [] table_tree_rep eq_refl).
  - reflexivity.
  - vm_compute. reflexivity.
  - reflexivity.
  - repeat (eapply converts_cons; [vm_compute; reflexivity|]). constructor.
  - repeat constructor; vm_compute; done.
  - do 1 (constructor; [vm_compute; reflexivity|]). constructor.
  - apply Nat.leb_le. vm_compute. reflexivity.
Defined.
