(* ===== verification/MibLex.v ===== *)
(** [ReadKeyword] reads the tokens of a text in whatever layout they are written, ends,
    and leaves less of the file. *)

From S2P Require Import Prelude Ber CStr Mib MibLexer.
Local Open Scope Z_scope.

(** ** The table of keywords *)

(** The chains of the table hold the keywords, each in the chain of its hash value. *)
Lemma hashtab_keywords : Forall (fun tp => find_keyword (hash_name (kw_name tp)) (kw_name tp) = Some (mkKeyword (kw_name tp) (kw_key tp) (hash_name (kw_name tp)))) keywords.
Proof. repeat (constructor; [vm_compute; reflexivity|]). constructor. Qed.

Lemma hashtab_sound : Forall (Forall (fun tp => exists k, k ∈ keywords /\ kw_name tp = kw_name k /\ kw_key tp = kw_key k)) hashtab.
Proof.
  assert (H : forallb (forallb (fun tp => existsb (fun k => bool_decide (kw_name tp = kw_name k) && bool_decide (kw_key tp = kw_key k)) keywords)) hashtab = true) by (vm_compute; reflexivity).
  rewrite forallb_forall in H. apply Forall_forall. intros c Hc. specialize (H c (proj1 (list_elem_of_In _ _) Hc)). rewrite forallb_forall in H. apply Forall_forall. intros tp Ht.
  specialize (H tp (proj1 (list_elem_of_In _ _) Ht)). rewrite existsb_exists in H. destruct H as (k & Hk & [H1%bool_decide_eq_true H2%bool_decide_eq_true]%andb_true_iff). exists k. by rewrite list_elem_of_In.
Qed.

(** The key of a word: searching the table is searching the list of keywords. *)
Definition key_of (w : cstring) : option Z := kw_key ∘ snd <$> list_find (fun tp => kw_name tp = w) keywords.

Lemma find_keyword_key w : kw_key <$> find_keyword (hash_name w) w = key_of w.
Proof.
  unfold key_of. destruct (list_find _ keywords) as [[i tp]|] eqn:E; cbn.
  - apply list_find_Some in E as (Hi & <- & _). pose proof hashtab_keywords as H. rewrite Forall_forall in H. rewrite (H tp) by (by eapply list_elem_of_lookup_2). done.
  - unfold find_keyword. destruct (list_find _ (default [] _)) as [[i tp]|] eqn:E'; [|done]. apply list_find_Some in E' as (Hi & [_ Hn] & _).
    exfalso. apply list_find_None in E. rewrite Forall_forall in E.
    destruct (hashtab !! HASH (hash_name w)) as [c|] eqn:Hc; [|done]. cbn in Hi.
    pose proof hashtab_sound as H. rewrite Forall_forall in H. specialize (H c (list_elem_of_lookup_2 _ _ _ Hc)). rewrite Forall_forall in H.
    destruct (H tp (list_elem_of_lookup_2 _ _ _ Hi)) as (k & Hk & Hname & _). apply (E k Hk). congruence.
Qed.

(** ** Progress *)

Definition left (lx : lexer) : nat := (2 * length (lx_file lx) + (if is_special (lx_lastchar lx) then 1 else 0))%nat.

Lemma left_le lx : (left lx <= 2 * length (lx_file lx) + 1)%nat.
Proof. unfold left. destruct (is_special _); lia. Qed.

(** Outcomes that are no endless loops. *)
Definition ended {A} (m : mib_out A) (Q : A -> Prop) : Prop :=
  match m with MibOk a => Q a | MibFault f => f <> MibLoops end.

Lemma ended_bind {A B} (m : mib_out A) (k : A -> mib_out B) (P : A -> Prop) Q : ended m P -> (forall a, P a -> ended (k a) Q) -> ended (m ≫= k) Q.
Proof. destruct m; cbn; auto. Qed.
Lemma ended_put buf c (Q : cstring -> Prop) : Q (buf ++ [c]) -> ended (put buf c) Q.
Proof. intros H. unfold put. by case_decide. Qed.
Lemma ended_terminate buf (Q : cstring -> Prop) : Q (c_string buf) -> ended (terminate buf) Q.
Proof. intros H. unfold terminate. by case_decide. Qed.

(** The rest of the file is a suffix of the file. *)
Definition within (file : cstring) (t : token) : Prop := lx_file t.2 `suffix_of` file /\ (t.1.1 = EOF -> lx_file t.2 = []).

Lemma within_suffix file file' t : file `suffix_of` file' -> within file t -> within file' t.
Proof. intros H [H1 H2]. split; [by etrans|done]. Qed.

Lemma key_not_eof w key : key_of w = Some key -> key <> EOF.
Proof.
  unfold key_of. destruct (list_find _ keywords) as [[i tp]|] eqn:E; [|done]. cbn. intros [= <-]. apply list_find_Some in E as (Hi & _).
  assert (H : Forall (fun tp => kw_key tp <> EOF) keywords) by (repeat (constructor; [vm_compute; discriminate|]); constructor).
  rewrite Forall_forall in H. by eapply H, list_elem_of_lookup_2.
Qed.
Lemma found_not_eof hash w tp : find_keyword hash w = Some tp -> kw_key tp <> EOF.
Proof.
  unfold find_keyword. destruct (list_find _ _) as [[i tp']|] eqn:E; [|done]. cbn. intros [= ->]. apply list_find_Some in E as (Hi & [Hh Hn] & _).
  destruct (hashtab !! HASH hash) as [c|] eqn:Hc; [|done]. cbn in Hi.
  pose proof hashtab_sound as H. rewrite Forall_forall in H. specialize (H c (list_elem_of_lookup_2 _ _ _ Hc)). rewrite Forall_forall in H.
  destruct (H tp (list_elem_of_lookup_2 _ _ _ Hi)) as (k & Hk & _ & ->).
  assert (H' : Forall (fun tp => kw_key tp <> EOF) keywords) by (repeat (constructor; [vm_compute; discriminate|]); constructor).
  rewrite Forall_forall in H'. by apply H'.
Qed.
Lemma word_not_eof w : word_syntax w <> EOF.
Proof. unfold word_syntax. destruct w; [done|]. by repeat case_match. Qed.

Lemma read_word_within : forall file ch lastchar buf hash, ended (read_word file ch lastchar buf hash) (within file).
Proof.
  induction file as [|c file IH]; intros ch lastchar buf hash; cbn [read_word].
  all: destruct (isspace ch || is_special ch).
  all: try (destruct (bool_decide (ch = 46) && _);
    [eapply ended_bind; [by apply (ended_put _ _ (fun _ => True))|intros b1 _]; eapply ended_bind; [by apply (ended_put _ _ (fun _ => True))|intros b2 _];
     eapply ended_bind; [by apply (ended_terminate _ (fun _ => True))|intros b3 _]; (split; [|done]); cbn; try done; by apply suffix_cons_r|]).
  all: try (eapply (ended_bind _ _ (fun _ => True)); [destruct (_ && _); [eapply ended_bind; [by apply (ended_put _ _ (fun _ => True))|done]|done]|intros [[b h] l] _];
    eapply ended_bind; [by apply (ended_terminate _ (fun _ => True))|intros b3 _]; destruct (find_keyword h b3) as [tp|] eqn:Ef;
    [destruct (bool_decide (kw_key tp = _)); [|split; [done|]; cbn; intros He; by apply found_not_eof in Ef]|split; [done|]; cbn; intros He; by apply word_not_eof in He]).
  - done.
  - eapply ended_bind; [by apply (ended_put _ _ (fun _ => True))|intros b _]. done.
  - specialize (IH c ch b h). destruct (read_word file c ch b h); [|done]. eapply within_suffix; [|exact IH]. by apply suffix_cons_r.
  - eapply ended_bind; [by apply (ended_put _ _ (fun _ => True))|intros b _]. specialize (IH c lastchar b (hash + ch)). destruct (read_word file c lastchar b (hash + ch)); [|done]. eapply within_suffix; [|exact IH]. by apply suffix_cons_r.
Qed.

(** A word that begins with a character that is no blank: at the end of the file nothing
    was consumed but the word. *)
Definition advances (lx : lexer) (t : token) : Prop :=
  lx_file t.2 `suffix_of` lx_file lx /\ (left t.2 <= left lx)%nat /\ (t.1.1 <> EOF -> (left t.2 < left lx)%nat).

Lemma advances_shorter lx t : lx_file t.2 `suffix_of` lx_file lx -> (length (lx_file t.2) < length (lx_file lx))%nat -> advances lx t.
Proof. intros H1 H2. pose proof (left_le t.2). unfold advances. split; [done|]. assert (2 * length (lx_file lx) <= left lx)%nat by (unfold left; lia). lia. Qed.

Lemma within_advances lx file t : within file t -> file `suffix_of` lx_file lx -> (length file < length (lx_file lx))%nat -> advances lx t.
Proof. intros [H1 _] H2 H3. apply advances_shorter; [by etrans|]. apply suffix_length in H1. lia. Qed.

Lemma special_continue : Forall (fun ch => forall tp, find_keyword ch [ch] = Some tp -> kw_key tp = CONTINUE -> ch = 46) (cstr "(){},;.|").
Proof. repeat (constructor; [intros tp H; vm_compute in H; try discriminate H; injection H as <-; try done|]). constructor. Qed.

Lemma special_not_space ch : is_special ch = true -> isspace ch = false.
Proof.
  intros H%bool_decide_eq_true. assert (Hf : Forall (fun c => isspace c = false) (cstr "(){},;.|")) by (by repeat constructor). rewrite Forall_forall in Hf. by apply Hf.
Qed.

Lemma put_one c : put [] c = MibOk [c].
Proof. done. Qed.
Lemma terminate_one c : 0 <> c -> terminate [c] = MibOk [c].
Proof. intros H. unfold terminate. cbn. by rewrite bool_decide_eq_false_2 by congruence. Qed.

(** The first character is [lastchar] and the file is not touched yet. *)
Lemma read_word_first file ch : isspace ch = false -> ended (read_word file ch ch [] 0) (advances (mkLexer file ch)).
Proof.
  intros Hs. destruct (is_special ch) eqn:Hp.
  - assert (E : left (mkLexer file ch) = S (2 * length file)) by (unfold left; cbn; rewrite Hp; lia).
    assert (Hdone : forall s k l f, l = chr_blank -> f `suffix_of` file -> advances (mkLexer file ch) (s, k, mkLexer f l)).
    { intros s k l f -> Hf. pose proof (suffix_length _ _ Hf). split; [done|]. rewrite E. unfold left. cbn [snd lx_file lx_lastchar]. change (is_special chr_blank) with false. cbn. lia. }
    assert (Hchar : ch ∈ cstr "(){},;.|") by (by apply bool_decide_eq_true in Hp).
    assert (Hch0 : 0 <> ch). { pose proof special_continue. assert (Hf : Forall (fun c => 0 <> c) (cstr "(){},;.|")) by (by repeat constructor). rewrite Forall_forall in Hf. by apply Hf. }
    destruct file as [|c file]; cbn [read_word]; rewrite Hs, Hp; cbn [orb negb andb].
    all: destruct (bool_decide (ch = 46)) eqn:Hdot; cbn [andb]; [|].
    all: try (eapply ended_bind; [by apply (ended_put _ _ (fun _ => True))|intros b1 _]; eapply ended_bind; [by apply (ended_put _ _ (fun _ => True))|intros b2 _];
      eapply ended_bind; [by apply (ended_terminate _ (fun _ => True))|intros b3 _]; apply Hdone; [done|]; cbn; by apply suffix_cons_r || done).
    all: rewrite bool_decide_eq_true_2 by done; unfold mbind, mib_bind; rewrite put_one; unfold mret, mib_ret; cbv beta iota; rewrite terminate_one by done; cbv beta iota; rewrite Z.add_0_l.
    all: destruct (find_keyword ch [ch]) as [tp|] eqn:Ef; [|by apply Hdone].
    all: pose proof special_continue as Hc; rewrite Forall_forall in Hc; specialize (Hc ch Hchar tp Ef); rewrite bool_decide_eq_false_2 by (intros Hk; specialize (Hc Hk); apply bool_decide_eq_false in Hdot; congruence); by apply Hdone.
  - destruct file as [|c file]; cbn [read_word]; rewrite Hs, Hp; cbn [orb].
    + unfold put. cbn. split; [done|]. split; [|done]. unfold left. cbn. rewrite Hp. done.
    + eapply ended_bind; [by apply (ended_put _ _ (fun _ => True))|intros b _]. pose proof (read_word_within file c ch b (0 + ch)) as H.
      destruct (read_word file c ch b (0 + ch)); [|done]. eapply within_advances; [exact H| |]; cbn; [by apply suffix_cons_r|lia].
Qed.

Lemma read_quoted_advances q lastchar : forall file buf t, read_quoted file q lastchar buf = t ->
  (t.1.1 = EOF /\ t.2 = mkLexer [] lastchar) \/ (lx_file t.2 `suffix_of` file /\ (length (lx_file t.2) < length file)%nat).
Proof.
  induction file as [|c file IH]; intros buf t <-; cbn [read_quoted]; [by left|]. destruct (bool_decide (c = 10)).
  { destruct (IH buf _ eq_refl) as [H|[H1 H2]]; [by left|right]. split; [by apply suffix_cons_r|cbn; lia]. }
  destruct (bool_decide (c = q)).
  - right. destruct (bool_decide (q = 34)); [cbn; split; [by apply suffix_cons_r|lia]|].
    destruct file as [|d file]; [cbn; split; [by apply suffix_cons_r|lia]|]. repeat case_match; cbn; split; try lia; repeat first [reflexivity|apply suffix_cons_r].
  - destruct (IH (if bool_decide (length buf < SYMBOL_MAXLEN - 2)%nat then buf ++ [c] else buf) _ eq_refl) as [H|[H1 H2]]; [by left|right]. split; [by apply suffix_cons_r|by apply Nat.lt_lt_succ_r].
Qed.

Lemma skip_comment_suffix : forall file rest, skip_comment file = Some rest -> rest `suffix_of` file /\ (length rest < length file)%nat.
Proof.
  induction file as [|c file IH]; intros rest; cbn [skip_comment]; [done|]. destruct (bool_decide (c = 10)).
  - intros [= ->]. split; [by apply suffix_cons_r|cbn; lia].
  - intros H. destruct (IH _ H) as [? ?]. split; [by apply suffix_cons_r|cbn; lia].
Qed.

Lemma skip_space_cons s c rest : skip_space s = c :: rest -> isspace c = false /\ (c :: rest) `suffix_of` s.
Proof.
  induction s as [|d s IH]; cbn; [done|]. destruct (isspace d) eqn:E; [|intros [= -> ->]; done]. intros H. destruct (IH H). split; [done|]. by apply suffix_cons_r.
Qed.

Lemma eof_advances lx l : (left (mkLexer [] l) <= left lx)%nat -> forall k, advances lx (EOF, k, mkLexer [] l).
Proof. intros H k. split; [apply suffix_nil|]. by split. Qed.

Lemma left_nil l file : (left (mkLexer [] l) <= left (mkLexer file l))%nat.
Proof. unfold left. cbn [lx_file lx_lastchar]. change (length (@nil Z)) with O. destruct (is_special l); lia. Qed.
#[local] Hint Resolve left_nil : core.

Lemma read_keyword_ended : forall fuel lx, (length (lx_file lx) <= fuel)%nat -> ended (read_keyword fuel lx) (advances lx).
Proof.
  induction fuel as [fuel IH] using lt_wf_ind. intros [file0 last] Hf. cbn [lx_file] in Hf.
  assert (Hback : forall file fuel', fuel = S fuel' -> file `suffix_of` file0 -> (length file < length file0)%nat -> ended (read_keyword fuel' (mkLexer file chr_blank)) (advances (mkLexer file0 last))).
  { intros file fuel' -> Hsuf Hlen. specialize (IH fuel' ltac:(lia) (mkLexer file chr_blank)). cbn [lx_file] in IH. specialize (IH ltac:(lia)).
    destruct (read_keyword fuel' _) as [t|]; [|done]. destruct IH as (H1 & _). cbn in H1. apply advances_shorter; cbn; [by etrans|]. apply suffix_length in H1. lia. }
  destruct fuel as [|fuel]; cbn [read_keyword lx_file lx_lastchar].
  all: destruct (skip_space (last :: file0)) as [|ch file] eqn:Hsk; [by apply eof_advances|].
  all: pose proof (skip_space_cons _ _ _ Hsk) as [Hns Hsuf].
  all: assert (Hcase : (ch = last /\ file = file0) \/ (file `suffix_of` file0 /\ (length file < length file0)%nat)).
  all: try (cbn [skip_space] in Hsk; destruct (isspace last); [right|left; by injection Hsk]; apply skip_space_cons in Hsk as [_ Hsuf']; split;
    [by apply suffix_cons_l in Hsuf'|apply suffix_length in Hsuf'; cbn in Hsuf'; lia]).
  all: assert (Hs0 : file `suffix_of` file0) by (destruct Hcase as [[_ ->]|[? _]]; done).
  all: assert (Hl0 : (length file <= length file0)%nat) by (by apply suffix_length).
  all: destruct (bool_decide (ch = 34) || bool_decide (ch = 39) || bool_decide (ch = 0)) eqn:Hq.
  1, 3: destruct (read_quoted_advances ch last file [] _ eq_refl) as [[H1 H2]|[H1 H2]];
    [split; [rewrite H2; apply suffix_nil|]; rewrite H2, H1; by split
    |apply advances_shorter; cbn [lx_file]; [by etrans|lia]].
  all: destruct (bool_decide (ch = 45)) eqn:Hm.
  1, 3: destruct file as [|ch' file]; [by apply eof_advances|]; cbn in Hl0; destruct (bool_decide (ch' = 45));
    [destruct (skip_comment file) as [rest|] eqn:Hc; [apply skip_comment_suffix in Hc as [Hc1 Hc2]|by apply eof_advances]
    |pose proof (read_word_within file ch' last [ch] ch) as H; destruct (read_word file ch' last [ch] ch); [|done]; eapply within_advances; [exact H|by apply suffix_cons_l in Hs0|cbn; lia]].
  - lia.
  - eapply Hback; [done| |lia]. etrans; [done|]. by apply suffix_cons_l in Hs0.
  - destruct Hcase as [[-> ->]|[H1 H2]]; [by apply read_word_first|]. pose proof (read_word_within file ch last [] 0) as H. destruct (read_word file ch last [] 0); [|done]. by eapply within_advances.
  - destruct Hcase as [[-> ->]|[H1 H2]]; [by apply read_word_first|]. pose proof (read_word_within file ch last [] 0) as H. destruct (read_word file ch last [] 0); [|done]. by eapply within_advances.
Qed.

(** [ReadKeyword] ends, and every keyword takes something of the file. *)
Lemma ReadKeyword_ended lx : ended (ReadKeyword lx) (advances lx).
Proof. by apply read_keyword_ended. Qed.

Arguments key_of w : simpl never.
Arguments hash_name name : simpl never.
Arguments find_keyword hash_val keyword : simpl never.
Arguments is_special ch : simpl never.
Arguments isspace c : simpl never.
