(* ===== verification/MibLayout.v ===== *)
(** Texts and their tokens: [ReadKeyword] reads a text token by token however the tokens
    are separated by blanks and comments. *)

From S2P Require Import Prelude Ber CStr Oid Mib MibTree MibNames MibLexer MibLex.
Local Open Scope Z_scope.

(** ** Tokens and layouts *)

Definition is_delim (c : Z) : bool := isspace c || is_special c.

(** What stands between tokens: blanks, and comments without quotes. *)
Inductive blank : cstring -> Prop :=
  | blank_nil : blank []
  | blank_space c s : isspace c = true -> blank s -> blank (c :: s)
  | blank_comment body s : 10 ∉ body -> chr_quote ∉ body -> blank s -> blank (45 :: 45 :: body ++ 10 :: s).

(** A keyword, label or number; a keyword of two words; punctuation; a quoted string. *)
Inductive tok :=
  | TWord (w : cstring)
  | TPair (w1 w2 : cstring)
  | TPunct (c : Z)
  | TString (body : cstring).

Definition word_key (w : cstring) : Z := default (word_syntax w) (key_of w).
Definition quoted (body : cstring) : cstring := c_string (take (SYMBOL_MAXLEN - 2) (filter (fun c => c <> 10) body)).
Definition tok_key (t : tok) : Z :=
  match t with TWord w => word_key w | TPair w1 w2 => word_key (w1 ++ w2) | TPunct c => default 0 (key_of [c]) | TString _ => QUOTESTRING end.
Definition tok_text (t : tok) : cstring :=
  match t with TWord w => w | TPair w1 w2 => w1 ++ w2 | TPunct c => [c] | TString body => quoted body end.

(** A word starts with no quote and no comment. *)
Definition word (w : cstring) : bool :=
  forallb (fun c => negb (is_delim c) && negb (bool_decide (c = 0))) w && bool_decide (length w < SYMBOL_MAXLEN)%nat
  && match w with [] => false | c :: w => negb (bool_decide (c = 34) || bool_decide (c = 39)) && negb (bool_decide (c = 45) && bool_decide (head w = Some 45)) end.

Definition tok_ok (t : tok) : bool :=
  match t with
  | TWord w => word w && negb (bool_decide (key_of w = Some CONTINUE))
  | TPair w1 w2 => word w1 && word (w1 ++ w2) && bool_decide (key_of w1 = Some CONTINUE) && negb (bool_decide (key_of (w1 ++ w2) = Some CONTINUE))
                   && negb (bool_decide (w2 = []))
  | TPunct c => bool_decide (c ∈ cstr "(){},;|")
  | TString body => bool_decide (chr_quote ∉ body)
  end.

Inductive spelled : tok -> cstring -> Prop :=
  | spelled_word w : spelled (TWord w) w
  | spelled_pair w1 w2 c s : forallb isspace (c :: s) = true -> spelled (TPair w1 w2) (w1 ++ c :: s ++ w2)
  | spelled_punct c : spelled (TPunct c) [c]
  | spelled_string body : spelled (TString body) (chr_quote :: body ++ [chr_quote]).

(** A word must be followed by a character that ends it, but not by a dot. *)
Definition ends_word (rest : cstring) : Prop := exists c rest', rest = c :: rest' /\ is_delim c = true /\ c <> 46.
Definition needs_end (t : tok) : Prop := match t with TWord _ | TPair _ _ => True | _ => False end.

Inductive layout : list tok -> cstring -> Prop :=
  | layout_nil b : blank b -> layout [] b
  | layout_cons t ts b text rest : blank b -> spelled t text -> (needs_end t -> ends_word rest) -> layout ts rest -> layout (t :: ts) (b ++ text ++ rest).

(** The lexer is in front of a text. *)
Definition at_text (lx : lexer) (text : cstring) : Prop :=
  lx_lastchar lx <> 46 /\ lx_lastchar lx <> chr_quote /\ skip_space (lx_lastchar lx :: lx_file lx) = skip_space text.

(** ** Blanks *)

Lemma skip_space_app b text : forallb isspace b = true -> skip_space (b ++ text) = skip_space text.
Proof. induction b as [|c b IH]; cbn; [done|]. intros [-> ?]%andb_true_iff. by apply IH. Qed.

Lemma skip_space_suffix s : skip_space s `suffix_of` s.
Proof. induction s as [|c s IH]; [done|]. cbn [skip_space]. destruct (isspace c); [by apply suffix_cons_r|done]. Qed.

Lemma skip_comment_app body rest : 10 ∉ body -> skip_comment (body ++ 10 :: rest) = Some rest.
Proof.
  induction body as [|c body IH]; [done|]. intros [Hc Hb]%not_elem_of_cons. cbn. rewrite bool_decide_eq_false_2 by congruence. by apply IH.
Qed.

Lemma skip_blank b : blank b -> forall fuel lx text, at_text lx (b ++ text) -> (length (lx_file lx) <= fuel)%nat ->
  exists fuel' lx', read_keyword fuel lx = read_keyword fuel' lx' /\ at_text lx' text.
Proof.
  induction 1 as [|c b Hc Hb IH|body b Hbody Hq Hb IH]; intros fuel lx text Hat Hf.
  - by exists fuel, lx.
  - apply IH; [|done]. destruct Hat as (H1 & H2 & H3). split; [done|]. split; [done|]. rewrite H3. cbn. by rewrite Hc.
  - destruct Hat as (H1 & H2 & H3). cbn [app] in H3. rewrite <- app_assoc in H3. cbn [app] in H3.
    change (skip_space (45 :: 45 :: body ++ 10 :: b ++ text)) with (45 :: 45 :: body ++ 10 :: b ++ text) in H3.
    assert (Hlen : (length (b ++ text) < length (lx_file lx))%nat).
    { assert (Hsuf : (45 :: 45 :: body ++ 10 :: b ++ text) `suffix_of` (lx_lastchar lx :: lx_file lx)) by (rewrite <- H3; apply skip_space_suffix).
      apply suffix_length in Hsuf. cbn in Hsuf. rewrite length_app in Hsuf. cbn in Hsuf. lia. }
    destruct fuel as [|fuel]; [lia|]. destruct (IH fuel (mkLexer (b ++ text) chr_blank) text) as (fuel' & lx' & Heq & Hat'); [by repeat split|cbn; lia|].
    exists fuel', lx'. split; [|done]. rewrite <- Heq. cbn [read_keyword]. rewrite H3. rewrite !(bool_decide_eq_false_2 (45 = _)), !(bool_decide_eq_true_2 (45 = 45)) by done. cbn [orb]. by rewrite skip_comment_app.
Qed.

(** ** Words *)

(** [read_word] at the first character of a text. *)
Definition read_at (text : cstring) (lastchar : Z) (buf : cstring) (hash_val : Z) : mib_out token :=
  match text with ch :: file => read_word file ch lastchar buf hash_val | [] => mret (EOF, buf, mkLexer [] lastchar) end.

Definition plain_char (c : Z) : bool := negb (is_delim c) && negb (bool_decide (c = 0)).

Lemma put_ok buf c : (length buf < SYMBOL_MAXLEN)%nat -> put buf c = MibOk (buf ++ [c]).
Proof. intros H. unfold put. by rewrite decide_True. Qed.
Lemma c_string_plain w : forallb plain_char w = true -> c_string w = w.
Proof. induction w as [|c w IH]; cbn; [done|]. intros [[_ Hc]%andb_true_iff Hw]%andb_true_iff. destruct (bool_decide (c = 0)); [done|]. by rewrite IH. Qed.
Lemma terminate_ok w : forallb plain_char w = true -> (length w < SYMBOL_MAXLEN)%nat -> terminate w = MibOk w.
Proof. intros H1 H2. unfold terminate. rewrite decide_True by done. by rewrite c_string_plain. Qed.

Lemma read_at_run w : forall buf hash lastchar text, forallb plain_char w = true -> (length buf + length w < SYMBOL_MAXLEN)%nat ->
  read_at (w ++ text) lastchar buf hash = read_at text lastchar (buf ++ w) (fold_left Z.add w hash).
Proof.
  induction w as [|c w IH]; intros buf hash lastchar text; [by rewrite app_nil_r|]. intros [Hc Hw]%andb_true_iff Hlen. cbn in Hlen.
  transitivity (read_at (w ++ text) lastchar (buf ++ [c]) (hash + c)).
  - unfold plain_char in Hc. apply andb_true_iff in Hc as [Hc _]. unfold is_delim in Hc. apply negb_true_iff in Hc. cbn [app read_at].
    destruct (w ++ text) eqn:E; cbn [read_word]; rewrite Hc, put_ok by lia; done.
  - rewrite IH; [by rewrite <- app_assoc|done|rewrite length_app; cbn; lia].
Qed.

Definition blank_or (d : Z) : Z := if bool_decide (d = 10) then chr_blank else d.

(** The end of a word. *)
Lemma read_at_end d rest lastchar w : is_delim d = true -> d <> 46 -> forallb plain_char w = true -> w <> [] -> (length w < SYMBOL_MAXLEN)%nat -> key_of w <> Some CONTINUE ->
  read_at (d :: rest) lastchar w (hash_name w) = MibOk (word_key w, w, mkLexer rest (blank_or d)).
Proof.
  intros Hd H46 Hw Hne Hlen Hcont. pose proof (find_keyword_key w) as Hk. unfold is_delim in Hd. cbn [read_at].
  destruct rest as [|c rest]; cbn [read_word]; rewrite Hd, (bool_decide_eq_false_2 (d = 46)) by done; cbn [andb]; rewrite (bool_decide_eq_false_2 (c_string w = [])) by (by rewrite c_string_plain).
  all: rewrite andb_false_r; unfold mbind, mib_bind, mret, mib_ret; rewrite terminate_ok by done; unfold word_key; destruct (find_keyword (hash_name w) w) as [tp|]; cbn in Hk; rewrite <- Hk; [|done].
  all: rewrite bool_decide_eq_false_2 by congruence; done.
Qed.

(** The blanks inside a keyword of two words. *)
Lemma read_at_continue c lastchar w rest : isspace c = true -> forallb plain_char w = true -> w <> [] -> (length w < SYMBOL_MAXLEN)%nat -> key_of w = Some CONTINUE ->
  read_at (c :: rest) lastchar w (hash_name w) = read_at rest c w (hash_name w).
Proof.
  intros Hc Hw Hne Hlen Hcont. pose proof (find_keyword_key w) as Hk. rewrite Hcont in Hk. cbn [read_at].
  assert (H46 : c <> 46) by (intros ->; done).
  destruct rest as [|d rest]; cbn [read_word]; rewrite Hc; cbn [orb]; rewrite (bool_decide_eq_false_2 (c = 46)) by done; cbn [andb negb].
  all: unfold mbind, mib_bind, mret, mib_ret; rewrite terminate_ok by done; destruct (find_keyword (hash_name w) w) as [tp|]; [|done]; cbn in Hk; injection Hk as Hk; rewrite bool_decide_eq_true_2 by done; done.
Qed.

Lemma read_at_spaces s : forall lastchar w rest, forallb isspace s = true -> s <> [] -> forallb plain_char w = true -> w <> [] -> (length w < SYMBOL_MAXLEN)%nat -> key_of w = Some CONTINUE ->
  exists c, isspace c = true /\ read_at (s ++ rest) lastchar w (hash_name w) = read_at rest c w (hash_name w).
Proof.
  induction s as [|c s IH]; intros lastchar w rest Hs Hs0 Hw Hne Hlen Hcont; [done|]. apply andb_true_iff in Hs as [Hc Hs]. cbn [app]. rewrite read_at_continue by done.
  destruct (decide (s = [])) as [->|Hne']; [by exists c|]. by apply IH.
Qed.

(** From the state of the lexer to the first word. *)
Lemma word_cases w : word w = true -> forallb plain_char w = true /\ (length w < SYMBOL_MAXLEN)%nat /\ exists c w', w = c :: w' /\ c <> 34 /\ c <> 39 /\ c <> 0 /\ isspace c = false /\ (c = 45 -> head w' <> Some 45).
Proof.
  unfold word. intros [[Hp Hl%bool_decide_eq_true]%andb_true_iff Hh]%andb_true_iff. split; [done|]. split; [done|]. destruct w as [|c w']; [done|]. exists c, w'. split; [done|].
  apply andb_true_iff in Hh as [Hq Hc]. apply negb_true_iff, orb_false_iff in Hq as [H1%bool_decide_eq_false H2%bool_decide_eq_false]. cbn in Hp. apply andb_true_iff in Hp as [Hp _].
  apply andb_true_iff in Hp as [Hd H0%negb_true_iff%bool_decide_eq_false]. apply negb_true_iff, orb_false_iff in Hd as [Hd _]. repeat (split; [done|]).
  intros ->. apply negb_true_iff in Hc. rewrite bool_decide_eq_true_2 in Hc by done. by apply bool_decide_eq_false in Hc.
Qed.

Lemma read_keyword_word w text fuel lx : word w = true -> (exists d rest, text = d :: rest /\ is_delim d = true) -> at_text lx (w ++ text) ->
  read_keyword fuel lx = read_at text (lx_lastchar lx) w (hash_name w).
Proof.
  intros Hw (d & rest & Htext & Hd) (_ & _ & Hat). destruct (word_cases w Hw) as (Hp & Hl & c & w' & Hcw & H34 & H39 & H0 & Hs & H45).
  assert (Hsk : skip_space (lx_lastchar lx :: lx_file lx) = w ++ text) by (rewrite Hat, Hcw; cbn [app skip_space]; by rewrite Hs).
  assert (Hrun : read_at (w ++ text) (lx_lastchar lx) [] 0 = read_at text (lx_lastchar lx) w (hash_name w)) by (rewrite read_at_run by done; done).
  destruct fuel as [|fuel]; cbn [read_keyword]; rewrite Hsk; rewrite Hcw at 1; cbn [app]; rewrite !bool_decide_eq_false_2 by done; cbn [orb].
  all: destruct (bool_decide (c = 45)) eqn:E; [apply bool_decide_eq_true in E; subst c|rewrite <- Hrun, Hcw; done].
  all: assert (Hnext : exists ch' file, w' ++ text = ch' :: file /\ ch' <> 45).
  1, 3: destruct w' as [|e w']; [exists d, rest; split; [done|]; intros ->; done|exists e, (w' ++ text); split; [done|]; specialize (H45 eq_refl); cbn in H45; congruence].
  all: destruct Hnext as (ch' & file & Hf & Hch); rewrite Hf, bool_decide_eq_false_2 by done; rewrite <- Hrun, Hcw; cbn [app]; rewrite Hf.
  all: change (45 :: ch' :: file) with ([45] ++ ch' :: file); rewrite read_at_run by first [reflexivity|apply Nat.ltb_lt; reflexivity]; reflexivity.
Qed.

(** ** Punctuation and strings *)

Definition punctuation : cstring := cstr "(){},;|".

Lemma punct_facts : Forall (fun c => is_special c = true /\ isspace c = false /\ c <> 46 /\ c <> 45 /\ c <> 34 /\ c <> 39 /\ c <> 0 /\ exists key h, find_keyword c [c] = Some (mkKeyword [c] key h) /\ key_of [c] = Some key /\ key <> CONTINUE) punctuation.
Proof. repeat (constructor; [repeat (split; [first [reflexivity|discriminate]|]); eexists _, _; split; [vm_compute; reflexivity|]; split; [vm_compute; reflexivity|discriminate]|]). constructor. Qed.

Lemma read_keyword_punct c rest fuel lx : c ∈ punctuation -> at_text lx (c :: rest) -> read_keyword fuel lx = MibOk (tok_key (TPunct c), [c], mkLexer rest chr_blank).
Proof.
  intros Hc (_ & _ & Hat). pose proof punct_facts as Hf. rewrite Forall_forall in Hf. destruct (Hf c Hc) as (Hs & Hb & H46 & H45 & H34 & H39 & H0 & key & h & Hfind & Hkey & Hcont).
  assert (Hsk : skip_space (lx_lastchar lx :: lx_file lx) = c :: rest) by (rewrite Hat; cbn [skip_space]; by rewrite Hb).
  cbn [tok_key]. rewrite Hkey. cbn [default]. destruct fuel as [|fuel]; cbn [read_keyword]; rewrite Hsk, !bool_decide_eq_false_2 by done; cbn [orb].
  all: destruct rest as [|d rest]; cbn [read_word]; rewrite Hs, Hb, (bool_decide_eq_false_2 (c = 46)) by done; cbn [orb andb negb]; rewrite bool_decide_eq_true_2 by done.
  all: unfold mbind, mib_bind; rewrite put_one; unfold mret, mib_ret; cbv beta iota; rewrite terminate_one by congruence; cbv beta iota; rewrite Z.add_0_l, Hfind; cbn [kw_key]; rewrite bool_decide_eq_false_2 by done; done.
Qed.

Lemma read_quoted_body lastchar rest : forall body buf, chr_quote ∉ body ->
  read_quoted (body ++ chr_quote :: rest) 34 lastchar buf =
    (QUOTESTRING, c_string (buf ++ take (SYMBOL_MAXLEN - 2 - length buf) (filter (fun c => c <> 10) body)), mkLexer rest chr_blank).
Proof.
  induction body as [|c body IH]; intros buf Hq.
  - cbn [app read_quoted]. rewrite (bool_decide_eq_false_2 (chr_quote = 10)), !bool_decide_eq_true_2 by done. by rewrite filter_nil, take_nil, app_nil_r.
  - apply not_elem_of_cons in Hq as [Hc Hq]. cbn [app read_quoted]. destruct (decide (c = 10)) as [->|Hn].
    + rewrite bool_decide_eq_true_2 by done. rewrite IH by done. by rewrite filter_cons_False by tauto.
    + rewrite (bool_decide_eq_false_2 (c = 10)), (bool_decide_eq_false_2 (c = 34)) by (done || congruence). rewrite IH by done. rewrite filter_cons_True by done. case_bool_decide as Hl.
      * rewrite length_app. cbn [length]. replace (SYMBOL_MAXLEN - 2 - length buf)%nat with (S (SYMBOL_MAXLEN - 2 - (length buf + 1)))%nat by lia. cbn [take]. by rewrite <- app_assoc.
      * replace (SYMBOL_MAXLEN - 2 - length buf)%nat with O by lia. done.
Qed.

Lemma read_keyword_string body rest fuel lx : chr_quote ∉ body -> at_text lx (chr_quote :: body ++ chr_quote :: rest) ->
  read_keyword fuel lx = MibOk (QUOTESTRING, quoted body, mkLexer rest chr_blank).
Proof.
  intros Hq (_ & _ & Hat). change (skip_space (chr_quote :: body ++ chr_quote :: rest)) with (chr_quote :: body ++ chr_quote :: rest) in Hat.
  destruct fuel as [|fuel]; cbn [read_keyword]; rewrite Hat, (bool_decide_eq_true_2 (chr_quote = 34)) by done; cbn [orb]; change chr_quote with 34 at 2; rewrite read_quoted_body by done; done.
Qed.

Lemma at_text_blank rest : at_text (mkLexer rest chr_blank) rest.
Proof. by repeat split. Qed.
Lemma at_text_behind d rest : is_delim d = true -> d <> 46 -> at_text (mkLexer rest (blank_or d)) (d :: rest).
Proof.
  intros Hd H46. unfold at_text, blank_or. cbn [lx_lastchar lx_file]. case_bool_decide as E; [subst d; by repeat split|]. split; [done|]. split; [|done]. intros ->. discriminate Hd.
Qed.

(** ** Reading a layout *)

(** The next token of a layout is read, and the lexer is in front of the others. *)
Lemma lex_token lx text t ts : at_text lx text -> layout (t :: ts) text -> tok_ok t = true ->
  exists lx' text', ReadKeyword lx = MibOk (tok_key t, tok_text t, lx') /\ at_text lx' text' /\ layout ts text'.
Proof.
  intros Hat Hl Hok. inversion Hl as [|t' ts' b w rest Hb Hw Hend Hrest]; subst t' ts' text. unfold ReadKeyword.
  destruct (skip_blank b Hb (length (lx_file lx)) lx (w ++ rest) Hat (Nat.le_refl _)) as (fuel & lx1 & -> & Hat1).
  destruct Hw as [w|w1 w2 c s Hs|c|body]; cbn [tok_ok tok_text] in *.
  - destruct (Hend I) as (d & rest' & -> & Hd & H46). apply andb_true_iff in Hok as [Hword Hcont%negb_true_iff%bool_decide_eq_false].
    destruct (word_cases w Hword) as (Hp & Hlen & c0 & w' & Hcw & _). exists (mkLexer rest' (blank_or d)), (d :: rest'). split; [|split; [by apply at_text_behind|done]].
    rewrite (read_keyword_word w (d :: rest')) by (done || by eexists _, _). apply read_at_end; try done. by rewrite Hcw.
  - destruct (Hend I) as (d & rest' & -> & Hd & H46).
    apply andb_true_iff in Hok as [[[[Hw1 Hw2]%andb_true_iff Hc1%bool_decide_eq_true]%andb_true_iff Hc2%negb_true_iff%bool_decide_eq_false]%andb_true_iff Hne%negb_true_iff%bool_decide_eq_false].
    destruct (word_cases w1 Hw1) as (Hp1 & Hlen1 & c1 & w' & Hcw1 & _). destruct (word_cases _ Hw2) as (Hp2 & Hlen2 & _).
    exists (mkLexer rest' (blank_or d)), (d :: rest'). split; [|split; [by apply at_text_behind|done]].
    replace ((w1 ++ c :: s ++ w2) ++ d :: rest') with (w1 ++ c :: s ++ w2 ++ d :: rest') in Hat1 by (rewrite <- !app_assoc; cbn; by rewrite <- app_assoc).
    rewrite (read_keyword_word w1 (c :: s ++ w2 ++ d :: rest')) by (done || (eexists _, _; split; [done|]; unfold is_delim; apply andb_true_iff in Hs as [-> _]; done)).
    destruct (read_at_spaces (c :: s) (lx_lastchar lx1) w1 (w2 ++ d :: rest') Hs) as (c2 & Hc2' & Heq); [done|done|by rewrite Hcw1|done|done|]. cbn [app] in Heq. rewrite Heq.
    rewrite length_app in Hlen2. assert (Hp3 : forallb plain_char w2 = true) by (rewrite forallb_app in Hp2; by apply andb_true_iff in Hp2 as [_ ?]).
    rewrite read_at_run by (done || lia). unfold hash_name at 1. rewrite <- fold_left_app. apply read_at_end; try done; [by rewrite Hcw1|rewrite length_app; lia].
  - apply bool_decide_eq_true in Hok. exists (mkLexer rest chr_blank), rest. split; [by apply read_keyword_punct|]. split; [apply at_text_blank|done].
  - apply bool_decide_eq_true in Hok. cbn [app] in Hat1. rewrite <- app_assoc in Hat1. exists (mkLexer rest chr_blank), rest. split; [by apply read_keyword_string|]. split; [apply at_text_blank|done].
Qed.

(** The end of the file. *)
Lemma lex_end lx text : at_text lx text -> layout [] text -> exists text' lx', ReadKeyword lx = MibOk (EOF, text', lx').
Proof.
  intros Hat Hl. inversion Hl as [b Hb|]; subst b. unfold ReadKeyword.
  destruct (skip_blank text Hb (length (lx_file lx)) lx []) as (fuel & lx1 & -> & _ & _ & H); [by rewrite app_nil_r|done|]. eexists _, _. destruct fuel; cbn [read_keyword]; by rewrite H.
Qed.

(** ** Descriptions *)

Lemma skip_to_quote b text : blank b -> skip_chars (fun c => negb (bool_decide (c = chr_quote))) (b ++ chr_quote :: text) = chr_quote :: text.
Proof.
  assert (Hrun : forall l r, chr_quote ∉ l -> skip_chars (fun c => negb (bool_decide (c = chr_quote))) (l ++ r) = skip_chars (fun c => negb (bool_decide (c = chr_quote))) r).
  { induction l as [|c l IH]; intros r; [done|]. intros [Hc Hl]%not_elem_of_cons. cbn. rewrite bool_decide_eq_false_2 by congruence. by apply IH. }
  induction 1 as [|c b Hc Hb IH|body b Hbody Hq Hb IH].
  - cbn. by rewrite bool_decide_eq_true_2.
  - cbn. rewrite bool_decide_eq_false_2; [done|]. intros ->. discriminate Hc.
  - cbn [app skip_chars]. rewrite (bool_decide_eq_false_2 (45 = chr_quote)) by done. cbn [negb]. rewrite <- app_assoc, Hrun by done. cbn. by rewrite bool_decide_eq_false_2.
Qed.

Lemma skip_quote_space s : skip_chars (fun c => negb (bool_decide (c = chr_quote))) (skip_space s) = skip_chars (fun c => negb (bool_decide (c = chr_quote))) s.
Proof.
  induction s as [|c s IH]; [done|]. cbn [skip_space]. destruct (isspace c) eqn:E; [|done]. rewrite IH. cbn. rewrite bool_decide_eq_false_2; [done|]. intros ->. discriminate E.
Qed.

(** The next quote in the file is the one of the string. *)
Lemma quote_next lx text body ts : at_text lx text -> layout (TString body :: ts) text ->
  exists rest, skip_chars (fun c => negb (bool_decide (c = chr_quote))) (lx_file lx) = chr_quote :: body ++ chr_quote :: rest.
Proof.
  intros (_ & Hq & Hat) Hl. inversion Hl as [|t' ts' b w rest Hb Hw _ _]; subst. inversion Hw; subst. exists rest.
  transitivity (skip_chars (fun c => negb (bool_decide (c = chr_quote))) (lx_lastchar lx :: lx_file lx)); [cbn; by rewrite bool_decide_eq_false_2|].
  rewrite <- skip_quote_space, Hat, skip_quote_space. cbn [app]. rewrite <- app_assoc. by apply skip_to_quote.
Qed.

(** ** The keywords of a file *)

(** The keywords up to the end of the file. *)
Fixpoint read_all (fuel : nat) (lx : lexer) : mib_out (list (Z * cstring)) :=
  match fuel with
  | O => MibFault MibLoops
  | S fuel =>
      '(key, text, lx) ← ReadKeyword lx;
      if bool_decide (key = EOF) then mret [] else l ← read_all fuel lx; mret ((key, text) :: l)
  end.

Lemma tok_not_eof t : tok_ok t = true -> tok_key t <> EOF.
Proof.
  destruct t as [w|w1 w2|c|body]; cbn; [| | |done].
  - intros _. unfold word_key. destruct (key_of w) eqn:E; [by eapply key_not_eof|apply word_not_eof].
  - intros _. unfold word_key. destruct (key_of (w1 ++ w2)) eqn:E; [by eapply key_not_eof|apply word_not_eof].
  - intros H%bool_decide_eq_true. pose proof punct_facts as Hf. rewrite Forall_forall in Hf. destruct (Hf c H) as (_ & _ & _ & _ & _ & _ & _ & key & h & _ & Hk & _). rewrite Hk. by eapply key_not_eof.
Qed.

(** C14: The keywords of a file are the tokens it is a layout of: blanks, line ends and comments
    between them, blanks inside of [OBJECT IDENTIFIER] and line ends inside of strings
    make no difference, and none is lost or invented. *)
Theorem mib_tokens ts text lastchar : layout ts text -> Forall (fun t => tok_ok t = true) ts -> isspace lastchar = true ->
  read_all (2 + 2 * length text) (mkLexer text lastchar) = MibOk (map (fun t => (tok_key t, tok_text t)) ts).
Proof.
  intros Hl Hok Hc. assert (Hat : at_text (mkLexer text lastchar) text).
  { split; [|split]; cbn; [intros H; by rewrite H in Hc|intros H; by rewrite H in Hc|by rewrite Hc]. }
  assert (Hf : (left (mkLexer text lastchar) < 2 + 2 * length text)%nat) by (unfold left; cbn [lx_file lx_lastchar]; destruct (is_special lastchar); lia). clear Hc.
  revert Hf Hl Hat. generalize (2 + 2 * length text)%nat as fuel. generalize (mkLexer text lastchar) as lx. intros lx fuel. revert lx fuel text.
  induction Hok as [|t ts Ht _ IH]; intros lx fuel text Hf Hl Hat; (destruct fuel as [|fuel]; [lia|]); cbn [read_all].
  - destruct (lex_end lx text Hat Hl) as (w & lx' & ->). done.
  - destruct (lex_token lx text t ts Hat Hl Ht) as (lx' & text' & E & Hat' & Hl'). rewrite E. unfold mbind at 1, mib_bind. cbv beta iota. rewrite bool_decide_eq_false_2 by (by apply tok_not_eof).
    pose proof (ReadKeyword_ended lx) as He. rewrite E in He. destruct He as (_ & _ & Hlt). specialize (Hlt (tok_not_eof t Ht)). cbn [snd] in Hlt. rewrite (IH lx' fuel text'); [done|lia|done|done].
Qed.

Definition sample_toks : list tok :=
  [TWord (cstr "A"); TWord (cstr "DEFINITIONS"); TWord (cstr "::="); TPunct 123; TWord (cstr "b"); TPunct 40; TWord (cstr "5"); TPunct 41; TPunct 125; TPair (cstr "OBJECT") (cstr "IDENTIFIER"); TString (cstr "two words")].
Definition sample_text : cstring := cstr "A DEFINITIONS ::= -- one -- two" ++ [10] ++ cstr "{b(5)} OBJECT  IDENTIFIER " ++ [chr_quote] ++ cstr "two words" ++ [chr_quote].

Lemma sample_layout : layout sample_toks sample_text.
Proof.
  assert (Hcomment : blank (cstr " -- one -- two" ++ [10])).
  { apply blank_space; [done|]. apply (blank_comment (cstr " one -- two") []); [by apply (bool_decide_unpack _); vm_compute|by apply (bool_decide_unpack _); vm_compute|constructor]. }
  assert (Hspace : forall n, blank (replicate n chr_blank)) by (induction n; [constructor|by apply blank_space]).
  unfold sample_toks.
  apply (layout_cons _ _ (replicate 0 chr_blank) (cstr "A") (drop 1 sample_text)); [done|constructor|by eexists _, _|].
  apply (layout_cons _ _ (replicate 1 chr_blank) (cstr "DEFINITIONS") (drop 13 sample_text)); [done|constructor|by eexists _, _|].
  apply (layout_cons _ _ (replicate 1 chr_blank) (cstr "::=") (drop 17 sample_text)); [done|constructor|by eexists _, _|].
  apply (layout_cons _ _ (cstr " -- one -- two" ++ [10]) [123] (drop 33 sample_text)); [done|constructor|done|].
  apply (layout_cons _ _ (replicate 0 chr_blank) (cstr "b") (drop 34 sample_text)); [done|constructor|by eexists _, _|].
  apply (layout_cons _ _ (replicate 0 chr_blank) [40] (drop 35 sample_text)); [done|constructor|done|].
  apply (layout_cons _ _ (replicate 0 chr_blank) (cstr "5") (drop 36 sample_text)); [done|constructor|by eexists _, _|].
  apply (layout_cons _ _ (replicate 0 chr_blank) [41] (drop 37 sample_text)); [done|constructor|done|].
  apply (layout_cons _ _ (replicate 0 chr_blank) [125] (drop 38 sample_text)); [done|constructor|done|].
  apply (layout_cons _ _ (replicate 1 chr_blank) (cstr "OBJECT  IDENTIFIER") (drop 57 sample_text)); [done|by apply (spelled_pair (cstr "OBJECT") (cstr "IDENTIFIER") chr_blank [chr_blank])|by eexists _, _|].
  apply (layout_cons _ _ (replicate 1 chr_blank) (chr_quote :: cstr "two words" ++ [chr_quote]) []); [done|constructor|done|constructor; constructor].
Qed.

Lemma mib_tokens_witness : read_all (2 + 2 * length sample_text) (mkLexer sample_text chr_blank) =
  MibOk [(LABEL, cstr "A"); (DEFINITIONS, cstr "DEFINITIONS"); (EQUALS, cstr "::="); (LEFTBRACKET, cstr "{"); (LABEL, cstr "b"); (LEFTPAREN, cstr "("); (NUMBER, cstr "5"); (RIGHTPAREN, cstr ")"); (RIGHTBRACKET, cstr "}");
         (ASN1_OBJECT_IDENTIFIER, cstr "OBJECTIDENTIFIER"); (QUOTESTRING, cstr "two words")].
Proof. apply (mib_tokens sample_toks sample_text chr_blank); [exact sample_layout|by repeat (constructor; [by vm_compute|])|done]. Defined.
