(* ===== verification/MibRead.v ===== *)
(** The parser of MIB files on a text whose tokens are known: what the procedures for
    lists, object identifiers and clauses of macros read. *)

From stdpp Require Import gmap.
From S2P Require Import Prelude Ber CStr Oid Util Snmp Mib MibTree MibTreeInv MibNames MibLexer MibParser MibMacro MibLex MibLayout.
Local Open Scope Z_scope.

(** ** The monad *)

Lemma bind_ok {A B} (m : parse A) (k : A -> parse B) s a s' : m s = MibOk (a, s') -> (m ≫= k) s = k a s'.
Proof. intros H. unfold mbind, parse_bind. by rewrite H. Qed.

Lemma loop_next {A R} (body : A -> parse (A + R)) fuel a s a' s' : body a s = MibOk (inl a', s') -> loop body (S fuel) a s = loop body fuel a' s'.
Proof. intros H. cbn [loop]. by rewrite (bind_ok _ _ _ _ _ H). Qed.
Lemma loop_exit {A R} (body : A -> parse (A + R)) fuel a s r s' : body a s = MibOk (inr r, s') -> loop body (S fuel) a s = MibOk (r, s').
Proof. intros H. cbn [loop]. by rewrite (bind_ok _ _ _ _ _ H). Qed.

(** [k] rounds of a loop. *)
Definition rounds {A R} (body : A -> parse (A + R)) (k : nat) (a : A) (s : parser) (a' : A) (s' : parser) : Prop :=
  forall fuel, loop body (k + fuel) a s = loop body fuel a' s'.

Lemma rounds_refl {A R} (body : A -> parse (A + R)) a s : rounds body 0 a s a s.
Proof. done. Qed.
Lemma rounds_one {A R} (body : A -> parse (A + R)) a s a' s' : body a s = MibOk (inl a', s') -> rounds body 1 a s a' s'.
Proof. intros H fuel. by apply loop_next. Qed.
Lemma rounds_trans {A R} (body : A -> parse (A + R)) k1 k2 a1 s1 a2 s2 a3 s3 : rounds body k1 a1 s1 a2 s2 -> rounds body k2 a2 s2 a3 s3 -> rounds body (k1 + k2) a1 s1 a3 s3.
Proof. intros H1 H2 fuel. rewrite <- Nat.add_assoc, H1. apply H2. Qed.

(** ** Positions *)

(** ** Numbers *)

Definition number_tok (n : Z) : tok := TWord (sprintf_u n).
Definition mib_number (n : Z) : Prop := 0 <= n < 2147483648.

Lemma word_key_digits w : w <> [] -> forallb isdigit w = true -> word_key w = NUMBER.
Proof.
  intros Hne Hd. unfold word_key. assert (Hk : key_of w = None).
  { unfold key_of. destruct (list_find _ keywords) as [[i tp]|] eqn:E; [|done]. exfalso. apply list_find_Some in E as (Hi & Hn & _).
    assert (Hf : Forall (fun tp => forallb isdigit (kw_name tp) = false) keywords) by (repeat (constructor; [reflexivity|]); constructor).
    rewrite Forall_forall in Hf. specialize (Hf tp (list_elem_of_lookup_2 _ _ _ Hi)). congruence. }
  rewrite Hk. cbn. destruct w as [|c w]; [done|]. unfold word_syntax. cbn in Hd. apply andb_true_iff in Hd as [Hc Hw]. rewrite Hc, Hw, orb_true_r. cbn [andb].
  unfold isdigit in Hc. apply bool_decide_eq_true in Hc. rewrite !bool_decide_eq_false_2 by lia. done.
Qed.

Lemma number_key n : tok_key (number_tok n) = NUMBER.
Proof.
  apply word_key_digits.
  - pose proof (sprintf_u_length n) as H. by destruct (sprintf_u n); cbn in H; [lia|].
  - pose proof (sprintf_u_digits n) as H. apply forallb_forall. intros c Hc. rewrite Forall_forall in H. apply H. by apply list_elem_of_In.
Qed.

Lemma number_atoi n : mib_number n -> atoi (sprintf_u n) = MibOk n.
Proof.
  intros H. unfold atoi. pose proof (sprintf_u_fold n) as Hf. unfold mib_number in H. rewrite Hf by (unfold is_u32; lia). cbv zeta. rewrite bool_decide_eq_true_2 by lia. done.
Qed.

Section read.
Context (content : cstring) (start : nat).

Definition lexer_of (s : parser) : lexer := mkLexer (ps_file s) (gl_lastchar (ps_glob s)).

(** The parser is in front of the tokens [ts] of the file and behind its first [start]
    characters. *)
Definition at_toks (s : parser) (ts : list tok) : Prop :=
  exists text, at_text (lexer_of s) text /\ layout ts text /\ Forall (fun t => tok_ok t = true) ts /\ ps_file s `suffix_of` drop start content /\ ps_size s = length content.

(** The state without the position. *)
Definition mem (s : parser) : parser := mkParser (with_lastchar chr_blank (ps_glob s)) [] (ps_size s) (ps_nodeList s).

Lemma keyword_tok s t ts : at_toks s (t :: ts) -> exists s', keyword s = MibOk ((tok_key t, tok_text t), s') /\ at_toks s' ts /\ mem s' = mem s.
Proof.
  intros (text & Hat & Hl & [Ht Hts]%Forall_cons & Hsuf & Hsize). destruct (lex_token _ _ _ _ Hat Hl Ht) as (lx & text' & Hread & Hat' & Hl').
  pose proof (ReadKeyword_ended (lexer_of s)) as He. rewrite Hread in He. destruct He as (He & _). cbn in He.
  exists (mkParser (with_lastchar (lx_lastchar lx) (ps_glob s)) (lx_file lx) (ps_size s) (ps_nodeList s)).
  unfold keyword. unfold lexer_of in Hread. rewrite Hread. split; [done|]. split; [|done]. exists text'. split; [by destruct lx|]. repeat (split; [done|]). split; [by etrans|done].
Qed.

Lemma syntax_tok s t ts : at_toks s (t :: ts) -> exists s', syntax_of s = MibOk (tok_key t, s') /\ at_toks s' ts /\ mem s' = mem s.
Proof. intros (s' & H & ? & ?)%keyword_tok. exists s'. unfold syntax_of. by rewrite (bind_ok _ _ _ _ _ H). Qed.

Lemma expect_tok s t ts key : at_toks s (t :: ts) -> exists s', expect key s = MibOk (bool_decide (tok_key t = key), s') /\ at_toks s' ts /\ mem s' = mem s.
Proof. intros (s' & H & ? & ?)%syntax_tok. exists s'. unfold expect. by rewrite (bind_ok _ _ _ _ _ H). Qed.

(** A change of the memory keeps the position. *)
Lemma at_toks_glob s ts f : gl_lastchar (f (ps_glob s)) = gl_lastchar (ps_glob s) -> at_toks s ts -> at_toks (with_glob f s) ts.
Proof. intros H (text & Hat & Hrest). exists text. split; [|done]. unfold lexer_of. cbn. by rewrite H. Qed.
Lemma at_toks_list s ts p : at_toks s ts -> at_toks (with_nodeList p s) ts.
Proof. done. Qed.

(** ** Enough rounds *)

Lemma skip_space_length b text : blank b -> (length (skip_space text) <= length (skip_space (b ++ text)))%nat.
Proof.
  induction 1 as [|c b Hc Hb IH|body b Hbody Hq Hb IH]; [done|cbn; by rewrite Hc|].
  cbn [app]. change (skip_space (45 :: 45 :: ?x)) with (45 :: 45 :: x). rewrite <- app_assoc. cbn. rewrite length_app. cbn. rewrite length_app.
  pose proof (suffix_length _ _ (skip_space_suffix text)). lia.
Qed.

Lemma spelled_nonempty t text rest : spelled t text -> tok_ok t = true -> (S (length rest) <= length (skip_space (text ++ rest)))%nat.
Proof.
  intros Hs Hok. assert (Hc : exists c text', text = c :: text' /\ isspace c = false).
  { destruct Hs as [w|w1 w2 c s Hs|c|body]; cbn in Hok.
    - apply andb_true_iff in Hok as [Hw _]. destruct (word_cases w Hw) as (_ & _ & c & w' & -> & _ & _ & _ & ? & _). by exists c, w'.
    - apply andb_true_iff in Hok as [[[[Hw1 _]%andb_true_iff _]%andb_true_iff _]%andb_true_iff _]. destruct (word_cases w1 Hw1) as (_ & _ & d & w' & -> & _ & _ & _ & ? & _). exists d. eexists. by split.
    - apply bool_decide_eq_true in Hok. pose proof punct_facts as Hf. rewrite Forall_forall in Hf. destruct (Hf c Hok) as (_ & ? & _). by exists c, [].
    - by eexists _, _. }
  destruct Hc as (c & text' & -> & Hc). cbn. rewrite Hc. cbn. rewrite length_app. lia.
Qed.

Lemma layout_length ts text : layout ts text -> Forall (fun t => tok_ok t = true) ts -> (length ts <= length (skip_space text))%nat.
Proof.
  induction 1 as [b Hb|t ts b text rest Hb Hs _ Hl IH]; intros H; [cbn; lia|]. apply Forall_cons in H as [Ht Hts].
  etrans; [|by apply skip_space_length]. pose proof (spelled_nonempty t text rest Hs Ht). specialize (IH Hts). pose proof (suffix_length _ _ (skip_space_suffix rest)). cbn. lia.
Qed.

Lemma while_rounds {A R} (body : A -> parse (A + R)) s ts k a a' s' r : at_toks s ts -> (k <= length ts)%nat -> rounds body k a s a' s' ->
  (forall fuel, loop body (S fuel) a' s' = r) -> while body a s = r.
Proof.
  intros (text & Hat & Hl & Hok & _) Hk Hr Hend. pose proof (layout_length _ _ Hl Hok) as Hlen. destruct Hat as (_ & _ & Hsk). rewrite <- Hsk in Hlen.
  pose proof (suffix_length _ _ (skip_space_suffix (lx_lastchar (lexer_of s) :: lx_file (lexer_of s)))) as H. cbn in H.
  unfold while. replace (3 + keywords_left s)%nat with (k + S (2 + keywords_left s - k))%nat by (unfold keywords_left; cbn in *; lia). rewrite Hr. apply Hend.
Qed.

(** ** Lists of names *)

(** A label: a word that is no keyword and no number. *)
Definition label (w : cstring) : bool := tok_ok (TWord w) && bool_decide (word_key w = LABEL).
Lemma label_key w : label w = true -> word_key w = LABEL.
Proof. by intros [_ H%bool_decide_eq_true]%andb_true_iff. Qed.

Fixpoint name_toks (names : list cstring) : list tok :=
  match names with
  | [] => []
  | [name] => [TWord name]
  | name :: names => TWord name :: TPunct 44 :: name_toks names
  end.

(** A body that skips commas and takes labels. *)
Lemma names_rounds {R} (body : cstring -> parse (cstring + R)) (f : cstring -> cstring -> cstring) ts :
  (forall dst s ts, at_toks s (TPunct 44 :: ts) -> exists s', body dst s = MibOk (inl dst, s') /\ at_toks s' ts /\ mem s' = mem s) ->
  (forall name dst s ts, word_key name = LABEL -> at_toks s (TWord name :: ts) -> exists s', body dst s = MibOk (inl (f dst name), s') /\ at_toks s' ts /\ mem s' = mem s) ->
  forall names dst s, Forall (fun w => label w = true) names -> at_toks s (name_toks names ++ ts) ->
  exists s', rounds body (length (name_toks names)) dst s (fold_left f names dst) s' /\ at_toks s' ts /\ mem s' = mem s.
Proof.
  intros Hcomma Hname. induction names as [|name names IH]; intros dst s Hl Hat; [by exists s|]. apply Forall_cons in Hl as [Hn Hl]. apply label_key in Hn.
  destruct names as [|name2 names].
  - destruct (Hname name dst s ts Hn Hat) as (s1 & H1 & ? & ?). exists s1. split; [by apply rounds_one|done].
  - change (name_toks (name :: name2 :: names)) with (TWord name :: TPunct 44 :: name_toks (name2 :: names)) in *. cbn [app] in Hat. destruct (Hname name dst s _ Hn Hat) as (s1 & H1 & Hat1 & M1). destruct (Hcomma (f dst name) s1 _ Hat1) as (s2 & H2 & Hat2 & M2).
    destruct (IH (f dst name) s2 Hl Hat2) as (s3 & H3 & Hat3 & M3). exists s3. split; [|split; [done|congruence]].
    change (length (TWord name :: TPunct 44 :: name_toks (name2 :: names))) with (1 + (1 + length (name_toks (name2 :: names))))%nat.
    eapply rounds_trans; [by apply rounds_one|]. eapply rounds_trans; [by apply rounds_one|]. exact H3.
Qed.

Definition braces (ts : list tok) : list tok := TPunct 123 :: ts ++ [TPunct 125].

(** ** Object identifiers *)

(** [{ parent label(number) ... number }] *)
Record oid_value := mkOidValue { ov_parent : cstring; ov_path : list (cstring * Z); ov_number : Z }.

Definition path_toks (path : list (cstring * Z)) : list tok := path ≫= (fun e => [TWord e.1; TPunct 40; number_tok e.2; TPunct 41]).
Definition oid_toks (v : oid_value) : list tok := braces (TWord (ov_parent v) :: path_toks (ov_path v) ++ [number_tok (ov_number v)]).

Definition oid_value_ok (v : oid_value) : Prop :=
  label (ov_parent v) = true /\ Forall (fun e => label e.1 = true /\ mib_number e.2) (ov_path v) /\ mib_number (ov_number v).


(** The list [ReadSubID] makes of the labels in front of the last number: the name of the
    last label and the elements, newest first. *)
Definition path_subids (parent : cstring) (path : list (cstring * Z)) (subidList : list subid) : cstring * list subid :=
  fold_left (fun st e => (e.1, mkSubid st.1 (Some e.1) e.2 :: st.2)) path (parent, subidList).
Definition subids_of (v : oid_value) : list subid :=
  match ov_path v with
  | [] => [mkSubid (ov_parent v) None (ov_number v)]
  | _ => let '(name, l) := path_subids (ov_parent v) (ov_path v) [mkSubid (ov_parent v) None (-1)] in mkSubid name None (ov_number v) :: l
  end.

Lemma read_subid_label name l s w ts : label w = true -> at_toks s (TWord w :: ts) ->
  exists s', read_subid (name, l) s = MibOk (inl (label_subid name w l), s') /\ at_toks s' ts /\ mem s' = mem s.
Proof.
  intros Hw Hat. destruct (keyword_tok _ _ _ Hat) as (s1 & H1 & ? & ?). exists s1. unfold read_subid. rewrite (bind_ok _ _ _ _ _ H1). cbn [tok_key]. rewrite (label_key _ Hw). done.
Qed.

Lemma read_subid_path name np l s n ts : mib_number n -> at_toks s (TPunct 40 :: number_tok n :: TPunct 41 :: ts) ->
  exists s', read_subid (name, np :: l) s = MibOk (inl (name, set_subid n np :: l), s') /\ at_toks s' ts /\ mem s' = mem s.
Proof.
  intros Hn Hat. destruct (keyword_tok _ _ _ Hat) as (s1 & H1 & Hat1 & M1). destruct (keyword_tok _ _ _ Hat1) as (s2 & H2 & Hat2 & M2). destruct (expect_tok _ _ _ RIGHTPAREN Hat2) as (s3 & H3 & Hat3 & M3).
  exists s3. split; [|split; [done|congruence]]. unfold read_subid. rewrite (bind_ok _ _ _ _ _ H1).
  change (tok_key (TPunct 40)) with LEFTPAREN. change (tok_key (TPunct 41)) with RIGHTPAREN in H3. rewrite (bool_decide_eq_false_2 (LEFTPAREN = RIGHTBRACKET)), (bool_decide_eq_false_2 (LEFTPAREN = LABEL)), (bool_decide_eq_true_2 (LEFTPAREN = LEFTPAREN)) by done.
  rewrite (bind_ok _ _ _ _ _ H2), number_key. change (bool_decide (NUMBER <> NUMBER)) with false. cbn iota. change (tok_text (number_tok n)) with (sprintf_u n).
  unfold lift. rewrite number_atoi by done. unfold mbind, parse_bind, number_subid, mret, parse_ret. by rewrite H3.
Qed.

(** An element is read in two rounds. *)
Lemma path_rounds : forall path parent l s ts, Forall (fun e => label e.1 = true /\ mib_number e.2) path -> at_toks s (path_toks path ++ ts) ->
  exists k s', (k <= length (path_toks path))%nat /\ rounds read_subid k (Some parent, l) s (Some (path_subids parent path l).1, (path_subids parent path l).2) s' /\ at_toks s' ts /\ mem s' = mem s.
Proof.
  induction path as [|[w n] path IH]; intros parent l s ts Hok Hat; [by exists O, s|]. apply Forall_cons in Hok as [[Hw Hn] Hok]. cbn [fst snd] in Hw, Hn.
  change (path_toks ((w, n) :: path)) with (TWord w :: TPunct 40 :: number_tok n :: TPunct 41 :: path_toks path) in *. cbn [app] in Hat.
  destruct (read_subid_label (Some parent) l _ _ _ Hw Hat) as (s1 & H1 & Hat1 & M1). destruct (read_subid_path (Some w) (mkSubid parent (Some w) (-1)) l _ _ _ Hn Hat1) as (s2 & H2 & Hat2 & M2).
  destruct (IH w (mkSubid parent (Some w) n :: l) s2 ts Hok Hat2) as (k & s3 & Hk & H3 & Hat3 & M3). exists (1 + (1 + k))%nat, s3. split; [cbn; lia|]. split; [|split; [done|congruence]].
  eapply rounds_trans; [by apply rounds_one|]. eapply rounds_trans; [by apply rounds_one|]. exact H3.
Qed.

Lemma path_subids_head path parent l : path <> [] -> Forall (fun e => mib_number e.2) path -> exists np l', (path_subids parent path l).2 = np :: l' /\ sub_subid np <> -1.
Proof.
  intros Hne Hok. destruct path as [|e path] using rev_ind; [done|]. unfold path_subids. rewrite fold_left_app. cbn. apply Forall_app in Hok as [_ Hok]. apply Forall_cons in Hok as [He _].
  eexists _, _. split; [done|]. cbn. unfold mib_number in He. lia.
Qed.

Lemma read_subid_number name np l s n ts : mib_number n -> at_toks s (number_tok n :: ts) ->
  exists s', read_subid (Some name, np :: l) s = MibOk (inl (Some name, if bool_decide (sub_subid np <> -1) then mkSubid name None n :: np :: l else set_subid n np :: l), s') /\ at_toks s' ts /\ mem s' = mem s.
Proof.
  intros Hn Hat. destruct (keyword_tok _ _ _ Hat) as (s1 & H1 & Hat1 & M1). exists s1. split; [|done]. unfold read_subid. rewrite (bind_ok _ _ _ _ _ H1), number_key.
  change (bool_decide (NUMBER = RIGHTBRACKET)) with false. change (bool_decide (NUMBER = LABEL)) with false. change (bool_decide (NUMBER = LEFTPAREN)) with false. change (bool_decide (NUMBER = NUMBER)) with true. cbn iota.
  change (tok_text (number_tok n)) with (sprintf_u n). unfold lift. rewrite number_atoi by done. unfold mbind, parse_bind. by destruct (bool_decide (sub_subid np <> -1)).
Qed.

Lemma ReadSubID_toks v s ts : oid_value_ok v -> at_toks s (oid_toks v ++ ts) -> exists s', ReadSubID s = MibOk (subids_of v, s') /\ at_toks s' ts /\ mem s' = mem s.
Proof.
  destruct v as [parent path n]. intros (Hp & Hpath & Hn) Hat. unfold oid_toks, braces in Hat. cbn [ov_parent ov_path ov_number app] in *. rewrite <- !app_assoc in Hat. cbn [app] in Hat.
  unfold ReadSubID. destruct (expect_tok _ _ _ LEFTBRACKET Hat) as (s1 & H1 & Hat1 & M1). rewrite (bind_ok _ _ _ _ _ H1). change (bool_decide (tok_key (TPunct 123) = LEFTBRACKET)) with true. cbn iota.
  destruct (read_subid_label None [] _ _ _ Hp Hat1) as (s2 & H2 & Hat2 & M2). cbn [label_subid] in H2.
  destruct (path_rounds path parent [mkSubid parent None (-1)] s2 _ Hpath Hat2) as (k & s3 & Hk & H3 & Hat3 & M3).
  assert (Hlast : exists np l, (path_subids parent path [mkSubid parent None (-1)]).2 = np :: l /\ (if bool_decide (sub_subid np <> -1) then mkSubid (path_subids parent path [mkSubid parent None (-1)]).1 None n :: np :: l else set_subid n np :: l) = subids_of (mkOidValue parent path n)).
  { unfold subids_of. cbn [ov_path ov_parent ov_number]. destruct path as [|e path]; [by eexists _, _|].
    destruct (path_subids_head (e :: path) parent [mkSubid parent None (-1)]) as (np & l & Heq & Hnp); [done|by eapply Forall_impl; [exact Hpath|intros ? [_ ?]]|].
    exists np, l. split; [done|]. rewrite bool_decide_eq_true_2 by done. rewrite <- Heq. by destruct (path_subids parent (e :: path) _). }
  destruct Hlast as (np & l & Heq & Hres). rewrite Heq in H3.
  destruct (read_subid_number (path_subids parent path [mkSubid parent None (-1)]).1 np l s3 n _ Hn Hat3) as (s4 & H4 & Hat4 & M4). rewrite Hres in H4.
  destruct (keyword_tok _ _ _ Hat4) as (s5 & H5 & Hat5 & M5). exists s5. split; [|split; [done|congruence]].
  refine (while_rounds _ _ _ (1 + (k + 1))%nat _ _ _ _ Hat1 _ _ _).
  - cbn. rewrite length_app. cbn. lia.
  - eapply rounds_trans; [by apply rounds_one|]. eapply rounds_trans; [exact H3|]. apply rounds_one. exact H4.
  - intros fuel. apply loop_exit. unfold read_subid. by rewrite (bind_ok _ _ _ _ _ H5).
Qed.

(** ** Lists in braces *)

Context (Tcl_DStringAppendElement : cstring -> cstring -> cstring).
Definition index_text (names : list cstring) : cstring := fold_left Tcl_DStringAppendElement names [].

Lemma ReadNameList_toks names s ts : Forall (fun w => label w = true) names -> at_toks s (braces (name_toks names) ++ ts) ->
  exists s', ReadNameList Tcl_DStringAppendElement s = MibOk (Some (index_text names), s') /\ at_toks s' ts /\ mem s' = mem s.
Proof.
  intros Hl Hat. unfold braces in Hat. cbn [app] in Hat. rewrite <- app_assoc in Hat. unfold ReadNameList.
  destruct (expect_tok _ _ _ LEFTBRACKET Hat) as (s1 & H1 & Hat1 & M1). rewrite (bind_ok _ _ _ _ _ H1). change (bool_decide (tok_key (TPunct 123) = LEFTBRACKET)) with true. cbn iota.
  destruct (names_rounds (read_name Tcl_DStringAppendElement) Tcl_DStringAppendElement ([TPunct 125] ++ ts)) with (names := names) (dst := @nil Z) (s := s1) as (s2 & H2 & Hat2 & M2); [| |done|done|].
  - intros dst s0 ts0 H0. destruct (keyword_tok _ _ _ H0) as (s' & Hk & ? & ?). exists s'. unfold read_name. by rewrite (bind_ok _ _ _ _ _ Hk).
  - intros name dst s0 ts0 Hname H0. destruct (keyword_tok _ _ _ H0) as (s' & Hk & ? & ?). exists s'. unfold read_name. rewrite (bind_ok _ _ _ _ _ Hk). cbn [tok_key]. by rewrite Hname.
  - destruct (keyword_tok _ _ _ Hat2) as (s3 & H3 & Hat3 & M3). exists s3. split; [|split; [done|congruence]].
    refine (while_rounds _ _ _ _ _ _ _ _ Hat1 _ H2 _); [rewrite length_app; lia|]. intros fuel. apply loop_exit. unfold read_name. by rewrite (bind_ok _ _ _ _ _ H3).
Qed.

End read.
