(* ===== verification/MibModule.v ===== *)
(** MIB modules as data: their tokens and the nodes they define. *)

From stdpp Require Import gmap.
From S2P Require Import Prelude Ber CStr Oid Util Snmp Mib MibTree MibNames MibLexer MibParser MibMacro MibLex MibLayout MibRead.
Local Open Scope Z_scope.

(** ** Modules *)

(** A clause behind the head of a macro; [ClSkip] is a token the macro does not know. *)
Inductive clause :=
  | ClStatus (status : cstring)
  | ClDescription (body : cstring)
  | ClObjects (names : list cstring)
  | ClIndex (names : list cstring)
  | ClImplied (names : list cstring) (last : cstring)
  | ClAugments (entry : cstring)
  | ClSkip (t : tok).

Inductive macro := ModuleIdentity | ModuleCompliance | ObjectIdentity | NotificationType | Capabilities.

(** The syntax of an object: a base type, a table, a name of a type or of an entry. *)
Inductive object_type := SyBase (t : tok) | SyTable (entry : cstring) | SyName (name : cstring).

Inductive definition :=
  | DefOid (name : cstring) (v : oid_value)
  | DefMacro (m : macro) (name : cstring) (clauses : list clause) (v : oid_value)
  | DefGroup (notifications : bool) (name : cstring) (members : list cstring) (clauses : list clause) (v : oid_value)
  | DefObject (name : cstring) (sy : object_type) (access status : cstring) (clauses : list clause) (v : oid_value).

Record mib_module := mkModule {
  mod_name : cstring;
  mod_imports : option (list (list cstring * cstring));
  mod_first : definition;
  mod_rest : list definition
}.

(** ** Tokens *)

Definition w_ (s : string) : tok := TWord (cstr s).
Definition equals : tok := w_ "::=".

Definition clause_toks (c : clause) : list tok :=
  match c with
  | ClStatus status => [w_ "STATUS"; TWord status]
  | ClDescription body => [w_ "DESCRIPTION"; TString body]
  | ClObjects names => w_ "OBJECTS" :: braces (name_toks names)
  | ClIndex names => w_ "INDEX" :: braces (name_toks names)
  | ClImplied names last => w_ "INDEX" :: braces ((names ≫= (fun n => [TWord n; TPunct 44])) ++ [w_ "IMPLIED"; TWord last])
  | ClAugments entry => w_ "AUGMENTS" :: braces [TWord entry]
  | ClSkip t => [t]
  end.

Definition macro_tok (m : macro) : tok :=
  w_ match m with
     | ModuleIdentity => "MODULE-IDENTITY" | ModuleCompliance => "MODULE-COMPLIANCE" | ObjectIdentity => "OBJECT-IDENTITY"
     | NotificationType => "NOTIFICATION-TYPE" | Capabilities => "AGENT-CAPABILITIES"
     end.

Definition type_toks (sy : object_type) : list tok :=
  match sy with SyBase t => [t] | SyTable entry => [w_ "SEQUENCE"; w_ "OF"; TWord entry] | SyName name => [TWord name] end.

(** The tokens behind the name. *)
Definition body_toks (d : definition) : list tok :=
  match d with
  | DefOid _ v => TPair (cstr "OBJECT") (cstr "IDENTIFIER") :: equals :: oid_toks v
  | DefMacro m _ clauses v => macro_tok m :: (clauses ≫= clause_toks) ++ equals :: oid_toks v
  | DefGroup notifications _ members clauses v =>
      w_ (if notifications then "NOTIFICATION-GROUP" else "OBJECT-GROUP") :: w_ (if notifications then "NOTIFICATIONS" else "OBJECTS")
      :: braces (name_toks members) ++ (clauses ≫= clause_toks) ++ equals :: oid_toks v
  | DefObject _ sy access status clauses v =>
      w_ "OBJECT-TYPE" :: w_ "SYNTAX" :: type_toks sy ++ [w_ "MAX-ACCESS"; TWord access; w_ "STATUS"; TWord status] ++ (clauses ≫= clause_toks) ++ equals :: oid_toks v
  end.
Definition def_name (d : definition) : cstring :=
  match d with DefOid name _ | DefMacro _ name _ _ | DefGroup _ name _ _ _ | DefObject name _ _ _ _ _ => name end.
Definition def_toks (d : definition) : list tok := TWord (def_name d) :: body_toks d.

Definition import_toks (imports : option (list (list cstring * cstring))) : list tok :=
  match imports with
  | None => []
  | Some l => w_ "IMPORTS" :: (l ≫= (fun i => name_toks i.1 ++ [w_ "FROM"; TWord i.2])) ++ [TPunct 59]
  end.
Definition module_toks (m : mib_module) : list tok :=
  TWord (mod_name m) :: w_ "DEFINITIONS" :: equals :: w_ "BEGIN" :: import_toks (mod_imports m)
  ++ def_toks (mod_first m) ++ (mod_rest m ≫= def_toks) ++ [w_ "END"].

(** ** Well-formed modules *)

Definition status_word (w : cstring) : Prop := w ∈ [cstr "current"; cstr "deprecated"; cstr "obsolete"].
(** What can be imported: any word but those that end the list. *)
Definition importable (w : cstring) : bool := bool_decide (word_key w ∉ [SEMICOLON; FROM; EOF]).
Definition imports_ok (i : list cstring * cstring) : Prop := Forall (fun w => importable w = true) i.1 /\ label i.2 = true.
Definition labels (names : list cstring) : Prop := Forall (fun w => label w = true) names.

(** The keys a macro knows. *)
Definition macro_keys (m : macro) : list Z :=
  match m with
  | ModuleIdentity | ModuleCompliance | Capabilities => [DESCRIPTION]
  | ObjectIdentity => [STATUS; DESCRIPTION]
  | NotificationType => [STATUS; OBJECTS; DESCRIPTION]
  end.
Definition group_keys : list Z := [STATUS; DESCRIPTION].
Definition object_keys : list Z := [DESCRIPTION; AUGMENTS; INDEX; DEFVAL].

Definition clause_ok (keys : list Z) (c : clause) : Prop :=
  match c with
  | ClStatus status => STATUS ∈ keys /\ status_word status
  | ClDescription body => DESCRIPTION ∈ keys
  | ClObjects names => OBJECTS ∈ keys /\ labels names
  | ClIndex names => INDEX ∈ keys /\ labels names
  | ClImplied names last => INDEX ∈ keys /\ labels names /\ label last = true
  | ClAugments entry => AUGMENTS ∈ keys /\ label entry = true
  | ClSkip t => tok_key t ∉ keys /\ (tok_key t <> EQUALS) /\ tok_key t <> EOF
  end.

(** [IMPLIED] is used once. *)
Definition is_implied (c : clause) : bool := match c with ClImplied _ _ => true | _ => false end.
Definition clauses_ok (keys : list Z) (clauses : list clause) : Prop :=
  Forall (clause_ok keys) clauses /\ (length (filter (fun c => Is_true (is_implied c)) clauses) <= 1)%nat.

Definition access_words : list (cstring * Z) :=
  [(cstr "read-only", TNM_MIB_READONLY); (cstr "read-write", TNM_MIB_READWRITE); (cstr "read-create", TNM_MIB_READCREATE);
   (cstr "write-only", TNM_MIB_READWRITE); (cstr "accessible-for-notify", TNM_MIB_FORNOTIFY); (cstr "not-accessible", TNM_MIB_NOACCESS)].
Definition status_words : list (cstring * Z) :=
  [(cstr "current", TNM_MIB_CURRENT); (cstr "mandatory", TNM_MIB_CURRENT); (cstr "deprecated", TNM_MIB_DEPRECATED);
   (cstr "obsolete", TNM_MIB_OBSOLETE); (cstr "optional", TNM_MIB_OBSOLETE)].
Definition word_value (words : list (cstring * Z)) (w : cstring) : Z := default 0 (snd ∘ snd <$> list_find (fun e => e.1 = w) words).

(** The base types. *)
Definition base_toks : list tok :=
  [w_ "INTEGER"; w_ "Integer32"; TPair (cstr "OCTET") (cstr "STRING"); TPair (cstr "OBJECT") (cstr "IDENTIFIER"); w_ "BITS"; w_ "NULL"; w_ "IpAddress";
   w_ "NetworkAddress"; w_ "Counter"; w_ "Counter32"; w_ "Gauge"; w_ "Gauge32"; w_ "Unsigned32"; w_ "TimeTicks"; w_ "Opaque"; w_ "Counter64"].

(** The types that are known by a name; a name that is not known is not one of the types
    of SNMP either. *)
Definition known_type (g : mib_globals) (name : cstring) : option nat := table ← gl_hash g; table !! name.
Definition name_ok (g : mib_globals) (name : cstring) : Prop :=
  label name = true /\
  match known_type g name with
  | Some a => exists t, gl_types g !! a = Some t /\ ty_macro t <> TNM_MIB_OBJECTTYPE
  | None => gl_hash g = None \/ (index_of chr_bang name = None /\ TnmGetTableKey tnmSnmpTypeTable name = -1 /\ name <> cstr "BITS")
  end.

Definition type_ok (g : mib_globals) (sy : object_type) : Prop :=
  match sy with SyBase t => t ∈ base_toks | SyTable entry => label entry = true | SyName name => name_ok g name end.

Definition def_ok (g : mib_globals) (d : definition) : Prop :=
  label (def_name d) = true /\
  match d with
  | DefOid _ v => oid_value_ok v
  | DefMacro m _ clauses v => clauses_ok (macro_keys m) clauses /\ oid_value_ok v
  | DefGroup _ _ members clauses v => labels members /\ clauses_ok group_keys clauses /\ oid_value_ok v
  | DefObject _ sy access status clauses v =>
      type_ok g sy /\ access ∈ access_words.*1 /\ status ∈ status_words.*1 /\ clauses_ok object_keys clauses /\ oid_value_ok v
  end.

Definition module_ok (g : mib_globals) (m : mib_module) : Prop :=
  Forall (fun t => tok_ok t = true) (module_toks m) /\
  label (mod_name m) = true /\ (forall l, mod_imports m = Some l -> Forall imports_ok l) /\
  Forall (def_ok g) (mod_first m :: mod_rest m).

(** ** Nodes *)

Section nodes.
Context (Tcl_DStringAppendElement : cstring -> cstring -> cstring).
Notation text_of := (index_text Tcl_DStringAppendElement).

(** A node without its offset and the pointer to the next one. *)
Definition erase (n : TnmMibNode) : TnmMibNode := set_fileOffset 0 (set_nextPtr None n).

(** What a clause does to a node. *)
Definition clause_node (c : clause) (n : TnmMibNode) : TnmMibNode :=
  match c with
  | ClStatus status => set_status (word_value status_words status) n
  | ClObjects names | ClIndex names => set_index (nd_implied n) (nd_augment n) (Some (text_of names)) n
  | ClImplied names last => set_index true (nd_augment n) (Some (text_of (names ++ [last]))) n
  | ClAugments entry => set_index (nd_implied n) true (Some entry) n
  | ClDescription _ | ClSkip _ => n
  end.
Definition clauses_node (clauses : list clause) (n : TnmMibNode) : TnmMibNode := fold_left (fun n c => clause_node c n) clauses n.

(** The description: the last one, or the first one. *)
Definition descriptions (clauses : list clause) : list cstring := clauses ≫= (fun c => match c with ClDescription body => [body] | _ => [] end).
Definition first_only (m : macro) : bool := match m with ModuleIdentity | ModuleCompliance => true | _ => false end.
Definition description_of (first : bool) (clauses : list clause) : option cstring :=
  if first then head (descriptions clauses) else last (descriptions clauses).

(** A node, its type and its description. *)
Record entry := mkEntry { en_node : TnmMibNode; en_type : option nat; en_descr : option cstring }.

(** The labels in front of the last number, each below the one before. *)
Fixpoint path_nodes (module : option cstring) (parent : cstring) (path : list (cstring * Z)) : list TnmMibNode :=
  match path with
  | [] => []
  | (w, n) :: path => set_place (Some parent) n (set_origin 0 module (TnmMibNewNode w)) :: path_nodes module w path
  end.
Definition last_parent (v : oid_value) : cstring := default (ov_parent v) (fst <$> last (ov_path v)).

Definition macro_code (m : macro) : Z :=
  match m with
  | ModuleIdentity => TNM_MIB_MODULEIDENTITY | ModuleCompliance => TNM_MIB_COMPLIANCE | ObjectIdentity => TNM_MIB_OBJECTIDENTITY
  | NotificationType => TNM_MIB_NOTIFICATIONTYPE | Capabilities => TNM_MIB_CAPABILITIES
  end.

(** The syntax of an object and the type it refers to. *)
Definition type_syntax (g : mib_globals) (sy : object_type) : Z * option nat :=
  match sy with
  | SyBase t => (tok_key t, None)
  | SyTable _ => (ASN1_SEQUENCE_OF, None)
  | SyName name =>
      match known_type g name with
      | Some a => (match gl_types g !! a with Some t => ty_syntax t | None => 0 end, Some a)
      | None => (ASN1_SEQUENCE, None)
      end
  end.

(** The node a definition defines, and the nodes of the path to it. *)
Definition main_entry (g : mib_globals) (module : option cstring) (d : definition) : entry :=
  let place v n := set_place (Some (last_parent v)) (ov_number v) n in
  match d with
  | DefOid name v => mkEntry (set_origin TNM_MIB_VALUE_ASSIGNEMENT module (place v (TnmMibNewNode name))) None None
  | DefMacro m name clauses v =>
      mkEntry (set_origin (macro_code m) module (place v (clauses_node clauses (TnmMibNewNode name)))) None (description_of (first_only m) clauses)
  | DefGroup notifications name members clauses v =>
      mkEntry (set_origin (if notifications then TNM_MIB_NOTIFICATIONGROUP else TNM_MIB_OBJECTGROUP) module
                 (place v (clauses_node clauses (set_index false false (Some (text_of members)) (TnmMibNewNode name))))) None (description_of false clauses)
  | DefObject name sy access status clauses v =>
      let '(syntax, type) := type_syntax g sy in
      mkEntry (set_origin TNM_MIB_OBJECTTYPE module
                 (place v (clauses_node clauses (set_status (word_value status_words status) (set_access (word_value access_words access)
                    (set_syntax syntax (TnmMibNewNode name))))))) type (description_of false clauses)
  end.
Definition def_value (d : definition) : oid_value := match d with DefOid _ v | DefMacro _ _ _ v | DefGroup _ _ _ _ v | DefObject _ _ _ _ _ v => v end.
Definition def_entries (g : mib_globals) (module : option cstring) (d : definition) : list entry :=
  main_entry g module d :: map (fun n => mkEntry n None None) (path_nodes module (ov_parent (def_value d)) (ov_path (def_value d))).

(** The nodes of a module, those of the last definition first. *)
Definition module_entries (g : mib_globals) (m : mib_module) : list entry :=
  mjoin (map (def_entries g (Some (mod_name m))) (reverse (mod_first m :: mod_rest m))).
End nodes.
