(* ===== verification/MibModuleRead.v ===== *)
(** The parser reads the clauses of the macros of a module. *)

From stdpp Require Import gmap.
From S2P Require Import Prelude Ber CStr Oid Util Snmp Mib MibTree MibTreeInv MibNames MibLexer MibParser MibMacro MibLex MibLayout MibRead MibModule.
Local Open Scope Z_scope.

(** * Definitions that are read *)

(** ** Descriptions *)

(** The text of a quoted string ends at its quote. *)
Lemma skip_indent_quote rest : forall body indent n out, chr_quote ∉ body ->
  skip_indent (body ++ chr_quote :: rest) indent n out =
    (let '(out, n, r) := skip_indent body indent n out in (out, n, r ++ chr_quote :: rest)) /\
  let '(_, _, r) := skip_indent body indent n out in r `suffix_of` body.
Proof.
  induction body as [|c body IH]; intros indent n out Hq; [split; [reflexivity|apply suffix_nil]|]. apply not_elem_of_cons in Hq as [Hc Hq]. cbn [app skip_indent].
  destruct (bool_decide (c = chr_newline)); [|destruct (negb (isspace c)); [by split|destruct (bool_decide (n + 1 = indent)); [by split|]]].
  - destruct (IH indent 0 (out ++ [chr_newline]) Hq) as [IH1 IH2]. rewrite IH1. destruct (skip_indent body indent 0 (out ++ [chr_newline])) as [[? ?] ?]. split; [done|by apply suffix_cons_r].
  - destruct (IH indent (n + 1) out Hq) as [IH1 IH2]. rewrite IH1. destruct (skip_indent body indent (n + 1) out) as [[? ?] ?]. split; [done|by apply suffix_cons_r].
Qed.

Lemma quoted_text_ok rest : forall fuel body indent out, (length body <= fuel)%nat -> chr_quote ∉ body ->
  exists text, quoted_text fuel body indent out = MibOk text /\ forall fuel', (length body <= fuel')%nat -> quoted_text fuel' (body ++ chr_quote :: rest) indent out = MibOk text.
Proof.
  induction fuel as [|fuel IH]; intros body indent out Hf Hq.
  { destruct body; [|cbn in Hf; lia]. exists out. split; [done|]. intros fuel' _. cbn. by destruct fuel'. }
  destruct body as [|c body]; [exists out; split; [done|]; intros fuel' _; by destruct fuel'|]. cbn in Hf. apply not_elem_of_cons in Hq as [Hc Hq].
  assert (Hcq : bool_decide (c = chr_quote) = false) by (apply bool_decide_eq_false_2; congruence).
  cbn [quoted_text]. rewrite Hcq. destruct (bool_decide (c = chr_newline)) eqn:Hnl.
  - destruct (skip_indent_quote rest body indent 0 (out ++ [c]) Hq) as [Hs Hsuf]. destruct (skip_indent body indent 0 (out ++ [c])) as [[out' n'] r] eqn:E.
    destruct r as [|d r].
    + exists out'. split; [done|]. intros [|fuel'] Hf'; [cbn in Hf'; lia|]. cbn [app quoted_text]. rewrite Hcq, Hnl, Hs. cbn. done.
    + assert (Hdr : chr_quote ∉ d :: r). { intros H. apply Hq. destruct Hsuf as [k ->]. apply elem_of_app. by right. } apply not_elem_of_cons in Hdr as [Hd Hr].
      assert (Hdq : bool_decide (d = chr_quote) = false) by (apply bool_decide_eq_false_2; congruence). pose proof (suffix_length _ _ Hsuf) as Hl. cbn in Hl.
      destruct (IH r (if bool_decide (indent = 0) && bool_decide (n' <> 0) then n' + 1 else indent) (out' ++ [d])) as (text & H1 & H2); [lia|done|]. exists text. cbn. rewrite Hdq. split; [done|].
      intros [|fuel'] Hf'; [cbn in Hf'; lia|]. cbn [app quoted_text]. rewrite Hcq, Hnl, Hs. cbn. rewrite Hdq. apply H2. cbn in Hf'. lia.
  - destruct (IH body indent (out ++ [c])) as (text & H1 & H2); [lia|done|]. exists text. split; [done|].
    intros [|fuel'] Hf'; [cbn in Hf'; lia|]. cbn [app quoted_text]. rewrite Hcq, Hnl. apply H2. cbn in Hf'. lia.
Qed.

Section clauses.
Context (content : cstring) (start : nat).
Notation at_toks := (at_toks content start).

(** The text at an offset of the file. *)
Definition describes (offset : Z) (descr : option cstring) : Prop :=
  match descr with
  | None => offset <= 0
  | Some body => 0 < offset /\ forall fileName, exists text, quoted_text (length body) body 0 [] = MibOk text /\ TnmMibGetString (Some fileName) (Some content) offset = MibOk (Some text)
  end.

Lemma description_offset s body ts : (0 < start <= length content)%nat -> at_toks s (TString body :: ts) -> exists offset, ftell s = MibOk (offset, s) /\ describes offset (Some body).
Proof.
  intros Hstart (text & Hat & Hl & [Hok _]%Forall_cons & Hsuf & Hsize). eexists. split; [done|]. cbn [tok_ok] in Hok. apply bool_decide_eq_true in Hok.
  destruct (quote_next _ _ _ _ Hat Hl) as (rest & Hnext). cbn [lexer_of lx_file] in Hnext.
  assert (Hlen : (length (ps_file s) < length content)%nat). { apply suffix_length in Hsuf. rewrite length_drop in Hsuf. lia. }
  assert (Hoff : drop (Z.to_nat (Z.of_nat (ps_size s) - Z.of_nat (length (ps_file s)))) content = ps_file s).
  { assert (Hs : ps_file s `suffix_of` content) by (etrans; [exact Hsuf|]; exists (take start content); by rewrite take_drop). destruct Hs as [pre Hpre]. rewrite Hsize, Hpre at 1.
    rewrite Hpre, length_app, Nat2Z.inj_add. replace (Z.to_nat (Z.of_nat (length pre) + Z.of_nat (length (ps_file s)) - Z.of_nat (length (ps_file s)))) with (length pre) by lia. apply drop_app_length. }
  split; [lia|]. intros fileName. destruct (quoted_text_ok rest (length body) body 0 [] (Nat.le_refl _) Hok) as (t & H1 & H2). exists t. split; [done|].
  unfold TnmMibGetString. rewrite bool_decide_eq_false_2 by lia. rewrite Hoff, Hnext. cbn [drop]. unfold mbind, mib_bind. rewrite H2; [done|]. cbn. rewrite length_app. lia.
Qed.

(** ** Nodes *)

Definition nodes_of (s : parser) : gmap nat TnmMibNode := mb_nodes (gl_mib (ps_glob s)).

(** Nothing but new nodes and the list of nodes differs. *)
Definition extends (M s : parser) : Prop :=
  with_nodes (fun _ => nodes_of M) (gl_mib (ps_glob s)) = gl_mib (ps_glob M) /\ gl_types (ps_glob s) = gl_types (ps_glob M) /\
  gl_hash (ps_glob s) = gl_hash (ps_glob M) /\ gl_list (ps_glob s) = gl_list (ps_glob M) /\ gl_moduleName (ps_glob s) = gl_moduleName (ps_glob M) /\
  forall a, is_Some (nodes_of M !! a) -> nodes_of s !! a = nodes_of M !! a /\ gl_typePtr (ps_glob s) !! a = gl_typePtr (ps_glob M) !! a.

(** The list at [p] has the addresses [ps] and the nodes [es]. *)
Fixpoint listed (s : parser) (p : option nat) (ps : list nat) (es : list entry) : Prop :=
  match ps, es with
  | a :: ps, e :: es =>
      exists n, p = Some a /\ nodes_of s !! a = Some n /\ erase n = en_node e /\ gl_typePtr (ps_glob s) !! a = en_type e /\
      describes (nd_fileOffset n) (en_descr e) /\ listed s (nd_nextPtr n) ps es
  | [], [] => p = None
  | _, _ => False
  end.

(** There are no other nodes. *)
Definition only (M : parser) (ps : list nat) (s : parser) : Prop := forall a, is_Some (nodes_of s !! a) -> is_Some (nodes_of M !! a) \/ a ∈ ps.

(** The new nodes are those of the list. *)
Definition holds (M : parser) (es : list entry) (s : parser) : Prop :=
  extends M s /\ exists ps, Forall (fun a => nodes_of M !! a = None) ps /\ only M ps s /\ listed s (ps_nodeList s) ps es.

(** The node at [p] is not in the list yet. *)
Definition making (M : parser) (p : nat) (n : TnmMibNode) (ty : option nat) (es : list entry) (s : parser) : Prop :=
  extends M s /\ nodes_of M !! p = None /\ nodes_of s !! p = Some n /\ gl_typePtr (ps_glob s) !! p = ty /\
  exists ps, (p ∉ ps) /\ Forall (fun a => nodes_of M !! a = None) ps /\ only M (p :: ps) s /\ listed s (ps_nodeList s) ps es.

Lemma extends_refl s : extends s s.
Proof. unfold extends. split; [by destruct s as [[[] ? ? ? ? ? ?] ? ? ?]|done]. Qed.

(** The position in the file does not matter. *)
Lemma mem_eq s s' : mem s' = mem s ->
  gl_mib (ps_glob s') = gl_mib (ps_glob s) /\ gl_types (ps_glob s') = gl_types (ps_glob s) /\ gl_hash (ps_glob s') = gl_hash (ps_glob s) /\
  gl_list (ps_glob s') = gl_list (ps_glob s) /\ gl_typePtr (ps_glob s') = gl_typePtr (ps_glob s) /\ gl_moduleName (ps_glob s') = gl_moduleName (ps_glob s) /\
  ps_nodeList s' = ps_nodeList s.
Proof. destruct s as [[] ? ? ?], s' as [[] ? ? ?]. unfold mem. cbn. by intros [= -> -> -> -> -> -> ? ->]. Qed.

Lemma listed_ext s s' : forall ps es p, (forall a, a ∈ ps -> nodes_of s' !! a = nodes_of s !! a /\ gl_typePtr (ps_glob s') !! a = gl_typePtr (ps_glob s) !! a) ->
  listed s p ps es -> listed s' p ps es.
Proof.
  induction ps as [|a ps IH]; intros [|e es] p H; cbn; try done. destruct (H a) as [-> ->]; [by left|]. intros (n & ? & ? & ? & ? & ? & Hl). exists n. repeat (split; [done|]). apply IH; [|done].
  intros b Hb. apply H. by right.
Qed.

Lemma extends_mem M s s' : mem s' = mem s -> extends M s -> extends M s'.
Proof. intros (H1 & H2 & H3 & H4 & H5 & H6 & H7)%mem_eq. unfold extends, nodes_of. by rewrite H1, H2, H3, H4, H5, H6. Qed.
Lemma listed_mem s s' ps es : mem s' = mem s -> listed s (ps_nodeList s) ps es -> listed s' (ps_nodeList s') ps es.
Proof. intros (H1 & H2 & H3 & H4 & H5 & H6 & H7)%mem_eq. rewrite H7. apply listed_ext. intros a _. unfold nodes_of. by rewrite H1, H5. Qed.
Lemma only_mem M ps s s' : mem s' = mem s -> only M ps s -> only M ps s'.
Proof. intros (H1 & _)%mem_eq. unfold only, nodes_of. by rewrite H1. Qed.
Lemma holds_mem M es s s' : mem s' = mem s -> holds M es s -> holds M es s'.
Proof. intros H (He & ps & Hf & Ho & Hl). split; [by eapply extends_mem|]. exists ps. split; [done|]. split; [by eapply only_mem|by eapply listed_mem]. Qed.
Lemma making_mem M p n ty es s s' : mem s' = mem s -> making M p n ty es s -> making M p n ty es s'.
Proof.
  intros H (He & Hn & Hp & Ht & ps & Hps & Hf & Ho & Hl). split; [by eapply extends_mem|]. split; [done|]. pose proof (mem_eq _ _ H) as (H1 & _ & _ & _ & H5 & _).
  split; [unfold nodes_of in *; by rewrite H1|]. split; [by rewrite H5|]. exists ps. split; [done|]. split; [done|]. split; [by eapply only_mem|by eapply listed_mem].
Qed.

(** A change of a node that is new. *)
Lemma extends_set M s f p : nodes_of M !! p = None -> extends M s -> extends M (with_glob (with_mib (with_nodes (alter f p))) s).
Proof.
  intros Hp (H1 & H2 & H3 & H4 & H5 & H6). unfold extends, nodes_of in *. cbn. repeat (split; [done|]). intros a Ha. rewrite lookup_alter_ne by (intros ->; by rewrite Hp in Ha; destruct Ha). by apply H6.
Qed.

(** New memory. *)
Lemma extends_fresh M s q : extends M s -> nodes_of s !! q = None -> nodes_of M !! q = None.
Proof. intros (_ & _ & _ & _ & _ & H) Hq. destruct (nodes_of M !! q) eqn:E; [|done]. destruct (H q) as [H' _]; [by eexists|]. congruence. Qed.
Lemma listed_fresh s q : nodes_of s !! q = None -> forall ps es p, listed s p ps es -> q ∉ ps.
Proof.
  intros Hq. induction ps as [|a ps IH]; intros [|e es] p; cbn; try done; [intros _; by apply not_elem_of_nil|]. intros (n & _ & Ha & _ & _ & _ & Hr).
  apply not_elem_of_cons. split; [intros ->; congruence|by eapply IH].
Qed.
Lemma extends_new M s s' q : extends M s -> nodes_of s !! q = None -> (forall a, a <> q -> nodes_of s' !! a = nodes_of s !! a /\ gl_typePtr (ps_glob s') !! a = gl_typePtr (ps_glob s) !! a) ->
  with_nodes (fun _ => nodes_of M) (gl_mib (ps_glob s')) = with_nodes (fun _ => nodes_of M) (gl_mib (ps_glob s)) -> gl_types (ps_glob s') = gl_types (ps_glob s) ->
  gl_hash (ps_glob s') = gl_hash (ps_glob s) -> gl_list (ps_glob s') = gl_list (ps_glob s) -> gl_moduleName (ps_glob s') = gl_moduleName (ps_glob s) -> extends M s'.
Proof.
  intros He Hq H H1 H2 H3 H4 H5. pose proof (extends_fresh _ _ _ He Hq) as HM. destruct He as (E1 & E2 & E3 & E4 & E5 & E6). unfold extends. rewrite H1, H2, H3, H4, H5. repeat (split; [done|]).
  intros a Ha. destruct (H a) as [-> ->]; [intros ->; rewrite HM in Ha; by destruct Ha|]. by apply E6.
Qed.

(** The nodes that are there. *)
Lemma only_alter M ps s f p : only M ps s -> only M ps (with_glob (with_mib (with_nodes (alter f p))) s).
Proof. intros H a. unfold nodes_of. cbn. rewrite lookup_alter_is_Some. apply H. Qed.
Lemma only_new M ps s s' q : only M ps s -> (forall a, a <> q -> nodes_of s' !! a = nodes_of s !! a) -> only M (q :: ps) s'.
Proof. intros H Hother a Ha. destruct (decide (a = q)) as [->|Hq]; [right; by left|]. rewrite Hother in Ha by done. destruct (H a Ha); [by left|right; by right]. Qed.

Lemma NewNode_making M es name s ts : holds M es s -> at_toks s ts ->
  exists p s', NewNode name s = MibOk (p, s') /\ making M p (TnmMibNewNode name) None es s' /\ at_toks s' ts.
Proof.
  intros (He & ps & Hf & Ho & Hl) Hat. pose proof (is_fresh (dom (nodes_of s))) as Hfresh. apply not_elem_of_dom in Hfresh. eexists _, _. split; [done|]. split; [|exact Hat].
  change (fresh (dom (mb_nodes (gl_mib (ps_glob s))))) with (fresh (dom (nodes_of s))) in *. set (q := fresh _) in *.
  assert (Hother : forall a, a <> q -> nodes_of (with_glob (with_typePtr (delete q) ∘ with_mib (fun _ => with_nodes <[q := TnmMibNewNode name]> (gl_mib (ps_glob s)))) s) !! a = nodes_of s !! a /\ delete q (gl_typePtr (ps_glob s)) !! a = gl_typePtr (ps_glob s) !! a).
  { intros a Ha. unfold nodes_of. cbn. by rewrite lookup_insert_ne, lookup_delete_ne. }
  split; [by eapply extends_new|]. split; [by eapply extends_fresh|]. split; [unfold nodes_of; cbn; by rewrite lookup_insert_eq|]. split; [cbn; by rewrite lookup_delete_eq|].
  pose proof (listed_fresh _ _ Hfresh _ _ _ Hl) as Hq. exists ps. split; [done|]. split; [done|].
  split; [eapply only_new; [exact Ho|]; intros a Ha; by apply Hother|]. eapply listed_ext; [|exact Hl]. intros a Ha. apply Hother. by intros ->.
Qed.

Lemma set_node_making f M p n ty es s ts : making M p n ty es s -> at_toks s ts -> exists s', set_node f p s = MibOk (tt, s') /\ making M p (f n) ty es s' /\ at_toks s' ts.
Proof.
  intros (He & Hp & Hn & Ht & ps & Hps & Hf & Ho & Hl) Hat. eexists. split; [done|]. split; [|exact Hat]. split; [by apply extends_set|]. split; [done|].
  split; [unfold nodes_of in *; cbn; by rewrite lookup_alter_eq, Hn|]. split; [done|]. exists ps. split; [done|]. split; [done|].
  split; [by apply only_alter|]. eapply listed_ext; [|exact Hl]. intros a Ha. unfold nodes_of. cbn. rewrite lookup_alter_ne by (intros ->; done). done.
Qed.

Lemma set_typePtr_making b M p n ty es s ts : making M p n ty es s -> at_toks s ts -> exists s', set_typePtr p b s = MibOk (tt, s') /\ making M p n (Some b) es s' /\ at_toks s' ts.
Proof.
  intros ((H1 & H2 & H3 & H4 & H5 & H6) & Hp & Hn & Ht & ps & Hps & Hf & Ho & Hl) Hat. eexists. split; [done|]. split; [|exact Hat].
  split; [|split; [done|split; [done|split; [by cbn; rewrite lookup_insert_eq|]]]].
  - unfold extends, nodes_of in *. cbn. repeat (split; [done|]). intros a Ha. rewrite lookup_insert_ne by (intros <-; rewrite Hp in Ha; by destruct Ha). by apply H6.
  - exists ps. split; [done|]. split; [done|]. split; [exact Ho|]. eapply listed_ext; [|exact Hl]. intros a Ha. unfold nodes_of. cbn. rewrite lookup_insert_ne by (intros ->; done). done.
Qed.

Lemma node_making M p n ty es s : making M p n ty es s -> node p s = MibOk (n, s).
Proof. intros (_ & _ & Hn & _). unfold node, glob, get, mbind, parse_bind, not_null, lift. unfold nodes_of in Hn. cbn. by rewrite Hn. Qed.

(** The node becomes the first one of the list. *)
Lemma push_making M p n ty descr es s ts : making M p n ty es s -> at_toks s ts -> describes (nd_fileOffset n) descr ->
  exists s', push_node p s = MibOk (tt, s') /\ holds M (mkEntry (erase n) ty descr :: es) s' /\ at_toks s' ts.
Proof.
  intros (He & Hp & Hn & Ht & ps & Hps & Hf & Ho & Hl) Hat Hd. eexists. split; [done|]. split; [|exact Hat]. split; [by apply (extends_set M s)|].
  exists (p :: ps). split; [by constructor|]. split; [by apply (only_alter M (p :: ps) s)|]. cbn [listed]. exists (set_nextPtr (ps_nodeList s) n). split; [done|]. split; [unfold nodes_of in *; cbn; by rewrite lookup_alter_eq, Hn|].
  repeat (split; [done|]). eapply listed_ext; [|exact Hl]. intros a Ha. unfold nodes_of. cbn. rewrite lookup_alter_ne by (intros ->; done). done.
Qed.

(** A label with its number becomes the first node of the list. *)
Definition label_node (module : option cstring) (parent : cstring) (e : cstring * Z) : TnmMibNode := set_place (Some parent) e.2 (set_origin 0 module (TnmMibNewNode e.1)).

Lemma AddNewNode_making M p n ty es e parent s ts : making M p n ty es s -> at_toks s ts -> mib_number e.2 ->
  exists s', AddNewNode e.1 parent e.2 s = MibOk (tt, s') /\ making M p n ty (mkEntry (label_node (gl_moduleName (ps_glob M)) parent e) None None :: es) s' /\ at_toks s' ts.
Proof.
  intros (He & Hp & Hn & Ht & ps & Hps & Hf & Ho & Hl) Hat Hnum. pose proof (is_fresh (dom (nodes_of s))) as Hfresh. apply not_elem_of_dom in Hfresh. eexists. split; [done|]. split; [|exact Hat].
  change (fresh (dom (mb_nodes (gl_mib (ps_glob s))))) with (fresh (dom (nodes_of s))) in *. set (q := fresh _) in *. cbn -[q].
  assert (Hpq : p <> q) by (intros ->; congruence). pose proof (listed_fresh _ _ Hfresh _ _ _ Hl) as Hq. assert (Hmod : gl_moduleName (ps_glob s) = gl_moduleName (ps_glob M)) by apply He.
  match goal with |- making _ _ _ _ _ ?s' => set (s1 := s') end.
  assert (Hother : forall a, a <> q -> nodes_of s1 !! a = nodes_of s !! a /\ gl_typePtr (ps_glob s1) !! a = gl_typePtr (ps_glob s) !! a).
  { intros a Ha. unfold nodes_of, s1. cbn. by rewrite !lookup_alter_ne, lookup_insert_ne, lookup_delete_ne. }
  split; [by eapply extends_new|]. split; [done|]. destruct (Hother p Hpq) as [-> ->]. split; [done|]. split; [done|]. exists (q :: ps). split; [by apply not_elem_of_cons|].
  split; [constructor; [by eapply extends_fresh|done]|]. split.
  { intros a Ha. destruct (only_new M (p :: ps) s s1 q Ho (fun a Ha => proj1 (Hother a Ha)) a Ha); [by left|right; set_solver]. }
  cbn [listed]. eexists. split; [done|]. split; [unfold nodes_of, s1; cbn; by rewrite !lookup_alter_eq, lookup_insert_eq|].
  split; [cbn; unfold erase, label_node; rewrite Hmod; cbn; unfold set_place, set_syntax, set_origin, set_fileOffset, set_nextPtr; cbn; by rewrite u32_id by (unfold mib_number in Hnum; unfold is_u32; lia)|].
  split; [unfold s1; cbn; by rewrite lookup_delete_eq|]. split; [done|]. eapply listed_ext; [|exact Hl]. intros a Ha. apply Hother. by intros ->.
Qed.
End clauses.

(** * The clauses of a macro *)

(** ** The effect of a clause *)

Definition described (first : bool) (d : option cstring) (c : clause) : option cstring :=
  match c with ClDescription body => if first && bool_decide (is_Some d) then d else Some body | _ => d end.

Lemma described_all clauses : forall d, fold_left (described false) clauses d = match last (descriptions clauses) with Some body => Some body | None => d end.
Proof.
  induction clauses as [|c clauses IH]; intros d; [done|]. cbn [fold_left]. rewrite IH. destruct c as [|body| | | | |]; try done.
  change (descriptions (ClDescription body :: clauses)) with (body :: descriptions clauses). rewrite last_cons. by destruct (last (descriptions clauses)).
Qed.
Lemma described_first clauses : forall d, fold_left (described true) clauses d = match d with Some body => Some body | None => head (descriptions clauses) end.
Proof.
  induction clauses as [|c clauses IH]; intros d; [by destruct d|]. cbn [fold_left]. rewrite IH. destruct c; destruct d; done.
Qed.
Lemma described_description first clauses : fold_left (described first) clauses None = description_of first clauses.
Proof. destruct first; [rewrite described_first; done|]. rewrite described_all. unfold description_of. by destruct (last (descriptions clauses)). Qed.

Section clauses.
Context (content : cstring) (start : nat) (Tcl_DStringAppendElement : cstring -> cstring -> cstring).
Notation at_toks := (at_toks content start).
Notation describes := (describes content).
Notation making := (making content).
Notation clause_node := (clause_node Tcl_DStringAppendElement).
Notation clauses_node := (clauses_node Tcl_DStringAppendElement).

Lemma erase_clause c n : erase (clause_node c n) = clause_node c (erase n).
Proof. by destruct c. Qed.

(** Reading keeps the node. *)
Lemma keyword_making s t ts M p n ty es : at_toks s (t :: ts) -> making M p n ty es s ->
  exists s', keyword s = MibOk ((tok_key t, tok_text t), s') /\ at_toks s' ts /\ making M p n ty es s'.
Proof. intros (s' & ? & ? & H)%keyword_tok Hm. exists s'. repeat (split; [done|]). by eapply making_mem. Qed.
Lemma syntax_making s t ts M p n ty es : at_toks s (t :: ts) -> making M p n ty es s ->
  exists s', syntax_of s = MibOk (tok_key t, s') /\ at_toks s' ts /\ making M p n ty es s'.
Proof. intros (s' & ? & ? & H)%syntax_tok Hm. exists s'. repeat (split; [done|]). by eapply making_mem. Qed.
Lemma expect_making s t ts key M p n ty es : at_toks s (t :: ts) -> making M p n ty es s ->
  exists s', expect key s = MibOk (bool_decide (tok_key t = key), s') /\ at_toks s' ts /\ making M p n ty es s'.
Proof. intros H Hm. destruct (expect_tok _ _ _ _ _ key H) as (s' & ? & ? & ?). exists s'. repeat (split; [done|]). by eapply making_mem. Qed.

(** ** Clauses *)

Lemma status_facts : Forall (fun w => is_status (word_key w) = true /\ status_key w = word_value status_words w) [cstr "current"; cstr "deprecated"; cstr "obsolete"].
Proof. repeat (constructor; [vm_compute; by split|]). constructor. Qed.

Lemma status_clause_ok s w ts M p n ty es : status_word w -> at_toks s (TWord w :: ts) -> making M p n ty es s ->
  exists s', status_clause p s = MibOk (true, s') /\ at_toks s' ts /\ making M p (set_status (word_value status_words w) n) ty es s'.
Proof.
  intros Hw Hat Hm. pose proof status_facts as Hf. rewrite Forall_forall in Hf. destruct (Hf w Hw) as [H1 H2].
  destruct (keyword_making _ _ _ _ _ _ _ _ Hat Hm) as (s1 & E1 & Hat1 & Hm1). unfold status_clause. rewrite (bind_ok _ _ _ _ _ E1). cbn [tok_key tok_text]. rewrite H1, H2.
  destruct (set_node_making content start (set_status (word_value status_words w)) _ _ _ _ _ _ _ Hm1 Hat1) as (s2 & E2 & Hm2 & Hat2). rewrite (bind_ok _ _ _ _ _ E2). by exists s2.
Qed.

Lemma description_clause_ok s body ts M p n ty es : (0 < start <= length content)%nat -> at_toks s (TString body :: ts) -> making M p n ty es s ->
  exists s' offset, description_clause p s = MibOk (true, s') /\ at_toks s' ts /\ making M p (set_fileOffset offset n) ty es s' /\ describes offset (Some body).
Proof.
  intros Hstart Hat Hm. destruct (description_offset _ _ _ _ _ Hstart Hat) as (offset & E1 & Hd). unfold description_clause. rewrite (bind_ok _ _ _ _ _ E1).
  destruct (set_node_making content start (set_fileOffset offset) _ _ _ _ _ _ _ Hm Hat) as (s2 & E2 & Hm2 & Hat2). rewrite (bind_ok _ _ _ _ _ E2).
  destruct (expect_making _ _ _ QUOTESTRING _ _ _ _ _ Hat2 Hm2) as (s3 & E3 & Hat3 & Hm3). rewrite E3. by exists s3, offset.
Qed.

Lemma names_clause_ok s names ts M p n ty es : labels names -> at_toks s (braces (name_toks names) ++ ts) -> making M p n ty es s ->
  exists s', names_clause Tcl_DStringAppendElement p s = MibOk (true, s') /\ at_toks s' ts /\
    making M p (set_index (nd_implied n) (nd_augment n) (Some (index_text Tcl_DStringAppendElement names)) n) ty es s'.
Proof.
  intros Hl Hat Hm. destruct (ReadNameList_toks _ _ Tcl_DStringAppendElement _ _ _ Hl Hat) as (s1 & E1 & Hat1 & M1). apply (making_mem _ _ _ _ _ _ _ _ M1) in Hm.
  unfold names_clause. rewrite (bind_ok _ _ _ _ _ E1).
  destruct (set_node_making content start (fun n => set_index (nd_implied n) (nd_augment n) (Some (index_text Tcl_DStringAppendElement names)) n) _ _ _ _ _ _ _ Hm Hat1) as (s2 & E2 & Hm2 & Hat2).
  rewrite (bind_ok _ _ _ _ _ E2). by exists s2.
Qed.

Lemma augments_clause_ok s w ts M p n ty es : label w = true -> at_toks s (braces [TWord w] ++ ts) -> making M p n ty es s ->
  exists s', augments_clause p s = MibOk (true, s') /\ at_toks s' ts /\ making M p (set_index (nd_implied n) true (Some w) n) ty es s'.
Proof.
  intros Hw%label_key Hat Hm. destruct (expect_making _ _ _ LEFTBRACKET _ _ _ _ _ Hat Hm) as (s1 & E1 & Hat1 & Hm1). destruct (keyword_making _ _ _ _ _ _ _ _ Hat1 Hm1) as (s2 & E2 & Hat2 & Hm2).
  destruct (expect_making _ _ _ RIGHTBRACKET _ _ _ _ _ Hat2 Hm2) as (s3 & E3 & Hat3 & Hm3).
  change (bool_decide (tok_key (TPunct 125) = RIGHTBRACKET)) with true in E3.
  unfold augments_clause. rewrite (bind_ok _ _ _ _ _ E1). change (negb (bool_decide (tok_key (TPunct 123) = LEFTBRACKET))) with false. cbn iota. rewrite (bind_ok _ _ _ _ _ E2).
  cbn [tok_key tok_text]. rewrite Hw. change (bool_decide (LABEL <> LABEL)) with false. cbn iota. rewrite (bind_ok _ _ _ _ _ E3).
  destruct (set_node_making content start (fun n => set_index (nd_implied n) (true || nd_augment n) (Some w) n) _ _ _ _ _ _ _ Hm3 Hat3) as (s4 & E4 & Hm4 & Hat4).
  rewrite (bind_ok _ _ _ _ _ E4). by exists s4.
Qed.

(** [INDEX] *)
Lemma read_index_comma p dst s ts : at_toks s (TPunct 44 :: ts) -> exists s', read_index Tcl_DStringAppendElement p dst s = MibOk (inl dst, s') /\ at_toks s' ts /\ mem s' = mem s.
Proof. intros (s' & E & ? & ?)%keyword_tok. exists s'. unfold read_index. by rewrite (bind_ok _ _ _ _ _ E). Qed.
Lemma read_index_label p name dst s ts : word_key name = LABEL -> at_toks s (TWord name :: ts) ->
  exists s', read_index Tcl_DStringAppendElement p dst s = MibOk (inl (Tcl_DStringAppendElement dst name), s') /\ at_toks s' ts /\ mem s' = mem s.
Proof. intros H (s' & E & ? & ?)%keyword_tok. exists s'. unfold read_index. rewrite (bind_ok _ _ _ _ _ E). cbn [tok_key]. by rewrite H. Qed.
Lemma read_index_end p dst s ts : at_toks s (TPunct 125 :: ts) -> exists s', read_index Tcl_DStringAppendElement p dst s = MibOk (inr (Some dst), s') /\ at_toks s' ts /\ mem s' = mem s.
Proof. intros (s' & E & ? & ?)%keyword_tok. exists s'. unfold read_index. by rewrite (bind_ok _ _ _ _ _ E). Qed.

Lemma index_clause_ok s names ts M p n ty es : labels names -> at_toks s (braces (name_toks names) ++ ts) -> making M p n ty es s ->
  exists s', index_clause Tcl_DStringAppendElement p s = MibOk (true, s') /\ at_toks s' ts /\
    making M p (set_index (nd_implied n) (nd_augment n) (Some (index_text Tcl_DStringAppendElement names)) n) ty es s'.
Proof.
  intros Hl Hat Hm. unfold braces in Hat. cbn [app] in Hat. rewrite <- app_assoc in Hat. destruct (expect_making _ _ _ LEFTBRACKET _ _ _ _ _ Hat Hm) as (s1 & E1 & Hat1 & Hm1).
  destruct (names_rounds content start (read_index Tcl_DStringAppendElement p) Tcl_DStringAppendElement ([TPunct 125] ++ ts) (fun _ _ _ => read_index_comma p _ _ _) (fun _ _ _ _ => read_index_label p _ _ _ _) names [] s1 Hl Hat1) as (s2 & E2 & Hat2 & M2).
  destruct (read_index_end p (fold_left Tcl_DStringAppendElement names []) _ _ Hat2) as (s3 & E3 & Hat3 & M3). rewrite M2 in M3. apply (making_mem _ _ _ _ _ _ _ _ M3) in Hm1.
  unfold index_clause. rewrite (bind_ok _ _ _ _ _ E1). change (negb (bool_decide (tok_key (TPunct 123) = LEFTBRACKET))) with false. cbn iota.
  erewrite bind_ok. 2: { refine (while_rounds content start _ _ _ _ _ _ _ _ Hat1 _ E2 _); [rewrite length_app; lia|]. intros fuel. by apply loop_exit. }
  destruct (set_node_making content start (fun n => set_index (nd_implied n) (nd_augment n) (Some (index_text Tcl_DStringAppendElement names)) n) _ _ _ _ _ _ _ Hm1 Hat3) as (s4 & E4 & Hm4 & Hat4).
  rewrite (bind_ok _ _ _ _ _ E4). by exists s4.
Qed.

Lemma listed_rounds p : forall names dst s ts, labels names -> at_toks s ((names ≫= (fun n => [TWord n; TPunct 44])) ++ ts) ->
  exists s', rounds (read_index Tcl_DStringAppendElement p) (length (names ≫= (fun n => [TWord n; TPunct 44]))) dst s (fold_left Tcl_DStringAppendElement names dst) s' /\ at_toks s' ts /\ mem s' = mem s.
Proof.
  induction names as [|name names IH]; intros dst s ts Hl Hat; [by exists s|]. apply Forall_cons in Hl as [Hn%label_key Hl].
  destruct (read_index_label p name dst s _ Hn Hat) as (s1 & E1 & Hat1 & M1). destruct (read_index_comma p (Tcl_DStringAppendElement dst name) s1 _ Hat1) as (s2 & E2 & Hat2 & M2).
  destruct (IH (Tcl_DStringAppendElement dst name) s2 ts Hl Hat2) as (s3 & E3 & Hat3 & M3). exists s3. split; [|split; [done|congruence]].
  refine (rounds_trans _ 1 _ _ _ _ _ _ _ (rounds_one _ _ _ _ _ E1) (rounds_trans _ 1 _ _ _ _ _ _ _ (rounds_one _ _ _ _ _ E2) E3)).
Qed.

Lemma implied_clause_ok s names w ts M p n ty es : labels names -> label w = true -> nd_implied n = false ->
  at_toks s (braces ((names ≫= (fun n => [TWord n; TPunct 44])) ++ [w_ "IMPLIED"; TWord w]) ++ ts) -> making M p n ty es s ->
  exists s', index_clause Tcl_DStringAppendElement p s = MibOk (true, s') /\ at_toks s' ts /\
    making M p (set_index true (nd_augment n) (Some (index_text Tcl_DStringAppendElement (names ++ [w]))) n) ty es s'.
Proof.
  intros Hl Hw%label_key Hi Hat Hm. unfold braces in Hat. cbn [app] in Hat. rewrite <- !app_assoc in Hat. cbn [app] in Hat.
  destruct (expect_making _ _ _ LEFTBRACKET _ _ _ _ _ Hat Hm) as (s1 & E1 & Hat1 & Hm1). destruct (listed_rounds p names [] s1 _ Hl Hat1) as (s2 & E2 & Hat2 & M2). apply (making_mem _ _ _ _ _ _ _ _ M2) in Hm1.
  destruct (keyword_making _ _ _ _ _ _ _ _ Hat2 Hm1) as (s3 & E3 & Hat3 & Hm3).
  destruct (set_node_making content start (fun n => set_index true (nd_augment n) (nd_index n) n) _ _ _ _ _ _ _ Hm3 Hat3) as (s4 & E4 & Hm4 & Hat4).
  assert (R : read_index Tcl_DStringAppendElement p (fold_left Tcl_DStringAppendElement names []) s2 = MibOk (inl (fold_left Tcl_DStringAppendElement names []), s4)).
  { unfold read_index. rewrite (bind_ok _ _ _ _ _ E3). change (tok_key (w_ "IMPLIED")) with IMPLIED. change (bool_decide (IMPLIED = RIGHTBRACKET)) with false. change (bool_decide (IMPLIED = COMMA)) with false. change (bool_decide (IMPLIED = IMPLIED)) with true. cbn iota.
    rewrite (bind_ok _ _ _ _ _ (node_making _ _ _ _ _ _ _ Hm3)), Hi. by rewrite (bind_ok _ _ _ _ _ E4). }
  destruct (read_index_label p w (fold_left Tcl_DStringAppendElement names []) s4 _ Hw Hat4) as (s5 & E5 & Hat5 & M5). apply (making_mem _ _ _ _ _ _ _ _ M5) in Hm4.
  destruct (read_index_end p (Tcl_DStringAppendElement (fold_left Tcl_DStringAppendElement names []) w) _ _ Hat5) as (s6 & E6 & Hat6 & M6). apply (making_mem _ _ _ _ _ _ _ _ M6) in Hm4.
  unfold index_clause. rewrite (bind_ok _ _ _ _ _ E1). change (negb (bool_decide (tok_key (TPunct 123) = LEFTBRACKET))) with false. cbn iota.
  erewrite bind_ok. 2: { refine (while_rounds content start _ _ _ _ _ _ _ _ Hat1 _ (rounds_trans _ _ (1 + 1) _ _ _ _ _ _ E2 (rounds_trans _ _ _ _ _ _ _ _ _ (rounds_one _ _ _ _ _ R) (rounds_one _ _ _ _ _ E5))) _); [rewrite length_app; cbn; lia|].
    intros fuel. by apply loop_exit. }
  unfold index_text. rewrite fold_left_app. cbn [fold_left].
  destruct (set_node_making content start (fun n => set_index (nd_implied n) (nd_augment n) (Some (Tcl_DStringAppendElement (fold_left Tcl_DStringAppendElement names []) w)) n) _ _ _ _ _ _ _ Hm4 Hat6) as (s7 & E7 & Hm7 & Hat7).
  rewrite (bind_ok _ _ _ _ _ E7). by exists s7.
Qed.

(** The clauses a macro knows. *)
Definition knows (clauses : Z -> option (parse bool)) (p : nat) (first : bool) (keys : list Z) : Prop :=
  (forall key, key ∉ keys -> clauses key = None) /\
  (STATUS ∈ keys -> clauses STATUS = Some (status_clause p)) /\
  (OBJECTS ∈ keys -> clauses OBJECTS = Some (names_clause Tcl_DStringAppendElement p)) /\
  (DESCRIPTION ∈ keys -> clauses DESCRIPTION = Some (if first then first_description p else description_clause p)) /\
  (AUGMENTS ∈ keys -> clauses AUGMENTS = Some (augments_clause p)) /\
  (INDEX ∈ keys -> clauses INDEX = Some (index_clause Tcl_DStringAppendElement p)) /\
  (QUOTESTRING ∉ keys).

Lemma clause_round_known clauses clause s t ts s1 s2 key : syntax_of s = MibOk (key, s1) -> key <> EQUALS -> clauses key = Some clause -> clause s1 = MibOk (true, s2) ->
  at_toks s (t :: ts) -> clause_round clauses tt s = MibOk (inl tt, s2).
Proof. intros E1 Hne Hc E2 _. unfold clause_round. rewrite (bind_ok _ _ _ _ _ E1), bool_decide_eq_false_2 by done. rewrite Hc. by rewrite (bind_ok _ _ _ _ _ E2). Qed.

Lemma clause_rounds clauses p first keys c s n ts d M ty es : (0 < start <= length content)%nat -> knows clauses p first keys -> clause_ok keys c ->
  at_toks s (clause_toks c ++ ts) -> making M p n ty es s -> (is_implied c = true -> nd_implied n = false) -> describes (nd_fileOffset n) d ->
  exists k s' n', (k <= length (clause_toks c))%nat /\ rounds (clause_round clauses) k tt s tt s' /\ at_toks s' ts /\ making M p n' ty es s' /\
    erase n' = clause_node c (erase n) /\ describes (nd_fileOffset n') (described first d c).
Proof.
  intros Hstart (Kn & Ks & Ko & Kd & Ka & Ki & Kq) Hok Hat Hm Hi Hd.
  assert (H0 : exists t ts0, clause_toks c = t :: ts0) by (destruct c; by eexists _, _). destruct H0 as (t & ts0 & Ht). rewrite Ht in *. cbn [app] in Hat.
  destruct (syntax_making _ _ _ _ _ _ _ _ Hat Hm) as (s1 & E1 & Hat1 & Hm1).
  destruct c as [status|body|names|names|names w|entry|t']; cbn [clause_toks braces] in Ht; injection Ht as <- <-.
  - destruct Hok as [Hk Hw]. destruct (status_clause_ok _ _ _ _ _ _ _ _ Hw Hat1 Hm1) as (s2 & E2 & Hat2 & Hm2). exists 1%nat, s2. eexists. split; [cbn; lia|].
    split; [|by repeat (split; [done|])]. apply rounds_one. by eapply clause_round_known; [exact E1|done|exact (Ks Hk)|exact E2|exact Hat].
  - cbn in Hok. specialize (Kd Hok). destruct first; [|].
    + destruct (decide (is_Some d)) as [Hs|Hs].
      * destruct (syntax_making _ _ _ _ _ _ _ _ Hat1 Hm1) as (s2 & E2 & Hat2 & Hm2). exists 2%nat, s2, n. split; [cbn; lia|]. split.
        { eapply (rounds_trans _ 1 1); apply rounds_one.
          - eapply clause_round_known; [exact E1|done|exact Kd| |exact Hat]. unfold first_description. rewrite (bind_ok _ _ _ _ _ (node_making _ _ _ _ _ _ _ Hm1)).
            rewrite bool_decide_eq_false_2; [done|]. destruct Hs as [b ->]. destruct Hd as [Hd _]. lia.
          - unfold clause_round. rewrite (bind_ok _ _ _ _ _ E2). cbn [tok_key]. change (bool_decide (QUOTESTRING = EQUALS)) with false. cbn iota. by rewrite (Kn _ Kq). }
        repeat (split; [done|]). cbn [described]. by rewrite bool_decide_eq_true_2.
      * destruct (description_clause_ok _ _ _ _ _ _ _ _ Hstart Hat1 Hm1) as (s2 & offset & E2 & Hat2 & Hm2 & Ho). exists 1%nat, s2. eexists. split; [cbn; lia|]. split; [|split; [done|split; [exact Hm2|split; [done|]]]].
        { apply rounds_one. eapply clause_round_known; [exact E1|done|exact Kd| |exact Hat]. unfold first_description. rewrite (bind_ok _ _ _ _ _ (node_making _ _ _ _ _ _ _ Hm1)).
          rewrite bool_decide_eq_true_2; [done|]. destruct d; [|done]. destruct Hs. by eexists. }
        cbn [described]. rewrite bool_decide_eq_false_2 by done. exact Ho.
    + destruct (description_clause_ok _ _ _ _ _ _ _ _ Hstart Hat1 Hm1) as (s2 & offset & E2 & Hat2 & Hm2 & Ho). exists 1%nat, s2. eexists. split; [cbn; lia|]. split; [|split; [done|split; [exact Hm2|split; [done|exact Ho]]]].
      apply rounds_one. eapply clause_round_known; [exact E1|done|exact Kd|exact E2|exact Hat].
  - destruct Hok as [Hk Hw]. destruct (names_clause_ok _ _ _ _ _ _ _ _ Hw Hat1 Hm1) as (s2 & E2 & Hat2 & Hm2). exists 1%nat, s2. eexists. split; [cbn; lia|].
    split; [|by repeat (split; [done|])]. apply rounds_one. by eapply clause_round_known; [exact E1|done|exact (Ko Hk)|exact E2|exact Hat].
  - destruct Hok as [Hk Hw]. destruct (index_clause_ok _ _ _ _ _ _ _ _ Hw Hat1 Hm1) as (s2 & E2 & Hat2 & Hm2). exists 1%nat, s2. eexists. split; [cbn; lia|].
    split; [|by repeat (split; [done|])]. apply rounds_one. by eapply clause_round_known; [exact E1|done|exact (Ki Hk)|exact E2|exact Hat].
  - destruct Hok as (Hk & Hw & Hl). destruct (implied_clause_ok _ _ _ _ _ _ _ _ _ Hw Hl (Hi eq_refl) Hat1 Hm1) as (s2 & E2 & Hat2 & Hm2). exists 1%nat, s2. eexists. split; [cbn; lia|].
    split; [|by repeat (split; [done|])]. apply rounds_one. by eapply clause_round_known; [exact E1|done|exact (Ki Hk)|exact E2|exact Hat].
  - destruct Hok as [Hk Hl]. destruct (augments_clause_ok _ _ _ _ _ _ _ _ Hl Hat1 Hm1) as (s2 & E2 & Hat2 & Hm2). exists 1%nat, s2. eexists. split; [cbn; lia|].
    split; [|by repeat (split; [done|])]. apply rounds_one. by eapply clause_round_known; [exact E1|done|exact (Ka Hk)|exact E2|exact Hat].
  - destruct Hok as (Hk & Hne & Heof). exists 1%nat, s1, n. split; [cbn; lia|]. split; [|by repeat (split; [done|])]. apply rounds_one.
    unfold clause_round. rewrite (bind_ok _ _ _ _ _ E1), !bool_decide_eq_false_2 by done. by rewrite (Kn _ Hk).
Qed.

(** All clauses of a macro. *)
Lemma all_clause_rounds clauses p first keys : (0 < start <= length content)%nat -> knows clauses p first keys ->
  forall cs s n ts d M ty es, Forall (clause_ok keys) cs -> (length (filter (fun c => Is_true (is_implied c)) cs) + (if nd_implied n then 1 else 0) <= 1)%nat ->
  at_toks s ((cs ≫= clause_toks) ++ ts) -> making M p n ty es s -> describes (nd_fileOffset n) d ->
  exists k s' n', (k <= length (cs ≫= clause_toks))%nat /\ rounds (clause_round clauses) k tt s tt s' /\ at_toks s' ts /\ making M p n' ty es s' /\
    erase n' = clauses_node cs (erase n) /\ describes (nd_fileOffset n') (fold_left (described first) cs d).
Proof.
  intros Hstart HK. induction cs as [|c cs IH]; intros s n ts d M ty es Hok Himp Hat Hm Hd; [by exists O, s, n|]. apply Forall_cons in Hok as [Hc Hok].
  change ((c :: cs) ≫= clause_toks) with (clause_toks c ++ (cs ≫= clause_toks)) in *. rewrite <- app_assoc in Hat.
  destruct (clause_rounds _ _ _ _ c _ n _ d _ _ _ Hstart HK Hc Hat Hm) as (k1 & s1 & n1 & Hk1 & R1 & Hat1 & Hm1 & En1 & Hd1); [|done|].
  { intros Hic. rewrite filter_cons_True in Himp by by rewrite Hic. cbn in Himp. destruct (nd_implied n); [lia|done]. }
  assert (Himp1 : (length (filter (fun c => Is_true (is_implied c)) cs) + (if nd_implied n1 then 1 else 0) <= 1)%nat).
  { assert (En : nd_implied n1 = nd_implied (clause_node c (erase n))) by (by rewrite <- En1).
    rewrite filter_cons in Himp. destruct c; cbn in En; rewrite En; case_decide as Hcd; cbn in Hcd, Himp |- *; try done; lia. }
  destruct (IH s1 n1 ts _ M ty es Hok Himp1 Hat1 Hm1 Hd1) as (k2 & s2 & n2 & Hk2 & R2 & Hat2 & Hm2 & En2 & Hd2). exists (k1 + k2)%nat, s2, n2. split; [rewrite length_app; lia|].
  split; [by eapply rounds_trans|]. repeat (split; [done|]). split; [|done]. rewrite En2, En1. done.
Qed.

Lemma read_clauses_ok clauses p first keys cs s n ts d M ty es : (0 < start <= length content)%nat -> knows clauses p first keys -> clauses_ok keys cs ->
  nd_implied n = false -> at_toks s ((cs ≫= clause_toks) ++ equals :: ts) -> making M p n ty es s -> describes (nd_fileOffset n) d ->
  exists s' n', read_clauses clauses s = MibOk (true, s') /\ at_toks s' ts /\ making M p n' ty es s' /\
    erase n' = clauses_node cs (erase n) /\ describes (nd_fileOffset n') (fold_left (described first) cs d).
Proof.
  intros Hstart HK [Hok Himp] Hni Hat Hm Hd.
  assert (Himp' : (length (filter (fun c => Is_true (is_implied c)) cs) + (if nd_implied n then 1 else 0) <= 1)%nat) by (rewrite Hni; lia).
  destruct (all_clause_rounds _ _ _ _ Hstart HK cs s n (equals :: ts) d _ _ _ Hok Himp' Hat Hm Hd) as (k & s1 & n1 & Hk & R & Hat1 & Hm1 & En1 & Hd1).
  destruct (syntax_making _ _ _ _ _ _ _ _ Hat1 Hm1) as (s2 & E2 & Hat2 & Hm2). exists s2, n1. split; [|by repeat (split; [done|])].
  unfold read_clauses. refine (while_rounds content start _ _ _ _ _ _ _ _ Hat _ R _); [rewrite length_app; lia|]. intros fuel. apply loop_exit. unfold clause_round. by rewrite (bind_ok _ _ _ _ _ E2).
Qed.
End clauses.
