(* ===== verification/MibModuleFile.v ===== *)
(** The parser reads the definitions of a module, and a file that holds a module. *)

From stdpp Require Import gmap.
From S2P Require Import Prelude Ber CStr Oid Util Snmp Mib MibTree MibNames MibLexer MibParser MibMacro MibLex MibLayout MibRead MibModule MibModuleRead.
Local Open Scope Z_scope.

(** * The definitions of a module *)

(** ** Object identifiers *)

Definition plain_entry (n : TnmMibNode) : entry := mkEntry n None None.

Lemma path_nodes_snoc module e : forall path parent,
  path_nodes module parent (path ++ [e]) = path_nodes module parent path ++ [label_node module (default parent (fst <$> last path)) e].
Proof.
  induction path as [|[w n] path IH]; intros parent; [by destruct e|]. cbn [app path_nodes]. rewrite IH. cbn [app]. f_equal. f_equal. f_equal. f_equal. rewrite last_cons. by destruct (last path).
Qed.
Lemma path_subids_snoc e path parent l : path_subids parent (path ++ [e]) l = (e.1, mkSubid (path_subids parent path l).1 (Some e.1) e.2 :: (path_subids parent path l).2).
Proof. unfold path_subids. by rewrite fold_left_app. Qed.
Lemma path_subids_name path parent l : (path_subids parent path l).1 = default parent (fst <$> last path).
Proof. destruct path as [|e path] using rev_ind; [done|]. by rewrite path_subids_snoc, last_snoc. Qed.

(** ** The clauses of the macros *)

Section knows.
Context (Tcl_DStringAppendElement : cstring -> cstring -> cstring).
Notation knows := (knows Tcl_DStringAppendElement).

Ltac solve_knows :=
  unfold MibModuleRead.knows, object_keys; split; [intros key H; rewrite ?not_elem_of_cons in H; rewrite !bool_decide_eq_false_2 by tauto; reflexivity|];
  repeat split; try (intros H; first [reflexivity | exfalso; repeat (apply elem_of_cons in H as [H|H]; [discriminate H|]); by apply elem_of_nil in H]).

Lemma knows_first p : knows (fun syntax => if bool_decide (syntax = DESCRIPTION) then Some (first_description p) else None) p true [DESCRIPTION].
Proof. solve_knows. Qed.
Lemma knows_description p : knows (fun syntax => if bool_decide (syntax = DESCRIPTION) then Some (description_clause p) else None) p false [DESCRIPTION].
Proof. solve_knows. Qed.
Lemma knows_status p :
  knows (fun syntax => if bool_decide (syntax = STATUS) then Some (status_clause p) else if bool_decide (syntax = DESCRIPTION) then Some (description_clause p) else None) p false [STATUS; DESCRIPTION].
Proof. solve_knows. Qed.
Lemma knows_objects p :
  knows (fun syntax => if bool_decide (syntax = STATUS) then Some (status_clause p) else if bool_decide (syntax = OBJECTS) then Some (names_clause Tcl_DStringAppendElement p)
                       else if bool_decide (syntax = DESCRIPTION) then Some (description_clause p) else None) p false [STATUS; OBJECTS; DESCRIPTION].
Proof. solve_knows. Qed.
Lemma knows_object_type p :
  knows (fun syntax => if bool_decide (syntax = DESCRIPTION) then Some (description_clause p) else if bool_decide (syntax = AUGMENTS) then Some (augments_clause p)
                       else if bool_decide (syntax = INDEX) then Some (index_clause Tcl_DStringAppendElement p) else if bool_decide (syntax = DEFVAL) then Some (defval_clause p) else None)
    p false object_keys.
Proof. solve_knows. Qed.
End knows.

Section defs.
Context (content : cstring) (start : nat).
Notation at_toks := (at_toks content start).
Notation describes := (describes content).
Notation making := (making content).
Notation holds := (holds content).

Lemma add_path M p ty ts parent : forall path n es s, making M p n ty es s -> at_toks s ts -> Forall (fun e => label e.1 = true /\ mib_number e.2) path ->
  exists s', add_subids p (path_subids parent path [mkSubid parent None (-1)]).2 s = MibOk (tt, s') /\
    making M p n ty (map plain_entry (path_nodes (gl_moduleName (ps_glob M)) parent path) ++ es) s' /\ at_toks s' ts.
Proof.
  induction path as [|e path IH] using rev_ind; intros n es s Hm Hat Hok; [by exists s|]. apply Forall_app in Hok as [Hok [[_ He] _]%Forall_cons].
  rewrite path_subids_snoc, path_nodes_snoc, map_app. cbn [snd add_subids]. rewrite bool_decide_eq_false_2 by (cbn; unfold mib_number in He; lia). cbn [sub_label sub_parentName sub_subid].
  rewrite path_subids_name. destruct (AddNewNode_making _ _ _ _ _ _ _ e (default parent (fst <$> last path)) _ _ Hm Hat He) as (s1 & E1 & Hm1 & Hat1). rewrite (bind_ok _ _ _ _ _ E1).
  destruct (IH _ _ _ Hm1 Hat1 Hok) as (s2 & E2 & Hm2 & Hat2). exists s2. rewrite <- app_assoc. by repeat (split; [done|]).
Qed.

(** The entries of the labels in front of the last number. *)
Definition value_entries (M : parser) (v : oid_value) : list entry := map plain_entry (path_nodes (gl_moduleName (ps_glob M)) (ov_parent v) (ov_path v)).
Definition place (v : oid_value) (n : TnmMibNode) : TnmMibNode := set_place (Some (last_parent v)) (ov_number v) n.

Lemma ParseNodeList_ok M p n ty es v s ts : making M p n ty es s -> at_toks s (oid_toks v ++ ts) -> oid_value_ok v ->
  exists s', ParseNodeList p s = MibOk (true, s') /\ making M p (place v n) ty (value_entries M v ++ es) s' /\ at_toks s' ts.
Proof.
  intros Hm Hat Hok. destruct (ReadSubID_toks _ _ v s ts Hok Hat) as (s1 & E1 & Hat1 & M1). apply (making_mem _ _ _ _ _ _ _ _ M1) in Hm. unfold ParseNodeList. rewrite (bind_ok _ _ _ _ _ E1).
  destruct Hok as (_ & Hpath & Hnum). assert (Hu : u32 (ov_number v) = ov_number v) by (apply u32_id; unfold mib_number in Hnum; unfold is_u32; lia).
  destruct (set_node_making content start (place v) _ _ _ _ _ _ _ Hm Hat1) as (s2 & E2 & Hm2 & Hat2).
  assert (Hadd : exists s', add_subids p (subids_of v) s1 = MibOk (tt, s') /\ making M p (place v n) ty (value_entries M v ++ es) s' /\ at_toks s' ts).
  { destruct v as [parent path num]. unfold subids_of, value_entries, place, last_parent in *. cbn [ov_path ov_parent ov_number] in *. destruct path as [|e path].
    - exists s2. split; [|by split]. cbn [add_subids]. rewrite bool_decide_eq_false_2 by (cbn; unfold mib_number in Hnum; lia). cbn [sub_label sub_parentName sub_subid]. rewrite Hu. by rewrite (bind_ok _ _ _ _ _ E2).
    - destruct (add_path M p ty ts parent (e :: path) _ _ _ Hm2 Hat2 Hpath) as (s3 & E3 & Hm3 & Hat3). exists s3. split; [|by split].
      pose proof (path_subids_name (e :: path) parent [mkSubid parent None (-1)]) as Hname. destruct (path_subids parent (e :: path) [mkSubid parent None (-1)]) as [name l]. cbn [fst snd] in *. subst name.
      cbn [add_subids]. rewrite bool_decide_eq_false_2 by (cbn; unfold mib_number in Hnum; lia). cbn [sub_label sub_parentName sub_subid]. rewrite Hu. by rewrite (bind_ok _ _ _ _ _ E2). }
  destruct Hadd as (s3 & E3 & Hm3 & Hat3). exists s3. split; [|by split]. rewrite bool_decide_eq_false_2.
  - by rewrite (bind_ok _ _ _ _ _ E3).
  - unfold subids_of. destruct (ov_path v) as [|e path]; [done|]. by destruct (path_subids (ov_parent v) (e :: path) [mkSubid (ov_parent v) None (-1)]).
Qed.

(** The end of a macro. *)
Lemma node_list_end_ok M p n ty es v s ts : making M p n ty es s -> at_toks s (oid_toks v ++ ts) -> oid_value_ok v ->
  exists s', node_list_end true p s = MibOk (Some p, s') /\ making M p (place v n) ty (value_entries M v ++ es) s' /\ at_toks s' ts.
Proof. intros Hm Hat Hok. destruct (ParseNodeList_ok _ _ _ _ _ _ _ _ Hm Hat Hok) as (s1 & E1 & ? & ?). exists s1. split; [|by split]. unfold node_list_end. by rewrite (bind_ok _ _ _ _ _ E1). Qed.

(** ** The syntax of objects *)

Lemma skip_to_ok stop pre t s ts : at_toks s (pre ++ t :: ts) -> Forall (fun t => tok_key t <> stop /\ tok_key t <> EOF) pre -> tok_key t = stop ->
  exists s', skip_to stop s = MibOk ((true, tok_text t), s') /\ at_toks s' ts /\ mem s' = mem s.
Proof.
  intros Hat Hpre Ht.
  assert (HR : exists s', rounds (skip_round stop) (length pre) tt s tt s' /\ at_toks s' (t :: ts) /\ mem s' = mem s).
  { clear Ht. revert s Hat. induction Hpre as [|t0 pre [H1 H2] _ IH]; intros s Hat; [by exists s|]. destruct (keyword_tok _ _ _ _ _ Hat) as (s1 & E1 & Hat1 & M1). destruct (IH s1 Hat1) as (s2 & R2 & Hat2 & M2).
    exists s2. split; [|split; [done|congruence]]. refine (rounds_trans _ 1 _ _ _ _ _ _ _ (rounds_one _ _ _ _ _ _) R2). unfold skip_round. rewrite (bind_ok _ _ _ _ _ E1), !bool_decide_eq_false_2 by done. done. }
  destruct HR as (s1 & R1 & Hat1 & M1). destruct (keyword_tok _ _ _ _ _ Hat1) as (s2 & E2 & Hat2 & M2). exists s2. split; [|split; [done|congruence]].
  unfold skip_to. refine (while_rounds content start _ _ _ _ _ _ _ _ Hat _ R1 _); [rewrite length_app; lia|]. intros fuel. apply loop_exit. unfold skip_round. rewrite (bind_ok _ _ _ _ _ E2), bool_decide_eq_true_2 by done. done.
Qed.
Lemma skip_to_making stop pre t s ts M p n ty es : at_toks s (pre ++ t :: ts) -> Forall (fun t => tok_key t <> stop /\ tok_key t <> EOF) pre -> tok_key t = stop -> making M p n ty es s ->
  exists s', skip_to stop s = MibOk ((true, tok_text t), s') /\ at_toks s' ts /\ making M p n ty es s'.
Proof. intros H1 H2 H3 Hm. destruct (skip_to_ok _ _ _ _ _ H1 H2 H3) as (s' & ? & ? & Hmem). exists s'. repeat (split; [done|]). by eapply making_mem. Qed.

Definition access_tok : tok := w_ "MAX-ACCESS".

Lemma FindType_ok M s name : extends M s -> name_ok (ps_glob M) name -> FindType name s = MibOk (known_type (ps_glob M) name, s).
Proof.
  intros (_ & _ & Hh & _) [_ Hk]. unfold FindType, glob, get, known_type in *. unfold mbind at 1, parse_bind. cbn [compose]. change ((gl_hash ∘ ps_glob) s) with (gl_hash (ps_glob s)). rewrite Hh.
  destruct (gl_hash (ps_glob M)) as [table|]; [|done]. cbn [mbind option_bind] in Hk |- *. destruct (table !! name) as [a|]; [done|]. destruct Hk as [Hk|(H1 & H2 & H3)]; [done|]. rewrite H1. cbn [mbind option_bind].
  rewrite H2. change (bool_decide (-1 <> -1)) with false. cbn iota. by rewrite bool_decide_eq_false_2.
Qed.

Lemma base_facts : Forall (fun t => (tok_key t <> LABEL) /\ (tok_key t <> ASN1_SEQUENCE) /\ tok_key t <> ACCESS) base_toks.
Proof. repeat (constructor; [vm_compute; by split_and!|]). constructor. Qed.

Lemma object_syntax_ok M p name es sy s ts : type_ok (ps_glob M) sy -> at_toks s (type_toks sy ++ access_tok :: ts) -> making M p (set_fileOffset (-1) (TnmMibNewNode name)) None es s ->
  exists s1 s' syntax text, keyword s = MibOk ((syntax, text), s1) /\ syntax <> ACCESS /\
    (_ ← set_node (set_syntax syntax) p; object_syntax p syntax text) s1 = MibOk (true, s') /\ at_toks s' ts /\
    making M p (set_syntax (type_syntax (ps_glob M) sy).1 (set_fileOffset (-1) (TnmMibNewNode name))) (type_syntax (ps_glob M) sy).2 es s'.
Proof.
  intros Hok Hat Hm. assert (Hhead : exists t ts0, type_toks sy = t :: ts0) by (destruct sy; by eexists _, _). destruct Hhead as (t & ts0 & Ht). rewrite Ht in Hat. cbn [app] in Hat.
  destruct (keyword_making _ _ _ _ _ _ _ _ _ _ Hat Hm) as (s1 & E1 & Hat1 & Hm1). exists s1.
  destruct (set_node_making content start (set_syntax (tok_key t)) _ _ _ _ _ _ _ Hm1 Hat1) as (s2 & E2 & Hm2 & Hat2).
  destruct sy as [t'|entry|tname]; cbn [type_toks type_ok] in Ht, Hok; injection Ht as <- <-; cbn [app] in Hat2.
  - pose proof base_facts as Hf. rewrite Forall_forall in Hf. destruct (Hf _ Hok) as (F1 & F2 & F3).
    assert (HS : exists s', object_syntax p (tok_key t') (tok_text t') s2 = MibOk (true, s') /\ at_toks s' ts /\ making M p (set_syntax (tok_key t') (set_fileOffset (-1) (TnmMibNewNode name))) None es s').
    { unfold object_syntax. rewrite (bool_decide_eq_false_2 _ F1). destruct (bool_decide (tok_key t' = ASN1_INTEGER) || bool_decide (tok_key t' = ASN1_OCTET_STRING)).
      - destruct (syntax_making _ _ _ _ _ _ _ _ _ _ Hat2 Hm2) as (s3 & E3 & Hat3 & Hm3). exists s3. split; [|by split]. unfold read_restrictions.
        unfold mbind at 1, parse_bind at 1. rewrite (bind_ok _ _ _ _ _ E3). done.
      - rewrite (bool_decide_eq_false_2 _ F2). destruct (skip_to_making ACCESS [] access_tok _ _ _ _ _ _ _ Hat2 ltac:(constructor) eq_refl Hm2) as (s3 & E3 & Hat3 & Hm3). exists s3. split; [|by split]. by rewrite (bind_ok _ _ _ _ _ E3). }
    destruct HS as (s3 & E3 & Hat3 & Hm3). exists s3, (tok_key t'), (tok_text t'). split; [done|]. split; [done|]. rewrite (bind_ok _ _ _ _ _ E2). by repeat (split; [done|]).
  - destruct (syntax_making _ _ _ _ _ _ _ _ _ _ Hat2 Hm2) as (s3 & E3 & Hat3 & Hm3). destruct (set_node_making content start (set_syntax ASN1_SEQUENCE_OF) _ _ _ _ _ _ _ Hm3 Hat3) as (s4 & E4 & Hm4 & Hat4).
    assert (Hpre : Forall (fun t => tok_key t <> ACCESS /\ tok_key t <> EOF) [TWord entry]) by (constructor; [cbn; by rewrite (label_key _ Hok)|constructor]).
    destruct (skip_to_making ACCESS [TWord entry] access_tok _ _ _ _ _ _ _ Hat4 Hpre eq_refl Hm4) as (s5 & E5 & Hat5 & Hm5).
    exists s5, ASN1_SEQUENCE, (cstr "SEQUENCE"). split; [exact E1|]. split; [done|]. change (tok_key (w_ "SEQUENCE")) with ASN1_SEQUENCE in E2. rewrite (bind_ok _ _ _ _ _ E2). split; [|by split].
    unfold object_syntax. change (bool_decide (ASN1_SEQUENCE = LABEL)) with false. change (bool_decide (ASN1_SEQUENCE = ASN1_INTEGER) || bool_decide (ASN1_SEQUENCE = ASN1_OCTET_STRING)) with false. change (bool_decide (ASN1_SEQUENCE = ASN1_SEQUENCE)) with true. cbn iota.
    rewrite (bind_ok _ _ _ _ _ E3). change (tok_key (w_ "OF")) with ASN1_SEQUENCE_OF. change (bool_decide (ASN1_SEQUENCE_OF = ASN1_SEQUENCE_OF)) with true. cbn iota. rewrite (bind_ok _ _ _ _ _ E4).
    change (bool_decide (ASN1_SEQUENCE_OF = ACCESS)) with false. cbn iota. by rewrite (bind_ok _ _ _ _ _ E5).
  - pose proof Hok as [Hlab Hkn]. apply label_key in Hlab. assert (HF : FindType tname s2 = MibOk (known_type (ps_glob M) tname, s2)) by (apply FindType_ok; [apply Hm2|done]).
    cbn [tok_key] in E1, E2. rewrite Hlab in E1, E2.
    assert (HS : exists s3, (known ← FindType tname; match known with
        | Some a => _ ← set_typePtr p a; t ← type a; set_node (set_syntax (ty_syntax t)) p | None => set_node (set_syntax ASN1_SEQUENCE) p end) s2 = MibOk (tt, s3) /\ at_toks s3 (access_tok :: ts) /\
        making M p (set_syntax (type_syntax (ps_glob M) (SyName tname)).1 (set_fileOffset (-1) (TnmMibNewNode name))) (type_syntax (ps_glob M) (SyName tname)).2 es s3).
    { rewrite (bind_ok _ _ _ _ _ HF). cbn [type_syntax]. destruct (known_type (ps_glob M) tname) as [a|].
      - destruct Hkn as (t & Ht & _). destruct (set_typePtr_making content start a _ _ _ _ _ _ _ Hm2 Hat2) as (s3 & E3 & Hm3 & Hat3). rewrite (bind_ok _ _ _ _ _ E3).
        assert (HT : type a s3 = MibOk (t, s3)). { unfold type, glob, get, mbind, parse_bind, not_null, lift. cbn. destruct Hm3 as ((_ & -> & _) & _). by rewrite Ht. }
        rewrite (bind_ok _ _ _ _ _ HT), Ht. destruct (set_node_making content start (set_syntax (ty_syntax t)) _ _ _ _ _ _ _ Hm3 Hat3) as (s4 & E4 & Hm4 & Hat4). by exists s4.
      - destruct (set_node_making content start (set_syntax ASN1_SEQUENCE) _ _ _ _ _ _ _ Hm2 Hat2) as (s4 & E4 & Hm4 & Hat4). by exists s4. }
    destruct HS as (s3 & E3 & Hat3 & Hm3). destruct (skip_to_making ACCESS [] access_tok _ _ _ _ _ _ _ Hat3 ltac:(constructor) eq_refl Hm3) as (s4 & E4 & Hat4 & Hm4). exists s4, LABEL, tname. split; [exact E1|].
    split; [done|]. rewrite (bind_ok _ _ _ _ _ E2). split; [|by split]. unfold object_syntax. change (bool_decide (LABEL = LABEL)) with true. cbn iota.
    rewrite (bind_ok _ _ _ _ _ HF) in E3. rewrite (bind_ok _ _ _ _ _ HF). rewrite (bind_ok _ _ _ _ _ E3). by rewrite (bind_ok _ _ _ _ _ E4).
Qed.

Lemma access_facts : Forall (fun w => bool_decide (READONLY <= word_key w <= NOACCESS) = true /\ access_of (word_key w) = word_value access_words w) access_words.*1.
Proof. repeat (constructor; [vm_compute; by split|]). constructor. Qed.
Lemma object_status_facts : Forall (fun w => bool_decide (MANDATORY <= word_key w <= DEPRECATED) = true /\
  status_key (if bool_decide (word_key w = MANDATORY) then cstr "current" else if bool_decide (word_key w = OPTIONAL) then cstr "obsolete" else w) = word_value status_words w) status_words.*1.
Proof. repeat (constructor; [vm_compute; by split|]). constructor. Qed.

Lemma access_clause_ok s w ts M p n ty es : w ∈ access_words.*1 -> at_toks s (TWord w :: ts) -> making M p n ty es s ->
  exists s', access_clause p s = MibOk (true, s') /\ at_toks s' ts /\ making M p (set_access (word_value access_words w) n) ty es s'.
Proof.
  intros Hw Hat Hm. pose proof access_facts as Hf. rewrite Forall_forall in Hf. destruct (Hf w Hw) as [H1 H2].
  destruct (syntax_making _ _ _ _ _ _ _ _ _ _ Hat Hm) as (s1 & E1 & Hat1 & Hm1). unfold access_clause. rewrite (bind_ok _ _ _ _ _ E1). cbn [tok_key]. rewrite H1, H2.
  destruct (set_node_making content start (set_access (word_value access_words w)) _ _ _ _ _ _ _ Hm1 Hat1) as (s2 & E2 & Hm2 & Hat2). rewrite (bind_ok _ _ _ _ _ E2). by exists s2.
Qed.

(** The type of the object is not one of its own. *)
Definition other_type (M : parser) (ty : option nat) : Prop := forall a, ty = Some a -> exists t, gl_types (ps_glob M) !! a = Some t /\ ty_macro t <> TNM_MIB_OBJECTTYPE.

Lemma object_status_ok s w ts M p n ty es : w ∈ status_words.*1 -> other_type M ty -> at_toks s (w_ "STATUS" :: TWord w :: ts) -> making M p n ty es s ->
  exists s', object_status p s = MibOk (true, s') /\ at_toks s' ts /\ making M p (set_status (word_value status_words w) n) ty es s'.
Proof.
  intros Hw Hty Hat Hm. pose proof object_status_facts as Hf. rewrite Forall_forall in Hf. destruct (Hf w Hw) as [H1 H2].
  destruct (expect_making _ _ _ _ _ STATUS _ _ _ _ _ Hat Hm) as (s1 & E1 & Hat1 & Hm1). destruct (keyword_making _ _ _ _ _ _ _ _ _ _ Hat1 Hm1) as (s2 & E2 & Hat2 & Hm2).
  destruct (set_node_making content start (set_status (word_value status_words w)) _ _ _ _ _ _ _ Hm2 Hat2) as (s3 & E3 & Hm3 & Hat3). exists s3. split; [|by split].
  unfold object_status. rewrite (bind_ok _ _ _ _ _ E1). change (negb (bool_decide (tok_key (w_ "STATUS") = STATUS))) with false. cbn iota. rewrite (bind_ok _ _ _ _ _ E2). cbn [tok_key tok_text]. cbv zeta. rewrite H1, H2.
  rewrite (bind_ok _ _ _ _ _ E3). pose proof Hm3 as (Hext & _ & _ & Hp & _). unfold glob, get. unfold mbind at 1, parse_bind at 1. cbn [compose]. change (((fun g : mib_globals => gl_typePtr g !! p) ∘ ps_glob) s3) with (gl_typePtr (ps_glob s3) !! p). rewrite Hp.
  destruct ty as [a|]; [|done]. destruct (Hty a eq_refl) as (t & Ht & Hmac).
  assert (HT : type a s3 = MibOk (t, s3)). { unfold type, glob, get, mbind, parse_bind, not_null, lift. cbn. destruct Hext as (_ & -> & _). by rewrite Ht. }
  rewrite (bind_ok _ _ _ _ _ HT). by rewrite bool_decide_eq_false_2.
Qed.

(** ** Macros *)

Context (Tcl_DStringAppendElement : cstring -> cstring -> cstring).
Hypothesis Hstart : (0 < start <= length content)%nat.
#[local] Set Default Proof Using "Type*".
Notation clauses_node := (clauses_node Tcl_DStringAppendElement).
Notation knows := (knows Tcl_DStringAppendElement).
Notation text_of := (index_text Tcl_DStringAppendElement).

(** A macro that reads [toks] and makes a node. *)
Definition reads (M : parser) (parse_macro : cstring -> parse (option nat)) (name : cstring) (toks : list tok) (n : TnmMibNode) (ty : option nat) (descr : option cstring) (v : oid_value) : Prop :=
  forall s es ts, holds M es s -> at_toks s (toks ++ ts) ->
  exists p s' n', parse_macro name s = MibOk (Some p, s') /\ making M p n' ty (value_entries M v ++ es) s' /\ at_toks s' ts /\ erase n' = place v n /\ describes (nd_fileOffset n') descr.

(** The clauses and the value. *)
Lemma clauses_value_ok clauses p first keys cs v M n ty es s ts : knows clauses p first keys -> clauses_ok keys cs -> oid_value_ok v -> nd_implied n = false -> nd_fileOffset n <= 0 ->
  making M p n ty es s -> at_toks s ((cs ≫= clause_toks) ++ equals :: oid_toks v ++ ts) ->
  exists s' n', (fine ← read_clauses clauses; node_list_end fine p) s = MibOk (Some p, s') /\ making M p n' ty (value_entries M v ++ es) s' /\ at_toks s' ts /\
    erase n' = place v (clauses_node cs (erase n)) /\ describes (nd_fileOffset n') (description_of first cs).
Proof.
  intros HK Hok Hv Hi Ho Hm Hat. destruct (read_clauses_ok content start Tcl_DStringAppendElement _ _ _ _ cs s n _ None _ _ _ Hstart HK Hok Hi Hat Hm Ho) as (s1 & n1 & E1 & Hat1 & Hm1 & En & Hd).
  rewrite described_description in Hd. rewrite (bind_ok _ _ _ _ _ E1). destruct (node_list_end_ok _ _ _ _ _ _ _ _ Hm1 Hat1 Hv) as (s2 & E2 & Hm2 & Hat2). exists s2, (place v n1). rewrite <- En. by repeat (split; [done|]).
Qed.

Definition parse_macro_of (m : macro) : cstring -> parse (option nat) :=
  match m with
  | ModuleIdentity => ParseModuleIdentity | ModuleCompliance => ParseModuleCompliance | ObjectIdentity => ParseObjectIdentity
  | NotificationType => ParseNotificationType Tcl_DStringAppendElement | Capabilities => ParseCapabilitiesType
  end.

Lemma macro_reads m M name cs v : clauses_ok (macro_keys m) cs -> oid_value_ok v ->
  reads M (parse_macro_of m) name ((cs ≫= clause_toks) ++ equals :: oid_toks v) (clauses_node cs (TnmMibNewNode name)) None (description_of (first_only m) cs) v.
Proof.
  intros Hok Hv s es ts Hh Hat. destruct (NewNode_making _ _ _ _ name _ _ Hh Hat) as (p & s1 & E1 & Hm1 & Hat1). rewrite <- app_assoc in Hat1.
  assert (HK : exists clauses, knows clauses p (first_only m) (macro_keys m) /\ parse_macro_of m name s = (fine ← read_clauses clauses; node_list_end fine p) s1).
  { destruct m; eexists; (split; [|exact (bind_ok _ _ _ _ _ E1)]); [apply knows_first|apply knows_first|apply knows_status|apply knows_objects|apply knows_description]. }
  destruct HK as (clauses & HK & ->). destruct (clauses_value_ok clauses p _ _ cs v M (TnmMibNewNode name) None es s1 ts HK Hok Hv eq_refl (Z.le_refl 0) Hm1 Hat1) as (s2 & n2 & H2). by exists p, s2, n2.
Qed.

Lemma group_reads M names key name members cs v : word_key (cstr names) = key -> labels members -> clauses_ok group_keys cs -> oid_value_ok v ->
  reads M (parse_group Tcl_DStringAppendElement key) name (w_ names :: braces (name_toks members) ++ (cs ≫= clause_toks) ++ equals :: oid_toks v)
    (clauses_node cs (set_index false false (Some (text_of members)) (TnmMibNewNode name))) None (description_of false cs) v.
Proof.
  intros Hkey Hl Hok Hv s es ts Hh Hat. cbn [app] in Hat. rewrite <- app_assoc in Hat. destruct (expect_tok _ _ _ _ _ key Hat) as (s1 & E1 & Hat1 & M1). apply (holds_mem _ _ _ _ _ M1) in Hh.
  change (tok_key (w_ names)) with (word_key (cstr names)) in E1. rewrite bool_decide_eq_true_2 in E1 by done. unfold parse_group. rewrite (bind_ok _ _ _ _ _ E1). cbn [negb].
  destruct (NewNode_making _ _ _ _ name _ _ Hh Hat1) as (p & s2 & E2 & Hm2 & Hat2). rewrite (bind_ok _ _ _ _ _ E2).
  destruct (names_clause_ok _ _ Tcl_DStringAppendElement _ _ _ _ _ _ _ _ Hl Hat2 Hm2) as (s3 & E3 & Hat3 & Hm3). rewrite (bind_ok _ _ _ _ _ E3). cbn [negb]. rewrite <- app_assoc in Hat3.
  destruct (clauses_value_ok _ p false _ cs v M (set_index false false (Some (text_of members)) (TnmMibNewNode name)) None es s3 ts (knows_status Tcl_DStringAppendElement p) Hok Hv eq_refl (Z.le_refl 0) Hm3 Hat3) as (s4 & n4 & H4). by exists p, s4, n4.
Qed.

Lemma object_id_reads M name v : oid_value_ok v -> reads M ParseObjectID name (equals :: oid_toks v) (TnmMibNewNode name) None None v.
Proof.
  intros Hv s es ts Hh Hat. destruct (expect_tok _ _ _ _ _ EQUALS Hat) as (s1 & E1 & Hat1 & M1). apply (holds_mem _ _ _ _ _ M1) in Hh. unfold ParseObjectID. rewrite (bind_ok _ _ _ _ _ E1).
  change (negb (bool_decide (tok_key equals = EQUALS))) with false. cbn iota. destruct (NewNode_making _ _ _ _ name _ _ Hh Hat1) as (p & s2 & E2 & Hm2 & Hat2). rewrite (bind_ok _ _ _ _ _ E2).
  destruct (set_node_making content start (set_syntax ASN1_OTHER) _ _ _ _ _ _ _ Hm2 Hat2) as (s3 & E3 & Hm3 & Hat3). rewrite (bind_ok _ _ _ _ _ E3).
  destruct (node_list_end_ok _ _ _ _ _ _ _ _ Hm3 Hat3 Hv) as (s4 & E4 & Hm4 & Hat4). exists p, s4. eexists. repeat (split; [done|]). done.
Qed.


Lemma object_reads M name sy access status cs v : type_ok (ps_glob M) sy -> access ∈ access_words.*1 -> status ∈ status_words.*1 -> clauses_ok object_keys cs -> oid_value_ok v ->
  reads M (ParseObjectType Tcl_DStringAppendElement) name
    (w_ "SYNTAX" :: type_toks sy ++ [access_tok; TWord access; w_ "STATUS"; TWord status] ++ (cs ≫= clause_toks) ++ equals :: oid_toks v)
    (clauses_node cs (set_status (word_value status_words status) (set_access (word_value access_words access) (set_syntax (type_syntax (ps_glob M) sy).1 (TnmMibNewNode name)))))
    (type_syntax (ps_glob M) sy).2 (description_of false cs) v.
Proof.
  intros Hsy Hacc Hst Hok Hv s es ts Hh Hat. cbn [app] in Hat. rewrite <- app_assoc in Hat. cbn [app] in Hat. rewrite <- app_assoc in Hat. cbn [app] in Hat.
  destruct (expect_tok _ _ _ _ _ SYNTAX Hat) as (s1 & E1 & Hat1 & M1). apply (holds_mem _ _ _ _ _ M1) in Hh. unfold ParseObjectType. rewrite (bind_ok _ _ _ _ _ E1).
  change (negb (bool_decide (tok_key (w_ "SYNTAX") = SYNTAX))) with false. cbn iota. destruct (NewNode_making _ _ _ _ name _ _ Hh Hat1) as (p & s2 & E2 & Hm2 & Hat2). rewrite (bind_ok _ _ _ _ _ E2).
  destruct (set_node_making content start (set_fileOffset (-1)) _ _ _ _ _ _ _ Hm2 Hat2) as (s3 & E3 & Hm3 & Hat3). rewrite (bind_ok _ _ _ _ _ E3).
  destruct (object_syntax_ok _ _ _ _ _ _ _ Hsy Hat3 Hm3) as (s4 & s5 & syntax & text & E4 & Hne & E5 & Hat5 & Hm5). rewrite (bind_ok _ _ _ _ _ E4). rewrite (bool_decide_eq_false_2 _ Hne).
  assert (E5' : exists s4', set_node (set_syntax syntax) p s4 = MibOk (tt, s4') /\ object_syntax p syntax text s4' = MibOk (true, s5)).
  { eexists. split; [done|]. exact E5. }
  destruct E5' as (s4' & E4' & E5'). rewrite (bind_ok _ _ _ _ _ E4'), (bind_ok _ _ _ _ _ E5'). cbn [negb].
  destruct (access_clause_ok _ _ _ _ _ _ _ _ Hacc Hat5 Hm5) as (s6 & E6 & Hat6 & Hm6). rewrite (bind_ok _ _ _ _ _ E6). cbn [negb].
  assert (Hty : other_type M (type_syntax (ps_glob M) sy).2).
  { intros a. destruct sy as [t|entry|tname]; cbn; try done. cbn in Hsy. destruct Hsy as [_ Hsy]. destruct (known_type (ps_glob M) tname) as [b|]; [|done]. by intros [= <-]. }
  destruct (object_status_ok _ _ _ _ _ _ _ _ Hst Hty Hat6 Hm6) as (s7 & E7 & Hat7 & Hm7). rewrite (bind_ok _ _ _ _ _ E7). cbn [negb].
  destruct (clauses_value_ok _ p false object_keys cs v M (set_status (word_value status_words status) (set_access (word_value access_words access) (set_syntax (type_syntax (ps_glob M) sy).1 (set_fileOffset (-1) (TnmMibNewNode name)))))
    _ es s7 ts (knows_object_type Tcl_DStringAppendElement p) Hok Hv eq_refl ltac:(by cbn) Hm7 Hat7) as (s8 & n8 & H8). by exists p, s8, n8.
Qed.
End defs.

(** * A module *)

(** ** The header *)

Section header.
Context (content : cstring) (start : nat).
Notation at_toks := (at_toks content start).

Lemma import_skip t s ts : at_toks s (t :: ts) -> tok_key t ∉ [SEMICOLON; FROM; EOF] -> exists s', rounds import_round 1 tt s tt s' /\ at_toks s' ts /\ mem s' = mem s.
Proof.
  intros Hat Ht. rewrite !not_elem_of_cons in Ht. destruct Ht as (H1 & H2 & H3 & _). destruct (syntax_tok _ _ _ _ _ Hat) as (s1 & E1 & Hat1 & M1). exists s1. split; [|done]. apply rounds_one.
  unfold import_round. by rewrite (bind_ok _ _ _ _ _ E1), !bool_decide_eq_false_2.
Qed.

Lemma skip_names : forall names s ts, Forall (fun w => importable w = true) names -> at_toks s (name_toks names ++ ts) ->
  exists s', rounds import_round (length (name_toks names)) tt s tt s' /\ at_toks s' ts /\ mem s' = mem s.
Proof.
  induction names as [|name names IH]; intros s ts Hl Hat; [by exists s|]. apply Forall_cons in Hl as [Hn%bool_decide_eq_true Hl]. destruct names as [|name2 names].
  - by apply (import_skip (TWord name) s ts Hat).
  - change (name_toks (name :: name2 :: names)) with (TWord name :: TPunct 44 :: name_toks (name2 :: names)) in *. cbn [app] in Hat.
    destruct (import_skip _ _ _ Hat Hn) as (s1 & R1 & Hat1 & M1). assert (Hcomma : tok_key (TPunct 44) ∉ [SEMICOLON; FROM; EOF]) by (by apply (bool_decide_unpack _); vm_compute).
    destruct (import_skip _ _ _ Hat1 Hcomma) as (s2 & R2 & Hat2 & M2). destruct (IH s2 ts Hl Hat2) as (s3 & R3 & Hat3 & M3).
    exists s3. split; [|split; [done|congruence]]. exact (rounds_trans _ 1 _ _ _ _ _ _ _ R1 (rounds_trans _ 1 _ _ _ _ _ _ _ R2 R3)).
Qed.

Definition item_toks (i : list cstring * cstring) : list tok := name_toks i.1 ++ [w_ "FROM"; TWord i.2].

Lemma import_rounds ts : forall l s, Forall imports_ok l -> at_toks s ((l ≫= item_toks) ++ ts) ->
  exists k s', (k <= length (l ≫= item_toks))%nat /\ rounds import_round k tt s tt s' /\ at_toks s' ts /\ mem s' = mem s.
Proof.
  induction l as [|[names module] l IH]; intros s Hok Hat; [by exists O, s|]. apply Forall_cons in Hok as [[Hn Hm%label_key] Hok]. cbn [fst snd] in Hn, Hm.
  change (((names, module) :: l) ≫= item_toks) with ((name_toks names ++ [w_ "FROM"; TWord module]) ++ (l ≫= item_toks)) in *. rewrite <- !app_assoc in Hat. cbn [app] in Hat.
  destruct (skip_names names s _ Hn Hat) as (s1 & R1 & Hat1 & M1). destruct (syntax_tok _ _ _ _ _ Hat1) as (s2 & E2 & Hat2 & M2). destruct (syntax_tok _ _ _ _ _ Hat2) as (s3 & E3 & Hat3 & M3).
  assert (R3 : import_round tt s1 = MibOk (inl tt, s3)).
  { unfold import_round. rewrite (bind_ok _ _ _ _ _ E2). change (tok_key (w_ "FROM")) with FROM. change (bool_decide (FROM = SEMICOLON)) with false. change (bool_decide (FROM = FROM)) with true. cbn iota.
    rewrite (bind_ok _ _ _ _ _ E3). cbn [tok_key]. by rewrite Hm. }
  destruct (IH s3 Hok Hat3) as (k & s4 & Hk & R4 & Hat4 & M4). exists (length (name_toks names) + (1 + k))%nat, s4. split; [rewrite !length_app; cbn; lia|]. split; [|split; [done|congruence]].
  refine (rounds_trans _ _ _ _ _ _ _ _ _ R1 (rounds_trans _ 1 _ _ _ _ _ _ _ (rounds_one _ _ _ _ _ R3) R4)).
Qed.

Lemma ParseHeader_ok name imports first s ts : label first = true -> (forall l, imports = Some l -> Forall imports_ok l) ->
  at_toks s (equals :: w_ "BEGIN" :: import_toks imports ++ TWord first :: ts) ->
  exists s', ParseHeader name s = MibOk ((LABEL, first), s') /\ at_toks s' ts /\ mem s' = with_glob (with_module (Some name)) (mem s).
Proof.
  intros Hf%label_key Hok Hat. unfold ParseHeader, change_glob, change. unfold mbind at 1, parse_bind at 1.
  pose proof (at_toks_glob content start s _ (with_module (Some name)) eq_refl Hat) as Hat0. set (s0 := with_glob _ s) in *.
  destruct (keyword_tok _ _ _ _ _ Hat0) as (s1 & E1 & Hat1 & M1). destruct (keyword_tok _ _ _ _ _ Hat1) as (s2 & E2 & Hat2 & M2).
  rewrite (bind_ok _ _ _ _ _ E1). change (bool_decide (tok_key equals <> EQUALS)) with false. cbn iota. rewrite (bind_ok _ _ _ _ _ E2). change (bool_decide (tok_key (w_ "BEGIN") <> BEGIN)) with false. cbn iota.
  assert (M : mem s2 = with_glob (with_module (Some name)) (mem s)) by (rewrite M2, M1; done). clear - Hf Hok Hat2 M.
  destruct imports as [l|]; cbn [import_toks app] in Hat2.
  - destruct (keyword_tok _ _ _ _ _ Hat2) as (s3 & E3 & Hat3 & M3). rewrite <- app_assoc in Hat3. destruct (import_rounds _ l s3 (Hok l eq_refl) Hat3) as (k & s4 & Hk & R4 & Hat4 & M4).
    cbn [app] in Hat4. destruct (syntax_tok _ _ _ _ _ Hat4) as (s5 & E5 & Hat5 & M5). destruct (keyword_tok _ _ _ _ _ Hat5) as (s6 & E6 & Hat6 & M6). exists s6. split; [|split; [done|congruence]].
    rewrite (bind_ok _ _ _ _ _ E3). change (tok_key (w_ "IMPORTS")) with IMPORTS. change (bool_decide (IMPORTS = EXPORTS)) with false. cbn iota. unfold header_imports. change (bool_decide (IMPORTS = IMPORTS)) with true. cbn iota.
    erewrite bind_ok. 2: { refine (while_rounds content start _ _ _ _ _ _ _ _ Hat3 _ R4 _); [rewrite length_app; unfold item_toks in Hk; lia|]. intros fuel. apply loop_exit. unfold import_round. by rewrite (bind_ok _ _ _ _ _ E5). }
    cbn iota. rewrite E6. cbn [tok_key tok_text]. by rewrite Hf.
  - destruct (keyword_tok _ _ _ _ _ Hat2) as (s3 & E3 & Hat3 & M3). exists s3. split; [|split; [done|congruence]]. rewrite (bind_ok _ _ _ _ _ E3). cbn [tok_key tok_text]. rewrite Hf. done.
Qed.
End header.

Section file.
Context (content : cstring) (start : nat) (Tcl_DStringAppendElement : cstring -> cstring -> cstring).
Hypothesis Hstart : (0 < start <= length content)%nat.
#[local] Set Default Proof Using "Type*".
Notation at_toks := (at_toks content start).
Notation holds := (holds content).
Notation reads := (reads content start).
Notation main_entry := (main_entry Tcl_DStringAppendElement).
Notation def_entries := (def_entries Tcl_DStringAppendElement).
Notation parse_round := (parse_round Tcl_DStringAppendElement).

(** ** Definitions *)

Lemma macro_of_key t key : tok_key t = key -> macro_of Tcl_DStringAppendElement (tok_key t) = macro_of Tcl_DStringAppendElement key.
Proof. by intros ->. Qed.

Lemma def_reads M d : def_ok (ps_glob M) d ->
  exists t toks macro parse_macro n ty descr, body_toks d = t :: toks /\ macro_of Tcl_DStringAppendElement (tok_key t) = Some (macro, parse_macro) /\
    Forall (fun key => tok_key t <> key) [EOF; END; EQUALS; LABEL; LEFTPAREN; LEFTBRACKET] /\ reads M parse_macro (def_name d) toks n ty descr (def_value d) /\
    main_entry (ps_glob M) (gl_moduleName (ps_glob M)) d = mkEntry (set_origin macro (gl_moduleName (ps_glob M)) (place (def_value d) n)) ty descr.
Proof.
  intros [_ Hok]. destruct d as [name v|m name cs v|b name members cs v|name sy access status cs v]; cbn [body_toks def_name def_value].
  - exists (TPair (cstr "OBJECT") (cstr "IDENTIFIER")). eexists _, TNM_MIB_VALUE_ASSIGNEMENT, ParseObjectID, _, _, _. split; [done|]. split; [by rewrite (macro_of_key _ ASN1_OBJECT_IDENTIFIER) by (by vm_compute)|]. split; [by apply (bool_decide_eq_true_1 _); vm_compute|]. split; [by apply object_id_reads|done].
  - destruct Hok as [Hcs Hv]. exists (macro_tok m). eexists _, (macro_code m), (parse_macro_of Tcl_DStringAppendElement m), _, _, _. split; [done|]. split; [|split; [by apply (bool_decide_eq_true_1 _); destruct m; vm_compute|]].
    { destruct m; [rewrite (macro_of_key _ MODULEIDENTITY)|rewrite (macro_of_key _ MODULECOMP)|rewrite (macro_of_key _ OBJECTIDENTITY)|rewrite (macro_of_key _ NOTIFYTYPE)|rewrite (macro_of_key _ CAPABILITIES)]; [reflexivity|by vm_compute|reflexivity|by vm_compute|reflexivity|by vm_compute|reflexivity|by vm_compute|reflexivity|by vm_compute]. } 
    split; [by apply macro_reads|done].
  - destruct Hok as (Hl & Hcs & Hv). exists (w_ (if b then "NOTIFICATION-GROUP" else "OBJECT-GROUP")).
    eexists _, (if b then TNM_MIB_NOTIFICATIONGROUP else TNM_MIB_OBJECTGROUP), (parse_group Tcl_DStringAppendElement (if b then NOTIFICATIONS else OBJECTS)), _, _, _. split; [done|].
    split; [by destruct b; [rewrite (macro_of_key _ NOTIFYGROUP) by (by vm_compute)|rewrite (macro_of_key _ OBJGROUP) by (by vm_compute)]|]. split; [by apply (bool_decide_eq_true_1 _); destruct b; vm_compute|]. split; [|done]. by destruct b; apply group_reads.
  - destruct Hok as (Hsy & Ha & Hs & Hcs & Hv). exists (w_ "OBJECT-TYPE"). eexists _, TNM_MIB_OBJECTTYPE, (ParseObjectType Tcl_DStringAppendElement), _, _, _. split; [done|]. split; [by rewrite (macro_of_key _ OBJTYPE) by (by vm_compute)|]. split; [by apply (bool_decide_eq_true_1 _); vm_compute|].
    split; [by apply object_reads|]. cbn [main_entry MibModule.main_entry]. by destruct (type_syntax (ps_glob M) sy).
Qed.

(** The round that defines the node. *)
Lemma define_round M d lo s es ts : def_ok (ps_glob M) d -> lo_inMib lo = true -> lo_name lo = Some (def_name d) -> holds M es s -> at_toks s (body_toks d ++ ts) ->
  exists lo' s', parse_round lo s = MibOk (inl lo', s') /\ lo_inMib lo' = true /\ holds M (def_entries (ps_glob M) (gl_moduleName (ps_glob M)) d ++ es) s' /\ at_toks s' ts.
Proof.
  intros Hok Hin Hname Hh Hat. destruct (def_reads M d Hok) as (t & toks & macro & parse_macro & n & ty & descr & Ht & Hmac & Hkey & Hreads & Hmain).
  rewrite Ht in Hat. cbn [app] in Hat. destruct (keyword_tok _ _ _ _ _ Hat) as (s1 & E1 & Hat1 & M1). apply (holds_mem _ _ _ _ _ M1) in Hh.
  destruct (Hreads _ _ _ Hh Hat1) as (p & s2 & n2 & E2 & Hm2 & Hat2 & En & Hd). rewrite Forall_forall in Hkey.
  destruct (set_node_making content start (set_origin macro (gl_moduleName (ps_glob s2))) _ _ _ _ _ _ _ Hm2 Hat2) as (s3 & E3 & Hm3 & Hat3).
  destruct (push_making content start _ _ _ _ descr _ _ _ Hm3 Hat3 Hd) as (s4 & E4 & Hh4 & Hat4). eexists _, s4.
  assert (Hmod : gl_moduleName (ps_glob s2) = gl_moduleName (ps_glob M)) by apply Hm2. split; [|split; [|split; [|exact Hat4]]].
  - unfold MibMacro.parse_round. rewrite (bind_ok _ _ _ _ _ E1). rewrite (bool_decide_eq_false_2 (tok_key t = EOF)) by (apply Hkey; by left). rewrite Hin. unfold in_mib.
    rewrite !bool_decide_eq_false_2 by (apply Hkey; set_solver). rewrite Hmac. unfold define. rewrite Hname. unfold lift, of_option. unfold mbind at 1, parse_bind at 1. unfold mret at 1, mib_ret.
    rewrite (bind_ok _ _ _ _ _ E2). unfold glob, get. unfold mbind at 1, parse_bind at 1. cbn [compose]. unfold compose. rewrite (bind_ok _ _ _ _ _ E3). rewrite (bind_ok _ _ _ _ _ E4). reflexivity.
  - exact Hin.
  - unfold MibModule.def_entries. rewrite Hmain. cbn [app]. unfold value_entries in Hh4. rewrite Hmod in Hh4.
    replace (erase (set_origin macro (gl_moduleName (ps_glob M)) n2)) with (set_origin macro (gl_moduleName (ps_glob M)) (erase n2)) in Hh4 by done. rewrite En in Hh4. exact Hh4.
Qed.

Lemma def_rounds M d lo s es ts : def_ok (ps_glob M) d -> lo_inMib lo = true -> holds M es s -> at_toks s (def_toks d ++ ts) ->
  exists lo' s', rounds parse_round 2 lo s lo' s' /\ lo_inMib lo' = true /\ holds M (def_entries (ps_glob M) (gl_moduleName (ps_glob M)) d ++ es) s' /\ at_toks s' ts.
Proof.
  intros Hok Hin Hh Hat. unfold def_toks in Hat. cbn [app] in Hat. destruct (keyword_tok _ _ _ _ _ Hat) as (s1 & E1 & Hat1 & M1). apply (holds_mem _ _ _ _ _ M1) in Hh.
  set (lo1 := mkLocals true (Some (def_name d)) (Some (def_name d)) (lo_typePtr lo) (lo_lastOT lo)).
  assert (R1 : parse_round lo s = MibOk (inl lo1, s1)).
  { unfold MibMacro.parse_round. rewrite (bind_ok _ _ _ _ _ E1). cbn [tok_key tok_text]. rewrite (label_key _ (proj1 Hok)), Hin. done. }
  destruct (define_round M d lo1 s1 es ts Hok eq_refl eq_refl Hh Hat1) as (lo2 & s2 & R2 & Hin2 & Hh2 & Hat2). exists lo2, s2. split; [|done].
  exact (rounds_trans _ 1 1 _ _ _ _ _ _ (rounds_one _ _ _ _ _ R1) (rounds_one _ _ _ _ _ R2)).
Qed.

Lemma defs_rounds M ts : forall ds lo s es, Forall (def_ok (ps_glob M)) ds -> lo_inMib lo = true -> holds M es s -> at_toks s ((ds ≫= def_toks) ++ ts) ->
  exists lo' s', rounds parse_round (2 * length ds) lo s lo' s' /\ lo_inMib lo' = true /\
    holds M (mjoin (map (def_entries (ps_glob M) (gl_moduleName (ps_glob M))) (reverse ds)) ++ es) s' /\ at_toks s' ts.
Proof.
  induction ds as [|d ds IH]; intros lo s es Hok Hin Hh Hat; [by exists lo, s|]. apply Forall_cons in Hok as [Hd Hok]. change ((d :: ds) ≫= def_toks) with (def_toks d ++ (ds ≫= def_toks)) in Hat. rewrite <- app_assoc in Hat.
  destruct (def_rounds M d lo s es _ Hd Hin Hh Hat) as (lo1 & s1 & R1 & Hin1 & Hh1 & Hat1). destruct (IH lo1 s1 _ Hok Hin1 Hh1 Hat1) as (lo2 & s2 & R2 & Hin2 & Hh2 & Hat2). exists lo2, s2.
  split; [|split; [done|split; [|done]]].
  - replace (2 * length (d :: ds))%nat with (2 + 2 * length ds)%nat by (cbn; lia). by eapply rounds_trans.
  - rewrite reverse_cons, map_app, join_app, <- app_assoc. cbn [map]. replace (mjoin [def_entries (ps_glob M) (gl_moduleName (ps_glob M)) d]) with (def_entries (ps_glob M) (gl_moduleName (ps_glob M)) d); [done|].
    by rewrite <- (app_nil_r (def_entries _ _ _)) at 1.
Qed.
End file.

(** ** The whole file *)

Lemma keyword_end content start s : at_toks content start s [] -> exists text s', keyword s = MibOk ((EOF, text), s') /\ mem s' = mem s.
Proof.
  intros (text & Hat & Hl & _). destruct (lex_end _ _ Hat Hl) as (t & lx & E). exists t. eexists. split; [unfold keyword; unfold lexer_of in E; by rewrite E|done].
Qed.

(** Behind the first token of the file. *)
Lemma at_toks_start content s s' text key ts : is_special (gl_lastchar (ps_glob s)) = false -> ps_file s = content -> keyword s = MibOk ((key, text), s') -> key <> EOF ->
  at_toks content 0 s' ts -> at_toks content 1 s' ts.
Proof.
  intros Hc Hf E Hkey (t & H1 & H2 & H3 & H4 & H5). exists t. repeat (split; [done|]). split; [|done]. unfold keyword in E.
  pose proof (ReadKeyword_ended (mkLexer (ps_file s) (gl_lastchar (ps_glob s)))) as He. destruct (ReadKeyword _) as [[[k w] lx]|]; [|done]. injection E as -> -> <-. cbn in He, H4 |- *. destruct He as (_ & _ & Hlt).
  specialize (Hlt Hkey). unfold left in Hlt. cbn in Hlt. rewrite Hc, Hf in Hlt. rewrite drop_0 in H4. destruct H4 as [[|c pre] ->].
  - cbn in Hlt. destruct (is_special (lx_lastchar lx)); lia.
  - by exists pre.
Qed.

Lemma defs_length ds : (2 * length ds <= length (ds ≫= def_toks))%nat.
Proof.
  induction ds as [|d ds IH]; [done|]. change ((d :: ds) ≫= def_toks) with (def_toks d ++ (ds ≫= def_toks)). rewrite length_app. assert (2 <= length (def_toks d))%nat by (destruct d; cbn; lia). cbn [length]. lia.
Qed.

(** The entries of the definitions do not depend on the name of the module in the state. *)
Lemma mib_module_read Tcl_DStringAppendElement g m content : module_ok g m -> layout (module_toks m) content -> isspace (gl_lastchar g) = true ->
  exists s', ParseFile Tcl_DStringAppendElement (mkParser g content (length content) None) = MibOk (ps_nodeList s', s') /\
    holds content (mkParser (with_module None g) content (length content) None) (module_entries Tcl_DStringAppendElement g m) s'.
Proof.
  intros (Htok & Hname & Himp & Hdefs) Hl Hc. set (s0 := mkParser g content (length content) None).
  assert (Hsp : is_special (gl_lastchar g) = false). { destruct (is_special (gl_lastchar g)) eqn:E; [|done]. apply special_not_space in E. congruence. }
  assert (Hat : at_toks content 0 s0 (module_toks m)).
  { exists content. split; [split; [|split]; cbn; [intros H; by rewrite H in Hc|intros H; by rewrite H in Hc|by rewrite Hc]|]. split; [exact Hl|]. split; [exact Htok|]. split; [by exists []|done]. }
  pose proof Hat as Hat0. unfold module_toks in Hat. destruct (keyword_tok _ _ _ _ _ Hat) as (s1 & E1 & Hat1 & M1). cbn [tok_key tok_text] in E1. rewrite (label_key _ Hname) in E1.
  pose proof (at_toks_start content s0 s1 _ _ _ Hsp eq_refl E1 ltac:(done) Hat1) as Hat1'.
  assert (Hstart : (0 < 1 <= length content)%nat). { destruct content as [|c content']; [|cbn; lia]. pose proof (layout_length _ _ Hl Htok) as H. cbn in H. lia. }
  set (lo1 := lo_set_name (mod_name m) (mkLocals false None None None None)).
  assert (R1 : parse_round Tcl_DStringAppendElement (mkLocals false None None None None) s0 = MibOk (inl lo1, s1)).
  { unfold parse_round. by rewrite (bind_ok _ _ _ _ _ E1). }
  destruct (keyword_tok _ _ _ _ _ Hat1') as (s2 & E2 & Hat2 & M2). destruct m as [name imports d ds]. cbn [mod_name mod_imports mod_first mod_rest] in *. apply Forall_cons in Hdefs as [Hd Hds].
  unfold def_toks in Hat2 at 1. cbn [app] in Hat2.
  destruct (ParseHeader_ok content 1 name imports (def_name d) s2 _ (proj1 Hd) Himp Hat2) as (s3 & E3 & Hat3 & M3).
  set (lo3 := mkLocals true (Some (def_name d)) (Some (def_name d)) None None).
  assert (R3 : parse_round Tcl_DStringAppendElement lo1 s1 = MibOk (inl lo3, s3)).
  { unfold parse_round. rewrite (bind_ok _ _ _ _ _ E2). change (tok_key (w_ "DEFINITIONS")) with DEFINITIONS. change (bool_decide (DEFINITIONS = EOF)) with false. cbn iota. unfold lo1, lo_set_name. cbn [lo_inMib]. unfold out_of_mib.
    change (bool_decide (DEFINITIONS = DEFINITIONS)) with true. cbn iota. unfold lift, of_option. cbn [lo_name]. unfold mbind at 1, parse_bind at 1. unfold mret at 1, mib_ret. rewrite (bind_ok _ _ _ _ _ E3). done. }
  set (M := mkParser (with_module (Some name) g) content (length content) None).
  assert (HM3 : mem s3 = mem M) by (rewrite M3, M2, M1; done).
  assert (Hh3 : holds content M [] s3) by (eapply holds_mem; [exact HM3|]; split; [apply extends_refl|exists []; split; [done|]; split; [by left|done]]).
  assert (Hd' : def_ok (ps_glob M) d) by exact Hd. assert (Hds' : Forall (def_ok (ps_glob M)) ds) by exact Hds.
  destruct (define_round content 1 Tcl_DStringAppendElement Hstart M d lo3 s3 [] _ Hd' eq_refl eq_refl Hh3 Hat3) as (lo4 & s4 & R4 & Hin4 & Hh4 & Hat4).
  destruct (defs_rounds content 1 Tcl_DStringAppendElement Hstart M _ ds lo4 s4 _ Hds' Hin4 Hh4 Hat4) as (lo5 & s5 & R5 & Hin5 & Hh5 & Hat5).
  destruct (keyword_tok _ _ _ _ _ Hat5) as (s6 & E6 & Hat6 & M6). apply (holds_mem _ _ _ _ _ M6) in Hh5.
  set (s6' := with_glob (with_module None) s6).
  assert (R6 : parse_round Tcl_DStringAppendElement lo5 s5 = MibOk (inl (outside lo5), s6')).
  { unfold parse_round. rewrite (bind_ok _ _ _ _ _ E6). change (tok_key (w_ "END")) with END. change (bool_decide (END = EOF)) with false. cbn iota. by rewrite Hin5. }
  destruct (keyword_end _ _ _ (at_toks_glob content 1 s6 [] (with_module None) eq_refl Hat6)) as (text & s7 & E7 & M7). exists s7. split.
  - unfold ParseFile. refine (while_rounds content 0 _ _ _ _ _ _ _ _ Hat0 _ (rounds_trans _ 1 _ _ _ _ _ _ _ (rounds_one _ _ _ _ _ R1) (rounds_trans _ 1 _ _ _ _ _ _ _ (rounds_one _ _ _ _ _ R3)
      (rounds_trans _ 1 _ _ _ _ _ _ _ (rounds_one _ _ _ _ _ R4) (rounds_trans _ _ 1 _ _ _ _ _ _ R5 (rounds_one _ _ _ _ _ R6))))) _).
    + pose proof (defs_length ds). unfold module_toks. cbn [length mod_name mod_imports mod_first mod_rest]. rewrite !length_app. cbn [length]. lia.
    + intros fuel. apply loop_exit. unfold parse_round. rewrite (bind_ok _ _ _ _ _ E7). reflexivity.
  - apply (holds_mem _ _ _ _ _ M7). destruct Hh5 as ((X1 & X2 & X3 & X4 & X5 & X6) & ps & Hps & Ho & Hlist). split.
    + unfold extends in *. repeat (split; [done|]). exact X6.
    + exists ps. split; [exact Hps|]. split; [exact Ho|]. unfold module_entries. cbn [mod_name mod_first mod_rest]. rewrite reverse_cons, map_app, join_app.
      replace (mjoin (map (def_entries Tcl_DStringAppendElement g (Some name)) [d])) with (def_entries Tcl_DStringAppendElement g (Some name) d ++ []) by done. refine (listed_ext content s6 (with_glob (with_module None) s6) ps _ _ _ Hlist). by intros.
Qed.
