(* ===== verification/MibModuleLoad.v ===== *)
(** A module is loaded: it is read and its nodes are linked into the tree. *)

From stdpp Require Import gmap sorting.
From S2P Require Import Prelude Ber CStr Oid Util Snmp Mib MibTree MibTreeInv MibTreeFind MibTreeAdd MibNames MibLexer MibParser MibMacro MibLex MibLayout MibRead MibModule MibModuleRead MibModuleFile.
Local Open Scope Z_scope.

(** ** More nodes *)

(** Nodes that no pointer leads to do not matter. *)
Lemma rep_grow roots st K F nodes' file : rep roots st K F -> (forall p n, mb_nodes st !! p = Some n -> nodes' !! p = Some n) ->
  (forall p n, nodes' !! p = Some n -> node_ok n) -> rep roots (mkMib nodes' (mb_nodehashtab st) (mb_nodeHashTable st) (mb_tree st) file (mb_stderr st)) K F.
Proof.
  intros R Hold Hnew. pose proof R as [R0 R1 R2 (R3 & R4 & R5) R6 R7 (R8 & R9 & R10)].
  assert (Hsub : forall l, Forall (fun p => is_Some (mb_nodes st !! p)) l -> by_subid (mb_nodes st) l -> by_subid nodes' l).
  { intros l Hl. unfold by_subid. replace (subid_of nodes' <$> l) with (subid_of (mb_nodes st) <$> l); [done|]. induction Hl as [|p l [n Hn] _ IH]; [done|]. cbn. f_equal; [|exact IH]. unfold subid_of. by rewrite Hn, (Hold _ _ Hn). }
  assert (Hchain : forall l o, chain (mb_nodes st) o l -> chain nodes' o l).
  { intros l o Hc. eapply chain_frame; [done|]. apply Forall_forall. intros p _ n Hn. exists n. split; [by apply Hold|done]. }
  constructor; cbn.
  - exact Hnew.
  - done.
  - intros i l Hi. destruct (R2 _ _ Hi) as (o & Ho & Hc & Hf). exists o. split; [done|]. split; [by apply Hchain|]. eapply Forall_impl; [exact Hf|]. intros p (HK & n & pn & Hn & H). split; [done|]. exists n, pn. split; [by apply Hold|done].
  - split; [by apply Hchain|]. split; [apply Hsub; [by eapply chain_nodes|done]|]. eapply Forall_impl; [exact R5|]. intros q (m & l & Hm & H). exists m, l. split; [by apply Hold|done].
  - intros r o l Hr. destruct (R6 _ _ _ Hr) as (n & Hn & Hc & Hs & Hk). exists n. split; [by apply Hold|]. split; [by apply Hchain|]. split; [apply Hsub; [by eapply chain_nodes|done]|].
    eapply Forall_impl; [exact Hk|]. intros q (m & l' & Hm & H). exists m, l'. split; [by apply Hold|done].
  - intros p Hp. destruct (R7 p Hp) as (n & Hn & H). exists n. split; [by apply Hold|done].
  - split; [|split].
    + intros name Hname. destruct (R8 name Hname) as (p & n & Hn & H). exists p, n. split; [by apply Hold|done].
    + intros name q Hq. destruct (R9 name q Hq) as (Hl & n & Hn & H). split; [done|]. exists n. split; [by apply Hold|done].
    + intros q n Hq Hr Hn. destruct (rep_linked_node _ _ _ _ _ R Hq) as (n' & Hn'). rewrite (Hold _ _ Hn') in Hn. injection Hn as <-. by apply (R10 q).
Qed.

(** ** The nodes of a module *)

(** Labels the tree of nodes can hold. *)
Definition plain_label (w : cstring) : Prop := plain_name w = true /\ 0 <= HashNodeLabel w.
Definition plain_def (d : definition) : Prop :=
  plain_label (def_name d) /\ plain_label (ov_parent (def_value d)) /\ Forall (fun e => plain_label e.1) (ov_path (def_value d)).
Definition plain_module (m : mib_module) : Prop := Forall plain_def (mod_first m :: mod_rest m).

(** A node that can be added. *)
Definition entry_ok (module : cstring) (n : TnmMibNode) : Prop :=
  node_ok n /\ nd_moduleName n = Some module /\ exists pn, nd_parentName n = Some pn /\ plain_label pn.

Lemma path_entries_ok module : forall path parent, Forall (fun e => label e.1 = true /\ mib_number e.2) path -> Forall (fun e => plain_label e.1) path -> plain_label parent ->
  Forall (entry_ok module) (path_nodes (Some module) parent path).
Proof.
  induction path as [|[w n] path IH]; intros parent Hok Hp Hpar; [constructor|]. apply Forall_cons in Hok as [[_ Hn] Hok]. apply Forall_cons in Hp as [Hw Hp]. cbn [fst snd] in *. cbn [path_nodes]. constructor; [|by apply IH].
  split; [|split; [done|by exists parent]]. unfold mib_number in Hn. split; [cbn; lia|]. exact Hw.
Qed.

Lemma clauses_label Tcl cs : forall n, nd_label (clauses_node Tcl cs n) = nd_label n.
Proof. induction cs as [|c cs IH]; intros n; [done|]. change (clauses_node Tcl (c :: cs) n) with (clauses_node Tcl cs (clause_node Tcl c n)). rewrite IH. by destruct c. Qed.

Lemma last_parent_plain v : Forall (fun e => plain_label e.1) (ov_path v) -> plain_label (ov_parent v) -> plain_label (last_parent v).
Proof.
  intros Hp Hpar. unfold last_parent. destruct (last (ov_path v)) as [e|] eqn:E; [|done]. cbn. rewrite Forall_forall in Hp. apply Hp. apply last_Some_elem_of in E. done.
Qed.

Lemma main_entry_ok Tcl g module d : def_ok g d -> plain_def d -> entry_ok module (en_node (main_entry Tcl g (Some module) d)).
Proof.
  intros [_ Hok] (Hl & Hp & Hpath). pose proof (last_parent_plain _ Hpath Hp) as Hlast.
  assert (Hnum : mib_number (ov_number (def_value d))) by (destruct d; cbn in Hok |- *; unfold oid_value_ok in Hok; tauto). unfold mib_number in Hnum.
  assert (Hgo : forall n macro, nd_label n = def_name d -> entry_ok module (set_origin macro (Some module) (set_place (Some (last_parent (def_value d))) (ov_number (def_value d)) n))).
  { intros n macro Hn. split; [|split; [done|by eexists]]. split; [cbn; lia|]. cbn. by rewrite Hn. }
  destruct d as [name v|mac name cs v|b name members cs v|name sy access status cs v]; cbn [main_entry def_value] in *; [| | |destruct (type_syntax g sy)]; cbn [en_node]; apply Hgo; cbn [def_name]; [done|by rewrite clauses_label..].
Qed.

Lemma module_entries_ok Tcl g m : module_ok g m -> plain_module m -> Forall (fun e => entry_ok (mod_name m) (en_node e)) (module_entries Tcl g m).
Proof.
  intros (_ & _ & _ & Hok) Hp. unfold module_entries. apply Forall_join. apply Forall_map. apply Forall_reverse.
  unfold plain_module in Hp. rewrite Forall_forall in Hp, Hok |- *. intros d Hd. specialize (Hp d Hd). specialize (Hok d Hd). constructor; [by apply main_entry_ok|]. apply Forall_map.
  destruct Hp as (_ & Hpar & Hpath). eapply Forall_impl; [apply path_entries_ok; [|done|done]|done]. destruct Hok as [_ Hok]. destruct d; cbn in Hok |- *; unfold oid_value_ok in Hok; tauto.
Qed.

(** ** Loading *)

(** The nodes of the list and what [TnmMibAddNode] keeps of them. *)
Definition loaded (content : cstring) (g : mib_globals) (p : nat) (e : entry) : Prop :=
  exists n, mb_nodes (gl_mib g) !! p = Some n /\ core (set_fileOffset 0 n) = core (en_node e) /\ gl_typePtr g !! p = en_type e /\ describes content (nd_fileOffset n) (en_descr e).

Lemma listed_loaded content s : forall ps es p, listed content s p ps es ->
  chain (nodes_of s) p ps /\ Forall2 (fun a e => exists n, nodes_of s !! a = Some n /\ erase n = en_node e /\ gl_typePtr (ps_glob s) !! a = en_type e /\ describes content (nd_fileOffset n) (en_descr e)) ps es.
Proof.
  induction ps as [|a ps IH]; intros [|e es] p; cbn; try done. intros (n & -> & Hn & He & Ht & Hd & Hl). destruct (IH _ _ Hl) as [Hc Hf]. split; [split; [done|by exists n]|]. constructor; [by exists n|done].
Qed.

Lemma entry_ok_erase module n : entry_ok module (erase n) -> entry_ok module n.
Proof. done. Qed.

(** The memory behind the parser. *)
Lemma holds_rep content M s es roots K F file module : holds content M es s -> rep roots (gl_mib (ps_glob M)) K F -> Forall (fun e => entry_ok module (en_node e)) es ->
  mb_fileName (gl_mib (ps_glob M)) = file ->
  rep roots (gl_mib (ps_glob s)) K F /\ exists ps, chain (nodes_of s) (ps_nodeList s) ps /\ Forall (loadable (gl_mib (ps_glob s)) K) ps /\
    (forall p, p ∈ ps -> exists n, nodes_of s !! p = Some n /\ nd_moduleName n = Some module) /\
    Forall2 (fun a e => exists n, nodes_of s !! a = Some n /\ erase n = en_node e /\ gl_typePtr (ps_glob s) !! a = en_type e /\ describes content (nd_fileOffset n) (en_descr e)) ps es.
Proof.
  intros ((E1 & _ & _ & _ & _ & E6) & ps & Hf & Ho & Hl) R Hes Hfile. destruct (listed_loaded _ _ _ _ _ Hl) as [Hc H2].
  assert (Hps : forall p, p ∈ ps -> exists n, nodes_of s !! p = Some n /\ entry_ok module n).
  { intros p Hp. apply list_elem_of_lookup in Hp as [i Hi]. destruct (Forall2_lookup_l _ _ _ _ _ H2 Hi) as (e & He & n & Hn & Heq & _). exists n. split; [done|]. apply entry_ok_erase. rewrite Heq.
    rewrite Forall_forall in Hes. apply Hes. by eapply list_elem_of_lookup_2. }
  split.
  - assert (Hmib : gl_mib (ps_glob s) = mkMib (nodes_of s) (mb_nodehashtab (gl_mib (ps_glob M))) (mb_nodeHashTable (gl_mib (ps_glob M))) (mb_tree (gl_mib (ps_glob M))) file (mb_stderr (gl_mib (ps_glob M)))).
    { unfold nodes_of in E1 |- *. rewrite <- Hfile, <- E1. by destruct (gl_mib (ps_glob s)). }
    rewrite Hmib. apply rep_grow; [done| |].
    + intros p n Hn. destruct (E6 p) as [Heq _]; [by eexists|]. rewrite Heq. exact Hn.
    + intros p n Hn. destruct (Ho p) as [[n' Hn']|Hp]; [by eexists| |].
      * destruct (E6 p) as [Heq _]; [by eexists|]. assert (n = n') as -> by congruence. by apply (rep_node _ _ _ _ R p).
      * destruct (Hps p Hp) as (n' & Hn' & Hok & _). congruence.
  - exists ps. split; [done|]. split; [|split; [|done]].
    + apply Forall_forall. intros p Hp. destruct (Hps p Hp) as (n & Hn & _ & _ & pn & Hpn & Hplain & Hhash). split; [|by exists n, pn].
      destruct (K !! p) eqn:HK; [|done]. destruct (rep_linked_node roots _ K F p R) as (n' & Hn'); [by eexists|]. rewrite Forall_forall in Hf. specialize (Hf p Hp). unfold nodes_of in Hf. congruence.
    + intros p Hp. destruct (Hps p Hp) as (n & Hn & _ & Hm & _). by exists n.
Qed.


(** ** A module *)

(** A text of the tokens with a blank in front of each. *)
Definition spell (t : tok) : cstring :=
  match t with TWord w => w | TPair w1 w2 => w1 ++ chr_blank :: w2 | TPunct c => [c] | TString body => chr_quote :: body ++ [chr_quote] end.
Fixpoint render (ts : list tok) : cstring := chr_blank :: match ts with [] => [] | t :: ts => spell t ++ render ts end.

Lemma render_layout : forall ts, layout ts (render ts).
Proof.
  assert (Hb : blank [chr_blank]) by (by apply blank_space; [|constructor]).
  induction ts as [|t ts IH]; [by constructor|]. change (render (t :: ts)) with ([chr_blank] ++ spell t ++ render ts). constructor; [done| | |done].
  - destruct t as [w|w1 w2|c|body]; [exact (spelled_word w)|by apply (spelled_pair w1 w2 chr_blank [])|exact (spelled_punct c)|exact (spelled_string body)].
  - intros _. destruct ts; eexists _, _; (split; [reflexivity|]); by split.
Qed.

Definition sample_module : mib_module :=
  mkModule (cstr "TEST-MIB") (Some [([cstr "mib-2"], cstr "RFC1213-MIB"); ([cstr "OBJECT-TYPE"; cstr "enterprises"], cstr "SNMPv2-SMI")])
    (DefOid (cstr "system") (mkOidValue (cstr "mib-2") [] 1))
    [DefObject (cstr "sysDescr") (SyBase (TPair (cstr "OCTET") (cstr "STRING"))) (cstr "read-only") (cstr "mandatory") [ClDescription (cstr "What it is.")] (mkOidValue (cstr "system") [] 1);
     DefObject (cstr "testTable") (SyTable (cstr "TestEntry")) (cstr "not-accessible") (cstr "current") [] (mkOidValue (cstr "mib-2") [(cstr "test", 9)] 1);
     DefObject (cstr "testEntry") (SyName (cstr "TestEntry")) (cstr "not-accessible") (cstr "current") [ClImplied [cstr "testIndex"] (cstr "testName")] (mkOidValue (cstr "testTable") [] 1)].
Definition sample_globals : mib_globals := mkGlobals sample_tree ∅ None [] ∅ None chr_blank.

Lemma forallb_Forall {A} (f : A -> bool) l : forallb f l = true -> Forall (fun x => f x = true) l.
Proof. intros H. apply Forall_forall. intros x Hx. rewrite forallb_forall in H. apply H. by apply list_elem_of_In. Qed.

Definition oid_value_okb (v : oid_value) : bool :=
  label (ov_parent v) && forallb (fun e => label e.1 && bool_decide (0 <= e.2 < 2147483648)) (ov_path v) && bool_decide (0 <= ov_number v < 2147483648).
Lemma oid_value_okb_ok v : oid_value_okb v = true -> oid_value_ok v.
Proof.
  intros [[H1 H2%forallb_Forall]%andb_true_iff H3%bool_decide_eq_true]%andb_true_iff. split; [done|]. split; [|done]. eapply Forall_impl; [exact H2|]. by intros e [? ?%bool_decide_eq_true]%andb_true_iff.
Qed.

Lemma sample_module_ok : module_ok sample_globals sample_module.
Proof.
  split; [by apply forallb_Forall; vm_compute|]. split; [by vm_compute|]. split.
  - intros l [= <-]. constructor; [|constructor; [|constructor]]; (split; [apply forallb_Forall|]); by vm_compute.
  - constructor; [|constructor; [|constructor; [|constructor; [|constructor]]]]; (split; [by vm_compute|]).
    + by apply oid_value_okb_ok; vm_compute.
    + split; [right; right; left|]. split; [set_solver|]. split; [set_solver|]. split; [|by apply oid_value_okb_ok; vm_compute]. split; [repeat constructor; set_solver|vm_compute; lia].
    + split; [by vm_compute|]. split; [set_solver|]. split; [set_solver|]. split; [|by apply oid_value_okb_ok; vm_compute]. split; [constructor|vm_compute; lia].
    + split; [split; [by vm_compute|by left]|]. split; [set_solver|]. split; [set_solver|]. split; [|by apply oid_value_okb_ok; vm_compute]. split; [|vm_compute; lia].
      constructor; [|constructor]. split; [set_solver|]. split; [by apply forallb_Forall; vm_compute|by vm_compute].
Qed.

