(* ===== verification/MibParseEnds.v ===== *)
(** The parser returns on every file, up to a bracket outside of a module that is not
    closed. *)

From stdpp Require Import gmap.
From S2P Require Import Prelude Ber CStr Oid Util Obj Snmp Mib MibTree MibTreeInv MibNames MibLexer MibParser MibMacro MibLex.
Local Open Scope Z_scope.

(** ** The invariant *)

Definition nodes_of (s : parser) : gmap nat TnmMibNode := mb_nodes (gl_mib (ps_glob s)).

(** The roots of the tree and the new nodes are lists that end; the node at [p] is in none
    of them. *)
Definition inv (P : option nat) (s : parser) : Prop :=
  exists roots l, chain (nodes_of s) (mb_tree (gl_mib (ps_glob s))) roots /\ chain (nodes_of s) (ps_nodeList s) l /\
  forall p, P = Some p -> is_Some (nodes_of s !! p) /\ (p ∉ roots) /\ p ∉ l.

(** [m] returns, and has read [k] keywords at least. *)
Definition ends {A} (P : option nat) (m : parse A) (Q : A -> option nat -> nat -> Prop) : Prop :=
  forall s, inv P s ->
  match m s with
  | MibOk (a, s') => exists P' k, inv P' s' /\ (keywords_left s' + k <= keywords_left s)%nat /\ ps_file s' `suffix_of` ps_file s /\ Q a P' k
  | MibFault f => f <> MibLoops
  end.
Definition kept {A} (P : option nat) (_ : A) (P' : option nat) (_ : nat) : Prop := P' = P.

Lemma ends_ret {A} P (a : A) Q : Q a P 0%nat -> ends P (mret a) Q.
Proof. intros H s Hs. exists P, 0%nat. split; [done|]. split; [lia|]. by split. Qed.

Lemma ends_bind {A B} P (m : parse A) (f : A -> parse B) Q1 (Q : B -> option nat -> nat -> Prop) : ends P m Q1 ->
  (forall a P1 k1, Q1 a P1 k1 -> ends P1 (f a) (fun b P2 k2 => Q b P2 (k1 + k2)%nat)) -> ends P (m ≫= f) Q.
Proof.
  intros Hm Hf s Hs. specialize (Hm s Hs). unfold mbind, parse_bind. destruct (m s) as [[a s1]|f']; [|exact Hm]. destruct Hm as (P1 & k1 & Hs1 & Hk1 & Hsuf & HQ).
  specialize (Hf a P1 k1 HQ s1 Hs1). destruct (f a s1) as [[b s2]|f']; [|exact Hf].
  destruct Hf as (P2 & k2 & Hs2 & Hk2 & Hsuf2 & HQ2). exists P2, (k1 + k2)%nat. split; [done|]. split; [lia|]. split; [by etrans|done].
Qed.

Lemma ends_weaken {A} P (m : parse A) Q1 (Q : A -> option nat -> nat -> Prop) : ends P m Q1 -> (forall a P1 k1, Q1 a P1 k1 -> Q a P1 k1) -> ends P m Q.
Proof. intros Hm H s Hs. specialize (Hm s Hs). destruct (m s) as [[a s1]|f]; [|done]. destruct Hm as (P1 & k1 & ? & ? & ? & ?). exists P1, k1. auto. Qed.

Lemma ends_lift {A} P (m : mib_out A) Q : (forall a, m = MibOk a -> Q a P 0%nat) -> m <> MibFault MibLoops -> ends P (lift m) Q.
Proof. intros H1 H2 s Hs. unfold lift. destruct m as [a|f]; [|congruence]. exists P, 0%nat. split; [done|]. split; [lia|]. split; [done|by apply H1]. Qed.
Lemma ends_fault {A} P f (Q : A -> option nat -> nat -> Prop) : f <> MibLoops -> ends P (fault f) Q.
Proof. by intros H s _. Qed.
Lemma ends_get {A} P (f : parser -> A) : ends P (get f) (kept P).
Proof. intros s Hs. exists P, 0%nat. split; [done|]. split; [lia|]. by split. Qed.
Lemma ends_glob {A} P (f : mib_globals -> A) : ends P (glob f) (kept P).
Proof. apply ends_get. Qed.
Lemma ends_not_null {A} P (a : option A) : ends P (not_null a) (kept P).
Proof. apply ends_lift; by destruct a. Qed.

Lemma ends_lift_kept {A} P (m : mib_out A) : m <> MibFault MibLoops -> ends P (lift m) (kept P).
Proof. by apply ends_lift. Qed.
Lemma ends_lift_option {A} P f (a : option A) : f <> MibLoops -> ends P (lift (of_option f a)) (kept P).
Proof. intros H. apply ends_lift_kept. destruct a; [done|]. cbn. congruence. Qed.
Lemma atoi_ends s : atoi s <> MibFault MibLoops.
Proof. unfold atoi. cbv zeta. by case_bool_decide. Qed.

(** ** Keywords *)

Definition read_key (P : option nat) (a : Z * cstring) (P' : option nat) (k : nat) : Prop := P' = P /\ (a.1 <> EOF -> (1 <= k)%nat) /\ (a.1 = NUMBER -> forallb isdigit a.2 = true).

(** Only digits are a number. *)
Definition numeric (t : token) : Prop := t.1.1 = NUMBER -> forallb isdigit t.1.2 = true.

Lemma key_not_number : Forall (Forall (fun tp => kw_key tp <> NUMBER)) hashtab.
Proof. apply (bool_decide_unpack _). by vm_compute. Qed.
Lemma found_not_number hash w tp : find_keyword hash w = Some tp -> kw_key tp <> NUMBER.
Proof.
  unfold find_keyword. destruct (list_find _ _) as [[i tp']|] eqn:E; [|done]. intros [= <-]. apply list_find_Some in E as (Hi & _ & _). destruct (hashtab !! HASH hash) as [l|] eqn:Hl; [|done]. cbn in Hi.
  pose proof key_not_number as H. rewrite Forall_forall in H. specialize (H l (list_elem_of_lookup_2 _ _ _ Hl)). rewrite Forall_forall in H. apply H. by eapply list_elem_of_lookup_2.
Qed.
Lemma word_numeric w : word_syntax w = NUMBER -> forallb isdigit w = true.
Proof.
  destruct w as [|c w]; [done|]. cbn [word_syntax]. destruct (bool_decide (c = 45) || bool_decide (c = 43)) eqn:Es; cbn [orb andb]; [by destruct (forallb isdigit w)|].
  destruct (isdigit c) eqn:Ec; cbn [andb]; [|done]. destruct (forallb isdigit w) eqn:Ew; [|done]. intros _. cbn. by rewrite Ec.
Qed.

Definition all_ok {A} (m : mib_out A) (Q : A -> Prop) : Prop := match m with MibOk a => Q a | MibFault _ => True end.
Lemma all_ok_bind {A B} (m : mib_out A) (k : A -> mib_out B) Q : (forall a, m = MibOk a -> all_ok (k a) Q) -> all_ok (m ≫= k) Q.
Proof. unfold mbind, mib_bind. destruct m as [a|]; [|done]. intros H. by apply H. Qed.

Lemma read_word_numeric : forall file ch lastchar buf hash, all_ok (read_word file ch lastchar buf hash) numeric.
Proof.
  induction file as [|c file IH]; intros ch lastchar buf hash; cbn [read_word]; destruct (isspace ch || is_special ch); try (apply all_ok_bind; intros ? _; done);
    try (apply all_ok_bind; intros ? _; apply IH).
  all: destruct (bool_decide (ch = 46) && bool_decide (lastchar = 46)); [by do 3 (apply all_ok_bind; intros ? _)|]; apply all_ok_bind; intros [[buf' h'] l'] _; apply all_ok_bind; intros w _;
    destruct (find_keyword h' w) as [tp|] eqn:E; [|unfold numeric; exact (word_numeric w)]; destruct (bool_decide (kw_key tp = CONTINUE)); try done; try apply IH; unfold numeric; cbn; intros H; by apply found_not_number in E.
Qed.
Lemma read_quoted_numeric q l : forall file buf, numeric (read_quoted file q l buf).
Proof.
  induction file as [|c file IH]; intros buf; cbn [read_quoted]; [done|]. destruct (bool_decide (c = 10)); [apply IH|]. destruct (bool_decide (c = q)); [|apply IH]. destruct (bool_decide (q = 34)); [done|].
  destruct file as [|d file]; [done|]. destruct (_ || _); [done|]. by destruct (_ || _).
Qed.
Lemma read_keyword_numeric : forall fuel lx, all_ok (read_keyword fuel lx) numeric.
Proof.
  induction fuel as [|fuel IH]; intros lx; cbn [read_keyword]; (destruct (skip_space _) as [|ch file]; [done|]); (destruct (_ || _ || _); [cbn; apply read_quoted_numeric|]); (destruct (bool_decide (ch = 45)); [|apply read_word_numeric]);
    (destruct file as [|ch' file]; [done|]); (destruct (bool_decide (ch' = 45)); [|apply read_word_numeric]); destruct (skip_comment file); try done; apply IH.
Qed.

Lemma inv_lastchar P s c file : inv P s -> inv P (mkParser (with_lastchar c (ps_glob s)) file (ps_size s) (ps_nodeList s)).
Proof. done. Qed.

Lemma ends_keyword P : ends P keyword (read_key P).
Proof.
  intros s Hs. unfold keyword. pose proof (ReadKeyword_ended (mkLexer (ps_file s) (gl_lastchar (ps_glob s)))) as He. pose proof (read_keyword_numeric (length (ps_file s)) (mkLexer (ps_file s) (gl_lastchar (ps_glob s)))) as Hn.
  change (read_keyword (length (ps_file s)) (mkLexer (ps_file s) (gl_lastchar (ps_glob s)))) with (ReadKeyword (mkLexer (ps_file s) (gl_lastchar (ps_glob s)))) in Hn.
  destruct (ReadKeyword _) as [[[key text] lx]|f]; [|done]. destruct He as (H1 & H2 & H3). exists P, (if bool_decide (key = EOF) then 0 else 1)%nat. split; [by apply inv_lastchar|]. unfold left in *. cbn in H1, H2, H3.
  split; [unfold keywords_left; cbn; case_bool_decide; [lia|specialize (H3 ltac:(done)); lia]|]. split; [done|]. split; [done|]. split; [|exact Hn]. cbn. intros Hk. by rewrite bool_decide_eq_false_2.
Qed.

Definition read_syntax (P : option nat) (a : Z) (P' : option nat) (k : nat) : Prop := P' = P /\ (a <> EOF -> (1 <= k)%nat).
Lemma ends_syntax P : ends P syntax_of (read_syntax P).
Proof. eapply ends_bind; [apply ends_keyword|]. intros [a t] P1 k1 (-> & H & _). apply ends_ret. cbn in *. split; [done|]. intros Ha. specialize (H Ha). lia. Qed.
Lemma ends_expect P key : ends P (expect key) (kept P).
Proof. eapply ends_bind; [apply ends_syntax|]. intros a P1 k1 [-> _]. by apply ends_ret. Qed.
Lemma ends_ftell P : ends P ftell (kept P).
Proof. apply ends_get. Qed.

(** ** Loops *)

Lemma ends_while {A R} P (body : A -> parse (A + R)) (Q : R -> option nat -> Prop) a :
  (forall a, ends P (body a) (fun r P' k => match r with inl _ => P' = P /\ (1 <= k)%nat | inr r => Q r P' end)) -> ends P (while body a) (fun r P' _ => Q r P').
Proof.
  intros Hbody s Hs. unfold while. assert (Hf : (keywords_left s < 3 + keywords_left s)%nat) by lia. revert Hf. generalize (3 + keywords_left s)%nat as fuel. intros fuel. revert a s Hs.
  induction fuel as [|fuel IH]; intros a s Hs Hf; [lia|]. cbn [loop]. unfold mbind at 1, parse_bind at 1. specialize (Hbody a s Hs) as Hb. destruct (body a s) as [[r s1]|f]; [|done]. destruct Hb as (P1 & k1 & Hs1 & Hk1 & Hsuf & HQ).
  destruct r as [a'|r].
  - destruct HQ as [-> Hk]. specialize (IH a' s1 Hs1 ltac:(lia)). destruct (loop body fuel a' s1) as [[r s2]|f]; [|exact IH].
    destruct IH as (P2 & k2 & ? & ? & ? & ?). exists P2, k2. split; [done|]. split; [lia|]. split; [by etrans|done].
  - exists P1, k1. split; [done|]. split; [lia|]. by split.
Qed.

(** ** Memory *)

Lemma chain_alter nodes f p o l : (forall n, nd_nextPtr (f n) = nd_nextPtr n) -> chain nodes o l -> chain (alter f p nodes) o l.
Proof.
  intros Hf Hc. eapply chain_frame; [exact Hc|]. apply Forall_forall. intros q _ n Hn. destruct (decide (p = q)) as [->|Hq]; [exists (f n); by rewrite lookup_alter_eq, Hn|exists n; by rewrite lookup_alter_ne].
Qed.
Lemma chain_insert_new nodes n p o l : nodes !! p = None -> chain nodes o l -> chain (<[p := n]> nodes) o l.
Proof. intros Hp Hc. eapply chain_frame; [exact Hc|]. apply Forall_forall. intros q _ m Hm. exists m. rewrite lookup_insert_ne; [done|]. intros ->. congruence. Qed.
Lemma chain_alter_ne nodes f p o l : p ∉ l -> chain nodes o l -> chain (alter f p nodes) o l.
Proof. intros Hp Hc. eapply chain_frame; [exact Hc|]. apply Forall_forall. intros q Hq n Hn. exists n. rewrite lookup_alter_ne; [done|]. by intros ->. Qed.
Lemma chain_fresh nodes o l p : nodes !! p = None -> chain nodes o l -> p ∉ l.
Proof. intros Hp Hc%chain_nodes Hin. rewrite Forall_forall in Hc. specialize (Hc p Hin). rewrite Hp in Hc. by destruct Hc. Qed.

Lemma ends_set_node P f p : (forall n, nd_nextPtr (f n) = nd_nextPtr n) -> ends P (set_node f p) (kept P).
Proof.
  intros Hf s (roots & l & Hr & Hl & HP). exists P, 0%nat. split; [|split; [unfold keywords_left; cbn; lia|done]]. exists roots, l. unfold nodes_of in *. cbn. split; [by apply chain_alter|]. split; [by apply chain_alter|].
  intros q Hq. rewrite lookup_alter_is_Some. by apply HP.
Qed.

(** The types and the other globals. *)
Definition other_glob (f : mib_globals -> mib_globals) : Prop := forall g, gl_mib (f g) = gl_mib g /\ gl_lastchar (f g) = gl_lastchar g.
Lemma ends_change_glob P f : other_glob f -> ends P (change_glob f) (kept P).
Proof.
  intros Hf s Hs. exists P, 0%nat. destruct (Hf (ps_glob s)) as [H1 H2]. split; [|split; [unfold keywords_left; cbn; rewrite H2; lia|done]].
  destruct Hs as (roots & l & Hr & Hl & HP). exists roots, l. unfold nodes_of in *. cbn. by rewrite H1.
Qed.
Lemma ends_set_type P f a : ends P (set_type f a) (kept P).
Proof. by apply ends_change_glob. Qed.
Lemma ends_set_typePtr P p a : ends P (set_typePtr p a) (kept P).
Proof. by apply ends_change_glob. Qed.

Lemma ends_NewNode name : ends None (NewNode name) (fun p P' _ => P' = Some p).
Proof.
  intros s (roots & l & Hr & Hl & _). unfold NewNode. cbn [new_node]. set (p := fresh _). assert (Hp : nodes_of s !! p = None) by (apply not_elem_of_dom, is_fresh). exists (Some p), 0%nat.
  split; [|split; [unfold keywords_left; cbn; lia|done]]. exists roots, l. unfold nodes_of in *. cbn. split; [by apply chain_insert_new|]. split; [by apply chain_insert_new|].
  intros q [= <-]. rewrite lookup_insert_eq. split; [done|]. split; by eapply chain_fresh.
Qed.

Lemma ends_push_node p : ends (Some p) (push_node p) (kept None).
Proof.
  intros s (roots & l & Hr & Hl & HP). destruct (HP p eq_refl) as ([n Hn] & H1 & H2). exists None, 0%nat. split; [|split; [unfold keywords_left; cbn; lia|done]].
  exists roots, (p :: l). unfold nodes_of in *. cbn. split; [by apply chain_alter_ne|]. split; [|done]. split; [done|]. exists (set_nextPtr (ps_nodeList s) n). rewrite lookup_alter_eq, Hn. split; [done|]. by apply chain_alter_ne.
Qed.

Lemma ends_AddNewNode P label parentName subid : ends P (AddNewNode label parentName subid) (kept P).
Proof.
  intros s (roots & l & Hr & Hl & HP). unfold AddNewNode, NewNode, mbind, parse_bind. cbn [new_node]. set (p := fresh _). assert (Hp : nodes_of s !! p = None) by (apply not_elem_of_dom, is_fresh).
  cbn. exists P, 0%nat. split; [|split; [unfold keywords_left; cbn; lia|done]]. pose proof (chain_fresh _ _ _ _ Hp Hr) as Hpr. pose proof (chain_fresh _ _ _ _ Hp Hl) as Hpl.
  exists roots, (p :: l). unfold nodes_of in *. cbn. split; [by repeat (apply chain_alter_ne; [done|]); apply chain_insert_new|]. split.
  - split; [done|]. eexists. rewrite !lookup_alter_eq, lookup_insert_eq. split; [done|]. by repeat (apply chain_alter_ne; [done|]); apply chain_insert_new.
  - intros q Hq. destruct (HP q Hq) as (Hs & H1 & H2). assert (q <> p) by (intros ->; rewrite Hp in Hs; by destruct Hs). rewrite !lookup_alter_ne, lookup_insert_ne by done. split; [done|]. split; [done|]. by apply not_elem_of_cons.
Qed.

(** ** Procedures *)

Create HintDb ends discriminated.
#[export] Hint Resolve ends_keyword ends_syntax ends_expect ends_ftell ends_get ends_glob ends_not_null ends_set_type ends_set_typePtr ends_NewNode ends_push_node ends_AddNewNode : ends.
#[export] Hint Extern 1 (ends _ (set_node _ _) _) => apply ends_set_node; intros; reflexivity : ends.
#[export] Hint Extern 1 (ends _ (change_glob _) _) => apply ends_change_glob; intros ?; split; reflexivity : ends.

#[export] Hint Extern 1 (ends _ (lift (of_option _ _)) _) => apply ends_lift_option; discriminate : ends.
#[export] Hint Extern 1 (ends _ (lift (atoi _)) _) => apply ends_lift_kept, atoi_ends : ends.
#[export] Hint Extern 1 (ends _ (fault _) _) => apply (ends_fault _ _ (kept None)); discriminate : ends.

Ltac ends_clean :=
  repeat match goal with
  | H : kept _ _ _ _ |- _ => unfold kept in H; subst
  | H : read_syntax _ _ _ _ |- _ => destruct H as [-> H]
  | H : read_key _ _ _ _ |- _ => let H1 := fresh "Hkey" in let H2 := fresh "Hnum" in destruct H as (-> & H1 & H2); cbn [fst snd] in H1, H2
  end.
Ltac ends_fin :=
  cbv beta iota; unfold kept in *; try done; cbn [fst snd] in *;
  repeat match goal with
  | |- context [if ?b then _ else _] => lazymatch type of b with bool => destruct b eqn:? end
  | |- context [match ?x with _ => _ end] => is_var x; destruct x
  end; try done;
  repeat match goal with
  | H : bool_decide (?a = _) = true |- _ => apply bool_decide_eq_true in H; try (is_var a; subst a)
  | H : bool_decide (_ = _) = false |- _ => apply bool_decide_eq_false in H
  | H : bool_decide (_ <> _) = true |- _ => apply bool_decide_eq_true in H
  | H : ?x <> EOF -> _ |- _ => specialize (H ltac:(first [assumption | congruence | discriminate]))
  end;
  repeat split; try done; try lia.
Ltac ends_all :=
  repeat (cbv beta iota;
  lazymatch goal with
  | |- ends _ (mret _) _ => apply ends_ret; ends_fin
  | |- ends ?P (mbind _ _) _ =>
      first [eapply ends_bind; [solve [eauto with ends nocore]|] | eapply (ends_bind P _ _ (kept P)); [solve [ends_all]|]];
      let H := fresh "H" in intros ? ? ? H; ends_clean
  | |- ends _ (match ?x with _ => _ end) _ => destruct x eqn:?
  | |- ends _ _ _ => eapply ends_weaken; [solve [eauto with ends nocore]|let H := fresh "H" in intros ? ? ? H; ends_clean; ends_fin]
  end).

Lemma ends_in_symbol P text : ends P (in_symbol text) (kept P).
Proof. unfold in_symbol. destruct (decide _); [by apply ends_ret|by apply ends_fault]. Qed.
#[export] Hint Resolve ends_in_symbol : ends.

Lemma ends_ReadNameList P Tcl : ends P (ReadNameList Tcl) (kept P).
Proof.
  unfold ReadNameList. ends_all. eapply ends_weaken; [apply (ends_while P _ (fun _ P' => P' = P)); intros dst; unfold read_name; ends_all|done].
Qed.
#[export] Hint Resolve ends_ReadNameList : ends.

(** A loop that keeps the memory. *)
Lemma ends_while_kept {A R} P (body : A -> parse (A + R)) a :
  (forall a, ends P (body a) (fun r P' k => match r with inl _ => P' = P /\ (1 <= k)%nat | inr r => P' = P end)) -> ends P (while body a) (kept P).
Proof. intros H. eapply ends_weaken; [exact (ends_while P body (fun _ P' => P' = P) a H)|done]. Qed.

Lemma ends_skip_to P stop : ends P (skip_to stop) (kept P).
Proof. apply ends_while_kept. intros []. unfold skip_round. ends_all. Qed.
#[export] Hint Resolve ends_skip_to : ends.

Lemma ends_ReadIntEnums P : ends P ReadIntEnums (kept P).
Proof. apply ends_while_kept. intros result. unfold read_enum. ends_all. Qed.
#[export] Hint Resolve ends_ReadIntEnums : ends.

Lemma ends_read_bound P syntax value : ends P (read_bound syntax value) (kept P).
Proof. unfold read_bound. ends_all. Qed.
Lemma ends_append_range P result start last : ends P (append_range result start last) (kept P).
Proof. unfold append_range. ends_all. Qed.
#[export] Hint Resolve ends_read_bound ends_append_range : ends.

Lemma ends_ReadRange P : ends P ReadRange (kept P).
Proof. apply ends_while_kept. intros [result last]. unfold read_range, next_range. ends_all. Qed.
#[export] Hint Resolve ends_ReadRange : ends.

(** ** Object identifiers *)

Lemma find_sibling_ends st subid l : forall fuel o, chain (mb_nodes st) o l -> (length l <= fuel)%nat -> find_sibling fuel st o subid <> MibFault MibLoops.
Proof.
  induction l as [|p l IH]; intros fuel o Hc Hf; [cbn in Hc; subst o; by destruct fuel|]. destruct Hc as [-> (n & Hn & Hc)]. destruct fuel as [|fuel]; [cbn in Hf; lia|]. cbn [find_sibling].
  rewrite (deref_node _ _ _ Hn). unfold mbind, mib_bind. destruct (bool_decide _); [done|]. apply IH; [done|cbn in Hf; lia].
Qed.

Lemma digits_length text : forall fuel len, forallb isdigit text = true -> oid_scan_length fuel text len false = Some len.
Proof.
  induction text as [|c text IH]; intros fuel len Hd; [by destruct fuel|]. destruct fuel as [|fuel]; [done|]. cbn in Hd. apply andb_true_iff in Hd as [Hc Hd]. cbn [oid_scan_length].
  pose proof Hc as Hc'. unfold isdigit in Hc'. apply bool_decide_eq_true in Hc'. rewrite !bool_decide_eq_false_2 by (unfold chr_dot, chr_colon; lia). rewrite Hc. cbn [andb negb]. by apply IH.
Qed.

(** A number is no object identifier of two elements. *)
Lemma digits_oid text first rest : forallb isdigit text = true -> lookup_oid_value text = MibOk (Some (first :: rest)) -> rest = [].
Proof.
  intros Hd. unfold lookup_oid_value. do 3 (case_bool_decide; [by intros [= _ <-]|]). unfold TnmOidFromString. case_bool_decide as He.
  - vm_compute. by intros [= _ <-].
  - rewrite digits_length by done. rewrite bool_decide_eq_false_2 by (unfold TNM_OID_MAX_SIZE; lia). cbn [mbind option_bind].
    set (o1 := if bool_decide _ then _ else _). destruct o1 as [o1'|]; [|done]. cbn [mbind option_bind]. destruct (oid_scan_values _ _ _ _ _) as [o2|]; [|done]. cbn [mbind option_bind].
    destruct (TnmOidGet _ 0); [|done]. cbn [mbind option_bind]. rewrite (bool_decide_eq_true_2 (oid_length _ < 2)) by (by vm_compute). by cbn.
Qed.

Lemma lookup_oid_value_ends text : lookup_oid_value text <> MibFault MibLoops.
Proof.
  unfold lookup_oid_value. do 3 (case_bool_decide; [done|]). destruct (TnmOidFromString TnmOidInit text) as [[[] o]|]; cbn; try done. unfold mbind, mib_bind. by destruct (TnmOidGet o 0).
Qed.

Lemma digit_facts text : forallb isdigit text = true -> Forall (fun c => 48 <= c <= 57) text.
Proof.
  intros H. apply Forall_forall. intros c Hc. rewrite forallb_forall in H. specialize (H c (proj1 (list_elem_of_In _ _) Hc)). unfold isdigit in H. by apply bool_decide_eq_true in H.
Qed.
Lemma digits_split text : forallb isdigit text = true -> split_module text = ([], text, O).
Proof.
  intros H%digit_facts. unfold split_module, module_end. rewrite !index_of_none by (eapply Forall_impl; [exact H|]; intros d Hd; cbn in Hd; unfold chr_bang, chr_colon; lia).
  destruct text as [|c text]; [done|]. apply Forall_cons in H as [Hc _]. assert (isupper c = false) as ->; [|done]. unfold isupper. apply bool_decide_eq_false_2. lia.
Qed.
Lemma digits_no_hex text : forallb isdigit text = true -> TnmHexToOid text = Some None.
Proof.
  intros H%digit_facts. unfold TnmHexToOid. assert (has_hex text = false) as ->; [|done]. induction text as [|c text IH]; [done|]. cbn [has_hex]. apply Forall_cons in H as [Hc H]. rewrite IH by done. rewrite orb_false_r.
  apply bool_decide_eq_false_2. unfold hex_separator. rewrite !bool_decide_eq_false_2 by (unfold chr_dot, chr_colon; lia). by intros [? ?].
Qed.

Lemma bind_ends {A B} (m : mib_out A) (k : A -> mib_out B) : m <> MibFault MibLoops -> (forall a, m = MibOk a -> k a <> MibFault MibLoops) -> m ≫= k <> MibFault MibLoops.
Proof. intros H1 H2. unfold mbind, mib_bind. destruct m as [a|f]; [by apply H2|congruence]. Qed.
Lemma deref_ends st p : deref st p <> MibFault MibLoops.
Proof. unfold deref. by destruct (mb_nodes st !! p). Qed.
Lemma oid_strcat_ends a b : oid_strcat a b <> MibFault MibLoops.
Proof. unfold oid_strcat. by case_decide. Qed.

(** The name of a number is looked for among the roots. *)
Lemma GetName_ends st text roots : chain (mb_nodes st) (mb_tree st) roots -> forallb isdigit text = true -> TnmMibGetName st text true <> MibFault MibLoops.
Proof.
  intros Hc Hd. unfold TnmMibGetName. rewrite digits_no_hex by done. apply bind_ends; [done|]. intros e [= <-]. cbn [default]. apply bind_ends.
  - unfold TnmMibFindNode. rewrite digits_split, digits_no_hex by done. apply bind_ends; [done|]. intros e [= <-]. cbn [default].
    assert (HO : TnmIsOid text = true).
    { unfold TnmIsOid. clear - Hd. generalize (length text). induction text as [|c text IH]; intros n; [by destruct n|]. cbn in Hd. apply andb_true_iff in Hd as [Hc Hd]. destruct n as [|n]; [done|]. cbn [is_oid_loop].
      pose proof Hc as Hc'. unfold isdigit in Hc'. apply bool_decide_eq_true in Hc'. rewrite !bool_decide_eq_false_2 by (unfold chr_dot, chr_colon; lia). rewrite Hc. cbn [andb negb]. by apply IH. }
    rewrite HO. apply bind_ends.
    + unfold LookupOID. apply bind_ends; [apply lookup_oid_value_ends|]. intros [[|first rest]|] E; [done| |done]. rewrite (digits_oid _ _ _ Hd E). apply bind_ends; [|by intros [p|] _].
      eapply find_sibling_ends; [exact Hc|]. pose proof (chain_length _ _ _ Hc). unfold steps. lia.
    + intros [[p|] off] _; [|done]. unfold check_module. apply bind_ends; [apply deref_ends|]. intros n _. by destruct (nd_moduleName n).
  - intros [[p|] off] _; [|done]. apply bind_ends; [apply deref_ends|]. intros n _. case_bool_decide; [|done]. do 2 (apply bind_ends; [apply oid_strcat_ends|]; intros ? _). done.
Qed.

Lemma ends_mib {B} P (f : mib_state -> parse B) Q : (forall mib roots, chain (mb_nodes mib) (mb_tree mib) roots -> ends P (f mib) Q) -> ends P (glob gl_mib ≫= f) Q.
Proof. intros H s Hs. pose proof Hs as (roots & _ & Hr & _). unfold mbind, parse_bind, glob, get. cbn. by eapply H. Qed.

Lemma ends_number_subid P v l : ends P (number_subid v l) (kept P).
Proof. unfold number_subid. destruct l; [by apply ends_fault|by apply ends_ret]. Qed.
#[export] Hint Resolve ends_number_subid : ends.

Lemma ends_read_subid P name l : ends P (read_subid (name, l)) (fun r P' k => match r with inl _ => P' = P /\ (1 <= k)%nat | inr r => P' = P end).
Proof.
  unfold read_subid. eapply ends_bind; [apply ends_keyword|]. intros [key text] P1 k1 H. ends_clean. cbv beta iota.
  destruct (bool_decide (key = RIGHTBRACKET)) eqn:?; [ends_all|]. destruct (bool_decide (key = LABEL)) eqn:?; [ends_all|]. destruct (bool_decide (key = LEFTPAREN)) eqn:?; [ends_all|].
  destruct (bool_decide (key = NUMBER)) eqn:E; [|ends_all]. apply bool_decide_eq_true in E. subst key. destruct l as [|np l]; [|ends_all].
  apply ends_mib. intros mib roots Hc. eapply ends_bind; [by apply ends_lift_kept; eapply GetName_ends; [exact Hc|apply Hnum]|]. intros label P2 k2 H2. ends_clean. ends_all.
Qed.

Lemma ends_ReadSubID P : ends P ReadSubID (kept P).
Proof. unfold ReadSubID. ends_all. apply ends_while_kept. intros [name l]. apply ends_read_subid. Qed.
#[export] Hint Resolve ends_ReadSubID : ends.

Lemma ends_add_subids P p l : ends P (add_subids p l) (kept P).
Proof. induction l as [|e l IH]; cbn [add_subids]; ends_all. Qed.
#[export] Hint Resolve ends_add_subids : ends.

Lemma ends_ParseNodeList P p : ends P (ParseNodeList p) (kept P).
Proof. unfold ParseNodeList. ends_all. Qed.
#[export] Hint Resolve ends_ParseNodeList : ends.

(** ** Types and nodes *)

Lemma ends_node P p : ends P (node p) (kept P).
Proof. unfold node. ends_all. Qed.
Lemma ends_type P a : ends P (type a) (kept P).
Proof. unfold type. ends_all. Qed.
#[export] Hint Resolve ends_node ends_type : ends.

Lemma scan_enums_ends : forall fuel str, scan_enums fuel str <> MibFault MibLoops.
Proof.
  induction fuel as [|fuel IH]; intros str; [done|]. cbn [scan_enums]. destruct str as [|c str]; [done|]. destruct (skip_chars _ _) as [|d val]; [done|].
  apply bind_ends; [unfold atoi_signed; destruct (Obj.skip_sign _); by case_decide|]. intros v _. apply bind_ends; [apply IH|done].
Qed.
Lemma ScanIntEnums_ends str : ScanIntEnums str <> MibFault MibLoops.
Proof. unfold ScanIntEnums. repeat case_match; try done; apply scan_enums_ends. Qed.
Lemma restrictions_ends syntax enums : restrictions_of syntax enums <> MibFault MibLoops.
Proof. unfold restrictions_of. repeat case_match; try done; by apply bind_ends; [apply ScanIntEnums_ends|]. Qed.
#[export] Hint Extern 1 (ends _ (lift (ScanIntEnums _)) _) => apply ends_lift_kept, ScanIntEnums_ends : ends.

Lemma ends_FindType P name : ends P (FindType name) (kept P).
Proof. unfold FindType. ends_all. Qed.
Lemma ends_AddType P a : ends P (AddType a) (kept P).
Proof. unfold AddType. ends_all. Qed.
#[export] Hint Resolve ends_FindType ends_AddType : ends.

Lemma ends_CreateType P name syntax displayHint enums : ends P (CreateType name syntax displayHint enums) (kept P).
Proof.
  unfold CreateType. eapply ends_bind; [apply ends_FindType|]. intros [a|] P1 k1 H; ends_clean; [by apply ends_ret|].
  eapply ends_bind; [apply (ends_lift_kept P); destruct enums; [apply restrictions_ends|done]|]. intros [kind l] P2 k2 H. ends_clean. ends_all.
Qed.
#[export] Hint Resolve ends_CreateType : ends.

(** ** Clauses *)

Lemma ends_status_clause P p : ends P (status_clause p) (kept P).
Proof. unfold status_clause. ends_all. Qed.
Lemma ends_description_clause P p : ends P (description_clause p) (kept P).
Proof. unfold description_clause. ends_all. Qed.
Lemma ends_first_description P p : ends P (first_description p) (kept P).
Proof. unfold first_description, description_clause. ends_all. Qed.
Lemma ends_augments_clause P p : ends P (augments_clause p) (kept P).
Proof. unfold augments_clause. ends_all. Qed.
Lemma ends_defval_clause P p : ends P (defval_clause p) (kept P).
Proof.
  unfold defval_clause. eapply ends_bind; [apply ends_expect|]. intros b P1 k1 H. ends_clean. destruct (negb b); [ends_all|].
  eapply ends_bind; [apply (ends_while_kept P); intros []; unfold read_defval; ends_all|]. intros i P2 k2 H. ends_clean. ends_all.
Qed.
Lemma ends_read_clauses P clauses : (forall key clause, clauses key = Some clause -> key <> EOF /\ ends P clause (kept P)) -> ends P (read_clauses clauses) (kept P).
Proof.
  intros Hc. apply ends_while_kept. intros []. unfold clause_round. eapply ends_bind; [apply ends_syntax|]. intros key P1 k1 H. ends_clean. destruct (bool_decide (key = EQUALS)); [ends_all|].
  destruct (clauses key) as [clause|] eqn:E; [|ends_all]. destruct (Hc _ _ E) as [Hk Hcl]. specialize (H Hk). eapply ends_bind; [exact Hcl|]. intros fine P2 k2 H2. ends_clean. apply ends_ret. destruct fine; [|done]. split; [done|lia].
Qed.
Lemma ends_node_list_end P fine p : ends P (node_list_end fine p) (kept P).
Proof. unfold node_list_end. ends_all. Qed.
#[export] Hint Resolve ends_status_clause ends_description_clause ends_first_description ends_augments_clause ends_defval_clause ends_node_list_end : ends.

(** ** Objects, traps and types *)

Lemma ends_range_open P syntax : ends P (range_open syntax) (kept P).
Proof. unfold range_open. ends_all. Qed.
#[export] Hint Resolve ends_range_open : ends.
Lemma ends_read_range_of P syntax : ends P (read_range_of syntax) (kept P).
Proof. unfold read_range_of. ends_all. Qed.
#[export] Hint Resolve ends_read_range_of : ends.
Lemma ends_read_restrictions P baseType : ends P (read_restrictions baseType) (kept P).
Proof. unfold read_restrictions. ends_all. Qed.
#[export] Hint Resolve ends_read_restrictions : ends.
Lemma ends_object_syntax P p syntax text : ends P (object_syntax p syntax text) (kept P).
Proof. unfold object_syntax. ends_all. Qed.
#[export] Hint Resolve ends_object_syntax : ends.
Lemma ends_access_clause P p : ends P (access_clause p) (kept P).
Proof. unfold access_clause. ends_all. Qed.
#[export] Hint Resolve ends_access_clause : ends.
Lemma ends_object_status P p : ends P (object_status p) (kept P).
Proof. unfold object_status. ends_all. Qed.
#[export] Hint Resolve ends_object_status : ends.
Lemma find_trap_parent_ends enterprise s l : forall fuel p, chain (nodes_of s) p l -> (length l <= fuel)%nat ->
  match find_trap_parent fuel p enterprise s with MibOk (_, s') => s' = s | MibFault f => f <> MibLoops end.
Proof.
  induction l as [|a l IH]; intros fuel p Hc Hf; [cbn in Hc; subst p; by destruct fuel|]. destruct Hc as [-> (n & Hn & Hc)]. destruct fuel as [|fuel]; [cbn in Hf; lia|]. cbn [find_trap_parent].
  unfold node, glob, get, not_null, lift, mbind, parse_bind. unfold nodes_of in Hn. cbn [compose]. change ((((fun g : mib_globals => mb_nodes (gl_mib g) !! a) ∘ ps_glob) s)) with (mb_nodes (gl_mib (ps_glob s)) !! a). rewrite Hn. cbn [of_option mret mib_ret].
  specialize (IH fuel (nd_nextPtr n) Hc ltac:(cbn in Hf; lia)). destruct (bool_decide (nd_subid n = 0)); [destruct (nd_parentName n); cbn; [|done]|cbn]; by case_bool_decide.
Qed.
Lemma ends_known_trap {B} P text (f : option cstring -> parse B) Q : (forall a, ends P (f a) Q) ->
  ends P (list ← get ps_nodeList; fuel ← glob (steps ∘ gl_mib); known ← find_trap_parent fuel list text; f known) Q.
Proof.
  intros H s Hs. pose proof Hs as (roots & l & _ & Hl & _). unfold glob, get, mbind, parse_bind. cbn [compose].
  pose proof (find_trap_parent_ends text s l (steps (gl_mib (ps_glob s))) (ps_nodeList s) Hl) as Hf. change ((steps ∘ gl_mib ∘ ps_glob) s) with (steps (gl_mib (ps_glob s))).
  assert (Hlen : (length l <= steps (gl_mib (ps_glob s)))%nat) by (pose proof (chain_length _ _ _ Hl) as Hc; unfold steps; unfold nodes_of in Hc; lia). specialize (Hf Hlen).
  destruct (find_trap_parent _ _ _ _) as [[known s']|f']; [|done]. subst s'. by apply H.
Qed.
Lemma ends_enterprise_clause P p bracket : ends P (enterprise_clause p bracket) (kept P).
Proof.
  unfold enterprise_clause. eapply ends_bind; [apply ends_keyword|]. intros [syntax text] P1 k1 H. ends_clean. cbv beta iota.
  eapply (ends_bind P _ _ (kept P)); [ends_all|]. intros [[b2 syntax2] text2] P1 k2 H. ends_clean. cbv beta iota. destruct (bool_decide _); [by apply ends_ret|].
  apply ends_known_trap. intros known. ends_all.
Qed.
#[export] Hint Resolve ends_enterprise_clause : ends.
Lemma ends_derive_type P name a offset status : ends P (derive_type name a offset status) (kept P).
Proof. unfold derive_type. ends_all. Qed.
#[export] Hint Resolve ends_derive_type : ends.
Lemma ends_named_type P name text offset status : ends P (named_type name text offset status) (kept P).
Proof. unfold named_type. ends_all. Qed.
#[export] Hint Resolve ends_named_type : ends.
Lemma ends_conventions P stop st : stop EOF = false -> ends P (while (convention_round stop) st) (kept P).
Proof.
  intros Hstop. apply ends_while_kept. intros [status offset]. unfold convention_round. eapply ends_bind; [apply ends_keyword|]. intros [syntax text] P1 k1 H. ends_clean. cbv beta iota.
  destruct (stop syntax); [by apply ends_ret|]. ends_all.
Qed.
Lemma ends_convention_restrictions P osyntax : ends P (convention_restrictions osyntax) (kept P).
Proof.
  unfold convention_restrictions. eapply ends_bind; [apply ends_keyword|]. intros [syntax text] P1 k1 H. ends_clean. cbv beta iota.
  eapply (ends_bind P _ _ (kept P)).
  - destruct (bool_decide (syntax = LEFTPAREN)); [|by apply ends_ret]. eapply ends_bind; [apply ends_range_open|]. intros [opened syntax1] P1 k2 H. ends_clean. cbv beta iota. destruct opened; [|by apply ends_ret].
    eapply ends_bind; [apply ends_read_range_of|]. intros [range syntax2] P1 k3 H. ends_clean. cbv beta iota. destruct range; [by apply ends_ret|]. destruct (bool_decide _); [by apply ends_ret|by apply ends_fault].
  - intros [enums syntax1] P1 k2 H. ends_clean. ends_all.
Qed.
#[export] Hint Resolve ends_convention_restrictions : ends.
Lemma ends_create_convention P name convention osyntax status offset : ends P (create_convention name convention osyntax status offset) (kept P).
Proof. unfold create_convention. ends_all. Qed.
#[export] Hint Resolve ends_create_convention : ends.
Lemma ends_textual_convention P name : ends P (textual_convention name) (kept P).
Proof.
  unfold textual_convention. eapply ends_bind; [by apply ends_conventions|]. intros [[found text] [status offset]] P1 k1 H. ends_clean. cbv beta iota. destruct found as [found|]; [|by apply ends_ret].
  eapply ends_bind; [apply ends_keyword|]. intros [merk text1] P1 k2 H. ends_clean. cbv beta iota. destruct (bool_decide (found = SYNTAX)); [ends_all|].
  eapply ends_bind; [by apply ends_conventions|]. intros [[there last] [status1 offset1]] P1 k3 H. ends_clean. cbv beta iota. destruct there; [|by apply ends_ret]. ends_all.
Qed.
#[export] Hint Resolve ends_textual_convention : ends.
Lemma ends_ParseASN1Type P name : ends P (ParseASN1Type name) (kept P).
Proof. unfold ParseASN1Type. ends_all. Qed.
#[export] Hint Resolve ends_ParseASN1Type : ends.
Lemma ends_header_imports P syntax text : ends P (header_imports syntax text) (kept P).
Proof.
  unfold header_imports. destruct (bool_decide _); [|by apply ends_ret]. eapply ends_bind; [apply ends_while_kept; intros []; unfold import_round; ends_all|]. intros [e|] P1 k1 H; ends_clean; ends_all.
Qed.
#[export] Hint Resolve ends_header_imports : ends.
Lemma ends_ParseHeader P name : ends P (ParseHeader name) (kept P).
Proof. unfold ParseHeader. ends_all. Qed.
#[export] Hint Resolve ends_ParseHeader : ends.

(** ** Macros *)

Section macros.
Context (Tcl_DStringAppendElement : cstring -> cstring -> cstring).

Lemma ends_names_clause P p : ends P (names_clause Tcl_DStringAppendElement p) (kept P).
Proof. unfold names_clause. ends_all. Qed.
Lemma ends_index_clause P p : ends P (index_clause Tcl_DStringAppendElement p) (kept P).
Proof.
  unfold index_clause. eapply ends_bind; [apply ends_expect|]. intros b P1 k1 H. ends_clean. destruct (negb b); [ends_all|].
  eapply ends_bind; [apply (ends_while_kept P); intros dst; unfold read_index; ends_all|]. intros [i|] P2 k2 H; ends_clean; ends_all.
Qed.
#[local] Hint Resolve ends_names_clause ends_index_clause : ends.

(** A macro makes a node that is in no list. *)
Definition defines (parse_macro : cstring -> parse (option nat)) : Prop :=
  forall name, ends None (parse_macro name) (fun p P' _ => match p with Some p => P' = Some p | None => True end).

(** The clauses of a macro and its end. *)
Lemma ends_clauses p clauses : (forall key clause, clauses key = Some clause -> key <> EOF /\ ends (Some p) clause (kept (Some p))) ->
  ends (Some p) (fine ← read_clauses clauses; node_list_end fine p) (fun q P' _ => match q with Some q => P' = Some q | None => True end).
Proof.
  intros Hc. eapply ends_bind; [by apply ends_read_clauses|]. intros fine P1 k1 H. ends_clean. unfold node_list_end. destruct fine; [|by apply ends_ret].
  eapply ends_bind; [apply ends_ParseNodeList|]. intros read P2 k2 H. ends_clean. apply ends_ret. by destruct read.
Qed.

Ltac ends_known := intros key clause; repeat (case_bool_decide; [intros [= <-]; subst; split; [discriminate|auto with ends]|]); done.

Lemma defines_compliance : defines ParseModuleCompliance.
Proof. intros name. eapply ends_bind; [apply ends_NewNode|]. intros p P1 k1 ->. apply ends_clauses. ends_known. Qed.
Lemma defines_identity : defines ParseModuleIdentity.
Proof. intros name. eapply ends_bind; [apply ends_NewNode|]. intros p P1 k1 ->. apply ends_clauses. ends_known. Qed.
Lemma defines_notification : defines (ParseNotificationType Tcl_DStringAppendElement).
Proof. intros name. eapply ends_bind; [apply ends_NewNode|]. intros p P1 k1 ->. apply ends_clauses. ends_known. Qed.
Lemma defines_capabilities : defines ParseCapabilitiesType.
Proof. intros name. eapply ends_bind; [apply ends_NewNode|]. intros p P1 k1 ->. apply ends_clauses. ends_known. Qed.
Lemma defines_object_identity : defines ParseObjectIdentity.
Proof. intros name. eapply ends_bind; [apply ends_NewNode|]. intros p P1 k1 ->. apply ends_clauses. ends_known. Qed.
Lemma defines_group names : defines (parse_group Tcl_DStringAppendElement names).
Proof.
  intros name. eapply ends_bind; [apply ends_expect|]. intros b P1 k1 H. ends_clean. destruct (negb b); [by apply ends_ret|]. eapply ends_bind; [apply ends_NewNode|]. intros p P1 k2 ->.
  eapply ends_bind; [apply ends_names_clause|]. intros b2 P1 k3 H. ends_clean. destruct (negb b2); [by apply ends_ret|]. apply ends_clauses. ends_known.
Qed.
Lemma defines_object_id : defines ParseObjectID.
Proof.
  intros name. eapply ends_bind; [apply ends_expect|]. intros b P1 k1 H. ends_clean. destruct (negb b); [by apply ends_ret|]. eapply ends_bind; [apply ends_NewNode|]. intros p P1 k2 ->.
  eapply ends_bind; [apply ends_set_node; done|]. intros [] P1 k3 H. ends_clean. unfold node_list_end. eapply ends_bind; [apply ends_ParseNodeList|]. intros read P2 k4 H. ends_clean. apply ends_ret. by destruct read.
Qed.

(** *** Object types *)

Lemma defines_object_type : defines (ParseObjectType Tcl_DStringAppendElement).
Proof.
  intros name. unfold ParseObjectType. eapply ends_bind; [apply ends_expect|]. intros b P1 k1 H. ends_clean. destruct (negb b); [by apply ends_ret|]. eapply ends_bind; [apply ends_NewNode|]. intros p P1 k2 ->.
  eapply ends_bind; [apply ends_set_node; done|]. intros [] P1 k3 H. ends_clean. eapply ends_bind; [apply ends_keyword|]. intros [syntax text] P1 k4 H. ends_clean. cbv beta iota. destruct (bool_decide _); [by apply ends_ret|].
  eapply ends_bind; [apply ends_set_node; done|]. intros [] P1 k5 H. ends_clean. eapply ends_bind; [apply ends_object_syntax|]. intros b1 P1 k6 H. ends_clean. destruct (negb b1); [by apply ends_ret|].
  eapply ends_bind; [apply ends_access_clause|]. intros b2 P1 k7 H. ends_clean. destruct (negb b2); [by apply ends_ret|]. eapply ends_bind; [apply ends_object_status|]. intros b3 P1 k8 H. ends_clean. destruct (negb b3); [by apply ends_ret|].
  apply ends_clauses. ends_known.
Qed.

(** *** Traps *)

Lemma ends_trap_round P p st : ends P (trap_round Tcl_DStringAppendElement p st) (fun r P' k => match r with inl _ => P' = P /\ (1 <= k)%nat | inr r => P' = P end).
Proof. destruct st as [bracket enterprise]. unfold trap_round. ends_all. Qed.

Lemma defines_trap : defines (ParseTrapType Tcl_DStringAppendElement).
Proof.
  intros name. unfold ParseTrapType. eapply ends_bind; [apply ends_NewNode|]. intros p P1 k1 ->. eapply ends_bind; [apply ends_while_kept; intros st; apply ends_trap_round|]. intros [enterprise|] P1 k2 H; ends_clean; [|by apply ends_ret].
  eapply ends_bind; [apply ends_keyword|]. intros [syntax text] P1 k3 H. ends_clean. cbv beta iota. destruct enterprise as [enterprise|]; [|by apply ends_ret]. destruct (bool_decide _); [by apply ends_ret|]. ends_all.
Qed.

End macros.

(** ** A bracket that is not closed *)

Definition eof_empty (t : token) : Prop := t.1.1 = EOF -> lx_file t.2 = [].
Lemma read_quoted_empty q l : forall file buf, eof_empty (read_quoted file q l buf).
Proof.
  induction file as [|c file IH]; intros buf; cbn [read_quoted]; [done|]. destruct (bool_decide (c = 10)); [apply IH|]. destruct (bool_decide (c = q)); [|apply IH]. destruct (bool_decide (q = 34)); [done|].
  destruct file as [|d file]; [done|]. destruct (_ || _); [done|]. by destruct (_ || _).
Qed.
Lemma read_word_empty file ch lastchar buf hash : all_ok (read_word file ch lastchar buf hash) eof_empty.
Proof. pose proof (read_word_within file ch lastchar buf hash) as H. destruct (read_word _ _ _ _ _); [|done]. by destruct H. Qed.
Lemma read_keyword_empty : forall fuel lx, all_ok (read_keyword fuel lx) eof_empty.
Proof.
  induction fuel as [|fuel IH]; intros lx; cbn [read_keyword]; (destruct (skip_space _) as [|ch file]; [done|]); (destruct (_ || _ || _); [cbn; apply read_quoted_empty|]); (destruct (bool_decide (ch = 45)); [|apply read_word_empty]);
    (destruct file as [|ch' file]; [done|]); (destruct (bool_decide (ch' = 45)); [|apply read_word_empty]); destruct (skip_comment file); try done; apply IH.
Qed.
Lemma keyword_empty s text s' : keyword s = MibOk (EOF, text, s') -> ps_file s' = [].
Proof.
  unfold keyword, ReadKeyword. pose proof (read_keyword_empty (length (ps_file s)) (mkLexer (ps_file s) (gl_lastchar (ps_glob s)))) as H. cbn [lx_file]. destruct (read_keyword _ _) as [[[k w] lx]|]; [|done]. intros [= -> -> <-]. by apply H.
Qed.

(** At the end of the file nothing changes any more. *)
Lemma keyword_stuck s text s' : ps_file s = [] -> keyword s = MibOk (EOF, text, s') -> s' = s.
Proof.
  intros Hf. assert (Hlx : all_ok (read_keyword 0 (mkLexer [] (gl_lastchar (ps_glob s)))) (fun t => t.1.1 = EOF -> t.2 = mkLexer [] (gl_lastchar (ps_glob s)))).
  { set (c := gl_lastchar (ps_glob s)). cbn [read_keyword lx_lastchar lx_file skip_space]. destruct (isspace c); [done|]. destruct (_ || _ || _); [done|]. destruct (bool_decide (c = 45)); [done|]. cbn [read_word].
    destruct (isspace c || is_special c); [|by apply all_ok_bind]. destruct (_ && _); [by do 3 (apply all_ok_bind; intros ? _)|].
    apply all_ok_bind. intros [[buf h] l] _. apply all_ok_bind. intros w _. destruct (find_keyword h w) as [tp|] eqn:E; [|intros H; by apply word_not_eof in H]. destruct (bool_decide _); [done|]. intros H. by apply found_not_eof in E. }
  unfold keyword, ReadKeyword. rewrite Hf. cbn [lx_file length]. destruct (read_keyword 0 _) as [[[k w] lx]|]; [|done]. intros [= -> -> <-]. cbn in Hlx. rewrite (Hlx eq_refl). cbn. destruct s as [[] f z l]. cbn in *. by subst.
Qed.

(** More fuel does not change a result. *)
Lemma loop_more {A R} (body : A -> parse (A + R)) : forall fuel n a s, (fuel <= n)%nat -> loop body n a s = MibFault MibLoops -> loop body fuel a s = MibFault MibLoops.
Proof.
  induction fuel as [|fuel IH]; intros n a s Hn Hl; [done|]. destruct n as [|n]; [lia|]. cbn [loop] in *. unfold mbind, parse_bind in *. destruct (body a s) as [[[a'|r] s']|f]; [|done|done]. by apply (IH n); [lia|].
Qed.

Lemma skip_step cnt s : match keyword s with
  | MibOk (key, _, s') =>
      let cnt' := if bool_decide (key = LEFTBRACKET) then S cnt else if bool_decide (key = RIGHTBRACKET) then pred cnt else cnt in
      skip_bracket cnt s = MibOk ((if bool_decide (cnt' = O) then inr tt else inl cnt'), s')
  | MibFault f => skip_bracket cnt s = MibFault f /\ f <> MibLoops end.
Proof.
  pose proof (ReadKeyword_ended (mkLexer (ps_file s) (gl_lastchar (ps_glob s)))) as He. unfold skip_bracket, syntax_of, keyword, mbind, parse_bind in *. destruct (ReadKeyword _) as [[[key text] lx]|f]; done.
Qed.

Lemma skip_stuck cnt s text : cnt <> O -> keyword s = MibOk (EOF, text, s) -> forall fuel, loop skip_bracket fuel cnt s = MibFault MibLoops.
Proof.
  intros Hc Hk. pose proof (skip_step cnt s) as H. rewrite Hk in H. change (bool_decide (EOF = LEFTBRACKET)) with false in H. change (bool_decide (EOF = RIGHTBRACKET)) with false in H. cbn in H. rewrite bool_decide_eq_false_2 in H by done.
  induction fuel as [|fuel IH]; [done|]. cbn [loop]. unfold mbind, parse_bind. rewrite H. exact IH.
Qed.

Lemma keyword_left s key text s' : keyword s = MibOk (key, text, s') -> (keywords_left s' <= keywords_left s)%nat /\ (key <> EOF -> (keywords_left s' < keywords_left s)%nat).
Proof.
  unfold keyword. pose proof (ReadKeyword_ended (mkLexer (ps_file s) (gl_lastchar (ps_glob s)))) as He. destruct (ReadKeyword _) as [[[k w] lx]|]; [|done]. intros [= -> -> <-]. exact (proj2 He).
Qed.

Lemma skip_from_end cnt s n : ps_file s = [] -> loop skip_bracket (2 + n) cnt s = MibFault MibLoops -> forall fuel, loop skip_bracket fuel cnt s = MibFault MibLoops.
Proof.
  intros Hf Hl fuel. cbn [loop Nat.add] in Hl. unfold mbind, parse_bind in Hl. pose proof (skip_step cnt s) as Hs. destruct (keyword s) as [[[key text] s1]|f] eqn:Ek; [|destruct Hs as [Hs ?]; rewrite Hs in Hl; congruence].
  cbv zeta in Hs. set (cnt1 := if bool_decide (key = LEFTBRACKET) then _ else _) in *. rewrite Hs in Hl. destruct (bool_decide (cnt1 = O)) eqn:Ec; [done|]. apply bool_decide_eq_false in Ec.
  destruct (decide (key = EOF)) as [->|Hkey].
  - pose proof (keyword_stuck _ _ _ Hf Ek) as ->. apply (skip_stuck cnt s text); [exact Ec|done].
  - destruct fuel as [|fuel]; [done|]. cbn [loop]. unfold mbind, parse_bind. rewrite Hs. pose proof (skip_step cnt1 s1) as Hs1.
    pose proof (proj2 (keyword_left _ _ _ _ Ek) Hkey) as Hlt. assert (Hk1 : keywords_left s1 = O). { unfold keywords_left in *. rewrite Hf in Hlt. cbn in Hlt. destruct (is_special (gl_lastchar (ps_glob s))); lia. }
    destruct (keyword s1) as [[[key1 text1] s2]|f] eqn:Ek1; [|destruct Hs1 as [Hs1 ?]; rewrite Hs1 in Hl; congruence]. destruct (decide (key1 = EOF)) as [->|Hkey1]; [|pose proof (proj2 (keyword_left _ _ _ _ Ek1) Hkey1); lia].
    assert (Hf1 : ps_file s1 = []) by (destruct (ps_file s1) eqn:E; [done|unfold keywords_left in Hk1; rewrite E in Hk1; cbn in Hk1; lia]). pose proof (keyword_stuck _ _ _ Hf1 Ek1) as ->. by apply (skip_stuck cnt1 s1 text1).
Qed.

Lemma skip_unclosed : forall n cnt s, (keywords_left s <= n)%nat -> loop skip_bracket (3 + n) cnt s = MibFault MibLoops -> forall fuel, loop skip_bracket fuel cnt s = MibFault MibLoops.
Proof.
  induction n as [n IH] using lt_wf_ind. intros cnt s Hn Hl fuel. destruct fuel as [|fuel]; [done|]. change (3 + n)%nat with (S (2 + n)) in Hl. cbn [loop] in Hl |- *. unfold mbind at 1, parse_bind at 1 in Hl. unfold mbind at 1, parse_bind at 1.
  pose proof (skip_step cnt s) as Hs. destruct (keyword s) as [[[key text] s1]|f] eqn:Ek; [|destruct Hs as [Hs ?]; rewrite Hs in Hl; congruence].
  cbv zeta in Hs. set (cnt1 := if bool_decide (key = LEFTBRACKET) then _ else _) in *. rewrite Hs in Hl |- *. destruct (bool_decide (cnt1 = O)) eqn:Ec; [done|].
  destruct (decide (key = EOF)) as [->|Hkey].
  - apply (skip_from_end cnt1 s1 n); [by eapply keyword_empty|exact Hl].
  - pose proof (proj2 (keyword_left _ _ _ _ Ek) Hkey) as Hlt. apply (IH (keywords_left s1)); [lia|lia|]. eapply loop_more; [|exact Hl]. lia.
Qed.

Lemma loop_skip_ok P : forall fuel cnt s r s', inv P s -> loop skip_bracket fuel cnt s = MibOk (r, s') ->
  exists P' k, inv P' s' /\ (keywords_left s' + k <= keywords_left s)%nat /\ ps_file s' `suffix_of` ps_file s /\ kept P r P' k.
Proof.
  induction fuel as [|fuel IH]; intros cnt s r s' Hs H; [discriminate H|]. cbn [loop] in H. unfold mbind at 1, parse_bind at 1 in H.
  pose proof (ends_keyword P s Hs) as Hk. pose proof (skip_step cnt s) as Hst. destruct (keyword s) as [[[key text] s1]|f]; [|destruct Hst as [Hst _]; by rewrite Hst in H]. cbv zeta in Hst. rewrite Hst in H.
  destruct Hk as (P1 & k1 & Hs1 & Hk1 & Hsuf & -> & _). destruct (bool_decide _).
  - injection H as <- <-. by exists P, k1.
  - destruct (IH _ _ _ _ Hs1 H) as (P2 & k2 & ? & ? & ? & ?). exists P2, k2. split; [done|]. split; [lia|]. split; [by etrans|done].
Qed.

(** ** Brackets *)

(** A bracket outside of a module that is not closed: however many keywords are read
    behind it, no more brackets are closed than are opened. *)
Fixpoint read_keys (n : nat) : parse (list Z) :=
  match n with
  | O => mret []
  | S n => key ← syntax_of; keys ← read_keys n; mret (key :: keys)
  end.
Definition brackets (key : Z) (keys : list Z) : nat := length (filter (fun k => k = key) keys).
Definition unclosed (cnt : nat) (s : parser) : Prop :=
  forall n, exists keys s', read_keys n s = MibOk (keys, s') /\ (brackets RIGHTBRACKET keys < cnt + brackets LEFTBRACKET keys)%nat.
Definition open_bracket (lo : locals) (s : parser) : Prop :=
  lo_inMib lo = false /\ exists text s', keyword s = MibOk (LEFTBRACKET, text, s') /\ unclosed 1 s'.

Lemma read_keys_S n s : read_keys (S n) s =
  match keyword s with MibOk (key, _, s') => match read_keys n s' with MibOk (keys, s'') => MibOk (key :: keys, s'') | MibFault f => MibFault f end | MibFault f => MibFault f end.
Proof.
  cbn [read_keys]. unfold syntax_of, mbind, parse_bind. destruct (keyword s) as [[[key text] s']|f]; [|done]. cbn. by destruct (read_keys n s') as [[keys s'']|f].
Qed.

Lemma brackets_cons key keys cnt cnt' : cnt' = (if bool_decide (key = LEFTBRACKET) then S cnt else if bool_decide (key = RIGHTBRACKET) then pred cnt else cnt) -> cnt <> O ->
  (brackets RIGHTBRACKET (key :: keys) + cnt' + brackets LEFTBRACKET keys = brackets RIGHTBRACKET keys + cnt + brackets LEFTBRACKET (key :: keys))%nat.
Proof.
  intros -> Hc. unfold brackets. rewrite !filter_cons. case_bool_decide as HL; [|case_bool_decide as HR]; subst; repeat case_decide; cbn [length]; try lia; try done.
Qed.

Lemma loop_unclosed : forall n cnt s, cnt <> O -> (forall fuel, loop skip_bracket fuel cnt s = MibFault MibLoops) ->
  exists keys s', read_keys n s = MibOk (keys, s') /\ (brackets RIGHTBRACKET keys < cnt + brackets LEFTBRACKET keys)%nat.
Proof.
  induction n as [|n IH]; intros cnt s Hc Hl; [exists [], s; split; [done|cbn; lia]|].
  pose proof (skip_step cnt s) as Hs. rewrite read_keys_S. assert (Hl' : forall fuel, loop skip_bracket (S fuel) cnt s = MibFault MibLoops) by (intros; apply Hl). cbn [loop] in Hl'. unfold mbind, parse_bind in Hl'.
  destruct (keyword s) as [[[key text] s1]|f]; [|destruct Hs as [Hs ?]; specialize (Hl' O); rewrite Hs in Hl'; congruence].
  cbv zeta in Hs. remember (if bool_decide (key = LEFTBRACKET) then _ else _) as cnt1 eqn:Ec. rewrite Hs in Hl'. destruct (bool_decide (cnt1 = O)) eqn:E0; [by specialize (Hl' O)|]. apply bool_decide_eq_false in E0.
  destruct (IH cnt1 s1 E0 Hl') as (keys & s' & -> & Hlt). exists (key :: keys), s'. split; [done|]. pose proof (brackets_cons key keys cnt cnt1 Ec Hc). lia.
Qed.

Lemma unclosed_loop : forall fuel cnt s, cnt <> O -> unclosed cnt s -> loop skip_bracket fuel cnt s = MibFault MibLoops.
Proof.
  induction fuel as [|fuel IH]; intros cnt s Hc Hu; [done|]. cbn [loop]. unfold mbind, parse_bind. pose proof (skip_step cnt s) as Hs.
  assert (Hu' : forall n, exists keys s', read_keys (S n) s = MibOk (keys, s') /\ (brackets RIGHTBRACKET keys < cnt + brackets LEFTBRACKET keys)%nat) by (intros n; apply Hu).
  destruct (keyword s) as [[[key text] s1]|f] eqn:Ek.
  2: { destruct (Hu' O) as (keys & s' & H & _). rewrite read_keys_S, Ek in H. done. }
  cbv zeta in Hs. remember (if bool_decide (key = LEFTBRACKET) then _ else _) as cnt1 eqn:Ec. rewrite Hs.
  assert (Hall : unclosed cnt1 s1).
  { intros n. destruct (Hu' n) as (keys & s' & H & Hlt). rewrite read_keys_S, Ek in H. destruct (read_keys n s1) as [[keys1 s2]|]; [|done]. injection H as <- <-. exists keys1, s2. split; [done|]. pose proof (brackets_cons key keys1 cnt cnt1 Ec Hc). lia. }
  assert (Hc1 : cnt1 <> O) by (destruct (Hall O) as (keys & s' & H & Hlt); injection H as <- <-; cbn in Hlt; lia).
  rewrite bool_decide_eq_false_2 by done. by apply IH.
Qed.

(** ** The loop over the file *)

Section file.
Context (Tcl_DStringAppendElement : cstring -> cstring -> cstring).

Lemma macro_defines syntax macro parse_macro : macro_of Tcl_DStringAppendElement syntax = Some (macro, parse_macro) -> defines parse_macro.
Proof.
  unfold macro_of.
  case_bool_decide; [intros [= _ <-]; apply defines_compliance|].
  case_bool_decide; [intros [= _ <-]; apply defines_identity|].
  case_bool_decide; [intros [= _ <-]; apply defines_notification|].
  case_bool_decide; [intros [= _ <-]; apply defines_group|].
  case_bool_decide; [intros [= _ <-]; apply defines_capabilities|].
  case_bool_decide; [intros [= _ <-]; apply defines_trap|].
  case_bool_decide; [intros [= _ <-]; apply defines_group|].
  case_bool_decide; [intros [= _ <-]; apply defines_object_identity|].
  case_bool_decide; [intros [= _ <-]; apply defines_object_id|].
  case_bool_decide; [intros [= _ <-]; apply defines_object_type|].
  done.
Qed.

Lemma ends_define macro parse_macro lo : defines parse_macro -> ends None (define macro parse_macro lo) (fun r P' _ => match r with inl _ => P' = None | inr _ => True end).
Proof.
  intros Hd. unfold define. eapply ends_bind; [apply ends_lift_option; discriminate|]. intros name P1 k1 H. ends_clean. eapply ends_bind; [apply Hd|]. intros [p|] P1 k2 H; [|by apply ends_ret]. cbn in H. subst P1.
  eapply ends_bind; [apply ends_glob|]. intros module P1 k3 H. ends_clean. eapply ends_bind; [apply ends_set_node; done|]. intros [] P1 k4 H. ends_clean. eapply ends_bind; [apply ends_push_node|]. intros [] P1 k5 H. ends_clean. by apply ends_ret.
Qed.

Lemma ends_type_assignment lo : ends None (type_assignment lo) (fun r P' _ => P' = None).
Proof.
  unfold type_assignment. eapply ends_bind; [apply ends_lift_option; discriminate|]. intros name P1 k1 H. ends_clean. eapply ends_bind; [apply ends_ParseASN1Type|]. intros [syntax text] P1 k2 H. ends_clean. cbv beta iota zeta.
  eapply (ends_bind None _ _ (kept None)); [ends_all|]. intros lo' P1 k3 H. ends_clean. destruct (is_base_type syntax); [ends_all|]. eapply (ends_bind None _ _ (kept None)); [|intros [] P1 k4 H; ends_clean; by apply ends_ret].
  destruct (lo_lastOT _); [|by apply ends_ret]. destruct (bool_decide _); [|by apply ends_ret]. apply ends_set_node. intros ?. by destruct (bool_decide _).
Qed.
Lemma ends_type_range lo : ends None (type_range lo) (fun r P' _ => P' = None).
Proof. unfold type_range. ends_all. Qed.
Lemma ends_type_enums lo : ends None (type_enums lo) (fun r P' _ => P' = None).
Proof. unfold type_enums. ends_all. Qed.

Lemma ends_in_mib lo syntax text : ends None (in_mib Tcl_DStringAppendElement lo syntax text) (fun r P' _ => match r with inl _ => P' = None | inr _ => True end).
Proof.
  unfold in_mib. destruct (bool_decide (syntax = END)); [ends_all|]. destruct (bool_decide (syntax = EQUALS)); [eapply ends_weaken; [apply ends_type_assignment|by intros [] ? ?]|]. destruct (bool_decide (syntax = LABEL)); [ends_all|].
  destruct (bool_decide (syntax = LEFTPAREN)); [eapply ends_weaken; [apply ends_type_range|by intros [] ? ?]|]. destruct (bool_decide (syntax = LEFTBRACKET)); [eapply ends_weaken; [apply ends_type_enums|by intros [] ? ?]|].
  destruct (macro_of _ syntax) as [[macro parse_macro]|] eqn:E; [|by apply ends_ret]. apply ends_define. by eapply macro_defines.
Qed.

Lemma ends_out_of_mib lo syntax text : syntax <> LEFTBRACKET -> ends None (out_of_mib lo syntax text) (fun r P' _ => match r with inl _ => P' = None | inr _ => True end).
Proof.
  intros Hs. unfold out_of_mib. rewrite (bool_decide_eq_false_2 _ Hs). destruct (bool_decide (syntax = DEFINITIONS)); [|ends_all].
  eapply ends_bind; [apply ends_lift_option; discriminate|]. intros name P1 k2 H. ends_clean. eapply ends_bind; [apply ends_ParseHeader|]. intros [s2 t2] P1 k3 H. ends_clean. cbv beta iota. apply ends_ret. by destruct (_ || _).
Qed.

Lemma round_ends lo s : inv None s ->
  match parse_round Tcl_DStringAppendElement lo s with
  | MibOk (inl _, s') => inv None s' /\ (keywords_left s' < keywords_left s)%nat
  | MibOk (inr _, _) => True
  | MibFault f => f = MibLoops -> open_bracket lo s
  end.
Proof.
  intros Hs. unfold parse_round. pose proof (ends_keyword None s Hs) as Hk. unfold mbind at 1, parse_bind at 1. destruct (keyword s) as [[[syntax text] s1]|f] eqn:E; [|done]. destruct Hk as (P1 & k1 & Hs1 & Hk1 & Hsuf & -> & Hkey & _). cbn [fst] in Hkey.
  destruct (bool_decide (syntax = EOF)) eqn:Eeof; [done|]. apply bool_decide_eq_false in Eeof. specialize (Hkey Eeof).
  assert (Hgo : forall m : parse file_round, ends None m (fun r P' _ => match r with inl _ => P' = None | inr _ => True end) ->
    match m s1 with MibOk (inl _, s') => inv None s' /\ (keywords_left s' < keywords_left s)%nat | MibOk (inr _, _) => True | MibFault f => f = MibLoops -> open_bracket lo s end).
  { intros m Hm. specialize (Hm s1 Hs1). destruct (m s1) as [[[lo'|r] s2]|f]; [|done|done]. destruct Hm as (P2 & k2 & Hs2 & Hk2 & _ & ->). split; [done|lia]. }
  destruct (lo_inMib lo) eqn:Hin; [apply Hgo, ends_in_mib|]. destruct (decide (syntax = LEFTBRACKET)) as [->|Hb]; [|by apply Hgo, ends_out_of_mib].
  unfold out_of_mib. change (bool_decide (LEFTBRACKET = DEFINITIONS)) with false. change (bool_decide (LEFTBRACKET = LABEL)) with false. change (bool_decide (LEFTBRACKET = LEFTBRACKET)) with true. cbn iota.
  unfold mbind, parse_bind. destruct (while skip_bracket 1%nat s1) as [[[] s2]|f] eqn:Ew.
  - destruct (loop_skip_ok None _ _ _ _ _ Hs1 Ew) as (P2 & k2 & Hs2 & Hk2 & _ & ->). split; [done|lia].
  - intros ->. split; [done|]. exists text, s1. split; [done|]. intros n. apply loop_unclosed; [done|]. by eapply skip_unclosed.
Qed.

(** The states in front of the rounds of [ParseFile]. *)
Inductive reaches (g : mib_globals) (content : cstring) : locals -> parser -> Prop :=
  | reaches_start : reaches g content (mkLocals false None None None None) (mkParser g content (length content) None)
  | reaches_round lo s lo' s' : reaches g content lo s -> parse_round Tcl_DStringAppendElement lo s = MibOk (inl lo', s') -> reaches g content lo' s'.

Lemma loop_reaches g content lo s : reaches g content lo s -> forall fuel r, loop (parse_round Tcl_DStringAppendElement) fuel (mkLocals false None None None None) (mkParser g content (length content) None) = r ->
  r = MibFault MibLoops \/ exists fuel', loop (parse_round Tcl_DStringAppendElement) fuel' lo s = r.
Proof.
  induction 1 as [|lo s lo' s' _ IH Hr]; intros fuel r Hf; [right; by exists fuel|]. destruct (IH fuel r Hf) as [->|[[|fuel'] Hf']]; [by left|left; by rewrite <- Hf'|]. right. exists fuel'. cbn [loop] in Hf'. unfold mbind at 1, parse_bind at 1 in Hf'. by rewrite Hr in Hf'.
Qed.

Lemma loop_open g content : forall fuel lo s, inv None s -> reaches g content lo s -> (keywords_left s < fuel)%nat -> loop (parse_round Tcl_DStringAppendElement) fuel lo s = MibFault MibLoops ->
  exists lo s, reaches g content lo s /\ open_bracket lo s.
Proof.
  induction fuel as [|fuel IH]; intros lo s Hs Hr Hf Hl; [lia|]. cbn [loop] in Hl. unfold mbind at 1, parse_bind at 1 in Hl. pose proof (round_ends lo s Hs) as Hround.
  destruct (parse_round Tcl_DStringAppendElement lo s) as [[[lo'|r] s']|f] eqn:E; [|done|].
  - destruct Hround as [Hs' Hlt]. apply (IH lo' s'); [done|by eapply reaches_round|lia|done].
  - injection Hl as ->. exists lo, s. split; [done|by apply Hround].
Qed.

(** C13: The parser returns on every file, except that it never ends behind a bracket outside
    of a module that is not closed. *)
Theorem mib_parse_ends g content roots : chain (mb_nodes (gl_mib g)) (mb_tree (gl_mib g)) roots ->
  ParseFile Tcl_DStringAppendElement (mkParser g content (length content) None) = MibFault MibLoops <-> exists lo s, reaches g content lo s /\ open_bracket lo s.
Proof.
  intros Hroots. unfold ParseFile, while. split.
  - apply loop_open; [by exists roots, []|by constructor|lia].
  - intros (lo & s & Hr & Hin & text & s' & Hk & Hloop). assert (Hskip : forall fuel, loop skip_bracket fuel 1%nat s' = MibFault MibLoops) by (intros; by apply unclosed_loop). destruct (loop_reaches g content lo s Hr (3 + keywords_left (mkParser g content (length content) None)) _ eq_refl) as [H|[[|fuel] H]]; [exact H|by rewrite <- H|]. rewrite <- H. cbn [loop]. unfold mbind at 1, parse_bind at 1.
    unfold parse_round. rewrite Hin. unfold mbind at 1, parse_bind at 1. rewrite Hk. change (bool_decide (LEFTBRACKET = EOF)) with false. cbn iota. unfold out_of_mib. change (bool_decide (LEFTBRACKET = DEFINITIONS)) with false.
    change (bool_decide (LEFTBRACKET = LABEL)) with false. change (bool_decide (LEFTBRACKET = LEFTBRACKET)) with true. cbn iota. unfold mbind, parse_bind, while. by rewrite Hskip.
Qed.
End file.

(** A file that ends, and one that does not. *)
Definition empty_globals : mib_globals := mkGlobals (mkMib ∅ [] None None None []) ∅ None [] ∅ None chr_blank.
Definition closed_file : cstring := cstr "{ {} } A DEFINITIONS ::= BEGIN x OBJECT IDENTIFIER ::= { y 1 } END ".
Definition open_file : cstring := cstr "{ {} A DEFINITIONS ::= BEGIN x OBJECT IDENTIFIER ::= { y 1 } END ".

Lemma mib_parse_ends_witness :
  ~ (exists lo s, reaches (fun dst name => dst ++ name) empty_globals closed_file lo s /\ open_bracket lo s) /\
  (exists lo s, reaches (fun dst name => dst ++ name) empty_globals open_file lo s /\ open_bracket lo s).
Proof.
  split.
  - intros H. apply (mib_parse_ends (fun dst name => dst ++ name) empty_globals closed_file []) in H; [|reflexivity]. vm_compute in H. discriminate H.
  - apply (mib_parse_ends (fun dst name => dst ++ name) empty_globals open_file []); [reflexivity|]. vm_compute. reflexivity.
Defined.
